(* ===== verification/_CoqProject ===== *)
-Q . S2P
Prelude.v
CString.v
Bits.v
LibMybox.v
Xmkdir.v
Uplinkd.v
JsAttrib.v
HtmlFilter.v
HtmlStream.v
ContentFilter.v
PatFile.v
Modules.v
Escape.v
Heap.v
P3Line.v
P3Match.v
ParseFile.v
P3Proxy.v
Md5.v
Event.v
StMem.v
Range.v
Header.v
Rfc1123.v
HdrField.v
Reply.v
Rfc1035.v
Dns.v
Delay.v
Splay.v
Url.v
AclData.v
Acl.v
AclCheck.v
AclConf.v
Monitor.v
Lcd.v
Tools.v
Chkprog.v
Taskq.v
Console.v
Hash.v
Clamav.v
FileMap.v
Digest.v
Refresh.v
StoreDigest.v
PeerDigest.v
