(* ===== verification/Prelude.v ===== *)
(** * myboxfs: a verification library

    The repository holds the software of the MyBox/Tracenetwork firewall
    appliance: the appliance's own daemons and library (v3.1/src/mybox,
    v2.1/src/mybox), its fork of the squid proxy with content filters
    (v3.0/src/squid-mybox) and its fork of the p3scan mail proxy
    (v3.0/src/p3scan-mybox).  This library models parts of each as functions on
    explicit states and proves what they do.

    ** How the parts interact

    A web page goes through the proxy: squid's hooks (module.c) ask the modules
    for a filter; the HTML filter (cfmod_htmlfilter.c) cuts the stream into
    tags, parses their attributes and calls the tag callback of the module
    that was configured (cfmod_content.c, cfmod_script.c); the modules look up
    their exceptions in pattern files (patfile.c).  The virus filter
    (cfmod_clamav.c) keeps the chunk it scans in a temporary file that a hash
    table finds by url and client (filters/lib.c, hash.c).  Inside squid the object is
    kept in pages (stmem.c), replaced by a heap of keys (heap.c), timers run
    from the event queue (event.c), and range requests are read and
    normalised (HttpHdrRange.c).  The headers of requests and replies are read into
    arrays of entries with a mask (HttpHeader.c), whose values are directives, ranges
    and dates (HttpHdrCc.c, HttpHdrContRange.c, rfc1123.c), and those that belong to
    one connection are taken out of a reply (client_side.c).  A reply of a server is
    read (HttpReply.c) and kept or not (http.c), under a mark of the fields it varies
    by, until its expiration (refresh.c).  A request line is parsed (url.c) and asked
    against the lists of the configuration (acl.c), whose elements are splay
    trees of addresses and names (splay.c) and patterns; an element that needs
    a name, an address or a user starts a lookup and the check goes on when it
    is answered.  Addresses and names come from the internal resolver
    (dns_internal.c), which packs and unpacks messages (rfc1035.c), keeps its
    queries in a hash table and a list by age, and is driven by the event
    queue.  Lists also choose the delay pool of a client (delay_pools.c), which
    bounds the bytes it may read.  An object in the cache is fresh or stale by
    the refresh rules (refresh.c) and has a file number of a bit map
    (filemap.c).  What the cache holds is published for other proxies as a Bloom
    filter (CacheDigest.c) of the objects that stay fresh, rebuilt and written
    by events (store_digest.c); the other side fetches it and asks it before it
    asks the cache (peer_digest.c).  A mail goes through p3scan: its loop reads lines of client and server
    (getlinep3.c), passes them on, catches the mails that are asked for, has them
    scanned and sends them, or a notice from a template in which parameters are
    replaced (parsefile.c).  On the appliance, uplinkd probes the gateways and
    moves the default route; chkprog looks for the services that should run and
    leaves requests for those that do not, which taskq-check and taskq turn into
    commands; the console (iosh.c, login.c) asks for passwords, whose digests
    it checks (md5.c), before it starts a shell; trafficd and cpu sum up the
    counters of the kernel and lcdd shows them on the panel; all use the small
    libmybox functions.

    ** Files

    - Prelude: bytes, machine integers, the monad of programs with a trace of
      events, automation.  CString: libc on C strings, as lists of bytes.
    - LibMybox, Xmkdir: v3.1/src/mybox/lib, one definition per function.
    - Uplinkd: v3.1/src/mybox/src/uplinkd.c; a daemon state, each routine a
      program over it whose trace is the commands, log lines and probes; the
      answers of ping are a function of the trace so far.
    - JsAttrib, HtmlFilter, HtmlStream, ContentFilter: v3.0/src/squid-mybox/
      filters: the perfect hash of attribute names, the byte machine and the
      attribute parser of the filter, the theorems on streams against the
      interface [TagCallback], and the two callbacks that implement it.
    - PatFile, Modules: patfile.c, the hooks of module.c and the simple
      filter modules (cookies, types, redirection).
    - Escape: lib/base64.c, lib/rfc1738.c, lib/html_quote.c.
    - Heap: lib/heap.c, nodes in a store of pointers and an array of them.
    - Event, StMem, Range: src/event.c (over the interface [Clock] of times),
      src/stmem.c, src/HttpHdrRange.c.
    - Header, Rfc1123, HdrField: src/HttpHeader.c with the lists of HttpHeaderTools.c;
      lib/rfc1123.c with the calendar of libc; src/HttpHdrCc.c, HttpHdrContRange.c,
      ETag.c, HttpStatusLine.c and what rewrites a header in place.
    - Reply: src/HttpReply.c, HttpMsg.c, [headersEnd] of mime.c, and of http.c what
      may be kept and the marks of variants.
    - Rfc1035, Dns: lib/rfc1035.c and src/dns_internal.c; the resolver is a
      state with a store of queries, its clients' callbacks and packets are
      events of the trace.
    - Delay: src/delay_pools.c; the answers of the access lists are an argument.
    - Splay: lib/splay.c, with the interface [Intervals] of comparisons whose
      entries lie apart from each other.
    - Url: src/url.c; the static buffer of urlParse is a value passed through.
    - AclData, Acl, AclCheck, AclConf: src/acl.c: the data of an element and its
      parsers; the elements, the lines and the check as a state machine with
      its lookups; the answer of a check; the configuration and its types.
    - Bits, FileMap: arrays of bits in words; src/filemap.c and its use in
      src/fs/ufs/store_dir_ufs.c.
    - Digest, Refresh, StoreDigest, PeerDigest: src/CacheDigest.c, src/refresh.c,
      src/store_digest.c and src/peer_digest.c; events and answers of the store
      come in any order, the table and the clock of a step are its argument.
    - Hash, Clamav: lib/hash.c with its pointers, and the interface [StringTable]
      it implements; filters/cfmod_clamav.c and filters/lib.c over that interface.
    - P3Line, P3Match, ParseFile, P3Proxy: the mail proxy: getlinep3.c, the matching
      helpers of p3scan.c, parsefile.c, and a POP3 connection of p3scan.c as a state
      monad whose inputs are lines, timeouts and the results of writes.
    - Md5: v2.1's lib/md5.c and prog/login.c, with a specification of RFC 1321.
    - Chkprog, Taskq: v3.1's src/chkprog.c and src/taskq-check.c over the file
      system of Xmkdir, and v3.0's prog/taskq.c.
    - Console: v3.1's lib/iosh.c and lib/login.c as programs with a trace.
    - Monitor, Lcd, Tools: v3.1's src/trafficd.c, cpu.c, loadavg.c, the panel lcdd.c, and
      getkey.c, sophos_scan.c, syslog-filter.c; what the kernel and the keys say is input.

    Function and field names are those of the source; where C has a statement
    that changes memory the model has a new value, where it has an offset or
    a bound the model has a number, and what C leaves undefined is a value of
    its own ([Crash], [None], a write out of a block).

    ** What the theorems show

    - Filters: a SCRIPT element (of text, comments and other tags) is removed, and of
      a tag exactly the attributes that run no script are passed on, while pages without
      tags of interest pass unchanged, with the length announced; lemmas of
      ContentFilter show the ways around: an attribute BACKGROUND, an object that a
      script writes, a value whose quotes are not restored.  The attribute parser stays inside its arrays
      and reads back what the filter writes; a pattern file is the list of
      rules its lines spell, and a substitution puts in the matched groups.
    - Uplinkd: in failover mode the main loop leaves the route of an abstract
      machine, that of the first uplink that is up; in balancer mode it acts
      on changes only.
    - Headers: the parser ends on every text, leaves one Content-Length at most and a
      mask and a length that are those of the entries; headers, Cache-Control and dates
      are read as they were written, dates up to the year in which the program stops
      to accept them; the fields a reply's Connection names are removed, but for a
      Connection that names itself, where an assertion fails.  A reply is read as it
      was packed; no text of a server fails an assertion on the way; two requests have
      the same mark exactly when they agree on the fields that Vary names.
    - Hash table and virus filter: a traversal of the table with removals on the
      way misses nothing and gives nothing twice; whatever fails, a chunk is
      refused, passed or replaced in its length (an url of more than 1024 bytes
      overflows the key of its file), and as long as nothing fails each chunk between the
      two sizes of the module is judged by itself and the others pass unscanned.
    - Refinements: the heap implements a finite map with a least key, the
      pages of an object a window on a stream, the map of file numbers a finite
      set, the line reader the splitting
      of a stream independent of how it arrives, xmkdir the creation of a path,
      MD5 and its incremental interface the function of RFC 1321.
    - Equivalence with reference definitions: replacement in templates, access
      lists, MD5.
    - Resolver: an unpacked message never reads outside the packet nor writes
      outside the name; every query's client is called exactly once, at the
      latest when its deadline passes; the structures of the resolver agree, up to the
      datagrams of two kinds on which the unpacker's assertion ends the process.
    - Delay pools: the arrays of hosts and networks refine a table of buckets
      by host, and a run of operations never hands out more than the rates allow.
    - Access lists: an address or domain element matches exactly the hosts of
      its entries, in whatever order the splaying has left them; a check answers
      as the list read from the configuration says, at once when the answers
      are known and otherwise after at most five lookups, which fill the caches (for
      elements but [external] and [max_user_ip] and an authentication that is
      settled); data read as another
      type than it was parsed as is impossible, but for two types declared empty.
    - URLs: whatever is parsed stays within the buffers of a request, and an
      URL that the proxy writes is read back as the same request.
    - Digests: in whatever order rebuilds, rewrites and deletions come, no
      assertion fails, neither side waits for ever, and a published object tests
      true for every object that stays; a peer never has two fetches at a time
      nor forgets a digest it needs, only a "not modified" that was not asked for
      fails an assertion of its, and what it fetched, with the control block in one
      piece, answers as it did at the other side.  An object is served by the rules and the
      request exactly when the stated conditions hold.
    - Mail proxy: a client learns nothing of the body of an infected mail, whenever
      timeouts pass and writes fail; a clean mail reaches it line by line; the reader
      of lines fails at the end of the input or on a line as long as its buffer only,
      and gets there.
    - Appliance: the state of chkprog after a turn lists exactly the services that
      should run and do not, with their commands for taskq; taskq starts them in
      order; no builtin of the console starts a shell or a program without the password, but
      for the pager and the version; a turn of trafficd
      appends the traffic of every table, and the stack of lcdd grows with each key.
    - Round trips: base64, URL escaping, URLs, DNS queries, headers, dates, written tags.
    - Invariants and termination: the event queue with its locks, a run of the
      queue whatever the handlers add; the login loop.

    ** Fuel and bounds

    A loop that is not structural takes fuel, and its theorem shows that a
    stated amount is enough: one more than the bytes of the text (template
    search, pattern substitution, list items, header fields, words of a date), than the events queued
    (eventRun), than the nodes of the heap (sifting), or than the bytes of a
    number; a search in a chain of the hash table takes the links in memory, a walk to
    the next bucket the buckets and one more.  A name of a message takes the pointer limit of the code and two
    more, the search of a free query number 65,536, the scan of the resolver's
    list twice its length, the scans of a delay pool the 256 slots of its maps
    (257 for the terminating slot); a check makes five lookups, one for each
    state it keeps.  Splaying recurses over the tree.  The map of file numbers grows
    at most 11 times before its numbers end, and an allocation looks at most
    twice; a password is asked four times at most.  Integers that wrap in C are reduced by [wrapu] and [wraps].

    ** Not modelled

    Sockets, files and processes beyond the events above; loading of modules
    (dlopen); regcomp, regexec, gethostbyname and the scan of libclamav, which
    are parameters; sqlite; the rest of squid, SMTP and IMAP in p3scan; vendor drivers, vendored
    programs, shell and web scripts, and the older releases v1.x and v2.0. *)

From Stdlib Require Export ZArith Lia.
From stdpp Require Export base option strings gmap numbers.
From stdpp Require Export list.

#[global] Open Scope Z_scope.

(** ** C strings

    A C string is the list of its bytes (values 0..255) up to, and without,
    the terminating NUL. *)

Definition bytes (s : string) : list Z :=
  map (fun c => Z.of_nat (Ascii.nat_of_ascii c)) (String.list_ascii_of_string s).
Arguments bytes s%_string.

Definition is_byte (c : Z) : Prop := 0 <= c < 256.

(** The contents of a C string: bytes, none of them NUL. *)
Definition is_cstr (s : list Z) : Prop := Forall (fun c => 0 < c < 256) s.

(** ** Machine integers *)

Definition wrapu (w x : Z) : Z := x mod 2 ^ w.
Definition wraps (w x : Z) : Z := (x + 2 ^ (w - 1)) mod 2 ^ w - 2 ^ (w - 1).

Abbreviation u8 := (wrapu 8).
Abbreviation u16 := (wrapu 16).
Abbreviation u32 := (wrapu 32).
Abbreviation i8 := (wraps 8).
Abbreviation i32 := (wraps 32).

Lemma wrapu_small (w x : Z) : 0 <= x < 2 ^ w -> wrapu w x = x.
Proof. intros H. apply Z.mod_small. exact H. Qed.

Lemma wraps_small (w x : Z) :
  0 < w -> - 2 ^ (w - 1) <= x < 2 ^ (w - 1) -> wraps w x = x.
Proof.
  intros Hw H. unfold wraps.
  assert (E : 2 ^ w = 2 * 2 ^ (w - 1)).
  { rewrite <- Z.pow_succ_r by lia. f_equal. lia. }
  rewrite Z.mod_small; lia.
Qed.

(** Disjoint bits are added. *)
Lemma lor_add (x y n : Z) : 0 <= n -> 0 <= y < 2 ^ n -> Z.lor (x * 2 ^ n) y = x * 2 ^ n + y.
Proof.
  intros Hn Hy. rewrite <- Z.add_lor_land.
  enough (E : Z.land (x * 2 ^ n) y = 0) by lia.
  apply Z.bits_inj'. intros k Hk. rewrite Z.land_spec, Z.bits_0.
  destruct (Z.lt_ge_cases k n).
  - by rewrite Z.mul_pow2_bits_low.
  - replace (Z.testbit y k) with false; [by rewrite andb_false_r|]. symmetry.
    rewrite <- (Z.mod_small y (2 ^ n)) by done. by rewrite Z.mod_pow2_bits_high by lia.
Qed.

Lemma wrapu_range (w x : Z) : 0 <= w -> 0 <= wrapu w x < 2 ^ w.
Proof. intros H. apply Z.mod_pos_bound. apply Z.pow_pos_nonneg; lia. Qed.

(** Arithmetic with division and remainder. *)
Ltac dlia := Z.to_euclidean_division_equations; lia.

Lemma land_ones (x w : Z) : 0 <= w -> Z.land x (2 ^ w - 1) = x mod 2 ^ w.
Proof. intros H. rewrite <- Z.land_ones by lia. by rewrite Z.ones_equiv, Z.sub_1_r. Qed.

(** ** Programs with state and an observable trace

    A [prog S E A] reads the program state and the history of the events
    performed so far, and gives a result, the new state and the new events, in
    order.  What the environment answers is a function of the history, so a
    model over [prog] covers every behaviour of the environment. *)

Definition prog (S E A : Type) : Type := S -> list E -> A * S * list E.

Section Prog.
Context {S E : Type}.

#[global] Instance prog_ret : MRet (prog S E) :=
  fun A a s h => (a, s, []).

#[global] Instance prog_bind : MBind (prog S E) :=
  fun A B f m s h =>
    let '(a, s1, t1) := m s h in
    let '(b, s2, t2) := f a s1 (h ++ t1) in
    (b, s2, t1 ++ t2).

Definition get : prog S E S := fun s h => (s, s, []).
Definition put (s : S) : prog S E unit := fun _ h => (tt, s, []).
Definition modify (f : S -> S) : prog S E unit := fun s h => (tt, f s, []).
Definition emit (e : E) : prog S E unit := fun s h => (tt, s, [e]).
(** Perform [e] and receive the environment's answer to it. *)
Definition ask {R : Type} (env : list E -> R) (e : E) : prog S E R :=
  fun s h => (env (h ++ [e]), s, [e]).

Definition result {A} (x : A * S * list E) : A := x.1.1.
Definition final {A} (x : A * S * list E) : S := x.1.2.
Definition trace {A} (x : A * S * list E) : list E := x.2.
End Prog.

Arguments prog_ret {S E} A a s h /.
Arguments prog_bind {S E} A B f m s h /.
Arguments emit {S E} e s h /.
Arguments get {S E} s h /.
Arguments put {S E} s _ h /.
Arguments modify {S E} f s h /.
Arguments ask {S E R} env e s h /.

(** Run a program one bind at a time. *)
Ltac prog_simpl :=
  unfold mbind, mret, prog_bind, prog_ret, get, put, modify, emit, ask,
    result, final, trace in *;
  cbv beta iota in *; cbn [app fst snd] in *; rewrite ?app_nil_r.

(** ** Automation *)

Create HintDb mybox.

(** Proof by cases on one boolean test of the goal, and on all of them. *)
Ltac bcase :=
  match goal with |- context [if ?b then _ else _] => destruct b eqn:? end.

Ltac bcases :=
  repeat match goal with
  | H : context [if ?b then _ else _] |- _ => destruct b eqn:?
  | |- context [if ?b then _ else _] => destruct b eqn:?
  end.

(** Turn boolean comparisons in the context into propositions. *)
Ltac btoprop :=
  repeat match goal with
  | H : andb _ _ = true |- _ => apply andb_true_iff in H as [? ?]
  | H : orb _ _ = false |- _ => apply orb_false_iff in H as [? ?]
  | H : negb _ = true |- _ => apply negb_true_iff in H
  | H : negb _ = false |- _ => apply negb_false_iff in H
  | H : (_ =? _) = true |- _ => apply Z.eqb_eq in H
  | H : (_ =? _) = false |- _ => apply Z.eqb_neq in H
  | H : (_ <=? _) = true |- _ => apply Z.leb_le in H
  | H : (_ <=? _) = false |- _ => apply Z.leb_gt in H
  | H : (_ <? _) = true |- _ => apply Z.ltb_lt in H
  | H : (_ <? _) = false |- _ => apply Z.ltb_ge in H
  end.

#[export] Hint Resolve Forall_take Forall_drop : mybox.
