(* ===== verification/CString.v ===== *)
(** * The C library functions the sources use

    <string.h> and <ctype.h> (C locale) on C strings as byte lists.  Positions
    are offsets from the start of the string. *)

From S2P Require Import Prelude.

Definition isspace (c : Z) : bool := (c =? 32) || ((9 <=? c) && (c <=? 13)).
Definition isdigit (c : Z) : bool := (48 <=? c) && (c <=? 57).
Definition toupper (c : Z) : Z := if (97 <=? c) && (c <=? 122) then c - 32 else c.
Definition tolower (c : Z) : Z := if (65 <=? c) && (c <=? 90) then c + 32 else c.

Definition strlen (s : list Z) : Z := Z.of_nat (length s).

Definition strcmp_eq (s t : list Z) : bool := bool_decide (s = t).

(** [strcasecmp s t == 0] *)
Definition strcasecmp_eq (s t : list Z) : bool :=
  bool_decide (map tolower s = map tolower t).

Fixpoint prefixb (p s : list Z) : bool :=
  match p, s with
  | [], _ => true
  | _ :: _, [] => false
  | a :: p', b :: s' => (a =? b) && prefixb p' s'
  end.

Fixpoint strchr (s : list Z) (c : Z) : option nat :=
  match s with
  | [] => None
  | a :: s' => if a =? c then Some 0%nat else S <$> strchr s' c
  end.

Fixpoint strstr (s p : list Z) : option nat :=
  if prefixb p s then Some 0%nat
  else match s with
       | [] => None
       | _ :: s' => S <$> strstr s' p
       end.

Definition in_set (set : list Z) (c : Z) : bool := bool_decide (c ∈ set).

Fixpoint strspn (s set : list Z) : nat :=
  match s with
  | [] => 0%nat
  | c :: s' => if in_set set c then S (strspn s' set) else 0%nat
  end.

(** The longest prefix without a byte of [set], and what follows it. *)
Fixpoint break (set s : list Z) : list Z * list Z :=
  match s with
  | [] => ([], [])
  | c :: s' => if in_set set c then ([], s)
               else let '(t, r) := break set s' in (c :: t, r)
  end.

(** One call of [strtok] on the text [s] still to be read: the token, and the
    text after the delimiter that ended it. *)
Definition strtok (s set : list Z) : option (list Z * list Z) :=
  match drop (strspn s set) s with
  | [] => None
  | s1 => let '(t, r) := break set s1 in Some (t, drop 1 r)
  end.

(** The C string at the start of a buffer. *)
Fixpoint cstr (s : list Z) : list Z :=
  match s with
  | [] => []
  | c :: s' => if c =? 0 then [] else c :: cstr s'
  end.

(** [strcpy] to the start of a buffer. *)
Definition poke (s buf : list Z) : list Z := s ++ 0 :: drop (S (length s)) buf.

(** ** Laws *)

Lemma strlen_app (s t : list Z) : strlen (s ++ t) = strlen s + strlen t.
Proof. unfold strlen. rewrite length_app. lia. Qed.

Lemma strlen_nonneg (s : list Z) : 0 <= strlen s.
Proof. unfold strlen. lia. Qed.

Lemma strlen_nil : strlen [] = 0.
Proof. done. Qed.

Lemma prefixb_spec (p s : list Z) : prefixb p s = true <-> p `prefix_of` s.
Proof.
  revert s; induction p as [|a p IH]; intros [|b s]; simpl.
  - split; [intros; apply prefix_nil | done].
  - split; [intros; apply prefix_nil | done].
  - split; [done | intros H; by apply prefix_nil_not in H].
  - rewrite andb_true_iff, IH, Z.eqb_eq. split.
    + intros [-> H]. by apply prefix_cons.
    + intros H. split; [by apply prefix_cons_inv_1 in H | by apply prefix_cons_inv_2 in H].
Qed.

Lemma prefixb_app (p s : list Z) : prefixb p (p ++ s) = true.
Proof. apply prefixb_spec. by exists s. Qed.

Lemma strchr_Some (s : list Z) (c : Z) (i : nat) :
  strchr s c = Some i -> s !! i = Some c /\ c ∉ take i s.
Proof.
  revert i; induction s as [|a s IH]; intros i; simpl; [done|].
  destruct (a =? c) eqn:E.
  - intros [= <-]. apply Z.eqb_eq in E as ->. split; [done | apply not_elem_of_nil].
  - intros (j & Hj & ->)%fmap_Some. apply IH in Hj as [H1 H2].
    simpl. split; [done|]. apply Z.eqb_neq in E. set_solver.
Qed.

Lemma strchr_app (s r : list Z) (c : Z) : (c ∉ s) -> strchr (s ++ c :: r) c = Some (length s).
Proof.
  induction s as [|d s IH]; cbn [app strchr]; [by rewrite Z.eqb_refl|]. intros [Hd Hs]%not_elem_of_cons.
  rewrite (proj2 (Z.eqb_neq d c)) by congruence. by rewrite IH.
Qed.

Lemma drop_past (s r : list Z) (c : Z) : drop (S (length s)) (s ++ c :: r) = r.
Proof. induction s as [|d s IH]; [done | exact IH]. Qed.

Lemma strchr_None (s : list Z) (c : Z) : strchr s c = None <-> c ∉ s.
Proof.
  induction s as [|a s IH]; simpl.
  - split; [intros; apply not_elem_of_nil | done].
  - destruct (Z.eqb_spec a c).
    + subst. split; [done | set_solver].
    + rewrite fmap_None, IH. set_solver.
Qed.

(** [strstr] returns the first match: it splits the string around it. *)
Lemma strstr_Some (s p : list Z) (i : nat) :
  strstr s p = Some i ->
  s = take i s ++ p ++ drop (i + length p) s /\
  (forall j, (j < i)%nat -> prefixb p (drop j s) = false).
Proof.
  revert i; induction s as [|a s IH]; intros i.
  - simpl. destruct (prefixb p []) eqn:E; [|done]. intros [= <-].
    apply prefixb_spec, prefix_nil_inv in E as ->. split; [done | lia].
  - simpl. destruct (prefixb p (a :: s)) eqn:E.
    + intros [= <-]. apply prefixb_spec in E as [k Hk]. split; [|lia].
      simpl. rewrite Hk at 1. f_equal.
      rewrite Hk. by rewrite drop_app_length.
    + intros (j & Hj & ->)%fmap_Some. apply IH in Hj as [H1 H2]. split.
      * simpl. f_equal. exact H1.
      * intros [|k] Hk; simpl; [exact E | apply H2; lia].
Qed.

Lemma strstr_bound (s p : list Z) (i : nat) :
  strstr s p = Some i -> (i + length p <= length s)%nat.
Proof.
  revert i; induction s as [|a s IH]; intros i; simpl.
  - destruct p; simpl; [intros [= <-]; lia | done].
  - destruct (prefixb p (a :: s)) eqn:E.
    + intros [= <-]. apply prefixb_spec, prefix_length in E. simpl in *. lia.
    + intros (j & Hj & ->)%fmap_Some. apply IH in Hj. lia.
Qed.

Lemma strstr_None (s p : list Z) :
  strstr s p = None <-> forall j, prefixb p (drop j s) = false.
Proof.
  induction s as [|a s IH]; simpl.
  - destruct (prefixb p []) eqn:E; split; try done.
    + intros H. specialize (H 0%nat). simpl in H. congruence.
    + intros _ j. by rewrite drop_nil.
  - destruct (prefixb p (a :: s)) eqn:E; split; try done.
    + intros H. specialize (H 0%nat). simpl in H. congruence.
    + intros H%fmap_None [|j]; simpl; [done|]. by apply IH.
    + intros H. apply fmap_None, IH. intros j. exact (H (S j)).
Qed.

Lemma strspn_le (s set : list Z) : (strspn s set <= length s)%nat.
Proof. induction s; simpl; [lia|]. destruct (in_set _ _); lia. Qed.

Lemma strspn_take (s set : list Z) :
  Forall (fun c => c ∈ set) (take (strspn s set) s).
Proof.
  induction s as [|c s IH]; simpl; [constructor|].
  destruct (in_set set c) eqn:E; simpl; [|constructor].
  constructor; [by apply bool_decide_eq_true in E | exact IH].
Qed.

Lemma strspn_drop (s set : list Z) (c : Z) :
  head (drop (strspn s set) s) = Some c -> c ∉ set.
Proof.
  induction s as [|d s IH]; simpl; [done|].
  destruct (in_set set d) eqn:E; simpl; [exact IH|].
  intros [= <-]. by apply bool_decide_eq_false in E.
Qed.

Lemma break_app (set s : list Z) : s = (break set s).1 ++ (break set s).2.
Proof.
  induction s as [|c s IH]; simpl; [done|].
  destruct (in_set set c); [done|].
  destruct (break set s) as [t r]; simpl in *. by rewrite IH at 1.
Qed.

Lemma break_fst (set s : list Z) : Forall (fun c => c ∉ set) (break set s).1.
Proof.
  induction s as [|c s IH]; simpl; [constructor|].
  destruct (in_set set c) eqn:E; [constructor|].
  destruct (break set s) as [t r]; simpl in *. constructor; [|exact IH].
  by apply bool_decide_eq_false in E.
Qed.

Lemma break_snd (set s : list Z) (c : Z) :
  head (break set s).2 = Some c -> c ∈ set.
Proof.
  induction s as [|d s IH]; simpl; [done|].
  destruct (in_set set d) eqn:E.
  - simpl. intros [= <-]. by apply bool_decide_eq_true in E.
  - destruct (break set s) as [t r]; exact IH.
Qed.

Lemma toupper_tolower (a b : Z) :
  toupper a = toupper b <-> tolower a = tolower b.
Proof.
  unfold toupper, tolower.
  destruct (Z.leb_spec 97 a), (Z.leb_spec a 122), (Z.leb_spec 97 b), (Z.leb_spec b 122),
    (Z.leb_spec 65 a), (Z.leb_spec a 90), (Z.leb_spec 65 b), (Z.leb_spec b 90); simpl; lia.
Qed.

Lemma isspace_set (c : Z) :
  isspace c = in_set [32; 10; 13; 9; 11; 12] c.
Proof.
  unfold isspace, in_set. symmetry.
  destruct (bool_decide _) eqn:E.
  - apply bool_decide_eq_true in E. set_unfold.
    destruct E as [->|[->|[->|[->|[->|[->|[]]]]]]]; reflexivity.
  - apply bool_decide_eq_false in E. set_unfold.
    symmetry. apply orb_false_iff. split; [apply Z.eqb_neq; lia|].
    apply andb_false_iff. rewrite Z.leb_gt, Z.leb_gt. lia.
Qed.

#[export] Hint Resolve strspn_take break_fst prefixb_app : mybox.

(** ** Formatted output and input *)

(** [%d] and [%u]. *)
Fixpoint digits (fuel : nat) (n : Z) : list Z :=
  match fuel with
  | O => []
  | S fuel => (if n <? 10 then [] else digits fuel (n / 10)) ++ [48 + n mod 10]
  end.

(** Enough fuel for 64-bit values: 20 digits. *)
Definition dec (n : Z) : list Z :=
  if n <? 0 then 45 :: digits 20 (- n) else digits 20 n.

(** [snprintf(buf, size, ...)] of a text: what fits before the NUL. *)
Definition snprintf (size : nat) (s : list Z) : list Z := take (pred size) s.

(** The lines [fgets] reads with a buffer of [size] bytes: up to and with the
    newline, or [size - 1] bytes. *)
Fixpoint fgets_from (room : nat) (size : nat) (s cur : list Z) : list (list Z) :=
  match s with
  | [] => match cur with [] => [] | _ => [cur] end
  | c :: s' =>
      if (c =? 10) then (cur ++ [c]) :: fgets_from size size s' []
      else match room with
           | O | S O => (cur ++ [c]) :: fgets_from size size s' []
           | S room' => fgets_from room' size s' (cur ++ [c])
           end
  end.

Definition fgets_lines (size : nat) (s : list Z) : list (list Z) :=
  fgets_from (pred size) (pred size) s [].

Fixpoint skip_space (s : list Z) : list Z :=
  match s with
  | c :: s' => if isspace c then skip_space s' else s
  | [] => []
  end.

Fixpoint scan_digits (s : list Z) (acc : Z) : Z * list Z :=
  match s with
  | c :: s' => if isdigit c then scan_digits s' (10 * acc + (c - 48)) else (acc, s)
  | [] => (acc, [])
  end.

(** [INT_MIN .. INT_MAX], where [strtol] saturates with a 32-bit [long]. *)
Definition clamp (n : Z) : Z := Z.max (- 2 ^ 31) (Z.min n (2 ^ 31 - 1)).

(** The [%d] of [sscanf]: the number and the rest, [None] on a matching
    failure. *)
Definition scan_int (s : list Z) : option (Z * list Z) :=
  let s := skip_space s in
  let '(sign, s) := match s with
                    | 45 :: s' => (-1, s')
                    | 43 :: s' => (1, s')
                    | _ => (1, s)
                    end in
  match s with
  | c :: _ => if isdigit c then let '(n, r) := scan_digits s 0 in Some (clamp (sign * n), r)
              else None
  | [] => None
  end.

(** The [%s] of [sscanf]: a run of non-space bytes. *)
Fixpoint span_word (s : list Z) : list Z * list Z :=
  match s with
  | c :: s' => if isspace c then ([], s) else let '(w, r) := span_word s' in (c :: w, r)
  | [] => ([], [])
  end.

Definition scan_word (s : list Z) : option (list Z * list Z) :=
  match span_word (skip_space s) with
  | ([], _) => None
  | (w, r) => Some (w, r)
  end.

Definition atoi (s : list Z) : Z :=
  match scan_int s with Some (n, _) => n | None => 0 end.

(** *** Numbers that are printed and read *)

Definition add_digit (a c : Z) : Z := 10 * a + (c - 48).

Definition no_digit (rest : list Z) : Prop :=
  match rest with c :: _ => isdigit c = false | [] => True end.

Lemma scan_digits_run (ds rest : list Z) (acc : Z) :
  Forall (fun c => isdigit c = true) ds -> no_digit rest ->
  (scan_digits (ds ++ rest) acc).1 = foldl add_digit acc ds.
Proof.
  intros Hd Hr. revert acc; induction Hd as [|c ds Hc _ IH]; intros acc; simpl.
  - destruct rest as [|c rest]; [done|]. simpl in *. by rewrite Hr.
  - rewrite Hc. apply IH.
Qed.

Lemma digits_value (fuel : nat) (n : Z) :
  0 <= n < 10 ^ Z.of_nat fuel -> foldl add_digit 0 (digits fuel n) = n.
Proof.
  revert n; induction fuel as [|fuel IH]; intros n Hn; [simpl in *; lia|].
  cbn [digits]. rewrite foldl_app. cbn [foldl]. unfold add_digit at 1.
  destruct (Z.ltb_spec n 10) as [Hs|Hs].
  - cbn [foldl]. rewrite Z.mod_small by lia. lia.
  - rewrite Nat2Z.inj_succ, Z.pow_succ_r in Hn by lia. rewrite IH by dlia. dlia.
Qed.

Lemma digits_digit (fuel : nat) (n : Z) :
  0 <= n -> Forall (fun c => isdigit c = true) (digits fuel n).
Proof.
  revert n; induction fuel as [|fuel IH]; intros n Hn; [constructor|]. cbn [digits].
  apply Forall_app. split.
  - destruct (n <? 10); [constructor|]. apply IH. dlia.
  - constructor; [|constructor]. unfold isdigit. apply andb_true_iff.
    split; apply Z.leb_le; dlia.
Qed.

Lemma dec_digits (n : Z) : 0 <= n -> dec n = digits 20 n.
Proof. intros Hn. unfold dec. by destruct (Z.ltb_spec n 0); [lia|]. Qed.

Lemma dec_head (n : Z) : 0 <= n -> exists c s, dec n = c :: s /\ isdigit c = true.
Proof.
  intros Hn. pose proof (digits_digit 20 n Hn) as Hd. rewrite dec_digits by done.
  destruct (digits 20 n) as [|c s] eqn:E.
  - cbn [digits] in E. by destruct (if n <? 10 then _ else _).
  - apply Forall_cons in Hd as [Hc _]. by exists c, s.
Qed.

Lemma isdigit_range (c : Z) : isdigit c = true -> 48 <= c <= 57.
Proof. unfold isdigit. intros H. btoprop. lia. Qed.

Lemma isspace_digit (c : Z) : isdigit c = true -> isspace c = false.
Proof. intros Hc%isdigit_range. unfold isspace. destruct (Z.eqb_spec c 32), (Z.leb_spec 9 c), (Z.leb_spec c 13); done || lia. Qed.

(** A number without a sign. *)
Lemma scan_int_digits (c : Z) (s : list Z) : isdigit c = true ->
  scan_int (c :: s) = let '(n, r) := scan_digits (c :: s) 0 in Some (clamp (1 * n), r).
Proof.
  intros Hc. pose proof (isdigit_range c Hc) as Hr. unfold scan_int. cbn [skip_space]. rewrite (isspace_digit c Hc).
  assert (Hcase : c = 48 \/ c = 49 \/ c = 50 \/ c = 51 \/ c = 52 \/ c = 53 \/ c = 54 \/ c = 55 \/ c = 56 \/ c = 57) by lia.
  destruct (scan_digits (c :: s) 0) as [m r] eqn:E. destruct_or! Hcase; subst c; cbv iota beta zeta; by rewrite Hc, E.
Qed.

Lemma atoi_digits (c : Z) (s : list Z) : isdigit c = true -> atoi (c :: s) = clamp (1 * (scan_digits (c :: s) 0).1).
Proof. intros Hc. unfold atoi. rewrite scan_int_digits by done. by destruct (scan_digits (c :: s) 0). Qed.

Lemma scan_digits_rest (ds rest : list Z) (acc : Z) :
  Forall (fun c => isdigit c = true) ds -> no_digit rest -> (scan_digits (ds ++ rest) acc).2 = rest.
Proof.
  intros Hd Hr. revert acc. induction Hd as [|c ds Hc _ IH]; intros acc; cbn [app scan_digits]; [|by rewrite Hc].
  destruct rest as [|c rest]; [done|]. cbn in Hr. cbn [scan_digits]. by rewrite Hr.
Qed.

Lemma scan_int_dec (n : Z) (rest : list Z) : 0 <= n < 2 ^ 31 -> no_digit rest -> scan_int (dec n ++ rest) = Some (n, rest).
Proof.
  intros Hn Hr. assert (E : scan_digits (dec n ++ rest) 0 = (n, rest)).
  { pose proof (digits_digit 20 n ltac:(lia)) as Hd. rewrite dec_digits by lia. rewrite (surjective_pairing (scan_digits _ _)), scan_digits_rest, scan_digits_run by done.
    f_equal. apply digits_value. change (10 ^ Z.of_nat 20) with 100000000000000000000. lia. }
  destruct (dec_head n ltac:(lia)) as (c & s & Ed & Hc). rewrite Ed in *. cbn [app] in *. rewrite scan_int_digits, E by done. cbv beta iota zeta. do 2 f_equal. unfold clamp. lia.
Qed.

Lemma atoi_dec_app (n : Z) (rest : list Z) : 0 <= n < 2 ^ 31 -> no_digit rest -> atoi (dec n ++ rest) = n.
Proof. intros Hn Hr. unfold atoi. by rewrite scan_int_dec. Qed.

Lemma atoi_dec (n : Z) : 0 <= n < 2 ^ 31 -> atoi (dec n) = n.
Proof. intros Hn. rewrite <- (app_nil_r (dec n)). by apply atoi_dec_app. Qed.

Lemma skip_space_replicate (k : nat) (s : list Z) : skip_space (replicate k 32 ++ s) = skip_space s.
Proof. by induction k. Qed.

(** A line that fits the buffer is read whole. *)
Lemma fgets_line (size : nat) (l : list Z) : forall (room : nat) (s cur : list Z),
  (10 ∉ l) -> (length l < room)%nat ->
  fgets_from room size (l ++ 10 :: s) cur = (cur ++ l ++ [10]) :: fgets_from size size s [].
Proof.
  induction l as [|c l IH]; intros room s cur Hn Hr; [done|].
  apply not_elem_of_cons in Hn as [Hc Hn]. simpl in *.
  destruct (Z.eqb_spec c 10); [congruence|].
  destruct room as [|[|room]]; [lia|simpl in *; lia|].
  rewrite IH by (done || lia). by rewrite <- app_assoc.
Qed.

Lemma cstr_id (s : list Z) : Forall (fun c => 0 < c < 256) s -> cstr s = s.
Proof.
  induction 1 as [|c s Hc _ IH]; [done|]. cbn. rewrite (proj2 (Z.eqb_neq c 0)) by lia. by rewrite IH.
Qed.

Lemma cstr_app_nul (s t : list Z) : cstr (s ++ 0 :: t) = cstr s.
Proof. induction s as [|c s IH]; simpl; [done|]. destruct (c =? 0); congruence. Qed.

Lemma tolower_idem (c : Z) : tolower (tolower c) = tolower c.
Proof.
  unfold tolower. destruct (Z.leb_spec 65 c), (Z.leb_spec c 90); simpl;
    bcase; btoprop; lia.
Qed.
