(* ===== verification/Bits.v ===== *)
(** * Bits: arrays of bits kept in words

    The file map and the cache digests of squid keep sets of numbers as the
    bits of an array of words, whose width is [W]. *)

From S2P Require Import Prelude.

(** One bit of a word. *)
Lemma land_bit (w i : Z) : 0 <= i -> negb (Z.land w (2 ^ i) =? 0) = Z.testbit w i.
Proof.
  intros Hi. destruct (Z.eqb_spec (Z.land w (2 ^ i)) 0) as [E|E].
  - assert (H : Z.testbit (Z.land w (2 ^ i)) i = false) by by rewrite E, Z.bits_0.
    rewrite Z.land_spec, Z.pow2_bits_true, andb_true_r in H by done. by rewrite H.
  - destruct (Z.testbit w i) eqn:Eb; [done|]. destruct E. apply Z.bits_inj'. intros j Hj.
    rewrite Z.land_spec, Z.bits_0. destruct (decide (i = j)) as [->|Hne]; [by rewrite Eb|].
    by rewrite Z.pow2_bits_false, andb_false_r by done.
Qed.

Section Bits.
Variable W : Z.
Hypothesis W_pos : 0 < W.

(** The word of a bit, and the bit. *)
Definition word_at (l : list Z) (n : Z) : Z := nth (Z.to_nat (n / W)) l 0.
Definition getbit (l : list Z) (n : Z) : bool := Z.testbit (word_at l n) (n mod W).
Definition put_word (l : list Z) (n w : Z) : list Z := <[Z.to_nat (n / W) := w]> l.

Definition words_ok (l : list Z) : Prop := Forall (fun w => 0 <= w < 2 ^ W) l.
Definition bits_of (l : list Z) : Z := W * Z.of_nat (length l).

Lemma mod_bit (n : Z) : 0 <= n mod W < W.
Proof. apply Z.mod_pos_bound. exact W_pos. Qed.

Lemma div_word (l : list Z) (n : Z) : 0 <= n < bits_of l -> 0 <= n / W /\ (Z.to_nat (n / W) < length l)%nat.
Proof.
  unfold bits_of. intros Hn. assert (0 <= n / W) by (apply Z.div_pos; lia).
  assert (n / W < Z.of_nat (length l)) by (apply Z.div_lt_upper_bound; lia). lia.
Qed.

Lemma word_at_lookup (l : list Z) (n : Z) : 0 <= n < bits_of l -> l !! Z.to_nat (n / W) = Some (word_at l n).
Proof.
  intros Hn. destruct (div_word l n Hn) as [_ Hl]. destruct (lookup_lt_is_Some_2 l _ Hl) as [w Hw].
  rewrite Hw. f_equal. symmetry. by apply nth_lookup_Some.
Qed.

Lemma word_range (l : list Z) (n : Z) : words_ok l -> 0 <= word_at l n < 2 ^ W.
Proof.
  intros H. unfold word_at. rewrite nth_lookup. destruct (l !! _) eqn:E; cbn [default].
  - by apply (Forall_lookup_1 _ _ _ _ H E).
  - split; [lia | apply Z.pow_pos_nonneg; lia].
Qed.

Lemma same_bit (m n : Z) : m / W = n / W -> (n mod W =? m mod W) = bool_decide (m = n).
Proof.
  intros E. pose proof (Z.div_mod m W ltac:(lia)) as Em. pose proof (Z.div_mod n W ltac:(lia)) as En.
  destruct (Z.eqb_spec (n mod W) (m mod W)) as [H|H]; symmetry.
  - apply bool_decide_eq_true_2. congruence.
  - apply bool_decide_eq_false_2. by intros ->.
Qed.

Lemma getbit_put (l : list Z) (n w m : Z) :
  0 <= n < bits_of l -> 0 <= m -> getbit (put_word l n w) m = if decide (m / W = n / W) then Z.testbit w (m mod W) else getbit l m.
Proof.
  intros Hn Hm. destruct (div_word l n Hn) as [Hn0 Hl]. unfold getbit, put_word, word_at.
  destruct (decide (m / W = n / W)) as [->|Hne]; f_equal.
  - apply nth_lookup_Some. by apply list_lookup_insert_eq.
  - rewrite !nth_lookup. rewrite list_lookup_insert_ne; [done|]. intros E. apply Hne.
    apply Z2Nat.inj; [apply Z.div_pos; lia.. | done].
Qed.

Lemma testbit_low (w i : Z) : 0 <= w < 2 ^ W -> W <= i -> Z.testbit w i = false.
Proof. intros Hw Hi. rewrite <- (Z.mod_small w (2 ^ W)) by done. by apply Z.mod_pow2_bits_high; lia. Qed.

Lemma lor_range (w i : Z) : 0 <= w < 2 ^ W -> 0 <= i < W -> 0 <= Z.lor w (2 ^ i) < 2 ^ W.
Proof.
  intros Hw Hi. split; [apply Z.lor_nonneg; split; [lia | apply Z.pow_nonneg; lia]|].
  assert (Hp : 0 < 2 ^ W) by (apply Z.pow_pos_nonneg; lia).
  destruct (decide (Z.lor w (2 ^ i) = 0)) as [->|Hne]; [lia|].
  apply Z.log2_lt_cancel. rewrite Z.log2_pow2 by lia.
  pose proof (Z.pow_pos_nonneg 2 i ltac:(lia) ltac:(lia)). rewrite Z.log2_lor by lia. apply Z.max_lub_lt.
  - destruct (decide (w = 0)) as [->|]; [by rewrite Z.log2_nonpos|]. apply Z.log2_lt_pow2; lia.
  - rewrite Z.log2_pow2 by lia. lia.
Qed.

Lemma land_range (w x : Z) : 0 <= w < 2 ^ W -> 0 <= Z.land w x < 2 ^ W.
Proof.
  intros Hw. rewrite <- (Z.mod_small w (2 ^ W)) by done. rewrite <- Z.land_ones by lia.
  rewrite <- Z.land_assoc, (Z.land_comm (Z.ones W)), Z.land_assoc, Z.land_ones by lia.
  apply Z.mod_pos_bound. apply Z.pow_pos_nonneg; lia.
Qed.

(** Setting and clearing a bit. *)
Lemma getbit_set (l : list Z) (n m : Z) :
  0 <= n < bits_of l -> 0 <= m ->
  getbit (put_word l n (Z.lor (word_at l n) (2 ^ (n mod W)))) m = bool_decide (m = n) || getbit l m.
Proof.
  intros Hn Hm. rewrite getbit_put by done. destruct (decide (m / W = n / W)) as [E|E].
  - unfold getbit, word_at. rewrite Z.lor_spec, E, Z.pow2_bits_eqb by apply mod_bit. rewrite orb_comm. f_equal. by rewrite same_bit.
  - rewrite bool_decide_eq_false_2; [done|]. intros ->. done.
Qed.

Lemma getbit_clear (l : list Z) (n m : Z) :
  0 <= n < bits_of l -> 0 <= m ->
  getbit (put_word l n (Z.land (word_at l n) (Z.lxor (2 ^ (n mod W)) (Z.ones W)))) m = negb (bool_decide (m = n)) && getbit l m.
Proof.
  intros Hn Hm. rewrite getbit_put by done. pose proof (mod_bit m). pose proof (mod_bit n).
  destruct (decide (m / W = n / W)) as [E|E].
  - unfold getbit, word_at. rewrite Z.land_spec, Z.lxor_spec, E, Z.pow2_bits_eqb by apply mod_bit. rewrite andb_comm. f_equal.
    rewrite Z.ones_spec_low, xorb_true_r by lia. by rewrite same_bit.
  - rewrite bool_decide_eq_false_2; [done|]. intros ->. done.
Qed.

Lemma put_words_ok (l : list Z) (n w : Z) : words_ok l -> 0 <= w < 2 ^ W -> words_ok (put_word l n w).
Proof. intros H Hw. by apply Forall_insert. Qed.

Lemma bits_of_put (l : list Z) (n w : Z) : bits_of (put_word l n w) = bits_of l.
Proof. unfold bits_of, put_word. by rewrite length_insert. Qed.

Lemma getbit_zeros (k : nat) (n : Z) : getbit (replicate k 0) n = false.
Proof.
  unfold getbit, word_at. rewrite nth_lookup. destruct (replicate _ _ !! _) eqn:E; cbn [default]; [|apply Z.bits_0].
  apply lookup_replicate in E as [-> _]. apply Z.bits_0.
Qed.

Lemma getbit_grown (l : list Z) (k : nat) (n : Z) :
  0 <= n -> getbit (l ++ replicate k 0) n = bool_decide (n < bits_of l) && getbit l n.
Proof.
  intros Hn. pose proof (Z.div_pos n W Hn W_pos) as Hd. unfold getbit at 1, word_at. rewrite nth_lookup.
  destruct (bool_decide_reflect (n < bits_of l)) as [H|H]; cbn [andb].
  - destruct (div_word l n ltac:(lia)) as [_ Hl]. rewrite lookup_app_l by done. unfold getbit, word_at. by rewrite nth_lookup.
  - assert (Z.of_nat (length l) <= n / W) by (apply Z.div_le_lower_bound; unfold bits_of in H; lia).
    rewrite lookup_app_r by lia. destruct (replicate _ _ !! _) eqn:E; cbn [default]; [|apply Z.bits_0].
    apply lookup_replicate in E as [-> _]. apply Z.bits_0.
Qed.

(** A word all of whose bits are set, and a bit of such a word. *)
Lemma all_ones (w : Z) : 0 <= w < 2 ^ W -> (forall i, 0 <= i < W -> Z.testbit w i = true) -> w = Z.ones W.
Proof.
  intros Hw H. apply Z.bits_inj'. intros i Hi.
  destruct (Z.lt_ge_cases i W) as [Hlt|Hge]; [by rewrite H, Z.ones_spec_low by lia|].
  by rewrite testbit_low, Z.ones_spec_high by lia.
Qed.

Lemma getbit_ones (l : list Z) (n : Z) : word_at l n = Z.ones W -> getbit l n = true.
Proof. intros E. unfold getbit. rewrite E. pose proof (mod_bit n). by apply Z.ones_spec_low. Qed.
End Bits.
