(* ===== verification/LibMybox.v ===== *)
(** * libmybox: the string and file helpers of v3.1/src/mybox/lib

    Each function of the library as a function on byte strings.  In-place
    functions ([trim], [splitc], [stripchar]) return the new contents.  Where
    the C code can write outside its buffer ([str_replace_add],
    [read_oneline]) the model keeps the buffer's capacity and records the
    write. *)

From S2P Require Import Prelude CString.

(** ** trim.c *)

(** [while (len && isspace(s[len-1])) --len;] *)
Fixpoint rtrim_len (s : list Z) (len : nat) : nat :=
  match len with
  | O => O
  | S n => if isspace (nth n s 0) then rtrim_len s n else len
  end.

Definition trim_set : list Z := [32; 10; 13; 9; 11; 12].

Definition trim (s : list Z) : list Z :=
  let len := rtrim_len s (length s) in
  if (len =? 0)%nat then []
  else
    let lws := strspn s trim_set in
    take (len - lws) (drop lws s).

(** ** splitc.c *)

(** The [first] argument: NULL, the same buffer as [rest], or another one. *)
Inductive split_dst :=
| DstNull
| DstRest
| DstBuf (contents : list Z).

Definition splitc (first : split_dst) (rest : list Z) (divider : Z)
  : split_dst * list Z :=
  match strchr rest divider with
  | None => (match first with DstBuf _ => DstBuf [] | _ => first end, rest)
  | Some p =>
      match first with
      | DstNull => (DstNull, drop (S p) rest)
      | DstRest => (DstRest, take p rest)
      | DstBuf _ => (DstBuf (take p rest), drop (S p) rest)
      end
  end.

(** ** stripchar.c *)

Fixpoint stripchar (s : list Z) (r : Z) : list Z :=
  match s with
  | [] => []
  | c :: s' => if c =? r then stripchar s' r else c :: stripchar s' r
  end.

(** ** stristr.c *)

(** The inner [while]: do the bytes from [sptr] match the non-empty rest [pptr]
    of the pattern? *)
Fixpoint stristr_match (sptr pptr : list Z) : bool :=
  match sptr, pptr with
  | b :: sptr', a :: pptr' =>
      if toupper b =? toupper a then
        match pptr' with [] => true | _ => stristr_match sptr' pptr' end
      else false
  | _, _ => false
  end.

(** Both [for] loops advance [start] by one byte at a time: over the bytes that
    differ from the first of the pattern, and past a failed match. *)
Fixpoint stristr_from (start pattern : list Z) (off : Z) : Z :=
  match start with
  | [] => -1
  | c :: start' =>
      if negb (toupper c =? toupper (hd 0 pattern)) then
        stristr_from start' pattern (off + 1)
      else if stristr_match start pattern then off
      else stristr_from start' pattern (off + 1)
  end.

Definition stristr (string pattern : list Z) : Z := stristr_from string pattern 0.

(** ** substr.c *)

(** [start] is an [int], [count] and [len] are 32-bit [size_t]. *)
Definition substr (s : list Z) (start count : Z) : list Z :=
  let len := strlen s in
  let start := if start <? 0 then i32 (len + start) else start in
  if (0 <=? start) && (u32 start <? len) then
    let count :=
      if (count =? 0) || (u32 (len - start) <? count) then u32 (len - start)
      else count in
    take (Z.to_nat count) (drop (Z.to_nat start) s)
  else [].

(** ** str_replace.c *)

(** A heap block holding a C string: its size, the string, and whether a byte
    was written past its end. *)
Record block := Block { cap : nat; text : list Z; overrun : bool }.

(** Is offset [i] outside a block of [size] bytes? *)
Definition oob (size i : nat) : bool := (size <=? i)%nat.

Section StrReplace.
(** [realloc] of a size: succeeds or fails. *)
Variable realloc_ok : nat -> bool.

Definition str_replace_add (start : option block) (string_add : list Z) (s : nat)
  : Z * option block :=
  let ss := if (s =? 0)%nat then S (length string_add) else s in
  match start with
  | None =>
      (* a block of [ss] bytes; for s != 0 a NUL is stored at offset [ss] *)
      let over := if (s =? 0)%nat then false else oob ss ss in
      (0, Some (Block ss (take ss string_add) over))
  | Some b =>
      let add_size := length (text b) in
      if realloc_ok (add_size + ss + 1) then
        let cap' := (add_size + ss + 1)%nat in
        (0, Some (Block cap' (text b ++ take ss string_add)
                    (overrun b || oob cap' (add_size + ss))))
      else (-1, Some b)
  end.

Definition str_replace (string search replace : list Z) : option block :=
  match strstr string search with
  | None => None
  | Some spos =>
      let tail := drop (length search + spos) string in
      let '(res, str) :=
        if (spos =? 0)%nat then
          let '(r1, b1) := str_replace_add None replace 0 in
          let '(r2, b2) := str_replace_add b1 tail 0 in
          (r1 + r2, b2)
        else
          let '(r1, b1) := str_replace_add None string spos in
          let '(r2, b2) := str_replace_add b1 replace 0 in
          let '(r3, b3) := str_replace_add b2 tail 0 in
          (r1 + r2 + r3, b3) in
      if res =? 0 then str else None
  end.
End StrReplace.

(** ** split_array.c *)

(** [for (numtokens=1; strtok(NULL, delimiters) != NULL; numtokens++) ;] *)
Fixpoint count_tokens (fuel : nat) (t delims : list Z) (numtokens : nat) : nat :=
  match fuel with
  | O => numtokens
  | S n => match strtok t delims with
           | None => numtokens
           | Some (_, t') => count_tokens n t' delims (S numtokens)
           end
  end.

(** The second pass: one [strtok] per slot of [argv]. *)
Fixpoint fill_tokens (numtokens : nat) (t delims : list Z) : list (option (list Z)) :=
  match numtokens with
  | O => []
  | S n => match strtok t delims with
           | None => None :: fill_tokens n [] delims
           | Some (tok, t') => Some tok :: fill_tokens n t' delims
           end
  end.

(** The result: the [char] returned, the value left in the global [numtokens],
    and the [argv] array with its NULL at the end.  [None] is a NULL argument:
    -1 with EINVAL. *)
Definition split_array (s delimiters : option (list Z))
  : Z * option (Z * list (option (list Z))) :=
  match s, delimiters with
  | Some s, Some d =>
      let snew := drop (strspn s d) s in
      let n := match strtok snew d with
               | None => 0%nat
               | Some (_, t) => count_tokens (length snew) t d 1
               end in
      (i8 (Z.of_nat n),
        Some (Z.of_nat n, fill_tokens n snew d ++ [None]))
  | _, _ => (-1, None)
  end.

(** ** file_exists.c and is_dir.c *)

Definition S_IFIFO : Z := 0x1000.
Definition S_IFCHR : Z := 0x2000.
Definition S_IFDIR : Z := 0x4000.
Definition S_IFBLK : Z := 0x6000.
Definition S_IFREG : Z := 0x8000.
Definition S_IFLNK : Z := 0xA000.
Definition S_IFSOCK : Z := 0xC000.

(** [st_mode] when [stat] succeeds. *)
Definition file_exists (st : option Z) : bool :=
  match st with
  | None => false
  | Some mode =>
      negb (Z.land mode S_IFREG =? 0) || negb (Z.land mode S_IFLNK =? 0)
      || negb (Z.land mode S_IFDIR =? 0)
  end.

Definition is_dir (st : option Z) : bool :=
  match st with
  | None => false
  | Some mode =>
      negb (Z.land mode S_IFREG =? 0) || negb (Z.land mode S_IFDIR =? 0)
  end.

(** ** read_oneline.c *)

(** The file's bytes ([None]: [open] fails) and the size of the caller's
    buffer: the value returned, the bytes left in the buffer before its NUL,
    and whether the NUL was written past the end of the buffer. *)
Definition read_oneline (file : option (list Z)) (bufsize : nat)
  : Z * option (list Z * bool) :=
  match file with
  | None => (-1, None)
  | Some data =>
      let got := take 1023 data in
      (Z.of_nat (length got), Some (got, oob bufsize (length got)))
  end.

(** ** xlib.c *)

Inductive write_reply := Wrote (n : Z) | WriteErr (eintr : bool).

(** [xwrite] over the successive replies of [write]: [None] when they run out
    while the call is still interrupted. *)
Fixpoint xwrite (replies : list write_reply) : option Z :=
  match replies with
  | [] => None
  | Wrote n :: _ => Some n
  | WriteErr true :: rs => xwrite rs
  | WriteErr false :: _ => Some (-1)
  end.

(** ** Laws *)

Lemma rtrim_len_le (s : list Z) (len : nat) : (rtrim_len s len <= len)%nat.
Proof. induction len as [|n IH]; simpl; [lia|]. destruct (isspace _); lia. Qed.

Lemma rtrim_len_spaces (s : list Z) (len : nat) :
  (len <= length s)%nat ->
  Forall (fun c => isspace c = true) (drop (rtrim_len s len) (take len s)).
Proof.
  induction len as [|n IH]; intros Hle; simpl.
  - constructor.
  - destruct (isspace (nth n s 0)) eqn:E.
    + assert (Hn : s !! n = Some (nth n s 0)).
      {
        destruct (lookup_lt_is_Some_2 s n) as [x Hx]; [lia|].
        rewrite Hx. f_equal. symmetry. by apply nth_lookup_Some. }
      rewrite (take_S_r _ _ _ Hn). rewrite drop_app_le.
      * apply Forall_app. split; [apply IH; lia | by constructor].
      * rewrite length_take. pose proof (rtrim_len_le s n). lia.
    + rewrite drop_ge; [constructor|]. rewrite length_take. lia.
Qed.

Lemma rtrim_len_last (s : list Z) (len : nat) (c : Z) :
  (len <= length s)%nat ->
  last (take (rtrim_len s len) s) = Some c -> isspace c = false.
Proof.
  induction len as [|n IH]; intros Hle; simpl; [done|].
  destruct (isspace (nth n s 0)) eqn:E; [apply IH; lia|].
  destruct (lookup_lt_is_Some_2 s n) as [x Hx]; [lia|].
  rewrite (take_S_r _ _ _ Hx), last_snoc. intros [= <-].
  by rewrite (nth_lookup_Some _ _ 0 _ Hx) in E.
Qed.

Lemma rtrim_len_full (s : list Z) :
  (forall c, last s = Some c -> isspace c = false) ->
  rtrim_len s (length s) = length s.
Proof.
  intros H. destruct s as [|c s _] using rev_ind; [done|].
  rewrite length_app, Nat.add_comm. simpl.
  rewrite app_nth2, Nat.sub_diag by lia. simpl.
  rewrite H; [done|]. by rewrite last_snoc.
Qed.

Lemma strspn_zero (s set : list Z) :
  (forall c, head s = Some c -> in_set set c = false) -> strspn s set = 0%nat.
Proof. destruct s as [|c s]; simpl; [done|]. intros H. by rewrite H. Qed.

(** No white space at either end. *)
Definition trimmed (s : list Z) : Prop :=
  (forall c, head s = Some c -> isspace c = false)
  /\ (forall c, last s = Some c -> isspace c = false).

Definition all_space (s : list Z) : Prop := Forall (fun c => isspace c = true) s.

Lemma trim_fixed (s : list Z) : trimmed s -> trim s = s.
Proof.
  intros [Hh Hl]. unfold trim. rewrite rtrim_len_full by exact Hl.
  rewrite strspn_zero.
  - destruct s; [done|]. simpl. by rewrite firstn_all.
  - intros c Hc. rewrite <- isspace_set. auto.
Qed.

(** The leading white space ends before the last byte that is kept. *)
Lemma strspn_rtrim_lt (s : list Z) :
  rtrim_len s (length s) <> 0%nat ->
  (strspn s trim_set < rtrim_len s (length s))%nat.
Proof.
  intros Hn. set (n := rtrim_len s (length s)) in *.
  assert (Hle : (n <= length s)%nat) by apply rtrim_len_le.
  destruct (decide (strspn s trim_set < n)%nat) as [|Hge]; [done|exfalso].
  destruct (last (take n s)) as [c|] eqn:Hc.
  - pose proof (rtrim_len_last s (length s) c ltac:(lia) Hc) as Hsp.
    rewrite last_lookup, length_take_le in Hc by lia.
    apply lookup_take_Some in Hc as [Hc _].
    pose proof (strspn_take s trim_set) as Hall.
    rewrite Forall_lookup in Hall. specialize (Hall (pred n) c).
    rewrite lookup_take_lt in Hall by lia. specialize (Hall Hc).
    rewrite isspace_set in Hsp. by apply bool_decide_eq_false in Hsp.
  - apply last_None in Hc. apply (f_equal length) in Hc.
    rewrite length_take in Hc. simpl in Hc. lia.
Qed.

Lemma take_drop_sub {A} (s : list A) (k n : nat) :
  (k <= n)%nat -> s = take k s ++ take (n - k) (drop k s) ++ drop n s.
Proof.
  intros H. rewrite <- (take_drop k s) at 1. f_equal.
  rewrite <- (take_drop (n - k) (drop k s)) at 1. f_equal.
  rewrite drop_drop. f_equal. lia.
Qed.

Lemma trim_splits (s : list Z) :
  exists l r, s = l ++ trim s ++ r /\ all_space l /\ all_space r.
Proof.
  unfold trim. pose proof (rtrim_len_spaces s (length s) ltac:(lia)) as Hr.
  rewrite firstn_all in Hr. pose proof (strspn_rtrim_lt s) as Hlt.
  set (n := rtrim_len s (length s)) in *. set (k := strspn s trim_set) in *.
  destruct (Nat.eqb_spec n 0) as [E|E].
  - exists [], s. rewrite E, drop_0 in Hr. split; [done|]. split; [apply Forall_nil_2 | exact Hr].
  - exists (take k s), (drop n s). split; [|split; [|exact Hr]].
    + apply take_drop_sub. specialize (Hlt E). lia.
    + eapply Forall_impl; [apply strspn_take|]. intros c Hc.
      rewrite isspace_set. by apply bool_decide_eq_true.
Qed.

Lemma trim_trimmed (s : list Z) : trimmed (trim s).
Proof.
  unfold trim. pose proof (rtrim_len_le s (length s)) as Hle.
  pose proof (strspn_rtrim_lt s) as Hlt.
  pose proof (fun c => rtrim_len_last s (length s) c ltac:(lia)) as Hlast.
  set (n := rtrim_len s (length s)) in *. set (k := strspn s trim_set) in *.
  destruct (Nat.eqb_spec n 0) as [E|E]; [split; intros c [=]|].
  specialize (Hlt E). split.
  - intros c Hc. rewrite isspace_set. apply bool_decide_eq_false.
    apply (strspn_drop s trim_set). fold k.
    destruct (drop k s); [by rewrite take_nil in Hc|].
    by destruct (n - k)%nat eqn:?; [lia|].
  - intros c Hc. apply Hlast. rewrite <- Hc.
    rewrite <- (take_drop k s) at 1.
    rewrite take_app_ge, length_take_le by (rewrite ?length_take; lia).
    destruct (take (n - k) (drop k s)) eqn:E2; [|by rewrite last_app_cons].
    apply (f_equal length) in E2. rewrite length_take, length_drop in E2.
    simpl in E2. lia.
Qed.

Lemma rtrim_len_prefix (s r : list Z) (len : nat) :
  (len <= length s)%nat -> rtrim_len (s ++ r) len = rtrim_len s len.
Proof.
  induction len as [|n IH]; intros H; simpl; [done|]. rewrite app_nth1 by lia. by rewrite IH by lia.
Qed.

Lemma strspn_app_lt (s r set : list Z) : (strspn s set < length s)%nat -> strspn (s ++ r) set = strspn s set.
Proof.
  induction s as [|c s IH]; simpl; [lia|]. destruct (in_set set c); [|done]. intros H. by rewrite IH by lia.
Qed.

(** White space after a text does not matter. *)
Lemma trim_app_space (s r : list Z) : all_space r -> trim (s ++ r) = trim s.
Proof.
  intros Hr. assert (En : rtrim_len (s ++ r) (length (s ++ r)) = rtrim_len s (length s)).
  { induction r as [|c r IH] using rev_ind; [by rewrite !app_nil_r|]. apply Forall_app in Hr as [Hr [Hc _]%Forall_cons].
    rewrite app_assoc, length_app, Nat.add_1_r. cbn [rtrim_len]. rewrite nth_middle, Hc, rtrim_len_prefix by done. by apply IH. }
  unfold trim. rewrite En. pose proof (strspn_rtrim_lt s) as Hlt. pose proof (rtrim_len_le s (length s)) as Hle.
  destruct (Nat.eqb_spec (rtrim_len s (length s)) 0) as [E|E]; [done|]. specialize (Hlt E).
  rewrite strspn_app_lt by lia. rewrite drop_app_le, take_app_le by (rewrite ?length_drop; lia). done.
Qed.

(** [trim] removes white space at the two ends and nothing else: the text is
    the result with only white space around it, the result has no white space
    at its ends, and trimming again changes nothing. *)
Lemma trim_correct (s : list Z) :
  (exists l r, s = l ++ trim s ++ r /\ all_space l /\ all_space r)
  /\ trimmed (trim s) /\ trim (trim s) = trim s.
Proof.
  split; [apply trim_splits|]. split; [apply trim_trimmed|].
  apply trim_fixed, trim_trimmed.
Qed.

Section StrReplaceLaws.
Variable realloc_ok : nat -> bool.

Lemma add_fresh (add : list Z) :
  str_replace_add realloc_ok None add 0 = (0, Some (Block (S (length add)) add false)).
Proof. unfold str_replace_add. by rewrite take_ge by (simpl; lia). Qed.

Lemma add_fresh_prefix (add : list Z) (n : nat) :
  n <> 0%nat ->
  str_replace_add realloc_ok None add n = (0, Some (Block n (take n add) true)).
Proof.
  intros Hn. unfold str_replace_add, oob.
  destruct (Nat.eqb_spec n 0); [lia|]. by rewrite Nat.leb_refl.
Qed.

Lemma add_more (b : block) (add : list Z) :
  let cap' := (length (text b) + S (length add) + 1)%nat in
  str_replace_add realloc_ok (Some b) add 0 =
    if realloc_ok cap' then (0, Some (Block cap' (text b ++ add) (overrun b)))
    else (-1, Some b).
Proof.
  unfold str_replace_add, oob. cbn [Nat.eqb]. destruct (realloc_ok _); [|done].
  rewrite take_ge by lia.
  rewrite (proj2 (Nat.leb_gt _ _)) by lia. by rewrite orb_false_r.
Qed.
End StrReplaceLaws.

(** [str_replace] gives NULL exactly when there is no match or an allocation
    fails; otherwise it replaces the first match (and no other), the result and
    its NUL fit the block, and a byte was written past a block along the way
    exactly when the match is not at the start of the string. *)
Lemma str_replace_correct (realloc_ok : nat -> bool) (string search replace : list Z) :
  match str_replace realloc_ok string search replace with
  | None => strstr string search = None \/ exists n, realloc_ok n = false
  | Some b =>
      exists i, strstr string search = Some i
        /\ text b = take i string ++ replace ++ drop (length search + i) string
        /\ (length (text b) < cap b)%nat
        /\ overrun b = negb (i =? 0)%nat
  end.
Proof.
  unfold str_replace. destruct (strstr string search) as [i|] eqn:E; [|by left].
  pose proof (strstr_bound _ _ _ E) as Hi.
  destruct (Nat.eqb_spec i 0) as [->|Hne].
  - rewrite add_fresh, add_more. cbn [text overrun].
    destruct (realloc_ok _) eqn:R; simpl; [|eauto].
    exists 0%nat. rewrite length_app. repeat split; lia.
  - rewrite add_fresh_prefix, add_more by done. cbn [text overrun].
    bcase; rewrite add_more; cbn [text overrun]; bcase; simpl; eauto.
    exists i. rewrite <- app_assoc, !length_app, length_take. repeat split; [lia|].
    by destruct i.
Qed.

(** For strings of less than 2^31 bytes no conversion in [substr] wraps: a
    negative start counts from the end, a count of 0 (or too large) means the
    rest of the string, and a start outside the string gives the empty string. *)
Lemma substr_correct (s : list Z) (start count : Z) :
  strlen s < 2 ^ 31 -> - 2 ^ 31 <= start < 2 ^ 31 -> 0 <= count < 2 ^ 32 ->
  let from := if start <? 0 then strlen s + start else start in
  substr s start count =
    if (0 <=? from) && (from <? strlen s)
    then (if count =? 0 then drop (Z.to_nat from) s
          else take (Z.to_nat count) (drop (Z.to_nat from) s))
    else [].
Proof.
  intros Hlen Hstart Hcount from. unfold substr.
  assert (Hs : 0 <= strlen s) by (unfold strlen; lia).
  assert (Hfrom : (if start <? 0 then i32 (strlen s + start) else start) = from).
  { unfold from. destruct (Z.ltb_spec start 0); [|done]. apply wraps_small; lia. }
  rewrite Hfrom. destruct (Z.leb_spec 0 from); [|done]. cbn [andb].
  rewrite wrapu_small by (unfold from in *; bcases; btoprop; lia).
  destruct (Z.ltb_spec from (strlen s)); [|done].
  rewrite wrapu_small by lia.
  assert (Hd : Z.of_nat (length (drop (Z.to_nat from) s)) = strlen s - from).
  { rewrite length_drop. unfold strlen in *. lia. }
  destruct (Z.eqb_spec count 0) as [->|]; cbn [orb].
  - apply take_ge. lia.
  - destruct (Z.ltb_spec (strlen s - from) count); [|done].
    rewrite !take_ge by lia. done.
Qed.

Lemma substr_correct_witness :
  substr (bytes "$1$abcdefgh$xyz") (-3) 0 = bytes "xyz".
Proof.
  rewrite (substr_correct (bytes "$1$abcdefgh$xyz") (-3) 0);
    [reflexivity | vm_compute; reflexivity | lia | lia].
Defined.

Lemma stristr_match_prefix (s p : list Z) :
  p <> [] -> stristr_match s p = prefixb (map toupper p) (map toupper s).
Proof.
  revert p; induction s as [|b s IH]; intros [|a p] Hp; try done.
  simpl. rewrite Z.eqb_sym. destruct (toupper a =? toupper b); [|done]. simpl.
  destruct p as [|a' p]; [done|]. by apply IH.
Qed.

Definition opt_offset (off : Z) (o : option nat) : Z :=
  match o with Some i => off + Z.of_nat i | None => -1 end.

Lemma stristr_from_strstr (s p : list Z) (off : Z) :
  p <> [] ->
  stristr_from s p off = opt_offset off (strstr (map toupper s) (map toupper p)).
Proof.
  intros Hp. revert off; induction s as [|c s IH]; intros off.
  - by destruct p.
  - cbn [stristr_from]. rewrite stristr_match_prefix by done.
    destruct p as [|a p]; [done|]. cbn [map strstr prefixb hd].
    rewrite (Z.eqb_sym (toupper c)).
    assert (Hrec : stristr_from s (a :: p) (off + 1) =
      opt_offset off (S <$> strstr (map toupper s) (map toupper (a :: p)))).
    { rewrite IH. destruct (strstr _ _); simpl; lia. }
    destruct (toupper a =? toupper c); simpl; [|exact Hrec].
    destruct (prefixb _ _); [simpl; lia | exact Hrec].
Qed.

Lemma stristr_from_nil (s : list Z) (off : Z) :
  is_cstr s -> stristr_from s [] off = -1.
Proof.
  intros H. revert off; induction H as [|c s Hc _ IH]; intros off; simpl; [done|].
  destruct (Z.eqb_spec (toupper c) (toupper 0)) as [E|]; [|apply IH].
  unfold toupper in E. bcases; btoprop; simpl in *; lia.
Qed.

(** [stristr] is the case-insensitive [strstr]: the offset of the first
    match of the upper-cased pattern in the upper-cased string, -1 without one;
    unlike [strstr] it never matches an empty pattern. *)
Lemma stristr_correct (s p : list Z) :
  is_cstr s ->
  stristr s p =
    match p with
    | [] => -1
    | _ => opt_offset 0 (strstr (map toupper s) (map toupper p))
    end.
Proof.
  intros Hs. unfold stristr. destruct p as [|a p].
  - by apply stristr_from_nil.
  - by apply stristr_from_strstr.
Qed.

Lemma stristr_correct_witness :
  stristr (bytes "x-Mozilla") (bytes "MOZ") = 2.
Proof.
  rewrite (stristr_correct (bytes "x-Mozilla") (bytes "MOZ")); [reflexivity|].
  repeat constructor.
Defined.

(** *** split_array: the words of a string *)

Definition flush (cur : list Z) : list (list Z) :=
  match cur with [] => [] | _ => [cur] end.

(** Reference: the maximal runs of non-delimiters, in one pass. *)
Fixpoint words_from (d s cur : list Z) : list (list Z) :=
  match s with
  | [] => flush cur
  | c :: s' =>
      if in_set d c then flush cur ++ words_from d s' []
      else words_from d s' (cur ++ [c])
  end.

Definition words (d s : list Z) : list (list Z) := words_from d s [].

Lemma words_skip (d l s : list Z) :
  Forall (fun c => c ∈ d) l -> words d (l ++ s) = words d s.
Proof.
  induction 1 as [|c l Hc _ IH]; [done|]. unfold words in *. simpl.
  by rewrite (bool_decide_eq_true_2 _ Hc : in_set d c = true).
Qed.

Lemma words_from_run (d t r cur : list Z) :
  Forall (fun c => c ∉ d) t -> words_from d (t ++ r) cur = words_from d r (cur ++ t).
Proof.
  intros Ht. revert cur; induction Ht as [|c t Hc _ IH]; intros cur; simpl.
  - by rewrite app_nil_r.
  - rewrite (bool_decide_eq_false_2 _ Hc : in_set d c = false), IH.
    by rewrite <- app_assoc.
Qed.

(** One [strtok] takes the first word off. *)
Lemma strtok_words (s d : list Z) :
  match strtok s d with
  | None => words d s = []
  | Some (t, r) => words d s = t :: words d r /\ (length r < length s)%nat
  end.
Proof.
  unfold strtok.
  assert (E : words d s = words d (drop (strspn s d) s)).
  { rewrite <- (take_drop (strspn s d) s) at 1. apply words_skip, strspn_take. }
  pose proof (strspn_drop s d) as Hh.
  assert (Hlen : (length (drop (strspn s d) s) <= length s)%nat)
    by (rewrite length_drop; lia).
  destruct (drop (strspn s d) s) as [|c s1] eqn:Es; [by rewrite E|].
  destruct (break d (c :: s1)) as [t r] eqn:B.
  pose proof (break_app d (c :: s1)) as Happ. pose proof (break_fst d (c :: s1)) as Hf.
  pose proof (break_snd d (c :: s1)) as Hs. rewrite B in Happ, Hf, Hs; simpl in Happ, Hf, Hs.
  assert (Ht : t <> []).
  { intros ->. simpl in Happ. subst r. specialize (Hh c eq_refl). by apply Hh, Hs. }
  rewrite E, Happ. unfold words at 1. rewrite words_from_run by done. simpl.
  split.
  - destruct r as [|x r]; simpl; [by destruct t|].
    rewrite (bool_decide_eq_true_2 _ (Hs x eq_refl) : in_set d x = true).
    by destruct t.
  - rewrite length_drop. apply (f_equal length) in Happ. rewrite length_app in Happ.
    destruct t; [done|]. simpl in *. lia.
Qed.

Lemma count_tokens_words (fuel : nat) (t d : list Z) (n : nat) :
  (length t <= fuel)%nat -> count_tokens fuel t d n = (n + length (words d t))%nat.
Proof.
  revert t n; induction fuel as [|fuel IH]; intros t n Hf; simpl.
  - destruct t; [simpl; lia | simpl in Hf; lia].
  - pose proof (strtok_words t d) as H. destruct (strtok t d) as [[tok r]|].
    + destruct H as [-> Hr]. rewrite IH by lia. simpl. lia.
    + rewrite H. simpl. lia.
Qed.

Lemma fill_tokens_words (s d : list Z) :
  fill_tokens (length (words d s)) s d = Some <$> words d s.
Proof.
  remember (words d s) as ws eqn:E. revert s E.
  induction ws as [|w ws IH]; intros s E; [done|]. simpl.
  pose proof (strtok_words s d) as H. destruct (strtok s d) as [[tok r]|].
  - destruct H as [H _]. rewrite <- E in H. injection H as -> ->. f_equal. by apply IH.
  - congruence.
Qed.

(** [split_array] stores the words of the string in order, with a NULL
    after them, and their number in [numtokens]; the [char] it returns is that
    number reduced to 8 signed bits, so the number itself up to 127 words. *)
Lemma split_array_correct (s d : list Z) :
  let ws := words d s in
  let n := Z.of_nat (length ws) in
  split_array (Some s) (Some d) = (i8 n, Some (n, (Some <$> ws) ++ [None]))
  /\ (i8 n = n <-> n <= 127).
Proof.
  intros ws n.
  assert (E : words d s = words d (drop (strspn s d) s)).
  { rewrite <- (take_drop (strspn s d) s) at 1. apply words_skip, strspn_take. }
  split.
  - unfold split_array. set (snew := drop (strspn s d) s) in *.
    assert (Hn : match strtok snew d with
             | None => 0%nat
             | Some (_, t) => count_tokens (length snew) t d 1
             end = length ws).
    { unfold ws. rewrite E. pose proof (strtok_words snew d) as H.
      destruct (strtok snew d) as [[tok r]|]; [|by rewrite H].
      destruct H as [-> Hr]. rewrite count_tokens_words by lia. done. }
    assert (Hf : fill_tokens (length ws) snew d = Some <$> ws).
    { unfold ws. rewrite E. apply fill_tokens_words. }
    by rewrite Hn, Hf.
  - unfold n, wraps. split; [|intros; rewrite Z.mod_small; simpl; lia].
    intros H. pose proof (Z.mod_pos_bound (Z.of_nat (length ws) + 2 ^ (8 - 1)) (2 ^ 8)).
    simpl in *. lia.
Qed.

(** *** Files *)

(** The seven file types of <sys/stat.h>, with any permission bits. *)
Definition has_type (mode type : Z) : Prop := Z.land mode 0xF000 = type.

Lemma land_of_type (mode type m : Z) :
  has_type mode type -> Z.land m 0xF000 = m -> Z.land mode m = Z.land type m.
Proof.
  intros <- Hm. rewrite <- Z.land_assoc. f_equal. by rewrite Z.land_comm.
Qed.

(** What the two mode tests accept.  Being bit tests, not comparisons of the
    type field, [file_exists] misses FIFOs, and [is_dir] accepts regular files
    and more. *)
Lemma file_tests_correct (mode : Z) :
  (has_type mode S_IFREG -> file_exists (Some mode) = true /\ is_dir (Some mode) = true)
  /\ (has_type mode S_IFDIR -> file_exists (Some mode) = true /\ is_dir (Some mode) = true)
  /\ (has_type mode S_IFCHR -> file_exists (Some mode) = true /\ is_dir (Some mode) = false)
  /\ (has_type mode S_IFBLK -> file_exists (Some mode) = true /\ is_dir (Some mode) = true)
  /\ (has_type mode S_IFSOCK -> file_exists (Some mode) = true /\ is_dir (Some mode) = true)
  /\ (has_type mode S_IFIFO -> file_exists (Some mode) = false /\ is_dir (Some mode) = false)
  /\ file_exists None = false /\ is_dir None = false.
Proof.
  unfold file_exists, is_dir.
  repeat (split; [intros H; rewrite !(land_of_type _ _ _ H) by reflexivity; by split|]).
  done.
Qed.

(** [read_oneline] is memory-safe on every file only with a buffer of 1024
    bytes or more. *)
Lemma read_oneline_safe (bufsize : nat) :
  (forall file r got over, read_oneline (Some file) bufsize = (r, Some (got, over)) -> over = false)
  <-> (1024 <= bufsize)%nat.
Proof.
  unfold read_oneline, oob. split.
  - intros H. specialize (H (replicate 1023 65) _ _ _ eq_refl).
    rewrite length_take, length_replicate in H. apply Nat.leb_gt in H. lia.
  - intros H file r got over [= _ <- <-]. apply Nat.leb_gt. rewrite length_take. lia.
Qed.
