(* ===== verification/Xmkdir.v ===== *)
(** * xmkdir: making a directory and its ancestors (v3.1/src/mybox/lib/xmkdir.c)

    The file system is a finite map from the components of a path to the kind
    of the node there; the root is always a directory.  [mkdir] and [chmod]
    follow POSIX on it, except that the environment may also deny them. *)

From S2P Require Import Prelude CString LibMybox.

Inductive node := File | Dir.

#[global] Instance node_eq_dec : EqDecision node.
Proof. solve_decision. Defined.

Abbreviation fs := (gmap (list (list Z)) node).

Inductive errno := EEXIST | ENOENT | ENOTDIR | EACCES.

#[global] Instance errno_eq_dec : EqDecision errno.
Proof. solve_decision. Defined.

Definition slash : Z := 47.

(** The components of a path: ["/a//b/"] has two. *)
Definition comps (p : list Z) : list (list Z) := words [slash] p.

Definition node_at (f : fs) (c : list (list Z)) : option node :=
  match c with [] => Some Dir | _ => f !! c end.

(** [file_exists] of an absolute path without [.] and [..]. *)
Definition exists_at (f : fs) (path : list Z) : bool := bool_decide (node_at f (comps path) <> None).

Section Xmkdir.
(** Paths for which the environment denies [mkdir] or [chmod]. *)
Variables (deny deny_chmod : list Z -> bool).

Definition mkdir (f : fs) (p : list Z) : fs + errno :=
  match p with
  | [] => inr ENOENT
  | _ =>
      match node_at f (comps p) with
      | Some _ => inr EEXIST
      | None =>
          match node_at f (removelast (comps p)) with
          | None => inr ENOENT
          | Some File => inr ENOTDIR
          | Some Dir => if deny p then inr EACCES else inl (<[comps p := Dir]> f)
          end
      end
  end.

(** The inner [do ... while] loop: past the slashes that follow the first one. *)
Fixpoint skip_slashes (s : list Z) : list Z * list Z :=
  match s with
  | c :: s' => if c =? slash then let '(a, b) := skip_slashes s' in (c :: a, b) else ([], s)
  | [] => ([], [])
  end.

(** The scan for the next component: the bytes passed, slashes included, and
    the rest, whose first byte is saved in [c] and replaced by a NUL. *)
Fixpoint scan (s : list Z) : list Z * list Z :=
  match s with
  | [] => ([], [])
  | c :: s' =>
      if c =? slash then let '(a, b) := skip_slashes s' in (c :: a, b)
      else let '(a, b) := scan s' in (c :: a, b)
  end.

(** The [do ... while (1)] loop at the point where [done] has been passed and
    [s] is still to be scanned, with the saved mode mask [mask] and the
    process's current one [um]: the value returned, the file system, and the
    process's mode mask at the return. *)
Fixpoint xmkdir_loop (fuel : nat) (mask um : Z) (f : fs) (done s : list Z)
  : Z * fs * Z :=
  match fuel with
  | O => (-1, f, um)
  | S fuel =>
      let '(t, rest) := scan s in
      let path := done ++ t in
      match mkdir f path with
      | inr e =>
          if bool_decide (e <> EEXIST) || bool_decide (~ (node_at f (comps path) = Some Dir))
          then (-1, f, mask)
          else match rest with
               | [] => (0, f, mask)
               | _ => xmkdir_loop fuel mask um f path rest
               end
      | inl f' =>
          match rest with
          | [] => if deny_chmod path then (-1, f', mask) else (0, f', mask)
          | _ => xmkdir_loop fuel mask um f' path rest
          end
      end
  end.

(** The whole call, in a process whose mode mask is [mask]: it is cleared, read
    back, and set without the bits 0300, so that the owner keeps write and
    search permission. *)
Definition xmkdir (f : fs) (mask : Z) (p : list Z) : Z * fs * Z :=
  xmkdir_loop (S (length p)) mask (Z.land mask (Z.lnot 0xC0)) f [] p.
End Xmkdir.

(** ** The specification *)

(** Make the directories [base/c1], [base/c1/c2], ... in turn; stop at a file. *)
Fixpoint mkdirs (f : fs) (base cs : list (list Z)) : Z * fs :=
  match cs with
  | [] => (0, f)
  | c :: cs' =>
      match f !! (base ++ [c]) with
      | Some File => (-1, f)
      | Some Dir => mkdirs f (base ++ [c]) cs'
      | None => mkdirs (<[base ++ [c] := Dir]> f) (base ++ [c]) cs'
      end
  end.

(** ** Laws *)

(** A delimiter at the end of [l] separates its words from those of [s]. *)
Lemma words_from_sep (d l s cur : list Z) :
  (forall c, last l = Some c -> c ∈ d) -> (l = [] -> cur = []) ->
  words_from d (l ++ s) cur = words_from d l cur ++ words d s.
Proof.
  revert cur; induction l as [|c l IH]; intros cur Hl Hc; simpl.
  - by rewrite Hc.
  - destruct (in_set d c) eqn:E.
    + rewrite <- app_assoc. f_equal. apply IH; [|done].
      intros x Hx. apply Hl. by destruct l.
    + apply IH; [intros x Hx; apply Hl; by destruct l|].
      intros ->. apply bool_decide_eq_false in E. by destruct E; apply Hl.
Qed.

Lemma comps_sep (l s : list Z) :
  (forall c, last l = Some c -> c = slash) -> comps (l ++ s) = comps l ++ comps s.
Proof.
  intros H. apply words_from_sep; [|done]. intros c Hc. apply list_elem_of_singleton. auto.
Qed.

Lemma skip_slashes_spec (s : list Z) :
  let '(a, b) := skip_slashes s in
  s = a ++ b /\ Forall (fun c => c = slash) a /\ head b <> Some slash.
Proof.
  induction s as [|c s IH]; simpl; [done|].
  destruct (Z.eqb_spec c slash) as [->|Hc].
  - destruct (skip_slashes s) as [a b]. destruct IH as (-> & Ha & Hb).
    repeat split; [by constructor | done].
  - split; [done|]. split; [constructor | simpl; congruence].
Qed.

(** One scan: a component [c] (empty only if [s] starts with a slash), then
    slashes, at least one unless the scan reached the end. *)
Lemma scan_spec (s : list Z) :
  let '(t, rest) := scan s in
  exists c sl, t = c ++ sl /\ s = t ++ rest /\ (slash ∉ c)
    /\ Forall (fun x => x = slash) sl /\ (sl = [] -> rest = [])
    /\ head rest <> Some slash /\ (c = [] -> s = [] \/ head s = Some slash).
Proof.
  induction s as [|c s IH]; simpl.
  - exists [], []. repeat split; try done; [set_solver | by left].
  - destruct (Z.eqb_spec c slash) as [->|Hc].
    + pose proof (skip_slashes_spec s) as H. destruct (skip_slashes s) as [a b].
      destruct H as (-> & Ha & Hb). exists [], (slash :: a).
      repeat split; try done; [set_solver | by constructor | by right].
    + destruct (scan s) as [t rest]. destruct IH as (c' & sl & -> & -> & H1 & H2 & H3 & H4 & H5).
      exists (c :: c'), sl. repeat split; try done. set_solver.
Qed.

Lemma comps_slashes (sl : list Z) : Forall (fun x => x = slash) sl -> comps sl = [].
Proof.
  intros H. rewrite <- (app_nil_r sl). unfold comps. rewrite words_skip; [done|].
  eapply Forall_impl; [exact H|]. intros x ->. by apply list_elem_of_singleton.
Qed.

Lemma comps_run (c sl : list Z) :
  c <> [] -> slash ∉ c -> Forall (fun x => x = slash) sl -> comps (c ++ sl) = [c].
Proof.
  intros Hne Hc Hsl. unfold comps, words. rewrite words_from_run.
  - destruct Hsl as [|x sl -> Hsl]; simpl; [by destruct c|].
    pose proof (comps_slashes sl Hsl) as E. unfold comps, words in E. rewrite E.
    by destruct c.
  - apply Forall_forall. intros x Hx Hs%list_elem_of_singleton. by subst.
Qed.

Lemma last_slashes (l sl : list Z) (c : Z) :
  sl <> [] -> Forall (fun x => x = slash) sl -> last (l ++ sl) = Some c -> c = slash.
Proof.
  intros Hne Hsl. destruct sl as [|x sl _] using rev_ind; [done|].
  apply Forall_app in Hsl as [_ Hx]. inversion_clear Hx as [|? ? H _].
  rewrite app_assoc, last_snoc. by intros [= <-].
Qed.

Lemma node_at_app (f : fs) (cs : list (list Z)) (c : list Z) :
  node_at f (cs ++ [c]) = f !! (cs ++ [c]).
Proof. unfold node_at. destruct (cs ++ [c]) eqn:E; [by apply app_nil in E as [_ ?]|done]. Qed.

Section Correct.
Variables (deny deny_chmod : list Z -> bool).
Hypothesis allowed : forall p, deny p = false.
Hypothesis allowed_chmod : forall p, deny_chmod p = false.

(** [mkdir] on the next component of a path whose directory exists. *)
Lemma mkdir_next (f : fs) (p : list Z) (base : list (list Z)) (c : list Z) :
  p <> [] -> comps p = base ++ [c] -> node_at f base = Some Dir ->
  mkdir deny f p =
    match f !! (base ++ [c]) with
    | Some _ => inr EEXIST
    | None => inl (<[base ++ [c] := Dir]> f)
    end.
Proof.
  intros Hp Hc Hb. unfold mkdir. destruct p; [done|].
  rewrite Hc, node_at_app. destruct (f !! _); [done|].
  rewrite removelast_last, Hb, allowed. done.
Qed.

(** One turn of the loop: on the slashes of an absolute path, and on a
    component. *)
Lemma xmkdir_root_step (fuel : nat) (mask um : Z) (f : fs) (s sl rest : list Z) :
  scan s = (sl, rest) -> sl <> [] -> Forall (fun x => x = slash) sl ->
  xmkdir_loop deny deny_chmod (S fuel) mask um f [] s =
    match rest with
    | [] => (0, f, mask)
    | _ => xmkdir_loop deny deny_chmod fuel mask um f sl rest
    end.
Proof.
  intros E Hsn Hsl. cbn [xmkdir_loop]. rewrite E. cbn [app]. unfold mkdir.
  rewrite (comps_slashes sl Hsl). destruct sl as [|x sl]; [done|]. cbn [node_at].
  by rewrite !bool_decide_eq_false_2 by (intros H; by apply H).
Qed.

Lemma xmkdir_comp_step (fuel : nat) (mask um : Z) (f : fs) (done s t rest c : list Z) :
  scan s = (t, rest) -> done ++ t <> [] -> comps (done ++ t) = comps done ++ [c] ->
  node_at f (comps done) = Some Dir ->
  xmkdir_loop deny deny_chmod (S fuel) mask um f done s =
    match f !! (comps done ++ [c]) with
    | Some File => (-1, f, mask)
    | d =>
        let f' := match d with Some _ => f | None => <[comps done ++ [c] := Dir]> f end in
        match rest with
        | [] => (0, f', mask)
        | _ => xmkdir_loop deny deny_chmod fuel mask um f' (done ++ t) rest
        end
    end.
Proof.
  intros E Hne Hc Hd. cbn [xmkdir_loop]. rewrite E.
  rewrite (mkdir_next f (done ++ t) (comps done) c), Hc, node_at_app by done.
  destruct (f !! (comps done ++ [c])) as [[]|].
  - by rewrite (bool_decide_eq_true_2 (~ (Some File = _))), orb_true_r by done.
  - by rewrite !bool_decide_eq_false_2 by (intros H; by apply H).
  - by rewrite allowed_chmod.
Qed.

Lemma xmkdir_loop_correct (fuel : nat) (mask um : Z) (f : fs) (done s : list Z) :
  (length s < fuel)%nat -> s <> [] ->
  (forall c, last done = Some c -> c = slash) ->
  (done <> [] -> head s <> Some slash) ->
  node_at f (comps done) = Some Dir ->
  xmkdir_loop deny deny_chmod fuel mask um f done s =
    (mkdirs f (comps done) (comps s), mask).
Proof.
  revert f done s; induction fuel as [|fuel IH]; intros f done s Hf Hs Hl Hh Hd; [lia|].
  pose proof (scan_spec s) as H. destruct (scan s) as [t rest] eqn:Es.
  destruct H as (c & sl & -> & E & Hc & Hsl & Hslr & Hr & Hce).
  assert (Hlast : forall l x, rest <> [] -> last (l ++ sl) = Some x -> x = slash).
  { intros l x Hrn. apply last_slashes; [|done]. intros ->. by apply Hrn, Hslr. }
  assert (Hlen : (length rest < length s)%nat).
  { rewrite E, !length_app. destruct c, sl; simpl; try lia.
    rewrite Hslr in E by done. by rewrite E in Hs. }
  destruct (decide (c = [])) as [->|Hcn].
  - destruct (Hce eq_refl) as [->|Hhs]; [done|].
    destruct done as [|x done]; [|by destruct Hh]. simpl in Es, E.
    assert (Hsn : sl <> []) by (intros ->; rewrite Hslr in E by done; by rewrite E in Hs).
    rewrite (xmkdir_root_step _ _ _ _ _ _ _ Es) by done.
    assert (Ec : comps s = comps rest).
    { rewrite E, comps_sep; [by rewrite comps_slashes|]. intros x.
      by apply (last_slashes []). }
    rewrite Ec. destruct rest as [|y rest]; [done|].
    rewrite IH; [by rewrite comps_slashes|lia|done| |done|by rewrite comps_slashes].
    intros z. by apply (last_slashes []).
  - assert (Ep : comps (done ++ c ++ sl) = comps done ++ [c]).
    { rewrite comps_sep by done. by rewrite comps_run. }
    assert (Ec : comps s = c :: comps rest).
    { destruct (decide (rest = [])) as [->|Hrn].
      - rewrite E, app_nil_r. by apply comps_run.
      - rewrite E, comps_sep; [by rewrite comps_run|]. intros z. by apply Hlast. }
    rewrite (xmkdir_comp_step _ _ _ _ _ _ _ _ c Es); [|by destruct done, c|done|done].
    rewrite Ec. cbn [mkdirs].
    destruct (f !! (comps done ++ [c])) as [[]|] eqn:Ef; cbv zeta; [done| |];
      (destruct rest as [|y rest]; [done|];
       rewrite IH; [by rewrite Ep|lia|done|rewrite app_assoc; intros z; by apply Hlast|done|
         by rewrite Ep, node_at_app, ?lookup_insert_eq]).
Qed.
End Correct.

(** [xmkdir] on a non-empty path makes the missing ancestors and the
    directory itself, top down, and returns 0; it stops with -1 at the first
    ancestor that is a file, having made those before it.  The mode mask is
    the caller's again in both cases. *)
Lemma xmkdir_correct (deny deny_chmod : list Z -> bool) (f : fs) (mask : Z) (p : list Z) :
  (forall q, deny q = false) -> (forall q, deny_chmod q = false) -> p <> [] ->
  xmkdir deny deny_chmod f mask p = (mkdirs f [] (comps p), mask).
Proof.
  intros H1 H2 Hp. unfold xmkdir. by rewrite xmkdir_loop_correct by (done || lia).
Qed.

Lemma xmkdir_correct_witness :
  let f := <[[bytes "var"] := Dir]> (∅ : fs) in
  (xmkdir (fun _ => false) (fun _ => false) f 18 (bytes "/var/sys//taskq")).1.1 = 0.
Proof.
  intros f. rewrite (xmkdir_correct (fun _ => false) (fun _ => false) f 18 (bytes "/var/sys//taskq"));
    [vm_compute; reflexivity | done | done | done].
Defined.
