(* ===== verification/Uplinkd.v ===== *)
(** * uplinkd: the uplink failover daemon (v3.1/src/mybox/src/uplinkd.c)

    The daemon's static variables are a record, the commands it runs and the
    lines it logs are events.  The exit status of a command is the
    environment's answer, a function of the events so far. *)

From S2P Require Import Prelude CString LibMybox.

Record conf1 := Conf1 {
  dev : list Z; gw : list Z; ip : list Z;
  prio : Z; status : Z; down : Z
}.

(** The static variables, [list] being [hosts]; [numcont] and [listcont] are the
    lengths of the two lists. *)
Record daemon := Daemon {
  counter : list conf1;
  hosts : list (list Z);
  mode : Z;
  interval : Z;
  singlestate : Z;
  multistate : Z
}.

Definition set_status (c : conf1) (s : Z) : conf1 :=
  Conf1 (dev c) (gw c) (ip c) (prio c) s (down c).
Definition set_down (c : conf1) (d : Z) : conf1 :=
  Conf1 (dev c) (gw c) (ip c) (prio c) (status c) d.
Definition set_counter (d : daemon) (cs : list conf1) : daemon :=
  Daemon cs (hosts d) (mode d) (interval d) (singlestate d) (multistate d).
Definition set_singlestate (s : Z) (d : daemon) : daemon :=
  Daemon (counter d) (hosts d) (mode d) (interval d) s (multistate d).
Definition set_multistate (m : Z) (d : daemon) : daemon :=
  Daemon (counter d) (hosts d) (mode d) (interval d) (singlestate d) m.

(** What the log lines say. *)
Inductive message :=
| GatewayDown (gw : list Z)
| SwitchBack (gw : list Z)
| SwitchTo (gw : list Z)
| OnlyOne (gw : list Z)
| MoreThanOne
| Starting
| Failed.

Inductive event :=
| RouteFlush
| RouteAdd (ip gw : list Z)
| RouteDel (ip gw : list Z)
| RouteDelDefault
| RouteAddDefault (gw dev : list Z)
| Arping (ip dev : list Z)
| PingFrom (src ip : list Z)
| Ping (ip : list Z)
| UplinkStop
| UplinkStart
| Log (error : bool) (m : message)
| WriteStatus (contents : list Z)
| Sleep (seconds : Z)
| USleep (micros : Z).

(** The text of a log line, built in a 256-byte buffer. *)
Definition mode_type (mode : Z) : list Z :=
  if mode =? 2 then bytes "Balancer (active->active)"
  else bytes "Failover (active->passive)".

Definition message_text (mt : list Z) (m : message) : list Z :=
  let uplink rest := bytes "Uplink [" ++ mt ++ bytes "] " ++ rest in
  snprintf 256
    (match m with
     | GatewayDown g => uplink (bytes "gateway " ++ g ++ bytes " seems to be down")
     | SwitchBack g => uplink (bytes "switching back to primary gateway " ++ g)
     | SwitchTo g =>
         uplink (bytes "primary gateway seems to be down, switching to " ++ g)
     | OnlyOne g =>
         uplink (bytes "only one gateway " ++ g ++ bytes " is up, setting as default")
     | MoreThanOne =>
         uplink (bytes "more than one gateway is up, recovering from previous error")
     | Starting => bytes "Starting Uplink [" ++ mt ++ bytes "] daemon"
     | Failed => bytes "Failed to running Uplink daemon"
     end).

Section Daemon.
(** The exit status of the last command of a history. *)
Variable env : list event -> Z.

Abbreviation action := (prog daemon event).

(** The loop of [do_ping] over the hosts left, [x] the last exit status. *)
Fixpoint ping_loop (gw ip : list Z) (hs : list (list Z)) (x : Z) : action Z :=
  match hs with
  | [] => mret x
  | h :: hs' =>
      if x =? 0 then mret x
      else
        emit (RouteAdd h gw);;
        x ← ask env (PingFrom ip h);
        emit (Ping h);;
        emit (RouteDel h gw);;
        emit (USleep 72500);;
        ping_loop gw ip hs' x
  end.

Definition do_ping (gw dev ip : list Z) : action Z :=
  emit RouteFlush;;
  d ← get;
  x ← ping_loop gw ip (hosts d) 1;
  emit (Arping ip dev);;
  mret x.

Fixpoint single_route_loop (cs : list conf1) : action unit :=
  match cs with
  | [] => mret tt
  | c :: cs' =>
      if (prio c =? 1) && (status c =? 1) then
        d ← get;
        if singlestate d =? 1 then
          emit RouteDelDefault;;
          emit (RouteAddDefault (gw c) (dev c));;
          modify (set_singlestate 0);;
          emit (Log false (SwitchBack (gw c)))
        else mret tt
      else
        modify (set_singlestate 1);;
        if status c =? 1 then
          emit RouteDelDefault;;
          emit (RouteAddDefault (gw c) (dev c));;
          emit (Log false (SwitchTo (gw c)))
        else single_route_loop cs'
  end.

Definition do_single_route : action unit :=
  d ← get;
  single_route_loop (counter d);;
  emit (USleep 72500).

(** The counting loop of [do_tune_route]: [x], and [counter[p]] for the last
    [p] assigned. *)
Fixpoint count_up (cs : list conf1) (x : Z) (p : option conf1) : Z * option conf1 :=
  match cs with
  | [] => (x, p)
  | c :: cs' =>
      if status c =? 1 then
        if 1 <? x then (x, p) else count_up cs' (x + 1) (Some c)
      else count_up cs' x p
  end.

Definition do_tune_route : action unit :=
  d ← get;
  (match count_up (counter d) 0 None with
   | (1, Some c) =>
       if multistate d =? 0 then
         emit UplinkStop;;
         emit RouteDelDefault;;
         emit (RouteAddDefault (gw c) (dev c));;
         emit (Log false (OnlyOne (gw c)));;
         emit (Sleep 1);;
         modify (set_multistate 1)
       else mret tt
   | _ =>
       if multistate d =? 1 then
         emit UplinkStart;;
         emit (Log false MoreThanOne);;
         emit (Sleep 1);;
         modify (set_multistate 0)
       else mret tt
   end);;
  emit (USleep 72500).

(** The body of the loop of [chkfailover]: the entry's new value. *)
Definition check_one (c : conf1) : action conf1 :=
  x ← do_ping (gw c) (dev c) (ip c);
  if x =? 0 then mret (set_down (set_status c 1) 0)
  else if down c =? 0 then
    emit (Log true (GatewayDown (gw c)));;
    emit (Sleep 1);;
    mret (set_down (set_status c 0) 3)
  else mret (set_status c 0).

Fixpoint check_loop (cs : list conf1) : action (list conf1) :=
  match cs with
  | [] => mret []
  | c :: cs' =>
      c' ← check_one c;
      rest ← check_loop cs';
      mret (c' :: rest)
  end.

Definition chkfailover : action unit :=
  d ← get;
  cs ← check_loop (counter d);
  modify (fun d => set_counter d cs);;
  (if mode d =? 1 then do_single_route else mret tt);;
  (if mode d =? 2 then do_tune_route else mret tt).

Definition status_line (c : conf1) : list Z :=
  dev c ++ bytes "|" ++ dec (status c) ++ [10].

Definition write_status : action unit :=
  d ← get;
  emit (WriteStatus (concat (map status_line (counter d)))).

(** [main] up to its endless loop, and [n] turns of the loop. *)
Definition main_start : action bool :=
  d ← get;
  if (length (counter d) =? 0)%nat || (length (hosts d) =? 0)%nat then
    emit (Log true Failed);; mret false
  else
    emit UplinkStop;;
    write_status;;
    (if mode d =? 2 then emit UplinkStart else mret tt);;
    emit (Log true Starting);;
    mret true.

Definition main_turn : action unit :=
  chkfailover;;
  write_status;;
  d ← get;
  emit (Sleep (interval d)).

Fixpoint main_loop (n : nat) : action unit :=
  match n with
  | O => mret tt
  | S n => main_turn;; main_loop n
  end.
End Daemon.

(** ** Reading the configuration *)

(** The five files under /var/sys: [None] when a file does not exist. *)
Record files := Files {
  uplink_config : option (list Z);
  uplink_list : option (list Z);
  uplink_chk : option (list Z);
  uplink_start : bool;
  uplink_stop : bool
}.

(** [sscanf(buff, "%d|%d", &mode, &interval)] over the old values. *)
Definition scan_config (buff : list Z) (mode interval : Z) : Z * Z :=
  match scan_int buff with
  | None => (mode, interval)
  | Some (m, r) =>
      match r with
      | 124 :: r' => match scan_int r' with
                     | None => (m, interval)
                     | Some (i, _) => (m, i)
                     end
      | _ => (m, interval)
      end
  end.

(** [sscanf(buff, "%d %s %s %s", &prio, dev, ip, gw)] into a zeroed entry. *)
Definition scan_counter (buff : list Z) : conf1 :=
  let c0 := Conf1 [] [] [] 0 0 0 in
  match scan_int buff with
  | None => c0
  | Some (p, r) =>
      match scan_word r with
      | None => Conf1 [] [] [] p 0 0
      | Some (dv, r) =>
          match scan_word r with
          | None => Conf1 dv [] [] p 0 0
          | Some (i, r) =>
              match scan_word r with
              | None => Conf1 dv [] i p 0 0
              | Some (g, _) => Conf1 dv g i p 0 0
              end
          end
      end
  end.

Definition nonblank (lines : list (list Z)) : list (list Z) :=
  filter (fun l => l <> []) (map trim lines).

Definition read_config (fs : files) (d : daemon) : bool * daemon :=
  match uplink_config fs, uplink_list fs, uplink_chk fs with
  | Some conf, Some lst, Some chk =>
      if uplink_start fs && uplink_stop fs then
        match (read_oneline (Some conf) 150).2 with
        | None => (false, d)
        | Some (buff, _) =>
            let '(m, i) := scan_config (trim buff) (mode d) (interval d) in
            let cs := map scan_counter (nonblank (fgets_lines 150 chk)) in
            let hs := map (snprintf 50) (nonblank (fgets_lines 150 lst)) in
            (true, Daemon cs hs m i (singlestate d) (multistate d))
        end
      else (false, d)
  | _, _, _ => (false, d)
  end.

(** The values of the static variables when the program starts. *)
Definition initial : daemon := Daemon [] [] 1 60 0 0.

(** ** Probing an uplink *)

(** The events of one probe of host [h] through [gw]; the host's route exists
    only during the probe. *)
Definition probe (gw ip h : list Z) : list event :=
  [RouteAdd h gw; PingFrom ip h; Ping h; RouteDel h gw; USleep 72500].

Definition probes (gw ip : list Z) (hs : list (list Z)) : list event :=
  concat (map (probe gw ip) hs).

Section Probing.
Variable env : list event -> Z.

(** The answer to the ping of [h], probed after [before]. *)
Definition answer (hist : list event) (gw ip : list Z) (before : list (list Z)) (h : list Z) : Z :=
  env (hist ++ probes gw ip before ++ [RouteAdd h gw; PingFrom ip h]).

(** Hosts were probed in order until the first answer. *)
Definition probed (hist : list event) (gw ip : list Z) (hs : list (list Z)) (n : nat) (x : Z) : Prop :=
  (n <= length hs)%nat
  /\ (x = 0 -> n <> 0%nat) /\ (x <> 0 -> n = length hs)
  /\ forall k h, (k < n)%nat -> hs !! k = Some h ->
       (answer hist gw ip (take k hs) h = 0 <-> S k = n /\ x = 0).

Lemma ping_loop_spec (gw ip : list Z) (hs : list (list Z)) (x : Z) (d : daemon) (hist : list event) :
  x <> 0 -> hs <> [] ->
  exists n x', ping_loop env gw ip hs x d hist = (x', d, probes gw ip (take n hs))
    /\ probed hist gw ip hs n x'.
Proof.
  revert x hist; induction hs as [|h hs IH]; intros x hist Hx Hne; [done|].
  cbn [ping_loop]. rewrite (proj2 (Z.eqb_neq x 0) Hx). prog_simpl.
  rewrite <- !app_assoc. cbn [app].
  set (a := env (hist ++ [RouteAdd h gw; PingFrom ip h])).
  set (hist' := hist ++ _).
  assert (Ha : answer hist gw ip [] h = a) by reflexivity.
  destruct (Z.eqb_spec a 0) as [E|E].
  - exists 1%nat, 0. rewrite E. split.
    + destruct hs; reflexivity.
    + split; [simpl; lia|]. split; [done|]. split; [done|].
      intros [|k] h' Hk; [|lia]. intros [= <-]. simpl. rewrite Ha. tauto.
  - destruct (decide (hs = [])) as [->|Hhs].
    + exists 1%nat, a. split; [reflexivity|].
      split; [simpl; lia|]. split; [done|]. split; [done|].
      intros [|k] h' Hk; [|lia]. intros [= <-]. simpl. rewrite Ha. tauto.
    + destruct (IH a hist' E Hhs) as (n & x' & -> & H1 & H2 & H3 & H4).
      exists (S n), x'. split; [done|].
      split; [simpl; lia|]. split; [done|]. split; [intros; simpl; f_equal; auto|].
      intros [|k] h' Hk.
      * intros [= <-]. simpl take. rewrite Ha. split; [done|].
        intros [? ->]. specialize (H2 eq_refl). lia.
      * intros Hh'. simpl in Hh'. specialize (H4 k h' ltac:(lia) Hh').
        unfold answer in *. cbn [take probes map concat probe] in *.
        unfold hist' in H4. rewrite <- !app_assoc in *. cbn [app] in *.
        rewrite H4. intuition lia.
Qed.
End Probing.

(** [do_ping] probes the hosts in order, through the uplink, up to the first
    one that answers, and returns 0 exactly when one did; every host route it
    adds is deleted before the next probe, and the state does not change. *)
Lemma do_ping_correct (env : list event -> Z) (gw dev ip : list Z) (d : daemon) (hist : list event) :
  hosts d <> [] ->
  exists n x,
    do_ping env gw dev ip d hist
      = (x, d, RouteFlush :: probes gw ip (take n (hosts d)) ++ [Arping ip dev])
    /\ probed env (hist ++ [RouteFlush]) gw ip (hosts d) n x.
Proof.
  intros Hne. unfold do_ping. prog_simpl.
  destruct (ping_loop_spec env gw ip (hosts d) 1 d (hist ++ [RouteFlush] ++ [])) as (n & x & E & H);
    [done|done|].
  rewrite app_nil_r in *. rewrite E.
  exists n, x. by split.
Qed.

Lemma do_ping_correct_witness :
  exists n x,
    do_ping (fun h => Z.of_nat (length h) mod 3) (bytes "10.0.0.1") (bytes "eth0") (bytes "10.0.0.2")
      (Daemon [] [bytes "a"; bytes "b"] 1 60 0 0) []
      = (x, Daemon [] [bytes "a"; bytes "b"] 1 60 0 0,
         RouteFlush :: probes (bytes "10.0.0.1") (bytes "10.0.0.2") (take n [bytes "a"; bytes "b"])
           ++ [Arping (bytes "10.0.0.2") (bytes "eth0")])
    /\ probed (fun h => Z.of_nat (length h) mod 3) ([] ++ [RouteFlush])
         (bytes "10.0.0.1") (bytes "10.0.0.2") [bytes "a"; bytes "b"] n x.
Proof.
  apply (do_ping_correct (fun h => Z.of_nat (length h) mod 3) (bytes "10.0.0.1") (bytes "eth0")
           (bytes "10.0.0.2") (Daemon [] [bytes "a"; bytes "b"] 1 60 0 0) []).
  discriminate.
Defined.

(** ** The default route *)

(** The effect of an event on the default route (gateway and device). *)
Definition apply_route (r : option (list Z * list Z)) (e : event) : option (list Z * list Z) :=
  match e with
  | RouteDelDefault => None
  | RouteAddDefault g dv => Some (g, dv)
  | _ => r
  end.

Definition default_route (t : list event) (r : option (list Z * list Z)) :=
  fold_left apply_route t r.

(** Events that leave the default route as it is. *)
Definition neutral (e : event) : Prop :=
  match e with
  | RouteDelDefault | RouteAddDefault _ _ | UplinkStop | UplinkStart => False
  | _ => True
  end.

Lemma default_route_app t1 t2 r :
  default_route (t1 ++ t2) r = default_route t2 (default_route t1 r).
Proof. apply fold_left_app. Qed.

Lemma default_route_neutral t r : Forall neutral t -> default_route t r = r.
Proof.
  intros H. revert r; induction H as [|e t He _ IH]; intros r; [done|].
  unfold default_route in *. simpl. rewrite IH. by destruct e.
Qed.

(** The specification: the first uplink that is up, the present route when
    none is. *)
Definition active (r : option (list Z * list Z)) (cs : list conf1) : option (list Z * list Z) :=
  match find (fun c => status c =? 1) cs with
  | Some c => Some (gw c, dev c)
  | None => r
  end.

(** What a check may change in an entry, and what it leaves behind. *)
Definition checked (c c' : conf1) : Prop :=
  dev c' = dev c /\ gw c' = gw c /\ ip c' = ip c /\ prio c' = prio c
  /\ ((status c' = 1 /\ down c' = 0)
      \/ (status c' = 0 /\ down c' = if down c =? 0 then 3 else down c)).

(** The gateways reported down. *)
Definition down_logs (t : list event) : list (list Z) :=
  omap (fun e => match e with Log true (GatewayDown g) => Some g | _ => None end) t.

Definition newly_down (p : conf1 * conf1) : Prop := down p.1 = 0 /\ status p.2 = 0.

#[global] Instance newly_down_dec p : Decision (newly_down p).
Proof. unfold newly_down. apply _. Defined.

Section Checks.
Variable env : list event -> Z.

Lemma probes_neutral gw ip hs :
  Forall neutral (probes gw ip hs) /\ down_logs (probes gw ip hs) = [].
Proof.
  induction hs as [|h hs [H1 H2]]; [done|]. unfold probes, down_logs in *. simpl.
  split; [by repeat constructor|done].
Qed.

Lemma ping_loop_trace gw ip hs x d hist :
  exists n x', ping_loop env gw ip hs x d hist = (x', d, probes gw ip (take n hs)).
Proof.
  revert x hist; induction hs as [|h hs IH]; intros x hist.
  - by exists 0%nat, x.
  - cbn [ping_loop]. destruct (x =? 0); [by exists 0%nat, x|]. prog_simpl.
    edestruct IH as (n & x' & ->). by exists (S n), x'.
Qed.

Lemma do_ping_trace gw dv ip d hist :
  exists x t, do_ping env gw dv ip d hist = (x, d, t)
    /\ Forall neutral t /\ down_logs t = [].
Proof.
  unfold do_ping. prog_simpl.
  edestruct ping_loop_trace as (n & x & ->).
  exists x. eexists. split; [reflexivity|].
  destruct (probes_neutral gw ip (take n (hosts d))) as [H1 H2].
  split.
  - constructor; [done|]. apply Forall_app. split; [done|by repeat constructor].
  - unfold down_logs in *. simpl. by rewrite omap_app, H2.
Qed.

Lemma check_one_spec c d hist :
  exists c' t, check_one env c d hist = (c', d, t)
    /\ Forall neutral t /\ checked c c'
    /\ down_logs t = (if decide (newly_down (c, c')) then [gw c] else []).
Proof.
  unfold check_one. prog_simpl.
  destruct (do_ping_trace (gw c) (dev c) (ip c) d hist) as (x & t & -> & Hn & Hl).
  destruct (Z.eqb_spec x 0) as [->|Hx].
  - do 2 eexists. split; [reflexivity|]. rewrite app_nil_r. split; [done|].
    split; [repeat split; by left|]. by rewrite decide_False by (by intros [_ [=]]).
  - destruct (Z.eqb_spec (down c) 0) as [E|E]; prog_simpl;
      do 2 eexists; (split; [reflexivity|]); rewrite ?app_nil_r.
    + split; [apply Forall_app; split; [done|]; by repeat constructor|].
      split; [repeat split; right; by rewrite E|].
      unfold down_logs in *. by rewrite omap_app, Hl, decide_True.
    + split; [done|].
      split; [repeat split; right; by rewrite (proj2 (Z.eqb_neq _ _) E)|].
      by rewrite decide_False by (by intros [? _]).
Qed.

Lemma check_loop_spec cs d hist :
  exists cs' t, check_loop env cs d hist = (cs', d, t)
    /\ Forall neutral t /\ Forall2 checked cs cs'
    /\ down_logs t = map (fun p => gw p.1) (filter newly_down (zip cs cs')).
Proof.
  revert hist; induction cs as [|c cs IH]; intros hist.
  - by exists [], [].
  - cbn [check_loop]. prog_simpl.
    destruct (check_one_spec c d hist) as (c' & t & -> & Hn & Hc & Hl).
    edestruct IH as (cs' & t' & -> & Hn' & Hcs & Hl').
    do 2 eexists. split; [reflexivity|]. rewrite app_nil_r.
    split; [by apply Forall_app|]. split; [by constructor|].
    unfold down_logs in *. rewrite omap_app, Hl, Hl'. cbn [zip_with].
    destruct (decide (newly_down (c, c'))).
    + by rewrite filter_cons_True.
    + by rewrite filter_cons_False.
Qed.
End Checks.

(** One round of checks.  Every entry ends up with status 1 and no outage, or
    status 0 and an outage; the log reports exactly the uplinks that had no
    outage before the round and have one after it, so once per outage. *)
Lemma check_round_correct (env : list event -> Z) (d : daemon) (hist : list event) :
  exists cs' t,
    check_loop env (counter d) d hist = (cs', d, t)
    /\ Forall2 checked (counter d) cs'
    /\ down_logs t = map (fun p => gw p.1) (filter newly_down (zip (counter d) cs'))
    /\ Forall (fun c' => down c' = 0 <-> status c' = 1) cs'.
Proof.
  destruct (check_loop_spec env (counter d) d hist) as (cs' & t & E & _ & Hc & Hl).
  exists cs', t. split; [done|]. split; [done|]. split; [done|].
  clear -Hc. induction Hc as [|c c' cs cs' H _ IH]; constructor; [|done].
  destruct H as (_ & _ & _ & _ & [[-> ->]|[-> ->]]); [done|].
  destruct (Z.eqb_spec (down c) 0); split; lia.
Qed.

(** *** Failover mode *)

(** Failover mode with the primary uplink (the one of priority 1) first in the
    table; without a recorded switch the default route is the primary's. *)
Definition failover_inv (d : daemon) (r : option (list Z * list Z)) : Prop :=
  mode d = 1
  /\ exists p cs, counter d = p :: cs /\ prio p = 1
       /\ Forall (fun c => prio c <> 1) cs
       /\ (singlestate d <> 1 -> r = Some (gw p, dev p)).

(** The loop over the backup uplinks. *)
Lemma single_route_backups (cs : list conf1) (d : daemon) (hist : list event) :
  Forall (fun c => prio c <> 1) cs -> singlestate d = 1 ->
  exists t, single_route_loop cs d hist = (tt, d, t)
    /\ forall r, default_route t r = active r cs.
Proof.
  intros Hp Hs. revert hist. induction Hp as [|c cs Hc _ IH]; intros hist.
  - by exists [].
  - cbn [single_route_loop]. rewrite (proj2 (Z.eqb_neq _ _) Hc). cbn [andb]. prog_simpl.
    assert (E : set_singlestate 1 d = d) by (destruct d; unfold set_singlestate; simpl in *; by rewrite Hs).
    rewrite E. destruct (status c =? 1) eqn:Est; prog_simpl.
    + eexists. split; [reflexivity|]. intros r. unfold active. cbn [find]. by rewrite Est.
    + edestruct IH as (t & -> & Ht). eexists. split; [reflexivity|].
      intros r. rewrite Ht. unfold active. cbn [find]. by rewrite Est.
Qed.

Lemma do_single_route_spec (d : daemon) (hist : list event) (r : option (list Z * list Z)) :
  failover_inv d r ->
  exists d' t, do_single_route d hist = (tt, d', t)
    /\ counter d' = counter d /\ hosts d' = hosts d /\ interval d' = interval d
    /\ default_route t r = active r (counter d)
    /\ failover_inv d' (default_route t r).
Proof.
  intros (Hm & p & cs & Ec & Hp & Hcs & Hr).
  unfold do_single_route. prog_simpl. rewrite Ec. cbn [single_route_loop].
  rewrite Hp. destruct (status p =? 1) eqn:Est; cbn [Z.eqb Pos.eqb andb]; prog_simpl.
  - destruct (Z.eqb_spec (singlestate d) 1) as [E|E]; prog_simpl;
      do 2 eexists; (split; [reflexivity|]); cbn [counter hosts interval set_singlestate];
      unfold active; cbn [find]; rewrite Est;
      (split; [done|]); (split; [done|]); (split; [done|]).
    + split; [done|]. split; [done|]. by exists p, cs.
    + unfold default_route; simpl. rewrite Hr by done. split; [done|].
      split; [done|]. by exists p, cs.
  - destruct (single_route_backups cs (set_singlestate 1 d) hist Hcs eq_refl) as (t & E & Ht).
    rewrite E. do 2 eexists. split; [reflexivity|].
    cbn [counter hosts interval set_singlestate].
    split; [done|]. split; [done|]. split; [done|].
    rewrite default_route_app, Ht. split.
    + unfold active. cbn [find]. by rewrite Est.
    + split; [done|]. exists p, cs. done.
Qed.

Lemma checked_inv (d : daemon) (cs' : list conf1) (r : option (list Z * list Z)) :
  failover_inv d r -> Forall2 checked (counter d) cs' -> failover_inv (set_counter d cs') r.
Proof.
  intros (Hm & p & cs & Ec & Hp & Hcs & Hr) H. rewrite Ec in H.
  inversion H as [|? p' ? cs1 H1 H2]; subst. destruct H1 as (E1 & E2 & E3 & E4 & _).
  split; [done|]. exists p', cs1. rewrite E1, E2, E4. split; [done|]. split; [done|].
  split; [|done]. clear -Hcs H2. induction H2 as [|c c' cs cs' H _ IH]; [constructor|].
  inversion Hcs; subst. constructor; [|auto]. destruct H as (_ & _ & _ & -> & _). done.
Qed.

(** One turn of the main loop. *)
Lemma main_turn_spec (env : list event -> Z) (d : daemon) (hist : list event) r :
  failover_inv d r ->
  exists d' t, main_turn env d hist = (tt, d', t)
    /\ default_route t r = active r (counter d')
    /\ failover_inv d' (default_route t r).
Proof.
  intros Hinv. unfold main_turn, chkfailover, write_status. prog_simpl.
  destruct (check_loop_spec env (counter d) d hist) as (cs' & t & E & Hn & Hc & _).
  rewrite E. pose proof (checked_inv d cs' r Hinv Hc) as Hinv'.
  destruct Hinv as (Hm & _). rewrite Hm. cbn [Z.eqb Pos.eqb]. rewrite ?app_nil_r.
  edestruct (do_single_route_spec (set_counter d cs') (hist ++ t) r Hinv')
    as (d' & t' & E' & H1 & _ & _ & H2 & H3).
  rewrite E'. prog_simpl. do 2 eexists. split; [reflexivity|].
  assert (Hd : forall t2, Forall neutral t2 ->
    default_route ((t ++ t') ++ t2) r = default_route t' r).
  { intros t2 Ht2. rewrite !default_route_app.
    by rewrite (default_route_neutral t2), (default_route_neutral t). }
  rewrite Hd by repeat constructor. by rewrite H1.
Qed.

(** C4: in failover mode, over any number of turns of the main loop and whatever
    the pings answer, the default route the daemon leaves is the one of the
    specification: after each round of checks the first uplink that is up, or
    the route of the round before when none is. *)
Theorem failover_refines (env : list event -> Z) (n : nat) (d : daemon) (hist : list event)
    (r : option (list Z * list Z)) :
  failover_inv d r ->
  exists d' t css, main_loop env n d hist = (tt, d', t)
    /\ length css = n
    /\ default_route t r = fold_left active css r
    /\ last (counter d :: css) = Some (counter d')
    /\ failover_inv d' (default_route t r).
Proof.
  revert d hist r; induction n as [|n IH]; intros d hist r Hinv.
  - by exists d, [], [].
  - cbn [main_loop]. prog_simpl.
    destruct (main_turn_spec env d hist r Hinv) as (d1 & t1 & -> & H1 & Hinv1).
    destruct (IH d1 (hist ++ t1) _ Hinv1) as (d' & t & css & -> & Hlen & H2 & Hlast & Hinv').
    exists d', (t1 ++ t), (counter d1 :: css). split; [done|].
    split; [simpl; by rewrite Hlen|]. rewrite default_route_app. split.
    + rewrite H2. simpl. by rewrite H1.
    + by rewrite last_cons_cons.
Qed.

Lemma failover_refines_witness :
  let p := Conf1 (bytes "eth0") (bytes "10.0.0.1") (bytes "10.0.0.2") 1 0 0 in
  let b := Conf1 (bytes "eth1") (bytes "10.1.0.1") (bytes "10.1.0.2") 2 0 0 in
  let env h := match last h with Some (PingFrom src _) => if decide (src = ip b) then 0 else 1
               | _ => 0 end in
  exists d' t css,
    main_loop env 2 (Daemon [p; b] [bytes "198.51.100.1"] 1 60 0 0) [] = (tt, d', t)
    /\ length css = 2%nat
    /\ default_route t (Some (gw p, dev p)) = fold_left active css (Some (gw p, dev p))
    /\ last ([p; b] :: css) = Some (counter d')
    /\ failover_inv d' (default_route t (Some (gw p, dev p))).
Proof.
  intros p b env.
  apply (failover_refines env 2 (Daemon [p; b] [bytes "198.51.100.1"] 1 60 0 0) []).
  split; [reflexivity|]. exists p, [b]. repeat split.
  constructor; [discriminate | constructor].
Defined.

(** *** Balancer mode *)

Definition up (c : conf1) : Prop := status c = 1.
#[global] Instance up_dec c : Decision (up c).
Proof. unfold up. apply _. Defined.

(** The uplink to switch to: the only one that is up. *)
Definition sole (ups : list conf1) : option conf1 :=
  match ups with [c] => Some c | _ => None end.

Lemma count_up_two (cs : list conf1) (x : Z) (p : option conf1) :
  2 <= x -> (count_up cs x p).1 = x.
Proof.
  intros Hx. induction cs as [|c cs IH]; simpl; [done|].
  destruct (status c =? 1); [|done]. by rewrite (proj2 (Z.ltb_lt 1 x)) by lia.
Qed.

Lemma count_up_one (cs : list conf1) (p : conf1) :
  match filter up cs with
  | [] => count_up cs 1 (Some p) = (1, Some p)
  | _ => (count_up cs 1 (Some p)).1 = 2
  end.
Proof.
  induction cs as [|c cs IH]; [done|]. cbn [count_up].
  destruct (Z.eqb_spec (status c) 1) as [E|E].
  - rewrite filter_cons_True by done. simpl. by rewrite count_up_two.
  - by rewrite filter_cons_False.
Qed.

Lemma count_up_zero (cs : list conf1) :
  match filter up cs with
  | [] => count_up cs 0 None = (0, None)
  | [c] => count_up cs 0 None = (1, Some c)
  | _ => (count_up cs 0 None).1 = 2
  end.
Proof.
  induction cs as [|c cs IH]; [done|]. cbn [count_up].
  destruct (Z.eqb_spec (status c) 1) as [E|E].
  - rewrite filter_cons_True by done. simpl. pose proof (count_up_one cs c) as H.
    by destruct (filter up cs).
  - by rewrite filter_cons_False.
Qed.

(** The specification of a change: what is run when the number of uplinks that are
    up becomes one, and when it stops being one. *)
Definition tune_events (s : option conf1) (m : Z) : list event :=
  match s, m with
  | Some c, 0 =>
      [UplinkStop; RouteDelDefault; RouteAddDefault (gw c) (dev c);
       Log false (OnlyOne (gw c)); Sleep 1]
  | None, 1 => [UplinkStart; Log false MoreThanOne; Sleep 1]
  | _, _ => []
  end.

Definition tuned (d : daemon) : daemon :=
  set_multistate (match sole (filter up (counter d)) with Some _ => 1 | None => 0 end) d.

Lemma set_multistate_id (d : daemon) (m : Z) : multistate d = m -> set_multistate m d = d.
Proof. intros <-. by destruct d. Qed.

Lemma do_tune_route_spec (d : daemon) (hist : list event) :
  multistate d = 0 \/ multistate d = 1 ->
  do_tune_route d hist
    = (tt, tuned d,
       tune_events (sole (filter up (counter d))) (multistate d) ++ [USleep 72500]).
Proof.
  intros Hm. unfold do_tune_route, tuned. prog_simpl.
  pose proof (count_up_zero (counter d)) as H.
  destruct (filter up (counter d)) as [|c [|c2 ups]]; cbn [sole].
  - rewrite H. by destruct Hm as [Hm|Hm]; rewrite Hm; simpl; rewrite ?(set_multistate_id d _ Hm).
  - rewrite H. by destruct Hm as [Hm|Hm]; rewrite Hm; simpl; rewrite ?(set_multistate_id d _ Hm).
  - destruct (count_up (counter d) 0 None) as [x p]. simpl in H. subst x.
    by destruct Hm as [Hm|Hm]; rewrite Hm; simpl; rewrite ?(set_multistate_id d _ Hm).
Qed.

(** C5: in balancer mode the daemon acts on changes only.  When exactly one
    uplink is up it takes it as the default route, once; when that ends it
    starts the balancer again, once; run again on the same statuses it does
    nothing. *)
Theorem tune_route_correct (d : daemon) (hist hist' : list event) :
  multistate d = 0 \/ multistate d = 1 ->
  do_tune_route d hist
    = (tt, tuned d,
       tune_events (sole (filter up (counter d))) (multistate d) ++ [USleep 72500])
  /\ do_tune_route (tuned d) hist' = (tt, tuned d, [USleep 72500]).
Proof.
  intros Hm. split; [by apply do_tune_route_spec|].
  assert (Ht : tuned (tuned d) = tuned d) by reflexivity.
  rewrite do_tune_route_spec, Ht; unfold tuned; cbn [multistate set_multistate counter];
    by destruct (sole (filter up (counter d))); auto.
Qed.

Lemma tune_route_correct_witness :
  let p := Conf1 (bytes "eth0") (bytes "10.0.0.1") (bytes "10.0.0.2") 1 1 0 in
  let b := Conf1 (bytes "eth1") (bytes "10.1.0.1") (bytes "10.1.0.2") 2 0 0 in
  trace (do_tune_route (Daemon [p; b] [] 2 60 0 0) []) =
    [UplinkStop; RouteDelDefault; RouteAddDefault (gw p) (dev p);
     Log false (OnlyOne (gw p)); Sleep 1; USleep 72500].
Proof.
  intros p b.
  destruct (tune_route_correct (Daemon [p; b] [] 2 60 0 0) [] []) as [E _]; [by left|].
  rewrite E. reflexivity.
Defined.

(** With no uplink up at all after a single-uplink phase, the daemon starts the
    balancer and logs that more than one gateway is up. *)
Lemma tune_route_none_up (d : daemon) (hist : list event) :
  filter up (counter d) = [] -> multistate d = 1 ->
  trace (do_tune_route d hist) =
    [UplinkStart; Log false MoreThanOne; Sleep 1; USleep 72500].
Proof.
  intros Hf Hm. unfold do_tune_route. prog_simpl.
  pose proof (count_up_zero (counter d)) as H. rewrite Hf in H.
  by rewrite H, Hm.
Qed.
