(* ===== verification/JsAttrib.v ===== *)
(** * jsattrib: the perfect hash of JavaScript attribute names

    The gperf output of v3.0/src/squid-mybox/filters/jsattrib.c, with its
    tables as lists indexed by hash value. *)

From S2P Require Import Prelude CString.

Definition MIN_WORD_LENGTH : Z := 6.
Definition MAX_WORD_LENGTH : Z := 11.
Definition MAX_HASH_VALUE : Z := 26.

(** [asso_values]: 27 for most bytes. *)
Definition asso_values : list Z :=
  replicate 97 27
  ++ [10; 5; 10; 10; 5; 27; 27; 27; 0; 27; 10; 0; 27;
      10; 0; 0; 27; 0; 5; 0; 0; 27; 27; 27; 0]
  ++ replicate 134 27.

Definition asso (c : Z) : Z := nth (Z.to_nat (tolower c)) asso_values 0.

(** Byte [i] of the string, the NUL included. *)
Definition byte_at (str : list Z) (i : nat) : Z := nth i str 0.

Definition hash (str : list Z) (len : Z) : Z :=
  len + asso (byte_at str 4) + asso (byte_at str 0) + asso (byte_at str (Z.to_nat (len - 1))).

Definition lengthtable : list Z :=
  [0; 0; 0; 0; 0; 0; 6; 7; 8; 9; 10; 11; 7; 8;
   0; 10; 11; 7; 8; 9; 10; 11; 7; 8; 0; 0; 6].

Definition wordlist : list (list Z) :=
  map (fun s => bytes s)
    [""; ""; ""; ""; ""; ""; "onblur"; "onkeyup"; "onselect"; "onmouseup";
     "onmouseout"; "onmouseover"; "onreset"; "onsubmit"; ""; "onkeypress";
     "onmousemove"; "onclick"; "onunload"; "onkeydown"; "ondblclick";
     "onmousedown"; "onfocus"; "onchange"; ""; ""; "onload"]%string.

Definition isJSAttrib (str : list Z) (len : Z) : option (list Z) :=
  if (len <=? MAX_WORD_LENGTH) && (MIN_WORD_LENGTH <=? len) then
    let key := hash str len in
    if (key <=? MAX_HASH_VALUE) && (0 <=? key) then
      if len =? nth (Z.to_nat key) lengthtable 0 then
        let s := nth (Z.to_nat key) wordlist [] in
        if strcasecmp_eq str s then Some s else None
      else None
    else None
  else None.

(** The words the table was generated from (jsattrib.gperf). *)
Definition gperf_words : list (list Z) :=
  map (fun s => bytes s)
    ["onload"; "onunload"; "onclick"; "ondblclick"; "onmousedown"; "onmouseup";
     "onmouseover"; "onmousemove"; "onmouseout"; "onfocus"; "onblur";
     "onkeypress"; "onkeydown"; "onkeyup"; "onsubmit"; "onreset"; "onselect";
     "onchange"]%string.

(** ** Laws *)

(** The hash sees a string up to case. *)
Lemma hash_lower (str : list Z) (len : Z) : hash str len = hash (map tolower str) len.
Proof.
  assert (H : forall i, asso (byte_at str i) = asso (byte_at (map tolower str) i)).
  { intros i. unfold asso, byte_at. change 0 with (tolower 0) at 3.
    by rewrite map_nth, tolower_idem. }
  unfold hash. by rewrite !H.
Qed.

Lemma isJSAttrib_lower (str : list Z) (len : Z) :
  isJSAttrib str len = isJSAttrib (map tolower str) len.
Proof.
  unfold isJSAttrib. rewrite <- hash_lower.
  assert (H : forall s, strcasecmp_eq str s = strcasecmp_eq (map tolower str) s).
  { intros s. unfold strcasecmp_eq. rewrite map_map.
    by rewrite (map_ext (fun x => tolower (tolower x)) tolower) by apply tolower_idem. }
  by rewrite H.
Qed.

(** Every word is found, and is its own lower case. *)
Lemma words_found :
  Forall (fun w => isJSAttrib w (strlen w) = Some w /\ map tolower w = w) gperf_words.
Proof. repeat constructor; vm_compute; reflexivity. Qed.

Lemma wordlist_words :
  Forall (fun w => w = [] \/ w ∈ gperf_words) wordlist.
Proof.
  assert (H : forallb (fun w => bool_decide (w = [] \/ w ∈ gperf_words)) wordlist = true)
    by (vm_compute; reflexivity).
  rewrite forallb_forall in H. apply Forall_forall. intros w Hw.
  apply list_elem_of_In, H, bool_decide_eq_true in Hw. done.
Qed.

(** The table recognises exactly its words: a string is found when its lower
    case is one of the eighteen words, and the answer is that word. *)
Lemma isJSAttrib_correct (str w : list Z) :
  isJSAttrib str (strlen str) = Some w <-> w ∈ gperf_words /\ map tolower str = w.
Proof.
  split.
  - intros H. unfold isJSAttrib in H. bcases; try done. injection H as <-.
    set (s := nth _ wordlist []) in *. btoprop.
    assert (Hs : s = [] \/ s ∈ gperf_words).
    { pose proof wordlist_words as Hw. rewrite Forall_forall in Hw. apply Hw.
      apply list_elem_of_In, nth_In. unfold MAX_HASH_VALUE in *. simpl. lia. }
    match goal with Hc : strcasecmp_eq _ _ = true |- _ =>
      apply bool_decide_eq_true in Hc; rename Hc into Hcmp end.
    destruct Hs as [Hs|Hs].
    + rewrite Hs in Hcmp. destruct str; [|done]. unfold MIN_WORD_LENGTH, strlen in *.
      simpl in *. lia.
    + split; [done|]. rewrite Hcmp.
      pose proof words_found as Hf. rewrite Forall_forall in Hf. by apply Hf.
  - intros [Hw E]. pose proof words_found as Hf. rewrite Forall_forall in Hf.
    destruct (Hf w Hw) as [H1 _]. rewrite isJSAttrib_lower, E.
    assert (El : strlen str = strlen w) by (unfold strlen; by rewrite <- E, length_map).
    by rewrite El.
Qed.
