(* ===== verification/HtmlFilter.v ===== *)
(** * htmlfilter: the HTML tag scanner of the content filters

    v3.0/src/squid-mybox/filters/cfmod_htmlfilter.c and htmlfilter.h: a page
    arrives in chunks, text is passed on, each complete tag is parsed into
    attributes and handed to the module's [processTag] callback, which may
    write a replacement with [insertTag] or start to suppress output with
    [eating].  The output buffer is the list of the bytes appended to it. *)

From S2P Require Import Prelude CString.

(** Character constants. *)
Definition LT : Z := 60.
Definition GT : Z := 62.
Definition EQUALS : Z := 61.
Definition DQUOTE : Z := 34.
Definition SQUOTE : Z := 39.
Definition DASH : Z := 45.
Definition BANG : Z := 33.
Definition BACKSLASH : Z := 92.
Definition SPACE : Z := 32.

(** ** Parsing state (htmlfilter.h) *)

Inductive tpos := T_TEXT | T_STAG | T_TAG | T_EQU | T_META | T_COMM | T_DQUOT | T_SQUOT.

#[global] Instance tpos_eq_dec : EqDecision tpos.
Proof. solve_decision. Defined.

(** The enumeration's values, which the scanner compares with bytes. *)
Definition tpos_code (t : tpos) : Z :=
  match t with
  | T_TEXT => 0 | T_STAG => 1 | T_TAG => 2 | T_EQU => 3 | T_META => 4 | T_COMM => 5
  | T_DQUOT => 34 | T_SQUOT => 39
  end.

Record htmlFilter := HtmlFilter {
  contlen : Z;
  posin : Z; posout : Z;
  tag : list Z;
  inTag : tpos;
  inBSQuot : Z;
  eating : Z
}.

(** An attribute as the callbacks see it: its name, NULL to ignore it, and its
    value, NULL without one. *)
Abbreviation attrib := (option (list Z) * option (list Z))%type.

Definition set_posin (x : Z) (h : htmlFilter) : htmlFilter :=
  HtmlFilter (contlen h) x (posout h) (tag h) (inTag h) (inBSQuot h) (eating h).
Definition set_posout (x : Z) (h : htmlFilter) : htmlFilter :=
  HtmlFilter (contlen h) (posin h) x (tag h) (inTag h) (inBSQuot h) (eating h).
Definition set_tag (x : list Z) (h : htmlFilter) : htmlFilter :=
  HtmlFilter (contlen h) (posin h) (posout h) x (inTag h) (inBSQuot h) (eating h).
Definition set_inTag (x : tpos) (h : htmlFilter) : htmlFilter :=
  HtmlFilter (contlen h) (posin h) (posout h) (tag h) x (inBSQuot h) (eating h).
Definition set_inBSQuot (x : Z) (h : htmlFilter) : htmlFilter :=
  HtmlFilter (contlen h) (posin h) (posout h) (tag h) (inTag h) x (eating h).
Definition set_eating (x : Z) (h : htmlFilter) : htmlFilter :=
  HtmlFilter (contlen h) (posin h) (posout h) (tag h) (inTag h) (inBSQuot h) x.

(** ** insertTag *)

Definition attr_text (a : attrib) : list Z :=
  match a with
  | (None, _) => []
  | (Some n, None) => SPACE :: n
  | (Some n, Some v) => SPACE :: n ++ EQUALS :: v
  end.

Definition tag_text (name : list Z) (attrs : list attrib) : list Z :=
  LT :: name ++ concat (map attr_text attrs) ++ [GT].

(** [len]: two brackets, the name, and each attribute with its separators. *)
Definition attr_len (a : attrib) : Z :=
  match a with
  | (None, _) => 0
  | (Some n, None) => strlen n + 1
  | (Some n, Some v) => strlen n + 1 + (strlen v + 1)
  end.

Definition tag_len (name : list Z) (attrs : list attrib) : Z :=
  fold_left (fun len a => len + attr_len a) attrs (2 + strlen name).

Definition insertTag (h : htmlFilter) (name : list Z) (attrs : list attrib)
  : htmlFilter * list Z :=
  if negb (eating h =? 0) then (h, [])
  else
    let len := tag_len name attrs in
    if (0 <? contlen h) && (posin h <? posout h + len) then (h, [])
    else (set_posout (posout h + len) h, tag_text name attrs).

(** ** processTag0: splitting a tag into attributes *)

Inductive vpos := V_WSP | V_COMM | V_ATT | V_SVAL | V_VAL | V_DQUOT | V_SQUOT.

#[global] Instance vpos_eq_dec : EqDecision vpos.
Proof. solve_decision. Defined.

Definition quote_of (v : vpos) : Z :=
  match v with V_DQUOT => DQUOTE | V_SQUOT => SQUOTE | _ => -1 end.

(** The local variables of the loop: the scratch copy of the tag, the offsets
    stored in [atts] (there are [n] of them) and in [vals], and [v], [v0],
    [p]. *)
Record parser := Parser {
  scratch : list Z;
  atts : list nat;
  vals : gmap nat nat;
  pv : vpos;
  pv0 : vpos;
  pp : nat
}.

Definition natts (s : parser) : nat := length (atts s).

Definition chr (s : parser) (i : nat) : Z := nth i (scratch s) 0.

(** [atts[n++] = p], with the scratch text cut at [cut]. *)
Definition push_att (s : parser) (cut : option nat) (v : vpos) (p : nat) : parser :=
  Parser (match cut with Some i => <[i:=0]> (scratch s) | None => scratch s end)
    (atts s ++ [pp s]) (vals s) v (pv0 s) p.

(** The end of a value at offset [i]: without its quotes if it has any. *)
Definition close_val (s : parser) (i : nat) (at_end : bool) : parser :=
  if bool_decide (pv0 s = V_DQUOT) || bool_decide (pv0 s = V_SQUOT) then
    Parser (<[(i - 1)%nat:=0]> (scratch s)) (atts s)
      (<[(natts s - 1)%nat := S (pp s)]> (vals s)) V_WSP V_WSP (pp s)
  else
    Parser (if at_end then scratch s else <[i:=0]> (scratch s)) (atts s)
      (<[(natts s - 1)%nat := pp s]> (vals s)) V_WSP V_WSP (pp s).

Definition set_v (s : parser) (v : vpos) (p : nat) : parser :=
  Parser (scratch s) (atts s) (vals s) v (pv0 s) p.

Definition in_val (s : parser) (i : nat) : parser :=
  let c := chr s i in
  if isspace c then close_val s i false
  else if c =? SQUOTE then Parser (scratch s) (atts s) (vals s) V_SQUOT V_SQUOT (pp s)
  else if c =? DQUOTE then Parser (scratch s) (atts s) (vals s) V_DQUOT V_DQUOT (pp s)
  else s.

(** The body of the [for] loop at offset [i], and the next offset. *)
Definition parse_step (s : parser) (i : nat) : parser * nat :=
  let c := chr s i in
  match pv s with
  | V_WSP =>
      if isspace c then (s, S i)
      else if (c =? EQUALS) && (0 <? natts s)%nat then (set_v s V_VAL (S i), S i)
      else if (c =? DASH) && (chr s (S i) =? DASH) then (set_v s V_COMM i, (i + 3)%nat)
      else (set_v s V_ATT i, S i)
  | V_ATT =>
      if isspace c then (push_att s (Some i) V_WSP (pp s), S i)
      else if c =? EQUALS then (push_att s (Some i) V_SVAL (S i), S i)
      else (s, S i)
  | V_SVAL =>
      if isspace c then (s, S i)
      else (in_val (set_v s V_VAL i) i, S i)
  | V_VAL => (in_val s i, S i)
  | V_DQUOT | V_SQUOT =>
      if (c =? quote_of (pv s)) && negb (chr s (i - 1) =? BACKSLASH)
      then (set_v s V_VAL (pp s), S i)
      else (s, S i)
  | V_COMM =>
      if (2 <? i)%nat && isspace c && (chr s (i - 1) =? DASH) && (chr s (i - 2) =? DASH)
      then (push_att s (Some i) V_WSP (pp s), S i)
      else (s, S i)
  end.

Fixpoint parse_loop (fuel : nat) (s : parser) (i : nat) : parser * nat :=
  match fuel with
  | O => (s, i)
  | S fuel =>
      if (i <? length (scratch s) - 1)%nat then
        let '(s', i') := parse_step s i in parse_loop fuel s' i'
      else (s, i)
  end.

(** What follows the loop. *)
Definition parse_end (s : parser) (i : nat) : parser :=
  match pv s with
  | V_ATT | V_COMM => push_att s None (pv s) (pp s)
  | V_VAL => close_val s i true
  | _ => s
  end.

Definition parse_init (t : list Z) : parser :=
  Parser (<[(length t - 1)%nat:=0]> t) [] ∅ V_WSP V_WSP 1.

Definition parse_tag (t : list Z) : parser :=
  let '(s, i) := parse_loop (length t) (parse_init t) 1 in parse_end s i.

(** The C string at an offset of the scratch buffer. *)
Fixpoint until_nul (s : list Z) : list Z :=
  match s with
  | [] => []
  | c :: s' => if c =? 0 then [] else c :: until_nul s'
  end.

Definition attribs_at (buf : list Z) (ps : list nat) (vs : gmap nat nat) : list attrib :=
  imap (fun k p => (Some (until_nul (drop p buf)),
                    (fun q => until_nul (drop q buf)) <$> vs !! k)) ps.

Definition attribs_of (s : parser) : list attrib := attribs_at (scratch s) (atts s) (vals s).

Definition parse_attribs (t : list Z) : list attrib := attribs_of (parse_tag t).

Section Filter.
(** The module's [processTag] callback: its result, the filter after it, and
    what it appended to the output. *)
Variable processTag : htmlFilter -> list attrib -> Z * htmlFilter * list Z.

Definition processTag0 (h : htmlFilter) : Z * htmlFilter * list Z :=
  match parse_attribs (tag h) with
  | [] => (0, h, [])
  | attrs => processTag h attrs
  end.

(** ** htmlCfFilter: one byte *)

Definition storeText (h : htmlFilter) (c : Z) : htmlFilter * list Z :=
  if eating h =? 0 then (set_posout (posout h + 1) h, [c]) else (h, []).

Definition storeTag (h : htmlFilter) (c : Z) : htmlFilter * list Z :=
  (set_inBSQuot 0 (set_tag (tag h ++ [c]) h), []).

(** The end of a tag: the callback, and the tag itself if that did nothing. *)
Definition finish_tag (h : htmlFilter) (next : tpos) : htmlFilter * list Z :=
  let h := set_tag (tag h ++ [GT]) h in
  let '(r, h1, out) := processTag0 h in
  let '(h2, out2) :=
    if (r =? 0) && (eating h1 =? 0)
    then (set_posout (posout h1 + strlen (tag h1)) h1, tag h1)
    else (h1, []) in
  (set_inTag next (set_tag [] h2), out ++ out2).

(** [case T_DQUOT: case T_SQUOT:], also reached from [case T_TAG]. *)
Definition in_quote (h : htmlFilter) (c : Z) : htmlFilter * list Z :=
  let h :=
    if inBSQuot h =? 0 then
      if c =? BACKSLASH then set_inBSQuot 1 h
      else if c =? tpos_code (inTag h) then set_inTag T_TAG h
      else h
    else h in
  storeTag h c.

Definition in_tag (h : htmlFilter) (c : Z) : htmlFilter * list Z :=
  if c =? GT then finish_tag h T_TEXT
  else if c =? LT then
    let '(h1, out) := finish_tag h T_STAG in
    let '(h2, out2) := storeTag h1 c in (h2, out ++ out2)
  else if c =? EQUALS then in_quote (set_inTag T_EQU h) c
  else in_quote h c.

Definition in_equ (h : htmlFilter) (c : Z) : htmlFilter * list Z :=
  if ((c =? DQUOTE) || (c =? SQUOTE)) && (inBSQuot h =? 0) then
    (set_inTag (if c =? DQUOTE then T_DQUOT else T_SQUOT) (set_tag (tag h ++ [c]) h), [])
  else in_tag (set_inTag T_TAG h) c.

Definition in_stag (h : htmlFilter) (c : Z) : htmlFilter * list Z :=
  if c =? BANG then
    let '(h1, out) :=
      if eating h =? 0 then (set_posout (posout h + 2) h, [LT; BANG]) else (h, []) in
    (set_inBSQuot 0 (set_inTag T_META (set_tag [] h1)), out)
  else if c =? LT then (h, [])
  else in_equ (if isspace c then h else set_inTag T_TAG h) c.

Definition in_meta (h : htmlFilter) (c : Z) : htmlFilter * list Z :=
  let h1 :=
    if 0 <=? inBSQuot h then
      if c =? DASH then
        let q := inBSQuot h + 1 in
        if 2 <=? q then set_inBSQuot 0 (set_inTag T_COMM h) else set_inBSQuot q h
      else set_inBSQuot (-1) h
    else h in
  storeText (if c =? GT then set_inTag T_TEXT h1 else h1) c.

Definition in_comm (h : htmlFilter) (c : Z) : htmlFilter * list Z :=
  let h1 := if (c =? GT) && (2 <=? inBSQuot h) then set_inTag T_TEXT h else h in
  storeText (set_inBSQuot (if c =? DASH then inBSQuot h + 1 else 0) h1) c.

Definition filter_byte (h : htmlFilter) (c : Z) : htmlFilter * list Z :=
  match inTag h with
  | T_TEXT => if c =? LT then storeTag (set_inTag T_STAG h) c else storeText h c
  | T_META => in_meta h c
  | T_COMM => in_comm h c
  | T_STAG => in_stag h c
  | T_EQU => in_equ h c
  | T_TAG => in_tag h c
  | T_DQUOT | T_SQUOT => in_quote h c
  end.

(** The loop over a chunk; a NUL byte ends it with -1. *)
Fixpoint filter_bytes (h : htmlFilter) (buf : list Z) : Z * htmlFilter * list Z :=
  match buf with
  | [] => (0, h, [])
  | c :: buf' =>
      if c =? 0 then (-1, h, [])
      else
        let '(h1, out) := filter_byte h c in
        let '(r, h2, out2) := filter_bytes h1 buf' in
        (r, h2, out ++ out2)
  end.

Definition htmlCfFilter (h : htmlFilter) (buf : list Z) : Z * htmlFilter * list Z :=
  let '(r, h1, out) := filter_bytes (set_posin (posin h + strlen buf) h) buf in
  if r =? 0 then
    let pad := if (0 <=? contlen h1) && (contlen h1 <=? posin h1)
               then replicate (Z.to_nat (contlen h1 - posout h1)) SPACE else [] in
    (0, h1, out ++ pad)
  else (r, h1, out).
End Filter.

(** A new filter object for a page of [content_length] bytes (-1 if unknown). *)
Definition htmlContFilter (content_length : Z) : htmlFilter :=
  HtmlFilter content_length 0 0 [] T_TEXT 0 0.

(** ** The attribute arrays

    [atts] and [vals] are the two halves of one array of [size] pointers, and
    every access of the loop is at an offset of the tag. *)

Definition quoted (v : vpos) : bool :=
  bool_decide (v = V_DQUOT) || bool_decide (v = V_SQUOT).

(** What holds between two turns of the loop over a tag of [len] bytes. *)
Record parse_inv (len : nat) (s : parser) (i : nat) : Prop := {
  pi_len : length (scratch s) = len;
  pi_pos : (1 <= i)%nat;
  pi_atts : Forall (fun p => p < len)%nat (atts s);
  pi_vals : map_Forall (fun k q => k < natts s /\ q < len)%nat (vals s);
  pi_pp : (pp s < len)%nat;
  pi_ppi : (pp s <= i)%nat;
  pi_v0 : if quoted (pv0 s) then (S (pp s) <= i)%nat else True;
  pi_v : match pv s with
         | V_WSP => (2 * natts s <= i - 1)%nat /\ pv0 s = V_WSP /\ (i <= len - 1)%nat
         | V_ATT => (2 * natts s <= i - 2)%nat /\ pv0 s = V_WSP
                    /\ (2 <= i)%nat /\ (i <= len - 1)%nat
         | V_COMM => (2 * natts s <= i - 4)%nat /\ pv0 s = V_WSP
                     /\ (4 <= i)%nat /\ (i <= len + 1)%nat
         | V_SVAL => (2 * natts s <= i - 1)%nat /\ (0 < natts s)%nat
                     /\ pv0 s = V_WSP /\ (i <= len - 1)%nat
         | V_VAL => (2 * natts s <= i - 1)%nat /\ (0 < natts s)%nat /\ (i <= len - 1)%nat
         | V_DQUOT | V_SQUOT => (2 * natts s <= i - 1)%nat /\ (0 < natts s)%nat
                                /\ pv0 s = pv s /\ (i <= len - 1)%nat
         end
}.

Lemma vals_mono (m : gmap nat nat) (n n' len : nat) :
  (n <= n')%nat ->
  map_Forall (fun k q => k < n /\ q < len)%nat m ->
  map_Forall (fun k q => k < n' /\ q < len)%nat m.
Proof. intros Hn H k q E. specialize (H k q E). simpl in H. lia. Qed.

Lemma vals_set (m : gmap nat nat) (n len k q : nat) :
  (k < n)%nat -> (q < len)%nat ->
  map_Forall (fun k q => k < n /\ q < len)%nat m ->
  map_Forall (fun k q => k < n /\ q < len)%nat (<[k:=q]> m).
Proof. intros ? ? H. by apply map_Forall_insert_2. Qed.

Lemma natts_push (s : parser) (cut : option nat) (v : vpos) (p : nat) :
  natts (push_att s cut v p) = S (natts s).
Proof. unfold natts, push_att. simpl. rewrite length_app. simpl. lia. Qed.

Ltac parse_solve :=
  simpl in *; rewrite ?length_insert, ?natts_push in *;
  repeat match goal with
  | |- Forall _ (_ ++ _) => apply Forall_app; split
  | |- Forall _ [_] => constructor; [|constructor]
  | |- map_Forall _ (<[_:=_]> _) => apply vals_set
  end;
  eauto using vals_mono with lia.

Lemma close_val_inv (len : nat) (s : parser) (i : nat) (e : bool) :
  parse_inv len s i -> (i < len)%nat -> (0 < natts s)%nat ->
  (2 * natts s <= i - 1)%nat -> (S i <= len - 1)%nat ->
  parse_inv len (close_val s i e) (S i).
Proof.
  intros [] Hi Hn H2 H3. unfold close_val, quoted in *.
  destruct (bool_decide (pv0 s = V_DQUOT) || bool_decide (pv0 s = V_SQUOT)) eqn:Q;
    split; simpl; unfold natts in *; simpl in *; auto;
    try (destruct e); rewrite ?length_insert; parse_solve.
Qed.

Lemma push_att_inv (len : nat) (s : parser) (i : nat) (c : option nat) (v : vpos) (p : nat) :
  parse_inv len s i -> (S i <= len - 1)%nat -> (2 * natts s <= i - 2)%nat -> (2 <= i)%nat ->
  pv0 s = V_WSP -> v = V_WSP \/ v = V_SVAL -> (p < len)%nat ->
  (p <= S i)%nat ->
  parse_inv len (push_att s c v p) (S i).
Proof.
  intros [] ? ? ? E Hv ? ?. split; cbn [push_att scratch atts vals pp pv pv0];
    rewrite ?natts_push; auto.
  - destruct c; by rewrite ?length_insert.
  - apply Forall_app. auto.
  - eapply vals_mono; [|exact pi_vals0]. lia.
  - rewrite E. done.
  - destruct Hv as [-> | ->]; lia || auto with lia.
Qed.

Lemma in_val_inv (len : nat) (s : parser) (i : nat) :
  parse_inv len s i -> pv s = V_VAL -> (i < len - 1)%nat -> (pp s <= i)%nat ->
  parse_inv len (in_val s i) (S i).
Proof.
  intros Hs E Hi Hp. pose proof (pi_v _ _ _ Hs) as Hv. rewrite E in Hv.
  unfold in_val. repeat bcase.
  - apply close_val_inv; lia || done.
  - destruct Hs. split; simpl; auto; unfold natts in *; simpl; auto 6 with lia.
  - destruct Hs. split; simpl; auto; unfold natts in *; simpl; auto 6 with lia.
  - destruct Hs. split; auto; [destruct (quoted _); lia | rewrite E; lia].
Qed.

(** A turn that only moves on, or changes the state of the scanner. *)
Lemma set_v_inv (len : nat) (s : parser) (i : nat) (v : vpos) (p i' : nat) :
  parse_inv len s i -> quoted (pv0 s) = false \/ p = pp s -> (i <= i')%nat ->
  (p < len)%nat -> (p <= i')%nat ->
  match v with
  | V_WSP => (2 * natts s <= i' - 1)%nat /\ pv0 s = V_WSP /\ (i' <= len - 1)%nat
  | V_ATT => (2 * natts s <= i' - 2)%nat /\ pv0 s = V_WSP /\ (2 <= i')%nat
             /\ (i' <= len - 1)%nat
  | V_COMM => (2 * natts s <= i' - 4)%nat /\ pv0 s = V_WSP /\ (4 <= i')%nat
              /\ (i' <= len + 1)%nat
  | V_SVAL => (2 * natts s <= i' - 1)%nat /\ (0 < natts s)%nat
              /\ pv0 s = V_WSP /\ (i' <= len - 1)%nat
  | V_VAL => (2 * natts s <= i' - 1)%nat /\ (0 < natts s)%nat /\ (i' <= len - 1)%nat
  | V_DQUOT | V_SQUOT => (2 * natts s <= i' - 1)%nat /\ (0 < natts s)%nat
                         /\ pv0 s = v /\ (i' <= len - 1)%nat
  end ->
  parse_inv len (set_v s v p) i'.
Proof.
  intros [] Hq ? ? ? Hv. split; simpl; auto; try lia.
  destruct Hq as [-> | ->]; [done|]. destruct (quoted _); [lia|done].
Qed.

Lemma set_v_same (s : parser) : set_v s (pv s) (pp s) = s.
Proof. by destruct s. Qed.

(** One turn of the loop keeps the invariant. *)
Lemma parse_step_inv (len : nat) (s : parser) (i : nat) :
  parse_inv len s i -> (i < len - 1)%nat ->
  parse_inv len (parse_step s i).1 (parse_step s i).2.
Proof.
  intros Hs Hi. pose proof (pi_v _ _ _ Hs) as Hv.
  pose proof (pi_pp _ _ _ Hs) as Hp. pose proof (pi_ppi _ _ _ Hs) as Hpi.
  pose proof (pi_pos _ _ _ Hs) as H1. unfold parse_step.
  assert (Stay : parse_inv len (set_v s (pv s) (pp s)) (S i) -> parse_inv len s (S i))
    by by rewrite set_v_same.
  destruct (pv s) eqn:E; destruct_and?;
    try match goal with H : pv0 s = V_WSP |- _ =>
      assert (quoted (pv0 s) = false) by by rewrite H end;
    repeat bcase; btoprop; cbn [fst snd];
    repeat match goal with H : (_ <? _)%nat = true |- _ => apply Nat.ltb_lt in H end;
    first
      [ apply push_att_inv; auto; lia
      | apply in_val_inv; auto; apply (set_v_inv _ _ i); auto 7 with lia
      | apply Stay, (set_v_inv _ _ i); auto 7 with lia
      | apply (set_v_inv _ _ i); auto 7 with lia ].
Qed.

Lemma parse_step_next (s : parser) (i : nat) : (S i <= (parse_step s i).2)%nat.
Proof. unfold parse_step. destruct (pv s); repeat bcase; simpl; lia. Qed.

(** The loop ends at the end of the tag. *)
Lemma parse_loop_inv (len fuel : nat) : forall (s : parser) (i : nat),
  parse_inv len s i -> (len <= fuel + i)%nat ->
  parse_inv len (parse_loop fuel s i).1 (parse_loop fuel s i).2
  /\ (len - 1 <= (parse_loop fuel s i).2)%nat.
Proof.
  induction fuel as [|fuel IH]; intros s i Hs Hf; simpl; [by split; [|lia]|].
  rewrite (pi_len _ _ _ Hs). destruct (Nat.ltb_spec i (len - 1)); [|by split].
  pose proof (parse_step_inv _ _ _ Hs H) as Hi. pose proof (parse_step_next s i).
  destruct (parse_step s i) as [s' i']. apply IH; [done|simpl in *; lia].
Qed.

Lemma parse_init_inv (t : list Z) :
  (2 <= length t)%nat -> parse_inv (length t) (parse_init t) 1.
Proof.
  intros H. split; simpl; rewrite ?length_insert; auto with lia.
  apply map_Forall_empty.
Qed.

(** C35: the two halves of the attribute array do not overlap: a tag of [size] bytes
    has at most size/2 attributes.  The loop runs to the end of the tag, the
    scratch copy keeps its size, every name and value starts inside it, and only
    attributes that were found have a value. *)
Theorem parse_tag_bounds (t : list Z) (H : (2 <= length t)%nat) :
  (length t - 1 <= (parse_loop (length t) (parse_init t) 1).2)%nat
  /\ length (scratch (parse_tag t)) = length t
  /\ (2 * natts (parse_tag t) <= length t)%nat
  /\ Forall (fun p => p < length t)%nat (atts (parse_tag t))
  /\ map_Forall (fun k q => k < natts (parse_tag t) /\ q < length t)%nat
       (vals (parse_tag t)).
Proof.
  unfold parse_tag.
  destruct (parse_loop_inv (length t) (length t) _ _ (parse_init_inv t H)) as [Hs Hi]; [lia|].
  destruct (parse_loop _ _ _) as [s i]; simpl in Hs, Hi.
  pose proof (pi_v _ _ _ Hs) as Hv. destruct Hs. unfold parse_end.
  destruct (pv s) eqn:E; destruct_and?; unfold close_val, quoted in *;
    repeat bcase; unfold natts in *; simpl;
    rewrite ?length_insert, ?length_app; simpl;
    split_and!; try done; try lia;
    first [ apply Forall_app; by auto | apply vals_set; by auto with lia
          | eapply vals_mono; [|eassumption]; lia ].
Qed.

Lemma parse_tag_bounds_witness : (2 * natts (parse_tag (bytes "<A B C>")) <= 7)%nat.
Proof. destruct (parse_tag_bounds (bytes "<A B C>")) as (_ & _ & H & _); [simpl; lia|exact H]. Defined.

(** ** Parsing what a page contains

    An attribute as it is written: alone, or with a bare or a quoted value. *)
Inductive sval := NoVal | Bare (v : list Z) | Quoted (q : Z) (v : list Z).

Definition sval_text (v : sval) : list Z :=
  match v with
  | NoVal => []
  | Bare v => EQUALS :: v
  | Quoted q v => EQUALS :: q :: v ++ [q]
  end.

Definition sattr_text (a : list Z * sval) : list Z := a.1 ++ sval_text a.2.

(** What the callbacks are to see of it. *)
Definition sattr_attrib (a : list Z * sval) : attrib :=
  (Some a.1, match a.2 with NoVal => None | Bare v | Quoted _ v => Some v end).

Fixpoint sattrs_text (attrs : list (list Z * sval)) : list Z :=
  match attrs with
  | [] => []
  | [a] => sattr_text a
  | a :: rest => sattr_text a ++ SPACE :: sattrs_text rest
  end.

Definition written_tag (attrs : list (list Z * sval)) : list Z :=
  LT :: sattrs_text attrs ++ [GT].

Definition name_char (c : Z) : bool :=
  negb (isspace c) && negb (c =? EQUALS) && negb (c =? 0).
Definition bare_char (c : Z) : bool :=
  negb (isspace c) && negb (c =? SQUOTE) && negb (c =? DQUOTE) && negb (c =? 0).
Definition quoted_char (q c : Z) : bool := negb (c =? q) && negb (c =? 0).

Definition sval_ok (v : sval) : bool :=
  match v with
  | NoVal => true
  | Bare v => negb (bool_decide (v = [])) && forallb bare_char v
  | Quoted q v => ((q =? DQUOTE) || (q =? SQUOTE)) && forallb (quoted_char q) v
                  && negb (List.last v 0 =? BACKSLASH)
  end.

Definition sattr_ok (a : list Z * sval) : bool :=
  negb (bool_decide (a.1 = [])) && forallb name_char a.1
  && negb (prefixb [DASH; DASH] a.1) && sval_ok a.2.

Example written_tag_parse :
  parse_attribs (written_tag [(bytes "A", NoVal); (bytes "HREF", Quoted DQUOTE (bytes "x y"));
                              (bytes "B", Bare (bytes "1"))])
  = [(Some (bytes "A"), None); (Some (bytes "HREF"), Some (bytes "x y"));
     (Some (bytes "B"), Some (bytes "1"))].
Proof. reflexivity. Qed.

(** Where the parser is in the scratch buffer. *)
Lemma chr_app (s : parser) (pre r : list Z) (c : Z) :
  scratch s = pre ++ c :: r -> chr s (length pre) = c.
Proof. intros E. unfold chr. rewrite E, app_nth2, Nat.sub_diag by lia. done. Qed.

Lemma chr_within (P : Z -> Prop) (s : parser) (pre w r : list Z) (j : nat) :
  scratch s = pre ++ w ++ r -> Forall P w ->
  (length pre <= j < length pre + length w)%nat -> P (chr s j).
Proof.
  intros E H Hj. unfold chr. rewrite E, app_nth2, app_nth1 by lia.
  rewrite Forall_forall in H. apply H, list_elem_of_In, nth_In. lia.
Qed.

Lemma parse_loop_S (fuel : nat) (s s' : parser) (i i' : nat) :
  (S i < length (scratch s))%nat -> parse_step s i = (s', i') ->
  parse_loop (S fuel) s i = parse_loop fuel s' i'.
Proof.
  intros H E. simpl. destruct (Nat.ltb_spec i (length (scratch s) - 1)); [|lia]. by rewrite E.
Qed.

(** Bytes the scanner passes over. *)
Lemma parse_loop_stay (n : nat) : forall (fuel : nat) (s : parser) (i : nat),
  (i + n < length (scratch s))%nat ->
  (forall j, (i <= j < i + n)%nat -> parse_step s j = (s, S j)) ->
  parse_loop (n + fuel) s i = parse_loop fuel s (i + n).
Proof.
  induction n as [|n IH]; intros fuel s i Hi H; [by rewrite Nat.add_0_r|].
  cbn [Nat.add]. rewrite (parse_loop_S _ _ s _ (S i)); [|lia|apply H; lia].
  rewrite IH by (try intros; try apply H; lia). f_equal. lia.
Qed.

Lemma Forall_forallb (p : Z -> bool) (w : list Z) :
  forallb p w = true -> Forall (fun c => p c = true) w.
Proof. rewrite forallb_forall, Forall_forall. intros H c Hc. by apply H, list_elem_of_In. Qed.

Lemma name_char_true (c : Z) :
  name_char c = true -> isspace c = false /\ (c =? EQUALS) = false /\ c <> 0.
Proof. unfold name_char. intros. btoprop. rewrite Z.eqb_neq. done. Qed.

Lemma bare_char_true (c : Z) :
  bare_char c = true ->
  isspace c = false /\ (c =? SQUOTE) = false /\ (c =? DQUOTE) = false /\ c <> 0.
Proof. unfold bare_char. intros. btoprop. rewrite !Z.eqb_neq. done. Qed.

Lemma run_name (pre n r : list Z) (fuel : nat) (at_ : list nat) (vs : gmap nat nat) (p : nat) :
  n <> [] -> forallb name_char n = true -> prefixb [DASH; DASH] n = false ->
  r <> [] -> nth 0 r 0 <> DASH ->
  let s := Parser (pre ++ n ++ r) at_ vs V_WSP V_WSP p in
  parse_loop (length n + fuel) s (length pre)
  = parse_loop fuel (set_v s V_ATT (length pre)) (length pre + length n).
Proof.
  intros Hn Hc Hd Hr Hd' s. apply Forall_forallb in Hc.
  destruct n as [|c n]; [done|]. apply Forall_cons in Hc as [Hc Hn'].
  assert (Hlen : (length pre + S (length n) < length (scratch s))%nat).
  { simpl. rewrite !length_app. simpl. rewrite length_app. destruct r; [done|]. simpl. lia. }
  cbn [length Nat.add].
  rewrite (parse_loop_S _ _ (set_v s V_ATT (length pre)) _ (S (length pre))); [|lia|].
  - rewrite parse_loop_stay; [f_equal; lia|simpl in *; lia|].
    intros j Hj. unfold parse_step. cbn [set_v pv].
    pose proof (chr_within (fun c => name_char c = true) (set_v s V_ATT (length pre))
                  (pre ++ [c]) n r j) as Hx.
    rewrite length_app in Hx. simpl in Hx. rewrite <- app_assoc in Hx.
    specialize (Hx eq_refl Hn' ltac:(lia)).
    apply name_char_true in Hx as (-> & -> & _). done.
  - unfold parse_step. cbn [pv s]. rewrite (chr_app s pre (n ++ r) c) by done.
    apply name_char_true in Hc as (-> & -> & _). cbn [andb].
    destruct (Z.eqb_spec c DASH) as [->|]; [|done].
    assert (chr s (S (length pre)) <> DASH) as Hx.
    { unfold chr, s. cbn [scratch]. rewrite app_nth2 by lia.
      replace (S (length pre) - length pre)%nat with 1%nat by lia.
      destruct n as [|c' n]; simpl; [done|]. simpl in Hd. intros ->. done. }
    destruct (Z.eqb_spec (chr s (S (length pre))) DASH); done.
Qed.

Lemma run_bare (pre v r : list Z) (fuel : nat) (at_ : list nat) (vs : gmap nat nat) (p : nat) :
  v <> [] -> forallb bare_char v = true -> r <> [] ->
  let s := Parser (pre ++ v ++ r) at_ vs V_SVAL V_WSP p in
  parse_loop (length v + fuel) s (length pre)
  = parse_loop fuel (set_v s V_VAL (length pre)) (length pre + length v).
Proof.
  intros Hn Hc Hr s. apply Forall_forallb in Hc.
  destruct v as [|c v]; [done|]. apply Forall_cons in Hc as [Hc Hv].
  assert (Hlen : (length pre + S (length v) < length (scratch s))%nat).
  { simpl. rewrite !length_app. simpl. rewrite length_app. destruct r; [done|]. simpl. lia. }
  cbn [length Nat.add].
  rewrite (parse_loop_S _ _ (set_v s V_VAL (length pre)) _ (S (length pre))); [|lia|].
  - rewrite parse_loop_stay; [f_equal; lia|simpl in *; lia|].
    intros j Hj. unfold parse_step, in_val. cbn [set_v pv].
    pose proof (chr_within (fun c => bare_char c = true) (set_v s V_VAL (length pre))
                  (pre ++ [c]) v r j) as Hx.
    rewrite length_app in Hx. simpl in Hx. rewrite <- app_assoc in Hx.
    specialize (Hx eq_refl Hv ltac:(lia)).
    by apply bare_char_true in Hx as (-> & -> & -> & _).
  - unfold parse_step, in_val. cbn [pv s].
    rewrite (chr_app s pre (v ++ r) c), (chr_app (set_v s V_VAL _) pre (v ++ r) c) by done.
    by apply bare_char_true in Hc as (-> & -> & -> & _).
Qed.

(** The scanner's state inside quotes of either kind. *)
Definition quote_state (q : Z) : vpos := if q =? SQUOTE then V_SQUOT else V_DQUOT.

Lemma chr_last (s : parser) (pre v r : list Z) :
  scratch s = pre ++ v ++ r -> v <> [] ->
  chr s (length pre + length v - 1) = List.last v 0.
Proof.
  intros E Hv. destruct (exists_last Hv) as (v' & c & ->).
  rewrite last_last, length_app. unfold chr. rewrite E, <- app_assoc.
  rewrite app_nth2, app_nth2 by (simpl; lia).
  replace (_ - _ - _)%nat with 0%nat by (simpl; lia). done.
Qed.

Lemma parse_step_close (s : parser) (i : nat) :
  pv s = V_DQUOT \/ pv s = V_SQUOT ->
  chr s i = quote_of (pv s) -> chr s (i - 1) <> BACKSLASH ->
  parse_step s i = (set_v s V_VAL (pp s), S i).
Proof.
  intros Hp Hc Hb%Z.eqb_neq. unfold parse_step.
  destruct Hp as [Hp|Hp]; rewrite Hp in *; by rewrite Hc, Hb.
Qed.

Lemma run_quoted (pre v r : list Z) (q : Z) (fuel : nat) (at_ : list nat)
    (vs : gmap nat nat) (p : nat) :
  sval_ok (Quoted q v) = true -> r <> [] ->
  let text := q :: v ++ [q] in
  let s := Parser (pre ++ text ++ r) at_ vs V_SVAL V_WSP p in
  parse_loop (length text + fuel) s (length pre)
  = parse_loop fuel (Parser (pre ++ text ++ r) at_ vs V_VAL (quote_state q) (length pre))
      (length pre + length text).
Proof.
  intros Hok Hr text s. unfold sval_ok in Hok. btoprop. rename H into Hq, H1 into Hv, H0 into Hl.
  apply Forall_forallb in Hv.
  set (s1 := Parser (pre ++ text ++ r) at_ vs (quote_state q) (quote_state q) (length pre)).
  assert (Hlen : (length pre + length text < length (pre ++ text ++ r))%nat).
  { rewrite !length_app. destruct r; [done|]. simpl. lia. }
  assert (Ht : length text = (2 + length v)%nat) by (unfold text; simpl; rewrite length_app; simpl; lia).
  assert (Hq' : q = DQUOTE \/ q = SQUOTE).
  { apply orb_true_iff in Hq as [?|?]; btoprop; auto. }
  assert (Eq : quote_of (quote_state q) = q) by by destruct Hq' as [-> | ->].
  replace (length text + fuel)%nat with (S (length v + S fuel)) by lia.
  rewrite (parse_loop_S _ _ s1 _ (S (length pre))); [| simpl in *; lia |].
  - rewrite parse_loop_stay; [| simpl in *; lia |].
    + apply parse_loop_S; [simpl in *; lia|].
      assert (chr s1 (S (length pre) + length v) = q) as Hc.
      { pose proof (chr_app s1 (pre ++ q :: v) r q) as Hx. rewrite length_app in Hx.
        simpl in Hx. rewrite <- Hx; [f_equal; lia|]. unfold text. by rewrite <- !app_assoc. }
      assert (chr s1 (S (length pre) + length v - 1) <> BACKSLASH) as Hb.
      { pose proof (chr_last s1 pre (q :: v) ([q] ++ r)) as Hx. simpl length in Hx.
        replace (S (length pre) + length v - 1)%nat with (length pre + S (length v) - 1)%nat by lia.
        rewrite Hx; [|unfold text; simpl; by rewrite <- app_assoc|done].
        destruct v as [|c v]; [by destruct Hq' as [-> | ->]|].
        change (List.last (q :: c :: v) 0) with (List.last (c :: v) 0). done. }
      assert (pv s1 = V_DQUOT \/ pv s1 = V_SQUOT) as Hp
        by (destruct Hq' as [-> | ->]; [by left|by right]).
      rewrite parse_step_close; [|done|by rewrite Hc|done].
      rewrite Ht. unfold set_v. simpl. f_equal. lia.
    + intros j Hj. unfold parse_step.
      pose proof (chr_within (fun c => quoted_char q c = true) s1 (pre ++ [q]) v ([q] ++ r) j) as Hx.
      rewrite length_app in Hx. simpl in Hx. unfold text in Hx. rewrite <- !app_assoc in Hx.
      specialize (Hx ltac:(done) Hv ltac:(lia)).
      unfold quoted_char in Hx. apply andb_true_iff in Hx as [Hx _].
      apply negb_true_iff in Hx.
      destruct Hq' as [-> | ->]; cbn [s1 pv quote_state quote_of SQUOTE DQUOTE Z.eqb Pos.eqb] in *;
        by rewrite Hx.
  - unfold parse_step, in_val. cbn [pv s].
    rewrite (chr_app s pre ((v ++ [q]) ++ r) q), (chr_app (set_v s V_VAL _) pre ((v ++ [q]) ++ r) q) by done.
    by destruct Hq' as [-> | ->].
Qed.

(** The text of an attribute with its equals sign replaced. *)
Definition open_text (a : list Z * sval) : list Z :=
  a.1 ++ match a.2 with
         | NoVal => []
         | Bare v => 0 :: v
         | Quoted c v => 0 :: c :: v ++ [c]
         end.

(** The state after the text of an attribute, before what ends it, ... *)
Definition open_state (pre : list Z) (a : list Z * sval) (r : list Z) (at_ : list nat)
    (vs : gmap nat nat) : parser :=
  let q := (length pre + length a.1 + 1)%nat in
  let b := pre ++ open_text a ++ r in
  match a.2 with
  | NoVal => Parser b at_ vs V_ATT V_WSP (length pre)
  | Bare _ => Parser b (at_ ++ [length pre]) vs V_VAL V_WSP q
  | Quoted c _ => Parser b (at_ ++ [length pre]) vs V_VAL (quote_state c) q
  end.

(** ... and what is left of the text in the buffer when [d] has ended it. *)
Definition cooked (a : list Z * sval) (d : Z) : list Z :=
  a.1 ++ match a.2 with
         | NoVal => [0]
         | Bare v => 0 :: v ++ [0]
         | Quoted c v => 0 :: c :: v ++ [0; d]
         end.

Definition vals_with (pre : list Z) (a : list Z * sval) (at_ : list nat) (vs : gmap nat nat)
  : gmap nat nat :=
  let q := (length pre + length a.1 + 1)%nat in
  match a.2 with
  | NoVal => vs
  | Bare _ => <[length at_ := q]> vs
  | Quoted _ _ => <[length at_ := S q]> vs
  end.

Lemma insert_app_at {A} (l r : list A) (x y : A) (i : nat) :
  i = length l -> <[i:=y]> (l ++ x :: r) = l ++ y :: r.
Proof. intros ->. by rewrite insert_app_r_alt, Nat.sub_diag by lia. Qed.

Lemma parse_step_equals (s : parser) (i : nat) :
  pv s = V_ATT -> chr s i = EQUALS ->
  parse_step s i = (push_att s (Some i) V_SVAL (S i), S i).
Proof. intros E Hc. unfold parse_step. by rewrite E, Hc. Qed.

(** The name and the equals sign, up to the text [t] of the value. *)
Lemma run_name_equals (pre n t : list Z) (fuel : nat) (at_ : list nat)
    (vs : gmap nat nat) (p : nat) :
  n <> [] -> forallb name_char n = true -> prefixb [DASH; DASH] n = false -> t <> [] ->
  parse_loop (length n + S fuel)
    (Parser (pre ++ n ++ EQUALS :: t) at_ vs V_WSP V_WSP p) (length pre)
  = parse_loop fuel
      (Parser ((pre ++ n ++ [0]) ++ t) (at_ ++ [length pre]) vs V_SVAL V_WSP
         (length (pre ++ n ++ [0])))
      (length (pre ++ n ++ [0])).
Proof.
  intros Hn Hc Hd Ht. rewrite run_name by done.
  assert (El : length (pre ++ n ++ [0]) = S (length pre + length n))
    by (rewrite !length_app; simpl; lia).
  apply parse_loop_S.
  - simpl. rewrite !length_app. simpl. destruct t; [done|]. simpl. lia.
  - rewrite parse_step_equals; [|done|].
    + rewrite El. unfold push_att. cbn [scratch atts vals pp pv0 set_v].
      rewrite (app_assoc pre n), insert_app_at by (by rewrite length_app).
      by rewrite <- !app_assoc.
    + rewrite <- length_app. apply (chr_app _ (pre ++ n) t). simpl. by rewrite <- app_assoc.
Qed.

Lemma run_sattr (pre : list Z) (a : list Z * sval) (r : list Z) (fuel : nat)
    (at_ : list nat) (vs : gmap nat nat) (p : nat) :
  sattr_ok a = true -> r <> [] -> nth 0 r 0 <> DASH ->
  parse_loop (length (sattr_text a) + fuel)
    (Parser (pre ++ sattr_text a ++ r) at_ vs V_WSP V_WSP p) (length pre)
  = parse_loop fuel (open_state pre a r at_ vs) (length pre + length (sattr_text a)).
Proof.
  destruct a as [n v]. unfold sattr_ok, sattr_text, open_state, open_text. cbn [fst snd].
  intros Hok Hr Hd. btoprop. apply bool_decide_eq_false in H.
  assert (El : (length pre + length n + 1 = length (pre ++ n ++ [0%Z]))%nat)
    by (rewrite !length_app; simpl; lia).
  destruct v as [|v|c v]; cbn [sval_text].
  - rewrite !app_nil_r. by rewrite run_name.
  - assert (v <> []) by (unfold sval_ok in *; btoprop; by apply bool_decide_eq_false in H0).
    rewrite length_app, <- app_assoc. cbn [length app].
    rewrite <- Nat.add_assoc. cbn [Nat.add].
    rewrite run_name_equals; auto; [|by destruct v].
    rewrite run_bare; auto; [|unfold sval_ok in *; by btoprop].
    rewrite El, <- !app_assoc. unfold set_v. simpl. f_equal. rewrite !length_app. simpl. lia.
  - rewrite length_app, <- app_assoc. cbn [length app].
    rewrite <- Nat.add_assoc. cbn [Nat.add].
    rewrite run_name_equals by done.
    pose proof (run_quoted (pre ++ n ++ [0]) v r c fuel) as Hx. cbn [length app] in Hx.
    cbn [Nat.add] in Hx. rewrite Hx by done.
    rewrite El, <- !app_assoc. simpl. rewrite <- app_assoc. f_equal.
    rewrite !length_app. simpl. lia.
Qed.

(** After its delimiter, an attribute is stored and the buffer is cut. *)
Definition closed_state (pre : list Z) (a : list Z * sval) (d : Z) (r : list Z)
    (at_ : list nat) (vs : gmap nat nat) (p : nat) : parser :=
  Parser (pre ++ cooked a d ++ r) (at_ ++ [length pre]) (vals_with pre a at_ vs)
    V_WSP V_WSP p.

Lemma length_cooked (a : list Z * sval) (d : Z) :
  length (cooked a d) = S (length (sattr_text a)).
Proof.
  destruct a as [n [|v|q v]]; unfold cooked, sattr_text; simpl;
    rewrite ?length_app; simpl; rewrite ?length_app; simpl; lia.
Qed.

Lemma length_open_text (a : list Z * sval) : length (open_text a) = length (sattr_text a).
Proof.
  destruct a as [n [|v|q v]]; unfold open_text, sattr_text; simpl; by rewrite ?length_app.
Qed.

Lemma scratch_open (pre : list Z) (a : list Z * sval) (r : list Z) (at_ : list nat)
    (vs : gmap nat nat) :
  scratch (open_state pre a r at_ vs) = pre ++ open_text a ++ r.
Proof. unfold open_state. by destruct a as [n [|v|q v]]. Qed.

Lemma quote_state_quoted (q : Z) :
  bool_decide (quote_state q = V_DQUOT) || bool_decide (quote_state q = V_SQUOT) = true.
Proof. unfold quote_state. by bcase. Qed.

Lemma cut_at (pre w r : list Z) (x y : Z) (k : nat) :
  k = (length pre + length w)%nat -> <[k:=y]> (pre ++ w ++ x :: r) = pre ++ (w ++ [y]) ++ r.
Proof.
  intros ->. rewrite (app_assoc pre w), insert_app_at by (by rewrite length_app).
  by rewrite <- !app_assoc.
Qed.

(** What the code does to the state at the end [i] of an attribute. *)
Lemma close_open (pre : list Z) (a : list Z * sval) (d : Z) (r : list Z) (at_ : list nat)
    (vs : gmap nat nat) (e : bool) :
  let i := (length pre + length (sattr_text a))%nat in
  let s := open_state pre a (d :: r) at_ vs in
  (if e then d = 0 else True) ->
  exists p, (if bool_decide (pv s = V_ATT)
             then push_att s (if e then None else Some i) V_WSP (pp s)
             else close_val s i e)
            = closed_state pre a d r at_ vs p.
Proof.
  intros i s He. subst i s.
  unfold open_state, closed_state, cooked, vals_with, open_text, sattr_text, close_val.
  destruct a as [n [|v|q v]]; cbn [fst snd sval_text pv pv0 app];
    rewrite ?quote_state_quoted; unfold push_att, natts; simpl;
    rewrite ?length_app, ?app_nil_r; simpl; rewrite ?Nat.add_sub; eexists; f_equal.
  - destruct e; [by rewrite He, <- app_assoc|]. by rewrite cut_at by lia.
  - destruct e; [rewrite He, <- !app_assoc; simpl; by rewrite <- app_assoc|].
    rewrite cut_at by (rewrite length_app; simpl; lia).
    rewrite <- !app_assoc. simpl. by rewrite <- app_assoc.
  - replace (pre ++ (n ++ 0 :: q :: v ++ [q]) ++ d :: r)
      with (pre ++ (n ++ 0 :: q :: v) ++ q :: d :: r)
      by (rewrite <- !app_assoc; simpl; by rewrite <- app_assoc).
    rewrite cut_at by (rewrite !length_app; simpl; rewrite ?length_app; simpl; lia).
    rewrite <- !app_assoc. simpl. by rewrite <- app_assoc.
Qed.


Lemma close_space (pre : list Z) (a : list Z * sval) (r : list Z) (at_ : list nat)
    (vs : gmap nat nat) :
  let i := (length pre + length (sattr_text a))%nat in
  exists p, parse_step (open_state pre a (SPACE :: r) at_ vs) i
            = (closed_state pre a SPACE r at_ vs p, S i).
Proof.
  intros i. destruct (close_open pre a SPACE r at_ vs false I) as [p Hp]. exists p.
  rewrite <- Hp. fold i.
  assert (E : chr (open_state pre a (SPACE :: r) at_ vs) i = SPACE).
  { unfold i. rewrite <- length_open_text, <- length_app. apply (chr_app _ _ r).
    by rewrite scratch_open, app_assoc. }
  unfold parse_step, in_val. rewrite E.
  unfold open_state. by destruct a as [n [|v|q v]].
Qed.

Lemma until_nul_app (s r : list Z) : 0 ∉ s -> until_nul (s ++ 0 :: r) = s.
Proof.
  induction s as [|c s IH]; simpl; [done|]. intros H. apply not_elem_of_cons in H as [H1 H2].
  destruct (Z.eqb_spec c 0); [congruence|]. by rewrite IH.
Qed.

Lemma read_at (pre s r : list Z) (p : nat) :
  p = length pre -> 0 ∉ s -> until_nul (drop p (pre ++ s ++ 0 :: r)) = s.
Proof. intros -> H. rewrite drop_app_length. by apply until_nul_app. Qed.

Lemma not_nul (P : Z -> bool) (s : list Z) :
  forallb P s = true -> P 0 = false -> 0 ∉ s.
Proof.
  intros H H0 Hin. apply Forall_forallb in H. rewrite Forall_forall in H.
  specialize (H 0 Hin). simpl in H. congruence.
Qed.

Lemma attribs_at_snoc (buf : list Z) (ps : list nat) (vs vs' : gmap nat nat) (p : nat) :
  (forall k, (k < length ps)%nat -> vs' !! k = vs !! k) ->
  attribs_at buf (ps ++ [p]) vs'
  = attribs_at buf ps vs
    ++ [(Some (until_nul (drop p buf)), (fun q => until_nul (drop q buf)) <$> vs' !! length ps)].
Proof.
  intros H. unfold attribs_at. rewrite imap_app. simpl. rewrite Nat.add_0_r. f_equal.
  apply imap_ext. intros k x Hx. simpl. rewrite H; [done|]. by eapply lookup_lt_Some.
Qed.

(** A closed attribute is read as it was written, whatever follows. *)
Lemma attribs_at_closed (pre : list Z) (a : list Z * sval) (d : Z) (at_ : list nat)
    (vs : gmap nat nat) (l : list attrib) :
  sattr_ok a = true ->
  vs !! length at_ = None ->
  (forall r, attribs_at (pre ++ r) at_ vs = l) ->
  forall r, attribs_at (pre ++ cooked a d ++ r) (at_ ++ [length pre]) (vals_with pre a at_ vs)
            = l ++ [sattr_attrib a].
Proof.
  intros Hok Hk Hl r. rewrite (attribs_at_snoc _ _ vs).
  2:{ intros k Hlt. unfold vals_with. destruct a.2; [done| |];
        by rewrite lookup_insert_ne by lia. }
  rewrite Hl. do 3 f_equal.
  unfold sattr_ok in Hok. btoprop. rename H2 into Hn, H0 into Hv.
  assert (0 ∉ a.1) by (by apply (not_nul name_char)).
  destruct a as [n v]. unfold cooked, vals_with, sattr_attrib. simpl in *. apply f_equal2.
  - f_equal. destruct v; rewrite <- app_assoc; simpl; by apply read_at.
  - destruct v as [|v|q v]; simpl in *.
    + by rewrite Hk.
    + btoprop. rewrite lookup_insert_eq. simpl. f_equal.
      replace (pre ++ (n ++ 0 :: v ++ [0]) ++ r) with ((pre ++ n ++ [0]) ++ v ++ 0 :: r)
        by (rewrite <- !app_assoc; simpl; by rewrite <- app_assoc).
      apply read_at; [rewrite !length_app; simpl; lia|by apply (not_nul bare_char)].
    + btoprop. rewrite lookup_insert_eq. simpl. f_equal.
      replace (pre ++ (n ++ 0 :: q :: v ++ [0; d]) ++ r)
        with ((pre ++ n ++ [0; q]) ++ v ++ 0 :: d :: r)
        by (rewrite <- !app_assoc; simpl; by rewrite <- app_assoc).
      apply read_at; [rewrite !length_app; simpl; lia|].
      apply (not_nul (quoted_char q)); [done|].
      unfold quoted_char. by rewrite andb_false_r.
Qed.

Lemma parse_loop_done (fuel : nat) (s : parser) (i : nat) :
  (length (scratch s) - 1 <= i)%nat -> parse_loop fuel s i = (s, i).
Proof.
  intros H. destruct fuel; simpl; [done|]. by destruct (Nat.ltb_spec i (length (scratch s) - 1)); [lia|].
Qed.

Lemma attribs_of_end (pre : list Z) (a : list Z * sval) (at_ : list nat) (vs : gmap nat nat) :
  attribs_of (parse_end (open_state pre a [0] at_ vs) (length pre + length (sattr_text a)))
  = attribs_at (pre ++ cooked a 0) (at_ ++ [length pre]) (vals_with pre a at_ vs).
Proof.
  destruct (close_open pre a 0 [] at_ vs true eq_refl) as [p Hp].
  assert (E : attribs_of (closed_state pre a 0 [] at_ vs p)
              = attribs_at (pre ++ cooked a 0) (at_ ++ [length pre]) (vals_with pre a at_ vs))
    by (unfold attribs_of; simpl; by rewrite app_nil_r).
  rewrite <- E, <- Hp. unfold open_state. by destruct a as [n [|v|q v]].
Qed.

Lemma vals_with_None (pre : list Z) (a : list Z * sval) (at_ : list nat) (vs : gmap nat nat) :
  (forall k, (length at_ <= k)%nat -> vs !! k = None) ->
  forall k, (S (length at_) <= k)%nat -> vals_with pre a at_ vs !! k = None.
Proof.
  intros H k Hk. unfold vals_with. destruct a.2; rewrite ?lookup_insert_ne by lia; apply H; lia.
Qed.

Lemma parse_sattrs (attrs : list (list Z * sval)) :
  attrs <> [] -> forallb sattr_ok attrs = true ->
  forall pre at_ vs p l fuel,
  (forall k, (length at_ <= k)%nat -> vs !! k = None) ->
  (forall r, attribs_at (pre ++ r) at_ vs = l) ->
  let '(s, i) := parse_loop (length (sattrs_text attrs) + fuel)
                   (Parser (pre ++ sattrs_text attrs ++ [0]) at_ vs V_WSP V_WSP p)
                   (length pre) in
  attribs_of (parse_end s i) = l ++ map sattr_attrib attrs.
Proof.
  induction attrs as [|a attrs IH]; [done|]. intros _ Hok pre at_ vs p l fuel Hk Hl.
  simpl in Hok. btoprop. destruct attrs as [|a' attrs].
  - cbn [sattrs_text]. rewrite run_sattr by done.
    rewrite parse_loop_done.
    2:{ rewrite scratch_open, !length_app, length_open_text. simpl. lia. }
    rewrite attribs_of_end.
    pose proof (attribs_at_closed pre a 0 at_ vs l) as Hc.
    rewrite <- (app_nil_r (cooked a 0)). apply Hc; auto.
  - change (sattrs_text (a :: a' :: attrs))
      with (sattr_text a ++ SPACE :: sattrs_text (a' :: attrs)).
    set (rest := sattrs_text (a' :: attrs)) in *.
    rewrite length_app, <- app_assoc. cbn [length app].
    replace (length (sattr_text a) + S (length rest) + fuel)%nat
      with (length (sattr_text a) + S (length rest + fuel))%nat by lia.
    rewrite run_sattr by done.
    destruct (close_space pre a (rest ++ [0]) at_ vs) as [p' Hp].
    assert (Hs : (S (length pre + length (sattr_text a))
                  < length (scratch (open_state pre a (SPACE :: rest ++ [0%Z]) at_ vs)))%nat).
    { rewrite scratch_open, !length_app, length_open_text. simpl. rewrite length_app. simpl. lia. }
    rewrite (parse_loop_S _ _ _ _ _ Hs Hp).
    unfold closed_state. rewrite app_assoc.
    replace (S (length pre + length (sattr_text a))) with (length (pre ++ cooked a SPACE))
      by (rewrite length_app, length_cooked; lia).
    specialize (IH ltac:(done) ltac:(done) (pre ++ cooked a SPACE) (at_ ++ [length pre])
                  (vals_with pre a at_ vs) p' (l ++ [sattr_attrib a]) fuel).
    destruct (parse_loop _ _ _). rewrite IH.
    + by rewrite <- app_assoc.
    + intros k. rewrite length_app. simpl. rewrite Nat.add_1_r. by apply vals_with_None.
    + intros r. rewrite <- app_assoc. apply attribs_at_closed; auto.
Qed.

Lemma parse_written (attrs : list (list Z * sval)) 
  (Hne : attrs <> []) (Hok : forallb sattr_ok attrs = true) :
  parse_attribs (written_tag attrs) = map sattr_attrib attrs.
Proof.
  unfold parse_attribs, parse_tag, parse_init, written_tag.
  set (text := sattrs_text attrs).
  assert (E : <[(length (LT :: text ++ [GT]) - 1)%nat:=0]> (LT :: text ++ [GT])
              = [LT] ++ text ++ [0]).
  { change (LT :: text ++ [GT]) with ([LT] ++ text ++ [GT]).
    rewrite cut_at; [by rewrite app_nil_r|]. rewrite !length_app. simpl. lia. }
  rewrite E.
  replace (length (LT :: text ++ [GT])) with (length text + 2)%nat
    by (simpl; rewrite length_app; simpl; lia).
  pose proof (parse_sattrs attrs Hne Hok [LT] [] ∅ 1 [] 2) as H.
  cbn [length] in H. destruct (parse_loop _ _ _) as [s i]. apply H; [|done].
  intros. apply lookup_empty.
Qed.

(** C7: a tag is read as it was written: when its attributes are written alone, with
    a bare value, or with a value between quotes of either kind (spaces and the
    other quote inside), the callback gets exactly their names and their values,
    the values without their quotes. *)
Theorem parse_written_tag (attrs : list (list Z * sval)) (Hne : attrs <> [])
    (Hok : forallb sattr_ok attrs = true) :
  parse_attribs (written_tag attrs) = map sattr_attrib attrs.
Proof. by apply parse_written. Qed.

Lemma parse_written_tag_witness :
  parse_attribs (bytes "<A HREF='x y'>") = [(Some (bytes "A"), None); (Some (bytes "HREF"), Some (bytes "x y"))].
Proof.
  apply (parse_written_tag [(bytes "A", NoVal); (bytes "HREF", Quoted SQUOTE (bytes "x y"))]);
    [discriminate|vm_compute; reflexivity].
Defined.
