(* ===== verification/HtmlStream.v ===== *)
(** * htmlstream: what the HTML tag scanner promises of a whole page

    [TagCallback] is the contract between cfmod_htmlfilter.c and the modules
    that register a [processTag] callback (stated in htmlfilter.h): a callback
    writes only through [insertTag], and nothing while [eating] is set.  For
    every such callback: the state of the scanner stays well formed from chunk
    to chunk (the assertion of [processTag0] holds, no tag is lost), the output
    count is exact, the page is padded to its Content-Length, and nothing is
    passed on while eating. *)

From S2P Require Import Prelude CString HtmlFilter.

Class TagCallback (cb : htmlFilter -> list attrib -> Z * htmlFilter * list Z) : Prop := {
  cb_frame : forall h attrs,
    let h' := (cb h attrs).1.2 in
    tag h' = tag h /\ inTag h' = inTag h /\ inBSQuot h' = inBSQuot h
    /\ contlen h' = contlen h /\ posin h' = posin h;
  cb_account : forall h attrs,
    posout (cb h attrs).1.2 = posout h + strlen (cb h attrs).2;
  cb_quiet : forall h attrs, eating h <> 0 -> (cb h attrs).2 = [];
  cb_resume : forall h attrs, eating h <> 0 -> eating (cb h attrs).1.2 = 0 ->
    ~ ((cb h attrs).1.1 = 0)
}.

(** The state of the scanner between two bytes: a pending tag starts with its
    bracket, holds no NUL and never a pending backslash; a tag that has just
    started is the bracket alone; outside a tag nothing
    is pending. *)
Definition wf_filter (h : htmlFilter) : Prop :=
  match inTag h with
  | T_TEXT | T_META | T_COMM => tag h = []
  | T_STAG => tag h = [LT] /\ inBSQuot h = 0
  | T_TAG | T_EQU | T_DQUOT | T_SQUOT =>
      (exists t, tag h = LT :: t) /\ (0 ∉ tag h) /\ inBSQuot h = 0
  end.

Ltac strlen_simpl := rewrite ?strlen_app, ?strlen_nil.

Lemma wf_tag (h : htmlFilter) :
  wf_filter h -> match inTag h with T_TEXT | T_META | T_COMM => False | _ => True end ->
  (exists t, tag h = LT :: t) /\ (0 ∉ tag h) /\ inBSQuot h = 0.
Proof.
  unfold wf_filter. destruct (inTag h); try done. intros [-> ?] _.
  split_and!; [by eexists|set_solver|done].
Qed.

Section Stream.
Variable cb : htmlFilter -> list attrib -> Z * htmlFilter * list Z.
Context `{Hcb : TagCallback cb}.

(** One step from [h] to [h'] with output [out]. *)
Record good_step (h h' : htmlFilter) (out : list Z) : Prop := {
  gs_wf : wf_filter h';
  gs_contlen : contlen h' = contlen h;
  gs_posin : posin h' = posin h;
  gs_posout : posout h' = posout h + strlen out;
  gs_eating : eating h <> 0 -> out = []
}.

Lemma good_step_trans (h1 h2 h3 : htmlFilter) (o1 o2 : list Z) :
  good_step h1 h2 o1 -> good_step h2 h3 o2 ->
  (eating h1 <> 0 -> o2 = []) -> good_step h1 h3 (o1 ++ o2).
Proof.
  intros [] [] He. split; [done|congruence|congruence| |].
  - strlen_simpl. lia.
  - intros H. by rewrite gs_eating0, He.
Qed.

Lemma finish_tag_good (h : htmlFilter) (next : tpos) :
  let r := finish_tag cb h next in
  tag r.1 = [] /\ inTag r.1 = next /\ contlen r.1 = contlen h /\ posin r.1 = posin h
  /\ posout r.1 = posout h + strlen r.2 /\ (eating h <> 0 -> r.2 = []).
Proof.
  unfold finish_tag, processTag0.
  set (h0 := set_tag (tag h ++ [GT]) h).
  destruct (parse_attribs (tag h0)) as [|a attrs].
  - simpl. destruct (Z.eqb_spec (eating h) 0); simpl; split_and!; auto;
      strlen_simpl; try lia; done.
  - set (l := a :: attrs). pose proof (cb_frame h0 l) as Hf. pose proof (cb_account h0 l) as Ha.
    pose proof (cb_quiet h0 l) as Hq. pose proof (cb_resume h0 l) as Hr.
    destruct (cb h0 l) as [[r h1] out]. simpl in Hf, Ha, Hq, Hr. destruct_and!.
    bcase; btoprop; simpl; strlen_simpl; split_and!; auto; try lia.
    all: intros He; first [by rewrite Hq | exfalso; by apply Hr].
Qed.

(** Storing a byte of a tag. *)
Lemma store_good (h h0 : htmlFilter) (c : Z) (t : tpos) :
  c <> 0 -> inTag h = t ->
  match t with T_TEXT | T_META | T_COMM => False | T_STAG => tag h = [] /\ c = LT | _ => True end ->
  (exists r, tag h ++ [c] = LT :: r) -> 0 ∉ tag h ->
  contlen h = contlen h0 -> posin h = posin h0 -> posout h = posout h0 ->
  good_step h0 (storeTag h c).1 (storeTag h c).2.
Proof.
  intros Hc <- Ht Hr H0 ? ? ?. split; simpl; strlen_simpl; auto; try lia.
  unfold wf_filter. simpl. destruct (inTag h) eqn:E; try done; [by destruct Ht as [-> ->]|..];
    (split_and!; [done| |done]; rewrite not_elem_of_app, list_elem_of_singleton; auto).
Qed.

Lemma in_quote_good (h h0 : htmlFilter) (c : Z) :
  wf_filter h -> c <> 0 ->
  match inTag h with T_TEXT | T_META | T_COMM | T_STAG => False | _ => True end ->
  contlen h = contlen h0 -> posin h = posin h0 -> posout h = posout h0 ->
  good_step h0 (in_quote h c).1 (in_quote h c).2.
Proof.
  intros Hwf Hc Ht ? ? ?. unfold in_quote.
  destruct (wf_tag h Hwf) as ([t Et] & Hnul & Hb); [by destruct (inTag h)|].
  rewrite Hb. simpl.
  repeat bcase; eapply store_good; simpl; eauto; try done; try (rewrite Et; by eexists);
    by destruct (inTag h).
Qed.

Lemma in_tag_good (h h0 : htmlFilter) (c : Z) :
  wf_filter h -> c <> 0 -> inTag h = T_TAG ->
  contlen h = contlen h0 -> posin h = posin h0 -> posout h = posout h0 ->
  eating h = eating h0 ->
  good_step h0 (in_tag cb h c).1 (in_tag cb h c).2.
Proof.
  intros Hwf Hc Ht ? ? Hp He. unfold in_tag.
  destruct (Z.eqb_spec c GT); [|destruct (Z.eqb_spec c LT)].
  - destruct (finish_tag_good h T_TEXT) as (Et & Ei & Ec & Ep & Eo & Eq).
    destruct (finish_tag cb h T_TEXT) as [h1 o]; simpl in *.
    split; simpl; try congruence; try lia.
    + unfold wf_filter. by rewrite Ei.
    + intros He'. apply Eq. by rewrite He.
  - destruct (finish_tag_good h T_STAG) as (Et & Ei & Ec & Ep & Eo & Eq).
    destruct (finish_tag cb h T_STAG) as [h1 o]; simpl in *.
    split; simpl; try congruence; strlen_simpl; try lia.
    + unfold wf_filter. simpl. rewrite Ei, Et. by subst.
    + intros He'. rewrite Eq; [done|by rewrite He].
  - bcase; apply in_quote_good; simpl; auto; try by rewrite Ht.
    unfold wf_filter in *. rewrite Ht in Hwf. done.
Qed.

Lemma in_equ_good (h h0 : htmlFilter) (c : Z) :
  wf_filter h -> c <> 0 -> inTag h = T_TAG \/ inTag h = T_STAG \/ inTag h = T_EQU ->
  contlen h = contlen h0 -> posin h = posin h0 -> posout h = posout h0 ->
  eating h = eating h0 ->
  good_step h0 (in_equ cb h c).1 (in_equ cb h c).2.
Proof.
  intros Hwf Hc Ht ? ? ? ?.
  destruct (wf_tag h Hwf) as ([t Et] & Hnul & Hb); [by destruct Ht as [Ht|[Ht|Ht]]; rewrite Ht|].
  unfold in_equ. bcase.
  - split; simpl; auto; [|strlen_simpl; lia].
    unfold wf_filter. simpl.
    assert ((exists r, tag h ++ [c] = LT :: r) /\ (0 ∉ tag h ++ [c]) /\ inBSQuot h = 0)
      by (rewrite Et in *; split_and!; [by eexists|set_solver|done]).
    by bcase.
  - apply in_tag_good; simpl; auto. unfold wf_filter. simpl. rewrite Et in *. eauto.
Qed.

Lemma storeText_good (h h0 : htmlFilter) (c : Z) :
  wf_filter h -> contlen h = contlen h0 -> posin h = posin h0 -> posout h = posout h0 ->
  eating h = eating h0 ->
  good_step h0 (storeText h c).1 (storeText h c).2.
Proof.
  intros Hwf ? ? Hp He. unfold storeText. rewrite He.
  destruct (Z.eqb_spec (eating h0) 0); split; simpl; auto; unfold strlen; simpl; lia || tauto.
Qed.

(** Every byte but NUL keeps the scanner well formed, and is accounted for. *)
Lemma filter_byte_good (h : htmlFilter) (c : Z) (Hwf : wf_filter h) (Hc : c <> 0) :
  good_step h (filter_byte cb h c).1 (filter_byte cb h c).2.
Proof.
  unfold filter_byte. pose proof Hwf as Hwf'. unfold wf_filter in Hwf'.
  destruct (inTag h) eqn:E.
  - bcase; btoprop.
    + eapply store_good; simpl; eauto; rewrite ?Hwf'; [by subst|by eexists; subst|set_solver].
    + by apply storeText_good.
  - unfold in_stag. destruct (Z.eqb_spec c BANG); [|destruct (Z.eqb_spec c LT)].
    + destruct (Z.eqb_spec (eating h) 0); split; simpl; try done; unfold strlen; simpl; lia.
    + split; simpl; auto; strlen_simpl; lia.
    + bcase; apply in_equ_good; simpl; auto.
      apply wf_tag in Hwf; [done|by rewrite E].
  - apply in_tag_good; auto.
  - apply in_equ_good; auto.
  - unfold in_meta. cbv zeta. apply storeText_good; repeat bcase; simpl; auto;
      unfold wf_filter; simpl; by rewrite ?E.
  - unfold in_comm. cbv zeta. apply storeText_good; repeat bcase; simpl; auto;
      unfold wf_filter; simpl; by rewrite ?E.
  - apply in_quote_good; auto. by rewrite E.
  - apply in_quote_good; auto. by rewrite E.
Qed.

(** A chunk without NUL. *)
Lemma filter_bytes_good (buf : list Z) : forall h,
  wf_filter h -> 0 ∉ buf ->
  let '(r, h', out) := filter_bytes cb h buf in
  r = 0 /\ wf_filter h' /\ contlen h' = contlen h /\ posin h' = posin h
  /\ posout h' = posout h + strlen out.
Proof.
  induction buf as [|c buf IH]; intros h Hwf H0; simpl.
  - strlen_simpl. split_and!; auto; lia.
  - apply not_elem_of_cons in H0 as [Hc H0]. destruct (Z.eqb_spec c 0); [congruence|].
    pose proof (filter_byte_good h c Hwf ltac:(congruence)) as Hg.
    destruct (filter_byte cb h c) as [h1 o1]. destruct Hg as [W C P O _]. simpl in *.
    specialize (IH h1 W H0). destruct (filter_bytes cb h1 buf) as [[r h2] o2].
    destruct IH as (? & ? & ? & ? & ?). strlen_simpl. split_and!; auto; congruence || lia.
Qed.

Lemma filter_bytes_app (a b : list Z) : forall h,
  0 ∉ a -> wf_filter h ->
  filter_bytes cb h (a ++ b)
  = (let '(_, h1, o1) := filter_bytes cb h a in
     let '(r, h2, o2) := filter_bytes cb h1 b in (r, h2, o1 ++ o2)).
Proof.
  induction a as [|c a IH]; intros h H0 Hwf; simpl.
  - by destruct (filter_bytes cb h b) as [[r h2] o2].
  - apply not_elem_of_cons in H0 as [Hc H0]. destruct (Z.eqb_spec c 0); [congruence|].
    pose proof (filter_byte_good h c Hwf ltac:(congruence)) as Hg.
    destruct (filter_byte cb h c) as [h1 o1]. destruct Hg as [W _ _ _ _]. simpl in *.
    rewrite (IH h1 H0 W).
    destruct (filter_bytes cb h1 a) as [[r2 h2] o2].
    destruct (filter_bytes cb h2 b) as [[r3 h3] o3]. by rewrite app_assoc.
Qed.

(** While a module eats, nothing gets through: whatever [eating] was set for,
    every byte is swallowed up to and including the one whose callback clears it,
    across tags, comments and chunks. *)
Lemma eating_silent (h : htmlFilter) (buf : list Z) (Hwf : wf_filter h) (Hnul : 0 ∉ buf)
    (Heat : forall a c b, buf = a ++ c :: b -> eating (filter_bytes cb h a).1.2 <> 0) :
  (filter_bytes cb h buf).2 = [].
Proof.
  induction buf as [|c buf IH] using rev_ind; [done|].
  apply not_elem_of_app in Hnul as [Hb Hc].
  rewrite filter_bytes_app by done.
  specialize (IH Hb). pose proof (filter_bytes_good buf h Hwf Hb) as Hg.
  specialize (Heat buf c [] eq_refl) as He.
  destruct (filter_bytes cb h buf) as [[r h1] o1]. destruct Hg as (_ & W & _).
  simpl in IH. rewrite IH by (intros a c' b ->; apply (Heat a c' (b ++ [c])); by rewrite <- app_assoc).
  simpl. destruct (Z.eqb_spec c 0) as [->|Hc']; [done|].
  pose proof (filter_byte_good h1 c W Hc') as Hs. destruct (filter_byte cb h1 c) as [h2 o2].
  simpl in *. by rewrite (gs_eating _ _ _ Hs He).
Qed.

(** A page, chunk by chunk; the transfer is killed by a negative result. *)
Fixpoint filter_chunks (h : htmlFilter) (chunks : list (list Z)) : Z * htmlFilter * list Z :=
  match chunks with
  | [] => (0, h, [])
  | buf :: rest =>
      let '(r, h1, o1) := htmlCfFilter cb h buf in
      if r <? 0 then (r, h1, o1)
      else let '(r2, h2, o2) := filter_chunks h1 rest in (r2, h2, o1 ++ o2)
  end.

Lemma htmlCfFilter_good (h : htmlFilter) (buf : list Z) :
  wf_filter h -> 0 ∉ buf ->
  let '(r, h', out) := htmlCfFilter cb h buf in
  r = 0 /\ wf_filter h' /\ contlen h' = contlen h /\ posin h' = posin h + strlen buf
  /\ strlen out = posout h' - posout h
                  + (if (0 <=? contlen h) && (contlen h <=? posin h')
                     then Z.max 0 (contlen h - posout h') else 0).
Proof.
  intros Hwf H0. unfold htmlCfFilter.
  pose proof (filter_bytes_good buf (set_posin (posin h + strlen buf) h) Hwf H0) as Hg.
  destruct (filter_bytes cb _ buf) as [[r h1] o]. destruct Hg as (-> & W & C & P & O).
  simpl in *. split_and!; auto. strlen_simpl. rewrite C. destruct (_ && _); [|rewrite strlen_nil; lia].
  unfold strlen at 2. rewrite length_replicate. lia.
Qed.

Lemma filter_chunks_good (chunks : list (list Z)) : forall h,
  wf_filter h -> Forall (fun b => b <> [] /\ (0 ∉ b)) chunks ->
  (0 <= contlen h -> posin h + strlen (concat chunks) <= contlen h) ->
  let '(r, h', out) := filter_chunks h chunks in
  r = 0 /\ wf_filter h' /\ contlen h' = contlen h
  /\ posin h' = posin h + strlen (concat chunks)
  /\ strlen out = posout h' - posout h
                  + (if bool_decide (chunks <> []) && (0 <=? contlen h) && (contlen h =? posin h')
                     then Z.max 0 (contlen h - posout h') else 0).
Proof.
  induction chunks as [|b chunks IH]; intros h Hwf Hok Hlen; simpl.
  - strlen_simpl. split_and!; auto; lia.
  - apply Forall_cons in Hok as [[Hb H0] Hok]. simpl in Hlen. rewrite strlen_app in *.
    pose proof (htmlCfFilter_good h b Hwf H0) as Hg.
    destruct (htmlCfFilter cb h b) as [[r h1] o1]. destruct Hg as (-> & W & C & P & O). simpl.
    destruct chunks as [|b2 chunks].
    + simpl in *. rewrite strlen_nil, Z.add_0_r, app_nil_r in *. rewrite O, P.
      split_and!; auto.
      destruct (Z.leb_spec 0 (contlen h)), (Z.leb_spec (contlen h) (posin h + strlen b)),
        (Z.eqb_spec (contlen h) (posin h + strlen b)); simpl in *; lia.
    + specialize (IH h1 W Hok ltac:(rewrite C, P; intros; lia)).
      destruct (filter_chunks h1 (b2 :: chunks)) as [[r2 h2] o2].
      destruct IH as (-> & W2 & C2 & P2 & O2). strlen_simpl.
      rewrite O, O2, C, C2, P2, P in *. split_and!; auto; try lia.
      assert (0 < strlen (concat (b2 :: chunks))).
      { apply Forall_cons in Hok as [[Hb2 _] _]. destruct b2; [done|].
        unfold strlen. simpl. lia. }
      simpl concat in *. 
      destruct (Z.leb_spec 0 (contlen h)); [|simpl; rewrite ?andb_false_r; simpl; lia].
      destruct (Z.leb_spec (contlen h) (posin h + strlen b)); [lia|].
      rewrite !Z.add_assoc. simpl. lia.
Qed.

(** A whole page, in chunks of any size, without a NUL byte: the filter accepts
    it and ends well formed; it reads every byte; without a Content-Length it
    passes on exactly the bytes it counted, and with one the page is padded to it
    (a page can only be longer when the count itself already is). *)
Lemma page_length (contlen0 : Z) (chunks : list (list Z))
    (Hok : Forall (fun b => b <> [] /\ (0 ∉ b)) chunks) (Hne : chunks <> [])
    (Hlen : contlen0 = -1 \/ contlen0 = strlen (concat chunks)) :
  let '(r, h', out) := filter_chunks (htmlContFilter contlen0) chunks in
  r = 0 /\ wf_filter h' /\ posin h' = strlen (concat chunks)
  /\ strlen out = if contlen0 =? -1 then posout h' else Z.max contlen0 (posout h').
Proof.
  pose proof (filter_chunks_good chunks (htmlContFilter contlen0)) as H.
  destruct (filter_chunks _ _) as [[r h'] out].
  destruct H as (-> & W & C & P & O); [done|done|simpl; lia|]. simpl in *.
  split_and!; auto. rewrite O, P. destruct Hlen as [-> | ->].
  - simpl. rewrite andb_false_r. simpl. lia.
  - assert (0 <= strlen (concat chunks)) by (unfold strlen; lia).
    destruct (Z.eqb_spec (strlen (concat chunks)) (-1)); [lia|].
    rewrite (bool_decide_true (chunks <> [])) by done.
    destruct (Z.leb_spec 0 (strlen (concat chunks))); [|lia]. simpl.
    rewrite Z.eqb_refl. lia.
Qed.
End Stream.

(** ** A module that leaves every tag alone *)

Definition keep_tag (h : htmlFilter) (attrs : list attrib) : Z * htmlFilter * list Z :=
  (0, h, []).

#[export] Instance keep_tag_callback : TagCallback keep_tag.
Proof. split; intros; unfold keep_tag; simpl; strlen_simpl; auto; try lia; tauto. Qed.

Lemma page_length_witness :
  let '(r, h', out) := filter_chunks keep_tag (htmlContFilter 9) [bytes "<a><"; bytes "b>c<d"] in
  r = 0 /\ wf_filter h' /\ posin h' = 9 /\ strlen out = Z.max 9 (posout h').
Proof.
  apply (page_length keep_tag 9 [bytes "<a><"; bytes "b>c<d"]);
    [repeat constructor; (discriminate || set_solver)|discriminate|right; reflexivity].
Defined.

(** A tag bracket inside a tag (outside quotes): the scanner's repair of broken
    pages, "<<TAG>" and "<A<B>", is the only thing that changes a page. *)
Fixpoint repaired (h : htmlFilter) (buf : list Z) : bool :=
  match buf with
  | [] => false
  | c :: buf' =>
      ((c =? LT) && match inTag h with T_STAG | T_TAG | T_EQU => true | _ => false end)
      || repaired (filter_byte keep_tag h c).1 buf'
  end.

Lemma finish_keep (h : htmlFilter) (next : tpos) :
  eating h = 0 ->
  let r := finish_tag keep_tag h next in
  r.2 = tag h ++ [GT] /\ tag r.1 = [] /\ inTag r.1 = next /\ eating r.1 = 0.
Proof.
  intros He. unfold finish_tag, processTag0, keep_tag.
  destruct (parse_attribs _); simpl; by rewrite He.
Qed.

Lemma in_quote_keep (h : htmlFilter) (c : Z) :
  let r := in_quote h c in
  r.2 ++ tag r.1 = tag h ++ [c] /\ eating r.1 = eating h.
Proof. unfold in_quote. simpl. by repeat bcase. Qed.

Lemma in_tag_keep (h : htmlFilter) (c : Z) :
  eating h = 0 -> c <> LT ->
  let r := in_tag keep_tag h c in
  r.2 ++ tag r.1 = tag h ++ [c] /\ eating r.1 = 0.
Proof.
  intros He Hc. unfold in_tag. destruct (Z.eqb_spec c GT) as [->|].
  - destruct (finish_keep h T_TEXT He) as (H1 & H2 & _ & H4). cbv zeta.
    by rewrite H1, H2, app_nil_r.
  - destruct (Z.eqb_spec c LT); [done|]. cbv zeta. rewrite <- He.
    destruct (c =? EQUALS); [apply (in_quote_keep (set_inTag T_EQU h))|apply in_quote_keep].
Qed.

Lemma in_equ_keep (h : htmlFilter) (c : Z) :
  eating h = 0 -> c <> LT ->
  let r := in_equ keep_tag h c in
  r.2 ++ tag r.1 = tag h ++ [c] /\ eating r.1 = 0.
Proof.
  intros He Hc. unfold in_equ. bcase; [done|]. by apply (in_tag_keep (set_inTag T_TAG h)).
Qed.

Lemma filter_byte_keep (h : htmlFilter) (c : Z) :
  wf_filter h -> eating h = 0 ->
  (c =? LT) && match inTag h with T_STAG | T_TAG | T_EQU => true | _ => false end = false ->
  let r := filter_byte keep_tag h c in
  r.2 ++ tag r.1 = tag h ++ [c] /\ eating r.1 = 0.
Proof.
  intros Hwf He Hc. unfold filter_byte, wf_filter in *.
  destruct (inTag h) eqn:E; rewrite ?andb_true_r in Hc; btoprop.
  - destruct (Z.eqb_spec c LT) as [->|]; [done|]. unfold storeText. rewrite He. simpl. by rewrite Hwf.
  - destruct Hwf as [Ht Hb]. unfold in_stag.
    destruct (Z.eqb_spec c BANG) as [->|]; [by rewrite He, Ht|].
    destruct (Z.eqb_spec c LT); [done|].
    destruct (isspace c); [apply in_equ_keep; done|by apply (in_equ_keep (set_inTag T_TAG h))].
  - by apply in_tag_keep.
  - by apply in_equ_keep.
  - unfold in_meta, storeText. cbv zeta. repeat bcase; btoprop; simpl in *; rewrite ?Hwf; done || lia.
  - unfold in_comm, storeText. cbv zeta. repeat bcase; btoprop; simpl in *; rewrite ?Hwf; done || lia.
  - rewrite <- He. apply in_quote_keep.
  - rewrite <- He. apply in_quote_keep.
Qed.

(** C8: a page passes unchanged: when no module touches a tag, the output followed
    by the tag still pending is the input, byte for byte, through text, tags,
    quoted values, comments and declarations, for pages without a NUL byte (at which
    the filter gives up) and unless the page needs the repair of a bracket inside a
    tag. *)
Theorem page_unchanged (h : htmlFilter) (buf : list Z) (Hwf : wf_filter h)
    (He : eating h = 0) (Hnul : 0 ∉ buf) (Hr : repaired h buf = false) :
  let '(_, h', out) := filter_bytes keep_tag h buf in out ++ tag h' = tag h ++ buf.
Proof.
  revert h Hwf He Hr. induction buf as [|c buf IH]; intros h Hwf He Hr; simpl.
  - by rewrite app_nil_r.
  - apply not_elem_of_cons in Hnul as [Hc Hnul]. simpl in Hr.
    apply orb_false_iff in Hr as [Hr Hr2].
    destruct (Z.eqb_spec c 0); [congruence|].
    pose proof (filter_byte_good keep_tag h c Hwf ltac:(congruence)) as Hg.
    pose proof (filter_byte_keep h c Hwf He Hr) as Hk.
    destruct (filter_byte keep_tag h c) as [h1 o1]. simpl in *. destruct Hk as [Hk Hk2].
    specialize (IH Hnul h1 (gs_wf _ _ _ Hg) Hk2 Hr2).
    destruct (filter_bytes keep_tag h1 buf) as [[r h2] o2].
    by rewrite <- app_assoc, IH, app_assoc, Hk, <- app_assoc.
Qed.

Lemma page_unchanged_witness :
  let page := bytes "x<a b='<'>y<!-- -->z" in
  let '(_, h', out) := filter_bytes keep_tag (htmlContFilter (-1)) page in out ++ tag h' = page.
Proof.
  apply (page_unchanged (htmlContFilter (-1)) (bytes "x<a b='<'>y<!-- -->z"));
    [reflexivity|reflexivity|set_solver|vm_compute; reflexivity].
Defined.

Lemma eating_silent_witness :
  (filter_bytes keep_tag (set_eating 1 (htmlContFilter (-1))) (bytes "x<a>y")).2 = [].
Proof.
  apply (eating_silent keep_tag (set_eating 1 (htmlContFilter (-1))) (bytes "x<a>y"));
    [reflexivity|set_solver|].
  intros a c b E. do 5 (destruct a as [|? a]; [simpl; lia|]; injection E as <- E; simpl in E).
  destruct a; discriminate.
Defined.

(** ** The scanner and the parser agree on where a tag ends *)

Section Scan.
Variable cb : htmlFilter -> list attrib -> Z * htmlFilter * list Z.

(** Text that no quotes protect. *)
Definition unquoted (a : list Z * sval) : list Z :=
  a.1 ++ match a.2 with Bare v => v | _ => [] end.

Definition plain_char (c : Z) : bool := negb (c =? LT) && negb (c =? GT).

(** A tag that can be written in a page: a name that does not look like a
    declaration, and no bracket outside quotes. *)
Definition tag_ok (attrs : list (list Z * sval)) : bool :=
  negb (bool_decide (attrs = [])) && forallb sattr_ok attrs
  && forallb (fun a => forallb plain_char (unquoted a)) attrs
  && match attrs with
     | (c :: _, _) :: _ => negb (c =? BANG) && negb (c =? DQUOTE) && negb (c =? SQUOTE)
     | _ => false
     end.

(** [h] with [t] pending, in state [i]. *)
Definition pending (h : htmlFilter) (t : list Z) (i : tpos) : htmlFilter :=
  set_inBSQuot 0 (set_inTag i (set_tag t h)).

(** Feed bytes that produce no output. *)
Definition feeds (h : htmlFilter) (s : list Z) (h' : htmlFilter) : Prop :=
  forall rest, filter_bytes cb h (s ++ rest) = filter_bytes cb h' rest.

Lemma feeds_nil (h : htmlFilter) : feeds h [] h.
Proof. intros rest. done. Qed.

Lemma feeds_app (h h1 h2 : htmlFilter) (s t : list Z) :
  feeds h s h1 -> feeds h1 t h2 -> feeds h (s ++ t) h2.
Proof. intros H1 H2 rest. by rewrite <- app_assoc, H1, H2. Qed.

Lemma feeds_byte (h h' : htmlFilter) (c : Z) :
  c <> 0 -> filter_byte cb h c = (h', []) -> feeds h [c] h'.
Proof.
  intros Hc E rest. simpl. destruct (Z.eqb_spec c 0); [done|]. rewrite E.
  by destruct (filter_bytes cb h' rest) as [[r h2] o].
Qed.

Lemma in_quote_pending (h : htmlFilter) (t : list Z) (i : tpos) (c : Z) :
  in_quote (pending h t i) c
  = (pending h (t ++ [c]) (if negb (c =? BACKSLASH) && (c =? tpos_code i) then T_TAG else i), []).
Proof. unfold in_quote, storeTag, pending. simpl. destruct (c =? BACKSLASH), (c =? tpos_code i); done. Qed.

Lemma feeds_tag (s : list Z) : forall (h : htmlFilter) (t : list Z),
  forallb (fun c => plain_char c && negb (c =? EQUALS) && negb (c =? 0)) s = true ->
  feeds (pending h t T_TAG) s (pending h (t ++ s) T_TAG).
Proof.
  induction s as [|c s IH]; intros h t H; simpl in H; [rewrite app_nil_r; apply feeds_nil|].
  unfold plain_char in H. btoprop. rewrite (app_assoc t [c] s : t ++ c :: s = _).
  apply (feeds_app _ (pending h (t ++ [c]) T_TAG) _ [c] s); [|by apply IH].
  apply feeds_byte; [done|]. unfold filter_byte. cbn [inTag pending set_inBSQuot set_inTag].
  unfold in_tag.
  destruct (Z.eqb_spec c GT), (Z.eqb_spec c LT), (Z.eqb_spec c EQUALS); try done.
  rewrite in_quote_pending. by bcase.
Qed.

(** In a tag, after its name or after an equals sign. *)
Definition tag_state (i : tpos) : Prop := i = T_TAG \/ i = T_EQU.

Lemma feeds_tag_byte (h : htmlFilter) (t : list Z) (i : tpos) (c : Z) :
  tag_state i -> plain_char c = true -> c <> 0 ->
  (i = T_EQU -> c <> DQUOTE /\ c <> SQUOTE) ->
  feeds (pending h t i) [c] (pending h (t ++ [c]) (if c =? EQUALS then T_EQU else T_TAG)).
Proof.
  intros Hi Hp Hc Hq. unfold plain_char in Hp. btoprop. apply feeds_byte; [done|].
  assert (Ht : in_tag cb (pending h t T_TAG) c
               = (pending h (t ++ [c]) (if c =? EQUALS then T_EQU else T_TAG), [])).
  { unfold in_tag. destruct (Z.eqb_spec c GT), (Z.eqb_spec c LT); try done.
    destruct (Z.eqb_spec c EQUALS) as [->|].
    - apply (in_quote_pending h t T_EQU).
    - rewrite in_quote_pending. by bcase. }
  destruct Hi as [-> | ->]; unfold filter_byte; cbn [inTag pending set_inBSQuot set_inTag]; [done|].
  unfold in_equ. destruct (Hq eq_refl).
  destruct (Z.eqb_spec c DQUOTE), (Z.eqb_spec c SQUOTE); try done.
Qed.

Lemma feeds_bare (h : htmlFilter) (v : list Z) : forall (t : list Z) (i : tpos),
  tag_state i -> forallb plain_char v = true -> forallb bare_char v = true ->
  exists i', tag_state i' /\ feeds (pending h t i) v (pending h (t ++ v) i').
Proof.
  induction v as [|c v IH]; intros t i Hi Hp Hb.
  - exists i. rewrite app_nil_r. split; [done|apply feeds_nil].
  - simpl in Hp, Hb. apply andb_true_iff in Hp as [Hc Hp], Hb as [Hc' Hb].
    apply bare_char_true in Hc' as (_ & H1%Z.eqb_neq & H2%Z.eqb_neq & H0).
    destruct (IH (t ++ [c]) (if c =? EQUALS then T_EQU else T_TAG)) as (i' & Hi' & Hf); auto.
    { destruct (c =? EQUALS); [by right|by left]. }
    exists i'. split; [done|].
    rewrite (app_assoc t [c] v : t ++ c :: v = _).
    apply (feeds_app _ _ _ [c] v (feeds_tag_byte h t i c Hi Hc H0 ltac:(auto)) Hf).
Qed.

Lemma feeds_quoted (h : htmlFilter) (q : Z) (i : tpos) (v : list Z) : forall (t : list Z),
  i = T_DQUOT /\ q = DQUOTE \/ i = T_SQUOT /\ q = SQUOTE ->
  forallb (quoted_char q) v = true ->
  feeds (pending h t i) (v ++ [q]) (pending h (t ++ v ++ [q]) T_TAG).
Proof.
  induction v as [|c v IH]; intros t Hi Hv.
  - apply feeds_byte; [by destruct Hi as [[_ ->]|[_ ->]]|].
    by destruct Hi as [[-> ->]|[-> ->]]; apply in_quote_pending.
  - simpl in Hv. apply andb_true_iff in Hv as [Hc Hv]. unfold quoted_char in Hc. btoprop.
    specialize (IH (t ++ [c]) Hi Hv). rewrite <- app_assoc in IH.
    refine (feeds_app _ _ _ [c] _ _ IH). apply feeds_byte; [done|].
    assert (E : filter_byte cb (pending h t i) c = in_quote (pending h t i) c)
      by (by destruct Hi as [[-> _]|[-> _]]).
    rewrite E, in_quote_pending.
    replace (c =? tpos_code i) with false; [by rewrite andb_false_r|].
    symmetry. apply Z.eqb_neq. by destruct Hi as [[-> ->]|[-> ->]].
Qed.

Lemma feeds_quote (h : htmlFilter) (t : list Z) (q : Z) :
  q = DQUOTE \/ q = SQUOTE ->
  feeds (pending h t T_EQU) [q]
    (pending h (t ++ [q]) (if q =? DQUOTE then T_DQUOT else T_SQUOT)).
Proof. intros Hq. apply feeds_byte; [by destruct Hq as [-> | ->]|]. by destruct Hq as [-> | ->]. Qed.

Lemma feeds_name (h : htmlFilter) (t n : list Z) :
  forallb name_char n = true -> forallb plain_char n = true ->
  feeds (pending h t T_TAG) n (pending h (t ++ n) T_TAG).
Proof.
  intros Hn Hp. apply feeds_tag. apply forallb_forall. intros c Hc.
  rewrite forallb_forall in Hn, Hp. pose proof (Hn c Hc) as Hc'.
  apply name_char_true in Hc' as (_ & -> & H0%Z.eqb_neq). by rewrite (Hp c Hc), H0.
Qed.

Lemma feeds_sval (h : htmlFilter) (t : list Z) (v : sval) :
  sval_ok v = true -> forallb plain_char (match v with Bare v => v | _ => [] end) = true ->
  exists i, tag_state i /\ feeds (pending h t T_TAG) (sval_text v) (pending h (t ++ sval_text v) i).
Proof.
  intros Hv Hp.
  assert (He : feeds (pending h t T_TAG) [EQUALS] (pending h (t ++ [EQUALS]) T_EQU))
    by (apply (feeds_tag_byte h t T_TAG EQUALS); [by left|done..]).
  destruct v as [|v|q v]; simpl in *; btoprop.
  - exists T_TAG. rewrite app_nil_r. split; [by left|apply feeds_nil].
  - destruct (feeds_bare h v (t ++ [EQUALS]) T_EQU) as (i & Hi & Hf); [by right|done..|].
    exists i. split; [done|]. rewrite <- app_assoc in Hf. exact (feeds_app _ _ _ [EQUALS] v He Hf).
  - apply orb_true_iff in H as Hq.
    assert (q = DQUOTE \/ q = SQUOTE) as Hq' by (destruct Hq; btoprop; auto).
    exists T_TAG. split; [by left|].
    replace (t ++ EQUALS :: q :: v ++ [q]) with (((t ++ [EQUALS]) ++ [q]) ++ v ++ [q])
      by (by rewrite <- !app_assoc).
    refine (feeds_app _ _ _ [EQUALS] (q :: v ++ [q]) He _).
    refine (feeds_app _ _ _ [q] _ (feeds_quote _ _ q Hq') _).
    apply feeds_quoted; [|done]. destruct Hq' as [-> | ->]; [by left|by right].
Qed.

Lemma feeds_sattr (h : htmlFilter) (t : list Z) (a : list Z * sval) :
  sattr_ok a = true -> forallb plain_char (unquoted a) = true ->
  exists i, tag_state i
            /\ feeds (pending h t T_TAG) (sattr_text a) (pending h (t ++ sattr_text a) i).
Proof.
  intros Hok Hp. unfold sattr_ok, unquoted, sattr_text in *. rewrite forallb_app in Hp. btoprop.
  destruct (feeds_sval h (t ++ a.1) a.2) as (i & Hi & Hf); [done..|].
  exists i. split; [done|]. rewrite app_assoc.
  eapply feeds_app; [apply feeds_name; done|done].
Qed.

Lemma feeds_sattrs (h : htmlFilter) (attrs : list (list Z * sval)) : forall (t : list Z),
  forallb sattr_ok attrs = true ->
  forallb (fun a => forallb plain_char (unquoted a)) attrs = true ->
  exists i, tag_state i
            /\ feeds (pending h t T_TAG) (sattrs_text attrs) (pending h (t ++ sattrs_text attrs) i).
Proof.
  induction attrs as [|a attrs IH]; intros t Hok Hp.
  - exists T_TAG. simpl. rewrite app_nil_r. split; [by left|apply feeds_nil].
  - simpl in Hok, Hp. apply andb_true_iff in Hok as [Ha Hok], Hp as [Hp Hps].
    destruct (feeds_sattr h t a Ha Hp) as (i & Hi & Hf).
    destruct attrs as [|a2 attrs]; [by exists i|].
    change (sattrs_text (a :: a2 :: attrs))
      with (sattr_text a ++ [SPACE] ++ sattrs_text (a2 :: attrs)).
    destruct (IH ((t ++ sattr_text a) ++ [SPACE]) Hok Hps) as (i2 & Hi2 & Hf2).
    exists i2. split; [done|]. rewrite !app_assoc. rewrite <- (app_assoc (sattr_text a)).
    eapply feeds_app; [exact Hf|]. eapply feeds_app; [|exact Hf2].
    by apply (feeds_tag_byte h (t ++ sattr_text a) i SPACE Hi).
Qed.

(** The opening bracket and the first byte of the name. *)
Lemma feeds_open (h : htmlFilter) (c : Z) :
  wf_filter h -> inTag h = T_TEXT ->
  name_char c = true -> plain_char c = true ->
  c <> BANG -> c <> DQUOTE -> c <> SQUOTE ->
  feeds h [LT; c] (pending h [LT; c] T_TAG).
Proof.
  intros Hwf Ht Hn Hp H1 H2 H3. unfold wf_filter in Hwf. rewrite Ht in Hwf.
  apply name_char_true in Hn as (Hs & He%Z.eqb_neq & H0).
  apply (feeds_app _ (pending h [LT] T_STAG) _ [LT] [c]).
  - apply feeds_byte; [done|]. unfold filter_byte. rewrite Ht. simpl.
    unfold storeTag, pending. simpl. by rewrite Hwf.
  - unfold plain_char in Hp. btoprop. apply feeds_byte; [done|].
    unfold filter_byte, in_stag. cbn [inTag pending set_inBSQuot set_inTag].
    destruct (Z.eqb_spec c BANG), (Z.eqb_spec c LT); try done. rewrite Hs.
    unfold in_equ. destruct (Z.eqb_spec c DQUOTE), (Z.eqb_spec c SQUOTE); try done. cbn [orb andb].
    unfold in_tag. destruct (Z.eqb_spec c GT), (Z.eqb_spec c LT), (Z.eqb_spec c EQUALS); try done.
    rewrite (in_quote_pending h [LT] T_TAG). by bcase.
Qed.

Lemma feeds_cancel (h h1 h2 : htmlFilter) (s t : list Z) :
  feeds h s h1 -> feeds h (s ++ t) h2 -> feeds h1 t h2.
Proof. intros H1 H2 rest. by rewrite <- H1, app_assoc, H2. Qed.

Lemma filter_bytes_gt (h : htmlFilter) (t : list Z) (i : tpos) (rest : list Z) :
  tag_state i ->
  filter_bytes cb (pending h t i) (GT :: rest)
  = (let '(h1, o1) := finish_tag cb (pending h t T_TAG) T_TEXT in
     let '(r, h2, o2) := filter_bytes cb h1 rest in (r, h2, o1 ++ o2)).
Proof. by intros [-> | ->]. Qed.

(** A tag of a page is handed to the callback as it was written. *)
Lemma filter_written_tag (h : htmlFilter) (attrs : list (list Z * sval)) (rest : list Z) :
  wf_filter h -> inTag h = T_TEXT -> tag_ok attrs = true ->
  filter_bytes cb h (written_tag attrs ++ rest)
  = (let '(r, h1, o1) := cb (pending h (written_tag attrs) T_TAG) (map sattr_attrib attrs) in
     let keep := (r =? 0) && (eating h1 =? 0) in
     let h2 := if keep then set_posout (posout h1 + strlen (tag h1)) h1 else h1 in
     let '(r3, h3, o3) := filter_bytes cb (set_inTag T_TEXT (set_tag [] h2)) rest in
     (r3, h3, (o1 ++ if keep then tag h1 else []) ++ o3)).
Proof.
  intros Hwf Ht Hok. unfold tag_ok in Hok. btoprop. apply bool_decide_eq_false in H.
  rename H2 into Hok, H1 into Hp, H0 into Hc.
  destruct attrs as [|[[|c n] v] attrs]; try done. btoprop.
  set (attrs' := (c :: n, v) :: attrs) in *.
  assert (Hcc : name_char c = true /\ plain_char c = true).
  { simpl in Hok, Hp. unfold sattr_ok, unquoted in *. simpl in *. by btoprop. }
  destruct Hcc as [Hn Hpc].
  destruct (feeds_sattrs h attrs' [LT] Hok Hp) as (i & Hi & Hf).
  assert (Et : exists t, sattrs_text attrs' = c :: t).
  { unfold attrs'. simpl. by destruct attrs; eexists. }
  destruct Et as [t Et]. rewrite Et in Hf.
  assert (Hf2 : feeds h (LT :: c :: t) (pending h ([LT] ++ c :: t) i)).
  { refine (feeds_app _ _ _ [LT; c] t (feeds_open h c _ _ _ _ _ _ _) _); try done.
    pose proof (feeds_tag_byte h [LT] T_TAG c) as Hc.
    apply name_char_true in Hn as (_ & Heq & H3). rewrite Heq in Hc.
    by apply (feeds_cancel (pending h [LT] T_TAG) _ _ [c]); [apply Hc; [left|..]|]. }
  unfold written_tag. rewrite Et.
  replace ((LT :: (c :: t) ++ [GT]) ++ rest) with ((LT :: c :: t) ++ GT :: rest)
    by (simpl; by rewrite <- app_assoc).
  rewrite Hf2, filter_bytes_gt by done.
  unfold finish_tag, processTag0. cbn [tag pending set_inBSQuot set_inTag set_tag].
  change (([LT] ++ c :: t) ++ [GT]) with (LT :: (c :: t) ++ [GT]). rewrite <- Et.
  fold (written_tag attrs').
  rewrite (parse_written attrs') by done.
  change (set_tag _ (pending h _ _)) with (pending h (written_tag attrs') T_TAG).
  unfold attrs' at 1 2 3. cbn [map]. fold attrs'.
  destruct (cb _ _) as [[r h1] o1]. by destruct ((r =? 0) && (eating h1 =? 0)).
Qed.
End Scan.
