(* ===== verification/ContentFilter.v ===== *)
(** * contentfilter: the modules that remove scripts, images and objects

    v3.0/src/squid-mybox/filters/cfmod_content.c and cfmod_script.c: the
    [scriptProcessTag] callbacks of the HTML scanner.  The two regular
    expressions (POSIX regexec of libc) are parameters. *)

From S2P Require Import Prelude CString JsAttrib HtmlFilter HtmlStream.

(** patfile.h *)
Definition myboxuri : list Z := bytes "mybox.internal.proxy".

(** libc's [strcasestr]. *)
Definition strcasestr (s p : list Z) : bool :=
  bool_decide (is_Some (strstr (map tolower s) (map tolower p))).

Definition contains (s p : list Z) : bool := bool_decide (is_Some (strstr s p)).

(** The options of cfmod_content's module object. *)
Record scriptModule := ScriptModule { js : Z; image : Z; object : Z }.

Section Callback.
(** [regexec] with the compiled [jsStyleRE] and [jsEntityRE]: does it match? *)
Variable jsStyleRE jsEntityRE : list Z -> bool.

Definition name_is (attrs : list attrib) (s : list Z) : bool :=
  match attrs with (Some n, _) :: _ => strcasecmp_eq n s | _ => false end.

(** [valus[i] && strstr(valus[i],myboxuri)] for some attribute. *)
Definition mentions_mybox (attrs : list attrib) : bool :=
  existsb (fun a => match a.2 with Some v => contains v myboxuri | None => false end)
    (tail attrs).

(** The body of the loop over the attributes of a tag that shows images. *)
Definition drop_background (a : attrib) : attrib :=
  match a with
  | (Some n, Some v) =>
      if strcasecmp_eq n (bytes "BACKGROUND") then (None, None)
      else if strcasecmp_eq n (bytes "STYLE") && strcasestr v (bytes "background-image")
      then (None, None)
      else a
  | _ => a
  end.

(** [attrs[i] && isJSAttrib(attrs[i], ...)] or [... !regexec(&jsEntityRE,valus[i],...)]. *)
Definition is_script (a : attrib) : bool :=
  match a with
  | (Some n, v) =>
      bool_decide (is_Some (isJSAttrib n (strlen n)))
      || match v with Some v => jsEntityRE v | None => false end
  | _ => false
  end.

Definition has_submit (a : attrib) : bool :=
  match a.2 with Some v => contains v (bytes "submit()") | None => false end.

(** The cleaned attributes, [mod] and [sub]. *)
Fixpoint clean_attrs (attrs : list attrib) : list attrib * bool * bool :=
  match attrs with
  | [] => ([], false, false)
  | a :: rest =>
      let '(rest', md, sub) := clean_attrs rest in
      if is_script a then ((None, a.2) :: rest', true, has_submit a || sub)
      else (a :: rest', md, sub)
  end.

Definition submit_attrs : list attrib := [(Some (bytes "TYPE"), Some (bytes "SUBMIT"))].

Definition tag_name (attrs : list attrib) : list Z :=
  match attrs with (Some n, _) :: _ => n | _ => [] end.

(** The end of both callbacks: attributes that are scripts. *)
Definition clean_tag (cf : htmlFilter) (attrs : list attrib) : Z * htmlFilter * list Z :=
  let '(attrs', md, sub) := clean_attrs (tail attrs) in
  if negb md then (0, cf, [])
  else
    let '(cf1, out1) := insertTag cf (tag_name attrs) attrs' in
    let '(cf2, out2) :=
      if sub then insertTag cf1 (bytes "INPUT") submit_attrs else (cf1, []) in
    (1, cf2, out1 ++ out2).

(** A STYLE tag that announces a script. *)
Definition js_style (attrs : list attrib) : bool :=
  name_is attrs (bytes "STYLE")
  && existsb (fun a => match a with (Some _, Some v) => jsStyleRE v | _ => false end)
       (tail attrs).

(** The SCRIPT and STYLE rules, and what is left of the tag. *)
Definition script_rules (cf : htmlFilter) (attrs : list attrib) : Z * htmlFilter * list Z :=
  if name_is attrs (bytes "SCRIPT") then (1, set_eating 1 cf, [])
  else if (eating cf =? 1) && name_is attrs (bytes "/SCRIPT") then (1, set_eating 0 cf, [])
  else if js_style attrs then (1, set_eating 2 cf, [])
  else if (eating cf =? 2) && name_is attrs (bytes "/STYLE") then (1, set_eating 0 cf, [])
  else clean_tag cf attrs.

(** cfmod_content.c *)
Definition content_js (m : scriptModule) (cf : htmlFilter) (attrs : list attrib)
  : Z * htmlFilter * list Z :=
  if negb (js m =? 0) then script_rules cf attrs else (0, cf, []).

Definition content_object (m : scriptModule) (cf : htmlFilter) (attrs : list attrib)
  : Z * htmlFilter * list Z :=
  if negb (object m =? 0)
     && (name_is attrs (bytes "OBJECT") || name_is attrs (bytes "EMBED")
         || name_is attrs (bytes "PARAM"))
  then (1, set_eating 3 cf, [])
  else if negb (object m =? 0) && (eating cf =? 3)
     && (name_is attrs (bytes "/OBJECT") || name_is attrs (bytes "/EMBED")
         || name_is attrs (bytes "/PARAM"))
  then (1, set_eating 0 cf, [])
  else content_js m cf attrs.

Definition scriptProcessTag (m : scriptModule) (cf : htmlFilter) (attrs : list attrib)
  : Z * htmlFilter * list Z :=
  if mentions_mybox attrs then (0, cf, [])
  else if image m =? 0 then content_object m cf attrs
  else if name_is attrs (bytes "IMG") then (1, cf, [])
  else
    let rest := map drop_background (tail attrs) in
    if bool_decide (rest = tail attrs) then content_object m cf attrs
    else
      let '(cf1, out) := insertTag cf (tag_name attrs) rest in (1, cf1, out).

(** cfmod_script.c *)
Definition jscriptProcessTag (cf : htmlFilter) (attrs : list attrib)
  : Z * htmlFilter * list Z :=
  if name_is attrs (bytes "IMG") then (1, cf, []) else script_rules cf attrs.
End Callback.

(** [moduleInit]: the options named by the module's argument. *)
Definition content_options (key : list Z) : scriptModule :=
  ScriptModule (if contains key (bytes "js") then 1 else 0)
    (if contains key (bytes "image") then 1 else 0)
    (if contains key (bytes "object") then 1 else 0).

(** ** The callbacks keep the scanner's contract *)

Lemma attr_len_text (a : attrib) : attr_len a = strlen (attr_text a).
Proof.
  destruct a as [[n|] [v|]]; simpl; unfold strlen; simpl; rewrite ?length_app; simpl; lia.
Qed.

(** [len] is the length of the text that is inserted. *)
Lemma tag_len_text (name : list Z) (attrs : list attrib) :
  tag_len name attrs = strlen (tag_text name attrs).
Proof.
  assert (H : forall x, fold_left (fun len a => len + attr_len a) attrs x
                        = x + strlen (concat (map attr_text attrs))).
  { induction attrs as [|a attrs IH]; intros x; simpl; [rewrite strlen_nil; lia|].
    rewrite IH, attr_len_text, strlen_app. lia. }
  unfold tag_len. rewrite H. unfold tag_text, strlen. simpl. rewrite !length_app. simpl. lia.
Qed.

(** What a callback may do to the filter: write [out]. *)
Definition writes (h h' : htmlFilter) (out : list Z) : Prop :=
  h' = set_posout (posout h + strlen out) h /\ (eating h <> 0 -> out = []).

Lemma writes_nil (h : htmlFilter) : writes h h [].
Proof. split; [|done]. destruct h; unfold set_posout; simpl. f_equal. rewrite strlen_nil. lia. Qed.

Lemma writes_app (h h1 h2 : htmlFilter) (o1 o2 : list Z) :
  writes h h1 o1 -> writes h1 h2 o2 -> writes h h2 (o1 ++ o2).
Proof.
  intros [-> H1] [-> H2]. split.
  - unfold set_posout. simpl. f_equal. rewrite strlen_app. lia.
  - simpl in H2. intros He. by rewrite H1, H2.
Qed.

Lemma insertTag_writes (h : htmlFilter) (name : list Z) (attrs : list attrib) :
  writes h (insertTag h name attrs).1 (insertTag h name attrs).2.
Proof.
  unfold insertTag. destruct (Z.eqb_spec (eating h) 0); [|apply writes_nil]. simpl.
  bcase; [apply writes_nil|]. split; [|done]. simpl. by rewrite tag_len_text.
Qed.

(** A result of a callback: it may also change [eating], and then writes nothing. *)
Definition callback_result (h : htmlFilter) (x : Z * htmlFilter * list Z) : Prop :=
  writes h x.1.2 x.2
  \/ (x.1.1 = 1 /\ exists e, x.1.2 = set_eating e h /\ x.2 = []).

Lemma callback_good (cb : htmlFilter -> list attrib -> Z * htmlFilter * list Z) :
  (forall h attrs, callback_result h (cb h attrs)) -> TagCallback cb.
Proof.
  intros H. split; intros h attrs; destruct (H h attrs) as [[E Hq]|(Hr & e & E & Ho)];
    cbv zeta; rewrite ?E; simpl; auto; try done; try lia.
  rewrite Ho, strlen_nil. lia.
Qed.

Section Contract.
Variable jsStyleRE jsEntityRE : list Z -> bool.

Lemma clean_tag_result (h : htmlFilter) (attrs : list attrib) :
  callback_result h (clean_tag jsEntityRE h attrs).
Proof.
  unfold clean_tag. destruct (clean_attrs _ _) as [[attrs' md] sub]. left.
  destruct md; simpl; [|apply writes_nil].
  pose proof (insertTag_writes h (tag_name attrs) attrs') as H1.
  destruct (insertTag h (tag_name attrs) attrs') as [h1 o1]. simpl in H1.
  pose proof (insertTag_writes h1 (bytes "INPUT") submit_attrs) as H2.
  destruct sub; [destruct (insertTag h1 _ _) as [h2 o2]|];
    (eapply writes_app; [exact H1|]); [exact H2|apply writes_nil].
Qed.

Lemma script_rules_result (h : htmlFilter) (attrs : list attrib) :
  callback_result h (script_rules jsStyleRE jsEntityRE h attrs).
Proof.
  unfold script_rules. repeat bcase;
    first [by right; split; [|eexists] | apply clean_tag_result].
Qed.

#[export] Instance content_callback (m : scriptModule) :
  TagCallback (scriptProcessTag jsStyleRE jsEntityRE m).
Proof.
  apply callback_good. intros h attrs. unfold scriptProcessTag, content_object, content_js.
  pose proof (insertTag_writes h (tag_name attrs) (map drop_background (tail attrs))) as Hi.
  destruct (insertTag h _ _) as [h1 o1].
  repeat bcase; first
    [ by right; split; [|eexists] | apply script_rules_result
    | left; exact Hi | left; apply writes_nil ].
Qed.

#[export] Instance jscript_callback : TagCallback (jscriptProcessTag jsStyleRE jsEntityRE).
Proof.
  apply callback_good. intros h attrs. unfold jscriptProcessTag.
  bcase; [left; apply writes_nil|apply script_rules_result].
Qed.
End Contract.

(** ** What reaches the browser *)

Lemma clean_attrs_spec (re : list Z -> bool) (attrs : list attrib) :
  clean_attrs re attrs
  = (map (fun a => if is_script re a then (None, a.2) else a) attrs,
     existsb (is_script re) attrs,
     existsb (fun a => is_script re a && has_submit a) attrs).
Proof.
  induction attrs as [|a attrs IH]; [done|]. cbn [clean_attrs map existsb]. rewrite IH.
  by destruct (is_script re a).
Qed.

(** Attributes set to NULL leave no text. *)
Lemma tag_text_cleaned (re : list Z -> bool) (n : list Z) (attrs : list attrib) :
  tag_text n (map (fun a => if is_script re a then (None, a.2) else a) attrs)
  = tag_text n (List.filter (fun a => negb (is_script re a)) attrs).
Proof.
  unfold tag_text. do 3 f_equal.
  induction attrs as [|a attrs IH]; [done|]. simpl. destruct (is_script re a) eqn:E; simpl.
  - destruct a as [n' v]. simpl. exact IH.
  - by rewrite IH.
Qed.

(** [a] is none of the attributes that the [image] option removes. *)
Definition no_background (a : attrib) : bool := bool_decide (drop_background a = a).

Lemma map_no_background (l : list attrib) :
  forallb no_background l = true -> map drop_background l = l.
Proof.
  induction l as [|a l IH]; [done|]. simpl. intros H. btoprop.
  apply bool_decide_eq_true in H. by rewrite H, IH.
Qed.

Section Browser.
Variable jsStyleRE jsEntityRE : list Z -> bool.
Variable m : scriptModule.
Hypothesis Hjs : js m <> 0.

Abbreviation filter := (filter_bytes (scriptProcessTag jsStyleRE jsEntityRE m)).
Abbreviation feeds := (feeds (scriptProcessTag jsStyleRE jsEntityRE m)).

(** The [image] option does nothing to the tag: it is off, or the tag is no IMG
    and has no attribute BACKGROUND and no STYLE with a background image. *)
Definition no_image (attrs : list attrib) : bool :=
  (image m =? 0)
  || negb (name_is attrs (bytes "IMG")) && forallb no_background (tail attrs).

Lemma process_no_image (h : htmlFilter) (attrs : list attrib) :
  mentions_mybox attrs = false -> no_image attrs = true ->
  scriptProcessTag jsStyleRE jsEntityRE m h attrs = content_object jsStyleRE jsEntityRE m h attrs.
Proof.
  unfold scriptProcessTag, no_image. intros -> H. destruct (image m =? 0); [done|].
  simpl in H. btoprop. rewrite H, map_no_background by done. by rewrite bool_decide_eq_true_2.
Qed.

Lemma strcasecmp_trans (a b c : list Z) :
  strcasecmp_eq a b = true -> strcasecmp_eq a c = strcasecmp_eq b c.
Proof.
  unfold strcasecmp_eq. intros H%bool_decide_eq_true. by rewrite H.
Qed.

Lemma name_is_case (n : list Z) (v : option (list Z)) (l : list attrib) (s t : list Z) :
  strcasecmp_eq n s = true -> name_is ((Some n, v) :: l) t = strcasecmp_eq s t.
Proof. apply strcasecmp_trans. Qed.

(** The callback on a SCRIPT tag and on its end. *)
Lemma process_script (h : htmlFilter) (n : list Z) (l : list attrib) :
  strcasecmp_eq n (bytes "SCRIPT") = true ->
  mentions_mybox ((Some n, None) :: l) = false -> no_image ((Some n, None) :: l) = true ->
  scriptProcessTag jsStyleRE jsEntityRE m h ((Some n, None) :: l) = (1, set_eating 1 h, []).
Proof.
  intros Hn Hm Hi. rewrite process_no_image by done.
  unfold content_object, content_js, script_rules.
  rewrite !(name_is_case n _ _ _ _ Hn).
  destruct (Z.eqb_spec (js m) 0); [done|]. simpl.
  rewrite !andb_false_r. done.
Qed.

Lemma process_script_end (h : htmlFilter) (n : list Z) :
  strcasecmp_eq n (bytes "/SCRIPT") = true -> eating h = 1 ->
  scriptProcessTag jsStyleRE jsEntityRE m h [(Some n, None)] = (1, set_eating 0 h, []).
Proof.
  intros Hn He. rewrite process_no_image; [|done|].
  - unfold content_object, content_js, script_rules. rewrite !(name_is_case n _ _ _ _ Hn), He.
    destruct (Z.eqb_spec (js m) 0); [done|]. simpl. rewrite !andb_false_r. done.
  - unfold no_image. rewrite (name_is_case n _ _ _ _ Hn). by destruct (image m =? 0).
Qed.

(** Tags inside a script that do not end the eating: neither the end of the script
    nor what starts to eat for another reason. *)
Definition inert (attrs : list attrib) : bool :=
  negb (name_is attrs (bytes "/SCRIPT")) && negb (js_style jsStyleRE attrs)
  && negb (name_is attrs (bytes "OBJECT") || name_is attrs (bytes "EMBED")
           || name_is attrs (bytes "PARAM")).

Lemma insertTag_eating (h : htmlFilter) (n : list Z) (attrs : list attrib) :
  eating h <> 0 -> insertTag h n attrs = (h, []).
Proof. intros He. unfold insertTag. by destruct (Z.eqb_spec (eating h) 0). Qed.

(** While a script is eaten such a tag changes nothing. *)
Lemma process_inert (h : htmlFilter) (attrs : list attrib) :
  eating h = 1 -> inert attrs = true ->
  exists r, scriptProcessTag jsStyleRE jsEntityRE m h attrs = (r, h, []).
Proof.
  intros He Hq. unfold inert in Hq. btoprop.
  assert (Hc : exists r, clean_tag jsEntityRE h attrs = (r, h, [])).
  { unfold clean_tag. destruct (clean_attrs _ _) as [[l md] sub].
    rewrite insertTag_eating by lia. destruct md, sub; simpl;
      rewrite ?insertTag_eating by lia; eauto. }
  unfold scriptProcessTag. rewrite insertTag_eating by lia.
  assert (Ho : exists r, content_object jsStyleRE jsEntityRE m h attrs = (r, h, [])).
  { unfold content_object, content_js, script_rules. rewrite He.
    repeat match goal with H : _ = false |- _ => rewrite H end. simpl.
    rewrite !andb_false_r, ?andb_true_r. repeat bcase; eauto;
      exists 1; by destruct h; simpl in *; subst. }
  repeat bcase; eauto.
Qed.

(** What a script may hold: text, comments, and tags that are inert; no NUL. *)
Inductive script_text : list Z -> Prop :=
  | script_nil : script_text []
  | script_char c s : c <> LT -> c <> 0 -> script_text s -> script_text (c :: s)
  | script_comment x s : 0 ∉ x -> (forall a b, x <> a ++ [DASH; DASH; GT] ++ b) ->
      script_text s -> script_text (bytes "<!--" ++ x ++ [DASH; DASH; GT] ++ s)
  | script_tag attrs s : tag_ok attrs = true -> inert (map sattr_attrib attrs) = true ->
      script_text s -> script_text (written_tag attrs ++ s).

(** Inside a comment, after [q] dashes. *)
Definition commented (h : htmlFilter) (q : Z) : htmlFilter := set_inBSQuot q (set_inTag T_COMM h).

Lemma comment_byte (h : htmlFilter) (q c : Z) :
  eating h <> 0 -> c <> 0 -> ~ (c = GT /\ 2 <= q) ->
  feeds (commented h q) [c] (commented h (if c =? DASH then q + 1 else 0)).
Proof.
  intros He Hc Hq. apply feeds_byte; [done|]. unfold filter_byte, in_comm, storeText. simpl.
  destruct (Z.eqb_spec c GT), (Z.leb_spec 2 q); [tauto|..]; simpl;
    destruct (Z.eqb_spec (eating h) 0); try done; by destruct (c =? DASH).
Qed.

Lemma comment_text (h : htmlFilter) (x : list Z) : eating h <> 0 -> 0 ∉ x ->
  forall k, (forall a b, replicate k DASH ++ x <> a ++ [DASH; DASH; GT] ++ b) ->
  exists q, 0 <= q /\ feeds (commented h (Z.of_nat k)) x (commented h q).
Proof.
  intros He. induction x as [|c x IH]; intros H0 k Hk.
  - exists (Z.of_nat k). split; [lia|apply feeds_nil].
  - apply not_elem_of_cons in H0 as [Hc H0].
    assert (Hq : ~ (c = GT /\ 2 <= Z.of_nat k)).
    { intros [-> H2]. apply (Hk (replicate (k - 2) DASH) x).
      replace k with (k - 2 + 2)%nat at 1 by lia. by rewrite replicate_add, <- app_assoc. }
    pose proof (comment_byte h (Z.of_nat k) c He ltac:(congruence) Hq) as Hb.
    destruct (Z.eqb_spec c DASH) as [->|Hd].
    + destruct (IH H0 (S k)) as (q & Hq0 & Hf).
      { intros a b E. apply (Hk a b). by rewrite replicate_S_end, <- app_assoc in E. }
      exists q. split; [done|]. replace (Z.of_nat (S k)) with (Z.of_nat k + 1) in Hf by lia.
      apply (feeds_app _ _ _ _ [DASH] x Hb Hf).
    + destruct (IH H0 0%nat) as (q & Hq0 & Hf).
      { intros a b E. apply (Hk (replicate k DASH ++ c :: a) b). simpl in E. rewrite E.
        by rewrite <- app_assoc. }
      exists q. split; [done|]. apply (feeds_app _ _ _ _ [c] x Hb Hf).
Qed.

Lemma feeds_comment (h : htmlFilter) (x : list Z) :
  wf_filter h -> inTag h = T_TEXT -> eating h <> 0 ->
  0 ∉ x -> (forall a b, x <> a ++ [DASH; DASH; GT] ++ b) ->
  feeds h (bytes "<!--" ++ x ++ [DASH; DASH; GT]) (set_inBSQuot 0 h).
Proof.
  intros Hwf Ht He H0 Hx. unfold wf_filter in Hwf. rewrite Ht in Hwf.
  destruct (comment_text h x He H0 0 Hx) as (q & Hq & Hf).
  assert (Hopen : feeds h (bytes "<!--") (commented h 0)).
  { change (bytes "<!--") with ([LT] ++ [BANG] ++ [DASH] ++ [DASH]).
    destruct h as [cl pin pout tg st q0 e]; simpl in Hwf, Ht, He; subst tg st.
    apply (HtmlStream.feeds_app _ _ (HtmlFilter cl pin pout [LT] T_STAG 0 e)); [by apply feeds_byte|].
    apply (HtmlStream.feeds_app _ _ (HtmlFilter cl pin pout [] T_META 0 e)).
    { apply feeds_byte; [done|]. unfold filter_byte, in_stag. simpl.
      by destruct (Z.eqb_spec e 0). }
    apply (HtmlStream.feeds_app _ _ (HtmlFilter cl pin pout [] T_META 1 e)); apply feeds_byte; try done;
      unfold filter_byte, in_meta, storeText; simpl; by destruct (Z.eqb_spec e 0). }
  apply (feeds_app _ _ _ _ _ _ Hopen), (feeds_app _ _ _ _ _ _ Hf).
  apply (feeds_app _ _ (commented h (q + 1)) _ [DASH] [DASH; GT]).
  { apply (comment_byte h q DASH); [done|done|]. by intros []. }
  apply (feeds_app _ _ (commented h (q + 1 + 1)) _ [DASH] [GT]).
  { apply (comment_byte h (q + 1) DASH); [done|done|]. by intros []. }
  apply feeds_byte; [done|]. unfold filter_byte, in_comm, storeText. simpl.
  destruct (Z.leb_spec 2 (q + 1 + 1)); [|lia]. simpl.
  destruct (Z.eqb_spec (eating h) 0); [done|].
  destruct h; simpl in *; subst; done.
Qed.

(** Whatever a script holds is eaten. *)
Lemma eaten_script (s : list Z) : script_text s -> forall h,
  wf_filter h -> inTag h = T_TEXT -> eating h = 1 ->
  exists q, feeds h s (set_inBSQuot q h).
Proof.
  induction 1 as [|c s Hlt Hc _ IH|x s H0 Hx _ IH|attrs s Hok Hq _ IH]; intros h Hwf Ht He.
  - exists (inBSQuot h). destruct h; apply feeds_nil.
  - destruct (IH h Hwf Ht He) as [q Hf]. exists q. apply (feeds_app _ _ h _ [c] s); [|done].
    apply feeds_byte; [done|]. unfold filter_byte, storeText. rewrite Ht, He.
    by destruct (Z.eqb_spec c LT).
  - destruct (IH (set_inBSQuot 0 h)) as [q Hf]; [by destruct h; simpl in *; unfold wf_filter in *; simpl; subst|done..|].
    exists q. rewrite (app_assoc x), (app_assoc (bytes "<!--")).
    eapply feeds_app; [apply feeds_comment; auto; lia|exact Hf].
  - destruct (IH (set_inBSQuot 0 h)) as [q Hf]; [by destruct h; simpl in *; unfold wf_filter in *; simpl; subst|done..|].
    exists q. eapply feeds_app; [|exact Hf]. intros rest.
    rewrite filter_written_tag by done.
    destruct (process_inert (pending h (written_tag attrs) T_TAG) (map sattr_attrib attrs)) as [r ->]; [done..|].
    cbn [eating pending set_inBSQuot set_inTag set_tag]. rewrite He, andb_false_r.
    unfold wf_filter in Hwf. rewrite Ht in Hwf.
    replace (set_inTag T_TEXT _) with (set_inBSQuot 0 h)
      by (destruct h; simpl in *; subst; done).
    by destruct (filter _ rest) as [[? ?] ?].
Qed.

(** C2: a SCRIPT element is removed where the module's [js] option is set: a tag
    SCRIPT in any case, with attributes of which none mentions the proxy's own name
    nor is one that the [image] option removes (if that is set), then a script of
    text, comments and well-formed tags other than the end of a script, an object
    (OBJECT, EMBED, PARAM) or a STYLE of a script, and the tag /SCRIPT: the filter
    outputs nothing for it and is after it where it was before. *)
Theorem script_element_removed (h : htmlFilter) (open close : list Z)
    (attrs : list (list Z * sval)) (body rest : list Z)
    (Hwf : wf_filter h) (Ht : inTag h = T_TEXT) (He : eating h = 0)
    (Hopen : strcasecmp_eq open (bytes "SCRIPT") = true)
    (Hclose : strcasecmp_eq close (bytes "/SCRIPT") = true)
    (Hok : tag_ok ((open, NoVal) :: attrs) = true) (Hok2 : tag_ok [(close, NoVal)] = true)
    (Hm : mentions_mybox (map sattr_attrib ((open, NoVal) :: attrs)) = false)
    (Hi : no_image (map sattr_attrib ((open, NoVal) :: attrs)) = true)
    (Hbody : script_text body) :
  filter h (written_tag ((open, NoVal) :: attrs) ++ body ++ written_tag [(close, NoVal)] ++ rest)
  = filter (set_inBSQuot 0 h) rest.
Proof.
  rewrite filter_written_tag by done. revert Hm Hi. cbn [map].
  unfold sattr_attrib at 1 3 5. cbn [fst snd]. intros Hm Hi.
  rewrite process_script by done. cbn [Z.eqb andb].
  set (h1 := set_inTag T_TEXT _).
  destruct (eaten_script body Hbody h1) as [q Hf]; [done..|]. rewrite (Hf (_ ++ rest)).
  rewrite filter_written_tag by done.
  change (map sattr_attrib [(close, NoVal)]) with [(Some close, @None (list Z))].
  rewrite process_script_end by done. cbn [Z.eqb andb].
  unfold wf_filter in Hwf. rewrite Ht in Hwf.
  replace (set_inTag T_TEXT _) with (set_inBSQuot 0 h)
    by (destruct h; simpl in *; unfold set_inBSQuot, set_inTag, set_tag; simpl; congruence).
  destruct (filter_bytes _ _ rest) as [[r h2] o]. done.
Qed.

(** A tag that the SCRIPT, STYLE and OBJECT rules leave alone. *)
Definition ordinary (attrs : list attrib) : bool :=
  negb (name_is attrs (bytes "SCRIPT")) && negb (js_style jsStyleRE attrs)
  && negb (name_is attrs (bytes "OBJECT") || name_is attrs (bytes "EMBED")
           || name_is attrs (bytes "PARAM"))
  && negb (mentions_mybox attrs) && no_image attrs.

Lemma process_ordinary (h : htmlFilter) (attrs : list attrib) :
  eating h = 0 -> ordinary attrs = true ->
  scriptProcessTag jsStyleRE jsEntityRE m h attrs = clean_tag jsEntityRE h attrs.
Proof.
  intros He Ho. unfold ordinary in Ho. btoprop.
  rewrite process_no_image by done. unfold content_object, content_js, script_rules.
  rewrite He. destruct (Z.eqb_spec (js m) 0); [done|]. cbn [negb].
  repeat match goal with H : _ = false |- _ => rewrite H end. simpl.
  rewrite !andb_false_r. done.
Qed.

(** [o] is written if the page was announced without a length, or is not longer than
    what was read so far. *)
Definition in_room (h : htmlFilter) (o : list Z) : list Z :=
  if (0 <? contlen h) && (posin h <? posout h + strlen o) then [] else o.

Lemma insertTag_room (h : htmlFilter) (n : list Z) (attrs : list attrib) :
  eating h = 0 ->
  insertTag h n attrs
  = (set_posout (posout h + strlen (in_room h (tag_text n attrs))) h,
     in_room h (tag_text n attrs)).
Proof.
  intros He. unfold insertTag, in_room. rewrite He, tag_len_text.
  cbn [Z.eqb negb]. destruct (_ && _); [|done]. rewrite strlen_nil, Z.add_0_r. by destruct h.
Qed.

(** What is output for a tag. *)
Definition cleaned (h : htmlFilter) (text n : list Z) (attrs : list attrib) : list Z :=
  if existsb (is_script jsEntityRE) attrs then
    let o := in_room h (tag_text n (List.filter (fun a => negb (is_script jsEntityRE a)) attrs)) in
    o ++ (if existsb (fun a => is_script jsEntityRE a && has_submit a) attrs
          then in_room (set_posout (posout h + strlen o) h) (bytes "<INPUT TYPE=SUBMIT>")
          else [])
  else text.

(** What the callback does to an ordinary tag. *)
Lemma clean_written (h : htmlFilter) (text n : list Z) (attrs : list attrib) :
  eating h = 0 ->
  let h0 := pending h text T_TAG in
  exists r, clean_tag jsEntityRE h0 ((Some n, None) :: attrs)
    = (if existsb (is_script jsEntityRE) attrs
       then (r, set_posout (posout h + strlen (cleaned h text n attrs)) h0, cleaned h text n attrs)
       else (0, h0, []))
    /\ r <> 0.
Proof.
  intros He h0. exists 1. split; [|lia]. unfold clean_tag. cbn [tail tag_name].
  rewrite clean_attrs_spec. unfold cleaned.
  destruct (existsb (is_script jsEntityRE) attrs); cbn [negb]; [|done].
  rewrite insertTag_room, tag_text_cleaned by done. cbv zeta.
  change (in_room h0) with (in_room h). set (o1 := in_room h _).
  destruct (existsb _ attrs).
  - rewrite insertTag_room by done.
    change (tag_text (bytes "INPUT") submit_attrs) with (bytes "<INPUT TYPE=SUBMIT>").
    change (in_room (set_posout (posout h0 + strlen o1) h0))
      with (in_room (set_posout (posout h + strlen o1) h)).
    rewrite strlen_app, Z.add_assoc. done.
  - by rewrite !app_nil_r.
Qed.

End Browser.

Lemma script_element_removed_witness :
  (filter_bytes (scriptProcessTag (fun _ => false) (fun _ => false) (ScriptModule 1 1 1))
    (htmlContFilter (-1))
    (bytes "<script src='x.js'>a<!--b>2-->write('<b>')</Script>")) = (0, htmlContFilter (-1), []).
Proof.
  apply (script_element_removed (fun _ => false) (fun _ => false) (ScriptModule 1 1 1)
    ltac:(discriminate) (htmlContFilter (-1)) (bytes "script") (bytes "/Script")
    [(bytes "src", Quoted SQUOTE (bytes "x.js"))] (bytes "a<!--b>2-->write('<b>')") []);
    try (vm_compute; reflexivity).
  apply script_char; [discriminate..|].
  apply (script_comment _ (bytes "b>2") (bytes "write('<b>')")).
  { vm_compute. set_solver. }
  { intros [|? [|? [|? [|? a]]]] b E; simplify_list_eq; try discriminate; by destruct a. }
  do 7 (apply script_char; [discriminate..|]).
  apply (script_tag _ [(bytes "b", NoVal)] (bytes "')")); [reflexivity..|].
  do 2 (apply script_char; [discriminate..|]). apply script_nil.
Defined.


(** ** Ways around the filter *)

(** With [image] set too, an attribute BACKGROUND ends the callback before the
    SCRIPT rule: the element is passed on. *)
Lemma script_background_passes :
  (filter_bytes (scriptProcessTag (fun _ => false) (fun _ => false) (ScriptModule 1 1 0))
    (htmlContFilter (-1)) (bytes "<SCRIPT BACKGROUND=x>evil()</SCRIPT>")).2
  = bytes "<SCRIPT>evil()</SCRIPT>".
Proof. vm_compute. reflexivity. Qed.

(** The quotes of a value are not restored: text inside a value becomes an
    attribute of the cleaned tag, which the filter would itself remove. *)
Lemma quoted_script_passes :
  (filter_bytes (scriptProcessTag (fun _ => false) (fun _ => false) (ScriptModule 1 0 0))
    (htmlContFilter (-1)) (bytes "<A ONCLICK='' TITLE='x onmouseover=evil()'>")).2
  = bytes "<A TITLE=x onmouseover=evil()>"
  /\ isJSAttrib (bytes "onmouseover") 11 <> None.
Proof. vm_compute. split; [reflexivity|discriminate]. Qed.

(** A script that writes an object is passed on from the end of that object. *)
Lemma object_in_script_passes :
  (filter_bytes (scriptProcessTag (fun _ => false) (fun _ => false) (ScriptModule 1 0 1))
    (htmlContFilter (-1)) (bytes "<SCRIPT>w('<OBJECT></OBJECT>');evil()</SCRIPT>")).2
  = bytes "');evil()</SCRIPT>".
Proof. vm_compute. reflexivity. Qed.
