(* ===== verification/PatFile.v ===== *)
(** * patfile: the pattern files of the filter modules

    v3.0/src/squid-mybox/src/patfile.c: a file of regular expressions, one a
    line, is a list of rules ("!" negates, "-" ignores case) or of
    replacements (a second field with \0..\9); it is reloaded when the file has
    changed; the first pattern that matches an URI decides.  POSIX [regcomp]
    and [regexec] are parameters. *)

From S2P Require Import Prelude CString.

Definition TAB : Z := 9.
Definition NL : Z := 10.

(** [regmatch_t]: -1 for a group that did not take part. *)
Abbreviation regmatch := (Z * Z)%type.

Fixpoint drop_while (p : Z -> bool) (s : list Z) : list Z :=
  match s with
  | c :: s' => if p c then drop_while p s' else s
  | [] => []
  end.

(** ** One line of the file *)

Inductive entry :=
| Skip
| Bang (p1 : option (list Z))
| Pattern (icase neg percent : bool) (p0 : list Z) (p1 : option (list Z)).

Definition starts (c : Z) (s : list Z) : bool :=
  match s with a :: _ => a =? c | [] => false end.

(** The second field, [NULL] without one; [rest] starts at the delimiter of the
    first. *)
Definition field2 (rest : list Z) : option (list Z) :=
  match rest with
  | [] => None
  | _ :: r =>
      let p1 := (break [NL] (drop_while (fun c => c =? TAB) r)).1 in
      if starts TAB p1 || starts NL p1 || starts 33 p1 || bool_decide (p1 = []) then None
      else Some p1
  end.

Definition parse_line (replace : bool) (buf : list Z) : entry :=
  let p0 := drop_while (fun c => (c =? 32) || (c =? TAB)) buf in
  if starts 35 p0 || starts NL p0 || bool_decide (p0 = []) then Skip
  else
    let '(tok, rest) := break [TAB; NL] p0 in
    let p1 := field2 rest in
    let icase := starts 45 tok in
    let tok := if icase then drop 1 tok else tok in
    if starts 33 tok && replace then Bang p1
    else
      let neg := starts 33 tok in
      let tok := if neg then drop 1 tok else tok in
      let percent := replace && starts 37 tok in
      Pattern icase neg percent (if percent then drop 1 tok else tok) p1.

(** ** The pattern chain *)

Inductive action := Negate (neg : bool) | Replace (r : option (list Z)).

(** What a match gives: nothing, an URI, or a write through a null pointer. *)
Inductive outcome := Null | Str (s : list Z) | Crash.

#[global] Instance outcome_eq_dec : EqDecision outcome.
Proof. solve_decision. Defined.

Section PatFile.
Variable R : Type.
(** [regcomp pattern icase nosub] and [regexec r uri]: the groups of a match. *)
Variable regcomp : list Z -> bool -> bool -> option R.
Variable regexec : R -> list Z -> option (list regmatch).

Record patFile := PatFile {
  chain : list (R * action);
  mtime : Z;
  replace : bool;
  buflen : Z
}.

Definition patfileNew (repl : bool) : patFile := PatFile [] 0 repl 0.

(** The loop body of the loader: the default replacement and the chain so far. *)
Definition load_line (repl : bool) (st : option (list Z) * list (R * action)) (buf : list Z)
  : option (list Z) * list (R * action) :=
  let '(bang, l) := st in
  match parse_line repl buf with
  | Skip => st
  | Bang p1 => (match bang with Some _ => bang | None => p1 end, l)
  | Pattern icase neg percent p0 p1 =>
      match regcomp p0 icase (negb repl) with
      | None => st
      | Some r =>
          let a := if repl then
                     Replace (if percent then Some p0
                              else match p1 with Some _ => p1 | None => bang end)
                   else Negate neg in
          (bang, l ++ [(r, a)])
      end
  end.

Definition load (repl : bool) (text : list Z) : list (R * action) :=
  (fold_left (load_line repl) (fgets_lines 256 text) (None, [])).2.

Definition patfileUnload (this : patFile) : patFile :=
  PatFile [] (mtime this) (replace this) (buflen this).

(** [stat] of the file, and its text if it can be opened. *)
Definition patfileCheckReload (file : option (Z * option (list Z))) (this : patFile)
  : patFile :=
  match file with
  | None => this
  | Some (st_mtime, text) =>
      if st_mtime <=? mtime this then this
      else match text with
           | None => PatFile (chain this) st_mtime (replace this) (buflen this)
           | Some text =>
               PatFile (load (replace this) text) st_mtime (replace this) (buflen this)
           end
  end.

(** ** Substitution *)

Definition BUFINCR : Z := 1024.

Definition isdig (c : Z) : bool := (48 <=? c) && (c <=? 57).

Definition sub (subs : list regmatch) (k : Z) : regmatch := nth (Z.to_nat k) subs (-1, -1).

(** [this->buf[n++] = c], with the buffer's size. *)
Definition put_char (b : Z) (out : list Z) (c : Z) : Z * list Z :=
  (if b <=? strlen out + 1 then b + BUFINCR else b, out ++ [c]).

Fixpoint subst_loop (fuel : nat) (uri : list Z) (subs : list regmatch)
    (p0 : list Z) (i k : Z) (b : Z) (out : list Z) : option (Z * list Z) :=
  match fuel with
  | O => None
  | S fuel =>
      if bool_decide (p0 = []) && (i <? 0) then Some (b, out)
      else if 0 <=? k then
        if i <? (sub subs k).2 then
          let '(b, out) := put_char b out (nth (Z.to_nat i) uri 0) in
          subst_loop fuel uri subs p0 (i + 1) k b out
        else subst_loop fuel uri subs p0 (-1) (-1) b out
      else
        match p0 with
        | [] => Some (b, out)
        | c :: p =>
            let lit := let '(b, out) := put_char b out c in subst_loop fuel uri subs p i k b out in
            match p with
            | d :: p' =>
                if (c =? 92) && isdig d then
                  let k := d - 48 in
                  let i := (sub subs k).1 in
                  subst_loop fuel uri subs p' i (if i <? 0 then -1 else k) b out
                else lit
            | [] => lit
            end
        end
  end.

Definition subst_fuel (uri p0 : list Z) : nat := S (length p0 * S (S (length uri))).

Definition patfileSubst (this : patFile) (uri : list Z) (a : action) (subs : list regmatch)
  : outcome * patFile :=
  match a with
  | Negate _ | Replace None => (Null, this)
  | Replace (Some p0) =>
      if strcmp_eq uri p0 then (Str p0, this)
      else match subst_loop (subst_fuel uri p0) uri subs p0 (-1) (-1) (buflen this) [] with
           | None => (Crash, this)
           | Some (b, out) =>
               let this' := PatFile (chain this) (mtime this) (replace this) b in
               (if strlen out <? b then Str out else Crash, this')
           end
  end.

Fixpoint match_chain (this : patFile) (uri : list Z) (l : list (R * action))
  : outcome * patFile :=
  match l with
  | [] => (Null, this)
  | (r, a) :: l' =>
      match regexec r uri with
      | None => match_chain this uri l'
      | Some subs =>
          if replace this then patfileSubst this uri a subs
          else (match a with Negate true => Null | _ => Str uri end, this)
      end
  end.

Definition patfileMatch (this : patFile) (uri : list Z) : outcome * patFile :=
  match_chain this uri (chain this).
End PatFile.

Arguments PatFile {R}.
Arguments chain {R}.
Arguments mtime {R}.
Arguments replace {R}.
Arguments buflen {R}.
Arguments patfileSubst {R}.
Arguments patfileMatch {R}.
Arguments match_chain {R}.
Arguments patfileCheckReload {R}.
Arguments load {R}.
Arguments load_line {R}.

(** ** Substitution computes the replacement *)

(** The text of a group. *)
Definition group (uri : list Z) (g : regmatch) : list Z :=
  if g.1 <? 0 then [] else take (Z.to_nat (g.2 - g.1)) (drop (Z.to_nat g.1) uri).

(** The replacement pattern with its groups put in. *)
Fixpoint expand (uri : list Z) (subs : list regmatch) (p0 : list Z) : list Z :=
  match p0 with
  | [] => []
  | c :: p =>
      match p with
      | d :: p' => if (c =? 92) && isdig d then group uri (sub subs (d - 48)) ++ expand uri subs p'
                   else c :: expand uri subs p
      | [] => [c]
      end
  end.

(** What POSIX guarantees of the groups. *)
Definition valid_group (uri : list Z) (g : regmatch) : Prop :=
  g.1 < 0 \/ (0 <= g.1 /\ g.1 <= g.2 <= strlen uri).

Definition valid_subs (uri : list Z) (subs : list regmatch) : Prop :=
  Forall (valid_group uri) subs.

Lemma sub_valid (uri : list Z) (subs : list regmatch) (k : Z) :
  valid_subs uri subs -> valid_group uri (sub subs k).
Proof.
  intros H. unfold sub. destruct (decide (Z.to_nat k < length subs)%nat) as [Hk|Hk].
  - unfold valid_subs in H. rewrite Forall_forall in H. apply H, list_elem_of_In, nth_In, Hk.
  - rewrite nth_overflow by lia. left. simpl. lia.
Qed.

(** The size of the buffer while [n] bytes are written to it. *)
Fixpoint grown (n : nat) (b : Z) (len : Z) : Z :=
  match n with
  | O => b
  | S n => grown n (if b <=? len + 1 then b + BUFINCR else b) (len + 1)
  end.

Lemma grown_app (n m : nat) : forall b len,
  grown (n + m) b len = grown m (grown n b len) (len + Z.of_nat n).
Proof.
  induction n as [|n IH]; intros b len; cbn [Nat.add grown]; [f_equal; lia|].
  rewrite IH. f_equal. lia.
Qed.

(** Every write is inside the buffer, as is the final NUL unless nothing was
    written to a buffer that was never allocated. *)
Lemma grown_room (n : nat) : forall b len,
  0 <= len -> (len < b \/ len = 0 /\ b = 0) ->
  (len + Z.of_nat n < grown n b len) \/ n = 0%nat /\ len = 0 /\ b = 0.
Proof.
  induction n as [|n IH]; intros b len Hl Hb; simpl; [destruct Hb; [left; lia|by right]|].
  left. destruct (IH (if b <=? len + 1 then b + BUFINCR else b) (len + 1)) as [H|H]; try lia.
  - left. unfold BUFINCR. destruct (Z.leb_spec b (len + 1)); lia.
Qed.

Lemma grown_le (n : nat) : forall b len, b <= grown n b len.
Proof.
  induction n as [|n IH]; intros b len; simpl; [lia|].
  specialize (IH (if b <=? len + 1 then b + BUFINCR else b) (len + 1)).
  unfold BUFINCR in *. destruct (b <=? len + 1); lia.
Qed.

Lemma copy_group (n : nat) : forall fuel uri subs p0 i k b out,
  0 <= k -> 0 <= i -> i + Z.of_nat n = (sub subs k).2 -> (sub subs k).2 <= strlen uri ->
  subst_loop (S n + fuel) uri subs p0 i k b out
  = subst_loop fuel uri subs p0 (-1) (-1) (grown n b (strlen out))
      (out ++ take n (drop (Z.to_nat i) uri)).
Proof.
  induction n as [|n IH]; intros fuel uri subs p0 i k b out Hk Hi He Hu.
  - cbn [Nat.add subst_loop grown]. rewrite app_nil_r.
    destruct (Z.ltb_spec i 0); [lia|]. rewrite andb_false_r.
    destruct (Z.leb_spec 0 k); [|lia]. destruct (Z.ltb_spec i (sub subs k).2); [lia|done].
  - change (S (S n) + fuel)%nat with (S (S n + fuel)). cbn [subst_loop].
    destruct (Z.ltb_spec i 0); [lia|]. rewrite andb_false_r.
    destruct (Z.leb_spec 0 k); [|lia]. destruct (Z.ltb_spec i (sub subs k).2); [|lia].
    unfold put_char. cbn [grown]. rewrite IH by lia.
    assert (Hn : (Z.to_nat i < length uri)%nat) by (unfold strlen in *; lia).
    rewrite (drop_S uri (nth (Z.to_nat i) uri 0) (Z.to_nat i))
      by (by apply nth_lookup_Some in Hn || (rewrite nth_lookup; destruct (lookup_lt_is_Some_2 uri (Z.to_nat i) Hn) as [x ->]; done)).
    cbn [take]. rewrite <- app_assoc. cbn [app].
    replace (Z.to_nat (i + 1)) with (S (Z.to_nat i)) by lia.
    f_equal. f_equal. unfold strlen. rewrite length_app. simpl. lia.
Qed.

Lemma group_length (uri : list Z) (g : regmatch) :
  valid_group uri g -> 0 <= g.1 ->
  group uri g = take (Z.to_nat (g.2 - g.1)) (drop (Z.to_nat g.1) uri)
  /\ length (group uri g) = Z.to_nat (g.2 - g.1) /\ (length (group uri g) <= length uri)%nat.
Proof.
  intros [H|[H1 H2]] H0; [lia|]. unfold group, strlen in *.
  destruct (Z.ltb_spec g.1 0); [lia|]. split; [done|].
  rewrite length_take, length_drop. lia.
Qed.

Lemma subst_loop_expand (uri : list Z) (subs : list regmatch) :
  valid_subs uri subs -> forall m p0 fuel i b out,
  i < 0 -> (length p0 <= m)%nat -> (S (length p0 * S (S (length uri))) <= fuel)%nat ->
  subst_loop fuel uri subs p0 i (-1) b out
  = Some (grown (length (expand uri subs p0)) b (strlen out), out ++ expand uri subs p0).
Proof.
  intros Hs. induction m as [|m IH]; intros p0 fuel i b out Hi Hm Hf.
  - destruct p0; [|simpl in Hm; lia]. destruct fuel; [lia|]. cbn [subst_loop].
    destruct (Z.ltb_spec i 0); [|lia]. simpl. by rewrite app_nil_r.
  - destruct fuel as [|fuel]; [lia|]. cbn [subst_loop].
    destruct p0 as [|c p].
    { destruct (Z.ltb_spec i 0); [|lia]. simpl. by rewrite app_nil_r. }
    assert (Lit : (let '(b, out) := put_char b out c in
                   subst_loop fuel uri subs p i (-1) b out)
                  = Some (grown (S (length (expand uri subs p))) b (strlen out),
                          out ++ c :: expand uri subs p)).
    { unfold put_char. rewrite IH; [|done|simpl in Hm; lia|simpl in Hf; lia].
      rewrite <- app_assoc. cbn [app grown]. do 3 f_equal. unfold strlen.
      rewrite length_app. simpl. lia. }
    rewrite (bool_decide_false (c :: p = [])) by done. change (0 <=? -1) with false.
    cbn [andb]. destruct p as [|d p']; [exact Lit|].
    cbn [expand]. destruct ((c =? 92) && isdig d) eqn:Ed; [|exact Lit].
    pose proof (sub_valid uri subs (d - 48) Hs) as Hv.
    set (g := sub subs (d - 48)) in *.
    assert (Hk : 0 <= d - 48) by (unfold isdig in Ed; btoprop; lia).
    destruct (Z.ltb_spec g.1 0).
    + rewrite IH; [|done|simpl in Hm; lia|simpl in Hf; lia].
      unfold group. destruct (Z.ltb_spec g.1 0); [done|lia].
    + destruct (group_length uri g Hv H) as (Eg & El & Hle).
      assert (Hb : g.1 <= g.2 <= strlen uri) by (destruct Hv; lia).
      replace fuel with (S (length (group uri g)) + (fuel - S (length (group uri g))))%nat
        by (simpl in Hf; lia).
      rewrite copy_group by (fold g; lia).
      rewrite IH; [|lia|simpl in Hm; lia|simpl in Hf; lia].
      assert (Et : take (length (group uri g)) (drop (Z.to_nat g.1) uri) = group uri g)
        by (rewrite El; by symmetry).
      rewrite Et, length_app, grown_app, strlen_app, app_assoc. unfold strlen. done.
Qed.

(** A replacement is computed as documented: [\0]..[\9] stand for the groups of
    the match, the empty text for a group that took no part, everything else for
    itself; the loop ends, every byte is written inside the buffer, which only
    grows; the one bad write is the NUL of an empty replacement into a buffer
    that no call has allocated yet. *)
Lemma patfileSubst_correct (R : Type) (this : patFile R) (uri p0 : list Z)
    (subs : list regmatch) (Hs : valid_subs uri subs) (Hb : 0 <= buflen this) :
  let '(o, this') := patfileSubst this uri (Replace (Some p0)) subs in
  let e := if strcmp_eq uri p0 then p0 else expand uri subs p0 in
  o = (if negb (strcmp_eq uri p0) && bool_decide (e = []) && (buflen this =? 0)
       then Crash else Str e)
  /\ buflen this <= buflen this' /\ (o = Str e -> strcmp_eq uri p0 = false -> strlen e < buflen this')
  /\ chain this' = chain this /\ mtime this' = mtime this /\ replace this' = replace this.
Proof.
  unfold patfileSubst. destruct (strcmp_eq uri p0); [by split_and!|].
  rewrite (subst_loop_expand uri subs Hs (length p0)) by (unfold subst_fuel; lia).
  cbn [app negb andb]. set (e := expand uri subs p0). rewrite strlen_nil.
  pose proof (grown_le (length e) (buflen this) 0) as Hg.
  destruct (grown_room (length e) (buflen this) 0) as [Hr|(Hr & _ & Hb0)]; [lia|lia| |].
  - destruct (Z.ltb_spec (strlen e) (grown (length e) (buflen this) 0)) as [|Hn];
      [|unfold strlen in Hn; lia].
    split_and!; simpl; auto.
    case_bool_decide as He; [|done]. destruct (Z.eqb_spec (buflen this) 0) as [Hz|]; [|done].
    rewrite He, Hz in Hr. simpl in Hr. lia.
  - apply length_zero_iff_nil in Hr as ->. rewrite Hb0. simpl. split_and!; simpl; auto; try lia. done.
Qed.

(** The groups of a match of "bxx" in "abxxc", with "xx" as its first group. *)
Lemma patfileSubst_correct_witness :
  let '(o, this') := patfileSubst (PatFile (R:=unit) [] 0 true 0) (bytes "abxxc")
                       (Replace (Some (bytes "<\1|\0>"))) [(1, 4); (2, 4)] in
  o = Str (bytes "<xx|bxx>") /\ buflen this' = 1024.
Proof.
  assert (Hs : valid_subs (bytes "abxxc") [(1, 4); (2, 4)]).
  { repeat apply Forall_cons_2; try apply Forall_nil_2; right; vm_compute;
      repeat split; discriminate. }
  pose proof (patfileSubst_correct unit (PatFile [] 0 true 0) (bytes "abxxc") (bytes "<\1|\0>")
    [(1, 4); (2, 4)] Hs ltac:(simpl; lia)) as H.
  vm_compute in H. vm_compute. split; [exact (proj1 H)|reflexivity].
Defined.

(** ** The first match decides *)

Lemma match_chain_spec (R : Type) (regexec : R -> list Z -> option (list regmatch))
    (this : patFile R) (uri : list Z) (l : list (R * action)) :
  (match_chain regexec this uri l = (Null, this) /\ Forall (fun x => regexec x.1 uri = None) l)
  \/ exists pre r a subs post,
      l = pre ++ (r, a) :: post /\ Forall (fun x => regexec x.1 uri = None) pre
      /\ regexec r uri = Some subs
      /\ match_chain regexec this uri l
         = if replace this then patfileSubst this uri a subs
           else (match a with Negate true => Null | _ => Str uri end, this).
Proof.
  induction l as [|[r a] l IH]; [by left|]. simpl.
  destruct (regexec r uri) as [subs|] eqn:E.
  - right. exists [], r, a, subs, l. by split_and!.
  - destruct IH as [[H1 H2]|(pre & r' & a' & subs & post & -> & H2 & H3 & H4)].
    + left. split; [done|]. by constructor.
    + right. exists ((r, a) :: pre), r', a', subs, post. split_and!; auto.
Qed.

(** ** Allow lists *)

Record rule := Rule { r_neg : bool; r_icase : bool; r_pat : list Z }.

Definition rule_line (r : rule) : list Z :=
  (if r_icase r then [45] else []) ++ (if r_neg r then [33] else []) ++ r_pat r.

(** The text of a file of rules. *)
Definition rules_text (l : list rule) : list Z :=
  concat (map (fun r => rule_line r ++ [NL]) l).

Definition rule_ok (r : rule) : bool :=
  match r_pat r with
  | [] => false
  | c :: _ => negb (in_set [32; 35; 45; 33] c)
  end
  && forallb (fun c => negb (in_set [TAB; NL; 0] c)) (r_pat r)
  && (length (r_pat r) <=? 250)%nat.

Lemma break_none (set s : list Z) (c : Z) (r : list Z) :
  Forall (fun x => x ∉ set) s -> c ∈ set -> break set (s ++ c :: r) = (s, c :: r).
Proof.
  intros H Hc. induction H as [|x s Hx H IH]; simpl.
  - unfold in_set. by rewrite bool_decide_true.
  - rewrite IH. unfold in_set. by rewrite bool_decide_false.
Qed.

Lemma drop_while_none (p : Z -> bool) (c : Z) (s : list Z) :
  p c = false -> drop_while p (c :: s) = c :: s.
Proof. simpl. by intros ->. Qed.

Lemma parse_rule (r : rule) :
  rule_ok r = true ->
  parse_line false (rule_line r ++ [NL]) = Pattern (r_icase r) (r_neg r) false (r_pat r) None.
Proof.
  destruct r as [neg icase p]. unfold rule_ok, rule_line. simpl. intros Hok. btoprop.
  destruct p as [|c p]; [done|]. rename H into Hc. btoprop.
  unfold in_set in Hc. apply bool_decide_eq_false in Hc.
  assert (Hp : Forall (fun x => x ∉ [TAB; NL]) (c :: p)).
  { apply Forall_forall. intros x Hx. rewrite forallb_forall in H1.
    apply list_elem_of_In, H1, negb_true_iff, bool_decide_eq_false in Hx. set_solver. }
  assert (c <> 32 /\ c <> 35 /\ c <> 45 /\ c <> 33) as (E1 & E2 & E3 & E4) by set_solver.
  assert (c <> TAB /\ c <> NL) as [E5 E6].
  { apply Forall_cons in Hp as [Hp _]. set_solver. }
  apply Z.eqb_neq in E1, E2, E3, E4, E5, E6.
  assert (Hl : Forall (fun x => x ∉ [TAB; NL])
                 ((if icase then [45] else []) ++ (if neg then [33] else []) ++ c :: p)).
  { apply Forall_app. split; [destruct icase; repeat constructor; set_solver|].
    apply Forall_app. split; [destruct neg; repeat constructor; set_solver|done]. }
  pose proof (break_none [TAB; NL] _ NL [] Hl ltac:(set_solver)) as Hb.
  unfold parse_line. destruct icase, neg; cbn [app] in *;
    rewrite drop_while_none by (simpl; by rewrite ?E1, ?E5);
    cbn [starts]; rewrite ?E2, ?E6; rewrite Hb;
    cbn [starts]; rewrite ?E3; simpl; rewrite ?E4; simpl; by rewrite ?E3, ?E4.
Qed.

Section Allow.
Variable R : Type.
Variable regcomp : list Z -> bool -> bool -> option R.
Variable regexec : R -> list Z -> option (list regmatch).

(** What the rules mean: the first one that matches decides; a pattern that does
    not compile matches nothing. *)
Definition rule_matches (r : rule) (uri : list Z) : bool :=
  match regcomp (r_pat r) (r_icase r) true with
  | Some re => bool_decide (is_Some (regexec re uri))
  | None => false
  end.

Fixpoint allowed (l : list rule) (uri : list Z) : bool :=
  match l with
  | [] => false
  | r :: l' => if rule_matches r uri then negb (r_neg r) else allowed l' uri
  end.

Definition compiled (r : rule) : option (R * action) :=
  (fun re => (re, Negate (r_neg r))) <$> regcomp (r_pat r) (r_icase r) true.

Lemma load_rules (l : list rule) :
  forallb rule_ok l = true -> load regcomp false (rules_text l) = omap compiled l.
Proof.
  intros Hok. unfold load, fgets_lines. change (pred 256) with 255%nat.
  assert (Hlines : fgets_from 255 255 (rules_text l) [] = map (fun r => rule_line r ++ [NL]) l).
  { induction l as [|r l IH]; [done|]. simpl in Hok. apply andb_true_iff in Hok as [Hr Hok].
    unfold rules_text. cbn [map concat]. rewrite <- app_assoc. cbn [app].
    destruct r as [neg icase p]. unfold rule_ok, rule_line in *. simpl in *. btoprop.
    rewrite fgets_line; [simpl; f_equal; by apply IH| |].
    - rewrite forallb_forall in H1. intros Hin.
      assert (NL ∈ p) as Hp by (destruct icase, neg; set_solver).
      apply list_elem_of_In, H1, negb_true_iff, bool_decide_eq_false in Hp. set_solver.
    - apply Nat.leb_le in H0. destruct icase, neg; simpl; lia. }
  rewrite Hlines. clear Hlines.
  assert (H : forall acc, fold_left (load_line regcomp false)
                (map (fun r => rule_line r ++ [NL]) l) (None, acc) = (None, acc ++ omap compiled l)).
  { induction l as [|r l IH]; intros acc; simpl; [by rewrite app_nil_r|].
    simpl in Hok. apply andb_true_iff in Hok as [Hr Hok]. specialize (IH Hok).
    rewrite (parse_rule r Hr). unfold compiled at 1.
    destruct (regcomp _ _ _); simpl; rewrite IH; [by rewrite <- app_assoc|done]. }
  by rewrite H.
Qed.

(** What a reload of the file leaves. *)
Definition reloaded (l : list rule) (t : Z) (b : Z) : patFile R :=
  PatFile (omap compiled l) t false b.

Lemma reload_rules (this : patFile R) (l : list rule) (t : Z) :
  replace this = false -> mtime this < t -> forallb rule_ok l = true ->
  patfileCheckReload regcomp (Some (t, Some (rules_text l))) this = reloaded l t (buflen this).
Proof.
  intros Hrep Hnew Hok. unfold patfileCheckReload, reloaded. rewrite Hrep.
  destruct (Z.leb_spec t (mtime this)); [lia|]. by rewrite load_rules.
Qed.

Lemma reload_again (l : list rule) (t b : Z) (text : option (list Z)) :
  patfileCheckReload regcomp (Some (t, text)) (reloaded l t b) = reloaded l t b.
Proof. unfold patfileCheckReload. simpl. by rewrite Z.leb_refl. Qed.

Lemma match_rules (l : list rule) (t b : Z) (uri : list Z) :
  patfileMatch regexec (reloaded l t b) uri
  = (if allowed l uri then Str uri else Null, reloaded l t b).
Proof.
  unfold patfileMatch. cbn [chain reloaded].
  set (this' := reloaded l t b).
  assert (Hr : replace this' = false) by done. clearbody this'.
  induction l as [|r l IH]; [done|]. simpl. unfold compiled at 1, rule_matches.
  destruct (regcomp (r_pat r) (r_icase r) true) as [re|]; simpl; [|exact IH].
  destruct (regexec re uri); simpl; [|exact IH]. rewrite Hr.
  by destruct (r_neg r).
Qed.

(** C9: an allow list does what its file says: after a change of the file the rules
    are reloaded, and the first rule whose pattern matches the URI decides, a
    "!" rule against it; with none the URI is not on the list. *)
Theorem allow_list_correct (this : patFile R) (l : list rule) (uri : list Z) (t : Z)
    (Hrep : replace this = false) (Hnew : mtime this < t) (Hok : forallb rule_ok l = true) :
  let this' := patfileCheckReload regcomp (Some (t, Some (rules_text l))) this in
  patfileMatch regexec this' uri = (if allowed l uri then Str uri else Null, this')
  /\ patfileCheckReload regcomp (Some (t, Some (rules_text l))) this' = this'.
Proof. cbv zeta. rewrite reload_rules, match_rules, reload_again by done. done. Qed.
End Allow.

(** Literal patterns, as an instance of the parameters. *)
Definition lit_comp (p : list Z) (icase nosub : bool) : option (list Z) := Some p.
Definition lit_exec (r uri : list Z) : option (list regmatch) :=
  match strstr uri r with Some _ => Some [] | None => None end.

Lemma allow_list_correct_witness :
  let rules := [Rule true false (bytes "ads"); Rule false true (bytes "example.com")] in
  let pf := patfileCheckReload lit_comp (Some (7, Some (rules_text rules)))
              (patfileNew (list Z) false) in
  (patfileMatch lit_exec pf (bytes "http://example.com/")).1 = Str (bytes "http://example.com/")
  /\ (patfileMatch lit_exec pf (bytes "http://ads.example.com/")).1 = Null.
Proof.
  intros rules pf.
  destruct (allow_list_correct (list Z) lit_comp lit_exec (patfileNew (list Z) false) rules
    (bytes "http://example.com/") 7 eq_refl eq_refl eq_refl) as [H1 _].
  destruct (allow_list_correct (list Z) lit_comp lit_exec (patfileNew (list Z) false) rules
    (bytes "http://ads.example.com/") 7 eq_refl eq_refl eq_refl) as [H2 _].
  fold pf in H1, H2. rewrite H1, H2. split; vm_compute; reflexivity.
Defined.
