(* ===== verification/Modules.v ===== *)
(** * modules: the filter hooks and the decisions of the modules

    v3.0/src/squid-mybox/src/module.c (filtering hooks) and the modules
    cfmod_cookies.c, cfmod_allowtype.c, cfmod_rejecttype.c, cfmod_redirect.c
    under filters/: which requests and replies a module acts on. *)

From S2P Require Import Prelude CString PatFile ContentFilter.

(** ** MIME types (module.c) *)

(** [canonType]: lower case, without parameters. *)
Fixpoint canonType (t : list Z) : list Z :=
  match t with
  | [] => []
  | c :: t' => if c =? 59 then [] else tolower c :: canonType t'
  end.

Definition SLASH : Z := 47.
Definition STAR : Z := 42.

Fixpoint after_slash (ct : list Z) : list Z :=
  match ct with
  | [] => []
  | c :: ct' => if c =? SLASH then ct' else after_slash ct'
  end.

Fixpoint mtmatch_loop (ct tr : list Z) : bool :=
  match ct with
  | [] => bool_decide (tr = [])
  | c :: ct' =>
      match tr with
      | t :: tr' => if t =? STAR then true else if c =? t then mtmatch_loop ct' tr' else false
      | [] => false
      end
  end.

Definition mtmatch (ct tr : list Z) : bool :=
  match tr with
  | a :: b :: tr' =>
      if (a =? STAR) && (b =? SLASH) then mtmatch_loop (after_slash ct) tr'
      else mtmatch_loop ct tr
  | _ => mtmatch_loop ct tr
  end.

(** ** The decisions of the modules *)

(** Who asks for what. *)
Record request := Request {
  uri : list Z;
  client_addr : option (list Z);
  auth_user : option (list Z)
}.

Section Modules.
Context {R : Type}.
Variable regcomp : list Z -> bool -> bool -> option R.
Variable regexec : R -> list Z -> option (list regmatch).
(** The module's pattern file as it is on disk during the call. *)
Variable file : option (Z * option (list Z)).

(** A module's pattern file object, NULL without one. *)
Abbreviation pat := (option (patFile R)).

(** [this->patFile && s && (patfileCheckReload(..), patfileMatch(.., s))]. *)
Definition listed (s : option (list Z)) (pf : pat) : outcome * pat :=
  match pf, s with
  | Some p, Some s =>
      let '(o, p') := patfileMatch regexec (patfileCheckReload regcomp file p) s in (o, Some p')
  | _, _ => (Null, pf)
  end.

(** One test after the other; the first that is not NULL ends them. *)
Definition orelse (m1 m2 : pat -> outcome * pat) (pf : pat) : outcome * pat :=
  match m1 pf with
  | (Null, pf') => m2 pf'
  | r => r
  end.

Definition own_page (rq : request) (pf : pat) : outcome * pat :=
  (if contains (uri rq) myboxuri then Str (uri rq) else Null, pf).

(** The tests all modules start with. *)
Definition exempt (rq : request) : pat -> outcome * pat :=
  orelse (own_page rq) (orelse (listed (client_addr rq)) (listed (auth_user rq))).

(** cfmod_cookies.c, both filters: is the header deleted? *)
Definition cookieFilter (rq : request) (pf : pat) : bool * pat :=
  let '(o, pf') := orelse (exempt rq) (listed (Some (uri rq))) pf in
  (bool_decide (o = Null), pf').

(** cfmod_rejecttype.c: NULL rejects. *)
Definition rejectFilter (rq : request) (pf : pat) : outcome * pat :=
  match exempt rq pf with
  | (Null, pf') => listed (Some (uri rq)) pf'
  | (Crash, pf') => (Crash, pf')
  | (Str _, pf') => (Str (uri rq), pf')
  end.

(** cfmod_allowtype.c: NULL rejects. *)
Definition allowFilter (types : list (list Z)) (typ : option (list Z)) (rq : request) (pf : pat)
  : outcome * pat :=
  match exempt rq pf with
  | (Null, pf') =>
      if match typ with
         | Some t => existsb (mtmatch (canonType t)) types
         | None => false
         end
      then (Str (uri rq), pf')
      else listed (Some (uri rq)) pf'
  | (Crash, pf') => (Crash, pf')
  | (Str _, pf') => (Str (uri rq), pf')
  end.

(** [moduleInit] of cfmod_allowtype.c: the types, and the pattern file's name. *)
Fixpoint allow_init (args : list (list Z)) (types : list (list Z))
  : list (list Z) * option (list Z) :=
  match args with
  | [] => (types, None)
  | key :: args' => if starts SLASH key then (types, Some key) else allow_init args' (key :: types)
  end.

(** cfmod_redirect.c: the URI to redirect to, or NULL. *)
Definition redirFilter (rq : request) (p : patFile R) : outcome * pat :=
  if contains (uri rq) myboxuri then (Null, Some p)
  else
    let on_client := match client_addr rq with Some _ => Some (uri rq) | None => None end in
    match orelse (listed on_client) (orelse (listed (client_addr rq)) (listed (auth_user rq)))
            (Some p) with
    | (Null, pf') => listed (Some (uri rq)) pf'
    | (Crash, pf') => (Crash, pf')
    | (Str _, pf') => (Null, pf')
    end.
End Modules.

(** ** The hooks (module.c) *)

Section Hooks.
Variable M : Type.

(** [moduleRedirect]: every module sees the URI of the request; the last one that
    redirects wins. *)
Definition moduleRedirect (filter : M -> request -> option (list Z)) (chain : list M)
    (rq : request) : list Z :=
  fold_left (fun res f => match filter f rq with Some tmp => tmp | None => res end)
    chain (uri rq).

(** [moduleRejecttype]: the first module with a matching trigger decides. *)
Fixpoint moduleRejecttype (trigger : M -> list Z)
    (filter : M -> option (list Z) -> request -> option (list Z)) (chain : list M)
    (typ : option (list Z)) (rq : request) : option (list Z) :=
  match chain with
  | [] => Some (uri rq)
  | f :: chain' =>
      if bool_decide (trigger f = [])
         || match typ with Some t => mtmatch (canonType t) (trigger f) | None => false end
      then filter f (canonType <$> typ) rq
      else moduleRejecttype trigger filter chain' typ rq
  end.

(** [moduleCFilterNew]: an object of every module whose trigger matches and that
    wants to filter the page. *)
Definition moduleCFilterNew {O : Type} (trigger : M -> list Z) (filter : M -> request -> option O)
    (chain : list M) (typ : option (list Z)) (rq : request) : list O :=
  match typ with
  | None => []
  | Some t => omap (fun f => if mtmatch (canonType t) (trigger f) then filter f rq else None) chain
  end.

(** [moduleCFilter]: a chunk through the filters in order; a negative result of
    one aborts the transfer. *)
Fixpoint moduleCFilter {O : Type} (filter : O -> list Z -> Z * O * list Z) (chain : list O)
    (buf : list Z) : Z * list O * list Z :=
  match chain with
  | [] => (0, [], buf)
  | [f] => let '(r, f', out) := filter f buf in (if r <? 0 then -1 else 0, [f'], out)
  | f :: rest =>
      let '(r, f', out) := filter f buf in
      if r <? 0 then (-1, f' :: rest, [])
      else let '(r2, rest', out2) := moduleCFilter filter rest out in (r2, f' :: rest', out2)
  end.
End Hooks.

(** ** MIME types match their patterns *)

Lemma mtmatch_loop_spec (ct : list Z) : forall tr,
  mtmatch_loop ct tr = true
  <-> tr = ct \/ exists p q c r, tr = p ++ STAR :: q /\ ct = p ++ c :: r.
Proof.
  induction ct as [|c ct IH]; intros tr; simpl.
  - rewrite bool_decide_eq_true. split; [by left|].
    intros [H|(p & q & c & r & _ & H)]; [done|by destruct p].
  - destruct tr as [|t tr].
    + split; [done|]. intros [H|(p & q & c' & r & H & _)]; [done|by destruct p].
    + destruct (Z.eqb_spec t STAR) as [->|Ht].
      * split; [|done]. intros _. right. exists [], tr, c, ct. done.
      * destruct (Z.eqb_spec c t) as [->|Hc].
        -- rewrite IH. split.
           ++ intros [->|(p & q & c' & r & -> & ->)]; [by left|].
              right. by exists (t :: p), q, c', r.
           ++ intros [[= ->]|(p & q & c' & r & H1 & H2)]; [by left|]. right.
              destruct p as [|a p]; simplify_eq/=. by exists p, q, c', r.
        -- split; [done|]. intros [[= -> ->]|(p & q & c' & r & H1 & H2)]; [done|].
           destruct p; by simplify_eq/=.
Qed.

(** A MIME type matches a trigger exactly when they are equal or the trigger
    has a star and the type continues where the star stands; a trigger "*/x"
    is compared with the part of the type after its slash. *)
Lemma mtmatch_correct (ct tr : list Z) :
  mtmatch ct tr = true <->
  let '(ct', tr') := if prefixb [STAR; SLASH] tr then (after_slash ct, drop 2 tr) else (ct, tr) in
  tr' = ct' \/ exists p q c r, tr' = p ++ STAR :: q /\ ct' = p ++ c :: r.
Proof.
  unfold mtmatch, prefixb.
  destruct tr as [|a [|b tr']]; rewrite ?andb_false_r; try apply mtmatch_loop_spec.
  rewrite andb_true_r, (Z.eqb_sym STAR), (Z.eqb_sym SLASH).
  destruct ((a =? STAR) && (b =? SLASH)); apply mtmatch_loop_spec.
Qed.

(** ** The allow lists of the modules *)

Section Decisions.
Context {R : Type}.
Variable regcomp : list Z -> bool -> bool -> option R.
Variable regexec : R -> list Z -> option (list regmatch).
Variable rules : list rule.
Variable t : Z.
Hypothesis Hrules : forallb rule_ok rules = true.

Abbreviation file := (Some (t, Some (rules_text rules))).
Abbreviation allows := (allowed R regcomp regexec rules).

(** The pattern file object before and after its reload. *)
Definition fresh (p : patFile R) : Prop :=
  replace p = false /\ (mtime p < t \/ exists b, p = reloaded R regcomp rules t b).

Lemma fresh_reload (p : patFile R) :
  fresh p -> patfileCheckReload regcomp file p = reloaded R regcomp rules t (buflen p).
Proof.
  intros [Hr [Ht|[b ->]]]; [by apply reload_rules|]. apply reload_again.
Qed.

Definition allows_opt (s : option (list Z)) : bool :=
  match s with Some s => allows s | None => false end.

Lemma listed_rules (p : patFile R) (s : option (list Z)) :
  fresh p ->
  exists p', fresh p'
  /\ listed regcomp regexec file s (Some p)
     = (match s with Some s => if allows s then Str s else Null | None => Null end, Some p').
Proof.
  intros Hp. destruct s as [s|]; cbn [listed]; [|by exists p].
  rewrite fresh_reload, match_rules by done. eexists. split; [|done].
  split; [done|]. right. by eexists.
Qed.

Lemma exempt_rules (p : patFile R) (rq : request) :
  fresh p ->
  exists p', fresh p' /\ (exempt regcomp regexec file rq (Some p)).2 = Some p'
  /\ (exempt regcomp regexec file rq (Some p)).1 <> Crash
  /\ ((exempt regcomp regexec file rq (Some p)).1 = Null
      <-> contains (uri rq) myboxuri = false /\ allows_opt (client_addr rq) = false
          /\ allows_opt (auth_user rq) = false).
Proof.
  intros Hp. unfold exempt, orelse, own_page.
  destruct (contains (uri rq) myboxuri); [exists p; simpl; intuition done|].
  destruct (listed_rules p (client_addr rq) Hp) as (p1 & Hp1 & E1). rewrite E1.
  destruct (listed_rules p1 (auth_user rq) Hp1) as (p2 & Hp2 & E2).
  unfold allows_opt.
  destruct (client_addr rq) as [c|]; [destruct (allows c); [exists p1; simpl; intuition done|]|];
    rewrite E2; exists p2; destruct (auth_user rq) as [a|]; try destruct (allows a);
    simpl; intuition done.
Qed.

(** A cookie is deleted exactly when nobody is exempted: the request is not for
    the proxy's own pages, and neither the client, nor the user, nor the URI is
    allowed by the rules of the file. *)
Lemma cookieFilter_correct (p : patFile R) (rq : request)
    (Hrep : replace p = false) (Hnew : mtime p < t) :
  (cookieFilter regcomp regexec file rq (Some p)).1
  = negb (contains (uri rq) myboxuri || allows_opt (client_addr rq)
          || allows_opt (auth_user rq) || allows (uri rq)).
Proof.
  assert (Hp : fresh p) by (split; auto).
  destruct (exempt_rules p rq Hp) as (p1 & Hp1 & E & Hc & Hn).
  unfold cookieFilter, orelse. destruct (exempt _ _ _ _ _) as [o pf]. simpl in *. subst pf.
  destruct (listed_rules p1 (Some (uri rq)) Hp1) as (p2 & _ & E2).
  destruct o as [|s|]; [|simpl|done].
  - destruct (proj1 Hn eq_refl) as (-> & -> & ->). rewrite E2. simpl. by destruct (allows (uri rq)).
  - destruct (contains (uri rq) myboxuri), (allows_opt (client_addr rq)),
      (allows_opt (auth_user rq)); try done. by destruct Hn as [_ Hn]; specialize (Hn ltac:(done)).
Qed.
End Decisions.

(** ** Redirection *)

Section Redirect.
Context {R : Type}.
Variable regcomp : list Z -> bool -> bool -> option R.
Variable regexec : R -> list Z -> option (list regmatch).
Variable file : option (Z * option (list Z)).

Lemma reload_idem (p : patFile R) :
  patfileCheckReload regcomp file (patfileCheckReload regcomp file p)
  = patfileCheckReload regcomp file p.
Proof.
  unfold patfileCheckReload. destruct file as [[t [text|]]|]; [..|done];
    destruct (Z.leb_spec t (mtime p)) as [H|H]; simpl;
    try (by destruct (Z.leb_spec t (mtime p)); [|lia]); by rewrite Z.leb_refl.
Qed.

(** Without a match the object stays as it was. *)
Lemma match_null (p p' : patFile R) (s : list Z) :
  patfileMatch regexec p s = (Null, p') -> p' = p.
Proof.
  unfold patfileMatch.
  destruct (match_chain_spec R regexec p s (chain p)) as [[E _]|(pre & r & a & subs & post & _ & _ & _ & E)];
    rewrite E; [congruence|].
  destruct (replace p).
  - unfold patfileSubst. destruct a as [|[r0|]]; [congruence| |congruence].
    destruct (strcmp_eq s r0); [congruence|].
    destruct (subst_loop _ _ _ _ _ _ _ _) as [[b out]|]; [|congruence].
    by destruct (strlen out <? b).
  - congruence.
Qed.

Lemma listed_null (p : patFile R) (s : option (list Z)) (o : outcome) (pf : option (patFile R)) :
  patfileCheckReload regcomp file p = p ->
  listed regcomp regexec file s (Some p) = (o, pf) -> o = Null -> pf = Some p.
Proof.
  intros Hp. unfold listed. destruct s as [s|]; [|congruence]. rewrite Hp.
  destruct (patfileMatch regexec p s) as [o' p'] eqn:E. intros [= -> <-] ->.
  by apply match_null in E as ->.
Qed.

(** The redirector never redirects a client's request: its first test returns
    when the client's address is known and the URI matches the file, so what is
    left has no match (squid always passes the address). *)
Lemma redirFilter_never (rq : request) (p : patFile R) (c : list Z)
    (Hclient : client_addr rq = Some c) :
  (redirFilter regcomp regexec file rq p).1 = Null
  \/ (redirFilter regcomp regexec file rq p).1 = Crash.
Proof.
  unfold redirFilter, orelse. destruct (contains _ _); [by left|]. rewrite Hclient.
  set (P := patfileCheckReload regcomp file p).
  assert (HP : patfileCheckReload regcomp file P = P) by apply reload_idem.
  assert (E1 : listed regcomp regexec file (Some (uri rq)) (Some p)
               = listed regcomp regexec file (Some (uri rq)) (Some P))
    by (unfold listed; by rewrite HP).
  rewrite E1.
  destruct (listed regcomp regexec file (Some (uri rq)) (Some P)) as [o1 pf1] eqn:L1.
  destruct o1; [|by left|by right].
  rewrite (listed_null P _ _ _ HP L1 eq_refl).
  destruct (listed regcomp regexec file (Some c) (Some P)) as [o2 pf2] eqn:L2.
  destruct o2; [|by left|by right].
  rewrite (listed_null P _ _ _ HP L2 eq_refl).
  destruct (listed regcomp regexec file (auth_user rq) (Some P)) as [o3 pf3] eqn:L3.
  destruct o3; [|by left|by right].
  rewrite (listed_null P _ _ _ HP L3 eq_refl). rewrite L1. by left.
Qed.
End Redirect.

(** The sample file's default replacement, and an URI it is for. *)
Lemma redirFilter_never_witness :
  let file := Some (1, Some (bytes "!	http://127.0.0.1/dummy.gif
/banners/
")) in
  let rq := Request (bytes "http://x/banners/1.gif") (Some (bytes "10.0.0.2")) None in
  let p := patfileNew (list Z) true in
  (redirFilter lit_comp lit_exec file rq p).1 = Null
  /\ (patfileMatch lit_exec (patfileCheckReload lit_comp file p) (uri rq)).1
     = Str (bytes "http://127.0.0.1/dummy.gif").
Proof.
  intros file rq p.
  destruct (redirFilter_never lit_comp lit_exec file rq p (bytes "10.0.0.2") eq_refl) as [H|H].
  - split; [exact H|vm_compute; reflexivity].
  - vm_compute in H. discriminate.
Defined.

Lemma cookieFilter_correct_witness :
  let rules := [Rule false false (bytes "bank")] in
  (cookieFilter lit_comp lit_exec (Some (5, Some (rules_text rules)))
     (Request (bytes "http://bank/") None None) (Some (patfileNew (list Z) false))).1 = false.
Proof.
  intros rules.
  rewrite (cookieFilter_correct lit_comp lit_exec rules 5 eq_refl (patfileNew (list Z) false)
    (Request (bytes "http://bank/") None None) eq_refl eq_refl).
  vm_compute. reflexivity.
Defined.
