(* ===== verification/Escape.v ===== *)
(** * escape: base64, URL and HTML escapes

    v3.0/src/squid-mybox/lib: base64.c, rfc1738.c and html_quote.c.  A static
    result buffer is the list of the bytes written to it. *)

From S2P Require Import Prelude CString.

Module Base64.

Definition BASE64_RESULT_SZ : Z := 8192.

Definition base64_code : list Z :=
  bytes "ABCDEFGHIJKLMNOPQRSTUVWXYZabcdefghijklmnopqrstuvwxyz0123456789+/".

Definition code (k : Z) : Z := nth (Z.to_nat k) base64_code 0.

(** [base64_init]: the table, -1 for bytes outside the alphabet. *)
Definition base64_init : list Z :=
  let t := fold_left (fun t i => <[Z.to_nat (code (Z.of_nat i)) := Z.of_nat i]> t)
             (seq 0 64) (replicate 256 (-1)) in
  <[61%nat := 0]> t.

Definition base64_value (c : Z) : Z := nth (Z.to_nat (c mod 256)) base64_init 0.

(** The loop of [base64_decode]: [val], [c] and the bytes written so far. *)
Fixpoint decode_loop (p : list Z) (val c : Z) (result : list Z) : list Z :=
  match p with
  | [] => result
  | x :: p' =>
      if strlen result + 4 <? BASE64_RESULT_SZ then
        if base64_value x <? 0 then decode_loop p' val c result
        else
          let val := Z.shiftl val 6 + base64_value x in
          let c := c + 1 in
          if c <? 4 then decode_loop p' val c result
          else decode_loop p' 0 0
                 (result ++ [u8 (Z.shiftr val 16); Z.land (Z.shiftr val 8) 255; Z.land val 255])
      else result
  end.

(** The buffer before its final NUL. *)
Definition base64_decode (p : list Z) : list Z := decode_loop p 0 0 [].

(** The end of both encoders: the last one or two bytes. *)
Definition encode_end (bits char_count : Z) (result : list Z) : list Z :=
  if char_count =? 0 then result
  else
    let bits := Z.shiftl bits (16 - 8 * char_count) in
    result ++ [code (Z.shiftr bits 18); code (Z.land (Z.shiftr bits 12) 63)]
    ++ (if char_count =? 1 then [61; 61]
        else [code (Z.land (Z.shiftr bits 6) 63); 61]).

Fixpoint encode_loop (s : list Z) (bits char_count : Z) (result : list Z) : list Z :=
  match s with
  | [] => encode_end bits char_count result
  | c :: s' =>
      if strlen result <? BASE64_RESULT_SZ - 5 then
        let bits := bits + c in
        let char_count := char_count + 1 in
        if char_count =? 3 then
          encode_loop s' 0 0
            (result ++ [code (Z.shiftr bits 18); code (Z.land (Z.shiftr bits 12) 63);
                        code (Z.land (Z.shiftr bits 6) 63); code (Z.land bits 63)])
        else encode_loop s' (Z.shiftl bits 8) char_count result
      else encode_end bits char_count result
  end.

(** [base64_encode] of a C string, and [base64_encode_bin] of [len] bytes: the
    same loop over the bytes of the argument. *)
Definition base64_encode (decoded_str : list Z) : list Z := encode_loop decoded_str 0 0 [].

Definition base64_encode_bin (data : list Z) (len : nat) : list Z :=
  encode_loop (take len data) 0 0 [].

Example encode_ex : base64_encode (bytes "user:pw") = bytes "dXNlcjpwdw==".
Proof. reflexivity. Qed.

(** *** Laws *)

Lemma value_code (k : Z) : 0 <= k < 64 -> base64_value (code k) = k.
Proof.
  intros H. assert (E : forallb (fun i => base64_value (code (Z.of_nat i)) =? Z.of_nat i)
    (seq 0 64) = true) by (vm_compute; reflexivity).
  rewrite forallb_forall in E. specialize (E (Z.to_nat k)). rewrite Z2Nat.id in E by lia.
  apply Z.eqb_eq, E, in_seq. lia.
Qed.

Ltac bits_to_arith :=
  change 63 with (2 ^ 6 - 1); change 255 with (2 ^ 8 - 1);
  unfold wrapu; rewrite ?land_ones, ?Z.shiftr_div_pow2, ?Z.shiftl_mul_pow2 by lia;
  change (2 ^ 18) with 262144; change (2 ^ 16) with 65536; change (2 ^ 12) with 4096;
  change (2 ^ 8) with 256; change (2 ^ 6) with 64.

Lemma decode_code (k val c : Z) (p result : list Z) :
  0 <= k < 64 -> strlen result + 4 < BASE64_RESULT_SZ ->
  decode_loop (code k :: p) val c result
  = (if c + 1 <? 4 then decode_loop p (val * 64 + k) (c + 1) result
     else decode_loop p 0 0
            (result ++ [(val * 64 + k) / 65536 mod 256; (val * 64 + k) / 256 mod 256;
                        (val * 64 + k) mod 256])).
Proof.
  intros Hk Hr%Z.ltb_lt. cbn [decode_loop]. rewrite Hr, value_code by done.
  destruct (Z.ltb_spec k 0); [lia|]. bits_to_arith. done.
Qed.

(** Four codes of 24 bits give back the three bytes. *)
Lemma decode_quantum (n : Z) (p result : list Z) :
  0 <= n < 2 ^ 24 -> strlen result + 4 < BASE64_RESULT_SZ ->
  decode_loop (code (Z.shiftr n 18) :: code (Z.land (Z.shiftr n 12) 63)
               :: code (Z.land (Z.shiftr n 6) 63) :: code (Z.land n 63) :: p) 0 0 result
  = decode_loop p 0 0 (result ++ [n / 65536; n / 256 mod 256; n mod 256]).
Proof.
  intros Hn Hr. change (2 ^ 24) with 16777216 in Hn. bits_to_arith.
  do 4 (rewrite decode_code by (done || dlia);
        match goal with |- context [if ?b then _ else _] =>
          let v := eval vm_compute in b in change b with v end; cbv iota).
  do 2 f_equal. repeat f_equal; dlia.
Qed.

Lemma decode_pad (c : Z) (val : Z) (p result : list Z) :
  strlen result + 4 < BASE64_RESULT_SZ ->
  decode_loop (61 :: p) val c result
  = (if c + 1 <? 4 then decode_loop p (val * 64) (c + 1) result
     else decode_loop p 0 0
            (result ++ [(val * 64) / 65536 mod 256; (val * 64) / 256 mod 256;
                        (val * 64) mod 256])).
Proof.
  intros Hr%Z.ltb_lt. cbn [decode_loop]. rewrite Hr.
  change (base64_value 61) with 0. cbn [Z.ltb Z.compare]. rewrite Z.add_0_r. bits_to_arith. done.
Qed.

Ltac decode_step :=
  first [ rewrite decode_code by (done || dlia) | rewrite decode_pad by done ];
  match goal with |- context [if ?b then _ else _] =>
    let v := eval vm_compute in b in change b with v end; cbv iota.

(** What the buffer holds after decoding the padded end of a text. *)
Lemma decode_end_1 (a : Z) (result : list Z) :
  0 <= a < 256 -> strlen result + 4 < BASE64_RESULT_SZ ->
  decode_loop (encode_end (a * 256) 1 []) 0 0 result = result ++ [a; 0; 0].
Proof.
  intros Ha Hr. unfold encode_end. cbn [Z.eqb app Pos.eqb]. change (16 - 8 * 1) with 8.
  bits_to_arith. do 4 decode_step. cbn [decode_loop]. f_equal. repeat f_equal; dlia.
Qed.

Lemma decode_end_2 (a b : Z) (result : list Z) :
  0 <= a < 256 -> 0 <= b < 256 -> strlen result + 4 < BASE64_RESULT_SZ ->
  decode_loop (encode_end ((a * 256 + b) * 256) 2 []) 0 0 result = result ++ [a; b; 0].
Proof.
  intros Ha Hb Hr. unfold encode_end. cbn [Z.eqb app Pos.eqb]. change (16 - 8 * 2) with 0.
  bits_to_arith. change (2 ^ 0) with 1. do 4 decode_step. cbn [decode_loop].
  f_equal. repeat f_equal; dlia.
Qed.

Lemma encode_end_app (bits c : Z) (result : list Z) :
  encode_end bits c result = result ++ encode_end bits c [].
Proof. unfold encode_end. bcase; [by rewrite app_nil_r|done]. Qed.

Lemma code_bits (n : Z) :
  map code [Z.shiftr n 18; Z.land (Z.shiftr n 12) 63; Z.land (Z.shiftr n 6) 63; Z.land n 63]
  = [code (Z.shiftr n 18); code (Z.land (Z.shiftr n 12) 63);
     code (Z.land (Z.shiftr n 6) 63); code (Z.land n 63)].
Proof. done. Qed.

Lemma encode_byte (c bits cc : Z) (s result : list Z) :
  strlen result < BASE64_RESULT_SZ - 5 ->
  encode_loop (c :: s) bits cc result
  = (if cc + 1 =? 3 then
       encode_loop s 0 0
         (result ++ [code (Z.shiftr (bits + c) 18); code (Z.land (Z.shiftr (bits + c) 12) 63);
                     code (Z.land (Z.shiftr (bits + c) 6) 63); code (Z.land (bits + c) 63)])
     else encode_loop s ((bits + c) * 256) (cc + 1) result).
Proof.
  intros Hr%Z.ltb_lt. cbn [encode_loop]. rewrite Hr.
  by rewrite Z.shiftl_mul_pow2 by lia.
Qed.

Lemma encode_decode (m : nat) : forall s result dres,
  (length s <= m)%nat -> Forall (fun c => 0 <= c < 256) s ->
  strlen result + 4 * ((strlen s + 2) / 3) <= 8188 -> strlen dres + strlen s <= 6141 ->
  exists e pad, encode_loop s 0 0 result = result ++ e
    /\ decode_loop e 0 0 dres = dres ++ s ++ pad /\ Forall (fun c => c = 0) pad.
Proof.
  induction m as [|m IH]; intros s result dres Hm Hs He Hd.
  - destruct s; [|simpl in Hm; lia]. exists [], []. cbn. by rewrite !app_nil_r.
  - assert (Hdr : strlen dres + 4 < BASE64_RESULT_SZ)
      by (unfold BASE64_RESULT_SZ, strlen in *; lia).
    destruct s as [|a s]; [exists [], []; cbn; by rewrite !app_nil_r|].
    apply Forall_cons in Hs as [Ha Hs].
    assert (Hr : strlen result < BASE64_RESULT_SZ - 5).
    { unfold BASE64_RESULT_SZ, strlen in *. simpl length in *. dlia. }
    rewrite encode_byte by done. change (0 + 1 =? 3) with false. cbv iota.
    rewrite !Z.add_0_l.
    destruct s as [|b s].
    + exists (encode_end (a * 256) 1 []), [0; 0]. cbn [encode_loop].
      rewrite encode_end_app, decode_end_1 by done. split_and!; [done|done|by repeat constructor].
    + apply Forall_cons in Hs as [Hb Hs]. rewrite encode_byte by done.
      change (1 + 1 =? 3) with false. cbv iota.
      destruct s as [|c s].
      * exists (encode_end ((a * 256 + b) * 256) 2 []), [0]. cbn [encode_loop].
        rewrite encode_end_app, decode_end_2 by done.
        split_and!; [done|done|by repeat constructor].
      * apply Forall_cons in Hs as [Hc Hs]. rewrite encode_byte by done.
        change (1 + 1 + 1 =? 3) with true. cbv iota.
        set (n := (a * 256 + b) * 256 + c).
        assert (Hn : 0 <= n < 2 ^ 24) by (change (2 ^ 24) with 16777216; unfold n; lia).
        destruct (IH s (result ++ [code (Z.shiftr n 18); code (Z.land (Z.shiftr n 12) 63);
                        code (Z.land (Z.shiftr n 6) 63); code (Z.land n 63)])
                     (dres ++ [a; b; c])) as (e & pad & E1 & E2 & E3).
        -- simpl in Hm. lia.
        -- done.
        -- rewrite strlen_app. unfold strlen in *. simpl length in *. dlia.
        -- rewrite strlen_app. unfold strlen in *. simpl length in *. lia.
        -- eexists (_ :: _ :: _ :: _ :: e), pad. rewrite E1. split_and!; [by rewrite <- app_assoc| |done].
           rewrite decode_quantum by done.
           replace [n / 65536; n / 256 mod 256; n mod 256] with [a; b; c]
             by (unfold n; repeat f_equal; dlia).
           rewrite E2, <- app_assoc. done.
Qed.

(** Base64 round trip: every C string that fits the 8192-byte buffers decodes
    from its encoding to itself. *)
Lemma base64_roundtrip (s : list Z) (Hs : is_cstr s) (Hlen : strlen s <= 6141) :
  cstr (base64_decode (base64_encode s)) = s.
Proof.
  destruct (encode_decode (length s) s [] []) as (e & pad & E1 & E2 & E3).
  - done.
  - eapply Forall_impl; [exact Hs|]. simpl. lia.
  - unfold strlen in *. simpl. dlia.
  - unfold strlen in *. simpl. lia.
  - unfold base64_encode, base64_decode. rewrite E1. cbn [app] in *. rewrite E2.
    clear E1 E2 Hlen. induction Hs as [|c s Hc Hs IH].
    + simpl. destruct E3 as [|? ? ->]; done.
    + simpl. destruct (Z.eqb_spec c 0); [lia|]. by rewrite IH.
Qed.

Lemma base64_roundtrip_witness :
  cstr (base64_decode (base64_encode (bytes "user:secret"))) = bytes "user:secret".
Proof.
  apply (base64_roundtrip (bytes "user:secret")).
  - repeat constructor; vm_compute; split; congruence.
  - vm_compute. discriminate.
Defined.
End Base64.

Module Rfc1738.

Definition PERCENT : Z := 37.

Definition rfc1738_unsafe_chars : list Z :=
  [60; 62; 34; 35; 123; 125; 124; 92; 94; 126; 91; 93; 96; 39; 32].

Definition rfc1738_reserved_chars : list Z := [59; 47; 63; 58; 64; 61; 38].

(** [do_escape] for one byte. *)
Definition do_escape (encode_reserved c : Z) : bool :=
  in_set rfc1738_unsafe_chars c
  || ((0 <=? encode_reserved) && (c =? PERCENT))
  || ((0 <? encode_reserved) && in_set rfc1738_reserved_chars c)
  || (c <=? 31) || (c =? 127) || (128 <=? c).

(** [%x] of one digit. *)
Definition hex (n : Z) : Z := if n <? 10 then 48 + n else 87 + n.

(** [%%%02x] of a byte. *)
Definition triplet (c : Z) : list Z := [PERCENT; hex (c / 16); hex (c mod 16)].

Definition rfc1738_do_escape (url : list Z) (encode_reserved : Z) : list Z :=
  concat (map (fun c => if do_escape encode_reserved c then triplet c else [c]) url).

Definition rfc1738_escape (url : list Z) : list Z := rfc1738_do_escape url 0.
Definition rfc1738_escape_unescaped (url : list Z) : list Z := rfc1738_do_escape url (-1).
Definition rfc1738_escape_part (url : list Z) : list Z := rfc1738_do_escape url 1.

(** The static buffer: its size after a call that needs [n] input bytes. *)
Definition escape_bufsize (bufsize : option Z) (n : Z) : Z :=
  match bufsize with
  | Some b => if b <? n * 3 then n * 3 + 1 else b
  | None => n * 3 + 1
  end.

Definition hexval (c : Z) : option Z :=
  if (48 <=? c) && (c <=? 57) then Some (c - 48)
  else if (97 <=? c) && (c <=? 102) then Some (c - 87)
  else if (65 <=? c) && (c <=? 70) then Some (c - 55)
  else None.

(** [sscanf(hexnum, "%x", &x)] on two bytes: leading space, a sign, or digits. *)
Definition scan_hex2 (a b : Z) : option Z :=
  match hexval a with
  | Some x => match hexval b with Some y => Some (16 * x + y) | None => Some x end
  | None =>
      match hexval b with
      | Some y => if isspace a || (a =? 43) then Some y
                  else if a =? 45 then Some (- y) else None
      | None => None
      end
  end.

(** [rfc1738_unescape]: what is written over the string, up to its NUL. *)
Fixpoint rfc1738_unescape (s : list Z) : list Z :=
  match s with
  | [] => []
  | c :: s1 =>
      if negb (c =? PERCENT) then c :: rfc1738_unescape s1
      else
        match s1 with
        | [] => [c]
        | a :: s2 =>
            if a =? PERCENT then c :: rfc1738_unescape s2
            else
              match s2 with
              | [] => c :: rfc1738_unescape s1
              | b :: s3 =>
                  if (a =? 48) && (b =? 48) then c :: rfc1738_unescape s3
                  else
                    match scan_hex2 a b with
                    | Some x => u8 x :: rfc1738_unescape s3
                    | None => c :: rfc1738_unescape s1
                    end
              end
        end
  end.

Example unescape_ex : rfc1738_unescape (bytes "a%20b%%c%0z%zz") = bytes "a b%c" ++ [0] ++ bytes "%zz".
Proof. reflexivity. Qed.

(** *** Laws *)

Lemma hexval_hex (n : Z) : 0 <= n < 16 -> hexval (hex n) = Some n.
Proof.
  intros H. unfold hex, hexval. destruct (Z.ltb_spec n 10).
  - destruct (Z.leb_spec 48 (48 + n)), (Z.leb_spec (48 + n) 57); try lia. simpl. f_equal. lia.
  - destruct (Z.leb_spec 48 (87 + n)), (Z.leb_spec (87 + n) 57); try lia. simpl.
    destruct (Z.leb_spec 97 (87 + n)), (Z.leb_spec (87 + n) 102); try lia. simpl. f_equal. lia.
Qed.

Lemma hex_ne (n c : Z) : 0 <= n < 16 -> hex n = c -> 48 <= c < 58 \/ 97 <= c < 103.
Proof. unfold hex. destruct (Z.ltb_spec n 10); lia. Qed.

Lemma unescape_hex (a b x : Z) (s : list Z) :
  a <> PERCENT -> (a =? 48) && (b =? 48) = false -> scan_hex2 a b = Some x ->
  rfc1738_unescape (PERCENT :: a :: b :: s) = u8 x :: rfc1738_unescape s.
Proof.
  intros Ha%Z.eqb_neq H0 Hx.
  change (rfc1738_unescape (PERCENT :: a :: b :: s))
    with (if a =? PERCENT then PERCENT :: rfc1738_unescape (b :: s)
          else if (a =? 48) && (b =? 48) then PERCENT :: rfc1738_unescape s
          else match scan_hex2 a b with
               | Some x => u8 x :: rfc1738_unescape s
               | None => PERCENT :: rfc1738_unescape (a :: b :: s)
               end).
  by rewrite Ha, H0, Hx.
Qed.

Lemma unescape_triplet (c : Z) (s : list Z) :
  0 < c < 256 -> rfc1738_unescape (triplet c ++ s) = c :: rfc1738_unescape s.
Proof.
  intros Hc. unfold triplet. cbn [app].
  assert (0 <= c / 16 < 16) by dlia. assert (0 <= c mod 16 < 16) by dlia.
  rewrite (unescape_hex _ _ (16 * (c / 16) + c mod 16)).
  - f_equal. rewrite wrapu_small; dlia.
  - intros E. apply hex_ne in E; unfold PERCENT in *; lia.
  - apply andb_false_iff. rewrite !Z.eqb_neq. unfold hex.
    destruct (Z.ltb_spec (c / 16) 10), (Z.ltb_spec (c mod 16) 10); dlia.
  - unfold scan_hex2. by rewrite !hexval_hex.
Qed.

Lemma hex_not_escaped (reserved n : Z) : 0 <= n < 16 -> do_escape reserved (hex n) = false.
Proof.
  intros Hn.
  assert (Hx : forallb (fun i =>
      let c := hex (Z.of_nat i) in
      negb (in_set rfc1738_unsafe_chars c || (c =? PERCENT) || in_set rfc1738_reserved_chars c
            || (c <=? 31) || (c =? 127) || (128 <=? c))) (seq 0 16) = true)
    by (vm_compute; reflexivity).
  rewrite forallb_forall in Hx. specialize (Hx (Z.to_nat n) ltac:(apply in_seq; lia)).
  rewrite Z2Nat.id in Hx by lia. cbv zeta in Hx. unfold do_escape.
  apply negb_true_iff in Hx. repeat (apply orb_false_iff in Hx as [Hx ?]).
  repeat match goal with H : _ = false |- _ => rewrite H end. by rewrite !andb_false_r.
Qed.

(** URL escaping is undone by unescaping, with and without the reserved
    characters; the escaped text has no byte that RFC 1738 forbids; and the
    result with its NUL fits the static buffer, whatever size earlier calls
    left it with. *)
Lemma rfc1738_roundtrip (url : list Z) (reserved : Z) (Hurl : is_cstr url) (Hr : 0 <= reserved) :
  rfc1738_unescape (rfc1738_do_escape url reserved) = url
  /\ Forall (fun c => do_escape reserved c = false \/ c = PERCENT)
       (rfc1738_do_escape url reserved)
  /\ forall m, 0 <= m ->
     strlen (rfc1738_do_escape url reserved) + 1
     <= escape_bufsize (Some (escape_bufsize None m)) (strlen url).
Proof.
  unfold rfc1738_do_escape. split_and!.
  - induction Hurl as [|c url Hc Hurl IH]; [done|]. cbn [map concat].
    destruct (do_escape reserved c) eqn:E; [by rewrite unescape_triplet, IH|].
    cbn [app rfc1738_unescape]. destruct (Z.eqb_spec c PERCENT) as [->|]; [|simpl; by rewrite IH].
    unfold do_escape in E. btoprop. destruct (Z.leb_spec 0 reserved); [done|lia].
  - induction Hurl as [|c url Hc Hurl IH]; [by constructor|]. cbn [map concat].
    apply Forall_app. split; [|done]. destruct (do_escape reserved c) eqn:E; [|by repeat constructor].
    assert (H : forall n, 0 <= n < 16 -> do_escape reserved (hex n) = false)
      by (intros; by apply hex_not_escaped).
    unfold triplet. constructor; [by right|].
    constructor; [left; apply H; dlia|]. constructor; [left; apply H; dlia|done].
  - intros m Hm. unfold escape_bufsize.
    assert (Hl : strlen (concat (map (fun c => if do_escape reserved c then triplet c else [c]) url))
                 <= strlen url * 3).
    { clear Hurl. induction url as [|c url IH]; [done|]. cbn [map concat]. rewrite strlen_app.
      unfold strlen in *. simpl length. destruct (do_escape reserved c); simpl length; lia. }
    destruct (Z.ltb_spec (m * 3 + 1) (strlen url * 3)); lia.
Qed.

Lemma rfc1738_roundtrip_witness :
  rfc1738_unescape (rfc1738_escape_part (bytes "a b/c?d=100%")) = bytes "a b/c?d=100%".
Proof.
  apply (rfc1738_roundtrip (bytes "a b/c?d=100%") 1).
  - repeat constructor; vm_compute; split; congruence.
  - lia.
Defined.
End Rfc1738.

Module HtmlQuote.

Definition htmlstandardentities : list (Z * list Z) :=
  [(60, bytes "&lt;"); (62, bytes "&gt;"); (34, bytes "&quot;"); (38, bytes "&amp;");
   (39, bytes "&#39;")].
Arguments htmlstandardentities : simpl never.

(** The loop over the table. *)
Fixpoint find_entity (ch : Z) (l : list (Z * list Z)) : option (list Z) :=
  match l with
  | [] => None
  | (code, quote) :: l' => if ch =? code then Some quote else find_entity ch l'
  end.

Definition quote_byte (ch : Z) : list Z :=
  match find_entity ch htmlstandardentities with
  | Some escape => escape
  | None => [ch]
  end.

Definition html_quote (string : list Z) : list Z := concat (map quote_byte string).

(** The static buffer: its size after a call with [n] bytes. *)
Definition quote_bufsize (bufsize : option Z) (n : Z) : Z :=
  match bufsize with
  | Some b => if b <? n * 6 then n * 6 + 1 else b
  | None => n * 6 + 1
  end.

(** *** What a browser makes of it *)

Fixpoint find_quote (s : list Z) (l : list (Z * list Z)) : option (Z * nat) :=
  match l with
  | [] => None
  | (code, quote) :: l' => if prefixb quote s then Some (code, length quote) else find_quote s l'
  end.

Fixpoint html_text (fuel : nat) (s : list Z) : list Z :=
  match fuel, s with
  | S fuel, c :: s' =>
      match find_quote s htmlstandardentities with
      | Some (code, n) => code :: html_text fuel (drop n s)
      | None => c :: html_text fuel s'
      end
  | _, _ => []
  end.

Lemma quote_byte_cases (c : Z) :
  (exists q, (c, q) ∈ htmlstandardentities /\ quote_byte c = q)
  \/ (quote_byte c = [c] /\ (c ∉ map fst htmlstandardentities)).
Proof.
  unfold quote_byte, htmlstandardentities. cbn [find_entity map fst].
  repeat match goal with
  | |- context [?a =? ?b] => destruct (Z.eqb_spec a b) as [->|]; [left; eexists; split; [|reflexivity]; set_solver|]
  end.
  right. split; [done|set_solver].
Qed.

(** One case for every entity. *)
Ltac entities H :=
  apply list_elem_of_In in H; unfold htmlstandardentities in H; simpl in H;
  repeat destruct H as [H|H]; [injection H as <- <-..|destruct H].

Lemma find_quote_other (c : Z) (s : list Z) :
  c <> 38 -> find_quote (c :: s) htmlstandardentities = None.
Proof.
  intros H. unfold htmlstandardentities. cbn.
  by destruct c as [|p|p]; repeat (destruct p as [p|p|]; try done).
Qed.

Lemma html_text_quote (c : Z) (fuel : nat) (s : list Z) :
  html_text (S fuel) (quote_byte c ++ s) = c :: html_text fuel s.
Proof.
  destruct (quote_byte_cases c) as [(q & Hq & ->)|[-> Hc]].
  - by entities Hq.
  - cbn [app html_text]. rewrite find_quote_other; [done|].
    intros ->. apply Hc. unfold htmlstandardentities. set_solver.
Qed.

(** Quoted text is inert and faithful: no bracket or quotation mark is left in
    it, a browser that resolves the entities shows the original text, and every
    6-byte copy of an entity and the final NUL are inside the static buffer,
    whatever size earlier calls left it with. *)
Lemma html_quote_correct (string : list Z) :
  Forall (fun c => c ∉ [60; 62; 34; 39]) (html_quote string)
  /\ html_text (length (html_quote string)) (html_quote string) = string
  /\ (forall m pre c post, 0 <= m -> string = pre ++ c :: post ->
      strlen (html_quote pre) + 6 < quote_bufsize (Some (quote_bufsize None m)) (strlen string)
      /\ strlen (html_quote string) < quote_bufsize (Some (quote_bufsize None m)) (strlen string)).
Proof.
  assert (Hlen : forall s, strlen s <= strlen (html_quote s) <= strlen s * 6).
  { induction s as [|c s IH]; [done|]. unfold html_quote in *. cbn [map concat].
    rewrite strlen_app. change (c :: s) with ([c] ++ s). rewrite strlen_app.
    assert (1 <= strlen (quote_byte c) <= 6); [|unfold strlen in *; simpl in *; lia].
    destruct (quote_byte_cases c) as [(q & Hq & ->)|[-> _]]; [|done].
    by entities Hq. }
  split_and!.
  - unfold html_quote. induction string as [|c s IH]; [constructor|]. cbn [map concat].
    apply Forall_app. split; [|done].
    destruct (quote_byte_cases c) as [(q & Hq & ->)|[-> Hc]].
    + entities Hq; repeat constructor; cbn; set_solver.
    + constructor; [|constructor]. unfold htmlstandardentities in Hc. set_solver.
  - assert (H : forall s fuel, (length s <= fuel)%nat -> html_text fuel (html_quote s) = s).
    { induction s as [|c s IH]; intros fuel Hf; [by destruct fuel|].
      destruct fuel as [|fuel]; [simpl in Hf; lia|]. unfold html_quote. cbn [map concat].
      rewrite html_text_quote. f_equal. apply IH. simpl in Hf. lia. }
    apply H. specialize (Hlen string). unfold strlen in Hlen. lia.
  - intros m pre c post Hm E. unfold quote_bufsize.
    pose proof (Hlen pre). pose proof (Hlen string).
    assert (strlen string = strlen pre + 1 + strlen post).
    { rewrite E, strlen_app. unfold strlen. simpl. lia. }
    assert (0 <= strlen post) by (unfold strlen; lia).
    destruct (Z.ltb_spec (m * 6 + 1) (strlen string * 6)); lia.
Qed.
End HtmlQuote.
