(* ===== verification/Heap.v ===== *)
(** * heap: the priority queue of the replacement policies

    v3.0/src/squid-mybox/lib/heap.c, with its pointers: the heap's array holds
    pointers to nodes, and a node records its own position, which the callers
    use to delete or update it.  Memory is a finite map from addresses to
    nodes; a read through a bad pointer, an access outside the array and a
    failed assertion give [None].  Keys are any totally ordered type. *)

From S2P Require Import Prelude.

Module Heap.

Section Heap.
Context {K D : Type}.
(** [a <= b] on keys. *)
Variable kle : K -> K -> bool.
(** [hp->gen_key(dat, hp->age)]. *)
Variable gen_key : D -> Z -> K.

Definition klt (a b : K) : bool := negb (kle b a).

Record heap_node := Node { key : K; data : D; id : nat }.

Record heap := HeapRec {
  nodes : list (option positive);
  store : gmap positive heap_node;
  last : nat;
  size : nat;
  age : Z
}.

Definition Left (x : nat) : nat := 2 * x + 1.
Definition Right (x : nat) : nat := 2 * x + 2.
Definition Parent (x : nat) : nat := (x - 1) / 2.

Definition Threshold : nat := Z.to_nat 10000.
Definition MinSize : nat := 32.

Definition set_nodes (h : heap) (ns : list (option positive)) : heap :=
  HeapRec ns (store h) (last h) (size h) (age h).
Definition set_store (h : heap) (m : gmap positive heap_node) : heap :=
  HeapRec (nodes h) m (last h) (size h) (age h).
Definition set_last (h : heap) (n : nat) : heap :=
  HeapRec (nodes h) (store h) n (size h) (age h).

(** [hp->nodes[i]] and what it points to. *)
Definition node_at (h : heap) (i : nat) : option (positive * heap_node) :=
  match nodes h !! i with
  | Some (Some p) => pair p <$> store h !! p
  | _ => None
  end.

(** [hp->nodes[i] = p], inside the array only. *)
Definition put_node (h : heap) (i : nat) (p : positive) : option heap :=
  if (i <? length (nodes h))%nat then Some (set_nodes h (<[i:=Some p]> (nodes h))) else None.

(** [p->id = i] *)
Definition put_id (h : heap) (p : positive) (i : nat) : option heap :=
  match store h !! p with
  | Some n => Some (set_store h (<[p:=Node (key n) (data n) i]> (store h)))
  | None => None
  end.

Definition _heap_node_exist (h : heap) (i : nat) : bool :=
  negb ((last h <=? i)%nat || match nodes h !! i with Some (Some _) => false | _ => true end).

Definition new_heap (initSize : Z) : heap :=
  let n := if initSize <=? 0 then MinSize else Z.to_nat initSize in
  HeapRec (replicate n None) ∅ 0 n 0.

Definition _heap_should_grow (h : heap) : bool := (size h <=? last h)%nat.

Definition _heap_grow (h : heap) : heap :=
  let newSize := if (Threshold <? size h)%nat then (size h * 3 / 2)%nat else (size h * 2)%nat in
  HeapRec (nodes h ++ replicate (newSize - length (nodes h)) None) (store h) (last h)
    newSize (age h).

Definition _heap_swap_element (h : heap) (elm1 elm2 : positive) : option heap :=
  n1 ← store h !! elm1;
  n2 ← store h !! elm2;
  h ← put_id h elm1 (id n2);
  h ← put_id h elm2 (id n1);
  h ← put_node h (id n2) elm1;
  put_node h (id n1) elm2.

Fixpoint _heap_ify_down (fuel : nat) (h : heap) (elm : positive) : option heap :=
  match fuel with
  | O => None
  | S fuel =>
      e ← store h !! elm;
      let left := Left (id e) in
      let right := Right (id e) in
      if negb (_heap_node_exist h left) then
        if _heap_node_exist h right then None else Some h
      else
        '(pl, nl) ← node_at h left;
        '(kid, nk) ← (if negb (_heap_node_exist h right) then Some (pl, nl)
                      else '(pr, nr) ← node_at h right;
                           Some (if klt (key nr) (key nl) then (pr, nr) else (pl, nl)));
        if kle (key e) (key nk) then Some h
        else h ← _heap_swap_element h kid elm; _heap_ify_down fuel h elm
  end.

Fixpoint _heap_ify_up (fuel : nat) (h : heap) (elm : positive) : option heap :=
  match fuel with
  | O => None
  | S fuel =>
      e ← store h !! elm;
      if (0 <? id e)%nat then
        '(parentNode, n) ← node_at h (Parent (id e));
        if kle (key n) (key e) then Some h
        else h ← _heap_swap_element h parentNode elm; _heap_ify_up fuel h elm
      else Some h
  end.

(** Both loops move by a level, so the number of nodes is enough. *)
Definition ify_down (h : heap) (elm : positive) : option heap := _heap_ify_down (S (last h)) h elm.
Definition ify_up (h : heap) (elm : positive) : option heap := _heap_ify_up (S (last h)) h elm.

(** [elm] is the memory [xmalloc] returned. *)
Definition heap_insert (h : heap) (elm : positive) (dat : D) : option heap :=
  let h := if _heap_should_grow h then _heap_grow h else h in
  let h := set_store h (<[elm:=Node (gen_key dat (age h)) dat (last h)]> (store h)) in
  h ← put_node h (last h) elm;
  ify_up (set_last h (S (last h))) elm.

Definition heap_extractlast (h : heap) : option (D * heap) :=
  if _heap_node_exist h (last h - 1) && (0 <? last h)%nat then
    let h := set_last h (last h - 1) in
    '(p, n) ← node_at h (last h);
    Some (data n, set_store h (delete p (store h)))
  else None.

Definition heap_delete (h : heap) (elm : positive) : option (D * heap) :=
  e ← store h !! elm;
  if _heap_node_exist h (last h - 1) && (0 <? last h)%nat then
    '(lastNode, _) ← node_at h (last h - 1);
    h ← _heap_swap_element h lastNode elm;
    '(_, h) ← heap_extractlast h;
    if bool_decide (elm = lastNode) then Some (data e, h)
    else if (0 <? last h)%nat then
      l ← store h !! lastNode;
      '(_, pn) ← node_at h (Parent (id l));
      h ← (if klt (key l) (key pn) then ify_up h lastNode else Some h);
      h ← ify_down h lastNode;
      Some (data e, h)
    else Some (data e, h)
  else None.

Definition heap_extractmin (h : heap) : option (option D * heap) :=
  if (last h =? 0)%nat then Some (None, h)
  else
    '(p, n) ← node_at h 0;
    '(_, h) ← heap_delete h p;
    Some (Some (data n), h).

Definition heap_update (h : heap) (elm : positive) (dat : D) : option (D * heap) :=
  e ← store h !! elm;
  let h := set_store h (<[elm:=Node (gen_key dat (age h)) dat (id e)]> (store h)) in
  e' ← store h !! elm;
  '(_, pn) ← node_at h (Parent (id e));
  h ← (if klt (key e') (key pn) then ify_up h elm else Some h);
  h ← ify_down h elm;
  Some (data e, h).

Definition heap_peepmin (h : heap) : option D :=
  if _heap_node_exist h 0 then data ∘ snd <$> node_at h 0 else None.
Definition heap_peepminkey (h : heap) : option K :=
  if _heap_node_exist h 0 then key ∘ snd <$> node_at h 0 else None.
Definition heap_peep (h : heap) (n : nat) : option D :=
  if _heap_node_exist h n then data ∘ snd <$> node_at h n else None.
Definition heap_peepkey (h : heap) (n : nat) : option K :=
  if _heap_node_exist h n then key ∘ snd <$> node_at h n else None.
Definition heap_nodes (h : heap) : nat := last h.
Definition heap_empty (h : heap) : bool := (last h <=? 0)%nat.
End Heap.

Arguments Node {K D}.
Arguments key {K D}.
Arguments data {K D}.
Arguments id {K D}.
Arguments HeapRec {K D}.
Arguments nodes {K D}.
Arguments store {K D}.
Arguments last {K D}.
Arguments size {K D}.
Arguments age {K D}.
Arguments node_at {K D}.
Arguments put_node {K D}.
Arguments put_id {K D}.
Arguments set_nodes {K D}.
Arguments set_store {K D}.
Arguments set_last {K D}.
Arguments _heap_node_exist {K D}.
Arguments _heap_swap_element {K D}.
Arguments heap_extractlast {K D}.

(** ** Heap order on positions *)

Section Order.
Context {K : Type}.
Variable kle : K -> K -> bool.
Hypothesis kle_total : forall a b, kle a b = true \/ kle b a = true.
Hypothesis kle_trans : forall a b c, kle a b = true -> kle b c = true -> kle a c = true.

Abbreviation le a b := (kle a b = true).

Lemma Parent_child (j : nat) : (0 < j)%nat -> j = Left (Parent j) \/ j = Right (Parent j).
Proof.
  intros H. unfold Left, Right, Parent.
  pose proof (Nat.div_mod_eq (j - 1) 2). pose proof (Nat.mod_upper_bound (j - 1) 2). lia.
Qed.

Lemma Parent_Left (i : nat) : Parent (Left i) = i.
Proof. unfold Parent, Left. replace (2 * i + 1 - 1)%nat with (i * 2)%nat by lia. by apply Nat.div_mul. Qed.

Lemma Parent_Right (i : nat) : Parent (Right i) = i.
Proof.
  unfold Parent, Right. replace (2 * i + 2 - 1)%nat with (1 + i * 2)%nat by lia.
  by rewrite Nat.div_add.
Qed.

Lemma Parent_lt (j : nat) : (0 < j)%nat -> (Parent j < j)%nat.
Proof. intros H. destruct (Parent_child j H) as [E|E]; unfold Left, Right in E; lia. Qed.

Definition ordered (f : nat -> K) (n : nat) : Prop :=
  forall j, (0 < j < n)%nat -> le (f (Parent j)) (f j).

(** Heap order except between [i] and its parent, or [i] and its children. *)
Definition up_ok (f : nat -> K) (n i : nat) : Prop :=
  (forall j, (0 < j < n)%nat -> j <> i -> le (f (Parent j)) (f j))
  /\ (forall j, (0 < j < n)%nat -> Parent j = i -> (0 < i)%nat -> le (f (Parent i)) (f j)).

Definition down_ok (f : nat -> K) (n i : nat) : Prop :=
  (forall j, (0 < j < n)%nat -> Parent j <> i -> le (f (Parent j)) (f j))
  /\ (forall j, (0 < j < n)%nat -> Parent j = i -> (0 < i)%nat -> le (f (Parent i)) (f j)).

Definition swapf (f : nat -> K) (i j : nat) (x : nat) : K :=
  if (x =? i)%nat then f j else if (x =? j)%nat then f i else f x.

Lemma not_le (a b : K) : kle a b = false -> le b a.
Proof. intros H. destruct (kle_total a b); congruence. Qed.

Lemma swapf_l (f : nat -> K) (i j : nat) : swapf f i j i = f j.
Proof. unfold swapf. by rewrite Nat.eqb_refl. Qed.

Lemma swapf_r (f : nat -> K) (i j : nat) : swapf f i j j = f i.
Proof. unfold swapf. destruct (Nat.eqb_spec j i) as [->|]; [done|]. by rewrite Nat.eqb_refl. Qed.

Lemma swapf_ne (f : nat -> K) (i j x : nat) : x <> i -> x <> j -> swapf f i j x = f x.
Proof.
  intros H1 H2. unfold swapf. destruct (Nat.eqb_spec x i), (Nat.eqb_spec x j); done.
Qed.

(** Exchanging a node with its parent moves the defect up, ... *)
Lemma up_step (f : nat -> K) (n i : nat) :
  up_ok f n i -> (0 < i < n)%nat -> kle (f (Parent i)) (f i) = false ->
  up_ok (swapf f i (Parent i)) n (Parent i).
Proof.
  intros [H1 H2] Hi Hk%not_le. pose proof (Parent_lt i ltac:(lia)) as Hp.
  split; intros j Hj; pose proof (Parent_lt j ltac:(lia)) as Hpj.
  - intros Hji. destruct (decide (j = i)) as [->|Hne]; [by rewrite swapf_l, swapf_r|].
    rewrite (swapf_ne f i (Parent i) j) by done.
    destruct (decide (Parent j = i)) as [E|Hi']; [rewrite E, swapf_l; apply H2; auto; lia|].
    destruct (decide (Parent j = Parent i)) as [E|Hp'].
    + rewrite E, swapf_r. apply (kle_trans _ (f (Parent i))); [done|]. rewrite <- E. auto.
    + rewrite swapf_ne by done. auto.
  - intros Ej H0. pose proof (Parent_lt (Parent i) H0) as Hpp.
    rewrite (swapf_ne f i (Parent i) (Parent (Parent i))) by lia.
    assert (le (f (Parent (Parent i))) (f (Parent i))) by (apply H1; lia).
    destruct (decide (j = i)) as [->|Hne]; [by rewrite swapf_l|].
    rewrite swapf_ne by lia. apply (kle_trans _ (f (Parent i))); [done|].
    rewrite <- Ej. auto.
Qed.

Lemma up_done (f : nat -> K) (n i : nat) :
  up_ok f n i -> i = 0%nat \/ le (f (Parent i)) (f i) -> ordered f n.
Proof.
  intros [H1 H2] Hd j Hj. destruct (decide (j = i)) as [->|]; [destruct Hd; [lia|done]|auto].
Qed.

(** ... and exchanging it with the smaller child moves it down. *)
Lemma down_step (f : nat -> K) (n i c : nat) :
  down_ok f n i -> (0 < c < n)%nat -> Parent c = i ->
  (forall j, (0 < j < n)%nat -> Parent j = i -> le (f c) (f j)) ->
  kle (f i) (f c) = false ->
  down_ok (swapf f c i) n c.
Proof.
  intros [H1 H2] Hc Ec Hmin Hk%not_le. pose proof (Parent_lt c ltac:(lia)) as Hp.
  split; intros j Hj; pose proof (Parent_lt j ltac:(lia)) as Hpj.
  - intros Hji. destruct (decide (Parent j = i)) as [E|Hi].
    + rewrite E, swapf_r. destruct (decide (j = c)) as [->|]; [by rewrite swapf_l|].
      rewrite swapf_ne by lia. auto.
    + rewrite (swapf_ne f c i (Parent j)) by done.
      destruct (decide (j = i)) as [->|]; [rewrite swapf_r; apply H2; auto; lia|].
      rewrite swapf_ne by (done || congruence). auto.
  - intros Ej _. rewrite Ec, swapf_r. rewrite swapf_ne by lia. rewrite <- Ej.
    apply H1; [done|]. lia.
Qed.

Lemma down_done (f : nat -> K) (n i : nat) :
  down_ok f n i -> (forall j, (0 < j < n)%nat -> Parent j = i -> le (f i) (f j)) -> ordered f n.
Proof.
  intros [H1 _] H2 j Hj. destruct (decide (Parent j = i)) as [<-|]; auto.
Qed.

Lemma ordered_down (f : nat -> K) (n i : nat) : (i < n)%nat -> ordered f n -> down_ok f n i.
Proof.
  intros Hn H. split; intros j Hj; auto. intros <- H0.
  pose proof (Parent_lt j ltac:(lia)).
  apply (kle_trans _ (f (Parent j))); apply H; lia.
Qed.

(** Only positions below [n] matter. *)
Lemma up_ok_ext (f g : nat -> K) (n i : nat) :
  (forall x, (x < n)%nat -> g x = f x) -> (i < n)%nat -> up_ok f n i -> up_ok g n i.
Proof.
  intros E Hi [H1 H2]. split; intros j Hj; pose proof (Parent_lt j ltac:(lia)).
  - intros Hji. rewrite !E by lia. auto.
  - intros Ej H0. pose proof (Parent_lt i ltac:(lia)). rewrite !E by lia. auto.
Qed.

Lemma down_ok_ext (f g : nat -> K) (n i : nat) :
  (forall x, (x < n)%nat -> g x = f x) -> (i < n)%nat -> down_ok f n i -> down_ok g n i.
Proof.
  intros E Hi [H1 H2]. split; intros j Hj; pose proof (Parent_lt j ltac:(lia)).
  - intros Hji. rewrite !E by lia. auto.
  - intros Ej H0. pose proof (Parent_lt i ltac:(lia)). rewrite !E by lia. auto.
Qed.

Lemma ordered_ext (f g : nat -> K) (n : nat) :
  (forall x, (x < n)%nat -> g x = f x) -> ordered f n -> ordered g n.
Proof.
  intros E H j Hj. pose proof (Parent_lt j ltac:(lia)). rewrite !E by lia. auto.
Qed.

(** A new key at one position of an ordered heap. *)
Lemma changed_ok (f g : nat -> K) (n i : nat) :
  (i < n)%nat -> ordered f n -> (forall x, x <> i -> g x = f x) ->
  (kle (g (Parent i)) (g i) = false -> up_ok g n i)
  /\ (i = 0%nat \/ le (g (Parent i)) (g i) -> down_ok g n i).
Proof.
  intros Hn H Hg.
  assert (Hc : forall j, (0 < j < n)%nat -> Parent j = i -> (0 < i)%nat ->
                         le (g (Parent i)) (g j)).
  { intros j Hj <- H0. pose proof (Parent_lt j ltac:(lia)). pose proof (Parent_lt (Parent j) H0).
    rewrite !Hg by lia. apply (kle_trans _ (f (Parent j))); apply H; lia. }
  assert (Hu : forall j, (0 < j < n)%nat -> j <> i -> Parent j <> i -> le (g (Parent j)) (g j)).
  { intros j Hj H1 H2. rewrite !Hg by done. auto. }
  split; intros Hk; split; auto.
  - intros j Hj Hji. destruct (decide (Parent j = i)) as [E|]; [|auto].
    destruct (decide (i = 0)%nat) as [->|H0].
    { exfalso. change (Parent 0) with 0%nat in Hk. destruct (kle_total (g 0%nat) (g 0%nat)); congruence. }
    rewrite E. apply (kle_trans _ (g (Parent i))); [by apply not_le|]. apply Hc; auto; lia.
  - intros j Hj Hp. destruct (decide (j = i)) as [->|]; [destruct Hk; [lia|done]|auto].
Qed.

(** The root has the least key. *)
Lemma ordered_root (f : nat -> K) (n : nat) :
  ordered f n -> forall j, (j < n)%nat -> le (f 0%nat) (f j).
Proof.
  intros H j. induction j as [j IH] using lt_wf_ind. intros Hj.
  destruct (decide (j = 0)%nat) as [->|].
  - by destruct (kle_total (f 0%nat) (f 0%nat)).
  - pose proof (Parent_lt j ltac:(lia)). apply (kle_trans _ (f (Parent j))).
    + apply IH; lia.
    + apply H. lia.
Qed.
End Order.

(** ** The heap represents a finite map of its nodes *)

Section Refinement.
Context {K D : Type} `{Inhabited K}.
Variable kle : K -> K -> bool.
Hypothesis kle_total : forall a b, kle a b = true \/ kle b a = true.
Hypothesis kle_trans : forall a b c, kle a b = true -> kle b c = true -> kle a c = true.
Variable gen_key : D -> Z -> K.

Abbreviation heap := (heap (K:=K) (D:=D)).
Implicit Type h : heap.

(** The array is big enough, and every used entry points to a node that knows
    its position. *)
Record wf h : Prop := {
  wf_size : length (nodes h) = size h;
  wf_pos : (0 < size h)%nat;
  wf_last : (last h <= size h)%nat;
  wf_nodes : forall i, (i < last h)%nat -> exists p n, node_at h i = Some (p, n) /\ id n = i
}.

Definition keyf h (i : nat) : K :=
  match node_at h i with Some (_, n) => key n | None => inhabitant end.

(** The heap holds exactly the nodes [m], by address. *)
Definition holds h (m : gmap positive (K * D)) : Prop :=
  forall p kd, m !! p = Some kd
    <-> exists i n, (i < last h)%nat /\ node_at h i = Some (p, n) /\ kd = (key n, data n).

Definition represents h (m : gmap positive (K * D)) : Prop :=
  wf h /\ ordered kle (keyf h) (last h) /\ holds h m.

Definition kd_of (n : heap_node (K:=K) (D:=D)) : K * D := (key n, data n).

(** The same nodes, possibly elsewhere in the array. *)
Record same h h' : Prop := {
  same_last : last h' = last h;
  same_size : size h' = size h;
  same_age : age h' = age h;
  same_store : forall p, kd_of <$> store h' !! p = kd_of <$> store h !! p;
  same_member : forall p, (exists i n, (i < last h)%nat /\ node_at h i = Some (p, n))
                          <-> (exists i n, (i < last h)%nat /\ node_at h' i = Some (p, n))
}.

Lemma same_refl h : same h h.
Proof. by split. Qed.

Lemma same_trans h1 h2 h3 : same h1 h2 -> same h2 h3 -> same h1 h3.
Proof.
  intros [L1 S1 A1 T1 M1] [L2 S2 A2 T2 M2]. split; try congruence.
  intros p. rewrite M1. rewrite L1 in M2. apply M2.
Qed.

Lemma node_at_inv h (i : nat) (p : positive) (n : heap_node) :
  node_at h i = Some (p, n) -> nodes h !! i = Some (Some p) /\ store h !! p = Some n.
Proof.
  unfold node_at. destruct (nodes h !! i) as [[q|]|]; try done.
  intros (n' & E & [= -> ->])%fmap_Some. done.
Qed.

Lemma node_at_intro h (i : nat) (p : positive) (n : heap_node) :
  nodes h !! i = Some (Some p) -> store h !! p = Some n -> node_at h i = Some (p, n).
Proof. unfold node_at. by intros -> ->. Qed.

Lemma wf_id h (i : nat) (p : positive) (n : heap_node) :
  wf h -> (i < last h)%nat -> node_at h i = Some (p, n) -> id n = i.
Proof.
  intros Hwf Hi E. destruct (wf_nodes h Hwf i Hi) as (p' & n' & E' & Hid). congruence.
Qed.

(** Distinct positions hold distinct pointers. *)
Lemma wf_inj h (i j : nat) (p : positive) (n n' : heap_node) :
  wf h -> (i < last h)%nat -> (j < last h)%nat ->
  node_at h i = Some (p, n) -> node_at h j = Some (p, n') -> i = j.
Proof.
  intros Hwf Hi Hj E1 E2.
  rewrite <- (wf_id h i p n), <- (wf_id h j p n') by done.
  apply node_at_inv in E1 as [_ E1], E2 as [_ E2]. congruence.
Qed.

Lemma exist_spec h (i : nat) : wf h -> _heap_node_exist h i = (i <? last h)%nat.
Proof.
  intros Hwf. unfold _heap_node_exist.
  destruct (Nat.ltb_spec i (last h)) as [Hi|Hi].
  - destruct (wf_nodes h Hwf i Hi) as (p & n & E & _). apply node_at_inv in E as [-> _].
    destruct (Nat.leb_spec (last h) i); [lia|done].
  - destruct (Nat.leb_spec (last h) i); [done|lia].
Qed.

(** Exchanging two nodes. *)
Lemma swap_spec h (i j : nat) (p1 p2 : positive) (n1 n2 : heap_node) :
  wf h -> (i < last h)%nat -> (j < last h)%nat ->
  node_at h i = Some (p1, n1) -> node_at h j = Some (p2, n2) ->
  exists h', _heap_swap_element h p1 p2 = Some h'
  /\ wf h' /\ same h h'
  /\ node_at h' i = Some (p2, Node (key n2) (data n2) i)
  /\ node_at h' j = Some (p1, Node (key n1) (data n1) j)
  /\ (forall k, (k < last h)%nat -> k <> i -> k <> j -> node_at h' k = node_at h k).
Proof.
  intros Hwf Hi Hj E1 E2.
  pose proof (wf_id h i p1 n1 Hwf Hi E1) as I1. pose proof (wf_id h j p2 n2 Hwf Hj E2) as I2.
  pose proof (node_at_inv _ _ _ _ E1) as [A1 S1]. pose proof (node_at_inv _ _ _ _ E2) as [A2 S2].
  pose proof (wf_size h Hwf) as Hsz. pose proof (wf_last h Hwf) as Hl.
  destruct (decide (i = j)) as [<-|Hij].
  - assert (p2 = p1) as -> by congruence. assert (n2 = n1) as -> by congruence.
    assert (E : node_at h i = Some (p1, Node (key n1) (data n1) i))
      by (rewrite E1, <- I1; by destruct n1).
    exists h. split_and!; auto using same_refl.
    unfold _heap_swap_element, put_id, put_node. rewrite S1. simpl.
    rewrite ?S1. simpl. rewrite lookup_insert_eq. simpl. rewrite insert_insert_eq.
    replace (Node (key n1) (data n1) (id n1)) with n1 by (by destruct n1).
    rewrite (insert_id (store h) p1 n1 S1). rewrite I1.
    destruct (Nat.ltb_spec i (length (nodes h))); [|lia]. simpl.
    rewrite length_insert. destruct (Nat.ltb_spec i (length (nodes h))); [|lia].
    rewrite !(list_insert_id (nodes h) i (Some p1)) by done. by destruct h.
  - assert (Hp : p1 <> p2) by (intros ->; apply Hij; by eapply wf_inj).
    set (m' := <[p2:=Node (key n2) (data n2) i]> (<[p1:=Node (key n1) (data n1) j]> (store h))).
    set (l' := <[i:=Some p2]> (<[j:=Some p1]> (nodes h))).
    set (h' := HeapRec l' m' (last h) (size h) (age h)).
    assert (N1 : node_at h' i = Some (p2, Node (key n2) (data n2) i)).
    { apply node_at_intro; simpl.
      - unfold l'. apply list_lookup_insert_eq. rewrite length_insert. lia.
      - apply lookup_insert_eq. }
    assert (N2 : node_at h' j = Some (p1, Node (key n1) (data n1) j)).
    { apply node_at_intro; simpl.
      - unfold l'. rewrite list_lookup_insert_ne by done. apply list_lookup_insert_eq. lia.
      - unfold m'. rewrite lookup_insert_ne by done. apply lookup_insert_eq. }
    assert (N3 : forall k, (k < last h)%nat -> k <> i -> k <> j -> node_at h' k = node_at h k).
    { intros k Hk Hki Hkj. destruct (wf_nodes h Hwf k Hk) as (p & n & E & _). rewrite E.
      pose proof (node_at_inv _ _ _ _ E) as [A S].
      apply node_at_intro; simpl.
      - unfold l'. by rewrite !list_lookup_insert_ne.
      - unfold m'. rewrite !lookup_insert_ne; [done| |].
        + intros ->. apply Hki. by eapply wf_inj.
        + intros ->. apply Hkj. by eapply wf_inj. }
    exists h'. split_and!; auto.
    + unfold _heap_swap_element, put_id, put_node. rewrite S1, S2. simpl.
      rewrite ?S1. simpl. rewrite lookup_insert_ne, S2 by done. simpl. rewrite I1, I2.
      destruct (Nat.ltb_spec j (length (nodes h))); [|lia]. simpl.
      rewrite length_insert. destruct (Nat.ltb_spec i (length (nodes h))); [|lia]. done.
    + split; simpl; [unfold l'; by rewrite !length_insert|by apply wf_pos|done|].
      intros k Hk. destruct (decide (k = i)) as [->|]; [by eauto|].
      destruct (decide (k = j)) as [->|]; [by eauto|]. rewrite N3 by done. by apply wf_nodes.
    + split; simpl; auto.
      * intros p. unfold m'. destruct (decide (p = p2)) as [->|]; [by rewrite lookup_insert_eq, S2|].
        rewrite lookup_insert_ne by done.
        destruct (decide (p = p1)) as [->|]; [by rewrite lookup_insert_eq, S1|].
        by rewrite lookup_insert_ne.
      * intros p. split; intros (k & n & Hk & E).
        -- destruct (decide (k = i)) as [->|]; [assert (p = p1) as -> by congruence; by eauto|].
           destruct (decide (k = j)) as [->|]; [assert (p = p2) as -> by congruence; by eauto|].
           exists k, n. by rewrite N3.
        -- destruct (decide (k = i)) as [->|]; [assert (p = p2) as -> by congruence; by eauto|].
           destruct (decide (k = j)) as [->|]; [assert (p = p1) as -> by congruence; by eauto|].
           exists k, n. by rewrite <- N3.
Qed.

Lemma keyf_at h (i : nat) (p : positive) (n : heap_node) :
  node_at h i = Some (p, n) -> keyf h i = key n.
Proof. unfold keyf. by intros ->. Qed.

Lemma swap_keyf h h' (i j : nat) (p1 p2 : positive) (n1 n2 : heap_node) :
  node_at h i = Some (p1, n1) -> node_at h j = Some (p2, n2) ->
  node_at h' i = Some (p2, Node (key n2) (data n2) i) ->
  node_at h' j = Some (p1, Node (key n1) (data n1) j) ->
  (forall k, (k < last h)%nat -> k <> i -> k <> j -> node_at h' k = node_at h k) ->
  forall k, (k < last h)%nat -> keyf h' k = swapf (keyf h) i j k.
Proof.
  intros E1 E2 N1 N2 N3 k Hk. unfold swapf.
  destruct (Nat.eqb_spec k i) as [->|]; [by rewrite (keyf_at _ _ _ _ N1), (keyf_at _ _ _ _ E2)|].
  destruct (Nat.eqb_spec k j) as [->|]; [by rewrite (keyf_at _ _ _ _ N2), (keyf_at _ _ _ _ E1)|].
  unfold keyf. by rewrite N3.
Qed.

Lemma ify_up_spec (fuel : nat) : forall h (elm : positive) (i : nat) (n : heap_node),
  wf h -> (i < last h)%nat -> node_at h i = Some (elm, n) -> (i < fuel)%nat ->
  up_ok kle (keyf h) (last h) i ->
  exists h', _heap_ify_up kle fuel h elm = Some h' /\ wf h' /\ same h h'
             /\ ordered kle (keyf h') (last h').
Proof.
  induction fuel as [|fuel IH]; intros h elm i n Hwf Hi E Hf Hup; [lia|].
  pose proof (node_at_inv _ _ _ _ E) as [_ S]. pose proof (wf_id _ _ _ _ Hwf Hi E) as Hid.
  cbn [_heap_ify_up]. rewrite S. simpl. rewrite Hid.
  destruct (Nat.ltb_spec 0 i) as [H0|H0].
  - pose proof (Parent_lt i H0) as Hpl.
    destruct (wf_nodes h Hwf (Parent i) ltac:(lia)) as (pp & np & Ep & _). rewrite Ep. simpl.
    destruct (kle (key np) (key n)) eqn:Ek.
    + exists h. split_and!; auto using same_refl. apply (up_done kle _ _ i Hup).
      right. by rewrite (keyf_at _ _ _ _ Ep), (keyf_at _ _ _ _ E).
    + destruct (swap_spec h (Parent i) i pp elm np n Hwf ltac:(lia) Hi Ep E)
        as (h' & Es & Hwf' & Hsame & N1 & N2 & N3).
      rewrite Es. simpl.
      destruct (IH h' elm (Parent i) _ Hwf' ltac:(rewrite (same_last _ _ Hsame); lia) N1 ltac:(lia))
        as (h2 & E2 & Hwf2 & Hs2 & Ho2).
      { rewrite (same_last _ _ Hsame).
        eapply up_ok_ext; [|lia|].
        - intros x Hx. rewrite (swap_keyf h h' i (Parent i) elm pp n np E Ep N2 N1); [reflexivity| |done].
          intros k Hk Hk1 Hk2. by apply N3.
        - apply up_step; auto. by rewrite (keyf_at _ _ _ _ Ep), (keyf_at _ _ _ _ E). }
      exists h2. split_and!; auto. by eapply same_trans.
  - exists h. split_and!; auto using same_refl. apply (up_done kle _ _ i Hup). left. lia.
Qed.

Lemma ify_down_spec (fuel : nat) : forall h (elm : positive) (i : nat) (n : heap_node),
  wf h -> (i < last h)%nat -> node_at h i = Some (elm, n) -> (last h < fuel + i)%nat ->
  down_ok kle (keyf h) (last h) i ->
  exists h', _heap_ify_down kle fuel h elm = Some h' /\ wf h' /\ same h h'
             /\ ordered kle (keyf h') (last h').
Proof.
  induction fuel as [|fuel IH]; intros h elm i n Hwf Hi E Hf Hdown; [lia|].
  pose proof (node_at_inv _ _ _ _ E) as [_ S]. pose proof (wf_id _ _ _ _ Hwf Hi E) as Hid.
  cbn [_heap_ify_down]. rewrite S. simpl. rewrite Hid, !exist_spec by done.
  assert (Hkids : forall j, (0 < j)%nat -> Parent j = i -> j = Left i \/ j = Right i)
    by (intros j Hj <-; by apply Parent_child).
  destruct (Nat.ltb_spec (Left i) (last h)) as [Hl|Hl]; simpl.
  2:{ destruct (Nat.ltb_spec (Right i) (last h)) as [Hr|Hr]; [unfold Left, Right in *; lia|].
      exists h. split_and!; auto using same_refl. apply (down_done kle _ _ i Hdown).
      intros j Hj Ej. destruct (Hkids j ltac:(lia) Ej) as [-> | ->]; lia. }
  destruct (wf_nodes h Hwf (Left i) Hl) as (pl & nl & El & _). rewrite El. simpl.
  assert (Hkid : exists c kid nk, (0 < c < last h)%nat /\ Parent c = i
    /\ node_at h c = Some (kid, nk)
    /\ (if negb (Right i <? last h)%nat then Some (pl, nl)
        else '(pr, nr) ← node_at h (Right i);
             Some (if klt kle (key nr) (key nl) then (pr, nr) else (pl, nl))) = Some (kid, nk)
    /\ (forall j, (0 < j < last h)%nat -> Parent j = i -> kle (keyf h c) (keyf h j) = true)).
  { destruct (Nat.ltb_spec (Right i) (last h)) as [Hr|Hr]; simpl.
    - destruct (wf_nodes h Hwf (Right i) Hr) as (pr & nr & Er & _). rewrite Er. simpl.
      unfold klt. destruct (kle (key nl) (key nr)) eqn:Ek; simpl.
      + exists (Left i), pl, nl. split_and!; auto using Parent_Left; [unfold Left; lia|].
        intros j Hj Ej. destruct (Hkids j ltac:(lia) Ej) as [-> | ->];
          rewrite ?(keyf_at _ _ _ _ El), ?(keyf_at _ _ _ _ Er); [|done].
        by destruct (kle_total (key nl) (key nl)).
      + exists (Right i), pr, nr. split_and!; auto using Parent_Right; [unfold Right; lia|].
        intros j Hj Ej. destruct (Hkids j ltac:(lia) Ej) as [-> | ->];
          rewrite ?(keyf_at _ _ _ _ El), ?(keyf_at _ _ _ _ Er).
        * destruct (kle_total (key nl) (key nr)); congruence.
        * by destruct (kle_total (key nr) (key nr)).
    - exists (Left i), pl, nl. split_and!; auto using Parent_Left; [unfold Left; lia|].
      intros j Hj Ej. destruct (Hkids j ltac:(lia) Ej) as [-> | ->]; [|lia].
      by destruct (kle_total (keyf h (Left i)) (keyf h (Left i))). }
  destruct Hkid as (c & kid & nk & Hc & Ec & Ek & -> & Hmin). simpl.
  destruct (kle (key n) (key nk)) eqn:Ekk.
  - exists h. split_and!; auto using same_refl. apply (down_done kle _ _ i Hdown).
    intros j Hj Ej. apply (kle_trans _ (keyf h c)); [|by apply Hmin].
    by rewrite (keyf_at _ _ _ _ Ek), (keyf_at _ _ _ _ E).
  - destruct (swap_spec h c i kid elm nk n Hwf ltac:(lia) Hi Ek E)
      as (h' & Es & Hwf' & Hsame & N1 & N2 & N3).
    rewrite Es. simpl. pose proof (Parent_lt c ltac:(lia)).
    destruct (IH h' elm c _ Hwf' ltac:(rewrite (same_last _ _ Hsame); lia) N1
                ltac:(rewrite (same_last _ _ Hsame); lia))
      as (h2 & E2 & Hwf2 & Hs2 & Ho2).
    { rewrite (same_last _ _ Hsame).
      eapply down_ok_ext; [|lia|].
      - intros x Hx. rewrite (swap_keyf h h' c i kid elm nk n Ek E N1 N2 N3) by done. reflexivity.
      - apply down_step; auto. by rewrite (keyf_at _ _ _ _ Ek), (keyf_at _ _ _ _ E). }
    exists h2. split_and!; auto. by eapply same_trans.
Qed.

Lemma same_holds h h' (m : gmap positive (K * D)) : same h h' -> holds h m -> holds h' m.
Proof.
  intros Hs Hh p kd. rewrite (Hh p kd).
  assert (Hkd : forall i i' n n', node_at h i = Some (p, n) -> node_at h' i' = Some (p, n') ->
                kd_of n' = kd_of n).
  { intros i i' n n' [_ E]%node_at_inv [_ E']%node_at_inv.
    pose proof (same_store _ _ Hs p) as X. rewrite E, E' in X. simpl in X. congruence. }
  rewrite (same_last _ _ Hs).
  split; intros (i & n & Hi & E & ->).
  - destruct (proj1 (same_member _ _ Hs p)) as (i' & n' & Hi' & E'); [by eauto|].
    exists i', n'. split_and!; auto. specialize (Hkd _ _ _ _ E E'). unfold kd_of in Hkd. congruence.
  - destruct (proj2 (same_member _ _ Hs p)) as (i' & n' & Hi' & E'); [by eauto|].
    exists i', n'. split_and!; auto. specialize (Hkd _ _ _ _ E' E). unfold kd_of in Hkd. congruence.
Qed.

(** The end of [heap_delete] and [heap_update]: up if the parent is greater, then
    down. *)
Lemma restore_spec h (p : positive) (i : nat) (n : heap_node) (f : nat -> K) :
  wf h -> (i < last h)%nat -> node_at h i = Some (p, n) ->
  ordered kle f (last h) -> (forall x, (x < last h)%nat -> x <> i -> keyf h x = f x) ->
  exists pp pn h', node_at h (Parent i) = Some (pp, pn)
  /\ (h1 ← (if klt kle (key n) (key pn) then ify_up kle h p else Some h);
      ify_down kle h1 p) = Some h'
  /\ wf h' /\ same h h' /\ ordered kle (keyf h') (last h').
Proof.
  intros Hwf Hi E Hf Hg.
  assert (Hpi : (Parent i < last h)%nat).
  { destruct (decide (i = 0)%nat) as [->|]; [done|]. pose proof (Parent_lt i ltac:(lia)). lia. }
  destruct (wf_nodes h Hwf (Parent i) Hpi) as (pp & pn & Ep & _).
  destruct (changed_ok kle kle_total kle_trans f
              (fun x => if decide (x < last h)%nat then keyf h x else f x) (last h) i Hi Hf) as [Hup Hdown].
  { intros x Hx. case_decide; auto. }
  cbv beta in Hup, Hdown. rewrite !decide_True in Hup by done. rewrite !decide_True in Hdown by done.
  rewrite (keyf_at _ _ _ _ E), (keyf_at _ _ _ _ Ep) in *.
  assert (Hext : forall x, (x < last h)%nat ->
    keyf h x = (fun x => if decide (x < last h)%nat then keyf h x else f x) x)
    by (intros x Hx; cbv beta; by rewrite decide_True).
  exists pp, pn. unfold klt. destruct (kle (key pn) (key n)) eqn:Ek; simpl.
  - destruct (ify_down_spec (S (last h)) h p i n Hwf Hi E ltac:(lia)) as (h' & E1 & W & Sm & O).
    { eapply down_ok_ext; [exact Hext|done|]. auto. }
    exists h'. split_and!; auto.
  - destruct (ify_up_spec (S (last h)) h p i n Hwf Hi E ltac:(lia)) as (h1 & E1 & W1 & Sm1 & O1).
    { eapply up_ok_ext; [exact Hext|done|]. auto. }
    unfold ify_up. rewrite E1. simpl.
    destruct (proj1 (same_member _ _ Sm1 p)) as (i1 & n1 & Hi1 & En1); [by eauto|].
    rewrite <- (same_last _ _ Sm1) in Hi1.
    destruct (ify_down_spec (S (last h1)) h1 p i1 n1 W1 Hi1 En1 ltac:(lia)) as (h' & E2 & W & Sm & O).
    { by apply ordered_down. }
    exists h'. split_and!; auto. by eapply same_trans.
Qed.

Lemma grow_spec h :
  wf h -> let h' := if _heap_should_grow h then _heap_grow h else h in
  length (nodes h') = size h' /\ (last h < size h')%nat /\ last h' = last h
  /\ age h' = age h /\ store h' = store h
  /\ (forall i, (i < last h)%nat -> nodes h' !! i = nodes h !! i).
Proof.
  intros Hwf. destruct Hwf as [Hs Hp Hl _]. unfold _heap_should_grow.
  destruct (Nat.leb_spec (size h) (last h)); [|split_and!; auto].
  assert (Hn : (size h < (if (Threshold <? size h)%nat then size h * 3 / 2 else size h * 2))%nat).
  { destruct (Nat.ltb_spec Threshold (size h)); [|lia].
    pose proof (Nat.div_mod_eq (size h * 3) 2). pose proof (Nat.mod_upper_bound (size h * 3) 2).
    assert (2 <= size h)%nat by (unfold Threshold in *; lia). lia. }
  unfold _heap_grow. set (ns := if (Threshold <? size h)%nat then _ else _) in *. clearbody ns.
  simpl. rewrite length_app, length_replicate.
  split_and!; auto; try lia.
  intros i Hi. rewrite lookup_app_l by lia. done.
Qed.

Lemma insert_spec h (m : gmap positive (K * D)) (elm : positive) (dat : D) :
  represents h m -> store h !! elm = None ->
  exists h', heap_insert kle gen_key h elm dat = Some h'
  /\ represents h' (<[elm:=(gen_key dat (age h), dat)]> m) /\ age h' = age h.
Proof.
  intros (Hwf & Ho & Hh) Hnew. unfold heap_insert.
  pose proof (grow_spec h Hwf) as Hg. cbv zeta in Hg.
  set (h1 := if _heap_should_grow h then _heap_grow h else h) in *.
  destruct Hg as (G1 & G2 & G3 & G4 & G5 & G6). rewrite G3, G4, G5.
  set (n := Node (gen_key dat (age h)) dat (last h)).
  unfold put_node. simpl. rewrite G3.
  destruct (Nat.ltb_spec (last h) (length (nodes h1))); [|lia]. simpl. rewrite G3.
  set (h2 := set_last _ _). assert (L2 : last h2 = S (last h)) by done.
  assert (N1 : node_at h2 (last h) = Some (elm, n)).
  { apply node_at_intro; simpl; [apply list_lookup_insert_eq; lia|apply lookup_insert_eq]. }
  assert (N2 : forall i, (i < last h)%nat -> node_at h2 i = node_at h i).
  { intros i Hi. destruct (wf_nodes h Hwf i Hi) as (p & n' & E & _). rewrite E.
    apply node_at_inv in E as [A S]. apply node_at_intro; simpl.
    - rewrite list_lookup_insert_ne by lia. by rewrite G6.
    - rewrite lookup_insert_ne; [done|]. intros ->. congruence. }
  assert (W2 : wf h2).
  { split; simpl; [by rewrite length_insert|lia|lia|].
    intros i Hi. destruct (decide (i = last h)) as [->|]; [by exists elm, n|].
    rewrite N2 by lia. apply wf_nodes; [done|lia]. }
  destruct (ify_up_spec (S (last h2)) h2 elm (last h) n W2 ltac:(lia) N1 ltac:(lia))
    as (h3 & E3 & W3 & S3 & O3).
  { split; intros j Hj.
    - intros Hne. pose proof (Parent_lt j ltac:(lia)). unfold keyf. rewrite !N2 by lia.
      apply Ho. lia.
    - intros Ej _. exfalso. pose proof (Parent_lt j ltac:(lia)). lia. }
  exists h3. split_and!; [exact E3| |by rewrite (same_age _ _ S3)].
  split_and!; [done|done|]. apply (same_holds h2 h3 _ S3). intros p kd.
  destruct (decide (p = elm)) as [->|Hne].
  - rewrite lookup_insert_eq. split.
    + intros [= <-]. exists (last h), n. split_and!; [lia|done|done].
    + intros (i & n' & Hi & E & ->). apply node_at_inv in N1 as [_ S1], E as [_ S2].
      rewrite S1 in S2. by injection S2 as <-.
  - rewrite lookup_insert_ne by done. rewrite (Hh p kd).
    split; intros (i & n' & Hi & E & ->); exists i, n'.
    + rewrite N2 by done. split_and!; [lia|done|done].
    + destruct (decide (i = last h)) as [->|]; [congruence|].
      rewrite N2 in E by lia. split_and!; [lia|done|done].
Qed.

Lemma update_spec h (m : gmap positive (K * D)) (elm : positive) (k : K) (d dat : D) :
  represents h m -> m !! elm = Some (k, d) ->
  exists h', heap_update kle gen_key h elm dat = Some (d, h')
  /\ represents h' (<[elm:=(gen_key dat (age h), dat)]> m) /\ age h' = age h.
Proof.
  intros (Hwf & Ho & Hh) Hm. apply Hh in Hm as (i & n & Hi & E & [= -> ->]).
  pose proof (node_at_inv _ _ _ _ E) as [A S]. pose proof (wf_id _ _ _ _ Hwf Hi E) as Hid.
  unfold heap_update. rewrite S. simpl. rewrite lookup_insert_eq. simpl. rewrite Hid.
  set (n' := Node (gen_key dat (age h)) dat i).
  set (h1 := set_store h _).
  assert (N1 : node_at h1 i = Some (elm, n')) by (apply node_at_intro; [done|apply lookup_insert_eq]).
  assert (N2 : forall j, (j < last h)%nat -> j <> i -> node_at h1 j = node_at h j).
  { intros j Hj Hne. destruct (wf_nodes h Hwf j Hj) as (p & nj & Ej & _). rewrite Ej.
    pose proof (node_at_inv _ _ _ _ Ej) as [Aj Sj]. apply node_at_intro; simpl; [done|].
    rewrite lookup_insert_ne; [done|]. intros ->. apply Hne. by eapply wf_inj. }
  assert (W1 : wf h1).
  { destruct Hwf. split; auto. intros j Hj. destruct (decide (j = i)) as [->|]; [by exists elm, n'|].
    rewrite N2 by done. auto. }
  destruct (restore_spec h1 elm i n' (keyf h) W1 Hi N1 Ho) as (pp & pn & h2 & Ep & E2 & W2 & S2 & O2).
  { intros x Hx Hne. unfold keyf. by rewrite N2. }
  rewrite Ep. simpl. simpl in E2.
  assert (Er : ∀ (x : option heap), x ≫= (λ h1, ify_down kle h1 elm) = Some h2 ->
    x ≫= (λ h3, ify_down kle h3 elm ≫= λ h4, Some (data n, h4)) = Some (data n, h2)).
  { intros [x|]; simpl; [|done]. intros ->. done. }
  exists h2. split_and!; [by apply Er| |by rewrite (same_age _ _ S2)].
  split_and!; [done|done|]. apply (same_holds h1 h2 _ S2). intros p kd.
  destruct (decide (p = elm)) as [->|Hne].
  - rewrite lookup_insert_eq. split.
    + intros [= <-]. by exists i, n'.
    + intros (j & nj & Hj & Ej & ->). apply node_at_inv in N1 as [_ S1'], Ej as [_ S2'].
      rewrite S1' in S2'. by injection S2' as <-.
  - rewrite lookup_insert_ne by done. rewrite (Hh p kd).
    split; intros (j & nj & Hj & Ej & ->); exists j, nj;
      (destruct (decide (j = i)) as [->|]; [congruence|]); rewrite N2 in * by done; done.
Qed.

(** Removing the last node of the array. *)
Lemma extractlast_spec h (p : positive) (n : heap_node) :
  wf h -> (0 < last h)%nat -> node_at h (last h - 1) = Some (p, n) ->
  let h' := set_store (set_last h (last h - 1)) (delete p (store h)) in
  heap_extractlast h = Some (data n, h') /\ wf h'
  /\ (forall k, (k < last h - 1)%nat -> node_at h' k = node_at h k /\ forall n', node_at h k <> Some (p, n')).
Proof.
  intros Hwf H0 E h'. pose proof (node_at_inv _ _ _ _ E) as [A S].
  assert (Hk : forall k, (k < last h - 1)%nat -> node_at h' k = node_at h k /\
                 forall n', node_at h k <> Some (p, n')).
  { intros k Hk. destruct (wf_nodes h Hwf k ltac:(lia)) as (q & nq & Eq & _).
    assert (Hne : q <> p).
    { intros ->. assert (k = last h - 1)%nat; [|lia]. eapply wf_inj; eauto; lia. }
    split; [|intros n' E'; rewrite Eq in E'; congruence].
    pose proof (node_at_inv _ _ _ _ Eq) as [Aq Sq]. rewrite Eq.
    apply node_at_intro; simpl; [done|]. by rewrite lookup_delete_ne. }
  split_and!; [|destruct Hwf; split; simpl; auto; try lia|done].
  - unfold heap_extractlast. rewrite exist_spec by done.
    destruct (Nat.ltb_spec (last h - 1) (last h)); [|lia].
    destruct (Nat.ltb_spec 0 (last h)); [|lia]. simpl.
    change (node_at (set_last h (last h - 1)) (last h - 1)) with (node_at h (last h - 1)).
    by rewrite E.
  - intros k Hki. destruct (Hk k Hki) as [Ek _]. fold h'. rewrite Ek. apply wf_nodes0. lia.
Qed.

Lemma delete_spec h (m : gmap positive (K * D)) (elm : positive) (k : K) (d : D) :
  represents h m -> m !! elm = Some (k, d) ->
  exists h', heap_delete kle h elm = Some (d, h') /\ represents h' (delete elm m)
  /\ age h' = age h.
Proof.
  intros (Hwf & Ho & Hh) Hm. apply Hh in Hm as (i & n & Hi & E & [= -> ->]).
  pose proof (node_at_inv _ _ _ _ E) as [_ S].
  destruct (wf_nodes h Hwf (last h - 1) ltac:(lia)) as (lp & ln & El & _).
  destruct (swap_spec h (last h - 1) i lp elm ln n Hwf ltac:(lia) Hi El E)
    as (h1 & E1 & W1 & S1 & N1 & N2 & N3).
  pose proof (same_last _ _ S1) as L1.
  destruct (extractlast_spec h1 elm _ W1 ltac:(lia) ltac:(rewrite L1; exact N1)) as (E2 & W2 & N4).
  rewrite L1 in E2, W2, N4. set (h2 := set_store _ _) in *.
  assert (H2 : holds h2 (delete elm m)).
  { intros p kd. rewrite lookup_delete_Some, (same_holds _ _ _ S1 Hh p kd).
    change (last h2) with (last h - 1)%nat. rewrite L1. split.
    - intros [Hne (j & nj & Hj & Ej & ->)]. exists j, nj.
      destruct (decide (j = last h - 1)%nat) as [->|]; [congruence|].
      split_and!; [lia| |done]. destruct (N4 j ltac:(lia)) as [-> _]. done.
    - intros (j & nj & Hj & Ej & ->). destruct (N4 j Hj) as [Eq Hn]. rewrite Eq in Ej.
      split; [intros ->; by apply (Hn nj)|]. exists j, nj. split_and!; auto. lia. }
  assert (Ho' : ordered kle (keyf h) (last h2)) by (intros j Hj; apply Ho; simpl in Hj; lia).
  assert (Hk2 : forall x, (x < last h2)%nat -> x <> i -> keyf h2 x = keyf h x).
  { intros x Hx Hne. unfold keyf. simpl in Hx. destruct (N4 x Hx) as [-> _].
    by rewrite N3 by lia. }
  unfold heap_delete. rewrite S. simpl. rewrite exist_spec by done.
  destruct (Nat.ltb_spec (last h - 1) (last h)); [|lia].
  destruct (Nat.ltb_spec 0 (last h)); [|lia]. simpl. rewrite El. simpl. rewrite E1. simpl.
  rewrite E2. simpl.
  assert (A2 : age h2 = age h) by (simpl; apply (same_age _ _ S1)).
  assert (Heq : elm = lp <-> i = (last h - 1)%nat).
  { split; [|intros ->; congruence]. intros Hx.
    apply (wf_inj h i (last h - 1) elm n ln Hwf Hi ltac:(lia) E). congruence. }
  case_bool_decide as Hd.
  - exists h2. split_and!; auto. split_and!; auto.
    eapply ordered_ext; [|exact Ho']. intros x Hx. apply Hk2; [done|].
    apply Heq in Hd. simpl in Hx. lia.
  - assert (Hi2 : (i < last h2)%nat) by (simpl; assert (i <> last h - 1)%nat by tauto; lia).
    assert (Nl : node_at h2 i = Some (lp, Node (key ln) (data ln) i))
      by (destruct (N4 i Hi2) as [-> _]; done).
    destruct (Nat.ltb_spec 0 (last h - 1)); [|simpl in Hi2; lia].
    destruct (restore_spec h2 lp i _ (keyf h) W2 Hi2 Nl Ho' Hk2)
      as (pp & pn & h3 & Ep & E3 & W3 & S3 & O3).
    pose proof (node_at_inv _ _ _ _ Nl) as [_ Sl]. change (store h2) with (delete elm (store h1)) in Sl.
    rewrite Sl. simpl. rewrite Ep. simpl. simpl in E3.
    exists h3. split_and!; [|split_and!; [done|done|by apply (same_holds h2)]|by rewrite (same_age _ _ S3)].
    destruct (if klt kle (key ln) (key pn) then ify_up kle h2 lp else Some h2) as [x|]; [|done].
    simpl in E3 |- *. by rewrite E3.
Qed.

(** C31: the heap implements a finite map from nodes to keys and data: a new heap is
    empty; inserting a fresh node adds it under the key generated for its data;
    deleting or updating a node by its address, wherever it has moved to, removes
    or re-keys that node only and returns its old data; no assertion fails, no
    access leaves the array (which grows when it is full), and the heap order and
    the positions stored in the nodes are kept. *)
Theorem heap_refines (initSize : Z) h (m : gmap positive (K * D)) (Hrep : represents h m) :
  represents (new_heap initSize) ∅
  /\ (forall elm dat, store h !! elm = None ->
      exists h', heap_insert kle gen_key h elm dat = Some h'
      /\ represents h' (<[elm:=(gen_key dat (age h), dat)]> m))
  /\ (forall elm k d, m !! elm = Some (k, d) ->
      (exists h', heap_delete kle h elm = Some (d, h') /\ represents h' (delete elm m))
      /\ forall dat, exists h', heap_update kle gen_key h elm dat = Some (d, h')
         /\ represents h' (<[elm:=(gen_key dat (age h), dat)]> m)).
Proof.
  split_and!.
  - split_and!.
    + split; simpl; rewrite ?length_replicate; auto; try lia.
      destruct (Z.leb_spec initSize 0); unfold MinSize; lia.
    + intros j Hj. simpl in Hj. lia.
    + intros p kd. rewrite lookup_empty. split; [done|]. intros (i & n & Hi & _). simpl in Hi. lia.
  - intros elm dat Hnew. destruct (insert_spec h m elm dat Hrep Hnew) as (h' & E & R & _). eauto.
  - intros elm k d Hm. split.
    + destruct (delete_spec h m elm k d Hrep Hm) as (h' & E & R & _). eauto.
    + intros dat. destruct (update_spec h m elm k d dat Hrep Hm) as (h' & E & R & _). eauto.
Qed.

(** Extracting takes a node of least key out of the heap and leaves the others;
    an empty heap gives NULL. *)
Lemma heap_extractmin_least h (m : gmap positive (K * D)) (Hrep : represents h m) :
  (m = ∅ /\ heap_extractmin kle h = Some (None, h))
  \/ exists p k d h', m !! p = Some (k, d)
     /\ (forall q k' d', m !! q = Some (k', d') -> kle k k' = true)
     /\ heap_peepmin h = Some d /\ heap_peepminkey h = Some k
     /\ heap_extractmin kle h = Some (Some d, h') /\ represents h' (delete p m).
Proof.
  pose proof Hrep as (Hwf & Ho & Hh). unfold heap_extractmin, heap_peepmin, heap_peepminkey.
  destruct (Nat.eqb_spec (last h) 0) as [H0|H0].
  - left. split; [|done]. apply map_empty. intros p. destruct (m !! p) as [kd|] eqn:E; [|done].
    apply Hh in E as (i & n & Hi & _). lia.
  - right. destruct (wf_nodes h Hwf 0%nat ltac:(lia)) as (p & n & E & _).
    assert (Hm : m !! p = Some (key n, data n)) by (apply Hh; exists 0%nat, n; split_and!; [lia|done|done]).
    destruct (delete_spec h m p _ _ Hrep Hm) as (h' & Ed & Hr & _).
    exists p, (key n), (data n), h'. rewrite E, exist_spec by done. simpl.
    destruct (Nat.ltb_spec 0 (last h)); [|lia]. rewrite Ed. simpl. split_and!; auto.
    intros q k' d' Hq. apply Hh in Hq as (j & nj & Hj & Ej & [= -> ->]).
    rewrite <- (keyf_at _ _ _ _ E), <- (keyf_at _ _ _ _ Ej).
    apply (ordered_root kle kle_total kle_trans _ (last h) Ho). done.
Qed.
End Refinement.

(** A queue of numbers, each its own key. *)
Definition num_insert (h : heap) (p : positive) (z : Z) : option heap :=
  heap_insert Z.leb (fun (d : Z) (_ : Z) => d) h p z.

Definition num_heap : heap :=
  default (new_heap 1) (h ← num_insert (new_heap 1) 1 5; h ← num_insert h 2 3; num_insert h 3 4).

Lemma new_num_heap : represents Z.leb (new_heap (K:=Z) (D:=Z) 1) ∅.
Proof.
  split_and!.
  - split; simpl; auto; lia.
  - intros j Hj. simpl in Hj. lia.
  - intros p kd. rewrite lookup_empty. split; [done|]. intros (i & n & Hi & _). simpl in Hi. lia.
Qed.

Lemma heap_refines_witness :
  represents Z.leb (new_heap (K:=Z) (D:=Z) 1) ∅
  /\ exists h', num_insert (new_heap 1) 1 5 = Some h' /\ represents Z.leb h' {[1%positive := (5, 5)]}.
Proof.
  pose proof new_num_heap as R.
  destruct (heap_refines Z.leb ltac:(lia) ltac:(lia) (fun (d : Z) (_ : Z) => d) 1 _ _ R)
    as (H1 & H2 & _).
  split; [exact H1|]. exact (H2 1%positive 5 eq_refl).
Defined.

Lemma heap_extractmin_least_witness :
  heap_extractmin Z.leb (new_heap (K:=Z) (D:=Z) 1) = Some (None, new_heap 1)
  /\ (fst <$> heap_extractmin Z.leb num_heap) = Some (Some 3).
Proof.
  split; [|vm_compute; reflexivity].
  pose proof new_num_heap as R.
  destruct (heap_extractmin_least Z.leb ltac:(lia) ltac:(lia) _ _ R)
    as [[_ E]|(p & k & d & h' & Hm & _)]; [exact E|]. by rewrite lookup_empty in Hm.
Defined.
End Heap.
