(* ===== verification/P3Line.v ===== *)
(** * p3line: line input and output of the mail proxy

    v3.0/src/p3scan-mybox/src/getlinep3.c: lines are read from a descriptor
    without blocking, through a fixed buffer whose unread part survives from
    call to call; lines are written with [secure_write].  Pointers into the
    buffer are offsets, NULL is [None].  What [select], [read] and [write]
    answer is an argument. *)

From S2P Require Import Prelude CString.

(** ** Return values (getlinep3.h) *)
Definition GETLINE_OK : Z := 0.
Definition GETLINE_NOLINE : Z := 1.
Definition GETLINE_NEED_READ : Z := 2.
Definition GETLINE_EOF : Z := -1.
Definition GETLINE_ERR : Z := -2.
Definition GETLINE_TOO_LONG : Z := -3.
Definition GETLINE_PIPE : Z := -4.

Definition WRITELINE_LEADING_NONE : Z := 0.
Definition WRITELINE_LEADING_N : Z := 1.
Definition WRITELINE_LEADING_RN : Z := 2.

Definition GETLINE_LINE_INCOMPLETE : Z := -1.
Definition GETLINE_LINE_NULL : Z := -2.

Definition CR : Z := 13.
Definition LF : Z := 10.

(** ** Writing *)

(** A [write]: the bytes it took, or -1 with [EPIPE] or another error. *)
Inductive write_result := Wrote (n : Z) | Epipe | Eother.

Definition ret (w : write_result) : Z :=
  match w with Wrote n => n | _ => -1 end.

(** The loop of [secure_write]: what each [write] answers is given in turn; the
    result is the return value and the requests made, as offset and length. *)
Fixpoint write_loop (answers : list write_result) (written len : Z)
  : option Z * list (Z * Z) :=
  match answers with
  | [] => (None, [])
  | w :: answers' =>
      let rq := (written, len - written) in
      let i := ret w in
      if i <? len then
        match w with
        | Epipe => (Some GETLINE_PIPE, [rq])
        | _ =>
            if i <? 1 then (Some GETLINE_ERR, [rq])
            else
              let '(r, rqs) := write_loop answers' (written + i) (len - i) in
              (r, rq :: rqs)
        end
      else (Some written, [rq])
  end.

Definition secure_write (answers : list write_result) (len : Z) : option Z * list (Z * Z) :=
  if len =? 0 then (Some GETLINE_OK, [])
  else if len <? 1 then (Some GETLINE_ERR, [])
  else write_loop answers 0 len.

(** [writeline]: the text that is sent. *)
Definition writeline (leading : Z) (c : list Z) : list Z :=
  if leading =? WRITELINE_LEADING_NONE then c
  else if leading =? WRITELINE_LEADING_N then c ++ [LF]
  else c ++ [CR; LF].

(** ** Reading *)

Record linebuf := LineBuf {
  line : option nat;
  linelen : Z;
  buf : list Z;
  lmax : Z;
  len : Z;
  lineend : option nat;
  bufend : option nat;
  moredata : bool
}.

(** [linebuf_init], with the memory [malloc] returned, and [linebuf_zero]. *)
Definition linebuf_zero (l : linebuf) : linebuf :=
  LineBuf None GETLINE_LINE_NULL (buf l) (lmax l) 0 None None (moredata l).

Definition linebuf_init (memory : list Z) : linebuf :=
  linebuf_zero (LineBuf None 0 memory (Z.of_nat (length memory)) 0 None None false).

(** Bytes stored at an offset. *)
Definition blit (b : list Z) (off : nat) (data : list Z) : list Z :=
  take off b ++ data ++ drop (off + length data) b.

(** The loop over the buffer from [p] on: the end of the first line. *)
Fixpoint scan_line (fuel : nat) (b : list Z) (p : nat) (bufend : nat) (last_r : bool)
  : option (nat * bool) :=
  match fuel with
  | O => None
  | S fuel =>
      if (p <=? bufend)%nat then
        let c := nth p b 0 in
        if c =? CR then scan_line fuel b (S p) bufend true
        else if c =? LF then Some (p, last_r)
        else scan_line fuel b (S p) bufend false
      else None
  end.

(** What follows the reading: the first line of the buffer. *)
Definition find_line (l : linebuf) : Z * linebuf :=
  match
    match bufend l with
    | None => None
    | Some e => scan_line (S e) (buf l) 0 e false
    end with
  | Some (p, last_r) =>
      let b := <[p:=0]> (buf l) in
      let b := if last_r then <[(p - 1)%nat:=0]> b else b in
      (GETLINE_OK,
       LineBuf (line l) (strlen (cstr b)) b (lmax l) (len l) (Some p) (bufend l)
         (negb (bool_decide (Some p = bufend l))))
  | None =>
      (GETLINE_NOLINE,
       LineBuf (line l) GETLINE_LINE_INCOMPLETE (buf l) (lmax l) (len l) None (bufend l) false)
  end.

(** [getlinep3]: [ready] is the answer of [select], [data] what [read] returns for
    at most [maxread] bytes, nothing at the end of the input. *)
Definition getlinep3 (ready : Z) (read : Z -> list Z) (l : linebuf) : Z * linebuf :=
  if bool_decide (lineend l = bufend l) then
    let maxread := lmax l - 1 in
    if maxread <? 1 then (GETLINE_TOO_LONG, l)
    else if ready <? 1 then (GETLINE_NEED_READ, l)
    else
      let data := read maxread in
      if strlen data <? 1 then (GETLINE_EOF, l)
      else find_line (LineBuf (Some 0%nat) (linelen l) (blit (buf l) 0 data) (lmax l) (strlen data)
                        (lineend l) (Some (length data - 1)%nat) (moredata l))
  else
    match lineend l, bufend l with
    | Some e, Some b =>
        let n := (b - e)%nat in
        find_line (LineBuf (Some 0%nat) (linelen l) (blit (buf l) 0 (take n (drop (S e) (buf l))))
                     (lmax l) (Z.of_nat n) (lineend l) (Some (n - 1)%nat) (moredata l))
    | _, _ =>
        let maxread := lmax l - len l - 1 in
        if maxread <? 1 then
          (GETLINE_TOO_LONG,
           LineBuf (Some 0%nat) (if len l =? lmax l then lmax l - 1 else len l - 1) (buf l) (lmax l)
             0 None None (moredata l))
        else if ready <? 1 then (GETLINE_NEED_READ, l)
        else
          let data := read maxread in
          if strlen data <? 1 then
            (GETLINE_EOF,
             LineBuf (Some 0%nat) GETLINE_LINE_NULL (<[0%nat:=0]> (buf l)) (lmax l) (len l)
               (lineend l) (bufend l) false)
          else
            let n := len l + strlen data in
            find_line (LineBuf (Some 0%nat) (linelen l) (blit (buf l) (Z.to_nat (len l)) data) (lmax l)
                         n (lineend l) (Some (Z.to_nat n - 1)%nat) (moredata l))
    end.

(** ** What is not yet handed out *)

Definition pending (l : linebuf) : list Z :=
  match lineend l, bufend l with
  | Some e, Some b => take (b - e) (drop (S e) (buf l))
  | None, Some b => take (S b) (buf l)
  | _, None => []
  end.

Record wf (l : linebuf) : Prop := {
  wf_buf : Z.of_nat (length (buf l)) = lmax l;
  wf_max : 2 <= lmax l;
  wf_end : match lineend l, bufend l with
           | None, None => True
           | Some e, Some b => (e <= b < length (buf l))%nat
           | None, Some b => (S b < length (buf l))%nat /\ len l = Z.of_nat (S b)
                             /\ (LF ∉ take (S b) (buf l))
           | Some _, None => False
           end
}.

(** A line without the carriage return before its end. *)
Definition strip_cr (raw : list Z) : list Z :=
  match List.last raw 0 with
  | 13 => removelast raw
  | _ => raw
  end.

Example getline_ex :
  let l := linebuf_init (replicate 20 7) in
  let '(r1, l1) := getlinep3 1 (fun _ => bytes "ab") l in
  let '(r2, l2) := getlinep3 1 (fun _ => [13; 10; 99; 10; 100]) l1 in
  let '(r3, l3) := getlinep3 1 (fun _ => []) l2 in
  [r1; r2; r3] = [1; 0; 0] /\ cstr (buf l2) = bytes "ab" /\ cstr (buf l3) = bytes "c"
  /\ pending l3 = bytes "d".
Proof. vm_compute. done. Qed.

(** ** Facts on buffers *)

Lemma take_S_split (b : list Z) (p e : nat) (x : Z) :
  b !! p = Some x -> (p <= e)%nat ->
  take (S e) b = take p b ++ x :: take (e - p) (drop (S p) b).
Proof.
  intros H Hp. rewrite <- (take_drop p (take (S e) b)). f_equal.
  - rewrite take_take. f_equal. lia.
  - rewrite skipn_firstn_comm. rewrite (drop_S _ _ _ H).
    replace (S e - p)%nat with (S (e - p)) by lia. done.
Qed.

Lemma scan_line_spec (b : list Z) (e : nat) : (e < length b)%nat ->
  forall fuel p last_r, (S e - p <= fuel)%nat ->
  match scan_line fuel b p e last_r with
  | Some (q, r) =>
      (p <= q <= e)%nat /\ b !! q = Some LF
      /\ (forall i, (p <= i < q)%nat -> b !! i <> Some LF)
      /\ r = (if (q =? p)%nat then last_r else nth (q - 1) b 0 =? CR)
  | None => forall i, (p <= i <= e)%nat -> b !! i <> Some LF
  end.
Proof.
  intros He fuel; induction fuel as [|fuel IH]; intros p last_r Hf; simpl.
  { intros i Hi. lia. }
  destruct (Nat.leb_spec p e) as [Hp|Hp]; [|intros i Hi; lia].
  assert (Hb : b !! p = Some (nth p b 0)) by (destruct (lookup_lt_is_Some_2 b p ltac:(lia)) as [x Hx]; by rewrite (nth_lookup_Some _ _ _ _ Hx)).
  assert (Hstep : forall r, (nth p b 0 =? LF) = false -> r = (nth p b 0 =? CR) ->
    match scan_line fuel b (S p) e r with
    | Some (q, r') => (p <= q <= e)%nat /\ b !! q = Some LF
        /\ (forall i, (p <= i < q)%nat -> b !! i <> Some LF)
        /\ r' = (if (q =? p)%nat then last_r else nth (q - 1) b 0 =? CR)
    | None => forall i, (p <= i <= e)%nat -> b !! i <> Some LF
    end).
  { intros r Hc Hr. specialize (IH (S p) r ltac:(lia)).
    apply Z.eqb_neq in Hc.
    destruct (scan_line fuel b (S p) e r) as [[q r']|].
    - destruct IH as (H1 & H2 & H3 & H4).
      split_and!; [lia|lia|done| |].
      + intros i Hi. destruct (decide (i = p)) as [->|]; [congruence|apply H3; lia].
      + destruct (Nat.eqb_spec q p); [lia|]. rewrite H4.
        destruct (Nat.eqb_spec q (S p)) as [->|]; [|done].
        rewrite Hr. f_equal. f_equal. lia.
    - intros i Hi. destruct (decide (i = p)) as [->|]; [congruence|apply IH; lia]. }
  destruct (nth p b 0 =? CR) eqn:ECR.
  - apply Hstep; [|done]. apply Z.eqb_eq in ECR. by rewrite ECR.
  - destruct (nth p b 0 =? LF) eqn:ELF; [|by apply Hstep].
    apply Z.eqb_eq in ELF. split_and!; [lia|lia|congruence|intros; lia|].
    by rewrite Nat.eqb_refl.
Qed.

Lemma drop_insert_later (b : list Z) (i n : nat) (x : Z) :
  (i < n)%nat -> drop n (<[i:=x]> b) = drop n b.
Proof.
  revert i n; induction b as [|y b IH]; intros [|i] [|n] H; simpl; try done; try lia.
  apply IH. lia.
Qed.

(** What [find_line] does to a line [p] bytes long. *)
Lemma cut_line (b : list Z) (p : nat) (last_r : bool) :
  (p < length b)%nat ->
  last_r = (if (p =? 0)%nat then false else nth (p - 1) b 0 =? CR) ->
  let b1 := <[p:=0]> b in
  let b2 := if last_r then <[(p - 1)%nat:=0]> b1 else b1 in
  cstr b2 = cstr (strip_cr (take p b)) /\ drop (S p) b2 = drop (S p) b /\ length b2 = length b.
Proof.
  intros Hp Hr b1 b2.
  assert (E1 : b1 = take p b ++ 0 :: drop (S p) b)
    by (subst b1; by rewrite insert_take_drop).
  assert (Hd : drop (S p) b1 = drop (S p) b).
  { subst b1. by rewrite drop_insert_later by lia. }
  destruct p as [|p].
  { rewrite take_0. subst b2. simpl in Hr. subst last_r.
    split_and!; [|done|by subst b1; rewrite length_insert].
    rewrite E1, take_0. done. }
  simpl in Hr. rewrite Nat.sub_0_r in Hr. subst b2.
  replace (S p - 1)%nat with p by lia.
  assert (Hlt : b !! p = Some (nth p b 0)).
  { destruct (lookup_lt_is_Some_2 b p ltac:(lia)) as [x Hx].
    by rewrite (nth_lookup_Some _ _ _ _ Hx). }
  unfold strip_cr. rewrite (take_S_r _ _ _ Hlt), List.last_last, removelast_last.
  split_and!.
  - destruct last_r; symmetry in Hr.
    + apply Z.eqb_eq in Hr. rewrite Hr.
      rewrite insert_take_drop by (subst b1; rewrite length_insert; lia).
      rewrite cstr_app_nul. subst b1. by rewrite take_insert_ge by lia.
    + apply Z.eqb_neq in Hr. rewrite E1, (take_S_r _ _ _ Hlt), cstr_app_nul.
      unfold CR in Hr. destruct (nth p b 0) as [|k|k]; try done.
      do 4 (try (destruct k as [k|k|]; try done)).
  - destruct last_r; [|done]. by rewrite drop_insert_later by lia.
  - destruct last_r; subst b1; by rewrite ?length_insert.
Qed.

Lemma wf_init (memory : list Z) : (2 <= length memory)%nat -> wf (linebuf_init memory).
Proof. intros H. constructor; simpl; [done|lia|done]. Qed.

(** The outcome of looking for a line in the bytes [data]. *)
Definition framed (data : list Z) (r : Z) (l' : linebuf) : Prop :=
  (r = GETLINE_OK /\ line l' = Some 0%nat /\
   exists raw, data = raw ++ LF :: pending l' /\ (LF ∉ raw)
     /\ cstr (buf l') = cstr (strip_cr raw) /\ linelen l' = strlen (cstr (strip_cr raw))
     /\ moredata l' = bool_decide (pending l' <> []))
  \/ (r = GETLINE_NOLINE /\ pending l' = data /\ (LF ∉ data)
      /\ linelen l' = GETLINE_LINE_INCOMPLETE /\ lineend l' = None).

Lemma find_line_framed (l : linebuf) (e : nat) :
  bufend l = Some e -> (S e < length (buf l))%nat -> len l = Z.of_nat (S e) ->
  line l = Some 0%nat -> Z.of_nat (length (buf l)) = lmax l -> 2 <= lmax l ->
  let '(r, l') := find_line l in framed (take (S e) (buf l)) r l' /\ wf l'.
Proof.
  intros He Hlt Hlen Hline Hbuf Hmax. unfold find_line. rewrite He.
  pose proof (scan_line_spec (buf l) e ltac:(lia) (S e) 0 false ltac:(lia)) as Hs.
  destruct (scan_line _ _ _ _ _) as [[q r]|].
  - destruct Hs as (Hq & Hqb & Hbefore & Hr).
    destruct (cut_line (buf l) q r ltac:(lia) Hr) as (Hc & Hd & Hl).
    split; [left|].
    + split_and!; [done|done|]. exists (take q (buf l)).
      unfold pending; cbn [lineend bufend buf linelen moredata]. rewrite Hd, Hc.
      split_and!; [by apply take_S_split; [|lia]| |done|done|].
      * intros (i & Hi)%list_elem_of_lookup.
        apply lookup_take_Some in Hi as [Hi Hiq]. apply (Hbefore i); [lia|done].
      * destruct (decide (q = e)) as [->|Hne]; symmetry.
        -- rewrite (bool_decide_eq_true_2 (Some e = Some e)) by done.
           apply bool_decide_eq_false. rewrite Nat.sub_diag. intros H. by apply H.
        -- rewrite (bool_decide_eq_false_2 (Some q = Some e)) by congruence.
           apply bool_decide_eq_true. intros H%(f_equal length).
           rewrite length_take, length_drop in H. simpl in H. lia.
    + constructor; cbn [lineend bufend buf lmax len]; rewrite ?Hl; [done|done|lia].
  - assert (Hno : LF ∉ take (S e) (buf l)).
    { intros (i & Hi)%list_elem_of_lookup.
      apply lookup_take_Some in Hi as [Hi Hie]. apply (Hs i); [lia|done]. }
    split; [right; by split_and!|].
    constructor; cbn [lineend bufend buf lmax len]; done.
Qed.

Lemma blit_take (b data : list Z) (off n : nat) :
  (off + length data <= length b)%nat -> n = (off + length data)%nat ->
  take n (blit b off data) = take off b ++ data.
Proof.
  intros H ->. unfold blit. rewrite app_assoc, take_app_length'; [done|].
  rewrite length_app, length_take. lia.
Qed.

Lemma blit_length (b data : list Z) (off : nat) :
  (off + length data <= length b)%nat -> length (blit b off data) = length b.
Proof. intros H. unfold blit. rewrite !length_app, length_take, length_drop. lia. Qed.

(** A [read] that keeps to the room it is given. *)
Definition bounded_read (read : Z -> list Z) : Prop :=
  forall n, 0 <= n -> strlen (read n) <= n.

(** The size a call asks [read] for, when it reads. *)
Definition request (l : linebuf) : option Z :=
  if bool_decide (lineend l = bufend l) then Some (lmax l - 1)
  else if lineend l is Some _ then None else Some (lmax l - len l - 1).

Definition chunk (l : linebuf) (read : Z -> list Z) : list Z :=
  match request l with Some n => read n | None => [] end.

(** The outcome of a call. *)
Definition outcome (l : linebuf) (ready : Z) (read : Z -> list Z) (r : Z) (l' : linebuf) : Prop :=
  (framed (pending l ++ chunk l read) r l' /\ (request l <> None -> 1 <= ready /\ chunk l read <> []))
  \/ (r = GETLINE_NEED_READ /\ l' = l /\ ready < 1 /\ (LF ∉ pending l))
  \/ (r = GETLINE_EOF /\ 1 <= ready /\ chunk l read = [] /\ (LF ∉ pending l)
      /\ exists n, request l = Some n /\ 1 <= n)
  \/ (r = GETLINE_TOO_LONG /\ strlen (pending l) = lmax l - 1 /\ (LF ∉ pending l)
      /\ pending l' = [] /\ buf l' = buf l).

Lemma strlen_pos_false (s : list Z) : (strlen s <? 1) = true -> s = [].
Proof. intros H. btoprop. destruct s; [done|]. unfold strlen in H; simpl in H. lia. Qed.

Lemma getlinep3_fresh (l : linebuf) (ready : Z) (read : Z -> list Z) :
  wf l -> bounded_read read -> lineend l = bufend l ->
  let '(r, l') := getlinep3 ready read l in outcome l ready read r l' /\ wf l'.
Proof.
  intros Hwf Hread Heq. pose proof Hwf as [Hb Hm He].
  assert (Hp : pending l = []).
  { unfold pending. rewrite Heq. destruct (bufend l) as [b|]; [|done].
    by rewrite Nat.sub_diag. }
  assert (Hc : chunk l read = read (lmax l - 1))
    by (unfold chunk, request; by rewrite bool_decide_eq_true_2).
  unfold getlinep3. rewrite bool_decide_eq_true_2 by done.
  destruct (Z.ltb_spec (lmax l - 1) 1); [lia|].
  destruct (Z.ltb_spec ready 1).
  { split; [|done]. right; left. rewrite Hp. split_and!; [done|done|lia|set_solver]. }
  destruct (strlen (read (lmax l - 1)) <? 1) eqn:Hr.
  { split; [|done]. right; right; left. apply strlen_pos_false in Hr. rewrite <- Hc in Hr.
    rewrite Hp. split_and!; [done|lia|exact Hr|set_solver|].
    exists (lmax l - 1). unfold request. by rewrite bool_decide_eq_true_2. }
  pose proof (Hread (lmax l - 1) ltac:(lia)) as Hle.
  set (data := read (lmax l - 1)) in *. btoprop. unfold strlen in *.
  set (l1 := LineBuf _ _ _ _ _ _ _ _).
  pose proof (find_line_framed l1 (length data - 1)) as Hf.
  subst l1. cbn [bufend buf len line lmax] in Hf.
  rewrite blit_length in Hf by lia.
  specialize (Hf eq_refl ltac:(lia) ltac:(unfold strlen; lia) eq_refl ltac:(lia) ltac:(lia)).
  destruct (find_line _) as [r l']. destruct Hf as [Hf Hwf']. split; [left|done].
  rewrite Hp, Hc. rewrite (blit_take _ data 0) in Hf by lia. split; [done|]. intros _. split; [done|]. by destruct data.
Qed.

Lemma getlinep3_rest (l : linebuf) (ready : Z) (read : Z -> list Z) (e b : nat) :
  wf l -> lineend l = Some e -> bufend l = Some b -> e <> b ->
  let '(r, l') := getlinep3 ready read l in outcome l ready read r l' /\ wf l'.
Proof.
  intros [Hb Hm He] Hle Hbe Hne. unfold getlinep3.
  rewrite bool_decide_eq_false_2 by congruence. rewrite Hle, Hbe in *.
  set (l1 := LineBuf _ _ _ _ _ _ _ _).
  pose proof (find_line_framed l1 (b - e - 1)) as Hf.
  subst l1. cbn [bufend buf len line lmax] in Hf.
  assert (Hl : length (take (b - e) (drop (S e) (buf l))) = (b - e)%nat)
    by (rewrite length_take, length_drop; lia).
  rewrite blit_length in Hf by lia.
  specialize (Hf eq_refl ltac:(lia) ltac:(lia) eq_refl ltac:(lia) ltac:(lia)).
  destruct (find_line _) as [r l']. destruct Hf as [Hf Hwf']. split; [left|done].
  unfold pending at 1, chunk, request. rewrite bool_decide_eq_false_2 by congruence.
  rewrite Hle, Hbe, app_nil_r.
  rewrite (blit_take _ _ 0) in Hf by lia. by split.
Qed.

Lemma getlinep3_incomplete (l : linebuf) (ready : Z) (read : Z -> list Z) (b : nat) :
  wf l -> bounded_read read -> lineend l = None -> bufend l = Some b ->
  let '(r, l') := getlinep3 ready read l in outcome l ready read r l' /\ wf l'.
Proof.
  intros Hwf Hread Hle Hbe. pose proof Hwf as [Hb Hm He].
  rewrite Hle, Hbe in He. destruct He as (Hlt & Hlen & Hno).
  assert (Hp : pending l = take (S b) (buf l)) by (unfold pending; by rewrite Hle, Hbe).
  assert (Hc : chunk l read = read (lmax l - len l - 1)).
  { unfold chunk, request. rewrite bool_decide_eq_false_2 by congruence. by rewrite Hle. }
  unfold getlinep3. rewrite bool_decide_eq_false_2 by congruence. rewrite Hle, Hbe.
  destruct (Z.ltb_spec (lmax l - len l - 1) 1).
  { split; [|by constructor]. right; right; right. rewrite Hp.
    split_and!; [done|unfold strlen; rewrite length_take; lia|done|done|done]. }
  destruct (Z.ltb_spec ready 1).
  { split; [|done]. right; left. rewrite Hp. split_and!; [done|done|lia|done]. }
  set (room := lmax l - len l - 1) in *.
  destruct (strlen (read room) <? 1) eqn:Hr.
  { apply strlen_pos_false in Hr. subst room. rewrite <- Hc in Hr. split.
    - right; right; left. rewrite Hp. split_and!; [done|lia|exact Hr|done|].
      exists (lmax l - len l - 1). unfold request.
      rewrite bool_decide_eq_false_2 by congruence. by rewrite Hle.
    - constructor; cbn [lineend bufend buf lmax len]; rewrite ?length_insert; [done|done|].
      split_and!; [lia|done|]. rewrite take_insert_lt by lia.
      destruct (take (S b) (buf l)); [done|].
      simpl. apply not_elem_of_cons in Hno as [_ Hno]. by apply not_elem_of_cons. }
  pose proof (Hread room ltac:(lia)) as Hle'.
  set (data := read room) in *. btoprop. unfold strlen in *.
  set (l1 := LineBuf _ _ _ _ _ _ _ _).
  pose proof (find_line_framed l1 (Z.to_nat (len l + Z.of_nat (length data)) - 1)) as Hf.
  subst l1. cbn [bufend buf len line lmax] in Hf.
  rewrite blit_length in Hf by lia.
  specialize (Hf eq_refl ltac:(lia) ltac:(lia) eq_refl ltac:(lia) ltac:(lia)).
  destruct (find_line _) as [r l']. destruct Hf as [Hf Hwf']. split; [left|done].
  rewrite (blit_take _ data (Z.to_nat (len l))) in Hf by lia.
  rewrite Hp, Hc. replace (Z.to_nat (len l)) with (S b) in Hf by lia. split; [done|]. intros _. split; [done|]. by destruct data.
Qed.

Lemma getlinep3_step (l : linebuf) (ready : Z) (read : Z -> list Z) :
  wf l -> bounded_read read ->
  let '(r, l') := getlinep3 ready read l in outcome l ready read r l' /\ wf l'.
Proof.
  intros Hwf Hread. destruct (decide (lineend l = bufend l)) as [He|He].
  - by apply getlinep3_fresh.
  - pose proof (wf_end l Hwf) as Hend.
    destruct (lineend l) as [e|] eqn:E1, (bufend l) as [b|] eqn:E2; try done.
    + apply (getlinep3_rest l ready read e b); congruence.
    + by apply (getlinep3_incomplete l ready read b).
Qed.


(** ** Sessions *)

(** A run of calls: at each of them the descriptor has the next of [avail] bytes of
    [input] ready.  The lines handed out, the buffer, the input not yet read, and the
    result of the call that reported an error or the end of the input, 0 without one. *)
Fixpoint session (avail : list Z) (input : list Z) (l : linebuf)
  : list (list Z) * linebuf * list Z * Z :=
  match avail with
  | [] => ([], l, input, 0)
  | a :: avail' =>
      let read n := take (Z.to_nat (Z.min n a)) input in
      let '(r, l') := getlinep3 a read l in
      if r <? 0 then ([], l', input, r)
      else
        let got := if r =? GETLINE_NEED_READ then [] else chunk l read in
        let '(ls, l2, rest, e) := session avail' (drop (length got) input) l' in
        ((if r =? GETLINE_OK then [cstr (buf l')] else []) ++ ls, l2, rest, e)
  end.

(** The lines of a text, and its last, unfinished one. *)
Fixpoint lines_of (s : list Z) : list (list Z) * list Z :=
  match s with
  | [] => ([], [])
  | c :: s' =>
      let '(ls, last) := lines_of s' in
      if c =? LF then ([] :: ls, last)
      else match ls with
           | [] => ([], c :: last)
           | raw :: ls => ((c :: raw) :: ls, last)
           end
  end.

(** The text a line is handed out as. *)
Definition handed (raw : list Z) : list Z := cstr (strip_cr raw).

Lemma lines_of_line (raw s : list Z) :
  LF ∉ raw -> lines_of (raw ++ LF :: s) = (raw :: (lines_of s).1, (lines_of s).2).
Proof.
  induction raw as [|c raw IH]; intros H.
  - simpl. by destruct (lines_of s).
  - apply not_elem_of_cons in H as [Hc H]. simpl. rewrite IH by done.
    destruct (Z.eqb_spec c LF); [congruence|done].
Qed.

Lemma lines_of_last (s : list Z) : LF ∉ s -> lines_of s = ([], s).
Proof.
  induction s as [|c s IH]; intros H; [done|].
  apply not_elem_of_cons in H as [Hc H]. simpl. rewrite IH by done.
  destruct (Z.eqb_spec c LF); [congruence|done].
Qed.

Lemma lines_of_app (s t : list Z) :
  lines_of (s ++ t) =
  ((lines_of s).1 ++ (lines_of ((lines_of s).2 ++ t)).1, (lines_of ((lines_of s).2 ++ t)).2).
Proof.
  induction s as [|c s IH]; simpl; [by destruct (lines_of t)|].
  rewrite IH. destruct (lines_of s) as [ls last]; simpl in *.
  destruct (c =? LF) eqn:E; [done|].
  destruct ls as [|raw ls]; simpl; [|done].
  rewrite E. by destruct (lines_of (last ++ t)) as [[|] ?].
Qed.

Lemma bounded_take (a : Z) (input : list Z) :
  bounded_read (fun n => take (Z.to_nat (Z.min n a)) input).
Proof. intros n Hn. unfold strlen. rewrite length_take. lia. Qed.

Lemma chunk_prefix (l : linebuf) (a : Z) (input : list Z) :
  let got := chunk l (fun n => take (Z.to_nat (Z.min n a)) input) in
  input = got ++ drop (length got) input.
Proof.
  cbv zeta. unfold chunk. destruct (request l) as [n|]; [|done].
  generalize (Z.to_nat (Z.min n a)); intros k.
  rewrite <- (take_drop k input) at 1. f_equal. rewrite length_take.
  destruct (Nat.le_ge_cases k (length input)).
  - by rewrite Nat.min_l by lia.
  - rewrite Nat.min_r by lia. by rewrite !drop_ge by lia.
Qed.

Lemma getlinep3_lmax (l : linebuf) (ready : Z) (read : Z -> list Z) :
  lmax (getlinep3 ready read l).2 = lmax l.
Proof.
  assert (Hf : forall l, lmax (find_line l).2 = lmax l).
  { intros k. unfold find_line. by repeat case_match. }
  unfold getlinep3. repeat case_match; simplify_eq; cbn [snd lmax]; rewrite ?Hf; done.
Qed.

(** The bytes a step consumes, before those of the rest of the session. *)
Lemma step_lines (l1 : linebuf) (r : Z) (data got : list Z) :
  framed data r l1 ->
  map handed (lines_of (data ++ got)).1
    = (if r =? GETLINE_OK then [cstr (buf l1)] else []) ++ map handed (lines_of (pending l1 ++ got)).1
  /\ (lines_of (data ++ got)).2 = (lines_of (pending l1 ++ got)).2.
Proof.
  intros [(-> & _ & raw & -> & Hraw & Hc & _)|(-> & -> & _)]; [|done].
  rewrite <- app_assoc, <- app_comm_cons, lines_of_line by done. simpl. by rewrite Hc.
Qed.

(** What comes of the input [got] that a session consumed. *)
Definition session_ok (l : linebuf) (got : list Z) (ls : list (list Z)) (l' : linebuf) (rest : list Z) (e : Z) : Prop :=
  let all := lines_of (pending l ++ got) in
  (e = 0 /\ wf l' /\ map handed all.1 = ls ++ map handed (lines_of (pending l')).1 /\ all.2 = (lines_of (pending l')).2)
  \/ (e = GETLINE_EOF /\ rest = [] /\ map handed all.1 = ls)
  \/ (e = GETLINE_TOO_LONG /\ map handed all.1 = ls /\ strlen all.2 = lmax l - 1).

(** A step before the rest of a session. *)
Lemma session_ok_step (l l1 l' : linebuf) (r e : Z) (data got : list Z) (ls : list (list Z)) (rest : list Z) :
  framed (pending l ++ data) r l1 -> lmax l1 = lmax l -> session_ok l1 got ls l' rest e ->
  session_ok l (data ++ got) ((if r =? GETLINE_OK then [cstr (buf l1)] else []) ++ ls) l' rest e.
Proof.
  intros Hf Hm. destruct (step_lines _ _ _ got Hf) as [F1 F2]. unfold session_ok. cbv zeta. rewrite app_assoc, F1, F2, Hm, <- app_assoc.
  intros [(-> & Hw & -> & ->)|[(-> & -> & ->)|(-> & -> & ->)]]; [left | right; left | right; right]; done.
Qed.

Lemma session_lines_ok (avail : list Z) : forall input l, wf l ->
  let '(ls, l', rest, e) := session avail input l in exists got, input = got ++ rest /\ session_ok l got ls l' rest e.
Proof.
  induction avail as [|a avail IH]; intros input l Hwf; cbn [session].
  { exists []. split; [done|]. left. by rewrite app_nil_r. }
  pose proof (getlinep3_step l a _ Hwf (bounded_take a input)) as Hs. pose proof (chunk_prefix l a input) as Hin.
  pose proof (getlinep3_lmax l a (fun n => take (Z.to_nat (Z.min n a)) input)) as Hmax.
  set (read n := take (Z.to_nat (Z.min n a)) input) in *. destruct (getlinep3 a read l) as [r l1]. destruct Hs as [Ho Hwf1]. cbn [snd] in Hmax.
  destruct Ho as [[Hf _]|[(-> & -> & _ & _)|[(-> & Ha & Hc & Hno & n & Hn & Hn1)|(-> & Hp & Hno & _)]]].
  - assert (Er : (r <? 0) = false /\ (r =? GETLINE_NEED_READ) = false) by (by destruct Hf as [(-> & _)|(-> & _)]). destruct Er as [-> ->].
    specialize (IH (drop (length (chunk l read)) input) l1 Hwf1). destruct (session avail _ l1) as [[[ls l2] rest] e].
    destruct IH as (got & Hgot & H). exists (chunk l read ++ got). split; [by rewrite <- app_assoc, <- Hgot|]. by eapply session_ok_step.
  - specialize (IH input l Hwf). change (GETLINE_NEED_READ <? 0) with false. change (GETLINE_NEED_READ =? GETLINE_NEED_READ) with true.
    change (GETLINE_NEED_READ =? GETLINE_OK) with false. cbn [length]. rewrite drop_0. destruct (session avail input l) as [[[ls l2] rest] e]. exact IH.
  - exists []. assert (Hi : input = []).
    { unfold chunk in Hc. rewrite Hn in Hc. apply (f_equal length) in Hc. unfold read in Hc. rewrite length_take in Hc. cbn in Hc. destruct input; [done|]. cbn in Hc. lia. }
    split; [done|]. right; left. split; [done|]. split; [done|]. by rewrite app_nil_r, lines_of_last.
  - exists []. split; [done|]. right; right. split; [done|]. by rewrite app_nil_r, lines_of_last.
Qed.

(** What is left to do, as a number that every call on a ready descriptor makes smaller. *)
Definition left_to_do (input : list Z) (l : linebuf) : nat :=
  (3 * length input + 2 * length (pending l) + match request l with None => 1 | Some _ => 0 end)%nat.

Lemma step_progress (l l1 : linebuf) (a r : Z) (input : list Z) :
  let read n := take (Z.to_nat (Z.min n a)) input in
  framed (pending l ++ chunk l read) r l1 -> (request l <> None -> 1 <= a /\ chunk l read <> []) ->
  (left_to_do (drop (length (chunk l read)) input) l1 < left_to_do input l)%nat.
Proof.
  intros read Hf Hc. pose proof (chunk_prefix l a input) as Hin. cbv zeta in Hin. fold read in Hin. apply (f_equal length) in Hin. rewrite length_app in Hin.
  unfold left_to_do. destruct Hf as [(_ & _ & raw & E & _)|(_ & E & _ & _ & El)]; apply (f_equal length) in E; rewrite ?length_app in E; cbn [length] in E.
  - destruct (request l1), (request l); lia.
  - assert (Hr : request l1 <> None) by (unfold request; rewrite El; by case_bool_decide).
    destruct (request l1); [|done]. destruct (request l) eqn:Er; [|lia].
    destruct (Hc ltac:(done)) as [_ Hne]. destruct (chunk l read); [done|]. cbn [length] in *. lia.
Qed.

Lemma session_ends (avail : list Z) : forall input l, wf l -> Forall (fun a => 1 <= a) avail -> (left_to_do input l < length avail)%nat ->
  (session avail input l).2 <> 0.
Proof.
  induction avail as [|a avail IH]; intros input l Hwf Ha Hn; cbn [session length] in *; [lia|]. apply Forall_cons in Ha as [Ha Hall].
  pose proof (getlinep3_step l a _ Hwf (bounded_take a input)) as Hs. set (read n := take (Z.to_nat (Z.min n a)) input) in *.
  destruct (getlinep3 a read l) as [r l1]. destruct Hs as [Ho Hwf1].
  destruct Ho as [[Hf Hc]|[(_ & _ & ? & _)|[(-> & _)|(-> & _)]]]; [|lia|done|done].
  assert (Er : (r <? 0) = false /\ (r =? GETLINE_NEED_READ) = false) by (by destruct Hf as [(-> & _)|(-> & _)]). destruct Er as [-> ->].
  pose proof (step_progress l l1 a r input Hf Hc) as Hd. cbv zeta in Hd. fold read in Hd.
  specialize (IH (drop (length (chunk l read)) input) l1 Hwf1 Hall ltac:(lia)). by destruct (session avail _ l1) as [[[ls l2] rest] e].
Qed.

(** C30: the proxy's line reader frames the byte stream the same way however it
    arrives: whatever number of bytes the descriptor has ready at each call, and
    whatever the buffer still holds.  As long as no call fails, the lines handed out
    are, in order and each once, the lines of the pending bytes followed by the bytes
    consumed, each without its CR before LF; what stays in the buffer gives the
    remaining ones, and no byte of the input is lost or repeated.  A call fails in two
    ways only, each after every complete line consumed was handed out: at the end of
    the input, which is then consumed as a whole, or when an unfinished line of one
    byte less than the buffer fills it.  And the reader gets on: after enough calls on
    a ready descriptor (three for a byte of input, two for a pending one) one of the
    two has been reached. *)
Theorem session_lines (avail input : list Z) (l : linebuf) :
  wf l ->
  let '(ls, l', rest, e) := session avail input l in
  (exists got, input = got ++ rest
     /\ let all := lines_of (pending l ++ got) in
        (e = 0 /\ wf l' /\ map handed all.1 = ls ++ map handed (lines_of (pending l')).1 /\ all.2 = (lines_of (pending l')).2)
        \/ (e = GETLINE_EOF /\ rest = [] /\ map handed all.1 = ls)
        \/ (e = GETLINE_TOO_LONG /\ map handed all.1 = ls /\ strlen all.2 = lmax l - 1))
  /\ (Forall (fun a => 1 <= a) avail -> (3 * length input + 2 * length (pending l) + 1 < length avail)%nat -> e <> 0).
Proof.
  intros Hwf. pose proof (session_lines_ok avail input l Hwf) as H1. pose proof (session_ends avail input l Hwf) as H2.
  destruct (session avail input l) as [[[ls l'] rest] e]. split; [exact H1|]. intros Ha Hn. apply (H2 Ha). unfold left_to_do. destruct (request l); lia.
Qed.

Lemma session_lines_witness :
  exists ls l' rest got,
    session [3; 1; 9; 0; 9] (bytes "USER a" ++ [13; 10; 10] ++ bytes "QUIT")
      (linebuf_init (replicate 32 0)) = (ls, l', rest, 0)
    /\ ls = [bytes "USER a"; []] /\ pending l' = bytes "QUIT"
    /\ bytes "USER a" ++ [13; 10; 10] ++ bytes "QUIT" = got ++ rest /\ wf l'.
Proof.
  pose proof (session_lines [3; 1; 9; 0; 9] (bytes "USER a" ++ [13; 10; 10] ++ bytes "QUIT")
    (linebuf_init (replicate 32 0)) (wf_init (replicate 32 0) ltac:(simpl; lia))) as H.
  destruct (session _ _ _) as [[[ls l'] rest] e] eqn:E. vm_compute in E.
  destruct H as [(got & H1 & H) _]. exists ls, l', rest, got. injection E as <- <- <- <-.
  destruct H as [(_ & H & _)|[(H & _)|(H & _)]]; [by split_and! | discriminate H | discriminate H].
Defined.

(** ** What [secure_write] does *)

(** Answers no larger than the requests of the loop. *)
Fixpoint honest (answers : list write_result) (written len : Z) : Prop :=
  match answers with
  | [] => True
  | w :: answers' =>
      -1 <= ret w <= Z.max 0 (len - written) /\ honest answers' (written + ret w) (len - ret w)
  end.

Lemma write_loop_fails (answers : list write_result) (written len : Z) :
  0 < written -> 0 < len -> honest answers written len ->
  forall r, (write_loop answers written len).1 = Some r -> r = GETLINE_ERR \/ r = GETLINE_PIPE.
Proof.
  revert written len; induction answers as [|w answers IH]; intros written len Hw Hl Hh r;
    simpl; [done|].
  destruct Hh as [Hr Hh]. destruct (Z.ltb_spec (ret w) len); [|lia].
  destruct w as [n| |]; simpl in *; [|intros [= <-]; by right|intros [= <-]; by left].
  destruct (Z.ltb_spec n 1); [intros [= <-]; by left|].
  specialize (IH (written + n) (len - n) ltac:(lia) ltac:(lia) Hh r).
  by destruct (write_loop answers (written + n) (len - n)).
Qed.

(** [secure_write] sends its buffer only if the first [write] takes all of
    it, and then returns 0, not the number of bytes written; an empty buffer
    is sent without a [write].  After a first [write] of [n] bytes, fewer than
    asked, the next one asks for [len - 2n] bytes, not for the [len - n] that
    are left, and the call never reports success again: it ends with
    [GETLINE_ERR] or [GETLINE_PIPE]. *)
Lemma secure_write_correct (len : Z) (answers : list write_result) :
  0 <= len -> honest answers 0 len ->
  (len = 0 -> secure_write answers len = (Some 0, []))
  /\ (forall rest, 0 < len -> answers = Wrote len :: rest ->
        secure_write answers len = (Some 0, [(0, len)]))
  /\ (forall n w rest, 0 < n < len -> answers = Wrote n :: w :: rest ->
        exists rqs, (secure_write answers len).2 = (0, len) :: (n, len - 2 * n) :: rqs)
  /\ (forall w rest r, 0 < len -> ret w < len -> answers = w :: rest ->
        (secure_write answers len).1 = Some r -> r = GETLINE_ERR \/ r = GETLINE_PIPE).
Proof.
  intros Hlen Hh. unfold secure_write. split_and!.
  - intros ->. done.
  - intros rest Hpos ->. destruct (Z.eqb_spec len 0); [lia|].
    destruct (Z.ltb_spec len 1); [lia|]. simpl. by rewrite Z.ltb_irrefl, Z.sub_0_r.
  - intros n w rest Hn ->. destruct (Z.eqb_spec len 0); [lia|].
    destruct (Z.ltb_spec len 1); [lia|]. simpl.
    destruct (Z.ltb_spec n len); [|lia]. destruct (Z.ltb_spec n 1); [lia|].
    rewrite Z.sub_0_r, Z.add_0_l. replace (len - n - n) with (len - 2 * n) by lia.
    destruct (ret w <? len - n); [destruct w as [m| |]|]; simpl; try (by eexists).
    destruct (m <? 1); [by eexists|]. destruct (write_loop rest _ _); by eexists.
  - intros w rest r Hpos Hw ->. destruct (Z.eqb_spec len 0); [lia|].
    destruct (Z.ltb_spec len 1); [lia|]. destruct Hh as [Hr Hh]. simpl.
    destruct (Z.ltb_spec (ret w) len); [|lia].
    destruct w as [k| |]; simpl in *; [|intros [= <-]; by right|intros [= <-]; by left].
    destruct (Z.ltb_spec k 1); [intros [= <-]; by left|].
    intros Hres. apply (write_loop_fails rest (0 + k) (len - k)); [lia|lia|done|].
    by destruct (write_loop rest (0 + k) (len - k)).
Qed.

Lemma secure_write_correct_witness :
  secure_write [Wrote 10] 10 = (Some 0, [(0, 10)])
  /\ (exists rqs, (secure_write [Wrote 4; Wrote 2; Eother] 10).2 = (0, 10) :: (4, 2) :: rqs)
  /\ (secure_write [Wrote 4; Wrote 2; Eother] 10).1 = Some GETLINE_ERR.
Proof.
  split_and!; [| |done].
  - destruct (secure_write_correct 10 [Wrote 10]) as (_ & H & _); [lia|simpl; lia|].
    by apply (H []).
  - destruct (secure_write_correct 10 [Wrote 4; Wrote 2; Eother]) as (_ & _ & H & _);
      [lia|simpl; lia|].
    by apply (H 4 (Wrote 2) [Eother]).
Defined.
