(* ===== verification/P3Match.v ===== *)
(** * P3Match: patterns and replacement in the mail proxy

    The black and white lists of v3.0/src/p3scan-mybox/src/p3scan.c hold one
    pattern a line: a text to be found, alternatives with [*] and [?], or an
    expression for PCRE, which is a parameter. *)

From S2P Require Import Prelude CString LibMybox P3Line.

Module P3Match.

Definition STAR : Z := 42.
Definition QUESTION : Z := 63.
Definition BAR : Z := 124.

(** The pattern is its first [patternlen] bytes.  A [*] tries the suffixes of the
    string, the shortest first. *)
Fixpoint simple_match_one (pattern string : list Z) : bool :=
  match pattern with
  | [] => match string with [] => true | _ => false end
  | c :: pattern =>
      if (c =? QUESTION) && negb (bool_decide (string = [])) then simple_match_one pattern (tail string)
      else if c =? STAR then existsb (fun i => simple_match_one pattern (drop i string)) (rev (seq 0 (S (length string))))
      else match string with
           | [] => false
           | d :: string => if c =? d then simple_match_one pattern string else false
           end
  end.

(** The part before the first bar, and what follows it. *)
Fixpoint first_bar (pattern : list Z) : list Z * option (list Z) :=
  match pattern with
  | [] => ([], None)
  | c :: pattern => if c =? BAR then ([], Some pattern) else let '(p, r) := first_bar pattern in (c :: p, r)
  end.

(** Each turn leaves a shorter pattern. *)
Fixpoint match_alts (fuel : nat) (pattern string : list Z) : bool :=
  match fuel with
  | O => false
  | S fuel =>
      match first_bar pattern with
      | (p, None) => simple_match_one p string
      | (p, Some rest) => if simple_match_one p string then true else match_alts fuel rest string
      end
  end.

Definition simple_match (pattern string : list Z) : bool := match_alts (S (length pattern)) pattern string.

(** The inner loop of [strreplace] from [newstr] on: what was written, how much of the
    needle was met, and the rest. *)
Fixpoint replace_inner (newstr needle rest_needle : list Z) (i : nat) (p : list Z) : list Z * nat * list Z :=
  match newstr, rest_needle with
  | c :: newstr', m :: rest =>
      if c =? m then replace_inner newstr' needle rest (S i) (p ++ [c])
      else replace_inner newstr' needle needle 0 (p ++ [c])
  | _, _ => (p, i, newstr)
  end.

(** With an empty needle the outer loop does not end. *)
Fixpoint replace_outer (fuel : nat) (newstr needle rstr p : list Z) : option (list Z) :=
  match newstr with
  | [] => Some p
  | _ =>
      match fuel with
      | O => None
      | S fuel =>
          let '(p, i, newstr) := replace_inner newstr needle needle 0 p in
          replace_outer fuel newstr needle rstr (if (i =? length needle)%nat then take (length p - i) p ++ rstr else p)
      end
  end.

Definition strreplace (haystack needle rstr : list Z) : option (list Z) :=
  replace_outer (length haystack) haystack needle rstr [].

(** ** Lists of patterns *)

Section Lists.
(** [preg_match]: compiled, case folded and ungreedy. *)
Variable preg_match : list Z -> list Z -> bool.

Definition str_match (pattern line : list Z) : bool := simple_match pattern line || preg_match pattern line.

(** The lines of a list file that are not empty. *)
Definition list_lines (file : list Z) : list (list Z) := filter (fun l => l <> []) (map handed (lines_of file).1).

(** A line of the file is found in the line of the mail, or matches it. *)
Definition listed (file line : list Z) : bool :=
  existsb (fun l => let l := trim l in bool_decide (strstr line l <> None) || str_match l line) (list_lines file).

(** [checklist]: a list counts if it has a line of more than two bytes. *)
Definition list_present (file : option (list Z)) : bool :=
  match file with None => false | Some f => existsb (fun l => 2 <? strlen l) (list_lines f) end.
End Lists.

(** ** The specification *)

Inductive wild : list Z -> list Z -> Prop :=
| wild_nil : wild [] []
| wild_question c p s : wild p s -> wild (QUESTION :: p) (c :: s)
| wild_star p s t : wild p t -> wild (STAR :: p) (s ++ t)
| wild_char c p s : c <> QUESTION -> c <> STAR -> wild p s -> wild (c :: p) (c :: s).

Fixpoint alternatives (pattern : list Z) : list (list Z) :=
  match pattern with
  | [] => [[]]
  | c :: pattern =>
      if c =? BAR then [] :: alternatives pattern
      else match alternatives pattern with p :: ps => (c :: p) :: ps | [] => [[c]] end
  end.

Lemma match_one_spec (p s : list Z) : simple_match_one p s = true <-> wild p s.
Proof.
  revert s. induction p as [|c p IH]; intros s; cbn [simple_match_one].
  - split; [by destruct s; [constructor|] | by inversion 1].
  - destruct (Z.eqb_spec c QUESTION) as [->|Hq].
    + destruct s as [|d s]; cbn [andb negb tail].
      * rewrite bool_decide_eq_true_2 by done. cbn. split; [done|]. inversion 1; congruence.
      * rewrite bool_decide_eq_false_2 by done. cbn [negb andb]. rewrite IH. split; [by constructor|].
        inversion 1; [done | congruence].
    + cbn [andb]. destruct (Z.eqb_spec c STAR) as [->|Hs].
      * rewrite existsb_exists. split.
        -- intros (i & _ & H). apply IH in H. rewrite <- (take_drop i s). by constructor.
        -- inversion 1 as [| |? u t Hw|]; [|congruence]. subst. exists (length u). rewrite <- in_rev, in_seq, length_app.
           split; [lia|]. rewrite drop_app_length. by apply IH.
      * destruct s as [|d s]; [split; [done | by inversion 1]|]. destruct (Z.eqb_spec c d) as [->|Hd].
        -- rewrite IH. split; [by constructor|]. inversion 1; [congruence..|done].
        -- split; [done|]. inversion 1; congruence.
Qed.

Lemma first_bar_spec (p : list Z) :
  match first_bar p with
  | (q, None) => alternatives p = [q]
  | (q, Some r) => alternatives p = q :: alternatives r /\ (length r < length p)%nat
  end.
Proof.
  induction p as [|c p IH]; cbn [first_bar alternatives length]; [done|]. destruct (c =? BAR); [split; [done | lia]|].
  destruct (first_bar p) as [q [r|]]; [destruct IH as [-> ?]; split; [done | lia] | by rewrite IH].
Qed.

(** A pattern matches a text exactly when one of its alternatives does, in which a
    [?] stands for a byte and a [*] for any bytes. *)
Lemma simple_match_correct (p s : list Z) : simple_match p s = true <-> exists a, a ∈ alternatives p /\ wild a s.
Proof.
  unfold simple_match. assert (Hf : (length p < S (length p))%nat) by lia. revert Hf. generalize (S (length p)). intros fuel.
  revert p. induction fuel as [|fuel IH]; intros p Hf; [lia|]. cbn [match_alts]. pose proof (first_bar_spec p) as H.
  destruct (first_bar p) as [q [r|]].
  - destruct H as [-> Hl]. destruct (simple_match_one q s) eqn:E.
    + split; [|done]. intros _. exists q. split; [left | by apply match_one_spec].
    + rewrite IH by lia. split.
      * intros (a & Ha & Hw). exists a. split; [by right | done].
      * intros (a & [->|Ha]%elem_of_cons & Hw); [apply match_one_spec in Hw; congruence|]. by exists a.
  - rewrite H, match_one_spec. split; [intros Hw; exists q; split; [left | done]|]. by intros (a & ->%list_elem_of_singleton & Hw).
Qed.

(** One byte for another. *)
Lemma strreplace_char (s : list Z) (a b : Z) : strreplace s [a] [b] = Some (map (fun c => if c =? a then b else c) s).
Proof.
  unfold strreplace. set (f := fun c => if c =? a then b else c).
  assert (Hin : forall s p, exists n, replace_inner s [a] [a] 0 p
      = (p ++ take n s, if bool_decide (a ∈ take n s) then 1%nat else 0%nat, drop n s)
    /\ (s <> [] -> (0 < n)%nat)
    /\ (a ∈ take n s -> exists q, take n s = q ++ [a] /\ a ∉ q)).
  { clear s. induction s as [|c s IH]; intros p; cbn [replace_inner].
    - exists 0%nat. cbn. rewrite app_nil_r. split; [done|]. split; [done|]. by intros H%not_elem_of_nil.
    - destruct (Z.eqb_spec c a) as [->|Hne].
      + exists 1%nat. destruct s; cbn; (split; [rewrite bool_decide_eq_true_2 by left; done|]); (split; [lia|]);
          intros _; exists []; (split; [done | apply not_elem_of_nil]).
      + destruct (IH (p ++ [c])) as (n & -> & H1 & H2). exists (S n). cbn [take drop]. split; [|split; [lia|]].
        * rewrite <- app_assoc. cbn. do 2 f_equal. f_equal. rewrite (bool_decide_ext (a ∈ c :: take n s) (a ∈ take n s)); [done|].
          rewrite elem_of_cons. split; [by intros [->|?] | by right].
        * intros [->|H]%elem_of_cons; [done|]. destruct (H2 H) as (q & -> & Hq). exists (c :: q). split; [done|].
          rewrite not_elem_of_cons. split; congruence. }
  assert (Hmap : forall q, a ∉ q -> map f q = q).
  { induction q as [|c q IHq]; intros H; cbn [map]; [done|]. apply not_elem_of_cons in H as [H1 H2]. rewrite IHq by done. f_equal.
    unfold f. by rewrite (proj2 (Z.eqb_neq c a)) by congruence. }
  assert (Hout : forall fuel s p, (length s <= fuel)%nat -> replace_outer fuel s [a] [b] p = Some (p ++ map f s)).
  { induction fuel as [|fuel IH]; intros t p Hl.
    - destruct t; [cbn; by rewrite app_nil_r | cbn in Hl; lia].
    - cbn [replace_outer]. destruct t as [|c t]; [cbn; by rewrite app_nil_r|].
      destruct (Hin (c :: t) p) as (n & -> & H1 & H2). rewrite IH by (rewrite length_drop; specialize (H1 ltac:(done)); cbn in *; lia). f_equal.
      transitivity (p ++ map f (take n (c :: t) ++ drop n (c :: t))); [|by rewrite take_drop].
      rewrite map_app, app_assoc. f_equal. destruct (bool_decide_reflect (a ∈ take n (c :: t))) as [H|H].
      + destruct (H2 H) as (q & Eq & Hq). rewrite Eq, map_app, (Hmap q Hq). cbn [Nat.eqb length map].
        unfold f at 1. rewrite Z.eqb_refl. rewrite app_assoc, length_app. cbn [length].
        rewrite Nat.add_sub. by rewrite take_app_length, <- app_assoc.
      + cbn [Nat.eqb length]. by rewrite (Hmap _ H). }
  rewrite Hout by done. done.
Qed.
End P3Match.
