(* ===== verification/ParseFile.v ===== *)
(** * parsefile: parameter lists and templates

    v3.0/src/p3scan-mybox/src/parsefile.c: the list of named values the mail
    proxy keeps, and the replacement of the names by the values in a line of
    a template.  A list is the list of its nodes, a null pointer the empty
    one; the line that is searched is overwritten while it is searched, as
    in the source. *)

From S2P Require Import Prelude CString LibMybox P3Line.

(** ** Parameter lists *)

Definition param : Type := option (list Z) * option (list Z).

Definition paramlist_init : list param := [(None, None)].

(** The loop of [paramlist_set]: the node to overwrite is the first one without
    a name or with this name; past the end a node is linked after the last. *)
Fixpoint set_loop (p : list param) (name : list Z) (value : option (list Z)) : list param :=
  match p with
  | [] => match value with Some _ => [(Some name, value)] | None => [] end
  | (Some n, v) :: p' =>
      if negb (strcasecmp_eq n name) then (Some n, v) :: set_loop p' name value
      else (Some name, value) :: p'
  | (None, _) :: p' => (Some name, value) :: p'
  end.

(** A node made for a null list is linked to nothing. *)
Definition paramlist_set (p : list param) (name value : option (list Z)) : Z * list param :=
  match name with
  | None => (1, p)
  | Some name => (0, match p with [] => [] | _ => set_loop p name value end)
  end.

Fixpoint get_loop (params : list param) (name : list Z) : option (list Z) :=
  match params with
  | [] => None
  | (n, v) :: params' =>
      match n with
      | Some n => if strcasecmp_eq n name then v else get_loop params' name
      | None => get_loop params' name
      end
  end.

Definition paramlist_get (params : list param) (name : option (list Z)) : option (list Z) :=
  match name with None => None | Some name => get_loop params name end.

(** ** Replacement *)

Record replacelist := Repl {
  rl_pos : nat;
  rl_newlen : nat;
  rl_oldlen : nat;
  rl_new : list Z
}.

(** The list is kept sorted by position: an entry goes before the first one with
    a larger position. *)
Fixpoint insert_rl (rl : list replacelist) (r : replacelist) : list replacelist :=
  match rl with
  | [] => [r]
  | r' :: rl' => if (rl_pos r <? rl_pos r')%nat then r :: rl else r' :: insert_rl rl' r
  end.

(** The search for one name: the text, the offset of [in_inc], the entries and the
    length so far.  [None]: the fuel is spent. *)
Fixpoint occurrences (fuel : nat) (name new : list Z) (text : list Z) (in_inc : nat)
    (rl : list replacelist) (len : Z) : option (list Z * list replacelist * Z) :=
  match fuel with
  | O => None
  | S fuel =>
      match strstr (drop in_inc text) name with
      | None => Some (text, rl, len)
      | Some k =>
          let pos := (in_inc + k)%nat in
          let r := Repl pos (length new) (length name) new in
          occurrences fuel name new (blit text pos (replicate (length name) 1))
            (in_inc + length name) (insert_rl rl r) (len + (strlen new - strlen name))
      end
  end.

Definition NONULL (x : option (list Z)) : list Z := match x with None => [] | Some s => s end.

(** The loop over the parameters. *)
Fixpoint collect (fuel : nat) (params : list param) (text : list Z)
    (rl : list replacelist) (len : Z) : option (list Z * list replacelist * Z) :=
  match params with
  | [] => Some (text, rl, len)
  | (None, _) :: params' => collect fuel params' text rl len
  | (Some name, value) :: params' =>
      match occurrences fuel name (NONULL value) text 0 rl len with
      | None => None
      | Some (text, rl, len) => collect fuel params' text rl len
      end
  end.

(** The new text, written piece by piece from [pos] on. *)
Fixpoint rebuild (rl : list replacelist) (text dst : list Z) (lastreplacepos : nat) (len : Z)
  : list Z :=
  match rl with
  | [] =>
      let l := len - strlen dst in
      if 0 <? l then dst ++ take (Z.to_nat l) (drop lastreplacepos text) else dst
  | r :: rl' =>
      let dst := dst ++ take (rl_pos r - lastreplacepos) (drop lastreplacepos text) in
      let dst := if (0 <? rl_newlen r)%nat then dst ++ take (rl_newlen r) (rl_new r) else dst in
      rebuild rl' text dst (rl_pos r + rl_oldlen r) len
  end.

(** [paramlist_strreplace]: the return value, [*dst], and [in] afterwards. *)
Definition paramlist_strreplace (fuel : nat) (input : option (list Z)) (params : list param)
  : option (Z * option (list Z) * list Z) :=
  match input with
  | None => Some (-1, None, [])
  | Some text =>
      match params with
      | [] => Some (0, Some text, text)
      | _ =>
          match collect fuel params text [] (strlen text) with
          | None => None
          | Some (text, rl, len) =>
              if 0 <? Z.of_nat (length rl) then
                Some (Z.of_nat (length rl), Some (rebuild rl text [] 0 len), text)
              else Some (0, Some text, text)
          end
      end
  end.

Example strreplace_ex :
  let ps := [(Some (bytes "%USER%"), Some (bytes "bob")); (Some (bytes "%X"), None);
             (None, None); (Some (bytes "bob"), Some (bytes "no"))] in
  (r ← paramlist_strreplace 9 (Some (bytes "To %USER%, %X%USER%!bob")) ps; r.1.2)
  = Some (bytes "To bob, bob!no").
Proof. reflexivity. Qed.

(** ** Parameter laws *)

Lemma strcasecmp_eq_iff (s t : list Z) : strcasecmp_eq s t = true <-> map tolower s = map tolower t.
Proof. unfold strcasecmp_eq. by rewrite bool_decide_eq_true. Qed.

Lemma get_set_loop (p : list param) (n m : list Z) (v : option (list Z)) :
  get_loop (set_loop p n v) m = if strcasecmp_eq n m then v else get_loop p m.
Proof.
  induction p as [|[[n'|] v'] p IH]; simpl.
  - destruct v; simpl; by destruct (strcasecmp_eq n m).
  - destruct (strcasecmp_eq n' n) eqn:E; simpl.
    + apply strcasecmp_eq_iff in E. unfold strcasecmp_eq. rewrite E. by bcase.
    + rewrite IH. destruct (strcasecmp_eq n' m) eqn:Em; [|done].
      destruct (strcasecmp_eq n m) eqn:En; [|done].
      apply strcasecmp_eq_iff in Em, En. unfold strcasecmp_eq in E.
      rewrite Em, En, bool_decide_eq_true_2 in E; done.
  - by destruct (strcasecmp_eq n m).
Qed.

(** A value set in a parameter list that exists is the one found under that
    name, compared without case, null values included, and every other
    name keeps its value; in a null list nothing can be set.  A call without a
    name reports an error and changes nothing. *)
Lemma paramlist_get_set (p : list param) (n m : list Z) (v : option (list Z)) :
  let '(r, p') := paramlist_set p (Some n) v in
  r = 0 /\ paramlist_set p None v = (1, p) /\
  paramlist_get p' (Some m)
    = if bool_decide (p <> []) && strcasecmp_eq n m then v else paramlist_get p (Some m).
Proof.
  unfold paramlist_set, paramlist_get. split_and!; [done|done|].
  destruct p as [|q p]; [done|]. rewrite bool_decide_eq_true_2 by done. apply get_set_loop.
Qed.

(** ** What a replacement means *)

(** A text cut at the names that were found: each piece is followed by the
    number of bytes taken out and what replaces them. *)
Inductive segs := Last (s : list Z) | Then (s : list Z) (old : nat) (new : list Z) (rest : segs).

(** The text with the values in place. *)
Fixpoint out (g : segs) : list Z :=
  match g with Last s => s | Then s _ v r => s ++ v ++ out r end.

Fixpoint cuts (g : segs) : nat :=
  match g with Last _ => 0 | Then _ _ _ r => S (cuts r) end.

(** All the occurrences of a name in a text, from left to right, not overlapping. *)
Fixpoint replace_all (fuel : nat) (name new s : list Z) : segs :=
  match fuel with
  | O => Last s
  | S fuel =>
      match strstr s name with
      | None => Last s
      | Some k => Then (take k s) (length name) new
                    (replace_all fuel name new (drop (k + length name) s))
      end
  end.

Fixpoint join (g : segs) (old : nat) (new : list Z) (r : segs) : segs :=
  match g with
  | Last s => Then s old new r
  | Then s o v q => Then s o v (join q old new r)
  end.

(** A name is looked for in the pieces of the original text only. *)
Fixpoint replace_segs (name new : list Z) (g : segs) : segs :=
  match g with
  | Last s => replace_all (S (length s)) name new s
  | Then s o v r => join (replace_all (S (length s)) name new s) o v (replace_segs name new r)
  end.

Definition replace_param (g : segs) (p : param) : segs :=
  match p with
  | (Some name, v) => replace_segs name (NONULL v) g
  | (None, _) => g
  end.

(** The parameters in the order of the list. *)
Definition replace_params (params : list param) (s : list Z) : segs :=
  foldl replace_param (Last s) params.

(** A name that can be searched for: not empty, without the byte 1 the search
    overwrites with. *)
Definition searchable (name : list Z) : Prop := name <> [] /\ (1 ∉ name).

(** ** The searched text *)

Fixpoint masked (g : segs) : list Z :=
  match g with Last s => s | Then s o _ r => s ++ replicate o 1 ++ masked r end.

Fixpoint entries (off : nat) (g : segs) : list replacelist :=
  match g with
  | Last _ => []
  | Then s o v r => Repl (off + length s) (length v) o v :: entries (off + length s + o) r
  end.

Fixpoint left_len (g : segs) : nat :=
  match g with Last s => length s | Then s _ _ r => length s + left_len r end.

Fixpoint cut_wf (g : segs) : Prop :=
  match g with Last _ => True | Then _ o _ r => (0 < o)%nat /\ cut_wf r end.

Lemma prefixb_mask (p t r : list Z) : 1 ∉ p -> prefixb p (t ++ 1 :: r) = prefixb p t.
Proof.
  revert t; induction p as [|a p IH]; intros t H; [done|].
  apply not_elem_of_cons in H as [Ha H].
  destruct t as [|b t]; simpl; [|by rewrite IH].
  destruct (Z.eqb_spec a 1); [congruence|done].
Qed.

Lemma strstr_nil_r (p : list Z) : p <> [] -> strstr [] p = None.
Proof. by destruct p. Qed.

Lemma strstr_mask (p t r : list Z) :
  searchable p ->
  strstr (t ++ 1 :: r) p
  = match strstr t p with Some k => Some k | None => (fun k => S (length t + k)) <$> strstr r p end.
Proof.
  intros [Hne H1]. induction t as [|c t IH].
  - rewrite strstr_nil_r by done. change ([] ++ 1 :: r) with (1 :: r). simpl strstr at 1.
    pose proof (prefixb_mask p [] r H1) as E. simpl app in E. rewrite E.
    destruct p; [done|]. simpl. by destruct (strstr r _).
  - rewrite <- app_comm_cons. simpl strstr.
    change (c :: t ++ 1 :: r) with ((c :: t) ++ 1 :: r). rewrite prefixb_mask, IH by done.
    destruct (prefixb p (c :: t)); [done|].
    destruct (strstr t p); [done|]. by destruct (strstr r p).
Qed.

Lemma strstr_ones (p t r : list Z) (o : nat) :
  searchable p -> (0 < o)%nat ->
  strstr (t ++ replicate o 1 ++ r) p
  = match strstr t p with
    | Some k => Some k
    | None => (fun k => (length t + o + k)%nat) <$> strstr r p
    end.
Proof.
  intros Hp Ho. destruct o as [|o]; [lia|]. simpl. rewrite strstr_mask by done.
  destruct (strstr t p); [done|]. clear Ho.
  assert (E : strstr (replicate o 1 ++ r) p = (fun k => (o + k)%nat) <$> strstr r p).
  { induction o as [|o IH]; simpl replicate; [simpl app; by destruct (strstr r p)|].
    rewrite <- app_comm_cons.
    pose proof (strstr_mask p [] (replicate o 1 ++ r) Hp) as H. simpl app in H. rewrite H.
    rewrite strstr_nil_r by apply Hp. rewrite IH. by destruct (strstr r p). }
  rewrite E. destruct (strstr r p); simpl; [f_equal; lia|done].
Qed.

(** ** One occurrence *)

Fixpoint first_cut (name new : list Z) (g : segs) : option segs :=
  match g with
  | Last s =>
      k ← strstr s name;
      Some (Then (take k s) (length name) new (Last (drop (k + length name) s)))
  | Then s o v r =>
      match strstr s name with
      | Some k => Some (Then (take k s) (length name) new
                          (Then (drop (k + length name) s) o v r))
      | None => Then s o v <$> first_cut name new r
      end
  end.

Lemma masked_length (g : segs) (k : nat) (name : list Z) :
  strstr (masked g) name = Some k -> (k + length name <= length (masked g))%nat.
Proof. apply strstr_bound. Qed.

Lemma blit_app (s t data : list Z) (k : nat) :
  (k + length data <= length s)%nat -> blit (s ++ t) k data = blit s k data ++ t.
Proof.
  intros H. unfold blit. rewrite take_app_le by lia. rewrite drop_app_le by lia.
  by rewrite <- !app_assoc.
Qed.

Lemma blit_shift (s t data : list Z) (k : nat) :
  blit (s ++ t) (length s + k) data = s ++ blit t k data.
Proof.
  unfold blit. rewrite take_app_add, <- Nat.add_assoc, drop_app_add. by rewrite <- !app_assoc.
Qed.

Lemma strstr_take (s p : list Z) (k : nat) :
  p <> [] -> strstr s p = Some k -> strstr (take k s) p = None.
Proof.
  intros Hne H. apply strstr_Some in H as [_ H]. apply strstr_None. intros j.
  destruct (prefixb p (drop j (take k s))) eqn:E; [|done]. exfalso.
  apply prefixb_spec in E.
  destruct (Nat.lt_ge_cases j k) as [Hj|Hj].
  - specialize (H j Hj). assert (prefixb p (drop j s) = true); [|congruence].
    apply prefixb_spec. rewrite <- (take_drop k s) at 1.
    rewrite drop_app, <- (app_nil_r p). etrans; [|apply prefix_app_r; reflexivity].
    by rewrite app_nil_r.
  - rewrite drop_ge in E by (rewrite length_take; lia). by apply prefix_nil_inv in E.
Qed.

(** What the search finds, and the text and the list after it. *)
Lemma first_cut_spec (name new : list Z) (g : segs) :
  searchable name -> cut_wf g ->
  match first_cut name new g with
  | None => strstr (masked g) name = None
  | Some g' =>
      cut_wf g' /\ cuts g' = S (cuts g) /\ (left_len g' + length name = left_len g)%nat /\
      strlen (out g') = strlen (out g) + (strlen new - strlen name) /\
      exists k, strstr (masked g) name = Some k
        /\ masked g' = blit (masked g) k (replicate (length name) 1)
        /\ forall off, insert_rl (entries off g) (Repl (off + k) (length new) (length name) new)
                      = entries off g'
  end.
Proof.
  intros Hn. assert (Hpos : (0 < length name)%nat) by (destruct Hn as [H _]; destruct name; simpl; [done|lia]).
  induction g as [s|s o v r IH]; intros Hwf; simpl.
  - destruct (strstr s name) as [k|] eqn:E; simpl; [|done].
    pose proof (strstr_bound _ _ _ E) as Hb.
    split_and!; [lia|done|done|rewrite length_take, length_drop; lia| |].
    + unfold strlen. rewrite !length_app, length_take, length_drop. lia.
    + exists k. split_and!; [done| |].
      * unfold blit. by rewrite length_replicate.
      * intros off. rewrite length_take, Nat.min_l by lia. done.
  - destruct Hwf as [Ho Hwf]. rewrite strstr_ones by done.
    destruct (strstr s name) as [k|] eqn:E; simpl.
    + pose proof (strstr_bound _ _ _ E) as Hb.
      split_and!; [lia|done|done|done|rewrite length_take, length_drop; lia| |].
      * unfold strlen. rewrite !length_app, length_take, length_drop. lia.
      * exists k. split_and!; [done| |].
        -- rewrite blit_app by (rewrite length_replicate; lia).
           unfold blit. rewrite length_replicate. by rewrite <- !app_assoc.
        -- intros off. rewrite length_take, length_drop, Nat.min_l by lia.
           destruct (Nat.ltb_spec (off + k) (off + length s)); [|lia].
           f_equal. replace (off + k + length name + (length s - (k + length name)))%nat
             with (off + length s)%nat by lia. done.
    + specialize (IH Hwf). destruct (first_cut name new r) as [g'|]; simpl.
      * destruct IH as (H1 & H2 & H3 & H4 & k & Hk & Hm & He).
        split_and!; [done|done|lia|lia| |].
        -- unfold strlen in *. rewrite !length_app in *. lia.
        -- rewrite Hk. exists (length s + o + k)%nat. split_and!; [done| |].
           ++ rewrite Hm, !app_assoc.
              replace (length s + o + k)%nat with (length (s ++ replicate o 1%Z) + k)%nat
                by (rewrite length_app, length_replicate; lia).
              by rewrite blit_shift.
           ++ intros off. destruct (Nat.ltb_spec (off + (length s + o + k)) (off + length s)); [lia|].
              f_equal. rewrite <- He. do 2 f_equal. lia.
      * by rewrite IH.
Qed.

(** ** The loops *)

(** No occurrence starts before [in_inc]. *)
Definition searched (name text : list Z) (in_inc : nat) : Prop :=
  forall i, (i < in_inc)%nat -> prefixb name (drop i text) = false.

Lemma strstr_from (name text : list Z) (n : nat) :
  searched name text n -> name <> [] ->
  strstr text name = (fun k => (n + k)%nat) <$> strstr (drop n text) name.
Proof.
  revert text; induction n as [|n IH]; intros text H Hne.
  { rewrite drop_0. by destruct (strstr text name). }
  pose proof (H 0%nat ltac:(lia)) as H0. rewrite drop_0 in H0.
  destruct text as [|c text].
  { by rewrite drop_nil, strstr_nil_r. }
  simpl strstr at 1. rewrite H0. rewrite (IH text); [|intros i Hi; apply (H (S i)); lia|done].
  simpl. by destruct (strstr (drop n text) name).
Qed.

Lemma searched_blit (name text : list Z) (k : nat) :
  searchable name -> strstr text name = Some k ->
  searched name (blit text k (replicate (length name) 1)) (k + length name).
Proof.
  intros [Hne H1] Hk i Hi. pose proof (strstr_bound _ _ _ Hk) as Hb.
  unfold blit. rewrite length_replicate.
  assert (Hlt : length (take k text) = k) by (rewrite length_take; lia).
  destruct (prefixb _ _) eqn:E; [|done]. exfalso.
  destruct (Nat.lt_ge_cases i k) as [Hik|Hik].
  - rewrite drop_app_le in E by lia.
    destruct (length name) as [|n] eqn:Hn; [by apply nil_length_inv in Hn|].
    simpl in E. rewrite prefixb_mask in E by done.
    apply (strstr_take _ _ _ Hne) in Hk. rewrite strstr_None in Hk. by rewrite Hk in E.
  - rewrite drop_app_ge, Hlt, drop_app_le in E by (rewrite ?length_replicate; lia).
    rewrite drop_replicate in E. replace (length name - (i - k))%nat
      with (S (length name - (i - k) - 1)) in E by lia.
    destruct name as [|c name]; [done|]. simpl in E. apply andb_true_iff in E as [E _].
    apply Z.eqb_eq in E. subst c. set_solver.
Qed.

Fixpoint cut_all (fuel : nat) (name new : list Z) (g : segs) : segs :=
  match fuel with
  | O => g
  | S fuel => match first_cut name new g with
              | None => g
              | Some g' => cut_all fuel name new g'
              end
  end.

Lemma occurrences_cut_all (fuel : nat) (name new : list Z) :
  searchable name -> forall g in_inc,
  cut_wf g -> (left_len g < fuel)%nat -> searched name (masked g) in_inc ->
  occurrences fuel name new (masked g) in_inc (entries 0 g) (strlen (out g))
  = (let g' := cut_all fuel name new g in Some (masked g', entries 0 g', strlen (out g'))).
Proof.
  intros Hn. induction fuel as [|fuel IH]; intros g in_inc Hwf Hf Hs; [lia|]. simpl.
  pose proof (first_cut_spec name new g Hn Hwf) as Hc.
  pose proof (strstr_from name (masked g) in_inc Hs (proj1 Hn)) as Hfrom.
  destruct (first_cut name new g) as [g'|].
  - destruct Hc as (H1 & _ & H3 & H4 & k & Hk & Hm & He). rewrite Hk in Hfrom.
    destruct (strstr (drop in_inc (masked g)) name) as [k'|]; [|done].
    injection Hfrom as Hk'. rewrite <- Hk', <- Hm, <- H4.
    specialize (He 0%nat). simpl in He. rewrite He.
    apply IH; [done|destruct Hn as [Hne _]; destruct name; simpl in *; [done|lia]|].
    rewrite Hm. intros i Hi. apply (searched_blit name (masked g) k Hn Hk). lia.
  - rewrite Hc in Hfrom. by destruct (strstr (drop in_inc (masked g)) name).
Qed.

(** ** The search finds all the occurrences *)

Lemma replace_all_fuel (name new : list Z) : name <> [] -> forall f1 f2 s,
  (length s < f1)%nat -> (length s < f2)%nat ->
  replace_all f1 name new s = replace_all f2 name new s.
Proof.
  intros Hne f1. induction f1 as [|f1 IH]; intros [|f2] s H1 H2; try lia. simpl.
  destruct (strstr s name) as [k|] eqn:E; [|done].
  pose proof (strstr_bound _ _ _ E). destruct name as [|c name]; [done|].
  rewrite (IH f2); [done| |]; rewrite length_drop; simpl in *; lia.
Qed.

Lemma replace_all_cut (name new s : list Z) (k : nat) :
  name <> [] -> strstr s name = Some k ->
  replace_all (S (length s)) name new s
  = Then (take k s) (length name) new
      (replace_all (S (length (drop (k + length name) s))) name new (drop (k + length name) s)).
Proof.
  intros Hne E. set (R := replace_all (S (length (drop _ s))) name new _).
  simpl. rewrite E. f_equal. subst R.
  pose proof (strstr_bound _ _ _ E). destruct name as [|c name]; [done|].
  apply replace_all_fuel; [done| |]; rewrite length_drop; simpl in *; lia.
Qed.

Lemma replace_all_none (name new s : list Z) (f : nat) :
  strstr s name = None -> replace_all f name new s = Last s.
Proof. intros E. destruct f; simpl; [done|]. by rewrite E. Qed.

Lemma replace_segs_cut (name new : list Z) (g : segs) :
  searchable name ->
  match first_cut name new g with
  | Some g' => replace_segs name new g' = replace_segs name new g
  | None => replace_segs name new g = g
  end.
Proof.
  intros [Hne H1]. induction g as [s|s o v r IH]; cbn [first_cut].
  - destruct (strstr s name) as [k|] eqn:E; simpl mbind; cbv beta iota.
    + cbn [replace_segs]. rewrite (replace_all_none _ _ (take k s)) by (by apply strstr_take).
      by rewrite (replace_all_cut _ _ _ _ Hne E).
    + by apply replace_all_none.
  - destruct (strstr s name) as [k|] eqn:E.
    + cbn [replace_segs]. rewrite (replace_all_none _ _ (take k s)) by (by apply strstr_take).
      by rewrite (replace_all_cut _ _ _ _ Hne E).
    + destruct (first_cut name new r) as [r'|]; simpl fmap; cbv beta iota; cbn [replace_segs];
        rewrite (replace_all_none _ _ s) by done; cbn [join]; by rewrite IH.
Qed.

Lemma cut_all_replace (fuel : nat) (name new : list Z) :
  searchable name -> forall g, cut_wf g -> (left_len g < fuel)%nat ->
  let g' := cut_all fuel name new g in
  g' = replace_segs name new g /\ cut_wf g' /\ (left_len g' <= left_len g)%nat.
Proof.
  intros Hn. induction fuel as [|fuel IH]; intros g Hwf Hf; [lia|]. simpl.
  pose proof (first_cut_spec name new g Hn Hwf) as Hc.
  pose proof (replace_segs_cut name new g Hn) as Hr.
  destruct (first_cut name new g) as [g'|]; [|by split_and!].
  destruct Hc as (H1 & _ & H3 & _). rewrite <- Hr.
  destruct (IH g' H1) as (H4 & H5 & H6).
  { destruct Hn as [Hne _]; destruct name; simpl in *; [done|lia]. }
  split_and!; [done|done|lia].
Qed.

(** One pass of the loop over the parameters. *)
Lemma collect_correct (fuel : nat) (params : list param) :
  Forall (fun p => match p.1 with Some n => searchable n | None => True end) params ->
  forall g, cut_wf g -> (left_len g < fuel)%nat ->
  let g' := foldl replace_param g params in
  collect fuel params (masked g) (entries 0 g) (strlen (out g))
  = Some (masked g', entries 0 g', strlen (out g')).
Proof.
  induction 1 as [|[[name|] v] params Hp _ IH]; intros g Hwf Hf; simpl; [done| |].
  - rewrite occurrences_cut_all; [|done|done|done|intros i Hi; lia]. simpl.
    destruct (cut_all_replace fuel name (NONULL v) Hp g Hwf Hf) as (H1 & H2 & H3).
    rewrite IH by (done || lia). by rewrite H1.
  - by apply IH.
Qed.

(** ** The new text *)

Lemma drop_app_piece (n : nat) (s t text : list Z) :
  drop n text = s ++ t -> drop (n + length s) text = t.
Proof. intros H. rewrite <- drop_drop, H. by rewrite drop_app_length. Qed.

Lemma rebuild_out (g : segs) : forall text dst last len,
  drop last text = masked g -> len = strlen dst + strlen (out g) ->
  rebuild (entries last g) text dst last len = dst ++ out g.
Proof.
  induction g as [s|s o v r IH]; intros text dst last len Hd Hlen; simpl in *.
  - destruct (Z.ltb_spec 0 (len - strlen dst)) as [H|H].
    + f_equal. rewrite Hd. apply take_ge. unfold strlen in *. lia.
    + replace s with (@nil Z); [by rewrite app_nil_r|].
      destruct s; [done|]. unfold strlen in *; simpl in *. lia.
  - replace (last + length s - last)%nat with (length s) by lia.
    rewrite Hd, take_app_length.
    apply drop_app_piece in Hd as Hd2. apply drop_app_piece in Hd2 as Hd3.
    rewrite length_replicate in Hd3.
    assert (Ev : (if (0 <? length v)%nat then (dst ++ s) ++ take (length v) v else dst ++ s)
                 = dst ++ s ++ v).
    { rewrite app_assoc. destruct v; [simpl; by rewrite app_nil_r|].
      rewrite take_ge by lia. done. }
    rewrite Ev, IH; [by rewrite <- !app_assoc|done|].
    unfold strlen in *. rewrite !length_app in *. lia.
Qed.

Lemma entries_cuts (g : segs) (off : nat) : length (entries off g) = cuts g.
Proof. revert off; induction g as [|s o v r IH]; intros off; simpl; [done|]. by rewrite IH. Qed.

Lemma cuts_join (q r : segs) (o : nat) (v : list Z) : (0 < cuts (join q o v r))%nat.
Proof. destruct q; simpl; lia. Qed.

Lemma replace_nothing (params : list param) (g : segs) (text : list Z) :
  cuts (foldl replace_param g params) = 0%nat ->
  out g = text -> cuts g = 0%nat /\ out (foldl replace_param g params) = text.
Proof.
  revert g text; induction params as [|[[name|] v] params IH]; intros g text H Ho; simpl in *;
    [done| |by apply IH].
  assert (Hg : cuts (replace_segs name (NONULL v) g) = 0%nat) by (by eapply IH).
  destruct g as [s|s o w r]; simpl in Hg;
    [|pose proof (cuts_join (replace_all (S (length s)) name (NONULL v) s)
                    (replace_segs name (NONULL v) r) o w); simpl in *; lia].
  destruct (strstr s name) eqn:E; [done|]. split; [done|].
  eapply IH; [done|]. simpl. by rewrite E.
Qed.

(** Replacing parameters in a line ends, and gives the text in which every
    occurrence of every name is replaced by its value, the names in the order
    of the list and each only in what the earlier ones left of the line,
    never in a value that was put in; the return value is the number of
    replacements, and the line itself is returned when there are none.
    One more step than the line has bytes is enough for the search. *)
Lemma strreplace_correct (text : list Z) (params : list param) (fuel : nat) :
  Forall (fun p => match p.1 with Some n => searchable n | None => True end) params ->
  (length text < fuel)%nat ->
  let g := replace_params params text in
  exists text', paramlist_strreplace fuel (Some text) params
    = Some (Z.of_nat (cuts g), Some (out g), text')
  /\ (cuts g = 0%nat -> text' = text /\ out g = text).
Proof.
  intros Hp Hf g. destruct params as [|p params].
  { exists text. by split. }
  pose proof (collect_correct fuel (p :: params) Hp (Last text) I Hf) as Hc.
  fold (replace_params (p :: params) text) in Hc. fold g in Hc. cbv zeta in Hc.
  cbn [masked entries out] in Hc.
  exists (masked g). unfold paramlist_strreplace. rewrite Hc, entries_cuts.
  assert (H0 : cuts g = 0%nat -> masked g = out g) by (by destruct g).
  split.
  - destruct (Z.ltb_spec 0 (Z.of_nat (cuts g))) as [H|H].
    + do 4 f_equal. by apply (rebuild_out g (masked g) [] 0).
    + rewrite H0 by lia. do 3 f_equal. lia.
  - intros H. split; [rewrite H0 by done|];
      by apply (replace_nothing (p :: params) (Last text) text).
Qed.

Lemma strreplace_correct_witness :
  exists text', paramlist_strreplace 12 (Some (bytes "Hi %USER%!")) [(Some (bytes "%USER%"), Some (bytes "%USER%s"))]
    = Some (1, Some (bytes "Hi %USER%s!"), text').
Proof.
  destruct (strreplace_correct (bytes "Hi %USER%!")
              [(Some (bytes "%USER%"), Some (bytes "%USER%s"))] 12) as (t & H & _).
  - constructor; [|constructor]. split; [done|]. by apply (bool_decide_unpack _).
  - simpl. lia.
  - exists t. exact H.
Defined.
