(* ===== verification/P3Proxy.v ===== *)
(** * P3Proxy: a POP3 connection of the mail proxy

    [proxy] of v3.0/src/p3scan-mybox/src/p3scan.c with its helpers, for a POP3
    connection: the lines of client and server are passed on; a mail that the
    client asks for is caught in a file, its first header lines in another,
    and is scanned when it is complete.  A clean mail is then sent, an
    infected one replaced by a notice.  Meanwhile the client is fed header
    bytes, one at each timeout.

    What [getlinep3] gives in each turn of the loop is an input (P3Line models
    it); files are read by lines in the same way.  Whether a timeout has
    passed at each check, and what each write to a socket returns, are lists
    in the state; the scanner, the files of lists and templates and PCRE are
    parameters.  Files can be opened and written, and their lines fit the line
    buffer.  SMTP and IMAP, the check for spam, the extra notice, the option
    "broken" and the build with libclamav are not modelled.

    [quiet] and [blind] say of a program what it leaves alone and what it does not
    look at; each has a rule for every operation of the monad.  The theorems: the
    body of an infected mail has no influence on what the client is sent, and a
    clean mail arrives line by line. *)

From S2P Require Import Prelude CString LibMybox P3Line P3Match ParseFile.

Module P3Proxy.
Import P3Match.

Definition ACT_RETR : Z := 1.
Definition ACT_TOP : Z := 2.
Definition SCANNER_INIT_NO : Z := 0.
Definition SCANNER_INIT_OK : Z := 1.
Definition SCANNER_INIT_NULL : Z := 2.
Definition SCANNER_INIT_ERR : Z := -1.
Definition SCANNER_RET_OK : Z := 0.
Definition SCANNER_RET_ERR : Z := -1.
Definition SCANNER_RET_VIRUS : Z := 2.
Definition SCANNER_RET_CRIT : Z := 3.
Definition EPIPE : Z := 32.
Definition PERIOD : list Z := bytes ".".
Definition CRLF : list Z := [CR; LF].

(** [strncasecmp] with the length of the word: the line begins with it. *)
Definition begins (w line : list Z) : bool := strcasecmp_eq (take (length w) line) w.

(** ** Data *)

Record config := Conf {
  scannerenabled : bool; noeom : bool; delit : bool; altvnmsg : bool; blackshort : bool; cleankill : bool;
  skipsize : Z; freespace : Z;
  ispspam : option (list Z); subject : list Z; blacksubj : list Z; notify : list Z
}.

(** The [line] and [linelen] of a line buffer. *)
Record lbuf := Lbuf { lb_line : option (list Z); lb_len : Z }.

(** The array of message sizes: how many entries it has room for, and those written. *)
Definition sizes : Type := Z * gmap Z Z.

Inductive event :=
| ToClient (l : list Z)
| ToServer (l : list Z)
| Quarantine (mail : list Z).

(** The context and the variables of [proxy]; [mail] and [hdr] are the files;
    [hdr_pos] is where the header file is read, once it is closed for writing. *)
Record st := St {
  ismail : Z; action : Z; msgnum : Z; noop : Z; notified : bool;
  hdroffset : Z; hdrdate : bool; hdrfrom : bool; hdrto : bool; header_exists : bool;
  blacklist : bool; whitelist : bool; noscan : bool; nosend : bool; scannerinit : Z;
  cbuff : Z; hdr_pos : option nat; clientbuf : lbuf; serverbuf : lbuf; params : list param;
  trapcapa1 : bool; trapcapa3 : bool; getmsgsize : bool; didit : bool; uidl : bool;
  ii : Z; msgnr : option sizes; mail : list Z; hdr : list Z; ispam : bool;
  late : list bool; wres : list Z; out : list event
}.

Definition set_ismail (v_ismail : Z) (s : st) : st :=
  St v_ismail (action s) (msgnum s) (noop s) (notified s) (hdroffset s) (hdrdate s) (hdrfrom s) (hdrto s) (header_exists s)
    (blacklist s) (whitelist s) (noscan s) (nosend s) (scannerinit s) (cbuff s) (hdr_pos s) (clientbuf s) (serverbuf s) (params s)
    (trapcapa1 s) (trapcapa3 s) (getmsgsize s) (didit s) (uidl s) (ii s) (msgnr s) (mail s) (hdr s) (ispam s) (late s) (wres s)
    (out s).
Definition set_mode (v_ismail : Z) (v_action : Z) (s : st) : st :=
  St v_ismail v_action (msgnum s) (noop s) (notified s) (hdroffset s) (hdrdate s) (hdrfrom s) (hdrto s) (header_exists s)
    (blacklist s) (whitelist s) (noscan s) (nosend s) (scannerinit s) (cbuff s) (hdr_pos s) (clientbuf s) (serverbuf s) (params s)
    (trapcapa1 s) (trapcapa3 s) (getmsgsize s) (didit s) (uidl s) (ii s) (msgnr s) (mail s) (hdr s) (ispam s) (late s) (wres s)
    (out s).
Definition set_msgnum (v_msgnum : Z) (s : st) : st :=
  St (ismail s) (action s) v_msgnum (noop s) (notified s) (hdroffset s) (hdrdate s) (hdrfrom s) (hdrto s) (header_exists s)
    (blacklist s) (whitelist s) (noscan s) (nosend s) (scannerinit s) (cbuff s) (hdr_pos s) (clientbuf s) (serverbuf s) (params s)
    (trapcapa1 s) (trapcapa3 s) (getmsgsize s) (didit s) (uidl s) (ii s) (msgnr s) (mail s) (hdr s) (ispam s) (late s) (wres s)
    (out s).
Definition set_noop (v_noop : Z) (s : st) : st :=
  St (ismail s) (action s) (msgnum s) v_noop (notified s) (hdroffset s) (hdrdate s) (hdrfrom s) (hdrto s) (header_exists s)
    (blacklist s) (whitelist s) (noscan s) (nosend s) (scannerinit s) (cbuff s) (hdr_pos s) (clientbuf s) (serverbuf s) (params s)
    (trapcapa1 s) (trapcapa3 s) (getmsgsize s) (didit s) (uidl s) (ii s) (msgnr s) (mail s) (hdr s) (ispam s) (late s) (wres s)
    (out s).
Definition set_hdroffset (v_hdroffset : Z) (s : st) : st :=
  St (ismail s) (action s) (msgnum s) (noop s) (notified s) v_hdroffset (hdrdate s) (hdrfrom s) (hdrto s) (header_exists s)
    (blacklist s) (whitelist s) (noscan s) (nosend s) (scannerinit s) (cbuff s) (hdr_pos s) (clientbuf s) (serverbuf s) (params s)
    (trapcapa1 s) (trapcapa3 s) (getmsgsize s) (didit s) (uidl s) (ii s) (msgnr s) (mail s) (hdr s) (ispam s) (late s) (wres s)
    (out s).
Definition set_seen (v_hdrdate : bool) (v_hdrfrom : bool) (v_hdrto : bool) (s : st) : st :=
  St (ismail s) (action s) (msgnum s) (noop s) (notified s) (hdroffset s) v_hdrdate v_hdrfrom v_hdrto (header_exists s) (blacklist
    s) (whitelist s) (noscan s) (nosend s) (scannerinit s) (cbuff s) (hdr_pos s) (clientbuf s) (serverbuf s) (params s) (trapcapa1
    s) (trapcapa3 s) (getmsgsize s) (didit s) (uidl s) (ii s) (msgnr s) (mail s) (hdr s) (ispam s) (late s) (wres s) (out s).
Definition set_header_exists (v_header_exists : bool) (s : st) : st :=
  St (ismail s) (action s) (msgnum s) (noop s) (notified s) (hdroffset s) (hdrdate s) (hdrfrom s) (hdrto s) v_header_exists
    (blacklist s) (whitelist s) (noscan s) (nosend s) (scannerinit s) (cbuff s) (hdr_pos s) (clientbuf s) (serverbuf s) (params s)
    (trapcapa1 s) (trapcapa3 s) (getmsgsize s) (didit s) (uidl s) (ii s) (msgnr s) (mail s) (hdr s) (ispam s) (late s) (wres s)
    (out s).
Definition set_lists (v_blacklist : bool) (v_whitelist : bool) (s : st) : st :=
  St (ismail s) (action s) (msgnum s) (noop s) (notified s) (hdroffset s) (hdrdate s) (hdrfrom s) (hdrto s) (header_exists s)
    v_blacklist v_whitelist (noscan s) (nosend s) (scannerinit s) (cbuff s) (hdr_pos s) (clientbuf s) (serverbuf s) (params s)
    (trapcapa1 s) (trapcapa3 s) (getmsgsize s) (didit s) (uidl s) (ii s) (msgnr s) (mail s) (hdr s) (ispam s) (late s) (wres s)
    (out s).
Definition set_verdict (v_noscan : bool) (v_nosend : bool) (s : st) : st :=
  St (ismail s) (action s) (msgnum s) (noop s) (notified s) (hdroffset s) (hdrdate s) (hdrfrom s) (hdrto s) (header_exists s)
    (blacklist s) (whitelist s) v_noscan v_nosend (scannerinit s) (cbuff s) (hdr_pos s) (clientbuf s) (serverbuf s) (params s)
    (trapcapa1 s) (trapcapa3 s) (getmsgsize s) (didit s) (uidl s) (ii s) (msgnr s) (mail s) (hdr s) (ispam s) (late s) (wres s)
    (out s).
Definition set_scannerinit (v_scannerinit : Z) (s : st) : st :=
  St (ismail s) (action s) (msgnum s) (noop s) (notified s) (hdroffset s) (hdrdate s) (hdrfrom s) (hdrto s) (header_exists s)
    (blacklist s) (whitelist s) (noscan s) (nosend s) v_scannerinit (cbuff s) (hdr_pos s) (clientbuf s) (serverbuf s) (params s)
    (trapcapa1 s) (trapcapa3 s) (getmsgsize s) (didit s) (uidl s) (ii s) (msgnr s) (mail s) (hdr s) (ispam s) (late s) (wres s)
    (out s).
Definition set_client (v_clientbuf : lbuf) (s : st) : st :=
  St (ismail s) (action s) (msgnum s) (noop s) (notified s) (hdroffset s) (hdrdate s) (hdrfrom s) (hdrto s) (header_exists s)
    (blacklist s) (whitelist s) (noscan s) (nosend s) (scannerinit s) (cbuff s) (hdr_pos s) v_clientbuf (serverbuf s) (params s)
    (trapcapa1 s) (trapcapa3 s) (getmsgsize s) (didit s) (uidl s) (ii s) (msgnr s) (mail s) (hdr s) (ispam s) (late s) (wres s)
    (out s).
Definition set_server (v_serverbuf : lbuf) (s : st) : st :=
  St (ismail s) (action s) (msgnum s) (noop s) (notified s) (hdroffset s) (hdrdate s) (hdrfrom s) (hdrto s) (header_exists s)
    (blacklist s) (whitelist s) (noscan s) (nosend s) (scannerinit s) (cbuff s) (hdr_pos s) (clientbuf s) v_serverbuf (params s)
    (trapcapa1 s) (trapcapa3 s) (getmsgsize s) (didit s) (uidl s) (ii s) (msgnr s) (mail s) (hdr s) (ispam s) (late s) (wres s)
    (out s).
Definition set_params (v_params : list param) (s : st) : st :=
  St (ismail s) (action s) (msgnum s) (noop s) (notified s) (hdroffset s) (hdrdate s) (hdrfrom s) (hdrto s) (header_exists s)
    (blacklist s) (whitelist s) (noscan s) (nosend s) (scannerinit s) (cbuff s) (hdr_pos s) (clientbuf s) (serverbuf s) v_params
    (trapcapa1 s) (trapcapa3 s) (getmsgsize s) (didit s) (uidl s) (ii s) (msgnr s) (mail s) (hdr s) (ispam s) (late s) (wres s)
    (out s).
Definition set_capa (v_trapcapa1 : bool) (v_trapcapa3 : bool) (s : st) : st :=
  St (ismail s) (action s) (msgnum s) (noop s) (notified s) (hdroffset s) (hdrdate s) (hdrfrom s) (hdrto s) (header_exists s)
    (blacklist s) (whitelist s) (noscan s) (nosend s) (scannerinit s) (cbuff s) (hdr_pos s) (clientbuf s) (serverbuf s) (params s)
    v_trapcapa1 v_trapcapa3 (getmsgsize s) (didit s) (uidl s) (ii s) (msgnr s) (mail s) (hdr s) (ispam s) (late s) (wres s) (out
    s).
Definition set_list (v_getmsgsize : bool) (v_didit : bool) (s : st) : st :=
  St (ismail s) (action s) (msgnum s) (noop s) (notified s) (hdroffset s) (hdrdate s) (hdrfrom s) (hdrto s) (header_exists s)
    (blacklist s) (whitelist s) (noscan s) (nosend s) (scannerinit s) (cbuff s) (hdr_pos s) (clientbuf s) (serverbuf s) (params s)
    (trapcapa1 s) (trapcapa3 s) v_getmsgsize v_didit (uidl s) (ii s) (msgnr s) (mail s) (hdr s) (ispam s) (late s) (wres s) (out
    s).
Definition set_uidl (v_uidl : bool) (s : st) : st :=
  St (ismail s) (action s) (msgnum s) (noop s) (notified s) (hdroffset s) (hdrdate s) (hdrfrom s) (hdrto s) (header_exists s)
    (blacklist s) (whitelist s) (noscan s) (nosend s) (scannerinit s) (cbuff s) (hdr_pos s) (clientbuf s) (serverbuf s) (params s)
    (trapcapa1 s) (trapcapa3 s) (getmsgsize s) (didit s) v_uidl (ii s) (msgnr s) (mail s) (hdr s) (ispam s) (late s) (wres s) (out
    s).
Definition set_sizes (v_ii : Z) (v_msgnr : option sizes) (s : st) : st :=
  St (ismail s) (action s) (msgnum s) (noop s) (notified s) (hdroffset s) (hdrdate s) (hdrfrom s) (hdrto s) (header_exists s)
    (blacklist s) (whitelist s) (noscan s) (nosend s) (scannerinit s) (cbuff s) (hdr_pos s) (clientbuf s) (serverbuf s) (params s)
    (trapcapa1 s) (trapcapa3 s) (getmsgsize s) (didit s) (uidl s) v_ii v_msgnr (mail s) (hdr s) (ispam s) (late s) (wres s) (out
    s).
Definition set_mail (v_mail : list Z) (s : st) : st :=
  St (ismail s) (action s) (msgnum s) (noop s) (notified s) (hdroffset s) (hdrdate s) (hdrfrom s) (hdrto s) (header_exists s)
    (blacklist s) (whitelist s) (noscan s) (nosend s) (scannerinit s) (cbuff s) (hdr_pos s) (clientbuf s) (serverbuf s) (params s)
    (trapcapa1 s) (trapcapa3 s) (getmsgsize s) (didit s) (uidl s) (ii s) (msgnr s) v_mail (hdr s) (ispam s) (late s) (wres s) (out
    s).
Definition set_hdr (v_hdr : list Z) (s : st) : st :=
  St (ismail s) (action s) (msgnum s) (noop s) (notified s) (hdroffset s) (hdrdate s) (hdrfrom s) (hdrto s) (header_exists s)
    (blacklist s) (whitelist s) (noscan s) (nosend s) (scannerinit s) (cbuff s) (hdr_pos s) (clientbuf s) (serverbuf s) (params s)
    (trapcapa1 s) (trapcapa3 s) (getmsgsize s) (didit s) (uidl s) (ii s) (msgnr s) (mail s) v_hdr (ispam s) (late s) (wres s) (out
    s).
Definition set_ispam (v_ispam : bool) (s : st) : st :=
  St (ismail s) (action s) (msgnum s) (noop s) (notified s) (hdroffset s) (hdrdate s) (hdrfrom s) (hdrto s) (header_exists s)
    (blacklist s) (whitelist s) (noscan s) (nosend s) (scannerinit s) (cbuff s) (hdr_pos s) (clientbuf s) (serverbuf s) (params s)
    (trapcapa1 s) (trapcapa3 s) (getmsgsize s) (didit s) (uidl s) (ii s) (msgnr s) (mail s) (hdr s) v_ispam (late s) (wres s) (out
    s).
Definition set_reading (v_cbuff : Z) (v_hdr_pos : option nat) (s : st) : st :=
  St (ismail s) (action s) (msgnum s) (noop s) (notified s) (hdroffset s) (hdrdate s) (hdrfrom s) (hdrto s) (header_exists s)
    (blacklist s) (whitelist s) (noscan s) (nosend s) (scannerinit s) v_cbuff v_hdr_pos (clientbuf s) (serverbuf s) (params s)
    (trapcapa1 s) (trapcapa3 s) (getmsgsize s) (didit s) (uidl s) (ii s) (msgnr s) (mail s) (hdr s) (ispam s) (late s) (wres s)
    (out s).
Definition set_notified (v_notified : bool) (s : st) : st :=
  St (ismail s) (action s) (msgnum s) (noop s) v_notified (hdroffset s) (hdrdate s) (hdrfrom s) (hdrto s) (header_exists s)
    (blacklist s) (whitelist s) (noscan s) (nosend s) (scannerinit s) (cbuff s) (hdr_pos s) (clientbuf s) (serverbuf s) (params s)
    (trapcapa1 s) (trapcapa3 s) (getmsgsize s) (didit s) (uidl s) (ii s) (msgnr s) (mail s) (hdr s) (ispam s) (late s) (wres s)
    (out s).
Definition set_late (v_late : list bool) (s : st) : st :=
  St (ismail s) (action s) (msgnum s) (noop s) (notified s) (hdroffset s) (hdrdate s) (hdrfrom s) (hdrto s) (header_exists s)
    (blacklist s) (whitelist s) (noscan s) (nosend s) (scannerinit s) (cbuff s) (hdr_pos s) (clientbuf s) (serverbuf s) (params s)
    (trapcapa1 s) (trapcapa3 s) (getmsgsize s) (didit s) (uidl s) (ii s) (msgnr s) (mail s) (hdr s) (ispam s) v_late (wres s) (out
    s).
Definition set_out (v_wres : list Z) (v_out : list event) (s : st) : st :=
  St (ismail s) (action s) (msgnum s) (noop s) (notified s) (hdroffset s) (hdrdate s) (hdrfrom s) (hdrto s) (header_exists s)
    (blacklist s) (whitelist s) (noscan s) (nosend s) (scannerinit s) (cbuff s) (hdr_pos s) (clientbuf s) (serverbuf s) (params s)
    (trapcapa1 s) (trapcapa3 s) (getmsgsize s) (didit s) (uidl s) (ii s) (msgnr s) (mail s) (hdr s) (ispam s) (late s) v_wres
    v_out.

(** What a call gives: a result and the state; a return from [proxy]; the end of the
    process ([LOG_EMERG] with "cleankill", or after the context was freed); or an
    access outside of memory. *)
Inductive outcome (A : Type) :=
| Go (a : A) (s : st)
| Return (code : Z) (s : st)
| Dead (s : st)
| Crash.
Arguments Go {A} a s. Arguments Return {A} code s. Arguments Dead {A} s. Arguments Crash {A}.

Definition M (A : Type) : Type := st -> outcome A.

Definition give {A} (a : A) : M A := fun s => Go a s.
#[local] Instance M_bind : MBind M := fun A B f m s =>
  match m s with Go a s => f a s | Return c s => Return c s | Dead s => Dead s | Crash => Crash end.

Definition gets {A} (f : st -> A) : M A := fun s => Go (f s) s.
Definition upd (f : st -> st) : M unit := fun s => Go tt (f s).
Definition return_ {A} (code : Z) : M A := fun s => Return code s.
Definition dead {A} : M A := fun s => Dead s.
Definition crash {A} : M A := fun _ => Crash.

(** ** Sockets and the header file *)

(** The write of a text: 0 when it was taken whole. *)
Definition send (e : event) : M Z := fun s =>
  match wres s with
  | [] => Go 0 (set_out [] (out s ++ [e]) s)
  | r :: w => Go r (set_out w (if r =? 0 then out s ++ [e] else out s) s)
  end.

Definition write_client (l : list Z) : M Z := send (ToClient l).
Definition line_client (l : list Z) : M Z := send (ToClient (l ++ CRLF)).
Definition line_server (l : list Z) : M Z := send (ToServer (l ++ CRLF)).

(** [writeline_format] with a line end: the buffer has 4096 bytes, and [vsnprintf] gives
    the length that the text would have. *)
Definition format_client (l : list Z) : M Z := if strlen l <? 4090 then line_client l else crash.

(** A read of a byte of the header file, which stands at its end while it is written. *)
Definition read_hdr : M Z := fun s =>
  match hdr_pos s with
  | None => Go 0 s
  | Some k => match hdr s !! k with Some c => Go 1 (set_reading c (Some (S k)) s) | None => Go 0 s end
  end.

Definition timed_out : M bool := fun s => match late s with [] => Go false s | b :: l => Go b (set_late l s) end.

(** A failed read would start a header line of its own; the end of the file is no
    failure. *)
Definition checktimeout : M Z :=
  act ← gets action;
  if act =? ACT_TOP then give 0
  else
    t ← timed_out;
    if (t : bool) then
      m ← gets ismail;
      r ← (if m =? 5 then give 0
           else
             _ ← read_hdr;
             c ← gets cbuff;
             senterr ← write_client [c];
             if senterr <? 0 then give senterr else _ ← upd (fun s => set_hdroffset (hdroffset s + 1) s); give 0);
      if r <? 0 then give r
      else if 3 <? m then
        senterr ← line_server (bytes "NOOP");
        if senterr <? 0 then give senterr else _ ← upd (fun s => set_noop (noop s + 1) s); give 0
      else give 0
    else give 0.

Definition closehdrfile : M unit :=
  _ ← upd (fun s => set_hdroffset 0 (set_reading (cbuff s) (Some 0%nat) s));
  n ← gets notified;
  _ ← (if (n : bool) then give tt else _ ← format_client (bytes "+OK P3Scan'ing..."); upd (set_notified true));
  upd (set_ismail 3).

(** [writeline] to the mail file and, while it is open for writing, to the header file. *)
Definition write_mail (l : list Z) : M unit := upd (fun s => set_mail (mail s ++ l) s).
Definition write_hdr (l : list Z) : M unit := upd (fun s => if ismail s <? 3 then set_hdr (hdr s ++ l) s else s).

(** The lines of a file. *)
Definition file_lines (content : list Z) : list (list Z) := map handed (lines_of content).1.

Section Proxy.
Variable cfg : config.
(** The black and the white list, the template of the notice, what the scanner made of
    the copy of it, and the expressions of the lists. *)
Variables list_black list_white template vnmsg : option (list Z).
Variable preg_match : list Z -> list Z -> bool.
(** The start of the scanner, if it has one, and its verdict on a file. *)
Variable init2 : option bool.
Variable scan : list Z -> Z * option (list Z).
Variable kbfree : Z.
Variables maildate filename : list Z.

(** [do_log] at [LOG_EMERG]. *)
Definition emerg : M unit := if cleankill cfg then dead else give tt.

(** ** Sending a file *)

(** The loop of [send_mailfile]: the bytes sent, whether a line was a single dot, and an
    early result. *)
Fixpoint send_lines (lines : list (list Z)) (len : Z) (gotprd : bool) : M (Z * bool * option Z) :=
  r ← checktimeout;
  if r =? GETLINE_PIPE then give (len, gotprd, Some EPIPE)
  else if negb (r =? 0) then dead
  else
    match lines with
    | [] => give (len, gotprd, None)
    | l :: lines =>
        let gotprd := gotprd || bool_decide (l = bytes ".") || bool_decide (l = bytes "." ++ [CR]) in
        r ← line_client l;
        if r =? GETLINE_PIPE then give (len + strlen l, gotprd, Some EPIPE)
        else if negb (r =? 0) then dead
        else send_lines lines (len + strlen l) gotprd
    end.

Definition send_mailfile (content : list Z) : M Z :=
  off ← gets hdroffset;
  x ← send_lines (file_lines (drop (Z.to_nat off) content)) 0 false;
  let '(len, gotprd, early) := (x : Z * bool * option Z) in
  match early with
  | Some r => give r
  | None => _ ← (if gotprd then give 0 else line_client PERIOD); give len
  end.

(** ** Parameters *)

Definition param_set (n : string) (v : option (list Z)) (s : st) : st := set_params (paramlist_set (params s) (Some (bytes n)) v).2 s.
Definition param_get (n : string) (s : st) : option (list Z) := paramlist_get (params s) (Some (bytes n)).

(** [set_paramsfrommailheader]. *)
Fixpoint header_params (lines : list (list Z)) (s : st) : st :=
  match lines with
  | [] => s
  | [] :: _ => s
  | l :: lines =>
      header_params lines
        (if begins (bytes "from: ") l then param_set "%MAILFROM%" (Some (trim (drop 6 l))) s
         else if begins (bytes "subject: ") l then param_set "%SUBJECT%" (Some (trim (drop 9 l))) s
         else if begins (bytes "To: ") l then param_set "%MAILTO%" (Some (trim (drop 4 l))) s
         else if begins (bytes "X-RCPT-TO: ") l then
           match param_get "%USERNAME%" s with
           | Some _ => s
           | None => let c := trim (drop 11 l) in param_set "%USERNAME%" (Some (substr c 1 (u32 (strlen c - 2)))) s
           end
         else s)
  end.
Definition set_paramsfrommailheader (s : st) : st := header_params (file_lines (mail s)) s.

Definition unset_paramsfrommailheader (s : st) : st :=
  foldl (fun s n => param_set n None s) s
    ["%MAILFROM%"; "%SUBJECT%"; "%MAILTO%"; "%VIRUSNAME%"; "%MAILFILE%"; "%P3SCANID%"; "%VDINFO%"]%string.

(** [%s] of a text that may be missing. *)
Definition printed (x : option (list Z)) : list Z := default (bytes "(null)") x.

(** ** An infected mail *)

(** The rest of the header file, with line ends of two bytes. *)
Fixpoint flush_hdr (l : list Z) : M unit :=
  match l with
  | [] => give tt
  | c :: l =>
      _ ← read_hdr;
      r ← write_client (if (c =? CR) || (c =? LF) then CRLF else [c]);
      if r =? GETLINE_ERR then dead else flush_hdr l
  end.

(** [parsefile]: the lines of a template with their parameters replaced. *)
Definition parsefile (file : list Z) (ps : list param) : option (list Z) :=
  mapM (fun l => '(_, dst, _) ← paramlist_strreplace (S (length l)) (Some l) ps; dst) (file_lines file)
    ≫= fun ls => Some (concat (map (fun l => l ++ CRLF) ls)).

Definition do_virusaction : M Z :=
  rest ← gets (fun s => drop (default 0%nat (hdr_pos s)) (hdr s));
  _ ← flush_hdr rest;
  s ← gets id;
  _ ← (if hdrdate s then give 0 else format_client (bytes "Date: " ++ printed (param_get "%MAILDATE%" s)));
  _ ← (if hdrfrom s then give 0 else format_client (bytes "From: " ++ printed (param_get "%MAILFROM%" s)));
  _ ← (if hdrto s then give 0 else format_client (bytes "To: " ++ printed (param_get "%MAILTO%" s)));
  _ ← upd (set_hdroffset 0);
  _ ← (if delit cfg then give tt else upd (fun s => set_out (wres s) (out s ++ [Quarantine (mail s)]) s));
  _ ← (if altvnmsg cfg then give 0
       else match template with
            | None => dead
            | Some tpl =>
                if prefixb (bytes "Subject:") tpl then give 0
                else if nosend s then format_client (bytes "Subject: " ++ blacksubj cfg ++ [32] ++ printed (param_get "%MAILFROM%" s))
                else format_client (bytes "Subject: " ++ subject cfg ++ [32] ++ printed (param_get "%VIRUSNAME%" s))
            end);
  if nosend s && blackshort cfg then
    _ ← line_client PERIOD;
    _ ← upd (set_ismail 0); give 0
  else
    match (if altvnmsg cfg && negb (nosend s) then vnmsg else template) ≫= fun tpl => parsefile tpl (params s) with
    | None => dead
    | Some notice =>
        len ← send_mailfile notice;
        _ ← upd (set_ismail 0);
        give (if 0 <? len then 0 else -1)
    end.

(** ** Scanning *)

Definition MESSAGE_NOVIRINFO : list Z := bytes "[no virusinfo could be examined]".
Definition FOUNDIBL : list Z := bytes "Not a virus! Found in BlackList!".

(** The verdict and the name of the virus. *)
Definition scan_mailfile : M (Z * list Z) :=
  r ← checktimeout;
  if r <? 0 then give (SCANNER_RET_CRIT, [])
  else if altvnmsg cfg && bool_decide (template = None) then give (SCANNER_RET_CRIT, [])
  else if negb (freespace cfg =? 0) && (kbfree <? freespace cfg) then _ ← emerg; give (SCANNER_RET_CRIT, [])
  else
    r ← checktimeout;
    if r <? 0 then give (SCANNER_RET_CRIT, [])
    else
      m ← gets mail;
      let '(viret, virinfo) := scan m in
      let virinfo := trim (NONULL virinfo) in
      r ← checktimeout;
      if r <? 0 then give (SCANNER_RET_CRIT, [])
      else give (viret, if strlen virinfo <? 1 then MESSAGE_NOVIRINFO else virinfo).

Definition init_scanner : M unit :=
  i ← gets scannerinit;
  if scannerenabled cfg && (i =? SCANNER_INIT_NO) then
    match init2 with
    | Some true => upd (set_scannerinit SCANNER_INIT_OK)
    | Some false => dead
    | None => upd (set_scannerinit SCANNER_INIT_NULL)
    end
  else give tt.

(** The virus or the blacklist, as the mail is complete. *)
Definition infected (virinfo : list Z) : M unit :=
  _ ← upd (fun s => param_set "%VIRUSNAME%" (Some (if nosend s then FOUNDIBL else trim virinfo)) s);
  _ ← upd (param_set "%MAILFILE%" (Some filename));
  _ ← upd (param_set "%P3SCANID%" (Some (if delit cfg then notify cfg else filename)));
  r ← do_virusaction;
  if negb (r =? 0) then
    s ← gets id;
    _ ← format_client (bytes "-ERR Message " ++ dec (msgnum s) ++ bytes " contains a virus (" ++ printed (param_get "%VIRUSNAME%" s) ++ bytes ").");
    _ ← upd (set_ismail 0);
    return_ 1
  else
    _ ← upd unset_paramsfrommailheader;
    upd (fun s => set_client (Lbuf (lb_line (clientbuf s)) GETLINE_LINE_NULL)
                   (set_server (Lbuf (lb_line (serverbuf s)) GETLINE_LINE_NULL) s)).

(** A mail that is let through. *)
Definition deliver : M unit :=
  _ ← upd (set_ismail 5);
  m ← gets mail;
  _ ← send_mailfile m;
  _ ← upd (set_ismail 0);
  upd (fun s => set_mail [] (set_server (Lbuf None GETLINE_LINE_NULL) s)).

Definition mail_complete : M unit :=
  m ← gets ismail;
  _ ← (if m =? 2 then closehdrfile else give tt);
  _ ← upd (set_ismail 4);
  _ ← init_scanner;
  _ ← upd (param_set "%MAILDATE%" (Some maildate));
  _ ← upd set_paramsfrommailheader;
  s ← gets id;
  scannerret ←
    (if 0 <? scannerinit s then
       x ← (if negb (noscan s) && negb (nosend s) then scan_mailfile else give (SCANNER_RET_OK, []));
       let '(r, virinfo) := (x : Z * list Z) in
       if noscan s then give r
       else
         let r := if nosend s then SCANNER_RET_VIRUS else r in
         _ ← (if r =? SCANNER_RET_VIRUS then infected virinfo else give tt);
         if r =? SCANNER_RET_CRIT then _ ← upd (set_ismail 0); return_ 1 else give r
     else give SCANNER_RET_ERR);
  if scannerret =? SCANNER_RET_VIRUS then give tt
  else _ ← (if scannerret =? SCANNER_RET_ERR then emerg else give tt); deliver.

(** ** A line of the mail *)

Definition SCANNER_LINE : list Z := bytes "X-POP3-SCANNER: TraceNetwork/Mybox Internet Security" ++ [LF].
Definition contains (w l : list Z) : bool := bool_decide (strstr l w <> None).

(** The lists are asked about a From line of the header. *)
Definition check_from (l : list Z) (s : st) : st :=
  let s := set_seen (hdrdate s) true (hdrto s) s in
  let s := if blacklist s && listed preg_match (NONULL list_black) l then set_verdict (noscan s) true s else s in
  if whitelist s && negb (nosend s) && listed preg_match (NONULL list_white) l then set_verdict true (nosend s) s else s.

Definition spam_marked (l : list Z) : bool :=
  match ispspam cfg with
  | None => false
  | Some w => contains w l || contains (bytes "[SPAM]") l || contains (bytes "[ SPAM ]") l || contains (bytes "*** SPAM ***") l
  end.

(** The name of the scanner is assigned, not compared: the quotes of every subject are
    replaced. *)
Definition subject_line (l : list Z) : list Z :=
  if begins (bytes "Subject:") l then default [] (strreplace l (bytes "'") (bytes " ")) else l.

(** The lines of the header that the notice needs. *)
Definition saw_date (l : list Z) (s : st) : st := if begins (bytes "Date:") l && (ismail s <? 3) then set_seen true (hdrfrom s) (hdrto s) s else s.
Definition saw_from (l : list Z) (s : st) : st := if begins (bytes "From:") l && (ismail s <? 3) then check_from l s else s.
Definition saw_to (l : list Z) (s : st) : st := if begins (bytes "To:") l && (ismail s <? 3) then set_seen (hdrdate s) (hdrfrom s) true s else s.

(** Its writing, and the end of the mail. *)
Definition mail_end (l : list Z) (too_long : bool) : M unit :=
  _ ← (if too_long then _ ← write_mail l; write_hdr l
       else
         _ ← (if noeom cfg && (bool_decide (l = PERIOD) || bool_decide (l = PERIOD ++ [CR])) then give tt else write_mail (l ++ [LF]));
         write_hdr (l ++ [LF]));
  _ ← upd (fun s => if spam_marked l then set_ispam true s else s);
  _ ← checktimeout;
  c ← gets clientbuf;
  b ← gets serverbuf;
  if ((lb_len c =? 1) && bool_decide (head (NONULL (lb_line c)) = Some 46)) || ((lb_len b =? 1) && bool_decide (head l = Some 46))
  then mail_complete else give tt.

Definition mail_line (l : list Z) (too_long : bool) : M unit :=
  s ← gets id;
  _ ← (if (lb_len (serverbuf s) =? 0) && negb (header_exists s) then
         _ ← write_mail SCANNER_LINE;
         _ ← write_hdr SCANNER_LINE;
         _ ← upd (set_header_exists true);
         if ismail s <? 3 then closehdrfile else give tt
       else give tt);
  _ ← upd (saw_date l);
  _ ← upd (saw_from l);
  _ ← upd (saw_to l);
  s ← gets id;
  let closes := contains (bytes "MIME") l || contains (bytes "Content-Type") l || begins (bytes "Subject:") l in
  let l := if closes then subject_line l else l in
  _ ← upd (set_server (Lbuf (Some l) (lb_len (serverbuf s))));
  _ ← (if closes && (ismail s <? 3) then closehdrfile else give tt);
  mail_end l too_long.

(** ** Commands of the client *)

(** What [getlinep3] gives.  Of an unfinished line the buffer holds a part. *)
Inductive got := NeedRead | NoLine (part : list Z) | Line (l : list Z) | TooLong (l : list Z) | Eof.

(** A turn: the two calls of [getlinep3], whether [select] finds data, and the entries of
    the array of sizes that were never written. *)
Record input := In { c_got : got; s_got : got; selected : bool; junk : Z }.

Definition received (g : got) (b : lbuf) : lbuf :=
  match g with
  | NoLine l => Lbuf (Some l) GETLINE_LINE_INCOMPLETE
  | Line l | TooLong l => Lbuf (Some l) (strlen l)
  | NeedRead | Eof => b
  end.

(** [p->serverbuf->line] where NULL is not expected. *)
Definition server_line : M (list Z) := fun s => match lb_line (serverbuf s) with Some l => Go l s | None => Crash end.

(** The answer to a NOOP is dropped, with what else the buffer holds. *)
Definition noop_answer : M unit :=
  n ← gets noop;
  if n =? 0 then give tt
  else
    l ← server_line;
    if begins (bytes "+OK") l then upd (fun s => set_noop 0 (set_server (Lbuf None GETLINE_LINE_NULL) s)) else give tt.

(** [strtol], in base 10. *)
Definition strtol (s : list Z) : Z * list Z := match scan_int s with Some (n, r) => (n, r) | None => (0, s) end.

(** The sizes of the answer to LIST. *)
Definition size_line (l : list Z) : M unit :=
  s ← gets id;
  if prefixb PERIOD l then upd (set_list false (didit s))
  else
    let '(i, rest) := strtol l in
    if i =? ii s then give tt
    else if i <? 1 then crash
    else
      let old := match msgnr s with Some (_, m) => m | None => ∅ end in
      let kept := filter (fun kv : Z * Z => kv.1 < i) old in
      upd (set_sizes i (Some (i, <[i - 1 := Z.quot (strtol rest).1 1024]> kept))).

Definition list_answer : M unit :=
  s ← gets id;
  if getmsgsize s && (ismail s =? 0) then
    l ← server_line;
    if (begins (bytes "+ok") l || (uidl s && prefixb PERIOD l)) && negb (didit s) then
      upd (fun s => set_uidl false (set_list true true (set_sizes 0 (Some (0, ∅)) s)))
    else size_line l
  else give tt.

(** [msgnr[n - 1]]. *)
Definition size_of (junk n : Z) : M Z := fun s =>
  match msgnr s with
  | Some (k, m) => if (1 <=? n) && (n <=? k) then Go (default junk (m !! (n - 1))) s else Crash
  | None => Crash
  end.

(** RETR and TOP; the bytes behind the end of a short line are taken as its end. *)
Definition retrieve (act : Z) (arg : list Z) (junk : Z) : M unit :=
  let n := u32 (atoi arg) in
  _ ← upd (set_msgnum n);
  if n <? 1 then upd (set_ismail 0)
  else if scannerenabled cfg then
    _ ← upd (set_mode 1 act);
    if skipsize cfg =? 0 then give tt
    else
      k ← size_of junk n;
      if skipsize cfg <=? k then upd (set_mode 0 0) else give tt
  else give tt.

(** The part of a line before a blank. *)
Fixpoint before_space (l : list Z) : list Z := match l with [] => [] | c :: l => if c =? 32 then [] else c :: before_space l end.

(** USER and APOP. *)
Definition set_user (apop : bool) (l : list Z) (s : st) : st :=
  let arg := take 63 (drop 5 l) in
  let name := trim (if apop then before_space arg else arg) in
  let s :=
    if strlen l =? 5 then
      if 0 <? strlen (NONULL (param_get "%USERNAME%" s)) then param_set "%USERNAME%" (Some (bytes "unknown")) s else s
    else if 1 <? strlen name then param_set "%USERNAME%" (Some name) s else s in
  set_lists (list_present list_black) (list_present list_white) s.

Definition client_command (l : list Z) (junk : Z) : M unit :=
  _ ← (if begins (bytes "list") l then
         s ← gets id; upd (set_list (getmsgsize s || negb (skipsize cfg =? 0)) false)
       else if begins (bytes "retr") l then retrieve ACT_RETR (drop 5 l) junk
       else if begins (bytes "capa") l then upd (set_capa true true)
       else if begins (bytes "top") l then retrieve ACT_TOP (drop 4 l) junk
       else if begins (bytes "uidl") l then upd (set_uidl true)
       else upd (set_ismail 0));
  if begins (bytes "apop") l || begins (bytes "user") l then upd (set_user (begins (bytes "apop") l) l) else give tt.

Definition client_line (junk : Z) : M unit :=
  s ← gets id;
  if (0 <=? lb_len (clientbuf s)) && (ismail s <? 2) then
    let l := NONULL (lb_line (clientbuf s)) in
    _ ← client_command l junk;
    r ← line_server l;
    if negb (r =? 0) then return_ 1
    else upd (fun s => set_client (Lbuf (lb_line (clientbuf s)) GETLINE_LINE_NULL) s)
  else give tt.

(** ** Lines of the server *)

Definition drop_server (s : st) : st := set_server (Lbuf (lb_line (serverbuf s)) GETLINE_LINE_NULL) s.

(** The files of a new mail. *)
Definition begin_mail (s : st) : st :=
  drop_server (set_ismail 2 (set_header_exists false (set_notified false (set_seen false false false (set_verdict false false
    (set_mail [] (set_hdr [] (set_reading (cbuff s) None s)))))))).

Definition server_answer (too_long : bool) : M unit :=
  s ← gets id;
  if 0 <=? lb_len (serverbuf s) then
    l ← server_line;
    if ismail s =? 1 then
      if begins (bytes "+ok") l then upd begin_mail else upd (set_ismail 0)
    else if 1 <? ismail s then _ ← mail_line l too_long; upd drop_server
    else if trapcapa1 s && begins (bytes "PIPELINING") l then upd (fun s => set_capa false (trapcapa3 s) (drop_server s))
    else if trapcapa3 s && begins (bytes "STLS") l then upd (fun s => set_capa (trapcapa1 s) false (drop_server s))
    else give tt
  else give tt.

Definition pass_on : M unit :=
  s ← gets id;
  if 0 <=? lb_len (serverbuf s) then
    l ← server_line;
    r ← line_client l;
    if negb (r =? 0) then return_ 1
    else upd (fun s => set_client (Lbuf (lb_line (clientbuf s)) GETLINE_LINE_NULL) (drop_server s))
  else give tt.

(** One turn of the loop. *)
Definition turn (i : input) : M unit :=
  _ ← upd (fun s => set_client (received (c_got i) (clientbuf s)) s);
  match c_got i with
  | Eof => return_ 0
  | _ =>
      _ ← upd (fun s => set_server (received (s_got i) (serverbuf s)) s);
      match s_got i with
      | Eof => return_ 0
      | _ =>
          _ ← match s_got i with TooLong _ => give tt | _ => noop_answer end;
          s ← gets id;
          _ ← (if (ismail s =? 0) && (0 <? lb_len (serverbuf s)) && begins (bytes "uidl") (NONULL (lb_line (serverbuf s)))
               then upd (set_uidl true) else give tt);
          _ ← list_answer;
          match c_got i, s_got i with
          | NeedRead, NeedRead => if selected i then give tt else return_ 0
          | _, _ =>
              _ ← upd (fun s => if 3 <? ismail s then set_server (Lbuf None (lb_len (serverbuf s))) s else s);
              _ ← client_line (junk i);
              _ ← server_answer (match s_got i with TooLong _ => true | _ => false end);
              pass_on
          end
      end
  end.

Fixpoint run (l : list input) : M unit := match l with [] => give tt | i :: l => _ ← turn i; run l end.
(** ** The specification *)

(** A line that ends the part of the header that the client is fed with. *)
Definition closing (l : list Z) : bool :=
  contains (bytes "MIME") l || contains (bytes "Content-Type") l || begins (bytes "Subject:") l.
Definition ends_header (l : list Z) : bool := (strlen l =? 0) || closing l.

(** The lines of the mail file: the mark before the first empty line, no quotes in
    subjects. *)
Definition shown (l : list Z) : list Z := if closing l then subject_line l else l.
Definition scanner_text : list Z := bytes "X-POP3-SCANNER: TraceNetwork/Mybox Internet Security".
Fixpoint mail_lines (he : bool) (ls : list (list Z)) : list (list Z) :=
  match ls with
  | [] => []
  | l :: ls => (if (strlen l =? 0) && negb he then [scanner_text] else []) ++ shown l :: mail_lines (he || (strlen l =? 0)) ls
  end.
Definition text (ls : list (list Z)) : list Z := concat (map (fun l => l ++ [LF]) ls).

(** A turn in which a side has a line and the other has none. *)
Definition from_client (l : list Z) : input := In (Line l) NeedRead true 0.
Definition from_server (l : list Z) : input := In NeedRead (Line l) true 0.

(** A mail is asked for and comes, line by line. *)
Definition retr (n : Z) : list Z := bytes "RETR " ++ dec n.
Definition retrieval (n : Z) (ok : list Z) (ls : list (list Z)) : list input :=
  from_client (retr n) :: from_server ok :: map from_server (ls ++ [PERIOD]).

(** Between two commands. *)
Definition idle (s : st) : Prop :=
  ismail s = 0 /\ noop s = 0 /\ getmsgsize s = false /\ lb_len (clientbuf s) = GETLINE_LINE_NULL /\ lb_len (serverbuf s) = GETLINE_LINE_NULL.

(** While a mail is caught; once its header has ended it is not written to the header
    file any more. *)
Definition catching (s : st) : Prop :=
  2 <= ismail s <= 3 /\ noop s = 0 /\ lb_len (clientbuf s) = GETLINE_LINE_NULL /\ (header_exists s = true -> ismail s = 3).

(** ** Running a program *)

Lemma bind_go {A B} (m : M A) (f : A -> M B) (s s' : st) (a : A) : m s = Go a s' -> (m ≫= f) s = f a s'.
Proof. intros E. unfold mbind, M_bind. by rewrite E. Qed.

Lemma bind_upd {B} (g : st -> st) (f : unit -> M B) (s : st) : (upd g ≫= f) s = f tt (g s).
Proof. done. Qed.

Lemma bind_gets {A B} (g : st -> A) (f : A -> M B) (s : st) : (gets g ≫= f) s = f (g s) s.
Proof. done. Qed.

Lemma bind_give {A B} (a : A) (f : A -> M B) (s : st) : (give a ≫= f) s = f a s.
Proof. done. Qed.

Lemma bind_assoc {A B C} (m : M A) (f : A -> M B) (g : B -> M C) (s : st) : ((m ≫= f) ≫= g) s = (m ≫= fun a => f a ≫= g) s.
Proof. unfold mbind, M_bind. by destruct (m s). Qed.

(** The fields of a state. *)
Ltac fields :=
  cbn [ismail action msgnum noop notified hdroffset hdrdate hdrfrom hdrto header_exists blacklist whitelist noscan nosend scannerinit cbuff hdr_pos clientbuf serverbuf params trapcapa1 trapcapa3 getmsgsize didit uidl ii msgnr mail hdr ispam late wres out
       set_ismail set_mode set_msgnum set_noop set_hdroffset set_seen set_header_exists set_lists set_verdict set_scannerinit set_client set_server set_params set_capa set_list set_uidl set_sizes set_mail set_hdr set_ispam set_reading set_notified set_late set_out
       lb_line lb_len c_got s_got selected junk id] in *.

Ltac step := (rewrite bind_assoc || rewrite bind_upd || rewrite bind_gets || rewrite bind_give); fields.
Ltac steps := repeat step.

(** ** Turns *)

Lemma run_app (l1 l2 : list input) (s : st) :
  run (l1 ++ l2) s = match run l1 s with Go _ s => run l2 s | Return c s => Return c s | Dead s => Dead s | Crash => Crash end.
Proof.
  revert s. induction l1 as [|i l1 IH]; intros s; [done|]. cbn [app run]. unfold mbind, M_bind. destruct (turn i s); [apply IH | done..].
Qed.

(** A write that fails leaves no trace. *)
Definition sent (e : event) (s : st) : st :=
  match wres s with [] => set_out [] (out s ++ [e]) s | r :: w => set_out w (if r =? 0 then out s ++ [e] else out s) s end.

Lemma send_go (e : event) (s : st) : send e s = Go (default 0 (head (wres s))) (sent e s).
Proof. unfold send, sent. by destruct (wres s). Qed.

(** The state once a mail is asked for. *)
Definition asked (n : Z) (s : st) : st :=
  set_client (Lbuf (Some (retr n)) GETLINE_LINE_NULL) (sent (ToServer (retr n ++ CRLF))
    (set_mode 1 ACT_RETR (set_msgnum n (set_client (Lbuf (Some (retr n)) (strlen (retr n))) s)))).

Lemma dec_nat (n : Z) : 1 <= n < 2 ^ 31 -> u32 (atoi (dec n)) = n.
Proof. intros H. rewrite atoi_dec by lia. by apply wrapu_small; lia. Qed.

Lemma no_noop (s : st) : noop s = 0 -> noop_answer s = Go tt s.
Proof. intros E. unfold noop_answer. steps. by rewrite E. Qed.

Lemma no_list (s : st) : getmsgsize s = false \/ ismail s <> 0 -> list_answer s = Go tt s.
Proof.
  intros H. unfold list_answer. steps. destruct H as [->|H]; [done|]. rewrite (proj2 (Z.eqb_neq _ _)) by done. by rewrite andb_false_r.
Qed.

Lemma no_pass (s : st) : lb_len (serverbuf s) < 0 -> pass_on s = Go tt s.
Proof. intros H. unfold pass_on. steps. by rewrite (proj2 (Z.leb_gt _ _)) by lia. Qed.

Lemma no_answer (s : st) (b : bool) : lb_len (serverbuf s) < 0 -> server_answer b s = Go tt s.
Proof. intros H. unfold server_answer. steps. by rewrite (proj2 (Z.leb_gt _ _)) by lia. Qed.

Lemma no_command (s : st) (j : Z) : lb_len (clientbuf s) < 0 -> client_line j s = Go tt s.
Proof. intros H. unfold client_line. steps. rewrite (proj2 (Z.leb_gt _ _)) by lia. done. Qed.

(** A turn with a line of the client, and one with a line of the server. *)
Lemma turn_client (l : list Z) (s : st) :
  noop s = 0 -> getmsgsize s = false -> ismail s < 3 -> lb_len (serverbuf s) = GETLINE_LINE_NULL ->
  turn (from_client l) s =
    (client_line 0 ≫= fun _ => server_answer false ≫= fun _ => pass_on) (set_client (Lbuf (Some l) (strlen l)) s).
Proof.
  intros H1 H2 H3 H4. unfold turn, from_client. fields. steps.
  set (s1 := set_client (Lbuf (Some l) (strlen l)) s).
  assert (E : set_server (received NeedRead (serverbuf s)) (set_client (received (Line l) (clientbuf s)) s) = s1) by (by destruct s).
  rewrite E. rewrite (bind_go _ _ s1 s1 tt) by (by apply no_noop). steps.
  change (serverbuf s1) with (serverbuf s). rewrite H4. change (0 <? GETLINE_LINE_NULL) with false. rewrite andb_false_r. cbn [andb].
  rewrite bind_give. rewrite (bind_go _ _ s1 s1 tt) by (apply no_list; by left). rewrite bind_upd.
  change (ismail s1) with (ismail s). by rewrite (proj2 (Z.ltb_ge _ _)) by lia.
Qed.

Lemma turn_server (l : list Z) (s : st) :
  noop s = 0 -> 1 <= ismail s <= 3 -> lb_len (clientbuf s) = GETLINE_LINE_NULL ->
  turn (from_server l) s =
    (server_answer false ≫= fun _ => pass_on) (set_server (Lbuf (Some l) (strlen l)) s).
Proof.
  intros H1 H2 H4. unfold turn, from_server. fields. steps.
  set (s1 := set_server (Lbuf (Some l) (strlen l)) s).
  assert (E : set_server (received (Line l) (serverbuf (set_client (received NeedRead (clientbuf s)) s)))
    (set_client (received NeedRead (clientbuf s)) s) = s1) by (by destruct s).
  change (set_server _ (set_client _ s)) with
    (set_server (received (Line l) (serverbuf (set_client (received NeedRead (clientbuf s)) s))) (set_client (received NeedRead (clientbuf s)) s)).
  rewrite E. rewrite (bind_go _ _ s1 s1 tt) by (by apply no_noop). rewrite bind_gets. cbn [id].
  change (ismail s1) with (ismail s). rewrite (proj2 (Z.eqb_neq (ismail s) 0)) by lia. cbn [andb].
  rewrite bind_give. rewrite (bind_go _ _ s1 s1 tt) by (apply no_list; right; change (ismail s1) with (ismail s); lia). rewrite bind_upd.
  change (ismail s1) with (ismail s). rewrite (proj2 (Z.ltb_ge _ _)) by lia.
  rewrite (bind_go _ _ s1 s1 tt); [done|]. apply no_command. change (clientbuf s1) with (clientbuf s). by rewrite H4.
Qed.

Lemma turn_retr (n : Z) (s : st) :
  scannerenabled cfg = true -> skipsize cfg = 0 -> 1 <= n < 2 ^ 31 -> idle s ->
  turn (from_client (retr n)) s = Go tt (asked n s) \/
    (exists s', turn (from_client (retr n)) s = Return 1 s') /\ default 0 (head (wres s)) <> 0.
Proof.
  intros Hse Hsk Hn (I1 & I2 & I3 & I4 & I5). rewrite turn_client by (done || lia).
  assert (Hlen : 0 <= strlen (retr n)) by (unfold strlen; lia).
  unfold client_line. steps. rewrite I1, (proj2 (Z.leb_le _ _)) by done. change (0 <? 2) with true. cbn [andb NONULL].
  unfold client_command. change (begins (bytes "list") (retr n)) with false. change (begins (bytes "retr") (retr n)) with true.
  change (begins (bytes "apop") (retr n)) with false. change (begins (bytes "user") (retr n)) with false. cbn [orb].
  unfold retrieve. change (drop 5 (retr n)) with (dec n). rewrite dec_nat by done.
  rewrite (proj2 (Z.ltb_ge n 1)) by lia. rewrite Hse, Hsk. cbn [Z.eqb]. steps.
  set (s1 := set_mode 1 ACT_RETR _). unfold line_server. rewrite !(bind_go _ _ _ _ _ (send_go _ _)).
  change (wres s1) with (wres s). destruct (Z.eqb_spec (default 0 (head (wres s))) 0) as [E|E]; cbn [negb]; [left | right; split; [by eexists | done]].
  rewrite bind_upd. set (s2 := sent _ s1). assert (Es : serverbuf s2 = serverbuf s) by (unfold s2, sent; by destruct (wres s1)).
  assert (Ec : lb_line (clientbuf s2) = Some (retr n)) by (unfold s2, sent; by destruct (wres s1)). rewrite Ec.
  match goal with |- (_ ≫= _) ?s3 = _ => rewrite (bind_go _ _ s3 s3 tt) by (apply no_answer; fields; by rewrite Es, I5) end.
  rewrite no_pass by (fields; by rewrite Es, I5). done.
Qed.

(** The answer to it. *)
Definition begun (ok : list Z) (s : st) : st := begin_mail (set_server (Lbuf (Some ok) (strlen ok)) s).

Lemma turn_ok (ok : list Z) (s : st) :
  begins (bytes "+ok") ok = true -> ismail s = 1 -> noop s = 0 -> lb_len (clientbuf s) = GETLINE_LINE_NULL ->
  turn (from_server ok) s = Go tt (begun ok s).
Proof.
  intros Hok Hm Hn Hc. rewrite turn_server by (done || lia). unfold server_answer. rewrite bind_assoc, bind_gets.
  set (s1 := set_server (Lbuf (Some ok) (strlen ok)) s). change (ismail (id s1)) with (ismail s). change (lb_len (serverbuf (id s1))) with (strlen ok).
  rewrite (proj2 (Z.leb_le 0 (strlen ok))) by (unfold strlen; lia). rewrite bind_assoc, (bind_go server_line _ s1 s1 ok) by done.
  rewrite Hm, Hok. rewrite (bind_go _ _ s1 (begun ok s) tt) by done. by rewrite no_pass.
Qed.

(** ** Lines of a mail *)

(** What a check for a timeout leaves alone; the NOOPs too, while no mail is sent. *)
Definition rest (keep : bool) (s : st) : st :=
  set_noop (if keep then noop s else 0) (set_hdroffset 0 (set_out [] [] (set_reading 0 None (set_late [] s)))).
Definition calm {A} (keep : bool) (p : M A) (s : st) : Prop := exists a s', p s = Go a s' /\ rest keep s' = rest keep s.
Definition quiet {A} (keep : bool) (p : M A) : Prop := forall s, calm keep p s.

Lemma quiet_bind {A B} (k : bool) (p : M A) (f : A -> M B) : quiet k p -> (forall a, quiet k (f a)) -> quiet k (p ≫= f).
Proof.
  intros Hp Hf s. destruct (Hp s) as (a & s1 & E1 & R1). destruct (Hf a s1) as (b & s2 & E2 & R2).
  exists b, s2. rewrite (bind_go _ _ _ _ _ E1). split; [done | congruence].
Qed.

Lemma quiet_give {A} (k : bool) (a : A) : quiet k (give a).
Proof. intros s. by eexists _, _. Qed.

Lemma quiet_gets {A} (k : bool) (f : st -> A) : quiet k (gets f).
Proof. intros s. by eexists _, _. Qed.

Lemma quiet_upd (k : bool) (f : st -> st) : (forall s, rest k (f s) = rest k s) -> quiet k (upd f).
Proof. intros H s. eexists _, _. split; [reflexivity | apply H]. Qed.

Lemma quiet_send (k : bool) (e : event) : quiet k (send e).
Proof. intros s. unfold calm. rewrite send_go. eexists _, _. split; [reflexivity|]. unfold sent. by destruct (wres s). Qed.

Lemma quiet_read (k : bool) : quiet k read_hdr.
Proof. intros s. unfold calm, read_hdr. repeat case_match; by eexists _, _. Qed.

Lemma quiet_timed (k : bool) : quiet k timed_out.
Proof. intros s. unfold calm, timed_out. destruct (late s); by eexists _, _. Qed.

Ltac quiet :=
  repeat lazymatch goal with
  | |- quiet _ (give _) => apply quiet_give
  | |- quiet _ (gets _) => apply quiet_gets
  | |- quiet _ read_hdr => apply quiet_read
  | |- quiet _ timed_out => apply quiet_timed
  | |- quiet _ (write_client _) => apply quiet_send
  | |- quiet _ (line_server _) => apply quiet_send
  | |- quiet _ (upd _) => apply quiet_upd; by intros []
  | |- quiet _ (_ ≫= _) => apply quiet_bind; [|intros ?]
  | |- quiet _ (match ?x with _ => _ end) => destruct x
  end.

Lemma quiet_check : quiet false checktimeout.
Proof. unfold checktimeout. quiet. Qed.

Lemma calm_check (s : st) : ismail s <= 3 -> calm true checktimeout s.
Proof.
  intros Hm. unfold calm, checktimeout. steps. destruct (action s =? ACT_TOP); [by eexists _, _|].
  destruct (quiet_timed true s) as (t & s1 & E1 & R1). rewrite (bind_go _ _ _ _ _ E1). destruct t; [|by eexists _, _].
  rewrite bind_gets, <- (f_equal ismail R1 : ismail s1 = ismail s) in *. rewrite (proj2 (Z.ltb_ge 3 _)) by lia. rewrite <- R1.
  match goal with |- exists a s', ?p s1 = _ /\ _ => enough (H : quiet true p) by apply H end. quiet.
Qed.

(** The state after it. *)
Definition waited (s : st) : st := match checktimeout s with Go _ s => s | _ => s end.

Lemma check_go (s : st) : ismail s <= 3 -> exists r, checktimeout s = Go r (waited s) /\ rest true (waited s) = rest true s.
Proof. intros H. destruct (calm_check s H) as (r & s' & E & R). exists r. unfold waited. by rewrite E. Qed.

(** ** A line of a mail *)

Definition banner : list Z := bytes "+OK P3Scan'ing...".

Definition opened (s : st) : st :=
  set_ismail 3
    (let s := set_hdroffset 0 (set_reading (cbuff s) (Some 0%nat) s) in
     if notified s then s else set_notified true (sent (ToClient (banner ++ CRLF)) s)).

Lemma closehdrfile_go (s : st) : closehdrfile s = Go tt (opened s).
Proof.
  unfold closehdrfile, opened. steps. destruct (notified s) eqn:E; steps; rewrite ?E; [done|].
  change (format_client _) with (send (ToClient (banner ++ CRLF))). by rewrite (bind_go _ _ _ _ _ (send_go _ _)).
Qed.

Definition add_mail (m : list Z) (s : st) : st := set_mail (mail s ++ m) s.
Definition add_hdr (m : list Z) (s : st) : st := if ismail s <? 3 then set_hdr (hdr s ++ m) s else s.
Definition open_once (b : bool) (s : st) : st := if b && (ismail s <? 3) then opened s else s.

(** The parts of [mail_line] before the wait. *)
Definition mark (l : list Z) (s : st) : st :=
  if (strlen l =? 0) && negb (header_exists s) then open_once true (set_header_exists true (add_hdr SCANNER_LINE (add_mail SCANNER_LINE s)))
  else s.
Definition see (l : list Z) (s : st) : st := saw_to l (saw_from l (saw_date l s)).
Definition part (l : list Z) (s : st) : st :=
  open_once (closing l) (set_server (Lbuf (Some (shown l)) (lb_len (serverbuf s))) s).
Definition put (l : list Z) (s : st) : st := add_hdr (l ++ [LF]) (add_mail (l ++ [LF]) s).
Definition put_spam (l : list Z) (s : st) : st := if spam_marked l then set_ispam true (put l s) else put l s.
Definition taken (l : list Z) (s : st) : st := part l (see l (mark l (set_server (Lbuf (Some l) (strlen l)) s))).
Definition caught (l : list Z) (s : st) : st := drop_server (waited (put_spam (shown l) (taken l s))).

(** A line that does not end the mail. *)
Definition plain (l : list Z) : Prop := l <> PERIOD /\ l <> PERIOD ++ [CR].

Lemma length_shown (l : list Z) : length (shown l) = length l.
Proof.
  unfold shown, subject_line. destruct (closing l); [|done]. destruct (begins _ l); [|done].
  change (bytes "'") with [39]. change (bytes " ") with [32]. rewrite strreplace_char. unfold default, id. simpl. by rewrite length_map.
Qed.

Lemma shown_short (l : list Z) : (length l < 8)%nat -> shown l = l.
Proof.
  intros H. unfold shown, subject_line. destruct (closing l); [|done]. destruct (begins (bytes "Subject:") l) eqn:E; [|done]. exfalso.
  unfold begins in E. apply strcasecmp_eq_iff, (f_equal length) in E. rewrite !length_map, length_take in E. change (length (bytes "Subject:")) with 8%nat in E. lia.
Qed.

Lemma shown_plain (l : list Z) : plain l -> plain (shown l).
Proof.
  intros [H1 H2]. destruct (Nat.le_gt_cases 8 (length l)) as [H|H]; [|by rewrite shown_short].
  split; intros E; apply (f_equal length) in E; rewrite length_shown in E; cbn in E; lia.
Qed.

Lemma ismail_sent (e : event) (s : st) : ismail (sent e s) = ismail s.
Proof. unfold sent. by destruct (wres s). Qed.

Lemma open_once_range (b : bool) (s : st) : ismail s <= 3 -> ismail (open_once b s) <= 3.
Proof. unfold open_once, opened. intros H. case_match; [done | lia]. Qed.

Lemma mail_line_taken (l : list Z) (b : bool) (s : st) :
  mail_line l b (set_server (Lbuf (Some l) (strlen l)) s) = mail_end (shown l) b (taken l s).
Proof.
  unfold mail_line, taken. set (s0 := set_server _ s). rewrite bind_gets. cbn [id].
  change (lb_len (serverbuf s0)) with (strlen l). rewrite (bind_go _ _ s0 (mark l s0) tt).
  2: { unfold mark. destruct (_ && _); [|done]. unfold write_mail, write_hdr. steps. unfold open_once, add_hdr, add_mail, s0. fields.
    destruct (ismail s <? 3) eqn:E; fields; rewrite ?E; cbn [andb]; [apply closehdrfile_go | done]. }
  rewrite !bind_upd, bind_gets. unfold id at 1. fold (closing l). change (if closing l then subject_line l else l) with (shown l).
  change (saw_to l _) with (see l (mark l s0)). set (s1 := see l (mark l s0)). rewrite bind_upd. unfold part, open_once.
  set (s2 := set_server _ s1). change (ismail (id s1)) with (ismail s1). change (ismail s2) with (ismail s1). destruct (closing l && (ismail s1 <? 3)); [|done].
  by rewrite (bind_go _ _ _ _ _ (closehdrfile_go s2)).
Qed.

(** What a line of a mail leaves alone. *)
Definition core (s : st) : Z * Z * lbuf * bool * bool * Z * list bool * Z :=
  (action s, noop s, clientbuf s, whitelist s, blacklist s, scannerinit s, late s, lb_len (serverbuf s)).

Lemma sent_core (e : event) (s : st) : core (sent e s) = core s.
Proof. unfold sent. by destruct (wres s). Qed.

Lemma opened_core (s : st) : core (opened s) = core s.
Proof. unfold opened. destruct (notified _); [done|]. change (core (sent (ToClient (banner ++ CRLF)) (set_hdroffset 0 (set_reading (cbuff s) (Some 0%nat) s))) = core s). by rewrite sent_core. Qed.

Lemma open_once_core (b : bool) (s : st) : core (open_once b s) = core s.
Proof. unfold open_once. case_match; [apply opened_core | done]. Qed.

Lemma add_hdr_core (m : list Z) (s : st) : core (add_hdr m s) = core s.
Proof. unfold add_hdr. by case_match. Qed.

Lemma mark_core (l : list Z) (s : st) : core (mark l s) = core s.
Proof.
  unfold mark. case_match; [|done]. rewrite open_once_core.
  change (core (add_hdr SCANNER_LINE (add_mail SCANNER_LINE s)) = core s). by rewrite add_hdr_core.
Qed.

Lemma see_core (l : list Z) (s : st) : core (see l s) = core s.
Proof. unfold see, saw_to, saw_from, saw_date, check_from. repeat case_match; done. Qed.

Lemma taken_core (l : list Z) (s : st) : core (taken l s) = core (set_server (Lbuf (Some l) (strlen l)) s).
Proof.
  unfold taken, part. rewrite open_once_core. set (s1 := see l _).
  change (core (set_server _ s1)) with (core s1). unfold s1. by rewrite see_core, mark_core.
Qed.

Lemma taken_len (l : list Z) (s : st) : lb_len (serverbuf (taken l s)) = strlen l.
Proof. exact (f_equal snd (taken_core l s)). Qed.

Lemma put_core (l : list Z) (s : st) : core (put_spam l s) = core s.
Proof. unfold put_spam, put. case_match; [change (core (put l s) = core s); unfold put|]; by rewrite add_hdr_core. Qed.

(** What it changes: the mode, the empty line seen, the mail file. *)
Definition first_empty (l : list Z) (s : st) : bool := (strlen l =? 0) && negb (header_exists s).
Definition file (s : st) : bool * list Z * bool := (header_exists s, mail s, noscan s).

Lemma sent_file (e : event) (s : st) : file (sent e s) = file s.
Proof. unfold sent. by destruct (wres s). Qed.

Lemma opened_file (s : st) : file (opened s) = file s.
Proof. unfold opened. destruct (notified _); [done|]. change (file (sent (ToClient (banner ++ CRLF)) (set_hdroffset 0 (set_reading (cbuff s) (Some 0%nat) s))) = file s). by rewrite sent_file. Qed.

Lemma open_once_file (b : bool) (s : st) : file (open_once b s) = file s.
Proof. unfold open_once. case_match; [apply opened_file | done]. Qed.

Lemma add_hdr_file (m : list Z) (s : st) : file (add_hdr m s) = file s.
Proof. unfold add_hdr. by case_match. Qed.

Lemma add_hdr_mode (m : list Z) (s : st) : ismail (add_hdr m s) = ismail s.
Proof. unfold add_hdr. by case_match. Qed.

Lemma open_once_mode (b : bool) (s : st) : 2 <= ismail s <= 3 -> ismail (open_once b s) = if b then 3 else ismail s.
Proof.
  intros H. unfold open_once. destruct b; [|done]. cbn [andb]. destruct (Z.ltb_spec (ismail s) 3); [done | lia].
Qed.

Lemma mark_mode (l : list Z) (s : st) : 2 <= ismail s <= 3 -> ismail (mark l s) = if first_empty l s then 3 else ismail s.
Proof.
  intros H. unfold mark. fold (first_empty l s). destruct (first_empty l s); [|done]. rewrite open_once_mode; [done|].
  change (2 <= ismail (add_hdr SCANNER_LINE (add_mail SCANNER_LINE s)) <= 3). by rewrite add_hdr_mode.
Qed.

Lemma see_mode (l : list Z) (s : st) : ismail (see l s) = ismail s.
Proof. unfold see, saw_to, saw_from, saw_date, check_from. repeat case_match; done. Qed.

Lemma taken_mode (l : list Z) (s : st) :
  2 <= ismail s <= 3 -> ismail (taken l s) = if closing l || first_empty l s then 3 else ismail s.
Proof.
  intros H. unfold taken, part. set (s0 := set_server _ s). set (s1 := mark l s0).
  assert (E : ismail s1 = if first_empty l s then 3 else ismail s) by (by apply (mark_mode l s0)).
  assert (H1 : 2 <= ismail s1 <= 3) by (rewrite E; case_match; lia).
  rewrite open_once_mode by (change (2 <= ismail (see l s1) <= 3); by rewrite see_mode).
  change (ismail (set_server _ (see l s1))) with (ismail (see l s1)). rewrite see_mode, E. by destruct (closing l), (first_empty l s).
Qed.

Lemma mark_file (l : list Z) (s : st) :
  file (mark l s) = if first_empty l s then (true, mail s ++ SCANNER_LINE, noscan s) else file s.
Proof.
  unfold mark. fold (first_empty l s). destruct (first_empty l s); [|done]. rewrite open_once_file.
  pose proof (add_hdr_file SCANNER_LINE (add_mail SCANNER_LINE s)) as [= ? E1 E2].
  change (file (set_header_exists true ?x)) with (true, mail x, noscan x). by rewrite E1, E2.
Qed.

Lemma see_file (l : list Z) (s : st) : whitelist s = false -> file (see l s) = file s.
Proof.
  intros H. unfold see. assert (H1 : whitelist (saw_date l s) = false) by (unfold saw_date; by case_match).
  assert (E1 : file (saw_date l s) = file s) by (unfold saw_date; by case_match). rewrite <- E1. generalize dependent (saw_date l s).
  intros t H1 _. transitivity (file (saw_from l t)); [unfold saw_to; by case_match|]. unfold saw_from. case_match; [|done].
  unfold check_from. fields. destruct (blacklist t && _); fields; rewrite H1; done.
Qed.

Lemma taken_file (l : list Z) (s : st) :
  whitelist s = false -> file (taken l s) = if first_empty l s then (true, mail s ++ SCANNER_LINE, noscan s) else file s.
Proof.
  intros H. unfold taken, part. rewrite open_once_file. set (s0 := set_server _ s).
  change (file (set_server _ (see l (mark l s0)))) with (file (see l (mark l s0))).
  rewrite see_file by (pose proof (mark_core l s0) as [= _ _ _ E _ _ _ _]; rewrite E; done). by rewrite mark_file.
Qed.

Lemma put_file (l : list Z) (s : st) : file (put_spam l s) = (header_exists s, mail s ++ l ++ [LF], noscan s).
Proof.
  unfold put_spam. transitivity (file (put l s)); [by case_match|]. unfold put. by rewrite add_hdr_file.
Qed.

Lemma put_mode (l : list Z) (s : st) : ismail (put_spam l s) = ismail s.
Proof. unfold put_spam. transitivity (ismail (put l s)); [by case_match|]. unfold put. by rewrite add_hdr_mode. Qed.

Definition held (s : st) : Z * Z * lbuf * bool * bool * Z := (action s, noop s, clientbuf s, whitelist s, blacklist s, scannerinit s).

Lemma waited_same (s : st) :
  ismail s <= 3 -> ismail (waited s) = ismail s /\ file (waited s) = file s /\ held (waited s) = held s /\ serverbuf (waited s) = serverbuf s.
Proof.
  intros H. destruct (check_go s H) as (r & _ & R). unfold held, file.
  pose proof (f_equal ismail R) as E1. pose proof (f_equal file R) as E2. pose proof (f_equal held R) as E3.
  by pose proof (f_equal serverbuf R) as E4.
Qed.

Lemma mail_end_plain (l : list Z) (s : st) :
  plain l -> ismail s <= 3 -> lb_len (clientbuf s) = GETLINE_LINE_NULL -> lb_len (serverbuf s) = strlen l ->
  mail_end l false s = Go tt (waited (put_spam l s)).
Proof.
  intros [H1 H2] Hm Hc Hs. unfold mail_end. rewrite (bool_decide_eq_false_2 (l = PERIOD)), (bool_decide_eq_false_2 (l = PERIOD ++ [CR])) by done.
  rewrite andb_false_r. unfold write_mail, write_hdr. rewrite bind_assoc, !bind_upd.
  match goal with |- (_ ≫= _) ?x = _ => change x with (put_spam l s) end.
  assert (Hp : ismail (put_spam l s) <= 3) by (by rewrite put_mode).
  destruct (check_go _ Hp) as (r & E & _). rewrite (bind_go _ _ _ _ _ E), !bind_gets.
  destruct (waited_same _ Hp) as (_ & _ & [= _ _ Ec _ _ _] & Es). rewrite Ec, Es.
  pose proof (put_core l s) as [= _ _ Ec' _ _ _ _ Es']. rewrite Ec', Es', Hc, Hs. cbn [Z.eqb GETLINE_LINE_NULL andb orb].
  destruct l as [|c [|d l]]; [done| |].
  - rewrite (bool_decide_eq_false_2 (head [c] = Some 46)); [by rewrite andb_false_r|]. intros [= ->]. by apply H1.
  - rewrite (proj2 (Z.eqb_neq _ 1)); [done|]. unfold strlen. cbn. lia.
Qed.

(** A turn with a line of the mail. *)
Lemma turn_line (l : list Z) (s : st) :
  2 <= ismail s <= 3 -> noop s = 0 -> lb_len (clientbuf s) = GETLINE_LINE_NULL ->
  turn (from_server l) s = (_ ← mail_end (shown l) false; _ ← upd drop_server; pass_on) (taken l s).
Proof.
  intros Hm Hn Hc. rewrite turn_server by (done || lia). unfold server_answer. rewrite bind_assoc, bind_gets.
  set (s1 := set_server (Lbuf (Some l) (strlen l)) s). change (ismail (id s1)) with (ismail s). change (lb_len (serverbuf (id s1))) with (strlen l).
  rewrite (proj2 (Z.leb_le 0 (strlen l))) by (unfold strlen; lia). rewrite bind_assoc, (bind_go server_line _ s1 s1 l) by done.
  rewrite (proj2 (Z.eqb_neq (ismail s) 1)), (proj2 (Z.ltb_lt 1 (ismail s))) by lia. rewrite bind_assoc.
  unfold mbind, M_bind. unfold s1. by rewrite mail_line_taken.
Qed.

Lemma turn_mail (l : list Z) (s : st) :
  plain l -> 2 <= ismail s <= 3 -> noop s = 0 -> lb_len (clientbuf s) = GETLINE_LINE_NULL ->
  turn (from_server l) s = Go tt (caught l s).
Proof.
  intros Hl Hm Hn Hc. rewrite turn_line by done. pose proof (taken_core l s) as [= _ _ Ec _ _ _ _ Es].
  rewrite (bind_go _ _ (taken l s) (waited (put_spam (shown l) (taken l s))) tt); [rewrite bind_upd; by rewrite no_pass|].
  apply mail_end_plain; [by apply shown_plain | rewrite taken_mode by done; case_match; lia | by rewrite Ec |].
  rewrite Es. unfold strlen. by rewrite length_shown.
Qed.

Lemma caught_same (l : list Z) (s : st) :
  2 <= ismail s <= 3 -> whitelist s = false ->
  ismail (caught l s) = (if closing l || first_empty l s then 3 else ismail s)
  /\ file (caught l s) = (header_exists s || (strlen l =? 0),
       mail s ++ (if first_empty l s then SCANNER_LINE else []) ++ shown l ++ [LF], noscan s)
  /\ held (caught l s) = held s.
Proof.
  intros Hm Hw. set (s1 := put_spam (shown l) (taken l s)).
  assert (M : ismail s1 = if closing l || first_empty l s then 3 else ismail s) by (unfold s1; by rewrite put_mode, taken_mode).
  destruct (waited_same s1) as (E1 & E2 & E3 & _); [rewrite M; case_match; lia|].
  split; [|split].
  - change (ismail (waited s1) = if closing l || first_empty l s then 3 else ismail s). congruence.
  - change (file (waited s1) = (header_exists s || (strlen l =? 0), mail s ++ (if first_empty l s then SCANNER_LINE else []) ++ shown l ++ [LF], noscan s)).
    rewrite E2. unfold s1. rewrite put_file. pose proof (taken_file l s Hw) as F. unfold first_empty in *.
    destruct (strlen l =? 0), (header_exists s) eqn:Eh; cbn [andb orb negb] in *; injection F as -> -> ->; by rewrite <- ?app_assoc, ?Eh.
  - change (held (waited s1) = held s). rewrite E3. unfold s1, held.
    pose proof (put_core (shown l) (taken l s)) as [= -> -> -> -> -> -> _ _].
    by pose proof (taken_core l s) as [= -> -> -> -> -> -> _ _].
Qed.

Lemma text_app (l1 l2 : list (list Z)) : text (l1 ++ l2) = text l1 ++ text l2.
Proof. unfold text. by rewrite map_app, concat_app. Qed.

Lemma mail_lines_app (he : bool) (l1 l2 : list (list Z)) :
  mail_lines he (l1 ++ l2) = mail_lines he l1 ++ mail_lines (he || existsb (fun l => strlen l =? 0) l1) l2.
Proof.
  revert he. induction l1 as [|l l1 IH]; intros he; cbn [app mail_lines existsb]; [by rewrite orb_false_r|].
  by rewrite IH, <- app_assoc, orb_assoc.
Qed.

Lemma held_eq (s t : st) : held s = held t ->
  action s = action t /\ noop s = noop t /\ clientbuf s = clientbuf t /\ whitelist s = whitelist t /\ blacklist s = blacklist t /\ scannerinit s = scannerinit t.
Proof. by intros [= -> -> -> -> -> ->]. Qed.

Lemma file_eq (s : st) (b n : bool) (m : list Z) : file s = (b, m, n) -> header_exists s = b /\ mail s = m /\ noscan s = n.
Proof. by intros [= -> -> ->]. Qed.

Lemma catching_caught (l : list Z) (s : st) :
  catching s -> whitelist s = false ->
  catching (caught l s) /\ whitelist (caught l s) = false /\ header_exists (caught l s) = header_exists s || (strlen l =? 0).
Proof.
  intros (H1 & H2 & H3 & H4) Hw. destruct (caught_same l s H1 Hw) as (E1 & E2 & E3). apply file_eq in E2 as (Eh & _ & _).
  pose proof (held_eq _ _ E3) as (_ & Eno & Ec & Ew & _). rewrite Ew, Eh. split; [|done].
  unfold catching. rewrite E1, Eno, Ec, Eh. split; [destruct (closing l || first_empty l s); lia|].
  split; [done|]. split; [done|]. unfold first_empty. intros Hh. destruct (header_exists s); cbn [orb negb] in *.
  - rewrite H4 by done. rewrite andb_false_r. by destruct (closing l).
  - rewrite Hh. by destruct (closing l).
Qed.

Lemma run_lines (ls : list (list Z)) (s : st) :
  Forall plain ls -> catching s -> whitelist s = false ->
  exists s', run (map from_server ls) s = Go tt s' /\ catching s' /\ held s' = held s
    /\ file s' = (header_exists s || existsb (fun l => strlen l =? 0) ls, mail s ++ text (mail_lines (header_exists s) ls), noscan s).
Proof.
  intros Hl. revert s. induction Hl as [|l ls Hl _ IH]; intros s C Hw.
  - exists s. cbn. rewrite orb_false_r, app_nil_r. done.
  - pose proof C as (H1 & H2 & H3 & _). destruct (caught_same l s H1 Hw) as (_ & E2 & E3). apply file_eq in E2 as (Eh & Em & En).
    destruct (catching_caught l s C Hw) as (C' & Hw' & _). destruct (IH _ C' Hw') as (s' & R & C2 & H & F).
    exists s'. cbn [map run]. rewrite (bind_go _ _ _ _ _ (turn_mail _ _ Hl H1 H2 H3)). split; [done|]. split; [done|]. split; [congruence|].
    rewrite F, Eh, Em, En. cbn [existsb mail_lines]. rewrite text_app, orb_assoc, <- app_assoc.
    unfold first_empty. unfold text at 3. cbn [map concat]. by destruct (_ && _).
Qed.

(** ** What the client can know of a mail *)

Definition public (e : event) : bool := match e with Quarantine _ => false | _ => true end.
Definition traffic (l : list event) : list event := List.filter public l.

(** The state without the mail file, the line of the server and what was set aside. *)
Definition hide (s : st) : st := set_mail [] (set_ispam false (set_server (Lbuf None 0) (set_out (wres s) (traffic (out s)) s))).

Definition hideo {A} (o : outcome A) : outcome A :=
  match o with Go a s => Go a (hide s) | Return c s => Return c (hide s) | Dead s => Dead (hide s) | Crash => Crash end.

Definition blind {A} (p : M A) : Prop := forall s, hideo (p s) = hideo (p (hide s)).

Lemma traffic_idem (l : list event) : traffic (traffic l) = traffic l.
Proof. unfold traffic. induction l as [|e l IH]; [done|]. cbn. destruct (public e) eqn:E; cbn; rewrite ?E; congruence. Qed.

Lemma traffic_app (l1 l2 : list event) : traffic (l1 ++ l2) = traffic l1 ++ traffic l2.
Proof. apply List.filter_app. Qed.

Lemma hide_idem (s : st) : hide (hide s) = hide s.
Proof. unfold hide. fields. rewrite traffic_idem. reflexivity. Qed.

Lemma blind_same {A} (p : M A) (s1 s2 : st) : blind p -> hide s1 = hide s2 -> hideo (p s1) = hideo (p s2).
Proof. intros H E. by rewrite (H s1), (H s2), E. Qed.

Lemma hideo_go {A} (a b : A) (s t : st) : hideo (Go a s) = hideo (Go b t) -> a = b /\ hide s = hide t.
Proof. cbn [hideo]. generalize (hide s), (hide t). by intros ? ? [= -> ->]. Qed.

Lemma hideo_return {A B} (c d : Z) (s t : st) :
  hideo (Return (A := A) c s) = hideo (Return d t) -> hideo (Return (A := B) c s) = hideo (Return d t).
Proof. cbn [hideo]. generalize (hide s), (hide t). by intros ? ? [= -> ->]. Qed.

Lemma hideo_dead {A B} (s t : st) : hideo (Dead (A := A) s) = hideo (Dead t) -> hideo (Dead (A := B) s) = hideo (Dead t).
Proof. cbn [hideo]. generalize (hide s), (hide t). by intros ? ? [= ->]. Qed.

Lemma blind_bind {A B} (p : M A) (f : A -> M B) : blind p -> (forall a, blind (f a)) -> blind (p ≫= f).
Proof.
  intros Hp Hf s. specialize (Hp s). unfold mbind, M_bind.
  destruct (p s) as [a s1| | |], (p (hide s)) as [a' s2| | |]; try discriminate Hp.
  - apply hideo_go in Hp as [-> E]. by apply blind_same.
  - by apply (hideo_return (A := A)).
  - by apply (hideo_dead (A := A)).
  - done.
Qed.

Lemma blind_give {A} (a : A) : blind (give a).
Proof. intros s. cbn. by rewrite hide_idem. Qed.

Lemma blind_return {A} (c : Z) : blind (return_ (A := A) c).
Proof. intros s. cbn. by rewrite hide_idem. Qed.

Lemma blind_dead {A} : blind (dead (A := A)).
Proof. intros s. cbn. by rewrite hide_idem. Qed.

Lemma blind_crash {A} : blind (crash (A := A)).
Proof. by intros s. Qed.

Lemma blind_gets {A B} (f : st -> A) (k : A -> M B) :
  (forall s, k (f s) = k (f (hide s))) -> (forall s, blind (k (f s))) -> blind (gets f ≫= k).
Proof. intros H Hk s. rewrite !bind_gets. rewrite <- H. apply Hk. Qed.

Lemma blind_upd (g : st -> st) : (forall s, hide (g s) = hide (g (hide s))) -> blind (upd g).
Proof. intros H s. cbn. by rewrite H. Qed.

Lemma blind_send (e : event) : blind (send e).
Proof.
  intros []. unfold send, hide. fields. destruct wres0 as [|r w]; cbn [hideo]; unfold hide; fields;
    [|destruct (r =? 0)]; by rewrite ?traffic_app, ?traffic_idem.
Qed.

Lemma blind_read : blind read_hdr.
Proof.
  intros []. unfold read_hdr, hide. fields. repeat case_match; cbn [hideo]; unfold hide; fields; by rewrite traffic_idem.
Qed.

Lemma blind_timed : blind timed_out.
Proof. intros []. unfold timed_out, hide. fields. case_match; cbn [hideo]; unfold hide; fields; by rewrite traffic_idem. Qed.

(** Fields that [hide] leaves, and their updates. *)
Ltac blind_field := let s := fresh in intros s; destruct s; unfold hide, id, NONULL, unset_paramsfrommailheader, param_set, param_get; cbn [foldl]; fields; rewrite ?traffic_app, ?traffic_idem; reflexivity.
Create HintDb blinds.
Ltac blind :=
  repeat lazymatch goal with
  | |- blind (give _) => apply blind_give
  | |- blind (return_ _) => apply blind_return
  | |- blind dead => apply blind_dead
  | |- blind crash => apply blind_crash
  | |- blind read_hdr => apply blind_read
  | |- blind timed_out => apply blind_timed
  | |- blind (send _) => apply blind_send
  | |- blind (write_client _) => apply blind_send
  | |- blind (line_client _) => apply blind_send
  | |- blind (line_server _) => apply blind_send
  | |- blind (format_client _) => unfold format_client
  | |- blind (upd _) => apply blind_upd; blind_field
  | |- blind (gets _ ≫= _) => apply blind_gets; [blind_field | intros ?]
  | |- blind (_ ≫= _) => apply blind_bind; [|intros ?]
  | |- blind (match ?x with _ => _ end) => destruct x
  | |- blind _ => solve [auto with blinds nocore]
  end.

Lemma blind_check : blind checktimeout.
Proof. unfold checktimeout. blind. Qed.
#[local] Hint Resolve blind_check : blinds.

Lemma blind_emerg : blind emerg.
Proof. unfold emerg. blind. Qed.
#[local] Hint Resolve blind_emerg : blinds.

Lemma blind_send_lines (ls : list (list Z)) (len : Z) (g : bool) : blind (send_lines ls len g).
Proof. revert len g. induction ls as [|l ls IH]; intros len g; cbn [send_lines]; blind. Qed.
#[local] Hint Resolve blind_send_lines : blinds.

Lemma blind_mailfile (content : list Z) : blind (send_mailfile content).
Proof. unfold send_mailfile. blind. Qed.

Lemma blind_flush (l : list Z) : blind (flush_hdr l).
Proof. induction l as [|c l IH]; cbn [flush_hdr]; blind. Qed.
#[local] Hint Resolve blind_mailfile blind_flush : blinds.

Lemma blind_virusaction : blind do_virusaction.
Proof. unfold do_virusaction. blind. Qed.
#[local] Hint Resolve blind_virusaction : blinds.

Lemma blind_infected (v : list Z) : blind (infected v).
Proof. unfold infected. blind. Qed.
#[local] Hint Resolve blind_infected : blinds.

Lemma blind_init : blind init_scanner.
Proof. unfold init_scanner. blind. Qed.

(** Scanning, when the verdict is known, and what an infected mail then meets. *)
Definition scan_with (v : Z * option (list Z)) : M (Z * list Z) :=
  r ← checktimeout;
  if r <? 0 then give (SCANNER_RET_CRIT, [])
  else if altvnmsg cfg && bool_decide (template = None) then give (SCANNER_RET_CRIT, [])
  else if negb (freespace cfg =? 0) && (kbfree <? freespace cfg) then _ ← emerg; give (SCANNER_RET_CRIT, [])
  else
    r ← checktimeout;
    if r <? 0 then give (SCANNER_RET_CRIT, [])
    else
      let virinfo := trim (NONULL v.2) in
      r ← checktimeout;
      if r <? 0 then give (SCANNER_RET_CRIT, [])
      else give (v.1, if strlen virinfo <? 1 then MESSAGE_NOVIRINFO else virinfo).

Lemma blind_scan (v : Z * option (list Z)) : blind (scan_with v).
Proof. unfold scan_with. blind. Qed.

Lemma check_mail (s : st) : exists r s', checktimeout s = Go r s' /\ mail s' = mail s.
Proof. destruct (quiet_check s) as (r & s' & E & R). exists r, s'. split; [done|]. exact (f_equal mail R). Qed.

Lemma scan_known (s : st) : scan_mailfile s = scan_with (scan (mail s)) s.
Proof.
  unfold scan_mailfile, scan_with. destruct (check_mail s) as (r1 & s1 & E1 & M1). rewrite !(bind_go _ _ _ _ _ E1).
  destruct (r1 <? 0); [done|]. destruct (_ && _); [done|]. destruct (_ && _); [done|].
  destruct (check_mail s1) as (r2 & s2 & E2 & M2). rewrite !(bind_go _ _ _ _ _ E2). destruct (r2 <? 0); [done|].
  rewrite bind_gets, M2, M1. by destruct (scan (mail s)).
Qed.

Definition infected_mail (lines : list (list Z)) (v : option (list Z)) : M unit :=
  _ ← upd (param_set "%MAILDATE%" (Some maildate));
  _ ← upd (header_params lines);
  n ← gets nosend;
  x ← (if negb n then scan_with (SCANNER_RET_VIRUS, v) else give (SCANNER_RET_VIRUS, []));
  if x.1 =? SCANNER_RET_CRIT then _ ← upd (set_ismail 0); return_ 1 else infected x.2.

Lemma hide_header_params (lines : list (list Z)) (s : st) : hide (header_params lines s) = hide (header_params lines (hide s)).
Proof.
  assert (H : forall s t, hide s = hide t -> hide (header_params lines s) = hide (header_params lines t)).
  { clear s. induction lines as [|[|c l] lines IH]; intros s t E; cbn [header_params]; [done..|]. apply IH.
    assert (Hs : forall n v, hide (param_set n v s) = hide (param_set n v t)).
    { intros n v. change (param_set n v (hide s) = param_set n v (hide t)). by rewrite E. }
    assert (Hg : param_get "%USERNAME%" s = param_get "%USERNAME%" t).
    { change (param_get "%USERNAME%" (hide s) = param_get "%USERNAME%" (hide t)). by rewrite E. }
    rewrite Hg. repeat case_match; by rewrite ?Hs. }
  apply H. by rewrite hide_idem.
Qed.

Lemma blind_infected_mail (lines : list (list Z)) (v : option (list Z)) : blind (infected_mail lines v).
Proof.
  unfold infected_mail. apply blind_bind; [blind|]. intros _. apply blind_bind; [apply blind_upd, hide_header_params|]. intros _.
  pose proof (blind_scan (SCANNER_RET_VIRUS, v)). blind.
Qed.

(** The parameters come from the lines before the first empty one. *)
Lemma infected_mail_cut (a x y : list (list Z)) (v : option (list Z)) (s : st) :
  [] ∈ a -> infected_mail (a ++ x) v s = infected_mail (a ++ y) v s.
Proof.
  intros H. unfold infected_mail. rewrite !bind_upd. enough (forall s, header_params (a ++ x) s = header_params (a ++ y) s) as -> by done.
  clear s. induction a as [|[|c l] a IH]; intros s; [by apply not_elem_of_nil in H | done |]. cbn [app header_params]. apply IH.
  by apply elem_of_cons in H as [?|?].
Qed.

Lemma scan_result (v : Z * option (list Z)) (s : st) :
  match scan_with v s with Go x _ => x.1 = SCANNER_RET_CRIT \/ x.1 = v.1 | _ => True end.
Proof.
  unfold scan_with. destruct (check_mail s) as (r1 & s1 & E1 & _). rewrite (bind_go _ _ _ _ _ E1).
  destruct (r1 <? 0); [by left|]. destruct (_ && _); [by left|]. destruct (_ && _); [unfold emerg; destruct (cleankill cfg); [done | by left]|].
  destruct (check_mail s1) as (r2 & s2 & E2 & _). rewrite (bind_go _ _ _ _ _ E2). destruct (r2 <? 0); [by left|].
  destruct (check_mail s2) as (r3 & s3 & E3 & _). rewrite (bind_go _ _ _ _ _ E3). destruct (r3 <? 0); [by left | by right].
Qed.

(** The scanner is started or the process ends. *)
Lemma init_go (s : st) :
  scannerenabled cfg = true -> 0 <= scannerinit s ->
  (init_scanner s = Dead s /\ init2 = Some false) \/ exists i, init_scanner s = Go tt (set_scannerinit i s) /\ 0 < i.
Proof.
  intros He Hi. unfold init_scanner. rewrite bind_gets, He. cbn [andb]. destruct (Z.eqb_spec (scannerinit s) SCANNER_INIT_NO) as [E|E].
  - destruct init2 as [[]|]; [right; by exists SCANNER_INIT_OK | by left | right; by exists SCANNER_INIT_NULL].
  - right. exists (scannerinit s). split; [by destruct s|]. unfold SCANNER_INIT_NO in E. lia.
Qed.

Lemma header_params_only (lines : list (list Z)) (s : st) : exists p, header_params lines s = set_params p s.
Proof.
  revert s. induction lines as [|[|c l] lines IH]; intros s; cbn [header_params]; [exists (params s); by destruct s..|].
  match goal with |- context [header_params lines ?x] => destruct (IH x) as (p & ->); enough (exists q, x = set_params q s) as (q & ->) by (by exists p) end.
  unfold param_set. repeat case_match; (eexists; reflexivity) || (exists (params s); by destruct s).
Qed.

Lemma complete_infected (s : st) (v : option (list Z)) :
  scannerenabled cfg = true -> 0 <= scannerinit s -> ismail s = 3 -> noscan s = false -> scan (mail s) = (SCANNER_RET_VIRUS, v) ->
  mail_complete s = (_ ← init_scanner; infected_mail (file_lines (mail s)) v) (set_ismail 4 s).
Proof.
  intros He Hi Hm Hn Hv. unfold mail_complete. rewrite bind_gets, Hm. rewrite (bind_go _ _ s s tt) by done. rewrite bind_upd.
  set (s0 := set_ismail 4 s). destruct (init_go s0 He Hi) as [[E _]|(i & E & Hi')].
  { unfold mbind, M_bind. by rewrite E. }
  rewrite !(bind_go _ _ _ _ _ E). set (s1 := set_scannerinit i s0). unfold infected_mail. rewrite !bind_upd.
  set (s2 := param_set _ _ s1). destruct (header_params_only (file_lines (mail s)) s2) as (p & Ep).
  assert (E3 : set_paramsfrommailheader s2 = set_params p s2) by exact Ep. rewrite E3, Ep. set (s3 := set_params p s2).
  rewrite !bind_gets. unfold id. change (scannerinit s3) with i. change (noscan s3) with (noscan s). rewrite Hn, (proj2 (Z.ltb_lt 0 i)) by lia.
  cbn [negb andb]. rewrite bind_assoc. destruct (nosend s3) eqn:En; cbn [negb].
  - rewrite !bind_give. change (SCANNER_RET_VIRUS =? SCANNER_RET_VIRUS) with true. cbn [fst snd]. change (SCANNER_RET_VIRUS =? SCANNER_RET_CRIT) with false.
    unfold mbind, M_bind. by destruct (infected [] s3) as [[]| | |].
  - pose proof (scan_result (SCANNER_RET_VIRUS, v) s3) as Hr.
    unfold mbind, M_bind. rewrite scan_known. change (mail s3) with (mail s). rewrite Hv. destruct (scan_with _ s3) as [[r w] s4| | |]; [|done..]. cbn [fst snd] in *. destruct Hr as [-> | ->]; [done|].
    change (SCANNER_RET_VIRUS =? SCANNER_RET_VIRUS) with true. change (SCANNER_RET_VIRUS =? SCANNER_RET_CRIT) with false. by destruct (infected w s4) as [[]| | |].
Qed.

(** ** The lines of the body *)

Lemma blind_waited (s1 s2 : st) : ismail s1 <= 3 -> ismail s2 <= 3 -> hide s1 = hide s2 -> hide (waited s1) = hide (waited s2).
Proof.
  intros H1 H2 E. destruct (check_go s1 H1) as (r1 & E1 & _), (check_go s2 H2) as (r2 & E2 & _).
  pose proof (blind_same _ _ _ blind_check E) as H. rewrite E1, E2 in H. by apply hideo_go in H as [_ ?].
Qed.

(** Of a line of the body, only the mail file knows. *)
Lemma taken_body (l : list Z) (s : st) :
  ismail s = 3 -> header_exists s = true -> taken l s = set_server (Lbuf (Some (shown l)) (strlen l)) s.
Proof.
  intros Hm Hh. destruct s. cbn in Hm, Hh. subst.
  unfold taken, part, open_once, mark. fields. rewrite andb_false_r. unfold see, saw_to, saw_from, saw_date. fields.
  change (3 <? 3) with false. rewrite !andb_false_r. cbn iota. reflexivity.
Qed.

Lemma hide_put (l : list Z) (s : st) : ismail s = 3 -> hide (put_spam l s) = hide s.
Proof. intros Hm. destruct s. cbn in Hm. subst. unfold put_spam, put, add_hdr, add_mail. fields. by destruct (spam_marked _). Qed.

Lemma hide_caught (l1 l2 : list Z) (s1 s2 : st) :
  ismail s1 = 3 -> ismail s2 = 3 -> header_exists s1 = true -> header_exists s2 = true -> hide s1 = hide s2 ->
  hide (caught l1 s1) = hide (caught l2 s2).
Proof.
  intros M1 M2 H1 H2 E. unfold caught. rewrite !taken_body by done.
  match goal with |- hide (drop_server ?a) = hide (drop_server ?b) => change (hide a = hide b) end.
  apply blind_waited; [rewrite put_mode; fields; lia..|]. by rewrite !hide_put.
Qed.

Lemma run_bodies (b1 b2 : list (list Z)) (s1 s2 : st) :
  length b1 = length b2 -> Forall plain b1 -> Forall plain b2 -> catching s1 -> catching s2 -> whitelist s1 = false -> whitelist s2 = false ->
  header_exists s1 = true -> header_exists s2 = true -> hide s1 = hide s2 ->
  exists s1' s2', run (map from_server b1) s1 = Go tt s1' /\ run (map from_server b2) s2 = Go tt s2' /\ hide s1' = hide s2'.
Proof.
  revert b2 s1 s2. induction b1 as [|l1 b1 IH]; intros [|l2 b2] s1 s2 Hl F1 F2 C1 C2 W1 W2 H1 H2 E; try discriminate Hl.
  - by exists s1, s2.
  - inversion F1 as [|? ? P1 F1']; inversion F2 as [|? ? P2 F2']; subst. cbn [map run].
    pose proof C1 as (M1 & N1 & B1 & K1). pose proof C2 as (M2 & N2 & B2 & K2).
    rewrite (bind_go _ _ _ _ _ (turn_mail _ _ P1 M1 N1 B1)), (bind_go _ _ _ _ _ (turn_mail _ _ P2 M2 N2 B2)).
    destruct (catching_caught l1 s1 C1 W1) as (C1' & W1' & H1'), (catching_caught l2 s2 C2 W2) as (C2' & W2' & H2').
    apply IH; try assumption; [by injection Hl | by rewrite H1', H1 | by rewrite H2', H2 | apply hide_caught; auto].
Qed.

(** ** The end of the mail *)

(** The mail file of a mail: the line that ended it is in it, unless the option says
    otherwise. *)
Definition mail_file (ls : list (list Z)) : list Z := text (mail_lines false ls ++ if noeom cfg then [] else [PERIOD]).

Lemma mail_file_app (h b : list (list Z)) :
  mail_file (h ++ b) = text (mail_lines false h) ++ text (mail_lines (existsb (fun l => strlen l =? 0) h) b) ++ (if noeom cfg then [] else PERIOD ++ [LF]).
Proof. unfold mail_file. rewrite mail_lines_app, !text_app, <- app_assoc. by destruct (noeom cfg). Qed.

Lemma lines_of_text (ls : list (list Z)) (t : list Z) :
  Forall (fun l => LF ∉ l) ls -> (lines_of (text ls ++ t)).1 = ls ++ (lines_of t).1.
Proof.
  induction 1 as [|l ls Hl _ IH]; [done|]. unfold text. cbn [map concat]. fold (text ls). rewrite <- !app_assoc. cbn [app].
  rewrite lines_of_line by done. cbn [fst app]. by rewrite IH.
Qed.

Lemma shown_line (l : list Z) : LF ∉ l -> LF ∉ shown l.
Proof.
  intros H. unfold shown, subject_line. destruct (closing l); [|done]. destruct (begins _ l); [|done].
  change (bytes "'") with [39]. change (bytes " ") with [32]. rewrite strreplace_char. unfold default, id. simpl.
  intros (c & E & Hc)%list_elem_of_fmap. destruct (c =? 39); [discriminate E | congruence].
Qed.

Lemma mail_lines_good (he : bool) (ls : list (list Z)) : Forall (fun l => LF ∉ l) ls -> Forall (fun l => LF ∉ l) (mail_lines he ls).
Proof.
  intros H. revert he. induction H as [|l ls Hl _ IH]; intros he; cbn [mail_lines]; [done|]. apply Forall_app. split.
  - case_match; [|done]. constructor; [|done]. by apply (bool_decide_unpack _). 
  - constructor; [by apply shown_line | apply IH].
Qed.

Lemma mail_lines_empty (he : bool) (ls : list (list Z)) : [] ∈ ls -> [] ∈ mail_lines he ls.
Proof.
  revert he. induction ls as [|l ls IH]; intros he H; [by apply not_elem_of_nil in H|]. cbn [mail_lines]. apply elem_of_app. right.
  apply elem_of_cons. apply elem_of_cons in H as [<-|H]; [left | right; by apply IH]. by rewrite shown_short by (cbn; lia).
Qed.

(** The state in which the complete mail is looked at. *)
Definition put_period (s : st) : st :=
  let s := if noeom cfg then add_hdr (PERIOD ++ [LF]) s else put PERIOD s in
  if spam_marked PERIOD then set_ispam true s else s.
Definition whole (s : st) : st := waited (put_period (taken PERIOD s)).

Lemma put_period_same (s : st) :
  ismail (put_period s) = ismail s /\ core (put_period s) = core s
  /\ file (put_period s) = (header_exists s, mail s ++ (if noeom cfg then [] else PERIOD ++ [LF]), noscan s).
Proof.
  unfold put_period, put. destruct (noeom cfg), (spam_marked PERIOD); unfold add_hdr, add_mail; fields; rewrite ?app_nil_r;
    destruct (ismail s <? 3); by destruct s; fields; rewrite ?app_nil_r.
Qed.

Lemma mail_end_period (s : st) :
  ismail s <= 3 -> lb_len (serverbuf s) = 1 -> mail_end PERIOD false s = mail_complete (waited (put_period s)).
Proof.
  intros Hm Hs. unfold mail_end. rewrite (bind_go _ _ s (if noeom cfg then add_hdr (PERIOD ++ [LF]) s else put PERIOD s) tt).
  2: { rewrite (bool_decide_eq_true_2 (PERIOD = PERIOD)) by done. rewrite andb_true_r. by destruct (noeom cfg). }
  rewrite bind_upd. change (if spam_marked PERIOD then _ else _) with (put_period s).
  destruct (put_period_same s) as (Ep & [= _ _ _ _ _ _ _ Es] & _). assert (Hp : ismail (put_period s) <= 3) by lia.
  destruct (check_go _ Hp) as (r & E & _). rewrite (bind_go _ _ _ _ _ E), !bind_gets.
  destruct (waited_same _ Hp) as (_ & _ & _ & Ew). rewrite Ew, Es, Hs. by rewrite orb_true_r.
Qed.

Lemma turn_period (s : st) :
  2 <= ismail s <= 3 -> noop s = 0 -> lb_len (clientbuf s) = GETLINE_LINE_NULL ->
  turn (from_server PERIOD) s = (_ ← mail_complete; _ ← upd drop_server; pass_on) (whole s).
Proof.
  intros Hm Hn Hc. rewrite turn_line, shown_short by (done || (cbn; lia)).
  unfold mbind, M_bind. rewrite mail_end_period; [done | rewrite taken_mode by done; case_match; lia | by rewrite taken_len].
Qed.

Lemma whole_same (s : st) :
  2 <= ismail s <= 3 -> whitelist s = false ->
  ismail (whole s) = (if closing PERIOD then 3 else ismail s)
  /\ file (whole s) = (header_exists s, mail s ++ (if noeom cfg then [] else PERIOD ++ [LF]), noscan s)
  /\ held (whole s) = held s.
Proof.
  intros Hm Hw. unfold whole. destruct (put_period_same (taken PERIOD s)) as (E1 & E2 & E3).
  assert (M : ismail (put_period (taken PERIOD s)) = if closing PERIOD then 3 else ismail s) by (rewrite E1, taken_mode by done; by rewrite orb_false_r).
  destruct (waited_same (put_period (taken PERIOD s))) as (W1 & W2 & W3 & _); [rewrite M; case_match; lia|].
  rewrite W1, W2, W3, M, E3. pose proof (taken_file PERIOD s Hw) as F. change (first_empty PERIOD s) with false in F. apply file_eq in F as (-> & -> & ->).
  split; [done|]. split; [done|]. unfold held. pose proof (taken_core PERIOD s) as C. rewrite <- E2 in C. by injection C as -> -> -> -> -> -> _ _.
Qed.

(** ** A mail that is asked for *)

Lemma begun_same (ok : list Z) (s : st) :
  noop s = 0 -> lb_len (clientbuf s) = GETLINE_LINE_NULL ->
  catching (begun ok s) /\ file (begun ok s) = (false, [], false) /\ held (begun ok s) = held s.
Proof. intros Hn Hc. split; [|done]. unfold catching, begun, begin_mail, drop_server. fields. split; [lia|]. done. Qed.

Definition header_turns (n : Z) (ok : list Z) (h : list (list Z)) : list input :=
  from_client (retr n) :: from_server ok :: map from_server h.

Lemma retrieval_split (n : Z) (ok : list Z) (h b : list (list Z)) :
  retrieval n ok (h ++ b) = header_turns n ok h ++ map from_server b ++ [from_server PERIOD].
Proof. unfold retrieval, header_turns. by rewrite !map_app, <- !app_assoc. Qed.

(** The first line of the mail is awaited. *)
Lemma asked_same (n : Z) (ok : list Z) (s : st) :
  idle s ->
  ismail (asked n s) = 1 /\ noop (asked n s) = 0 /\ lb_len (clientbuf (asked n s)) = GETLINE_LINE_NULL
  /\ catching (begun ok (asked n s)) /\ file (begun ok (asked n s)) = (false, [], false)
  /\ whitelist (begun ok (asked n s)) = whitelist s /\ scannerinit (begun ok (asked n s)) = scannerinit s.
Proof.
  intros (_ & I2 & _ & I4 & _).
  assert (A : ismail (asked n s) = 1 /\ noop (asked n s) = 0 /\ lb_len (clientbuf (asked n s)) = GETLINE_LINE_NULL
    /\ whitelist (asked n s) = whitelist s /\ scannerinit (asked n s) = scannerinit s)
    by (unfold asked, sent; fields; by destruct (wres s)).
  destruct A as (A1 & A2 & A3 & <- & <-). clear I2 I4. generalize dependent (asked n s). clear s. intros s A1 A2 A3.
  destruct (begun_same ok s A2 A3) as (C & F & H). apply held_eq in H as (_ & _ & _ & Hw & _ & Hs). done.
Qed.

Lemma run_asked (n : Z) (ok : list Z) (h : list (list Z)) (s : st) :
  scannerenabled cfg = true -> skipsize cfg = 0 -> 1 <= n < 2 ^ 31 -> idle s -> begins (bytes "+ok") ok = true ->
  run (header_turns n ok h) s = run (map from_server h) (begun ok (asked n s))
  \/ (exists s', run (header_turns n ok h) s = Return 1 s') /\ default 0 (head (wres s)) <> 0.
Proof.
  intros Hse Hsk Hn Hi Hok. unfold header_turns. cbn [run].
  destruct (turn_retr n s Hse Hsk Hn Hi) as [E|[(s1 & E) Hne]].
  - left. rewrite (bind_go _ _ _ _ _ E). destruct (asked_same n ok s Hi) as (A1 & A2 & A3 & _).
    by rewrite (bind_go _ _ _ _ _ (turn_ok ok (asked n s) Hok A1 A2 A3)).
  - right. split; [|done]. exists s1. unfold mbind, M_bind. by rewrite E.
Qed.

Lemma run_header (n : Z) (ok : list Z) (h : list (list Z)) (s : st) :
  scannerenabled cfg = true -> skipsize cfg = 0 -> 1 <= n < 2 ^ 31 -> idle s -> whitelist s = false ->
  begins (bytes "+ok") ok = true -> Forall plain h ->
  (exists s', run (header_turns n ok h) s = Return 1 s') \/
  exists s', run (header_turns n ok h) s = Go tt s' /\ catching s' /\ whitelist s' = false /\ scannerinit s' = scannerinit s
    /\ file s' = (existsb (fun l => strlen l =? 0) h, text (mail_lines false h), false).
Proof.
  intros Hse Hsk Hn Hi Hw Hok Hh. destruct (run_asked n ok h s Hse Hsk Hn Hi Hok) as [->|[H _]]; [right | by left].
  destruct (asked_same n ok s Hi) as (_ & _ & _ & C & F0 & Hw0 & <-). rewrite Hw in Hw0. generalize dependent (begun ok (asked n s)).
  intros t C F0 Hw0. destruct (run_lines h t Hh C Hw0) as (s' & R & C' & H & F). apply held_eq in H as (_ & _ & _ & Hw' & _ & Hs').
  apply file_eq in F0 as (E1 & E2 & E3). rewrite E1, E2, E3 in F.
  exists s'. split; [done|]. split; [done|]. split; [congruence|]. by split.
Qed.

Lemma hide_whole (s1 s2 : st) :
  ismail s1 = 3 -> ismail s2 = 3 -> header_exists s1 = true -> header_exists s2 = true -> hide s1 = hide s2 -> hide (whole s1) = hide (whole s2).
Proof.
  intros M1 M2 H1 H2 E. unfold whole.
  assert (Hp : forall s, ismail s = 3 -> header_exists s = true -> ismail (put_period (taken PERIOD s)) = 3 /\ hide (put_period (taken PERIOD s)) = hide s).
  { intros [] M H. cbn in M, H. subst. rewrite taken_body by done. unfold put_period, put, add_hdr, add_mail. fields.
    destruct (noeom cfg), (spam_marked PERIOD); done. }
  destruct (Hp s1 M1 H1) as [P1 E1], (Hp s2 M2 H2) as [P2 E2]. apply blind_waited; [lia | lia | congruence].
Qed.

(** What is left of the turn. *)
Definition infected_end (lines : list (list Z)) (v : option (list Z)) : M unit :=
  _ ← init_scanner; _ ← infected_mail lines v; upd drop_server.

Lemma complete_end (s : st) (v : option (list Z)) :
  scannerenabled cfg = true -> 0 <= scannerinit s -> ismail s = 3 -> noscan s = false -> scan (mail s) = (SCANNER_RET_VIRUS, v) ->
  (_ ← mail_complete; _ ← upd drop_server; pass_on) s = infected_end (file_lines (mail s)) v (set_ismail 4 s).
Proof.
  intros He Hi Hm Hn Hv. unfold infected_end, mbind, M_bind. rewrite (complete_infected s v) by done. unfold mbind, M_bind.
  destruct (init_scanner _) as [? s1| | |]; [|done..]. destruct (infected_mail _ _ s1) as [? s2| | |]; [|done..].
  cbn [upd]. by apply no_pass.
Qed.

Lemma blind_infected_end (lines : list (list Z)) (v : option (list Z)) : blind (infected_end lines v).
Proof. unfold infected_end. pose proof blind_init. pose proof (blind_infected_mail lines v). unfold drop_server. blind. Qed.

Lemma infected_end_cut (a x y : list (list Z)) (v : option (list Z)) (s : st) :
  [] ∈ a -> infected_end (a ++ x) v s = infected_end (a ++ y) v s.
Proof.
  intros H. unfold infected_end, mbind, M_bind. destruct (init_scanner s) as [? s1| | |]; [|done..]. by rewrite (infected_mail_cut a x y).
Qed.

(** Two complete mails that differ where the client cannot see it. *)
Lemma infected_same (a x y : list (list Z)) (v : option (list Z)) (s1 s2 : st) :
  scannerenabled cfg = true -> 0 <= scannerinit s1 -> catching s1 -> catching s2 -> header_exists s1 = true -> header_exists s2 = true ->
  whitelist s1 = false -> whitelist s2 = false -> noscan s1 = false -> noscan s2 = false -> hide s1 = hide s2 -> [] ∈ a ->
  file_lines (mail (whole s1)) = a ++ x -> file_lines (mail (whole s2)) = a ++ y ->
  scan (mail (whole s1)) = (SCANNER_RET_VIRUS, v) -> scan (mail (whole s2)) = (SCANNER_RET_VIRUS, v) ->
  hideo (turn (from_server PERIOD) s1) = hideo (turn (from_server PERIOD) s2).
Proof.
  intros He Hsi (M1 & N1 & B1 & K1) (M2 & N2 & B2 & K2) H1 H2 W1 W2 Q1 Q2 E Ha L1 L2 V1 V2. rewrite !turn_period by done.
  destruct (whole_same s1 M1 W1) as (T1 & F1 & D1), (whole_same s2 M2 W2) as (T2 & F2 & D2).
  apply held_eq in D1 as (_ & _ & _ & _ & _ & D1), D2 as (_ & _ & _ & _ & _ & D2). apply file_eq in F1 as (_ & _ & F1), F2 as (_ & _ & F2).
  assert (S2 : scannerinit s2 = scannerinit s1) by exact (eq_sym (f_equal scannerinit E)).
  assert (Eh : hide (set_ismail 4 (whole s1)) = hide (set_ismail 4 (whole s2))).
  { change (set_ismail 4 (hide (whole s1)) = set_ismail 4 (hide (whole s2))). by rewrite (hide_whole s1 s2) by auto. }
  rewrite K1 in T1 by done. rewrite K2 in T2 by done.
  rewrite (complete_end (whole s1) v), (complete_end (whole s2) v) by (done || congruence || (try destruct (closing PERIOD); congruence || lia)).
  rewrite L1, L2, (infected_end_cut a x y) by done. by apply blind_same; [apply blind_infected_end|].
Qed.

Lemma run_body (h b : list (list Z)) (s : st) :
  catching s -> whitelist s = false -> Forall plain b -> existsb (fun l => strlen l =? 0) h = true ->
  file s = (true, text (mail_lines false h), false) ->
  exists s', run (map from_server b) s = Go tt s' /\ catching s' /\ header_exists s' = true /\ whitelist s' = false
    /\ noscan s' = false /\ scannerinit s' = scannerinit s /\ mail (whole s') = mail_file (h ++ b).
Proof.
  intros C W Hb He F. apply file_eq in F as (Fh & Fm & Fn). destruct (run_lines b s Hb C W) as (s' & R & C' & K & F).
  apply held_eq in K as (_ & _ & _ & Kw & _ & Ks). rewrite Fh, Fm, Fn in F. apply file_eq in F as (Gh & Gm & Gn). rewrite W in Kw.
  exists s'. split; [done|]. split; [done|]. split; [done|]. split; [done|]. split; [done|]. split; [done|].
  destruct (whole_same s' (proj1 C') Kw) as (_ & Fw & _). apply file_eq in Fw as (_ & -> & _).
  by rewrite Gm, mail_file_app, He, <- app_assoc.
Qed.

(** The lines of the mail file that the header gives. *)
Lemma file_lines_header (h b : list (list Z)) :
  Forall (fun l => LF ∉ l) h -> exists x, file_lines (mail_file (h ++ b)) = map handed (mail_lines false h) ++ x.
Proof.
  intros Hlf. rewrite mail_file_app. unfold file_lines. rewrite lines_of_text by by apply mail_lines_good. rewrite map_app. by eexists.
Qed.

Lemma run_one (i : input) (s : st) : run [i] s = turn i s.
Proof. cbn [run]. unfold mbind, M_bind. by destruct (turn i s) as [[] ?| | |]. Qed.

(** C1: what a client sees of an infected mail does not depend on its body: if two mails
    have the same header, as many lines, and the scanner finds the same virus in both,
    then everything sent to the client and to the server, the way the connection ends
    and the state it is left in are the same, but for the mail file, the mark of spam,
    the line last read and what is set aside; whichever timeouts pass and writes fail.
    (Between two commands of a client that is not on the whitelist, with the scanner
    enabled and no size from which mails are skipped.) *)
Theorem infected_hidden (n : Z) (ok : list Z) (h b1 b2 : list (list Z)) (v : option (list Z)) (s : st) :
  scannerenabled cfg = true -> skipsize cfg = 0 -> 1 <= n < 2 ^ 31 -> idle s -> whitelist s = false -> 0 <= scannerinit s ->
  begins (bytes "+ok") ok = true -> Forall (fun l => LF ∉ l) h -> [] ∈ h ->
  Forall plain h -> Forall plain b1 -> Forall plain b2 -> length b1 = length b2 ->
  scan (mail_file (h ++ b1)) = (SCANNER_RET_VIRUS, v) -> scan (mail_file (h ++ b2)) = (SCANNER_RET_VIRUS, v) ->
  hideo (run (retrieval n ok (h ++ b1)) s) = hideo (run (retrieval n ok (h ++ b2)) s).
Proof.
  intros Hse Hsk Hn Hi Hw Hsi Hok Hlf He Hh H1 H2 Hl V1 V2. rewrite !retrieval_split, !run_app.
  destruct (run_header n ok h s) as [(s0 & ->)|(s0 & -> & C & W & Es & F)]; [done..|].
  assert (Ee : existsb (fun l => strlen l =? 0) h = true) by (apply existsb_exists; exists []; by rewrite <- list_elem_of_In).
  rewrite Ee in F. rewrite !run_app. pose proof F as Fh. apply file_eq in Fh as (Fh & _ & _).
  destruct (run_body h b1 s0) as (s1 & R1 & C1 & G1 & W1 & Q1 & I1 & M1); [done..|].
  destruct (run_body h b2 s0) as (s2 & R2 & C2 & G2 & W2 & Q2 & I2 & M2); [done..|].
  destruct (run_bodies b1 b2 s0 s0) as (s1' & s2' & R1' & R2' & E); [done..|].
  rewrite R1 in R1'. rewrite R2 in R2'. injection R1' as <-. injection R2' as <-. rewrite R1, R2, !run_one.
  destruct (file_lines_header h b1 Hlf) as (x & X), (file_lines_header h b2 Hlf) as (y & Y).
  apply (infected_same (map handed (mail_lines false h)) x y v); try done; try congruence.
  apply list_elem_of_fmap. exists []. split; [done|]. by apply mail_lines_empty.
Qed.

(** ** A mail that is let through, without timeouts and failures *)

(** What was sent, the line that the header file is closed with included. *)
Definition told (s : st) : list event := out s ++ if notified s then [] else [ToClient (banner ++ CRLF)].
Definition easy (o : list event) (s : st) : Prop :=
  late s = [] /\ wres s = [] /\ nosend s = false /\ blacklist s = false /\ getmsgsize s = false /\ told s = o
  /\ (ismail s = 3 -> notified s = true /\ hdroffset s = 0).

Lemma easy_opened (o : list event) (s : st) : easy o s -> easy o (opened s).
Proof.
  destruct s. unfold easy, opened, sent, told. fields. intros (-> & -> & -> & -> & -> & <- & _).
  destruct notified0; fields; by rewrite ?app_nil_r.
Qed.

Lemma easy_once (o : list event) (b : bool) (s : st) : easy o s -> easy o (open_once b s).
Proof. intros H. unfold open_once. case_match; [by apply easy_opened | done]. Qed.

Lemma easy_hdr (o : list event) (m : list Z) (s : st) : easy o s -> easy o (add_hdr m s).
Proof. intros H. unfold add_hdr. by case_match. Qed.

Lemma easy_mark (o : list event) (l : list Z) (s : st) : easy o s -> easy o (mark l s).
Proof.
  intros H. unfold mark. case_match; [|done]. apply easy_once. change (easy o (add_hdr SCANNER_LINE (add_mail SCANNER_LINE s))).
  by apply easy_hdr.
Qed.

Lemma easy_see (o : list event) (l : list Z) (s : st) : easy o s -> easy o (see l s).
Proof.
  intros H. unfold see. assert (H1 : easy o (saw_date l s)) by (unfold saw_date; by case_match). revert H1.
  generalize (saw_date l s). intros t H1. enough (easy o (saw_from l t)) by (unfold saw_to; by case_match).
  unfold saw_from. case_match; [|done]. unfold check_from. fields. rewrite (proj1 (proj2 (proj2 (proj2 H1)))). cbn [andb]. fields. by case_match.
Qed.

Lemma easy_taken (o : list event) (l : list Z) (s : st) : easy o s -> easy o (taken l s).
Proof.
  intros H. unfold taken, part. apply easy_once. set (s0 := set_server _ s).
  change (easy o (see l (mark l s0))). by apply easy_see, easy_mark.
Qed.

Lemma easy_put (o : list event) (l : list Z) (s : st) : easy o s -> easy o (put_spam l s).
Proof. intros H. unfold put_spam. assert (easy o (put l s)) by (by apply easy_hdr). by case_match. Qed.

Lemma check_late (s : st) : late s = [] -> checktimeout s = Go 0 s.
Proof. intros H. unfold checktimeout. rewrite bind_gets. destruct (action s =? ACT_TOP); [done|]. unfold timed_out, mbind, M_bind. by rewrite H. Qed.

Lemma waited_late (s : st) : late s = [] -> waited s = s.
Proof. intros H. unfold waited. by rewrite check_late. Qed.

Lemma easy_caught (o : list event) (l : list Z) (s : st) : easy o s -> easy o (caught l s).
Proof.
  intros H. pose proof (easy_put o (shown l) _ (easy_taken o l s H)) as H'. unfold caught. by rewrite waited_late by apply H'.
Qed.

Lemma easy_lines (o : list event) (ls : list (list Z)) (s s' : st) :
  Forall plain ls -> catching s -> whitelist s = false -> easy o s -> run (map from_server ls) s = Go tt s' -> easy o s'.
Proof.
  intros Hl. revert s. induction Hl as [|l ls Hl _ IH]; intros s C Hw H; cbn [map run]; [by intros [= <-]|].
  pose proof C as (H1 & H2 & H3 & _). rewrite (bind_go _ _ _ _ _ (turn_mail _ _ Hl H1 H2 H3)).
  destruct (catching_caught l s C Hw) as (C' & Hw' & _). apply IH; [done..|]. by apply easy_caught.
Qed.

Lemma easy_whole (o : list event) (s : st) : easy o s -> easy o (whole s).
Proof.
  intros H. unfold whole. assert (H' : easy o (put_period (taken PERIOD s))).
  { apply easy_taken with (l := PERIOD) in H. unfold put_period. destruct (noeom cfg).
    - apply easy_hdr with (m := PERIOD ++ [LF]) in H. by case_match.
    - assert (easy o (put PERIOD (taken PERIOD s))) by (by apply easy_hdr). by case_match. }
  by rewrite waited_late by apply H'.
Qed.

(** Lines sent to the client. *)
Definition said (ls : list (list Z)) : list event := map (fun l => ToClient (l ++ CRLF)) ls.
Definition is_period (l : list Z) : bool := bool_decide (l = PERIOD) || bool_decide (l = PERIOD ++ [CR]).

Lemma send_lines_easy (ls : list (list Z)) (len : Z) (g : bool) (s : st) :
  late s = [] -> wres s = [] ->
  exists n, send_lines ls len g s = Go (n, g || existsb is_period ls, None) (set_out [] (out s ++ said ls) s).
Proof.
  revert len g s. induction ls as [|l ls IH]; intros len g s Hl Hw; cbn [send_lines].
  - rewrite (bind_go _ _ _ _ _ (check_late s Hl)). exists len. cbn. rewrite orb_false_r, app_nil_r, <- Hw. by destruct s.
  - rewrite (bind_go _ _ _ _ _ (check_late s Hl)). change (0 =? GETLINE_PIPE) with false. change (negb (0 =? 0)) with false.
    unfold line_client. rewrite (bind_go _ _ _ _ _ (send_go _ s)). unfold sent. rewrite Hw.
    change (default 0 (head [])) with 0. change (0 =? GETLINE_PIPE) with false. change (negb (0 =? 0)) with false. cbn iota.
    destruct (IH (len + strlen l) (g || bool_decide (l = bytes ".") || bool_decide (l = bytes "." ++ [CR])) (set_out [] (out s ++ [ToClient (l ++ CRLF)]) s))
      as (n & E); [done..|]. exists n. rewrite E. cbn [existsb]. unfold is_period at 2. change (bytes ".") with PERIOD.
    rewrite <- !orb_assoc. fields. by rewrite <- app_assoc.
Qed.

Lemma send_mailfile_easy (content : list Z) (s : st) :
  late s = [] -> wres s = [] -> hdroffset s = 0 ->
  exists n, send_mailfile content s =
    Go n (set_out [] (out s ++ said (file_lines content ++ (if existsb is_period (file_lines content) then [] else [PERIOD]))) s).
Proof.
  intros Hl Hw Ho. unfold send_mailfile. rewrite bind_gets, Ho. change (drop (Z.to_nat 0) content) with content.
  destruct (send_lines_easy (file_lines content) 0 false s Hl Hw) as (n & E). rewrite (bind_go _ _ _ _ _ E). cbn [orb]. exists n.
  unfold said. rewrite map_app, app_assoc. destruct (existsb _ _); [by rewrite bind_give, app_nil_r|].
  unfold line_client. by rewrite (bind_go _ _ _ _ _ (send_go _ _)).
Qed.

Lemma scan_easy (s : st) (r : Z) (v : option (list Z)) :
  late s = [] -> altvnmsg cfg && bool_decide (template = None) = false -> negb (freespace cfg =? 0) && (kbfree <? freespace cfg) = false ->
  scan (mail s) = (r, v) -> exists w, scan_mailfile s = Go (r, w) s.
Proof.
  intros Hl Ha Hf Hv. unfold scan_mailfile. rewrite (bind_go _ _ _ _ _ (check_late s Hl)), Ha, Hf. change (0 <? 0) with false. cbn iota.
  rewrite (bind_go _ _ _ _ _ (check_late s Hl)). change (0 <? 0) with false. cbn iota. rewrite bind_gets, Hv.
  rewrite (bind_go _ _ _ _ _ (check_late s Hl)). by eexists.
Qed.

Lemma complete_close (s : st) : ismail s = 2 -> mail_complete s = mail_complete (opened s).
Proof.
  intros Hm. unfold mail_complete. rewrite !bind_gets, Hm. rewrite (bind_go _ _ s (opened s) tt) by apply closehdrfile_go.
  by rewrite (bind_go (if ismail (opened s) =? 2 then closehdrfile else give tt) _ (opened s) (opened s) tt).
Qed.

(** The state between two commands, after a mail. *)
Definition done_with (s s' : st) : Prop :=
  ismail s' = 0 /\ noop s' = noop s /\ clientbuf s' = clientbuf s /\ lb_len (serverbuf s') = GETLINE_LINE_NULL /\ getmsgsize s' = getmsgsize s.

Lemma deliver_easy (o : list event) (s : st) :
  late s = [] -> wres s = [] -> hdroffset s = 0 -> out s = o ->
  exists s', deliver s = Go tt s' /\ done_with s s'
    /\ out s' = o ++ said (file_lines (mail s) ++ (if existsb is_period (file_lines (mail s)) then [] else [PERIOD])).
Proof.
  intros Hl Hw Ho Hout. unfold deliver. rewrite bind_upd, bind_gets. set (s5 := set_ismail 5 s).
  destruct (send_mailfile_easy (mail s5) s5 Hl Hw Ho) as (n & E). rewrite (bind_go _ _ _ _ _ E), bind_upd. rewrite <- Hout.
  by eexists.
Qed.

(** The scanner can be asked. *)
Definition can_scan : Prop :=
  scannerenabled cfg = true /\ init2 <> Some false /\ altvnmsg cfg && bool_decide (template = None) = false
  /\ negb (freespace cfg =? 0) && (kbfree <? freespace cfg) = false.

Lemma complete_clean (o : list event) (s : st) (r : Z) (v : option (list Z)) :
  can_scan -> 0 <= scannerinit s -> ismail s = 3 -> noscan s = false -> easy o s ->
  scan (mail s) = (r, v) -> r <> SCANNER_RET_VIRUS -> r <> SCANNER_RET_CRIT -> r <> SCANNER_RET_ERR ->
  exists s', mail_complete s = Go tt s' /\ done_with s s'
    /\ out s' = o ++ said (file_lines (mail s) ++ (if existsb is_period (file_lines (mail s)) then [] else [PERIOD])).
Proof.
  intros (He & Hi2 & Ha & Hf) Hi Hm Hn (E1 & E2 & E3 & _ & _ & E6 & E7) Hv R1 R2 R3. destruct (E7 Hm) as [En Eo].
  unfold told in E6. rewrite En, app_nil_r in E6. unfold mail_complete. rewrite bind_gets, Hm. rewrite (bind_go _ _ s s tt) by done. rewrite bind_upd.
  set (s0 := set_ismail 4 s). destruct (init_go s0 He Hi) as [[_ E]|(i & E & Hi')]; [done|].
  rewrite (bind_go _ _ _ _ _ E). set (s1 := set_scannerinit i s0). rewrite !bind_upd.
  set (s2 := param_set _ _ s1). destruct (header_params_only (file_lines (mail s)) s2) as (p & Ep).
  assert (Eq : set_paramsfrommailheader s2 = set_params p s2) by exact Ep. rewrite Eq. set (s3 := set_params p s2).
  rewrite bind_gets. unfold id. change (scannerinit s3) with i. change (noscan s3) with (noscan s). change (nosend s3) with (nosend s).
  rewrite Hn, E3, (proj2 (Z.ltb_lt 0 i)) by lia. cbn [negb andb]. destruct (scan_easy s3 r v E1 Ha Hf Hv) as (w & Es).
  rewrite bind_assoc, (bind_go _ _ _ _ _ Es). rewrite (proj2 (Z.eqb_neq r SCANNER_RET_VIRUS)), (proj2 (Z.eqb_neq r SCANNER_RET_CRIT)) by done.
  rewrite bind_assoc, !bind_give. rewrite (proj2 (Z.eqb_neq r SCANNER_RET_VIRUS)), (proj2 (Z.eqb_neq r SCANNER_RET_ERR)) by done. rewrite bind_give.
  by destruct (deliver_easy o s3) as (s' & Ed & D & Ho); [done..|exists s'].
Qed.

(** Lines that a file gives back as they are. *)
Definition clean (l : list Z) : Prop := Forall (fun c => 0 < c < 256 /\ c <> LF) l /\ (List.last l 0 =? CR) = false.

Lemma clean_line (l : list Z) : clean l -> (LF ∉ l) /\ handed l = l.
Proof.
  intros [H1 H2]. split.
  - intros H. rewrite Forall_forall in H1. by destruct (H1 _ H).
  - unfold handed. assert (E : strip_cr l = l).
    { unfold strip_cr. revert H2. unfold CR. by destruct (List.last l 0) as [|[[[[]| |]|[[]| |]|]|[[[]| |]|[[]| |]|]|]|]. }
    rewrite E. apply cstr_id. eapply Forall_impl; [exact H1|]. by intros c [? _].
Qed.

Lemma clean_shown (l : list Z) : clean l -> clean (shown l).
Proof.
  intros [H1 H2]. unfold shown, subject_line. destruct (closing l); [|done]. destruct (begins _ l); [|done].
  change (bytes "'") with [39]. change (bytes " ") with [32]. rewrite strreplace_char. unfold default, id. simpl. split.
  - apply Forall_forall. intros d Hd. apply list_elem_of_fmap in Hd as (c & -> & Hc). rewrite Forall_forall in H1. specialize (H1 c Hc).
    destruct (c =? 39); [done | lia].
  - set (f := fun c => if c =? 39 then 32 else c). assert (E : List.last (map f l) 0 = f (List.last l 0)).
    { clear. induction l as [|c [|d l] IH]; [done..|exact IH]. }
    rewrite E. unfold f. by destruct (List.last l 0 =? 39).
Qed.

Lemma easy_begun (n : Z) (ok : list Z) (s : st) :
  idle s -> late s = [] -> wres s = [] -> blacklist s = false ->
  easy (out s ++ ToServer (retr n ++ CRLF) :: said [banner]) (begun ok (asked n s)).
Proof.
  intros (_ & _ & I3 & _ & _) Hl Hw Hb. unfold easy, told, begun, begin_mail, drop_server, asked, sent. fields. rewrite Hw. fields.
  rewrite <- app_assoc. done.
Qed.

Lemma file_lines_text (ls : list (list Z)) : Forall clean ls -> file_lines (text ls) = ls.
Proof.
  intros H. unfold file_lines. rewrite <- (app_nil_r (text ls)), lines_of_text.
  - rewrite app_nil_r. induction H as [|l ls Hl _ IH]; [done|]. cbn [map]. rewrite IH. f_equal. by apply clean_line.
  - eapply Forall_impl; [exact H|]. by intros l [? _]%clean_line.
Qed.

Lemma mail_lines_Forall (P : list Z -> Prop) (he : bool) (ls : list (list Z)) :
  P scanner_text -> Forall (fun l => P (shown l)) ls -> Forall P (mail_lines he ls).
Proof.
  intros Hs H. revert he. induction H as [|l ls Hl _ IH]; intros he; cbn [mail_lines]; [done|]. apply Forall_app. split.
  - case_match; by repeat constructor.
  - by constructor.
Qed.

(** What the client then gets ends with one line that is a period. *)
Lemma mail_file_lines (ls : list (list Z)) :
  Forall clean ls -> Forall plain ls ->
  let fl := file_lines (mail_file ls) in fl ++ (if existsb is_period fl then [] else [PERIOD]) = mail_lines false ls ++ [PERIOD].
Proof.
  intros Hc Hp. assert (Hm : Forall clean (mail_lines false ls)).
  { apply mail_lines_Forall; [split; [by apply (bool_decide_unpack _) | done]|]. eapply Forall_impl; [exact Hc|]. apply clean_shown. }
  assert (Hn : Forall plain (mail_lines false ls)) by (apply mail_lines_Forall; [done|]; eapply Forall_impl; [exact Hp|]; apply shown_plain).
  assert (Hx : existsb is_period (mail_lines false ls) = false).
  { clear -Hn. induction Hn as [|l ls' [H1 H2] _ IH]; [done|]. cbn [existsb]. rewrite IH. unfold is_period.
    by rewrite !bool_decide_eq_false_2. }
  cbn zeta. unfold mail_file. destruct (noeom cfg).
  - by rewrite app_nil_r, file_lines_text, Hx.
  - rewrite file_lines_text by (apply Forall_app; split; [done|]; repeat constructor; by vm_compute).
    by rewrite existsb_app, Hx, app_nil_r.
Qed.

Lemma closed_first (o : list event) (s : st) :
  2 <= ismail s <= 3 -> easy o s ->
  exists s', mail_complete s = mail_complete s' /\ ismail s' = 3 /\ easy o s' /\ file s' = file s /\ held s' = held s.
Proof.
  intros Hm He. destruct (decide (ismail s = 2)) as [E|E].
  - exists (opened s). split; [by apply complete_close|]. split; [done|]. split; [by apply easy_opened|].
    split; [apply opened_file|]. pose proof (opened_core s) as C. unfold core in C. unfold held. congruence.
  - exists s. split; [done|]. split; [lia|]. done.
Qed.

Lemma turn_clean (o : list event) (ls : list (list Z)) (r : Z) (v : option (list Z)) (s : st) :
  can_scan -> catching s -> whitelist s = false -> noscan s = false -> 0 <= scannerinit s -> easy o s -> mail (whole s) = mail_file ls ->
  scan (mail_file ls) = (r, v) -> r <> SCANNER_RET_VIRUS -> r <> SCANNER_RET_CRIT -> r <> SCANNER_RET_ERR -> Forall clean ls -> Forall plain ls ->
  exists s', turn (from_server PERIOD) s = Go tt s' /\ idle s' /\ out s' = o ++ said (mail_lines false ls ++ [PERIOD]).
Proof.
  intros Hc (M & N & B & _) W Q I He Hm Hv R1 R2 R3 Hcl Hp. rewrite turn_period by done.
  destruct (whole_same s M W) as (T & F & D). pose proof (easy_whole o s He) as Hw. apply file_eq in F as (_ & _ & Fn).
  apply held_eq in D as (_ & Dn & Dc & _ & _ & Ds).
  destruct (closed_first o (whole s)) as (s2 & E2 & M2 & H2 & F2 & D2); [rewrite T; case_match; lia | done|].
  apply held_eq in D2 as (_ & Dn2 & Dc2 & _ & _ & Ds2). assert (Fm2 : mail s2 = mail_file ls) by (injection F2 as _ -> _; done).
  assert (Fn2 : noscan s2 = false) by (injection F2 as _ _ ->; congruence).
  destruct (complete_clean o s2 r v) as (s3 & E3 & (G1 & G2 & G3 & G4 & G5) & O3); try done; [lia | by rewrite Fm2|].
  rewrite Fm2, (mail_file_lines ls Hcl Hp) in O3. rewrite <- E2 in E3. rewrite (bind_go _ _ _ _ _ E3), bind_upd, no_pass by done.
  exists (drop_server s3). split; [done|]. split; [|done]. unfold idle, drop_server. fields. rewrite G1, G2, G3, G5, Dn2, Dc2, Dn, Dc, N, B.
  by rewrite (proj1 (proj2 (proj2 (proj2 (proj2 H2))))).
Qed.

Lemma run_clean (o : list event) (ls : list (list Z)) (r : Z) (v : option (list Z)) (t : st) :
  can_scan -> catching t -> file t = (false, [], false) -> whitelist t = false -> 0 <= scannerinit t -> easy o t ->
  scan (mail_file ls) = (r, v) -> r <> SCANNER_RET_VIRUS -> r <> SCANNER_RET_CRIT -> r <> SCANNER_RET_ERR -> Forall clean ls -> Forall plain ls ->
  exists s', run (map from_server ls ++ [from_server PERIOD]) t = Go tt s' /\ idle s' /\ out s' = o ++ said (mail_lines false ls ++ [PERIOD]).
Proof.
  intros Hc C F0 Hw Hi He Hv R1 R2 R3 Hcl Hp. destruct (run_lines ls t Hp C Hw) as (s1 & R & C1 & K & F).
  pose proof (easy_lines o ls t s1 Hp C Hw He R) as He1. rewrite run_app, R, run_one.
  apply file_eq in F0 as (E1 & E2 & E3). rewrite E1, E2, E3 in F. apply file_eq in F as (_ & Fm & Fn).
  apply held_eq in K as (_ & _ & _ & Kw & _ & Ks). rewrite Hw in Kw. apply (turn_clean o ls r v); try done; [lia|].
  destruct (whole_same s1 (proj1 C1) Kw) as (_ & Gw & _). apply file_eq in Gw as (_ & -> & _). rewrite Fm.
  unfold mail_file. rewrite text_app. by destruct (noeom cfg).
Qed.

(** C6: a mail that is asked for and in which the scanner finds nothing reaches the
    client whole: after a line of the proxy's own come its lines in order, with the mark
    before the body and without quotes in the subject, then one period, and the
    connection is ready for the next command; here no timeout passes and no write
    fails, the scanner can be asked and skips no size, the client is on no list, and
    the lines hold no NUL and do not end in CR. *)
Theorem clean_delivered (n : Z) (ok : list Z) (ls : list (list Z)) (r : Z) (v : option (list Z)) (s : st) :
  can_scan -> skipsize cfg = 0 -> 1 <= n < 2 ^ 31 -> idle s -> whitelist s = false -> blacklist s = false -> 0 <= scannerinit s ->
  late s = [] -> wres s = [] -> begins (bytes "+ok") ok = true -> Forall clean ls -> Forall plain ls ->
  scan (mail_file ls) = (r, v) -> r <> SCANNER_RET_VIRUS -> r <> SCANNER_RET_CRIT -> r <> SCANNER_RET_ERR ->
  exists s', run (retrieval n ok ls) s = Go tt s' /\ idle s'
    /\ out s' = out s ++ ToServer (retr n ++ CRLF) :: said (banner :: mail_lines false ls ++ [PERIOD]).
Proof.
  intros Hc Hsk Hn Hi Hw Hb Hsi Hl Hwr Hok Hcl Hp Hv R1 R2 R3. rewrite <- (app_nil_r ls), retrieval_split, app_nil_r, run_app.
  destruct (run_asked n ok ls s (proj1 Hc) Hsk Hn Hi Hok) as [->|[_ H]]; [|by rewrite Hwr in H].
  pose proof (easy_begun n ok s Hi Hl Hwr Hb) as He. destruct (asked_same n ok s Hi) as (_ & _ & _ & C & F & Hw0 & Hs0).
  rewrite Hw in Hw0. rewrite <- Hs0 in Hsi. rewrite <- run_app.
  destruct (run_clean _ ls r v _ Hc C F Hw0 Hsi He) as (s' & R & I & O); [done..|]. exists s'. split; [exact R|]. split; [done|].
  rewrite O. unfold said. cbn [map]. by rewrite <- app_assoc.
Qed.
End Proxy.

(** ** Sessions *)

Module Demo.
Definition cf : config := Conf true false false false false true 0 0 None (bytes "[ VIRUS ]") (bytes "[ BLACK ]") (bytes "gone").
Definition tpl : list Z := bytes "Virus %VIRUSNAME% from %MAILFROM%." ++ [LF].
Definition sc (m : list Z) : Z * option (list Z) :=
  if contains (bytes "EICAR") m then (SCANNER_RET_VIRUS, Some (bytes "Eicar")) else (SCANNER_RET_OK, None).
Definition s0 : st :=
  St 0 0 0 0 false 0 false false false false false false false false 0 0 None (Lbuf None (-2)) (Lbuf None (-2)) paramlist_init
    false false false false false 0 None [] [] false [] [] [].
Definition session (l : list input) (s : st) : outcome unit :=
  run cf None None (Some tpl) None (fun _ _ => false) None sc 1000 (bytes "now") (bytes "f") l s.
Definition head_lines : list (list Z) := map bytes ["From: a@b"; "Subject: it's"; ""]%string.

(** With a timeout, and a write that fails, on the way. *)
Definition s1 : st := set_out [0; 0; 0; -1] [] (set_late [false; false; true; false; true] s0).

Lemma infected_hidden_witness :
  let m1 := head_lines ++ [bytes "EICAR one"] in let m2 := head_lines ++ [bytes "another EICAR"] in
  hideo (session (retrieval 1 (bytes "+OK 99") m1) s1) = hideo (session (retrieval 1 (bytes "+OK 99") m2) s1).
Proof.
  refine (infected_hidden cf None None (Some tpl) None (fun _ _ => false) None sc 1000 (bytes "now") (bytes "f")
    1 (bytes "+OK 99") head_lines [bytes "EICAR one"] [bytes "another EICAR"] (Some (bytes "Eicar")) s1 _ _ _ _ _ _ _ _ _ _ _ _ _ _ _);
    try reflexivity; try lia; try (split; reflexivity); try (by apply (bool_decide_unpack _)); try (by repeat constructor); try (by vm_compute).
Defined.

Lemma clean_delivered_witness :
  let m := head_lines ++ [bytes "hello"] in
  exists s, session (retrieval 1 (bytes "+OK 99") m) s0 = Go tt s /\ idle s
    /\ out s = out s0 ++ ToServer (retr 1 ++ CRLF) :: said (banner :: mail_lines false m ++ [PERIOD]).
Proof.
  refine (clean_delivered cf None None (Some tpl) None (fun _ _ => false) None sc 1000 (bytes "now") (bytes "f")
    1 (bytes "+OK 99") (head_lines ++ [bytes "hello"]) SCANNER_RET_OK None s0 _ _ _ _ _ _ _ _ _ _ _ _ _ _ _ _);
    try reflexivity; try lia; try done; try (by repeat constructor); try (by vm_compute).
  all: try (apply Forall_forall; intros l Hl; unfold clean; revert l Hl; apply Forall_forall; by apply (bool_decide_unpack _)).
Defined.

(** What the client got, and whether a text is in it. *)
Definition client_bytes (o : outcome unit) : option (list Z) :=
  match o with Go _ s => Some (concat (map (fun e => match e with ToClient l => l | _ => [] end) (out s))) | _ => None end.
Definition gets_text (w : string) (o : outcome unit) : option bool := option_map (contains (bytes w)) (client_bytes o).

(** A command sent before the answer to RETR lets the mail through without a scan. *)
Lemma pipelined_unscanned :
  gets_text "EICAR" (session (from_client (retr 1) :: from_client (bytes "NOOP") :: map from_server (bytes "+OK 99" :: head_lines ++ [bytes "EICAR"; PERIOD])) s0)
  = Some true.
Proof. by vm_compute. Qed.

(** A timeout while a mail is sent asks the server for a NOOP; the line is then NULL until
    the answer comes, and the next turn reads it. *)
Lemma noop_line_null :
  session (retrieval 1 (bytes "+OK 99") (head_lines ++ [bytes "hello"]) ++ [from_client (bytes "QUIT")]) (set_late (repeat false 8 ++ [true]) s0) = Crash.
Proof. by vm_compute. Qed.

(** The end of the header file is not noticed: its last byte is sent at every timeout,
    and as many bytes of the mail are left out. *)
Lemma late_mail_cut :
  let m := retrieval 1 (bytes "+OK 99") (head_lines ++ repeat (bytes "x") 30) in
  gets_text "Subject: it s" (session m s0) = Some true /\ gets_text "Subject: it s" (session m (set_late (repeat true 30) s0)) = Some false.
Proof. by vm_compute. Qed.

(** A mail that could not be scanned is delivered, unless the process is to end then. *)
Lemma error_delivered :
  gets_text "EICAR" (run (Conf true false false false false false 0 0 None [] [] []) None None (Some tpl) None (fun _ _ => false) None
    (fun _ => (SCANNER_RET_ERR, None)) 1000 (bytes "now") (bytes "f") (retrieval 1 (bytes "+OK 99") (head_lines ++ [bytes "EICAR"])) s0) = Some true.
Proof. by vm_compute. Qed.
End Demo.
End P3Proxy.
