(* ===== verification/Md5.v ===== *)
(** * Message digests and the console login

    v2.1/src/mybox/lib/md5.c, with the words it calls [UINT4] of a width [w]
    (an [unsigned long int]: 32 bits on the appliance), and the console login
    of v2.1/src/mybox/prog/login.c that checks passwords with it.  The data
    base is what [sqlite_open] and [sqlite_exec] answer at each attempt. *)

From S2P Require Import Prelude CString.

(** ** The transformation *)

Definition S11 : Z := 7.
Definition S12 : Z := 12.
Definition S13 : Z := 17.
Definition S14 : Z := 22.
Definition S21 : Z := 5.
Definition S22 : Z := 9.
Definition S23 : Z := 14.
Definition S24 : Z := 20.
Definition S31 : Z := 4.
Definition S32 : Z := 11.
Definition S33 : Z := 16.
Definition S34 : Z := 23.
Definition S41 : Z := 6.
Definition S42 : Z := 10.
Definition S43 : Z := 15.
Definition S44 : Z := 21.

(** The four variables of [Transform], [buf] being their values in this order. *)
Inductive reg := Ra | Rb | Rc | Rd.

Definition idx (r : reg) : nat := match r with Ra => 0 | Rb => 1 | Rc => 2 | Rd => 3 end.

(** A use of one of the macros. *)
Inductive macro :=
  | FF (a b c d : reg) (x : nat) (s ac : Z)
  | GG (a b c d : reg) (x : nat) (s ac : Z)
  | HH (a b c d : reg) (x : nat) (s ac : Z)
  | II (a b c d : reg) (x : nat) (s ac : Z).

Definition Transform_body : list macro :=
  [FF Ra Rb Rc Rd 0 S11 3614090360;
   FF Rd Ra Rb Rc 1 S12 3905402710;
   FF Rc Rd Ra Rb 2 S13 606105819;
   FF Rb Rc Rd Ra 3 S14 3250441966;
   FF Ra Rb Rc Rd 4 S11 4118548399;
   FF Rd Ra Rb Rc 5 S12 1200080426;
   FF Rc Rd Ra Rb 6 S13 2821735955;
   FF Rb Rc Rd Ra 7 S14 4249261313;
   FF Ra Rb Rc Rd 8 S11 1770035416;
   FF Rd Ra Rb Rc 9 S12 2336552879;
   FF Rc Rd Ra Rb 10 S13 4294925233;
   FF Rb Rc Rd Ra 11 S14 2304563134;
   FF Ra Rb Rc Rd 12 S11 1804603682;
   FF Rd Ra Rb Rc 13 S12 4254626195;
   FF Rc Rd Ra Rb 14 S13 2792965006;
   FF Rb Rc Rd Ra 15 S14 1236535329;
   GG Ra Rb Rc Rd 1 S21 4129170786;
   GG Rd Ra Rb Rc 6 S22 3225465664;
   GG Rc Rd Ra Rb 11 S23 643717713;
   GG Rb Rc Rd Ra 0 S24 3921069994;
   GG Ra Rb Rc Rd 5 S21 3593408605;
   GG Rd Ra Rb Rc 10 S22 38016083;
   GG Rc Rd Ra Rb 15 S23 3634488961;
   GG Rb Rc Rd Ra 4 S24 3889429448;
   GG Ra Rb Rc Rd 9 S21 568446438;
   GG Rd Ra Rb Rc 14 S22 3275163606;
   GG Rc Rd Ra Rb 3 S23 4107603335;
   GG Rb Rc Rd Ra 8 S24 1163531501;
   GG Ra Rb Rc Rd 13 S21 2850285829;
   GG Rd Ra Rb Rc 2 S22 4243563512;
   GG Rc Rd Ra Rb 7 S23 1735328473;
   GG Rb Rc Rd Ra 12 S24 2368359562;
   HH Ra Rb Rc Rd 5 S31 4294588738;
   HH Rd Ra Rb Rc 8 S32 2272392833;
   HH Rc Rd Ra Rb 11 S33 1839030562;
   HH Rb Rc Rd Ra 14 S34 4259657740;
   HH Ra Rb Rc Rd 1 S31 2763975236;
   HH Rd Ra Rb Rc 4 S32 1272893353;
   HH Rc Rd Ra Rb 7 S33 4139469664;
   HH Rb Rc Rd Ra 10 S34 3200236656;
   HH Ra Rb Rc Rd 13 S31 681279174;
   HH Rd Ra Rb Rc 0 S32 3936430074;
   HH Rc Rd Ra Rb 3 S33 3572445317;
   HH Rb Rc Rd Ra 6 S34 76029189;
   HH Ra Rb Rc Rd 9 S31 3654602809;
   HH Rd Ra Rb Rc 12 S32 3873151461;
   HH Rc Rd Ra Rb 15 S33 530742520;
   HH Rb Rc Rd Ra 2 S34 3299628645;
   II Ra Rb Rc Rd 0 S41 4096336452;
   II Rd Ra Rb Rc 7 S42 1126891415;
   II Rc Rd Ra Rb 14 S43 2878612391;
   II Rb Rc Rd Ra 5 S44 4237533241;
   II Ra Rb Rc Rd 12 S41 1700485571;
   II Rd Ra Rb Rc 3 S42 2399980690;
   II Rc Rd Ra Rb 10 S43 4293915773;
   II Rb Rc Rd Ra 1 S44 2240044497;
   II Ra Rb Rc Rd 8 S41 1873313359;
   II Rd Ra Rb Rc 15 S42 4264355552;
   II Rc Rd Ra Rb 6 S43 2734768916;
   II Rb Rc Rd Ra 13 S44 1309151649;
   II Ra Rb Rc Rd 4 S41 4149444226;
   II Rd Ra Rb Rc 11 S42 3174756917;
   II Rc Rd Ra Rb 2 S43 718787259;
   II Rb Rc Rd Ra 9 S44 3951481745].

Section Width.
Context (w : Z).

Definition wnot (x : Z) : Z := wrapu w (Z.lnot x).
Definition shl (x n : Z) : Z := wrapu w (Z.shiftl x n).

Definition F (x y z : Z) : Z := Z.lor (Z.land x y) (Z.land (wnot x) z).
Definition G (x y z : Z) : Z := Z.lor (Z.land x z) (Z.land y (wnot z)).
Definition H (x y z : Z) : Z := Z.lxor (Z.lxor x y) z.
Definition I (x y z : Z) : Z := Z.lxor y (Z.lor x (wnot z)).

Definition ROTATE_LEFT (x n : Z) : Z := Z.lor (shl x n) (Z.shiftr x (32 - n)).

(** The three assignments of a macro. *)
Definition mix (f : Z -> Z -> Z -> Z) (a b c d x s ac : Z) : Z :=
  let a := wrapu w (a + (f b c d + x + ac)) in
  let a := ROTATE_LEFT a s in
  wrapu w (a + b).

Definition rd (regs : list Z) (r : reg) : Z := nth (idx r) regs 0.

Definition exec (inw : list Z) (regs : list Z) (m : macro) : list Z :=
  let run f a b c d x s ac :=
    <[idx a := mix f (rd regs a) (rd regs b) (rd regs c) (rd regs d) (nth x inw 0) s ac]> regs in
  match m with
  | FF a b c d x s ac => run F a b c d x s ac
  | GG a b c d x s ac => run G a b c d x s ac
  | HH a b c d x s ac => run H a b c d x s ac
  | II a b c d x s ac => run I a b c d x s ac
  end.

Definition Transform (buf inw : list Z) : list Z :=
  zip_with (fun x y => wrapu w (x + y)) buf (foldl (exec inw) buf Transform_body).

(** ** Contexts *)

Record MD5_CTX := Ctx {
  i0 : Z;
  i1 : Z;
  cbuf : list Z;
  cin : list Z;
  digest : list Z
}.

Definition PADDING : list Z := 128 :: replicate 63 0.

(** The context as it was, with the counters and the scratch buffer set. *)
Definition MD5Init (c : MD5_CTX) : MD5_CTX :=
  Ctx 0 0 [0x67452301; 0xefcdab89; 0x98badcfe; 0x10325476] (cin c) (digest c).

(** [n] words from the input buffer, little endian. *)
Definition word_at (inb : list Z) (ii : nat) : Z :=
  Z.lor (Z.lor (Z.lor (shl (nth (ii + 3) inb 0) 24) (shl (nth (ii + 2) inb 0) 16))
           (shl (nth (ii + 1) inb 0) 8))
    (nth ii inb 0).

Definition words (n : nat) (inb : list Z) : list Z :=
  map (fun i => word_at inb (4 * i)) (seq 0 n).

Definition update_byte (st : nat * list Z * list Z) (c : Z) : nat * list Z * list Z :=
  let '(mdi, inb, buf) := st in
  let inb := <[mdi := c]> inb in
  if (S mdi =? 64)%nat then (0%nat, inb, Transform buf (words 16 inb)) else (S mdi, inb, buf).

Definition mdi_of (c : MD5_CTX) : nat := Z.to_nat (Z.land (Z.shiftr (i0 c) 3) 63).

Definition MD5Update (c : MD5_CTX) (inBuf : list Z) : MD5_CTX :=
  let inLen := u32 (strlen inBuf) in
  let bits := shl inLen 3 in
  let n1 := if wrapu w (i0 c + bits) <? i0 c then wrapu w (i1 c + 1) else i1 c in
  let n0 := wrapu w (i0 c + bits) in
  let n1 := wrapu w (n1 + Z.shiftr inLen 29) in
  let '(_, inb, buf) := foldl update_byte (mdi_of c, cin c, cbuf c) (take (Z.to_nat inLen) inBuf) in
  Ctx n0 n1 buf inb (digest c).

Definition digest_word (x : Z) : list Z :=
  [Z.land x 255; Z.land (Z.shiftr x 8) 255; Z.land (Z.shiftr x 16) 255; Z.land (Z.shiftr x 24) 255].

Definition MD5Final (c : MD5_CTX) : MD5_CTX :=
  let mdi := mdi_of c in
  let padLen := (if mdi <? 56 then 56 - mdi else 120 - mdi)%nat in
  let c1 := MD5Update c (take padLen PADDING) in
  let buf := Transform (cbuf c1) (words 14 (cin c1) ++ [i0 c; i1 c]) in
  Ctx (i0 c1) (i1 c1) buf (cin c1) (flat_map digest_word buf).

(** ** Digests as text *)

Definition hexdigit (n : Z) : Z := if n <? 10 then 48 + n else 87 + n.

(** [MDPrint]: the digest is added to the global text [MD5Values]. *)
Definition MDPrint (values : list Z) (c : MD5_CTX) : list Z :=
  foldl (fun v x => v ++ [hexdigit (x / 16); hexdigit (x mod 16)]) values (digest c).

(** A context on the stack holds anything. *)
Definition MDString (c : MD5_CTX) (values inString : list Z) : list Z :=
  MDPrint values (MD5Final (MD5Update (MD5Init c) inString)).

(** [fread] of 1024 bytes at a time. *)
Fixpoint chunks (fuel : nat) (data : list Z) : list (list Z) :=
  match fuel, data with
  | S fuel, _ :: _ => take 1024 data :: chunks fuel (drop 1024 data)
  | _, _ => []
  end.

Definition MDFile (c : MD5_CTX) (values : list Z) (file : option (list Z)) : Z * list Z :=
  match file with
  | None => (0, values)
  | Some data =>
      (1, MDPrint values (MD5Final (foldl MD5Update (MD5Init c) (chunks (length data) data))))
  end.

Definition MD5ChkFile (c : MD5_CTX) (values : list Z) (file : option (list Z)) (key : list Z)
  : Z * list Z :=
  let '(r, values) := MDFile c values file in
  if negb (r =? 1) then (0, values)
  else if strcmp_eq values key then (1, values) else (0, values).

Definition MD5Password (c : MD5_CTX) (values pass pass1 : list Z) : Z * list Z :=
  let values := MDString c values pass in
  if strcmp_eq values pass1 then (1, values) else (0, values).

End Width.

(** ** The algorithm of RFC 1321 *)

Definition K_table : list Z :=
  [3614090360; 3905402710; 606105819; 3250441966; 4118548399; 1200080426;
   2821735955; 4249261313; 1770035416; 2336552879; 4294925233; 2304563134;
   1804603682; 4254626195; 2792965006; 1236535329; 4129170786; 3225465664;
   643717713; 3921069994; 3593408605; 38016083; 3634488961; 3889429448;
   568446438; 3275163606; 4107603335; 1163531501; 2850285829; 4243563512;
   1735328473; 2368359562; 4294588738; 2272392833; 1839030562; 4259657740;
   2763975236; 1272893353; 4139469664; 3200236656; 681279174; 3936430074;
   3572445317; 76029189; 3654602809; 3873151461; 530742520; 3299628645;
   4096336452; 1126891415; 2878612391; 4237533241; 1700485571; 2399980690;
   4293915773; 2240044497; 1873313359; 4264355552; 2734768916; 1309151649;
   4149444226; 3174756917; 718787259; 3951481745].

Definition S_table : list Z := [7; 12; 17; 22; 5; 9; 14; 20; 4; 11; 16; 23; 6; 10; 15; 21].

Definition not32 (x : Z) : Z := 2 ^ 32 - 1 - x.

Definition rfc_f (round : nat) (b c d : Z) : Z :=
  match round with
  | 0%nat => Z.lor (Z.land b c) (Z.land (not32 b) d)
  | 1%nat => Z.lor (Z.land b d) (Z.land c (not32 d))
  | 2%nat => Z.lxor (Z.lxor b c) d
  | _ => Z.lxor c (Z.lor b (not32 d))
  end.

Definition rfc_k (i : nat) : nat :=
  match (i / 16)%nat with
  | 0%nat => i
  | 1%nat => (5 * i + 1) mod 16
  | 2%nat => (3 * i + 5) mod 16
  | _ => (7 * i) mod 16
  end.

Definition rotl (x n : Z) : Z := (x * 2 ^ n) mod 2 ^ 32 + x / 2 ^ (32 - n).

Definition rfc_step (X : list Z) (st : Z * Z * Z * Z) (i : nat) : Z * Z * Z * Z :=
  let '(a, b, c, d) := st in
  let sum := (a + rfc_f (i / 16) b c d + nth (rfc_k i) X 0 + nth i K_table 0) mod 2 ^ 32 in
  (d, (b + rotl sum (nth (4 * (i / 16) + i mod 4) S_table 0)) mod 2 ^ 32, b, c).

Definition rfc_block (st : Z * Z * Z * Z) (X : list Z) : Z * Z * Z * Z :=
  let '(a, b, c, d) := st in
  let '(a', b', c', d') := foldl (rfc_step X) st (seq 0 64) in
  ((a + a') mod 2 ^ 32, (b + b') mod 2 ^ 32, (c + c') mod 2 ^ 32, (d + d') mod 2 ^ 32).

Definition le_word (b : list Z) : Z :=
  match b with
  | [x; y; z; t] => x + 2 ^ 8 * y + 2 ^ 16 * z + 2 ^ 24 * t
  | _ => 0
  end.

Fixpoint le_bytes (n : nat) (x : Z) : list Z :=
  match n with O => [] | S n => x mod 256 :: le_bytes n (x / 256) end.

Fixpoint groups (fuel n : nat) (s : list Z) : list (list Z) :=
  match fuel with O => [] | S fuel => take n s :: groups fuel n (drop n s) end.

Definition rfc_pad (s : list Z) : list Z :=
  s ++ [128] ++ replicate (Z.to_nat ((55 - strlen s) mod 64)) 0
    ++ le_bytes 8 (8 * strlen s mod 2 ^ 64).

Definition rfc_md5 (s : list Z) : list Z :=
  let p := rfc_pad s in
  let '(a, b, c, d) :=
    foldl (fun st blk => rfc_block st (map le_word (groups 16 4 blk)))
      (0x67452301, 0xefcdab89, 0x98badcfe, 0x10325476) (groups (length p / 64) 64 p) in
  le_bytes 4 a ++ le_bytes 4 b ++ le_bytes 4 c ++ le_bytes 4 d.

Definition hex_text (d : list Z) : list Z :=
  flat_map (fun x => [hexdigit (x / 16); hexdigit (x mod 16)]) d.

Definition any_ctx : MD5_CTX := Ctx 5 6 [1; 2; 3; 4] (replicate 64 9) [].

Example md5_abc :
  MDString 32 any_ctx [] (bytes "abc") = bytes "900150983cd24fb0d6963f7d28e17f72"
  /\ hex_text (rfc_md5 (bytes "abc")) = bytes "900150983cd24fb0d6963f7d28e17f72".
Proof. vm_compute. done. Qed.

(** ** The transformation is the one of the RFC *)

Definition in32 (x : Z) : Prop := 0 <= x < 2 ^ 32.

Lemma wnot_not32 (x : Z) : in32 x -> wnot 32 x = not32 x.
Proof. unfold in32, wnot, not32, wrapu, Z.lnot. intros Hx. dlia. Qed.

Lemma rotl_rotate (x s : Z) : in32 x -> 0 < s < 32 -> ROTATE_LEFT 32 x s = rotl x s.
Proof.
  unfold in32. intros Hx Hs. unfold ROTATE_LEFT, rotl, shl, wrapu.
  rewrite Z.shiftl_mul_pow2, Z.shiftr_div_pow2 by lia.
  assert (E : x * 2 ^ s mod 2 ^ 32 = (x mod 2 ^ (32 - s)) * 2 ^ s).
  { replace (2 ^ 32) with (2 ^ (32 - s) * 2 ^ s) by (rewrite <- Z.pow_add_r by lia; f_equal; lia).
    apply Z.mul_mod_distr_r; apply Z.pow_nonzero; lia. }
  rewrite E. apply lor_add; [lia|].
  split; [apply Z.div_pos; [lia|apply Z.pow_pos_nonneg; lia]|].
  apply Z.div_lt_upper_bound; [apply Z.pow_pos_nonneg; lia|].
  rewrite <- Z.pow_add_r by lia. replace (32 - s + s) with 32 by lia. lia.
Qed.

Lemma mix_rfc (f g : Z -> Z -> Z -> Z) (a b c d x s ac : Z) :
  0 < s < 32 -> f b c d = g b c d ->
  mix 32 f a b c d x s ac
  = (b + rotl ((a + g b c d + x + ac) mod 2 ^ 32) s) mod 2 ^ 32.
Proof.
  intros Hs Hf. unfold mix. rewrite rotl_rotate; [|apply wrapu_range; lia|done].
  rewrite Hf. unfold wrapu. rewrite (Z.add_comm _ b), !Z.add_assoc. done.
Qed.

Lemma F_rfc (b c d : Z) : in32 b -> F 32 b c d = rfc_f 0 b c d.
Proof. intros Hb. unfold F. by rewrite wnot_not32. Qed.
Lemma G_rfc (b c d : Z) : in32 d -> G 32 b c d = rfc_f 1 b c d.
Proof. intros Hb. unfold G. by rewrite wnot_not32. Qed.
Lemma H_rfc (b c d : Z) : H b c d = rfc_f 2 b c d.
Proof. done. Qed.
Lemma I_rfc (b c d : Z) : in32 d -> I 32 b c d = rfc_f 3 b c d.
Proof. intros Hb. unfold I. by rewrite wnot_not32. Qed.

(** The variables in the order the [i]th step of the RFC has them. *)
Definition view (i : nat) (regs : list Z) : Z * Z * Z * Z :=
  let r := rd regs in
  match (i mod 4)%nat with
  | 0%nat => (r Ra, r Rb, r Rc, r Rd)
  | 1%nat => (r Rd, r Ra, r Rb, r Rc)
  | 2%nat => (r Rc, r Rd, r Ra, r Rb)
  | _ => (r Rb, r Rc, r Rd, r Ra)
  end.

Definition regs_ok (regs : list Z) : Prop := length regs = 4%nat /\ Forall in32 regs.

Lemma mix_range (f : Z -> Z -> Z -> Z) (a b c d x s ac : Z) : in32 (mix 32 f a b c d x s ac).
Proof. apply wrapu_range. lia. Qed.

Lemma exec_ok (X regs : list Z) (m : macro) : regs_ok regs -> regs_ok (exec 32 X regs m).
Proof.
  intros [Hl Hr]. destruct m; unfold exec; split; rewrite ?length_insert; try done;
    (apply Forall_insert; [done|apply mix_range]).
Qed.

Ltac eval_step :=
  repeat match goal with
  | |- context [rfc_k ?i] => let v := eval vm_compute in (rfc_k i) in change (rfc_k i) with v
  | |- context [nth ?i K_table 0] =>
      let v := eval vm_compute in (nth i K_table 0) in change (nth i K_table 0) with v
  | |- context [nth ?i S_table 0] =>
      let v := eval vm_compute in (nth i S_table 0) in change (nth i S_table 0) with v
  | |- context [rfc_f ?n] =>
      lazymatch n with (_ / _)%nat => let v := eval vm_compute in n in change (rfc_f n) with (rfc_f v) end
  end.

Lemma exec_step (X regs : list Z) (i : nat) :
  regs_ok regs -> (i < 64)%nat ->
  view (S i) (exec 32 X regs (nth i Transform_body (FF Ra Ra Ra Ra 0 0 0)))
  = rfc_step X (view i regs) i.
Proof.
  intros [Hl Hr] Hi. destruct regs as [|a [|b [|c [|d [|]]]]]; try done.
  repeat (apply Forall_cons in Hr as [? Hr]).
  assert (Hall : forall i, In i (seq 0 64) ->
    view (S i) (exec 32 X [a; b; c; d] (nth i Transform_body (FF Ra Ra Ra Ra 0 0 0)))
    = rfc_step X (view i [a; b; c; d]) i); [|apply Hall, in_seq; lia].
  clear Hi i. apply List.Forall_forall. cbn [seq].
  repeat (apply List.Forall_cons; [|]); [..|apply List.Forall_nil];
    cbn -[mix rfc_f rfc_k K_table S_table rotl Nat.div]; unfold rfc_step; eval_step;
    unfold S11, S12, S13, S14, S21, S22, S23, S24, S31, S32, S33, S34, S41, S42, S43, S44;
    f_equal; f_equal; f_equal;
    (apply mix_rfc; [lia|]); first [by apply F_rfc|by apply G_rfc|by apply H_rfc|by apply I_rfc].
Qed.

Lemma exec_loop (X : list Z) (n i : nat) (regs : list Z) :
  regs_ok regs -> (i + n <= 64)%nat ->
  let regs' := foldl (exec 32 X) regs
                 (map (fun i => nth i Transform_body (FF Ra Ra Ra Ra 0 0 0)) (seq i n)) in
  regs_ok regs' /\ view (i + n) regs' = foldl (rfc_step X) (view i regs) (seq i n).
Proof.
  revert i regs; induction n as [|n IH]; intros i regs Hok Hn; simpl.
  { by rewrite Nat.add_0_r. }
  rewrite <- exec_step by (done || lia). rewrite <- Nat.add_succ_comm.
  apply IH; [by apply exec_ok|lia].
Qed.

Definition buf_of (st : Z * Z * Z * Z) : list Z := let '(a, b, c, d) := st in [a; b; c; d].

Lemma Transform_rfc (st : Z * Z * Z * Z) (X : list Z) :
  Forall in32 (buf_of st) ->
  Transform 32 (buf_of st) X = buf_of (rfc_block st X) /\ Forall in32 (buf_of (rfc_block st X)).
Proof.
  destruct st as [[[a b] c] d]; intros Hok. unfold Transform, rfc_block.
  change Transform_body
    with (map (fun i => nth i Transform_body (FF Ra Ra Ra Ra 0 0 0)) (seq 0 64)) at 1.
  destruct (exec_loop X 64 0 (buf_of (a, b, c, d)) (conj eq_refl Hok) ltac:(lia)) as [[Hl Hr] Hv].
  simpl plus in Hv. change (view 0 _) with (a, b, c, d) in Hv. rewrite <- Hv.
  set (R := foldl (exec 32 X) _ _) in *. clearbody R.
  destruct R as [|a' [|b' [|c' [|d' [|]]]]]; try discriminate Hl.
  cbn -[Z.pow wrapu]. split; [done|].
  repeat apply Forall_cons_2; [..|apply Forall_nil_2]; apply Z.mod_pos_bound; lia.
Qed.

(** ** Bytes and words *)

Lemma word_at_le (x y z t : Z) :
  is_byte x -> is_byte y -> is_byte z -> is_byte t ->
  forall inb ii, take 4 (drop ii inb) = [x; y; z; t] -> word_at 32 inb ii = le_word [x; y; z; t].
Proof.
  unfold is_byte. intros Hx Hy Hz Ht inb ii Htk.
  assert (E : forall k, (k < 4)%nat -> nth (ii + k) inb 0 = nth k [x; y; z; t] 0).
  { intros k Hk. rewrite <- Htk. rewrite List.nth_firstn, List.nth_skipn.
    by destruct (Nat.ltb_spec k 4); [|lia]. }
  pose proof (E 0%nat ltac:(lia)) as E0. rewrite Nat.add_0_r in E0.
  unfold word_at, shl. rewrite E0, !E by lia. cbn [nth]. unfold le_word, wrapu.
  rewrite !Z.shiftl_mul_pow2, !Z.mod_small by lia.
  rewrite (lor_add t (z * 2 ^ 16) 24) by lia.
  replace (t * 2 ^ 24 + z * 2 ^ 16) with ((t * 2 ^ 8 + z) * 2 ^ 16) by lia.
  rewrite (lor_add _ (y * 2 ^ 8) 16) by lia.
  replace ((t * 2 ^ 8 + z) * 2 ^ 16 + y * 2 ^ 8) with ((t * 2 ^ 16 + z * 2 ^ 8 + y) * 2 ^ 8) by lia.
  rewrite (lor_add _ x 8) by lia. lia.
Qed.

Lemma words_le (n : nat) (inb : list Z) :
  Forall is_byte inb -> (4 * n <= length inb)%nat ->
  words 32 n inb = map le_word (groups n 4 inb).
Proof.
  intros Hb Hn. unfold words.
  enough (E : forall k, (4 * (k + n) <= length inb)%nat ->
    map (fun i => word_at 32 inb (4 * i)) (seq k n) = map le_word (groups n 4 (drop (4 * k) inb)))
    by (rewrite (E 0%nat) by lia; done).
  clear Hn. induction n as [|n IH]; intros k Hk; [done|]. cbn [seq map groups].
  rewrite drop_drop, IH by lia. replace (4 * k + 4)%nat with (4 * S k)%nat by lia. f_equal.
  assert (Hl : length (take 4 (drop (4 * k) inb)) = 4%nat) by (rewrite length_take, length_drop; lia).
  assert (Hf : Forall is_byte (take 4 (drop (4 * k) inb))) by (by apply Forall_take, Forall_drop).
  destruct (take 4 (drop (4 * k) inb)) as [|x [|y [|z [|t [|]]]]] eqn:E; try discriminate Hl.
  repeat (apply Forall_cons in Hf as [? Hf]). by apply word_at_le.
Qed.

Lemma digest_word_le (x : Z) : digest_word x = le_bytes 4 x.
Proof.
  unfold digest_word, le_bytes. rewrite !Z.shiftr_div_pow2 by lia.
  change 255 with (2 ^ 8 - 1). rewrite !land_ones by lia.
  rewrite !Z.div_div by lia. done.
Qed.

Lemma le_word_bytes (x : Z) : le_word (le_bytes 4 x) = x mod 2 ^ 32.
Proof. unfold le_word, le_bytes. dlia. Qed.

Lemma le_bytes_app (n m : nat) (x : Z) :
  le_bytes (n + m) x = le_bytes n x ++ le_bytes m (x / 256 ^ Z.of_nat n).
Proof.
  revert x; induction n as [|n IH]; intros x; cbn [le_bytes plus].
  - by rewrite Z.div_1_r.
  - rewrite IH. simpl. do 3 f_equal. rewrite Nat2Z.inj_succ, Z.pow_succ_r by lia.
    rewrite Z.div_div by (try apply Z.pow_pos_nonneg; lia). done.
Qed.

(** ** The input buffer *)

Lemma fold_partial (d : list Z) : forall m inb buf,
  length inb = 64%nat -> (m + length d < 64)%nat ->
  foldl (update_byte 32) (m, inb, buf) d
  = ((m + length d)%nat, take m inb ++ d ++ drop (m + length d) inb, buf).
Proof.
  induction d as [|c d IH]; intros m inb buf Hl Hm; simpl in *.
  { by rewrite Nat.add_0_r, take_drop. }
  destruct (Nat.eqb_spec m 63); [lia|].
  rewrite IH by (rewrite ?length_insert; lia).
  replace (S m + length d)%nat with (m + S (length d))%nat by lia. do 2 f_equal.
  rewrite insert_take_drop by lia.
  assert (Ht : length (take m inb) = m) by (rewrite length_take; lia).
  rewrite take_app, Ht. replace (S m - m)%nat with 1%nat by lia.
  rewrite take_ge by lia. simpl. rewrite take_0.
  rewrite drop_app, Ht, drop_ge by lia.
  replace (m + S (length d) - m)%nat with (S (length d)) by lia. simpl.
  rewrite drop_drop, <- app_assoc. simpl. do 4 f_equal. lia.
Qed.

Lemma fold_block (blk inb buf : list Z) :
  length inb = 64%nat -> length blk = 64%nat ->
  foldl (update_byte 32) (0%nat, inb, buf) blk = (0%nat, blk, Transform 32 buf (words 32 16 blk)).
Proof.
  intros Hl Hb.
  destruct blk as [|c blk _] using rev_ind; [done|]. rewrite length_app in Hb; simpl in Hb.
  rewrite foldl_app, fold_partial by lia. simpl.
  destruct (Nat.eqb_spec (length blk) 63); [|lia].
  assert (E : <[length blk := c]> (blk ++ drop (length blk) inb) = blk ++ [c]).
  { rewrite insert_app_r_alt by lia. rewrite Nat.sub_diag.
    assert (Hd : length (drop (length blk) inb) = 1%nat) by (rewrite length_drop; lia).
    destruct (drop (length blk) inb) as [|? [|]]; try discriminate Hd. done. }
  by rewrite E.
Qed.

(** Whole blocks, then a rest. *)
Lemma fold_blocks (k : nat) : forall data inb buf,
  length inb = 64%nat -> (length data - 64 * k < 64)%nat -> (64 * k <= length data)%nat ->
  exists inb', length inb' = 64%nat /\
  foldl (update_byte 32) (0%nat, inb, buf) data
  = ((length data - 64 * k)%nat, drop (64 * k) data ++ drop (length data - 64 * k) inb',
     foldl (fun b blk => Transform 32 b (words 32 16 blk)) buf (groups k 64 data)).
Proof.
  induction k as [|k IH]; intros data inb buf Hl Hr Hk.
  - exists inb. split; [done|]. rewrite fold_partial by lia.
    rewrite Nat.mul_0_r, Nat.sub_0_r, drop_0. done.
  - assert (Ht : length (take 64 data) = 64%nat) by (rewrite length_take; lia).
    destruct (IH (drop 64 data) (take 64 data) (Transform 32 buf (words 32 16 (take 64 data))))
      as (inb' & Hl' & E); [done|rewrite length_drop; lia|rewrite length_drop; lia|].
    exists inb'. split; [done|]. rewrite <- (take_drop 64 data) at 1.
    rewrite foldl_app, fold_block, E by done. rewrite length_drop, drop_drop.
    replace (64 + 64 * k)%nat with (64 * S k)%nat by lia.
    replace (length data - 64 - 64 * k)%nat with (length data - 64 * S k)%nat by lia. done.
Qed.

(** ** What a context has absorbed *)

Definition start : list Z := [0x67452301; 0xefcdab89; 0x98badcfe; 0x10325476].

(** The context after [MD5Init] and the bytes of [s]: the number of bits modulo
    2^64 in two words, the rest of the last block and the scratch buffer. *)
Record absorbed (c : MD5_CTX) (s : list Z) : Prop := {
  ab_range : in32 (i0 c) /\ in32 (i1 c);
  ab_count : i0 c + 2 ^ 32 * i1 c = 8 * strlen s mod 2 ^ 64;
  ab_fold : exists inb, length inb = 64%nat /\
    foldl (update_byte 32) (0%nat, inb, start) s
    = (Z.to_nat (strlen s mod 64), cin c, cbuf c)
}.

Lemma absorbed_init (c : MD5_CTX) : length (cin c) = 64%nat -> absorbed (MD5Init c) [].
Proof. intros Hl. split; [done|done|]. by exists (cin c). Qed.

Lemma absorbed_mdi (c : MD5_CTX) (s : list Z) :
  absorbed c s -> mdi_of c = Z.to_nat (strlen s mod 64).
Proof.
  intros [[H0 H1] Hc _]. unfold mdi_of, in32 in *. change 63 with (2 ^ 6 - 1).
  rewrite land_ones, Z.shiftr_div_pow2 by lia. f_equal. revert H0 H1 Hc.
  generalize (i0 c) (i1 c) (strlen s). intros x y n H0 H1 Hc.
  change (2 ^ 64) with 18446744073709551616 in Hc. change (2 ^ 32) with 4294967296 in *.
  change (2 ^ 3) with 8. change (2 ^ 6) with 64. dlia.
Qed.

Lemma update_count (x y n len : Z) :
  in32 x -> in32 y -> 0 <= len < 2 ^ 32 -> x + 2 ^ 32 * y = 8 * n mod 2 ^ 64 ->
  let bits := shl 32 len 3 in
  let y1 := if u32 (x + bits) <? x then u32 (y + 1) else y in
  u32 (x + bits) + 2 ^ 32 * u32 (y1 + Z.shiftr len 29) = 8 * (n + len) mod 2 ^ 64.
Proof.
  unfold in32, shl, wrapu. rewrite Z.shiftl_mul_pow2, Z.shiftr_div_pow2 by lia.
  intros H0 H1 Hl Hc. cbv zeta.
  change (2 ^ 64) with 18446744073709551616 in *. change (2 ^ 32) with 4294967296 in *.
  change (2 ^ 3) with 8. change (2 ^ 29) with 536870912.
  destruct (Z.ltb_spec ((x + len * 8 mod 4294967296) mod 4294967296) x); dlia.
Qed.

Lemma fold_mdi (t : list Z) : forall m inb buf, (m < 64)%nat ->
  (foldl (update_byte 32) (m, inb, buf) t).1.1
  = Z.to_nat ((Z.of_nat m + Z.of_nat (length t)) mod 64).
Proof.
  induction t as [|c t IH]; intros m inb buf Hm; cbn [foldl length].
  - rewrite Z.mod_small by lia. simpl. lia.
  - unfold update_byte at 2. destruct (Nat.eqb_spec (S m) 64); rewrite IH by lia; f_equal; dlia.
Qed.

Lemma absorbed_update (c : MD5_CTX) (s t : list Z) :
  absorbed c s -> strlen t < 2 ^ 32 -> absorbed (MD5Update 32 c t) (s ++ t).
Proof.
  intros Ha Ht. pose proof (absorbed_mdi c s Ha) as Hm.
  destruct Ha as [[H0 H1] Hc (inb & Hl & Hf)].
  unfold MD5Update. rewrite Hm. unfold strlen in *.
  assert (E : u32 (Z.of_nat (length t)) = Z.of_nat (length t)) by (apply wrapu_small; lia).
  unfold strlen. rewrite E, take_ge by lia.
  destruct (foldl (update_byte 32) (_, cin c, cbuf c) t) as [[m inb'] buf'] eqn:Et.
  split; cbn [i0 i1 cin cbuf].
  - split; apply wrapu_range; lia.
  - rewrite (update_count (i0 c) (i1 c) (Z.of_nat (length s))) by (done || lia).
    unfold strlen. rewrite length_app. do 2 f_equal. lia.
  - exists inb. split; [done|]. rewrite foldl_app, Hf, Et. do 2 f_equal.
    pose proof (fold_mdi t (Z.to_nat (Z.of_nat (length s) mod 64)) (cin c) (cbuf c)) as Hmdi.
    rewrite Et in Hmdi. cbn [fst] in Hmdi. rewrite Hmdi by dlia.
    unfold strlen. rewrite length_app. f_equal. dlia.
Qed.

Lemma cin_length (s inb : list Z) (k : nat) : length inb = 64%nat ->
  length (foldl (update_byte 32) (0%nat, inb, start) s).1.2 = 64%nat.
Proof.
  intros Hl. induction s as [|c s IH] using rev_ind; [done|].
  rewrite foldl_app. simpl. destruct (foldl _ _ s) as [[m inb'] buf'].
  simpl in *. destruct (m =? 63)%nat; simpl; by rewrite length_insert.
Qed.

Lemma transform_blocks (blks : list (list Z)) : forall st,
  Forall in32 (buf_of st) ->
  Forall (fun b => length b = 64%nat /\ Forall is_byte b) blks ->
  let st' := foldl (fun st blk => rfc_block st (map le_word (groups 16 4 blk))) st blks in
  foldl (fun b blk => Transform 32 b (words 32 16 blk)) (buf_of st) blks = buf_of st'
  /\ Forall in32 (buf_of st').
Proof.
  induction blks as [|blk blks IH]; intros st Hst Hb; [done|]. simpl.
  apply Forall_cons in Hb as [[Hl Hbb] Hb]. rewrite words_le by (done || lia).
  destruct (Transform_rfc st (map le_word (groups 16 4 blk)) Hst) as [-> Hst'].
  by apply IH.
Qed.

Lemma groups_app (k : nat) : forall n (s t : list Z), length s = (n * k)%nat ->
  groups (k + 1) n (s ++ t) = groups k n s ++ [take n t].
Proof.
  induction k as [|k IH]; intros n s t Hl; simpl.
  - destruct s; [done|]. simpl in Hl. lia.
  - rewrite take_app_le, drop_app_le by lia. rewrite IH; [done|]. rewrite length_drop. lia.
Qed.

Lemma groups_blocks (k : nat) : forall s, Forall is_byte s -> length s = (64 * k)%nat ->
  Forall (fun b => length b = 64%nat /\ Forall is_byte b) (groups k 64 s).
Proof.
  induction k as [|k IH]; intros s Hb Hl; [constructor|].
  constructor; [split; [rewrite length_take; lia|by apply Forall_take]|].
  apply IH; [by apply Forall_drop|]. rewrite length_drop. lia.
Qed.

Lemma groups_prefix (k : nat) : forall n (s t : list Z), length s = (n * k)%nat ->
  groups k n (s ++ t) = groups k n s.
Proof.
  induction k as [|k IH]; intros n s t Hl; simpl; [done|].
  rewrite take_app_le, drop_app_le by lia. rewrite IH; [done|]. rewrite length_drop. lia.
Qed.

Lemma words_prefix (n : nat) (s t : list Z) :
  (4 * n <= length s)%nat -> words 32 n (s ++ t) = words 32 n s.
Proof.
  intros Hl. apply List.map_ext_in. intros i [_ Hi]%in_seq. unfold word_at.
  by rewrite !app_nth1 by lia.
Qed.

(** The last block: the padded rest and the number of bits. *)
Lemma last_words (rest : list Z) (N x y : Z) :
  Forall is_byte rest -> length rest = 56%nat -> in32 x -> in32 y ->
  x + 2 ^ 32 * y = N ->
  words 32 14 rest ++ [x; y] = map le_word (groups 16 4 (rest ++ le_bytes 8 N)).
Proof.
  unfold in32. intros Hb Hl Hx Hy HN. rewrite words_le by (done || lia).
  rewrite (le_bytes_app 4 4), app_assoc.
  rewrite (groups_app 15 4) by (rewrite length_app, Hl; done).
  rewrite (groups_app 14 4) by lia. rewrite !map_app, <- app_assoc.
  f_equal. cbn [map app]. rewrite !take_ge by done. rewrite !le_word_bytes.
  change (256 ^ Z.of_nat 4) with (2 ^ 32). change (2 ^ 32) with 4294967296 in *.
  f_equal; [|f_equal]; dlia.
Qed.

Lemma take_PADDING (n : nat) : (0 < n <= 64)%nat -> take n PADDING = 128 :: replicate (n - 1) 0.
Proof.
  intros Hn. destruct n as [|n]; [lia|]. unfold PADDING. cbn [firstn].
  rewrite take_replicate. f_equal. f_equal. lia.
Qed.

Definition padding (n : Z) : list Z := 128 :: replicate (Z.to_nat ((55 - n) mod 64)) 0.

Lemma pad_len (n : Z) : 0 <= n ->
  let mdi := Z.to_nat (n mod 64) in
  take (if (mdi <? 56)%nat then 56 - mdi else 120 - mdi)%nat PADDING = padding n
  /\ exists k, (Z.to_nat n + length (padding n) = 64 * k + 56)%nat.
Proof.
  intros Hn. cbv zeta. split.
  - destruct (Nat.ltb_spec (Z.to_nat (n mod 64)) 56); rewrite take_PADDING by dlia;
      unfold padding; do 2 f_equal; dlia.
  - exists (Z.to_nat ((n + 1 + (55 - n) mod 64) / 64)). unfold padding.
    cbn [length]. rewrite length_replicate. dlia.
Qed.

(** The context once the padding is absorbed: the blocks of the text are
    transformed, its rest is in the input buffer. *)
Lemma padded_context (c : MD5_CTX) (s : list Z) :
  absorbed c s -> Forall is_byte s ->
  let c1 := MD5Update 32 c (padding (strlen s)) in
  exists k blks rest, s ++ padding (strlen s) = blks ++ rest
    /\ length blks = (64 * k)%nat /\ length rest = 56%nat
    /\ Forall is_byte blks /\ Forall is_byte rest
    /\ (exists junk, cin c1 = rest ++ junk)
    /\ cbuf c1 = foldl (fun b blk => Transform 32 b (words 32 16 blk)) start (groups k 64 blks).
Proof.
  intros Ha Hs c1. destruct (pad_len (strlen s) ltac:(unfold strlen; lia)) as [_ (k & Hk)].
  assert (Hlp : strlen (padding (strlen s)) < 2 ^ 32).
  { unfold padding, strlen. cbn [length]. rewrite length_replicate. dlia. }
  destruct (absorbed_update c s _ Ha Hlp) as [_ _ (inb & Hl & Hf)].
  set (m1 := s ++ padding (strlen s)) in *. fold c1 in Hf.
  assert (Hlen : length m1 = (64 * k + 56)%nat).
  { subst m1. rewrite length_app. unfold strlen in *. lia. }
  assert (Hb1 : Forall is_byte m1).
  { apply Forall_app. split; [done|]. unfold padding. constructor; [done|].
    by apply Forall_replicate. }
  destruct (fold_blocks k m1 inb start Hl ltac:(lia) ltac:(lia)) as (inb' & _ & E).
  rewrite E in Hf. apply pair_equal_spec in Hf as [Hf Hcbuf].
  apply pair_equal_spec in Hf as [_ Hcin].
  assert (Htk : length (take (64 * k) m1) = (64 * k)%nat) by (rewrite length_take; lia).
  exists k, (take (64 * k) m1), (drop (64 * k) m1).
  split_and!; [by rewrite take_drop|done|rewrite length_drop; lia|by apply Forall_take
              |by apply Forall_drop|by eexists|].
  rewrite <- Hcbuf. rewrite <- (take_drop (64 * k) m1) at 1. by rewrite groups_prefix.
Qed.

Lemma absorbed_final (c : MD5_CTX) (s : list Z) :
  absorbed c s -> Forall is_byte s -> digest (MD5Final 32 c) = rfc_md5 s.
Proof.
  intros Ha Hs. destruct (padded_context c s Ha Hs)
    as (k & blks & rest & Hm1 & Hlb & Hlr & Hbb & Hbr & (junk & Hcin) & Hcbuf).
  destruct (pad_len (strlen s) ltac:(unfold strlen; lia)) as [Hpad _].
  unfold MD5Final. rewrite (absorbed_mdi c s Ha), Hpad. cbn [digest].
  rewrite Hcin, Hcbuf, words_prefix by lia. destruct Ha as [[H0 H1] Hc _].
  rewrite (last_words rest _ _ _ Hbr Hlr H0 H1 Hc).
  set (le := le_bytes 8 (8 * strlen s mod 2 ^ 64)).
  assert (Hle : length le = 8%nat) by done.
  assert (Ep : rfc_pad s = blks ++ (rest ++ le)).
  { rewrite app_assoc, <- Hm1. unfold rfc_pad, padding. by rewrite <- app_assoc. }
  set (st0 := (0x67452301, 0xefcdab89, 0x98badcfe, 0x10325476)).
  destruct (transform_blocks (groups k 64 blks) st0) as [Hfold Hok].
  { by repeat constructor. }
  { by apply groups_blocks. }
  change start with (buf_of st0). rewrite Hfold.
  destruct (Transform_rfc _ (map le_word (groups 16 4 (rest ++ le))) Hok) as [-> _].
  unfold rfc_md5. rewrite Ep, !length_app, Hlb, Hlr, Hle. fold st0.
  replace ((64 * k + (56 + 8)) / 64)%nat with (k + 1)%nat
    by (replace (64 * k + (56 + 8))%nat with ((k + 1) * 64)%nat by lia; by rewrite Nat.div_mul).
  rewrite groups_app, foldl_app by done. cbn [foldl].
  rewrite (take_ge (rest ++ le)) by (rewrite length_app, Hlr, Hle; lia).
  destruct (rfc_block _ _) as [[[a b] cc] d]. unfold buf_of.
  cbn [flat_map]. by rewrite !digest_word_le, app_nil_r.
Qed.

(** ** Digests of strings and files *)

Lemma MDPrint_hex (values : list Z) (c : MD5_CTX) : MDPrint values c = values ++ hex_text (digest c).
Proof.
  unfold MDPrint. revert values; induction (digest c) as [|x d IH]; intros values; simpl.
  - by rewrite app_nil_r.
  - rewrite IH. by rewrite <- app_assoc.
Qed.

Lemma string_digest (c : MD5_CTX) (values s : list Z) :
  length (cin c) = 64%nat -> Forall is_byte s -> strlen s < 2 ^ 32 ->
  MDString 32 c values s = values ++ hex_text (rfc_md5 s).
Proof.
  intros Hc Hs Hl. unfold MDString. rewrite MDPrint_hex. do 2 f_equal.
  apply absorbed_final; [|done].
  apply (absorbed_update _ []); [by apply absorbed_init|done].
Qed.

Lemma absorbed_chunks (fuel : nat) : forall data c s,
  (length data <= fuel)%nat -> absorbed c s ->
  absorbed (foldl (MD5Update 32) c (chunks fuel data)) (s ++ data).
Proof.
  induction fuel as [|fuel IH]; intros data c s Hf Ha; destruct data as [|x data];
    cbn [length] in Hf; try (by rewrite app_nil_r); [lia|].
  cbn [chunks foldl]. rewrite <- (take_drop 1024 (x :: data)) at 3. rewrite app_assoc.
  apply IH; [rewrite length_drop; cbn [length]; lia|].
  apply absorbed_update; [done|]. unfold strlen. rewrite length_take. lia.
Qed.

Lemma file_digest (c : MD5_CTX) (values data : list Z) :
  length (cin c) = 64%nat -> Forall is_byte data ->
  MDFile 32 c values (Some data) = (1, values ++ hex_text (rfc_md5 data)).
Proof.
  intros Hc Hs. unfold MDFile. rewrite MDPrint_hex. do 3 f_equal.
  apply absorbed_final; [|done].
  by apply (absorbed_chunks _ data _ []); [|apply absorbed_init].
Qed.

(** C17: with 32-bit words the digest of a string, and the digest of a file read
    in pieces of 1024 bytes, are the MD5 message digest of RFC 1321 in
    hexadecimal, for every content, whatever the context on the stack held;
    the text is added to what [MD5Values] held. *)
Theorem md5_rfc (c : MD5_CTX) (values s : list Z) :
  length (cin c) = 64%nat -> Forall is_byte s ->
  (strlen s < 2 ^ 32 -> MDString 32 c values s = values ++ hex_text (rfc_md5 s))
  /\ MDFile 32 c values (Some s) = (1, values ++ hex_text (rfc_md5 s)).
Proof. intros Hc Hs. split; [by apply string_digest|by apply file_digest]. Qed.

Lemma md5_rfc_witness :
  MDString 32 any_ctx [] (bytes "message digest") = [] ++ hex_text (rfc_md5 (bytes "message digest"))
  /\ hex_text (rfc_md5 (bytes "message digest")) = bytes "f96b697d7cb7938d525a2f31aaf161d0".
Proof.
  split; [|by vm_compute]. apply md5_rfc; [done| |done].
  unfold is_byte. repeat (apply Forall_cons_2; [by vm_compute|]). apply Forall_nil_2.
Defined.

(** A check of a file against a key of 32 characters succeeds for a first
    check exactly when the key is the digest of the contents; once
    [MD5Values] holds the text of an earlier digest, it fails for every file
    and every key, since the new digest is added to the old one. *)
Lemma MD5ChkFile_correct (c : MD5_CTX) (values data key : list Z) :
  length (cin c) = 64%nat -> Forall is_byte data -> strlen key = 32 ->
  (MD5ChkFile 32 c values (Some data) key).1
  = Z.b2z (bool_decide (values = [] /\ key = hex_text (rfc_md5 data)))
  /\ (MD5ChkFile 32 c values None key).1 = 0.
Proof.
  intros Hc Hd Hk. split; [|done]. unfold MD5ChkFile. rewrite file_digest by done.
  simpl. unfold strcmp_eq.
  assert (Hh : strlen (hex_text (rfc_md5 data)) = 32).
  { unfold rfc_md5. by destruct (foldl _ _ _) as [[[a b] d] e]. }
  destruct (decide (values = [])) as [->|Hne].
  - simpl. repeat case_bool_decide; naive_solver.
  - rewrite !bool_decide_eq_false_2; [done| |].
    + naive_solver.
    + intros E. apply (f_equal strlen) in E. rewrite strlen_app, Hh, Hk in E.
      destruct values; [done|]. unfold strlen in E; simpl in E. lia.
Qed.

(** With 64-bit words, what [unsigned long int] is on other machines, the digest
    is another one. *)
Example md5_wide : MDString 64 any_ctx [] (bytes "abc") <> hex_text (rfc_md5 (bytes "abc")).
Proof. by vm_compute. Qed.

(** ** The console login (login.c) *)

(** The globals of the program: [MD5Values] and the values in [SQL_RESULT], their
    number being [SQL_NUMROWS].  The array has [SQL_RESULT_MAX] entries, a value
    [SQL_COLVALUE_SIZE] bytes with its NUL; neither is checked. *)
Record login_state := Login { MD5Values : list Z; SQL_RESULT : list (list Z) }.

Definition SQL_RESULT_MAX : Z := 10000.
Definition SQL_COLVALUE_SIZE : Z := 10000.

(** [db_callback] for the rows of a query: [None] when it writes out of the array or
    out of a value. *)
Definition db_rows (result rows : list (list Z)) : option (list (list Z)) :=
  if (Z.of_nat (length (result ++ rows)) <=? SQL_RESULT_MAX)
     && forallb (fun v => strlen v <? SQL_COLVALUE_SIZE) rows
  then Some (result ++ rows) else None.

(** What [db_connect] and the query give at an attempt: no data base, or the rows. *)
Definition database : Type := option (list (list Z)).

Definition chk_password (c : MD5_CTX) (st : login_state) (db : database) (pass : list Z)
  : option (Z * login_state) :=
  match db with
  | None => Some (0, Login [] (SQL_RESULT st))
  | Some rows =>
      result ← db_rows (SQL_RESULT st) rows;
      match result with
      | [] => Some (0, Login [] [])
      | key :: more =>
          let '(r, values) := MD5Password 32 c [] pass key in
          Some (r, Login values (key :: more))
      end
  end.

Inductive event := Banner | Incorrect | Welcome | NoDatabase | Bypass.

Definition password_prompt (c : MD5_CTX) (st : login_state) (db : database) (typed : list Z)
  : option (Z * login_state * list event) :=
  let passwd := snprintf 25 typed in
  if bool_decide (passwd = []) then Some (0, st, [])
  else
    '(r, st) ← chk_password c st db passwd;
    Some (if r =? 0 then (0, st, [Incorrect]) else (1, st, [])).

(** It still waits, a buffer overflowed, or the shell runs at an attempt. *)
Inductive login_result := Waiting | Overflow | Shell (attempt : nat) (before : list event).

(** The loop of [login_main] over what is typed. *)
Fixpoint login_loop (c : MD5_CTX) (attempts : list (list Z * database)) (i : Z) (st : login_state)
  : login_result :=
  match attempts with
  | [] => Waiting
  | (typed, db) :: attempts' =>
      let '(i, banner) := if 5 <=? i then (0, [Banner]) else (i, []) in
      match password_prompt c st db typed with
      | None => Overflow
      | Some (r, st, out) =>
          if r =? 0 then
            match login_loop c attempts' (i + 1) st with
            | Shell n out' => Shell (S n) (banner ++ out ++ out')
            | o => o
            end
          else Shell 0%nat (banner ++ out ++ [Welcome])
      end
  end.

(** [login_main]: when the shell runs, and the events before it. *)
Definition login_main (c : MD5_CTX) (db_exists noconsole : bool) (attempts : list (list Z * database))
  : login_result :=
  if negb db_exists then Shell 0%nat [Banner; NoDatabase]
  else if negb noconsole then
    match login_loop c attempts 0 (Login [] []) with
    | Shell n out => Shell n (Banner :: out)
    | o => o
    end
  else Shell 0%nat [Banner; Bypass].

Example login_ex :
  let key := bytes "0cc175b9c0f1b6a831c399e269772661" in
  login_main any_ctx true false
    [(bytes "b", Some [key]); ([], None); (bytes "a", None); (bytes "a", Some [bytes "changed"])]
  = Shell 3%nat [Banner; Incorrect; Incorrect; Welcome].
Proof. by vm_compute. Qed.

(** ** Who gets a shell *)

#[local] Opaque rfc_md5 MDString.

Definition passwd (a : list Z * database) : list Z := take 24 a.1.

(** The rows an attempt reads: none without a password or a data base. *)
Definition fetched (a : list Z * database) : list (list Z) :=
  if bool_decide (passwd a = []) then [] else default [] a.2.

(** An attempt that is accepted, given the rows read before it. *)
Definition accepts (before : list (list Z)) (a : list Z * database) : Prop :=
  passwd a <> [] /\ a.2 <> None /\
  head (before ++ fetched a) = Some (hex_text (rfc_md5 (passwd a))).

(** The rows that were read have room. *)
Definition room (before : list (list Z)) (a : list Z * database) : Prop :=
  Z.of_nat (length (before ++ fetched a)) <= SQL_RESULT_MAX
  /\ Forall (fun v => strlen v < SQL_COLVALUE_SIZE) (fetched a).

Lemma db_rows_spec (result rows : list (list Z)) :
  match db_rows result rows with
  | Some l => l = result ++ rows /\ Z.of_nat (length (result ++ rows)) <= SQL_RESULT_MAX
              /\ Forall (fun v => strlen v < SQL_COLVALUE_SIZE) rows
  | None => ~ (Z.of_nat (length (result ++ rows)) <= SQL_RESULT_MAX
               /\ Forall (fun v => strlen v < SQL_COLVALUE_SIZE) rows)
  end.
Proof.
  assert (E : forallb (fun v => strlen v <? SQL_COLVALUE_SIZE) rows = true <-> Forall (fun v => strlen v < SQL_COLVALUE_SIZE) rows).
  { rewrite List.forallb_forall, Forall_forall. setoid_rewrite Z.ltb_lt. by setoid_rewrite list_elem_of_In. }
  unfold db_rows.
  destruct (Z.leb_spec (Z.of_nat (length (result ++ rows))) SQL_RESULT_MAX); cbn [andb]; [|lia].
  destruct (forallb _ rows); [by split_and!; [..|apply E]|]. by intros [_ ?%E].
Qed.

Lemma prompt_accepts (c : MD5_CTX) (st : login_state) (a : list Z * database) :
  length (cin c) = 64%nat -> Forall is_byte a.1 -> Z.of_nat (length (SQL_RESULT st)) <= SQL_RESULT_MAX ->
  match password_prompt c st a.2 a.1 with
  | Some (r, st', _) =>
      room (SQL_RESULT st) a /\ (r <> 0 <-> accepts (SQL_RESULT st) a) /\ SQL_RESULT st' = SQL_RESULT st ++ fetched a
  | None => ~ room (SQL_RESULT st) a
  end.
Proof.
  intros Hc Hb Hr. destruct a as [typed db]; simpl in *.
  unfold password_prompt, room, accepts, fetched, passwd, snprintf. simpl.
  case_bool_decide as Hp; [rewrite app_nil_r; naive_solver|].
  unfold chk_password. destruct db as [rows|]; simpl; [|rewrite app_nil_r; naive_solver].
  pose proof (db_rows_spec (SQL_RESULT st) rows) as Hd.
  destruct (db_rows (SQL_RESULT st) rows) as [result|]; simpl; [|done].
  destruct Hd as (-> & Hd). destruct (SQL_RESULT st ++ rows) as [|key more] eqn:Er; simpl; [naive_solver|].
  unfold MD5Password. rewrite string_digest.
  2-4: done || (by apply Forall_take) || (unfold strlen; rewrite length_take; lia).
  rewrite app_nil_l. unfold strcmp_eq. case_bool_decide as E; simpl; split; try done; split; try done.
  - split; [|done]. intros _. by rewrite E.
  - split; [done|]. intros (_ & _ & [= ->]). done.
Qed.

(** The [n]th attempt is the first one accepted; all rows up to it had room. *)
Fixpoint first_accepted (before : list (list Z)) (attempts : list (list Z * database)) (n : nat)
  : Prop :=
  match attempts, n with
  | [], _ => False
  | a :: _, O => room before a /\ accepts before a
  | a :: attempts', S n =>
      room before a /\ ~ accepts before a /\ first_accepted (before ++ fetched a) attempts' n
  end.

(** An attempt whose rows have no room comes before one that is accepted. *)
Fixpoint overflows (before : list (list Z)) (attempts : list (list Z * database)) : Prop :=
  match attempts with
  | [] => False
  | a :: attempts' => ~ room before a \/ ~ accepts before a /\ overflows (before ++ fetched a) attempts'
  end.

Lemma login_loop_first (c : MD5_CTX) (attempts : list (list Z * database)) :
  length (cin c) = 64%nat -> Forall (fun a => Forall is_byte a.1) attempts ->
  forall i st, Z.of_nat (length (SQL_RESULT st)) <= SQL_RESULT_MAX ->
  (forall n, (exists out, login_loop c attempts i st = Shell n out) <-> first_accepted (SQL_RESULT st) attempts n)
  /\ (login_loop c attempts i st = Overflow <-> overflows (SQL_RESULT st) attempts).
Proof.
  intros Hc. induction 1 as [|[typed db] attempts Hb _ IH]; intros i st Hst; simpl.
  { split; [|done]. intros n. split; [by intros [? ?]|by destruct n]. }
  pose proof (prompt_accepts c st (typed, db) Hc Hb Hst) as Hp. simpl in Hp.
  destruct (5 <=? i); (destruct (password_prompt c st db typed) as [[[r st'] out]|];
    [destruct Hp as (Hroom & Hr & Hs)|split; [intros n; split; [by intros [? ?]|destruct n; naive_solver]|naive_solver]]).
  1: destruct (IH (0 + 1) st') as [IH1 IH2]; [rewrite Hs; apply Hroom|].
  2: destruct (IH (i + 1) st') as [IH1 IH2]; [rewrite Hs; apply Hroom|].
  all: rewrite Hs in IH1, IH2; destruct (Z.eqb_spec r 0) as [->|Hne];
    [assert (Hno : ~ accepts (SQL_RESULT st) (typed, db)) by naive_solver
    |assert (Hyes : accepts (SQL_RESULT st) (typed, db)) by naive_solver].
  2,4: split; [intros [|n]; split; [done | intros _; by eexists | by intros (? & [=]) | by intros (_ & ? & _)]
              |split; [intros [=] | by intros [?|[? _]]]].
  all: split; [intros [|n]; split; [| by intros [_ ?] | | intros (_ & _ & (o & ->)%IH1); by eexists]|].
  all: try (intros (o & Ho); match type of Ho with context [login_loop ?a ?b ?x ?d] => destruct (login_loop a b x d) as [| |m o'] end;
            try discriminate Ho; (injection Ho as <- <-; split; [done|]; split; [done|]; apply IH1; by eexists)).
  all: rewrite <- IH2; destruct (login_loop _ _ _ _); naive_solver.
Qed.

(** C16: the console login starts the shell at the first attempt whose password,
    cut at 24 characters and not empty, has the MD5 digest that the first row
    read from the data base holds, and keeps asking until then, whatever the
    earlier attempts and digests were; a row read at an earlier attempt stays
    the one that counts.  Without a data base, or with /etc/noconsole, the
    shell starts at once and no password is asked.  The rows of all attempts are
    collected: exactly if they come to more than 10000, or one of them has 10000
    bytes or more, before a password is accepted, a buffer overflows. *)
Theorem login_main_correct (c : MD5_CTX) (db_exists noconsole : bool)
    (attempts : list (list Z * database)) (n : nat) :
  length (cin c) = 64%nat -> Forall (fun a => Forall is_byte a.1) attempts ->
  ((exists out, login_main c db_exists noconsole attempts = Shell n out)
   <-> (if db_exists && negb noconsole then first_accepted [] attempts n else n = 0%nat))
  /\ (login_main c db_exists noconsole attempts = Overflow
      <-> db_exists && negb noconsole = true /\ overflows [] attempts).
Proof.
  intros Hc Hb. destruct (login_loop_first c attempts Hc Hb 0 (Login [] [])) as [H1 H2]; [done|].
  specialize (H1 n). cbn [SQL_RESULT] in *. unfold login_main. destruct db_exists, noconsole; cbn [negb andb].
  2: { rewrite <- H1, <- H2. destruct (login_loop _ _ _ _); naive_solver. }
  all: split; [split; [by intros (? & [= <- _])|intros ->; by eexists]|naive_solver].
Qed.

Lemma login_main_correct_witness :
  exists out, login_main any_ctx true false
    [(bytes "b", Some [bytes "0cc175b9c0f1b6a831c399e269772661"]); (bytes "a", Some [bytes "new"])]
  = Shell 1%nat out.
Proof.
  apply (login_main_correct any_ctx true false); [done| |].
  - unfold is_byte. apply Forall_cons_2; [|apply Forall_cons_2; [|apply Forall_nil_2]];
      (apply Forall_cons_2; [by vm_compute|apply Forall_nil_2]).
  - assert (Hroom : forall before rows : list (list Z),
      bool_decide (Z.of_nat (length (before ++ rows)) <= SQL_RESULT_MAX
                   /\ Forall (fun v => strlen v < SQL_COLVALUE_SIZE) rows) = true ->
      forall t, passwd (t, Some rows) <> [] -> room before (t, Some rows)).
    { intros before rows H%bool_decide_eq_true t Ht. unfold room, fetched. by rewrite bool_decide_eq_false_2. }
    split; [apply Hroom; [by vm_compute|discriminate]|].
    split; [intros (_ & _ & E); vm_compute in E; discriminate E|].
    split; [apply Hroom; [by vm_compute|discriminate]|].
    split; [discriminate|split; [discriminate|by vm_compute]].
Defined.
