(* ===== verification/Event.v ===== *)
(** * The event queue of the proxy

    v3.0/src/squid-mybox/src/event.c.  A time is a [double] that is never a NaN:
    all the code relies on is the order and [+], the interface [Clock].  A handler is
    known by a number and does what [invoke] says: it may add and delete
    events; the state of the rest of the program is its argument [world].
    An [arg] is a number or NULL; the locks [cbdataLock] and [cbdataUnlock] hold on
    it are counted. *)

From Stdlib Require Import Sorting.Sorted.
From S2P Require Import Prelude.

(** ** Times *)

Class Clock (dtime : Type) := {
  dgt : dtime -> dtime -> bool;
  dadd : dtime -> dtime -> dtime;
  dgt_irrefl : forall x, dgt x x = false;
  (* not greater is transitive and total *)
  dle_trans : forall x y z, dgt x y = false -> dgt y z = false -> dgt x z = false;
  dgt_asym : forall x y, dgt x y = true -> dgt y x = false
}.

#[export] Instance Z_clock : Clock Z.
Proof.
  refine {| dgt x y := y <? x; dadd := Z.add |}.
  - intros x. apply Z.ltb_irrefl.
  - intros x y z H1 H2. btoprop. apply Z.ltb_ge. lia.
  - intros x y H. btoprop. apply Z.ltb_ge. lia.
Defined.

Section Event.
Context {dtime : Type} `{!Clock dtime}.

Record ev_entry := Ev {
  func : nat;
  arg : option nat;
  name : list Z;
  when : dtime;
  weight : Z;
  id : Z
}.

Record state := State {
  tasks : list ev_entry;
  run_id : Z;
  last_event_ran : option (list Z);
  locks : gmap nat Z
}.

Definition lock_count (s : state) (a : nat) : Z := default 0 (locks s !! a).

Definition set_tasks (s : state) (l : list ev_entry) : state :=
  State l (run_id s) (last_event_ran s) (locks s).

(** [cbdataLock] and [cbdataUnlock] under [if (NULL != arg)]. *)
Definition add_lock (s : state) (a : option nat) (n : Z) : state :=
  match a with
  | None => s
  | Some a => State (tasks s) (run_id s) (last_event_ran s) (<[a := lock_count s a + n]> (locks s))
  end.

(** ** Operations *)

Fixpoint insert_event (l : list ev_entry) (e : ev_entry) : list ev_entry :=
  match l with
  | [] => [e]
  | x :: l' => if dgt (when x) (when e) then e :: l else x :: insert_event l' e
  end.

Definition eventAdd (s : state) (current_dtime : dtime) (nm : list Z) (f : nat) (a : option nat)
    (w : dtime) (wt : Z) : state :=
  let e := Ev f a nm (dadd current_dtime w) wt (run_id s) in
  let s := add_lock s a 1 in
  set_tasks s (insert_event (tasks s) e).

Definition is_event (f : nat) (a : option nat) (e : ev_entry) : bool :=
  bool_decide (func e = f) && bool_decide (arg e = a).

Fixpoint delete_event (l : list ev_entry) (f : nat) (a : option nat)
  : option (ev_entry * list ev_entry) :=
  match l with
  | [] => None
  | e :: l' =>
      if negb (is_event f a e)
      then (fun p => (p.1, e :: p.2)) <$> delete_event l' f a
      else Some (e, l')
  end.

(** The second result: [debug_trap] was called. *)
Definition eventDelete (s : state) (f : nat) (a : option nat) : state * bool :=
  match delete_event (tasks s) f a with
  | Some (e, l) => (add_lock (set_tasks s l) (arg e) (-1), false)
  | None => (s, true)
  end.

Definition eventFind (s : state) (f : nat) (a : option nat) : bool :=
  existsb (is_event f a) (tasks s).

(** ** Running *)

(** What a handler does to the queue. *)
Inductive op :=
  | Add (nm : list Z) (f : nat) (a : option nat) (w : dtime) (wt : Z)
  | Delete (f : nat) (a : option nat).

Definition do_op (current_dtime : dtime) (s : state) (o : op) : state :=
  match o with
  | Add nm f a w wt => eventAdd s current_dtime nm f a w wt
  | Delete f a => (eventDelete s f a).1
  end.

Section Run.
Context {world : Type}.
Context (cbdataValid : nat -> world -> bool).
Context (invoke : nat -> option nat -> world -> list op * world).
Context (current_dtime : dtime).

Definition valid (a : option nat) (wd : world) : bool :=
  match a with Some a => cbdataValid a wd | None => true end.

(** The loop of [eventRun]; the last result is the events run.  [None]: the fuel is spent. *)
Fixpoint run_loop (fuel : nat) (wsum : Z) (s : state) (wd : world)
  : option (state * world * list ev_entry) :=
  match fuel with
  | O => None
  | S fuel =>
      match tasks s with
      | [] => Some (s, wd, [])
      | event :: next =>
          if dgt (when event) current_dtime then Some (s, wd, [])
          else if id event =? run_id s then Some (s, wd, [])
          else if negb (wsum =? 0) then Some (s, wd, [])
          else
            let s := set_tasks s next in
            let v := valid (arg event) wd in
            let s := add_lock s (arg event) (-1) in
            if v then
              let s := State (tasks s) (run_id s) (Some (name event)) (locks s) in
              let '(ops, wd) := invoke (func event) (arg event) wd in
              let s := foldl (do_op current_dtime) s ops in
              match run_loop fuel (wsum + weight event) s wd with
              | Some (s, wd, ran) => Some (s, wd, event :: ran)
              | None => None
              end
            else run_loop fuel wsum s wd
      end
  end.

(** [run_id] is an int; its overflow is undefined. *)
Definition RUN_ID_MAX : Z := 2147483647.

(** [None]: the fuel is spent, or [run_id] overflows. *)
Definition eventRun (fuel : nat) (s : state) (wd : world) : option (state * world * list ev_entry) :=
  match tasks s with
  | [] => Some (s, wd, [])
  | e :: _ =>
      if dgt (when e) current_dtime then Some (s, wd, [])
      else if run_id s =? RUN_ID_MAX then None
      else run_loop fuel 0 (State (tasks s) (run_id s + 1) (last_event_ran s) (locks s)) wd
  end.

(** [eventCleanup]: the events kept. *)
Fixpoint cleanup (l : list ev_entry) (wd : world) (s : state) : list ev_entry * state :=
  match l with
  | [] => ([], s)
  | e :: l' =>
      if negb (valid (arg e) wd) then cleanup l' wd (add_lock s (arg e) (-1))
      else let '(kept, s) := cleanup l' wd s in (e :: kept, s)
  end.

Definition eventCleanup (s : state) (wd : world) : state :=
  let '(kept, s) := cleanup (tasks s) wd s in set_tasks s kept.

End Run.

(** [eventFreeMemory] *)
Definition eventFreeMemory (s : state) : state :=
  set_tasks (foldl (fun s e => add_lock s (arg e) (-1)) s (tasks s)) [].

(** [eventNextTime], given the milliseconds to the first event. *)
Definition eventNextTime (ms_until : dtime -> Z) (s : state) : Z :=
  match tasks s with [] => 10 | e :: _ => ms_until (when e) end.

(** ** The invariant *)

Definition later (x y : ev_entry) : Prop := dgt (when x) (when y) = false.

Definition held (a : nat) (l : list ev_entry) : Z :=
  Z.of_nat (length (filter (fun e => arg e = Some a) l)).

(** The queue is in the order of time, no event is from a later run, the number of the
    run is an int, and each event holds a lock on its argument beside the [base] locks of others. *)
Record inv (base : nat -> Z) (s : state) : Prop := {
  inv_sorted : StronglySorted later (tasks s);
  inv_ids : Forall (fun e => id e <= run_id s) (tasks s);
  inv_locks : forall a, lock_count s a = base a + held a (tasks s);
  inv_run : run_id s <= RUN_ID_MAX
}.

Lemma held_cons (a : nat) (e : ev_entry) (l : list ev_entry) :
  held a (e :: l) = (if bool_decide (arg e = Some a) then 1 else 0) + held a l.
Proof. unfold held. rewrite filter_cons. repeat case_decide; case_bool_decide; simpl; try done; lia. Qed.

Lemma held_app (a : nat) (l k : list ev_entry) : held a (l ++ k) = held a l + held a k.
Proof. unfold held. rewrite filter_app, length_app. lia. Qed.

Lemma lock_count_add (s : state) (x : option nat) (n : Z) (a : nat) :
  lock_count (add_lock s x n) a = lock_count s a + (if bool_decide (x = Some a) then n else 0).
Proof.
  unfold lock_count, add_lock. destruct x as [x|]; cbn [locks]; [|by rewrite bool_decide_eq_false_2, Z.add_0_r].
  destruct (decide (x = a)) as [->|Hne].
  - rewrite lookup_insert_eq, bool_decide_eq_true_2 by done. done.
  - rewrite lookup_insert_ne, bool_decide_eq_false_2 by congruence. lia.
Qed.

Lemma add_lock_other (s : state) (x : option nat) (n : Z) :
  tasks (add_lock s x n) = tasks s /\ run_id (add_lock s x n) = run_id s
  /\ last_event_ran (add_lock s x n) = last_event_ran s.
Proof. by destruct x. Qed.

(** An event goes after all those that are not later, before all those that are. *)
Lemma insert_event_spec (l : list ev_entry) (e : ev_entry) :
  StronglySorted later l ->
  exists l1 l2, l = l1 ++ l2 /\ insert_event l e = l1 ++ e :: l2
    /\ Forall (fun x => later x e) l1 /\ Forall (fun x => dgt (when x) (when e) = true) l2.
Proof.
  induction 1 as [|x l Hs IH Hx]; simpl.
  { exists [], []. by split_and!. }
  destruct (dgt (when x) (when e)) eqn:E.
  - exists [], (x :: l). split_and!; [done|done|done|]. constructor; [done|].
    eapply Forall_impl; [exact Hx|]. simpl. intros y Hy.
    destruct (dgt (when y) (when e)) eqn:Ey; [done|].
    unfold later in Hy. by rewrite (dle_trans _ _ _ Hy Ey) in E.
  - destruct IH as (l1 & l2 & -> & -> & H1 & H2).
    exists (x :: l1), l2. split_and!; [done|done| |done]. by constructor.
Qed.

Lemma insert_event_sorted (l : list ev_entry) (e : ev_entry) :
  StronglySorted later l -> StronglySorted later (insert_event l e).
Proof.
  intros Hs. destruct (insert_event_spec l e Hs) as (l1 & l2 & -> & -> & H1 & H2).
  induction l1 as [|x l1 IH]; simpl in *.
  - constructor; [done|]. eapply Forall_impl; [exact H2|].
    intros y Hy. by apply dgt_asym.
  - apply StronglySorted_inv in Hs as [Hs Hx]. apply Forall_cons in H1 as [Hxe H1].
    constructor; [by apply IH|]. apply Forall_app in Hx as [Hx1 Hx2].
    apply Forall_app. split; [done|]. by constructor.
Qed.

Lemma delete_event_spec (l : list ev_entry) (f : nat) (a : option nat) :
  match delete_event l f a with
  | Some (e, l') => exists l1 l2, l = l1 ++ e :: l2 /\ l' = l1 ++ l2 /\ is_event f a e = true
                                  /\ existsb (is_event f a) l1 = false
  | None => existsb (is_event f a) l = false
  end.
Proof.
  induction l as [|x l IH]; simpl; [done|]. destruct (is_event f a x) eqn:E; simpl.
  - exists [], l. by split_and!.
  - destruct (delete_event l f a) as [[e l']|]; simpl; [|done].
    destruct IH as (l1 & l2 & -> & -> & He & H1). exists (x :: l1), l2.
    split_and!; [done|done|done|]. simpl. by rewrite E.
Qed.

Lemma sorted_remove (l1 l2 : list ev_entry) (e : ev_entry) :
  StronglySorted later (l1 ++ e :: l2) -> StronglySorted later (l1 ++ l2).
Proof.
  induction l1 as [|x l1 IH]; simpl; intros Hs; apply StronglySorted_inv in Hs as [Hs Hx]; [done|].
  constructor; [by apply IH|]. apply Forall_app in Hx as [H1 H2].
  apply Forall_cons in H2 as [_ H2]. by apply Forall_app.
Qed.

Lemma inv_remove (base : nat -> Z) (s : state) (l1 l2 : list ev_entry) (e : ev_entry) :
  inv base s -> tasks s = l1 ++ e :: l2 ->
  inv base (add_lock (set_tasks s (l1 ++ l2)) (arg e) (-1)).
Proof.
  intros [Hs Hi Hl Hr] E. destruct (add_lock_other (set_tasks s (l1 ++ l2)) (arg e) (-1)) as (E1 & E2 & _).
  split; rewrite ?E1, ?E2; simpl.
  - rewrite E in Hs. by apply sorted_remove in Hs.
  - rewrite E in Hi. apply Forall_app in Hi as [H1 H2]. apply Forall_cons in H2 as [_ H2].
    by apply Forall_app.
  - intros a. rewrite lock_count_add. unfold lock_count in *; simpl. rewrite Hl, E.
    rewrite !held_app, held_cons. case_bool_decide; lia.
  - exact Hr.
Qed.

Lemma inv_add (base : nat -> Z) (s : state) (now : dtime) nm f a w wt :
  inv base s -> inv base (eventAdd s now nm f a w wt).
Proof.
  intros [Hs Hi Hl Hr]. unfold eventAdd.
  set (e := Ev f a nm (dadd now w) wt (run_id s)).
  destruct (add_lock_other s a 1) as (E1 & E2 & _).
  destruct (insert_event_spec (tasks s) e Hs) as (l1 & l2 & Et & Ei & _).
  split; cbn [tasks set_tasks run_id]; rewrite ?E1, ?E2.
  - by apply insert_event_sorted.
  - rewrite Ei. rewrite Et in Hi. apply Forall_app in Hi as [H1 H2].
    apply Forall_app. split; [done|]. constructor; [simpl; lia|done].
  - intros b. unfold lock_count at 1. cbn [locks set_tasks].
    fold (lock_count (add_lock s a 1) b). rewrite lock_count_add, Hl, Ei, Et.
    rewrite !held_app, held_cons. change (arg e) with a. lia.
  - done.
Qed.

Lemma inv_delete (base : nat -> Z) (s : state) f a : inv base s -> inv base (eventDelete s f a).1.
Proof.
  intros Hinv. unfold eventDelete. pose proof (delete_event_spec (tasks s) f a) as Hd.
  destruct (delete_event (tasks s) f a) as [[e l]|]; simpl; [|done].
  destruct Hd as (l1 & l2 & Et & -> & _). by apply inv_remove.
Qed.

Lemma inv_op (base : nat -> Z) (now : dtime) (s : state) (o : op) :
  inv base s -> inv base (do_op now s o).
Proof. destruct o; [by apply inv_add|by apply inv_delete]. Qed.

Lemma inv_ops (base : nat -> Z) (now : dtime) (ops : list op) : forall s,
  inv base s -> inv base (foldl (do_op now) s ops).
Proof. induction ops as [|o ops IH]; intros s Hs; simpl; [done|]. by apply IH, inv_op. Qed.

(** ** Cleaning up *)

Section Cleanup.
Context {world : Type} (cbdataValid : nat -> world -> bool).

Lemma cleanup_spec (wd : world) (l : list ev_entry) : forall s,
  let '(kept, s') := cleanup cbdataValid l wd s in
  tasks s' = tasks s /\ run_id s' = run_id s /\
  kept = filter (fun e => valid cbdataValid (arg e) wd = true) l /\
  forall a, lock_count s' a = lock_count s a - (held a l - held a kept).
Proof.
  induction l as [|e l IH]; intros s; simpl.
  { split_and!; try done. intros a. lia. }
  rewrite filter_cons. destruct (valid cbdataValid (arg e) wd) eqn:E; simpl.
  - specialize (IH s). destruct (cleanup cbdataValid l wd s) as [kept s'].
    destruct IH as (H1 & H2 & -> & H4).
    split_and!; [done|done|done|]. intros a. rewrite H4, !held_cons. lia.
  - specialize (IH (add_lock s (arg e) (-1))).
    destruct (add_lock_other s (arg e) (-1)) as (E1 & E2 & _).
    destruct (cleanup cbdataValid l wd _) as [kept s'].
    destruct IH as (H1 & H2 & -> & H4).
    split_and!; [congruence|congruence|done|]. intros a.
    rewrite H4, lock_count_add, held_cons. case_bool_decide; lia.
Qed.

Lemma Forall_kept (P Q : ev_entry -> Prop) `{!forall e, Decision (P e)} (l : list ev_entry) :
  Forall Q l -> Forall Q (filter P l).
Proof. rewrite !Forall_forall. intros Hq e [_ He]%list_elem_of_filter. by apply Hq. Qed.

Lemma sorted_filter (P : ev_entry -> Prop) `{!forall e, Decision (P e)} (l : list ev_entry) :
  StronglySorted later l -> StronglySorted later (filter P l).
Proof.
  induction 1 as [|x l Hs IH Hx]; [constructor|]. rewrite filter_cons.
  case_decide; [|done]. constructor; [done|]. by apply Forall_kept.
Qed.

Lemma inv_cleanup (base : nat -> Z) (s : state) (wd : world) :
  inv base s -> inv base (eventCleanup cbdataValid s wd).
Proof.
  intros [Hs Hi Hl Hr]. unfold eventCleanup. pose proof (cleanup_spec wd (tasks s) s) as Hc.
  destruct (cleanup cbdataValid (tasks s) wd s) as [kept s'].
  destruct Hc as (H1 & H2 & -> & H4).
  split; cbn [tasks set_tasks run_id]; rewrite ?H2.
  - by apply sorted_filter.
  - by apply Forall_kept.
  - intros a. change (lock_count (set_tasks s' _) a) with (lock_count s' a). rewrite H4, Hl. lia.
  - done.
Qed.
End Cleanup.

Lemma free_locks (l : list ev_entry) : forall (s : state) a,
  lock_count (foldl (fun s e => add_lock s (arg e) (-1)) s l) a = lock_count s a - held a l.
Proof.
  induction l as [|e l IH]; intros s a; simpl; [unfold held; simpl; lia|].
  rewrite IH, lock_count_add, held_cons. case_bool_decide; lia.
Qed.

(** In every state of the queue the events are in the order of time, an
    event added goes behind the ones that are not later and before the
    others, one that is deleted is the first with this handler and argument, and each
    event holds exactly one lock on its argument: adding, deleting and
    cleaning up keep this, and freeing the queue releases every lock it held. *)
Lemma queue_invariant (base : nat -> Z) (s : state) :
  inv base s ->
  (forall now nm f a w wt,
     let e := Ev f a nm (dadd now w) wt (run_id s) in
     inv base (eventAdd s now nm f a w wt) /\
     exists l1 l2, tasks s = l1 ++ l2 /\ tasks (eventAdd s now nm f a w wt) = l1 ++ e :: l2
       /\ Forall (fun x => dgt (when x) (when e) = false) l1
       /\ Forall (fun x => dgt (when x) (when e) = true) l2)
  /\ (forall f a, inv base (eventDelete s f a).1 /\
        ((eventDelete s f a).2 = false <-> eventFind s f a = true) /\
        (eventFind s f a = false -> (eventDelete s f a).1 = s))
  /\ (forall (world : Type) (valid : nat -> world -> bool) wd, inv base (eventCleanup valid s wd))
  /\ tasks (eventFreeMemory s) = [] /\ (forall a, lock_count (eventFreeMemory s) a = base a).
Proof.
  intros Hinv. split_and!.
  - intros now nm f a w wt e. split; [by apply inv_add|].
    destruct (insert_event_spec (tasks s) e (inv_sorted _ _ Hinv)) as (l1 & l2 & H1 & H2 & H3 & H4).
    exists l1, l2. split_and!; [done| |done|done]. unfold eventAdd.
    destruct (add_lock_other s a 1) as (E1 & _). cbn [tasks set_tasks]. by rewrite E1.
  - intros f a. split; [by apply inv_delete|]. unfold eventDelete, eventFind.
    pose proof (delete_event_spec (tasks s) f a) as Hd.
    destruct (delete_event (tasks s) f a) as [[e l]|]; simpl.
    + destruct Hd as (l1 & l2 & -> & -> & He & _).
      rewrite existsb_app. simpl. rewrite He, orb_true_r. naive_solver.
    + rewrite Hd. naive_solver.
  - intros world v wd. by apply inv_cleanup.
  - done.
  - intros a. change (lock_count (eventFreeMemory s) a)
      with (lock_count (foldl (fun s e => add_lock s (arg e) (-1)) s (tasks s)) a).
    rewrite free_locks, (inv_locks _ _ Hinv). lia.
Qed.

(** ** Running *)

(** The events of the queue that are not from the current run. *)
Definition old (s : state) : list ev_entry := filter (fun e => id e <> run_id s) (tasks s).

Lemma insert_event_filter (P : ev_entry -> Prop) `{!forall e, Decision (P e)} l e :
  ~ P e -> filter P (insert_event l e) = filter P l.
Proof.
  intros He. induction l as [|x l IH]; simpl.
  - by rewrite filter_cons, decide_False.
  - destruct (dgt (when x) (when e)).
    + by rewrite (filter_cons _ e), decide_False.
    + by rewrite !filter_cons, IH.
Qed.

Lemma op_old (now : dtime) (s : state) (o : op) :
  run_id (do_op now s o) = run_id s /\ old (do_op now s o) `sublist_of` old s.
Proof.
  destruct o as [nm f a w wt|f a]; simpl.
  - unfold eventAdd, old. destruct (add_lock_other s a 1) as (E1 & E2 & _).
    cbn [tasks set_tasks run_id]. rewrite E1, E2. split; [done|].
    by rewrite insert_event_filter by (simpl; lia).
  - unfold eventDelete, old. pose proof (delete_event_spec (tasks s) f a) as Hd.
    destruct (delete_event (tasks s) f a) as [[e l]|]; simpl; [|done].
    destruct Hd as (l1 & l2 & -> & -> & _).
    destruct (add_lock_other (set_tasks s (l1 ++ l2)) (arg e) (-1)) as (E1 & E2 & _).
    rewrite E1, E2. split; [done|]. simpl. rewrite !filter_app. apply sublist_app; [done|].
    rewrite filter_cons. case_decide; [by apply sublist_cons|done].
Qed.

Lemma ops_old (now : dtime) (ops : list op) : forall s,
  run_id (foldl (do_op now) s ops) = run_id s /\ old (foldl (do_op now) s ops) `sublist_of` old s.
Proof.
  induction ops as [|o ops IH]; intros s; simpl; [done|].
  destruct (op_old now s o) as [E1 S1]. destruct (IH (do_op now s o)) as [E2 S2].
  split; [congruence|by etrans].
Qed.

(** Why the loop of [eventRun] stops. *)
Definition stopped (now : dtime) (s : state) (wsum : Z) : Prop :=
  match tasks s with
  | [] => True
  | e :: _ => dgt (when e) now = true \/ id e = run_id s \/ wsum <> 0
  end.

Definition total (l : list ev_entry) : Z := foldr (fun e n => weight e + n) 0 l.

Section RunSpec.
Context {world : Type} (cbdataValid : nat -> world -> bool).
Context (invoke : nat -> option nat -> world -> list op * world) (now : dtime).

(** What a run gives: the events run are some of those queued before it, in their
    order, each of them due; a weight ends the run after the event that has it. *)
Definition run_result (base : nat -> Z) (s s' : state) (wsum : Z) (ran : list ev_entry) : Prop :=
  inv base s' /\ run_id s' = run_id s
  /\ ran `sublist_of` old s
  /\ Forall (fun e => dgt (when e) now = false) ran
  /\ Forall (fun e => weight e = 0) (removelast ran)
  /\ (ran <> [] -> wsum = 0)
  /\ stopped now s' (wsum + total ran).

Lemma run_loop_spec (base : nat -> Z) (fuel : nat) : forall wsum s wd,
  inv base s -> (length (old s) < fuel)%nat ->
  exists s' wd' ran, run_loop cbdataValid invoke now fuel wsum s wd = Some (s', wd', ran)
    /\ run_result base s s' wsum ran.
Proof.
  induction fuel as [|fuel IH]; intros wsum s wd Hinv Hf; [lia|]. cbn [run_loop].
  assert (Hstop : stopped now s wsum -> run_result base s s wsum []).
  { intros Hs. split_and!; try done; [apply sublist_nil_l|simpl; by rewrite Z.add_0_r]. }
  destruct (tasks s) as [|event next] eqn:Et.
  { exists s, wd, []. split; [done|]. apply Hstop. unfold stopped. by rewrite Et. }
  destruct (dgt (when event) now) eqn:Ew.
  { exists s, wd, []. split; [done|]. apply Hstop. unfold stopped. rewrite Et. by left. }
  destruct (Z.eqb_spec (id event) (run_id s)) as [Ei|Ei].
  { exists s, wd, []. split; [done|]. apply Hstop. unfold stopped. rewrite Et. by right; left. }
  destruct (Z.eqb_spec wsum 0) as [->|Ewt]; simpl.
  2:{ exists s, wd, []. split; [done|]. apply Hstop. unfold stopped. rewrite Et. by right; right. }
  pose proof (inv_remove base s [] next event Hinv Et) as Hinv1. simpl in Hinv1.
  set (s1 := add_lock (set_tasks s next) (arg event) (-1)) in *.
  destruct (add_lock_other (set_tasks s next) (arg event) (-1)) as (E1 & E2 & E3). fold s1 in E1, E2, E3.
  simpl in E1, E2.
  assert (Hold : old s = event :: old s1).
  { unfold old. rewrite Et, E1, E2, filter_cons. by rewrite decide_True. }
  rewrite Hold in Hf. cbn [length] in Hf.
  destruct (valid cbdataValid (arg event) wd).
  - destruct (invoke (func event) (arg event) wd) as [ops wd1].
    set (s2 := State (tasks s1) (run_id s1) (Some (name event)) (locks s1)).
    assert (Hinv2 : inv base s2) by (destruct Hinv1; by split).
    destruct (ops_old now ops s2) as [E4 S4]. change (old s2) with (old s1) in S4.
    pose proof (sublist_length _ _ S4) as Hlen.
    destruct (IH (0 + weight event) (foldl (do_op now) s2 ops) wd1) as
      (s' & wd' & ran & -> & H1 & H2 & H3 & H4 & H5 & H6 & H7);
      [by apply inv_ops|lia|].
    exists s', wd', (event :: ran). split; [done|].
    split_and!; [done|rewrite H2, E4; exact E2| |by constructor| |done|].
    + rewrite Hold. apply sublist_skip. by etrans.
    + destruct ran as [|e ran]; [constructor|]. change (removelast (event :: e :: ran))
        with (event :: removelast (e :: ran)). constructor; [|done].
      specialize (H6 ltac:(done)). lia.
    + cbn [total foldr]. fold (total ran). by replace (0 + (weight event + total ran))
        with (0 + weight event + total ran) by lia.
  - destruct (IH 0 s1 wd Hinv1 ltac:(lia)) as (s' & wd' & ran & -> & H1 & H2 & H3 & H4 & H5 & H6 & H7).
    exists s', wd', ran. split; [done|].
    split_and!; [done|congruence| |done|done|done|done].
    rewrite Hold. by apply sublist_cons.
Qed.

Lemma fresh_old (base : nat -> Z) (s : state) (r : Z) :
  inv base s -> run_id s < r -> filter (fun e => id e <> r) (tasks s) = tasks s.
Proof.
  intros Hinv Hr. pose proof (inv_ids _ _ Hinv) as Hi. induction (tasks s) as [|e l IH]; [done|].
  apply Forall_cons in Hi as [He Hi]. rewrite filter_cons, decide_True by lia. by rewrite IH.
Qed.

(** C23: a run of the queue ends, whatever the handlers add and delete, after at most
    as many steps as there were events; it runs only events that were
    queued before it and are due, in the order of the queue, each at most
    once, and stops behind the first one with a weight; at the end the first event
    left is not due, or was added by this run, or a weight ended the run.
    The invariant of the queue holds again.  Only when an event is due after 2^31 - 1
    runs does the counter of the runs overflow. *)
Theorem eventRun_correct (base : nat -> Z) (s : state) (wd : world) :
  inv base s ->
  match eventRun cbdataValid invoke now (S (length (tasks s))) s wd with
  | Some (s', wd', ran) =>
      inv base s' /\ ran `sublist_of` tasks s
      /\ Forall (fun e => dgt (when e) now = false) ran
      /\ Forall (fun e => weight e = 0) (removelast ran)
      /\ stopped now s' (total ran)
      /\ (ran = [] \/ run_id s' = run_id s + 1)
  | None => run_id s = RUN_ID_MAX /\ exists e l, tasks s = e :: l /\ dgt (when e) now = false
  end.
Proof.
  intros Hinv. unfold eventRun. destruct (tasks s) as [|e l] eqn:Et.
  { split_and!; try done; [|by left]. unfold stopped. by rewrite Et. }
  destruct (dgt (when e) now) eqn:Ew.
  { split_and!; try done; [apply sublist_nil_l| |by left]. unfold stopped. rewrite Et. by left. }
  destruct (Z.eqb_spec (run_id s) RUN_ID_MAX) as [Er|Er]; [split; [done|]; by exists e, l|].
  set (s1 := State (e :: l) (run_id s + 1) (last_event_ran s) (locks s)).
  assert (Hold : old s1 = e :: l).
  { unfold old. simpl. rewrite <- Et. apply (fresh_old base); [done|lia]. }
  assert (Hinv1 : inv base s1).
  { destruct Hinv as [H1 H2 H3 H4]. split; simpl; rewrite <- ?Et; [done| |done|lia].
    eapply Forall_impl; [exact H2|]. simpl. lia. }
  destruct (run_loop_spec base (S (length (e :: l))) 0 s1 wd Hinv1) as
    (s' & wd' & ran & E & H1 & H2 & H3 & H4 & H5 & _ & H7); [rewrite Hold; lia|].
  rewrite E. rewrite Hold in H3. split_and!; try done. by right.
Qed.

End RunSpec.

End Event.

Lemma queue_invariant_witness :
  let e t n := Ev n (Some 4%nat) [] t 0 0 in
  let s := State [e 1 1%nat; e 5 2%nat] 0 None {[4%nat := 3]} in
  inv (fun a => if (a =? 4)%nat then 1 else 0)
    (eventAdd s 3 (bytes "tick") 7%nat None 2 1)
  /\ map when (tasks (eventAdd s 3 (bytes "tick") 7%nat None 2 1)) = [1; 5; 5].
Proof.
  split; [|done].
  refine (proj1 (proj1 (queue_invariant _ _ _) 3 (bytes "tick") 7%nat None 2 1)).
  split; [repeat constructor|repeat constructor; simpl; lia| |vm_compute; discriminate].
  intros a. unfold lock_count, held. destruct (Nat.eqb_spec a 4) as [->|Hne]; [done|].
  cbn [locks tasks]. rewrite lookup_singleton_ne by congruence.
  rewrite !filter_cons. rewrite !decide_False by (simpl; congruence). done.
Defined.

Lemma eventRun_correct_witness :
  let e n t w := Ev n None [] t w 0 in
  let s := State [e 1%nat 1 0; e 2%nat 2 1; e 3%nat 3 0] 0 None ∅ in
  let invoke f a (wd : list nat) := ([Add [] 9%nat None 0 0], wd ++ [f]) in
  exists s' wd' ran,
    eventRun (fun _ _ => true) invoke 3 4 s [] = Some (s', wd', ran)
    /\ ran `sublist_of` tasks s /\ map func ran = [1; 2]%nat /\ wd' = [1; 2]%nat.
Proof.
  intros e s invoke.
  pose proof (eventRun_correct (fun _ _ => true) invoke 3 (fun _ => 0) s []) as H.
  change (S (length (tasks s))) with 4%nat in H.
  destruct (eventRun _ _ _ _ _ _) as [[[s' wd'] ran]|] eqn:E; [|vm_compute in E; discriminate E].
  exists s', wd', ran. split; [done|]. split.
  - apply H. split; [repeat constructor|repeat constructor; simpl; lia|done|vm_compute; discriminate].
  - vm_compute in E. injection E as <- <- <-. done.
Defined.
