(* ===== verification/StMem.v ===== *)
(** * Object data in memory

    v3.0/src/squid-mybox/src/stmem.c: the data of an object is a chain of pages
    from [origin_offset] on.  A page is its [len] bytes and the count of its
    users; [tail] is the last page of a chain that is not empty. *)

From S2P Require Import Prelude CString.

Definition SM_PAGE_SIZE : nat := Z.to_nat 4096.

Record mem_node := Node { data : list Z; uses : Z }.

Record mem_hdr := Mem { chain : list mem_node; origin_offset : Z }.

(** ** Pages and their users *)

(** [None]: the page is freed. *)
Definition stmemNodeFree (p : mem_node) : option mem_node :=
  if uses p =? 0 then None else Some (Node (data p) (uses p - 1)).

Definition stmemNodeGet (p : mem_node) : list Z * mem_node :=
  (data p, Node (data p) (uses p + 1)).

(** ** Freeing *)

(** [stmemFree]; beside the chain, the change of [store_mem_size] and what is left of
    the pages. *)
Definition stmemFree (mem : mem_hdr) : mem_hdr * Z * list (option mem_node) :=
  (Mem [] 0, - Z.of_nat (SM_PAGE_SIZE * length (chain mem)), map stmemNodeFree (chain mem)).

Fixpoint free_upto (l : list mem_node) (current_offset target_offset : Z)
  : list mem_node * Z * list (option mem_node) :=
  match l with
  | [] => ([], current_offset, [])
  | p :: l' =>
      if current_offset + strlen (data p) <=? target_offset then
        match l' with
        | [] => ([p], current_offset, [])
        | _ =>
            let '(l2, off, freed) := free_upto l' (current_offset + strlen (data p)) target_offset in
            (l2, off, stmemNodeFree p :: freed)
        end
      else (l, current_offset, [])
  end.

(** [stmemFreeDataUpto]: the header, the offset returned, the change of
    [store_mem_size] and the pages given up; [None] is the failed assertion. *)
Definition stmemFreeDataUpto (mem : mem_hdr) (target_offset : Z)
  : option (mem_hdr * Z * Z * list (option mem_node)) :=
  let '(l, off, freed) := free_upto (chain mem) (origin_offset mem) target_offset in
  if target_offset <? off then None
  else Some (Mem l off, off, - Z.of_nat (SM_PAGE_SIZE * length freed), freed).

(** ** Appending *)

(** The room of the last page is filled first: the chain and what is left. *)
Fixpoint fill_tail (l : list mem_node) (d : list Z) : list mem_node * list Z :=
  match l with
  | [] => ([], d)
  | [p] =>
      if (length (data p) <? SM_PAGE_SIZE)%nat then
        let n := Nat.min (SM_PAGE_SIZE - length (data p)) (length d) in
        ([Node (data p ++ take n d) (uses p)], drop n d)
      else ([p], d)
  | p :: l' => let '(l2, d2) := fill_tail l' d in (p :: l2, d2)
  end.

(** The loop that allocates pages: [fuel] bounds their number. *)
Fixpoint new_pages (fuel : nat) (d : list Z) : list mem_node :=
  match fuel, d with
  | S fuel, _ :: _ => Node (take SM_PAGE_SIZE d) 0 :: new_pages fuel (drop SM_PAGE_SIZE d)
  | _, _ => []
  end.

Definition stmemAppend (mem : mem_hdr) (d : list Z) : mem_hdr * Z :=
  let '(l, d') := fill_tail (chain mem) d in
  let pages := new_pages (length d') d' in
  (Mem (l ++ pages) (origin_offset mem), Z.of_nat (SM_PAGE_SIZE * length pages)).

(** ** Copying *)

(** The page the offset is in, and its offset; [None] past the end. *)
Fixpoint seek (l : list mem_node) (t_off offset : Z) : option (list mem_node * Z) :=
  match l with
  | [] => None
  | p :: l' =>
      if t_off + strlen (data p) <? offset then seek l' (t_off + strlen (data p)) offset
      else Some (l, t_off)
  end.

Fixpoint copy_pages (l : list mem_node) (bytes_to_go : nat) : list Z :=
  match l with
  | [] => []
  | p :: l' =>
      if (bytes_to_go =? 0)%nat then []
      else if (length (data p) <? bytes_to_go)%nat
      then data p ++ copy_pages l' (bytes_to_go - length (data p))
      else take bytes_to_go (data p)
  end.

(** [stmemCopy]: the bytes copied, their number being the result; [None] is the failed
    assertion, or a read in front of a page. *)
Definition stmemCopy (mem : mem_hdr) (offset : Z) (size : nat) : option (list Z) :=
  match chain mem with
  | [] => Some []
  | _ =>
      if (size =? 0)%nat then None
      else
        match seek (chain mem) (origin_offset mem) offset with
        | Some (p :: l, t_off) =>
            if offset <? t_off then None
            else
              let into := Z.to_nat (offset - t_off) in
              let n := Nat.min size (length (data p) - into) in
              Some (take n (drop into (data p)) ++ copy_pages l (size - n))
        | _ => Some []
        end
  end.

Definition content (l : list mem_node) : list Z := concat (map data l).

(** ** The window on a stream *)

Lemma content_app (l k : list mem_node) : content (l ++ k) = content l ++ content k.
Proof. unfold content. by rewrite map_app, concat_app. Qed.

Lemma page_size_pos : (0 < SM_PAGE_SIZE)%nat.
Proof. unfold SM_PAGE_SIZE. lia. Qed.

#[local] Opaque SM_PAGE_SIZE.

(** The pages of a chain: none empty, all full but the last. *)
Definition pages_ok (l : list mem_node) : Prop :=
  Forall (fun p => (0 < length (data p) <= SM_PAGE_SIZE)%nat) l
  /\ Forall (fun p => length (data p) = SM_PAGE_SIZE) (removelast l).

(** The chain holds the bytes of [stream] from the origin on, in pages that are not
    empty, all of them full but the last. *)
Record window (mem : mem_hdr) (stream : list Z) : Prop := {
  win_origin : 0 <= origin_offset mem <= strlen stream;
  win_bytes : content (chain mem) = drop (Z.to_nat (origin_offset mem)) stream;
  win_pages : pages_ok (chain mem)
}.

Lemma pages_ok_cons (p : mem_node) (l : list mem_node) :
  pages_ok (p :: l) <->
  (0 < length (data p) <= SM_PAGE_SIZE)%nat /\ pages_ok l
  /\ (l <> [] -> length (data p) = SM_PAGE_SIZE).
Proof.
  unfold pages_ok. destruct l as [|q l]; simpl removelast; rewrite !Forall_cons; naive_solver.
Qed.

Lemma pages_ok_nil : pages_ok [].
Proof. done. Qed.

(** A full chain can be continued. *)
Lemma pages_ok_app (l k : list mem_node) :
  pages_ok l -> pages_ok k ->
  (k <> [] -> Forall (fun p => length (data p) = SM_PAGE_SIZE) l) -> pages_ok (l ++ k).
Proof.
  intros Hl Hk Hf. induction l as [|p l IH]; [done|].
  apply pages_ok_cons in Hl as (H1 & H2 & H3). rewrite <- app_comm_cons. apply pages_ok_cons.
  split; [done|split].
  - apply IH; [done|]. intros Hne. apply Hf in Hne. by apply Forall_cons in Hne as [_ ?].
  - intros Hne. destruct l as [|q l]; [|by apply H3].
    assert (Hk' : k <> []) by done. apply Hf in Hk'. by apply Forall_cons in Hk' as [? _].
Qed.

Lemma new_pages_spec (fuel : nat) : forall d, (length d <= fuel)%nat ->
  content (new_pages fuel d) = d /\ pages_ok (new_pages fuel d)
  /\ (d = [] -> new_pages fuel d = []).
Proof.
  pose proof page_size_pos as Hpos.
  induction fuel as [|fuel IH]; intros [|x d] Hf; cbn [length] in Hf; try lia; try done.
  cbn [new_pages]. set (xd := x :: d) in *.
  assert (Hlen : length xd = S (length d)) by done. clearbody xd.
  destruct (IH (drop SM_PAGE_SIZE xd)) as (H1 & H2 & H3); [rewrite length_drop; lia|].
  split_and!.
  - unfold content in *. cbn [map concat data]. rewrite H1. apply take_drop.
  - apply pages_ok_cons. cbn [data]. rewrite length_take. split_and!; [lia|lia|done|].
    intros Hne. destruct (Nat.le_gt_cases (length xd) SM_PAGE_SIZE); [|lia].
    rewrite H3 in Hne by (by apply drop_ge). done.
  - intros ->. done.
Qed.

Lemma fill_tail_spec (l : list mem_node) (d : list Z) :
  pages_ok l ->
  let '(l', d') := fill_tail l d in
  content l' ++ d' = content l ++ d /\ pages_ok l' /\ length l' = length l
  /\ (d' <> [] -> Forall (fun p => length (data p) = SM_PAGE_SIZE) l').
Proof.
  induction l as [|p l IH]; intros Hok; [done|].
  apply pages_ok_cons in Hok as (H1 & H2 & H3). destruct l as [|q l].
  - cbn [fill_tail]. destruct (Nat.ltb_spec (length (data p)) SM_PAGE_SIZE) as [Hlt|Hge].
    + split_and!; [|apply pages_ok_cons|done|]; unfold content; cbn [map concat data].
      * rewrite !app_nil_r, <- app_assoc. by rewrite take_drop.
      * split_and!; [rewrite length_app; lia|rewrite length_app, length_take; lia|done|done].
      * intros Hd. constructor; [|done]. cbn [data]. rewrite length_app, length_take.
        destruct (Nat.le_gt_cases (length d) (SM_PAGE_SIZE - length (data p))); [|lia].
        rewrite drop_ge in Hd by lia. done.
    + split_and!; [done|by apply pages_ok_cons|done|].
      intros _. constructor; [lia|done].
  - change (fill_tail (p :: q :: l) d)
      with (let '(l2, d2) := fill_tail (q :: l) d in (p :: l2, d2)).
    specialize (IH H2). destruct (fill_tail (q :: l) d) as [l2 d2].
    destruct IH as (E1 & E2 & E3 & E4). split_and!.
    + unfold content in *. cbn [map concat] in *. rewrite <- !app_assoc in *. f_equal. exact E1.
    + apply pages_ok_cons. split_and!; [lia|lia|done|]. intros _. by apply H3.
    + cbn [length]. by rewrite E3.
    + intros Hd. constructor; [by apply H3|by apply E4].
Qed.

Lemma free_upto_spec (l : list mem_node) : forall off target,
  pages_ok l -> off <= target ->
  let '(l', off', freed) := free_upto l off target in
  off <= off' <= target /\ content l' = drop (Z.to_nat (off' - off)) (content l)
  /\ pages_ok l' /\ length l = (length freed + length l')%nat /\ (l <> [] -> l' <> [])
  /\ (off' - off <= strlen (content l)).
Proof.
  induction l as [|p l IH]; intros off target Hok Hle; cbn [free_upto].
  { rewrite Z.sub_diag. by split_and!. }
  assert (Hc : content (p :: l) = data p ++ content l) by done.
  destruct (Z.leb_spec (off + strlen (data p)) target) as [Ht|Ht].
  2:{ pose proof (strlen_nonneg (content (p :: l))) as Hnn.
      rewrite Z.sub_diag, drop_0. by split_and!. }
  destruct l as [|q l].
  { pose proof (strlen_nonneg (content [p])) as Hnn.
    rewrite Z.sub_diag, drop_0. by split_and!. }
  apply pages_ok_cons in Hok as (H1 & H2 & H3). specialize (IH (off + strlen (data p)) target H2 Ht).
  destruct (free_upto (q :: l) _ target) as [[l' off'] freed].
  destruct IH as (E1 & E2 & E3 & E4 & E5 & E6).
  rewrite Hc. split_and!; [unfold strlen in *; lia|lia| |done|cbn [length] in *; lia|by intros _; apply E5|].
  - rewrite E2. unfold strlen in *. rewrite drop_app_ge by lia. f_equal. lia.
  - rewrite strlen_app. lia.
Qed.

Lemma copy_pages_spec (l : list mem_node) : forall n, copy_pages l n = take n (content l).
Proof.
  induction l as [|p l IH]; intros n; cbn [copy_pages].
  { unfold content. simpl. by rewrite take_nil. }
  change (content (p :: l)) with (data p ++ content l).
  destruct (Nat.eqb_spec n 0) as [->|Hn]; [done|].
  destruct (Nat.ltb_spec (length (data p)) n).
  - rewrite IH. rewrite take_app_ge by lia. done.
  - by rewrite take_app_le by lia.
Qed.

Lemma seek_spec (l : list mem_node) : forall t_off offset,
  t_off <= offset ->
  match seek l t_off offset with
  | None => t_off + strlen (content l) < offset \/ l = []
  | Some (l', t') =>
      t_off <= t' <= offset /\ content l' = drop (Z.to_nat (t' - t_off)) (content l)
      /\ (exists p r, l' = p :: r /\ offset <= t' + strlen (data p))
  end.
Proof.
  induction l as [|p l IH]; intros t_off offset Hle; cbn [seek]; [by right|].
  change (content (p :: l)) with (data p ++ content l). rewrite strlen_app.
  destruct (Z.ltb_spec (t_off + strlen (data p)) offset) as [Hlt|Hge].
  - specialize (IH (t_off + strlen (data p)) offset ltac:(lia)).
    destruct (seek l _ offset) as [[l' t']|].
    + destruct IH as (H1 & H2 & H3). split_and!; [unfold strlen in *; lia|lia| |done].
      rewrite H2. unfold strlen in *. rewrite drop_app_ge by lia. f_equal. lia.
    + left. destruct IH as [IH| ->]; [lia|]. unfold strlen at 2. simpl. lia.
  - split_and!; [lia|lia| |by exists p, l]. by rewrite Z.sub_diag, drop_0.
Qed.

Lemma copy_page (p s : list Z) (into size : nat) :
  (into <= length p)%nat ->
  let n := Nat.min size (length p - into) in
  take n (drop into p) ++ take (size - n) s = take size (drop into (p ++ s)).
Proof.
  intros Hi n. rewrite drop_app_le by lia.
  assert (Hl : length (drop into p) = (length p - into)%nat) by (by rewrite length_drop).
  subst n. destruct (Nat.le_gt_cases size (length p - into)).
  - rewrite Nat.min_l, Nat.sub_diag, take_0, app_nil_r by lia. by rewrite take_app_le by lia.
  - rewrite Nat.min_r by lia. rewrite <- Hl, firstn_all. by rewrite take_app_ge by lia.
Qed.

Lemma copy_window (mem : mem_hdr) (stream : list Z) (offset : Z) (size : nat) :
  window mem stream -> origin_offset mem <= offset -> (0 < size)%nat ->
  stmemCopy mem offset size = Some (take size (drop (Z.to_nat offset) stream)).
Proof.
  intros [Ho Hb Hp] Hle Hsize. unfold stmemCopy. rewrite (proj2 (Nat.eqb_neq size 0)) by lia.
  pose proof (seek_spec (chain mem) (origin_offset mem) offset Hle) as Hs.
  assert (Hlen : strlen (content (chain mem)) = strlen stream - origin_offset mem).
  { rewrite Hb. unfold strlen in *. rewrite length_drop. lia. }
  destruct (chain mem) as [|q l0] eqn:Ec.
  { rewrite drop_ge, take_nil; [done|]. unfold strlen in *. simpl in Hlen. lia. }
  destruct (seek (q :: l0) (origin_offset mem) offset) as [[l' t']|].
  - destruct Hs as (H1 & H2 & p & r & -> & H3). rewrite (proj2 (Z.ltb_ge offset t')) by lia.
    rewrite copy_pages_spec, copy_page by (unfold strlen in *; lia).
    change (data p ++ content r) with (content (p :: r)). rewrite H2, Hb, !drop_drop.
    do 3 f_equal. lia.
  - destruct Hs as [Hs|Hs]; [|done]. rewrite drop_ge, take_nil; [done|].
    unfold strlen in *. lia.
Qed.

(** C32: the pages of an object are a window on the stream of the bytes appended to
    it: appending extends the stream; freeing up to an offset drops whole
    pages only, never a byte at or behind that offset and never the last page,
    and returns the new origin; a copy of at least one byte at any offset not before
    the origin gives the bytes of the stream at this offset, as many as asked and
    present.  Freeing up to an offset before the origin fails an assertion, and so
    does a copy of no bytes from a chain that is not empty.
    [store_mem_size] changes by the size of the pages allocated and freed. *)
Theorem stmem_window (mem : mem_hdr) (stream : list Z) :
  window mem stream ->
  (forall d, let '(mem', grown) := stmemAppend mem d in
     window mem' (stream ++ d) /\ origin_offset mem' = origin_offset mem
     /\ grown = Z.of_nat SM_PAGE_SIZE * (Z.of_nat (length (chain mem')) - Z.of_nat (length (chain mem))))
  /\ (forall target, origin_offset mem <= target ->
     exists mem' off change freed, stmemFreeDataUpto mem target = Some (mem', off, change, freed)
     /\ window mem' stream /\ off = origin_offset mem' /\ origin_offset mem <= off <= target
     /\ (chain mem <> [] -> chain mem' <> [])
     /\ change = Z.of_nat SM_PAGE_SIZE * (Z.of_nat (length (chain mem')) - Z.of_nat (length (chain mem))))
  /\ (forall target, target < origin_offset mem -> stmemFreeDataUpto mem target = None)
  /\ (forall offset size, origin_offset mem <= offset -> (0 < size)%nat ->
     stmemCopy mem offset size = Some (take size (drop (Z.to_nat offset) stream)))
  /\ (chain mem <> [] -> forall offset, stmemCopy mem offset 0 = None).
Proof.
  intros Hw. pose proof Hw as [Ho Hb Hp]. split_and!.
  - intros d. unfold stmemAppend. pose proof (fill_tail_spec (chain mem) d Hp) as Hf.
    destruct (fill_tail (chain mem) d) as [l' d']. destruct Hf as (F1 & F2 & F3 & F4).
    destruct (new_pages_spec (length d') d' ltac:(lia)) as (N1 & N2 & N3).
    split; [|split; [done|cbn [chain]; rewrite length_app, F3; lia]].
    split; cbn [chain origin_offset].
    + rewrite strlen_app. pose proof (strlen_nonneg d). lia.
    + rewrite content_app, N1, F1, Hb. unfold strlen in *. by rewrite drop_app_le by lia.
    + apply pages_ok_app; [done|done|]. intros Hne. apply F4. intros ->. by apply Hne, N3.
  - intros target Ht. unfold stmemFreeDataUpto.
    pose proof (free_upto_spec (chain mem) (origin_offset mem) target Hp Ht) as Hf.
    destruct (free_upto (chain mem) (origin_offset mem) target) as [[l off] freed].
    destruct Hf as (F1 & F2 & F3 & F4 & F5 & F6). rewrite (proj2 (Z.ltb_ge target off)) by lia. do 4 eexists. split; [reflexivity|].
    split; [|split; [done|split; [done|split; [done|cbn [chain]; lia]]]].
    assert (Hlen : strlen (content (chain mem)) = strlen stream - origin_offset mem).
    { rewrite Hb. unfold strlen in *. rewrite length_drop. lia. }
    split; cbn [chain origin_offset]; [lia| |done].
    rewrite F2, Hb, drop_drop. f_equal. lia.
  - intros target Ht. unfold stmemFreeDataUpto.
    assert (E : free_upto (chain mem) (origin_offset mem) target = (chain mem, origin_offset mem, [])).
    { destruct (chain mem) as [|p l]; [done|]. cbn [free_upto]. rewrite (proj2 (Z.leb_gt _ _)); [done|]. pose proof (strlen_nonneg (data p)). lia. }
    by rewrite E, (proj2 (Z.ltb_lt _ _)).
  - intros offset size. by apply copy_window.
  - intros Hne offset. unfold stmemCopy. by destruct (chain mem).
Qed.

Lemma stmem_window_witness :
  let mem := (stmemAppend (Mem [] 0) (replicate 5000 7 ++ bytes "end")).1 in
  stmemCopy mem 4999 9 = Some ([7] ++ bytes "end")
  /\ stmemCopy mem 4999 9 = Some (take 9 (drop 4999 (replicate 5000 7 ++ bytes "end"))).
Proof.
  intros mem. split; [by vm_compute|].
  assert (H : window mem (replicate 5000 7 ++ bytes "end")).
  { apply (stmem_window (Mem [] 0) []). split; [by vm_compute|done|done]. }
  exact (proj1 (proj2 (proj2 (proj2 (stmem_window mem _ H)))) 4999 9%nat ltac:(by vm_compute) ltac:(lia)).
Defined.
