(* ===== verification/Range.v ===== *)
(** * Byte ranges

    v3.0/src/squid-mybox/src/HttpHdrRange.c: the Range header of a request, with
    [strListGetItem] and [httpHeaderParseSize] of HttpHeaderTools.c.  A
    [squid_off_t] is a 64-bit integer; no sum made here leaves its range for
    values that were parsed. *)

From Stdlib Require Import Sorting.Sorted.
From S2P Require Import Prelude CString.

(** ** Lists in headers *)

Definition COMMA : Z := 44.
Definition MINUS : Z := 45.

Fixpoint count_ws (s : list Z) : nat :=
  match s with
  | [] => 0
  | c :: s' => if isspace c then S (count_ws s') else 0%nat
  end.

Fixpoint strcspn (s set : list Z) : nat :=
  match s with
  | [] => 0
  | c :: s' => if in_set set c then 0%nat else S (strcspn s' set)
  end.

(** The loop that looks for the next delimiter, from the offset [pos] of [s]. *)
Fixpoint next_del (fuel : nat) (del : Z) (s : list Z) (pos : nat) (quoted : bool) : nat :=
  match fuel with
  | O => pos
  | S fuel =>
      let pos := (pos + strcspn (drop pos s) (if quoted then [34; 92]%Z else [34; del]%Z))%nat in
      if nth pos s 0 =? del then pos
      else
        let q := nth pos s 0 =? 34 in
        let quoted := if q then negb quoted else quoted in
        let pos := if q then S pos else pos in
        let pos := if quoted && (nth pos s 0 =? 92)
                   then if nth (S pos) s 0 =? 0 then S pos else S (S pos) else pos in
        if nth pos s 0 =? 0 then pos else next_del fuel del s pos quoted
  end.

Fixpoint rtrim_len (s : list Z) (len : nat) : nat :=
  match len with
  | O => 0
  | S n => if isspace (nth n s 0) then rtrim_len s n else len
  end.

(** [strListGetItem] from the text at [*pos], which is at a delimiter: the item with
    all that follows it, its length, and the text at the new [*pos]. *)
Definition strListGetItem (del : Z) (pos : list Z) : option (list Z * nat * list Z) :=
  match pos with
  | [] => None
  | _ :: s =>
      let item := drop (count_ws s) s in
      let p := next_del (S (length item)) del item 0 false in
      let len := rtrim_len item p in
      if (0 <? len)%nat then Some (item, len, drop p item) else None
  end.

(** [strtoll]: saturates; [None] when there is no digit. *)
Definition strto_off_t (s : list Z) : option Z :=
  let s := skip_space s in
  let '(sign, s) := match s with
                    | 45 :: s' => (-1, s')
                    | 43 :: s' => (1, s')
                    | _ => (1, s)
                    end in
  match s with
  | c :: _ => if isdigit c
              then Some (Z.max (- 2 ^ 63) (Z.min (sign * (scan_digits s 0).1) (2 ^ 63 - 1)))
              else None
  | [] => None
  end.

Definition httpHeaderParseSize (s : list Z) : option Z := strto_off_t s.

(** ** One range *)

Definition range_spec_unknown : Z := -1.
Definition known_spec (s : Z) : bool := negb (s =? range_spec_unknown).
Definition size_min (a b : Z) : Z := if a <=? b then a else b.
Definition size_diff (a b : Z) : Z := if b <=? a then a - b else 0.

Record HttpHdrRangeSpec := Spec { offset : Z; length_ : Z }.

(** [httpHdrRangeSpecParseCreate] of the item at the start of [field]. *)
Definition httpHdrRangeSpecParseCreate (field : list Z) (flen : Z) : option HttpHdrRangeSpec :=
  if flen <? 2 then None
  else
    let parsed :=
      if nth 0 field 0 =? MINUS then
        match httpHeaderParseSize (drop 1 field) with
        | None => None
        | Some n => Some (Spec range_spec_unknown n)
        end
      else
        match strchr field MINUS with
        | None => None
        | Some i =>
            match httpHeaderParseSize field with
            | None => None
            | Some off =>
                let p := S i in
                if Z.of_nat p <? flen then
                  match httpHeaderParseSize (drop p field) with
                  | None => None
                  | Some last_pos => Some (Spec off (size_diff (wraps 64 (last_pos + 1)) off))
                  end
                else Some (Spec off range_spec_unknown)
            end
        end in
    match parsed with
    | Some spec => if known_spec (length_ spec) && (length_ spec =? 0) then None else Some spec
    | None => None
    end.

Definition httpHdrRangeSpecPackInto (spec : HttpHdrRangeSpec) : list Z :=
  if negb (known_spec (offset spec)) then [MINUS] ++ dec (length_ spec)
  else if negb (known_spec (length_ spec)) then dec (offset spec) ++ [MINUS]
  else dec (offset spec) ++ [MINUS] ++ dec (offset spec + length_ spec - 1).

Definition httpHdrRangeSpecCanonize (spec : HttpHdrRangeSpec) (clen : Z) : HttpHdrRangeSpec * bool :=
  let spec :=
    if negb (known_spec (offset spec)) then Spec (size_diff clen (length_ spec)) (length_ spec)
    else if negb (known_spec (length_ spec)) then Spec (offset spec) (size_diff clen (offset spec))
    else spec in
  let spec := Spec (offset spec) (size_min (size_diff clen (offset spec)) (length_ spec)) in
  (spec, 0 <? length_ spec).

(** Merging is compiled out. *)
Definition httpHdrRangeSpecMergeWith (recep donor : HttpHdrRangeSpec) : bool := false.

(** ** The header *)

Definition HttpHdrRange : Type := list HttpHdrRangeSpec.

Fixpoint parse_items (fuel : nat) (pos : list Z) (specs : HttpHdrRange) : HttpHdrRange :=
  match fuel with
  | O => specs
  | S fuel =>
      match strListGetItem COMMA pos with
      | None => specs
      | Some (item, ilen, pos) =>
          parse_items fuel pos
            (match httpHdrRangeSpecParseCreate item (Z.of_nat ilen) with
             | Some spec => specs ++ [spec]
             | None => specs
             end)
      end
  end.

(** [httpHdrRangeParseInit]: the range, invalid when it is empty. *)
Definition httpHdrRangeParseInit (str : list Z) : HttpHdrRange :=
  if negb (strcasecmp_eq (take 6 str) (bytes "bytes=")) then []
  else parse_items (S (length str)) (drop 5 str) [].

(** [httpHdrRangePackInto]: when the first spec is there, [pos] is not
    [HttpHdrRangeInitPos] any more. *)
Definition httpHdrRangePackInto (range : HttpHdrRange) : list Z :=
  flat_map (fun spec => [COMMA] ++ httpHdrRangeSpecPackInto spec) range.

Fixpoint canonize_each (range : HttpHdrRange) (clen : Z) : HttpHdrRange :=
  match range with
  | [] => []
  | spec :: range' =>
      let '(spec, good) := httpHdrRangeSpecCanonize spec clen in
      if good then spec :: canonize_each range' clen else canonize_each range' clen
  end.

(** The new stack, its top first. *)
Fixpoint pop_merged (spec : HttpHdrRangeSpec) (specs : list HttpHdrRangeSpec)
  : list HttpHdrRangeSpec :=
  match specs with
  | prev :: specs' => if httpHdrRangeSpecMergeWith spec prev then pop_merged spec specs' else specs
  | [] => []
  end.

Definition merge_goods (goods : HttpHdrRange) : HttpHdrRange :=
  rev (foldl (fun specs spec => spec :: pop_merged spec specs) [] goods).

Definition httpHdrRangeCanonize (range : HttpHdrRange) (clen : Z) : HttpHdrRange * bool :=
  let specs := merge_goods (canonize_each range clen) in
  (specs, bool_decide (specs <> [])).

Fixpoint complex_from (off : Z) (range : HttpHdrRange) : bool :=
  match range with
  | [] => false
  | spec :: range' =>
      if offset spec <? off then true else complex_from (offset spec + length_ spec) range'
  end.

Definition httpHdrRangeIsComplex (range : HttpHdrRange) : bool := complex_from 0 range.

Fixpoint will_be_complex_from (off : Z) (range : HttpHdrRange) : bool :=
  match range with
  | [] => false
  | spec :: range' =>
      if negb (known_spec (offset spec)) then will_be_complex_from off range'
      else if offset spec <? off then true
      else will_be_complex_from
             (if known_spec (length_ spec) then offset spec + length_ spec else offset spec) range'
  end.

Definition httpHdrRangeWillBeComplex (range : HttpHdrRange) : bool := will_be_complex_from 0 range.

Definition httpHdrRangeFirstOffset (range : HttpHdrRange) : Z :=
  foldl (fun off spec => if (offset spec <? off) || negb (known_spec off) then offset spec else off)
    range_spec_unknown range.

(** [None]: the start of the file is assumed. *)
Fixpoint lowest_from (off : Z) (range : HttpHdrRange) (size : Z) : option Z :=
  match range with
  | [] => Some off
  | spec :: range' =>
      if negb (known_spec (offset spec)) && ((size <? length_ spec) || negb (known_spec (length_ spec)))
      then None
      else
        let current := if known_spec (offset spec) then offset spec else size - length_ spec in
        lowest_from (if (current <? off) || negb (known_spec off) then current else off) range' size
  end.

Definition httpHdrRangeLowestOffset (range : HttpHdrRange) (size : Z) : Z :=
  match lowest_from range_spec_unknown range size with
  | None => 0
  | Some off => if known_spec off then off else 0
  end.

Definition httpHdrRangeOffsetLimit (limit : Z) (range : option HttpHdrRange) : bool :=
  match range with
  | None => false
  | Some range => if limit =? -1 then false else negb (httpHdrRangeFirstOffset range <=? limit)
  end.

Example range_ex :
  httpHdrRangeParseInit (bytes "Bytes= 0-4 ,-2,7-, x,9-9")
  = [Spec 0 5; Spec (-1) 2; Spec 7 (-1); Spec 9 1]
  /\ httpHdrRangeParseInit (bytes "bytes=1-2,,3-4") = [Spec 1 2]
  (* a number without [-] takes the one of the next range *)
  /\ httpHdrRangeParseInit (bytes "bytes=55,1-2") = [Spec 55 (-1); Spec 1 2]
  /\ httpHdrRangePackInto [Spec 0 5; Spec (-1) 2] = bytes ",0-4,-2".
Proof. by vm_compute. Qed.

(** ** Numbers *)

Lemma parse_dec (n : Z) (rest : list Z) :
  0 <= n < 2 ^ 63 -> no_digit rest -> httpHeaderParseSize (dec n ++ rest) = Some n.
Proof.
  intros Hn Hr. destruct (dec_head n ltac:(lia)) as (c & s & E & Hc).
  pose proof (isdigit_range c Hc) as Hrange.
  assert (Hv : (scan_digits (dec n ++ rest) 0).1 = n).
  { rewrite dec_digits by lia. rewrite scan_digits_run; [|apply digits_digit; lia|done].
    apply digits_value. change (2 ^ 63) with 9223372036854775808 in Hn.
    change (10 ^ Z.of_nat 20) with 100000000000000000000. lia. }
  unfold httpHeaderParseSize, strto_off_t.
  rewrite E in *. rewrite <- app_comm_cons in *. cbn [skip_space].
  assert (Hsp : isspace c = false).
  { unfold isspace. destruct (Z.eqb_spec c 32), (Z.leb_spec 9 c), (Z.leb_spec c 13); done || lia. }
  rewrite Hsp.
  assert (Hcase : c = 48 \/ c = 49 \/ c = 50 \/ c = 51 \/ c = 52 \/ c = 53 \/ c = 54 \/ c = 55
                  \/ c = 56 \/ c = 57) by lia.
  assert (Hgoal : Some (Z.max (- 2 ^ 63) (Z.min (1 * n) (2 ^ 63 - 1))) = Some n).
  { f_equal. change (2 ^ 63) with 9223372036854775808 in *. lia. }
  rewrite <- Hgoal. rewrite <- Hv. clear E Hv Hgoal Hsp Hrange.
  destruct_or! Hcase; subst c; cbv iota beta zeta; by rewrite Hc.
Qed.

(** ** Ranges as text *)

(** A range as it is read: a suffix, a trailer, or a range of 63-bit positions. *)
Definition spec_ok (spec : HttpHdrRangeSpec) : Prop :=
  (offset spec = range_spec_unknown /\ 0 < length_ spec < 2 ^ 63)
  \/ (0 <= offset spec < 2 ^ 63 /\ length_ spec = range_spec_unknown)
  \/ (0 <= offset spec /\ 0 < length_ spec /\ offset spec + length_ spec < 2 ^ 63).

Lemma strchr_dec (n : Z) (s : list Z) :
  0 <= n -> strchr (dec n ++ MINUS :: s) MINUS = Some (length (dec n)).
Proof.
  intros Hn. rewrite dec_digits by done. pose proof (digits_digit 20 n Hn) as Hd.
  induction Hd as [|c ds Hc _ IH]; simpl; [done|].
  apply isdigit_range in Hc. unfold MINUS in *. destruct (Z.eqb_spec c 45); [lia|]. by rewrite IH.
Qed.

Lemma nth_dec (n : Z) (s : list Z) : 0 <= n -> (nth 0 (dec n ++ s) 0 =? MINUS) = false.
Proof.
  intros Hn. destruct (dec_head n Hn) as (c & t & -> & Hc). simpl.
  apply isdigit_range in Hc. apply Z.eqb_neq. unfold MINUS. lia.
Qed.

Lemma strlen_dec_pos (n : Z) : 0 <= n -> 0 < strlen (dec n).
Proof. intros Hn. destruct (dec_head n Hn) as (c & t & -> & _). unfold strlen. simpl. lia. Qed.

Lemma pack_suffix (len : Z) :
  httpHdrRangeSpecPackInto (Spec range_spec_unknown len) = MINUS :: dec len.
Proof. done. Qed.

Lemma pack_trailer (off : Z) :
  0 <= off -> httpHdrRangeSpecPackInto (Spec off range_spec_unknown) = dec off ++ [MINUS].
Proof.
  intros Ho. unfold httpHdrRangeSpecPackInto, known_spec, range_spec_unknown. cbn [offset length_].
  by destruct (Z.eqb_spec off (-1)); [lia|].
Qed.

Lemma pack_range (off len : Z) :
  0 <= off -> 0 < len ->
  httpHdrRangeSpecPackInto (Spec off len) = dec off ++ MINUS :: dec (off + len - 1).
Proof.
  intros Ho Hl. unfold httpHdrRangeSpecPackInto, known_spec, range_spec_unknown. cbn [offset length_].
  destruct (Z.eqb_spec off (-1)); [lia|]. by destruct (Z.eqb_spec len (-1)); [lia|].
Qed.

(** A byte range printed into a header is read back as the same range,
    whatever follows it in the header, for ranges, trailers and suffixes. *)
Lemma range_spec_roundtrip (spec : HttpHdrRangeSpec) (rest : list Z) :
  spec_ok spec -> no_digit rest ->
  httpHdrRangeSpecParseCreate (httpHdrRangeSpecPackInto spec ++ rest)
    (strlen (httpHdrRangeSpecPackInto spec)) = Some spec.
Proof.
  destruct spec as [off len]. unfold spec_ok. cbn [offset length_].
  intros [[-> Hl]|[[Ho ->]|(Ho & Hl & Hs)]] Hr;
    [rewrite pack_suffix|rewrite pack_trailer by lia|rewrite pack_range by lia];
    unfold httpHdrRangeSpecParseCreate.
  - pose proof (strlen_dec_pos len ltac:(lia)) as Hp.
    destruct (Z.ltb_spec (strlen (MINUS :: dec len)) 2);
      [unfold strlen in *; cbn [length] in *; lia|].
    cbn [nth app drop]. rewrite Z.eqb_refl, drop_0, parse_dec by (done || lia).
    unfold known_spec, range_spec_unknown. cbn [length_].
    destruct (Z.eqb_spec len 0); [lia|]. by rewrite andb_false_r.
  - pose proof (strlen_dec_pos off ltac:(lia)) as Hp. rewrite strlen_app.
    change (strlen [MINUS]) with 1.
    destruct (Z.ltb_spec (strlen (dec off) + 1) 2); [lia|].
    rewrite <- app_assoc. cbn [app]. rewrite nth_dec, strchr_dec, parse_dec by (done || lia).
    unfold strlen. destruct (Z.ltb_spec (Z.of_nat (S (length (dec off)))) (Z.of_nat (length (dec off)) + 1));
      [lia|]. done.
  - pose proof (strlen_dec_pos off ltac:(lia)) as Hp.
    pose proof (strlen_dec_pos (off + len - 1) ltac:(lia)) as Hp2.
    change (MINUS :: dec (off + len - 1)) with ([MINUS] ++ dec (off + len - 1)).
    rewrite !strlen_app. change (strlen [MINUS]) with 1.
    destruct (Z.ltb_spec (strlen (dec off) + (1 + strlen (dec (off + len - 1)))) 2); [lia|].
    rewrite <- !app_assoc. cbn [app]. rewrite nth_dec, strchr_dec, parse_dec by (done || lia).
    unfold strlen in *. destruct (Z.ltb_spec (Z.of_nat (S (length (dec off))))
      (Z.of_nat (length (dec off)) + (1 + Z.of_nat (length (dec (off + len - 1)))))); [|lia].
    replace (drop (S (length (dec off))) (dec off ++ MINUS :: dec (off + len - 1) ++ rest))
      with (dec (off + len - 1) ++ rest)
      by (replace (S (length (dec off))) with (length (dec off) + 1)%nat by lia; by rewrite drop_app_add).
    rewrite parse_dec by (done || lia). cbn [length_].
    unfold size_diff. rewrite wraps_small by lia.
    destruct (Z.leb_spec off (off + len - 1 + 1)); [|lia].
    unfold known_spec, range_spec_unknown.
    replace (off + len - 1 + 1 - off) with len by lia.
    destruct (Z.eqb_spec len 0); [lia|]. by rewrite andb_false_r.
Qed.

Lemma range_spec_roundtrip_witness :
  httpHdrRangeSpecParseCreate (httpHdrRangeSpecPackInto (Spec 10 90) ++ bytes ",5-") 5 = Some (Spec 10 90).
Proof.
  refine (range_spec_roundtrip (Spec 10 90) (bytes ",5-") _ eq_refl).
  right; right. simpl. lia.
Defined.

(** ** Canonical ranges *)

(** The positions of a body of [clen] bytes that a range asks for. *)
Definition requested (spec : HttpHdrRangeSpec) (clen i : Z) : Prop :=
  0 <= i < clen /\
  if negb (known_spec (offset spec)) then clen - length_ spec <= i
  else if negb (known_spec (length_ spec)) then offset spec <= i
  else offset spec <= i < offset spec + length_ spec.

(** Each range that asks for something is replaced by the interval it asks for, the
    others are dropped. *)
Inductive canonical (clen : Z) : HttpHdrRange -> HttpHdrRange -> Prop :=
  | canonical_nil : canonical clen [] []
  | canonical_drop s l l' :
      (forall i, ~ requested s clen i) -> canonical clen l l' -> canonical clen (s :: l) l'
  | canonical_keep s s' l l' :
      0 <= offset s' -> 0 < length_ s' -> offset s' + length_ s' <= clen ->
      (forall i, offset s' <= i < offset s' + length_ s' <-> requested s clen i) ->
      canonical clen l l' -> canonical clen (s :: l) (s' :: l').

Lemma canonize_spec (spec : HttpHdrRangeSpec) (clen : Z) :
  spec_ok spec -> 0 <= clen ->
  let '(s', good) := httpHdrRangeSpecCanonize spec clen in
  (forall i, offset s' <= i < offset s' + length_ s' <-> requested spec clen i)
  /\ 0 <= offset s' /\ offset s' + length_ s' <= Z.max clen (offset s') /\ good = (0 <? length_ s').
Proof.
  destruct spec as [off len]. unfold spec_ok, httpHdrRangeSpecCanonize, requested, known_spec,
    range_spec_unknown, size_min, size_diff. cbn [offset length_].
  intros Hok Hc. repeat case_match; cbn [offset length_ negb] in *; btoprop;
    repeat match goal with Hz : negb _ = _ |- _ => rewrite ?negb_true_iff, ?negb_false_iff in Hz end;
    btoprop; (split; [intros i|]); lia.
Qed.

Lemma canonize_each_canonical (range : HttpHdrRange) (clen : Z) :
  Forall spec_ok range -> 0 <= clen -> canonical clen range (canonize_each range clen).
Proof.
  intros Hok Hc. induction Hok as [|s l Hs _ IH]; [constructor|]. cbn [canonize_each].
  pose proof (canonize_spec s clen Hs Hc) as H.
  destruct (httpHdrRangeSpecCanonize s clen) as [s' good]. destruct H as (H1 & H2 & H3 & ->).
  destruct (Z.ltb_spec 0 (length_ s')).
  - constructor; [done|done|lia|done|done].
  - constructor; [|done]. intros i Hi%H1. lia.
Qed.

Lemma merge_goods_id (goods : HttpHdrRange) : merge_goods goods = goods.
Proof.
  unfold merge_goods.
  enough (E : forall acc, foldl (fun specs spec => spec :: pop_merged spec specs) acc goods
                          = rev goods ++ acc)
    by (by rewrite E, app_nil_r, rev_involutive).
  induction goods as [|s goods IH]; intros acc; [done|]. cbn [foldl rev].
  replace (pop_merged s acc) with acc by (by destruct acc). rewrite IH. by rewrite <- app_assoc.
Qed.

Lemma complex_sorted (range : HttpHdrRange) : forall off,
  Forall (fun s => 0 < length_ s) range ->
  complex_from off range = false <->
  Forall (fun s => off <= offset s) range
  /\ StronglySorted (fun a b => offset a + length_ a <= offset b) range.
Proof.
  induction range as [|s l IH]; intros off Hl; cbn [complex_from].
  { split; [split; constructor|done]. }
  apply Forall_cons in Hl as [Hs Hl]. destruct (Z.ltb_spec (offset s) off) as [Hlt|Hge].
  - split; [done|]. intros [Hf _]. apply Forall_cons in Hf as [Hf _]. lia.
  - rewrite IH by done. split.
    + intros [Hf Hss]. split; [|by constructor]. constructor; [done|].
      eapply Forall_impl; [exact Hf|]. simpl. lia.
    + intros [Hf Hss]. apply StronglySorted_inv in Hss as [Hss Hfs]. done.
Qed.

Lemma canonical_facts (clen : Z) (l l' : HttpHdrRange) :
  canonical clen l l' ->
  Forall (fun s => 0 <= offset s) l' /\ Forall (fun s => 0 < length_ s) l'
  /\ (l' <> [] <-> exists s i, s ∈ l /\ requested s clen i).
Proof.
  induction 1 as [|s l l' Hno _ (H1 & H2 & H3)|s s' l l' Ho Hl Hc Hi _ (H1 & H2 & H3)].
  - split_and!; [done|done|]. split; [done|]. intros (s & i & Hs & _). by apply not_elem_of_nil in Hs.
  - split_and!; [done|done|]. rewrite H3. split; intros (x & i & Hx & Hi).
    + exists x, i. split; [by right|done].
    + apply elem_of_cons in Hx as [->|Hx]; [by apply Hno in Hi|]. by exists x, i.
  - split_and!; [by constructor|by constructor|]. split; [intros _|done].
    exists s, (offset s'). split; [by left|]. apply Hi. lia.
Qed.

(** Once the length of the body is known, every range of the request is
    replaced by the interval of existing bytes it asks for, in the order of
    the header, and the ranges that ask for none are dropped; the set is valid
    exactly when some byte is asked for, and it is taken as simple exactly
    when the intervals are in increasing order and do not overlap. *)
Lemma range_canonize (range : HttpHdrRange) (clen : Z) :
  Forall spec_ok range -> 0 <= clen ->
  let '(range', valid) := httpHdrRangeCanonize range clen in
  canonical clen range range'
  /\ (valid = true <-> exists s i, s ∈ range /\ requested s clen i)
  /\ (httpHdrRangeIsComplex range' = false
      <-> StronglySorted (fun a b => offset a + length_ a <= offset b) range').
Proof.
  intros Hok Hc. unfold httpHdrRangeCanonize. rewrite merge_goods_id.
  pose proof (canonize_each_canonical range clen Hok Hc) as Hcan.
  destruct (canonical_facts _ _ _ Hcan) as (H1 & H2 & H3).
  split_and!; [done| |].
  - by rewrite bool_decide_eq_true.
  - unfold httpHdrRangeIsComplex. rewrite complex_sorted by done. naive_solver.
Qed.

Lemma range_canonize_witness :
  let range := httpHdrRangeParseInit (bytes "bytes=0-4,90-,-2,200-300") in
  httpHdrRangeCanonize range 100 = ([Spec 0 5; Spec 90 10; Spec 98 2], true)
  /\ canonical 100 range [Spec 0 5; Spec 90 10; Spec 98 2].
Proof.
  intros range. split; [by vm_compute|].
  refine (proj1 (range_canonize range 100 _ _)); [|done].
  assert (E : range = [Spec 0 5; Spec 90 (-1); Spec (-1) 2; Spec 200 101]) by (by vm_compute).
  rewrite E. unfold spec_ok, range_spec_unknown. repeat constructor; simpl; lia.
Defined.
