(* ===== verification/Header.v ===== *)
(** * Header: the headers of HTTP messages

    v3.0/src/squid-mybox/src/HttpHeader.c: the table of the fields, the parser with
    its strict and relaxed modes, and the operations on a header: an array of
    entries with gaps, a mask of the fields that are there, and the length of the
    packed text.  [None] is a failed assertion.  The counters of the cache manager
    are left out. *)

From S2P Require Import Prelude CString Escape Range.
Import Base64.

Module Header.

(** ** Fields *)

(** [Headers], in the order of the ids. *)
Definition Headers : list (list Z) := map bytes
  ["Accept"; "Accept-Charset"; "Accept-Encoding"; "Accept-Language"; "Accept-Ranges"; "Age"; "Allow"; "Authorization"; "Cache-Control";
   "Connection"; "Content-Base"; "Content-Disposition"; "Content-Encoding"; "Content-Language"; "Content-Length"; "Content-Location";
   "Content-MD5"; "Content-Range"; "Content-Type"; "Cookie"; "Date"; "ETag"; "Expires"; "From"; "Host"; "If-Match"; "If-Modified-Since";
   "If-None-Match"; "If-Range"; "Last-Modified"; "Link"; "Location"; "Max-Forwards"; "Mime-Version"; "Pragma"; "Proxy-Authenticate";
   "Proxy-Authentication-Info"; "Proxy-Authorization"; "Proxy-Connection"; "Public"; "Range"; "Request-Range"; "Referer"; "Retry-After";
   "Server"; "Set-Cookie"; "Title"; "Transfer-Encoding"; "Upgrade"; "User-Agent"; "Vary"; "Via"; "Warning"; "WWW-Authenticate";
   "Authentication-Info"; "X-Cache"; "X-Cache-Lookup"; "X-Forwarded-For"; "X-Request-URI"; "X-Squid-Error"; "Negotiate"; "Other:"]%string.

Definition HDR_CACHE_CONTROL : Z := 8.
Definition HDR_CONNECTION : Z := 9.
Definition HDR_CONTENT_LENGTH : Z := 14.
Definition HDR_CONTENT_RANGE : Z := 17.
Definition HDR_PROXY_CONNECTION : Z := 38.
Definition HDR_RANGE : Z := 40.
Definition HDR_REQUEST_RANGE : Z := 41.
Definition HDR_OTHER : Z := 61.
Definition HDR_ENUM_END : Z := 62.

(** [ListHeadersArr]: fields whose values are lists. *)
Definition ListHeaders : list Z := [0; 1; 2; 3; 4; 6; 8; 12; 13; 9; 25; 27; 30; 34; 38; 47; 48; 50; 51; 53; 54; 36; 57].

Definition header_name (id : Z) : list Z := nth (Z.to_nat id) Headers [].

(** [httpHeaderIdByName] in a table, with the length of the name; -1 when it is not there. *)
Fixpoint id_by_name (name : list Z) (info : list (list Z)) (i : Z) : Z :=
  match info with
  | [] => -1
  | n :: info => if strcasecmp_eq name n then i else id_by_name name info (i + 1)
  end.
Definition httpHeaderIdByName (name : list Z) (info : list (list Z)) : Z := id_by_name name info 0.

(** ** Data *)

Record entry := Entry { id : Z; name : list Z; value : list Z }.

Record header := Hdr { entries : list (option entry); mask : Z; len : Z }.

Definition httpHeaderInit : header := Hdr [] 0 0.

(** [Config.onoff.relaxed_header_parser], not 0, and the name of the host. *)
Record config := Config { relaxed : bool; myhost : list Z }.

Definition CBIT_TEST (m id : Z) : bool := Z.testbit m id.
Definition entry_len (e : entry) : Z := strlen (name e) + 2 + strlen (value e) + 2.

(** ** Entries *)

Definition httpHeaderEntryCreate (id : Z) (name value : list Z) : entry := Entry id (if id =? HDR_OTHER then name else header_name id) value.
Definition httpHeaderEntryClone (e : entry) : entry := httpHeaderEntryCreate (id e) (name e) (value e).

Fixpoint drop_space (s : list Z) : list Z :=
  match s with c :: s' => if isspace c then drop_space s' else s | [] => [] end.
(** Without the white space at its end. *)
Definition rtrim (s : list Z) : list Z := rev (drop_space (rev s)).

Definition max_string : Z := 65534.

(** What follows the name of this host and [.nofilter] is the end of a value. *)
Definition cut_nofilter (h value : list Z) : list Z :=
  let n := length value in
  if (9 <? n)%nat && strcasecmp_eq (drop (n - 9) value) (bytes ".nofilter") then
    if (length h <=? n - 10)%nat && bool_decide (take (length h) (drop (n - 9 - length h) value) = map tolower h)
       && bool_decide (value !! (n - 10 - length h)%nat = Some 46)
    then take (n - 10 - length h) value else value
  else value.

(** The field from its start to its end. *)
Definition httpHeaderEntryParseCreate (cfg : config) (field : list Z) : option entry :=
  match strchr field 58 with
  | None | Some O => None
  | Some n =>
      if max_string <? Z.of_nat n then None
      else
        let nm := if relaxed cfg then rtrim (take n field) else take n field in
        if bool_decide (nm = []) then None
        else
          let i := httpHeaderIdByName nm Headers in
          let i := if i <? 0 then HDR_OTHER else i in
          let v := rtrim (drop_space (drop (S n) field)) in
          if max_string <? strlen v then None
          else Some (httpHeaderEntryCreate i nm (cut_nofilter (myhost cfg) v))
  end.

Definition CRLF : list Z := [13; 10].
Definition httpHeaderEntryPackInto (e : entry) : list Z := name e ++ bytes ": " ++ value e ++ CRLF.

(** ** Operations *)

(** The valid entries, as [httpHeaderGetEntry] gives them one after the other. *)
Definition httpHeaderGetEntry (hdr : header) : list entry := omap (fun e => e) (entries hdr).

Definition httpHeaderAddEntry (hdr : header) (e : entry) : header :=
  Hdr (entries hdr ++ [Some e]) (Z.setbit (mask hdr) (id e)) (len hdr + entry_len e).

Definition httpHeaderInsertEntry (hdr : header) (e : entry) (pos : nat) : header :=
  Hdr (take pos (entries hdr) ++ Some e :: drop pos (entries hdr)) (Z.setbit (mask hdr) (id e)) (len hdr + entry_len e).

Definition is_list_header (i : Z) : bool := bool_decide (i ∈ ListHeaders).

(** The first entry; a field of the mask that is not there fails an assertion. *)
Definition httpHeaderFindEntry (hdr : header) (i : Z) : option (option entry) :=
  if negb (i <? HDR_ENUM_END) || is_list_header i then None
  else if negb (CBIT_TEST (mask hdr) i) then Some None
  else match List.find (fun e => id e =? i) (httpHeaderGetEntry hdr) with Some e => Some (Some e) | None => None end.

Definition httpHeaderFindLastEntry (hdr : header) (i : Z) : option (option entry) :=
  if negb (i <? HDR_ENUM_END) || is_list_header i then None
  else if negb (CBIT_TEST (mask hdr) i) then Some None
  else match last (List.filter (fun e => id e =? i) (httpHeaderGetEntry hdr)) with Some e => Some (Some e) | None => None end.

(** [httpHeaderDelAt] leaves a gap. *)
Fixpoint delete_where (p : entry -> bool) (l : list (option entry)) : list (option entry) :=
  match l with
  | [] => []
  | Some e :: l => (if p e then None else Some e) :: delete_where p l
  | None :: l => None :: delete_where p l
  end.
Definition deleted (p : entry -> bool) (hdr : header) : list entry := List.filter p (httpHeaderGetEntry hdr).
Definition lengths (l : list entry) : Z := fold_right Z.add 0 (map entry_len l).

(** The deleted entries leave gaps; each is taken off the length, which may not get negative. *)
Definition delete_entries (p : entry -> bool) (m : Z) (hdr : header) : option header :=
  let n := len hdr - lengths (deleted p hdr) in
  if negb (bool_decide (deleted p hdr = [])) && (n <? 0) then None else Some (Hdr (delete_where p (entries hdr)) m n).

(** The mask is built again from the entries that stay. *)
Definition httpHeaderDelByName (hdr : header) (nm : list Z) : option (Z * header) :=
  let p e := strcasecmp_eq (name e) nm in
  let m := fold_left (fun m e => Z.setbit m (id e)) (List.filter (fun e => negb (p e)) (httpHeaderGetEntry hdr)) 0 in
  h ← delete_entries p m hdr; Some (Z.of_nat (length (deleted p hdr)), h).

(** The mask has the field, so there must be an entry. *)
Definition httpHeaderDelById (hdr : header) (i : Z) : option (Z * header) :=
  if negb (i <? HDR_ENUM_END) || (i =? HDR_OTHER) then None
  else if negb (CBIT_TEST (mask hdr) i) then Some (0, hdr)
  else
    let p e := id e =? i in
    if bool_decide (deleted p hdr = []) then None
    else h ← delete_entries p (Z.clearbit (mask hdr) i) hdr; Some (Z.of_nat (length (deleted p hdr)), h).

Definition httpHeaderHas (hdr : header) (i : Z) : bool := CBIT_TEST (mask hdr) i.

Definition httpHeaderAppend (dest src : header) : header :=
  fold_left (fun h e => httpHeaderAddEntry h (httpHeaderEntryClone e)) (httpHeaderGetEntry src) dest.

Fixpoint update_with (old : header) (l : list entry) (denied_mask : option Z) : option header :=
  match l with
  | [] => Some old
  | e :: l =>
      if match denied_mask with Some m => CBIT_TEST m (id e) | None => false end then update_with old l denied_mask
      else '(_, h) ← httpHeaderDelByName old (name e); update_with (httpHeaderAddEntry h (httpHeaderEntryClone e)) l denied_mask
  end.
Definition httpHeaderUpdate (old fresh : header) (denied_mask : option Z) : option header :=
  update_with old (httpHeaderGetEntry fresh) denied_mask.

Definition httpHeaderPackInto (hdr : header) : list Z := concat (map httpHeaderEntryPackInto (httpHeaderGetEntry hdr)).

(** ** Lists of values *)

(** [stringAppend]: the size and the length of a string are 16 bits wide.  [None]: the
    assertion of [stringInitBuf] fails, at 65535 bytes, or the length has wrapped and the
    text is copied past the end of a buffer that is too small. *)
Definition stringAppend (s str : list Z) : option (list Z) := if max_string <? strlen s + strlen str then None else Some (s ++ str).

Definition strListAdd (str item : list Z) (del : Z) : option (list Z) :=
  str ← (if bool_decide (str = []) then Some str else stringAppend str [del; 32]);
  stringAppend str item.

Fixpoint joined (s : list Z) (l : list entry) : option (list Z) :=
  match l with
  | [] => Some s
  | e :: l => s ← strListAdd s (value e) COMMA; joined s l
  end.

(** [None] is a failed assertion, [Some None] that there is no such field. *)
Definition httpHeaderGetList (hdr : header) (i : Z) : option (option (list Z)) :=
  if negb (is_list_header i) then None
  else if negb (CBIT_TEST (mask hdr) i) then Some None
  else
    match List.filter (fun e => id e =? i) (httpHeaderGetEntry hdr) with
    | [] => None
    | l => s ← joined [] l; Some (Some s)
    end.

Definition httpHeaderGetStrOrList (hdr : header) (i : Z) : option (option (list Z)) :=
  if is_list_header i then httpHeaderGetList hdr i
  else match httpHeaderFindEntry hdr i with Some e => Some (option_map value e) | None => None end.

(** An unknown name is searched among the other fields. *)
Definition httpHeaderGetByName (hdr : header) (nm : list Z) : option (option (list Z)) :=
  let i := httpHeaderIdByName nm Headers in
  if negb (i =? -1) then httpHeaderGetStrOrList hdr i
  else
    match List.filter (fun e => (id e =? HDR_OTHER) && strcasecmp_eq (name e) nm) (httpHeaderGetEntry hdr) with
    | [] => Some None
    | l => s ← joined [] l; Some (Some s)
    end.

(** The items of a list: the text that starts with the item, and its length.  The text
    given to [strListGetItem] starts with the delimiter before the item. *)
Fixpoint items_from (fuel : nat) (del : Z) (pos : list Z) : list (list Z * nat) :=
  match fuel with
  | O => []
  | S fuel =>
      match strListGetItem del pos with
      | None => []
      | Some (item, ilen, pos) => (item, ilen) :: items_from fuel del pos
      end
  end.
Definition items (del : Z) (str : list Z) : list (list Z * nat) := items_from (S (S (length str))) del (del :: str).

Definition strListIsMember (str m : list Z) (del : Z) : bool :=
  existsb (fun it => (length m =? it.2)%nat && strcasecmp_eq (take it.2 it.1) m) (items del str).

(** What follows [member=] in the first item that starts so; [None] when the item ends before. *)
Definition list_member (str member : list Z) (separator : Z) : option (list Z) :=
  match List.find (fun it => bool_decide (take (length member) it.1 = member) && (nth (length member) it.1 0 =? 61)) (items separator str) with
  | Some (item, ilen) => if (ilen <=? length member)%nat then None else Some (take (ilen - length member - 1) (drop (S (length member)) item))
  | None => Some []
  end.

Definition member_of (header : option (option (list Z))) (member : list Z) (separator : Z) : option (list Z) :=
  match header with
  | None => None
  | Some None => Some []
  | Some (Some str) => list_member str member separator
  end.

Definition httpHeaderGetByNameListMember (hdr : header) (nm member : list Z) (separator : Z) : option (list Z) :=
  member_of (httpHeaderGetByName hdr nm) member separator.
Definition httpHeaderGetListMember (hdr : header) (i : Z) (member : list Z) (separator : Z) : option (list Z) :=
  member_of (httpHeaderGetStrOrList hdr i) member separator.

(** The connection directives: Proxy-Connection hides Connection. *)
Definition httpHeaderHasConnDir (hdr : header) (directive : list Z) : option bool :=
  let ht := if httpHeaderHas hdr HDR_PROXY_CONNECTION then Some HDR_PROXY_CONNECTION
            else if httpHeaderHas hdr HDR_CONNECTION then Some HDR_CONNECTION else None in
  match ht with
  | None => Some false
  | Some ht => match httpHeaderGetList hdr ht with Some (Some l) => Some (strListIsMember l directive COMMA) | Some None => Some false | None => None end
  end.

(** ** Fields of one type *)

Inductive field_type := ftInt | ftStr | ftDate_1123 | ftETag | ftPCc | ftPContRange | ftPRange | ftDate_1123_or_ETag | ftSize.

Definition type_of (i : Z) : field_type :=
  if bool_decide (i ∈ [5; 32]) then ftInt
  else if bool_decide (i ∈ [20; 22; 26; 29]) then ftDate_1123
  else if i =? 21 then ftETag
  else if i =? HDR_CACHE_CONTROL then ftPCc
  else if i =? HDR_CONTENT_RANGE then ftPContRange
  else if bool_decide (i ∈ [HDR_RANGE; HDR_REQUEST_RANGE]) then ftPRange
  else if i =? 28 then ftDate_1123_or_ETag
  else if i =? HDR_CONTENT_LENGTH then ftSize
  else ftStr.

#[export] Instance field_type_eq_dec : EqDecision field_type.
Proof. solve_decision. Defined.

Definition has_type (i : Z) (t : field_type) : bool := (0 <=? i) && (i <? HDR_ENUM_END) && bool_decide (type_of i = t).

(** [xitoa], [%d] *)
Definition httpHeaderPutInt (hdr : header) (i number : Z) : option header :=
  if has_type i ftInt && (0 <=? number) then Some (httpHeaderAddEntry hdr (httpHeaderEntryCreate i [] (dec number))) else None.
Definition httpHeaderPutSize (hdr : header) (i number : Z) : option header :=
  if has_type i ftSize && (0 <=? number) then Some (httpHeaderAddEntry hdr (httpHeaderEntryCreate i [] (dec number))) else None.
Definition httpHeaderPutStr (hdr : header) (i : Z) (str : list Z) : option header :=
  if has_type i ftStr then Some (httpHeaderAddEntry hdr (httpHeaderEntryCreate i [] str)) else None.
Definition httpHeaderPutExt (hdr : header) (nm val : list Z) : header := httpHeaderAddEntry hdr (httpHeaderEntryCreate HDR_OTHER nm val).

(** The value of the first entry, with the assertion on the type. *)
Definition get_typed {A : Type} (t : field_type) (hdr : header) (i : Z) (f : option (list Z) -> A) : option A :=
  if has_type i t then match httpHeaderFindEntry hdr i with Some e => Some (f (option_map value e)) | None => None end else None.

(** [httpHeaderParseInt] leaves 0 in [value] when it refuses. *)
Definition httpHeaderParseInt (start : list Z) : bool * Z :=
  let v := atoi start in (negb (v =? 0) || match start with c :: _ => isdigit c | [] => false end, v).

Definition httpHeaderGetInt (hdr : header) (i : Z) : option Z :=
  get_typed ftInt hdr i (fun v => match v with Some s => (httpHeaderParseInt s).2 | None => -1 end).
Definition httpHeaderGetSize (hdr : header) (i : Z) : option Z :=
  get_typed ftSize hdr i (fun v => match v with Some s => default 0 (httpHeaderParseSize s) | None => -1 end).
Definition httpHeaderGetStr (hdr : header) (i : Z) : option (option (list Z)) := get_typed ftStr hdr i (fun v => v).
Definition httpHeaderGetLastStr (hdr : header) (i : Z) : option (option (list Z)) :=
  if has_type i ftStr then match httpHeaderFindLastEntry hdr i with Some e => Some (option_map value e) | None => None end else None.

(** The ranges of a request, from Range or, without it, from Request-Range. *)
Definition valid_range (e : option entry) : option HttpHdrRange :=
  match e with
  | Some e => let r := httpHdrRangeParseInit (value e) in if bool_decide (r = []) then None else Some r
  | None => None
  end.

Definition httpHeaderGetRange (hdr : header) : option (option HttpHdrRange) :=
  match httpHeaderFindEntry hdr HDR_RANGE with
  | None => None
  | Some (Some e) => Some (valid_range (Some e))
  | Some None => match httpHeaderFindEntry hdr HDR_REQUEST_RANGE with None => None | Some e => Some (valid_range e) end
  end.

(** Basic and the like: the decoded text after the scheme. *)
Definition httpHeaderGetAuth (hdr : header) (i : Z) (auth_scheme : list Z) : option (option (list Z)) :=
  match httpHeaderGetStr hdr i with
  | None => None
  | Some None => Some None
  | Some (Some field) =>
      let l := length auth_scheme in
      if (l =? 0)%nat || negb (strcasecmp_eq (take l field) auth_scheme) then Some None
      else
        let field := drop l field in
        if negb (match field with c :: _ => isspace c | [] => false end) then Some None
        else
          let field := drop (count_ws field) field in
          if bool_decide (field = []) then Some None else Some (Some (cstr (base64_decode field)))
  end.

(** ** The parser *)

(** A line: its text without the CRs in front of the LF (two in relaxed mode), what was
    left out of it, and what follows; [None] without an LF. *)
Definition read_line (cfg : config) (s : list Z) : option (list Z * list Z * list Z) :=
  match strchr s 10 with
  | None => None
  | Some n =>
      let l := take n s in
      let rest := drop (S n) s in
      let cut l := bool_decide (last l = Some 13) in
      if cut l then
        let l1 := removelast l in
        if relaxed cfg && (1 <? length l1)%nat && cut l1 then Some (removelast l1, [13; 13; 10], rest) else Some (l1, [13; 10], rest)
      else Some (l, [10], rest)
  end.

Definition unfold_cr (l : list Z) : list Z := map (fun c => if c =? 13 then 32 else c) l.

(** A field with its continuation lines, from [acc] on, and what follows; [None] resets
    the header. *)
Fixpoint read_field (fuel : nat) (cfg : config) (acc s : list Z) : option (list Z * list Z) :=
  match fuel with
  | O => None
  | S fuel =>
      '(l, eol, rest) ← read_line cfg s;
      if bool_decide (13 ∈ l) && negb (relaxed cfg) then None
      else
        let l := unfold_cr l in
        if (length l =? 1)%nat && negb (bool_decide (acc = [])) then None
        else
          match rest with
          | c :: _ => if (c =? 32) || (c =? 9) then read_field fuel cfg (acc ++ l ++ eol) rest else Some (acc ++ l, rest)
          | [] => Some (acc ++ l, rest)
          end
  end.

(** [w_space] *)
Definition stringHasWhitespace (s : list Z) : bool := existsb (fun c => bool_decide (c ∈ [32; 9; 10; 13])) s.

(** What happens to a new entry. *)
Inductive decision := Add (hdr : header) | Skip | Reset.

(** A second Content-Length: in relaxed mode the larger one stays. *)
Definition content_length (cfg : config) (hdr : header) (e e2 : entry) : option decision :=
  if negb (relaxed cfg) then Some Reset
  else if bool_decide (value e = value e2) then Some Skip
  else
    match httpHeaderParseSize (value e) with
    | None => Some Skip
    | Some l1 =>
        if match httpHeaderParseSize (value e2) with None => true | Some l2 => l2 <? l1 end
        then match httpHeaderDelById hdr (id e2) with Some (_, hdr) => Some (Add hdr) | None => None end
        else Some Skip
    end.

Definition decide_entry (cfg : config) (hdr : header) (e : entry) : option decision :=
  d ← (if id e =? HDR_CONTENT_LENGTH then
         match httpHeaderFindEntry hdr (id e) with
         | None => None
         | Some None => Some (Add hdr)
         | Some (Some e2) => content_length cfg hdr e e2
         end
       else Some (Add hdr));
  Some (match d with
        | Add _ => if (id e =? HDR_OTHER) && stringHasWhitespace (name e) && negb (relaxed cfg) then Reset else d
        | _ => d
        end).

Fixpoint parse_fields (fuel : nat) (cfg : config) (s : list Z) (hdr : header) : option (Z * header) :=
  match s with
  | [] => Some (1, hdr)
  | _ =>
      match fuel with
      | O => None
      | S fuel =>
          match read_field (S (length s)) cfg [] s with
          | None => Some (0, httpHeaderInit)
          | Some ([], []) => Some (1, hdr)
          | Some ([], _) => Some (0, httpHeaderInit)
          | Some (field, rest) =>
              match httpHeaderEntryParseCreate cfg field with
              | None => if relaxed cfg then parse_fields fuel cfg rest hdr else Some (0, httpHeaderInit)
              | Some e =>
                  d ← decide_entry cfg hdr e;
                  match d with
                  | Add hdr => parse_fields fuel cfg rest (httpHeaderAddEntry hdr e)
                  | Skip => parse_fields fuel cfg rest hdr
                  | Reset => Some (0, httpHeaderInit)
                  end
              end
          end
      end
  end.

(** The text between [header_start] and [header_end]. *)
Definition httpHeaderParse (cfg : config) (s : list Z) (hdr : header) : option (Z * header) :=
  if bool_decide (0 ∈ s) then Some (0, httpHeaderInit) else parse_fields (S (length s)) cfg s hdr.

(** ** The invariant *)

(** The mask has a bit for every field that is there and no other, and the length is that of the packed text. *)
Record ok (hdr : header) : Prop := {
  ok_mask : forall i, CBIT_TEST (mask hdr) i = true <-> exists e, e ∈ httpHeaderGetEntry hdr /\ id e = i;
  ok_ids : Forall (fun e => 0 <= id e < HDR_ENUM_END) (httpHeaderGetEntry hdr);
  ok_len : len hdr = lengths (httpHeaderGetEntry hdr)
}.

Lemma lengths_app (l1 l2 : list entry) : lengths (l1 ++ l2) = lengths l1 + lengths l2.
Proof. unfold lengths. induction l1 as [|e l1 IH]; [done|]. cbn [app map fold_right]. lia. Qed.

Lemma lengths_split (p : entry -> bool) (l : list entry) : lengths l = lengths (List.filter p l) + lengths (List.filter (fun e => negb (p e)) l).
Proof. unfold lengths. induction l as [|e l IH]; [done|]. cbn [List.filter]. destruct (p e); cbn [negb map fold_right] in *; lia. Qed.

Lemma get_add (hdr : header) (e : entry) : httpHeaderGetEntry (httpHeaderAddEntry hdr e) = httpHeaderGetEntry hdr ++ [e].
Proof. unfold httpHeaderGetEntry, httpHeaderAddEntry. cbn [entries]. by rewrite omap_app. Qed.

Lemma get_delete (p : entry -> bool) (l : list (option entry)) : omap (fun e => e) (delete_where p l) = List.filter (fun e => negb (p e)) (omap (fun e => e) l).
Proof. induction l as [|[e|] l IH]; cbn; [done | | exact IH]. destruct (p e); cbn; by rewrite IH. Qed.

Lemma elem_of_filter_bool (p : entry -> bool) (l : list entry) (e : entry) : e ∈ List.filter p l <-> e ∈ l /\ p e = true.
Proof. rewrite !list_elem_of_In. apply filter_In. Qed.

Lemma init_ok : ok httpHeaderInit.
Proof. split; [|constructor | done]. intros i. unfold CBIT_TEST. cbn. rewrite Z.bits_0. split; [done|]. by intros (e & ?%not_elem_of_nil & _). Qed.

Lemma add_ok (hdr : header) (e : entry) : ok hdr -> 0 <= id e < HDR_ENUM_END -> ok (httpHeaderAddEntry hdr e).
Proof.
  intros [H1 H2 H3] He. split; rewrite get_add.
  - intros i. unfold CBIT_TEST in *. cbn [mask httpHeaderAddEntry]. rewrite Z.setbit_eqb, orb_true_iff, Z.eqb_eq, H1 by lia. split.
    + intros [<-|(e' & Hin & <-)]; [exists e | exists e']; (split; [|done]); apply elem_of_app; [right; left | by left].
    + intros (e' & [Hin| ->%list_elem_of_singleton]%elem_of_app & <-); [right; by exists e' | by left].
  - apply Forall_app. by split; [|constructor].
  - cbn [len httpHeaderAddEntry]. rewrite lengths_app, H3. unfold lengths. cbn. lia.
Qed.

Lemma insert_ok (hdr : header) (e : entry) (pos : nat) : ok hdr -> 0 <= id e < HDR_ENUM_END -> ok (httpHeaderInsertEntry hdr e pos).
Proof.
  intros [H1 H2 H3] He. unfold httpHeaderGetEntry in *. rewrite <- (take_drop pos (entries hdr)) in H1, H2, H3. rewrite omap_app in H1, H2, H3.
  assert (E : omap (fun e => e) (entries (httpHeaderInsertEntry hdr e pos)) = omap (fun e => e) (take pos (entries hdr)) ++ e :: omap (fun e => e) (drop pos (entries hdr)))
    by (unfold httpHeaderInsertEntry; cbn [entries]; by rewrite omap_app).
  split; unfold httpHeaderGetEntry; rewrite E.
  - intros i. unfold CBIT_TEST in *. cbn [mask httpHeaderInsertEntry]. rewrite Z.setbit_eqb, orb_true_iff, Z.eqb_eq, H1 by lia.
    setoid_rewrite elem_of_app. setoid_rewrite elem_of_cons. naive_solver.
  - apply Forall_app in H2 as [? ?]. apply Forall_app. by split; [|constructor].
  - cbn [len httpHeaderInsertEntry]. rewrite H3, !lengths_app. unfold lengths. cbn [map fold_right]. lia.
Qed.

Lemma find_ok (hdr : header) (i : Z) : ok hdr -> i < HDR_ENUM_END -> is_list_header i = false ->
  httpHeaderFindEntry hdr i = Some (List.find (fun e => id e =? i) (httpHeaderGetEntry hdr)).
Proof.
  intros [H1 _ _] Hi Hl. unfold httpHeaderFindEntry. rewrite (proj2 (Z.ltb_lt _ _)), Hl by done. cbn [negb orb].
  destruct (List.find _ _) as [e|] eqn:E.
  - apply List.find_some in E as [Hin%list_elem_of_In Hid%Z.eqb_eq]. by rewrite (proj2 (H1 i)) by (by exists e).
  - destruct (CBIT_TEST (mask hdr) i) eqn:Em; [|done]. apply H1 in Em as (e & Hin%list_elem_of_In & Hid).
    by apply (List.find_none _ _ E), Z.eqb_neq in Hin.
Qed.

Lemma lengths_pos (l : list entry) : 0 <= lengths l.
Proof. unfold lengths. induction l as [|e l IH]; cbn [map fold_right]; [done|]. unfold entry_len, strlen in *. lia. Qed.

Lemma delete_ok (hdr : header) (p : entry -> bool) (m : Z) :
  ok hdr -> (forall i, CBIT_TEST m i = true <-> exists e, e ∈ httpHeaderGetEntry hdr /\ id e = i /\ p e = false) ->
  exists h, delete_entries p m hdr = Some h /\ ok h /\ httpHeaderGetEntry h = List.filter (fun e => negb (p e)) (httpHeaderGetEntry hdr).
Proof.
  intros [H1 H2 H3] Hm. unfold delete_entries. pose proof (lengths_split p (httpHeaderGetEntry hdr)) as Hs. fold (deleted p hdr) in Hs.
  pose proof (lengths_pos (List.filter (fun e => negb (p e)) (httpHeaderGetEntry hdr))). rewrite (proj2 (Z.ltb_ge _ _)), andb_false_r by lia.
  eexists. split; [reflexivity|]. split; [|apply get_delete]. split; unfold httpHeaderGetEntry; cbn [entries]; rewrite get_delete; fold (httpHeaderGetEntry hdr).
  - intros i. cbn [mask]. rewrite Hm. split.
    + intros (e & Hin & <- & Hp). exists e. rewrite elem_of_filter_bool, Hp. done.
    + intros (e & [Hin Hp%negb_true_iff]%elem_of_filter_bool & <-). by exists e.
  - rewrite Forall_forall in H2 |- *. intros e [Hin _]%elem_of_filter_bool. by apply H2.
  - cbn [len]. lia.
Qed.

Lemma filter_all (p : entry -> bool) (l : list entry) : (forall e, e ∈ l -> p e = true) -> List.filter p l = l.
Proof.
  intros H. induction l as [|e l IH]; [done|]. cbn [List.filter]. rewrite H by left. f_equal. apply IH. intros e' He'. apply H. by right.
Qed.

Lemma del_by_id_ok (hdr : header) (i : Z) : ok hdr -> 0 <= i < HDR_OTHER ->
  exists n hdr', httpHeaderDelById hdr i = Some (n, hdr') /\ ok hdr'
    /\ httpHeaderGetEntry hdr' = List.filter (fun e => negb (id e =? i)) (httpHeaderGetEntry hdr).
Proof.
  intros Hok Hi. pose proof Hok as [H1 _ _]. unfold httpHeaderDelById. unfold HDR_OTHER, HDR_ENUM_END in *.
  rewrite (proj2 (Z.ltb_lt _ _)) by lia. rewrite (proj2 (Z.eqb_neq _ _)) by lia. cbn [negb orb].
  destruct (CBIT_TEST (mask hdr) i) eqn:Em; cbn [negb].
  - pose proof Em as (e & Hin & Hid)%H1. assert (He : e ∈ deleted (fun e => id e =? i) hdr) by (apply elem_of_filter_bool; split; [done | by apply Z.eqb_eq]).
    rewrite bool_decide_eq_false_2 by (intros Ed; rewrite Ed in He; by apply not_elem_of_nil in He).
    destruct (delete_ok hdr (fun e => id e =? i) (Z.clearbit (mask hdr) i) Hok) as (h & -> & Hh & Eh); [|by eexists _, h].
    intros j. unfold CBIT_TEST in *. rewrite Z.clearbit_eqb, andb_true_iff, negb_true_iff, Z.eqb_neq, H1. split.
    + intros [(e1 & Hin1 & <-) Hne]. exists e1. split; [done|]. split; [done|]. apply Z.eqb_neq. congruence.
    + intros (e1 & Hin1 & <- & Hne%Z.eqb_neq). split; [by exists e1 | congruence].
  - exists 0, hdr. split; [done|]. split; [done|]. symmetry. apply filter_all. intros e He. apply negb_true_iff, Z.eqb_neq. intros Hid.
    rewrite (proj2 (H1 i)) in Em by (by exists e). done.
Qed.

Lemma set_bits (l : list entry) (m i : Z) : Forall (fun e => 0 <= id e) l ->
  CBIT_TEST (fold_left (fun m e => Z.setbit m (id e)) l m) i = true <-> CBIT_TEST m i = true \/ exists e, e ∈ l /\ id e = i.
Proof.
  intros H. revert m. induction H as [|e l He Hl IH]; intros m; cbn [fold_left].
  - split; [by left|]. by intros [?|(e & ?%not_elem_of_nil & _)].
  - rewrite IH. unfold CBIT_TEST. rewrite Z.setbit_eqb, orb_true_iff, Z.eqb_eq by done. setoid_rewrite elem_of_cons. naive_solver.
Qed.

Lemma del_by_name_ok (hdr : header) (nm : list Z) : ok hdr ->
  exists n h, httpHeaderDelByName hdr nm = Some (n, h) /\ ok h
    /\ httpHeaderGetEntry h = List.filter (fun e => negb (strcasecmp_eq (name e) nm)) (httpHeaderGetEntry hdr).
Proof.
  intros Hok. pose proof Hok as [_ H2 _]. unfold httpHeaderDelByName.
  edestruct (delete_ok hdr (fun e => strcasecmp_eq (name e) nm)) as (h & -> & Hh & Eh); [exact Hok | | by eexists _, h]. intros i. rewrite set_bits.
  - unfold CBIT_TEST. rewrite Z.bits_0. setoid_rewrite elem_of_filter_bool. setoid_rewrite negb_true_iff. naive_solver.
  - rewrite Forall_forall in H2 |- *. intros e [Hin _]%elem_of_filter_bool. apply H2 in Hin. lia.
Qed.

Lemma clone_id (e : entry) : id (httpHeaderEntryClone e) = id e.
Proof. done. Qed.

Lemma append_ok (dest src : header) : ok dest -> ok src -> ok (httpHeaderAppend dest src).
Proof.
  intros Hd [_ H2 _]. unfold httpHeaderAppend. revert dest Hd. induction H2 as [|e l He _ IH]; intros dest Hd; cbn [fold_left]; [done|].
  apply IH. by apply add_ok.
Qed.

Lemma update_ok (old fresh : header) (m : option Z) : ok old -> ok fresh -> exists h, httpHeaderUpdate old fresh m = Some h /\ ok h.
Proof.
  intros Hd [_ H2 _]. unfold httpHeaderUpdate. revert old Hd. induction H2 as [|e l He _ IH]; intros old Hd; cbn [update_with]; [by exists old|].
  destruct (match m with Some m => _ | None => _ end); [by apply IH|]. destruct (del_by_name_ok old (name e) Hd) as (n & h & -> & Hh & _). cbn [mbind option_bind].
  apply IH. by apply add_ok.
Qed.

(** ** Values *)

(** The text of the joined values fits a string. *)
Lemma joined_fits (l : list entry) (s : list Z) :
  strlen s + fold_right (fun e n => 2 + strlen (value e) + n) 0 l <= max_string -> exists t, joined s l = Some t /\ strlen s <= strlen t.
Proof.
  revert s. induction l as [|e l IH]; intros s Hs; [by exists s|]. cbn [fold_right joined] in *.
  assert (Hp : 0 <= fold_right (fun e n => 2 + strlen (value e) + n) 0 l) by (clear; induction l as [|e l IH]; cbn [fold_right]; unfold strlen in *; lia).
  assert (He : 0 <= strlen (value e)) by (unfold strlen; lia).
  assert (Hstep : exists t, strListAdd s (value e) COMMA = Some t /\ strlen s <= strlen t <= strlen s + 2 + strlen (value e)).
  { unfold strListAdd, stringAppend. case_bool_decide as E.
    - cbn [mbind option_bind]. rewrite (proj2 (Z.ltb_ge _ _)) by lia. eexists. split; [done|]. rewrite strlen_app. lia.
    - change (strlen [COMMA; 32]) with 2. rewrite (proj2 (Z.ltb_ge _ _)) by lia. cbn [mbind option_bind].
      rewrite strlen_app. change (strlen [COMMA; 32]) with 2. rewrite (proj2 (Z.ltb_ge _ _)) by lia. eexists. split; [done|]. rewrite !strlen_app. change (strlen [COMMA; 32]) with 2. lia. }
  destruct Hstep as (t & -> & Ht). cbn [mbind option_bind]. destruct (IH t) as (u & -> & Hu); [lia|]. exists u. split; [done | lia].
Qed.

Lemma find_add (l : list entry) (e : entry) (i : Z) : List.find (fun x => id x =? i) l = None -> id e = i -> List.find (fun x => id x =? i) (l ++ [e]) = Some e.
Proof. intros Hl He. induction l as [|x l IH]; cbn in *; [by rewrite (proj2 (Z.eqb_eq _ _))|]. destruct (id x =? i); [done | by apply IH]. Qed.

(** A Content-Length that replaces the old one is read back. *)
Lemma size_put_get (hdr : header) (n : Z) : ok hdr -> 0 <= n < 2 ^ 63 ->
  exists k hdr1 hdr2, httpHeaderDelById hdr HDR_CONTENT_LENGTH = Some (k, hdr1) /\ httpHeaderPutSize hdr1 HDR_CONTENT_LENGTH n = Some hdr2
    /\ ok hdr2 /\ httpHeaderGetSize hdr2 HDR_CONTENT_LENGTH = Some n.
Proof.
  intros Hok Hn. destruct (del_by_id_ok hdr HDR_CONTENT_LENGTH Hok) as (k & h & E & Hh & Eg); [done|]. eexists k, h, _. split; [exact E|].
  unfold httpHeaderPutSize. change (has_type HDR_CONTENT_LENGTH ftSize) with true. rewrite (proj2 (Z.leb_le 0 n)) by lia. split; [reflexivity|].
  assert (Ha : ok (httpHeaderAddEntry h (httpHeaderEntryCreate HDR_CONTENT_LENGTH [] (dec n)))) by (by apply add_ok). split; [exact Ha|].
  unfold httpHeaderGetSize, get_typed. change (has_type HDR_CONTENT_LENGTH ftSize) with true. cbn iota. rewrite find_ok by done. rewrite get_add.
  rewrite (find_add _ (httpHeaderEntryCreate HDR_CONTENT_LENGTH [] (dec n))).
  - cbn [option_map value httpHeaderEntryCreate]. rewrite <- (app_nil_r (dec n)), parse_dec; [done | done | done].
  - rewrite Eg. clear. induction (httpHeaderGetEntry hdr) as [|x l IH]; [done|]. cbn [List.filter]. destruct (id x =? HDR_CONTENT_LENGTH) eqn:Ex; cbn [negb]; [exact IH|].
    cbn [List.find]. by rewrite Ex.
  - done.
Qed.

(** ** What the parser accepts *)

Definition is_length (e : entry) : bool := id e =? HDR_CONTENT_LENGTH.
Definition one_length (hdr : header) : Prop := (length (List.filter is_length (httpHeaderGetEntry hdr)) <= 1)%nat.

Lemma id_by_name_range (nm : list Z) (info : list (list Z)) (i : Z) : 0 <= i ->
  id_by_name nm info i = -1 \/ i <= id_by_name nm info i < i + Z.of_nat (length info).
Proof.
  revert i. induction info as [|n info IH]; intros i Hi; cbn [id_by_name length]; [by left|]. destruct (strcasecmp_eq nm n); [right; lia|].
  destruct (IH (i + 1)) as [->|?]; [lia | by left | right; lia].
Qed.

Lemma parsed_id (cfg : config) (field : list Z) (e : entry) : httpHeaderEntryParseCreate cfg field = Some e -> 0 <= id e < HDR_ENUM_END.
Proof.
  unfold httpHeaderEntryParseCreate. destruct (strchr field 58) as [[|n]|]; [done | | done]. destruct (_ <? _); [done|].
  set (nm := if relaxed cfg then _ else _). destruct (bool_decide _); [done|]. destruct (_ <? _); [done|]. intros [= <-]. cbn [id httpHeaderEntryCreate].
  destruct (id_by_name_range nm Headers 0) as [E|E]; [done | |]; unfold httpHeaderIdByName, HDR_OTHER, HDR_ENUM_END in *.
  - rewrite E. cbn. lia.
  - change (Z.of_nat (length Headers)) with 62 in E. rewrite (proj2 (Z.ltb_ge _ _)); lia.
Qed.

Lemma content_length_ok (cfg : config) (hdr : header) (e e2 : entry) :
  ok hdr -> id e = HDR_CONTENT_LENGTH -> id e2 = HDR_CONTENT_LENGTH ->
  exists d, content_length cfg hdr e e2 = Some d /\ match d with Add h => ok h /\ List.filter is_length (httpHeaderGetEntry h) = [] | _ => True end.
Proof.
  intros Hok He He2. unfold content_length. destruct (relaxed cfg); cbn [negb]; [|by exists Reset].
  case_bool_decide; [by exists Skip|]. destruct (httpHeaderParseSize (value e)) as [l1|]; [|by exists Skip].
  destruct (match httpHeaderParseSize (value e2) with Some l2 => l2 <? l1 | None => true end); [|by exists Skip].
  rewrite He2. destruct (del_by_id_ok hdr HDR_CONTENT_LENGTH Hok) as (n & h & -> & Hh & Eh); [done|]. exists (Add h). split; [done|]. split; [done|].
  rewrite Eh. clear. unfold is_length. induction (httpHeaderGetEntry hdr) as [|x l IH]; [done|]. cbn [List.filter].
  destruct (id x =? HDR_CONTENT_LENGTH) eqn:E; cbn [negb]; [exact IH|]. cbn [List.filter]. by rewrite E.
Qed.

Lemma one_add (h : header) (e : entry) : one_length h -> (is_length e = true -> List.filter is_length (httpHeaderGetEntry h) = []) -> one_length (httpHeaderAddEntry h e).
Proof.
  intros H1 H2. unfold one_length in *. rewrite get_add, List.filter_app, length_app. cbn [List.filter]. destruct (is_length e); cbn [length]; [|lia].
  rewrite H2 by done. cbn. lia.
Qed.

Lemma decide_ok (cfg : config) (hdr : header) (e : entry) :
  ok hdr -> one_length hdr -> 0 <= id e < HDR_ENUM_END ->
  exists d, decide_entry cfg hdr e = Some d /\ match d with Add h => ok h /\ ok (httpHeaderAddEntry h e) /\ one_length (httpHeaderAddEntry h e) | _ => True end.
Proof.
  intros Hok H1 He. assert (Hd : exists d, (if id e =? HDR_CONTENT_LENGTH then
       match httpHeaderFindEntry hdr (id e) with None => None | Some None => Some (Add hdr) | Some (Some e2) => content_length cfg hdr e e2 end
     else Some (Add hdr)) = Some d /\ match d with Add h => ok h /\ one_length h /\ (is_length e = true -> List.filter is_length (httpHeaderGetEntry h) = []) | _ => True end).
  { destruct (Z.eqb_spec (id e) HDR_CONTENT_LENGTH) as [E|E].
    - rewrite E, find_ok by done. destruct (List.find _ _) as [e2|] eqn:Ef.
      + apply List.find_some in Ef as [_ E2%Z.eqb_eq]. destruct (content_length_ok cfg hdr e e2 Hok E E2) as (d & -> & Hd). exists d. split; [done|].
        destruct d as [h| |]; [|done..]. destruct Hd as [Hh Hn]. split; [done|]. split; [|done]. unfold one_length. by rewrite Hn; cbn; lia.
      + exists (Add hdr). split; [done|]. split; [done|]. split; [done|]. intros _. clear -Ef. induction (httpHeaderGetEntry hdr) as [|x l IH]; [done|].
        cbn [List.find List.filter] in *. unfold is_length at 1. destruct (id x =? HDR_CONTENT_LENGTH); [done|]. by apply IH.
    - exists (Add hdr). split; [done|]. split; [done|]. split; [done|]. unfold is_length. by rewrite (proj2 (Z.eqb_neq _ _)). }
  destruct Hd as (d & Ed & Hd). unfold decide_entry. rewrite Ed. cbn [mbind option_bind]. eexists. split; [reflexivity|].
  destruct d as [h| |]; [|done..]. destruct (_ && negb (relaxed cfg)); [done|]. destruct Hd as (Hh & H2 & H3). split; [done|].
  split; [by apply add_ok | by apply one_add].
Qed.

Lemma read_line_rest (cfg : config) (s l eol rest : list Z) : read_line cfg s = Some (l, eol, rest) -> (length rest < length s)%nat.
Proof.
  unfold read_line. destruct (strchr s 10) as [n|] eqn:E; [|done].
  assert (Hn : (n < length s)%nat).
  { revert n E. induction s as [|c s IH]; intros n; cbn [strchr]; [done|]. destruct (c =? 10); [intros [= <-]; cbn; lia|].
    destruct (strchr s 10) as [m|]; [|done]. intros [= <-]. specialize (IH m eq_refl). cbn. lia. }
  assert (Hr : (length (drop (S n) s) < length s)%nat) by (rewrite length_drop; lia).
  destruct (bool_decide _); [destruct (_ && _)|]; intros [= _ _ <-]; done.
Qed.

Lemma read_field_rest (fuel : nat) (cfg : config) (acc s field rest : list Z) :
  read_field fuel cfg acc s = Some (field, rest) -> (length rest < length s)%nat.
Proof.
  revert acc s. induction fuel as [|fuel IH]; intros acc s; cbn [read_field]; [done|].
  destruct (read_line cfg s) as [[[l eol] r]|] eqn:El; [|done]. apply read_line_rest in El. cbn [mbind option_bind].
  destruct (_ && _); [done|]. cbn zeta. destruct (_ && _); [done|]. destruct r as [|c r]; [by intros [= _ <-]|].
  destruct (_ || _); [intros H%IH; lia | by intros [= _ <-]].
Qed.

Lemma parse_fields_ok (fuel : nat) (cfg : config) (s : list Z) (hdr : header) :
  (length s < fuel)%nat -> ok hdr -> one_length hdr ->
  exists r hdr', parse_fields fuel cfg s hdr = Some (r, hdr') /\ ok hdr' /\ one_length hdr' /\ (r = 1 \/ r = 0 /\ hdr' = httpHeaderInit).
Proof.
  assert (Hreset : exists r hdr', Some (0, httpHeaderInit) = Some (r, hdr') /\ ok hdr' /\ one_length hdr' /\ (r = 1 \/ r = 0 /\ hdr' = httpHeaderInit)).
  { exists 0, httpHeaderInit. split; [done|]. split; [apply init_ok|]. split; [unfold one_length; cbn; lia | by right]. }
  revert s hdr. induction fuel as [|fuel IH]; intros s hdr Hf Hok H1; [lia|]. destruct s as [|c s]; [by exists 1, hdr; repeat split; auto; apply Hok|].
  cbn [parse_fields]. destruct (read_field _ cfg [] (c :: s)) as [[field rest]|] eqn:Er; [|done]. apply read_field_rest in Er.
  destruct field as [|b field].
  - destruct rest; [|done]. exists 1, hdr. split; [done|]. by auto.
  - destruct (httpHeaderEntryParseCreate cfg (b :: field)) as [e|] eqn:Ee.
    + destruct (decide_ok cfg hdr e Hok H1 (parsed_id _ _ _ Ee)) as (d & -> & Hd). cbn [mbind option_bind].
      destruct d as [h| |]; [| |done]; [destruct Hd as (_ & Ha & Hb); apply IH; [lia | done | done] | apply IH; [lia | done | done]].
    + destruct (relaxed cfg); [|done]. apply IH; [lia | done | done].
Qed.

Lemma parse_fields_total (cfg : config) (s : list Z) : exists r hdr, httpHeaderParse cfg s httpHeaderInit = Some (r, hdr) /\ ok hdr.
Proof.
  unfold httpHeaderParse. case_bool_decide; [exists 0, httpHeaderInit; by split; [|apply init_ok]|].
  destruct (parse_fields_ok (S (length s)) cfg s httpHeaderInit) as (r & hdr & E & Hok & _); [lia | apply init_ok | unfold one_length; cbn; lia|]. by exists r, hdr.
Qed.

(** C11: The parser of headers ends on every text, strict or relaxed, with an assertion never failing: what it accepts has
    at most one Content-Length, however many fields, repetitions and deletions led to it; the mask of the header has a bit for
    exactly the fields that are there and the length is that of the packed header; what it refuses leaves an empty header. *)
Theorem parse_safe (cfg : config) (s : list Z) :
  exists r hdr, httpHeaderParse cfg s httpHeaderInit = Some (r, hdr) /\ ok hdr /\ (r = 1 \/ r = 0 /\ hdr = httpHeaderInit)
    /\ Z.of_nat (length (List.filter (fun e => id e =? HDR_CONTENT_LENGTH) (httpHeaderGetEntry hdr))) <= 1
    /\ len hdr = strlen (httpHeaderPackInto hdr).
Proof.
  assert (Hp : exists r hdr, httpHeaderParse cfg s httpHeaderInit = Some (r, hdr) /\ ok hdr /\ one_length hdr /\ (r = 1 \/ r = 0 /\ hdr = httpHeaderInit)).
  { unfold httpHeaderParse. case_bool_decide.
    - exists 0, httpHeaderInit. split; [done|]. split; [apply init_ok|]. split; [unfold one_length; cbn; lia | by right].
    - apply parse_fields_ok; [lia | apply init_ok | unfold one_length; cbn; lia]. }
  destruct Hp as (r & hdr & E & Hok & H1 & Hr). exists r, hdr. split; [done|]. split; [done|]. split; [done|]. split; [unfold one_length, is_length in H1; lia|].
  rewrite (ok_len _ Hok). unfold httpHeaderPackInto, lengths, strlen. induction (httpHeaderGetEntry hdr) as [|e l IH]; [done|].
  cbn [map fold_right concat]. rewrite length_app, Nat2Z.inj_add, <- IH. unfold entry_len, httpHeaderEntryPackInto, strlen.
  rewrite !length_app. change (length (bytes ": ")) with 2%nat. change (length CRLF) with 2%nat. lia.
Qed.

(** ** Packing and parsing *)

(** An entry that can be written and read again. *)
Record wf_entry (cfg : config) (e : entry) : Prop := {
  wf_id : id e = (let i := httpHeaderIdByName (name e) Headers in if i <? 0 then HDR_OTHER else i);
  wf_known : id e <> HDR_OTHER -> name e = header_name (id e);
  wf_name : name e <> [] /\ Forall (fun c => c <> 0 /\ c <> 10 /\ c <> 13 /\ c <> 58 /\ isspace c = false) (name e) /\ strlen (name e) <= max_string;
  wf_value : Forall (fun c => c <> 0 /\ c <> 10 /\ c <> 13) (value e) /\ drop_space (value e) = value e /\ rtrim (value e) = value e
    /\ strlen (value e) <= max_string /\ cut_nofilter (myhost cfg) (value e) = value e
}.

Lemma drop_space_id (s : list Z) : Forall (fun c => isspace c = false) s -> drop_space s = s.
Proof. intros H. destruct H as [|c s Hc Hs]; [done|]. cbn [drop_space]. by rewrite Hc. Qed.

Lemma rtrim_id (s : list Z) : Forall (fun c => isspace c = false) s -> rtrim s = s.
Proof. intros H. unfold rtrim. rewrite drop_space_id; [apply rev_involutive | by apply Forall_rev]. Qed.

Lemma absent (s : list Z) (P : Z -> Prop) (c : Z) : Forall P s -> ~ P c -> c ∉ s.
Proof. intros H Hc Hin. rewrite Forall_forall in H. by apply Hc, H. Qed.

(** The text of an entry without the end of its line. *)
Definition field_text (e : entry) : list Z := name e ++ bytes ": " ++ value e.

Lemma field_text_ok (cfg : config) (e : entry) : wf_entry cfg e -> Forall (fun c => c <> 0 /\ c <> 10 /\ c <> 13) (field_text e) /\ (3 <= length (field_text e))%nat.
Proof.
  intros [_ _ (H1 & H2 & _) (H3 & _)]. unfold field_text. change (bytes ": ") with [58; 32]. split.
  - apply Forall_app. split; [eapply Forall_impl; [exact H2|]; naive_solver|]. apply Forall_app. split; [|done]. by repeat constructor.
  - rewrite !length_app. destruct (name e); [done|]. cbn. lia.
Qed.

Lemma read_packed (cfg : config) (e : entry) (rest : list Z) (fuel : nat) :
  wf_entry cfg e -> match rest with c :: _ => c <> 32 /\ c <> 9 | [] => True end ->
  read_field (S fuel) cfg [] (httpHeaderEntryPackInto e ++ rest) = Some (field_text e, rest).
Proof.
  intros We Hr. destruct (field_text_ok cfg e We) as [Hf Hl]. assert (Ep : httpHeaderEntryPackInto e ++ rest = (field_text e ++ [13]) ++ 10 :: rest).
  { unfold httpHeaderEntryPackInto, field_text, CRLF. by rewrite <- !app_assoc. }
  rewrite Ep. cbn [read_field]. unfold read_line. rewrite strchr_app.
  - rewrite take_app_length, drop_past. rewrite last_snoc, removelast_last. change (bool_decide (Some 13 = Some 13)) with true.
    assert (Hn : bool_decide (last (field_text e) = Some 13) = false).
    { apply bool_decide_eq_false_2. intros Hla. apply last_Some_elem_of in Hla. rewrite Forall_forall in Hf. by destruct (Hf _ Hla) as (_ & _ & ?). }
    rewrite Hn, andb_false_r. cbn [mbind option_bind]. rewrite (bool_decide_eq_false_2 (13 ∈ field_text e)) by (apply (absent _ _ _ Hf); tauto). cbn [andb].
    assert (Eu : unfold_cr (field_text e) = field_text e).
    { unfold unfold_cr. clear -Hf. induction Hf as [|c l (_ & _ & Hc) _ IH]; [done|]. cbn [map]. by rewrite IH, (proj2 (Z.eqb_neq c 13)). }
    cbn zeta. rewrite Eu, (proj2 (Nat.eqb_neq _ _)) by lia. cbn [andb app]. destruct rest as [|c rest]; [done|]. destruct Hr as [H1 H2].
    by rewrite (proj2 (Z.eqb_neq c 32)), (proj2 (Z.eqb_neq c 9)).
  - apply not_elem_of_app. split; [apply (absent _ _ _ Hf); tauto|]. by apply not_elem_of_cons; split; [|apply not_elem_of_nil].
Qed.

Lemma parse_packed (cfg : config) (e : entry) : wf_entry cfg e -> httpHeaderEntryParseCreate cfg (field_text e) = Some e.
Proof.
  intros [H1 H2 (H3 & H4 & H5) (H6 & H7 & H8 & H9 & H10)]. unfold httpHeaderEntryParseCreate, field_text. change (bytes ": ") with [58; 32].
  cbn [app]. rewrite strchr_app by (apply (absent _ _ _ H4); tauto). destruct (length (name e)) as [|n] eqn:En; [by destruct (name e)|]. rewrite <- En.
  rewrite (proj2 (Z.ltb_ge _ _)) by exact H5. rewrite take_app_length.
  assert (Hs : Forall (fun c => isspace c = false) (name e)) by (eapply Forall_impl; [exact H4|]; naive_solver).
  replace (if relaxed cfg then rtrim (name e) else name e) with (name e) by (destruct (relaxed cfg); [by rewrite rtrim_id | done]).
  rewrite bool_decide_eq_false_2 by done. rewrite drop_past. cbn [drop_space]. change (isspace 32) with true. rewrite H7, H8, (proj2 (Z.ltb_ge _ _)), H10 by exact H9. f_equal.
  cbn zeta in H1. rewrite <- H1. unfold httpHeaderEntryCreate. destruct (Z.eqb_spec (id e) HDR_OTHER) as [E|E]; [by destruct e|]. rewrite <- H2 by done. by destruct e.
Qed.

Lemma find_none_bool {A : Type} (p : A -> bool) (l : list A) : List.filter p l = [] -> List.find p l = None.
Proof. induction l as [|x l IH]; cbn; [done|]. by destruct (p x). Qed.

(** One Content-Length at most in what is to be read. *)
Lemma decide_packed (cfg : config) (hdr : header) (e : entry) :
  ok hdr -> wf_entry cfg e -> (is_length e = true -> List.filter is_length (httpHeaderGetEntry hdr) = []) ->
  decide_entry cfg hdr e = Some (Add hdr).
Proof.
  intros Hok We H1. unfold decide_entry.
  assert (Hw : stringHasWhitespace (name e) = false).
  { destruct We as [_ _ (_ & H2 & _) _]. unfold stringHasWhitespace. induction H2 as [|c l Hc _ IH]; [done|]. cbn [existsb]. rewrite IH, orb_false_r.
    apply bool_decide_eq_false_2. intros Hin. destruct Hc as (_ & _ & _ & _ & Hs). rewrite !elem_of_cons in Hin.
    destruct Hin as [->|[->|[->|[->|?%not_elem_of_nil]]]]; done. }
  destruct (Z.eqb_spec (id e) HDR_CONTENT_LENGTH) as [E|E].
  - rewrite E, find_ok by done. unfold is_length in H1 at 1. rewrite E in H1. rewrite (find_none_bool is_length) by (by apply H1). cbn [mbind option_bind]. by rewrite Hw, andb_false_r.
  - cbn [mbind option_bind]. by rewrite Hw, andb_false_r.
Qed.

Lemma pack_first (cfg : config) (l : list entry) (tl : list Z) :
  Forall (wf_entry cfg) l -> tl = [] \/ tl = CRLF -> match concat (map httpHeaderEntryPackInto l) ++ tl with c :: _ => c <> 32 /\ c <> 9 | [] => True end.
Proof.
  intros H Ht. destruct H as [|e l [_ _ (Hn & Hc & _) _] _]; [by destruct Ht as [-> | ->]|]. cbn [map concat]. unfold httpHeaderEntryPackInto.
  destruct (name e) as [|c n]; [done|]. cbn [app]. apply Forall_cons in Hc as [(_ & _ & _ & _ & Hs) _]. split; intros ->; done.
Qed.

Lemma parse_all (cfg : config) (l : list entry) (tl : list Z) (fuel : nat) (hdr : header) :
  Forall (wf_entry cfg) l -> tl = [] \/ tl = CRLF -> ok hdr -> (length (List.filter is_length (httpHeaderGetEntry hdr ++ l)) <= 1)%nat ->
  (length (concat (map httpHeaderEntryPackInto l) ++ tl) < fuel)%nat ->
  parse_fields fuel cfg (concat (map httpHeaderEntryPackInto l) ++ tl) hdr = Some (1, fold_left httpHeaderAddEntry l hdr).
Proof.
  intros Hl Ht. revert hdr fuel. induction Hl as [|e l We Hl IH]; intros hdr fuel Hok H1 Hf.
  - cbn [map concat app fold_left]. destruct fuel as [|fuel]; [lia|]. destruct Ht as [-> | ->]; [done|].
    unfold CRLF. cbn. by destruct (relaxed cfg).
  - cbn [map concat fold_left] in *. rewrite <- app_assoc in *. set (rest := concat _ ++ tl) in *. destruct fuel as [|fuel]; [lia|].
    pose proof (pack_first cfg l tl Hl Ht) as Hr. fold rest in Hr.
    assert (Hne : exists b s, httpHeaderEntryPackInto e ++ rest = b :: s /\ (length rest < length (b :: s))%nat).
    { assert (Hlt : (length rest < length (httpHeaderEntryPackInto e ++ rest))%nat).
      { unfold httpHeaderEntryPackInto. rewrite !length_app. change (length CRLF) with 2%nat. lia. }
      destruct (httpHeaderEntryPackInto e ++ rest) as [|b s]; [cbn in Hlt; lia|]. by exists b, s. }
    destruct Hne as (b & s & Es & Hlt). cbn [parse_fields]. rewrite Es, <- Es, (read_packed cfg e rest _ We Hr).
    destruct (field_text_ok cfg e We) as [_ Hlen]. pose proof (parse_packed cfg e We) as Hp. destruct (field_text e) as [|d ft]; [cbn in Hlen; lia|]. rewrite Hp.
    rewrite List.filter_app, length_app in H1. cbn [List.filter] in H1. rewrite decide_packed; [|done | done|].
    + cbn [mbind option_bind]. apply IH.
      * apply add_ok; [done|]. exact (parsed_id cfg _ e Hp).
      * rewrite get_add, <- app_assoc, List.filter_app, length_app. cbn [app List.filter]. exact H1.
      * rewrite Es in Hf. lia.
    + intros Hi. rewrite Hi in H1. cbn [length] in H1. destruct (List.filter is_length (httpHeaderGetEntry hdr)); [done | cbn in H1; lia].
Qed.

Lemma read_back (cfg : config) (l : list entry) (tl : list Z) :
  Forall (wf_entry cfg) l -> Z.of_nat (length (List.filter (fun e => id e =? HDR_CONTENT_LENGTH) l)) <= 1 -> tl = [] \/ tl = CRLF ->
  let hdr := fold_left httpHeaderAddEntry l httpHeaderInit in httpHeaderParse cfg (httpHeaderPackInto hdr ++ tl) httpHeaderInit = Some (1, hdr)
    /\ httpHeaderGetEntry hdr = l.
Proof.
  intros Hl H1 Ht. assert (Hg : forall h, httpHeaderGetEntry (fold_left httpHeaderAddEntry l h) = httpHeaderGetEntry h ++ l).
  { clear. induction l as [|e l IH]; intros h; cbn [fold_left]; [by rewrite app_nil_r|]. by rewrite IH, get_add, <- app_assoc. }
  intros hdr. unfold hdr. rewrite Hg. split; [|done]. unfold httpHeaderPackInto, httpHeaderParse. rewrite Hg.
  change (httpHeaderGetEntry httpHeaderInit ++ l) with l. rewrite bool_decide_eq_false_2.
  - apply parse_all; [done | done | apply init_ok | unfold is_length; cbn [httpHeaderGetEntry httpHeaderInit entries omap list_omap app]; lia | lia].
  - intros Hin. apply elem_of_app in Hin as [Hin|Hin].
    + apply list_elem_of_In, in_concat in Hin as (s & (e & <- & He%list_elem_of_In)%in_map_iff & Hin%list_elem_of_In).
      rewrite Forall_forall in Hl. destruct (field_text_ok cfg e (Hl e He)) as [Hf _]. rewrite Forall_forall in Hf.
      unfold httpHeaderEntryPackInto in Hin. rewrite 2 app_assoc in Hin. apply elem_of_app in Hin as [Hin|Hin].
      * rewrite <- app_assoc in Hin. by apply Hf in Hin as [? _].
      * revert Hin. by apply (bool_decide_unpack (0 ∉ CRLF)).
    + destruct Ht as [-> | ->]; [by apply not_elem_of_nil in Hin|]. revert Hin. by apply (bool_decide_unpack (0 ∉ CRLF)).
Qed.

(** A header is read as it was written: the packed text of entries whose names are tokens and whose values are trimmed
    and on one line, with at most one Content-Length among them, followed by a blank line or by nothing, is accepted in both
    modes and gives the same entries in the same order. *)
Lemma header_roundtrip (cfg : config) (l : list entry) (tl : list Z) :
  Forall (wf_entry cfg) l -> Z.of_nat (length (List.filter (fun e => id e =? HDR_CONTENT_LENGTH) l)) <= 1 -> tl = [] \/ tl = CRLF ->
  exists hdr, httpHeaderParse cfg (httpHeaderPackInto (fold_left httpHeaderAddEntry l httpHeaderInit) ++ tl) httpHeaderInit = Some (1, hdr)
    /\ httpHeaderGetEntry hdr = l.
Proof. intros Hl H1 Ht. eexists. by apply read_back. Qed.
End Header.

Module Demo.
Import Header.

Definition cfg (r : bool) : config := Config r (bytes "proxy").
Definition sample : list entry :=
  [Entry 24 (bytes "Host") (bytes "a.b"); Entry HDR_OTHER (bytes "X-A") (bytes "1, 2"); Entry HDR_CONTENT_LENGTH (bytes "Content-Length") (bytes "12")].

Lemma header_roundtrip_witness :
  exists hdr, httpHeaderParse (cfg false) (httpHeaderPackInto (fold_left httpHeaderAddEntry sample httpHeaderInit) ++ CRLF) httpHeaderInit = Some (1, hdr)
    /\ httpHeaderGetEntry hdr = sample.
Proof.
  apply (header_roundtrip (cfg false) sample CRLF).
  - repeat constructor; try (by vm_compute); try (intros H; by vm_compute in H).
  - by vm_compute.
  - by right.
Defined.

Definition parsed (r : bool) (s : list Z) : option (Z * list (list Z * list Z)) :=
  '(n, h) ← httpHeaderParse (cfg r) s httpHeaderInit; Some (n, map (fun e => (name e, value e)) (httpHeaderGetEntry h)).

(** Continuation lines, the mark of the filters, white space before the colon, and two lengths. *)
Example header_parse_ex :
  parsed false (bytes "host: a.b.PROXY.nofilter" ++ CRLF ++ bytes "x-A: 1" ++ CRLF ++ bytes "  2" ++ CRLF ++ CRLF)
    = Some (1, [(bytes "Host", bytes "a.b.PROXY.nofilter"); (bytes "x-A", bytes "1" ++ CRLF ++ bytes "  2")])
  /\ parsed false (bytes "host: a.b.proxy.nofilter" ++ CRLF) = Some (1, [(bytes "Host", bytes "a.b")])
  /\ parsed true (bytes "Age : 5" ++ CRLF) = Some (1, [(bytes "Age", bytes "5")])
  /\ parsed false (bytes "X B: 5" ++ CRLF) = Some (0, [])
  /\ parsed true (bytes "Content-Length: 5" ++ CRLF ++ bytes "Content-Length: 7" ++ CRLF) = Some (1, [(bytes "Content-Length", bytes "7")])
  /\ parsed false (bytes "Content-Length: 5" ++ CRLF ++ bytes "Content-Length: 7" ++ CRLF) = Some (0, []).
Proof. split_and!; by vm_compute. Qed.

Definition of_list (l : list entry) : header := fold_left httpHeaderAddEntry l httpHeaderInit.
Definition cookie (v : string) : entry := Entry 45 (bytes "Set-Cookie") (bytes v).

(** Of several fresh fields with one name only the last one is kept. *)
Example update_ex :
  option_map httpHeaderGetEntry (httpHeaderUpdate (of_list [cookie "old"]) (of_list [cookie "a"; cookie "b"]) None) = Some [cookie "b"].
Proof. by vm_compute. Qed.

(** A length that is no number is read as 0, not as unknown. *)
Example size_ex : httpHeaderGetSize (of_list [Entry HDR_CONTENT_LENGTH (bytes "Content-Length") (bytes "x")]) HDR_CONTENT_LENGTH = Some 0
  /\ httpHeaderGetSize (of_list []) HDR_CONTENT_LENGTH = Some (-1).
Proof. split; by vm_compute. Qed.

(** Two fields of one list that are accepted each, and together do not fit the length of a string. *)
Lemma list_overflow (v1 v2 : list Z) : v1 <> [] -> max_string < strlen v1 + 2 + strlen v2 ->
  httpHeaderGetList (of_list [Entry 51 (bytes "Via") v1; Entry 51 (bytes "Via") v2]) 51 = None.
Proof.
  intros Hv H. change (httpHeaderGetList _ 51) with (s ← joined [] [Entry 51 (bytes "Via") v1; Entry 51 (bytes "Via") v2]; Some (Some s)).
  cbn [joined value]. change (strListAdd [] v1 COMMA) with (stringAppend [] v1). unfold stringAppend. change (strlen [] + strlen v1) with (strlen v1).
  destruct (max_string <? strlen v1); [done|]. cbn [mbind option_bind app]. unfold strListAdd. rewrite bool_decide_eq_false_2 by done. unfold stringAppend.
  change (strlen [COMMA; 32]) with 2. destruct (max_string <? strlen v1 + 2); [done|]. cbn [mbind option_bind]. rewrite strlen_app. change (strlen [COMMA; 32]) with 2.
  by rewrite (proj2 (Z.ltb_lt _ _)) by lia.
Qed.

Example members_ex :
  list_member (bytes "a=1; user=bob ; b") (bytes "user") 59 = Some (bytes "bob")
  /\ httpHeaderHasConnDir (of_list [Entry 9 (bytes "Connection") (bytes "TE, Keep-Alive")]) (bytes "keep-alive") = Some true
  /\ httpHeaderGetByName (of_list [httpHeaderEntryCreate HDR_OTHER (bytes "X") (bytes "1"); httpHeaderEntryCreate HDR_OTHER (bytes "x") (bytes "2")]) (bytes "X") = Some (Some (bytes "1, 2"))
  /\ httpHeaderGetRange (of_list [Entry HDR_REQUEST_RANGE (bytes "Request-Range") (bytes "bytes=1-2")]) = Some (Some [Spec 1 2])
  /\ httpHeaderGetAuth (of_list [Entry 7 (bytes "Authorization") (bytes "basic  dTpw")]) 7 (bytes "Basic") = Some (Some (bytes "u:p")).
Proof. split_and!; by vm_compute. Qed.
End Demo.
