(* ===== verification/Rfc1123.v ===== *)
(** * Rfc1123: the dates of HTTP

    v3.0/src/squid-mybox/lib/rfc1123.c: [parse_rfc1123] and [mkrfc1123], with the
    calendar of [gmtime] and [timegm] and the [strftime] of the C locale.  Without
    [timegm] the program calls [mktime] and corrects by the time zone; this is the
    model of both where no daylight saving time is in force.  A [NULL] is [None]. *)

From S2P Require Import Prelude CString.

Module Rfc1123.

(** ** The calendar *)

(** [struct tm] as the program fills it: the month from 0, the year from 1900. *)
Record tm := Tm { tm_sec : Z; tm_min : Z; tm_hour : Z; tm_mday : Z; tm_mon : Z; tm_year : Z }.

Definition leap (y : Z) : bool := (y mod 4 =? 0) && (negb (y mod 100 =? 0) || (y mod 400 =? 0)).
Definition year_days (y : Z) : Z := if leap y then 366 else 365.
Definition months (y : Z) : list Z := [31; if leap y then 29 else 28; 31; 30; 31; 30; 31; 31; 30; 31; 30; 31].
Definition sum (l : list Z) : Z := fold_right Z.add 0 l.

(** The days of the [n] years from 1970 on. *)
Fixpoint days_to_year (n : nat) : Z := match n with O => 0 | S n => days_to_year n + year_days (1970 + Z.of_nat n) end.

Definition timegm (t : tm) : Z :=
  let y := 1900 + tm_year t in
  86400 * (days_to_year (Z.to_nat (y - 1970)) + sum (take (Z.to_nat (tm_mon t)) (months y)) + tm_mday t - 1)
  + 3600 * tm_hour t + 60 * tm_min t + tm_sec t.

(** The year of a day, with the day in it. *)
Fixpoint year_of (fuel : nat) (y d : Z) : Z * Z :=
  match fuel with
  | O => (y, d)
  | S fuel => if d <? year_days y then (y, d) else year_of fuel (y + 1) (d - year_days y)
  end.
(** The month of a day of the year, with the day in it. *)
Fixpoint month_of (ms : list Z) (m d : Z) : Z * Z :=
  match ms with
  | [] => (m, d)
  | n :: ms => if d <? n then (m, d) else month_of ms (m + 1) (d - n)
  end.

Definition gmtime (t : Z) : tm :=
  let '(y, d) := year_of (S (Z.to_nat (t / 86400 / 365))) 1970 (t / 86400) in
  let '(m, d) := month_of (months y) 0 d in
  let s := t mod 86400 in
  Tm (s mod 60) (s / 60 mod 60) (s / 3600) (d + 1) m (y - 1900).

Definition wday (t : Z) : Z := (t / 86400 + 4) mod 7.

(** ** Writing *)

Definition month_names : list (list Z) := map bytes ["Jan"; "Feb"; "Mar"; "Apr"; "May"; "Jun"; "Jul"; "Aug"; "Sep"; "Oct"; "Nov"; "Dec"]%string.
Definition day_names : list (list Z) := map bytes ["Sun"; "Mon"; "Tue"; "Wed"; "Thu"; "Fri"; "Sat"]%string.
Definition two (n : Z) : list Z := [48 + n / 10; 48 + n mod 10].
Definition SP : Z := 32.
Definition COLON : Z := 58.

(** [strftime] of [RFC1123_STRFTIME]. *)
Definition mkrfc1123 (t : Z) : list Z :=
  let g := gmtime t in
  nth (Z.to_nat (wday t)) day_names [] ++ [44; SP] ++ two (tm_mday g) ++ SP :: nth (Z.to_nat (tm_mon g)) month_names []
  ++ SP :: dec (1900 + tm_year g) ++ SP :: (two (tm_hour g) ++ COLON :: two (tm_min g) ++ COLON :: two (tm_sec g)) ++ SP :: bytes "GMT".

(** ** Reading *)

Definition make_num (s : list Z) : Z :=
  if isdigit (nth 0 s 0) then 10 * (nth 0 s 0 - 48) + nth 1 s 0 - 48 else nth 1 s 0 - 48.

(** Three bytes are compared, the NUL of a shorter word among them. *)
Definition make_month (s : list Z) : option Z :=
  let month := [toupper (nth 0 s 0); tolower (nth 1 s 0); tolower (nth 2 s 0)] in
  match list_find (fun n => n = month) month_names with Some (i, _) => Some (Z.of_nat i) | None => None end.

Definition tmSaneValues (t : tm) : bool :=
  negb ((tm_sec t <? 0) || (59 <? tm_sec t)) && negb ((tm_min t <? 0) || (59 <? tm_min t))
  && negb ((tm_hour t <? 0) || (23 <? tm_hour t)) && negb ((tm_mday t <? 1) || (31 <? tm_mday t))
  && negb ((tm_mon t <? 0) || (11 <? tm_mon t)) && negb ((tm_year t <? 70) || (120 <? tm_year t)).

Definition parse_date_elements (day month year time : option (list Z)) : option tm :=
  day ← day; month ← month; year ← year; time ← time;
  mon ← make_month month;
  let y := atoi year in
  let y := if strlen year =? 4 then y - 1900 else if y <? 70 then y + 100 else if 19000 <? y then y - 19000 else y in
  match strchr time COLON with
  | None => None
  | Some n =>
      let t := drop (S n) time in
      let sec := match strchr t COLON with Some n => atoi (drop (S n) t) | None => 0 end in
      let tm := Tm sec (atoi t) (make_num time) (atoi day) mon y in
      if tmSaneValues tm then Some tm else None
  end.

(** The words found so far. *)
Record words := Words { w_wday : option (list Z); w_day : option (list Z); w_month : option (list Z); w_year : option (list Z);
                        w_time : option (list Z); w_zone : option (list Z) }.

(** A word of the date; [None] returns from [parse_date], with the copy of the text not freed. *)
Definition parse_word (t : list Z) (w : words) : option words :=
  if match t with c :: _ => isdigit c | [] => false end then
    match w_day w with
    | None =>
        match strchr t 45 with
        | None => Some (Words (w_wday w) (Some t) (w_month w) (w_year w) (w_time w) (w_zone w))
        | Some n =>
            let m := drop (S n) t in
            match strchr m 45 with
            | None => None
            | Some k => Some (Words (w_wday w) (Some (take n t)) (Some (take k m)) (Some (drop (S k) m)) (w_time w) (w_zone w))
            end
        end
    | Some _ =>
        if bool_decide (strchr t COLON <> None) then Some (Words (w_wday w) (w_day w) (w_month w) (w_year w) (Some t) (w_zone w))
        else if bool_decide (w_year w = None) then Some (Words (w_wday w) (w_day w) (w_month w) (Some t) (w_time w) (w_zone w))
        else Some w
    end
  else if bool_decide (w_wday w = None) then Some (Words (Some t) (w_day w) (w_month w) (w_year w) (w_time w) (w_zone w))
  else if bool_decide (w_month w = None) then Some (Words (w_wday w) (w_day w) (Some t) (w_year w) (w_time w) (w_zone w))
  else if bool_decide (w_zone w = None) then Some (Words (w_wday w) (w_day w) (w_month w) (w_year w) (w_time w) (Some t))
  else Some w.

Fixpoint parse_words (fuel : nat) (s : list Z) (w : words) : option words :=
  match fuel with
  | O => None
  | S fuel =>
      match strtok s [44; SP] with
      | None => Some w
      | Some (t, s) => w ← parse_word t w; parse_words fuel s w
      end
  end.

Definition parse_date (str : list Z) : option tm :=
  w ← parse_words (S (length str)) str (Words None None None None None None);
  parse_date_elements (w_day w) (w_month w) (w_year w) (w_time w).

Definition parse_rfc1123 (str : list Z) : Z := match parse_date str with Some t => timegm t | None => -1 end.

(** ** The calendar counts the days *)

Lemma year_days_pos (y : Z) : 365 <= year_days y <= 366.
Proof. unfold year_days. destruct (leap y); lia. Qed.

Lemma days_to_year_le (n k : nat) : (n <= k)%nat -> days_to_year n + 365 * Z.of_nat (k - n) <= days_to_year k.
Proof.
  intros H. induction H as [|k H IH]; [rewrite Nat.sub_diag; lia|]. cbn [days_to_year]. pose proof (year_days_pos (1970 + Z.of_nat k)). lia.
Qed.

(** Four centuries have 146097 days. *)
Lemma days_to_year_period (n k : nat) : days_to_year (n + 400 * k) = days_to_year n + 146097 * Z.of_nat k.
Proof.
  assert (H : forall n, days_to_year (n + 400) = days_to_year n + 146097).
  { clear. intros n. induction n as [|n IH]; [by vm_compute|]. change (S n + 400)%nat with (S (n + 400)). cbn [days_to_year]. rewrite IH.
    replace (1970 + Z.of_nat (n + 400)) with (1970 + Z.of_nat n + 1 * 400) by lia. unfold year_days, leap. rewrite Z.mod_add by lia.
    replace (1970 + Z.of_nat n + 1 * 400) with (1970 + Z.of_nat n + 4 * 100) at 2 by lia. rewrite Z.mod_add by lia.
    replace (1970 + Z.of_nat n + 1 * 400) with (1970 + Z.of_nat n + 100 * 4) by lia. rewrite Z.mod_add by lia. lia. }
  induction k as [|k IH]; [rewrite Nat.mul_0_r, Nat.add_0_r; lia|]. replace (n + 400 * S k)%nat with (n + 400 * k + 400)%nat by lia. rewrite H, IH. lia.
Qed.

Lemma year_of_spec (fuel n : nat) (d : Z) : 0 <= d < 365 * Z.of_nat fuel ->
  exists k r, year_of fuel (1970 + Z.of_nat n) d = (1970 + Z.of_nat k, r) /\ days_to_year k + r = days_to_year n + d
    /\ 0 <= r < year_days (1970 + Z.of_nat k).
Proof.
  revert n d. induction fuel as [|fuel IH]; intros n d Hd; [lia|]. cbn [year_of]. destruct (Z.ltb_spec d (year_days (1970 + Z.of_nat n))) as [H|H].
  - exists n, d. split; [done|]. lia.
  - pose proof (year_days_pos (1970 + Z.of_nat n)). replace (1970 + Z.of_nat n + 1) with (1970 + Z.of_nat (S n)) by lia.
    destruct (IH (S n) (d - year_days (1970 + Z.of_nat n))) as (k & r & E & Es & Hr); [lia|]. exists k, r. split; [done|]. cbn [days_to_year] in Es. lia.
Qed.

Lemma month_of_spec (ms : list Z) (m d : Z) : 0 <= d < sum ms ->
  exists i r, month_of ms m d = (m + Z.of_nat i, r) /\ (i < length ms)%nat /\ sum (take i ms) + r = d /\ 0 <= r < nth i ms 0.
Proof.
  revert m d. induction ms as [|n ms IH]; intros m d Hd; cbn [sum fold_right] in Hd; [lia|]. cbn [month_of length]. destruct (Z.ltb_spec d n) as [H|H].
  - exists 0%nat, d. split; [by rewrite Z.add_0_r|]. split; [lia|]. cbn [take sum fold_right nth]. lia.
  - destruct (IH (m + 1) (d - n)) as (i & r & E & Hi & Es & Hr); [unfold sum; lia|]. exists (S i), r. rewrite E. split; [f_equal; lia|]. split; [lia|].
    cbn [take sum fold_right nth]. unfold sum in Es. lia.
Qed.

Lemma months_sum (y : Z) : sum (months y) = year_days y /\ length (months y) = 12%nat /\ Forall (fun n => 28 <= n <= 31) (months y).
Proof. unfold months, year_days. destruct (leap y); (split; [done|]); (split; [done|]); repeat constructor; lia. Qed.

(** The broken-down time of [t]. *)
Record fields_of (t : Z) (g : tm) : Prop := {
  fo_t : timegm g = t;
  fo_sec : 0 <= tm_sec g < 60;
  fo_min : 0 <= tm_min g < 60;
  fo_hour : 0 <= tm_hour g < 24;
  fo_mday : 1 <= tm_mday g <= 31;
  fo_mon : 0 <= tm_mon g < 12;
  fo_year : exists k, tm_year g = 70 + Z.of_nat k /\ days_to_year k <= t / 86400 < days_to_year (S k)
}.

Lemma gmtime_fields (t : Z) : 0 <= t -> fields_of t (gmtime t).
Proof.
  intros Ht. unfold gmtime. assert (Hd : 0 <= t / 86400 < 365 * Z.of_nat (S (Z.to_nat (t / 86400 / 365)))) by dlia.
  destruct (year_of_spec _ 0 _ Hd) as (k & r & E & Es & Hr). change (1970 + Z.of_nat 0) with 1970 in E. change (days_to_year 0) with 0 in Es. rewrite E.
  destruct (months_sum (1970 + Z.of_nat k)) as (H1 & H2 & H3).
  destruct (month_of_spec (months (1970 + Z.of_nat k)) 0 r) as (i & q & Em & Hi & Eq & Hq); [by rewrite H1|]. rewrite Em. rewrite H2 in Hi.
  assert (Hn : 28 <= nth i (months (1970 + Z.of_nat k)) 0 <= 31) by (apply (proj1 (Forall_nth _ _ _) H3); lia).
  split; cbn [tm_sec tm_min tm_hour tm_mday tm_mon tm_year]; [|dlia|dlia|dlia|lia|lia|].
  - unfold timegm. cbn [tm_sec tm_min tm_hour tm_mday tm_mon tm_year].
    replace (1900 + (1970 + Z.of_nat k - 1900)) with (1970 + Z.of_nat k) by lia. replace (Z.to_nat (1970 + Z.of_nat k - 1970)) with k by lia.
    replace (Z.to_nat (0 + Z.of_nat i)) with i by lia. assert (t = 86400 * (t / 86400) + t mod 86400) by dlia. set (d := t / 86400) in *. set (s := t mod 86400) in *.
    assert (s = 3600 * (s / 3600) + 60 * (s / 60 mod 60) + s mod 60) by (clearbody s; dlia). lia.
  - exists k. split; [lia|]. cbn [days_to_year]. lia.
Qed.

(** ** Words and numbers *)

Definition word (w : list Z) : Prop := w <> [] /\ (44 ∉ w) /\ (SP ∉ w).

Lemma break_word (w rest : list Z) : 44 ∉ w -> SP ∉ w -> match rest with c :: _ => in_set [44; SP] c = true | [] => True end -> break [44; SP] (w ++ rest) = (w, rest).
Proof.
  intros H1 H2 Hr. induction w as [|c w IH]; cbn [app break].
  - destruct rest as [|c rest]; [done|]. cbn [break]. by rewrite Hr.
  - apply not_elem_of_cons in H1 as [? ?], H2 as [? ?]. rewrite IH by done. replace (in_set [44; SP] c) with false; [done|]. symmetry. apply bool_decide_eq_false_2. set_solver.
Qed.

Lemma strtok_word (w rest : list Z) : word w -> match rest with c :: _ => in_set [44; SP] c = true | [] => True end ->
  strtok (w ++ rest) [44; SP] = Some (w, drop 1 rest) /\ strtok (SP :: w ++ rest) [44; SP] = Some (w, drop 1 rest).
Proof.
  intros (Hw & H1 & H2) Hr. unfold strtok. assert (E : strspn (w ++ rest) [44; SP] = 0%nat).
  { destruct w as [|c w]; [done|]. apply not_elem_of_cons in H1 as [? _], H2 as [? _]. cbn [app strspn]. replace (in_set [44; SP] c) with false; [done|].
    symmetry. apply bool_decide_eq_false_2. set_solver. }
  assert (Es : strspn (SP :: w ++ rest) [44; SP] = 1%nat).
  { cbn [strspn]. by rewrite E. }
  rewrite E, Es, drop_0. cbn [drop]. rewrite drop_0. pose proof (break_word w rest H1 H2 Hr) as Eb. destruct w as [|c w]; [done|].
  cbn [app] in *. by rewrite Eb.
Qed.

Lemma two_digits (n : Z) : 0 <= n < 100 -> isdigit (48 + n / 10) = true /\ isdigit (48 + n mod 10) = true /\ 10 * (n / 10) + n mod 10 = n.
Proof. intros Hn. unfold isdigit. rewrite !andb_true_iff, !Z.leb_le. dlia. Qed.

Lemma atoi_two (n : Z) (rest : list Z) : 0 <= n < 100 -> no_digit rest -> atoi (two n ++ rest) = n.
Proof.
  intros Hn Hr. destruct (two_digits n Hn) as (Ha & Hb & E). unfold two. cbn [app]. rewrite atoi_digits by done. cbn [scan_digits]. rewrite Ha, Hb.
  assert (Es : (scan_digits rest (10 * (10 * 0 + (48 + n / 10 - 48)) + (48 + n mod 10 - 48))).1 = n).
  { destruct rest as [|c rest]; cbn [scan_digits fst]; [lia|]. cbn in Hr. rewrite Hr. cbn [fst]. lia. }
  rewrite Es. unfold clamp. lia.
Qed.

Lemma make_num_two (n : Z) (rest : list Z) : 0 <= n < 100 -> make_num (two n ++ rest) = n.
Proof. intros Hn. destruct (two_digits n Hn) as (Ha & _ & E). unfold make_num, two. cbn [app nth]. rewrite Ha. lia. Qed.

Lemma not_digit (s : list Z) (c : Z) : Forall (fun d => isdigit d = true) s -> isdigit c = false -> c ∉ s.
Proof. intros H Hc Hin. rewrite Forall_forall in H. apply H in Hin. congruence. Qed.

Lemma two_all (n : Z) : 0 <= n < 100 -> Forall (fun d => isdigit d = true) (two n).
Proof. intros Hn. destruct (two_digits n Hn) as (Ha & Hb & _). by repeat constructor. Qed.

(** A year of four digits. *)
Lemma year_text (y : Z) : 1000 <= y < 10000 -> strlen (dec y) = 4 /\ atoi (dec y) = y /\ Forall (fun d => isdigit d = true) (dec y).
Proof.
  intros Hy. split; [|split; [apply atoi_dec; lia | rewrite dec_digits by lia; apply digits_digit; lia]].
  rewrite dec_digits by lia. cbn [digits]. rewrite (proj2 (Z.ltb_ge y 10)), (proj2 (Z.ltb_ge (y / 10) 10)), (proj2 (Z.ltb_ge (y / 10 / 10) 10)), (proj2 (Z.ltb_lt (y / 10 / 10 / 10) 10)) by dlia. done.
Qed.

Lemma make_month_names (m : Z) : 0 <= m < 12 -> make_month (nth (Z.to_nat m) month_names []) = Some m.
Proof.
  intros Hm. assert (H : m = 0 \/ m = 1 \/ m = 2 \/ m = 3 \/ m = 4 \/ m = 5 \/ m = 6 \/ m = 7 \/ m = 8 \/ m = 9 \/ m = 10 \/ m = 11) by lia.
  by destruct_or! H; subst m; vm_compute.
Qed.

(** The text of a time. *)
Definition clock (g : tm) : list Z := two (tm_hour g) ++ COLON :: two (tm_min g) ++ COLON :: two (tm_sec g).

Lemma elements_fields (g : tm) (t : Z) : fields_of t g -> tm_year g < 8100 ->
  parse_date_elements (Some (two (tm_mday g))) (Some (nth (Z.to_nat (tm_mon g)) month_names [])) (Some (dec (1900 + tm_year g))) (Some (clock g))
  = if tm_year g <=? 120 then Some g else None.
Proof.
  intros [_ Hs Hmi Hh Hd Hm (k & Hk & _)] Hy. unfold parse_date_elements. cbn [mbind option_bind]. rewrite make_month_names by lia. cbn [mbind option_bind].
  destruct (year_text (1900 + tm_year g)) as (-> & -> & _); [lia|]. cbn zeta. change (4 =? 4) with true. cbn iota.
  unfold clock. rewrite strchr_app by (by apply (not_digit _ _ (two_all (tm_hour g) ltac:(lia)))).
  rewrite !drop_past, make_num_two by lia. rewrite strchr_app by (by apply (not_digit _ _ (two_all (tm_min g) ltac:(lia)))). rewrite drop_past.
  rewrite atoi_two by (lia || done). rewrite <- (app_nil_r (two (tm_sec g))), atoi_two by (lia || done). rewrite <- (app_nil_r (two (tm_mday g))), atoi_two by (lia || done).
  replace (1900 + tm_year g - 1900) with (tm_year g) by lia. unfold tmSaneValues. cbn [tm_sec tm_min tm_hour tm_mday tm_mon tm_year].
  rewrite (proj2 (Z.ltb_ge (tm_sec g) 0)), (proj2 (Z.ltb_ge 59 (tm_sec g))), (proj2 (Z.ltb_ge (tm_min g) 0)), (proj2 (Z.ltb_ge 59 (tm_min g))),
    (proj2 (Z.ltb_ge (tm_hour g) 0)), (proj2 (Z.ltb_ge 23 (tm_hour g))), (proj2 (Z.ltb_ge (tm_mday g) 1)), (proj2 (Z.ltb_ge 31 (tm_mday g))),
    (proj2 (Z.ltb_ge (tm_mon g) 0)), (proj2 (Z.ltb_ge 11 (tm_mon g))), (proj2 (Z.ltb_ge (tm_year g) 70)) by lia. cbn [negb orb andb].
  destruct (Z.leb_spec (tm_year g) 120), (Z.ltb_spec 120 (tm_year g)); [lia | by destruct g | done | lia].
Qed.

Lemma digits_word (s : list Z) : s <> [] -> Forall (fun d => isdigit d = true) s -> word s.
Proof. intros Hs H. split; [done|]. split; by apply (not_digit _ _ H). Qed.

Lemma clock_word (g : tm) : 0 <= tm_sec g < 60 -> 0 <= tm_min g < 60 -> 0 <= tm_hour g < 24 -> word (clock g) /\ bool_decide (strchr (clock g) COLON <> None) = true.
Proof.
  intros Hs Hm Hh. pose proof (two_all (tm_hour g) ltac:(lia)) as H1. pose proof (two_all (tm_min g) ltac:(lia)) as H2. pose proof (two_all (tm_sec g) ltac:(lia)) as H3. split.
  - split; [done|]. unfold clock. split; rewrite !elem_of_app, !elem_of_cons, !elem_of_app, !elem_of_cons;
      (intros [H|[H|[H|[H|H]]]]; [revert H; by apply (not_digit _ _ H1) | done | revert H; by apply (not_digit _ _ H2) | done | revert H; by apply (not_digit _ _ H3)]).
  - apply bool_decide_eq_true_2. unfold clock. rewrite strchr_app by (by apply (not_digit _ _ H1)). done.
Qed.

Lemma name_word (i : nat) (l : list (list Z)) : Forall (fun w => word w /\ match w with c :: _ => isdigit c = false | [] => True end) l -> (i < length l)%nat ->
  word (nth i l []) /\ match nth i l [] with c :: _ => isdigit c = false | [] => True end.
Proof. intros H Hi. by apply (proj1 (Forall_nth _ _ _) H). Qed.

Lemma names_words : Forall (fun w => word w /\ match w with c :: _ => isdigit c = false | [] => True end) (month_names ++ day_names).
Proof.
  unfold month_names, day_names, word. repeat constructor; try done;
    apply (bool_decide_unpack (_ ∉ _)); by vm_compute.
Qed.

Definition textual (w : list Z) : Prop := word w /\ match w with c :: _ => isdigit c = false | [] => True end.
Definition numeric (w : list Z) : Prop := word w /\ Forall (fun d => isdigit d = true) w.

Lemma parse_words_step (fuel : nat) (t rest : list Z) (w w' : words) :
  word t -> match rest with c :: _ => in_set [44; SP] c = true | [] => True end -> parse_word t w = Some w' ->
  parse_words (S fuel) (t ++ rest) w = parse_words fuel (drop 1 rest) w' /\ parse_words (S fuel) (SP :: t ++ rest) w = parse_words fuel (drop 1 rest) w'.
Proof.
  intros Ht Hr E. destruct (strtok_word t rest Ht Hr) as [E1 E2]. cbn [parse_words]. rewrite E1, E2. cbn [mbind option_bind]. by rewrite E.
Qed.

Lemma parse_word_textual (s : list Z) (w : words) : textual s ->
  parse_word s w = Some (if bool_decide (w_wday w = None) then Words (Some s) (w_day w) (w_month w) (w_year w) (w_time w) (w_zone w)
    else if bool_decide (w_month w = None) then Words (w_wday w) (w_day w) (Some s) (w_year w) (w_time w) (w_zone w)
    else if bool_decide (w_zone w = None) then Words (w_wday w) (w_day w) (w_month w) (w_year w) (w_time w) (Some s) else w).
Proof.
  intros [_ Hs]. unfold parse_word. replace (match s with c :: _ => isdigit c | [] => false end) with false by (by destruct s).
  by repeat case_bool_decide.
Qed.

Lemma parse_word_day (s : list Z) (a m y t z : option (list Z)) : numeric s -> parse_word s (Words a None m y t z) = Some (Words a (Some s) m y t z).
Proof.
  intros [[Hs _] H]. unfold parse_word. cbn [w_day]. replace (match s with c :: _ => isdigit c | [] => false end) with true by (by destruct H).
  by rewrite (proj2 (strchr_None s 45)) by (by apply (not_digit _ _ H)).
Qed.

Lemma parse_word_year (s d : list Z) (a m t z : option (list Z)) : numeric s -> parse_word s (Words a (Some d) m None t z) = Some (Words a (Some d) m (Some s) t z).
Proof.
  intros [[Hs _] H]. unfold parse_word. cbn [w_day]. replace (match s with c :: _ => isdigit c | [] => false end) with true by (by destruct H).
  rewrite (proj2 (strchr_None s COLON)) by (by apply (not_digit _ _ H)). by rewrite bool_decide_eq_false_2 by tauto.
Qed.

Lemma parse_word_time (s d : list Z) (a m y t z : option (list Z)) : match s with c :: _ => isdigit c = true | [] => False end ->
  bool_decide (strchr s COLON <> None) = true -> parse_word s (Words a (Some d) m y t z) = Some (Words a (Some d) m y (Some s) z).
Proof. intros Hs Hc. unfold parse_word. cbn [w_day]. rewrite Hc. by destruct s; [|rewrite Hs]. Qed.

Lemma parse_words_text (wd day mon year tim zone : list Z) (fuel : nat) :
  textual wd -> numeric day -> textual mon -> numeric year -> word tim -> textual zone ->
  match tim with c :: _ => isdigit c = true | [] => False end -> bool_decide (strchr tim COLON <> None) = true -> (7 <= fuel)%nat ->
  parse_words fuel (wd ++ [44; SP] ++ day ++ SP :: mon ++ SP :: year ++ SP :: tim ++ SP :: zone) (Words None None None None None None)
  = Some (Words (Some wd) (Some day) (Some mon) (Some year) (Some tim) (Some zone)).
Proof.
  intros Hw Hd Hm Hy Ht Hz Dt Hc Hf. do 7 (destruct fuel as [|fuel]; [lia|]).
  rewrite (proj1 (parse_words_step _ wd ([44; SP] ++ _) _ _ (proj1 Hw) eq_refl (parse_word_textual wd _ Hw))). cbn [app drop w_wday w_day w_month w_year w_time w_zone].
  rewrite bool_decide_eq_true_2 by done.
  rewrite (proj2 (parse_words_step _ day (SP :: _) _ _ (proj1 Hd) eq_refl (parse_word_day day _ _ _ _ _ Hd))). cbn [drop w_wday w_day w_month w_year w_time w_zone]; rewrite ?drop_0.
  rewrite (proj1 (parse_words_step _ mon (SP :: _) _ _ (proj1 Hm) eq_refl (parse_word_textual mon _ Hm))). cbn [drop w_wday w_day w_month w_year w_time w_zone]; rewrite ?drop_0.
  rewrite bool_decide_eq_false_2, bool_decide_eq_true_2 by done.
  rewrite (proj1 (parse_words_step _ year (SP :: _) _ _ (proj1 Hy) eq_refl (parse_word_year year day _ _ _ _ Hy))). cbn [drop w_wday w_day w_month w_year w_time w_zone]; rewrite ?drop_0.
  rewrite (proj1 (parse_words_step _ tim (SP :: _) _ _ Ht eq_refl (parse_word_time tim day _ _ _ _ _ Dt Hc))). cbn [drop w_wday w_day w_month w_year w_time w_zone]; rewrite ?drop_0.
  rewrite <- (app_nil_r zone), (proj1 (parse_words_step _ zone [] _ _ (proj1 Hz) I (parse_word_textual zone _ Hz))), app_nil_r. cbn [drop w_wday w_day w_month w_year w_time w_zone]; rewrite ?drop_0.
  by rewrite 2 bool_decide_eq_false_2, bool_decide_eq_true_2 by done.
Qed.

(** What the text of a date is taken apart to. *)
Lemma date_written (t : Z) : 0 <= t < 253402300800 ->
  parse_rfc1123 (mkrfc1123 t) = if tm_year (gmtime t) <=? 120 then t else -1.
Proof.
  intros Ht. pose proof (gmtime_fields t ltac:(lia)) as Hg. pose proof Hg as [Hts Hs Hmi Hh Hd Hm (k & Hk & Hy)]. set (g := gmtime t) in *.
  assert (Hk2 : Z.of_nat k < 8030).
  { destruct (Z.ltb_spec (Z.of_nat k) 8030) as [|Hn]; [done|]. pose proof (days_to_year_le (30 + 400 * 20) k ltac:(lia)) as Hle.
    rewrite days_to_year_period in Hle. change (days_to_year 30) with 10957 in Hle. clear -Hle Hy Ht. revert Hle.
    pose proof (Zle_0_nat (k - (30 + 400 * 20))) as Hz. revert Hz. change (Z.of_nat 20) with 20.
    generalize (Z.of_nat (k - (30 + 400 * 20))), (days_to_year (S k)). intros n e Hz Hle. dlia. }
  unfold parse_rfc1123, parse_date, mkrfc1123. fold g. fold (clock g).
  assert (Hw7 : 0 <= wday t < 7) by (unfold wday; dlia). pose proof names_words as Hn. apply Forall_app in Hn as [Hn1 Hn2].
  destruct (name_word (Z.to_nat (wday t)) day_names Hn2) as [W1 D1]; [cbn; lia|]. destruct (name_word (Z.to_nat (tm_mon g)) month_names Hn1) as [W2 D2]; [cbn; lia|].
  destruct (clock_word g Hs Hmi Hh) as [W3 D3]. destruct (year_text (1900 + tm_year g)) as (_ & _ & D4); [lia|].
  rewrite parse_words_text; try done.
  - cbn [mbind option_bind w_day w_month w_year w_time]. rewrite (elements_fields g t Hg) by lia. by destruct (_ <=? _).
  - split; [apply digits_word; [done|] |]; apply two_all; lia.
  - split; [|done]. apply digits_word; [|done]. intros E. destruct (dec_head (1900 + tm_year g)) as (c & s & E2 & _); [lia | congruence].
  - split; [|done]. split; [done|]. split; by apply (bool_decide_unpack (_ ∉ _)); vm_compute.
  - unfold clock, two. cbn [app]. apply two_digits. lia.
  - repeat (rewrite length_app || cbn [length]). unfold clock, two. cbn [length app]. lia.
Qed.

(** C15: A date written by the program is read back as the same time, for every second from 1970 to the end of 2020; from
    2021 on, the date is refused and the time is -1, to the end of the year 9999. *)
Theorem date_roundtrip (t : Z) : 0 <= t < 253402300800 -> parse_rfc1123 (mkrfc1123 t) = if t <? 1609459200 then t else -1.
Proof.
  intros Ht. rewrite date_written by done. destruct (gmtime_fields t) as [_ _ _ _ _ _ (k & -> & Hy)]; [lia|].
  assert (E51 : days_to_year 51 = 18628) by (by vm_compute). destruct (Z.leb_spec (70 + Z.of_nat k) 120) as [H|H].
  - pose proof (days_to_year_le (S k) 51 ltac:(lia)). rewrite (proj2 (Z.ltb_lt _ _)); [done | dlia].
  - pose proof (days_to_year_le 51 k ltac:(lia)). rewrite (proj2 (Z.ltb_ge _ _)); [done | dlia].
Qed.

Lemma date_roundtrip_witness : parse_rfc1123 (mkrfc1123 784111777) = 784111777 /\ parse_rfc1123 (mkrfc1123 1735689600) = -1.
Proof. split; [apply (date_roundtrip 784111777); lia | apply (date_roundtrip 1735689600); lia]. Defined.

Example dates_ex :
  mkrfc1123 784111777 = bytes "Sun, 06 Nov 1994 08:49:37 GMT"
  /\ parse_rfc1123 (bytes "Sun, 06 Nov 1994 08:49:37 GMT") = 784111777
  /\ parse_rfc1123 (bytes "Sunday, 06-Nov-94 08:49:37 GMT") = 784111777
  /\ parse_rfc1123 (bytes "Sun Nov  6 08:49:37 1994") = 784111777
  (* the zone is ignored, a one-digit hour is misread, a date with one dash is refused *)
  /\ parse_rfc1123 (bytes "Sun, 06 Nov 1994 08:49:37 +0100") = 784111777
  /\ parse_rfc1123 (bytes "Sun, 06 Nov 1994 1:49:37 GMT") = parse_rfc1123 (bytes "Sun, 06 Nov 1994 20:49:37 GMT")
  /\ parse_rfc1123 (bytes "06-Nov") = -1.
Proof. split_and!; by vm_compute. Qed.
End Rfc1123.
