(* ===== verification/HdrField.v ===== *)
(** * HdrField: values of HTTP headers, and the status line

    v3.0/src/squid-mybox/src: HttpHdrCc.c (Cache-Control), HttpHdrContRange.c
    (Content-Range), ETag.c, HttpStatusLine.c, the functions of HttpHeader.c that
    read and write these values in a header, and the rewriting of headers of
    HttpHeaderTools.c.  A [long] and a [size_t] have 32 bits, a [squid_off_t] 64. *)

From S2P Require Import Prelude CString Range Header Rfc1123.
Import Header Rfc1123.

Module HdrField.

(** ** Cache-Control *)

(** [CcFieldsInfo], in the order of the ids. *)
Definition CcFields : list (list Z) := map bytes
  ["public"; "private"; "no-cache"; "no-store"; "no-transform"; "must-revalidate"; "proxy-revalidate"; "max-age"; "s-maxage"; "max-stale";
   "only-if-cached"; "Other,"]%string.
Definition CC_MAX_AGE : Z := 7.
Definition CC_S_MAXAGE : Z := 8.
Definition CC_MAX_STALE : Z := 9.
Definition CC_OTHER : Z := 11.
Definition CC_ENUM_END : Z := 12.

Record HttpHdrCc := Cc { cc_mask : Z; max_age : Z; s_maxage : Z; max_stale : Z; other : list Z }.

Definition httpHdrCcCreate : HttpHdrCc := Cc 0 (-1) (-1) (-1) [].

(** A value after [=]: [None] without one or when it does not start with a number. *)
Definition cc_value (p : option (list Z)) : option Z :=
  match p with
  | None => None
  | Some p => match httpHeaderParseInt p with (true, v) => Some v | (false, _) => None end
  end.

(** A turn of [httpHdrCcParseInit]. *)
Definition cc_item (cc : HttpHdrCc) (it : list Z * nat) : HttpHdrCc :=
  let '(item, ilen) := it in
  let eq := strchr (take ilen item) 61 in
  let p := option_map (fun n => drop (S n) item) eq in
  let type := httpHeaderIdByName (take (default ilen eq) item) CcFields in
  let type := if type <? 0 then CC_OTHER else type in
  if Z.testbit (cc_mask cc) type then cc
  else
    let m := Z.setbit (cc_mask cc) type in
    if type =? CC_MAX_AGE then
      match cc_value p with
      | Some v => Cc m v (s_maxage cc) (max_stale cc) (other cc)
      | None => Cc (Z.clearbit m type) (-1) (s_maxage cc) (max_stale cc) (other cc)
      end
    else if type =? CC_S_MAXAGE then
      match cc_value p with
      | Some v => Cc m (max_age cc) v (max_stale cc) (other cc)
      | None => Cc (Z.clearbit m type) (max_age cc) (-1) (max_stale cc) (other cc)
      end
    else if type =? CC_MAX_STALE then Cc m (max_age cc) (s_maxage cc) (default (-1) (cc_value p)) (other cc)
    else if type =? CC_OTHER then
      Cc m (max_age cc) (s_maxage cc) (max_stale cc) ((if bool_decide (other cc = []) then [] else other cc ++ bytes ", ") ++ take ilen item)
    else Cc m (max_age cc) (s_maxage cc) (max_stale cc) (other cc).

Definition httpHdrCcParseCreate (str : list Z) : option HttpHdrCc :=
  let cc := fold_left cc_item (items COMMA str) httpHdrCcCreate in
  if cc_mask cc =? 0 then None else Some cc.

Definition httpHdrCcDup (cc : HttpHdrCc) : HttpHdrCc := Cc (cc_mask cc) (max_age cc) (s_maxage cc) (max_stale cc) [].

(** What is written for a flag. *)
Definition cc_text (cc : HttpHdrCc) (flag : Z) : list Z :=
  nth (Z.to_nat flag) CcFields [] ++
  (if flag =? CC_MAX_AGE then 61 :: dec (max_age cc)
   else if flag =? CC_S_MAXAGE then 61 :: dec (s_maxage cc)
   else if flag =? CC_MAX_STALE then 61 :: dec (max_stale cc)
   else []).

Definition cc_flags (cc : HttpHdrCc) : list Z := List.filter (Z.testbit (cc_mask cc)) [0; 1; 2; 3; 4; 5; 6; 7; 8; 9; 10].

(** The directives with [", "] between them. *)
Fixpoint separated (l : list (list Z)) : list Z :=
  match l with
  | [] => []
  | [w] => w
  | w :: l => w ++ bytes ", " ++ separated l
  end.
Definition httpHdrCcPackInto (cc : HttpHdrCc) : list Z :=
  separated (map (cc_text cc) (cc_flags cc) ++ (if bool_decide (other cc = []) then [] else [other cc])).

Definition httpHdrCcJoinWith (cc new_cc : HttpHdrCc) : HttpHdrCc :=
  Cc (Z.lor (cc_mask cc) (cc_mask new_cc))
     (if max_age cc <? 0 then max_age new_cc else max_age cc)
     (if s_maxage cc <? 0 then s_maxage new_cc else s_maxage cc)
     (if max_stale cc <? 0 then max_stale new_cc else max_stale cc) (other cc).

Definition httpHdrCcSetMaxAge (cc : HttpHdrCc) (v : Z) : HttpHdrCc :=
  Cc (if 0 <=? v then Z.setbit (cc_mask cc) CC_MAX_AGE else Z.clearbit (cc_mask cc) CC_MAX_AGE) v (s_maxage cc) (max_stale cc) (other cc).
Definition httpHdrCcSetSMaxAge (cc : HttpHdrCc) (v : Z) : HttpHdrCc :=
  Cc (if 0 <=? v then Z.setbit (cc_mask cc) CC_S_MAXAGE else Z.clearbit (cc_mask cc) CC_S_MAXAGE) (max_age cc) v (max_stale cc) (other cc).

Definition httpHeaderGetCc (hdr : header) : option (option HttpHdrCc) :=
  if negb (CBIT_TEST (mask hdr) HDR_CACHE_CONTROL) then Some None
  else
    match httpHeaderGetList hdr HDR_CACHE_CONTROL with
    | None => None
    | Some None => Some None
    | Some (Some s) => Some (httpHdrCcParseCreate s)
    end.

(** A value that replaces the one that is there. *)
Definition put_value (hdr : header) (i : Z) (v : list Z) : option header :=
  '(_, hdr) ← httpHeaderDelById hdr i; Some (httpHeaderAddEntry hdr (httpHeaderEntryCreate i [] v)).
Definition httpHeaderPutCc (hdr : header) (cc : HttpHdrCc) : option header := put_value hdr HDR_CACHE_CONTROL (httpHdrCcPackInto cc).
Definition httpHeaderPutRange (hdr : header) (range : HttpHdrRange) : option header := put_value hdr HDR_RANGE (httpHdrRangePackInto range).

(** ** Content-Range *)

(** [(size_t) -1] *)
Definition cr_unknown : Z := 2 ^ 32 - 1.
Definition cr_known (s : Z) : bool := negb (s =? cr_unknown).

Record HttpHdrContRange := ContRange { cr_offset : Z; cr_length : Z; elength : Z }.

Definition httpHdrContRangeCreate : HttpHdrContRange := ContRange cr_unknown cr_unknown cr_unknown.

(** [httpHdrRangeRespSpecParseInit] of the text from [field] on. *)
Definition httpHdrRangeRespSpecParseInit (field : list Z) (flen : Z) : option (Z * Z) :=
  if flen <? 2 then None
  else if nth 0 field 0 =? 42 then Some (cr_unknown, cr_unknown)
  else
    match strchr field MINUS with
    | None => None
    | Some i =>
        if Z.of_nat i <? flen then
          match httpHeaderParseSize field with
          | None => None
          | Some off =>
              let p := S i in
              let len := if Z.of_nat p <? flen then option_map (fun last_pos => size_diff (wraps 64 (last_pos + 1)) off) (httpHeaderParseSize (drop p field))
                         else Some cr_unknown in
              match len with
              | None => None
              | Some len => if cr_known len && (len =? 0) then None else Some (off, len)
              end
          end
        else None
    end.

Definition httpHdrRangeRespSpecPackInto (offset len : Z) : list Z :=
  if negb (cr_known offset) || negb (cr_known len) then bytes "*" else bytes "bytes " ++ dec offset ++ MINUS :: dec (wraps 64 (offset + len - 1)).

Definition httpHdrContRangeParseCreate (str : list Z) : option HttpHdrContRange :=
  if negb (strcasecmp_eq (take 6 str) (bytes "bytes ")) then None
  else
    let str := drop 6 str in
    match strchr str 47 with
    | None => None
    | Some n =>
        let spec := if nth 0 str 0 =? 42 then Some (cr_unknown, cr_unknown) else httpHdrRangeRespSpecParseInit str (Z.of_nat n) in
        let p := drop (S n) str in
        match spec, (if nth 0 p 0 =? 42 then Some cr_unknown else httpHeaderParseSize p) with
        | Some (off, len), Some e => Some (ContRange off len e)
        | _, _ => None
        end
    end.

Definition httpHdrContRangePackInto (r : HttpHdrContRange) : list Z :=
  httpHdrRangeRespSpecPackInto (cr_offset r) (cr_length r) ++ (if cr_known (elength r) then 47 :: dec (wraps 32 (elength r)) else bytes "/*").

Definition httpHdrContRangeSet (spec : HttpHdrRangeSpec) (ent_len : Z) : option HttpHdrContRange :=
  if 0 <=? ent_len then Some (ContRange (offset spec) (length_ spec) ent_len) else None.

Definition httpHeaderPutContRange (hdr : header) (cr : HttpHdrContRange) : option header := put_value hdr HDR_CONTENT_RANGE (httpHdrContRangePackInto cr).
Definition httpHeaderAddContRange (hdr : header) (spec : HttpHdrRangeSpec) (ent_len : Z) : option header :=
  cr ← httpHdrContRangeSet spec ent_len; httpHeaderPutContRange hdr cr.
Definition httpHeaderGetContRange (hdr : header) : option (option HttpHdrContRange) :=
  match httpHeaderFindEntry hdr HDR_CONTENT_RANGE with
  | None => None
  | Some e => Some (e ← e; httpHdrContRangeParseCreate (value e))
  end.

(** ** Entity tags and dates *)

Record ETag := Tag { tag_str : option (list Z); weak : bool }.

Definition etagParseInit (str : list Z) : ETag :=
  let w := bool_decide (take 2 str = bytes "W/") in
  let s := if w then drop 2 str else str in
  Tag (if (2 <=? length s)%nat && (nth 0 s 0 =? 34) && (nth (length s - 1) s 0 =? 34) then Some s else None) w.

(** [None]: an assertion fails, or a tag without text is compared. *)
Definition etagIsEqual (tag1 tag2 : ETag) : option bool :=
  if weak tag1 || weak tag2 then None
  else match tag_str tag1, tag_str tag2 with Some a, Some b => Some (bool_decide (a = b)) | _, _ => None end.

Definition httpHeaderGetETag (hdr : header) (i : Z) : option ETag :=
  get_typed ftETag hdr i (fun v => match v with Some s => etagParseInit s | None => Tag None true end).

Record TimeOrTag := TorT { tot_tag : ETag; tot_time : Z; tot_valid : bool }.

Definition httpHeaderGetTimeOrTag (hdr : header) (i : Z) : option TimeOrTag :=
  get_typed ftDate_1123_or_ETag hdr i (fun v =>
    match v with
    | None => TorT (Tag None false) 0 false
    | Some str =>
        let tag := etagParseInit str in
        match tag_str tag with
        | Some _ => TorT tag (-1) true
        | None => let t := parse_rfc1123 str in TorT tag t (0 <=? t)
        end
    end).

Definition httpHeaderGetTime (hdr : header) (i : Z) : option Z :=
  get_typed ftDate_1123 hdr i (fun v => match v with Some s => parse_rfc1123 s | None => -1 end).
Definition httpHeaderPutTime (hdr : header) (i htime : Z) : option header :=
  if has_type i ftDate_1123 && (0 <=? htime) then Some (httpHeaderAddEntry hdr (httpHeaderEntryCreate i [] (mkrfc1123 htime))) else None.
Definition httpHeaderInsertTime (hdr : header) (pos : nat) (i htime : Z) : option header :=
  if has_type i ftDate_1123 && (0 <=? htime) then Some (httpHeaderInsertEntry hdr (httpHeaderEntryCreate i [] (mkrfc1123 htime)) pos) else None.

(** ** The status line *)

(** The status [HTTP_INVALID_HEADER] is 600. *)
Record HttpStatusLine := Sline { major : Z; minor : Z; status : Z; reason : option (list Z) }.

Definition HTTP_STATUS_NONE : Z := 0.
Definition HTTP_INTERNAL_SERVER_ERROR : Z := 500.
Definition HTTP_INVALID_HEADER : Z := 600.

Definition httpStatusLineInit : HttpStatusLine := Sline 0 0 HTTP_STATUS_NONE None.
Definition httpStatusLineClean : HttpStatusLine := Sline 0 0 HTTP_INTERNAL_SERVER_ERROR None.

Definition status_texts : list (Z * string) :=
  [(0, "Init"); (100, "Continue"); (101, "Switching Protocols"); (200, "OK"); (201, "Created"); (202, "Accepted");
   (203, "Non-Authoritative Information"); (204, "No Content"); (205, "Reset Content"); (206, "Partial Content");
   (300, "Multiple Choices"); (301, "Moved Permanently"); (302, "Moved Temporarily"); (303, "See Other"); (304, "Not Modified");
   (305, "Use Proxy"); (307, "Temporary Redirect"); (400, "Bad Request"); (401, "Unauthorized"); (402, "Payment Required");
   (403, "Forbidden"); (404, "Not Found"); (405, "Method Not Allowed"); (406, "Not Acceptable"); (407, "Proxy Authentication Required");
   (408, "Request Time-out"); (409, "Conflict"); (410, "Gone"); (411, "Length Required"); (412, "Precondition Failed");
   (413, "Request Entity Too Large"); (414, "Request-URI Too Large"); (415, "Unsupported Media Type"); (500, "Internal Server Error");
   (501, "Not Implemented"); (502, "Bad Gateway"); (503, "Service Unavailable"); (504, "Gateway Time-out"); (505, "HTTP Version not supported")]%string.

Definition httpStatusString (st : Z) : list Z :=
  match List.find (fun p => p.1 =? st) status_texts with Some (_, p) => bytes p | None => bytes "Unknown" end.
Definition httpStatusLineReason (s : HttpStatusLine) : list Z := match reason s with Some r => r | None => httpStatusString (status s) end.

(** [%3d] *)
Definition pad3 (n : Z) : list Z := let d := dec n in replicate (3 - length d) 32 ++ d.
Definition httpStatusLinePackInto (s : HttpStatusLine) : list Z :=
  bytes "HTTP/" ++ dec (major s) ++ 46 :: dec (minor s) ++ 32 :: pad3 (status s) ++ 32 :: httpStatusLineReason s ++ CRLF.

(** The version keeps what the [sscanf] does not read. *)
Definition httpStatusLineParse (s : HttpStatusLine) (start : list Z) : Z * HttpStatusLine :=
  let bad := Sline (major s) (minor s) HTTP_INVALID_HEADER (reason s) in
  if negb (strcasecmp_eq (take 5 start) (bytes "HTTP/")) then (0, bad)
  else
    let start := drop 5 start in
    if negb (isdigit (nth 0 start 0)) then (0, bad)
    else
      let '(mj, mn) :=
        match scan_int start with
        | None => (major s, minor s)
        | Some (mj, 46 :: r) => match scan_int r with Some (mn, _) => (mj, mn) | None => (mj, minor s) end
        | Some (mj, _) => (mj, minor s)
        end in
      match strchr start 32 with
      | None => (0, Sline mj mn HTTP_INVALID_HEADER (reason s))
      | Some n => (1, Sline mj mn (atoi (drop (S n) start)) (reason s))
      end.

(** ** Headers that are rewritten in place *)

(** [httpHeaderDelAt] of the entries one after the other: the mask stays as it is. *)
Definition delete_at (p : entry -> bool) (hdr : header) : option header := delete_entries p (mask hdr) hdr.

(** The Connection header of a reply, in [clientBuildReplyHeader]: the fields it names are
    deleted, then it is deleted itself. *)
Definition reply_connection (hdr : header) : option header :=
  if httpHeaderHas hdr HDR_CONNECTION then
    match httpHeaderGetList hdr HDR_CONNECTION with
    | None => None
    | Some l =>
        hdr ← delete_at (fun e => match l with Some l => strListIsMember l (name e) COMMA | None => false end) hdr;
        '(_, hdr) ← httpHeaderDelById hdr HDR_CONNECTION;
        Some hdr
    end
  else Some hdr.

(** [header_access]: [denied] is whether there is an access list and [aclCheckFast] of it does not allow the request. *)
Record header_mangler := Mangler { denied : bool; replacement : option (list Z); m_name : list Z }.

(** The entry after [httpHdrMangle]; [None]: it is removed. *)
Definition httpHdrMangle (header_access : Z -> header_mangler) (named : list header_mangler) (e : entry) : option entry :=
  match (if id e =? HDR_OTHER then List.find (fun hm => bool_decide (name e = m_name hm)) named else Some (header_access (id e))) with
  | None => Some e
  | Some hm =>
      if negb (denied hm) then Some e
      else match replacement hm with None => None | Some r => Some (Entry (id e) (name e) r) end
  end.

Fixpoint mangle_from (f : entry -> option entry) (l : list (option entry)) (n : Z) : option (list (option entry) * Z) :=
  match l with
  | [] => Some ([], n)
  | None :: l => '(l, n) ← mangle_from f l n; Some (None :: l, n)
  | Some e :: l =>
      match f e with
      | Some e => '(l, n) ← mangle_from f l n; Some (Some e :: l, n)
      | None => let n := n - entry_len e in if n <? 0 then None else '(l, n) ← mangle_from f l n; Some (None :: l, n)
      end
  end.

Definition httpHdrMangleList (header_access : Z -> header_mangler) (named : list header_mangler) (hdr : header) : option header :=
  '(l, n) ← mangle_from (httpHdrMangle header_access named) (entries hdr) (len hdr); Some (Hdr l (mask hdr) n).

(** ** The hop-by-hop fields of a reply *)

Lemma find_filter_none (l : list entry) (p : entry -> bool) (i : Z) :
  (forall e, e ∈ l -> id e = i -> p e = true) -> List.filter (fun e => id e =? i) (List.filter (fun e => negb (p e)) l) = [].
Proof.
  intros H. induction l as [|e l IH]; [done|]. cbn [List.filter]. assert (Hl : forall x, x ∈ l -> id x = i -> p x = true) by (intros x Hx; apply H; by right).
  destruct (p e) eqn:Ep; cbn [negb List.filter]; [by apply IH|]. destruct (Z.eqb_spec (id e) i) as [E|E]; [|by apply IH].
  rewrite (H e) in Ep; [done | left | done].
Qed.

Lemma filter_filter (l : list entry) (p q : entry -> bool) :
  List.filter q (List.filter p l) = List.filter (fun e => p e && q e) l.
Proof. induction l as [|e l IH]; [done|]. cbn [List.filter]. destruct (p e); cbn [andb List.filter]; [destruct (q e)|]; by rewrite IH. Qed.

(** Deleting in place: the length stays that of the entries, the mask may say too much. *)
Lemma delete_at_ok (hdr : header) (p : entry -> bool) : len hdr = lengths (httpHeaderGetEntry hdr) ->
  forall m, exists h, delete_entries p m hdr = Some h /\ mask h = m /\ httpHeaderGetEntry h = List.filter (fun e => negb (p e)) (httpHeaderGetEntry hdr)
    /\ len h = lengths (httpHeaderGetEntry h).
Proof.
  intros H m. unfold delete_entries. pose proof (lengths_split p (httpHeaderGetEntry hdr)) as Hs. fold (deleted p hdr) in Hs.
  pose proof (lengths_pos (List.filter (fun e => negb (p e)) (httpHeaderGetEntry hdr))). rewrite (proj2 (Z.ltb_ge _ _)), andb_false_r by lia.
  eexists. split; [reflexivity|]. split; [done|]. split; [apply get_delete|]. unfold httpHeaderGetEntry at 1. cbn [len entries]. rewrite get_delete. fold (httpHeaderGetEntry hdr). lia.
Qed.

(** C10: The hop-by-hop fields of a reply: when its Connection header does not name itself, the fields it names and Connection
    are removed and every other field stays, in the order they had; when it names itself, the program stops at a failed
    assertion, since its own entry is deleted with the mask still saying that it is there. *)
Theorem reply_connection_correct (hdr : header) (l : list Z) :
  ok hdr -> (forall e, e ∈ httpHeaderGetEntry hdr -> id e = HDR_CONNECTION -> name e = bytes "Connection") ->
  httpHeaderGetList hdr HDR_CONNECTION = Some (Some l) ->
  if strListIsMember l (bytes "Connection") COMMA then reply_connection hdr = None
  else exists h, reply_connection hdr = Some h
    /\ httpHeaderGetEntry h = List.filter (fun e => negb (strListIsMember l (name e) COMMA) && negb (id e =? HDR_CONNECTION)) (httpHeaderGetEntry hdr).
Proof.
  intros Hok Hn Hl. pose proof Hok as [H1 _ H3]. set (p := fun e => strListIsMember l (name e) COMMA).
  assert (Hm : CBIT_TEST (mask hdr) HDR_CONNECTION = true).
  { unfold httpHeaderGetList in Hl. change (is_list_header HDR_CONNECTION) with true in Hl. cbn [negb] in Hl. by destruct (CBIT_TEST (mask hdr) HDR_CONNECTION). }
  unfold reply_connection, httpHeaderHas. rewrite Hm, Hl. unfold delete_at. fold p.
  destruct (delete_at_ok hdr p H3 (mask hdr)) as (h1 & -> & Hm1 & E1 & L1). cbn [mbind option_bind].
  unfold httpHeaderDelById. change (negb (HDR_CONNECTION <? HDR_ENUM_END) || (HDR_CONNECTION =? HDR_OTHER)) with false. cbn iota. rewrite Hm1, Hm. cbn [negb].
  set (q := fun e => id e =? HDR_CONNECTION). destruct (strListIsMember l (bytes "Connection") COMMA) eqn:El.
  - rewrite bool_decide_eq_true_2; [done|]. unfold deleted. rewrite E1. apply find_filter_none. intros e Hin Hid. unfold p. by rewrite (Hn e Hin Hid).
  - rewrite bool_decide_eq_false_2.
    + destruct (delete_at_ok h1 q L1 (Z.clearbit (mask hdr) HDR_CONNECTION)) as (h2 & E & _ & E2 & _). exists h2. rewrite E. split; [done|].
      rewrite E2, E1. apply filter_filter.
    + apply H1 in Hm as (e & Hin & Hid). assert (He : e ∈ deleted q h1).
      { apply elem_of_filter_bool. split; [|by apply Z.eqb_eq]. rewrite E1. apply elem_of_filter_bool. split; [done|]. unfold p. by rewrite (Hn e Hin Hid), El. }
      intros Ed. rewrite Ed in He. by apply not_elem_of_nil in He.
Qed.

Definition reply (s : list Z) : header := match httpHeaderParse (Config false (bytes "proxy")) s httpHeaderInit with Some (_, h) => h | None => httpHeaderInit end.
Definition named_text (v : string) : list Z := bytes "Connection: " ++ bytes v ++ CRLF ++ bytes "Set-Cookie: a" ++ CRLF ++ bytes "Age: 1" ++ CRLF.

Lemma reply_ok (s : list Z) : ok (reply s).
Proof. unfold reply. destruct (parse_fields_total (Config false (bytes "proxy")) s) as (r & h & -> & H). exact H. Qed.

(** The replies [Connection: age] and [Connection: connection]. *)
Lemma reply_connection_correct_witness :
  (exists h, reply_connection (reply (named_text "age")) = Some h /\ map name (httpHeaderGetEntry h) = [bytes "Set-Cookie"])
  /\ reply_connection (reply (named_text "connection")) = None.
Proof.
  split.
  - destruct (reply_connection_correct (reply (named_text "age")) (bytes "age")) as (h & -> & E).
    + apply reply_ok.
    + apply (Forall_forall (fun e => id e = HDR_CONNECTION -> name e = bytes "Connection")). apply (bool_decide_unpack (Forall _ _)). by vm_compute.
    + by vm_compute.
    + exists h. split; [done|]. by rewrite E; vm_compute.
  - apply (reply_connection_correct (reply (named_text "connection")) (bytes "connection")); [apply reply_ok | | by vm_compute].
    apply (Forall_forall (fun e => id e = HDR_CONNECTION -> name e = bytes "Connection")). apply (bool_decide_unpack (Forall _ _)). by vm_compute.
Defined.

(** ** Cache-Control is read as it was written *)

(** The text of an item: no delimiter, no quote, no white space at its ends. *)
Definition item_ok (w : list Z) : Prop :=
  Forall (fun c => c <> 44 /\ c <> 34 /\ c <> 0) w /\ match w with c :: _ => isspace c = false | [] => False end /\ match last w with Some c => isspace c = false | None => False end.

Definition at_delimiter (rest : list Z) : Prop := match rest with [] => True | c :: _ => c = COMMA end.

Lemma strcspn_item (w rest set : list Z) : Forall (fun c => in_set set c = false) w -> match rest with [] => True | c :: _ => in_set set c = true end ->
  strcspn (w ++ rest) set = length w.
Proof.
  intros H Hr. induction H as [|c w Hc _ IH]; cbn [app strcspn length]; [|by rewrite Hc, IH]. destruct rest as [|c rest]; [done|]. cbn [strcspn]. by rewrite Hr.
Qed.

Lemma next_del_item (fuel : nat) (w rest : list Z) : Forall (fun c => c <> 44 /\ c <> 34 /\ c <> 0) w -> at_delimiter rest ->
  next_del (S fuel) COMMA (w ++ rest) 0 false = length w.
Proof.
  intros H Hr. cbn [next_del]. rewrite drop_0. rewrite strcspn_item.
  - cbn [Nat.add]. rewrite !(app_nth2 w rest 0 (le_n (length w))), Nat.sub_diag.
    destruct rest as [|c rest]; [|cbn [at_delimiter] in Hr; by subst c]. cbn [nth]. change (0 =? COMMA) with false. change (0 =? 34) with false. cbn iota.
    cbn [andb]. by rewrite (app_nth2 w [] 0 (le_n (length w))), Nat.sub_diag.
  - eapply Forall_impl; [exact H|]. intros c (H1 & H2 & _). apply bool_decide_eq_false_2. unfold COMMA. set_solver.
  - destruct rest as [|c rest]; [done|]. cbn [at_delimiter] in Hr. by subst c.
Qed.

Lemma rtrim_item (w rest : list Z) : match last w with Some c => isspace c = false | None => False end -> rtrim_len (w ++ rest) (length w) = length w.
Proof.
  intros H. destruct w as [|c w _] using rev_ind; [done|]. rewrite last_snoc in H. rewrite length_app. cbn [length]. rewrite Nat.add_1_r. cbn [rtrim_len].
  rewrite <- app_assoc, (app_nth2 w _ 0 (le_n (length w))), Nat.sub_diag. cbn [app nth]. by rewrite H.
Qed.

Lemma get_item (c : Z) (ws w rest : list Z) : ws = [] \/ ws = [32] -> item_ok w -> at_delimiter rest ->
  strListGetItem COMMA (c :: ws ++ w ++ rest) = Some (w ++ rest, length w, rest).
Proof.
  intros Hws (H1 & H2 & H3) Hr. unfold strListGetItem. assert (E : drop (count_ws (ws ++ w ++ rest)) (ws ++ w ++ rest) = w ++ rest).
  { destruct w as [|d w]; [done|]. destruct Hws as [-> | ->]; cbn [app count_ws]; [|change (isspace 32) with true; cbn iota]; by rewrite H2. }
  rewrite E. rewrite next_del_item by done. rewrite rtrim_item by done. destruct w as [|d w]; [done|]. cbn [length]. cbn zeta.
  change (0 <? S (length w))%nat with true. cbn iota. f_equal. f_equal. apply (drop_app_length (d :: w) rest).
Qed.

(** The items of written directives. *)
Lemma items_separated (l : list (list Z)) (fuel : nat) (c : Z) (ws : list Z) : Forall item_ok l -> ws = [] \/ ws = [32] -> (length l < fuel)%nat -> l <> [] ->
  Forall2 (fun w it => exists rest, it = (w ++ rest, length w) /\ at_delimiter rest) l (items_from fuel COMMA (c :: ws ++ separated l)).
Proof.
  intros Hl. revert fuel c ws. induction Hl as [|w l Hw Hl IH]; intros fuel c ws Hws Hf Hne; [done|]. cbn [length] in Hf. destruct fuel as [|fuel]; [lia|].
  destruct l as [|w2 l].
  - cbn [items_from separated]. rewrite <- (app_nil_r w), get_item by done. constructor; [by exists []; rewrite !app_nil_r|].
    destruct fuel; constructor.
  - change (separated (w :: w2 :: l)) with (w ++ COMMA :: [32] ++ separated (w2 :: l)). cbn [items_from]. rewrite get_item by done.
    constructor; [by eexists|]. apply IH; [by right | lia | done].
Qed.

(** A Cache-Control that is written whole: its values are those of its flags, and the unknown directive is one item. *)
Record cc_wf (cc : HttpHdrCc) : Prop := {
  cw_mask : 0 < cc_mask cc < 2 ^ CC_ENUM_END;
  cw_max_age : if Z.testbit (cc_mask cc) CC_MAX_AGE then 0 <= max_age cc < 2 ^ 31 else max_age cc = -1;
  cw_s_maxage : if Z.testbit (cc_mask cc) CC_S_MAXAGE then 0 <= s_maxage cc < 2 ^ 31 else s_maxage cc = -1;
  cw_max_stale : if Z.testbit (cc_mask cc) CC_MAX_STALE then -1 <= max_stale cc < 2 ^ 31 else max_stale cc = -1;
  cw_other : if Z.testbit (cc_mask cc) CC_OTHER then item_ok (other cc) /\ httpHeaderIdByName (take (default (length (other cc)) (strchr (other cc) 61)) (other cc)) CcFields = -1
             else other cc = []
}.

Definition apply_flag (cc acc : HttpHdrCc) (flag : Z) : HttpHdrCc :=
  Cc (Z.setbit (cc_mask acc) flag) (if flag =? CC_MAX_AGE then max_age cc else max_age acc) (if flag =? CC_S_MAXAGE then s_maxage cc else s_maxage acc)
     (if flag =? CC_MAX_STALE then max_stale cc else max_stale acc) (other acc).

Lemma no_digit_delimiter (rest : list Z) : at_delimiter rest -> no_digit rest.
Proof. destruct rest as [|c rest]; [done|]. by intros ->. Qed.

Lemma cc_value_dec (v : Z) (rest : list Z) : -1 <= v < 2 ^ 31 -> at_delimiter rest -> cc_value (Some (dec v ++ rest)) = Some v.
Proof.
  intros Hv Hr%no_digit_delimiter. unfold cc_value, httpHeaderParseInt. destruct (Z.eq_dec v (-1)) as [->|Hn].
  - assert (E : atoi (dec (-1) ++ rest) = -1).
    { change (dec (-1) ++ rest) with (45 :: 49 :: rest). unfold atoi, scan_int. cbn [skip_space]. change (isspace 45) with false. cbn iota. change (isdigit 49) with true. cbn iota.
      cbn [scan_digits]. change (isdigit 49) with true. cbn iota. destruct rest as [|c rest]; [done|]. cbn in Hr. cbn [scan_digits]. by rewrite Hr. }
    by rewrite E.
  - rewrite atoi_dec_app by (done || lia). destruct (dec_head v) as (c & s & E & Hc); [lia|]. rewrite E. cbn [app]. by rewrite Hc, orb_true_r.
Qed.

Lemma cc_parts (nm rest : list Z) (v : Z) : (61 ∉ nm) -> let w := nm ++ 61 :: dec v in
  strchr (take (length w) (w ++ rest)) 61 = Some (length nm) /\ take (length nm) (w ++ rest) = nm /\ drop (S (length nm)) (w ++ rest) = dec v ++ rest.
Proof.
  intros H w. rewrite take_app_length. unfold w. rewrite strchr_app by done. rewrite <- !app_assoc, take_app_length. cbn [app]. by rewrite drop_past.
Qed.

(** A directive [nm] of the id [k] with the value [v]. *)
Ltac cc_field nm v k rest :=
  let E1 := fresh in let E2 := fresh in let E3 := fresh in
  destruct (cc_parts nm rest v) as (E1 & E2 & E3); [by apply (bool_decide_unpack (_ ∉ _))|];
  match goal with Ha : Z.testbit _ k = false |- cc_item _ (cc_text ?cc k ++ _, _) = _ =>
    change (nm ++ 61 :: dec v) with (cc_text cc k) in *; unfold cc_item; rewrite E1; cbn [option_map default from_option Datatypes.id]; rewrite E2, E3;
    change (httpHeaderIdByName nm CcFields) with k; cbv zeta; change (k <? 0) with false; cbn iota; rewrite Ha; by rewrite cc_value_dec by (done || lia)
  end.

Lemma cc_item_flag (cc acc : HttpHdrCc) (flag : Z) (rest : list Z) : cc_wf cc -> 0 <= flag < CC_OTHER -> Z.testbit (cc_mask cc) flag = true ->
  Z.testbit (cc_mask acc) flag = false -> at_delimiter rest ->
  cc_item acc (cc_text cc flag ++ rest, length (cc_text cc flag)) = apply_flag cc acc flag.
Proof.
  intros [_ H7 H8 H9 _] Hf Hb Ha Hr. assert (Hc : flag = 0 \/ flag = 1 \/ flag = 2 \/ flag = 3 \/ flag = 4 \/ flag = 5 \/ flag = 6 \/ flag = 10 \/ flag = 7 \/ flag = 8 \/ flag = 9)
    by (unfold CC_OTHER in Hf; lia).
  destruct_or! Hc; subst flag.
  1-8: unfold cc_item; rewrite take_app_length; change (strchr (cc_text cc _) 61) with (@None nat); cbn [default option_map]; rewrite take_app_length;
       change (httpHeaderIdByName (cc_text cc ?f) CcFields) with f; cbv beta iota zeta; match goal with |- context [Z.ltb ?x 0] => change (Z.ltb x 0) with false end; cbn iota; by rewrite Ha.
  - change (Z.testbit (cc_mask cc) CC_MAX_AGE = true) in Hb. rewrite Hb in H7. cc_field (bytes "max-age") (max_age cc) 7 rest.
  - change (Z.testbit (cc_mask cc) CC_S_MAXAGE = true) in Hb. rewrite Hb in H8. cc_field (bytes "s-maxage") (s_maxage cc) 8 rest.
  - change (Z.testbit (cc_mask cc) CC_MAX_STALE = true) in Hb. rewrite Hb in H9. cc_field (bytes "max-stale") (max_stale cc) 9 rest.
Qed.

Definition good_item (w : list Z) (it : list Z * nat) : Prop := exists rest, it = (w ++ rest, length w) /\ at_delimiter rest.

Lemma flags_items (cc : HttpHdrCc) (l : list Z) (its : list (list Z * nat)) (acc : HttpHdrCc) : cc_wf cc -> NoDup l ->
  Forall (fun f => 0 <= f < CC_OTHER /\ Z.testbit (cc_mask cc) f = true /\ Z.testbit (cc_mask acc) f = false) l -> Forall2 good_item (map (cc_text cc) l) its ->
  fold_left cc_item its acc = fold_left (apply_flag cc) l acc.
Proof.
  intros Hw Hn. revert its acc. induction Hn as [|f l Hf Hn IH]; intros its acc Hl Hi.
  - cbn [map] in Hi. by apply Forall2_nil_inv_l in Hi as ->.
  - cbn [map] in Hi. apply Forall2_cons_inv_l in Hi as (it & its' & (rest & -> & Hr) & Hi & ->). apply Forall_cons in Hl as [(H1 & H2 & H3) Hl]. cbn [fold_left].
    rewrite cc_item_flag by done. apply IH; [|done]. rewrite Forall_forall in Hl |- *. intros g Hg. destruct (Hl g Hg) as (G1 & G2 & G3). split; [done|]. split; [done|].
    cbn [apply_flag cc_mask]. rewrite Z.setbit_eqb by lia. rewrite G3, orb_false_r. apply Z.eqb_neq. by intros ->.
Qed.

Lemma applied (cc : HttpHdrCc) (l : list Z) (acc : HttpHdrCc) : Forall (fun f => 0 <= f) l ->
  (forall i, Z.testbit (cc_mask (fold_left (apply_flag cc) l acc)) i = Z.testbit (cc_mask acc) i || bool_decide (i ∈ l))
  /\ max_age (fold_left (apply_flag cc) l acc) = (if bool_decide (CC_MAX_AGE ∈ l) then max_age cc else max_age acc)
  /\ s_maxage (fold_left (apply_flag cc) l acc) = (if bool_decide (CC_S_MAXAGE ∈ l) then s_maxage cc else s_maxage acc)
  /\ max_stale (fold_left (apply_flag cc) l acc) = (if bool_decide (CC_MAX_STALE ∈ l) then max_stale cc else max_stale acc)
  /\ other (fold_left (apply_flag cc) l acc) = other acc.
Proof.
  intros H. revert acc. induction H as [|f l Hf _ IH]; intros acc; cbn [fold_left].
  - split; [intros i; by rewrite orb_false_r | done].
  - destruct (IH (apply_flag cc acc f)) as (H1 & H2 & H3 & H4 & H5). rewrite H2, H3, H4, H5. cbn [apply_flag max_age s_maxage max_stale other].
    assert (Hd : forall k, bool_decide (k ∈ f :: l) = bool_decide (k ∈ l) || (f =? k)).
    { intros k. destruct (Z.eqb_spec f k) as [->|Hn]; [rewrite orb_true_r; apply bool_decide_eq_true_2; left|]. rewrite orb_false_r. apply bool_decide_ext. rewrite elem_of_cons. naive_solver. }
    rewrite !Hd. split; [|by split_and!; repeat (destruct (bool_decide _) || destruct (f =? _))].
    intros i. rewrite H1, Hd. cbn [apply_flag cc_mask]. rewrite Z.setbit_eqb by done. destruct (f =? i), (Z.testbit (cc_mask acc) i), (bool_decide (i ∈ l)); done.
Qed.

Lemma text_item (nm : list Z) (v : Z) : -1 <= v -> Forall (fun c => c <> 44 /\ c <> 34 /\ c <> 0) nm -> match nm with c :: _ => isspace c = false | [] => False end ->
  item_ok (nm ++ 61 :: dec v).
Proof.
  intros Hv Hn Hh. assert (Hd : Forall (fun c => c = 45 \/ isdigit c = true) (dec v) /\ dec v <> []).
  { destruct (Z.eq_dec v (-1)) as [->|]; [by split; [apply (bool_decide_unpack (Forall _ _)) |]; vm_compute|]. rewrite dec_digits by lia. split.
    - eapply Forall_impl; [apply digits_digit; lia | auto].
    - destruct (dec_head v) as (c & s & E & _); [lia|]. rewrite dec_digits in E by lia. by rewrite E. }
  destruct Hd as [Hd Hne]. split; [|split].
  - apply Forall_app. split; [done|]. constructor; [done|]. eapply Forall_impl; [exact Hd|]. intros c [->|Hc%isdigit_range]; lia.
  - by destruct nm.
  - destruct (dec v) as [|c d _] using rev_ind; [done|]. rewrite app_comm_cons, app_assoc, last_snoc. apply Forall_app in Hd as [_ Hc]. apply Forall_cons in Hc as [Hc _].
    destruct Hc as [->|Hc%isdigit_range]; [done|]. unfold isspace. rewrite (proj2 (Z.eqb_neq _ _)) by lia. rewrite (proj2 (Z.leb_gt c 13)) by lia. by rewrite andb_false_r.
Qed.

Lemma flag_text_item (cc : HttpHdrCc) (f : Z) : cc_wf cc -> 0 <= f < CC_OTHER -> item_ok (cc_text cc f).
Proof.
  intros [_ H7 H8 H9 _] Hf. assert (Hc : f = 0 \/ f = 1 \/ f = 2 \/ f = 3 \/ f = 4 \/ f = 5 \/ f = 6 \/ f = 10 \/ f = 7 \/ f = 8 \/ f = 9) by (unfold CC_OTHER in Hf; lia).
  assert (Hv : -1 <= max_age cc /\ -1 <= s_maxage cc /\ -1 <= max_stale cc).
  { split; [|split]; [destruct (Z.testbit (cc_mask cc) CC_MAX_AGE) | destruct (Z.testbit (cc_mask cc) CC_S_MAXAGE) | destruct (Z.testbit (cc_mask cc) CC_MAX_STALE)]; lia. }
  clear H7 H8 H9. destruct_or! Hc; subst f.
  1-8: split; [apply (bool_decide_unpack (Forall _ _)); by vm_compute | done].
  - apply (text_item (bytes "max-age")); [lia | apply (bool_decide_unpack (Forall _ _)); by vm_compute | done].
  - apply (text_item (bytes "s-maxage")); [lia | apply (bool_decide_unpack (Forall _ _)); by vm_compute | done].
  - apply (text_item (bytes "max-stale")); [lia | apply (bool_decide_unpack (Forall _ _)); by vm_compute | done].
Qed.

Lemma elem_of_flags (cc : HttpHdrCc) (i : Z) : i ∈ cc_flags cc <-> 0 <= i < CC_OTHER /\ Z.testbit (cc_mask cc) i = true.
Proof.
  unfold cc_flags, CC_OTHER. rewrite list_elem_of_In, filter_In, <- list_elem_of_In, !elem_of_cons. split.
  - intros [H Hb]. split; [|done]. destruct_or! H; subst; try lia. by apply not_elem_of_nil in H.
  - intros [H Hb]. split; [|done]. lia.
Qed.

Lemma cc_eq (a b : HttpHdrCc) : cc_mask a = cc_mask b -> max_age a = max_age b -> s_maxage a = s_maxage b -> max_stale a = max_stale b -> other a = other b -> a = b.
Proof. destruct a, b. cbn. by intros -> -> -> -> ->. Qed.

(** The flags of [cc] set on the empty object. *)
Lemma flags_applied (cc : HttpHdrCc) : cc_wf cc ->
  fold_left (apply_flag cc) (cc_flags cc) httpHdrCcCreate = Cc (Z.clearbit (cc_mask cc) CC_OTHER) (max_age cc) (s_maxage cc) (max_stale cc) [].
Proof.
  intros [Hm H7 H8 H9 _]. assert (Hf : Forall (fun f => 0 <= f) (cc_flags cc)) by (rewrite Forall_forall; intros f [? _]%elem_of_flags; lia).
  destruct (applied cc (cc_flags cc) httpHdrCcCreate Hf) as (E1 & E2 & E3 & E4 & E5). apply cc_eq; [|rewrite E2; clear -H7|rewrite E3; clear -H8|rewrite E4; clear -H9|exact E5]; cbn [max_age s_maxage max_stale httpHdrCcCreate].
  - apply Z.bits_inj'. intros i Hi. rewrite E1. cbn [cc_mask httpHdrCcCreate]. rewrite Z.bits_0, Z.clearbit_eqb. cbn [orb]. apply eq_true_iff_eq.
    rewrite bool_decide_eq_true, elem_of_flags, andb_true_iff, negb_true_iff, Z.eqb_neq. unfold CC_OTHER, CC_ENUM_END in *. split; [intros [? ?]; split; [done | lia]|]. intros [Hb Hn].
    split; [|done]. destruct (Z_lt_dec i 12) as [?|Hge]; [lia|]. rewrite Z.bits_above_log2 in Hb; [done | lia | apply Z.log2_lt_pow2; [lia|]].
    apply Z.lt_le_trans with (2 ^ 12); [lia|]. apply Z.pow_le_mono_r; lia.
  - case_bool_decide as Hb; [done|]. destruct (Z.testbit (cc_mask cc) CC_MAX_AGE) eqn:Et; [|done]. destruct Hb. by apply elem_of_flags.
  - case_bool_decide as Hb; [done|]. destruct (Z.testbit (cc_mask cc) CC_S_MAXAGE) eqn:Et; [|done]. destruct Hb. by apply elem_of_flags.
  - case_bool_decide as Hb; [done|]. destruct (Z.testbit (cc_mask cc) CC_MAX_STALE) eqn:Et; [|done]. destruct Hb. by apply elem_of_flags.
Qed.

Lemma cc_item_other (cc acc : HttpHdrCc) (rest : list Z) :
  httpHeaderIdByName (take (default (length (other cc)) (strchr (other cc) 61)) (other cc)) CcFields = -1 -> Z.testbit (cc_mask acc) CC_OTHER = false -> other acc = [] ->
  cc_item acc (other cc ++ rest, length (other cc)) = Cc (Z.setbit (cc_mask acc) CC_OTHER) (max_age acc) (s_maxage acc) (max_stale acc) (other cc).
Proof.
  intros Hi Hb Ho. unfold cc_item. rewrite take_app_length. assert (E : take (default (length (other cc)) (strchr (other cc) 61)) (other cc ++ rest)
    = take (default (length (other cc)) (strchr (other cc) 61)) (other cc)).
  { destruct (strchr (other cc) 61) as [n|] eqn:Es; cbn [default from_option]; unfold Datatypes.id; [|by rewrite take_app_length, firstn_all].
    apply strchr_Some in Es as [Hn _]. apply take_app_le. apply lookup_lt_Some in Hn. lia. }
  rewrite E, Hi. change (-1 <? 0) with true. cbn iota zeta. rewrite Hb, Ho, bool_decide_eq_true_2 by done. done.
Qed.

Lemma clear_other (m : Z) : if Z.testbit m CC_OTHER then Z.setbit (Z.clearbit m CC_OTHER) CC_OTHER = m else Z.clearbit m CC_OTHER = m.
Proof.
  destruct (Z.testbit m CC_OTHER) eqn:E; apply Z.bits_inj'; intros i Hi; rewrite ?Z.setbit_eqb, Z.clearbit_eqb by done;
    destruct (Z.eqb_spec CC_OTHER i) as [<-|]; by rewrite ?E, ?andb_true_r, ?andb_false_r.
Qed.

(** What is written is a list of items, of which there is one at least. *)
Lemma written_items (cc : HttpHdrCc) : cc_wf cc ->
  let ws := map (cc_text cc) (cc_flags cc) ++ (if bool_decide (other cc = []) then [] else [other cc]) in
  (if Z.testbit (cc_mask cc) CC_OTHER then other cc <> [] else other cc = []) /\ Forall item_ok ws /\ ws <> [].
Proof.
  intros Hw ws. pose proof Hw as [Hm _ _ _ Ho].
  assert (Hoth : if Z.testbit (cc_mask cc) CC_OTHER then other cc <> [] /\ item_ok (other cc) else other cc = []).
  { destruct (Z.testbit (cc_mask cc) CC_OTHER); [|done]. destruct Ho as [(H1 & H2 & H3) _]. split; [by destruct (other cc) | done]. }
  split; [destruct (Z.testbit _ _); [apply Hoth | done]|]. split.
  - apply Forall_app. split; [apply Forall_map, Forall_forall; intros f [Hf _]%elem_of_flags; by apply flag_text_item|].
    case_bool_decide as E; [constructor|]. destruct (Z.testbit (cc_mask cc) CC_OTHER); [by constructor; [apply Hoth|] | done].
  - intros [E1%map_eq_nil E2]%app_eq_nil. case_bool_decide as Eo; [|done]. pose proof (flags_applied cc Hw) as Ef. rewrite E1 in Ef. cbn [fold_left] in Ef.
    injection Ef as Ef _ _ _. pose proof (clear_other (cc_mask cc)) as Ec. destruct (Z.testbit (cc_mask cc) CC_OTHER); [by destruct Hoth | lia].
Qed.

Lemma flags_nodup (cc : HttpHdrCc) : NoDup (cc_flags cc).
Proof. unfold cc_flags. apply NoDup_ListNoDup, List.NoDup_filter, NoDup_ListNoDup. by apply (bool_decide_unpack (NoDup _)). Qed.

(** A Cache-Control is read as it was written: the flags, the ages, the staleness with or without a value, and one
    unknown directive come back from the text that is packed, whatever set of directives there is. *)
Lemma cc_roundtrip (cc : HttpHdrCc) : cc_wf cc -> httpHdrCcParseCreate (httpHdrCcPackInto cc) = Some cc.
Proof.
  intros Hw. pose proof Hw as [Hm _ _ _ Ho]. destruct (written_items cc Hw) as (Hoth & Hws & Hne). set (ws := map _ _ ++ _) in *.
  assert (E : fold_left cc_item (items COMMA (separated ws)) httpHdrCcCreate = cc).
  { pose proof (items_separated ws (S (S (length (separated ws)))) COMMA [] Hws (or_introl eq_refl)) as Hi. cbn [app] in Hi.
    apply Forall2_app_inv_l in Hi as (its & it2 & Hi1 & Hi2 & Ei); [| |done].
    - unfold items. rewrite Ei, fold_left_app. rewrite (flags_items cc (cc_flags cc) its httpHdrCcCreate Hw (flags_nodup cc)), flags_applied; [|done| |exact Hi1].
      + pose proof (clear_other (cc_mask cc)) as Ec. destruct (Z.testbit (cc_mask cc) CC_OTHER) eqn:Eb.
        * rewrite bool_decide_eq_false_2 in Hi2 by done. apply Forall2_cons_inv_l in Hi2 as (it & its' & (rest & -> & Hr) & Hn & ->).
          apply Forall2_nil_inv_l in Hn as ->. cbn [fold_left]. rewrite cc_item_other; [|apply Ho| |done].
          -- cbn [cc_mask max_age s_maxage max_stale]. rewrite Ec. by destruct cc.
          -- cbn [cc_mask]. rewrite Z.clearbit_eqb, Z.eqb_refl. apply andb_false_r.
        * rewrite bool_decide_eq_true_2 in Hi2 by done. apply Forall2_nil_inv_l in Hi2 as ->. cbn [fold_left]. rewrite Ec, <- Hoth. by destruct cc.
      + rewrite Forall_forall. intros f [Hf Hb]%elem_of_flags. split; [done|]. split; [done|]. apply Z.bits_0.
    - assert (Hl : forall l, Forall item_ok l -> (length l <= length (separated l))%nat).
      { clear. intros l H. induction H as [|w l (_ & Hw & _) Hl IH]; [done|]. destruct l as [|w2 l]; [destruct w; [done | cbn; lia]|].
        change (separated (w :: w2 :: l)) with (w ++ bytes ", " ++ separated (w2 :: l)). rewrite !length_app. cbn [length] in *. change (length (bytes ", ")) with 2%nat. lia. }
      specialize (Hl ws Hws). lia. }
  unfold httpHdrCcParseCreate, httpHdrCcPackInto. fold ws. rewrite E. by rewrite (proj2 (Z.eqb_neq _ _)) by lia.
Qed.

(** ** Status lines and ranges of contents *)

Lemma digits_no (n c : Z) : 0 <= n -> isdigit c = false -> c ∉ dec n.
Proof. intros Hn Hc Hin. rewrite dec_digits in Hin by done. pose proof (digits_digit 20 n Hn) as H. rewrite Forall_forall in H. apply H in Hin. congruence. Qed.

(** A status line is read as it was written, up to the reason, which is not read. *)
Lemma status_line_roundtrip (s0 s : HttpStatusLine) (rest : list Z) : 0 <= major s < 2 ^ 31 -> 0 <= minor s < 2 ^ 31 -> 0 <= status s < 2 ^ 31 ->
  httpStatusLineParse s0 (httpStatusLinePackInto s ++ rest) = (1, Sline (major s) (minor s) (status s) (reason s0)).
Proof.
  intros H1 H2 H3. set (tail := 32 :: httpStatusLineReason s ++ CRLF ++ rest).
  assert (Ep : httpStatusLinePackInto s ++ rest = bytes "HTTP/" ++ dec (major s) ++ 46 :: dec (minor s) ++ 32 :: pad3 (status s) ++ tail).
  { unfold httpStatusLinePackInto, tail. rewrite <- app_assoc. f_equal. rewrite <- app_assoc. f_equal. cbn [app]. f_equal. rewrite <- app_assoc. f_equal. cbn [app]. f_equal.
    rewrite <- app_assoc. f_equal. cbn [app]. f_equal. by rewrite <- app_assoc. }
  rewrite Ep. unfold httpStatusLineParse.
  change (take 5 (bytes "HTTP/" ++ ?x)) with (bytes "HTTP/"). change (drop 5 (bytes "HTTP/" ++ ?x)) with x. change (strcasecmp_eq (bytes "HTTP/") (bytes "HTTP/")) with true. cbn [negb].
  assert (Hd : isdigit (nth 0 (dec (major s) ++ 46 :: dec (minor s) ++ 32 :: pad3 (status s) ++ tail) 0) = true).
  { destruct (dec_head (major s)) as (c & t & -> & Hc); [lia | exact Hc]. }
  rewrite Hd. cbn [negb]. rewrite scan_int_dec by done. rewrite scan_int_dec by done.
  change (dec (major s) ++ 46 :: dec (minor s) ++ 32 :: pad3 (status s) ++ tail) with (dec (major s) ++ (46 :: dec (minor s)) ++ 32 :: pad3 (status s) ++ tail).
  rewrite app_assoc. rewrite strchr_app, drop_past.
  - f_equal. f_equal. unfold pad3, atoi, scan_int. cbv zeta. rewrite <- app_assoc, skip_space_replicate. apply (atoi_dec_app (status s) tail); done.
  - rewrite elem_of_app, elem_of_cons. intros [H|[H|H]]; [revert H; apply digits_no; [lia | done] | done | revert H; apply digits_no; [lia | done]].
Qed.

(** A Content-Range of known positions is read as it was written. *)
Lemma cont_range_roundtrip (r : HttpHdrContRange) : 0 <= cr_offset r -> 0 < cr_length r -> cr_offset r + cr_length r < 2 ^ 63 ->
  cr_known (cr_offset r) = true -> cr_known (cr_length r) = true -> (0 <= elength r < 2 ^ 31 \/ elength r = cr_unknown) ->
  httpHdrContRangeParseCreate (httpHdrContRangePackInto r) = Some r.
Proof.
  intros Ho Hl Hs Ko Kl He. destruct r as [off len el]. cbn [cr_offset cr_length elength] in *. unfold httpHdrContRangePackInto, httpHdrRangeRespSpecPackInto.
  cbn [cr_offset cr_length elength]. rewrite Ko, Kl. cbn [negb orb]. rewrite (wraps_small 64) by lia. set (last := off + len - 1).
  set (te := if cr_known el then _ else _). assert (Ht : exists e, te = 47 :: e /\ (if nth 0 e 0 =? 42 then Some cr_unknown else httpHeaderParseSize e) = Some el).
  { unfold te. destruct He as [He | ->]; [|by exists (bytes "*")]. replace (cr_known el) with true by (unfold cr_known, cr_unknown; destruct (Z.eqb_spec el (2 ^ 32 - 1)); [lia | done]).
    rewrite wraps_small by lia. exists (dec el). split; [done|]. destruct (dec_head el) as (c & t & E & Hc%isdigit_range); [lia|].
    replace (nth 0 (dec el) 0 =? 42) with false by (rewrite E; cbn [nth]; symmetry; apply Z.eqb_neq; lia). rewrite <- (app_nil_r (dec el)). apply parse_dec; [lia | done]. }
  destruct Ht as (e & -> & Ht). unfold httpHdrContRangeParseCreate. rewrite <- !app_assoc. change (take 6 (bytes "bytes " ++ ?x)) with (bytes "bytes ").
  change (drop 6 (bytes "bytes " ++ ?x)) with x. change (strcasecmp_eq (bytes "bytes ") (bytes "bytes ")) with true. cbn [negb].
  cbn [app]. set (str := dec off ++ MINUS :: dec last ++ 47 :: e). assert (Es : str = (dec off ++ MINUS :: dec last) ++ 47 :: e) by (unfold str; by rewrite <- app_assoc).
  assert (Ec : strchr str 47 = Some (length (dec off ++ MINUS :: dec last)) /\ drop (S (length (dec off ++ MINUS :: dec last))) str = e).
  { rewrite Es. split; [apply strchr_app | apply drop_past]. rewrite elem_of_app, elem_of_cons. intros [H|[H|H]]; [revert H; apply digits_no; [lia | done] | done | revert H; apply digits_no; [lia | done]]. }
  destruct Ec as [-> ->]. rewrite Ht. destruct (dec_head off) as (c & t & E & Hc%isdigit_range); [lia|].
  assert (E42 : (nth 0 str 0 =? 42) = false) by (unfold str; rewrite E; cbn [app nth]; apply Z.eqb_neq; lia). rewrite E42.
  assert (Hp : httpHdrRangeRespSpecParseInit str (Z.of_nat (length (dec off ++ MINUS :: dec last))) = Some (off, len)); [|by rewrite Hp].
  unfold httpHdrRangeRespSpecParseInit. rewrite E42. pose proof (strlen_dec_pos last ltac:(unfold last; lia)) as Hp. unfold strlen in Hp.
  rewrite length_app. cbn [length]. pose proof (strlen_dec_pos off Ho) as Hq. unfold strlen in Hq. rewrite (proj2 (Z.ltb_ge _ _)) by lia. unfold str at 1. rewrite strchr_dec by done.
  rewrite (proj2 (Z.ltb_lt _ _)) by lia. unfold str at 1. rewrite parse_dec by (done || lia). cbv zeta. rewrite (proj2 (Z.ltb_lt _ _)) by lia. unfold str. rewrite drop_past.
  rewrite parse_dec by (done || (unfold last; lia)). cbn [option_map]. unfold size_diff. rewrite wraps_small by (unfold last; lia). rewrite (proj2 (Z.leb_le _ _)) by (unfold last; lia).
  replace (last + 1 - off) with len by (unfold last; lia). rewrite Kl, (proj2 (Z.eqb_neq len 0)) by lia. done.
Qed.

Lemma cc_roundtrip_witness :
  httpHdrCcParseCreate (httpHdrCcPackInto (Cc 2692 3600 (-1) (-1) (bytes "a=b"))) = Some (Cc 2692 3600 (-1) (-1) (bytes "a=b")).
Proof.
  apply (cc_roundtrip (Cc 2692 3600 (-1) (-1) (bytes "a=b"))). split; [done | done | done | done |].
  split; [split; [apply (bool_decide_unpack (Forall _ _)); by vm_compute | done] | by vm_compute].
Defined.
End HdrField.

Module Demo.
Import HdrField.

(** Directives that are read and written. *)
Example cc_ex :
  httpHdrCcParseCreate (bytes "no-cache, max-age=10, x, y") = Some (Cc 2180 10 (-1) (-1) (bytes "x"))
  /\ httpHdrCcPackInto (Cc 2180 10 (-1) (-1) (bytes "x")) = bytes "no-cache, max-age=10, x"
  (* a staleness without a value gets one *)
  /\ option_map httpHdrCcPackInto (httpHdrCcParseCreate (bytes "max-stale")) = Some (bytes "max-stale=-1")
  (* the copy has the mask of the unknown directive, not its text *)
  /\ httpHdrCcPackInto (httpHdrCcDup (Cc 2180 10 (-1) (-1) (bytes "x"))) = bytes "no-cache, max-age=10".
Proof. split_and!; by vm_compute. Qed.

(** The text of an unsatisfiable range is not one that is read; a length of more than 31 bits is cut;
    the position of the last byte of 4 GiB is taken as unknown. *)
Example cont_range_ex :
  httpHdrContRangeParseCreate (httpHdrContRangePackInto (ContRange cr_unknown cr_unknown 10)) = None
  /\ httpHdrContRangePackInto (ContRange 0 5 5000000000) = bytes "bytes 0-4/705032704"
  /\ httpHdrContRangePackInto (ContRange 4294967295 2 10) = bytes "*/10"
  /\ option_map httpHdrContRangePackInto (httpHdrContRangeSet (Spec 0 range_spec_unknown) 10) = Some (bytes "bytes 0--2/10").
Proof. split_and!; by vm_compute. Qed.

Example etag_ex :
  etagIsEqual (etagParseInit [34; 97; 34]) (etagParseInit [34; 97; 34]) = Some true
  /\ tag_str (etagParseInit [34; 97]) = None
  /\ weak (etagParseInit [87; 47; 34; 97; 34]) = true.
Proof. split_and!; by vm_compute. Qed.

Example status_ex :
  httpStatusLinePackInto (Sline 1 0 404 None) = bytes "HTTP/1.0 404 Not Found" ++ CRLF
  /\ httpStatusLineParse httpStatusLineInit (bytes "http/1.1 200 Fine") = (1, Sline 1 1 200 None)
  /\ httpStatusLineParse httpStatusLineInit (bytes "ICY 200 OK") = (0, Sline 0 0 600 None)
  (* a code that is defined has no text *)
  /\ httpStatusString 207 = bytes "Unknown".
Proof. split_and!; by vm_compute. Qed.

(** What is deleted in place is still in the mask: the next deletion, as that of a filter module, fails an assertion. *)
Example stale_mask_ex :
  option_map (fun h => httpHeaderDelById h 45) (reply_connection (reply (named_text "set-cookie"))) = Some None.
Proof. by vm_compute. Qed.

Definition access (cookie : header_mangler) (i : Z) : header_mangler := if i =? 45 then cookie else Mangler false None [].

(** A field that is removed stays in the mask; a value that is replaced leaves the length as it was;
    the name of an unknown field is compared with its case. *)
Example mangle_ex :
  option_map (fun h => httpHeaderFindEntry h 45) (httpHdrMangleList (access (Mangler true None [])) [] (reply (named_text "age"))) = Some None
  /\ option_map (fun h => len h - strlen (httpHeaderPackInto h)) (httpHdrMangleList (access (Mangler true (Some (bytes "hidden")) [])) [] (reply (named_text "age"))) = Some (-5)
  /\ httpHdrMangle (access (Mangler true None [])) [Mangler true None (bytes "X-A")] (Entry HDR_OTHER (bytes "x-a") (bytes "1")) = Some (Entry HDR_OTHER (bytes "x-a") (bytes "1")).
Proof. split_and!; by vm_compute. Qed.

(** A date of 2021 is not read: the object never expires by it. *)
Example expires_ex :
  option_map (fun h => httpHeaderGetTime h 22) (httpHeaderPutTime httpHeaderInit 22 1609459200) = Some (Some (-1))
  /\ option_map (fun h => httpHeaderGetTime h 22) (httpHeaderPutTime httpHeaderInit 22 1609459199) = Some (Some 1609459199).
Proof. split; by vm_compute. Qed.
End Demo.
