(* ===== verification/Reply.v ===== *)
(** * Reply: the replies of servers

    v3.0/src/squid-mybox/src: HttpReply.c, HttpMsg.c, [headersEnd] of mime.c, and of
    http.c whether a reply may be kept ([httpCachableReply]) and the mark of its
    variant ([httpMakeVaryMark]).  [None] is a failed assertion, or a joined list
    longer than a string may be. *)

From S2P Require Import Prelude CString Escape Range Header Rfc1123 HdrField.
Import Rfc1738 Header HdrField.

Module Reply.

(** ** The end of the headers *)

Definition LF : Z := 10.
Definition CR : Z := 13.

Definition end_state (state c : Z) : Z :=
  if state =? 0 then if c =? LF then 1 else 0
  else if state =? 1 then if c =? CR then 2 else if c =? LF then 3 else 0
  else if state =? 2 then if c =? LF then 3 else 0
  else state.

Fixpoint end_loop (mime : list Z) (e : nat) (state : Z) : nat * Z :=
  match mime with
  | [] => (e, state)
  | c :: mime => if state <? 3 then end_loop mime (S e) (end_state state c) else (e, state)
  end.
Definition headersEnd (mime : list Z) : nat := let '(e, state) := end_loop mime 0 1 in if state =? 3 then e else 0%nat.

(** The position that the loop over the CRs in front of [n] stops at. *)
Fixpoint back_cr (buf : list Z) (n : nat) : nat :=
  match n with
  | O => O
  | S m => if nth m buf 0 =? CR then back_cr buf m else n
  end.

(** The LF that ends an empty line at the start, or where that search stops. *)
Fixpoint empty_line (s : list Z) : nat :=
  match s with
  | c :: s' => if c =? CR then S (empty_line s') else if c =? LF then 1%nat else 0%nat
  | [] => 0%nat
  end.

(** [httpMsgIsolateHeaders] at the position [ps] of the buffer: the block of the headers
    and the position behind them; [Some None] when they are not all there. *)
Definition httpMsgIsolateHeaders (buf : list Z) (ps : nat) : option (option (list Z * nat)) :=
  let text := drop ps buf in
  let e := headersEnd text in
  if (0 <? e)%nat then
    let blk_end := back_cr buf (ps + e - 1) in
    let lf n := match n with S m => nth m buf 0 =? LF | O => false end in
    if negb (lf (ps + e)%nat) || negb (lf blk_end) then None else Some (Some (take (blk_end - ps) text, (ps + e)%nat))
  else
    match text with
    | c :: _ => if (c =? CR) || (c =? LF) then Some (Some ([], (ps + empty_line text)%nat)) else Some None
    | [] => Some None
    end.

(** ** Persistent connections *)

Definition HDR_USER_AGENT : Z := 49.
Definition HDR_VIA : Z := 51.

Definition httpMsgIsPersistent (hdr : header) : option bool :=
  agent ← httpHeaderGetStr hdr HDR_USER_AGENT;
  if match agent with
     | Some a => negb (httpHeaderHas hdr HDR_VIA) && (strcasecmp_eq (take 10 a) (bytes "Mozilla/3.") || strcasecmp_eq (take 11 a) (bytes "Netscape/3."))
     | None => false
     end then Some false
  else httpHeaderHasConnDir hdr (bytes "keep-alive").

(** ** The reply *)

Record HttpReply := Rep {
  hdr_sz : Z; content_length : Z; date : Z; last_modified : Z; expires : Z; content_type : option (list Z);
  cache_control : option HttpHdrCc; content_range : option HttpHdrContRange; keep_alive : bool;
  pstate : Z; sline : HttpStatusLine; hdr : header; body : list Z }.

(** The clock and the configuration. *)
Record env := Env { squid_curtime : Z; vary_ignore_expire : bool; hcfg : config }.

Definition psReadyToParseStartLine : Z := 0.
Definition psReadyToParseHeaders : Z := 1.
Definition psParsed : Z := 2.

Definition HDR_CONTENT_TYPE : Z := 18.
Definition HDR_DATE : Z := 20.
Definition HDR_EXPIRES : Z := 22.
Definition HDR_LAST_MODIFIED : Z := 29.
Definition HDR_VARY : Z := 50.

(** The date is the one of the reply so far; a [time_t] has 32 bits. *)
Definition httpReplyHdrExpirationTime (en : env) (date : Z) (cc : option HttpHdrCc) (h : header) : option Z :=
  let expires_of_header :=
    if httpHeaderHas h HDR_EXPIRES then e ← httpHeaderGetTime h HDR_EXPIRES; Some (if e <? 0 then squid_curtime en else e) else Some (-1) in
  let by_expires :=
    if vary_ignore_expire en && httpHeaderHas h HDR_VARY then
      d ← httpHeaderGetTime h HDR_DATE;
      e ← httpHeaderGetTime h HDR_EXPIRES;
      if d =? e then Some (-1) else expires_of_header
    else expires_of_header in
  match cc with
  | Some cc =>
      if 0 <=? s_maxage cc then Some (if 0 <=? date then i32 (date + s_maxage cc) else squid_curtime en)
      else if 0 <=? max_age cc then Some (if 0 <=? date then i32 (date + max_age cc) else squid_curtime en)
      else by_expires
  | None => by_expires
  end.

Definition httpReplyHdrCacheInit (en : env) (rep : HttpReply) : option HttpReply :=
  let h := hdr rep in
  cl ← httpHeaderGetSize h HDR_CONTENT_LENGTH;
  d ← httpHeaderGetTime h HDR_DATE;
  lm ← httpHeaderGetTime h HDR_LAST_MODIFIED;
  ct ← httpHeaderGetStr h HDR_CONTENT_TYPE;
  cc ← httpHeaderGetCc h;
  cr ← httpHeaderGetContRange h;
  ka ← httpMsgIsPersistent h;
  ex ← httpReplyHdrExpirationTime en d cc h;
  Some (Rep (hdr_sz rep) cl d lm ex (option_map (fun s => take (strcspn s [59; 9; 32]) s) ct) cc cr ka (pstate rep) (sline rep) h (body rep)).

(** [httpReplyInit], and [httpReplyReset], which frees what was there. *)
Definition httpReplyInit (en : env) : option HttpReply :=
  rep ← httpReplyHdrCacheInit en (Rep 0 0 0 0 0 None None None false psReadyToParseStartLine httpStatusLineClean httpHeaderInit []);
  Some (Rep (hdr_sz rep) (content_length rep) (date rep) (last_modified rep) (expires rep) (content_type rep) (cache_control rep) (content_range rep)
         (keep_alive rep) (pstate rep) httpStatusLineInit (hdr rep) (body rep)).
Definition httpReplyReset (en : env) (rep : HttpReply) : option HttpReply := httpReplyInit en.

Definition set_sline (s : HttpStatusLine) (rep : HttpReply) : HttpReply :=
  Rep (hdr_sz rep) (content_length rep) (date rep) (last_modified rep) (expires rep) (content_type rep) (cache_control rep) (content_range rep) (keep_alive rep) (pstate rep) s (hdr rep) (body rep).
Definition set_parsed (sz p : Z) (rep : HttpReply) : HttpReply :=
  Rep sz (content_length rep) (date rep) (last_modified rep) (expires rep) (content_type rep) (cache_control rep) (content_range rep) (keep_alive rep) p (sline rep) (hdr rep) (body rep).
Definition set_hdr (h : header) (rep : HttpReply) : HttpReply :=
  Rep (hdr_sz rep) (content_length rep) (date rep) (last_modified rep) (expires rep) (content_type rep) (cache_control rep) (content_range rep) (keep_alive rep) (pstate rep) (sline rep) h (body rep).

Definition httpReplyParseError (en : env) (rep : HttpReply) : option (Z * HttpReply) :=
  rep ← httpReplyReset en rep;
  Some (-1, set_sline (Sline (major (sline rep)) (minor (sline rep)) HTTP_INVALID_HEADER (reason (sline rep))) rep).

Fixpoint skip_cr (s : list Z) : nat := match s with c :: s => if c =? CR then S (skip_cr s) else 0%nat | [] => 0%nat end.

(** The position behind the first line; [None] without an end of line. *)
Definition httpReplyIsolateStart (buf : list Z) (ps : nat) : option nat :=
  let text := drop ps buf in
  let slen := strcspn text [13; 10] in
  if (length text <=? slen)%nat then None
  else
    let e := (slen + skip_cr (drop slen text))%nat in
    let behind := if nth e text 0 =? LF then S e else e in
    Some (ps + behind)%nat.

(** The headers of [buf] from [ps] on. *)
Definition parse_headers (en : env) (rep : HttpReply) (buf : list Z) (ps : nat) (atEnd : bool) : option (Z * HttpReply) :=
  if pstate rep =? psReadyToParseHeaders then
    blk ← httpMsgIsolateHeaders buf ps;
    match (match blk with Some b => Some b | None => if atEnd then Some (drop ps buf, ps) else None end) with
    | None => Some (0, rep)
    | Some (blk, ps) =>
        '(ok, h) ← httpHeaderParse (hcfg en) blk (hdr rep);
        if ok =? 0 then httpReplyParseError en (set_hdr h rep)
        else
          rep ← httpReplyHdrCacheInit en (set_hdr h rep);
          Some (1, set_parsed (Z.of_nat ps) psParsed rep)
    end
  else Some (1, rep).

Definition httpReplyParseStep (en : env) (rep : HttpReply) (buf : list Z) (atEnd : bool) : option (Z * HttpReply) :=
  if psParsed <=? pstate rep then None
  else if pstate rep =? psReadyToParseStartLine then
    match httpReplyIsolateStart buf 0 with
    | None => Some (0, rep)
    | Some ps =>
        match httpStatusLineParse (sline rep) buf with
        | (0, s) => httpReplyParseError en (set_sline s rep)
        | (_, s) => parse_headers en (set_parsed (Z.of_nat ps) psReadyToParseHeaders (set_sline s rep)) buf ps atEnd
        end
    end
  else parse_headers en rep buf 0 atEnd.

(** The first [end_] bytes of [buf], as a C string. *)
Definition httpReplyParse (en : env) (rep : HttpReply) (buf : list Z) (end_ : nat) : option (bool * HttpReply) :=
  rep ← httpReplyReset en rep;
  '(success, rep) ← httpReplyParseStep en rep (cstr (take end_ buf)) false;
  Some (success =? 1, rep).

Definition httpReplyPackInto (rep : HttpReply) : list Z :=
  httpStatusLinePackInto (sline rep) ++ httpHeaderPackInto (hdr rep) ++ CRLF ++ body rep.

Definition ImsEntries : list Z := [HDR_DATE; HDR_CONTENT_TYPE; HDR_EXPIRES; HDR_LAST_MODIFIED].

Fixpoint pack_found (h : header) (ids : list Z) : option (list Z) :=
  match ids with
  | [] => Some []
  | i :: ids => e ← httpHeaderFindEntry h i; rest ← pack_found h ids; Some (match e with Some e => httpHeaderEntryPackInto e | None => [] end ++ rest)
  end.
Definition httpPacked304Reply (rep : HttpReply) : option (list Z) :=
  t ← pack_found (hdr rep) ImsEntries; Some (bytes "HTTP/1.0 304 Not Modified" ++ CRLF ++ t ++ CRLF).

(** [Denied304HeadersArr] as a mask. *)
Definition Denied304HeadersMask : Z := fold_left Z.setbit [6; 12; 13; HDR_CONTENT_LENGTH; 15; HDR_CONTENT_RANGE; HDR_LAST_MODIFIED; 30; HDR_OTHER] 0.

Definition httpReplyUpdateOnNotModified (en : env) (rep freshRep : HttpReply) : option HttpReply :=
  h ← httpHeaderUpdate (hdr rep) (hdr freshRep) (Some Denied304HeadersMask);
  httpReplyHdrCacheInit en (set_hdr h rep).

(** Fields put one after the other, where there is something to put. *)
Definition put_if (b : bool) (f : header -> option header) (h : header) : option header := if b then f h else Some h.

Definition HDR_SERVER : Z := 44.
Definition HDR_MIME_VERSION : Z := 33.
Definition HDR_LOCATION : Z := 31.

Definition httpReplySetHeaders (en : env) (appname : list Z) (rep : HttpReply) (mj mn st : Z) (reason ctype : option (list Z)) (clen lmt exp : Z) : option HttpReply :=
  h ← httpHeaderPutStr (hdr rep) HDR_SERVER appname;
  h ← httpHeaderPutStr h HDR_MIME_VERSION (bytes "1.0");
  h ← httpHeaderPutTime h HDR_DATE (squid_curtime en);
  h ← match ctype with Some t => httpHeaderPutStr h HDR_CONTENT_TYPE t | None => Some h end;
  h ← put_if (0 <=? clen) (fun h => httpHeaderPutSize h HDR_CONTENT_LENGTH clen) h;
  h ← put_if (0 <=? exp) (fun h => httpHeaderPutTime h HDR_EXPIRES exp) h;
  h ← put_if (0 <? lmt) (fun h => httpHeaderPutTime h HDR_LAST_MODIFIED lmt) h;
  Some (Rep (hdr_sz rep) clen (squid_curtime en) lmt exp ctype (cache_control rep) (content_range rep) (keep_alive rep) (pstate rep) (Sline mj mn st reason) h (body rep)).

Definition httpRedirectReply (en : env) (appname : list Z) (rep : HttpReply) (st : Z) (loc : list Z) : option HttpReply :=
  h ← httpHeaderPutStr (hdr rep) HDR_SERVER appname;
  h ← httpHeaderPutTime h HDR_DATE (squid_curtime en);
  h ← httpHeaderPutSize h HDR_CONTENT_LENGTH 0;
  h ← httpHeaderPutStr h HDR_LOCATION loc;
  Some (Rep (hdr_sz rep) 0 (squid_curtime en) (last_modified rep) (expires rep) (content_type rep) (cache_control rep) (content_range rep) (keep_alive rep) (pstate rep)
         (Sline 1 0 st (Some (httpStatusString st))) h (body rep)).

Definition httpReplyBodySize (is_head : bool) (rep : HttpReply) : Z :=
  let st := status (sline rep) in
  if major (sline rep) <? 1 then -1
  else if is_head then 0
  else if st =? 200 then content_length rep
  else if (st =? 204) || (st =? 304) || (st <? 200) then 0
  else content_length rep.

(** ** What may be kept *)

Definition CC_PUBLIC : Z := 0.
Definition CC_PRIVATE : Z := 1.
Definition CC_NO_CACHE : Z := 2.
Definition CC_NO_STORE : Z := 3.
Definition HDR_PRAGMA : Z := 34.

(** [fresh] is [refreshIsCachable] of the entry, [auth] and [peer] whether the request has
    credentials and went to another proxy.  1: cachable, 0: not, -1: only as an error. *)
Definition httpCachableReply (rep : HttpReply) (auth peer fresh : bool) : option Z :=
  let cc := match cache_control rep with Some c => cc_mask c | None => 0 end in
  let test := Z.testbit cc in
  if test CC_PRIVATE || test CC_NO_CACHE || test CC_NO_STORE || (auth && negb (test CC_PUBLIC)) then Some 0
  else
    no_cache ← (if httpHeaderHas (hdr rep) HDR_PRAGMA then
                  match httpHeaderGetList (hdr rep) HDR_PRAGMA with
                  | None => None
                  | Some (Some s) => Some (strListIsMember s (bytes "no-cache") COMMA)
                  | Some None => Some false
                  end
                else Some false);
    if (no_cache : bool) then Some 0
    else
      v ← httpHeaderGetStr (hdr rep) HDR_CONTENT_TYPE;
      if match v with Some v => strcasecmp_eq (take 25 v) (bytes "multipart/x-mixed-replace") | None => false end then Some 0
      else
        let st := status (sline rep) in
        if bool_decide (st ∈ [200; 203; 300; 301; 410]) then
          if negb fresh then Some 0
          else if (-1 <? date rep) || (-1 <? last_modified rep) || negb peer || (-1 <? expires rep) then Some 1 else Some 0
        else if st =? 302 then Some (if -1 <? expires rep then 1 else 0)
        else if bool_decide (st ∈ [204; 305; 400; 403; 404; 405; 414; 500; 501; 502; 503; 504]) then Some (-1)
        else Some 0.

(** ** Variants *)

(** The mark of one name: the value of the request, quoted, when it has one. *)
Definition mark_item (request : header) (vstr name : list Z) : option (list Z) :=
  vstr ← strListAdd vstr name COMMA;
  value ← httpHeaderGetByName request name;
  match value with
  | None => Some vstr
  | Some v =>
      vstr ← stringAppend vstr [61; 34];
      vstr ← stringAppend vstr (rfc1738_escape_part v);
      stringAppend vstr [34]
  end.

Definition item_texts (list_ : list Z) : list (list Z) := map (fun it => take it.2 it.1) (items COMMA list_).

(** [Some None]: no mark, which is the case with [*] among the names. *)
Fixpoint mark_loop (request : header) (names : list (list Z)) (vstr : option (list Z)) : option (option (list Z)) :=
  match names with
  | [] => Some vstr
  | n :: names =>
      let name := map tolower n in
      if bool_decide (name = bytes "*") then Some None
      else v ← mark_item request (default [] vstr) name; mark_loop request names (Some v)
  end.

Definition httpMakeVaryMark (request reply : header) : option (option (list Z)) :=
  vary ← httpHeaderGetList reply HDR_VARY;
  match vary with
  | None => Some None
  | Some vary => mark_loop request (item_texts vary) None
  end.

(** ** A reply is read as it was written *)

Lemma end_zero (w rest : list Z) (e : nat) : (LF ∉ w) -> end_loop (w ++ LF :: rest) e 0 = end_loop rest (e + length w + 1) 1.
Proof.
  revert e. induction w as [|c w IH]; intros e Hw; cbn [app end_loop].
  - change (0 <? 3) with true. cbn iota. change (end_state 0 LF) with 1. f_equal. cbn [length]. lia.
  - apply not_elem_of_cons in Hw as [Hc Hw]. change (0 <? 3) with true. cbn iota. unfold end_state at 1. change (0 =? 0) with true. cbn iota.
    rewrite (proj2 (Z.eqb_neq c LF)) by congruence. rewrite IH by done. f_equal. cbn [length]. lia.
Qed.

Lemma end_line (w rest : list Z) (e : nat) : w <> [] -> Forall (fun c => c <> 0 /\ c <> 10 /\ c <> 13) w -> end_loop (w ++ CRLF ++ rest) e 1 = end_loop rest (e + length w + 2) 1.
Proof.
  intros Hne H. destruct H as [|c w Hc Hw]; [done|]. cbn [app end_loop]. change (1 <? 3) with true. cbn iota. unfold end_state at 1.
  change (1 =? 0) with false. change (1 =? 1) with true. cbn iota. rewrite (proj2 (Z.eqb_neq c CR)), (proj2 (Z.eqb_neq c LF)) by (unfold CR, LF; lia).
  change (w ++ CRLF ++ rest) with (w ++ [13] ++ LF :: rest). rewrite app_assoc, end_zero.
  - f_equal. rewrite length_app. cbn [length]. lia.
  - rewrite elem_of_app. intros [Hin|Hin%list_elem_of_singleton]; [|done]. rewrite Forall_forall in Hw. by apply Hw in Hin as (_ & ? & _).
Qed.

Lemma pack_text (e : entry) : httpHeaderEntryPackInto e = field_text e ++ CRLF.
Proof. unfold httpHeaderEntryPackInto, field_text. by rewrite <- !app_assoc. Qed.

Lemma headersEnd_packed (cfg : config) (l : list entry) (rest : list Z) : Forall (wf_entry cfg) l ->
  headersEnd (concat (map httpHeaderEntryPackInto l) ++ CRLF ++ rest) = (length (concat (map httpHeaderEntryPackInto l)) + 2)%nat.
Proof.
  intros Hl. assert (H : forall e, end_loop (concat (map httpHeaderEntryPackInto l) ++ CRLF ++ rest) e 1 = ((e + length (concat (map httpHeaderEntryPackInto l)) + 2)%nat, 3)).
  { induction Hl as [|x l Wx Hl IH]; intros e.
    - transitivity (end_loop rest (S (S e)) 3); [done|]. replace (e + length (concat (map httpHeaderEntryPackInto [])) + 2)%nat with (S (S e)) by (cbn; lia).
      by destruct rest.
    - cbn [map concat]. rewrite pack_text, <- !app_assoc. destruct (field_text_ok cfg x Wx) as [Hf Hlen]. rewrite end_line; [|by destruct (field_text x); [cbn in Hlen; lia|] | done].
      rewrite IH. f_equal. rewrite !length_app. change (length CRLF) with 2%nat. lia. }
  unfold headersEnd. rewrite H. done.
Qed.

Lemma back_cr_lf (p rest : list Z) : back_cr (p ++ LF :: CR :: rest) (S (S (length p))) = S (length p).
Proof.
  cbn [back_cr]. replace (nth (S (length p)) (p ++ LF :: CR :: rest) 0) with CR.
  - change (CR =? CR) with true. cbn iota. rewrite (app_nth2 p _ 0 (le_n (length p))), Nat.sub_diag. done.
  - symmetry. rewrite app_nth2 by lia. by replace (S (length p) - length p)%nat with 1%nat by lia.
Qed.

(** The headers behind a first line [sl]. *)
Lemma isolate_packed (cfg : config) (sl b : list Z) (l : list entry) : Forall (wf_entry cfg) l -> last sl = Some LF ->
  let H := concat (map httpHeaderEntryPackInto l) in
  httpMsgIsolateHeaders (sl ++ H ++ CRLF ++ b) (length sl) = Some (Some (H, (length sl + (length H + 2))%nat)).
Proof.
  intros Hl Hs H. unfold httpMsgIsolateHeaders. rewrite drop_app_length. cbv zeta. pose proof (headersEnd_packed cfg l b Hl) as He. fold H in He |- *. rewrite He. clear He.
  rewrite (proj2 (Nat.ltb_lt _ _)) by lia. assert (Hp : exists p, sl ++ H = p ++ [LF]).
  { assert (Hla : last (sl ++ H) = Some LF).
    { unfold H. destruct l as [|e l _] using rev_ind; [by rewrite app_nil_r|]. rewrite map_app, concat_app. cbn [map concat]. rewrite app_nil_r, pack_text.
      change CRLF with ([13] ++ [LF]). rewrite !app_assoc. apply last_snoc. }
    destruct (sl ++ H) as [|c p _] using rev_ind; [done|]. rewrite last_snoc in Hla. injection Hla as ->. by exists p. }
  destruct Hp as (p & Ep). assert (Eb : sl ++ H ++ CRLF ++ b = p ++ LF :: CR :: LF :: b) by (rewrite app_assoc, Ep, <- app_assoc; done).
  assert (En : (length sl + length H)%nat = S (length p)) by (rewrite <- length_app, Ep, length_app; cbn; lia). rewrite Eb.
  replace (length sl + (length H + 2))%nat with (S (S (S (length p)))) by lia. replace (S (S (S (length p))) - 1)%nat with (S (S (length p))) by lia.
  rewrite back_cr_lf. cbv zeta. replace (nth (S (S (length p))) (p ++ LF :: CR :: LF :: b) 0) with LF by (rewrite app_nth2 by lia; by replace (S (S (length p)) - length p)%nat with 2%nat by lia).
  rewrite (app_nth2 p _ 0 (le_n (length p))), Nat.sub_diag. cbn [nth]. change (LF =? LF) with true. cbn [negb orb]. replace (S (length p) - length sl)%nat with (length H) by lia.
  by rewrite take_app_length.
Qed.

(** ** The values beside the header *)

Definition value_room (l : list entry) : Z := fold_right (fun e n => 2 + strlen (value e) + n) 0 l.

(** A header whose lists fit strings. *)
Definition fits (h : header) : Prop := value_room (httpHeaderGetEntry h) <= max_string.

Lemma value_room_filter (p : entry -> bool) (l : list entry) : value_room (List.filter p l) <= value_room l.
Proof. induction l as [|e l IH]; [done|]. cbn [List.filter value_room fold_right]. unfold value_room in *. destruct (p e); cbn [fold_right]; unfold strlen in *; lia. Qed.

Lemma get_list_total (h : header) (i : Z) : ok h -> fits h -> is_list_header i = true -> exists r, httpHeaderGetList h i = Some r.
Proof.
  intros [H1 _ _] Hf Hl. unfold httpHeaderGetList. rewrite Hl. cbn [negb]. destruct (CBIT_TEST (mask h) i) eqn:Em; cbn [negb]; [|by exists None].
  apply H1 in Em as (e & Hin & Hid). destruct (joined_fits (List.filter (fun e => id e =? i) (httpHeaderGetEntry h)) []) as (t & Et & _).
  { pose proof (value_room_filter (fun e => id e =? i) (httpHeaderGetEntry h)). unfold fits, value_room in *. change (strlen []) with 0. lia. }
  assert (He : e ∈ List.filter (fun e => id e =? i) (httpHeaderGetEntry h)) by (apply elem_of_filter_bool; split; [done | by apply Z.eqb_eq]).
  destruct (List.filter _ _) as [|x l]; [by apply not_elem_of_nil in He|]. rewrite Et. by exists (Some t).
Qed.

Lemma get_typed_total {A : Type} (t : field_type) (h : header) (i : Z) (f : option (list Z) -> A) : ok h -> has_type i t = true -> is_list_header i = false ->
  exists r, get_typed t h i f = Some r.
Proof.
  intros Hok Ht Hl. unfold get_typed. rewrite Ht. unfold has_type in Ht. apply andb_prop in Ht as [Ht _]. apply andb_prop in Ht as [_ Hi%Z.ltb_lt].
  rewrite find_ok by done. by eexists.
Qed.

Lemma conn_dir_total (h : header) (d : list Z) : ok h -> fits h -> exists r, httpHeaderHasConnDir h d = Some r.
Proof.
  intros Hok Hf. unfold httpHeaderHasConnDir. destruct (httpHeaderHas h HDR_PROXY_CONNECTION).
  - destruct (get_list_total h HDR_PROXY_CONNECTION Hok Hf) as ([l|] & ->); [done | by eexists..].
  - destruct (httpHeaderHas h HDR_CONNECTION); [|by eexists]. destruct (get_list_total h HDR_CONNECTION Hok Hf) as ([l|] & ->); [done | by eexists..].
Qed.

Lemma persistent_total (h : header) : ok h -> fits h -> exists r, httpMsgIsPersistent h = Some r.
Proof.
  intros Hok Hf. unfold httpMsgIsPersistent, httpHeaderGetStr. destruct (get_typed_total ftStr h HDR_USER_AGENT (fun v => v) Hok) as (a & ->); [done | done |].
  cbn [mbind option_bind]. destruct (match a with Some _ => _ | None => _ end); [by eexists | by apply conn_dir_total].
Qed.

Lemma get_cc_total (h : header) : ok h -> fits h -> exists r, httpHeaderGetCc h = Some r.
Proof.
  intros Hok Hf. unfold httpHeaderGetCc. destruct (negb _); [by eexists|]. destruct (get_list_total h HDR_CACHE_CONTROL Hok Hf) as ([l|] & ->); [done | by eexists..].
Qed.

Lemma get_time_total (h : header) (i : Z) : ok h -> has_type i ftDate_1123 = true -> exists r, httpHeaderGetTime h i = Some r.
Proof.
  intros Hok Ht. apply get_typed_total; [done | done |]. unfold has_type, type_of in Ht. apply andb_prop in Ht as [_ Ht%bool_decide_eq_true].
  case_bool_decide; [done|]. case_bool_decide as Hi; [|by repeat case_match]. rewrite !elem_of_cons in Hi. destruct_or! Hi; subst; try done. by apply not_elem_of_nil in Hi.
Qed.

Lemma expiration_total (en : env) (d : Z) (cc : option HttpHdrCc) (h : header) : ok h -> exists r, httpReplyHdrExpirationTime en d cc h = Some r.
Proof.
  intros Hok. destruct (get_time_total h HDR_DATE Hok eq_refl) as (td & Ed). destruct (get_time_total h HDR_EXPIRES Hok eq_refl) as (te & Ee).
  unfold httpReplyHdrExpirationTime. rewrite Ed, Ee. cbn [mbind option_bind].
  destruct cc as [cc|]; [destruct (0 <=? s_maxage cc); [by eexists|]; destruct (0 <=? max_age cc); [by eexists|]|];
    (destruct (_ && _); [destruct (td =? te); [by eexists|]|]); destruct (httpHeaderHas h HDR_EXPIRES); by eexists.
Qed.

(** What [httpReplyHdrCacheInit] changes. *)
Record same_message (a b : HttpReply) : Prop := {
  sm_hdr : hdr b = hdr a; sm_sline : sline b = sline a; sm_pstate : pstate b = pstate a; sm_body : body b = body a; sm_sz : hdr_sz b = hdr_sz a
}.

Lemma cache_init_total (en : env) (rep : HttpReply) : ok (hdr rep) -> fits (hdr rep) -> exists rep', httpReplyHdrCacheInit en rep = Some rep' /\ same_message rep rep'.
Proof.
  intros Hok Hf. unfold httpReplyHdrCacheInit, httpHeaderGetSize, httpHeaderGetStr.
  destruct (get_typed_total ftSize (hdr rep) HDR_CONTENT_LENGTH (fun v => match v with Some s => default 0 (httpHeaderParseSize s) | None => -1 end) Hok) as (cl & ->); [done..|].
  destruct (get_time_total (hdr rep) HDR_DATE Hok eq_refl) as (d & ->). destruct (get_time_total (hdr rep) HDR_LAST_MODIFIED Hok eq_refl) as (lm & ->).
  destruct (get_typed_total ftStr (hdr rep) HDR_CONTENT_TYPE (fun v => v) Hok) as (ct & ->); [done..|]. destruct (get_cc_total (hdr rep) Hok Hf) as (cc & ->).
  unfold httpHeaderGetContRange. rewrite find_ok by done. destruct (persistent_total (hdr rep) Hok Hf) as (ka & ->). cbn [mbind option_bind].
  destruct (expiration_total en d cc (hdr rep) Hok) as (ex & ->). cbn [mbind option_bind]. eexists. split; [reflexivity|]. done.
Qed.

(** It depends on the header only. *)
Lemma cache_init_again (en : env) (rep rep' : HttpReply) (sz p : Z) : httpReplyHdrCacheInit en rep = Some rep' -> httpReplyHdrCacheInit en (set_parsed sz p rep') = Some (set_parsed sz p rep').
Proof.
  unfold httpReplyHdrCacheInit. intros H.
  destruct (httpHeaderGetSize _ _) as [cl|] eqn:E1; [|done]. destruct (httpHeaderGetTime (hdr rep) HDR_DATE) as [d|] eqn:E2; [|done].
  destruct (httpHeaderGetTime (hdr rep) HDR_LAST_MODIFIED) as [lm|] eqn:E3; [|done]. destruct (httpHeaderGetStr _ _) as [ct|] eqn:E4; [|done].
  destruct (httpHeaderGetCc _) as [cc|] eqn:E5; [|done]. destruct (httpHeaderGetContRange _) as [cr|] eqn:E6; [|done]. destruct (httpMsgIsPersistent _) as [ka|] eqn:E7; [|done].
  cbn [mbind option_bind] in H. destruct (httpReplyHdrExpirationTime _ _ _ _) as [ex|] eqn:E8; [|done]. cbn [mbind option_bind] in H. injection H as <-.
  cbn [hdr set_parsed]. rewrite E1, E2, E3, E4, E5, E6, E7. cbn [mbind option_bind]. by rewrite E8.
Qed.

Lemma cstr_app (a b : list Z) : Forall (fun c => c <> 0) a -> cstr (a ++ b) = a ++ cstr b.
Proof. induction 1 as [|c a Hc _ IH]; [done|]. cbn [app cstr]. by rewrite (proj2 (Z.eqb_neq c 0)), IH. Qed.

Lemma cstr_length (s : list Z) : (length (cstr s) <= length s)%nat.
Proof. induction s as [|c s IH]; cbn [cstr length]; [done|]. destruct (c =? 0); cbn [length]; lia. Qed.

(** A reason on one line. *)
Definition line_ok (s : list Z) : Prop := Forall (fun c => c <> 0 /\ c <> 10 /\ c <> 13) s.
Definition wf_sline (s : HttpStatusLine) : Prop :=
  0 <= major s < 2 ^ 31 /\ 0 <= minor s < 2 ^ 31 /\ 0 <= status s < 2 ^ 31 /\ match reason s with Some r => line_ok r | None => True end.

Lemma dec_line (n : Z) : 0 <= n -> line_ok (dec n).
Proof. intros Hn. rewrite dec_digits by done. eapply Forall_impl; [by apply digits_digit|]. intros c Hc%isdigit_range. lia. Qed.

Lemma bytes_line (s : list Z) : forallb (fun c => negb ((c =? 0) || (c =? 10) || (c =? 13))) s = true -> line_ok s.
Proof. intros H. apply Forall_forall. intros c Hc%list_elem_of_In. rewrite forallb_forall in H. apply H in Hc. lia. Qed.

Lemma status_string_line (st : Z) : line_ok (httpStatusString st).
Proof.
  apply bytes_line. unfold httpStatusString. destruct (List.find _ _) as [[n t]|] eqn:E; [|done]. apply List.find_some in E as [Hin _].
  assert (H : forallb (fun p => forallb (fun c => negb ((c =? 0) || (c =? 10) || (c =? 13))) (bytes p.2)) status_texts = true) by (by vm_compute).
  rewrite forallb_forall in H. exact (H _ Hin).
Qed.

(** The status line without its end. *)
Lemma status_line_text (s : HttpStatusLine) : wf_sline s -> exists t, httpStatusLinePackInto s = t ++ CRLF /\ line_ok t.
Proof.
  intros (H1 & H2 & H3 & H4). unfold httpStatusLinePackInto, pad3.
  exists (bytes "HTTP/" ++ dec (major s) ++ 46 :: dec (minor s) ++ 32 :: (replicate (3 - length (dec (status s))) 32 ++ dec (status s)) ++ 32 :: httpStatusLineReason s). split.
  - by repeat (rewrite <- app_assoc || (progress cbn [app])).
  - pose proof (dec_line (major s) ltac:(lia)). pose proof (dec_line (minor s) ltac:(lia)). pose proof (dec_line (status s) ltac:(lia)).
    assert (line_ok (httpStatusLineReason s)) by (unfold httpStatusLineReason; destruct (reason s); [done | apply status_string_line]).
    unfold line_ok in *. apply Forall_app. split; [by apply bytes_line|]. apply Forall_app. split; [done|]. constructor; [lia|].
    apply Forall_app. split; [done|]. constructor; [lia|]. rewrite <- app_assoc. apply Forall_app. split; [apply Forall_replicate; lia|].
    apply Forall_app. split; [done|]. constructor; [lia | done].
Qed.

Lemma isolate_start (t rest : list Z) : line_ok t -> httpReplyIsolateStart ((t ++ CRLF) ++ rest) 0 = Some (length (t ++ CRLF)).
Proof.
  intros Ht. unfold httpReplyIsolateStart. rewrite drop_0, <- app_assoc. rewrite strcspn_item.
  - rewrite (proj2 (Nat.leb_gt _ _)) by (rewrite !length_app; change (length CRLF) with 2%nat; lia). rewrite drop_app_length. change (skip_cr (CRLF ++ rest)) with 1%nat.
    rewrite app_nth2 by lia. replace (length t + 1 - length t)%nat with 1%nat by lia. change (nth 1 (CRLF ++ rest) 0) with LF. cbv zeta. change (LF =? LF) with true. cbn iota.
    f_equal. rewrite length_app. change (length CRLF) with 2%nat. lia.
  - eapply Forall_impl; [exact Ht|]. intros c (_ & H10 & H13). apply bool_decide_eq_false_2. set_solver.
  - done.
Qed.

Lemma reset_total (en : env) (rep : HttpReply) : exists r, httpReplyReset en rep = Some r
  /\ hdr r = httpHeaderInit /\ sline r = httpStatusLineInit /\ pstate r = psReadyToParseStartLine.
Proof.
  unfold httpReplyReset, httpReplyInit. destruct (cache_init_total en (Rep 0 0 0 0 0 None None None false psReadyToParseStartLine httpStatusLineClean httpHeaderInit [])) as (r & -> & [Hh _ Hp _ _]).
  - apply init_ok.
  - done.
  - cbn [mbind option_bind]. eexists. split; [reflexivity|]. done.
Qed.

Lemma value_room_packed (l : list entry) : value_room l <= strlen (concat (map httpHeaderEntryPackInto l)).
Proof.
  induction l as [|e l IH]; [done|]. cbn [value_room fold_right map concat]. rewrite strlen_app. fold (value_room l).
  unfold httpHeaderEntryPackInto at 1. rewrite !strlen_app. change (strlen (bytes ": ")) with 2. pose proof (strlen_nonneg (name e)). pose proof (strlen_nonneg CRLF). lia.
Qed.

(** The headers of a text that was packed, once the first line is read. *)
Lemma parse_headers_packed (en : env) (rep : HttpReply) (sl b : list Z) (l : list entry) :
  Forall (wf_entry (hcfg en)) l -> Z.of_nat (length (List.filter (fun e => id e =? HDR_CONTENT_LENGTH) l)) <= 1 ->
  strlen (concat (map httpHeaderEntryPackInto l)) <= max_string -> last sl = Some LF -> pstate rep = psReadyToParseHeaders -> hdr rep = httpHeaderInit ->
  exists rep', parse_headers en rep (sl ++ concat (map httpHeaderEntryPackInto l) ++ CRLF ++ b) (length sl) false = Some (1, rep')
    /\ httpHeaderGetEntry (hdr rep') = l /\ sline rep' = sline rep /\ pstate rep' = psParsed
    /\ hdr_sz rep' = strlen (sl ++ concat (map httpHeaderEntryPackInto l) ++ CRLF) /\ httpReplyHdrCacheInit en rep' = Some rep'.
Proof.
  intros Hl H1 Hs Hla Hp Hh. unfold parse_headers. rewrite Hp. change (psReadyToParseHeaders =? psReadyToParseHeaders) with true. cbn iota.
  rewrite (isolate_packed (hcfg en) sl b l Hl Hla). cbn [mbind option_bind]. rewrite Hh.
  pose proof (read_back (hcfg en) l [] Hl H1 (or_introl eq_refl)) as Hr. cbv zeta in Hr. destruct Hr as [Hr Hg]. rewrite app_nil_r in Hr. unfold httpHeaderPackInto in Hr. rewrite Hg in Hr.
  destruct (parse_fields_total (hcfg en) (concat (map httpHeaderEntryPackInto l))) as (r & h & Er & Hok). rewrite Hr in Er. injection Er as <- <-. rewrite Hr.
  cbn [mbind option_bind]. change (1 =? 0) with false. cbn iota. set (h := fold_left _ l _) in *.
  assert (Hf : fits h) by (unfold fits; rewrite Hg; pose proof (value_room_packed l); lia).
  destruct (cache_init_total en (set_hdr h rep) Hok Hf) as (rep1 & E1 & [Sh Ss _ _ _]). rewrite E1. cbn [mbind option_bind]. eexists. split; [reflexivity|].
  cbn [hdr sline pstate hdr_sz set_parsed]. rewrite Sh, Ss. split; [exact Hg|]. split; [done|]. split; [done|]. split; [|by eapply cache_init_again].
  unfold strlen. rewrite !length_app. change (length CRLF) with 2%nat. lia.
Qed.

(** C13: A reply that is packed is read back: the version and the status of its line, its fields in their order, and the size
    of its head, whatever the body is and whatever the reply object held before; the values beside the header (length,
    dates, type, directives, ranges, persistence, expiration) are those of the fields that were read. *)
Theorem reply_roundtrip (en : env) (rep0 rep : HttpReply) (l : list entry) :
  wf_sline (sline rep) -> Forall (wf_entry (hcfg en)) l -> Z.of_nat (length (List.filter (fun e => id e =? HDR_CONTENT_LENGTH) l)) <= 1 ->
  hdr rep = fold_left httpHeaderAddEntry l httpHeaderInit -> strlen (httpHeaderPackInto (hdr rep)) <= max_string ->
  exists rep', httpReplyParse en rep0 (httpReplyPackInto rep) (length (httpReplyPackInto rep)) = Some (true, rep')
    /\ sline rep' = Sline (major (sline rep)) (minor (sline rep)) (status (sline rep)) None /\ httpHeaderGetEntry (hdr rep') = l
    /\ pstate rep' = psParsed /\ hdr_sz rep' + strlen (body rep) = strlen (httpReplyPackInto rep)
    /\ httpReplyHdrCacheInit en rep' = Some rep'.
Proof.
  intros Ws Hl H1 Eh Hs. destruct (status_line_text (sline rep) Ws) as (t & Et & Ht). destruct Ws as (W1 & W2 & W3 & _).
  pose proof (read_back (hcfg en) l [] Hl H1 (or_introl eq_refl)) as Hg. cbv zeta in Hg. destruct Hg as [_ Hg]. rewrite <- Eh in Hg.
  assert (EH : httpHeaderPackInto (hdr rep) = concat (map httpHeaderEntryPackInto l)) by (unfold httpHeaderPackInto; by rewrite Hg). rewrite EH in Hs.
  set (H := concat (map httpHeaderEntryPackInto l)) in *. unfold httpReplyParse. destruct (reset_total en rep0) as (r & -> & Rh & Rs & Rp). cbn [mbind option_bind].
  rewrite firstn_all. unfold httpReplyPackInto at 1. rewrite EH, Et.
  assert (Ec : cstr ((t ++ CRLF) ++ H ++ CRLF ++ body rep) = (t ++ CRLF) ++ H ++ CRLF ++ cstr (body rep)).
  { rewrite (app_assoc H), (app_assoc (t ++ CRLF)), cstr_app; [by rewrite <- !app_assoc|]. repeat (apply Forall_app; split).
    - eapply Forall_impl; [exact Ht|]. naive_solver.
    - by repeat constructor.
    - unfold H. clear -Hl. induction Hl as [|e l We _ IH]; [constructor|]. cbn [map concat]. rewrite pack_text. apply Forall_app. split; [|exact IH].
      apply Forall_app. split; [|by repeat constructor]. destruct (field_text_ok _ e We) as [Hf _]. eapply Forall_impl; [exact Hf|]. naive_solver.
    - by repeat constructor. }
  rewrite Ec. unfold httpReplyParseStep. rewrite Rp. change (psParsed <=? psReadyToParseStartLine) with false. change (psReadyToParseStartLine =? psReadyToParseStartLine) with true. cbn iota.
  rewrite isolate_start by done. 
  pose proof (status_line_roundtrip (sline r) (sline rep) (H ++ CRLF ++ cstr (body rep)) W1 W2 W3) as El. rewrite Et in El. rewrite El, Rs. cbn iota zeta.
  destruct (parse_headers_packed en (set_parsed (Z.of_nat (length (t ++ CRLF))) psReadyToParseHeaders (set_sline (Sline (major (sline rep)) (minor (sline rep)) (status (sline rep)) None) r))
    (t ++ CRLF) (cstr (body rep)) l Hl H1 Hs) as (rep' & E & G1 & G2 & G3 & G4 & G5).
  - change CRLF with ([13] ++ [LF]). rewrite app_assoc. apply last_snoc.
  - done.
  - exact Rh.
  - fold H in E, G4. change (reason httpStatusLineInit) with (@None (list Z)). rewrite E. cbn [mbind option_bind]. exists rep'. split; [done|]. split; [exact G2|]. split; [exact G1|].
    split; [exact G3|]. split; [|exact G5]. unfold httpReplyPackInto. rewrite G4, EH, Et. rewrite !strlen_app. lia.
Qed.

(** ** No text fails an assertion *)

Lemma read_line_length (cfg : config) (s l eol rest : list Z) : read_line cfg s = Some (l, eol, rest) -> (length l + length eol + length rest <= length s)%nat.
Proof.
  unfold read_line. destruct (strchr s 10) as [n|] eqn:E; [|done]. apply strchr_Some in E as [Hn _]. pose proof (lookup_lt_Some _ _ _ Hn) as Hlt.
  assert (Hs : (length (take n s) + 1 + length (drop (S n) s) = length s)%nat) by (rewrite length_take, length_drop; lia). set (l0 := take n s) in *.
  assert (Hr : forall x : list Z, last x = Some 13 -> (length (removelast x) + 1 = length x)%nat).
  { intros x Hx. destruct x as [|c x _] using rev_ind; [done|]. rewrite removelast_last, length_app. cbn. lia. }
  case_bool_decide as Hc; [|intros [= <- <- <-]; cbn; lia]. destruct (relaxed cfg && _ && _) eqn:E2; intros [= <- <- <-]; cbn [length].
  - apply andb_prop in E2 as [_ E2%bool_decide_eq_true]. pose proof (Hr _ Hc). pose proof (Hr _ E2). lia.
  - pose proof (Hr _ Hc). lia.
Qed.

Lemma read_field_length (fuel : nat) (cfg : config) (acc s f rest : list Z) : read_field fuel cfg acc s = Some (f, rest) -> (length f + length rest <= length acc + length s)%nat.
Proof.
  revert acc s. induction fuel as [|fuel IH]; intros acc s; cbn [read_field]; [done|]. destruct (read_line cfg s) as [[[l eol] r]|] eqn:E; [|done].
  apply read_line_length in E. cbn [mbind option_bind]. destruct (_ && _); [done|]. cbv zeta. destruct (_ && _); [done|].
  assert (Hu : length (unfold_cr l) = length l) by apply length_map. destruct r as [|c r].
  - intros [= <- <-]. rewrite length_app. cbn in *. lia.
  - destruct (_ || _).
    + intros H%IH. rewrite !length_app in H. lia.
    + intros [= <- <-]. rewrite length_app. cbn in *. lia.
Qed.

Lemma drop_space_length (s : list Z) : (length (drop_space s) <= length s)%nat.
Proof. induction s as [|c s IH]; cbn [drop_space]; [done|]. destruct (isspace c); cbn [length]; lia. Qed.

Lemma cut_nofilter_length (h v : list Z) : (length (cut_nofilter h v) <= length v)%nat.
Proof. unfold cut_nofilter. destruct (_ && strcasecmp_eq _ _); [|done]. destruct (_ && _); [|done]. rewrite length_take. lia. Qed.

Lemma entry_room (cfg : config) (field : list Z) (e : entry) : httpHeaderEntryParseCreate cfg field = Some e -> 2 + strlen (value e) <= strlen field.
Proof.
  unfold httpHeaderEntryParseCreate. destruct (strchr field 58) as [[|n]|] eqn:E; [done| |done]. apply strchr_Some in E as [Hn _]. apply lookup_lt_Some in Hn.
  destruct (_ <? _); [done|]. destruct (bool_decide _); [done|]. destruct (_ <? _); [done|]. intros [= <-]. cbn [value httpHeaderEntryCreate].
  set (d := drop (S (S n)) field). assert (Hd : length d = (length field - S (S n))%nat) by apply length_drop.
  pose proof (cut_nofilter_length (myhost cfg) (rtrim (drop_space d))) as H1. pose proof (drop_space_length d) as H2. pose proof (drop_space_length (rev (drop_space d))) as H3.
  unfold rtrim in *. rewrite !length_rev in *. unfold strlen. lia.
Qed.

Lemma room_add (h : header) (e : entry) : value_room (httpHeaderGetEntry (httpHeaderAddEntry h e)) = value_room (httpHeaderGetEntry h) + 2 + strlen (value e).
Proof. rewrite get_add. induction (httpHeaderGetEntry h) as [|x l IH]; cbn [app value_room fold_right] in *; [lia|]. unfold value_room in *. lia. Qed.

Lemma decide_room (cfg : config) (hdr h : header) (e : entry) : ok hdr -> decide_entry cfg hdr e = Some (Add h) -> value_room (httpHeaderGetEntry h) <= value_room (httpHeaderGetEntry hdr).
Proof.
  intros Hok. unfold decide_entry. destruct (Z.eqb_spec (id e) HDR_CONTENT_LENGTH) as [E|E].
  - rewrite E, find_ok by done. destruct (List.find _ _) as [e2|] eqn:Ef; cbn [mbind option_bind]; [|destruct (_ && _); intros [= <-]; done].
    apply List.find_some in Ef as [_ E2%Z.eqb_eq]. unfold Header.content_length. destruct (negb (relaxed cfg)); [done|]. destruct (bool_decide _); [done|].
    destruct (httpHeaderParseSize (value e)) as [l1|]; [|done]. destruct (match httpHeaderParseSize (value e2) with Some l2 => l2 <? l1 | None => true end); [|done]. rewrite E2.
    destruct (del_by_id_ok hdr HDR_CONTENT_LENGTH Hok) as (n & h2 & -> & _ & Eg); [done|]. cbn [mbind option_bind].
    destruct (_ && _); intros [= <-]. rewrite Eg. apply value_room_filter.
  - cbn [mbind option_bind]. destruct (_ && _); intros [= <-]. done.
Qed.

Lemma parse_fields_room (fuel : nat) (cfg : config) (s : list Z) (hdr h : header) (r : Z) : ok hdr -> one_length hdr -> parse_fields fuel cfg s hdr = Some (r, h) ->
  value_room (httpHeaderGetEntry h) <= value_room (httpHeaderGetEntry hdr) + strlen s.
Proof.
  assert (H0 : forall hdr : header, 0 <= value_room (httpHeaderGetEntry hdr)).
  { intros x. induction (httpHeaderGetEntry x) as [|e l IH]; [done|]. cbn [value_room fold_right] in *. unfold value_room, strlen in *. lia. }
  assert (Hreset : forall s hdr h r, Some (0, httpHeaderInit) = Some (r, h) -> value_room (httpHeaderGetEntry h) <= value_room (httpHeaderGetEntry hdr) + strlen s).
  { intros x y z t [= _ <-]. specialize (H0 y). pose proof (strlen_nonneg x). change (value_room (httpHeaderGetEntry httpHeaderInit)) with 0. lia. }
  revert s hdr. induction fuel as [|fuel IH]; intros s hdr Hok H1.
  - destruct s; [|done]. cbn [parse_fields]. intros [= _ <-]. change (strlen []) with 0. lia.
  - destruct s as [|c s]; [intros [= _ <-]; change (strlen []) with 0; lia|]. cbn [parse_fields]. destruct (read_field _ cfg [] (c :: s)) as [[field rest]|] eqn:Er; [|apply Hreset].
    apply read_field_length in Er. destruct field as [|b field].
    + destruct rest; [intros [= _ <-]; pose proof (strlen_nonneg (c :: s)); lia | apply Hreset].
    + destruct (httpHeaderEntryParseCreate cfg (b :: field)) as [e|] eqn:Ee.
      * destruct (decide_ok cfg hdr e Hok H1 (parsed_id _ _ _ Ee)) as (d & Ed & Hd). rewrite Ed. cbn [mbind option_bind]. pose proof (entry_room _ _ _ Ee) as Hv.
        destruct d as [h2| |]; [| |apply Hreset].
        -- destruct Hd as (_ & Ha & Hb). intros H%IH; [|done..]. rewrite room_add in H. apply decide_room in Ed; [|done]. unfold strlen in *. cbn [length] in *. lia.
        -- intros H%IH; [|done..]. unfold strlen in *. cbn [length] in *. lia.
      * destruct (relaxed cfg); [|apply Hreset]. intros H%IH; [|done..]. unfold strlen in *. cbn [length] in *. lia.
Qed.

Lemma parsed_fits (cfg : config) (s : list Z) (h : header) (r : Z) : strlen s <= max_string -> httpHeaderParse cfg s httpHeaderInit = Some (r, h) -> fits h.
Proof.
  intros Hs. unfold httpHeaderParse, fits. case_bool_decide.
  - intros [= _ <-]. done.
  - intros H1%parse_fields_room; [|apply init_ok | unfold one_length; cbn; lia]. change (value_room (httpHeaderGetEntry httpHeaderInit)) with 0 in H1. lia.
Qed.

(** The state of [headersEnd] after the text [p]. *)
Definition end_inv (p : list Z) (state : Z) : Prop :=
  if state =? 1 then exists q, p = q ++ [LF] else if state =? 2 then exists q, p = q ++ [LF; CR]
  else if state =? 3 then (exists q, p = q ++ [LF; LF]) \/ (exists q, p = q ++ [LF; CR; LF]) else True.

Lemma end_step (p : list Z) (state c : Z) : 0 <= state < 3 -> end_inv p state -> end_inv (p ++ [c]) (end_state state c) /\ 0 <= end_state state c <= 3.
Proof.
  intros Hs. assert (Hc : state = 0 \/ state = 1 \/ state = 2) by lia. destruct_or! Hc; subst state; unfold end_state; cbn [Z.eqb Pos.eqb].
  - intros _. destruct (Z.eqb_spec c LF) as [->|]; [|done]. split; [by exists p | done].
  - intros [q ->]. destruct (Z.eqb_spec c CR) as [->|]; [split; [|done]; exists q; by rewrite <- app_assoc|]. destruct (Z.eqb_spec c LF) as [->|]; [|done].
    split; [|done]. left. exists q. by rewrite <- app_assoc.
  - intros [q ->]. destruct (Z.eqb_spec c LF) as [->|]; [|done]. split; [|done]. right. exists q. by rewrite <- app_assoc.
Qed.

Lemma end_loop_inv (mime p : list Z) (e : nat) (state : Z) : 0 <= state <= 3 -> end_inv p state -> forall e', end_loop mime e state = (e', 3) ->
  exists a b, mime = a ++ b /\ e' = (e + length a)%nat /\ end_inv (p ++ a) 3.
Proof.
  revert p e state. induction mime as [|c mime IH]; intros p e state Hs Hi e'; cbn [end_loop].
  - intros [= <- ->]. exists [], []. split; [done|]. split; [cbn; lia|]. by rewrite app_nil_r.
  - destruct (Z.ltb_spec state 3) as [Hlt|Hge].
    + destruct (end_step p state c) as [H1 H2]; [lia | done|]. intros H. destruct (IH (p ++ [c]) _ _ H2 H1 _ H) as (a & b & -> & -> & Hp). exists (c :: a), b.
      split; [done|]. split; [cbn; lia|]. by rewrite <- app_assoc in Hp.
    + intros [= <- ->]. exists [], (c :: mime). split; [done|]. split; [cbn; lia|]. by rewrite app_nil_r.
Qed.

(** The headers start behind an LF, or not with an end of line. *)
Definition starts_ok (sl text : list Z) : Prop := last sl = Some LF \/ match text with c :: _ => c <> CR /\ c <> LF | [] => True end.

Lemma headersEnd_inv (sl text : list Z) : starts_ok sl text -> (0 < headersEnd text)%nat ->
  exists a b, text = a ++ b /\ headersEnd text = length a /\ end_inv (sl ++ a) 3.
Proof.
  intros Hs. unfold headersEnd. destruct (end_loop text 0 1) as [e st] eqn:E. destruct (Z.eqb_spec st 3) as [->|]; [intros _ | lia].
  destruct Hs as [Hla | Ht].
  - destruct sl as [|c sl _] using rev_ind; [done|]. rewrite last_snoc in Hla. injection Hla as ->.
    destruct (end_loop_inv text (sl ++ [LF]) 0 1 ltac:(lia) ltac:(by exists sl) e E) as (a & b & -> & -> & Hi). by exists a, b.
  - destruct text as [|c text]; [done|]. cbn [end_loop] in E. change (1 <? 3) with true in E. cbn iota in E. destruct Ht as [H1 H2].
    assert (Es : end_state 1 c = 0) by (unfold end_state; change (1 =? 0) with false; change (1 =? 1) with true; cbn iota; by rewrite (proj2 (Z.eqb_neq c CR)), (proj2 (Z.eqb_neq c LF))).
    rewrite Es in E. destruct (end_loop_inv text (sl ++ [c]) 1 0 ltac:(lia) I e E) as (a & b & -> & -> & Hi). exists (c :: a), b. split; [done|]. split; [cbn; lia|].
    by rewrite <- app_assoc in Hi.
Qed.

Lemma empty_line_length (s : list Z) : (empty_line s <= length s)%nat.
Proof. induction s as [|c s IH]; [done|]. cbn [empty_line length]. destruct (c =? CR); [lia|]. destruct (c =? LF); lia. Qed.

Lemma isolate_total (sl text : list Z) : starts_ok sl text ->
  exists r, httpMsgIsolateHeaders (sl ++ text) (length sl) = Some r /\ match r with Some (blk, p) => (length blk <= length text)%nat /\ (p <= length (sl ++ text))%nat | None => True end.
Proof.
  intros Hs. unfold httpMsgIsolateHeaders. rewrite drop_app_length. cbv zeta. destruct (Nat.ltb_spec 0 (headersEnd text)) as [He|He].
  - destruct (headersEnd_inv sl text Hs He) as (a & b & -> & -> & Hi). rewrite (app_assoc sl a b). rewrite <- length_app.
    assert (Hlf : forall q rest : list Z, (nth (length q) (q ++ LF :: rest) 0 =? LF) = true) by (intros q rest; by rewrite (app_nth2 q _ 0 (le_n _)), Nat.sub_diag).
    destruct Hi as [[q ->]|[q ->]].
    + replace (length (q ++ [LF; LF]) - 1)%nat with (S (length q)) by (rewrite length_app; cbn; lia). replace (length (q ++ [LF; LF])) with (S (S (length q))) by (rewrite length_app; cbn; lia).
      rewrite <- app_assoc. cbn [app back_cr]. rewrite (app_nth2 q _ 0 (le_n _)), Nat.sub_diag. cbn [nth]. change (LF =? CR) with false. cbn iota. rewrite Hlf.
      replace (q ++ LF :: LF :: b) with ((q ++ [LF]) ++ LF :: b) by (by rewrite <- app_assoc). replace (S (length q)) with (length (q ++ [LF])) by (rewrite length_app; cbn; lia).
      rewrite Hlf. cbn [negb orb]. eexists. split; [reflexivity|]. cbn beta iota. rewrite length_take, !length_app. cbn [length]. lia.
    + replace (length (q ++ [LF; CR; LF]) - 1)%nat with (S (S (length q))) by (rewrite length_app; cbn; lia). replace (length (q ++ [LF; CR; LF])) with (S (S (S (length q)))) by (rewrite length_app; cbn; lia).
      rewrite <- app_assoc. change (q ++ [LF; CR; LF] ++ b) with (q ++ LF :: CR :: (LF :: b)). rewrite back_cr_lf, Hlf.
      replace (q ++ LF :: CR :: LF :: b) with ((q ++ [LF; CR]) ++ LF :: b) by (by rewrite <- app_assoc). replace (S (S (length q))) with (length (q ++ [LF; CR])) by (rewrite length_app; cbn; lia).
      rewrite Hlf. cbn [negb orb]. eexists. split; [reflexivity|]. cbn beta iota. rewrite length_take, !length_app. cbn [length]. lia.
  - destruct text as [|c text]; [by exists None|]. destruct (_ || _); [|by exists None]. eexists. split; [reflexivity|]. rewrite length_app.
    pose proof (empty_line_length (c :: text)). cbn beta iota. cbn [length] in *. lia.
Qed.

Lemma isolate_start_spec (buf : list Z) (ps : nat) : httpReplyIsolateStart buf 0 = Some ps ->
  exists sl text, buf = sl ++ text /\ ps = length sl /\ starts_ok sl text.
Proof.
  unfold httpReplyIsolateStart. rewrite drop_0. set (n := strcspn buf [13; 10]). destruct (Nat.leb_spec (length buf) n) as [|Hn]; [done|]. cbv zeta.
  assert (Hk : forall s : list Z, (skip_cr s <= length s)%nat /\ match drop (skip_cr s) s with c :: _ => c <> CR | [] => True end).
  { intros s. induction s as [|c s IH]; [done|]. cbn [skip_cr]. destruct (Z.eqb_spec c CR) as [E|E]; cbn [length drop]; [destruct IH; split; [lia | done] | split; [lia | done]]. }
  destruct (Hk (drop n buf)) as [H1 H2]. rewrite length_drop in H1. set (e := (n + skip_cr (drop n buf))%nat) in *. rewrite drop_drop in H2. fold e in H2.
  destruct (nth e buf 0 =? LF) eqn:El; intros [= <-]; cbn [Nat.add].
  - apply Z.eqb_eq in El. assert (Hlt : (e < length buf)%nat) by (destruct (Nat.lt_ge_cases e (length buf)); [done|]; rewrite nth_overflow in El by done; done).
    exists (take (S e) buf), (drop (S e) buf). split; [by rewrite take_drop|]. split; [rewrite length_take; lia|]. left.
    rewrite (take_S_r _ _ LF); [apply last_snoc|]. destruct (lookup_lt_is_Some_2 buf e Hlt) as [c Hc]. by rewrite <- El, (nth_lookup_Some buf e 0 c Hc).
  - exists (take e buf), (drop e buf). split; [by rewrite take_drop|]. split; [rewrite length_take; lia|]. right. destruct (drop e buf) as [|c r] eqn:Ed; [done|].
    split; [exact H2|]. apply Z.eqb_neq in El. intros ->. apply El. rewrite <- (take_drop e buf), Ed. assert (He : length (take e buf) = e) by (rewrite length_take; lia).
    rewrite (app_nth2 _ _ 0); rewrite He; [|lia]. by rewrite Nat.sub_diag.
Qed.

(** What comes of a text: the reply as it must be after success and after failure. *)
Definition parsed_ok (en : env) (n : Z) (r : Z) (rep : HttpReply) : Prop :=
  if r =? 1 then ok (hdr rep) /\ pstate rep = psParsed /\ 0 <= hdr_sz rep <= n /\ httpReplyHdrCacheInit en rep = Some rep
  else hdr rep = httpHeaderInit /\ pstate rep < psParsed.

Lemma parse_error_total (en : env) (n : Z) (rep : HttpReply) : exists r rep', httpReplyParseError en rep = Some (r, rep') /\ parsed_ok en n r rep'.
Proof.
  unfold httpReplyParseError. destruct (reset_total en rep) as (r & -> & Hh & _ & Hp). cbn [mbind option_bind]. eexists _, _. split; [reflexivity|].
  split; [exact Hh|]. cbn. rewrite Hp. done.
Qed.

Lemma parse_headers_total (en : env) (rep : HttpReply) (sl text : list Z) : starts_ok sl text -> strlen (sl ++ text) <= max_string ->
  pstate rep = psReadyToParseHeaders -> hdr rep = httpHeaderInit ->
  exists r rep', parse_headers en rep (sl ++ text) (length sl) false = Some (r, rep') /\ parsed_ok en (strlen (sl ++ text)) r rep'.
Proof.
  intros Hs Hm Hp Hh. unfold parse_headers. rewrite Hp. change (psReadyToParseHeaders =? psReadyToParseHeaders) with true. cbn iota.
  destruct (isolate_total sl text Hs) as (b & -> & Hb). cbn [mbind option_bind]. destruct b as [[blk p]|]; [|eexists _, _; split; [reflexivity|]; split; [exact Hh | by rewrite Hp]].
  destruct Hb as [Hb Hpos]. rewrite Hh. destruct (parse_fields_total (hcfg en) blk) as (r & h & Er & Hok). rewrite Er. cbn [mbind option_bind].
  destruct (r =? 0); [apply parse_error_total|]. assert (Hf : fits h) by (eapply parsed_fits; [|exact Er]; rewrite strlen_app in Hm; unfold strlen in *; lia).
  destruct (cache_init_total en (set_hdr h rep) Hok Hf) as (rep1 & E1 & [Sh _ _ _ _]). rewrite E1. cbn [mbind option_bind]. eexists _, _. split; [reflexivity|].
  unfold parsed_ok. change (1 =? 1) with true. cbn iota. cbn [hdr pstate hdr_sz set_parsed]. rewrite Sh. split; [exact Hok|]. split; [done|]. split; [unfold strlen; lia|].
  by eapply cache_init_again.
Qed.

(** C12: No text a server sends can fail an assertion of the code that reads replies, or leave the reply half read: for a text
    that a string can hold, [httpReplyParse] returns; with success the reply is complete, its header is consistent (its
    mask names what it has), its head lies within the text, and the values beside the header are those of its fields; without,
    the header is empty and the reply is not taken for a parsed one, whatever it held before. *)
Theorem reply_parse_total (en : env) (rep0 : HttpReply) (buf : list Z) (n : nat) : Z.of_nat n <= max_string ->
  exists success rep, httpReplyParse en rep0 buf n = Some (success, rep)
    /\ if success then ok (hdr rep) /\ pstate rep = psParsed /\ 0 <= hdr_sz rep <= Z.of_nat n /\ httpReplyHdrCacheInit en rep = Some rep
       else hdr rep = httpHeaderInit /\ pstate rep < psParsed.
Proof.
  intros Hn. unfold httpReplyParse. destruct (reset_total en rep0) as (r & -> & Rh & _ & Rp). cbn [mbind option_bind]. set (b := cstr (take n buf)).
  assert (Hl : strlen b <= Z.of_nat n) by (unfold b, strlen; pose proof (cstr_length (take n buf)); rewrite length_take in *; lia).
  assert (H : exists z rep, httpReplyParseStep en r b false = Some (z, rep) /\ parsed_ok en (strlen b) z rep).
  { unfold httpReplyParseStep. rewrite Rp. change (psParsed <=? psReadyToParseStartLine) with false. change (psReadyToParseStartLine =? psReadyToParseStartLine) with true. cbn iota.
    destruct (httpReplyIsolateStart b 0) as [ps|] eqn:Ei; [|eexists _, _; split; [reflexivity|]; split; [exact Rh | by rewrite Rp]].
    apply isolate_start_spec in Ei as (sl & text & -> & -> & Hs). destruct (httpStatusLineParse (sline r) (sl ++ text)) as [[|z|z] s]; [apply parse_error_total | ..].
    all: apply parse_headers_total; [exact Hs | lia | done | exact Rh]. }
  destruct H as (z & rep & -> & H). cbn [mbind option_bind]. exists (z =? 1), rep. split; [done|]. unfold parsed_ok in H. destruct (z =? 1); [|exact H].
  destruct H as (H1 & H2 & H3 & H4). split; [exact H1|]. split; [exact H2|]. split; [lia | exact H4].
Qed.

(** ** The mark tells variants apart *)

(** What the mark has behind a name. *)
Definition quoted (value : option (list Z)) : list Z :=
  match value with None => [] | Some v => [61; 34] ++ rfc1738_escape_part v ++ [34] end.

Definition separator (v : list Z) : list Z := if bool_decide (v = []) then [] else [COMMA; 32].

Lemma mark_item_text (rq : header) (v n t : list Z) : mark_item rq v n = Some t ->
  exists value, httpHeaderGetByName rq n = Some value /\ t = v ++ separator v ++ n ++ quoted value.
Proof.
  unfold mark_item, strListAdd, separator. intros H.
  assert (Happ : forall a b c, stringAppend a b = Some c -> c = a ++ b) by (intros a b c; unfold stringAppend; by destruct (_ <? _); intros [= <-]).
  destruct (if bool_decide (v = []) then Some v else stringAppend v [COMMA; 32]) as [w|] eqn:E1; [|done]. cbn [mbind option_bind] in H.
  assert (Hw : w = v ++ (if bool_decide (v = []) then [] else [COMMA; 32])) by (case_bool_decide; [injection E1 as ->; by rewrite app_nil_r | by apply Happ]).
  destruct (stringAppend w n) as [x|] eqn:E2; [|done]. cbn [mbind option_bind] in H. apply Happ in E2.
  destruct (httpHeaderGetByName rq n) as [[value|]|]; [| |done]; cbn [mbind option_bind] in H.
  - destruct (stringAppend x _) as [y|] eqn:E3; [|done]. apply Happ in E3. cbn [mbind option_bind] in H. destruct (stringAppend y _) as [z|] eqn:E4; [|done]. apply Happ in E4, H.
    exists (Some value). split; [done|]. subst. cbn [quoted]. by rewrite <- !app_assoc.
  - injection H as <-. exists None. split; [done|]. subst. cbn [quoted]. by rewrite app_nil_r, <- !app_assoc.
Qed.

(** The mark of names behind a first one. *)
Fixpoint tail_mark (names : list (list Z)) (values : list (option (list Z))) : list Z :=
  match names, values with
  | n :: names, q :: values => [COMMA; 32] ++ n ++ quoted q ++ tail_mark names values
  | _, _ => []
  end.

Lemma mark_loop_text (rq : header) (names : list (list Z)) (v t : list Z) : v <> [] -> mark_loop rq names (Some v) = Some (Some t) ->
  exists values, Forall2 (fun n q => httpHeaderGetByName rq (map tolower n) = Some q) names values /\ t = v ++ tail_mark (map (map tolower) names) values.
Proof.
  revert v. induction names as [|n names IH]; intros v Hv; cbn [mark_loop map]; [intros [= <-]; exists []; by rewrite app_nil_r|].
  case_bool_decide; [done|]. change (default [] (Some v)) with v. destruct (mark_item rq v (map tolower n)) as [w|] eqn:E; [|done]. cbn [mbind option_bind].
  apply mark_item_text in E as (q & Eq & Ew). unfold separator in Ew. rewrite bool_decide_eq_false_2 in Ew by done. intros H2.
  destruct (IH w) as (values & Hvs & ->); [subst w; by destruct v | exact H2|]. exists (q :: values). split; [by constructor|]. subst w. cbn [tail_mark]. by rewrite <- !app_assoc.
Qed.

(** The bytes of a quoted value are not a quote, so that it has one end. *)
Lemma quoted_split (a b : option (list Z)) (s t : list Z) : (forall v, a = Some v -> is_cstr v) -> (forall v, b = Some v -> is_cstr v) ->
  (s = [] \/ head s = Some COMMA) -> (t = [] \/ head t = Some COMMA) -> quoted a ++ s = quoted b ++ t -> a = b /\ s = t.
Proof.
  assert (Hq : forall v, is_cstr v -> rfc1738_unescape (rfc1738_escape_part v) = v /\ (34 ∉ rfc1738_escape_part v)).
  { intros v Hv. destruct (rfc1738_roundtrip v 1 Hv) as (H1 & H2 & _); [lia|]. split; [exact H1|]. intros Hin. rewrite Forall_forall in H2. by apply H2 in Hin as [Hin|Hin]. }
  assert (Hcut : forall x y s t : list Z, (34 ∉ x) -> (34 ∉ y) -> x ++ 34 :: s = y ++ 34 :: t -> x = y /\ s = t).
  { intros x. induction x as [|c x IH]; intros [|d y] s' t' Hx Hy E; cbn [app] in E.
    - by injection E as ->.
    - injection E as <- _. exfalso. apply Hy. constructor.
    - injection E as -> _. exfalso. apply Hx. constructor.
    - injection E as -> E. apply not_elem_of_cons in Hx as [_ Hx], Hy as [_ Hy]. by destruct (IH y s' t' Hx Hy E) as [-> ->]. }
  intros Ha Hb Hs Ht. destruct a as [v|], b as [w|]; cbn [quoted app].
  - intros E. injection E as E. rewrite <- !app_assoc in E. destruct (Hq v (Ha v eq_refl)) as [V1 V2], (Hq w (Hb w eq_refl)) as [W1 W2].
    destruct (Hcut _ _ _ _ V2 W2 E) as [Ev ->]. rewrite <- V1, Ev, W1. done.
  - intros <-. destruct Ht as [Ht|Ht]; discriminate Ht.
  - intros ->. destruct Hs as [Hs|Hs]; discriminate Hs.
  - done.
Qed.

Lemma tail_head (names : list (list Z)) (values : list (option (list Z))) : tail_mark names values = [] \/ head (tail_mark names values) = Some COMMA.
Proof. destruct names, values; [by left..|]. by right. Qed.

Definition strings (values : list (option (list Z))) : Prop := Forall (fun q => forall v, q = Some v -> is_cstr v) values.

Lemma tail_mark_inj (names : list (list Z)) (a b : list (option (list Z))) : length a = length names -> length b = length names -> strings a -> strings b ->
  tail_mark names a = tail_mark names b -> a = b.
Proof.
  revert a b. induction names as [|n names IH]; intros [|x a] [|y b]; try done. intros [= La] [= Lb] [Hx Ha]%Forall_cons [Hy Hb]%Forall_cons. cbn [tail_mark]. intros E.
  apply app_inv_head, app_inv_head in E. apply quoted_split in E as [-> E]; [|done|done|apply tail_head..]. f_equal. by apply IH.
Qed.


(** The values of a request are C strings, so what is found by a name is one. *)
Definition c_values (h : header) : Prop := Forall (fun e => is_cstr (value e)) (httpHeaderGetEntry h).

Lemma joined_cstr (l : list entry) (s t : list Z) : is_cstr s -> Forall (fun e => is_cstr (value e)) l -> joined s l = Some t -> is_cstr t.
Proof.
  intros Hs Hl. revert s Hs. induction Hl as [|e l He _ IH]; intros s Hs; cbn [joined]; [by intros [= <-]|].
  unfold strListAdd, stringAppend. intros H. assert (Hsep : is_cstr (s ++ [COMMA; 32])) by (apply Forall_app; split; [done | by repeat constructor]).
  case_bool_decide; cbn [mbind option_bind] in H.
  - destruct (_ <? _); [done|]. cbn [mbind option_bind] in H. eapply IH; [|exact H]. by apply Forall_app.
  - destruct (_ <? _); [done|]. cbn [mbind option_bind] in H. destruct (_ <? _); [done|]. cbn [mbind option_bind] in H. eapply IH; [|exact H]. by apply Forall_app.
Qed.

Lemma by_name_cstr (h : header) (n v : list Z) : c_values h -> httpHeaderGetByName h n = Some (Some v) -> is_cstr v.
Proof.
  intros Hc. assert (Hf : forall (p : entry -> bool), Forall (fun e => is_cstr (value e)) (List.filter p (httpHeaderGetEntry h))).
  { intros p. apply Forall_forall. intros e [He _]%elem_of_filter_bool. unfold c_values in Hc. rewrite Forall_forall in Hc. by apply Hc. }
  unfold httpHeaderGetByName, httpHeaderGetStrOrList, httpHeaderGetList. destruct (negb (_ =? -1)).
  - destruct (is_list_header _); cbn [negb].
    + destruct (CBIT_TEST _ _); cbn [negb]; [|done]. pose proof (Hf (fun e => id e =? httpHeaderIdByName n Headers)) as Hl. destruct (List.filter _ _) as [|x l]; [done|].
      destruct (joined [] _) as [t|] eqn:E; [|done]. intros [= <-]. eapply joined_cstr; [|exact Hl|exact E]. constructor.
    + unfold httpHeaderFindEntry. destruct (_ || _); [done|]. destruct (negb _); [done|]. destruct (List.find _ _) as [e|] eqn:E; [|done]. cbn. intros [= <-].
      apply List.find_some in E as [E%list_elem_of_In _]. unfold c_values in Hc. rewrite Forall_forall in Hc. by apply Hc.
  - pose proof (Hf (fun e => (id e =? HDR_OTHER) && strcasecmp_eq (name e) n)) as Hl. destruct (List.filter _ _) as [|x l]; [done|].
    destruct (joined [] _) as [t|] eqn:E; [|done]. intros [= <-]. eapply joined_cstr; [|exact Hl|exact E]. constructor.
Qed.

Lemma found_strings (h : header) (names : list (list Z)) (values : list (option (list Z))) : c_values h ->
  Forall2 (fun n q => httpHeaderGetByName h (map tolower n) = Some q) names values -> strings values.
Proof.
  intros Hc H. induction H as [|n q names values Hq _ IH]; constructor; [|exact IH]. intros v ->. by eapply by_name_cstr.
Qed.

(** The whole mark: the names in front of their values, each but the first behind a comma. *)
Definition mark_text (names : list (list Z)) (values : list (option (list Z))) : list Z := drop 2 (tail_mark names values).

Lemma mark_text_of (rq : header) (names : list (list Z)) (t : list Z) : Forall (fun n => n <> []) names -> mark_loop rq names None = Some (Some t) ->
  exists values, Forall2 (fun n q => httpHeaderGetByName rq (map tolower n) = Some q) names values /\ t = mark_text (map (map tolower) names) values.
Proof.
  intros Hne. destruct Hne as [|n names Hn _]; cbn [mark_loop]; [done|]. case_bool_decide; [done|]. change (default [] None) with (@nil Z).
  destruct (mark_item rq [] (map tolower n)) as [w|] eqn:E; [|done]. cbn [mbind option_bind]. apply mark_item_text in E as (q & Eq & Ew). intros H2.
  destruct (mark_loop_text rq names w t) as (values & Hvs & ->); [subst w; by destruct n | exact H2|]. exists (q :: values). split; [by constructor|]. subst w.
  unfold separator. rewrite bool_decide_eq_true_2 by done. unfold mark_text. cbn [map tail_mark app drop]. by rewrite <- !app_assoc.
Qed.

Lemma mark_text_inj (names : list (list Z)) (a b : list (option (list Z))) : length a = length names -> length b = length names -> strings a -> strings b ->
  mark_text names a = mark_text names b -> a = b.
Proof.
  intros La Lb Ha Hb E. apply (tail_mark_inj names); [done..|]. destruct names as [|n names]; [done|]. destruct a as [|x a], b as [|y b]; try done.
  unfold mark_text in E. cbn [tail_mark app] in E |- *. rewrite !skipn_cons, !drop_0 in E. by rewrite E.
Qed.

Lemma items_from_nonempty (fuel : nat) (pos : list Z) : Forall (fun n => n <> []) (map (fun it => take it.2 it.1) (items_from fuel COMMA pos)).
Proof.
  revert pos. induction fuel as [|fuel IH]; intros pos; cbn [items_from]; [constructor|]. destruct (strListGetItem COMMA pos) as [[[it n] r]|] eqn:E; [|constructor].
  cbn [map]. constructor; [|apply IH]. unfold strListGetItem in E. destruct pos as [|c pos]; [done|]. cbv zeta in E. destruct (Nat.ltb_spec 0 (rtrim_len (drop (count_ws pos) pos)
    (next_del (S (length (drop (count_ws pos) pos))) COMMA (drop (count_ws pos) pos) 0 false))) as [Hl|]; [|done]. injection E as <- <- _. cbn [fst snd].
  destruct (drop (count_ws pos) pos) as [|x l]; [exfalso; by apply (Nat.lt_irrefl 0)|]. destruct (rtrim_len _ _); [lia | done].
Qed.

(** C14: The mark of a variant tells requests apart exactly by the fields that [Vary] names: two requests that get a mark for one
    reply get the same mark if and only if for every name of the list they have the same value, or both none (a value is
    escaped, so no value can look like the next name of the list). *)
Theorem vary_mark_injective (r1 r2 reply : header) (vary m1 m2 : list Z) : c_values r1 -> c_values r2 -> httpHeaderGetList reply HDR_VARY = Some (Some vary) ->
  httpMakeVaryMark r1 reply = Some (Some m1) -> httpMakeVaryMark r2 reply = Some (Some m2) ->
  m1 = m2 <-> forall n, n ∈ item_texts vary -> httpHeaderGetByName r1 (map tolower n) = httpHeaderGetByName r2 (map tolower n).
Proof.
  intros C1 C2 Hv. unfold httpMakeVaryMark. rewrite Hv. cbn [mbind option_bind]. intros E1%mark_text_of E2%mark_text_of; [|apply items_from_nonempty..].
  destruct E1 as (a & Fa & ->), E2 as (b & Fb & ->). split.
  - intros E. assert (Eab : a = b).
    { eapply mark_text_inj; [..|exact E]; [rewrite length_map; symmetry; by eapply Forall2_length.. | exact (found_strings r1 _ a C1 Fa) | exact (found_strings r2 _ b C2 Fb)]. }
    subst b. clear E.
    intros n Hn. apply list_elem_of_lookup in Hn as [i Hi]. destruct (Forall2_lookup_l _ _ _ _ _ Fa Hi) as (q & Hq & ->).
    destruct (Forall2_lookup_l _ _ _ _ _ Fb Hi) as (q2 & Hq2 & ->). congruence.
  - intros H. f_equal. clear Hv C1 C2. revert b Fb. induction Fa as [|n q ns a Hq _ IH]; intros b Fb; inversion Fb as [|? q2 ? b2 Hq2 Fb2]; subst; [done|].
    f_equal; [rewrite H in Hq by constructor; congruence|]. apply IH; [|done]. intros m Hm. apply H. by constructor.
Qed.

End Reply.

Module Demo.
Import Reply.

Definition en (now : Z) : env := Env now false (Config false (bytes "proxy")).
Definition blank : HttpReply := Rep 0 0 0 0 0 None None None false psReadyToParseStartLine httpStatusLineClean httpHeaderInit [].
Definition fields : list entry := [Entry 20 (bytes "Date") (bytes "Sun, 06 Nov 1994 08:49:37 GMT"); Entry 14 (bytes "Content-Length") (bytes "5"); Entry 18 (bytes "Content-Type") (bytes "text/html; a=b")].
Definition sent : HttpReply := set_sline (Sline 1 1 200 None) (set_hdr (fold_left httpHeaderAddEntry fields httpHeaderInit) blank).

Lemma reply_roundtrip_witness :
  exists rep', httpReplyParse (en 0) blank (httpReplyPackInto sent) (length (httpReplyPackInto sent)) = Some (true, rep')
    /\ sline rep' = Sline 1 1 200 None /\ httpHeaderGetEntry (hdr rep') = fields
    /\ pstate rep' = psParsed /\ hdr_sz rep' + strlen (body sent) = strlen (httpReplyPackInto sent) /\ httpReplyHdrCacheInit (en 0) rep' = Some rep'.
Proof.
  apply (reply_roundtrip (en 0) blank sent fields).
  - by vm_compute.
  - repeat constructor; try (by vm_compute); try (intros H; by vm_compute in H).
  - by vm_compute.
  - done.
  - by vm_compute.
Defined.

Lemma reply_parse_total_witness :
  exists success rep, httpReplyParse (en 0) sent (bytes "HTTP/1.0 200") 12 = Some (success, rep)
    /\ if success then ok (hdr rep) /\ pstate rep = psParsed /\ 0 <= hdr_sz rep <= 12 /\ httpReplyHdrCacheInit (en 0) rep = Some rep
       else hdr rep = httpHeaderInit /\ pstate rep < psParsed.
Proof. apply (reply_parse_total (en 0) sent (bytes "HTTP/1.0 200") 12). by vm_compute. Defined.

Definition text (lines : list (list Z)) : list Z := concat (map (fun l => l ++ CRLF) lines) ++ CRLF.
Definition parsed (now : Z) (lines : list string) : option (bool * HttpReply) :=
  let t := text (map bytes lines) in httpReplyParse (en now) blank t (length t).
Definition view (r : option (bool * HttpReply)) : option (Z * Z * Z * Z) := option_map (fun '(_, r) => (status (sline r), date r, expires r, content_length r)) r.

(** Dates from 2021 on are not read: the object expires at once.  A [max-age] that is too long wraps around. *)
Example expiration_ex :
  view (parsed 1000 ["HTTP/1.0 200 OK"; "Date: Sun, 06 Nov 1994 08:49:37 GMT"; "Expires: Mon, 07 Nov 1994 08:49:37 GMT"; "Content-Length: 5"]%string) = Some (200, 784111777, 784198177, 5)
  /\ view (parsed 1000 ["HTTP/1.0 200 OK"; "Date: Fri, 01 Jan 2021 00:00:00 GMT"; "Expires: Sat, 02 Jan 2021 00:00:00 GMT"]%string) = Some (200, -1, 1000, -1)
  /\ view (parsed 1000 ["HTTP/1.0 200 OK"; "Date: Sun, 06 Nov 1994 08:49:37 GMT"; "Cache-Control: max-age=2147483647"]%string) = Some (200, 784111777, -1363371872, -1)
  /\ view (parsed 1000 ["ICY 200 OK"; "Age: 1"]%string) = Some (600, -1, -1, -1).
Proof. split_and!; by vm_compute. Qed.

Definition request (v : list entry) : header := fold_left httpHeaderAddEntry v httpHeaderInit.
Definition gzip : header := request [Entry 2 (bytes "Accept-Encoding") (bytes "gzip"); Entry 49 (bytes "User-Agent") (bytes "a b")].
Definition plain : header := request [Entry 49 (bytes "User-Agent") (bytes "a b")].
Definition varies (v : string) : header := request [Entry 50 (bytes "Vary") (bytes v)].

Lemma vary_mark_injective_witness :
  (bytes "user-agent=" ++ [34] ++ bytes "a%20b" ++ [34]) = (bytes "user-agent=" ++ [34] ++ bytes "a%20b" ++ [34])
  <-> forall n, n ∈ item_texts (bytes "User-Agent") -> httpHeaderGetByName gzip (map tolower n) = httpHeaderGetByName plain (map tolower n).
Proof.
  apply (vary_mark_injective gzip plain (varies "User-Agent")).
  - repeat constructor; by vm_compute.
  - repeat constructor; by vm_compute.
  - by vm_compute.
  - by vm_compute.
  - by vm_compute.
Defined.

Example vary_ex :
  httpMakeVaryMark plain (varies "User-Agent, Accept-Encoding") = Some (Some (bytes "user-agent=" ++ [34] ++ bytes "a%20b" ++ [34] ++ bytes ", accept-encoding"))
  /\ httpMakeVaryMark plain (varies "Accept-Encoding, *") = Some None.
Proof. split; by vm_compute. Qed.

(** What is kept: not with credentials, unless it is public; an error only as an error; 302 with a date of expiration. *)
Example cachable_ex :
  let status_of n := set_sline (Sline 1 0 n None) sent in
  httpCachableReply (status_of 200) false false true = Some 1
  /\ httpCachableReply (status_of 200) true false true = Some 0
  /\ httpCachableReply (status_of 404) false false true = Some (-1)
  /\ httpCachableReply (status_of 302) false false true = Some 1
  /\ httpCachableReply (set_hdr (request [Entry 34 (bytes "Pragma") (bytes "No-Cache")]) (status_of 200)) false false true = Some 0.
Proof. split_and!; by vm_compute. Qed.

Definition ctype (r : option HttpReply) : option (option (list Z)) := option_map content_type r.

(** The type that a reply is given keeps its parameters; the one that is read from the same header does not. *)
Example ctype_ex :
  let made := httpReplySetHeaders (en 0) (bytes "squid") blank 1 0 200 None (Some (bytes "text/html; charset=x")) 5 (-1) 10 in
  ctype made = Some (Some (bytes "text/html; charset=x"))
  /\ ctype (r ← made; httpReplyHdrCacheInit (en 0) r) = Some (Some (bytes "text/html")).
Proof. split; by vm_compute. Qed.

(** A 304 that came with a new cookie: the field is taken, as the table of the denied ones does not name it; an unknown field is not. *)
Example not_modified_ex :
  let fresh := set_hdr (request [Entry 45 (bytes "Set-Cookie") (bytes "a=1"); Entry HDR_OTHER (bytes "X-A") (bytes "1")]) sent in
  option_map (fun r => map name (httpHeaderGetEntry (hdr r))) (httpReplyUpdateOnNotModified (en 0) sent fresh) = Some [bytes "Date"; bytes "Content-Length"; bytes "Content-Type"; bytes "Set-Cookie"]
  /\ option_map (fun t => t) (httpPacked304Reply sent) = Some (text [bytes "HTTP/1.0 304 Not Modified"; bytes "Date: Sun, 06 Nov 1994 08:49:37 GMT"; bytes "Content-Type: text/html; a=b"])
  /\ httpReplyBodySize false (set_sline (Sline 1 1 304 None) sent) = 0
  /\ option_map (fun r => status (sline r)) (httpRedirectReply (en 0) (bytes "squid") blank 302 (bytes "http://a/")) = Some 302.
Proof. split_and!; by vm_compute. Qed.
End Demo.
