(* ===== verification/Rfc1035.v ===== *)
(** * Domain name messages

    v3.0/src/squid-mybox/lib/rfc1035.c: the queries of the proxy's resolver are
    packed into a buffer, and the packets it receives are unpacked.  A packet
    is data from the network: the theorems say what unpacking does with any
    bytes, and that the question of a query is read back.

    [buf] is the memory that holds the message and may be longer than its [sz]
    bytes.  A name is the list of the bytes stored before the terminating NUL
    that the function writes. *)

From S2P Require Import Prelude CString.

(** ** Outcomes

    [Err] is [return 1]; [Assert] a failed assertion, which ends the process;
    [Crash] a read outside [buf]; [Hang] the end of the fuel. *)

Inductive outcome (A : Type) :=
  | Done (a : A)
  | Err
  | Assert
  | Crash
  | Hang.
Arguments Done {A} a.
Arguments Err {A}.
Arguments Assert {A}.
Arguments Crash {A}.
Arguments Hang {A}.

#[global] Instance outcome_ret : MRet outcome := fun A a => Done a.
#[global] Instance outcome_bind : MBind outcome := fun A B f m =>
  match m with
  | Done a => f a
  | Err => Err
  | Assert => Assert
  | Crash => Crash
  | Hang => Hang
  end.

Definition assert (b : bool) : outcome unit := if b then Done () else Assert.
Definition check (b : bool) : outcome unit := if b then Err else Done ().

(** ** Data *)

Definition RFC1035_MAXLABELSZ : Z := 63.
Definition RFC1035_MAXHOSTNAMESZ : Z := 256.
Definition RFC1035_TYPE_A : Z := 1.
Definition RFC1035_TYPE_PTR : Z := 12.
Definition RFC1035_CLASS_IN : Z := 1.
Definition rfc1035_unpack_error : Z := 15.

Record rfc1035_query := Query { q_name : list Z; qtype : Z; qclass : Z }.

Record rfc1035_rr := RR {
  rr_name : list Z; rr_type : Z; rr_class : Z; ttl : Z; rdlength : Z; rdata : list Z }.

(** The fields of [struct _rfc1035_message] that the header holds; the flags
    are bit fields of the widths 1, 4, 1, 1, 1, 1 and 4. *)
Record header := Header {
  id : Z; qr : Z; opcode : Z; aa : Z; tc : Z; rd : Z; ra : Z; rcode : Z;
  qdcount : Z; ancount : Z; nscount : Z; arcount : Z }.

(** [answer] lists the records that were unpacked. *)
Record rfc1035_message := Message { hdr : header; query : list rfc1035_query; answer : list rfc1035_rr }.

(** ** Packing *)

(** [s = htons(x)], stored with [memcpy]. *)
Definition htons (x : Z) : list Z := [Z.land (Z.shiftr x 8) 255; Z.land x 255].

Definition flags (h : header) : Z :=
  let t := 0 in
  let t := u16 (Z.lor t (Z.shiftl (qr h) 15)) in
  let t := u16 (Z.lor t (Z.shiftl (opcode h) 11)) in
  let t := u16 (Z.lor t (Z.shiftl (aa h) 10)) in
  let t := u16 (Z.lor t (Z.shiftl (tc h) 9)) in
  let t := u16 (Z.lor t (Z.shiftl (rd h) 8)) in
  let t := u16 (Z.lor t (Z.shiftl (ra h) 7)) in
  u16 (Z.lor t (rcode h)).

(** The bytes written at the start of a buffer of [sz] bytes; the count the C
    function returns is their number. *)
Definition rfc1035HeaderPack (sz : Z) (h : header) : outcome (list Z) :=
  assert (12 <=? sz);;
  mret (htons (id h) ++ htons (flags h) ++ htons (qdcount h) ++ htons (ancount h)
        ++ htons (nscount h) ++ htons (arcount h)).

Definition rfc1035LabelPack (sz : Z) (label : option (list Z)) : outcome (list Z) :=
  let len := match label with Some l => strlen l | None => 0 end in
  assert (match label with Some l => bool_decide (strchr l 46 = None) | None => true end);;
  let len := if RFC1035_MAXLABELSZ <? len then RFC1035_MAXLABELSZ else len in
  assert (len + 1 <=? sz);;
  mret (len :: take (Z.to_nat len) (default [] label)).

(** The loop over [strtok(copy, ".")]. *)
Fixpoint name_labels (fuel : nat) (sz : Z) (copy : list Z) : outcome (list Z) :=
  match strtok copy [46] with
  | None => mret []
  | Some (t, rest) =>
      match fuel with
      | O => Hang
      | S fuel =>
          out ← rfc1035LabelPack sz (Some t);
          more ← name_labels fuel (sz - strlen out) rest;
          mret (out ++ more)
      end
  end.

Definition rfc1035NamePack (sz : Z) (name : list Z) : outcome (list Z) :=
  out ← name_labels (length name) sz name;
  root ← rfc1035LabelPack (sz - strlen out) None;
  assert (strlen (out ++ root) <=? sz);;
  mret (out ++ root).

Definition rfc1035QuestionPack (sz : Z) (name : list Z) (type class : Z) : outcome (list Z) :=
  out ← rfc1035NamePack sz name;
  let out := out ++ htons type ++ htons class in
  assert (strlen out <=? sz);;
  mret out.

(** ** Unpacking *)

Definition byte (buf : list Z) (off : Z) : outcome Z :=
  match buf !! Z.to_nat off with Some c => Done c | None => Crash end.

(** [memcpy(&s, buf + off, 2); s = ntohs(s)] *)
Definition ntohs (buf : list Z) (off : Z) : outcome Z :=
  a ← byte buf off; b ← byte buf (off + 1); mret (256 * a + b).

(** [memcpy(&i, buf + off, 4); i = ntohl(i)] *)
Definition ntohl (buf : list Z) (off : Z) : outcome Z :=
  a ← ntohs buf off; b ← ntohs buf (off + 2); mret (65536 * a + b).

(** [memcpy(_, buf + off, len)] *)
Definition memcpy (buf : list Z) (off len : Z) : outcome (list Z) :=
  if off + len <=? strlen buf then Done (take (Z.to_nat len) (drop (Z.to_nat off) buf)) else Crash.

Definition bits (t n mask : Z) : Z := Z.land (Z.shiftr t n) mask.

Definition rfc1035HeaderUnpack (buf : list Z) (sz : Z) : outcome (header * Z) :=
  check (sz <? 12);;
  i ← ntohs buf 0;
  t ← ntohs buf 2;
  qd ← ntohs buf 4;
  an ← ntohs buf 6;
  ns ← ntohs buf 8;
  ar ← ntohs buf 10;
  mret (Header i (bits t 15 1) (bits t 11 15) (bits t 10 1) (bits t 9 1) (bits t 8 1)
          (bits t 7 1) (Z.land t 15) qd an ns ar, 12).

(** The end of [rfc1035NameUnpack]: the last dot becomes the NUL. *)
Definition name_end (off : Z) (rdlen : option Z) (name : list Z) (ns : Z)
    : outcome (Z * option Z * list Z) :=
  assert (strlen name <=? ns);;
  mret (off, rdlen, removelast name).

(** The loop of [rfc1035NameUnpack] on the labels; [name] holds the [no] bytes
    stored so far, and [rec] is the call for a pointer. *)
Section NameLoop.
Context (buf : list Z) (sz ns rdepth : Z).
Context (rec : Z -> option Z -> Z -> outcome (option Z * list Z)).

Fixpoint name_loop (fuel : nat) (off : Z) (rdlen : option Z) (name : list Z)
    : outcome (Z * option Z * list Z) :=
  match fuel with
  | O => Hang
  | S fuel =>
      let no := strlen name in
      assert (off <? sz);;
      c ← byte buf off;
      if 191 <? c then
        check (64 <? rdepth);;
        s ← ntohs buf off;
        let off := off + 2 in
        check (sz <=? off);;
        let ptr := Z.land s 0x3FFF in
        check (sz <=? ptr);;
        '(rdlen, rest) ← rec ptr rdlen (ns - no);
        mret (off, rdlen, name ++ rest)
      else if RFC1035_MAXLABELSZ <? c then Err
      else
        let off := off + 1 in
        if c =? 0 then name_end off rdlen name ns
        else
          check (ns - no - 1 <? c);;
          check (sz <=? off + c);;
          label ← memcpy buf off c;
          let off := off + c in
          let name := name ++ label ++ [46] in
          let rdlen := (fun r => u16 (r + (c + 1))) <$> rdlen in
          if strlen name <? ns then name_loop fuel off rdlen name
          else name_end off rdlen name ns
  end.
End NameLoop.

(** [rdlen] is [*rdlength], [None] for a NULL pointer; [ns] the room for the
    name; [fuel] bounds the nesting of calls. *)
Fixpoint rfc1035NameUnpack (fuel : nat) (buf : list Z) (sz off : Z) (rdlen : option Z)
    (ns rdepth : Z) : outcome (Z * option Z * list Z) :=
  match fuel with
  | O => Hang
  | S fuel =>
      assert (0 <? ns);;
      name_loop buf sz ns rdepth
        (fun ptr rdlen ns' =>
           '(_, rdlen, name) ← rfc1035NameUnpack fuel buf sz ptr rdlen ns' (rdepth + 1);
           mret (rdlen, name))
        (Z.to_nat ns) off rdlen []
  end.

(** Calls nest from [rdepth] 0 to 65. *)
Definition NAME_FUEL : nat := 66.

Definition unpack_name (buf : list Z) (sz off : Z) (rdlen : option Z) : outcome (Z * option Z * list Z) :=
  rfc1035NameUnpack NAME_FUEL buf sz off rdlen RFC1035_MAXHOSTNAMESZ 0.

Definition rfc1035RRUnpack (buf : list Z) (sz off : Z) : outcome (rfc1035_rr * Z) :=
  '(off, _, name) ← unpack_name buf sz off None;
  check (sz <? off + 10);;
  type ← ntohs buf off;
  class ← ntohs buf (off + 2);
  ttl ← ntohl buf (off + 4);
  rdlength ← ntohs buf (off + 8);
  let off := off + 10 in
  check (sz <? off + rdlength);;
  '(rdlen, rdata) ←
    (if type =? RFC1035_TYPE_PTR then
       '(rdata_off, rdlen, rdata) ← unpack_name buf sz off (Some 0);
       check (off + rdlength <? rdata_off);;
       mret (default 0 rdlen, rdata)
     else
       rdata ← memcpy buf off rdlength;
       mret (rdlength, rdata));
  let off := off + rdlength in
  assert (off <=? sz);;
  mret (RR name type class ttl rdlen rdata, off).

Definition rfc1035QueryUnpack (buf : list Z) (sz off : Z) : outcome (rfc1035_query * Z) :=
  '(off, _, name) ← unpack_name buf sz off None;
  check (sz <? off + 4);;
  type ← ntohs buf off;
  class ← ntohs buf (off + 2);
  mret (Query name type class, off + 4).

(** The loop on the answers: it stops at the end of the packet and at the first
    record that does not unpack. *)
Fixpoint answers (n : nat) (buf : list Z) (sz off : Z) : outcome (list rfc1035_rr) :=
  match n with
  | O => mret []
  | S n =>
      if sz <=? off then mret []
      else match rfc1035RRUnpack buf sz off with
           | Err => mret []
           | r => '(rr, off) ← r; rs ← answers n buf sz off; mret (rr :: rs)
           end
  end.

Definition error_message (n : Z) : list Z :=
  match n with
  | 0 => bytes "No error condition"
  | 1 => bytes "Format Error: The name server was unable to interpret the query."
  | 2 => bytes "Server Failure: The name server was unable to process this query."
  | 3 => bytes "Name Error: The domain name does not exist."
  | 4 => bytes "Not Implemented: The name server does not support the requested kind of query."
  | 5 => bytes "Refused: The name server refuses to perform the specified operation."
  | 15 => bytes "The DNS reply message is corrupt or could not be safely parsed."
  | _ => bytes "Unknown Error"
  end.

(** What [rfc1035MessageUnpack] leaves: its value, [*answer] ([None] for NULL, as
    the callers initialise it), and the error variables. *)
Record unpacked := Unpacked {
  ret : Z; msg : option rfc1035_message; rfc1035_errno : Z;
  rfc1035_error_message : option (list Z) }.

(** [rfc1035SetErrno(n); return -n] *)
Definition rfc1035SetErrno (n : Z) (m : option rfc1035_message) : unpacked :=
  Unpacked (- n) m n (Some (error_message n)).

(** [if (f()) { rfc1035SetErrno(rfc1035_unpack_error); ... return }] *)
Definition or_unpack_error {A} (m : outcome A) (k : A -> outcome unpacked) : outcome unpacked :=
  match m with
  | Err => mret (rfc1035SetErrno rfc1035_unpack_error None)
  | m => m ≫= k
  end.

Definition rfc1035MessageUnpack (buf : list Z) (sz : Z) : outcome unpacked :=
  or_unpack_error (rfc1035HeaderUnpack buf sz) (fun '(h, off) =>
  if negb (qdcount h =? 1) then mret (rfc1035SetErrno rfc1035_unpack_error None)
  else
  or_unpack_error (rfc1035QueryUnpack buf sz off) (fun '(q, off) =>
  if negb (rcode h =? 0) then mret (rfc1035SetErrno (rcode h) (Some (Message h [q] [])))
  else if ancount h =? 0 then mret (Unpacked 0 (Some (Message h [q] [])) 0 None)
  else
    recs ← answers (Z.to_nat (ancount h)) buf sz off;
    match recs with
    | [] => mret (rfc1035SetErrno rfc1035_unpack_error None)
    | _ => mret (Unpacked (Z.of_nat (length recs)) (Some (Message h [q] recs)) 0 None)
    end)).

(** ** Queries *)

(** [xstrncpy(dst, src, n)] *)
Definition xstrncpy (src : list Z) (n : Z) : list Z := take (Z.to_nat (n - 1)) src.

(** The header of a query: recursion desired, one question. *)
Definition query_header (qid : Z) : header := Header (u16 qid) 0 0 0 0 1 0 0 1 0 0 0.

Definition build_query (name : list Z) (type : Z) (sz qid : Z) : outcome (list Z * rfc1035_query) :=
  h ← rfc1035HeaderPack sz (query_header qid);
  q ← rfc1035QuestionPack (sz - strlen h) name type RFC1035_CLASS_IN;
  assert (strlen (h ++ q) <=? sz);;
  mret (h ++ q, Query (xstrncpy name RFC1035_MAXHOSTNAMESZ) type RFC1035_CLASS_IN).

Definition rfc1035BuildAQuery (hostname : list Z) (sz qid : Z) : outcome (list Z * rfc1035_query) :=
  build_query hostname RFC1035_TYPE_A sz qid.

(** The name of an address, [i] in host byte order. *)
Definition ptr_name (i : Z) : list Z :=
  snprintf 32 (dec (Z.land i 255) ++ [46] ++ dec (Z.land (Z.shiftr i 8) 255) ++ [46]
    ++ dec (Z.land (Z.shiftr i 16) 255) ++ [46] ++ dec (Z.land (Z.shiftr i 24) 255)
    ++ bytes ".in-addr.arpa.").

Definition rfc1035BuildPTRQuery (addr : Z) (sz qid : Z) : outcome (list Z * rfc1035_query) :=
  build_query (ptr_name addr) RFC1035_TYPE_PTR sz qid.

Definition rfc1035SetQueryID (buf : list Z) (qid : Z) : list Z := htons qid ++ drop 2 buf.

(** [while (la > 0 && a->name[la - 1] == '.') la--] *)
Fixpoint trim_dots (s : list Z) (la : nat) : nat :=
  match la with
  | O => O
  | S n => if nth n s 0 =? 46 then trim_dots s n else la
  end.

Fixpoint strncasecmp (n : nat) (a b : list Z) : Z :=
  match n with
  | O => 0
  | S n =>
      let x := tolower (nth 0 a 0) in let y := tolower (nth 0 b 0) in
      if x =? y then if x =? 0 then 0 else strncasecmp n (drop 1 a) (drop 1 b)
      else x - y
  end.

Definition rfc1035QueryCompare (a b : rfc1035_query) : Z :=
  if negb (qtype a =? qtype b) then 1
  else if negb (qclass a =? qclass b) then 1
  else
    let na := cstr (q_name a) in let nb := cstr (q_name b) in
    let '(la, lb) := if (length na =? length nb)%nat then (length na, length nb)
                     else (trim_dots na (length na), trim_dots nb (length nb)) in
    if negb (la =? lb)%nat then 1 else strncasecmp la na nb.

(** ** Examples *)

Definition example_query : outcome (list Z * rfc1035_query) :=
  rfc1035BuildAQuery (bytes "www.my-box.net.") 512 4660.

Example example_query_bytes :
  fst <$> (match example_query with Done x => Some x | _ => None end)
  = Some ([18; 52; 1; 0; 0; 1; 0; 0; 0; 0; 0; 0]
          ++ 3 :: bytes "www" ++ 6 :: bytes "my-box" ++ 3 :: bytes "net" ++ [0; 0; 1; 0; 1]).
Proof. reflexivity. Qed.

(** ** Unpacking reads the message only, and ends *)

Ltac outs := cbn [mbind outcome_bind mret outcome_ret assert check].

Lemma byte_ok (buf : list Z) (off : Z) :
  Forall is_byte buf -> 0 <= off < strlen buf -> exists c, byte buf off = Done c /\ 0 <= c < 256.
Proof.
  intros Hb Ho. unfold byte, strlen in *.
  destruct (lookup_lt_is_Some_2 buf (Z.to_nat off)) as [c Hc]; [lia|].
  rewrite Hc. exists c. split; [done|]. exact (Forall_lookup_1 _ _ _ _ Hb Hc).
Qed.

Lemma ntohs_ok (buf : list Z) (off : Z) :
  Forall is_byte buf -> 0 <= off -> off + 1 < strlen buf ->
  exists s, ntohs buf off = Done s /\ 0 <= s < 65536.
Proof.
  intros Hb H0 H1. unfold ntohs.
  destruct (byte_ok buf off Hb) as (a & -> & Ha); [lia|].
  destruct (byte_ok buf (off + 1) Hb) as (b & -> & Hc); [lia|].
  outs. eexists. split; [reflexivity | lia].
Qed.

Lemma ntohl_ok (buf : list Z) (off : Z) :
  Forall is_byte buf -> 0 <= off -> off + 3 < strlen buf -> exists i, ntohl buf off = Done i.
Proof.
  intros Hb H0 H1. unfold ntohl.
  destruct (ntohs_ok buf off Hb) as (a & -> & Ha); [lia..|].
  destruct (ntohs_ok buf (off + 2) Hb) as (b & -> & Hc); [lia..|].
  outs. by eexists.
Qed.

Lemma memcpy_ok (buf : list Z) (off len : Z) :
  0 <= off -> 0 <= len -> off + len <= strlen buf ->
  exists l, memcpy buf off len = Done l /\ strlen l = len.
Proof.
  intros H0 H1 H2. unfold memcpy. rewrite (proj2 (Z.leb_le _ _) H2).
  eexists. split; [reflexivity|]. unfold strlen in *. rewrite length_take, length_drop. lia.
Qed.

(** A name unpacked at [off]: the offset moves on inside the message and the
    name leaves room for its NUL. *)
Definition name_done (sz ns off : Z) (r : outcome (Z * option Z * list Z)) : Prop :=
  match r with
  | Done (off', _, name) => off < off' <= sz /\ strlen name < ns
  | Err => True
  | _ => False
  end.

Definition rec_done (ns : Z) (r : outcome (option Z * list Z)) : Prop :=
  match r with
  | Done (_, name) => strlen name < ns
  | Err => True
  | _ => False
  end.

Lemma name_end_done (sz ns off0 off : Z) (rdlen : option Z) (name : list Z) :
  0 < ns -> off0 < off <= sz -> strlen name <= ns -> name_done sz ns off0 (name_end off rdlen name ns).
Proof.
  intros Hn Ho Hl. unfold name_end. rewrite (proj2 (Z.leb_le _ _) Hl). outs. split; [exact Ho|].
  destruct name as [|c l _] using rev_ind; [exact Hn|].
  rewrite removelast_last. rewrite strlen_app in Hl. cbn in Hl |- *. unfold strlen in *. cbn in *. lia.
Qed.

Section Safe.
Context (buf : list Z) (sz : Z) (Hb : Forall is_byte buf) (Hsz : 0 <= sz < strlen buf).

Lemma name_loop_done ns rdepth rec :
  0 < ns ->
  (rdepth <= 64 -> forall ptr rdlen ns', 0 <= ptr < sz -> 0 < ns' -> rec_done ns' (rec ptr rdlen ns')) ->
  forall fuel off0 off rdlen name,
    ns - strlen name <= Z.of_nat fuel -> strlen name < ns -> 0 <= off < sz -> off0 <= off ->
    name_done sz ns off0 (name_loop buf sz ns rdepth rec fuel off rdlen name).
Proof.
  intros Hns Hrec. induction fuel as [|fuel IH]; intros off0 off rdlen name Hf Hl Ho H0; [lia|].
  cbn [name_loop]. rewrite (proj2 (Z.ltb_lt off sz)) by lia. outs.
  destruct (byte_ok buf off Hb) as (c & -> & Hc); [lia|]. outs.
  destruct (Z.ltb_spec 191 c).
  - destruct (Z.ltb_spec 64 rdepth); outs; [exact I|].
    destruct (ntohs_ok buf off Hb) as (s & -> & Hs); [lia..|]. outs.
    destruct (Z.leb_spec sz (off + 2)); outs; [exact I|].
    destruct (Z.leb_spec sz (Z.land s 16383)); outs; [exact I|].
    pose proof (Z.land_nonneg s 16383).
    specialize (Hrec ltac:(lia) (Z.land s 16383) rdlen (ns - strlen name) ltac:(lia) ltac:(lia)).
    destruct (rec _ _ _) as [[r n]| | | |]; try done. outs.
    split; [lia|]. rewrite strlen_app. cbn in Hrec. lia.
  - destruct (RFC1035_MAXLABELSZ <? c); [exact I|].
    destruct (Z.eqb_spec c 0); [apply name_end_done; lia|].
    destruct (Z.ltb_spec (ns - strlen name - 1) c); outs; [exact I|].
    destruct (Z.leb_spec sz (off + 1 + c)); outs; [exact I|].
    destruct (memcpy_ok buf (off + 1) c) as (l & -> & Hlen); [lia..|]. outs.
    assert (E : strlen (name ++ l ++ [46]) = strlen name + c + 1)
      by (rewrite !strlen_app, Hlen; unfold strlen; cbn; lia).
    destruct (Z.ltb_spec (strlen (name ++ l ++ [46])) ns).
    + apply IH; lia.
    + apply name_end_done; lia.
Qed.

Lemma name_unpack_done fuel off rdlen ns rdepth :
  66 <= Z.of_nat fuel + rdepth -> rdepth <= 65 -> 0 < ns -> 0 <= off < sz ->
  name_done sz ns off (rfc1035NameUnpack fuel buf sz off rdlen ns rdepth).
Proof.
  revert off rdlen ns rdepth. induction fuel as [|fuel IH]; intros off rdlen ns rdepth Hf Hd Hn Ho; [lia|].
  cbn [rfc1035NameUnpack]. rewrite (proj2 (Z.ltb_lt 0 ns) Hn). outs.
  apply name_loop_done; try (unfold strlen; cbn; lia).
  intros Hr ptr rl ns' Hp Hns'.
  specialize (IH ptr rl ns' (rdepth + 1) ltac:(lia) ltac:(lia) Hns' Hp).
  destruct (rfc1035NameUnpack _ _ _ _ _ _ _) as [[[o r] n]| | | |]; try done. outs.
  by destruct IH.
Qed.

Lemma unpack_name_done off rdlen :
  0 <= off < sz -> name_done sz RFC1035_MAXHOSTNAMESZ off (unpack_name buf sz off rdlen).
Proof. apply name_unpack_done; unfold NAME_FUEL, RFC1035_MAXHOSTNAMESZ; lia. Qed.

Lemma unpack_name_end rdlen : unpack_name buf sz sz rdlen = Assert.
Proof.
  unfold unpack_name. change NAME_FUEL with (S 65).
  change RFC1035_MAXHOSTNAMESZ with (Z.of_nat (S 255)). generalize 65%nat 255%nat. intros n m.
  cbn [rfc1035NameUnpack]. rewrite Nat2Z.id. rewrite (proj2 (Z.ltb_lt 0 _)) by lia. outs.
  cbn [name_loop]. by rewrite (proj2 (Z.ltb_ge sz sz)) by lia.
Qed.

(** A message that ends with a PTR record without data. *)
Definition ends_in_empty_ptr : Prop :=
  ntohs buf (sz - 10) = Done RFC1035_TYPE_PTR /\ ntohs buf (sz - 2) = Done 0.

Definition rr_ok (rr : rfc1035_rr) : Prop :=
  strlen (rr_name rr) < RFC1035_MAXHOSTNAMESZ /\
  (if rr_type rr =? RFC1035_TYPE_PTR then strlen (rdata rr) < RFC1035_MAXHOSTNAMESZ
   else strlen (rdata rr) = rdlength rr).

Definition rr_done (off : Z) (r : outcome (rfc1035_rr * Z)) : Prop :=
  match r with
  | Done (rr, off') => off < off' <= sz /\ rr_ok rr
  | Err => True
  | Assert => ends_in_empty_ptr
  | _ => False
  end.

Lemma rr_unpack_done off : 0 <= off < sz -> rr_done off (rfc1035RRUnpack buf sz off).
Proof.
  intros Ho. unfold rfc1035RRUnpack.
  pose proof (unpack_name_done off None Ho) as Hn.
  destruct (unpack_name buf sz off None) as [[[o r] n]| | | |]; try done. destruct Hn as [Ho' Hn].
  outs. destruct (Z.ltb_spec sz (o + 10)); outs; [exact I|].
  destruct (ntohs_ok buf o Hb) as (ty & Ety & Hty); [lia..|].
  destruct (ntohs_ok buf (o + 2) Hb) as (cl & -> & _); [lia..|].
  destruct (ntohl_ok buf (o + 4) Hb) as (tt & ->); [lia..|].
  destruct (ntohs_ok buf (o + 8) Hb) as (rl & Erl & Hrl); [lia..|].
  rewrite Ety, Erl. outs. destruct (Z.ltb_spec sz (o + 10 + rl)); outs; [exact I|].
  unfold rr_done, rr_ok. destruct (Z.eqb_spec ty RFC1035_TYPE_PTR) as [->|Hp].
  - destruct (Z.eq_dec (o + 10) sz) as [E|E].
    + rewrite E, unpack_name_end. outs. split.
      * by replace (sz - 10) with o by lia.
      * replace (sz - 2) with (o + 8) by lia. by replace rl with 0 in * by lia.
    + pose proof (unpack_name_done (o + 10) (Some 0) ltac:(lia)) as Hd.
      destruct (unpack_name buf sz (o + 10) (Some 0)) as [[[o2 r2] n2]| | | |]; try done. outs.
      destruct (Z.ltb_spec (o + 10 + rl) o2); outs; [exact I|].
      rewrite (proj2 (Z.leb_le _ _)) by lia. outs. cbn. cbn in Hd. lia.
  - destruct (memcpy_ok buf (o + 10) rl) as (l & -> & Hl); [lia..|]. outs.
    rewrite (proj2 (Z.leb_le _ _)) by lia. outs. cbn [rr_name rr_type rdata rdlength].
    rewrite (proj2 (Z.eqb_neq _ _) Hp). lia.
Qed.

Definition query_done (off : Z) (r : outcome (rfc1035_query * Z)) : Prop :=
  match r with
  | Done (q, off') => off < off' <= sz /\ strlen (q_name q) < RFC1035_MAXHOSTNAMESZ
  | Err => True
  | _ => False
  end.

Lemma query_unpack_done off : 0 <= off < sz -> query_done off (rfc1035QueryUnpack buf sz off).
Proof.
  intros Ho. unfold rfc1035QueryUnpack.
  pose proof (unpack_name_done off None Ho) as Hn.
  destruct (unpack_name buf sz off None) as [[[o r] n]| | | |]; try done. destruct Hn as [Ho' Hn].
  outs. destruct (Z.ltb_spec sz (o + 4)); outs; [exact I|].
  destruct (ntohs_ok buf o Hb) as (ty & -> & _); [lia..|].
  destruct (ntohs_ok buf (o + 2) Hb) as (cl & -> & _); [lia..|].
  cbn. split; [lia | exact Hn].
Qed.

Lemma query_unpack_end off : sz = off -> rfc1035QueryUnpack buf sz off = Assert.
Proof. intros <-. unfold rfc1035QueryUnpack. by rewrite unpack_name_end. Qed.

Lemma answers_done n off :
  0 <= off <= sz ->
  match answers n buf sz off with
  | Done rs => (length rs <= n)%nat /\ Forall rr_ok rs
  | Assert => ends_in_empty_ptr
  | _ => False
  end.
Proof.
  revert off. induction n as [|n IH]; intros off Ho; cbn [answers]; [split; [done | constructor]|].
  destruct (Z.leb_spec sz off); [split; [cbn; lia | constructor]|].
  pose proof (rr_unpack_done off ltac:(lia)) as Hr. unfold rr_done in Hr.
  destruct (rfc1035RRUnpack buf sz off) as [[rr off']| | | |]; try done; outs;
    [|split; [cbn; lia | constructor]].
  destruct Hr as [Ho' Hrr]. specialize (IH off' ltac:(lia)).
  destruct (answers n buf sz off') as [rs| | | |]; try done. outs. destruct IH as [Hl Hrs].
  split; [cbn; lia | by constructor].
Qed.

Lemma header_unpack_done :
  (rfc1035HeaderUnpack buf sz = Err /\ sz < 12) \/
  (exists h, rfc1035HeaderUnpack buf sz = Done (h, 12) /\ 12 <= sz /\ 0 <= ancount h < 65536 /\ 0 <= rcode h < 16).
Proof.
  unfold rfc1035HeaderUnpack. destruct (Z.ltb_spec sz 12); outs; [by left|]. right.
  destruct (ntohs_ok buf 0 Hb) as (i & -> & _); [lia..|].
  destruct (ntohs_ok buf 2 Hb) as (t & -> & Ht); [lia..|].
  destruct (ntohs_ok buf 4 Hb) as (qd & -> & _); [lia..|].
  destruct (ntohs_ok buf 6 Hb) as (an & -> & Han); [lia..|].
  destruct (ntohs_ok buf 8 Hb) as (ns & -> & _); [lia..|].
  destruct (ntohs_ok buf 10 Hb) as (ar & -> & _); [lia..|].
  outs. eexists. split; [reflexivity|]. cbn [ancount rcode].
  change 15 with (2 ^ 4 - 1). rewrite land_ones by lia. split; [done|]. split; [done|]. dlia.
Qed.

(** What the caller gets: a count of records with the records, or an error
    number with the error variables set. *)
Definition unpacked_ok (u : unpacked) : Prop :=
  (0 <= ret u -> rfc1035_errno u = 0 /\
     exists m q, msg u = Some m /\ query m = [q] /\ strlen (q_name q) < RFC1035_MAXHOSTNAMESZ /\
       qdcount (hdr m) = 1 /\ rcode (hdr m) = 0 /\
       ret u = Z.of_nat (length (answer m)) /\ ret u <= ancount (hdr m) /\ Forall rr_ok (answer m)) /\
  (ret u < 0 -> ret u = - rfc1035_errno u /\
     rfc1035_error_message u = Some (error_message (rfc1035_errno u)) /\
     (msg u = None /\ rfc1035_errno u = rfc1035_unpack_error \/
      exists m q, msg u = Some m /\ query m = [q] /\ rcode (hdr m) = rfc1035_errno u)).

Lemma message_unpack_done :
  match rfc1035MessageUnpack buf sz with
  | Done u => unpacked_ok u
  | Assert => sz = 12 \/ ends_in_empty_ptr
  | _ => False
  end.
Proof.
  assert (HE : unpacked_ok (rfc1035SetErrno rfc1035_unpack_error None)) by (split; [intros []; reflexivity | cbn; auto]).
  unfold rfc1035MessageUnpack.
  destruct header_unpack_done as [[-> _]|(h & -> & Hs & Ha & Hrc)]; [exact HE|].
  cbn [or_unpack_error]. outs. destruct (Z.eqb_spec (qdcount h) 1) as [Hq|]; [|exact HE]. cbn [negb].
  destruct (Z.eq_dec sz 12) as [E|Hne].
  { rewrite (query_unpack_end 12 E). by left. }
  pose proof (query_unpack_done 12 ltac:(lia)) as Hqu. unfold query_done in Hqu.
  destruct (rfc1035QueryUnpack buf sz 12) as [[q off]| | | |]; try done; cbn [or_unpack_error]; outs.
  destruct (Z.eqb_spec (rcode h) 0) as [Hr|Hr]; cbn [negb];
    [|split; cbn; [lia | intros _; split; [done|]; split; [done|]; right; eauto]].
  destruct (Z.eqb_spec (ancount h) 0) as [Hz|Hz].
  { split; cbn; [|lia]. intros _. split; [done|]. do 2 eexists. do 2 (split; [reflexivity|]).
    cbn. repeat split; try done; lia. }
  pose proof (answers_done (Z.to_nat (ancount h)) off ltac:(lia)) as Han.
  destruct (answers _ _ _ _) as [rs| | | |]; try done; outs; [|by right].
  destruct rs as [|r rs]; [exact HE|]. split; cbn [ret msg rfc1035_errno mret outcome_ret]; [|lia].
  intros _. split; [done|]. do 2 eexists. do 2 (split; [reflexivity|]). cbn [hdr answer].
  repeat split; try tauto; lia.
Qed.
End Safe.

(** ** The memory after the message does not matter

    A pointer in the last byte of the message is read with the byte after it;
    the check that follows rejects it. *)

Section Agree.
Context (buf buf' : list Z) (sz : Z).
Context (Hb : Forall is_byte buf) (Hb' : Forall is_byte buf').
Context (Hsz : 0 <= sz < strlen buf) (Hsz' : sz < strlen buf').
Context (Ha : take (Z.to_nat sz) buf = take (Z.to_nat sz) buf').

Lemma byte_agree off : 0 <= off < sz -> byte buf off = byte buf' off.
Proof.
  intros Ho. unfold byte.
  rewrite <- (lookup_take_lt buf (Z.to_nat sz) (Z.to_nat off)), Ha by lia.
  by rewrite lookup_take_lt by lia.
Qed.

Lemma ntohs_agree off : 0 <= off -> off + 1 < sz -> ntohs buf off = ntohs buf' off.
Proof. intros H0 H1. unfold ntohs. by rewrite !byte_agree by lia. Qed.

Lemma ntohl_agree off : 0 <= off -> off + 3 < sz -> ntohl buf off = ntohl buf' off.
Proof. intros H0 H1. unfold ntohl. by rewrite !ntohs_agree by lia. Qed.

Lemma memcpy_agree off len :
  0 <= off -> 0 <= len -> off + len <= sz -> memcpy buf off len = memcpy buf' off len.
Proof.
  intros H0 H1 H2. unfold memcpy. rewrite !(proj2 (Z.leb_le _ _)) by lia. f_equal.
  assert (E : forall b : list Z, take (Z.to_nat len) (drop (Z.to_nat off) b)
                        = take (Z.to_nat len) (drop (Z.to_nat off) (take (Z.to_nat sz) b))).
  { intros b. rewrite skipn_firstn_comm, take_take. f_equal. lia. }
  by rewrite (E buf), Ha, <- E.
Qed.

Lemma name_loop_agree ns rdepth rec rec' :
  (forall ptr rdlen ns', 0 <= ptr < sz -> rec ptr rdlen ns' = rec' ptr rdlen ns') ->
  forall fuel off rdlen name, 0 <= off ->
    name_loop buf sz ns rdepth rec fuel off rdlen name
    = name_loop buf' sz ns rdepth rec' fuel off rdlen name.
Proof.
  intros Hrec. induction fuel as [|fuel IH]; intros off rdlen name Ho; [done|].
  cbn [name_loop]. destruct (Z.ltb_spec off sz); outs; [|done].
  destruct (byte_ok buf off Hb) as (c & E & Hc); [lia|]. rewrite <- byte_agree by lia. rewrite E. outs.
  destruct (191 <? c).
  - destruct (64 <? rdepth); outs; [done|].
    destruct (Z.leb_spec sz (off + 2)) as [Hp|Hp]; outs.
    + destruct (ntohs_ok buf off Hb) as (s & -> & Hs); [lia..|].
      destruct (ntohs_ok buf' off Hb') as (s' & -> & Hs'); [lia..|]. done.
    + rewrite <- (ntohs_agree off) by lia.
      destruct (ntohs_ok buf off Hb) as (s & -> & Hs); [lia..|]. outs.
      destruct (Z.leb_spec sz (Z.land s 16383)); outs; [done|].
      pose proof (Z.land_nonneg s 16383). by rewrite Hrec by lia.
  - destruct (RFC1035_MAXLABELSZ <? c); [done|]. destruct (c =? 0); [done|].
    destruct (ns - strlen name - 1 <? c); outs; [done|].
    destruct (Z.leb_spec sz (off + 1 + c)); outs; [done|].
    rewrite <- (memcpy_agree (off + 1) c) by lia.
    destruct (memcpy buf (off + 1) c) as [l| | | |]; try done. outs.
    destruct (_ <? ns); [apply IH; lia | done].
Qed.

Lemma name_unpack_agree fuel off rdlen ns rdepth :
  0 <= off -> rfc1035NameUnpack fuel buf sz off rdlen ns rdepth
              = rfc1035NameUnpack fuel buf' sz off rdlen ns rdepth.
Proof.
  revert off rdlen ns rdepth. induction fuel as [|fuel IH]; intros off rdlen ns rdepth Ho; [done|].
  cbn [rfc1035NameUnpack]. destruct (0 <? ns); outs; [|done].
  apply name_loop_agree; [|done]. intros ptr rl ns' Hp. by rewrite IH by lia.
Qed.

Lemma unpack_name_agree off rdlen :
  0 <= off -> unpack_name buf sz off rdlen = unpack_name buf' sz off rdlen.
Proof. apply name_unpack_agree. Qed.

Lemma rr_unpack_agree off : 0 <= off < sz -> rfc1035RRUnpack buf sz off = rfc1035RRUnpack buf' sz off.
Proof.
  intros Ho. unfold rfc1035RRUnpack. rewrite <- unpack_name_agree by lia.
  pose proof (unpack_name_done buf sz Hb Hsz off None Ho) as Hn.
  destruct (unpack_name buf sz off None) as [[[o r] n]| | | |]; try done. destruct Hn as [Ho' _].
  outs. destruct (Z.ltb_spec sz (o + 10)); outs; [done|].
  rewrite <- !ntohs_agree, <- ntohl_agree by lia.
  destruct (ntohs_ok buf (o + 8) Hb) as (rl & -> & Hrl); [lia..|].
  destruct (ntohs_ok buf o Hb) as (ty & -> & _); [lia..|].
  destruct (ntohs buf (o + 2)) as [cl| | | |]; try done. outs.
  destruct (ntohl buf (o + 4)) as [tt| | | |]; try done. outs.
  destruct (Z.ltb_spec sz (o + 10 + rl)); outs; [done|].
  by rewrite <- unpack_name_agree, <- memcpy_agree by lia.
Qed.

Lemma answers_agree n off : 0 <= off -> answers n buf sz off = answers n buf' sz off.
Proof.
  revert off. induction n as [|n IH]; intros off Ho; cbn [answers]; [done|].
  destruct (Z.leb_spec sz off); [done|]. rewrite <- rr_unpack_agree by lia.
  pose proof (rr_unpack_done buf sz Hb Hsz off ltac:(lia)) as Hr.
  destruct (rfc1035RRUnpack buf sz off) as [[rr o]| | | |]; try done. cbn in Hr.
  outs. by rewrite IH by lia.
Qed.

Lemma query_unpack_agree off :
  0 <= off -> off <= sz -> rfc1035QueryUnpack buf sz off = rfc1035QueryUnpack buf' sz off.
Proof.
  intros Ho Hle. destruct (Z.eq_dec sz off) as [<-|Hne].
  { rewrite !query_unpack_end; done || lia. }
  unfold rfc1035QueryUnpack. rewrite <- unpack_name_agree by lia.
  pose proof (unpack_name_done buf sz Hb Hsz off None ltac:(lia)) as Hn.
  destruct (unpack_name buf sz off None) as [[[o r] n]| | | |]; try done. cbn in Hn.
  outs. destruct (Z.ltb_spec sz (o + 4)); outs; [done|]. by rewrite <- !ntohs_agree by lia.
Qed.

Lemma message_unpack_agree : rfc1035MessageUnpack buf sz = rfc1035MessageUnpack buf' sz.
Proof.
  unfold rfc1035MessageUnpack.
  assert (E : rfc1035HeaderUnpack buf sz = rfc1035HeaderUnpack buf' sz).
  { unfold rfc1035HeaderUnpack. destruct (Z.ltb_spec sz 12); outs; [done|].
    by rewrite <- !ntohs_agree by lia. }
  rewrite <- E.
  destruct (header_unpack_done buf sz Hb Hsz) as [[-> _]|(h & -> & Hs & _)]; [done|].
  cbn [or_unpack_error]. outs. destruct (negb _); [done|]. rewrite <- query_unpack_agree by lia.
  destruct (Z.eq_dec sz 12) as [E12|Hne].
  { by rewrite query_unpack_end. }
  pose proof (query_unpack_done buf sz Hb Hsz 12 ltac:(lia)) as Hq.
  destruct (rfc1035QueryUnpack buf sz 12) as [[q off]| | | |]; try done.
  cbn [or_unpack_error]. outs. cbn in Hq.
  destruct (negb _); [done|]. destruct (_ =? 0); [done|]. by rewrite answers_agree by lia.
Qed.
End Agree.

(** ** Names on the wire

    A name is a list of labels; [hostname ls k] writes it with [k] dots at
    its end, [wire ls] is its form in a message without the root label. *)

Definition label_ok (l : list Z) : Prop :=
  1 <= strlen l <= RFC1035_MAXLABELSZ /\ Forall (fun c => 0 < c < 256 /\ c <> 46) l.

Definition dotted (ls : list (list Z)) : list Z := concat (map (fun l => l ++ [46]) ls).
Definition joined (ls : list (list Z)) : list Z := removelast (dotted ls).
Definition wire (ls : list (list Z)) : list Z := concat (map (fun l => strlen l :: l) ls).
Definition hostname (ls : list (list Z)) (k : nat) : list Z := joined ls ++ replicate k 46.

Lemma joined_cons (l : list Z) (ls : list (list Z)) :
  joined (l :: ls) = match ls with [] => l | _ => l ++ 46 :: joined ls end.
Proof.
  unfold joined, dotted. cbn [map concat]. destruct ls as [|l' ls].
  - cbn. by rewrite app_nil_r, removelast_last.
  - rewrite <- app_assoc. rewrite removelast_app by done. f_equal.
    cbn [map concat app]. destruct l'; done.
Qed.

Lemma dotted_len (ls : list (list Z)) (k : nat) :
  strlen (hostname ls k) < 255 -> strlen (dotted ls) <= 255.
Proof.
  unfold hostname, joined. rewrite strlen_app. pose proof (strlen_nonneg (replicate k 46)).
  destruct (dotted ls) as [|c l _] using rev_ind; [done|].
  rewrite removelast_last, strlen_app. unfold strlen. cbn. lia.
Qed.

Lemma strlen_wire (ls : list (list Z)) : strlen (wire ls) = strlen (dotted ls).
Proof.
  unfold wire, dotted. induction ls as [|l ls IH]; [done|]. cbn [map concat].
  change (strlen l :: l) with ([strlen l] ++ l). rewrite !strlen_app, IH. unfold strlen. cbn. lia.
Qed.

Lemma break_label (l r : list Z) :
  Forall (fun c => 0 < c < 256 /\ c <> 46) l -> (r = [] \/ head r = Some 46) -> break [46] (l ++ r) = (l, r).
Proof.
  intros Hl Hr. induction Hl as [|c l [_ Hc] _ IH]; cbn.
  - destruct r as [|d r]; [done|]. destruct Hr as [|[= ->]]; done.
  - rewrite IH. unfold in_set. rewrite bool_decide_eq_false_2 by set_solver. done.
Qed.

Lemma strtok_label (l r : list Z) :
  label_ok l -> (r = [] \/ head r = Some 46) -> strtok (l ++ r) [46] = Some (l, drop 1 r).
Proof.
  intros [Hlen Hl] Hr. unfold strtok.
  assert (E : strspn (l ++ r) [46] = 0%nat).
  { destruct l as [|c l]; [unfold strlen in Hlen; cbn in Hlen; lia|]. cbn.
    apply Forall_cons in Hl as [[_ Hc] _]. unfold in_set. by rewrite bool_decide_eq_false_2 by set_solver. }
  rewrite E. cbn [drop]. destruct (l ++ r) as [|x y] eqn:El.
  - apply app_eq_nil in El as [-> _]. unfold strlen in Hlen. cbn in Hlen. lia.
  - pose proof (break_label l r Hl Hr) as Hbr. rewrite El in Hbr.
    change (drop 0 (x :: y)) with (x :: y). cbv beta iota. by rewrite Hbr.
Qed.

Lemma strtok_dots k : strtok (replicate k 46) [46] = None.
Proof. unfold strtok. induction k as [|k IH]; [done | exact IH]. Qed.

Lemma label_pack_ok (sz : Z) (l : list Z) :
  label_ok l -> strlen l + 1 <= sz -> rfc1035LabelPack sz (Some l) = Done (strlen l :: l).
Proof.
  intros [Hlen Hl] Hs. unfold rfc1035LabelPack.
  assert (E : strchr l 46 = None).
  { apply strchr_None. intros Hin. rewrite Forall_forall in Hl. by apply Hl in Hin as [_ ?]. }
  rewrite bool_decide_eq_true_2 by done. outs.
  rewrite (proj2 (Z.ltb_ge _ _)) by lia. rewrite (proj2 (Z.leb_le _ _)) by lia. outs.
  cbn. rewrite take_ge; [done|]. unfold strlen. lia.
Qed.

Lemma name_labels_ok (ls : list (list Z)) (k fuel : nat) (sz : Z) :
  Forall label_ok ls -> strlen (wire ls) <= sz -> (length ls <= fuel)%nat ->
  name_labels fuel sz (hostname ls k) = Done (wire ls).
Proof.
  revert fuel sz. induction ls as [|l ls IH]; intros fuel sz Hls Hs Hf.
  - unfold hostname. change (joined [] ++ replicate k 46) with (replicate k 46).
    destruct fuel; cbn [name_labels]; by rewrite strtok_dots.
  - apply Forall_cons in Hls as [Hl Hls]. destruct fuel as [|fuel]; [cbn in Hf; lia|].
    assert (E : exists r, hostname (l :: ls) k = l ++ r /\ (r = [] \/ head r = Some 46) /\
                name_labels fuel (sz - strlen (strlen l :: l)) (drop 1 r) = Done (wire ls)).
    { unfold wire in Hs. cbn [map concat] in Hs. rewrite strlen_app in Hs.
      unfold hostname. rewrite joined_cons. destruct ls as [|l' ls].
      - exists (replicate k 46). split; [done|]. split; [destruct k; auto|].
        destruct k as [|k]; cbn [drop replicate]; rewrite ?drop_0;
          destruct fuel; cbn [name_labels]; by rewrite ?strtok_dots.
      - eexists (46 :: hostname (l' :: ls) k). split; [unfold hostname; by rewrite <- app_assoc|].
        split; [by right|]. cbn [drop]. apply IH; [done | unfold wire; lia | cbn in Hf |- *; lia]. }
    destruct E as (r & -> & Hr & E). cbn [name_labels]. rewrite strtok_label by done.
    unfold wire in Hs |- *. cbn [map concat] in Hs |- *. rewrite strlen_app in Hs.
    change (strlen l :: l) with ([strlen l] ++ l) in Hs at 1. rewrite strlen_app in Hs.
    rewrite label_pack_ok; [|done | pose proof (strlen_nonneg (concat (map (fun l0 => strlen l0 :: l0) ls))); unfold strlen in *; cbn in *; lia].
    outs. by rewrite E.
Qed.

Lemma length_labels (ls : list (list Z)) (k : nat) :
  Forall label_ok ls -> (length ls <= length (hostname ls k))%nat.
Proof.
  intros H. unfold hostname. rewrite length_app. enough (length ls <= length (joined ls))%nat by lia.
  induction H as [|l ls [Hl _] _ IH]; [done|]. rewrite joined_cons.
  unfold strlen in Hl. destruct ls; [cbn; lia|]. rewrite length_app. cbn [length] in *. lia.
Qed.

Lemma name_pack_ok (ls : list (list Z)) (k : nat) (sz : Z) :
  Forall label_ok ls -> strlen (wire ls) + 1 <= sz ->
  rfc1035NamePack sz (hostname ls k) = Done (wire ls ++ [0]).
Proof.
  intros Hls Hs. unfold rfc1035NamePack.
  rewrite name_labels_ok; [|done | lia | by apply length_labels]. outs.
  unfold rfc1035LabelPack. outs. rewrite (proj2 (Z.ltb_ge _ _)) by done.
  rewrite (proj2 (Z.leb_le _ _)) by lia. outs.
  change (take (Z.to_nat 0) (default [] None)) with (@nil Z).
  rewrite (proj2 (Z.leb_le _ _)); [done|]. rewrite strlen_app. unfold strlen in *. cbn in *. lia.
Qed.

(** ** Reading what was packed *)

Lemma byte_at (pre post : list Z) (c : Z) : byte (pre ++ c :: post) (strlen pre) = Done c.
Proof. unfold byte, strlen. rewrite Nat2Z.id. by rewrite list_lookup_middle. Qed.

Lemma memcpy_at (pre l post : list Z) : memcpy (pre ++ l ++ post) (strlen pre) (strlen l) = Done l.
Proof.
  unfold memcpy. rewrite (proj2 (Z.leb_le _ _)) by (rewrite !strlen_app; pose proof (strlen_nonneg post); lia).
  unfold strlen. by rewrite !Nat2Z.id, drop_app_length, take_app_length.
Qed.

Lemma htons_bytes (x : Z) : 0 <= x < 65536 -> 256 * Z.land (Z.shiftr x 8) 255 + Z.land x 255 = x.
Proof.
  intros Hx. change 255 with (2 ^ 8 - 1). rewrite !land_ones by lia. rewrite Z.shiftr_div_pow2 by lia. dlia.
Qed.

Lemma ntohs_at (pre post : list Z) (x : Z) :
  0 <= x < 65536 -> ntohs (pre ++ htons x ++ post) (strlen pre) = Done x.
Proof.
  intros Hx. unfold ntohs, htons. cbn [app]. rewrite byte_at. outs.
  replace (strlen pre + 1) with (strlen (pre ++ [Z.land (Z.shiftr x 8) 255])) by (rewrite strlen_app; done).
  replace (pre ++ Z.land (Z.shiftr x 8) 255 :: Z.land x 255 :: post)
    with ((pre ++ [Z.land (Z.shiftr x 8) 255]) ++ Z.land x 255 :: post) by (by rewrite <- app_assoc).
  rewrite byte_at. outs. by rewrite htons_bytes.
Qed.

Lemma name_loop_wire (buf post : list Z) (sz ns rdepth : Z) rec (ls : list (list Z)) :
  Forall label_ok ls ->
  forall fuel pre name, buf = pre ++ wire ls ++ 0 :: post ->
    strlen pre + strlen (wire ls) + 1 <= sz ->
    strlen name + strlen (dotted ls) < ns -> (length ls < fuel)%nat ->
    name_loop buf sz ns rdepth rec fuel (strlen pre) None name
    = Done (strlen pre + strlen (wire ls) + 1, None, removelast (name ++ dotted ls)).
Proof.
  induction 1 as [|l ls [Hl _] _ IH]; intros fuel pre0 name Eb Hs Hn Hf;
    (destruct fuel as [|fuel]; [lia|]); cbn [name_loop].
  - change (wire []) with (@nil Z) in *. change (dotted []) with (@nil Z) in *. rewrite strlen_nil in *.
    rewrite (proj2 (Z.ltb_lt (strlen pre0) sz)) by lia. outs. subst buf. cbn [app]. rewrite byte_at. outs. cbn [Z.ltb Z.compare Z.eqb].
    unfold name_end. rewrite (proj2 (Z.leb_le _ _)) by lia. outs. rewrite app_nil_r. by rewrite Z.add_0_r.
  - assert (Ew : wire (l :: ls) = strlen l :: l ++ wire ls) by done.
    assert (Ed : dotted (l :: ls) = (l ++ [46]) ++ dotted ls) by done.
    assert (Elw : strlen (wire (l :: ls)) = 1 + strlen l + strlen (wire ls)).
    { rewrite Ew. change (strlen l :: l ++ wire ls) with ([strlen l] ++ l ++ wire ls).
      rewrite !strlen_app. unfold strlen at 1. cbn. lia. }
    assert (Eld : strlen (dotted (l :: ls)) = 1 + strlen l + strlen (dotted ls)).
    { rewrite Ed, !strlen_app. unfold strlen at 2. cbn. lia. }
    pose proof (strlen_nonneg (dotted ls)) as Hd. pose proof (strlen_nonneg (wire ls)) as Hw. unfold RFC1035_MAXLABELSZ in *.
    rewrite (proj2 (Z.ltb_lt (strlen pre0) sz)) by lia. outs.
    rewrite Ew in Eb. rewrite Eb at 1. cbn [app]. rewrite byte_at. outs.
    rewrite (proj2 (Z.ltb_ge 191 _)), (proj2 (Z.ltb_ge 63 _)), (proj2 (Z.eqb_neq _ 0)) by lia.
    rewrite (proj2 (Z.ltb_ge _ (strlen l))) by lia. outs. rewrite (proj2 (Z.leb_gt _ _)) by lia. outs.
    replace (strlen pre0 + 1) with (strlen (pre0 ++ [strlen l])) by (rewrite strlen_app; done).
    assert (Eb2 : buf = (pre0 ++ [strlen l]) ++ l ++ (wire ls ++ 0 :: post))
      by (rewrite Eb; cbn [app]; by rewrite <- !app_assoc).
    rewrite Eb2 at 1. rewrite memcpy_at. outs.
    assert (Enm : strlen (name ++ l ++ [46]) = strlen name + strlen l + 1)
      by (rewrite !strlen_app; unfold strlen at 3; cbn; lia).
    rewrite (proj2 (Z.ltb_lt _ ns)) by lia.
    rewrite <- strlen_app. cbn [fmap option_fmap option_map].
    rewrite (IH fuel ((pre0 ++ [strlen l]) ++ l) (name ++ l ++ [46])).
    + f_equal. f_equal; [f_equal; rewrite Elw, !strlen_app; unfold strlen at 2; cbn; lia|].
      by rewrite Ed, <- !app_assoc.
    + rewrite Eb2. by rewrite <- !app_assoc.
    + rewrite !strlen_app. unfold strlen at 2. cbn. lia.
    + lia.
    + cbn in Hf. lia.
Qed.

Lemma unpack_name_wire (pre post : list Z) (sz : Z) (ls : list (list Z)) :
  Forall label_ok ls -> strlen (dotted ls) < RFC1035_MAXHOSTNAMESZ ->
  strlen pre + strlen (wire ls) + 1 <= sz ->
  unpack_name (pre ++ wire ls ++ 0 :: post) sz (strlen pre) None
  = Done (strlen pre + strlen (wire ls) + 1, None, joined ls).
Proof.
  intros Hls Hn Hs. unfold unpack_name, NAME_FUEL.
  change 66%nat with (S 65). generalize 65%nat. intros f. cbn [rfc1035NameUnpack].
  unfold RFC1035_MAXHOSTNAMESZ in *. outs. rewrite (proj2 (Z.ltb_lt 0 256)) by lia. outs.
  apply name_loop_wire with post; try done.
  unfold strlen in Hn. assert (length ls <= length (dotted ls))%nat; [|lia].
  unfold dotted. clear. induction ls as [|l ls IH]; [done|]. cbn [map concat length].
  rewrite !length_app. cbn. lia.
Qed.

Lemma query_unpack_wire (pre post : list Z) (sz type class : Z) (ls : list (list Z)) :
  Forall label_ok ls -> strlen (dotted ls) < RFC1035_MAXHOSTNAMESZ ->
  0 <= type < 65536 -> 0 <= class < 65536 ->
  strlen pre + strlen (wire ls) + 5 <= sz ->
  rfc1035QueryUnpack (pre ++ (wire ls ++ [0]) ++ htons type ++ htons class ++ post) sz (strlen pre)
  = Done (Query (joined ls) type class, strlen pre + strlen (wire ls) + 5).
Proof.
  intros Hls Hn Ht Hc Hs. unfold rfc1035QueryUnpack.
  rewrite <- (app_assoc (wire ls) [0]). cbn [app]. rewrite unpack_name_wire by (done || lia). outs.
  rewrite (proj2 (Z.ltb_ge sz _)) by lia. outs.
  assert (E1 : strlen pre + strlen (wire ls) + 1 = strlen (pre ++ wire ls ++ [0]))
    by (rewrite !strlen_app; unfold strlen at 5; cbn; lia).
  assert (E2 : strlen pre + strlen (wire ls) + 1 + 2 = strlen ((pre ++ wire ls ++ [0]) ++ htons type))
    by (rewrite E1, (strlen_app _ (htons type)); done).
  rewrite E2, E1.
  assert (Eb : pre ++ wire ls ++ 0 :: htons type ++ htons class ++ post
               = (pre ++ wire ls ++ [0]) ++ htons type ++ htons class ++ post)
    by (by rewrite <- !app_assoc).
  rewrite Eb, ntohs_at by done. outs. rewrite (app_assoc _ (htons type)), ntohs_at by done. outs.
  rewrite <- E1. f_equal. f_equal. lia.
Qed.

Lemma flags_query (qid : Z) : flags (query_header qid) = 256.
Proof. reflexivity. Qed.

Lemma ntohs_lookup (buf : list Z) (off : Z) (n : nat) (a b : Z) :
  off = Z.of_nat n -> buf !! n = Some a -> buf !! S n = Some b -> ntohs buf off = Done (256 * a + b).
Proof.
  intros -> Ha Hb. unfold ntohs, byte. rewrite Nat2Z.id, Ha. outs.
  replace (Z.to_nat (Z.of_nat n + 1)) with (S n) by lia. by rewrite Hb.
Qed.

Lemma ntohs_field (buf : list Z) (off : Z) (n : nat) (x : Z) :
  off = Z.of_nat n -> take 2 (drop n buf) = htons x -> 0 <= x < 65536 -> ntohs buf off = Done x.
Proof.
  intros -> Hb Hx. rewrite (ntohs_lookup _ _ n (Z.land (Z.shiftr x 8) 255) (Z.land x 255) eq_refl).
  - by rewrite htons_bytes.
  - replace n with (n + 0)%nat by lia. rewrite <- lookup_drop, <- (lookup_take_lt _ 2) by lia. by rewrite Hb.
  - replace (S n) with (n + 1)%nat by lia. rewrite <- lookup_drop, <- (lookup_take_lt _ 2) by lia. by rewrite Hb.
Qed.

Lemma header_unpack_query (qid sz : Z) (post : list Z) :
  0 <= qid < 65536 -> 12 <= sz ->
  rfc1035HeaderUnpack (htons qid ++ [1; 0; 0; 1; 0; 0; 0; 0; 0; 0] ++ post) sz
  = Done (query_header qid, 12).
Proof.
  intros Hq Hs. unfold rfc1035HeaderUnpack. rewrite (proj2 (Z.ltb_ge sz 12)) by lia. outs.
  rewrite (ntohs_lookup _ 0 0 (Z.land (Z.shiftr qid 8) 255) (Z.land qid 255)) by done.
  rewrite (ntohs_lookup _ 2 2 1 0), (ntohs_lookup _ 4 4 0 1), (ntohs_lookup _ 6 6 0 0),
    (ntohs_lookup _ 8 8 0 0), (ntohs_lookup _ 10 10 0 0) by done.
  outs. rewrite htons_bytes by done.
  unfold query_header. rewrite (wrapu_small 16 qid) by exact Hq. reflexivity.
Qed.

Lemma header_pack_query (qid sz : Z) :
  0 <= qid < 65536 -> 12 <= sz ->
  rfc1035HeaderPack sz (query_header qid) = Done (htons qid ++ [1; 0; 0; 1; 0; 0; 0; 0; 0; 0]).
Proof.
  intros Hq Hs. unfold rfc1035HeaderPack. rewrite (proj2 (Z.leb_le 12 sz)) by lia. outs.
  rewrite flags_query. unfold query_header. cbn [id]. by rewrite (wrapu_small 16 qid) by exact Hq.
Qed.

(** *** Comparing the question asked with the one echoed *)

Lemma joined_chars (ls : list (list Z)) : Forall label_ok ls -> Forall (fun c => 0 < c < 256) (joined ls).
Proof.
  induction 1 as [|l ls [_ Hl] _ IH]; [constructor|]. rewrite joined_cons.
  assert (Hl' : Forall (fun c => 0 < c < 256) l) by (eapply Forall_impl; [exact Hl | naive_solver]).
  destruct ls; [done|]. apply Forall_app. split; [done|]. constructor; [lia | done].
Qed.

Lemma trim_dots_app (s t : list Z) (n : nat) :
  (n <= length s)%nat -> trim_dots (s ++ t) n = trim_dots s n.
Proof.
  induction n as [|n IH]; intros H; [done|]. cbn [trim_dots].
  rewrite app_nth1 by lia. rewrite IH by lia. done.
Qed.

Lemma trim_dots_replicate (s : list Z) (k : nat) :
  trim_dots (s ++ replicate k 46) (length s + k) = trim_dots s (length s).
Proof.
  induction k as [|k IH].
  - rewrite Nat.add_0_r. by apply trim_dots_app.
  - rewrite Nat.add_succ_r. cbn [trim_dots].
    rewrite app_nth2 by lia. replace (length s + k - length s)%nat with k by lia.
    assert (En : nth k (replicate (S k) 46) 0 = 46)
      by (clear; induction k as [|k IHk]; [done | exact IHk]).
    rewrite En. cbn [Z.eqb Pos.eqb].
    replace (replicate (S k) 46) with (replicate k 46 ++ [46]) by (by rewrite <- replicate_S_end).
    rewrite app_assoc. rewrite trim_dots_app by (rewrite length_app, length_replicate; lia). exact IH.
Qed.

Lemma trim_dots_le (s : list Z) (n : nat) : (trim_dots s n <= n)%nat.
Proof. induction n as [|n IH]; [done|]. cbn. destruct (_ =? _); lia. Qed.

Lemma strncasecmp_prefix (n : nat) (a t : list Z) : (n <= length a)%nat -> strncasecmp n (a ++ t) a = 0.
Proof.
  revert a. induction n as [|n IH]; intros a Hn; [done|]. destruct a as [|c a]; [cbn in Hn; lia|].
  cbn [strncasecmp app nth drop]. rewrite Z.eqb_refl. destruct (_ =? 0); [done|].
  change (drop 0 (a ++ t)) with (a ++ t). change (drop 0 a) with a. apply IH. cbn in Hn. lia.
Qed.

Lemma query_compare_hostname (ls : list (list Z)) (k : nat) (type class : Z) :
  Forall label_ok ls -> strlen (hostname ls k) < RFC1035_MAXHOSTNAMESZ ->
  rfc1035QueryCompare (Query (xstrncpy (hostname ls k) RFC1035_MAXHOSTNAMESZ) type class)
    (Query (joined ls) type class) = 0.
Proof.
  intros Hls Hn. unfold rfc1035QueryCompare. cbn [qtype qclass q_name]. rewrite !Z.eqb_refl. cbn [negb].
  unfold xstrncpy. rewrite take_ge by (unfold strlen, RFC1035_MAXHOSTNAMESZ in *; lia).
  pose proof (joined_chars ls Hls) as Hj.
  rewrite (cstr_id (hostname ls k)), (cstr_id (joined ls)); [|done|].
  2:{ apply Forall_app. split; [done|]. apply Forall_replicate. lia. }
  unfold hostname. rewrite length_app, length_replicate.
  destruct (Nat.eqb_spec (length (joined ls) + k) (length (joined ls))) as [E|E]; cbv iota beta.
  - assert (k = 0%nat) as -> by lia. rewrite E, Nat.eqb_refl. cbn [negb]. by apply strncasecmp_prefix.
  - rewrite trim_dots_replicate, Nat.eqb_refl. cbn [negb].
    apply strncasecmp_prefix, trim_dots_le.
Qed.

(** *** Every header is read back *)

Definition header_ok (h : header) : Prop :=
  0 <= id h < 65536 /\ 0 <= qr h < 2 /\ 0 <= opcode h < 16 /\ 0 <= aa h < 2 /\ 0 <= tc h < 2 /\
  0 <= rd h < 2 /\ 0 <= ra h < 2 /\ 0 <= rcode h < 16 /\ 0 <= qdcount h < 65536 /\
  0 <= ancount h < 65536 /\ 0 <= nscount h < 65536 /\ 0 <= arcount h < 65536.

(** The flag word [f] holds these fields. *)
Definition flags_match (f q o a t d r c : Z) : bool :=
  (0 <=? f) && (f <? 65536) && (bits f 15 1 =? q) && (bits f 11 15 =? o) && (bits f 10 1 =? a)
  && (bits f 9 1 =? t) && (bits f 8 1 =? d) && (bits f 7 1 =? r) && (Z.land f 15 =? c).

Lemma forallb_range (f : Z -> bool) (n x : Z) :
  forallb f (seqZ 0 n) = true -> 0 <= x < n -> f x = true.
Proof.
  intros H Hx. rewrite forallb_forall in H. apply H, list_elem_of_In, elem_of_seqZ. lia.
Qed.

Lemma flags_fields (h : header) :
  flags (Header 0 (qr h) (opcode h) (aa h) (tc h) (rd h) (ra h) (rcode h) 0 0 0 0) = flags h.
Proof. unfold flags. by cbn [qr opcode aa tc rd ra rcode]. Qed.

Lemma flags_match_all :
  forallb (fun q => forallb (fun o => forallb (fun a => forallb (fun t => forallb (fun d =>
    forallb (fun r => forallb (fun c => flags_match (flags (Header 0 q o a t d r c 0 0 0 0)) q o a t d r c) (seqZ 0 16)) (seqZ 0 2))
    (seqZ 0 2)) (seqZ 0 2)) (seqZ 0 2)) (seqZ 0 16)) (seqZ 0 2) = true.
Proof. vm_compute. reflexivity. Qed.

Lemma flags_match_ok (h : header) :
  header_ok h -> flags_match (flags h) (qr h) (opcode h) (aa h) (tc h) (rd h) (ra h) (rcode h) = true.
Proof.
  rewrite <- flags_fields.
  intros (_ & Hq & Ho & Ha & Ht & Hd & Hr & Hc & _).
  pose proof flags_match_all as H.
  apply (forallb_range _ _ (qr h)) in H; [|exact Hq]. apply (forallb_range _ _ (opcode h)) in H; [|exact Ho].
  apply (forallb_range _ _ (aa h)) in H; [|exact Ha]. apply (forallb_range _ _ (tc h)) in H; [|exact Ht].
  apply (forallb_range _ _ (rd h)) in H; [|exact Hd]. apply (forallb_range _ _ (ra h)) in H; [|exact Hr].
  by apply (forallb_range _ _ (rcode h)) in H.
Qed.

Lemma header_unpack_pack (h : header) (sz sz' : Z) (post : list Z) :
  header_ok h -> 12 <= sz -> 12 <= sz' ->
  (buf ← rfc1035HeaderPack sz h; rfc1035HeaderUnpack (buf ++ post) sz') = Done (h, 12).
Proof.
  intros Hh Hs Hs'. pose proof (flags_match_ok h Hh) as Hf.
  unfold rfc1035HeaderPack. revert Hf. generalize (flags h) as f. intros f Hf.
  unfold flags_match in Hf. rewrite !andb_true_iff, !Z.eqb_eq, Z.leb_le, Z.ltb_lt in Hf.
  destruct Hf as ((((((((Hf0 & Hf1) & Hq) & Ho) & Ha) & Ht) & Hd) & Hr) & Hc).
  destruct Hh as (Hid & _ & _ & _ & _ & _ & _ & _ & Hqd & Han & Hns & Har).
  rewrite (proj2 (Z.leb_le 12 sz)) by lia. outs.
  unfold rfc1035HeaderUnpack. rewrite (proj2 (Z.ltb_ge sz' 12)) by lia. outs.
  rewrite (ntohs_field _ 0 0 (id h)), (ntohs_field _ 2 2 f), (ntohs_field _ 4 4 (qdcount h)),
    (ntohs_field _ 6 6 (ancount h)), (ntohs_field _ 8 8 (nscount h)), (ntohs_field _ 10 10 (arcount h))
    by (reflexivity || done).
  outs. rewrite Hq, Ho, Ha, Ht, Hd, Hr, Hc. by destruct h.
Qed.

(** *** The name of an address *)

Definition octets (i : Z) : list (list Z) :=
  map dec [Z.land i 255; Z.land (Z.shiftr i 8) 255; Z.land (Z.shiftr i 16) 255; Z.land (Z.shiftr i 24) 255].

Definition ptr_labels (i : Z) : list (list Z) := octets i ++ [bytes "in-addr"; bytes "arpa"].

Definition octet_test (n : Z) : bool :=
  (1 <=? strlen (dec n)) && (strlen (dec n) <=? 3) && forallb isdigit (dec n).

Lemma octet_label (i : Z) : label_ok (dec (Z.land i 255)) /\ strlen (dec (Z.land i 255)) <= 3.
Proof.
  assert (H : forallb octet_test (seqZ 0 256) = true) by (vm_compute; reflexivity).
  apply (forallb_range _ _ (Z.land i 255)) in H.
  2:{ change 255 with (2 ^ 8 - 1). rewrite land_ones by lia. apply Z.mod_pos_bound. lia. }
  unfold octet_test in H. apply andb_true_iff in H as [H Hd]. btoprop.
  split; [split; [unfold RFC1035_MAXLABELSZ; lia|] | done].
  rewrite forallb_forall in Hd. apply Forall_forall. intros c Hc%list_elem_of_In%Hd.
  unfold isdigit in Hc. btoprop. lia.
Qed.

Lemma ptr_name_labels (i : Z) :
  ptr_name i = hostname (ptr_labels i) 1 /\ Forall label_ok (ptr_labels i) /\
  strlen (hostname (ptr_labels i) 1) < 255.
Proof.
  destruct (octet_label i) as [H0 L0]. destruct (octet_label (Z.shiftr i 8)) as [H1 L1].
  destruct (octet_label (Z.shiftr i 16)) as [H2 L2]. destruct (octet_label (Z.shiftr i 24)) as [H3 L3].
  assert (Hls : Forall label_ok (ptr_labels i)).
  { unfold ptr_labels, octets. cbn [map app]. repeat (constructor; [assumption|]).
    repeat constructor; try (vm_compute; congruence); unfold RFC1035_MAXLABELSZ; try (vm_compute; lia). }
  assert (Eh : hostname (ptr_labels i) 1
    = dec (Z.land i 255) ++ [46] ++ dec (Z.land (Z.shiftr i 8) 255) ++ [46]
      ++ dec (Z.land (Z.shiftr i 16) 255) ++ [46] ++ dec (Z.land (Z.shiftr i 24) 255)
      ++ bytes ".in-addr.arpa.").
  { unfold hostname, ptr_labels, octets. cbn [map app]. rewrite !joined_cons.
    repeat (rewrite <- app_assoc; cbn [app]). reflexivity. }
  assert (El : strlen (hostname (ptr_labels i) 1) < 31).
  { rewrite Eh, !strlen_app. change (strlen [46]) with 1. change (strlen (bytes _)) with 14. lia. }
  split; [|split; [done | lia]]. unfold ptr_name, snprintf. rewrite <- Eh.
  apply take_ge. unfold strlen in El. cbn [pred]. lia.
Qed.

(** *** The bytes of a query *)

Definition query_bytes (qid : Z) (ls : list (list Z)) (type : Z) : list Z :=
  (htons qid ++ [1; 0; 0; 1; 0; 0; 0; 0; 0; 0])
  ++ (wire ls ++ [0]) ++ htons type ++ htons RFC1035_CLASS_IN.

Lemma strlen_query_bytes qid ls type : strlen (query_bytes qid ls type) = 17 + strlen (wire ls).
Proof. unfold query_bytes. rewrite !strlen_app. unfold strlen. cbn. lia. Qed.

Lemma build_query_ok (ls : list (list Z)) (k : nat) (type sz qid : Z) :
  Forall label_ok ls -> strlen (hostname ls k) < 255 ->
  0 <= type < 65536 -> 0 <= qid < 65536 -> 17 + strlen (wire ls) <= sz ->
  exists buf q, build_query (hostname ls k) type sz qid = Done (buf, q) /\ buf = query_bytes qid ls type /\
    q = Query (xstrncpy (hostname ls k) RFC1035_MAXHOSTNAMESZ) type RFC1035_CLASS_IN.
Proof.
  intros Hls Hn Ht Hq Hs. pose proof (strlen_nonneg (wire ls)) as Hw.
  do 2 eexists. split; [|done].
  unfold build_query. rewrite header_pack_query by lia. outs.
  set (hd := htons qid ++ [1; 0; 0; 1; 0; 0; 0; 0; 0; 0]). assert (Ehd : strlen hd = 12) by done.
  unfold rfc1035QuestionPack. rewrite name_pack_ok by (done || lia). outs.
  set (qs := (wire ls ++ [0]) ++ htons type ++ htons RFC1035_CLASS_IN).
  assert (Eqs : strlen qs = strlen (wire ls) + 5) by (unfold qs; rewrite !strlen_app; unfold strlen; cbn; lia).
  rewrite (proj2 (Z.leb_le (strlen qs) _)) by lia. outs.
  by rewrite (proj2 (Z.leb_le (strlen (hd ++ qs)) sz)) by (rewrite strlen_app; lia).
Qed.

Lemma query_unpack_bytes (ls : list (list Z)) (k : nat) (type qid : Z) (post : list Z) :
  Forall label_ok ls -> strlen (hostname ls k) < 255 -> 0 <= type < 65536 -> 0 <= qid < 65536 ->
  rfc1035MessageUnpack (query_bytes qid ls type ++ post) (strlen (query_bytes qid ls type))
  = Done (Unpacked 0 (Some (Message (query_header qid) [Query (joined ls) type RFC1035_CLASS_IN] [])) 0 None).
Proof.
  intros Hls Hn Ht Hq. pose proof (strlen_nonneg (wire ls)) as Hw.
  assert (Hj : strlen (dotted ls) < RFC1035_MAXHOSTNAMESZ).
  { apply dotted_len in Hn. unfold RFC1035_MAXHOSTNAMESZ. lia. }
  unfold rfc1035MessageUnpack. rewrite strlen_query_bytes. unfold query_bytes. rewrite <- !app_assoc.
  rewrite header_unpack_query by (done || lia).
  cbn [or_unpack_error]. outs. cbn [qdcount query_header Z.eqb Pos.eqb negb].
  pose proof (query_unpack_wire (htons qid ++ [1; 0; 0; 1; 0; 0; 0; 0; 0; 0]) post (17 + strlen (wire ls))
                type RFC1035_CLASS_IN ls Hls Hj Ht ltac:(done)) as E.
  rewrite <- !app_assoc in E. change (strlen (htons qid ++ _)) with 12 in E. rewrite E by lia. done.
Qed.

(** *** Witnesses of unpacking *)

Lemma is_bytes_test (l : list Z) : forallb (fun c => (0 <=? c) && (c <? 256)) l = true -> Forall is_byte l.
Proof.
  rewrite forallb_forall. intros H. apply Forall_forall. intros c Hc%list_elem_of_In%H.
  unfold is_byte. btoprop. lia.
Qed.

Definition header_only : list Z := htons 4660 ++ [129; 128; 0; 1; 0; 0; 0; 0; 0; 0].

(** The reply to the PTR query of an address with the [rdata] given. *)
Definition ptr_reply (rdlen : Z) (rdata : list Z) : list Z :=
  htons 4660 ++ [129; 128; 0; 1; 0; 1; 0; 0; 0; 0]
  ++ (1 :: bytes "1" ++ 4 :: bytes "arpa" ++ [0]) ++ [0; 12; 0; 1]
  ++ [192; 12; 0; 12; 0; 1; 0; 0; 0; 60] ++ htons rdlen ++ rdata.

(** A packet that is only a header fails the assertion of the name unpacker, and
    so does a PTR record without data at the end of a packet. *)
Lemma header_only_aborts : rfc1035MessageUnpack (header_only ++ [0]) 12 = Assert.
Proof. reflexivity. Qed.

Lemma empty_ptr_aborts : rfc1035MessageUnpack (ptr_reply 0 [] ++ [0]) (strlen (ptr_reply 0 [])) = Assert.
Proof. vm_compute. reflexivity. Qed.

(** The same record with the name [host.arpa], whose last label is a pointer:
    refused when the pointer ends the packet, accepted with a byte after it. *)
Definition last_pointer : list Z := ptr_reply 7 (4 :: bytes "host" ++ [192; 14]).

Lemma last_pointer_refused :
  rfc1035MessageUnpack (last_pointer ++ [0]) (strlen last_pointer)
    = Done (rfc1035SetErrno rfc1035_unpack_error None) /\
  (exists u m rr, rfc1035MessageUnpack (last_pointer ++ [0; 0]) (strlen last_pointer + 1) = Done u /\
     msg u = Some m /\ answer m = [rr] /\ rdata rr = bytes "host.arpa").
Proof. split; [vm_compute; reflexivity|]. do 3 eexists. split; [vm_compute; reflexivity|]. by repeat split. Qed.

(** ** The component's properties *)

(** C33: whatever bytes a packet holds, unpacking it ends, reads no memory further
    than one byte after the packet, and does not depend on what that memory
    holds; it gives a count of records, every name with room for its NUL and
    the data of each record as long as its length, or sets the error variables
    to the error number it returns.  It fails an assertion only on a packet
    that is just a header or one that ends in a PTR record without data. *)
Theorem message_unpack_safe (buf : list Z) (sz : Z) :
  Forall is_byte buf -> 0 <= sz < strlen buf ->
  match rfc1035MessageUnpack buf sz with
  | Done u => unpacked_ok u
  | Assert => sz = 12 \/ ends_in_empty_ptr buf sz
  | _ => False
  end /\
  (forall buf', Forall is_byte buf' -> sz < strlen buf' -> take (Z.to_nat sz) buf' = take (Z.to_nat sz) buf ->
     rfc1035MessageUnpack buf' sz = rfc1035MessageUnpack buf sz).
Proof.
  intros Hb Hsz. split; [by apply message_unpack_done|].
  intros buf' Hb' Hsz' E. symmetry. by apply message_unpack_agree.
Qed.

Lemma message_unpack_safe_witness :
  0 <= strlen last_pointer < strlen (last_pointer ++ [0]) /\
  rfc1035MessageUnpack (last_pointer ++ [7]) (strlen last_pointer)
  = rfc1035MessageUnpack (last_pointer ++ [0]) (strlen last_pointer).
Proof.
  assert (H : forall c, 0 <= c < 256 -> Forall is_byte (last_pointer ++ [c]))
    by (intros c Hc; apply Forall_app; split; [by apply is_bytes_test | by constructor]).
  assert (Hs : 0 <= strlen last_pointer < strlen (last_pointer ++ [0])) by done.
  split; [exact Hs|].
  exact (proj2 (message_unpack_safe (last_pointer ++ [0]) (strlen last_pointer) (H 0 ltac:(done)) Hs)
           (last_pointer ++ [7]) (H 7 ltac:(done)) ltac:(done) eq_refl).
Defined.

(** The question of a query is read back.  For a name made of labels of 1 to
    63 bytes, with any number of dots at its end, and a buffer with room, the
    query is built, and unpacking its bytes (whatever memory follows them)
    gives no error, the identifier of the query, and a question with the same
    labels, type and class, which [rfc1035QueryCompare] finds equal to the one
    that was asked.  Every header is read back too, and the name of an address
    is made of such labels. *)
Lemma query_roundtrip (ls : list (list Z)) (k : nat) (type sz qid : Z) (post : list Z) :
  Forall label_ok ls -> strlen (hostname ls k) < 255 ->
  0 <= type < 65536 -> 0 <= qid < 65536 -> 17 + strlen (wire ls) <= sz ->
  (exists buf q, build_query (hostname ls k) type sz qid = Done (buf, q) /\
     strlen buf = 17 + strlen (wire ls) /\
     rfc1035MessageUnpack (buf ++ post) (strlen buf)
     = Done (Unpacked 0 (Some (Message (query_header qid)
                                 [Query (joined ls) type RFC1035_CLASS_IN] [])) 0 None) /\
     rfc1035QueryCompare q (Query (joined ls) type RFC1035_CLASS_IN) = 0) /\
  (forall h, header_ok h ->
     (buf ← rfc1035HeaderPack sz h; rfc1035HeaderUnpack (buf ++ post) sz) = Done (h, 12)) /\
  (forall addr, ptr_name addr = hostname (ptr_labels addr) 1 /\ Forall label_ok (ptr_labels addr) /\
     strlen (hostname (ptr_labels addr) 1) < 255).
Proof.
  intros Hls Hn Ht Hq Hs.
  split; [|split; [intros h Hh; pose proof (strlen_nonneg (wire ls)); apply header_unpack_pack; [done | lia..]
                  | exact ptr_name_labels]].
  destruct (build_query_ok ls k type sz qid Hls Hn Ht Hq Hs) as (buf & q & Hb & -> & ->).
  do 2 eexists. split; [exact Hb|]. split; [apply strlen_query_bytes|]. split; [by apply query_unpack_bytes with k|].
  apply query_compare_hostname; [done|]. unfold RFC1035_MAXHOSTNAMESZ. lia.
Qed.

Lemma query_roundtrip_witness :
  exists buf q, rfc1035BuildAQuery (bytes "www.my-box.net.") 512 4660 = Done (buf, q) /\ strlen buf = 32.
Proof.
  set (ls := [bytes "www"; bytes "my-box"; bytes "net"]).
  assert (Hls : Forall label_ok ls).
  { repeat constructor; try (vm_compute; congruence); unfold RFC1035_MAXLABELSZ; try (vm_compute; lia). }
  destruct (query_roundtrip ls 1 RFC1035_TYPE_A 512 4660 [] Hls ltac:(done) ltac:(done) ltac:(done) ltac:(vm_compute; congruence))
    as [(buf & q & H & Hl & _) _].
  exists buf, q. split; [exact H | exact Hl].
Defined.
