(* ===== verification/Dns.v ===== *)
(** * The resolver

    v3.0/src/squid-mybox/src/dns_internal.c: lookups become queries that are sent
    to the name servers in turn, again and again until a reply with the same
    identifier and question comes or the time is up; lookups of a name that is
    being asked for wait for the same answer.

    A query is an [idns_query] in a store of handles, as it is reached from the
    queue [lru_list] and from the table of names; the static variables are the
    record [resolver].  Times are microseconds.  Sending, random numbers and the
    validity of callback data are answers of the environment; the callbacks are
    events, and lookups they start come after them. *)

From Stdlib Require Import Sorting.Sorted.
From S2P Require Import Prelude CString Rfc1035.

Definition MAX_RCODE : Z := 6.
Definition MAX_ATTEMPT : Z := 3.
Definition INCOMING_DNS_MAX : nat := 15.

(** A callback with its data. *)
Record client := Client { callback : Z; callback_data : Z }.

Record idns_query := IdnsQuery {
  question : rfc1035_query; buf : list Z; qid : Z; nsends : Z; start_t : Z; sent_t : Z;
  waiting : list client;  (** [callback], then those in [queue] *)
  attempt : Z; error : option (list Z); qrcode : Z }.

(** A name server's address and port, with its counters. *)
Record ns := Ns { sin_addr : Z; sin_port : Z; nqueries : Z; nreplies : Z }.

Record resolver := Resolver {
  current_time : Z;
  DnsSocket : Z;
  store : gmap nat idns_query;
  next_handle : nat;
  lru_list : list nat;          (** from [head] to [tail] *)
  idns_lookup_hash : list nat;  (** newest first *)
  nameservers : list ns;
  event_queued : bool;
  RcodeMatrix : gmap (Z * Z) Z }.

Inductive event :=
| Sendto (server : ns) (data : list Z)
| Random
| CbdataValid (data : Z)
| CbdataLock (c : client)
| CbdataUnlock (c : client)
| Call (c : client) (answers : list rfc1035_rr) (n : Z) (error : option (list Z))
| EventAdd (micros : Z)
| SelectRead
| Fatal.

(** ** State *)

Definition set_clock (t : Z) (s : resolver) : resolver :=
  Resolver t (DnsSocket s) (store s) (next_handle s) (lru_list s) (idns_lookup_hash s)
    (nameservers s) (event_queued s) (RcodeMatrix s).
Definition set_store (m : gmap nat idns_query) (s : resolver) : resolver :=
  Resolver (current_time s) (DnsSocket s) m (next_handle s) (lru_list s) (idns_lookup_hash s)
    (nameservers s) (event_queued s) (RcodeMatrix s).
Definition set_lru (l : list nat) (s : resolver) : resolver :=
  Resolver (current_time s) (DnsSocket s) (store s) (next_handle s) l (idns_lookup_hash s)
    (nameservers s) (event_queued s) (RcodeMatrix s).
Definition set_hash (l : list nat) (s : resolver) : resolver :=
  Resolver (current_time s) (DnsSocket s) (store s) (next_handle s) (lru_list s) l
    (nameservers s) (event_queued s) (RcodeMatrix s).
Definition set_servers (l : list ns) (s : resolver) : resolver :=
  Resolver (current_time s) (DnsSocket s) (store s) (next_handle s) (lru_list s) (idns_lookup_hash s)
    l (event_queued s) (RcodeMatrix s).
Definition set_queued (b : bool) (s : resolver) : resolver :=
  Resolver (current_time s) (DnsSocket s) (store s) (next_handle s) (lru_list s) (idns_lookup_hash s)
    (nameservers s) b (RcodeMatrix s).
Definition set_matrix (m : gmap (Z * Z) Z) (s : resolver) : resolver :=
  Resolver (current_time s) (DnsSocket s) (store s) (next_handle s) (lru_list s) (idns_lookup_hash s)
    (nameservers s) (event_queued s) m.
(** [memAllocate]: a new handle. *)
Definition alloc (q : idns_query) (s : resolver) : resolver :=
  Resolver (current_time s) (DnsSocket s) (<[next_handle s := q]> (store s)) (S (next_handle s))
    (lru_list s) (idns_lookup_hash s) (nameservers s) (event_queued s) (RcodeMatrix s).

Definition set_query (h : nat) (q : idns_query) (s : resolver) : resolver :=
  set_store (<[h := q]> (store s)) s.
Definition dlinkAdd (h : nat) (s : resolver) : resolver := set_lru (h :: lru_list s) s.
Definition dlinkDelete (h : nat) (s : resolver) : resolver :=
  set_lru (filter (fun x => x <> h) (lru_list s)) s.
Definition hash_remove_link (h : nat) (s : resolver) : resolver :=
  set_hash (filter (fun x => x <> h) (idns_lookup_hash s)) s.
(** [memFree] *)
Definition mem_free (h : nat) (s : resolver) : resolver := set_store (delete h (store s)) s.

Definition set_sent (q : idns_query) (n t : Z) : idns_query :=
  IdnsQuery (question q) (buf q) (qid q) n (start_t q) t (waiting q) (attempt q) (error q) (qrcode q).
Definition set_waiting (q : idns_query) (w : list client) : idns_query :=
  IdnsQuery (question q) (buf q) (qid q) (nsends q) (start_t q) (sent_t q) w (attempt q) (error q) (qrcode q).
Definition set_failed (q : idns_query) (a : Z) (e : option (list Z)) (r : Z) : idns_query :=
  IdnsQuery (question q) (buf q) (qid q) (nsends q) (start_t q) (sent_t q) (waiting q) a e r.
(** A query asked again, with a new identifier. *)
Definition set_retry (q : idns_query) (id t : Z) : idns_query :=
  IdnsQuery (question q) (rfc1035SetQueryID (buf q) id) id (nsends q) t (sent_t q) (waiting q)
    (attempt q) (error q) (qrcode q).

(** ** Operations *)

Section Ops.
(** What the environment answers to [Sendto], [Random] and [CbdataValid], from the
    events so far, and the configuration: [Config.Timeout.idns_retransmit] and
    [idns_query] in seconds, [Config.onoff.ignore_unknown_nameservers]. *)
Context (env : list event -> Z) (idns_retransmit idns_query_timeout : Z) (ignore_unknown : bool).

Abbreviation M := (prog resolver event).

Definition idnsTickleQueue : M unit :=
  s ← get;
  if event_queued s then mret ()
  else match lru_list s with
       | [] => mret ()
       | _ => emit (EventAdd 1000000);; modify (set_queued true)
       end.

Definition server_at (s : resolver) (i : Z) : ns := nth (Z.to_nat i) (nameservers s) (Ns 0 0 0 0).

(** [try_again]: the datagram is sent to the next server until one takes it or
    all have been tried. *)
Fixpoint try_send (fuel : nat) (h : nat) : M Z :=
  match fuel with
  | O => mret 0
  | S fuel =>
      s ← get;
      match store s !! h with
      | None => emit Fatal;; mret 0
      | Some q =>
          let nns := Z.of_nat (length (nameservers s)) in
          let i := nsends q mod nns in
          x ← ask env (Sendto (server_at s i) (buf q));
          modify (set_query h (set_sent q (nsends q + 1) (current_time s)));;
          if x <? 0 then
            if (nsends q + 1) mod nns =? 0 then mret i else try_send fuel h
          else emit SelectRead;; mret i
      end
  end.

Definition count_query (i : Z) (l : list ns) : list ns :=
  alter (fun n => Ns (sin_addr n) (sin_port n) (nqueries n + 1) (nreplies n)) (Z.to_nat i) l.

Definition idnsSendQuery (h : nat) : M unit :=
  s ← get;
  if DnsSocket s <? 0 then mret ()
  else if (length (nameservers s) =? 0)%nat then emit Fatal
  else
    i ← try_send (length (nameservers s)) h;
    modify (fun s => set_servers (count_query i (nameservers s)) s);;
    modify (dlinkAdd h);;
    idnsTickleQueue.

Fixpoint known_from (l : list ns) (addr port : Z) (i : Z) : Z :=
  match l with
  | [] => -1
  | n :: l => if (sin_addr n =? addr) && (sin_port n =? port) then i else known_from l addr port (i + 1)
  end.

Definition idnsFromKnownNameserver (s : resolver) (addr port : Z) : Z :=
  known_from (nameservers s) addr port 0.

Definition has_id (s : resolver) (id : Z) (h : nat) : bool :=
  match store s !! h with Some q => qid q =? id | None => false end.

(** From [lru_list.tail]. *)
Definition idnsFindQuery (s : resolver) (id : Z) : option nat :=
  List.find (has_id s id) (rev (lru_list s)).

(** The loop that looks for an identifier that is not in use. *)
Fixpoint next_id (fuel : nat) (used : Z -> bool) (first_id id : Z) : Z :=
  match fuel with
  | O => id
  | S fuel =>
      if used id then
        let id := u16 (id + 1) in
        if id =? first_id then id else next_id fuel used first_id id
      else id
  end.

Definition idnsQueryID : M Z :=
  s ← get;
  r ← ask env Random;
  let id := Z.land r 0xFFFF in
  mret (next_id (Z.to_nat 65536) (fun i => bool_decide (is_Some (idnsFindQuery s i))) id id).

Fixpoint call_clients (cs : list client) (answers : list rfc1035_rr) (n : Z)
    (error : option (list Z)) : M unit :=
  match cs with
  | [] => mret ()
  | c :: cs =>
      valid ← ask env (CbdataValid (callback_data c));
      emit (CbdataUnlock c);;
      (if valid =? 0 then mret () else emit (Call c answers n error));;
      call_clients cs answers n error
  end.

(** [idnsCallback] and the [memFree] that follows it. *)
Definition idnsCallback (h : nat) (answers : list rfc1035_rr) (n : Z) (error : option (list Z)) : M unit :=
  s ← get;
  match store s !! h with
  | None => emit Fatal
  | Some q =>
      call_clients (waiting q) answers n error;;
      modify (hash_remove_link h);;
      modify (mem_free h)
  end.

Definition idnsRcodeCount (rcode attempt : Z) (s : resolver) : resolver :=
  let rcode := if 0 <? rcode then 0 else - rcode in
  if (rcode <? MAX_RCODE) && (attempt <? MAX_ATTEMPT)
  then set_matrix (<[(rcode, attempt) := default 0 (RcodeMatrix s !! (rcode, attempt)) + 1]> (RcodeMatrix s)) s
  else s.

(** A reply of the query [h]. *)
Definition grok_answer (h : nat) (q : idns_query) (u : unpacked) (answers : list rfc1035_rr) : M unit :=
  let n := ret u in
  modify (dlinkDelete h);;
  modify (idnsRcodeCount n (attempt q));;
  let q := set_failed q (attempt q) None (qrcode q) in
  if n <? 0 then
    let e := rfc1035_error_message u in
    let retry := - n =? 2 in
    let a := if retry then attempt q + 1 else attempt q in
    modify (set_query h (set_failed q a e (- n)));;
    if retry && (a <? MAX_ATTEMPT) then
      id ← idnsQueryID;
      s ← get;
      modify (set_query h (set_retry (set_failed q a e (- n)) id (current_time s)));;
      idnsSendQuery h
    else idnsCallback h answers n e
  else
    modify (set_query h q);;
    idnsCallback h answers n None.

Definition idnsGrokReply (rbuf : list Z) (sz : Z) : M unit :=
  match rfc1035MessageUnpack rbuf sz with
  | Done u =>
      match msg u with
      | None => mret ()
      | Some m =>
          s ← get;
          match idnsFindQuery s (id (hdr m)) with
          | None => mret ()
          | Some h =>
              match store s !! h, query m with
              | Some q, mq :: _ =>
                  if negb (rfc1035QueryCompare (question q) mq =? 0) then mret ()
                  else grok_answer h q u (answer m)
              | _, _ => emit Fatal
              end
          end
      end
  | _ => emit Fatal
  end.

(** A datagram received: its sender, and the receive buffer of which it fills
    the first [dsize] bytes. *)
Record datagram := Datagram { from_addr : Z; from_port : Z; rbuf : list Z; dsize : Z }.

Definition count_reply (i : Z) (l : list ns) : list ns :=
  alter (fun n => Ns (sin_addr n) (sin_port n) (nqueries n) (nreplies n + 1)) (Z.to_nat i) l.

(** The loop of [idnsRead] on the datagrams that are waiting. *)
Fixpoint read_loop (max : nat) (pkts : list datagram) : M unit :=
  match max, pkts with
  | S max, p :: pkts =>
      if dsize p =? 0 then mret ()
      else
        s ← get;
        let i := idnsFromKnownNameserver s (from_addr p) (from_port p) in
        (if 0 <=? i then
           modify (fun s => set_servers (count_reply i (nameservers s)) s);;
           idnsGrokReply (rbuf p) (dsize p)
         else if ignore_unknown then mret ()
         else idnsGrokReply (rbuf p) (dsize p));;
        read_loop max pkts
  | _, _ => mret ()
  end.

Definition idnsRead (pkts : list datagram) : M unit :=
  read_loop INCOMING_DNS_MAX pkts;;
  s ← get;
  match lru_list s with [] => mret () | _ => emit SelectRead end.

Definition expired (since now seconds : Z) : bool := negb (now - since <? seconds * 1000000).

(** The next entry to look at: [n->prev]. *)
Fixpoint prev_of (h : nat) (l : list nat) (p : option nat) : option nat :=
  match l with
  | [] => None
  | x :: l => if decide (x = h) then p else prev_of h l (Some x)
  end.

Definition interval (s : resolver) (q : idns_query) : Z :=
  Z.shiftl (idns_retransmit * 1) (Z.quot (nsends q - 1) (Z.of_nat (length (nameservers s)))).

Fixpoint check_loop (fuel : nat) (n : option nat) : M unit :=
  match fuel, n with
  | S fuel, Some h =>
      s ← get;
      match nameservers s, store s !! h with
      | [], _ => mret ()
      | _, None => emit Fatal
      | _, Some q =>
          if negb (expired (sent_t q) (current_time s) (interval s q)) then mret ()
          else
            let p := prev_of h (lru_list s) None in
            modify (dlinkDelete h);;
            (if negb (expired (start_t q) (current_time s) idns_query_timeout) then idnsSendQuery h
             else if negb (qrcode q =? 0) then idnsCallback h [] (- qrcode q) (error q)
             else idnsCallback h [] (-16) (Some (bytes "Timeout")));;
            check_loop fuel p
      end
  | _, _ => mret ()
  end.

(** Every entry is looked at once, and a query sent again once more. *)
Definition idnsCheckQueue : M unit :=
  modify (set_queued false);;
  s ← get;
  check_loop (2 * length (lru_list s)) (last (lru_list s));;
  idnsTickleQueue.

(** ** Lookups *)

Definition query_key (s : resolver) (h : nat) : list Z :=
  match store s !! h with Some q => cstr (q_name (question q)) | None => [] end.

Definition hash_lookup (s : resolver) (key : list Z) : option nat :=
  List.find (fun h => bool_decide (query_key s h = key)) (idns_lookup_hash s).

Definition idnsCachedLookup (key : list Z) (c : client) : M bool :=
  s ← get;
  match hash_lookup s key with
  | None => mret false
  | Some h =>
      match store s !! h with
      | Some q =>
          emit (CbdataLock c);;
          modify (set_query h (set_waiting q (match waiting q with
                                              | first :: queue => first :: c :: queue
                                              | [] => [c]
                                              end)));;
          mret true
      | None => mret false
      end
  end.

Definition idnsCacheQuery (h : nat) : M unit :=
  modify (fun s => set_hash (h :: idns_lookup_hash s) s).

(** The common text of the two lookups: [build] packs the query in the 512 bytes of
    [q->buf]. *)
Definition idns_lookup (key : list Z) (build : Z -> outcome (list Z * rfc1035_query)) (c : client) : M unit :=
  found ← idnsCachedLookup key c;
  if (found : bool) then mret ()
  else
    id ← idnsQueryID;
    match build id with
    | Done (b, qn) =>
        emit (CbdataLock c);;
        s ← get;
        let h := next_handle s in
        modify (alloc (IdnsQuery qn b id 0 (current_time s) 0 [c] 0 None 0));;
        idnsCacheQuery h;;
        idnsSendQuery h
    | _ => emit Fatal
    end.

Definition idnsALookup (name : list Z) (c : client) : M unit :=
  idns_lookup name (rfc1035BuildAQuery name 512) c.

(** [inet_ntoa] *)
Definition inet_ntoa (i : Z) : list Z :=
  dec (Z.land (Z.shiftr i 24) 255) ++ [46] ++ dec (Z.land (Z.shiftr i 16) 255) ++ [46]
  ++ dec (Z.land (Z.shiftr i 8) 255) ++ [46] ++ dec (Z.land i 255).

Definition idnsPTRLookup (addr : Z) (c : client) : M unit :=
  idns_lookup (inet_ntoa addr) (rfc1035BuildPTRQuery addr 512) c.

Definition idnsShutdown : M unit :=
  s ← get;
  if DnsSocket s <? 0 then mret ()
  else modify (fun s => Resolver (current_time s) (-1) (store s) (next_handle s) (lru_list s)
                          (idns_lookup_hash s) [] (event_queued s) (RcodeMatrix s)).
End Ops.

(** ** Name servers *)

(** [sscanf(buf, "%d.%d.%d.%d%c", ...) == 4] with the four numbers. *)
Definition scan_dot (r : list Z) : option (list Z) :=
  match r with 46 :: r => Some r | _ => None end.

Definition safe_inet_addr (s : list Z) : option Z :=
  '(a1, r) ← scan_int s; r ← scan_dot r;
  '(a2, r) ← scan_int r; r ← scan_dot r;
  '(a3, r) ← scan_int r; r ← scan_dot r;
  '(a4, r) ← scan_int r;
  match r with
  | _ :: _ => None
  | [] =>
      if (a1 <? 0) || (255 <? a1) then None
      else if (a2 <? 0) || (255 <? a2) then None
      else if (a3 <? 0) || (255 <? a3) then None
      else if (a4 <? 0) || (255 <? a4) then None
      else Some (Z.shiftl a1 24 + Z.shiftl a2 16 + Z.shiftl a3 8 + a4)
  end.

Definition DOMAIN_PORT : Z := 53.

Definition idnsAddNameserver (l : list ns) (s : list Z) : list ns :=
  match safe_inet_addr s with
  | None => l
  | Some a =>
      let a := if a =? 0 then default 0 (safe_inet_addr (bytes "127.0.0.1")) else a in
      l ++ [Ns a DOMAIN_PORT 0 0]
  end.

Definition idnsParseNameservers (dns_nameservers : list (list Z)) (l : list ns) : list ns :=
  fold_left idnsAddNameserver dns_nameservers l.

Definition w_space : list Z := [32; 9; 10; 13].

Definition resolv_line (l : list ns) (line : list Z) : list ns :=
  match strtok (cstr line) w_space with
  | None => l
  | Some (t, rest) =>
      if negb (strcasecmp_eq t (bytes "nameserver")) then l
      else match strtok rest w_space with
           | None => l
           | Some (t, _) => idnsAddNameserver l t
           end
  end.

(** [file] is what [/etc/resolv.conf] holds, [None] when it cannot be opened. *)
Definition idnsParseResolvConf (file : option (list Z)) (l : list ns) : list ns :=
  match file with
  | None => l
  | Some text => fold_left resolv_line (fgets_lines 512 text) l
  end.

(** The state after [idnsInit]: [fd] is the socket opened, if there was none. *)
Definition idnsInit (fd : Z) (dns_nameservers : list (list Z)) (file : option (list Z))
    (s : resolver) : option resolver :=
  let sock := if DnsSocket s <? 0 then fd else DnsSocket s in
  if sock <? 0 then None
  else if negb (length (nameservers s) =? 0)%nat then None
  else
    let l := idnsParseNameservers dns_nameservers [] in
    let l := if (length l =? 0)%nat then idnsParseResolvConf file l else l in
    let l := if (length l =? 0)%nat then idnsAddNameserver l (bytes "127.0.0.1") else l in
    Some (Resolver (current_time s) sock (store s) (next_handle s) (lru_list s)
            (idns_lookup_hash s) l (event_queued s) (RcodeMatrix s)).

Example localhost : safe_inet_addr (bytes "127.0.0.1") = Some 2130706433.
Proof. reflexivity. Qed.

Example resolv_conf :
  idnsParseResolvConf (Some (bytes "search my-box.net
nameserver 10.0.0.1
nameserver x
NameServer 0.0.0.0
")) [] = [Ns 167772161 53 0 0; Ns 2130706433 53 0 0].
Proof. vm_compute. reflexivity. Qed.

(** ** Choosing an identifier *)

Lemma u16_succ (x : Z) : 0 <= x < 65536 -> 0 <= u16 (x + 1) < 65536.
Proof. intros H. apply (wrapu_range 16). lia. Qed.

(** The loop visits [first_id + k], modulo 65536, until one is free. *)
Lemma next_id_free (used : Z -> bool) (first_id : Z) :
  0 <= first_id < 65536 ->
  forall fuel k, 0 <= k -> k + Z.of_nat fuel = 65536 ->
    (forall j, 0 <= j < k -> used (u16 (first_id + j)) = true) ->
    let r := next_id fuel used first_id (u16 (first_id + k)) in
    0 <= r < 65536 /\ (used r = false \/ forall i, 0 <= i < 65536 -> used i = true).
Proof.
  intros Hf. induction fuel as [|fuel IH]; intros k Hk Hs Hu; cbn [next_id].
  - split; [apply (wrapu_range 16); lia|]. right. intros i Hi.
    rewrite <- (Hu ((i - first_id) mod 65536)) by (pose proof (Z.mod_pos_bound (i - first_id) 65536); lia).
    f_equal. unfold wrapu. change (2 ^ 16) with 65536. dlia.
  - destruct (used (u16 (first_id + k))) eqn:E; [|split; [apply (wrapu_range 16); lia | by left]].
    assert (Es : u16 (u16 (first_id + k) + 1) = u16 (first_id + (k + 1))).
    { unfold wrapu. change (2 ^ 16) with 65536. dlia. }
    assert (Hu' : forall j, 0 <= j < k + 1 -> used (u16 (first_id + j)) = true).
    { intros j Hj. destruct (Z.eq_dec j k) as [->|]; [exact E | apply Hu; lia]. }
    rewrite Es. destruct (Z.eqb_spec (u16 (first_id + (k + 1))) first_id) as [Eq|Ne].
    + split; [rewrite Eq; lia|]. right. intros i Hi.
      assert (k + 1 = 65536).
      { revert Eq. unfold wrapu. change (2 ^ 16) with 65536. dlia. }
      rewrite <- (Hu' ((i - first_id) mod 65536)) by (pose proof (Z.mod_pos_bound (i - first_id) 65536); lia).
      f_equal. unfold wrapu. change (2 ^ 16) with 65536. dlia.
    + apply IH; [lia | lia | exact Hu'].
Qed.

Lemma list_ids_full (l : list Z) : (forall i, 0 <= i < 65536 -> i ∈ l) -> 65536 <= Z.of_nat (length l).
Proof.
  intros H. assert (Hs : (length (seqZ 0 65536) <= length l)%nat).
  { apply NoDup_incl_length; [apply NoDup_ListNoDup, NoDup_seqZ|].
    intros i Hi%list_elem_of_In. apply list_elem_of_In, H. apply elem_of_seqZ in Hi. lia. }
  rewrite length_seqZ in Hs. lia.
Qed.

Lemma length_omap_le {A B} (f : A -> option B) (l : list A) : (length (omap f l) <= length l)%nat.
Proof. induction l as [|x l IH]; [done|]. cbn. destruct (f x); cbn; lia. Qed.

Lemma omap_ext_in {A B} (f g : A -> option B) (l : list A) :
  (forall x, x ∈ l -> f x = g x) -> omap f l = omap g l.
Proof.
  induction l as [|x l IH]; intros H; [done|]. cbn. rewrite (H x) by left.
  by rewrite IH by (intros y Hy; apply H; by right).
Qed.

Definition ids (s : resolver) : list Z :=
  omap (fun h => qid <$> store s !! h) (lru_list s).

Lemma find_query_None (s : resolver) (i : Z) : idnsFindQuery s i = None <-> i ∉ ids s.
Proof.
  unfold idnsFindQuery, ids. split.
  - intros Hf Hi. apply list_elem_of_omap in Hi as (h & Hh & Eh).
    apply fmap_Some in Eh as (q & Eq & ->).
    assert (Hr : In h (rev (lru_list s))) by (apply in_rev; rewrite rev_involutive; by apply list_elem_of_In).
    pose proof (find_none _ _ Hf h Hr) as Hn. unfold has_id in Hn. rewrite Eq in Hn. btoprop. done.
  - intros Hi. destruct (List.find _ _) as [h|] eqn:E; [|done]. destruct Hi.
    apply find_some in E as [Hh Hid]. apply list_elem_of_omap. exists h.
    split; [apply list_elem_of_In, in_rev; done|]. unfold has_id in Hid.
    destruct (store s !! h) as [q|]; [|done]. btoprop. cbn. by rewrite Hid.
Qed.

Lemma find_query_Some (s : resolver) (i : Z) (h : nat) :
  idnsFindQuery s i = Some h -> h ∈ lru_list s /\ exists q, store s !! h = Some q /\ qid q = i.
Proof.
  unfold idnsFindQuery. intros [Hh Hid]%find_some. split; [by apply list_elem_of_In, in_rev|].
  unfold has_id in Hid. destruct (store s !! h) as [q|]; [|done]. btoprop. eauto.
Qed.

(** With fewer than 65536 queries in the queue, the identifier is not used. *)
Lemma query_id_fresh (env : list event -> Z) (s : resolver) (hist : list event) :
  Z.of_nat (length (lru_list s)) < 65536 ->
  exists r, idnsQueryID env s hist = (r, s, [Random]) /\ 0 <= r < 65536 /\ r ∉ ids s.
Proof.
  intros Hl. unfold idnsQueryID. prog_simpl. cbv zeta. eexists. split; [reflexivity|].
  set (f := Z.land _ 0xFFFF). set (used := fun i => bool_decide _).
  assert (Hf : 0 <= f < 65536).
  { unfold f. change 65535 with (2 ^ 16 - 1). rewrite land_ones by lia. apply Z.mod_pos_bound. lia. }
  destruct (next_id_free used f Hf (Z.to_nat 65536) 0) as [Hr Hu]; [lia | lia | lia|].
  rewrite Z.add_0_r, (wrapu_small 16 f) in Hr, Hu by exact Hf. split; [exact Hr|].
  destruct Hu as [Hu|Hu].
  - apply bool_decide_eq_false in Hu. apply find_query_None.
    destruct (idnsFindQuery _ _); [|done]. destruct Hu. by eexists.
  - exfalso. enough (65536 <= Z.of_nat (length (ids s))).
    { assert (length (ids s) <= length (lru_list s))%nat by apply length_omap_le. lia. }
    apply list_ids_full. intros i Hi. apply Hu in Hi. apply bool_decide_eq_true in Hi.
    destruct Hi as [h Hh]. apply find_query_Some in Hh as (Hin & q & Eq & <-).
    apply list_elem_of_omap. exists h. split; [done|]. by rewrite Eq.
Qed.

(** ** The clients of a trace and of a state *)

Definition released (t : list event) : list client :=
  omap (fun e => match e with CbdataUnlock c => Some c | _ => None end) t.
Definition locked (t : list event) : list client :=
  omap (fun e => match e with CbdataLock c => Some c | _ => None end) t.

Definition pending (m : gmap nat idns_query) : list client :=
  concat (map (fun p => waiting p.2) (map_to_list m)).

Lemma concat_Permutation {A} (l l' : list (list A)) : l ≡ₚ l' -> concat l ≡ₚ concat l'.
Proof.
  induction 1; cbn; [done | by f_equiv | | by etrans].
  rewrite !app_assoc. f_equiv. apply Permutation_app_comm.
Qed.

Lemma pending_delete (m : gmap nat idns_query) (h : nat) (q : idns_query) :
  m !! h = Some q -> pending m ≡ₚ waiting q ++ pending (delete h m).
Proof.
  intros Hq. unfold pending. rewrite <- (concat_Permutation _ _ (Permutation_map _ (map_to_list_delete m h q Hq))).
  done.
Qed.

Lemma pending_insert (m : gmap nat idns_query) (h : nat) (q : idns_query) :
  m !! h = None -> pending (<[h := q]> m) ≡ₚ waiting q ++ pending m.
Proof.
  intros Hq. unfold pending.
  by rewrite (concat_Permutation _ _ (Permutation_map _ (map_to_list_insert m h q Hq))).
Qed.

Lemma pending_update (m : gmap nat idns_query) (h : nat) (q q' : idns_query) :
  m !! h = Some q -> pending (<[h := q']> m) ≡ₚ waiting q' ++ pending (delete h m).
Proof.
  intros Hq. rewrite <- insert_delete_eq. by rewrite pending_insert by apply lookup_delete_eq.
Qed.

Lemma pending_same (m : gmap nat idns_query) (h : nat) (q q' : idns_query) :
  m !! h = Some q -> waiting q' = waiting q -> pending (<[h := q']> m) ≡ₚ pending m.
Proof. intros Hq Hw. by rewrite (pending_update m h q), (pending_delete m h q), Hw. Qed.

Lemma released_app (t u : list event) : released (t ++ u) = released t ++ released u.
Proof. apply omap_app. Qed.
Lemma locked_app (t u : list event) : locked (t ++ u) = locked t ++ locked u.
Proof. apply omap_app. Qed.

(** The events that end the wait of the clients [cs]: each is released once, in
    order, and those whose data is still valid are called. *)
Inductive delivered (answers : list rfc1035_rr) (n : Z) (e : option (list Z)) :
    list client -> list event -> Prop :=
| delivered_nil : delivered answers n e [] []
| delivered_valid c cs t : delivered answers n e cs t ->
    delivered answers n e (c :: cs)
      (CbdataValid (callback_data c) :: CbdataUnlock c :: Call c answers n e :: t)
| delivered_invalid c cs t : delivered answers n e cs t ->
    delivered answers n e (c :: cs) (CbdataValid (callback_data c) :: CbdataUnlock c :: t).

Lemma delivered_released answers n e cs t : delivered answers n e cs t ->
  released t = cs /\ locked t = [] /\ Fatal ∉ t.
Proof.
  induction 1 as [|c cs t _ (IH1 & IH2 & IH3)|c cs t _ (IH1 & IH2 & IH3)];
    [split; [done | split; [done | set_solver]] | |];
    (split; [change (c :: released t = c :: cs); by rewrite IH1 | split; [exact IH2 | set_solver]]).
Qed.

Lemma call_clients_spec env cs answers n e s hist :
  exists t, call_clients env cs answers n e s hist = ((), s, t) /\ delivered answers n e cs t.
Proof.
  revert hist. induction cs as [|c cs IH]; intros hist; [eexists; split; [reflexivity | constructor]|].
  cbn [call_clients]. prog_simpl. set (v := env _).
  destruct (v =? 0);
    match goal with |- context [call_clients _ _ _ _ _ _ ?hh] => destruct (IH hh) as (t & Et & Ht) end;
    rewrite Et; (eexists; split; [reflexivity|]); by constructor.
Qed.

Lemma callback_spec env h q answers n e s hist :
  store s !! h = Some q ->
  exists t, idnsCallback env h answers n e s hist = ((), mem_free h (hash_remove_link h s), t) /\
    delivered answers n e (waiting q) t.
Proof.
  intros Hq. unfold idnsCallback. prog_simpl. rewrite Hq.
  destruct (call_clients_spec env (waiting q) answers n e s hist) as (t & Et & Ht).
  rewrite Et. eexists. split; [reflexivity|]. by rewrite !app_nil_r.
Qed.

(** ** Sending *)

Definition silent (t : list event) : Prop := released t = [] /\ locked t = [] /\ Fatal ∉ t.

Lemma silent_app t u : silent t -> silent u -> silent (t ++ u).
Proof.
  intros (H1 & H2 & H3) (H4 & H5 & H6). unfold silent.
  rewrite released_app, locked_app, H1, H2, H4, H5. set_solver.
Qed.

Ltac silent_tac := split; [reflexivity | split; [reflexivity | set_solver]].

Lemma set_query_twice h q q' s : set_query h q' (set_query h q s) = set_query h q' s.
Proof. unfold set_query, set_store. cbn. by rewrite insert_insert_eq. Qed.

Lemma try_send_spec env fuel h s q hist :
  let nns := Z.of_nat (length (nameservers s)) in
  store s !! h = Some q -> 0 < nns -> 0 <= nsends q -> nns - nsends q mod nns <= Z.of_nat fuel ->
  exists i n' t, try_send env fuel h s hist = (i, set_query h (set_sent q n' (current_time s)) s, t) /\
    silent t /\ nsends q < n' <= (nsends q / nns + 1) * nns.
Proof.
  intros nns. revert s q hist nns. induction fuel as [|fuel IH]; intros s q hist nns Hq Hn H0 Hf.
  { pose proof (Z.mod_pos_bound (nsends q) nns Hn). lia. }
  cbn [try_send]. prog_simpl. rewrite Hq. fold nns.
  set (q1 := set_sent q (nsends q + 1) (current_time s)). set (x := env _).
  assert (Hb : nsends q < nsends q + 1 <= (nsends q / nns + 1) * nns).
  { pose proof (Z.div_mod (nsends q) nns). pose proof (Z.mod_pos_bound (nsends q) nns Hn). lia. }
  destruct (x <? 0).
  - destruct (Z.eqb_spec ((nsends q + 1) mod nns) 0) as [E|E].
    + do 3 eexists. split; [reflexivity|]. split; [silent_tac | exact Hb].
    + assert (Hd : (nsends q + 1) / nns = nsends q / nns /\ (nsends q + 1) mod nns = nsends q mod nns + 1).
      { clear -E Hn. pose proof (Z.div_mod (nsends q) nns). pose proof (Z.mod_pos_bound (nsends q) nns Hn).
        assert (nsends q mod nns + 1 <> nns).
        { intros Hc. apply E. replace (nsends q + 1) with (nns * (nsends q / nns + 1)) by lia.
          rewrite Z.mul_comm. by rewrite Z.mod_mul by lia. }
        split; symmetry; [apply Z.div_unique with (nsends q mod nns + 1) | apply Z.mod_unique with (nsends q / nns)]; lia. }
      destruct Hd as [Hd Hm].
      destruct (IH (set_query h q1 s) q1 ((hist ++ [Sendto (server_at s (nsends q mod nns)) (buf q)]) ++ []))
        as (i & n' & t & Et & Hs & Hn'); [apply lookup_insert_eq | exact Hn | cbn; lia | cbn; fold nns; lia |].
      rewrite Et. exists i, n'. eexists. split; [|split].
      * rewrite set_query_twice. reflexivity.
      * apply (silent_app [Sendto (server_at s (nsends q mod nns)) (buf q)]); [silent_tac | exact Hs].
      * cbn in Hn'. fold nns in Hn'. rewrite Hd in Hn'. lia.
  - do 3 eexists. split; [reflexivity|]. split; [silent_tac | exact Hb].
Qed.

Lemma tickle_spec s hist x l :
  lru_list s = x :: l ->
  exists t, idnsTickleQueue s hist = ((), set_queued true s, t) /\ silent t.
Proof.
  intros El. unfold idnsTickleQueue. prog_simpl. destruct (event_queued s) eqn:E.
  - exists []. split; [|silent_tac]. f_equal. f_equal. destruct s; cbn in *. by subst.
  - rewrite El. eexists. split; [reflexivity | silent_tac].
Qed.

(** The query is at the head of the queue, with at least one more datagram sent,
    and the check of the queue is scheduled. *)
Lemma send_query_spec env h s q hist :
  let nns := Z.of_nat (length (nameservers s)) in
  store s !! h = Some q -> 0 <= DnsSocket s -> 0 < nns -> 0 <= nsends q ->
  exists n' l t, idnsSendQuery env h s hist
    = ((), set_queued true (dlinkAdd h (set_servers l (set_query h (set_sent q n' (current_time s)) s))), t) /\
    length l = length (nameservers s) /\ silent t /\ nsends q < n' <= (nsends q / nns + 1) * nns.
Proof.
  intros nns Hq Hs Hn H0. unfold idnsSendQuery. prog_simpl.
  rewrite (proj2 (Z.ltb_ge _ _)) by lia. rewrite (proj2 (Nat.eqb_neq _ _)) by lia.
  destruct (try_send_spec env (length (nameservers s)) h s q hist Hq Hn H0) as (i & n' & t & Et & Hst & Hn').
  { fold nns. pose proof (Z.mod_pos_bound (nsends q) nns Hn). lia. }
  rewrite Et.
  match goal with |- context [idnsTickleQueue ?s1 ?h1] =>
    destruct (tickle_spec s1 h1 h (lru_list s) eq_refl) as (t2 & Et2 & Hst2) end.
  rewrite Et2. do 3 eexists. split; [reflexivity|]. split; [|split; [|exact Hn']].
  - cbn. unfold count_query. by rewrite length_alter.
  - apply silent_app; [exact Hst | exact Hst2].
Qed.

(** ** The invariant *)

Section Invariant.
Context (env : list event -> Z) (idns_retransmit idns_query_timeout : Z) (ignore_unknown : bool).
Context (HR : 0 < idns_retransmit) (HT : 0 < idns_query_timeout).

(** No interval between two datagrams of a query exceeds this, doubled at each
    attempt. *)
Definition max_interval : Z := Z.max idns_retransmit (2 * idns_query_timeout).

(** How often the interval has been doubled after [n] datagrams, and the most
    after the next one. *)
Definition rounds (nns n : Z) : Z := Z.quot (n - 1) nns.
Definition next_rounds (nns n : Z) : Z := if n =? 0 then 0 else (n - 1) / nns + 1.

Record query_ok (s : resolver) (q : idns_query) : Prop := {
  ok_id : 0 <= qid q < 65536;
  ok_buf : take 2 (buf q) = htons (qid q);
  ok_sends : 1 <= nsends q;
  ok_times : start_t q <= sent_t q <= current_time s;
  ok_window : sent_t q < start_t q + idns_query_timeout * 1000000;
  ok_attempt : 0 <= attempt q < MAX_ATTEMPT;
  ok_rcode : 0 <= qrcode q;
  ok_interval : interval idns_retransmit s q <= 2 ^ attempt q * max_interval }.

(** A query that can be sent (again) now. *)
Record ready (s : resolver) (q : idns_query) : Prop := {
  rd_id : 0 <= qid q < 65536;
  rd_buf : take 2 (buf q) = htons (qid q);
  rd_sends : 0 <= nsends q;
  rd_times : start_t q <= current_time s < start_t q + idns_query_timeout * 1000000;
  rd_attempt : 0 <= attempt q < MAX_ATTEMPT;
  rd_rcode : 0 <= qrcode q;
  rd_interval : Z.shiftl idns_retransmit (next_rounds (Z.of_nat (length (nameservers s))) (nsends q))
                <= 2 ^ attempt q * max_interval }.

Definition sent_of (s : resolver) (h : nat) : Z :=
  match store s !! h with Some q => sent_t q | None => 0 end.

(** The queries are those of the queue and the ones in [out], which an operation
    has taken off it; all are in the table of names.  The queue is in the order
    of the last datagrams, newest first, and the identifiers differ. *)
Record wf_with (out : list nat) (s : resolver) : Prop := {
  wf_nodup : NoDup (out ++ lru_list s);
  wf_dom : forall h, is_Some (store s !! h) <-> h ∈ out ++ lru_list s;
  wf_hash : idns_lookup_hash s ≡ₚ out ++ lru_list s;
  wf_fresh : forall h, h ∈ out ++ lru_list s -> (h < next_handle s)%nat;
  wf_query : forall h q, h ∈ lru_list s -> store s !! h = Some q -> query_ok s q;
  wf_sorted : StronglySorted (fun a b => sent_of s b <= sent_of s a) (lru_list s);
  wf_ids : NoDup (ids s);
  wf_up : 0 <= DnsSocket s /\ nameservers s <> [] }.

(** Between two operations a check of the queue is scheduled when there is
    something in it. *)
Definition wf (s : resolver) : Prop :=
  wf_with [] s /\ (lru_list s <> [] -> event_queued s = true).

Lemma nns_pos out s : wf_with out s -> 0 < Z.of_nat (length (nameservers s)).
Proof. intros H. destruct (wf_up _ _ H) as [_ Hn]. destruct (nameservers s); [done | cbn; lia]. Qed.

Lemma next_rounds_nonneg nns n : 0 < nns -> 0 <= n -> 0 <= next_rounds nns n.
Proof.
  intros H1 H2. unfold next_rounds. destruct (Z.eqb_spec n 0); [lia|].
  pose proof (Z.div_pos (n - 1) nns). lia.
Qed.

Lemma rounds_next nns n n' :
  0 < nns -> 0 <= n -> n < n' <= (n / nns + 1) * nns -> 0 <= rounds nns n' <= next_rounds nns n.
Proof.
  intros H1 H2 H3. unfold rounds. rewrite Z.quot_div_nonneg by lia. split; [apply Z.div_pos; lia|].
  assert (H4 : (n' - 1) / nns <= n / nns).
  { apply Z.lt_succ_r. apply Z.div_lt_upper_bound; lia. }
  unfold next_rounds. destruct (Z.eqb_spec n 0) as [->|Hn].
  - rewrite Z.div_0_l in H4; lia.
  - enough (n / nns <= (n - 1) / nns + 1) by lia.
    replace ((n - 1) / nns + 1) with ((n - 1 + 1 * nns) / nns) by (rewrite Z.div_add; lia).
    apply Z.div_le_mono; lia.
Qed.

Lemma shiftl_mono (a k k' : Z) : 0 <= a -> 0 <= k <= k' -> Z.shiftl a k <= Z.shiftl a k'.
Proof.
  intros Ha Hk. rewrite !Z.shiftl_mul_pow2 by lia. apply Z.mul_le_mono_nonneg_l; [done|].
  apply Z.pow_le_mono_r; lia.
Qed.

(** *** Lists of handles *)

Lemma filter_neq_perm (h : nat) (l : list nat) :
  NoDup l -> h ∈ l -> h :: filter (fun x => x <> h) l ≡ₚ l.
Proof.
  intros Hd Hh. apply NoDup_Permutation.
  - constructor; [rewrite list_elem_of_filter; tauto | by apply NoDup_filter].
  - done.
  - intros x. rewrite elem_of_cons, list_elem_of_filter. destruct (decide (x = h)); set_solver.
Qed.

Lemma filter_neq_id (h : nat) (l : list nat) : h ∉ l -> filter (fun x => x <> h) l = l.
Proof.
  induction l as [|x l IH]; intros Hh; [done|]. rewrite filter_cons_True by set_solver.
  f_equal. apply IH. set_solver.
Qed.

Lemma StronglySorted_filter_neq (R : nat -> nat -> Prop) (h : nat) (l : list nat) :
  StronglySorted R l -> StronglySorted R (filter (fun x => x <> h) l).
Proof.
  induction 1 as [|x l Hs IH Hx]; [constructor|]. rewrite filter_cons. destruct (decide _); [|exact IH].
  constructor; [exact IH|]. apply Forall_forall. intros y [_ Hy]%list_elem_of_filter.
  rewrite Forall_forall in Hx. auto.
Qed.

Lemma StronglySorted_impl (R R' : nat -> nat -> Prop) (l : list nat) :
  (forall a b, a ∈ l -> b ∈ l -> R a b -> R' a b) -> StronglySorted R l -> StronglySorted R' l.
Proof.
  intros H Hs. induction Hs as [|x l Hs IH Hx]; [constructor|]. constructor.
  - apply IH. intros a b Ha Hb. apply H; by right.
  - rewrite Forall_forall in *. intros y Hy. apply H; [by left | by right | auto].
Qed.

Lemma ids_elem s i : i ∈ ids s <-> exists h q, h ∈ lru_list s /\ store s !! h = Some q /\ qid q = i.
Proof.
  unfold ids. rewrite list_elem_of_omap. split.
  - intros (h & Hh & (q & Eq & ->)%fmap_Some). eauto.
  - intros (h & q & Hh & Eq & <-). exists h. split; [done|]. by rewrite Eq.
Qed.

(** *** Steps that keep the invariant *)

(** States that differ in the fields the invariant does not read. *)
Lemma wf_servers out s l :
  length l = length (nameservers s) -> wf_with out s -> wf_with out (set_servers l s).
Proof.
  intros El [H1 H2 H3 H4 H5 H6 H7 [H8 H9]]. split; try assumption.
  - intros h q Hh Hq. destruct (H5 h q Hh Hq) as [A B C D E F K G]. split; try assumption.
    unfold interval in *. cbn. by rewrite El.
  - split; [exact H8|]. cbn. intros ->. destruct (nameservers s); done.
Qed.

Lemma wf_matrix out s m : wf_with out s -> wf_with out (set_matrix m s).
Proof. intros [H1 H2 H3 H4 H5 H6 H7 H8]. split; try assumption. intros h q Hh Hq. by destruct (H5 h q Hh Hq). Qed.

Lemma wf_queued out s b : wf_with out s -> wf_with out (set_queued b s).
Proof. intros [H1 H2 H3 H4 H5 H6 H7 H8]. split; try assumption. intros h q Hh Hq. by destruct (H5 h q Hh Hq). Qed.

Lemma wf_clock out s t : current_time s <= t -> wf_with out s -> wf_with out (set_clock t s).
Proof.
  intros Ht [H1 H2 H3 H4 H5 H6 H7 H8]. split; try assumption.
  intros h q Hh Hq. destruct (H5 h q Hh Hq) as [A B C D E F K G]. split; try assumption. cbn. lia.
Qed.

(** A change of the queries off the queue, or of the clients of one on it. *)
Lemma wf_set_query out s h q :
  wf_with out s -> is_Some (store s !! h) ->
  (h ∈ lru_list s -> query_ok s q /\ forall q0, store s !! h = Some q0 -> sent_t q = sent_t q0 /\ qid q = qid q0) ->
  wf_with out (set_query h q s).
Proof.
  intros [H1 H2 H3 H4 H5 H6 H7 H8] [q0 Hq0] Hin.
  assert (Hlk : forall x, x ∈ lru_list s -> (x = h /\ sent_t q = sent_t q0 /\ qid q = qid q0) \/ <[h := q]> (store s) !! x = store s !! x).
  { intros x Hx. destruct (decide (x = h)) as [->|Hne]; [left|right; by rewrite lookup_insert_ne].
    split; [done|]. by apply Hin. }
  split; try assumption; cbn.
  - intros x. rewrite <- H2, lookup_insert_is_Some. split; [|destruct (decide (h = x)); auto].
    intros [->|[_ ?]]; [by eexists | done].
  - intros x q' Hx Hq'. destruct (decide (x = h)) as [->|Hne].
    + rewrite lookup_insert_eq in Hq'. injection Hq' as <-. destruct (Hin Hx) as [[A B C D E F K G] _]. by split.
    + rewrite lookup_insert_ne in Hq' by done. destruct (H5 x q' Hx Hq'). by split.
  - eapply StronglySorted_impl; [|exact H6]. intros a b Ha Hb. unfold sent_of. cbn.
    destruct (Hlk a Ha) as [(-> & E & _)|E], (Hlk b Hb) as [(-> & E' & _)|E']; rewrite ?E, ?E'; rewrite ?lookup_insert_eq, ?Hq0, ?E; lia.
  - unfold ids in *. cbn. erewrite omap_ext_in; [exact H7|].
    intros x Hx. destruct (Hlk x Hx) as [(-> & _ & E)|E]; [|by rewrite E]. rewrite lookup_insert_eq, Hq0. cbn. by rewrite E.
Qed.

(** The query [h] is taken off the queue. *)
Lemma wf_unlink s h q :
  wf_with [] s -> h ∈ lru_list s -> store s !! h = Some q ->
  wf_with [h] (dlinkDelete h s) /\ qid q ∉ ids (dlinkDelete h s).
Proof.
  intros [H1 H2 H3 H4 H5 H6 H7 H8] Hh Hq. cbn [app] in *.
  pose proof (filter_neq_perm h (lru_list s) H1 Hh) as Hp.
  assert (Hids : qid q :: ids (dlinkDelete h s) ≡ₚ ids s).
  { unfold ids. cbn. rewrite <- Hp at 2. cbn. by rewrite Hq. }
  split; [split; cbn; try assumption|].
  - by rewrite Hp.
  - intros x. rewrite (H2 x). by rewrite <- Hp at 1.
  - by rewrite Hp.
  - intros x Hx. apply H4. by rewrite <- Hp.
  - intros x q' [_ Hx]%list_elem_of_filter Hq'. destruct (H5 x q' Hx Hq'). by split.
  - by apply StronglySorted_filter_neq.
  - rewrite <- Hids in H7. by apply NoDup_cons in H7 as [_ ?].
  - rewrite <- Hids in H7. by apply NoDup_cons in H7 as [? _].
Qed.

(** A query off the queue ends. *)
Lemma wf_free s h : wf_with [h] s -> wf_with [] (mem_free h (hash_remove_link h s)).
Proof.
  intros [H1 H2 H3 H4 H5 H6 H7 H8]. cbn [app] in *. apply NoDup_cons in H1 as [Hh H1].
  assert (Hne : forall x, x ∈ lru_list s -> delete h (store s) !! x = store s !! x)
    by (intros x Hx; apply lookup_delete_ne; set_solver).
  split; cbn; try assumption.
  - intros x. rewrite lookup_delete_is_Some, H2. set_solver.
  - assert (Hd : NoDup (idns_lookup_hash s)) by (rewrite H3; by constructor).
    apply (inj (cons h)). rewrite filter_neq_perm; [exact H3 | exact Hd|]. rewrite H3. by left.
  - intros x Hx. apply H4. by right.
  - intros x q Hx Hq. rewrite Hne in Hq by done. destruct (H5 x q Hx Hq). by split.
  - eapply StronglySorted_impl; [|exact H6]. intros a b Ha Hb. unfold sent_of. cbn. by rewrite !Hne.
  - unfold ids in *. cbn. erewrite omap_ext_in; [exact H7|]. intros x Hx. by rewrite Hne.
Qed.

(** A new query enters the table of names. *)
Lemma wf_alloc s q :
  wf_with [] s -> wf_with [next_handle s] (set_hash (next_handle s :: idns_lookup_hash s) (alloc q s)).
Proof.
  intros [H1 H2 H3 H4 H5 H6 H7 H8]. cbn [app] in *. set (h := next_handle s).
  assert (Hh : h ∉ lru_list s) by (intros Hin; apply H4 in Hin; unfold h in Hin; lia).
  assert (Hne : forall x, x ∈ lru_list s -> <[h := q]> (store s) !! x = store s !! x)
    by (intros x Hx; apply lookup_insert_ne; set_solver).
  split; cbn; try assumption.
  - by constructor.
  - intros x. rewrite lookup_insert_is_Some, H2. fold h. set_unfold. destruct (decide (h = x)); naive_solver.
  - by rewrite H3.
  - intros x [->|Hx]%elem_of_cons; [unfold h; lia|]. apply H4 in Hx. lia.
  - intros x q' Hx Hq'. fold h in Hq'. rewrite Hne in Hq' by done. destruct (H5 x q' Hx Hq'). by split.
  - eapply StronglySorted_impl; [|exact H6]. intros a b Ha Hb. unfold sent_of. cbn. fold h. by rewrite !Hne.
  - unfold ids in *. cbn. fold h. erewrite omap_ext_in; [exact H7|]. intros x Hx. by rewrite Hne.
Qed.

(** A query joins the queue. *)
Lemma wf_link s h q :
  wf_with [h] s -> store s !! h = Some q -> query_ok s q -> sent_t q = current_time s ->
  qid q ∉ ids s -> wf_with [] (dlinkAdd h s).
Proof.
  intros [H1 H2 H3 H4 H5 H6 H7 H8] Hq Hok Hsent Hid. cbn [app] in *.
  split; cbn; try assumption.
  - intros x q' [->|Hx]%elem_of_cons Hq'.
    + rewrite Hq in Hq'. injection Hq' as <-. by destruct Hok.
    + destruct (H5 x q' Hx Hq'). by split.
  - constructor; [exact H6|]. apply Forall_forall. intros x Hx. unfold sent_of. cbn. rewrite Hq, Hsent.
    destruct (proj2 (H2 x) ltac:(by right)) as [q' Hq']. rewrite Hq'.
    destruct (H5 x q' Hx Hq') as [_ _ _ D _ _ _ _]. lia.
  - unfold ids in *. cbn. rewrite Hq. cbn. by constructor.
Qed.

Lemma send_keeps_wf h s q hist :
  wf_with [h] s -> store s !! h = Some q -> ready s q -> qid q ∉ ids s ->
  exists n' s' t, idnsSendQuery env h s hist = ((), s', t) /\ silent t /\ wf_with [] s' /\
    event_queued s' = true /\ lru_list s' = h :: lru_list s /\
    store s' = <[h := set_sent q n' (current_time s)]> (store s) /\ current_time s' = current_time s /\
    length (nameservers s') = length (nameservers s).
Proof.
  intros Hw Hq Hr Hid. pose proof (nns_pos _ _ Hw) as Hn.
  destruct (send_query_spec env h s q hist Hq (proj1 (wf_up _ _ Hw)) Hn (rd_sends _ _ Hr))
    as (n' & l & t & Et & Hl & Hst & Hn').
  exists n'. do 2 eexists. split; [exact Et|]. split; [exact Hst|].
  set (q' := set_sent q n' (current_time s)). split; [|cbn; by rewrite Hl].
  apply wf_queued. apply wf_link with q'; cbn.
  - apply wf_servers; [exact Hl|]. apply wf_set_query; [exact Hw | by eexists|].
    intros Hin. pose proof (wf_nodup _ _ Hw) as Hd. cbn in Hd. by apply NoDup_cons in Hd as [? _].
  - by rewrite lookup_insert_eq.
  - destruct Hr as [A B C D E K F]. split; cbn; try assumption; [lia | lia | lia |].
    unfold interval. cbn. rewrite Hl, Z.mul_1_r.
    pose proof (rounds_next _ _ _ Hn C Hn'). fold (rounds (Z.of_nat (length (nameservers s))) n').
    etrans; [|exact F]. apply shiftl_mono; lia.
  - done.
  - unfold ids. cbn. erewrite omap_ext_in; [exact Hid|]. intros x Hx. rewrite lookup_insert_ne; [done|].
    pose proof (wf_nodup _ _ Hw) as Hd. apply NoDup_cons in Hd as [Hd _]. set_solver.
Qed.

(** A query whose interval is over but whose time is not is ready: the interval
    is less than the whole time, so twice it is within the bound. *)
Lemma expired_ready s q :
  0 < Z.of_nat (length (nameservers s)) ->
  query_ok s q -> expired (sent_t q) (current_time s) (interval idns_retransmit s q) = true ->
  expired (start_t q) (current_time s) idns_query_timeout = false -> ready s q.
Proof.
  intros Hn [A B C D E F K G] Hx Ht. unfold expired in Hx, Ht. btoprop.
  split; try assumption; [lia | lia|].
  assert (Hi : interval idns_retransmit s q < idns_query_timeout) by lia.
  unfold interval in Hi. rewrite Z.mul_1_r in Hi. rewrite Z.quot_div_nonneg in Hi by lia.
  unfold next_rounds. rewrite (proj2 (Z.eqb_neq _ _)) by lia.
  pose proof (Z.div_pos (nsends q - 1) (Z.of_nat (length (nameservers s))) ltac:(lia) Hn) as Hp.
  rewrite Z.shiftl_mul_pow2 in Hi |- * by lia. rewrite Z.pow_add_r by lia. change (2 ^ 1) with 2.
  pose proof (Z.pow_pos_nonneg 2 (attempt q)).
  unfold max_interval. nia.
Qed.

(** A query asked again after a server failure is ready under its new identifier. *)
Lemma retry_ready s q r e id :
  0 < Z.of_nat (length (nameservers s)) ->
  query_ok s q -> attempt q + 1 < MAX_ATTEMPT -> 0 <= id < 65536 -> 0 <= r ->
  ready s (set_retry (set_failed q (attempt q + 1) e r) id (current_time s)).
Proof.
  intros Hn [A B C D E F K G] Ha Hid Hr. split; cbn; try assumption; try lia.
  - unfold rfc1035SetQueryID. done.
  - unfold interval in G. rewrite Z.mul_1_r in G. rewrite Z.quot_div_nonneg in G by lia.
    unfold next_rounds. rewrite (proj2 (Z.eqb_neq _ _)) by lia.
    pose proof (Z.div_pos (nsends q - 1) (Z.of_nat (length (nameservers s))) ltac:(lia) Hn) as Hp.
    rewrite Z.shiftl_mul_pow2 in G |- * by lia. rewrite !Z.pow_add_r by lia. change (2 ^ 1) with 2. lia.
Qed.

(** *** No client is lost *)

(** From the queries [m] to [m'] with the trace [t], no assertion fails, and the
    clients that wait and those released are the ones that waited and those that
    asked. *)
Definition conserves (m m' : gmap nat idns_query) (t : list event) : Prop :=
  pending m' ++ released t ≡ₚ pending m ++ locked t /\ Fatal ∉ t.

Lemma conserves_silent m m' t : silent t -> pending m' ≡ₚ pending m -> conserves m m' t.
Proof. intros (H1 & H2 & H3) Hp. unfold conserves. rewrite H1, H2, Hp. done. Qed.

Lemma conserves_refl m : conserves m m [].
Proof. split; [done | set_solver]. Qed.

Lemma conserves_trans m1 m2 m3 t u : conserves m1 m2 t -> conserves m2 m3 u -> conserves m1 m3 (t ++ u).
Proof.
  intros [H1 H2] [H3 H4]. split; [|set_solver]. rewrite released_app, locked_app.
  rewrite (Permutation_app_comm (released t)), app_assoc, H3, <- app_assoc,
    (Permutation_app_comm (locked u)), app_assoc, H1. by rewrite app_assoc.
Qed.

Lemma conserves_freed m h q answers n e t :
  m !! h = Some q -> delivered answers n e (waiting q) t -> conserves m (delete h m) t.
Proof.
  intros Hq (H1 & H2 & H3)%delivered_released. split; [|exact H3].
  by rewrite H1, H2, app_nil_r, (pending_delete m h q Hq), Permutation_app_comm.
Qed.

Lemma conserves_pre m0 m m' t : pending m ≡ₚ pending m0 -> conserves m m' t -> conserves m0 m' t.
Proof. intros Hp [H1 H2]. split; [by rewrite H1, Hp | exact H2]. Qed.

Definition good (s : resolver) (r : unit * resolver * list event) : Prop :=
  wf r.1.2 /\ conserves (store s) (store r.1.2) r.2 /\ current_time r.1.2 = current_time s.

Lemma good_nil s : wf s -> good s ((), s, []).
Proof. intros H. split; [exact H | split; [apply conserves_refl | done]]. Qed.

Lemma not_in_out out s h : wf_with (h :: out) s -> h ∉ lru_list s.
Proof. intros [H _ _ _ _ _ _ _]. cbn in H. apply NoDup_cons in H as [H _]. set_solver. Qed.

Lemma wf_in_flight s h q : wf_with [h] s -> wf_with [h] (set_query h q s).
Proof.
  intros Hw. apply wf_set_query; [exact Hw | apply (wf_dom _ _ Hw); by left|].
  intros Hin. by apply not_in_out in Hw.
Qed.

Lemma ids_in_flight s h q : wf_with [h] s -> ids (set_query h q s) = ids s.
Proof.
  intros Hw. unfold ids. cbn. apply omap_ext_in. intros x Hx. rewrite lookup_insert_ne; [done|].
  apply not_in_out in Hw. set_solver.
Qed.

(** The end of a query that is off the queue. *)
Lemma callback_keeps_wf h q s answers n e hist :
  wf_with [h] s -> store s !! h = Some q ->
  exists s' t, idnsCallback env h answers n e s hist = ((), s', t) /\ delivered answers n e (waiting q) t /\
    wf_with [] s' /\ store s' = delete h (store s) /\ lru_list s' = lru_list s /\
    event_queued s' = event_queued s /\ current_time s' = current_time s /\
    nameservers s' = nameservers s.
Proof.
  intros Hw Hq. destruct (callback_spec env h q answers n e s hist Hq) as (t & Et & Ht).
  do 2 eexists. split; [exact Et|]. split; [exact Ht|]. split; [by apply wf_free | done].
Qed.

Lemma lru_unlink s h : h ∈ lru_list s -> lru_list s <> [].
Proof. intros H E. rewrite E in H. set_solver. Qed.

(** A reply ends its query, or sends it again after a server failure. *)
Lemma grok_answer_good h q u answers s hist :
  wf s -> h ∈ lru_list s -> store s !! h = Some q -> Z.of_nat (length (lru_list s)) <= 65536 ->
  good s (grok_answer env h q u answers s hist).
Proof.
  intros [Hw Hq0] Hin Hq Hlen. pose proof (wf_query _ _ Hw h q Hin Hq) as Hok.
  destruct (wf_unlink s h q Hw Hin Hq) as [Hw1 Hid].
  set (s1 := dlinkDelete h s) in *. unfold grok_answer. prog_simpl. fold s1.
  set (s2 := idnsRcodeCount (ret u) (attempt q) s1).
  assert (H2 : wf_with [h] s2 /\ store s2 = store s /\ lru_list s2 = lru_list s1 /\ event_queued s2 = event_queued s
               /\ current_time s2 = current_time s /\ nameservers s2 = nameservers s /\ ids s2 = ids s1).
  { unfold s2, idnsRcodeCount. destruct (_ && _); [|done]. split; [by apply wf_matrix | done]. }
  destruct H2 as (Hw2 & Est & Elru & Eq & Ect & Ens & Eids).
  assert (Hend : forall q' a n e hist, waiting q' = waiting q ->
            good s (idnsCallback env h a n e (set_query h q' s2) hist)).
  { intros q' a n e hist' Hwait.
    destruct (callback_keeps_wf h q' (set_query h q' s2) a n e hist') as (s' & t & -> & Ht & Hw' & Es' & El' & Eq' & Ec' & _);
      [by apply wf_in_flight | apply lookup_insert_eq|].
    unfold good. cbn [fst snd]. split; [split; [exact Hw'|]|split; [|rewrite Ec'; exact Ect]].
    - intros _. rewrite Eq'. cbn. rewrite Eq. by apply Hq0, (lru_unlink s h).
    - rewrite Es'. cbn. rewrite Est, delete_insert_eq. rewrite Hwait in Ht. by eapply conserves_freed. }
  destruct (ret u <? 0).
  - destruct (_ && _) eqn:Eretry.
    + destruct (Z.eqb_spec (- ret u) 2) as [E2|]; [|done]. cbn [andb] in Eretry. btoprop.
      set (q2 := set_failed q (attempt q + 1) (rfc1035_error_message u) (- ret u)).
      set (q1 := set_failed q (attempt q) None (qrcode q)).
      change (set_failed q1 (attempt q1 + 1) (rfc1035_error_message u) (- ret u)) with q2.
      set (s3 := set_query h q2 s2).
      match goal with |- context [idnsQueryID env s3 ?hh] =>
        destruct (query_id_fresh env s3 hh) as (id & -> & Hidr & Hfresh) end.
      { unfold s3. cbn. rewrite Elru. unfold s1. cbn.
        pose proof (filter_neq_perm h (lru_list s) (wf_nodup _ _ Hw) Hin) as Hp.
        apply Permutation_length in Hp. cbn in Hp. lia. }
      cbn [fst snd]. set (q3 := set_retry q2 id (current_time s3)). set (s4 := set_query h q3 s3).
      match goal with |- context [idnsSendQuery env h s4 ?hh] =>
        destruct (send_keeps_wf h s4 q3 hh) as (n' & s' & t & -> & Hst & Hw' & Hev & Hl & Es & Ec & _) end.
      * apply wf_in_flight, wf_in_flight. exact Hw2.
      * apply lookup_insert_eq.
      * assert (Hr : ready s q3).
        { unfold q3. replace (current_time s3) with (current_time s) by (symmetry; exact Ect).
          apply retry_ready; [by eapply nns_pos | exact Hok | done | exact Hidr | lia]. }
        destruct Hr as [A B C D E K F]. split; try assumption.
        -- change (current_time s4) with (current_time s2). by rewrite Ect.
        -- change (nameservers s4) with (nameservers s2). by rewrite Ens.
      * unfold s4. rewrite ids_in_flight by (by apply wf_in_flight). exact Hfresh.
      * unfold good. cbn [fst snd]. split; [split; [exact Hw' | intros _; exact Hev]|split].
        -- rewrite Es. apply conserves_silent.
           ++ apply (silent_app [Random]); [silent_tac | exact Hst].
           ++ cbn. rewrite !insert_insert_eq, Est. by apply pending_same with q.
        -- rewrite Ec. exact Ect.
    + set (e := rfc1035_error_message u).
      match goal with |- context [idnsCallback env h answers (ret u) e ?s3 ?hh] =>
        pose proof (fun W => Hend _ answers (ret u) e hh W : good s (idnsCallback env h answers (ret u) e s3 hh)) as Hg;
        destruct (idnsCallback env h answers (ret u) e s3 hh) as [[[] s'] t] end.
      apply Hg. by destruct (_ =? 2).
  - match goal with |- context [idnsCallback env h answers (ret u) None ?s3 ?hh] =>
      pose proof (fun W => Hend _ answers (ret u) None hh W : good s (idnsCallback env h answers (ret u) None s3 hh)) as Hg;
      destruct (idnsCallback env h answers (ret u) None s3 hh) as [[[] s'] t] end.
    by apply Hg.
Qed.

Lemma wf_length s : wf_with [] s -> Z.of_nat (length (lru_list s)) <= 65536.
Proof.
  intros Hw. assert (Hl : length (ids s) = length (lru_list s)).
  { unfold ids. pose proof (wf_dom _ _ Hw) as Hd. cbn in Hd.
    assert (H : forall h, h ∈ lru_list s -> is_Some (store s !! h)) by (intros h; by rewrite Hd).
    revert H. generalize (lru_list s). induction l as [|h l IH]; intros H; [done|]. cbn.
    destruct (H h ltac:(by left)) as [q ->]. cbn. rewrite IH; [done|]. intros x Hx. apply H. by right. }
  rewrite <- Hl.
  assert (Hi : (length (ids s) <= length (seqZ 0 65536))%nat).
  { apply NoDup_incl_length; [apply NoDup_ListNoDup, (wf_ids _ _ Hw)|].
    intros i Hi%list_elem_of_In. apply list_elem_of_In, elem_of_seqZ.
    apply ids_elem in Hi as (h & q & Hh & Hq & <-). pose proof (ok_id _ _ (wf_query _ _ Hw h q Hh Hq)). lia. }
  rewrite length_seqZ in Hi. lia.
Qed.

(** A datagram as it is received: bytes, fewer than the buffer holds. *)
Definition packet_ok (p : datagram) : Prop := Forall is_byte (rbuf p) /\ 0 <= dsize p < strlen (rbuf p).

(** The datagrams whose unpacking fails an assertion: a bare header, and an answer that
    ends in a PTR record without data. *)
Definition aborting (p : datagram) : Prop := dsize p = 12 \/ ends_in_empty_ptr (rbuf p) (dsize p).

(** A result is good, or the process was stopped by such a datagram. *)
Definition good_or_stopped (pkts : list datagram) (s : resolver) (r : unit * resolver * list event) : Prop :=
  good s r \/ Fatal ∈ r.2 /\ exists p, p ∈ pkts /\ aborting p.

Lemma grok_reply_good p pkts s hist :
  packet_ok p -> p ∈ pkts -> wf s -> good_or_stopped pkts s (idnsGrokReply env (rbuf p) (dsize p) s hist).
Proof.
  intros (Hb & Hs) Hin0 Hw. unfold idnsGrokReply.
  pose proof (message_unpack_done (rbuf p) (dsize p) Hb Hs) as Hu.
  destruct (rfc1035MessageUnpack _ _) as [u| | | |]; try done; [left|right; split; [by left | by exists p]].
  destruct (msg u) as [m|] eqn:Em; [|by apply good_nil].
  assert (Hqm : exists mq, query m = [mq]).
  { destruct Hu as [Hu1 Hu2]. destruct (Z.le_gt_cases 0 (ret u)) as [Hr|Hr].
    - destruct (Hu1 Hr) as (_ & m' & q' & E & Hq & _). rewrite Em in E. injection E as <-. eauto.
    - destruct (Hu2 Hr) as (_ & _ & [[E _]|(m' & q' & E & Hq & _)]); rewrite Em in E; [done|].
      injection E as <-. eauto. }
  destruct Hqm as [mq Hqm]. prog_simpl. rewrite Hqm.
  destruct (idnsFindQuery s (Rfc1035.id (hdr m))) as [h|] eqn:Ef; [|by apply good_nil].
  destruct (find_query_Some _ _ _ Ef) as (Hin & q & Hq & Hid). rewrite Hq.
  destruct (negb _); [by apply good_nil|].
  match goal with |- context [grok_answer env h q u (answer m) s ?hh] =>
    pose proof (grok_answer_good h q u (answer m) s hh Hw Hin Hq (wf_length s (proj1 Hw))) as Hg;
    destruct (grok_answer env h q u (answer m) s hh) as [[[] s'] t] end.
  exact Hg.
Qed.

Lemma good_bind pkts (m1 m2 : prog resolver event unit) s hist :
  good_or_stopped pkts s (m1 s hist) -> (forall s' hist, wf s' -> good_or_stopped pkts s' (m2 s' hist)) ->
  good_or_stopped pkts s ((m1 ;; m2) s hist).
Proof.
  intros H1 H2. unfold mbind, prog_bind. destruct (m1 s hist) as [[[] s1] t1].
  destruct H1 as [(Hw & Hc & Ht)|[Hf Hp]]; cbn [fst snd] in *.
  - pose proof (H2 s1 (hist ++ t1) Hw) as H3. destruct (m2 s1 (hist ++ t1)) as [[[] s2] t2].
    destruct H3 as [(Hw2 & Hc2 & Ht2)|[Hf Hp]]; cbn [fst snd] in *.
    + left. split; [exact Hw2 | split; [by eapply conserves_trans | cbn; by rewrite Ht2]].
    + right. split; [cbn; apply elem_of_app; by right | exact Hp].
  - destruct (m2 s1 (hist ++ t1)) as [[[] s2] t2]. right. split; [cbn; apply elem_of_app; by left | exact Hp].
Qed.

Lemma good_get pkts (k : resolver -> prog resolver event unit) s hist :
  (forall hist, good_or_stopped pkts s (k s s hist)) -> good_or_stopped pkts s ((s0 ← get; k s0) s hist).
Proof. intros H. prog_simpl. specialize (H hist). by destruct (k s s hist) as [[[] s'] t]. Qed.

Lemma good_servers s f hist :
  length (f s) = length (nameservers s) -> wf s ->
  good s (modify (fun s => set_servers (f s) s) s hist).
Proof.
  intros Hl [Hw Hq]. split; [split; [by apply wf_servers | exact Hq]|]. split; [apply conserves_refl | done].
Qed.

Lemma read_loop_good all max pkts s hist :
  Forall packet_ok pkts -> pkts ⊆ all -> wf s -> good_or_stopped all s (read_loop env ignore_unknown max pkts s hist).
Proof.
  intros Hp. revert max s hist. induction Hp as [|p pkts Hp _ IH]; intros max s hist Hall Hw;
    (destruct max as [|max]; [by left; apply good_nil|]); [by left; apply good_nil|].
  assert (Hin : p ∈ all) by (apply Hall; by left). assert (Hsub : pkts ⊆ all) by (intros x Hx; apply Hall; by right).
  cbn [read_loop]. destruct (dsize p =? 0); [by left; apply good_nil|].
  apply good_get. intros hist'. cbv zeta. apply good_bind; [|intros s' hist2 Hw'; by apply IH].
  destruct (0 <=? _).
  - apply good_bind.
    + left. apply (good_servers s (fun s' => count_reply (idnsFromKnownNameserver s _ _) (nameservers s')));
        [apply length_alter | exact Hw].
    + intros s' hist2 Hw'. by apply grok_reply_good.
  - destruct ignore_unknown; [by left; apply good_nil | by apply grok_reply_good].
Qed.

Lemma read_good pkts s hist :
  Forall packet_ok pkts -> wf s -> good_or_stopped pkts s (idnsRead env ignore_unknown pkts s hist).
Proof.
  intros Hp Hw. unfold idnsRead. apply good_bind; [by apply read_loop_good|].
  intros s' hist' Hw'. apply good_get. intros hist2. left. destruct (lru_list s'); [by apply good_nil|].
  split; [exact Hw' | split; [apply conserves_silent; [silent_tac | done] | done]].
Qed.

(** *** Lookups *)

Lemma build_query_id name type sz i b qn :
  build_query name type sz i = Done (b, qn) -> take 2 b = htons (u16 i).
Proof.
  unfold build_query, rfc1035HeaderPack, query_header. cbn [Rfc1035.id].
  destruct (12 <=? sz); [|done]. outs. destruct (rfc1035QuestionPack _ _ _ _) as [q| | | |]; try done.
  outs. destruct (_ <=? _); [|done]. outs. intros [= <- <-]. done.
Qed.

Lemma cached_lookup_good key c s hist :
  wf s ->
  (exists t, idnsCachedLookup key c s hist = (false, s, t) /\ t = []) \/
  (exists s' t, idnsCachedLookup key c s hist = (true, s', t) /\ wf s' /\ locked t = [c] /\
     conserves (store s) (store s') t /\ current_time s' = current_time s).
Proof.
  intros [Hw Hq]. unfold idnsCachedLookup. prog_simpl.
  destruct (hash_lookup s key) as [h|] eqn:Eh; [|left; by eexists].
  destruct (store s !! h) as [q|] eqn:Es; [|left; by eexists]. right.
  do 2 eexists. split; [reflexivity|].
  set (w := match waiting q with first :: queue => first :: c :: queue | [] => [c] end).
  assert (Hp : w ≡ₚ c :: waiting q) by (unfold w; destruct (waiting q); [done | apply Permutation_swap]).
  split; [split; [|exact Hq]|split; [done|split; [|done]]].
  - apply wf_set_query; [exact Hw | by eexists|]. intros Hin.
    destruct (wf_query _ _ Hw h q Hin Es) as [A B C D E F K G]. split; [by split|].
    intros q0 [= <-]%(eq_trans (eq_sym Es)). done.
  - split; [|set_solver]. cbn. rewrite (pending_update _ h q _ Es), (pending_delete _ h q Es).
    cbn. rewrite app_nil_r, Hp. cbn. by rewrite Permutation_cons_append.
Qed.

(** Adding a query and sending it. *)
Lemma lookup_good key build c s hist :
  wf s -> Z.of_nat (length (lru_list s)) < 65536 ->
  (forall i, 0 <= i < 65536 -> exists b qn, build i = Done (b, qn) /\ take 2 b = htons i) ->
  let r := idns_lookup env key build c s hist in good s r /\ locked r.2 = [c].
Proof.
  intros Hw Hlen Hb. unfold idns_lookup.
  destruct (cached_lookup_good key c s hist Hw) as [(t & E & ->)|(s' & t & E & Hw' & Hl & Hc & Ht)];
    prog_simpl; rewrite E.
  2:{ rewrite ?app_nil_r. cbn [fst snd]. split; [|exact Hl]. by split; [|split]. }
  cbn [app]. match goal with |- context [idnsQueryID env s ?hh] =>
    destruct (query_id_fresh env s hh Hlen) as (i & -> & Hi & Hfresh) end.
  destruct (Hb i Hi) as (b & qn & -> & Hbuf).
  set (q := IdnsQuery qn b i 0 (current_time s) 0 [c] 0 None 0). unfold idnsCacheQuery, modify.
  set (h := next_handle s). cbn [app fst snd].
  set (s1 := set_hash _ (alloc q s)).
  destruct Hw as [Hw Hq].
  assert (Hw1 : wf_with [h] s1) by exact (wf_alloc s q Hw).
  match goal with |- context [idnsSendQuery env h s1 ?hh] =>
    destruct (send_keeps_wf h s1 q hh) as (n' & s' & t & -> & Hst & Hw' & Hev & Hl & Es & Ec & _) end.
  - exact Hw1.
  - apply lookup_insert_eq.
  - split; cbn; try done; [lia|]. rewrite Z.shiftl_0_r. unfold max_interval. lia.
  - intros Hin. apply Hfresh. apply ids_elem in Hin as (x & qx & Hx & Eqx & Eid). apply ids_elem.
    exists x, qx. split; [exact Hx|]. split; [|exact Eid].
    cbn in Eqx. fold h in Eqx. rewrite lookup_insert_ne in Eqx; [done|].
    pose proof (not_in_out [] s1 h Hw1). set_solver.
  - cbn [fst snd]. destruct Hst as (Hr & Hlk & Hf).
    assert (Hnone : store s !! h = None).
    { apply eq_None_not_Some. rewrite (wf_dom _ _ Hw). intros Hin. apply (wf_fresh _ _ Hw) in Hin. unfold h in Hin. lia. }
    assert (Elk : locked (Random :: CbdataLock c :: t) = [c])
      by (change (locked (Random :: CbdataLock c :: t)) with (c :: locked t); by rewrite Hlk).
    rewrite ?app_nil_l. split; [|exact Elk]. split; [|split].
    + split; [exact Hw' | intros _; exact Hev].
    + cbn [fst snd]. split; [|set_solver]. rewrite Elk. change (released _) with (released t). rewrite Hr, app_nil_r.
      rewrite Es. cbn. rewrite insert_insert_eq, pending_insert by exact Hnone. cbn. by rewrite Permutation_cons_append.
    + exact Ec.
Qed.

(** *** The check of the queue *)

Lemma interval_pos s q :
  0 < Z.of_nat (length (nameservers s)) -> query_ok s q -> 0 < interval idns_retransmit s q.
Proof.
  intros Hn Hok. pose proof (ok_sends _ _ Hok). unfold interval. rewrite Z.mul_1_r.
  rewrite Z.quot_div_nonneg by lia. pose proof (Z.div_pos (nsends q - 1) _ ltac:(lia) Hn).
  rewrite Z.shiftl_mul_pow2 by lia. pose proof (Z.pow_pos_nonneg 2 ((nsends q - 1) / Z.of_nat (length (nameservers s)))). nia.
Qed.

Lemma prev_of_last h l p :
  NoDup (l ++ [h]) -> prev_of h (l ++ [h]) p = match last l with Some x => Some x | None => p end.
Proof.
  revert p. induction l as [|x l IH]; intros p Hd; cbn [app prev_of].
  - by rewrite decide_True.
  - cbn in Hd. apply NoDup_cons in Hd as [Hx Hd]. rewrite decide_False by set_solver.
    rewrite IH by done. rewrite last_cons. by destruct (last l).
Qed.

Lemma filter_neq_last h (l : list nat) : NoDup (l ++ [h]) -> filter (fun x => x <> h) (l ++ [h]) = l.
Proof.
  intros Hd. apply NoDup_app in Hd as (_ & Hd & _). rewrite filter_app, filter_neq_id by (intros Hh; apply (Hd h Hh); by left).
  rewrite filter_cons_False by tauto. by rewrite filter_nil, app_nil_r.
Qed.

(** The loop stops at an entry sent just now. *)
Lemma check_loop_stop fuel n s hist :
  wf_with [] s -> (n = None \/ exists h, n = Some h /\ h ∈ lru_list s /\ sent_of s h = current_time s) ->
  check_loop env idns_retransmit idns_query_timeout fuel n s hist = ((), s, []).
Proof.
  intros Hw [->|(h & -> & Hin & Hs)]; destruct fuel as [|fuel]; try done.
  cbn [check_loop]. prog_simpl. pose proof (nns_pos _ _ Hw) as Hn.
  destruct (nameservers s) as [|n0 l0] eqn:En; [done|].
  destruct (proj2 (wf_dom _ _ Hw h) ltac:(exact Hin)) as [q Hq]. rewrite Hq.
  unfold sent_of in Hs. rewrite Hq in Hs.
  assert (Hi : 0 < interval idns_retransmit s q).
  { apply interval_pos; [by rewrite En|]. by apply (wf_query _ _ Hw h). }
  unfold expired. rewrite Hs, Z.sub_diag. by rewrite (proj2 (Z.ltb_lt _ _)) by lia.
Qed.

(** What one entry whose interval is over becomes. *)
Inductive handled (s s' : resolver) (t : list event) (h : nat) (q : idns_query) : Prop :=
| handled_sent n' :
    expired (start_t q) (current_time s) idns_query_timeout = false ->
    store s' !! h = Some (set_sent q n' (current_time s)) -> handled s s' t h q
| handled_ended n e t1 t2 t3 :
    expired (start_t q) (current_time s) idns_query_timeout = true ->
    store s' !! h = None -> t = t1 ++ t2 ++ t3 -> n < 0 -> is_Some e \/ qrcode q <> 0 ->
    delivered [] n e (waiting q) t2 -> handled s s' t h q.

Lemma check_entry h q l s hist :
  wf_with [] s -> lru_list s = l ++ [h] -> store s !! h = Some q ->
  expired (sent_t q) (current_time s) (interval idns_retransmit s q) = true ->
  exists s' t pre, (modify (dlinkDelete h);;
      (if negb (expired (start_t q) (current_time s) idns_query_timeout) then idnsSendQuery env h
       else if negb (qrcode q =? 0) then idnsCallback env h [] (- qrcode q) (error q)
       else idnsCallback env h [] (-16) (Some (bytes "Timeout")))) s hist = ((), s', t) /\
    wf_with [] s' /\ conserves (store s) (store s') t /\ lru_list s' = pre ++ l /\
    Forall (fun x => sent_of s' x = current_time s') pre /\ current_time s' = current_time s /\
    length (nameservers s') = length (nameservers s) /\
    (forall x, x <> h -> store s' !! x = store s !! x) /\ handled s s' t h q /\
    (pre = [] \/ pre = [h]).
Proof.
  intros Hw El Hq Hx. assert (Hin : h ∈ lru_list s) by (rewrite El; set_solver).
  assert (Hd : NoDup (l ++ [h])) by (rewrite <- El; exact (wf_nodup _ _ Hw)).
  pose proof (wf_query _ _ Hw h q Hin Hq) as Hok.
  destruct (wf_unlink s h q Hw Hin Hq) as [Hw1 Hid]. set (s1 := dlinkDelete h s) in *.
  assert (El1 : lru_list s1 = l) by (unfold s1; cbn; rewrite El; by apply filter_neq_last).
  assert (Hend : forall n e hist, n < 0 -> is_Some e \/ qrcode q <> 0 ->
    expired (start_t q) (current_time s) idns_query_timeout = true ->
    exists s' t, idnsCallback env h [] n e s1 hist = ((), s', t) /\ wf_with [] s' /\
      conserves (store s) (store s') t /\ lru_list s' = l /\ current_time s' = current_time s /\
      length (nameservers s') = length (nameservers s) /\
      (forall x, x <> h -> store s' !! x = store s !! x) /\ handled s s' t h q).
  { intros n e hist' Hn He Hexp.
    destruct (callback_keeps_wf h q s1 [] n e hist' Hw1 Hq) as (s' & t & -> & Ht & Hw' & Es & Elr & _ & Ec & Ens).
    exists s', t. split; [done|]. split; [exact Hw'|]. rewrite Es. split; [by eapply conserves_freed|].
    split; [by rewrite Elr|]. split; [exact Ec|]. split; [by rewrite Ens|].
    split; [intros x Hne; by rewrite lookup_delete_ne|].
    apply handled_ended with n e [] t []; try done; [rewrite Es; apply lookup_delete_eq | by rewrite app_nil_r]. }
  prog_simpl. fold s1. destruct (expired (start_t q) _ _) eqn:Hexp; cbn [negb].
  - assert (Hfin : forall n e hist, n < 0 -> is_Some e \/ qrcode q <> 0 -> exists s' t pre,
      (let '(b, s2, t2) := idnsCallback env h [] n e s1 hist in (b, s2, t2)) = ((), s', t) /\
      wf_with [] s' /\ conserves (store s) (store s') t /\ lru_list s' = pre ++ l /\
      Forall (fun x => sent_of s' x = current_time s') pre /\ current_time s' = current_time s /\
      length (nameservers s') = length (nameservers s) /\
      (forall x, x <> h -> store s' !! x = store s !! x) /\ handled s s' t h q /\ (pre = [] \/ pre = [h])).
    { intros n e hist' Hn He. destruct (Hend n e hist' Hn He eq_refl) as (s' & t & E & A & B & C & D & F & G & H).
      exists s', t, []. rewrite E. split; [done|]. do 3 (split; [assumption|]). split; [constructor|].
      do 4 (split; [assumption|]). by left. }
    pose proof (ok_rcode _ _ Hok).
    destruct (Z.eqb_spec (qrcode q) 0) as [E|E]; cbn [negb].
    + apply Hfin; [done | left; by eexists].
    + apply Hfin; [lia | by right].
  - pose proof (expired_ready s q (nns_pos _ _ Hw) Hok Hx Hexp) as Hr.
    match goal with |- context [idnsSendQuery env h s1 ?hh] =>
      destruct (send_keeps_wf h s1 q hh Hw1 Hq) as (n' & s' & t & -> & Hst & Hw' & _ & Elr & Es & Ec & Ens) end.
    + by destruct Hr.
    + exact Hid.
    + exists s', t, [h]. split; [done|]. split; [exact Hw'|].
      rewrite Es. split; [apply conserves_silent; [exact Hst | by apply pending_same with q]|].
      split; [by rewrite Elr, El1|]. split.
      { constructor; [|constructor]. unfold sent_of. rewrite Es, lookup_insert_eq. by rewrite Ec. }
      split; [exact Ec|]. split; [by rewrite Ens|]. split; [intros x Hne; by rewrite lookup_insert_ne|].
      split; [|by right]. apply handled_sent with n'; [exact Hexp|]. rewrite Es. apply lookup_insert_eq.
Qed.

Lemma handled_later s s1 s' t1 t h q :
  handled s s1 t1 h q -> store s' !! h = store s1 !! h -> handled s s' (t1 ++ t) h q.
Proof.
  intros [n' He Hs|n e u1 u2 u3 He Hs -> Hn Hr Hd] E.
  - apply handled_sent with n'; [exact He | by rewrite E].
  - apply handled_ended with n e u1 u2 (u3 ++ t); try done; [by rewrite E | by rewrite <- !app_assoc].
Qed.

Lemma handled_earlier s s1 s' t1 t h q :
  current_time s1 = current_time s -> handled s1 s' t h q -> handled s s' (t1 ++ t) h q.
Proof.
  intros Ec [n' He Hs|n e u1 u2 u3 He Hs -> Hn Hr Hd]; rewrite Ec in *.
  - by apply handled_sent with n'.
  - apply handled_ended with n e (t1 ++ u1) u2 u3; try done. by rewrite <- !app_assoc.
Qed.

(** Running programs one after the other. *)
Lemma seq_run (m1 m2 : prog resolver event unit) s hist s1 t1 r s2 t2 :
  m1 s hist = ((), s1, t1) -> m2 s1 (hist ++ t1) = (r, s2, t2) -> (m1;; m2) s hist = (r, s2, t1 ++ t2).
Proof. intros E1 E2. prog_simpl. by rewrite E1, E2. Qed.

Lemma seq_assoc (m1 m2 m3 : prog resolver event unit) s hist r :
  ((m1;; m2);; m3) s hist = r -> (m1;; (m2;; m3)) s hist = r.
Proof.
  intros <-. prog_simpl. destruct (m1 s hist) as [[[] s1] t1].
  destruct (m2 s1 (hist ++ t1)) as [[[] s2] t2]. rewrite <- app_assoc.
  destruct (m3 s2 _) as [[[] s3] t3]. by rewrite app_assoc.
Qed.

Lemma seq_get (k : resolver -> prog resolver event unit) s hist r :
  k s s hist = r -> (s0 ← get; k s0) s hist = r.
Proof. intros <-. prog_simpl. by destruct (k s s hist) as [[[] s'] t]. Qed.

(** The loop from the tail: it handles the entries [l2] and stops before one whose
    interval is not over; those sent again are at the head. *)
Lemma check_loop_queue fuel l new s hist :
  wf_with [] s -> lru_list s = new ++ l -> Forall (fun x => sent_of s x = current_time s) new ->
  (length l <= fuel)%nat ->
  exists s' t new' l1 l2,
    check_loop env idns_retransmit idns_query_timeout fuel (last (new ++ l)) s hist = ((), s', t) /\
    wf_with [] s' /\ conserves (store s) (store s') t /\ current_time s' = current_time s /\
    l = l1 ++ l2 /\ lru_list s' = new' ++ l1 /\
    (forall x, x ∉ l2 -> store s' !! x = store s !! x) /\
    (l1 = [] \/ exists h q, last l1 = Some h /\ store s !! h = Some q /\
       expired (sent_t q) (current_time s) (interval idns_retransmit s q) = false) /\
    (forall h q, h ∈ l2 -> store s !! h = Some q -> handled s s' t h q).
Proof.
  revert fuel new s hist. induction l as [|h l IH] using rev_ind; intros fuel new s hist Hw El Hnew Hf.
  - exists s, [], new, [], []. rewrite check_loop_stop; [|exact Hw|].
    + split; [done|]. split; [exact Hw|]. split; [apply conserves_refl|]. do 3 (split; [done|]).
      split; [done|]. split; [by left|]. set_solver.
    + rewrite app_nil_r. destruct (last new) as [x|] eqn:Ex; [right|by left]. exists x.
      apply last_Some in Ex as [new0 ->]. split; [done|].
      apply Forall_app in Hnew as [_ Hx]. apply Forall_cons in Hx as [Hx _].
      split; [rewrite El; set_solver | exact Hx].
  - rewrite length_app in Hf. cbn in Hf. destruct fuel as [|fuel]; [lia|].
    rewrite app_assoc in *. rewrite last_snoc. cbn [check_loop].
    destruct (nameservers s) as [|n0 l0] eqn:En; [by destruct (wf_up _ _ Hw)|].
    assert (Hin : h ∈ lru_list s) by (rewrite El; set_solver).
    destruct (proj2 (wf_dom _ _ Hw h) ltac:(exact Hin)) as [q Hq].
    destruct (expired (sent_t q) (current_time s) (interval idns_retransmit s q)) eqn:Hx.
    + assert (Hd : NoDup ((new ++ l) ++ [h])) by (rewrite <- El; exact (wf_nodup _ _ Hw)).
      assert (Hnin : h ∉ new ++ l) by (apply NoDup_app in Hd as (_ & Hd & _); intros Hh; apply (Hd h Hh); by left).
      destruct (check_entry h q (new ++ l) s hist Hw El Hq Hx)
        as (s1 & t1 & pre & E1 & Hw1 & Hc1 & El1 & Hpre & Ec1 & Ens1 & Hsame & Hh & Hpre2).
      assert (Hnew1 : Forall (fun x => sent_of s1 x = current_time s1) (pre ++ new)).
      { apply Forall_app. split; [exact Hpre|]. rewrite Forall_forall in Hnew |- *. intros x Hxn.
        unfold sent_of. rewrite Hsame by set_solver. rewrite Ec1. by apply Hnew. }
      assert (Hloop : exists s' t new' l1 l2,
        check_loop env idns_retransmit idns_query_timeout fuel (last (new ++ l)) s1 (hist ++ t1) = ((), s', t) /\
        wf_with [] s' /\ conserves (store s1) (store s') t /\ current_time s' = current_time s1 /\
        l = l1 ++ l2 /\ lru_list s' = new' ++ l1 /\
        (forall x, x ∉ l2 -> store s' !! x = store s1 !! x) /\
        (l1 = [] \/ exists h q, last l1 = Some h /\ store s1 !! h = Some q /\
           expired (sent_t q) (current_time s1) (interval idns_retransmit s1 q) = false) /\
        (forall h q, h ∈ l2 -> store s1 !! h = Some q -> handled s1 s' t h q)).
      { destruct (IH fuel (pre ++ new) s1 (hist ++ t1) Hw1) as (s' & t & new' & l1 & l2 & E & Hr);
          [by rewrite El1, app_assoc | exact Hnew1 | lia|].
        rewrite <- app_assoc in E. exists s', t, new', l1, l2. split; [|exact Hr].
        destruct (last (new ++ l)) as [y|] eqn:Ey.
        - rewrite last_app, Ey in E. exact E.
        - apply last_None in Ey. apply app_nil in Ey as [-> ->]. rewrite app_nil_r in E.
          rewrite check_loop_stop in E; [|exact Hw1|].
          + rewrite check_loop_stop; [exact E | exact Hw1 | by left].
          + destruct Hpre2 as [->| ->]; [by left|]. right. exists h. split; [done|].
            split; [rewrite El1; set_solver|]. by apply Forall_cons in Hpre as [? _]. }
      destruct Hloop as (s' & t & new' & l1 & l2 & E & Hw' & Hc & Ec & El2 & Elr & Hsame2 & Hstop & Hall).
      assert (Hl2 : h ∉ l2) by (rewrite El2 in Hnin; set_solver).
      exists s', (t1 ++ t), new', l1, (l2 ++ [h]). split.
      { apply seq_get. rewrite En, Hq, Hx. cbn [negb].
        rewrite El, prev_of_last by done.
        replace (match last (new ++ l) with Some x => Some x | None => None end) with (last (new ++ l))
          by (by destruct (last (new ++ l))).
        apply seq_assoc. eapply seq_run; [exact E1 | exact E]. }
      split; [exact Hw'|]. split; [by eapply conserves_trans|]. split; [by rewrite Ec|].
      split; [by rewrite El2, app_assoc|]. split; [exact Elr|].
      split; [intros x Hx2; rewrite Hsame2, Hsame by set_solver; done|]. split.
      * destruct Hstop as [->|(x & qx & Hlast & Hqx & Hxx)]; [by left|]. right. exists x, qx.
        assert (Hxl : x ∈ l1) by (by apply last_Some_elem_of).
        rewrite Hsame in Hqx by set_solver. split; [done|]. split; [done|].
        rewrite Ec1 in Hxx. unfold interval in *. by rewrite Ens1 in Hxx.
      * intros x qx [Hxl|Hxl%list_elem_of_singleton]%elem_of_app Hqx; [|subst x].
        -- apply (handled_earlier s s1); [exact Ec1|]. apply Hall; [exact Hxl|]. rewrite Hsame; [exact Hqx | set_solver].
        -- rewrite Hq in Hqx. injection Hqx as <-. apply handled_later with s1; [exact Hh|]. by apply Hsame2.
    + exists s, [], new, (l ++ [h]), []. split; [prog_simpl; rewrite En, Hq, Hx; reflexivity|].
      split; [exact Hw|]. split; [apply conserves_refl|]. split; [done|]. split; [by rewrite app_nil_r|].
      split; [by rewrite app_assoc|]. split; [done|]. split; [|set_solver]. right. exists h, q.
      split; [by apply last_snoc | done].
Qed.

Lemma StronglySorted_prefix (R : nat -> nat -> Prop) l1 l2 : StronglySorted R (l1 ++ l2) -> StronglySorted R l1.
Proof.
  induction l1 as [|x l1 IH]; intros H; [constructor|]. cbn in H. inversion H as [|? ? Hs Hx]; subst.
  constructor; [by apply IH|]. by apply Forall_app in Hx as [? _].
Qed.

Lemma StronglySorted_last (R : nat -> nat -> Prop) l y h :
  StronglySorted R (l ++ [y]) -> h ∈ l ++ [y] -> h = y \/ R h y.
Proof.
  induction l as [|x l IH]; intros Hs Hh; cbn in *.
  - left. by apply list_elem_of_singleton in Hh.
  - inversion Hs as [|? ? Hs' Hx]; subst. apply elem_of_cons in Hh as [->|Hh]; [right|by apply IH].
    rewrite Forall_forall in Hx. apply Hx. set_solver.
Qed.

(** The time by which a query has ended, unless a server failure restarts it. *)
Definition deadline (q : idns_query) : Z :=
  start_t q + (idns_query_timeout + 4 * max_interval) * 1000000.

Lemma interval_bound s q : query_ok s q -> interval idns_retransmit s q <= 4 * max_interval.
Proof.
  intros Hok. pose proof (ok_interval _ _ Hok). pose proof (ok_attempt _ _ Hok). unfold MAX_ATTEMPT in *.
  assert (2 ^ attempt q <= 2 ^ 2) by (apply Z.pow_le_mono_r; lia). unfold max_interval in *. nia.
Qed.

(** An entry behind one that is past its deadline is due. *)
Lemma past_deadline_due s h q y qy :
  wf_with [] s -> h ∈ lru_list s -> store s !! h = Some q -> deadline q <= current_time s ->
  y ∈ lru_list s -> store s !! y = Some qy -> h = y \/ sent_of s y <= sent_of s h ->
  expired (sent_t qy) (current_time s) (interval idns_retransmit s qy) = true.
Proof.
  intros Hw Hh Hq Hd Hy Hqy Hord. pose proof (wf_query _ _ Hw h q Hh Hq) as Hok.
  pose proof (wf_query _ _ Hw y qy Hy Hqy) as Hoky.
  assert (Hs : sent_t qy <= sent_t q).
  { destruct Hord as [->|Hord]; [rewrite Hq in Hqy; injection Hqy as <-; lia|].
    unfold sent_of in Hord. by rewrite Hq, Hqy in Hord. }
  pose proof (interval_bound s qy Hoky). pose proof (ok_window _ _ Hok). unfold deadline in Hd.
  unfold expired. rewrite (proj2 (Z.ltb_ge _ _)) by lia. done.
Qed.

Lemma check_queue_spec s hist :
  wf s -> exists s' t,
    idnsCheckQueue env idns_retransmit idns_query_timeout s hist = ((), s', t) /\
    wf s' /\ conserves (store s) (store s') t /\ current_time s' = current_time s /\
    (forall h q, store s !! h = Some q -> deadline q <= current_time s ->
       store s' !! h = None /\
       exists n e t1 t2 t3, t = t1 ++ t2 ++ t3 /\ n < 0 /\ (is_Some e \/ qrcode q <> 0) /\
         delivered [] n e (waiting q) t2).
Proof.
  intros [Hw _]. set (s0 := set_queued false s).
  assert (Hw0 : wf_with [] s0) by (by apply wf_queued).
  destruct (check_loop_queue (2 * length (lru_list s0)) (lru_list s0) [] s0 (hist ++ []) Hw0 eq_refl)
    as (s1 & t & new' & l1 & l2 & E & Hw1 & Hc & Ec & El & Elr & Hsame & Hstop & Hall);
    [constructor | lia |].
  assert (Ht : exists t2 s2, idnsTickleQueue s1 (hist ++ [] ++ t) = ((), s2, t2) /\ silent t2 /\
             wf s2 /\ store s2 = store s1 /\ current_time s2 = current_time s1).
  { destruct (lru_list s1) as [|x l] eqn:El1.
    - exists [], s1. unfold idnsTickleQueue. prog_simpl. rewrite El1.
      split; [by destruct (event_queued s1)|]. split; [silent_tac|]. split; [|done].
      split; [exact Hw1 | by rewrite El1].
    - destruct (tickle_spec s1 (hist ++ [] ++ t) x l El1) as (t2 & Et2 & Hst). exists t2, (set_queued true s1).
      split; [exact Et2|]. split; [exact Hst|]. split; [|done]. by split; [apply wf_queued|]. }
  destruct Ht as (t2 & s2 & Et2 & Hst & Hw2 & Es2 & Ec2).
  exists s2, (t ++ t2). split; [|split; [exact Hw2|split; [|split; [by rewrite Ec2, Ec|]]]].
  - unfold idnsCheckQueue. change (t ++ t2) with ([] ++ (t ++ t2)).
    eapply seq_run; [reflexivity|]. fold s0. apply seq_get. cbn [app] in E. eapply seq_run; [exact E|].
    by rewrite <- app_assoc.
  - rewrite Es2. eapply conserves_trans; [exact Hc|]. by apply conserves_silent.
  - intros h q Hq Hd. change (store s) with (store s0) in Hq.
    assert (Hin : h ∈ lru_list s0) by (apply (wf_dom _ _ Hw0 h); by eexists).
    assert (Hh2 : h ∈ l2).
    { rewrite El in Hin. apply elem_of_app in Hin as [Hin|Hin]; [exfalso|exact Hin].
      destruct Hstop as [->|(y & qy & Hlast & Hqy & Hx)]; [set_solver|].
      apply last_Some in Hlast as [l0 ->].
      assert (Hs : StronglySorted (fun a b => sent_of s0 b <= sent_of s0 a) (l0 ++ [y])).
      { apply (StronglySorted_prefix _ _ l2). rewrite <- El. apply (wf_sorted _ _ Hw0). }
      rewrite (past_deadline_due s0 h q y qy) in Hx; try done.
      - rewrite El. set_solver.
      - rewrite El. set_solver.
      - exact (StronglySorted_last _ l0 y h Hs Hin). }
    destruct (Hall h q Hh2 Hq) as [n' He _|n e u1 u2 u3 He Hs -> Hn Hr Hdel].
    + exfalso. unfold expired in He. apply negb_false_iff, Z.ltb_lt in He. unfold deadline in Hd.
      assert (0 < max_interval) by (unfold max_interval; lia). change (current_time s) with (current_time s0) in Hd. lia.
    + rewrite Es2. split; [exact Hs|]. exists n, e, u1, u2, (u3 ++ t2).
      rewrite <- !app_assoc. by repeat split.
Qed.

(** *** What a reply does *)

Definition reply_error (u : unpacked) : option (list Z) :=
  if ret u <? 0 then rfc1035_error_message u else None.

(** A server failure that the code asks about again. *)
Definition retried (u : unpacked) (q : idns_query) : bool :=
  (ret u =? -2) && (attempt q + 1 <? MAX_ATTEMPT).

Lemma rcode_count_store n a s : store (idnsRcodeCount n a s) = store s.
Proof. unfold idnsRcodeCount. by destruct (_ && _). Qed.

Lemma grok_answer_ends h q u answers s hist :
  store s !! h = Some q -> retried u q = false ->
  exists s' t, grok_answer env h q u answers s hist = ((), s', t) /\ store s' = delete h (store s) /\
    delivered answers (ret u) (reply_error u) (waiting q) t.
Proof.
  intros Hq Hr. unfold grok_answer, reply_error. prog_simpl.
  set (s2 := idnsRcodeCount (ret u) (attempt q) (dlinkDelete h s)).
  assert (Es : store s2 = store s) by (unfold s2; by rewrite rcode_count_store).
  assert (Hend : forall q' n e hist, waiting q' = waiting q ->
    exists s' t, idnsCallback env h answers n e (set_query h q' s2) hist = ((), s', t) /\
      store s' = delete h (store s) /\ delivered answers n e (waiting q) t).
  { intros q' n e hist' Hwq. destruct (callback_spec env h q' answers n e (set_query h q' s2) hist') as (t & E & Ht);
      [apply lookup_insert_eq|].
    do 2 eexists. split; [exact E|]. rewrite Hwq in Ht. split; [|exact Ht]. cbn.
    by rewrite Es, delete_insert_eq. }
  assert (Hf : (- ret u =? 2) && (attempt q + 1 <? MAX_ATTEMPT) = false).
  { unfold retried in Hr. destruct (Z.eqb_spec (- ret u) 2), (Z.eqb_spec (ret u) (-2)); try lia; done. }
  destruct (ret u <? 0).
  - cbn [attempt set_failed].
    replace (_ && _) with false
      by (destruct (- ret u =? 2); [cbn [andb] in *; by rewrite Hf | done]).
    match goal with |- context [idnsCallback env h answers _ ?e (set_query h ?q' s2) ?hh] =>
      destruct (Hend q' (ret u) e hh) as (s' & t & -> & H); [by destruct (_ =? 2)|] end.
    by exists s', t.
  - match goal with |- context [idnsCallback env h answers _ ?e (set_query h ?q' s2) ?hh] =>
      destruct (Hend q' (ret u) e hh eq_refl) as (s' & t & -> & H) end.
    by exists s', t.
Qed.

Lemma grok_answer_asks_again h q u answers s hist :
  wf s -> h ∈ lru_list s -> store s !! h = Some q -> retried u q = true ->
  exists s' t q', grok_answer env h q u answers s hist = ((), s', t) /\ silent t /\
    store s' = <[h := q']> (store s) /\ head (lru_list s') = Some h /\
    question q' = question q /\ waiting q' = waiting q /\ attempt q' = attempt q + 1 /\
    start_t q' = current_time s /\ nsends q < nsends q' /\ qrcode q' = 2.
Proof.
  intros [Hw Hq0] Hin Hq Hr. pose proof (wf_query _ _ Hw h q Hin Hq) as Hok.
  unfold retried in Hr. apply andb_true_iff in Hr as [Hr Ha]. btoprop.
  destruct (wf_unlink s h q Hw Hin Hq) as [Hw1 _].
  set (s1 := dlinkDelete h s) in *. unfold grok_answer. prog_simpl. fold s1.
  set (s2 := idnsRcodeCount (ret u) (attempt q) s1).
  assert (H2 : store s2 = store s /\ current_time s2 = current_time s /\ lru_list s2 = lru_list s1 /\
               nameservers s2 = nameservers s /\ DnsSocket s2 = DnsSocket s).
  { unfold s2, idnsRcodeCount. by destruct (_ && _). }
  destruct H2 as (Est & Ect & Elru & Ens & Esock).
  rewrite (proj2 (Z.ltb_lt (ret u) 0)), (proj2 (Z.eqb_eq (- ret u) 2)) by lia. cbn [andb attempt set_failed].
  rewrite (proj2 (Z.ltb_lt _ MAX_ATTEMPT)) by done.
  match goal with |- context [idnsQueryID env ?s3 ?hh] =>
    destruct (query_id_fresh env s3 hh) as (id & -> & _) end.
  { cbn. rewrite Elru. pose proof (Permutation_length (filter_neq_perm h (lru_list s) (wf_nodup _ _ Hw) Hin)) as Hp.
    cbn in Hp |- *. pose proof (wf_length s Hw). lia. }
  match goal with |- context [idnsSendQuery env h ?s4 ?hh] =>
    destruct (send_query_spec env h s4 _ hh (lookup_insert_eq _ _ _)) as (n' & l & t & -> & _ & Hst & Hn') end.
  - cbn. rewrite Esock. apply (wf_up _ _ Hw).
  - cbn. rewrite Ens. by eapply nns_pos.
  - cbn. pose proof (ok_sends _ _ Hok). lia.
  - do 3 eexists. split; [reflexivity|]. split; [apply (silent_app [Random]); [silent_tac | exact Hst]|].
    split; [cbn; rewrite !insert_insert_eq, Est; reflexivity|]. cbn in Hn' |- *.
    repeat (split; [done|]). split; lia.
Qed.

(** ** Runs *)

Inductive op :=
| Lookup (ls : list (list Z)) (k : nat) (c : client)  (** of the name [hostname ls k] *)
| LookupPTR (addr : Z) (c : client)
| Packets (pkts : list datagram)
| Check
| Clock (micros : Z).

Definition step (o : op) : prog resolver event unit :=
  match o with
  | Lookup ls k c => idnsALookup env (hostname ls k) c
  | LookupPTR addr c => idnsPTRLookup env addr c
  | Packets pkts => idnsRead env ignore_unknown pkts
  | Check => idnsCheckQueue env idns_retransmit idns_query_timeout
  | Clock d => modify (fun s => set_clock (current_time s + d) s)
  end.

Definition op_ok (s : resolver) (o : op) : Prop :=
  match o with
  | Lookup ls k _ => Forall label_ok ls /\ strlen (hostname ls k) < 255 /\ Z.of_nat (length (lru_list s)) < 65536
  | LookupPTR _ _ => Z.of_nat (length (lru_list s)) < 65536
  | Packets pkts => Forall packet_ok pkts
  | Check => True
  | Clock d => 0 <= d
  end.

Definition asked (o : op) : list client :=
  match o with Lookup _ _ c | LookupPTR _ c => [c] | _ => [] end.

(** A run of operations, each allowed in the state it starts from, up to the one in which an
    assertion fails. *)
Inductive run : resolver -> list event -> list op -> resolver -> list event -> Prop :=
| run_nil s hist : run s hist [] s []
| run_cons s hist o ops s1 t1 s2 t2 :
    op_ok s o -> step o s hist = ((), s1, t1) -> Fatal ∉ t1 -> run s1 (hist ++ t1) ops s2 t2 ->
    run s hist (o :: ops) s2 (t1 ++ t2)
| run_abort s hist o ops s1 t1 :
    op_ok s o -> step o s hist = ((), s1, t1) -> Fatal ∈ t1 -> run s hist (o :: ops) s1 t1.

(** The datagrams of a run. *)
Definition received (ops : list op) : list datagram := concat (map (fun o => match o with Packets pkts => pkts | _ => [] end) ops).

Lemma build_hostname ls k type i :
  Forall label_ok ls -> strlen (hostname ls k) < 255 -> 0 <= type < 65536 -> 0 <= i < 65536 ->
  exists b qn, build_query (hostname ls k) type 512 i = Done (b, qn) /\ take 2 b = htons i.
Proof.
  intros Hls Hn Ht Hi. destruct (build_query_ok ls k type 512 i Hls Hn Ht Hi) as (b & qn & Hb & _).
  { rewrite strlen_wire. pose proof (dotted_len _ _ Hn). lia. }
  exists b, qn. split; [exact Hb|]. apply build_query_id in Hb. by rewrite (wrapu_small 16 i) in Hb.
Qed.

Lemma step_good o s hist :
  wf s -> op_ok s o ->
  let r := step o s hist in
  (wf r.1.2 /\ conserves (store s) (store r.1.2) r.2 /\
   (forall c, c ∈ asked o -> c ∈ pending (store r.1.2) ++ released r.2))
  \/ Fatal ∈ r.2 /\ exists p, p ∈ received [o] /\ aborting p.
Proof.
  intros Hw Ho. destruct o as [ls k c|addr c|pkts| |d]; cbn [step asked].
  - left. destruct Ho as (Hls & Hn & Hl).
    destruct (lookup_good (hostname ls k) (rfc1035BuildAQuery (hostname ls k) 512) c s hist Hw Hl) as [(A & B & _) C].
    { intros i Hi. by apply build_hostname. }
    split; [exact A|]. split; [exact B|]. intros c' Hc'. destruct B as [B _]. unfold idnsALookup.
    rewrite B, C. set_solver.
  - left. destruct (ptr_name_labels addr) as (Ep & Hls & Hn).
    destruct (lookup_good (inet_ntoa addr) (rfc1035BuildPTRQuery addr 512) c s hist Hw Ho) as [(A & B & _) C].
    { intros i Hi. unfold rfc1035BuildPTRQuery. rewrite Ep. by apply build_hostname. }
    split; [exact A|]. split; [exact B|]. intros c' Hc'. destruct B as [B _]. unfold idnsPTRLookup.
    rewrite B, C. set_solver.
  - destruct (read_good pkts s hist Ho Hw) as [(A & B & _)|H]; [left | right].
    + split; [exact A|]. split; [exact B | set_solver].
    + unfold received. cbn [map concat]. by rewrite app_nil_r.
  - left. destruct (check_queue_spec s hist Hw) as (s' & t & -> & A & B & _). split; [exact A|]. split; [exact B | set_solver].
  - left. destruct Hw as [Hw Hq]. cbn. split; [split; [apply wf_clock; [cbn in Ho; lia | exact Hw] | exact Hq]|].
    split; [apply conserves_refl | set_solver].
Qed.

Lemma step_unit o s hist : exists s' t, step o s hist = ((), s', t).
Proof. destruct (step o s hist) as [[[] s'] t]. by exists s', t. Qed.

Lemma run_good s hist ops s' t :
  run s hist ops s' t -> wf s ->
  (Fatal ∉ t -> wf s' /\ conserves (store s) (store s') t) /\ (Fatal ∈ t -> exists p, p ∈ received ops /\ aborting p).
Proof.
  induction 1 as [|s hist o ops s1 t1 s2 t2 Ho Es Hn _ IH|s hist o ops s1 t1 Ho Es Hf]; intros Hw.
  - split; [by split; [|apply conserves_refl] | by intros ?%not_elem_of_nil].
  - pose proof (step_good o s hist Hw Ho) as Hg. rewrite Es in Hg. destruct Hg as [(Hw1 & Hc1 & _)|[? _]]; [|done].
    destruct (IH Hw1) as [IH1 IH2]. cbn [fst snd] in *. split.
    + intros [_ Hn2]%not_elem_of_app. destruct (IH1 Hn2) as [Hw2 Hc2]. split; [exact Hw2 | by eapply conserves_trans].
    + intros [?|Hf]%elem_of_app; [done|]. destruct (IH2 Hf) as (p & Hp & Ha). exists p. split; [|exact Ha].
      unfold received. cbn [map concat]. apply elem_of_app. by right.
  - split; [done|]. intros _. pose proof (step_good o s hist Hw Ho) as Hg. rewrite Es in Hg.
    destruct Hg as [(_ & [_ Hn] & _)|[_ (p & Hp & Ha)]]; [done|]. exists p. split; [|exact Ha].
    unfold received in *. cbn [map concat] in *. apply elem_of_app. left. by rewrite app_nil_r in Hp.
Qed.

Lemma omap_inj {A} (f : A -> option Z) (l : list A) (x y : A) (i : Z) :
  NoDup (omap f l) -> x ∈ l -> y ∈ l -> f x = Some i -> f y = Some i -> x = y.
Proof.
  intros Hd Hx Hy Fx Fy. induction l as [|a l IH]; [by apply not_elem_of_nil in Hx|].
  assert (Hin : forall z, z ∈ l -> f z = Some i -> i ∈ omap f l)
    by (intros z Hz Fz; apply list_elem_of_omap; eauto).
  apply elem_of_cons in Hx, Hy. cbn in Hd. destruct Hx as [->|Hx], Hy as [->|Hy]; [done | | |].
  - rewrite Fx in Hd. apply NoDup_cons in Hd as [Hd _]. destruct Hd. by apply (Hin y).
  - rewrite Fy in Hd. apply NoDup_cons in Hd as [Hd _]. destruct Hd. by apply (Hin x).
  - apply IH; try done. destruct (f a); [by apply NoDup_cons in Hd as [_ ?] | exact Hd].
Qed.

Lemma find_query_unique s h q :
  wf_with [] s -> h ∈ lru_list s -> store s !! h = Some q -> idnsFindQuery s (qid q) = Some h.
Proof.
  intros Hw Hin Hq. destruct (idnsFindQuery s (qid q)) as [h'|] eqn:E.
  - apply find_query_Some in E as (Hin' & q' & Hq' & Hid). f_equal.
    apply (omap_inj (fun h => qid <$> store s !! h) (lru_list s) h' h (qid q));
      [exact (wf_ids _ _ Hw) | done | done | by rewrite Hq', <- Hid | by rewrite Hq].
  - apply find_query_None in E. destruct E. apply ids_elem. eauto.
Qed.

(** The static variables before the first [idnsInit]. *)
Definition unopened : resolver := Resolver 0 (-1) ∅ 0 [] [] [] false ∅.

Lemma init_wf fd conf file s :
  idnsInit fd conf file unopened = Some s -> wf s.
Proof.
  unfold idnsInit. cbn [DnsSocket unopened]. destruct (Z.ltb_spec (-1) 0); [|lia].
  destruct (Z.ltb_spec fd 0); [done|]. cbn [negb nameservers unopened length Nat.eqb].
  intros [= <-]. split; [|done]. split; cbn.
  - constructor.
  - intros h. rewrite lookup_empty. split; [by intros [? ?] | set_solver].
  - done.
  - set_solver.
  - set_solver.
  - constructor.
  - constructor.
  - split; [done|]. match goal with |- (if (length ?l =? 0)%nat then _ else _) <> [] => generalize l end.
    intros l. destruct (Nat.eqb_spec (length l) 0) as [E|E].
    + change (idnsAddNameserver l (bytes "127.0.0.1")) with (l ++ [Ns 2130706433 53 0 0]). by destruct l.
    + intros ->. done.
Qed.

(** ** The component's properties *)


(** C21: no lookup waits for ever.  In any state that agrees with itself, with the socket
    open and name servers configured: when the queue is checked after the deadline of
    a query, which is its start plus the query timeout and four times the
    longest interval, the query is gone and each of its clients has been
    released in order, those still valid being called with an error; and while
    a query waits a check is scheduled. *)
Theorem dns_liveness (s : resolver) (hist : list event) (h : nat) (q : idns_query) :
  wf s -> store s !! h = Some q -> deadline q <= current_time s ->
  event_queued s = true /\
  exists s' t1 t2 t3 n e, step Check s hist = ((), s', t1 ++ t2 ++ t3) /\ wf s' /\
    store s' !! h = None /\ n < 0 /\ (is_Some e \/ qrcode q <> 0) /\ delivered [] n e (waiting q) t2.
Proof.
  intros Hw Hq Hd. split.
  { apply (proj2 Hw). assert (Hin : h ∈ lru_list s) by (apply (wf_dom _ _ (proj1 Hw) h); by eexists).
    by apply (lru_unlink s h). }
  destruct (check_queue_spec s hist Hw) as (s' & t & E & A & _ & _ & B).
  destruct (B h q Hq Hd) as (Hn & n & e & t1 & t2 & t3 & -> & H1 & H2 & H3).
  exists s', t1, t2, t3, n, e. done.
Qed.

(** C34: a reply counts only for the query in the queue with its identifier whose
    question compares equal, and there is at most one; any other reply changes
    nothing.  The query it counts for is removed and each of its clients
    released with the reply's records, or with the reply's error; only a server
    failure at the first or second attempt sends the query again, with the same
    clients and question. *)
Theorem dns_reply_correct (s : resolver) (hist : list event) (data : list Z) (sz : Z)
    (u : unpacked) (m : rfc1035_message) (mq : rfc1035_query) :
  wf s -> rfc1035MessageUnpack data sz = Done u -> msg u = Some m -> query m = [mq] ->
  ((forall h q, store s !! h = Some q -> qid q = Rfc1035.id (hdr m) ->
      rfc1035QueryCompare (question q) mq <> 0) ->
   idnsGrokReply env data sz s hist = ((), s, [])) /\
  (forall h q, store s !! h = Some q -> qid q = Rfc1035.id (hdr m) ->
     rfc1035QueryCompare (question q) mq = 0 ->
     exists s' t, idnsGrokReply env data sz s hist = ((), s', t) /\
       if retried u q then
         silent t /\ exists q', store s' = <[h := q']> (store s) /\ head (lru_list s') = Some h /\
           question q' = question q /\ waiting q' = waiting q /\ attempt q' = attempt q + 1 /\
           start_t q' = current_time s /\ nsends q < nsends q' /\ qrcode q' = 2
       else store s' = delete h (store s) /\ delivered (answer m) (ret u) (reply_error u) (waiting q) t).
Proof.
  intros Hw Hu Hm Hq. split.
  - intros Hno. unfold idnsGrokReply. rewrite Hu, Hm. prog_simpl. rewrite Hq.
    destruct (idnsFindQuery _ _) as [h|] eqn:Ef; [|done].
    destruct (find_query_Some _ _ _ Ef) as (Hin & q & Hs & Hid). rewrite Hs.
    rewrite (proj2 (Z.eqb_neq _ _)) by (by apply (Hno h)). done.
  - intros h q Hs Hid Hc. assert (Hin : h ∈ lru_list s) by (apply (wf_dom _ _ (proj1 Hw) h); by eexists).
    unfold idnsGrokReply. rewrite Hu, Hm. prog_simpl. rewrite Hq, <- Hid.
    rewrite (find_query_unique s h q (proj1 Hw) Hin Hs), Hs, Hc. cbn [negb Z.eqb].
    match goal with |- context [grok_answer env h q u (answer m) s ?hh] => set (hist' := hh) end.
    destruct (retried u q) eqn:Hr.
    + destruct (grok_answer_asks_again h q u (answer m) s hist' Hw Hin Hs Hr) as (s' & t & q' & -> & Hst & H).
      exists s', t. split; [done|]. split; [exact Hst|]. by exists q'.
    + destruct (grok_answer_ends h q u (answer m) s hist' Hs Hr) as (s' & t & -> & H). by exists s', t.
Qed.
End Invariant.

(** ** A run *)

Definition resolver0 : resolver :=
  default unopened (idnsInit 5 [bytes "10.0.0.1"; bytes "10.0.0.2"] None unopened).

Lemma resolver0_wf : wf 5 120 resolver0.
Proof. apply (init_wf 5 120 ltac:(done) ltac:(done) 5 [bytes "10.0.0.1"; bytes "10.0.0.2"] None). vm_compute. reflexivity. Qed.

(** Every datagram is taken, the random numbers are 4660, the data stay valid. *)
Definition env0 (h : list event) : Z := 4660.

Definition alice : client := Client 1 10.
Definition bob : client := Client 2 20.
Definition www : list (list Z) := [bytes "www"; bytes "my-box"; bytes "net"].

(** Two lookups of a name share a query. *)
Definition ops0 : list op := [Lookup www 0 alice; Lookup www 0 bob].

Definition step0 (o : op) (s : resolver) (h : list event) : resolver * list event :=
  let r := step env0 5 120 true o s h in (r.1.2, r.2).

Lemma step0_run o s h s' t : step0 o s h = (s', t) -> step env0 5 120 true o s h = ((), s', t).
Proof. unfold step0. destruct (step env0 5 120 true o s h) as [[[] a] b]. by intros [= -> ->]. Qed.

Definition state1 : resolver * list event :=
  let '(s1, t1) := step0 (Lookup www 0 alice) resolver0 [] in
  let '(s2, t2) := step0 (Lookup www 0 bob) s1 t1 in (s2, t1 ++ t2)%list.

Lemma www_ok : Forall label_ok www /\ strlen (hostname www 0) < 255.
Proof.
  split; [|done]. repeat constructor; try (vm_compute; congruence); unfold RFC1035_MAXLABELSZ; try (vm_compute; lia).
Qed.

Lemma silent_steps o s h s' t :
  step0 o s h = (s', t) -> existsb (fun e => match e with Fatal => true | _ => false end) (step0 o s h).2 = false -> Fatal ∉ t.
Proof. intros -> H Hin. cbn [snd] in H. assert (E : existsb (fun e => match e with Fatal => true | _ => false end) t = true); [|congruence].
  apply existsb_exists. exists Fatal. split; [by apply list_elem_of_In | done].
Qed.

Lemma ops0_run : run env0 5 120 true resolver0 [] ops0 state1.1 state1.2.
Proof.
  destruct www_ok as [H1 H2]. destruct (step0 (Lookup www 0 alice) resolver0 []) as [s1 t1] eqn:E1.
  assert (E1' : step env0 5 120 true (Lookup www 0 alice) resolver0 [] = ((), s1, t1)).
  { by apply step0_run. }
  destruct (step0 (Lookup www 0 bob) s1 t1) as [s2 t2] eqn:E2.
  assert (E2' : step env0 5 120 true (Lookup www 0 bob) s1 t1 = ((), s2, t2)).
  { by apply step0_run. }
  assert (Es : state1 = (s2, t1 ++ t2)%list) by (unfold state1; by rewrite E1, E2).
  rewrite Es. cbn [fst snd]. unfold ops0.
  eapply run_cons; [|exact E1'| |].
  - split; [exact H1 | split; [exact H2 | done]].
  - apply (silent_steps (Lookup www 0 alice) resolver0 [] s1 t1 E1). vm_compute. reflexivity.
  - rewrite <- (app_nil_r t2). eapply run_cons; [|exact E2' | | constructor].
    2: { assert (Hs : (s1, t1) = step0 (Lookup www 0 alice) resolver0 []) by done. injection Hs as -> ->.
         apply (silent_steps _ _ _ _ _ E2). vm_compute. reflexivity. }
    split; [exact H1 | split; [exact H2|]].
    assert (El : length (lru_list s1) = 1%nat) by (change s1 with (s1, t1).1; rewrite <- E1; vm_compute; reflexivity).
    cbn [op_ok]. rewrite El. done.
Qed.


Lemma state1_alive : Fatal ∉ state1.2.
Proof.
  intros Hin. assert (E : existsb (fun e => match e with Fatal => true | _ => false end) state1.2 = true); [|vm_compute in E; discriminate].
  apply existsb_exists. exists Fatal. split; [by apply list_elem_of_In | done].
Qed.

Lemma state1_wf : wf 5 120 state1.1.
Proof. exact (proj1 (proj1 (run_good env0 5 120 true ltac:(done) ltac:(done) _ _ _ _ _ ops0_run resolver0_wf) state1_alive)). Qed.

(** A reply of twelve bytes stops the proxy. *)
Example header_datagram_aborts :
  let p := Datagram 167772161 53 (replicate 4 0 ++ [0; 1] ++ replicate 506 0) 12 in
  existsb (fun e => match e with Fatal => true | _ => false end) (step0 (Packets [p]) resolver0 []).2 = true /\ aborting p.
Proof. split; [vm_compute; reflexivity | by left]. Qed.

Definition query1 : idns_query := default (IdnsQuery (Query [] 0 0) [] 0 0 0 0 [] 0 None 0) (store state1.1 !! 0%nat).

Lemma state1_query : store state1.1 !! 0%nat = Some query1 /\ waiting query1 = [alice; bob] /\ qid query1 = 4660.
Proof. split; [vm_compute; reflexivity | split; vm_compute; reflexivity]. Qed.

(** The same, a quarter of an hour and more later. *)
Definition state2 : resolver := set_clock 2000000000 state1.1.

Lemma state2_wf : wf 5 120 state2.
Proof.
  destruct state1_wf as [H1 H2]. split; [|exact H2]. apply wf_clock; [vm_compute; congruence | exact H1].
Qed.

Lemma dns_liveness_witness :
  deadline 5 120 query1 <= current_time state2 /\
  exists s' t1 t2 t3 n e, step env0 5 120 true Check state2 [] = ((), s', t1 ++ t2 ++ t3)%list /\ n < 0 /\
    delivered [] n e [alice; bob] t2 /\ store s' !! 0%nat = None.
Proof.
  destruct state1_query as (Hq & Hw & _).
  assert (Hd : deadline 5 120 query1 <= current_time state2) by (vm_compute; congruence).
  split; [exact Hd|].
  destruct (dns_liveness env0 5 120 true ltac:(done) ltac:(done) state2 [] 0%nat query1 state2_wf Hq Hd)
    as (_ & s' & t1 & t2 & t3 & n & e & E & _ & Hn & Hneg & _ & Hdel).
  rewrite Hw in Hdel. exists s', t1, t2, t3, n, e.
  split; [exact E | split; [exact Hneg | split; [exact Hdel | exact Hn]]].
Defined.

(** A reply with one address. *)
Definition www_reply (rcode : Z) : list Z :=
  htons 4660 ++ [129; 128 + rcode; 0; 1; 0; 1; 0; 0; 0; 0] ++ wire www ++ [0; 0; 1; 0; 1]
  ++ [192; 12; 0; 1; 0; 1; 0; 0; 0; 60; 0; 4; 10; 0; 0; 1; 0].

Definition www_unpacked (rcode : Z) : unpacked :=
  match rfc1035MessageUnpack (www_reply rcode) (strlen (www_reply rcode) - 1) with
  | Done u => u
  | _ => Unpacked 0 None 0 None
  end.

Definition www_rr : rfc1035_rr := RR (joined www) 1 1 60 4 [10; 0; 0; 1].

Lemma www_reply_unpacked :
  rfc1035MessageUnpack (www_reply 0) (strlen (www_reply 0) - 1) = Done (www_unpacked 0) /\
  exists m, msg (www_unpacked 0) = Some m /\ query m = [Query (joined www) 1 1] /\ Rfc1035.id (hdr m) = 4660 /\
    answer m = [www_rr].
Proof. split; [vm_compute; reflexivity|]. eexists. split; [vm_compute; reflexivity | by repeat split]. Qed.

Lemma dns_reply_correct_witness :
  exists s' t, idnsGrokReply env0 (www_reply 0) (strlen (www_reply 0) - 1) state1.1 [] = ((), s', t) /\
    delivered [www_rr] 1 None [alice; bob] t.
Proof.
  destruct www_reply_unpacked as (Hu & m & Hm & Hq & Hid & Ha). destruct state1_query as (Hs & Hw & Hi).
  destruct (dns_reply_correct env0 5 120 ltac:(done) ltac:(done) state1.1 [] _ _ _ m _ state1_wf Hu Hm Hq) as [_ H].
  destruct (H 0%nat query1 Hs) as (s' & t & E & Hr); [by rewrite Hi, Hid | vm_compute; reflexivity|].
  exists s', t. split; [exact E|]. change (retried (www_unpacked 0) query1) with false in Hr.
  destruct Hr as [_ Hr]. rewrite Ha, Hw in Hr.
  change (ret (www_unpacked 0)) with 1 in Hr. change (reply_error (www_unpacked 0)) with (@None (list Z)) in Hr. exact Hr.
Defined.

(** ** Lookups while the socket is closed

    Between [idnsShutdown] and [idnsInit] a lookup is stored in the table of names,
    but neither sent nor queued: its client, and those of later lookups of the
    name, wait for ever. *)
Definition closed : resolver := (idnsShutdown resolver0 []).1.2.

Definition lost : resolver := (step env0 5 120 true (Lookup www 0 alice) closed []).1.2.

Lemma lookup_lost :
  lru_list lost = [] /\ idns_lookup_hash lost = [0%nat] /\ event_queued lost = false /\
  pending (store lost) = [alice] /\
  pending (store (step env0 5 120 true (Lookup www 0 bob) lost []).1.2) = [alice; bob].
Proof. repeat split; vm_compute; reflexivity. Qed.

(** The table holds an address query under the reversed name and is searched
    for the address itself, so equal lookups of an address are never shared,
    and a lookup of the reversed name as a host gets the other's answer. *)
Definition ptr_state : resolver := (step env0 5 120 true (LookupPTR 16909060 alice) resolver0 []).1.2.

Lemma ptr_not_shared :
  hash_lookup ptr_state (inet_ntoa 16909060) = None /\
  hash_lookup ptr_state (bytes "4.3.2.1.in-addr.arpa.") = Some 0%nat.
Proof. split; vm_compute; reflexivity. Qed.
