(* ===== verification/Delay.v ===== *)
(** * Delay pools

    v3.0/src/squid-mybox/src/delay_pools.c: the bandwidth limits of the proxy.  A pool
    has a level of bytes, and in classes 2 and 3 one per host and per network;
    reading is allowed up to the levels, what was read is taken from them, and
    every second they are raised up to a maximum.  The levels of hosts are in an
    array whose slots are found through a map of host numbers that ends with 255.

    A C array is a function of the index.  What [aclCheckFast] says of a request
    for each pool is an argument of [delayClient]. *)

From S2P Require Import Prelude.

Definition arr : Type := Z -> Z.
Definition upd (a : arr) (i v : Z) : arr := fun x => if x =? i then v else a x.

Definition IND_MAP_SZ : Z := 256.
Definition NET_MAP_SZ : Z := 256.

Record delaySpec := DelaySpec { restore_bps : Z; max_bytes : Z }.
Record delaySpecSet := DelaySpecSet { r_aggregate : delaySpec; r_individual : delaySpec; r_network : delaySpec }.

Record class1DelayPool := Class1Pool { aggregate1 : Z }.

Record class2DelayPool := Class2Pool {
  aggregate2 : Z; individual_map : arr; individual_255_used : bool; individual : arr }.

(** [individual_map[i][j]] is [individual_map3 i j]; [individual_255_used3] holds
    the 32 bytes of bits. *)
Record class3DelayPool := Class3Pool {
  aggregate3 : Z; network_map : arr; network_255_used : bool; network : arr;
  individual_map3 : Z -> arr; individual_255_used3 : arr; individual3 : arr }.

(** [delay_data[pool]] with [Config.Delay.class[pool]]; class 0 is a pool that is not
    configured. *)
Inductive delayPool :=
| Class0
| Class1 (c : class1DelayPool)
| Class2 (c : class2DelayPool)
| Class3 (c : class3DelayPool).

(** ** Creation *)

(** [(int) (((double) max_bytes * Config.Delay.initial) / 100)] *)
Definition initial_level (initial max : Z) : Z := Z.quot (max * initial) 100.

(** [delayCreateDelayPool] and [delayInitDelayPool]: the arrays are fresh memory,
    here [junk], up to the terminators of the maps. *)
Definition delayInitDelayPool (junk : arr) (initial class : Z) (rates : delaySpecSet) : option delayPool :=
  let level := initial_level initial (max_bytes (r_aggregate rates)) in
  match class with
  | 1 => Some (Class1 (Class1Pool level))
  | 2 => Some (Class2 (Class2Pool level (upd junk 0 255) false junk))
  | 3 => Some (Class3 (Class3Pool level (upd junk 0 255) false junk (fun _ => junk) (fun _ => 0) junk))
  | _ => None
  end.

(** ** Slots *)

(** The search in a map for a host: the slot that holds it, or the slot of the
    terminator, which the host gets. *)
Inductive slot := Found (i : Z) | New (i : Z) | Full.

Fixpoint find_slot (fuel : nat) (map : arr) (host i : Z) : slot :=
  match fuel with
  | O => Full
  | S fuel =>
      if map i =? host then Found i
      else if map i =? 255 then if i <? IND_MAP_SZ - 1 then New i else Full
      else find_slot fuel map host (i + 1)
  end.

Definition put_host (map : arr) (i host : Z) : arr := upd (upd map i host) (i + 1) 255.

(** The slot of [host] in a class 2 pool; [None] is the failed assertion. *)
Definition client2 (initial : Z) (rates : delaySpecSet) (c : class2DelayPool) (host : Z)
    : option (class2DelayPool * Z) :=
  let level := initial_level initial (max_bytes (r_individual rates)) in
  if host =? 255 then
    Some (if individual_255_used c then c
          else Class2Pool (aggregate2 c) (individual_map c) true (upd (individual c) 255 level), 255)
  else
    match find_slot 256 (individual_map c) host 0 with
    | Found i => Some (c, i)
    | New i => Some (Class2Pool (aggregate2 c) (put_host (individual_map c) i host) (individual_255_used c)
                       (upd (individual c) i level), i)
    | Full => None
    end.

(** The network's slot in a class 3 pool. *)
Definition client3_net (initial : Z) (rates : delaySpecSet) (c : class3DelayPool) (net : Z)
    : option (class3DelayPool * Z) :=
  let level := initial_level initial (max_bytes (r_network rates)) in
  let clear i := fun k => if k =? i then upd (individual_map3 c k) 0 255 else individual_map3 c k in
  if net =? 255 then
    Some (if network_255_used c then c
          else Class3Pool (aggregate3 c) (network_map c) true (upd (network c) 255 level)
                 (clear 255) (individual_255_used3 c) (individual3 c), 255)
  else
    match find_slot 256 (network_map c) net 0 with
    | Found i => Some (c, i)
    | New i => Some (Class3Pool (aggregate3 c) (put_host (network_map c) i net) (network_255_used c)
                       (upd (network c) i level) (clear i) (individual_255_used3 c) (individual3 c), i)
    | Full => None
    end.

Definition bit_used (used : arr) (i : Z) : bool := negb (Z.land (used (i / 8)) (Z.shiftl 1 (i mod 8)) =? 0).

(** The host's slot in the network's slot [i]: the position [i << 8 | j]. *)
Definition client3_host (initial : Z) (rates : delaySpecSet) (c : class3DelayPool) (i host : Z)
    : option (class3DelayPool * Z) :=
  let level := initial_level initial (max_bytes (r_individual rates)) in
  let set_individual p := upd (individual3 c) p level in
  let position := Z.shiftl i 8 in
  if host =? 255 then
    let position := Z.lor position 255 in
    Some (if bit_used (individual_255_used3 c) i then c
          else Class3Pool (aggregate3 c) (network_map c) (network_255_used c) (network c) (individual_map3 c)
                 (upd (individual_255_used3 c) (i / 8)
                    (Z.lor (individual_255_used3 c (i / 8)) (Z.shiftl 1 (i mod 8))))
                 (set_individual position), position)
  else
    match find_slot 256 (individual_map3 c i) host 0 with
    | Found j => Some (c, Z.lor position j)
    | New j =>
        let position := Z.lor position j in
        Some (Class3Pool (aggregate3 c) (network_map c) (network_255_used c) (network c)
                (fun k => if k =? i then put_host (individual_map3 c i) j host else individual_map3 c k)
                (individual_255_used3 c) (set_individual position), position)
    | Full => None
    end.

Definition client3 (initial : Z) (rates : delaySpecSet) (c : class3DelayPool) (net host : Z)
    : option (class3DelayPool * Z) :=
  '(c, i) ← client3_net initial rates c net;
  client3_host initial rates c i host.

(** ** Raising the levels *)

(** [a += restore * incr], at most [max]; the sums are of ints. *)
Definition restore (level bytes max : Z) : Z :=
  let level := i32 (level + bytes) in if max <? level then max else level.

Definition update_aggregate (level : Z) (spec : delaySpec) (incr : Z) : Z :=
  if restore_bps spec =? -1 then level
  else restore level (i32 (restore_bps spec * incr)) (max_bytes spec).

Definition update_entry (a : arr) (i bytes max : Z) : arr :=
  if a i =? max then a else upd a i (restore (a i) bytes max).

Definition delayUpdateClass1 (c : class1DelayPool) (rates : delaySpecSet) (incr : Z) : class1DelayPool :=
  Class1Pool (update_aggregate (aggregate1 c) (r_aggregate rates) incr).

(** The loop over the hosts: [i] is an unsigned char. *)
Fixpoint update_hosts (fuel : nat) (map ind : arr) (bytes max i : Z) : arr :=
  match fuel with
  | O => ind
  | S fuel =>
      if negb (i =? 255) && (map i =? 255) then ind
      else
        let ind := update_entry ind i bytes max in
        if i =? 254 then ind else update_hosts fuel map ind bytes max (u8 (i + 1))
  end.

Definition delayUpdateClass2 (c : class2DelayPool) (rates : delaySpecSet) (incr : Z) : class2DelayPool :=
  let spec := r_individual rates in
  Class2Pool (update_aggregate (aggregate2 c) (r_aggregate rates) incr) (individual_map c)
    (individual_255_used c)
    (if restore_bps spec =? -1 then individual c
     else update_hosts 257 (individual_map c) (individual c) (i32 (restore_bps spec * incr)) (max_bytes spec)
            (if individual_255_used c then 255 else 0)).

(** The inner loop over the hosts of a network, at [mpos = i << 8 + j]. *)
Fixpoint update_row (fuel : nat) (map ind : arr) (bytes max j mpos : Z) : arr :=
  match fuel with
  | O => ind
  | S fuel =>
      if map j =? 255 then ind
      else
        let ind := update_entry ind mpos bytes max in
        if j =? 254 then ind else update_row fuel map ind bytes max (j + 1) (mpos + 1)
  end.

Definition update_net_hosts (c : class3DelayPool) (ind : arr) (bytes max i : Z) : arr :=
  let ind := update_row 256 (individual_map3 c i) ind bytes max 0 (Z.shiftl i 8) in
  if bit_used (individual_255_used3 c) i then update_entry ind (Z.lor (Z.shiftl i 8) 255) bytes max else ind.

(** The loop over the networks, on the arrays [network] and [individual]. *)
Fixpoint update_nets (fuel : nat) (c : class3DelayPool) (rates : delaySpecSet) (incr : Z)
    (net ind : arr) (i : Z) : arr * arr :=
  match fuel with
  | O => (net, ind)
  | S fuel =>
      let nbytes := i32 (restore_bps (r_network rates) * incr) in
      let ibytes := i32 (restore_bps (r_individual rates) * incr) in
      if negb (i =? 255) && (network_map c i =? 255) then (net, ind)
      else
        let ind := if ibytes =? - incr then ind
                   else update_net_hosts c ind ibytes (max_bytes (r_individual rates)) i in
        let net := if nbytes =? - incr then net else update_entry net i nbytes (max_bytes (r_network rates)) in
        if i =? 254 then (net, ind) else update_nets fuel c rates incr net ind (u8 (i + 1))
  end.

Definition delayUpdateClass3 (c : class3DelayPool) (rates : delaySpecSet) (incr : Z) : class3DelayPool :=
  let aggregate := update_aggregate (aggregate3 c) (r_aggregate rates) incr in
  if (restore_bps (r_network rates) =? -1) && (restore_bps (r_individual rates) =? -1) then
    Class3Pool aggregate (network_map c) (network_255_used c) (network c) (individual_map3 c)
      (individual_255_used3 c) (individual3 c)
  else
    let '(net, ind) := update_nets 257 c rates incr (network c) (individual3 c)
                         (if network_255_used c then 255 else 0) in
    Class3Pool aggregate (network_map c) (network_255_used c) net (individual_map3 c)
      (individual_255_used3 c) ind.

Definition update_pool (p : delayPool) (rates : delaySpecSet) (incr : Z) : delayPool :=
  match p with
  | Class0 => Class0
  | Class1 c => Class1 (delayUpdateClass1 c rates incr)
  | Class2 c => Class2 (delayUpdateClass2 c rates incr)
  | Class3 c => Class3 (delayUpdateClass3 c rates incr)
  end.

(** ** Reading *)

Definition limit (nbytes : Z) (spec : delaySpec) (level : Z) : Z :=
  if restore_bps spec =? -1 then nbytes else Z.min nbytes level.

(** What a pool allows at a position, of at most [max]. *)
Definition pool_wanted (p : delayPool) (rates : delaySpecSet) (position max : Z) : Z :=
  match p with
  | Class0 => max
  | Class1 c => limit max (r_aggregate rates) (aggregate1 c)
  | Class2 c =>
      let n := limit max (r_aggregate rates) (aggregate2 c) in
      limit n (r_individual rates) (individual c position)
  | Class3 c =>
      let n := limit max (r_aggregate rates) (aggregate3 c) in
      let n := limit n (r_individual rates) (individual3 c position) in
      limit n (r_network rates) (network c (Z.shiftr position 8))
  end.

(** [None] is [fatalf]. *)
Definition pool_in (p : delayPool) (position qty : Z) : option delayPool :=
  match p with
  | Class0 => None
  | Class1 c => Some (Class1 (Class1Pool (i32 (aggregate1 c - qty))))
  | Class2 c =>
      Some (Class2 (Class2Pool (i32 (aggregate2 c - qty)) (individual_map c) (individual_255_used c)
                      (upd (individual c) position (i32 (individual c position - qty)))))
  | Class3 c =>
      let i := Z.shiftr position 8 in
      Some (Class3 (Class3Pool (i32 (aggregate3 c - qty)) (network_map c) (network_255_used c)
                      (upd (network c) i (i32 (network c i - qty))) (individual_map3 c)
                      (individual_255_used3 c)
                      (upd (individual3 c) position (i32 (individual3 c position - qty)))))
  end.

(** ** The pools *)

(** [Config.Delay] with [delay_data]; [last_update] is [delay_pools_last_update]. *)
Record delay_pools := DelayPools {
  pools : list (delayPool * delaySpecSet); initial : Z; last_update : Z }.

Definition delay_id (pool position : Z) : Z := Z.lor (Z.shiftl pool 16) position.

Definition INADDR_BROADCAST : Z := 4294967295.

(** [delayClient]: [access k] is [aclCheckFast(Config.Delay.access[k], &ch)], and
    the addresses are in host byte order. *)
Fixpoint first_pool (access : nat -> bool) (k n : nat) : option nat :=
  match n with
  | O => None
  | S n => if access k then Some k else first_pool access (S k) n
  end.

Definition set_pool (d : delay_pools) (k : nat) (p : delayPool) : delay_pools :=
  DelayPools (alter (fun x => (p, x.2)) k (pools d)) (initial d) (last_update d).

Definition delayClient (d : delay_pools) (access : nat -> bool) (client_addr src_addr : Z)
    : option (delay_pools * Z) :=
  if client_addr =? INADDR_BROADCAST then Some (d, delay_id 0 0)
  else
    match first_pool access 0 (length (pools d)) with
    | None => Some (d, delay_id 0 0)
    | Some k =>
        match pools d !! k with
        | None => None
        | Some (p, rates) =>
            let id := delay_id (Z.of_nat k + 1) in
            match p with
            | Class0 => Some (d, delay_id 0 0)
            | Class1 _ => Some (d, id 0)
            | Class2 c =>
                '(c, pos) ← client2 (initial d) rates c (Z.land src_addr 255);
                mret (set_pool d k (Class2 c), id pos)
            | Class3 c =>
                let host := Z.land src_addr 65535 in
                '(c, pos) ← client3 (initial d) rates c (Z.shiftr host 8) (Z.land host 255);
                mret (set_pool d k (Class3 c), id pos)
            end
        end
    end.

(** [delayPoolsUpdate] at [squid_curtime]; it also schedules itself again. *)
Definition delayPoolsUpdate (d : delay_pools) (squid_curtime : Z) : delay_pools :=
  let incr := i32 (squid_curtime - last_update d) in
  if (length (pools d) =? 0)%nat then d
  else if incr <? 1 then d
  else DelayPools (map (fun x => (update_pool x.1 x.2 incr, x.2)) (pools d)) (initial d) squid_curtime.

Definition id_position (id : Z) : Z := Z.land id 65535.
Definition id_pool (id : Z) : Z := u16 (Z.shiftr id 16 - 1).

Definition delayBytesWanted (d : delay_pools) (id min max : Z) : Z :=
  let nbytes :=
    if id_pool id =? 65535 then max
    else match pools d !! Z.to_nat (id_pool id) with
         | Some (p, rates) => pool_wanted p rates (id_position id) max
         | None => max
         end in
  Z.max min nbytes.

Definition delayBytesIn (d : delay_pools) (id qty : Z) : option delay_pools :=
  if id_pool id =? 65535 then Some d
  else match pools d !! Z.to_nat (id_pool id) with
       | Some (p, _) => set_pool d (Z.to_nat (id_pool id)) <$> pool_in p (id_position id) qty
       | None => None
       end.

(** The clients of an object, as the identifiers of those with a callback. *)
Definition delayMostBytesWanted (d : delay_pools) (clients : list Z) (max : Z) : Z :=
  match clients with
  | [] => max
  | _ => fold_left (fun i id => delayBytesWanted d id i max) clients 0
  end.

Definition INT_MAX : Z := 2147483647.

Definition most_allowed (d : delay_pools) (best : Z * Z) (id : Z) : Z * Z :=
  let j := delayBytesWanted d id 0 INT_MAX in
  if best.1 <? j then (j, id) else best.

(** The identifier of the client that may read most, and [*read_sz]. *)
Definition delayMostBytesAllowed (d : delay_pools) (clients : list Z) (read_sz : Z) : Z * Z :=
  let '(jmax, id) := fold_left (most_allowed d) clients (-1, 0) in
  (id, if (0 <=? jmax) && (jmax <? read_sz) then if jmax =? 0 then 1 else jmax else read_sz).

(** ** Maps of hosts *)

Lemma upd_same a i v : upd a i v i = v.
Proof. unfold upd. by rewrite Z.eqb_refl. Qed.

Lemma upd_other a i v x : x <> i -> upd a i v x = a x.
Proof. intros H. unfold upd. by rewrite (proj2 (Z.eqb_neq x i) H). Qed.

(** The map holds these hosts, in the order in which they came. *)
Record map_ok (map : arr) (hosts : list Z) : Prop := {
  mo_nodup : NoDup hosts;
  mo_range : Forall (fun h => 0 <= h < 255) hosts;
  mo_hosts : forall k h, hosts !! k = Some h -> map (Z.of_nat k) = h;
  mo_end : map (Z.of_nat (length hosts)) = 255 }.

Lemma hosts_length (hosts : list Z) :
  NoDup hosts -> Forall (fun h => 0 <= h < 255) hosts -> (length hosts <= 255)%nat.
Proof.
  intros Hd Hr. assert (H : (length hosts <= length (seqZ 0 255))%nat).
  { apply NoDup_incl_length; [by apply NoDup_ListNoDup|]. intros h Hh%list_elem_of_In.
    rewrite Forall_forall in Hr. apply list_elem_of_In, elem_of_seqZ. apply Hr in Hh. lia. }
  by rewrite length_seqZ in H.
Qed.

Lemma map_ok_length map hosts : map_ok map hosts -> (length hosts <= 255)%nat.
Proof. intros [H1 H2 _ _]. by apply hosts_length. Qed.

Lemma map_ok_new_length map hosts host :
  map_ok map hosts -> 0 <= host < 255 -> host ∉ hosts -> (length hosts <= 254)%nat.
Proof.
  intros [H1 H2 _ _] Hh Hn. enough (length (host :: hosts) <= 255)%nat by (cbn in *; lia).
  apply hosts_length; by constructor.
Qed.

Lemma find_slot_from map hosts host fuel k :
  map_ok map hosts -> 0 <= host < 255 -> (k <= length hosts)%nat -> (length hosts < k + fuel)%nat ->
  host ∉ take k hosts ->
  (exists i, hosts !! i = Some host /\ find_slot fuel map host (Z.of_nat k) = Found (Z.of_nat i)) \/
  (~ (host ∈ hosts) /\ find_slot fuel map host (Z.of_nat k) = New (Z.of_nat (length hosts))).
Proof.
  intros Hm Hh. revert k. induction fuel as [|fuel IH]; intros k Hk Hf Hn; [lia|]. cbn [find_slot].
  destruct (hosts !! k) as [h|] eqn:E.
  - rewrite (mo_hosts _ _ Hm k h E). destruct (Z.eqb_spec h host) as [->|Hne]; [left; by exists k|].
    assert (Hr : 0 <= h < 255) by (exact (Forall_lookup_1 _ _ _ _ (mo_range _ _ Hm) E)).
    rewrite (proj2 (Z.eqb_neq h 255)) by lia.
    replace (Z.of_nat k + 1) with (Z.of_nat (S k)) by lia. apply IH; [apply lookup_lt_Some in E; lia | lia|].
    rewrite (take_S_r _ _ _ E). set_solver.
  - apply lookup_ge_None in E. assert (k = length hosts) as -> by lia.
    rewrite (mo_end _ _ Hm). rewrite (proj2 (Z.eqb_neq 255 host)) by lia. cbn [Z.eqb Pos.eqb].
    rewrite firstn_all in Hn. right. split; [exact Hn|].
    pose proof (map_ok_new_length _ _ _ Hm Hh Hn). unfold IND_MAP_SZ.
    by rewrite (proj2 (Z.ltb_lt _ _)) by lia.
Qed.

Lemma find_slot_ok map hosts host :
  map_ok map hosts -> 0 <= host < 255 ->
  (exists i, hosts !! i = Some host /\ find_slot 256 map host 0 = Found (Z.of_nat i)) \/
  (~ (host ∈ hosts) /\ find_slot 256 map host 0 = New (Z.of_nat (length hosts))).
Proof.
  intros Hm Hh. pose proof (map_ok_length _ _ Hm).
  apply (find_slot_from map hosts host 256 0); [exact Hm | exact Hh | lia | lia | set_solver].
Qed.

Lemma put_host_ok map hosts host :
  map_ok map hosts -> 0 <= host < 255 -> host ∉ hosts ->
  map_ok (put_host map (Z.of_nat (length hosts)) host) (hosts ++ [host]).
Proof.
  intros [H1 H2 H3 H4] Hh Hn. split.
  - apply NoDup_app. split; [exact H1|]. split; [set_solver | apply NoDup_singleton].
  - apply Forall_app. split; [exact H2 | by constructor].
  - intros k h Hk. unfold put_host. assert (Hlt := lookup_lt_Some _ _ _ Hk). rewrite length_app in Hlt. cbn in Hlt.
    rewrite upd_other by lia. apply lookup_snoc_Some in Hk as [[Hlt' Hk]|[-> ->]]; [|by rewrite upd_same].
    rewrite upd_other by lia. by apply H3.
  - rewrite length_app. unfold put_host. cbn [length]. replace (Z.of_nat (length hosts + 1)) with (Z.of_nat (length hosts) + 1) by lia.
    by rewrite upd_same.
Qed.

Lemma map_ok_empty map : map 0 = 255 -> map_ok map [].
Proof. intros H. split; [constructor | constructor | intros k h Hk; by rewrite lookup_nil in Hk | exact H]. Qed.

(** ** Levels of keys

    An array of levels, with the slot that every key has, represents a finite
    map from keys to levels. *)

Section Levels.

Context {K : Type} `{Countable K}.
Implicit Types (slot : K -> Z -> Prop) (lv : Z -> Z) (m : gmap K Z).

Record slots_ok slot : Prop := {
  so_fun : forall k p q, slot k p -> slot k q -> p = q;
  so_inj : forall k l p, slot k p -> slot l p -> k = l }.

Definition levels slot lv m : Prop := forall k v, m !! k = Some v <-> exists p, slot k p /\ v = lv p.

Lemma levels_at slot lv m k p : levels slot lv m -> slot k p -> m !! k = Some (lv p).
Proof. intros Hl Hs. apply Hl. by exists p. Qed.

Lemma levels_none slot lv m k : levels slot lv m -> (forall p, ~ slot k p) -> m !! k = None.
Proof. intros Hl Hn. apply eq_None_not_Some. intros [v (p & Hs & _)%Hl]. by apply (Hn p). Qed.

Lemma levels_fmap slot lv lv' f m :
  levels slot lv m -> (forall k p, slot k p -> lv' p = f (lv p)) -> levels slot lv' (f <$> m).
Proof.
  intros Hl Hf k v. rewrite lookup_fmap, fmap_Some. split.
  - intros (w & Hw & ->). apply Hl in Hw as (p & Hs & ->). exists p. split; [done|]. symmetry. by eapply Hf.
  - intros (p & Hs & ->). exists (lv p). split; [apply Hl; by exists p | by eapply Hf].
Qed.

(** The same levels under another description of the slots. *)
Lemma levels_slots slot slot' lv lv' m :
  levels slot lv m -> (forall k p, slot' k p <-> slot k p) -> (forall k p, slot k p -> lv' p = lv p) ->
  levels slot' lv' m.
Proof.
  intros Hl Hs He k v. rewrite (Hl k v). split; intros (q & Hq & ->); exists q.
  - split; [by apply Hs | symmetry; by eapply He].
  - apply Hs in Hq. split; [done | by eapply He].
Qed.

Lemma levels_alter slot lv lv' g m k p :
  slots_ok slot -> levels slot lv m -> slot k p -> lv' p = g (lv p) ->
  (forall q, q <> p -> lv' q = lv q) -> levels slot lv' (alter g k m).
Proof.
  intros Hok Hl Hs Hg Ho x v. destruct (decide (x = k)) as [->|Hne].
  - rewrite lookup_alter_eq, (levels_at _ _ _ _ _ Hl Hs). cbn. split; [intros [= <-]; by exists p|].
    intros (q & Hq & ->). by rewrite (so_fun _ Hok _ _ _ Hq Hs), Hg.
  - rewrite lookup_alter_ne by done. rewrite (Hl x v).
    assert (E : forall q, slot x q -> lv' q = lv q).
    { intros q Hq. apply Ho. intros ->. by pose proof (so_inj _ Hok _ _ _ Hq Hs). }
    split; intros (q & Hq & ->); exists q; (split; [done|]); [symmetry|]; by apply E.
Qed.

(** A key that gets a slot and a level. *)
Lemma levels_add slot slot' lv m k p level :
  slots_ok slot' -> levels slot lv m -> slot' k p -> (forall l q, l <> k -> slot' l q <-> slot l q) ->
  levels slot' (upd lv p level) (<[k := level]> m).
Proof.
  intros Hok Hl Hs Ho x v. destruct (decide (x = k)) as [->|Hne].
  - rewrite lookup_insert_eq. split; [intros [= <-]; exists p; by rewrite upd_same|].
    intros (q & Hq & ->). by rewrite (so_fun _ Hok _ _ _ Hq Hs), upd_same.
  - rewrite lookup_insert_ne by done. rewrite (Hl x v).
    assert (E : forall q, slot' x q -> upd lv p level q = lv q).
    { intros q Hq. apply upd_other. intros ->. by pose proof (so_inj _ Hok _ _ _ Hq Hs). }
    split; intros (q & Hq & ->); exists q.
    + apply Ho in Hq; [|done]. split; [done | symmetry; by apply E].
    + split; [by apply Ho | by apply E].
Qed.

End Levels.

(** ** Tables of hosts *)

(** The slot of a host, in a map with these hosts and the flag of host 255. *)
Definition slot_at (hosts : list Z) (used : bool) (host p : Z) : Prop :=
  (host = 255 /\ used = true /\ p = 255) \/ (0 <= p /\ hosts !! Z.to_nat p = Some host).

Record table (hosts : list Z) (map : arr) (used : bool) (lv : Z -> Z) (m : gmap Z Z) : Prop := {
  tb_map : map_ok map hosts;
  tb_levels : levels (slot_at hosts used) lv m }.

Lemma slot_range map hosts used h p : map_ok map hosts -> slot_at hosts used h p -> 0 <= p <= 255 /\ (p = 255 <-> h = 255).
Proof.
  intros Hm [(-> & _ & ->)|[H0 Hk]]; [lia|]. pose proof (map_ok_length _ _ Hm).
  pose proof (Forall_lookup_1 _ _ _ _ (mo_range _ _ Hm) Hk). apply lookup_lt_Some in Hk. cbn in *. lia.
Qed.

Lemma slot_ok map hosts used : map_ok map hosts -> slots_ok (slot_at hosts used).
Proof.
  intros Hm. split.
  - intros h p p' H H'. pose proof (slot_range _ _ _ _ _ Hm H). pose proof (slot_range _ _ _ _ _ Hm H').
    destruct H as [(E1 & _ & E2)|[Hp Hk]], H' as [(E3 & _ & E4)|[Hp' Hk']]; try lia.
    pose proof (NoDup_lookup _ _ _ _ (mo_nodup _ _ Hm) Hk Hk'). lia.
  - intros h h' p H H'. pose proof (slot_range _ _ _ _ _ Hm H). pose proof (slot_range _ _ _ _ _ Hm H').
    destruct H as [(-> & _ & ->)|[_ Hk]], H' as [(-> & _ & ?)|[_ Hk']]; try lia; try congruence.
Qed.

Lemma slot_found hosts used host i : hosts !! i = Some host -> slot_at hosts used host (Z.of_nat i).
Proof. intros H. right. split; [lia | by rewrite Nat2Z.id]. Qed.

Lemma no_slot map hosts used h p : map_ok map hosts -> 0 <= h < 255 -> ~ (h ∈ hosts) -> ~ slot_at hosts used h p.
Proof. intros _ Hh Hn [(? & _)|[Hp Hk]]; [lia|]. by apply list_elem_of_lookup_2 in Hk. Qed.

Lemma no_slot_255 map hosts p : map_ok map hosts -> ~ slot_at hosts false 255 p.
Proof.
  intros Hm [(_ & ? & _)|[_ Hk]]; [done|].
  pose proof (Forall_lookup_1 _ _ _ _ (mo_range _ _ Hm) Hk). cbn in *. lia.
Qed.

(** The slots after a host got the next one, and after host 255 was used. *)
Lemma slot_snoc hosts used host h p :
  h <> host -> slot_at (hosts ++ [host]) used h p <-> slot_at hosts used h p.
Proof.
  intros Hne. unfold slot_at. rewrite lookup_snoc_Some. split.
  - intros [H|[H0 [[_ H]|[_ H]]]]; [by left | by right | done].
  - intros [H|[H0 H]]; [by left | right]. split; [done|]. left. split; [by apply lookup_lt_Some in H | done].
Qed.

Lemma slot_new hosts used host : slot_at (hosts ++ [host]) used host (Z.of_nat (length hosts)).
Proof. apply slot_found, lookup_snoc_Some. by right. Qed.

Lemma slot_grow hosts used host h p : slot_at hosts used h p -> slot_at (hosts ++ [host]) used h p.
Proof.
  intros [H|[H0 H]]; [by left | right]. split; [done|]. apply lookup_snoc_Some. left.
  split; [by apply lookup_lt_Some in H | done].
Qed.

Lemma slot_grow_255 hosts h p : slot_at hosts false h p -> slot_at hosts true h p.
Proof. intros [(_ & ? & _)|H]; [done | by right]. Qed.

Lemma slot_use hosts h p : h <> 255 -> slot_at hosts true h p <-> slot_at hosts false h p.
Proof. intros Hne. unfold slot_at. naive_solver. Qed.

Lemma table_add hosts map lv used m host level :
  table hosts map used lv m -> 0 <= host < 255 -> host ∉ hosts ->
  table (hosts ++ [host]) (put_host map (Z.of_nat (length hosts)) host) used
    (upd lv (Z.of_nat (length hosts)) level) (<[host := level]> m).
Proof.
  intros [Hm Hl] Hh Hn. pose proof (put_host_ok _ _ _ Hm Hh Hn) as Hm'. split; [exact Hm'|].
  eapply levels_add; [by eapply slot_ok | exact Hl | apply slot_new | intros; by apply slot_snoc].
Qed.

Lemma table_add_255 hosts map lv m level :
  table hosts map false lv m -> table hosts map true (upd lv 255 level) (<[255 := level]> m).
Proof.
  intros [Hm Hl]. split; [exact Hm|].
  eapply levels_add; [by eapply slot_ok | exact Hl | by left | intros; by apply slot_use].
Qed.

(** ** The loops that raise levels *)

(** The change of one level. *)
Definition bump (bytes max v : Z) : Z := if v =? max then v else restore v bytes max.

Lemma update_entry_at a i bytes max x :
  update_entry a i bytes max x = if x =? i then bump bytes max (a i) else a x.
Proof.
  unfold update_entry, bump. destruct (a i =? max) eqn:E.
  - destruct (Z.eqb_spec x i) as [->|]; done.
  - unfold upd. by destruct (x =? i).
Qed.

Lemma update_hosts_from map hosts bytes max fuel i ind x :
  map_ok map hosts -> (i <= length hosts)%nat -> (i <= 254)%nat -> (length hosts < i + fuel)%nat ->
  update_hosts fuel map ind bytes max (Z.of_nat i) x
  = if (Z.of_nat i <=? x) && (x <? Z.of_nat (length hosts)) then bump bytes max (ind x) else ind x.
Proof.
  intros Hm. revert i ind. induction fuel as [|fuel IH]; intros i ind Hi H254 Hf; [lia|].
  cbn [update_hosts].
  destruct (hosts !! i) as [h|] eqn:E.
  - assert (Hlt := lookup_lt_Some _ _ _ E). rewrite (mo_hosts _ _ Hm i h E).
    pose proof (Forall_lookup_1 _ _ _ _ (mo_range _ _ Hm) E) as Hr. cbn in Hr.
    rewrite (proj2 (Z.eqb_neq h 255)), andb_false_r by lia.
    destruct (Z.eqb_spec (Z.of_nat i) 254) as [E254|Hne].
    + pose proof (map_ok_length _ _ Hm) as Hlen.
      rewrite update_entry_at. destruct (Z.eqb_spec x (Z.of_nat i)) as [->|Hx].
      * rewrite (proj2 (Z.leb_le _ _)), (proj2 (Z.ltb_lt _ _)) by lia. done.
      * destruct (Z.leb_spec (Z.of_nat i) x), (Z.ltb_spec x (Z.of_nat (length hosts))); try done; lia.
    + replace (u8 (Z.of_nat i + 1)) with (Z.of_nat (S i)) by (rewrite wrapu_small; lia).
      rewrite IH by lia. rewrite update_entry_at. destruct (Z.eqb_spec x (Z.of_nat i)) as [->|Hx].
      * rewrite (proj2 (Z.leb_gt (Z.of_nat (S i)) _)), (proj2 (Z.leb_le (Z.of_nat i) _)), (proj2 (Z.ltb_lt _ _)) by lia. done.
      * destruct (Z.leb_spec (Z.of_nat (S i)) x), (Z.leb_spec (Z.of_nat i) x); try done; lia.
  - apply lookup_ge_None in E. assert (i = length hosts) as -> by lia.
    rewrite (mo_end _ _ Hm), (proj2 (Z.eqb_neq (Z.of_nat (length hosts)) 255)) by lia.
    cbn [negb andb Z.eqb Pos.eqb].
    destruct (Z.leb_spec (Z.of_nat (length hosts)) x), (Z.ltb_spec x (Z.of_nat (length hosts))); try done; lia.
Qed.

(** The loop from the start that the flag of host 255 chooses. *)
Lemma update_hosts_255 fuel map ind bytes max :
  update_hosts (S fuel) map ind bytes max 255 = update_hosts fuel map (update_entry ind 255 bytes max) bytes max 0.
Proof. reflexivity. Qed.

Lemma update_hosts_0 map hosts ind bytes max fuel x :
  map_ok map hosts -> (256 <= fuel)%nat ->
  update_hosts fuel map ind bytes max 0 x
  = if (0 <=? x) && (x <? Z.of_nat (length hosts)) then bump bytes max (ind x) else ind x.
Proof.
  intros Hm Hf. pose proof (map_ok_length _ _ Hm).
  apply (update_hosts_from map hosts bytes max fuel 0); [exact Hm | lia..].
Qed.

Lemma table_update_hosts hosts map used lv m bytes max fuel :
  table hosts map used lv m -> (256 <= fuel)%nat ->
  table hosts map used (update_hosts (S fuel) map lv bytes max (if used then 255 else 0)) (bump bytes max <$> m).
Proof.
  intros Ht Hf. pose proof (tb_map _ _ _ _ _ Ht) as Hm. pose proof (map_ok_length _ _ Hm) as Hlen.
  split; [exact Hm|]. eapply levels_fmap; [exact (tb_levels _ _ _ _ _ Ht)|]. intros h p Hs. pose proof (slot_range _ _ _ _ _ Hm Hs) as Hr.
  destruct used.
  - rewrite update_hosts_255, (update_hosts_0 _ hosts) by (done || lia).
    rewrite !update_entry_at. rewrite (proj2 (Z.leb_le 0 p)) by lia.
    destruct Hs as [(-> & _ & ->)|[Hp Hk]].
    + rewrite (proj2 (Z.ltb_ge _ _)) by lia. done.
    + apply lookup_lt_Some in Hk. rewrite (proj2 (Z.ltb_lt _ _)), (proj2 (Z.eqb_neq p 255)) by lia. done.
  - destruct Hs as [(_ & ? & _)|[Hp Hk]]; [done|]. apply lookup_lt_Some in Hk.
    rewrite (update_hosts_0 _ hosts) by (done || lia).
    rewrite (proj2 (Z.leb_le 0 p)), (proj2 (Z.ltb_lt _ _)) by lia. done.
Qed.

Lemma update_row_from map hosts bytes max fuel j base ind x :
  map_ok map hosts -> (j <= length hosts)%nat -> (j <= 254)%nat -> (length hosts < j + fuel)%nat ->
  update_row fuel map ind bytes max (Z.of_nat j) (base + Z.of_nat j) x
  = if (base + Z.of_nat j <=? x) && (x <? base + Z.of_nat (length hosts)) then bump bytes max (ind x) else ind x.
Proof.
  intros Hm. revert j ind. induction fuel as [|fuel IH]; intros j ind Hj H254 Hf; [lia|].
  cbn [update_row]. destruct (hosts !! j) as [h|] eqn:E.
  - assert (Hlt := lookup_lt_Some _ _ _ E). rewrite (mo_hosts _ _ Hm j h E).
    pose proof (Forall_lookup_1 _ _ _ _ (mo_range _ _ Hm) E) as Hr. cbn in Hr.
    rewrite (proj2 (Z.eqb_neq h 255)) by lia.
    destruct (Z.eqb_spec (Z.of_nat j) 254) as [E254|Hne].
    + pose proof (map_ok_length _ _ Hm) as Hlen.
      rewrite update_entry_at. destruct (Z.eqb_spec x (base + Z.of_nat j)) as [->|Hx].
      * rewrite (proj2 (Z.leb_le _ _)), (proj2 (Z.ltb_lt _ _)) by lia. done.
      * destruct (Z.leb_spec (base + Z.of_nat j) x), (Z.ltb_spec x (base + Z.of_nat (length hosts))); try done; lia.
    + replace (Z.of_nat j + 1) with (Z.of_nat (S j)) by lia.
      replace (base + Z.of_nat j + 1) with (base + Z.of_nat (S j)) by lia.
      rewrite IH by lia. rewrite update_entry_at. destruct (Z.eqb_spec x (base + Z.of_nat j)) as [->|Hx].
      * rewrite (proj2 (Z.leb_gt (base + Z.of_nat (S j)) _)), (proj2 (Z.leb_le (base + Z.of_nat j) _)), (proj2 (Z.ltb_lt _ _)) by lia. done.
      * destruct (Z.leb_spec (base + Z.of_nat (S j)) x), (Z.leb_spec (base + Z.of_nat j) x); try done; lia.
  - apply lookup_ge_None in E. assert (j = length hosts) as -> by lia.
    rewrite (mo_end _ _ Hm). cbn [Z.eqb Pos.eqb].
    destruct (Z.leb_spec (base + Z.of_nat (length hosts)) x), (Z.ltb_spec x (base + Z.of_nat (length hosts))); try done; lia.
Qed.

(** ** Class 2: a level for each host *)

Definition rep2 (hosts : list Z) (c : class2DelayPool) (m : gmap Z Z) : Prop :=
  table hosts (individual_map c) (individual_255_used c) (individual c) m.

(** A key's level when it is first seen. *)
Definition with_default `{Countable K} (m : gmap K Z) (k : K) (level : Z) : gmap K Z :=
  match m !! k with Some _ => m | None => <[k := level]> m end.

Lemma levels_default `{Countable K} slot lv (m : gmap K Z) k p level :
  levels slot lv m -> slot k p -> with_default m k level = m.
Proof. intros Hl Hs. unfold with_default. by rewrite (levels_at _ _ _ _ _ Hl Hs). Qed.

Lemma levels_default_new `{Countable K} slot lv (m : gmap K Z) k level :
  levels slot lv m -> (forall p, ~ slot k p) -> with_default m k level = <[k := level]> m.
Proof. intros Hl Hs. unfold with_default. by rewrite (levels_none _ _ _ _ Hl Hs). Qed.

Lemma client2_ok hosts c m ini rates host :
  rep2 hosts c m -> 0 <= host <= 255 ->
  exists hosts' c' p, client2 ini rates c host = Some (c', p) /\ aggregate2 c' = aggregate2 c /\
    rep2 hosts' c' (with_default m host (initial_level ini (max_bytes (r_individual rates)))) /\
    slot_at hosts' (individual_255_used c') host p /\
    (forall h q, slot_at hosts (individual_255_used c) h q -> slot_at hosts' (individual_255_used c') h q).
Proof.
  intros [Hm Hl] Hh. unfold client2. set (level := initial_level ini _).
  destruct (Z.eqb_spec host 255) as [->|Hne].
  - destruct (individual_255_used c) eqn:Eu.
    + exists hosts, c, 255. assert (Hs : slot_at hosts true 255 255) by (by left).
      rewrite (levels_default _ _ _ _ _ _ Hl Hs). unfold rep2. rewrite Eu. by do 4 (split; [done|]).
    + rewrite (levels_default_new _ _ _ _ _ Hl) by (intros p; by eapply no_slot_255).
      do 3 eexists. split; [reflexivity|]. split; [done|]. split; [by eapply table_add_255|].
      split; [by left | intros h q; apply slot_grow_255].
  - destruct (find_slot_ok _ _ host Hm ltac:(lia)) as [(i & Hi & ->)|[Hn ->]].
    + exists hosts, c, (Z.of_nat i). assert (Hs := slot_found _ (individual_255_used c) _ _ Hi).
      rewrite (levels_default _ _ _ _ _ _ Hl Hs). by do 4 (split; [done|]).
    + rewrite (levels_default_new _ _ _ _ _ Hl) by (intros p; by eapply no_slot; [|lia|]).
      do 3 eexists. split; [reflexivity|]. split; [done|]. split; [by apply table_add; [|lia|]|].
      split; [apply slot_new | intros h q; apply slot_grow].
Qed.

(** A raise of a level, when no sum overflows. *)
Definition raise (spec : delaySpec) (incr v : Z) : Z :=
  if restore_bps spec =? -1 then v else Z.min (max_bytes spec) (v + restore_bps spec * incr).

Definition spec_ok (spec : delaySpec) (incr : Z) : Prop :=
  restore_bps spec = -1 \/
  (0 <= restore_bps spec /\ 0 <= max_bytes spec /\ restore_bps spec * incr + max_bytes spec < 2 ^ 31).

Definition level_ok (spec : delaySpec) (v : Z) : Prop := - 2 ^ 31 <= v /\ (restore_bps spec = -1 \/ v <= max_bytes spec).

Lemma restore_raise spec incr v :
  restore_bps spec <> -1 -> 1 <= incr -> spec_ok spec incr -> level_ok spec v ->
  bump (i32 (restore_bps spec * incr)) (max_bytes spec) v = raise spec incr v.
Proof.
  intros Hr Hi [?|(H0 & Hm & Hs)] [Hv [?|Hmax]]; try lia. unfold bump, restore, raise.
  rewrite (proj2 (Z.eqb_neq _ (-1))) by done.
  rewrite (wraps_small 32 (restore_bps spec * incr)) by lia.
  destruct (Z.eqb_spec v (max_bytes spec)) as [->|Hne]; [nia|].
  rewrite wraps_small by (change (2 ^ (32 - 1)) with (2 ^ 31); nia).
  destruct (Z.ltb_spec (max_bytes spec) (v + restore_bps spec * incr)); lia.
Qed.

Lemma aggregate_raise spec incr v :
  1 <= incr -> spec_ok spec incr -> level_ok spec v -> update_aggregate v spec incr = raise spec incr v.
Proof.
  intros Hi Hs Hl. unfold update_aggregate. destruct (Z.eqb_spec (restore_bps spec) (-1)) as [E|E].
  - unfold raise. by rewrite (proj2 (Z.eqb_eq _ _) E).
  - rewrite <- restore_raise by done. unfold bump. destruct (Z.eqb_spec v (max_bytes spec)) as [->|]; [|done].
    destruct Hs as [?|(H0 & Hm & Hs)]; [lia|]. unfold restore. rewrite (wraps_small 32 (restore_bps spec * incr)) by lia.
    rewrite wraps_small by (change (2 ^ (32 - 1)) with (2 ^ 31); nia).
    destruct (Z.ltb_spec (max_bytes spec) (max_bytes spec + restore_bps spec * incr)); nia.
Qed.

Lemma gmap_fmap_ext_ok (f g : Z -> Z) (m : gmap Z Z) (P : Z -> Prop) :
  (forall v, P v -> f v = g v) -> map_Forall (fun _ v => P v) m -> f <$> m = g <$> m.
Proof.
  intros H Hm. apply map_eq. intros k. rewrite !lookup_fmap. destruct (m !! k) as [v|] eqn:E; [|done].
  cbn. f_equal. apply H. exact (Hm k v E).
Qed.

Lemma update2_ok hosts c m rates incr :
  rep2 hosts c m -> 1 <= incr -> spec_ok (r_individual rates) incr ->
  map_Forall (fun _ v => level_ok (r_individual rates) v) m ->
  rep2 hosts (delayUpdateClass2 c rates incr) (raise (r_individual rates) incr <$> m).
Proof.
  intros Ht Hi Hs Hl. unfold rep2, delayUpdateClass2. cbn [individual_map individual_255_used individual].
  destruct (Z.eqb_spec (restore_bps (r_individual rates)) (-1)) as [E|E].
  - rewrite (gmap_fmap_ext_ok _ id m (fun _ => True)), map_fmap_id; [exact Ht | | by intros ???].
    intros v _. unfold raise. by rewrite (proj2 (Z.eqb_eq _ _) E).
  - rewrite (gmap_fmap_ext_ok _ (bump (i32 (restore_bps (r_individual rates) * incr)) (max_bytes (r_individual rates))) m
              (level_ok (r_individual rates))).
    + by apply table_update_hosts; [|lia].
    + intros v Hv. symmetry. by apply restore_raise.
    + exact Hl.
Qed.

Lemma in2_ok hosts c m h p qty :
  rep2 hosts c m -> slot_at hosts (individual_255_used c) h p ->
  exists c', pool_in (Class2 c) p qty = Some (Class2 c') /\ aggregate2 c' = i32 (aggregate2 c - qty) /\
    individual_255_used c' = individual_255_used c /\
    rep2 hosts c' (alter (fun v => i32 (v - qty)) h m).
Proof.
  intros Ht Hs. eexists. split; [reflexivity|]. split; [done|]. split; [done|].
  destruct Ht as [Hm Hl]. split; [exact Hm|].
  eapply levels_alter; [by eapply slot_ok | exact Hl | exact Hs | by cbn; rewrite upd_same|].
  intros q Hq. by apply upd_other.
Qed.

(** ** Class 3: a level for each network and for each host of a network *)

Definition slot3 (nets : list Z) (used : bool) (rows : Z -> list Z) (bits : arr) (k : Z * Z) (p : Z) : Prop :=
  exists i j, slot_at nets used k.1 i /\ slot_at (rows i) (bit_used bits i) k.2 j /\ p = i * 256 + j.

(** [rows i] are the hosts of the network in slot [i]. *)
Record rep3 (nets : list Z) (rows : Z -> list Z) (c : class3DelayPool) (mn : gmap Z Z) (mh : gmap (Z * Z) Z)
    : Prop := {
  r3_nets : table nets (network_map c) (network_255_used c) (network c) mn;
  r3_rows : forall net i, slot_at nets (network_255_used c) net i -> map_ok (individual_map3 c i) (rows i);
  r3_free : forall i, 0 <= i <= 255 -> (forall net, ~ slot_at nets (network_255_used c) net i) ->
    bit_used (individual_255_used3 c) i = false;
  r3_hosts : levels (slot3 nets (network_255_used c) rows (individual_255_used3 c)) (individual3 c) mh }.

Lemma slot3_ok nets used rows bits map maps :
  map_ok map nets -> (forall net i, slot_at nets used net i -> map_ok (maps i) (rows i)) ->
  slots_ok (slot3 nets used rows bits).
Proof.
  intros Hm Hr. pose proof (slot_ok _ _ used Hm) as Hok. split.
  - intros k p q (i & j & Hi & Hj & ->) (i' & j' & Hi' & Hj' & ->).
    rewrite <- (so_fun _ Hok _ _ _ Hi Hi') in *. by rewrite (so_fun _ (slot_ok _ _ _ (Hr _ _ Hi)) _ _ _ Hj Hj').
  - intros [n h] [n' h'] p (i & j & Hi & Hj & ->) (i' & j' & Hi' & Hj' & E). cbn in *.
    pose proof (slot_range _ _ _ _ _ (Hr _ _ Hi) Hj). pose proof (slot_range _ _ _ _ _ (Hr _ _ Hi') Hj').
    assert (i = i') as <- by lia. assert (j = j') as <- by lia.
    rewrite (so_inj _ Hok _ _ _ Hi Hi'). by rewrite (so_inj _ (slot_ok _ _ _ (Hr _ _ Hi)) _ _ _ Hj Hj').
Qed.

Lemma rep3_slots nets rows c mn mh :
  rep3 nets rows c mn mh -> slots_ok (slot3 nets (network_255_used c) rows (individual_255_used3 c)).
Proof. intros [[Hm _] Hr _ _]. by eapply slot3_ok. Qed.

(** A network that gets a slot has no hosts yet. *)
Lemma rep3_open nets nets' rows c c' mn mn' mh net i :
  rep3 nets rows c mn mh -> table nets' (network_map c') (network_255_used c') (network c') mn' ->
  slot_at nets' (network_255_used c') net i -> (forall p, ~ slot_at nets (network_255_used c) net p) ->
  (forall n p, n <> net -> slot_at nets' (network_255_used c') n p <-> slot_at nets (network_255_used c) n p) ->
  (forall k, individual_map3 c' k = if k =? i then upd (individual_map3 c k) 0 255 else individual_map3 c k) ->
  individual_255_used3 c' = individual_255_used3 c -> individual3 c' = individual3 c ->
  rep3 nets' (fun k => if k =? i then [] else rows k) c' mn' mh /\
  slot_at nets' (network_255_used c') net i /\
  (forall k p, slot3 nets (network_255_used c) rows (individual_255_used3 c) k p ->
     slot3 nets' (network_255_used c') (fun k => if k =? i then [] else rows k) (individual_255_used3 c') k p).
Proof.
  intros Hrep Ht Hs Hno Hiff Hmap Hb Hi. set (rows' := fun k => if k =? i then [] else rows k). pose proof (slot_ok _ _ (network_255_used c') (tb_map _ _ _ _ _ Ht)) as Hok.
  assert (Hfree : forall n, ~ slot_at nets (network_255_used c) n i).
  { intros n Hn. destruct (decide (n = net)) as [->|Hne]; [by apply (Hno i)|].
    apply Hne. eapply so_inj; [exact Hok | by apply Hiff | done]. }
  assert (Hold : forall n q, slot_at nets' (network_255_used c') n q -> n <> net -> q <> i).
  { intros n q Hn Hne ->. apply Hne. by eapply so_inj. }
  pose proof (r3_free _ _ _ _ _ Hrep i (proj1 (slot_range _ _ _ _ _ (tb_map _ _ _ _ _ Ht) Hs)) Hfree) as Hbit.
  assert (Hslots : forall k p, slot3 nets' (network_255_used c') rows' (individual_255_used3 c') k p <->
     slot3 nets (network_255_used c) rows (individual_255_used3 c) k p).
  { intros [n h] p. rewrite Hb. unfold rows'. split; intros (q & j & Hq & Hj & ->); exists q, j; cbn in *.
    - destruct (decide (n = net)) as [->|Hne].
      + rewrite (so_fun _ Hok _ _ _ Hq Hs), Z.eqb_refl, Hbit in Hj. destruct Hj as [(_ & ? & _)|[_ ?]]; done.
      + rewrite (proj2 (Z.eqb_neq q i)) in Hj by (by eapply Hold). split; [by apply Hiff | done].
    - assert (Hne : n <> net) by (intros ->; by apply (Hno q)).
      rewrite (proj2 (Z.eqb_neq q i)) by (intros ->; by apply (Hfree n)). split; [by apply Hiff | done]. }
  split; [|split; [exact Hs | intros k p; apply Hslots]]. split; [exact Ht | | |].
  - intros n q Hn. rewrite Hmap. unfold rows'. destruct (Z.eqb_spec q i) as [->|Hq]; [apply map_ok_empty, upd_same|].
    apply (r3_rows _ _ _ _ _ Hrep n). apply Hiff; [|done]. intros ->. apply Hq. by eapply so_fun.
  - intros q Hq Hn. rewrite Hb. apply (r3_free _ _ _ _ _ Hrep); [done|]. intros n Hs'.
    destruct (decide (n = net)) as [->|Hne]; [by apply (Hno q)|]. apply (Hn n). by apply Hiff.
  - rewrite Hi. by eapply levels_slots; [exact (r3_hosts _ _ _ _ _ Hrep) | |].
Qed.

Lemma client3_net_ok nets rows c mn mh ini rates net :
  rep3 nets rows c mn mh -> 0 <= net <= 255 ->
  exists nets' rows' c' i, client3_net ini rates c net = Some (c', i) /\ aggregate3 c' = aggregate3 c /\
    rep3 nets' rows' c' (with_default mn net (initial_level ini (max_bytes (r_network rates)))) mh /\
    slot_at nets' (network_255_used c') net i /\
    (forall k p, slot3 nets (network_255_used c) rows (individual_255_used3 c) k p ->
       slot3 nets' (network_255_used c') rows' (individual_255_used3 c') k p).
Proof.
  intros Hrep Hn. pose proof (r3_nets _ _ _ _ _ Hrep) as Ht. pose proof Ht as [Hm Hl].
  unfold client3_net. set (level := initial_level ini _). destruct (Z.eqb_spec net 255) as [->|Hne].
  - destruct (network_255_used c) eqn:Eu.
    + assert (Hs : slot_at nets true 255 255) by (by left). exists nets, rows, c, 255.
      rewrite (levels_default _ _ _ _ _ _ Hl Hs), Eu. by do 4 (split; [done|]).
    + rewrite (levels_default_new _ _ _ _ _ Hl) by (intros p; by eapply no_slot_255).
      do 4 eexists. split; [reflexivity|]. split; [done|]. rewrite <- Eu.
      eapply (rep3_open _ _ _ _ _ _ _ _ 255 255 Hrep); cbn; [| by left | | | done..].
      * by apply table_add_255.
      * rewrite Eu. intros p. by eapply no_slot_255.
      * rewrite Eu. intros n p Hne. by apply slot_use.
  - destruct (find_slot_ok _ _ net Hm ltac:(lia)) as [(i & Hi & ->)|[Hno ->]].
    + exists nets, rows, c, (Z.of_nat i). assert (Hs := slot_found _ (network_255_used c) _ _ Hi).
      rewrite (levels_default _ _ _ _ _ _ Hl Hs). by do 4 (split; [done|]).
    + rewrite (levels_default_new _ _ _ _ _ Hl) by (intros p; by eapply no_slot; [|lia|]).
      do 4 eexists. split; [reflexivity|]. split; [done|].
      eapply (rep3_open _ _ _ _ _ _ _ _ net _ Hrep); cbn; [| apply slot_new | | | done..].
      * by apply table_add; [|lia|].
      * intros p. by eapply no_slot; [|lia|].
      * intros n p ?. by apply slot_snoc.
Qed.

(** The position of a slot. *)
Lemma position_eq i j : 0 <= i -> 0 <= j < 256 -> Z.lor (Z.shiftl i 8) j = i * 256 + j.
Proof. intros Hi Hj. rewrite Z.shiftl_mul_pow2 by lia. by apply lor_add. Qed.

Lemma bit_used_testbit used i : 0 <= i -> bit_used used i = Z.testbit (used (i / 8)) (i mod 8).
Proof.
  intros Hi. unfold bit_used. assert (Hm : 0 <= i mod 8) by (apply Z.mod_pos_bound; lia).
  rewrite Z.shiftl_1_l. destruct (Z.testbit _ _) eqn:E.
  - destruct (Z.eqb_spec (Z.land (used (i / 8)) (2 ^ (i mod 8))) 0) as [E0|]; [|done].
    assert (H := f_equal (fun z => Z.testbit z (i mod 8)) E0). cbn beta in H.
    rewrite Z.land_spec, Z.pow2_bits_true, E, Z.bits_0 in H by done. done.
  - replace (Z.land (used (i / 8)) (2 ^ (i mod 8))) with 0; [done|]. symmetry.
    apply Z.bits_inj. intros n. rewrite Z.land_spec, Z.bits_0, Z.pow2_bits_eqb by done.
    destruct (Z.eqb_spec (i mod 8) n) as [<-|]; [by rewrite E | by rewrite andb_false_r].
Qed.

Lemma bit_used_set used i x :
  0 <= i -> 0 <= x ->
  bit_used (upd used (i / 8) (Z.lor (used (i / 8)) (Z.shiftl 1 (i mod 8)))) x = (x =? i) || bit_used used x.
Proof.
  intros Hi Hx. rewrite !bit_used_testbit by done.
  assert (Hm : 0 <= i mod 8 < 8) by (apply Z.mod_pos_bound; lia).
  pose proof (Z.div_mod i 8 ltac:(lia)). pose proof (Z.div_mod x 8 ltac:(lia)).
  unfold upd. destruct (Z.eqb_spec (x / 8) (i / 8)) as [E|E].
  - rewrite Z.lor_spec, Z.shiftl_1_l, Z.pow2_bits_eqb, E by lia. rewrite orb_comm. f_equal.
    destruct (Z.eqb_spec (i mod 8) (x mod 8)), (Z.eqb_spec x i); try done; subst; lia.
  - destruct (Z.eqb_spec x i) as [->|]; [lia | done].
Qed.

(** A host that gets a slot in the network's slot [i]. *)
Lemma rep3_add nets rows rows' c c' mn mh net host i j level :
  rep3 nets rows c mn mh -> slot_at nets (network_255_used c) net i ->
  network_map c' = network_map c -> network_255_used c' = network_255_used c -> network c' = network c ->
  map_ok (individual_map3 c' i) (rows' i) ->
  (forall k, k <> i -> individual_map3 c' k = individual_map3 c k /\ rows' k = rows k) ->
  (forall k, 0 <= k -> k <> i -> bit_used (individual_255_used3 c') k = bit_used (individual_255_used3 c) k) ->
  slot_at (rows' i) (bit_used (individual_255_used3 c') i) host j ->
  (forall q, ~ slot_at (rows i) (bit_used (individual_255_used3 c) i) host q) ->
  (forall h q, h <> host -> slot_at (rows' i) (bit_used (individual_255_used3 c') i) h q <->
     slot_at (rows i) (bit_used (individual_255_used3 c) i) h q) ->
  individual3 c' = upd (individual3 c) (i * 256 + j) level ->
  rep3 nets rows' c' mn (<[(net, host) := level]> mh) /\
  slot3 nets (network_255_used c') rows' (individual_255_used3 c') (net, host) (i * 256 + j) /\
  (forall k p, slot3 nets (network_255_used c) rows (individual_255_used3 c) k p ->
     slot3 nets (network_255_used c') rows' (individual_255_used3 c') k p).
Proof.
  intros Hrep Hs Hm Hu Hn Hrow Hother Hbits Hj Hno Hiff Hi.
  pose proof (r3_nets _ _ _ _ _ Hrep) as Ht. pose proof (slot_ok _ _ (network_255_used c) (tb_map _ _ _ _ _ Ht)) as Hok.
  assert (Hrange : forall n k, slot_at nets (network_255_used c) n k -> 0 <= k)
    by (intros n k Hk; apply (slot_range _ _ _ _ _ (tb_map _ _ _ _ _ Ht) Hk)).
  assert (Hrows : forall n k, slot_at nets (network_255_used c) n k -> map_ok (individual_map3 c' k) (rows' k)).
  { intros n k Hk. destruct (decide (k = i)) as [->|Hne]; [done|]. destruct (Hother k Hne) as [-> ->].
    by apply (r3_rows _ _ _ _ _ Hrep n). }
  assert (Hslots : forall k p, k <> (net, host) ->
    slot3 nets (network_255_used c) rows' (individual_255_used3 c') k p <->
    slot3 nets (network_255_used c) rows (individual_255_used3 c) k p).
  { intros [n h] p Hne. split; intros (k & q & Hk & Hq & ->); exists k, q; cbn in *; (split; [exact Hk|]; split; [|done]).
    all: destruct (decide (k = i)) as [->|Hki].
    all: try (assert (n = net) as -> by (by eapply so_inj); apply Hiff in Hq; [exact Hq | congruence]).
    all: destruct (Hother k Hki) as [_ E]; specialize (Hbits k (Hrange _ _ Hk) Hki); congruence. }
  split; [split; rewrite ?Hm, ?Hu, ?Hn; [exact Ht | exact Hrows | |] | split; [rewrite Hu; by exists i, j|]].
  - intros k Hk Hfree. rewrite Hbits by (first [lia | intros ->; by apply (Hfree net)]).
    by apply (r3_free _ _ _ _ _ Hrep).
  - rewrite Hi. eapply levels_add; [| exact (r3_hosts _ _ _ _ _ Hrep) | by exists i, j | intros l q; apply Hslots].
    eapply slot3_ok; [exact (tb_map _ _ _ _ _ Ht) | exact Hrows].
  - intros k p Hk. rewrite Hu. destruct (decide (k = (net, host))) as [->|Hne]; [|by apply Hslots].
    destruct Hk as (x & q & Hx & Hq & _). cbn in *. rewrite (so_fun _ Hok _ _ _ Hx Hs) in Hq. by destruct (Hno q).
Qed.

(** What [client3_host] does for a host of the network in the slot [i]. *)
Definition host_result (nets : list Z) (rows : Z -> list Z) (c : class3DelayPool) mn mh ini rates net i host : Prop :=
  exists rows' c' p, client3_host ini rates c i host = Some (c', p) /\ aggregate3 c' = aggregate3 c /\
    rep3 nets rows' c' mn (with_default mh (net, host) (initial_level ini (max_bytes (r_individual rates)))) /\
    slot3 nets (network_255_used c') rows' (individual_255_used3 c') (net, host) p /\
    (forall k q, slot3 nets (network_255_used c) rows (individual_255_used3 c) k q ->
       slot3 nets (network_255_used c') rows' (individual_255_used3 c') k q).

Lemma slot3_none nets rows c mn mh net i host p :
  rep3 nets rows c mn mh -> slot_at nets (network_255_used c) net i ->
  (forall q, ~ slot_at (rows i) (bit_used (individual_255_used3 c) i) host q) ->
  ~ slot3 nets (network_255_used c) rows (individual_255_used3 c) (net, host) p.
Proof.
  intros Hrep Hs Hq (k & q & Hk & Hq' & _). cbn in *. apply (Hq q).
  by rewrite (so_fun _ (slot_ok _ _ (network_255_used c) (tb_map _ _ _ _ _ (r3_nets _ _ _ _ _ Hrep))) _ _ _ Hk Hs) in Hq'.
Qed.

Lemma client3_host_255 nets rows c mn mh ini rates net i :
  rep3 nets rows c mn mh -> slot_at nets (network_255_used c) net i ->
  host_result nets rows c mn mh ini rates net i 255.
Proof.
  intros Hrep Hs. pose proof (r3_rows _ _ _ _ _ Hrep _ _ Hs) as Hm. pose proof (r3_hosts _ _ _ _ _ Hrep) as Hl.
  assert (Hi : 0 <= i <= 255) by apply (slot_range _ _ _ _ _ (tb_map _ _ _ _ _ (r3_nets _ _ _ _ _ Hrep)) Hs).
  unfold host_result, client3_host. cbn [Z.eqb Pos.eqb]. set (level := initial_level ini _).
  rewrite position_eq by lia. destruct (bit_used (individual_255_used3 c) i) eqn:Eu.
  - assert (Hs3 : slot3 nets (network_255_used c) rows (individual_255_used3 c) (net, 255) (i * 256 + 255)).
    { exists i, 255. split; [done|]. split; [|done]. by left. }
    exists rows, c, (i * 256 + 255). by rewrite (levels_default _ _ _ _ _ _ Hl Hs3).
  - assert (Hno : forall q, ~ slot_at (rows i) false 255 q) by (intros q; by eapply no_slot_255).
    rewrite (levels_default_new _ _ _ _ _ Hl) by (intros p; eapply slot3_none; [done..|by rewrite Eu]).
    assert (Hset := bit_used_set (individual_255_used3 c) i). pose proof (Hset i ltac:(lia) ltac:(lia)) as Hset'.
    rewrite Z.eqb_refl in Hset'. cbn in Hset'.
    exists rows. do 2 eexists. split; [reflexivity|]. split; [done|].
    eapply (rep3_add _ _ _ _ _ _ _ net 255 i 255 level Hrep Hs); cbn -[Z.div Z.modulo Z.lor Z.shiftl]; try done.
    + intros k Hk Hki. rewrite Hset by lia. by rewrite (proj2 (Z.eqb_neq k i)).
    + rewrite Hset'. by left.
    + by rewrite Eu.
    + intros h q ?. rewrite Hset', Eu. by apply slot_use.
Qed.

Lemma client3_host_ok nets rows c mn mh ini rates net i host :
  rep3 nets rows c mn mh -> slot_at nets (network_255_used c) net i -> 0 <= host <= 255 ->
  host_result nets rows c mn mh ini rates net i host.
Proof.
  intros Hrep Hs Hh. destruct (Z.eqb_spec host 255) as [->|Hne]; [by apply client3_host_255|].
  pose proof (r3_rows _ _ _ _ _ Hrep _ _ Hs) as Hm. pose proof (r3_hosts _ _ _ _ _ Hrep) as Hl.
  assert (Hi : 0 <= i <= 255) by apply (slot_range _ _ _ _ _ (tb_map _ _ _ _ _ (r3_nets _ _ _ _ _ Hrep)) Hs).
  unfold host_result, client3_host. rewrite (proj2 (Z.eqb_neq host 255)) by done. set (level := initial_level ini _).
  destruct (find_slot_ok _ _ host Hm ltac:(lia)) as [(j & Hj & ->)|[Hnh ->]].
  - assert (Hs' := slot_found _ (bit_used (individual_255_used3 c) i) _ _ Hj).
    rewrite position_eq by (first [lia | pose proof (slot_range _ _ _ _ _ Hm Hs'); lia]).
    assert (Hs3 : slot3 nets (network_255_used c) rows (individual_255_used3 c) (net, host) (i * 256 + Z.of_nat j))
      by (by exists i, (Z.of_nat j)).
    exists rows, c, (i * 256 + Z.of_nat j). by rewrite (levels_default _ _ _ _ _ _ Hl Hs3).
  - pose proof (map_ok_new_length _ _ host Hm ltac:(lia) Hnh). rewrite position_eq by lia.
    assert (Hno : forall q, ~ slot_at (rows i) (bit_used (individual_255_used3 c) i) host q)
      by (intros q; by eapply no_slot; [|lia|]).
    rewrite (levels_default_new _ _ _ _ _ Hl) by (intros p; by eapply slot3_none).
    exists (fun k => if k =? i then rows i ++ [host] else rows k). do 2 eexists.
    split; [reflexivity|]. split; [done|].
    eapply (rep3_add _ _ _ _ _ _ _ net host i _ level Hrep Hs); cbn; rewrite ?Z.eqb_refl; try done.
    + by apply put_host_ok; [|lia|].
    + intros k Hk. by rewrite (proj2 (Z.eqb_neq k i)).
    + apply slot_new.
    + intros h q ?. by apply slot_snoc.
Qed.

Lemma update_row_0 map hosts ind bytes max base x :
  map_ok map hosts ->
  update_row 256 map ind bytes max 0 base x
  = if (base <=? x) && (x <? base + Z.of_nat (length hosts)) then bump bytes max (ind x) else ind x.
Proof.
  intros Hm. pose proof (map_ok_length _ _ Hm).
  pose proof (update_row_from _ _ bytes max 256 0 base ind x Hm ltac:(lia) ltac:(lia) ltac:(lia)) as E.
  by rewrite !Z.add_0_r in E.
Qed.

Lemma update_net_hosts_at c ind bytes max i hosts j h :
  map_ok (individual_map3 c i) hosts -> 0 <= i -> slot_at hosts (bit_used (individual_255_used3 c) i) h j ->
  update_net_hosts c ind bytes max i (i * 256 + j) = bump bytes max (ind (i * 256 + j)).
Proof.
  intros Hm Hi Hs. unfold update_net_hosts. pose proof (map_ok_length _ _ Hm).
  rewrite position_eq, Z.shiftl_mul_pow2 by lia. change (2 ^ 8) with 256.
  pose proof (slot_range _ _ _ _ _ Hm Hs) as Hr. destruct Hs as [(-> & Hu & ->)|[Hj Hk]].
  - rewrite Hu, update_entry_at, Z.eqb_refl, (update_row_0 _ hosts) by done.
    rewrite (proj2 (Z.ltb_ge _ _)), andb_false_r by lia. done.
  - apply lookup_lt_Some in Hk.
    assert (E : update_row 256 (individual_map3 c i) ind bytes max 0 (i * 256) (i * 256 + j)
                = bump bytes max (ind (i * 256 + j))).
    { rewrite (update_row_0 _ hosts) by done. by rewrite (proj2 (Z.leb_le _ _)), (proj2 (Z.ltb_lt _ _)) by lia. }
    destruct (bit_used _ i); [|exact E]. rewrite update_entry_at, (proj2 (Z.eqb_neq _ _)) by lia. exact E.
Qed.

Lemma update_net_hosts_other c ind bytes max i hosts x :
  map_ok (individual_map3 c i) hosts -> 0 <= i -> ~ (i * 256 <= x < i * 256 + 256) ->
  update_net_hosts c ind bytes max i x = ind x.
Proof.
  intros Hm Hi Hx. unfold update_net_hosts. pose proof (map_ok_length _ _ Hm).
  rewrite position_eq, Z.shiftl_mul_pow2 by lia. change (2 ^ 8) with 256.
  assert (E : update_row 256 (individual_map3 c i) ind bytes max 0 (i * 256) x = ind x).
  { rewrite (update_row_0 _ hosts) by done.
    destruct (Z.leb_spec (i * 256) x), (Z.ltb_spec x (i * 256 + Z.of_nat (length hosts))); try done; lia. }
  destruct (bit_used _ i); [|exact E]. rewrite update_entry_at, (proj2 (Z.eqb_neq _ _)) by lia. exact E.
Qed.

(** One round of the loop over the networks, and the loop. *)
Definition step_net (rates : delaySpecSet) (incr : Z) (c : class3DelayPool) (net ind : arr) (i : Z) : arr * arr :=
  let nbytes := i32 (restore_bps (r_network rates) * incr) in
  let ibytes := i32 (restore_bps (r_individual rates) * incr) in
  (if nbytes =? - incr then net else update_entry net i nbytes (max_bytes (r_network rates)),
   if ibytes =? - incr then ind else update_net_hosts c ind ibytes (max_bytes (r_individual rates)) i).

(** The levels after a round at the slot [i]. *)
Definition bump_or (bytes incr max v : Z) : Z := if bytes =? - incr then v else bump bytes max v.
Definition bump_spec (spec : delaySpec) (incr : Z) : Z -> Z :=
  bump_or (i32 (restore_bps spec * incr)) incr (max_bytes spec).

Lemma update_nets_step fuel c rates incr net ind i :
  update_nets (S fuel) c rates incr net ind i
  = if negb (i =? 255) && (network_map c i =? 255) then (net, ind)
    else let '(net, ind) := step_net rates incr c net ind i in
         if i =? 254 then (net, ind) else update_nets fuel c rates incr net ind (u8 (i + 1)).
Proof. cbn [update_nets]. destruct (negb (i =? 255) && (network_map c i =? 255)); reflexivity. Qed.

Lemma step_net_network rates incr c net ind i x :
  (step_net rates incr c net ind i).1 x = if x =? i then bump_spec (r_network rates) incr (net i) else net x.
Proof.
  unfold step_net, bump_spec, bump_or. cbn [fst]. destruct (_ =? - incr).
  - destruct (Z.eqb_spec x i) as [->|]; done.
  - apply update_entry_at.
Qed.

Lemma step_net_host rates incr c net ind i hosts j h :
  map_ok (individual_map3 c i) hosts -> 0 <= i -> slot_at hosts (bit_used (individual_255_used3 c) i) h j ->
  (step_net rates incr c net ind i).2 (i * 256 + j) = bump_spec (r_individual rates) incr (ind (i * 256 + j)).
Proof.
  intros Hm Hi Hs. unfold step_net, bump_spec, bump_or. cbn [snd]. destruct (_ =? - incr); [done|].
  by eapply update_net_hosts_at.
Qed.

Lemma step_net_host_other rates incr c net ind i hosts x :
  map_ok (individual_map3 c i) hosts -> 0 <= i -> ~ (i * 256 <= x < i * 256 + 256) ->
  (step_net rates incr c net ind i).2 x = ind x.
Proof.
  intros Hm Hi Hx. unfold step_net. cbn [snd]. destruct (_ =? - incr); [done|].
  by eapply update_net_hosts_other.
Qed.

(** The levels of the slots from [lo] to before [hi] are raised. *)
Definition raised (c : class3DelayPool) (rows : Z -> list Z) (rates : delaySpecSet) (incr lo hi : Z)
    (a a' : arr * arr) : Prop :=
  (forall x, a'.1 x = if (lo <=? x) && (x <? hi) then bump_spec (r_network rates) incr (a.1 x) else a.1 x) /\
  (forall i j h, 0 <= i -> slot_at (rows i) (bit_used (individual_255_used3 c) i) h j -> 0 <= j < 256 ->
     a'.2 (i * 256 + j) = if (lo <=? i) && (i <? hi) then bump_spec (r_individual rates) incr (a.2 (i * 256 + j))
                          else a.2 (i * 256 + j)).

Lemma between_none lo x : (lo <=? x) && (x <? lo) = false.
Proof. destruct (Z.leb_spec lo x), (Z.ltb_spec x lo); try done; lia. Qed.

Lemma raised_refl c rows rates incr k a : raised c rows rates incr k k a a.
Proof. split; intros; by rewrite between_none. Qed.

Lemma between_cases lo mid hi x :
  lo <= mid <= hi ->
  ((lo <=? x) && (x <? mid) = true /\ (mid <=? x) && (x <? hi) = false /\ (lo <=? x) && (x <? hi) = true) \/
  ((lo <=? x) && (x <? mid) = false /\ (mid <=? x) && (x <? hi) = (lo <=? x) && (x <? hi)).
Proof.
  intros H. destruct (Z.leb_spec lo x), (Z.ltb_spec x mid), (Z.leb_spec mid x), (Z.ltb_spec x hi);
    cbn; auto; lia.
Qed.

Lemma raised_trans c rows rates incr lo mid hi a b d :
  lo <= mid <= hi -> raised c rows rates incr lo mid a b -> raised c rows rates incr mid hi b d ->
  raised c rows rates incr lo hi a d.
Proof.
  intros Hb [N1 H1] [N2 H2]. split.
  - intros x. rewrite N2, N1. destruct (between_cases lo mid hi x Hb) as [(-> & -> & ->)|(-> & ->)]; done.
  - intros i j h Hi Hs Hj. rewrite (H2 i j h Hi Hs Hj), (H1 i j h Hi Hs Hj).
    destruct (between_cases lo mid hi i Hb) as [(-> & -> & ->)|(-> & ->)]; done.
Qed.

Lemma raised_step c rows rates incr i net ind :
  0 <= i -> map_ok (individual_map3 c i) (rows i) ->
  raised c rows rates incr i (i + 1) (net, ind) (step_net rates incr c net ind i).
Proof.
  intros Hi Hm.
  assert (E : forall x, (i <=? x) && (x <? i + 1) = (x =? i)).
  { intros x. destruct (Z.leb_spec i x), (Z.ltb_spec x (i + 1)), (Z.eqb_spec x i); try done; lia. }
  split.
  - intros x. rewrite E, step_net_network. cbn. by destruct (Z.eqb_spec x i) as [->|].
  - intros x j h Hx Hs Hj. rewrite E. cbn [snd]. destruct (Z.eqb_spec x i) as [->|Hne].
    + by eapply step_net_host.
    + eapply step_net_host_other; [exact Hm | done | lia].
Qed.

Lemma update_nets_from c nets rows rates incr fuel k net ind :
  map_ok (network_map c) nets ->
  (forall i, (i < length nets)%nat -> map_ok (individual_map3 c (Z.of_nat i)) (rows (Z.of_nat i))) ->
  (k <= length nets)%nat -> (k <= 254)%nat -> (length nets < k + fuel)%nat ->
  raised c rows rates incr (Z.of_nat k) (Z.of_nat (length nets)) (net, ind)
    (update_nets fuel c rates incr net ind (Z.of_nat k)).
Proof.
  intros Hm Hr. revert k net ind. induction fuel as [|fuel IH]; intros k net ind Hk H254 Hf; [lia|].
  rewrite update_nets_step. destruct (nets !! k) as [n|] eqn:E.
  - assert (Hlt := lookup_lt_Some _ _ _ E). rewrite (mo_hosts _ _ Hm k n E).
    pose proof (Forall_lookup_1 _ _ _ _ (mo_range _ _ Hm) E) as Hn. cbn in Hn.
    rewrite (proj2 (Z.eqb_neq n 255)), andb_false_r by lia.
    pose proof (raised_step c rows rates incr (Z.of_nat k) net ind ltac:(lia) (Hr k Hlt)) as Hstep.
    destruct (step_net rates incr c net ind (Z.of_nat k)) as [net1 ind1].
    pose proof (map_ok_length _ _ Hm).
    destruct (Z.eqb_spec (Z.of_nat k) 254) as [E254|Hne].
    + by replace (Z.of_nat (length nets)) with (Z.of_nat k + 1) by lia.
    + replace (u8 (Z.of_nat k + 1)) with (Z.of_nat (S k)) by (rewrite wrapu_small; lia).
      replace (Z.of_nat k + 1) with (Z.of_nat (S k)) in Hstep by lia.
      eapply raised_trans; [|exact Hstep | apply IH]; lia.
  - apply lookup_ge_None in E. assert (k = length nets) as -> by lia.
    rewrite (mo_end _ _ Hm), (proj2 (Z.eqb_neq (Z.of_nat (length nets)) 255)) by lia.
    apply raised_refl.
Qed.

(** What a loop does at the slot [i], in the networks and in the hosts of its row. *)
Definition at_slot (c : class3DelayPool) (rows : Z -> list Z) (i : Z) (f g : Z -> Z) (a a' : arr * arr) : Prop :=
  a'.1 i = f (a.1 i) /\
  forall h j, slot_at (rows i) (bit_used (individual_255_used3 c) i) h j ->
    a'.2 (i * 256 + j) = g (a.2 (i * 256 + j)).

Lemma raised_in c rows rates incr lo hi i a a' :
  raised c rows rates incr lo hi a a' -> 0 <= i -> map_ok (individual_map3 c i) (rows i) -> lo <= i < hi ->
  at_slot c rows i (bump_spec (r_network rates) incr) (bump_spec (r_individual rates) incr) a a'.
Proof.
  intros [N H] Hi Hm Hb. assert (E : (lo <=? i) && (i <? hi) = true) by lia. split; [by rewrite N, E|].
  intros h j Hs. pose proof (slot_range _ _ _ _ _ Hm Hs). rewrite (H i j h), E by (done || lia). done.
Qed.

Lemma raised_out c rows rates incr lo hi i a a' :
  raised c rows rates incr lo hi a a' -> 0 <= i -> map_ok (individual_map3 c i) (rows i) -> ~ (lo <= i < hi) ->
  at_slot c rows i id id a a'.
Proof.
  intros [N H] Hi Hm Hb. assert (E : (lo <=? i) && (i <? hi) = false) by lia. split; [by rewrite N, E|].
  intros h j Hs. pose proof (slot_range _ _ _ _ _ Hm Hs). rewrite (H i j h), E by (done || lia). done.
Qed.

Lemma at_slot_trans c rows i f g f' g' a b d :
  at_slot c rows i f g a b -> at_slot c rows i f' g' b d ->
  at_slot c rows i (fun v => f' (f v)) (fun v => g' (g v)) a d.
Proof. intros [N1 H1] [N2 H2]. split; [by rewrite N2, N1|]. intros h j Hs. by rewrite (H2 h j Hs), (H1 h j Hs). Qed.

(** The whole loop, at a slot in use. *)
Lemma update_nets_at nets rows c mn mh rates incr fuel n i :
  rep3 nets rows c mn mh -> (256 <= fuel)%nat -> slot_at nets (network_255_used c) n i ->
  at_slot c rows i (bump_spec (r_network rates) incr) (bump_spec (r_individual rates) incr)
    (network c, individual3 c)
    (update_nets (S fuel) c rates incr (network c) (individual3 c) (if network_255_used c then 255 else 0)).
Proof.
  intros Hrep Hf Hs. pose proof (tb_map _ _ _ _ _ (r3_nets _ _ _ _ _ Hrep)) as Hm. pose proof (map_ok_length _ _ Hm) as Hlen.
  pose proof (slot_range _ _ _ _ _ Hm Hs) as [Hi _]. pose proof (r3_rows _ _ _ _ _ Hrep _ _ Hs) as Hrow.
  assert (Hr : forall i, (i < length nets)%nat -> map_ok (individual_map3 c (Z.of_nat i)) (rows (Z.of_nat i))).
  { intros x [y Hy]%lookup_lt_is_Some. apply (r3_rows _ _ _ _ _ Hrep y). by apply slot_found. }
  assert (H0 : forall fuel a, (256 <= fuel)%nat -> raised c rows rates incr 0 (Z.of_nat (length nets)) a
    (update_nets fuel c rates incr a.1 a.2 0)).
  { intros fuel' [a1 a2] Hf'. by apply (update_nets_from c nets rows rates incr fuel' 0); [..|lia|lia|lia]. }
  destruct (network_255_used c) eqn:Eu.
  - rewrite update_nets_step. cbn [Z.eqb Pos.eqb negb andb].
    assert (Hrow255 : map_ok (individual_map3 c 255) (rows 255))
      by (apply (r3_rows _ _ _ _ _ Hrep 255); rewrite Eu; by left).
    pose proof (raised_step c rows rates incr 255 (network c) (individual3 c) ltac:(lia) Hrow255) as Hstep.
    destruct (step_net rates incr c (network c) (individual3 c) 255) as [net1 ind1].
    specialize (H0 fuel (net1, ind1) Hf). destruct (decide (i = 255)) as [->|Hne].
    + pose proof (raised_in _ _ _ _ _ _ 255 _ _ Hstep ltac:(lia) Hrow ltac:(lia)) as S1.
      pose proof (raised_out _ _ _ _ _ _ 255 _ _ H0 ltac:(lia) Hrow ltac:(lia)) as S2. exact (at_slot_trans _ _ _ _ _ _ _ _ _ _ S1 S2).
    + pose proof (raised_out _ _ _ _ _ _ i _ _ Hstep ltac:(lia) Hrow ltac:(lia)) as S1.
      assert (Hin : i < Z.of_nat (length nets)) by (destruct Hs as [(_ & _ & ?)|[_ Hk%lookup_lt_Some]]; lia).
      pose proof (raised_in _ _ _ _ _ _ i _ _ H0 ltac:(lia) Hrow ltac:(lia)) as S2. exact (at_slot_trans _ _ _ _ _ _ _ _ _ _ S1 S2).
  - destruct Hs as [(_ & ? & _)|[_ Hk%lookup_lt_Some]]; [done|].
    apply (raised_in _ _ _ _ 0 (Z.of_nat (length nets))); [|lia|exact Hrow|lia].
    apply (H0 (S fuel) (network c, individual3 c)). lia.
Qed.

Lemma bump_spec_raise spec incr v :
  1 <= incr -> incr < 2 ^ 31 -> spec_ok spec incr -> level_ok spec v -> bump_spec spec incr v = raise spec incr v.
Proof.
  intros Hi Hi' Hs Hl. unfold bump_spec, bump_or. destruct (Z.eqb_spec (restore_bps spec) (-1)) as [E|E].
  - rewrite E. rewrite wraps_small by (change (2 ^ (32 - 1)) with (2 ^ 31); lia).
    replace (-1 * incr) with (- incr) by lia. rewrite Z.eqb_refl. unfold raise. by rewrite (proj2 (Z.eqb_eq _ _) E).
  - rewrite restore_raise by done. destruct Hs as [?|(H0 & Hm & Hs)]; [done|].
    rewrite wraps_small by (change (2 ^ (32 - 1)) with (2 ^ 31); nia).
    by rewrite (proj2 (Z.eqb_neq _ _)) by nia.
Qed.

Lemma update3_ok nets rows c mn mh rates incr :
  rep3 nets rows c mn mh -> 1 <= incr < 2 ^ 31 -> spec_ok (r_network rates) incr -> spec_ok (r_individual rates) incr ->
  map_Forall (fun _ v => level_ok (r_network rates) v) mn -> map_Forall (fun _ v => level_ok (r_individual rates) v) mh ->
  rep3 nets rows (delayUpdateClass3 c rates incr)
    (raise (r_network rates) incr <$> mn) (raise (r_individual rates) incr <$> mh).
Proof.
  intros Hrep Hi Hsn Hsi Hln Hlh. unfold delayUpdateClass3.
  destruct ((restore_bps (r_network rates) =? -1) && (restore_bps (r_individual rates) =? -1)) eqn:E.
  - apply andb_true_iff in E as [E1 E2].
    assert (Hid : forall spec, (restore_bps spec =? -1) = true -> forall v, raise spec incr v = id v)
      by (intros spec Es v; unfold raise; by rewrite Es).
    rewrite (map_fmap_ext _ id mn) by (intros; by apply Hid). rewrite (map_fmap_ext _ id mh) by (intros; by apply Hid).
    rewrite !map_fmap_id. destruct Hrep as [H1 H2 H3 H4]. by split.
  - pose proof (fun n i => update_nets_at _ _ _ _ _ rates incr 256 n i Hrep ltac:(lia)) as Hat. clear E.
    change 257%nat with (S 256). revert Hat. generalize 256%nat. intros fuel Hat.
    destruct (update_nets _ _ _ _ _ _ _) as [net ind]. destruct Hrep as [[Hm Hl] H2 H3 H4].
    split; cbn [network_map network_255_used network individual_map3 individual_255_used3 individual3];
      [split; [exact Hm|] | exact H2 | exact H3 |].
    + eapply levels_fmap; [exact Hl|]. intros n i Hs. destruct (Hat n i Hs) as [E _]. cbn [fst] in E. rewrite E.
      apply bump_spec_raise; [lia.. | exact Hsn|]. apply (Hln n). apply Hl. by exists i.
    + eapply levels_fmap; [exact H4|]. intros k p Hs. pose proof Hs as (i & j & Hs1 & Hs2 & ->).
      destruct (Hat _ i Hs1) as [_ H]. specialize (H _ j Hs2). cbn [snd] in H. rewrite H.
      apply bump_spec_raise; [lia.. | exact Hsi|]. apply (Hlh k). apply H4. by exists (i * 256 + j).
Qed.

Lemma position_net i j : 0 <= j < 256 -> Z.shiftr (i * 256 + j) 8 = i.
Proof. intros Hj. rewrite Z.shiftr_div_pow2 by lia. change (2 ^ 8) with 256. dlia. Qed.

Lemma in3_ok nets rows c mn mh k p qty :
  rep3 nets rows c mn mh -> slot3 nets (network_255_used c) rows (individual_255_used3 c) k p ->
  exists c', pool_in (Class3 c) p qty = Some (Class3 c') /\ aggregate3 c' = i32 (aggregate3 c - qty) /\
    rep3 nets rows c' (alter (fun v => i32 (v - qty)) k.1 mn) (alter (fun v => i32 (v - qty)) k mh) /\
    slot3 nets (network_255_used c') rows (individual_255_used3 c') k p.
Proof.
  intros Hrep Hs. eexists. split; [reflexivity|]. split; [done|]. split; [|exact Hs].
  pose proof (rep3_slots _ _ _ _ _ Hrep) as Hok3. destruct Hrep as [[Hm Hl] H2 H3 H4].
  pose proof Hs as (i & j & Hi & Hj & Hp). pose proof (slot_range _ _ _ _ _ (H2 _ _ Hi) Hj).
  assert (Hnet : Z.shiftr p 8 = i) by (subst; apply position_net; lia). rewrite Hnet.
  split; cbn [network_map network_255_used network individual_map3 individual_255_used3 individual3];
    [split; [exact Hm|] | exact H2 | exact H3 |].
  - eapply levels_alter; [by eapply slot_ok | exact Hl | exact Hi | by rewrite upd_same|]. intros q ?. by apply upd_other.
  - eapply levels_alter; [exact Hok3 | exact H4 | exact Hs | by rewrite upd_same|]. intros q ?. by apply upd_other.
Qed.

(** What a host may read. *)
Lemma wanted2_ok hosts c m rates h p max :
  rep2 hosts c m -> slot_at hosts (individual_255_used c) h p ->
  exists v, m !! h = Some v /\
    pool_wanted (Class2 c) rates p max = limit (limit max (r_aggregate rates) (aggregate2 c)) (r_individual rates) v.
Proof. intros [_ Hl] Hs. exists (individual c p). split; [by eapply levels_at | done]. Qed.

Lemma wanted3_ok nets rows c mn mh rates k p max :
  rep3 nets rows c mn mh -> slot3 nets (network_255_used c) rows (individual_255_used3 c) k p ->
  exists v w, mh !! k = Some v /\ mn !! k.1 = Some w /\
    pool_wanted (Class3 c) rates p max
    = limit (limit (limit max (r_aggregate rates) (aggregate3 c)) (r_individual rates) v) (r_network rates) w.
Proof.
  intros Hrep Hs. destruct Hrep as [[Hm Hl] H2 H3 H4]. pose proof Hs as (i & j & Hi & Hj & Hp).
  pose proof (slot_range _ _ _ _ _ (H2 _ _ Hi) Hj).
  exists (individual3 c p), (network c i). split; [by eapply levels_at|]. split; [by eapply levels_at|].
  cbn [pool_wanted]. by replace (Z.shiftr p 8) with i by (subst; rewrite position_net by lia; done).
Qed.

(** ** The abstract pools

    A total, a level for each network of two octets and one for each host: no
    slots, no maps, no positions. *)

Inductive spec_pool :=
| SNone
| STotal (total : Z)
| SHosts (total : Z) (hosts : gmap Z Z)
| SNets (total : Z) (nets : gmap Z Z) (hosts : gmap (Z * Z) Z).

Definition host_of (addr : Z) : Z := Z.land addr 255.
Definition net_host_of (addr : Z) : Z * Z := (Z.shiftr (Z.land addr 65535) 8, Z.land (Z.land addr 65535) 255).

Definition first_level (ini : Z) (spec : delaySpec) : Z := initial_level ini (max_bytes spec).

Definition spec_client (ini : Z) (rates : delaySpecSet) (addr : Z) (s : spec_pool) : spec_pool :=
  match s with
  | SHosts t m => SHosts t (with_default m (host_of addr) (first_level ini (r_individual rates)))
  | SNets t n m =>
      SNets t (with_default n (net_host_of addr).1 (first_level ini (r_network rates)))
        (with_default m (net_host_of addr) (first_level ini (r_individual rates)))
  | s => s
  end.

Definition spec_update (rates : delaySpecSet) (incr : Z) (s : spec_pool) : spec_pool :=
  match s with
  | SNone => SNone
  | STotal t => STotal (raise (r_aggregate rates) incr t)
  | SHosts t m => SHosts (raise (r_aggregate rates) incr t) (raise (r_individual rates) incr <$> m)
  | SNets t n m => SNets (raise (r_aggregate rates) incr t) (raise (r_network rates) incr <$> n)
                     (raise (r_individual rates) incr <$> m)
  end.

Definition take_from (qty v : Z) : Z := i32 (v - qty).

Definition spec_in (addr qty : Z) (s : spec_pool) : spec_pool :=
  match s with
  | SNone => SNone
  | STotal t => STotal (take_from qty t)
  | SHosts t m => SHosts (take_from qty t) (alter (take_from qty) (host_of addr) m)
  | SNets t n m => SNets (take_from qty t) (alter (take_from qty) (net_host_of addr).1 n)
                     (alter (take_from qty) (net_host_of addr) m)
  end.

(** The least of the limits that are enabled. *)
Definition spec_wanted (rates : delaySpecSet) (addr max : Z) (s : spec_pool) : Z :=
  let total := limit max (r_aggregate rates) in
  match s with
  | SNone => max
  | STotal t => total t
  | SHosts t m => limit (total t) (r_individual rates) (default 0 (m !! host_of addr))
  | SNets t n m => limit (limit (total t) (r_individual rates) (default 0 (m !! net_host_of addr)))
                     (r_network rates) (default 0 (n !! (net_host_of addr).1))
  end.

(** No sum of [spec_update] overflows, and the levels are within their maxima. *)
Definition rates_ok (rates : delaySpecSet) (incr : Z) : Prop :=
  spec_ok (r_aggregate rates) incr /\ spec_ok (r_individual rates) incr /\ spec_ok (r_network rates) incr.

Definition levels_ok (rates : delaySpecSet) (s : spec_pool) : Prop :=
  match s with
  | SNone => True
  | STotal t => level_ok (r_aggregate rates) t
  | SHosts t m => level_ok (r_aggregate rates) t /\ map_Forall (fun _ v => level_ok (r_individual rates) v) m
  | SNets t n m => level_ok (r_aggregate rates) t /\ map_Forall (fun _ v => level_ok (r_network rates) v) n /\
                   map_Forall (fun _ v => level_ok (r_individual rates) v) m
  end.

(** The order in which the hosts of a pool came. *)
Record layout := Layout { l_hosts : list Z; l_rows : Z -> list Z }.

Definition pool_rep (l : layout) (p : delayPool) (s : spec_pool) : Prop :=
  match p, s with
  | Class0, SNone => True
  | Class1 c, STotal t => aggregate1 c = t
  | Class2 c, SHosts t m => aggregate2 c = t /\ rep2 (l_hosts l) c m
  | Class3 c, SNets t n m => aggregate3 c = t /\ rep3 (l_hosts l) (l_rows l) c n m
  | _, _ => False
  end.

(** The position of an address. *)
Definition position_of (l : layout) (p : delayPool) (addr pos : Z) : Prop :=
  match p with
  | Class0 => False
  | Class1 _ => True
  | Class2 c => slot_at (l_hosts l) (individual_255_used c) (host_of addr) pos
  | Class3 c => slot3 (l_hosts l) (network_255_used c) (l_rows l) (individual_255_used3 c) (net_host_of addr) pos
  end.

Lemma pool_in_ok l p s addr pos qty :
  pool_rep l p s -> position_of l p addr pos ->
  exists p', pool_in p pos qty = Some p' /\ pool_rep l p' (spec_in addr qty s) /\
    (forall a q, position_of l p a q -> position_of l p' a q).
Proof.
  intros Hr Hp. destruct p as [|c|c|c], s as [|t|t m|t n m]; try done; cbn in Hr.
  - subst. by eexists.
  - destruct Hr as [<- Hr]. destruct (in2_ok _ _ _ _ _ qty Hr Hp) as (c' & -> & E & Eu & Hr').
    exists (Class2 c'). split; [done|]. split; [by split|]. cbn. by rewrite Eu.
  - destruct Hr as [<- Hr]. destruct (in3_ok _ _ _ _ _ _ _ qty Hr Hp) as (c' & E1 & E & Hr' & _).
    exists (Class3 c'). split; [done|]. split; [by split|]. cbn in E1. injection E1 as <-. done.
Qed.

Lemma pool_update_ok l p s rates incr :
  pool_rep l p s -> 1 <= incr < 2 ^ 31 -> rates_ok rates incr -> levels_ok rates s ->
  pool_rep l (update_pool p rates incr) (spec_update rates incr s) /\
  (forall a q, position_of l p a q -> position_of l (update_pool p rates incr) a q).
Proof.
  intros Hr Hi (Ha & Hin & Hn) Hl. destruct p as [|c|c|c], s as [|t|t m|t n m]; try done; cbn in Hr, Hl; subst.
  - split; [|done]. cbn. apply aggregate_raise; [lia | done..].
  - destruct Hr as [<- Hr], Hl as [Hlt Hlm]. split; [|done]. split; [apply aggregate_raise; [lia | done..]|].
    by apply update2_ok; [|lia| |].
  - destruct Hr as [<- Hr], Hl as (Hlt & Hln & Hlm).
    pose proof (update3_ok _ _ _ _ _ rates incr Hr Hi Hn Hin Hln Hlm) as Hr'.
    assert (E : aggregate3 (delayUpdateClass3 c rates incr) = update_aggregate (aggregate3 c) (r_aggregate rates) incr /\
      network_255_used (delayUpdateClass3 c rates incr) = network_255_used c /\
      individual_255_used3 (delayUpdateClass3 c rates incr) = individual_255_used3 c).
    { unfold delayUpdateClass3. destruct (_ && _); [done|]. by destruct (update_nets _ _ _ _ _ _ _). }
    destruct E as (E1 & E2 & E3). split; [|cbn; by rewrite E2, E3].
    split; [rewrite E1; apply aggregate_raise; [lia | done..] | exact Hr'].
Qed.

Lemma pool_wanted_ok l p s rates addr pos max :
  pool_rep l p s -> position_of l p addr pos -> pool_wanted p rates pos max = spec_wanted rates addr max s.
Proof.
  intros Hr Hp. destruct p as [|c|c|c], s as [|t|t m|t n m]; try done; cbn in Hr; subst.
  - done.
  - destruct Hr as [<- Hr]. destruct (wanted2_ok _ _ _ rates _ _ max Hr Hp) as (v & E & ->). cbn. by rewrite E.
  - destruct Hr as [<- Hr]. destruct (wanted3_ok _ _ _ _ _ rates _ _ max Hr Hp) as (v & w & E1 & E2 & ->).
    cbn [spec_wanted]. by rewrite E1, E2.
Qed.

Record spec_pools := SpecPools {
  s_pools : list (spec_pool * delaySpecSet); s_initial : Z; s_last : Z }.

Definition spec_at (s : spec_pools) (k : nat) (f : delaySpecSet -> spec_pool -> spec_pool) : spec_pools :=
  SpecPools (alter (fun x => (f x.2 x.1, x.2)) k (s_pools s)) (s_initial s) (s_last s).

(** The pool that a request is put in. *)
Definition spec_choose (s : spec_pools) (access : nat -> bool) (client_addr : Z) : option nat :=
  if client_addr =? INADDR_BROADCAST then None
  else k ← first_pool access 0 (length (s_pools s));
       '(p, _) ← s_pools s !! k;
       match p with SNone => None | _ => Some k end.

Definition spec_delayClient (s : spec_pools) (access : nat -> bool) (client_addr src_addr : Z) : spec_pools :=
  match spec_choose s access client_addr with
  | None => s
  | Some k => spec_at s k (fun rates => spec_client (s_initial s) rates src_addr)
  end.

Definition spec_delayPoolsUpdate (s : spec_pools) (squid_curtime : Z) : spec_pools :=
  let incr := squid_curtime - s_last s in
  if (length (s_pools s) =? 0)%nat || (incr <? 1) then s
  else SpecPools (map (fun x => (spec_update x.2 incr x.1, x.2)) (s_pools s)) (s_initial s) squid_curtime.

Definition spec_delayBytesIn (s : spec_pools) (k : nat) (addr qty : Z) : spec_pools :=
  spec_at s k (fun _ => spec_in addr qty).

Definition spec_delayBytesWanted (s : spec_pools) (k : nat) (addr min max : Z) : Z :=
  match s_pools s !! k with
  | Some (p, rates) => Z.max min (spec_wanted rates addr max p)
  | None => Z.max min max
  end.

(** The pools represent the abstract ones, in these layouts. *)
Definition rep_at (l : option layout) (x : option (delayPool * delaySpecSet)) (y : option (spec_pool * delaySpecSet))
    : Prop :=
  match l, x, y with
  | Some l, Some (p, r), Some (s, r') => r = r' /\ pool_rep l p s
  | None, None, None => True
  | _, _, _ => False
  end.

Record pools_rep (ls : list layout) (d : delay_pools) (s : spec_pools) : Prop := {
  pr_pools : forall k, rep_at (ls !! k) (pools d !! k) (s_pools s !! k);
  pr_initial : initial d = s_initial s;
  pr_last : last_update d = s_last s;
  pr_count : Z.of_nat (length (pools d)) < 65535 }.

(** [id] is the identifier of the requests of [addr] in the pool [k]. *)
Definition id_for (ls : list layout) (d : delay_pools) (id : Z) (k : nat) (addr : Z) : Prop :=
  exists l p r pos, ls !! k = Some l /\ pools d !! k = Some (p, r) /\ id = delay_id (Z.of_nat k + 1) pos /\
    0 <= pos < 65536 /\ position_of l p addr pos.

Definition ids_kept (ls : list layout) (d : delay_pools) (ls' : list layout) (d' : delay_pools) : Prop :=
  forall id k addr, id_for ls d id k addr -> id_for ls' d' id k addr.

Lemma id_decode k pos : Z.of_nat k < 65535 -> 0 <= pos < 65536 ->
  id_pool (delay_id (Z.of_nat k + 1) pos) = Z.of_nat k /\ id_position (delay_id (Z.of_nat k + 1) pos) = pos.
Proof.
  intros Hk Hp. unfold delay_id, id_pool, id_position. rewrite Z.shiftl_mul_pow2, lor_add by lia. split.
  - rewrite Z.shiftr_div_pow2 by lia. rewrite Z.div_add_l, (Z.div_small pos) by lia.
    rewrite wrapu_small by (change (2 ^ 16) with 65536; lia). lia.
  - change 65535 with (Z.ones 16). rewrite Z.land_ones by lia. rewrite Z.add_comm, Z.mod_add by lia.
    by apply Z.mod_small.
Qed.

Lemma rep_length ls d s : pools_rep ls d s -> length (pools d) = length (s_pools s).
Proof.
  intros H. apply Nat.le_antisymm.
  - destruct (le_lt_dec (length (pools d)) (length (s_pools s))) as [|Hlt]; [done|].
    apply lookup_lt_is_Some in Hlt as [[p r] E]. pose proof (pr_pools _ _ _ H (length (s_pools s))) as Hk.
    rewrite E in Hk. rewrite (proj2 (lookup_ge_None (s_pools s) _)) in Hk by done. by destruct (ls !! _).
  - destruct (le_lt_dec (length (s_pools s)) (length (pools d))) as [|Hlt]; [done|].
    apply lookup_lt_is_Some in Hlt as [[p r] E]. pose proof (pr_pools _ _ _ H (length (pools d))) as Hk.
    rewrite E in Hk. rewrite (proj2 (lookup_ge_None (pools d) _)) in Hk by done. by destruct (ls !! _).
Qed.

(** A pool changed in place. *)
Lemma rep_set ls d s k l p r sp f l' p' :
  pools_rep ls d s -> ls !! k = Some l -> pools d !! k = Some (p, r) -> s_pools s !! k = Some (sp, r) ->
  pool_rep l' p' (f r sp) -> (forall a q, position_of l p a q -> position_of l' p' a q) ->
  pools_rep (<[k := l']> ls) (set_pool d k p') (spec_at s k f) /\
  ids_kept ls d (<[k := l']> ls) (set_pool d k p').
Proof.
  intros H El Ed Es Hr Hp. split.
  - split; [|by apply H | by apply H | unfold set_pool; cbn; rewrite length_alter; by apply H]. cbn. intros j.
    destruct (decide (j = k)) as [->|Hne].
    + rewrite list_lookup_insert_eq by (by eapply lookup_lt_Some). rewrite !list_lookup_alter_eq, Ed, Es. by split.
    + rewrite list_lookup_insert_ne, !list_lookup_alter_ne by done. apply H.
  - intros id j addr (lj & pj & rj & pos & Hl & Hpj & Hid & Hb & Hpos).
    destruct (decide (j = k)) as [->|Hne].
    + exists l', p', r, pos. rewrite list_lookup_insert_eq by (by eapply lookup_lt_Some). cbn.
      rewrite list_lookup_alter_eq, Ed. do 4 (split; [done|]). apply Hp. congruence.
    + exists lj, pj, rj, pos. rewrite list_lookup_insert_ne by done. cbn. by rewrite list_lookup_alter_ne.
Qed.

Lemma rep_lookup ls d s k p r :
  pools_rep ls d s -> pools d !! k = Some (p, r) ->
  exists l sp, ls !! k = Some l /\ s_pools s !! k = Some (sp, r) /\ pool_rep l p sp.
Proof.
  intros H E. pose proof (pr_pools _ _ _ H k) as Hk. rewrite E in Hk.
  destruct (ls !! k) as [l|], (s_pools s !! k) as [[sp r']|]; try done. destruct Hk as [<- Hk]. by exists l, sp.
Qed.

Lemma first_pool_lt access k n j : first_pool access k n = Some j -> (j < k + n)%nat.
Proof.
  revert k. induction n as [|n IH]; intros k H; [done|]. cbn in H. destruct (access k).
  - injection H as <-. lia.
  - apply IH in H. lia.
Qed.

Lemma land_255 x : 0 <= Z.land x 255 <= 255.
Proof. change (Z.land x 255) with (Z.land x (Z.ones 8)). rewrite Z.land_ones by lia. change (2 ^ 8) with 256. dlia. Qed.

Lemma addr_ranges addr :
  0 <= host_of addr <= 255 /\ 0 <= (net_host_of addr).1 <= 255 /\ 0 <= (net_host_of addr).2 <= 255.
Proof.
  split; [apply land_255|]. split; [|apply land_255]. unfold net_host_of. cbn [fst].
  change (Z.land addr 65535) with (Z.land addr (Z.ones 16)). rewrite Z.shiftr_div_pow2, Z.land_ones by lia.
  change (2 ^ 16) with 65536. change (2 ^ 8) with 256. dlia.
Qed.

Lemma set_pool_same d k p r : pools d !! k = Some (p, r) -> set_pool d k p = d.
Proof.
  intros E. unfold set_pool. destruct d as [ps ini lu]. cbn in *. f_equal. apply list_eq. intros j.
  destruct (decide (j = k)) as [->|Hne]; [by rewrite list_lookup_alter_eq, E | by rewrite list_lookup_alter_ne].
Qed.

Lemma position_range l p s addr pos : pool_rep l p s -> (match p with Class1 _ => pos = 0 | _ => True end) ->
  position_of l p addr pos -> 0 <= pos < 65536.
Proof.
  intros Hr H0 Hp. destruct p as [|c|c|c], s as [|t|t m|t n m]; try done; cbn in Hr, Hp; [lia| |].
  - destruct Hr as [_ Hr]. pose proof (slot_range _ _ _ _ _ (tb_map _ _ _ _ _ Hr) Hp). lia.
  - destruct Hr as [_ [[Hm _] H2 _ _]], Hp as (i & j & Hi & Hj & ->).
    pose proof (slot_range _ _ _ _ _ Hm Hi). pose proof (slot_range _ _ _ _ _ (H2 _ _ Hi) Hj). lia.
Qed.

(** The client step of a configured pool. *)
Lemma pool_client_ok ls d s access ca sa k p r :
  pools_rep ls d s -> (ca =? INADDR_BROADCAST) = false ->
  first_pool access 0 (length (pools d)) = Some k -> pools d !! k = Some (p, r) -> p <> Class0 ->
  exists ls' d' id, delayClient d access ca sa = Some (d', id) /\
    pools_rep ls' d' (spec_at s k (fun rates => spec_client (s_initial s) rates sa)) /\
    ids_kept ls d ls' d' /\ id_for ls' d' id k sa.
Proof.
  intros H Hb Hf Ek Hc. destruct (rep_lookup _ _ _ _ _ _ H Ek) as (l & sp & El & Es & Hr).
  unfold delayClient. rewrite Hb, Hf, Ek. pose proof (addr_ranges sa) as (Hh & Hn & Hnh).
  pose proof (pr_initial _ _ _ H) as Hini.
  assert (Hset : forall l' p' pos, pool_rep l' p' (spec_client (s_initial s) r sa sp) ->
    (match p' with Class1 _ => pos = 0 | _ => True end) ->
    (forall a q, position_of l p a q -> position_of l' p' a q) -> position_of l' p' sa pos ->
    exists ls' d' id, Some (set_pool d k p', delay_id (Z.of_nat k + 1) pos) = Some (d', id) /\
    pools_rep ls' d' (spec_at s k (fun rates => spec_client (s_initial s) rates sa)) /\
    ids_kept ls d ls' d' /\ id_for ls' d' id k sa).
  { intros l' p' pos Hr' H1 Hk Hp. exists (<[k := l']> ls). do 2 eexists. split; [reflexivity|].
    destruct (rep_set _ _ _ k _ _ _ _ (fun rates => spec_client (s_initial s) rates sa) l' p' H El Ek Es Hr' Hk) as [H' Hids].
    split; [exact H'|]. split; [exact Hids|]. exists l', p', r, pos.
    rewrite list_lookup_insert_eq by (by eapply lookup_lt_Some). cbn. rewrite list_lookup_alter_eq, Ek.
    do 3 (split; [done|]). split; [by eapply position_range | exact Hp]. }
  destruct p as [|c|c|c], sp as [|t|t m|t n m]; try done; cbn in Hr.
  - destruct (Hset l (Class1 c) 0 Hr eq_refl (fun a q Hq => Hq) I) as (ls' & d' & id & [= <- <-] & Hrest).
    exists ls', d, (delay_id (Z.of_nat k + 1) 0). split; [done|]. by rewrite (set_pool_same _ _ _ _ Ek) in Hrest.
  - destruct Hr as [<- Hr]. destruct (client2_ok _ _ _ (s_initial s) r _ Hr Hh) as (hosts' & c' & pos & Ec & Ea & Hr' & Hs & Hk).
    rewrite Hini. unfold host_of in Ec. rewrite Ec. cbn -[delay_id Z.land].
    apply (Hset (Layout hosts' (l_rows l)) (Class2 c') pos); [by split | done | intros a q; apply Hk | exact Hs].
  - destruct Hr as [<- Hr].
    destruct (client3_net_ok _ _ _ _ _ (s_initial s) r _ Hr Hn) as (nets' & rows' & c1 & i & Ec & Ea & Hr' & Hs & Hk).
    destruct (client3_host_ok _ _ _ _ _ (s_initial s) r _ _ _ Hr' Hs Hnh) as (rows2 & c2 & pos & Ec2 & Ea2 & Hr2 & Hs2 & Hk2).
    unfold client3. rewrite Hini. unfold net_host_of in Ec, Ec2. cbn [fst snd] in Ec, Ec2. rewrite Ec.
    cbn -[delay_id Z.land Z.shiftr]. rewrite Ec2. cbn -[delay_id Z.land Z.shiftr].
    apply (Hset (Layout nets' rows2) (Class3 c2) pos); [split; [congruence | exact Hr2] | done | | exact Hs2].
    intros a q Hq. by apply Hk2, Hk.
Qed.

Definition spec_init (ini class : Z) (rates : delaySpecSet) : spec_pool :=
  let t := first_level ini (r_aggregate rates) in
  match class with 1 => STotal t | 2 => SHosts t ∅ | 3 => SNets t ∅ ∅ | _ => SNone end.

Definition no_hosts : layout := Layout [] (fun _ => []).

Lemma slot_at_nil h p : ~ slot_at [] false h p.
Proof. intros [(_ & ? & _)|[_ ?]]; done. Qed.

Lemma table_nil map lv : map 0 = 255 -> table [] map false lv ∅.
Proof.
  intros H. split; [by apply map_ok_empty|]. intros h v. rewrite lookup_empty. split; [done|].
  intros (p & Hs & _). by apply slot_at_nil in Hs.
Qed.

Lemma init_rep junk ini class rates :
  1 <= class <= 3 ->
  exists p, delayInitDelayPool junk ini class rates = Some p /\ pool_rep no_hosts p (spec_init ini class rates).
Proof.
  intros Hc. assert (class = 1 \/ class = 2 \/ class = 3) as [->|[->| ->]] by lia; eexists; (split; [reflexivity|]).
  - reflexivity.
  - split; [reflexivity|]. by apply table_nil.
  - split; [reflexivity|]. split; [by apply table_nil | | |].
    + intros net i Hs. by apply slot_at_nil in Hs.
    + intros i Hi _. unfold bit_used. cbn. done.
    + intros k v. rewrite lookup_empty. split; [done|]. intros (p & (i & j & Hs & _) & _). by apply slot_at_nil in Hs.
Qed.

Lemma id_for_decode ls d s id k addr :
  pools_rep ls d s -> id_for ls d id k addr ->
  exists l p r sp, id_pool id = Z.of_nat k /\ pools d !! k = Some (p, r) /\ ls !! k = Some l /\
    s_pools s !! k = Some (sp, r) /\ pool_rep l p sp /\ position_of l p addr (id_position id).
Proof.
  intros H (l & p & r & pos & El & Ed & -> & Hb & Hp). destruct (rep_lookup _ _ _ _ _ _ H Ed) as (l' & sp & El' & Es & Hr).
  assert (Hk : Z.of_nat k < 65535) by (pose proof (pr_count _ _ _ H); apply lookup_lt_Some in Ed; lia).
  destruct (id_decode k pos Hk Hb) as [E1 E2]. rewrite E1, E2. exists l, p, r, sp.
  rewrite El in El'. injection El' as <-. done.
Qed.

Lemma client_refines ls d s access ca sa :
  pools_rep ls d s ->
  exists ls' d' id, delayClient d access ca sa = Some (d', id) /\
    pools_rep ls' d' (spec_delayClient s access ca sa) /\ ids_kept ls d ls' d' /\
    match spec_choose s access ca with Some k => id_for ls' d' id k sa | None => id = 0 end.
Proof.
  intros H. unfold spec_delayClient, spec_choose. rewrite <- (rep_length _ _ _ H).
  assert (Hnone : forall P : Prop, delayClient d access ca sa = Some (d, 0) ->
    exists ls' d' id, delayClient d access ca sa = Some (d', id) /\ pools_rep ls' d' s /\ ids_kept ls d ls' d' /\ id = 0).
  { intros _ E. exists ls, d, 0. split; [exact E|]. split; [exact H|]. split; [by intros ???|done]. }
  destruct (ca =? INADDR_BROADCAST) eqn:Eb; [apply (Hnone True); unfold delayClient; by rewrite Eb|].
  destruct (first_pool access 0 (length (pools d))) as [k|] eqn:Ef;
    [|apply (Hnone True); unfold delayClient; by rewrite Eb, Ef].
  assert (Hk : is_Some (pools d !! k)) by (apply lookup_lt_is_Some; apply first_pool_lt in Ef; lia).
  destruct Hk as [[p r] Ek]. destruct (rep_lookup _ _ _ _ _ _ H Ek) as (l & sp & El & Es & Hr).
  cbn [option_bind mbind]. rewrite Es.
  assert (Hc : p = Class0 \/ p <> Class0) by (destruct p; [by left | by right..]). destruct Hc as [->|Hne].
  - destruct sp; try done. refine (Hnone True _). unfold delayClient. by rewrite Eb, Ef, Ek.
  - destruct (pool_client_ok _ _ _ access ca sa k p r H Eb Ef Ek Hne) as (ls' & d' & id & E & Hrest).
    exists ls', d', id. split; [exact E|]. by destruct p, sp.
Qed.

Lemma update_refines ls d s t :
  pools_rep ls d s -> - 2 ^ 31 <= t - s_last s < 2 ^ 31 ->
  Forall (fun x => rates_ok x.2 (t - s_last s) /\ levels_ok x.2 x.1) (s_pools s) ->
  pools_rep ls (delayPoolsUpdate d t) (spec_delayPoolsUpdate s t) /\ ids_kept ls d ls (delayPoolsUpdate d t).
Proof.
  intros H Ht Hok. unfold delayPoolsUpdate, spec_delayPoolsUpdate. rewrite <- (rep_length _ _ _ H), (pr_last _ _ _ H).
  rewrite wraps_small by (change (2 ^ (32 - 1)) with (2 ^ 31); lia). set (incr := t - s_last s) in *.
  destruct (length (pools d) =? 0)%nat; [split; [done | by intros ???]|].
  destruct (Z.ltb_spec incr 1) as [|Hi]; [split; [done | by intros ???]|].
  assert (Hk : forall k l p r sp, ls !! k = Some l -> pools d !! k = Some (p, r) -> s_pools s !! k = Some (sp, r) ->
    pool_rep l p sp -> pool_rep l (update_pool p r incr) (spec_update r incr sp) /\
      (forall a q, position_of l p a q -> position_of l (update_pool p r incr) a q)).
  { intros k l p r sp El Ed Es Hr. pose proof (Forall_lookup_1 _ _ _ _ Hok Es) as [Hro Hlo]. cbn in Hro, Hlo.
    apply pool_update_ok; [exact Hr | lia | exact Hro | exact Hlo]. }
  split.
  - split; cbn; [| by apply H | done | rewrite length_map; by apply H]. intros k. rewrite !list_lookup_fmap.
    pose proof (pr_pools _ _ _ H k) as Hp.
    destruct (ls !! k) as [l|] eqn:El, (pools d !! k) as [[p r]|] eqn:Ed, (s_pools s !! k) as [[sp r']|] eqn:Es; try done.
    destruct Hp as [<- Hp]. split; [done|]. by apply (Hk k).
  - intros id k addr (l & p & r & pos & El & Ed & E & Hb & Hpos). exists l, (update_pool p r incr), r, pos. cbn.
    rewrite list_lookup_fmap, Ed. do 4 (split; [done|]).
    destruct (rep_lookup _ _ _ _ _ _ H Ed) as (l' & sp & El' & Es & Hr). rewrite El in El'. injection El' as <-.
    by apply (Hk k l p r sp).
Qed.

(** C24: the pools with their slot maps and arrays refine the abstract pools with a
    level per network and host.  A request finds the pool and the levels of its
    address, created at the initial level when the address is new, and gets an
    identifier that stays its own; an update raises every level in use, when the time
    that passed and the sums of level and rate fit an int; bytes
    read are taken from the levels of the identifier; and what an identifier may
    read is the least of its enabled levels. *)
Theorem pools_refine ls d s :
  pools_rep ls d s ->
  (forall access ca sa, exists ls' d' id,
     delayClient d access ca sa = Some (d', id) /\
     pools_rep ls' d' (spec_delayClient s access ca sa) /\ ids_kept ls d ls' d' /\
     match spec_choose s access ca with Some k => id_for ls' d' id k sa | None => id = 0 end) /\
  (forall t, - 2 ^ 31 <= t - s_last s < 2 ^ 31 ->
     Forall (fun x => rates_ok x.2 (t - s_last s) /\ levels_ok x.2 x.1) (s_pools s) ->
     pools_rep ls (delayPoolsUpdate d t) (spec_delayPoolsUpdate s t) /\ ids_kept ls d ls (delayPoolsUpdate d t)) /\
  (forall id k addr, id_for ls d id k addr ->
     (forall qty, exists d', delayBytesIn d id qty = Some d' /\
        pools_rep ls d' (spec_delayBytesIn s k addr qty) /\ ids_kept ls d ls d') /\
     (forall min max, delayBytesWanted d id min max = spec_delayBytesWanted s k addr min max)).
Proof.
  intros H. split; [intros access ca sa; by apply client_refines|]. split; [intros t; by apply update_refines|].
  intros id k addr Hid. destruct (id_for_decode _ _ _ _ _ _ H Hid) as (l & p & r & sp & E & Ed & El & Es & Hr & Hp).
  assert (Hk : Z.of_nat k < 65535) by (pose proof (pr_count _ _ _ H); apply lookup_lt_Some in Ed; lia).
  split.
  - intros qty. destruct (pool_in_ok _ _ _ _ _ qty Hr Hp) as (p' & E' & Hr' & Hk').
    unfold delayBytesIn. rewrite E, (proj2 (Z.eqb_neq _ _)), Nat2Z.id, Ed, E' by lia. eexists. split; [reflexivity|].
    pose proof (rep_set _ _ _ _ _ _ _ _ (fun _ => spec_in addr qty) _ _ H El Ed Es Hr' Hk') as Hset.
    by rewrite (list_insert_id _ _ _ El) in Hset.
  - intros min max. unfold delayBytesWanted, spec_delayBytesWanted.
    rewrite E, (proj2 (Z.eqb_neq _ _)), Nat2Z.id, Ed, Es by lia. f_equal. by eapply pool_wanted_ok.
Qed.

Definition demo_rates : delaySpecSet :=
  DelaySpecSet (DelaySpec 64000 64000) (DelaySpec 8000 8000) (DelaySpec 16000 16000).
Definition demo_pools : delay_pools :=
  DelayPools [(default Class0 (delayInitDelayPool (fun _ => 7) 50 3 demo_rates), demo_rates)] 50 1000.

Lemma demo_rep : pools_rep [no_hosts] demo_pools (SpecPools [(spec_init 50 3 demo_rates, demo_rates)] 50 1000).
Proof.
  split; [|reflexivity | reflexivity | cbn; lia]. intros [|k]; [|done].
  destruct (init_rep (fun _ => 7) 50 3 demo_rates ltac:(lia)) as (p & E & Hp). cbn [lookup list_lookup demo_pools pools s_pools].
  rewrite E. split; [done | exact Hp].
Qed.

Lemma pools_refine_witness : exists ls' d' id,
  delayClient demo_pools (fun _ => true) 3232235777 3232235777 = Some (d', id) /\
  id_for ls' d' id 0 3232235777 /\ delayBytesWanted d' id 0 100000 = 4000.
Proof.
  destruct (proj1 (pools_refine _ _ _ demo_rep) (fun _ => true) 3232235777 3232235777)
    as (ls' & d' & id & E & Hr & _ & Hid). exists ls', d', id.
  split; [exact E|]. split; [exact Hid|].
  destruct (pools_refine _ _ _ Hr) as (_ & _ & H). destruct (H id 0%nat 3232235777 Hid) as [_ Hw].
  rewrite Hw. vm_compute. reflexivity.
Defined.

(** ** The rate of a pool *)

Definition aggregate_level (p : delayPool) : Z :=
  match p with
  | Class0 => 0 | Class1 c => aggregate1 c | Class2 c => aggregate2 c | Class3 c => aggregate3 c
  end.

Inductive pool_op :=
| OClient (access : nat -> bool) (client_addr src_addr : Z)
| OUpdate (squid_curtime : Z)
| OIn (id qty : Z).

Definition pool_step (d : delay_pools) (op : pool_op) : option delay_pools :=
  match op with
  | OClient access ca sa => fst <$> delayClient d access ca sa
  | OUpdate t => Some (delayPoolsUpdate d t)
  | OIn id qty => delayBytesIn d id qty
  end.

Fixpoint pool_run (d : delay_pools) (ops : list pool_op) : option delay_pools :=
  match ops with
  | [] => Some d
  | op :: ops => d ← pool_step d op; pool_run d ops
  end.

(** The bytes read from the pool [k]. *)
Definition op_read (k : nat) (op : pool_op) : Z :=
  match op with OIn id qty => if id_pool id =? Z.of_nat k then qty else 0 | _ => 0 end.

Definition bytes_read (k : nat) (ops : list pool_op) : Z := foldr (fun op n => op_read k op + n) 0 ops.

(** No client reads more than it is allowed to, and the clock does not jump so far
    that a sum overflows. *)
Definition op_allowed (k : nat) (spec : delaySpec) (d : delay_pools) (op : pool_op) : Prop :=
  match op with
  | OClient _ _ _ => True
  | OUpdate t => let incr := t - last_update d in
      - 2 ^ 31 <= incr < 2 ^ 31 /\ restore_bps spec * incr + max_bytes spec < 2 ^ 31
  | OIn id qty => 0 <= qty <= delayBytesWanted d id 0 INT_MAX
  end.

Fixpoint run_allowed (k : nat) (spec : delaySpec) (d : delay_pools) (ops : list pool_op) : Prop :=
  match ops with
  | [] => True
  | op :: ops => op_allowed k spec d op /\ forall d', pool_step d op = Some d' -> run_allowed k spec d' ops
  end.

(** The pool [k] is configured, and this is its level. *)
Definition has_level (d : delay_pools) (k : nat) (spec : delaySpec) (level : Z) : Prop :=
  exists p r, pools d !! k = Some (p, r) /\ p <> Class0 /\ r_aggregate r = spec /\ aggregate_level p = level.

Lemma set_pool_level d j p' k spec level p r :
  has_level d k spec level -> pools d !! j = Some (p, r) -> p' <> Class0 ->
  aggregate_level p' = aggregate_level p -> has_level (set_pool d j p') k spec level.
Proof.
  intros (q & r' & E & Hq & Hs & Hl) Ej Hp' Ha. unfold has_level. cbn. destruct (decide (k = j)) as [->|Hne].
  - rewrite E in Ej. injection Ej as -> ->. exists p', r. rewrite list_lookup_alter_eq, E.
    split; [done|]. split; [exact Hp'|]. split; [done | congruence].
  - exists q, r'. by rewrite list_lookup_alter_ne.
Qed.

Lemma client2_level ini r c h c' pos : client2 ini r c h = Some (c', pos) -> aggregate2 c' = aggregate2 c.
Proof.
  unfold client2. destruct (h =? 255); [intros [= <- _]; by destruct (individual_255_used c)|].
  destruct (find_slot _ _ _ _); intros [= <- _]; done.
Qed.

Lemma client3_level ini r c n h c' pos : client3 ini r c n h = Some (c', pos) -> aggregate3 c' = aggregate3 c.
Proof.
  unfold client3. destruct (client3_net ini r c n) as [[c1 i]|] eqn:E1; cbn [mbind option_bind]; [|done].
  intros E2. transitivity (aggregate3 c1).
  - unfold client3_host in E2. destruct (h =? 255); [injection E2 as <- _; by destruct (bit_used _ _)|].
    destruct (find_slot _ _ _ _); [injection E2 as <- _ | injection E2 as <- _ | discriminate]; done.
  - unfold client3_net in E1. destruct (n =? 255); [injection E1 as <- _; by destruct (network_255_used c)|].
    destruct (find_slot _ _ _ _); [injection E1 as <- _ | injection E1 as <- _ | discriminate]; done.
Qed.

Lemma client_level d access ca sa d' id k spec level :
  delayClient d access ca sa = Some (d', id) -> has_level d k spec level ->
  has_level d' k spec level /\ last_update d' = last_update d.
Proof.
  intros H Hl. unfold delayClient in H. destruct (ca =? INADDR_BROADCAST); [by injection H as <- _|].
  destruct (first_pool _ _ _) as [j|]; [|by injection H as <- _].
  destruct (pools d !! j) as [[p r]|] eqn:Ej; [|done]. destruct p as [|c|c|c]; try by injection H as <- _.
  - destruct (client2 _ _ _ _) as [[c' pos]|] eqn:E; [|done]. cbn -[delay_id] in H. injection H as <- _.
    split; [|done]. eapply set_pool_level; [exact Hl | exact Ej | done | by eapply client2_level].
  - destruct (client3 _ _ _ _ _) as [[c' pos]|] eqn:E; [|done]. cbn -[delay_id] in H. injection H as <- _.
    split; [|done]. eapply set_pool_level; [exact Hl | exact Ej | done | by eapply client3_level].
Qed.

Lemma update_pool_level p r incr :
  p <> Class0 -> update_pool p r incr <> Class0 /\
  aggregate_level (update_pool p r incr) = update_aggregate (aggregate_level p) (r_aggregate r) incr.
Proof.
  intros Hp. destruct p as [|c|c|c]; [done | by split | by split|]. split; [done|]. cbn. unfold delayUpdateClass3.
  destruct (_ && _); [done|]. by destruct (update_nets _ _ _ _ _ _ _).
Qed.

Lemma update_level d t k spec level :
  has_level d k spec level -> restore_bps spec <> -1 -> 0 <= restore_bps spec -> 0 <= level <= max_bytes spec ->
  op_allowed k spec d (OUpdate t) ->
  exists level', has_level (delayPoolsUpdate d t) k spec level' /\ 0 <= level' <= max_bytes spec /\
    level' <= level + restore_bps spec * (last_update (delayPoolsUpdate d t) - last_update d).
Proof.
  intros Hl Hr H0 Hb [Ht Hov]. unfold delayPoolsUpdate. rewrite wraps_small by (change (2 ^ (32 - 1)) with (2 ^ 31); lia).
  set (incr := t - last_update d) in *.
  assert (Hsame : exists level', has_level d k spec level' /\ 0 <= level' <= max_bytes spec /\
    level' <= level + restore_bps spec * (last_update d - last_update d)) by (exists level; split; [done | lia]).
  destruct (length (pools d) =? 0)%nat; [exact Hsame|]. destruct (Z.ltb_spec incr 1) as [|Hi]; [exact Hsame|].
  destruct Hl as (p & r & E & Hp & Hs & Ha). cbn [last_update].
  assert (Hsp : spec_ok spec incr) by (right; lia).
  assert (Hlv : level_ok spec level) by (split; [lia | right; lia]).
  exists (raise spec incr level). split; [|unfold raise; rewrite (proj2 (Z.eqb_neq _ _)) by done; nia].
  destruct (update_pool_level p r incr Hp) as [Hp' Hup]. exists (update_pool p r incr), r. cbn.
  rewrite list_lookup_fmap, E. split; [done|]. split; [done|]. split; [done|].
  rewrite Hup, Hs, Ha. by apply aggregate_raise.
Qed.

Lemma pool_in_level p pos qty p' :
  pool_in p pos qty = Some p' -> p' <> Class0 /\ aggregate_level p' = i32 (aggregate_level p - qty).
Proof. destruct p; intros [= <-]; done. Qed.

Lemma wanted_level d id k spec level r p max :
  pools d !! k = Some (p, r) -> id_pool id = Z.of_nat k -> Z.of_nat k <> 65535 -> p <> Class0 -> r_aggregate r = spec ->
  aggregate_level p = level -> restore_bps spec <> -1 -> 0 <= level -> delayBytesWanted d id 0 max <= level.
Proof.
  intros E Hid Hk Hp Hs Hl Hr H0. unfold delayBytesWanted. rewrite Hid, (proj2 (Z.eqb_neq _ 65535)), Nat2Z.id, E by done.
  enough (pool_wanted p r (id_position id) max <= level) by lia.
  assert (Hlim : forall n s v, limit n s v <= n) by (intros n s v; unfold limit; destruct (_ =? _); lia).
  assert (Htot : limit max (r_aggregate r) (aggregate_level p) <= level).
  { rewrite Hs, Hl. unfold limit. rewrite (proj2 (Z.eqb_neq _ _)) by done. lia. }
  destruct p as [|c|c|c]; cbn in *; [done | exact Htot | |].
  - etrans; [apply Hlim | exact Htot].
  - etrans; [apply Hlim|]. etrans; [apply Hlim | exact Htot].
Qed.

Lemma in_level d id qty d' k spec level :
  Z.of_nat k < 65535 -> delayBytesIn d id qty = Some d' -> has_level d k spec level -> restore_bps spec <> -1 ->
  0 <= level <= max_bytes spec -> max_bytes spec < 2 ^ 31 -> op_allowed k spec d (OIn id qty) ->
  exists level', has_level d' k spec level' /\ 0 <= level' <= max_bytes spec /\
    op_read k (OIn id qty) + level' = level /\ last_update d' = last_update d.
Proof.
  intros Hk H Hl Hr Hb Hm Hq. unfold delayBytesIn in H. cbn [op_read op_allowed] in *.
  destruct (Z.eqb_spec (id_pool id) 65535) as [E|E].
  - injection H as <-. exists level. rewrite (proj2 (Z.eqb_neq _ _)) by lia.
    split; [done|]. split; [exact Hb | by split].
  - destruct (pools d !! Z.to_nat (id_pool id)) as [[p r]|] eqn:Ep; [|done].
    destruct (pool_in p _ qty) as [p'|] eqn:Ein; [|done]. injection H as <-.
    assert (Hnn : 0 <= id_pool id) by (unfold id_pool; pose proof (wrapu_range 16 (id ≫ 16 - 1)); lia).
    destruct (pool_in_level _ _ _ _ Ein) as [Hp' Ha'].
    destruct (Z.eqb_spec (id_pool id) (Z.of_nat k)) as [Ek|Ek].
    + rewrite Ek, Nat2Z.id in Ep |- *. destruct Hl as (q & r' & Eq & Hq' & Hs & Ha). rewrite Eq in Ep. injection Ep as -> ->.
      pose proof (wanted_level d id k spec level r p INT_MAX Eq Ek ltac:(lia) Hq' Hs Ha Hr ltac:(lia)) as Hw.
      exists (level - qty). split; [|split; [lia | split; [lia | done]]].
      exists p', r. cbn. rewrite list_lookup_alter_eq, Eq. split; [done|]. split; [done|]. split; [done|].
      rewrite Ha', Ha. apply wraps_small; [lia|]. change (2 ^ (32 - 1)) with (2 ^ 31). lia.
    + exists level. split; [|split; [lia | split; [lia | done]]].
      destruct Hl as (q & r' & Eq & Hq' & Hs & Ha). exists q, r'. cbn. rewrite list_lookup_alter_ne by lia. done.
Qed.

Lemma step_level d op d' k spec level :
  Z.of_nat k < 65535 -> 0 <= restore_bps spec -> max_bytes spec < 2 ^ 31 ->
  op_allowed k spec d op -> pool_step d op = Some d' -> has_level d k spec level -> 0 <= level <= max_bytes spec ->
  exists level', has_level d' k spec level' /\ 0 <= level' <= max_bytes spec /\
    op_read k op + level' <= level + restore_bps spec * (last_update d' - last_update d).
Proof.
  intros Hk H0 Hm Hal Hstep Hl Hb. destruct op as [access ca sa|t|id qty]; cbn [pool_step] in Hstep.
  - destruct (delayClient d access ca sa) as [[d1 id]|] eqn:E; [|done]. injection Hstep as <-.
    destruct (client_level _ _ _ _ _ _ _ _ _ E Hl) as [Hl' E']. exists level. cbn. rewrite E'. split; [done | lia].
  - injection Hstep as <-. destruct (update_level d t k spec level Hl ltac:(lia) H0 Hb Hal) as (l' & H1 & H2 & H3).
    exists l'. by split; [|split].
  - destruct (in_level _ _ _ _ _ _ _ Hk Hstep Hl ltac:(lia) Hb Hm Hal) as (l' & H1 & H2 & H3 & H4).
    exists l'. rewrite H4. split; [done | lia].
Qed.

(** C25: however requests, reads and updates follow one another, as long as no client
    reads more than [delayBytesWanted] allows and no sum overflows, the level of a
    pool stays between 0 and its maximum, and what was read from the pool is at
    most its level at the start and the rate times the time that passed. *)
Theorem pool_rate_bound k spec ops d d' level :
  Z.of_nat k < 65535 -> 0 <= restore_bps spec -> max_bytes spec < 2 ^ 31 ->
  has_level d k spec level -> 0 <= level <= max_bytes spec ->
  run_allowed k spec d ops -> pool_run d ops = Some d' ->
  exists level', has_level d' k spec level' /\ 0 <= level' <= max_bytes spec /\
    bytes_read k ops + level' <= level + restore_bps spec * (last_update d' - last_update d).
Proof.
  intros Hk H0 Hm. revert d level. induction ops as [|op ops IH]; intros d level Hl Hb Hal Hrun.
  - injection Hrun as <-. exists level. cbn. split; [done | lia].
  - cbn in Hrun, Hal. destruct (pool_step d op) as [d1|] eqn:E; [|done]. destruct Hal as [Hop Hal].
    destruct (step_level _ _ _ _ _ _ Hk H0 Hm Hop E Hl Hb) as (l1 & Hl1 & Hb1 & Hr1).
    destruct (IH d1 l1 Hl1 Hb1 (Hal d1 eq_refl) Hrun) as (l2 & Hl2 & Hb2 & Hr2).
    exists l2. split; [done|]. split; [done|]. cbn [bytes_read foldr]. unfold bytes_read in Hr2. lia.
Qed.

(** [run_allowed] decided. *)
Definition op_allowed_b (k : nat) (spec : delaySpec) (d : delay_pools) (op : pool_op) : bool :=
  match op with
  | OClient _ _ _ => true
  | OUpdate t => let incr := t - last_update d in
      (- 2 ^ 31 <=? incr) && (incr <? 2 ^ 31) && (restore_bps spec * incr + max_bytes spec <? 2 ^ 31)
  | OIn id qty => (0 <=? qty) && (qty <=? delayBytesWanted d id 0 INT_MAX)
  end.

Fixpoint run_allowed_b (k : nat) (spec : delaySpec) (d : delay_pools) (ops : list pool_op) : bool :=
  match ops with
  | [] => true
  | op :: ops => op_allowed_b k spec d op &&
      match pool_step d op with Some d' => run_allowed_b k spec d' ops | None => true end
  end.

Lemma run_allowed_sound k spec d ops : run_allowed_b k spec d ops = true -> run_allowed k spec d ops.
Proof.
  revert d. induction ops as [|op ops IH]; intros d H; [done|]. cbn in H. apply andb_true_iff in H as [H1 H2].
  split; [|intros d' E; rewrite E in H2; by apply IH].
  destruct op as [access ca sa|t|id qty]; unfold op_allowed_b in H1; unfold op_allowed; [done | lia | lia].
Qed.

(** A client gets an identifier in a pool of class 3, reads, waits and reads again. *)
Definition demo_ops : list pool_op :=
  [OClient (fun _ => true) 3232235777 3232235777; OIn (delay_id 1 0) 4000; OUpdate 1001; OIn (delay_id 1 0) 8000].

Lemma pool_rate_bound_witness : exists d' level',
  pool_run demo_pools demo_ops = Some d' /\ has_level d' 0 (DelaySpec 64000 64000) level' /\
  bytes_read 0 demo_ops = 12000 /\ 12000 + level' <= 32000 + 64000 * 1.
Proof.
  destruct (pool_run demo_pools demo_ops) as [d'|] eqn:E; [|vm_compute in E; discriminate].
  assert (Hu : last_update d' = 1001) by (apply (f_equal (fmap last_update)) in E; vm_compute in E; injection E as E; symmetry; exact E).
  destruct (pool_rate_bound 0 (DelaySpec 64000 64000) demo_ops demo_pools d' 32000) as (l & Hl & Hb & Hr).
  - reflexivity.
  - by vm_compute.
  - by vm_compute.
  - do 2 eexists. by repeat split.
  - by split; vm_compute.
  - apply run_allowed_sound. vm_compute. reflexivity.
  - exact E.
  - exists d', l. split; [reflexivity|]. split; [exact Hl|]. split; [reflexivity|].
    rewrite Hu in Hr. exact Hr.
Defined.

(** The products and sums of [int]s overflow when the time that passed is long: the
    level of a pool of 20 megabytes a second that was full is negative after the clock
    went forward by two minutes. *)
Lemma update_overflow :
  let rates := DelaySpecSet (DelaySpec 20000000 20000000) (DelaySpec (-1) (-1)) (DelaySpec (-1) (-1)) in
  aggregate1 (delayUpdateClass1 (Class1Pool 20000000) rates 120) = - 1874967296.
Proof. reflexivity. Qed.

(** ** The clients of an object *)

Lemma wanted_zero d id i max : 0 <= i -> delayBytesWanted d id i max = Z.max i (delayBytesWanted d id 0 max).
Proof. intros Hi. unfold delayBytesWanted. lia. Qed.

(** The most that one of the clients may read. *)
Lemma most_wanted_ok d clients max :
  clients <> [] ->
  delayMostBytesWanted d clients max = foldr (fun id n => Z.max (delayBytesWanted d id 0 max) n) 0 clients.
Proof.
  intros Hc. unfold delayMostBytesWanted. destruct clients as [|c0 cs] eqn:E; [done|]. rewrite <- E. clear.
  assert (H : forall i, 0 <= i -> fold_left (fun i id => delayBytesWanted d id i max) clients i
    = Z.max i (foldr (fun id n => Z.max (delayBytesWanted d id 0 max) n) 0 clients)).
  { induction clients as [|c cs IH]; intros i Hi; cbn; [lia|].
    rewrite IH by (rewrite wanted_zero by done; lia). rewrite (wanted_zero d c i) by done. lia. }
  rewrite H by lia. enough (0 <= foldr (fun id n => Z.max (delayBytesWanted d id 0 max) n) 0 clients) by lia.
  clear H. induction clients as [|c cs IH]; cbn; lia.
Qed.

Lemma most_allowed_from d clients best :
  let r := fold_left (most_allowed d) clients best in
  best.1 <= r.1 /\ Forall (fun id => delayBytesWanted d id 0 INT_MAX <= r.1) clients /\
  (r = best \/ (r.2 ∈ clients /\ r.1 = delayBytesWanted d r.2 0 INT_MAX)).
Proof.
  revert best. induction clients as [|c cs IH]; intros best; cbn; [split; [lia|]; split; [constructor | by left]|].
  destruct (IH (most_allowed d best c)) as (H1 & H2 & H3).
  assert (Hm : best.1 <= (most_allowed d best c).1 /\ delayBytesWanted d c 0 INT_MAX <= (most_allowed d best c).1).
  { unfold most_allowed. destruct (Z.ltb_spec best.1 (delayBytesWanted d c 0 INT_MAX)); cbn; lia. }
  split; [lia|]. split; [constructor; [lia | exact H2]|]. destruct H3 as [H3|[H3 H4]].
  - rewrite H3. unfold most_allowed. destruct (best.1 <? delayBytesWanted d c 0 INT_MAX); [right | by left].
    split; [by left | done].
  - right. split; [by right | exact H4].
Qed.

(** The client that may read most, and as much as it may but never nothing: a read of
    no bytes is the end of the connection. *)
Lemma most_bytes_allowed_ok d clients read_sz :
  clients <> [] -> 1 <= read_sz ->
  let '(id, sz) := delayMostBytesAllowed d clients read_sz in
  id ∈ clients /\ Forall (fun x => delayBytesWanted d x 0 INT_MAX <= delayBytesWanted d id 0 INT_MAX) clients /\
  sz = Z.min read_sz (Z.max 1 (delayBytesWanted d id 0 INT_MAX)).
Proof.
  intros Hc Hr. unfold delayMostBytesAllowed. pose proof (most_allowed_from d clients (-1, 0)) as H. cbn zeta in H.
  destruct (fold_left (most_allowed d) clients (-1, 0)) as [jmax id]. cbn [fst snd] in H. destruct H as (H1 & H2 & H3).
  assert (H0 : forall x, 0 <= delayBytesWanted d x 0 INT_MAX) by (intros x; unfold delayBytesWanted; lia).
  destruct H3 as [[= -> ->]|[Hin ->]].
  - destruct clients as [|c cs]; [done|]. inversion_clear H2. specialize (H0 c). lia.
  - split; [exact Hin|]. split; [exact H2|]. specialize (H0 id). set (v := delayBytesWanted d id 0 INT_MAX) in *.
    rewrite (proj2 (Z.leb_le 0 v)) by done. cbn [andb].
    destruct (Z.ltb_spec v read_sz), (Z.eqb_spec v 0); lia.
Qed.
