(* ===== verification/Splay.v ===== *)
(** * Splay trees and trees of intervals

    v3.0/src/squid-mybox/lib/splay.c: the top-down splay trees that hold the addresses,
    domains and users of access lists.  The temporary node [N] of [splay_splay] with
    the pointers [l] and [r] is modelled by the two lists of frames that hang from
    it; [splayLastResult] is returned.

    The class [Intervals] says what the comparisons of the access lists promise to the
    tree: that every entry stands for an interval of the searched keys.  From it
    follows that a tree built with [splay_insert] finds a key exactly when one of its
    entries contains the key. *)

From Stdlib Require Import Sorting.Sorted.
From S2P Require Import Prelude.

Inductive splayNode (D : Type) :=
| Null
| Node (left : splayNode D) (data : D) (right : splayNode D).
Arguments Null {D}.
Arguments Node {D} left data right.

Fixpoint walk {D} (t : splayNode D) : list D :=
  match t with Null => [] | Node l d r => walk l ++ d :: walk r end.

(** ** Splaying *)

Section Splay.

Context {K D : Type} (compare : K -> D -> Z).

(** What hangs from [N]: nodes linked to the right whose right child is the next
    one, nodes linked to the left whose left child is the next one; innermost first. *)
Definition lframes : Type := list (splayNode D * D).
Definition rframes : Type := list (D * splayNode D).

Definition close_left (L : lframes) (t : splayNode D) : splayNode D :=
  fold_left (fun acc f => Node f.1 f.2 acc) L t.
Definition close_right (R : rframes) (t : splayNode D) : splayNode D :=
  fold_left (fun acc f => Node acc f.1 f.2) R t.

Definition assemble (L : lframes) (R : rframes) (tl : splayNode D) (data : D) (tr : splayNode D) : splayNode D :=
  Node (close_left L tl) data (close_right R tr).

Fixpoint splay_loop (top : splayNode D) (k : K) (L : lframes) (R : rframes) {struct top} : splayNode D * Z :=
  match top with
  | Null => (Null, -1)
  | Node tl data tr =>
      let res := compare k data in
      if res <? 0 then
        match tl with
        | Null => (assemble L R tl data tr, res)
        | Node yl y yr =>
            let res := compare k y in
            if res <? 0 then
              (* rotate right *)
              match yl with
              | Null => (assemble L R yl y (Node yr data tr), res)
              | _ => splay_loop yl k L ((y, Node yr data tr) :: R)
              end
            else splay_loop tl k L ((data, tr) :: R)
        end
      else if 0 <? res then
        match tr with
        | Null => (assemble L R tl data tr, res)
        | Node yl y yr =>
            let res := compare k y in
            if 0 <? res then
              (* rotate left *)
              match yr with
              | Null => (assemble L R (Node tl data yl) y yr, res)
              | _ => splay_loop yr k ((Node tl data yl, y) :: L) R
              end
            else splay_loop tr k ((tl, data) :: L) R
        end
      else (assemble L R tl data tr, res)
  end.

Definition splay_splay (k : K) (top : splayNode D) : splayNode D * Z :=
  match top with Null => (Null, -1) | _ => splay_loop top k [] [] end.

End Splay.

Definition splay_insert {D} (compare : D -> D -> Z) (data : D) (top : splayNode D) : splayNode D :=
  match top with
  | Null => Node Null data Null
  | _ =>
      let '(top, res) := splay_splay compare data top in
      match top with
      | Null => Null
      | Node l d r =>
          if res <? 0 then Node l data (Node Null d r)
          else if 0 <? res then Node (Node l d Null) data r
          else top
      end
  end.

(** [splay_walk] calls the function for every entry, in order. *)
Fixpoint splay_walk {D S} (walkee : D -> S -> S) (top : splayNode D) (state : S) : S :=
  match top with
  | Null => state
  | Node l d r => splay_walk walkee r (walkee d (splay_walk walkee l state))
  end.

(** ** The order of the entries stays *)

Section Facts.

Context {K D : Type} (compare : K -> D -> Z).

Definition walk_left (L : list (splayNode D * D)) : list D := concat (map (fun f => walk f.1 ++ [f.2]) (rev L)).
Definition walk_right (R : list (D * splayNode D)) : list D := concat (map (fun f => f.1 :: walk f.2) R).

Lemma walk_left_cons f L : walk_left (f :: L) = walk_left L ++ walk f.1 ++ [f.2].
Proof. unfold walk_left. cbn [rev]. rewrite map_app, concat_app. cbn. by rewrite app_nil_r. Qed.

Lemma walk_right_cons f R : walk_right (f :: R) = f.1 :: walk f.2 ++ walk_right R.
Proof. done. Qed.

Lemma walk_close_left L t : walk (close_left L t) = walk_left L ++ walk t.
Proof.
  revert t. induction L as [|f L IH]; intros t; [done|]. cbn [close_left fold_left]. unfold close_left in IH.
  rewrite IH, walk_left_cons. cbn [walk]. by rewrite <- !app_assoc.
Qed.

Lemma walk_close_right R t : walk (close_right R t) = walk t ++ walk_right R.
Proof.
  revert t. induction R as [|f R IH]; intros t; [by rewrite app_nil_r|]. cbn [close_right fold_left]. unfold close_right in IH.
  rewrite IH, walk_right_cons. cbn [walk]. by rewrite <- app_assoc.
Qed.

Lemma walk_assemble L R l d r : walk (assemble L R l d r) = walk_left L ++ (walk l ++ d :: walk r) ++ walk_right R.
Proof. unfold assemble. cbn. rewrite walk_close_left, walk_close_right. by rewrite <- !app_assoc. Qed.

(** The keys of a list are compared above, equal and below, in this order. *)
Definition cut (k : K) (l : list D) : Prop :=
  StronglySorted (fun d e => (compare k d <= 0 -> compare k e <= 0) /\ (compare k d < 0 -> compare k e < 0)) l.

Definition above (k : K) (l : list D) : Prop := Forall (fun d => 0 < compare k d) l.
Definition below (k : K) (l : list D) : Prop := Forall (fun d => compare k d < 0) l.

Lemma sorted_app {A} (P : A -> A -> Prop) l m :
  StronglySorted P (l ++ m) <-> StronglySorted P l /\ StronglySorted P m /\ forall x y, x ∈ l -> y ∈ m -> P x y.
Proof.
  induction l as [|a l IH]; cbn.
  - split; [intros H; split; [constructor | split; [done | set_solver]] | by intros (_ & H & _)].
  - split.
    + intros H. inversion_clear H as [|? ? Hs Hf]. apply IH in Hs as (H1 & H2 & H3). rewrite Forall_forall in Hf.
      split; [constructor; [done|]; apply Forall_forall; set_solver|]. split; [done|].
      intros x y [->|Hx]%elem_of_cons Hy; [apply Hf; set_solver | by apply H3].
    + intros (H1 & H2 & H3). inversion_clear H1 as [|? ? Hs Hf]. constructor.
      * apply IH. split; [done|]. split; [done|]. intros x y Hx Hy. apply H3; [by right | done].
      * apply Forall_app. split; [done|]. apply Forall_forall. intros y Hy. apply H3; [by left | done].
Qed.

Lemma cut_above k l d r : cut k (l ++ d :: r) -> 0 < compare k d -> above k (l ++ [d]).
Proof.
  intros (_ & _ & H)%sorted_app Hd. apply Forall_app. split; [|by repeat constructor].
  apply Forall_forall. intros x Hx. specialize (H x d Hx ltac:(by left)). lia.
Qed.

Lemma cut_below k l d r : cut k (l ++ d :: r) -> compare k d < 0 -> below k (d :: r).
Proof.
  intros (_ & H & _)%sorted_app Hd. constructor; [done|]. inversion_clear H as [|? ? _ Hf].
  apply Forall_forall. intros x Hx. rewrite Forall_forall in Hf. apply (Hf x Hx). exact Hd.
Qed.

Lemma cut_left k l m : cut k (l ++ m) -> cut k l.
Proof. intros (H1 & H2 & _)%sorted_app. done. Qed.
Lemma cut_right k l m : cut k (l ++ m) -> cut k m.
Proof. intros (H1 & H2 & _)%sorted_app. done. Qed.

(** What a splay leaves: the root is the entry that was compared last, and no entry
    that is equal to the key is on the other side of it. *)
Definition splayed (k : K) (l : list D) (r : splayNode D * Z) : Prop :=
  walk r.1 = l /\
  exists tl d tr, r.1 = Node tl d tr /\ r.2 = compare k d /\
    (r.2 < 0 -> above k (walk tl)) /\ (0 < r.2 -> below k (walk tr)).

Lemma splayed_assemble k L R l d r res :
  res = compare k d -> above k (walk_left L) -> below k (walk_right R) ->
  (res < 0 -> above k (walk l)) -> (0 < res -> below k (walk r)) ->
  splayed k (walk_left L ++ (walk l ++ d :: walk r) ++ walk_right R) (assemble L R l d r, res).
Proof.
  intros -> HL HR Hl Hr. split; [apply walk_assemble|].
  exists (close_left L l), d, (close_right R r). split; [done|]. split; [done|]. cbn.
  rewrite walk_close_left, walk_close_right. split; intros H; apply Forall_app; split; first [assumption | by apply Hl | by apply Hr].
Qed.

Fixpoint size (t : splayNode D) : nat :=
  match t with Null => 0 | Node tl _ tr => S (size tl + size tr) end.

Ltac flat := cbn [walk walk_right map concat fst snd] in *; rewrite ?walk_left_cons, ?walk_right_cons;
  cbn [walk fst snd]; rewrite <- ?app_assoc; cbn [app]; rewrite <- ?app_assoc; cbn [app]; try reflexivity.

(** The loop, entered again with a node moved to a frame. *)
Lemma splayed_eq k l l' r : l = l' -> splayed k l r -> splayed k l' r.
Proof. by intros ->. Qed.

Lemma below_of k l d r m : cut k l -> l = m ++ d :: r -> compare k d < 0 -> below k (d :: r).
Proof. intros H -> Hd. by eapply cut_below. Qed.

Lemma above_of k l m d r : cut k l -> l = m ++ d :: r -> 0 < compare k d -> above k (m ++ [d]).
Proof. intros H -> Hd. by eapply cut_above. Qed.

Lemma splay_loop_ok n k top L R :
  (size top <= n)%nat -> top <> Null -> cut k (walk_left L ++ walk top ++ walk_right R) ->
  above k (walk_left L) -> below k (walk_right R) ->
  splayed k (walk_left L ++ walk top ++ walk_right R) (splay_loop compare top k L R).
Proof.
  revert top L R. induction n as [|n IH]; intros top L R Hn Ht Hc HL HR; [destruct top; cbn in Hn; [done | lia]|].
  destruct top as [|tl d tr]; [done|]. cbn [splay_loop]. destruct (Z.ltb_spec (compare k d) 0) as [Hd|Hd].
  - assert (Hb : below k (d :: walk tr ++ walk_right R)) by (eapply (below_of _ _ _ _ (walk_left L ++ walk tl)); [exact Hc | flat | done]).
    destruct tl as [|yl y yr]; [apply splayed_assemble; [done | done | done | by constructor | lia]|].
    destruct (Z.ltb_spec (compare k y) 0) as [Hy|Hy].
    + assert (Hb' : below k (y :: walk yr ++ d :: walk tr ++ walk_right R))
        by (eapply (below_of _ _ _ _ (walk_left L ++ walk yl)); [exact Hc | flat | done]).
      destruct yl as [|a b c] eqn:Ey.
      * eapply splayed_eq; [|apply splayed_assemble; [done | done | done | by constructor | lia]]. flat.
      * rewrite <- Ey in *. assert (Hne : yl <> Null) by (by rewrite Ey).
        eapply splayed_eq; [|apply (IH yl L ((y, Node yr d tr) :: R)); [cbn in Hn; lia | done | | done |]]; [flat..|].
        -- revert Hc. flat. done.
        -- revert Hb'. flat. done.
    + eapply splayed_eq; [|apply (IH (Node yl y yr) L ((d, tr) :: R)); [cbn in *; lia | done | | done |]]; [flat..|].
      * revert Hc. flat. done.
      * revert Hb. flat. done.
  - destruct (Z.ltb_spec 0 (compare k d)) as [Hd'|Hd'].
    + assert (Ha : above k ((walk_left L ++ walk tl) ++ [d])) by (eapply above_of; [exact Hc | flat | done]).
      destruct tr as [|yl y yr]; [apply splayed_assemble; [done | done | done | lia | by constructor]|].
      destruct (Z.ltb_spec 0 (compare k y)) as [Hy|Hy].
      * assert (Ha' : above k ((walk_left L ++ walk tl ++ d :: walk yl) ++ [y])) by (eapply above_of; [exact Hc | flat | done]).
        destruct yr as [|a b c] eqn:Ey.
        -- eapply splayed_eq; [|apply splayed_assemble; [done | done | done | lia | by constructor]]. flat.
        -- rewrite <- Ey in *. assert (Hne : yr <> Null) by (by rewrite Ey).
           eapply splayed_eq; [|apply (IH yr ((Node tl d yl, y) :: L) R); [cbn in Hn; lia | done | | | done]]; [flat..| ].
           ++ revert Hc. flat. done.
           ++ revert Ha'. flat. done.
      * eapply splayed_eq; [|apply (IH (Node yl y yr) ((tl, d) :: L) R); [cbn in *; lia | done | | | done]]; [flat..|].
        -- revert Hc. flat. done.
        -- revert Ha. flat. done.
    + apply splayed_assemble; [done | done | done | lia | lia].
Qed.

Lemma splay_splay_ok k top :
  top <> Null -> cut k (walk top) -> splayed k (walk top) (splay_splay compare k top).
Proof.
  intros Ht Hc. destruct top as [|l d r] eqn:E; [done|]. rewrite <- E in *.
  replace (splay_splay compare k top) with (splay_loop compare top k [] []) by (by rewrite E).
  eapply splayed_eq; [|apply (splay_loop_ok (size top) k top [] [] ltac:(done) Ht)];
    cbn; rewrite ?app_nil_r; [done | exact Hc | by constructor | by constructor].
Qed.

(** A key is found exactly when an entry is equal to it. *)
Lemma splay_found k top :
  cut k (walk top) -> (splay_splay compare k top).2 = 0 <-> exists d, d ∈ walk top /\ compare k d = 0.
Proof.
  intros Hc. assert (Hn : top = Null \/ top <> Null) by (destruct top; [by left | by right]).
  destruct Hn as [->|Ht]; [split; [done | intros (d & Hd%not_elem_of_nil & _); done]|].
  destruct (splay_splay_ok k top Ht Hc) as (Hw & l & d & r & E & Hres & Hl & Hr). rewrite E in Hw. cbn in Hw.
  split.
  - intros H0. exists d. split; [rewrite <- Hw; set_solver | congruence].
  - intros (x & Hx & H0). rewrite <- Hw in Hx. destruct (Z.lt_trichotomy (splay_splay compare k top).2 0) as [H|[H|H]]; [|done|].
    + rewrite Hres in H. rewrite <- Hw in Hc. pose proof (cut_below _ _ _ _ Hc H) as Hb.
      specialize (Hl ltac:(lia)). unfold above, below in *. rewrite Forall_forall in Hl, Hb.
      apply elem_of_app in Hx as [Hx|Hx]; [apply Hl in Hx | apply Hb in Hx]; lia.
    + rewrite Hres in H. rewrite <- Hw in Hc. pose proof (cut_above _ _ _ _ Hc H) as Ha.
      specialize (Hr ltac:(lia)). unfold above, below in *. rewrite Forall_forall in Hr, Ha.
      rewrite cons_middle, app_assoc in Hx. apply elem_of_app in Hx as [Hx|Hx]; [apply Ha in Hx | apply Hr in Hx]; lia.
Qed.

Lemma splay_walk_same k top : cut k (walk top) -> walk (splay_splay compare k top).1 = walk top.
Proof.
  intros Hc. destruct top as [|l d r] eqn:E; [done|]. rewrite <- E in *. apply splay_splay_ok; [by rewrite E | done].
Qed.

End Facts.

(** A search by what the comparison reads of the key. *)
Lemma splay_loop_key {J K D} (compare : K -> D -> Z) (f : J -> K) n x (top : splayNode D) L R :
  (size top <= n)%nat -> splay_loop compare top (f x) L R = splay_loop (fun x => compare (f x)) top x L R.
Proof.
  revert top L R. induction n as [|n IH]; intros top L R Hn; [destruct top; cbn in Hn; [done | lia]|].
  destruct top as [|tl d tr]; [done|]. cbn [splay_loop]. destruct (compare (f x) d <? 0).
  - destruct tl as [|yl y yr]; [done|]. destruct (compare (f x) y <? 0); [|apply IH; cbn in *; lia].
    destruct yl as [|a b c]; [done|]. apply IH. cbn in *. lia.
  - destruct (0 <? compare (f x) d); [|done]. destruct tr as [|yl y yr]; [done|].
    destruct (0 <? compare (f x) y); [|apply IH; cbn in *; lia].
    destruct yr as [|a b c]; [done|]. apply IH. cbn in *. lia.
Qed.

Lemma splay_key {J K D} (compare : K -> D -> Z) (f : J -> K) x (top : splayNode D) :
  splay_splay compare (f x) top = splay_splay (fun x => compare (f x)) x top.
Proof. destruct top as [|l d r]; [done|]. by apply (splay_loop_key compare f _ x _ [] [] (le_n _)). Qed.

(** Only the comparisons with the entries matter. *)
Lemma splay_loop_ext {K D} (f g : K -> D -> Z) n k (top : splayNode D) L R :
  (size top <= n)%nat -> (forall d, d ∈ walk top -> f k d = g k d) -> splay_loop f top k L R = splay_loop g top k L R.
Proof.
  revert top L R. induction n as [|n IH]; intros top L R Hn He; [destruct top; cbn in Hn; [done | lia]|].
  destruct top as [|tl d tr]; [done|]. cbn [splay_loop]. rewrite <- (He d) by (cbn; set_solver).
  destruct (f k d <? 0).
  - destruct tl as [|yl y yr]; [done|]. rewrite <- (He y) by (cbn; set_solver).
    destruct (f k y <? 0); [|apply IH; [cbn in *; lia | intros x Hx; apply He; cbn in *; set_solver]].
    destruct yl as [|a b c] eqn:E; [done|]. rewrite <- E in *. apply IH; [cbn in *; lia | intros x Hx; apply He; cbn in *; set_solver].
  - destruct (0 <? f k d); [|done]. destruct tr as [|yl y yr]; [done|]. rewrite <- (He y) by (cbn; set_solver).
    destruct (0 <? f k y); [|apply IH; [cbn in *; lia | intros x Hx; apply He; cbn in *; set_solver]].
    destruct yr as [|a b c] eqn:E; [done|]. rewrite <- E in *. apply IH; [cbn in *; lia | intros x Hx; apply He; cbn in *; set_solver].
Qed.

Lemma splay_ext {K D} (f g : K -> D -> Z) k (top : splayNode D) :
  (forall d, d ∈ walk top -> f k d = g k d) -> splay_splay f k top = splay_splay g k top.
Proof. intros He. destruct top as [|l d r]; [done|]. by apply (splay_loop_ext f g _ k _ [] [] (le_n _)). Qed.

(** The walk calls the function in the order of the entries. *)
Lemma splay_walk_fold {D S} (f : D -> S -> S) t s : splay_walk f t s = fold_left (fun s d => f d s) (walk t) s.
Proof.
  revert s. induction t as [|l IHl d r IHr]; intros s; [done|]. cbn. by rewrite fold_left_app, IHl, IHr.
Qed.

(** What an insertion does to the list of entries: nothing when an entry is equal,
    else the entry is put between those above and those below it. *)
Lemma splay_insert_ok {D} (compare : D -> D -> Z) a top :
  cut compare a (walk top) ->
  (walk (splay_insert compare a top) = walk top /\ exists e, e ∈ walk top /\ compare a e = 0) \/
  exists l r, walk top = l ++ r /\ walk (splay_insert compare a top) = l ++ a :: r /\
    above compare a l /\ below compare a r.
Proof.
  intros Hc. destruct top as [|tl0 d0 tr0] eqn:E; [right; exists [], []; by repeat constructor|]. rewrite <- E in *.
  destruct (splay_splay_ok compare a top ltac:(by rewrite E) Hc) as (Hw & l & d & r & Et & Hres & Hl & Hr).
  assert (Hins : splay_insert compare a top
    = if (splay_splay compare a top).2 <? 0 then Node l a (Node Null d r)
      else if 0 <? (splay_splay compare a top).2 then Node (Node l d Null) a r else (splay_splay compare a top).1).
  { unfold splay_insert. rewrite E at 1. destruct (splay_splay compare a top) as [t res]. cbn in Et. by subst t. }
  rewrite Et in Hw. cbn in Hw. rewrite Hins. rewrite <- Hw in Hc.
  destruct (Z.ltb_spec (splay_splay compare a top).2 0) as [H|H]; [|destruct (Z.ltb_spec 0 (splay_splay compare a top).2) as [H'|H']].
  - right. exists (walk l), (d :: walk r). split; [done|]. split; [done|]. split; [by apply Hl|].
    eapply cut_below; [exact Hc | lia].
  - right. exists (walk l ++ [d]), (walk r). rewrite <- !app_assoc. split; [done|]. split; [cbn; by rewrite <- app_assoc|].
    split; [|by apply Hr]. eapply cut_above; [exact Hc | lia].
  - left. split; [by rewrite Et|]. exists d. split; [rewrite <- Hw; set_solver | lia].
Qed.

(** ** Entries that are intervals *)

(** What the comparisons of a kind of access list promise: the entries that are
    [good] are intervals of an ordered type of keys, of which those that are [key_ok]
    are searched; [low] is the least key of an entry, [seek] compares a key with an
    entry and [place] two entries. *)
Class Intervals (K E : Type) := {
  key_le : K -> K -> Prop;
  key_ok : K -> Prop;
  good : E -> Prop;
  low : E -> K;
  seek : K -> E -> Z;
  place : E -> E -> Z;
  key_le_refl : forall x, key_le x x;
  key_le_trans : forall x y z, key_le x y -> key_le y z -> key_le x z;
  key_le_total : forall x y, key_le x y \/ key_le y x;
  low_ok : forall e, good e -> key_ok (low e);
  seek_low : forall e, good e -> seek (low e) e = 0;
  seek_below : forall x e, key_ok x -> good e -> 0 <= seek x e <-> key_le (low e) x;
  seek_above : forall x y e, key_ok x -> key_ok y -> good e -> key_le x y -> 0 < seek x e -> 0 < seek y e;
  place_overlap : forall a e, good a -> good e -> place a e = 0 <-> seek (low e) a = 0 \/ seek (low a) e = 0;
  place_apart : forall a e, good a -> good e -> place a e <> 0 -> place a e = seek (low a) e }.

Section Trees.

Context {K E : Type} `{Intervals K E}.

Definition inside (x : K) (e : E) : Prop := seek x e = 0.
Definition overlap (a b : E) : Prop := inside (low b) a \/ inside (low a) b.

(** [e] ends before [f] starts. *)
Definition before (e f : E) : Prop := 0 < seek (low f) e.

(** The entries of a tree: apart from one another and in order. *)
Definition tree_ok (l : list E) : Prop := Forall good l /\ StronglySorted before l.

Lemma low_le_low a e : good a -> good e -> 0 <= seek (low a) e <-> key_le (low e) (low a).
Proof. intros Ha He. apply seek_below; [by apply low_ok | done]. Qed.

Lemma before_low e f : good e -> good f -> before e f -> key_le (low e) (low f).
Proof. intros He Hf Hb. apply low_le_low; [done..|]. unfold before in Hb. lia. Qed.

(** Two entries that do not overlap are one before the other. *)
Lemma apart_before a e : good a -> good e -> place a e < 0 -> before a e.
Proof.
  intros Ha He Hp. assert (Hne : place a e <> 0) by lia. rewrite (place_apart _ _ Ha He Hne) in Hp. unfold before.
  destruct (Z.lt_trichotomy (seek (low e) a) 0) as [Hx|[Hx|Hx]]; [|exfalso; apply Hne, place_overlap; auto | done].
  destruct (key_le_total (low e) (low a)) as [Hy|Hy]; apply low_le_low in Hy; first [done | lia].
Qed.

(** Every key cuts the entries of a tree. *)
Lemma tree_cut x l : key_ok x -> tree_ok l -> cut seek x l.
Proof.
  intros Hk [Hg Hs]. induction Hs as [|e l Hs IH Hf]; [constructor|]. inversion_clear Hg as [|? ? He Hgl].
  constructor; [by apply IH|]. rewrite Forall_forall in Hf, Hgl. apply Forall_forall. intros f Hin.
  enough (seek x e <= 0 -> seek x f < 0) by lia. intros Hx. destruct (Z.lt_ge_cases (seek x f) 0) as [|Hxf]; [done|].
  specialize (Hgl f Hin). apply (seek_below _ _ Hk Hgl) in Hxf.
  pose proof (seek_above _ _ _ (low_ok _ Hgl) Hk He Hxf (Hf f Hin)). lia.
Qed.

(** So does a new entry. *)
Lemma place_cut a l : good a -> tree_ok l -> cut place a l.
Proof.
  intros Ha [Hg Hs]. induction Hs as [|e l Hs IH Hf]; [constructor|]. inversion_clear Hg as [|? ? He Hgl].
  constructor; [by apply IH|]. rewrite Forall_forall in Hf, Hgl. apply Forall_forall. intros f Hin.
  specialize (Hf f Hin). specialize (Hgl f Hin). rename Hgl into Hgf. pose proof (before_low _ _ He Hgf Hf) as Hlow.
  pose proof (low_ok _ Ha) as Hka. pose proof (low_ok _ He) as Hke. pose proof (low_ok _ Hgf) as Hkf.
  split.
  - intros Hae. destruct (Z.le_gt_cases (place a f) 0) as [|Haf]; [done|].
    rewrite (place_apart _ _ Ha Hgf) in Haf by lia. assert (Hfa : key_le (low f) (low a)) by (apply low_le_low; [done | done | lia]).
    assert (Hpos : 0 < seek (low a) e) by (by eapply (seek_above (low f))).
    destruct (Z.eq_dec (place a e) 0) as [H0|H0]; [|rewrite (place_apart _ _ Ha He H0) in Hae; lia].
    apply place_overlap in H0 as [H0|H0]; [|lia|done|done].
    assert (Hae' : key_le (low a) (low e)) by (apply low_le_low; [done | done | lia]).
    pose proof (seek_above _ _ _ Hkf Hke He (key_le_trans _ _ _ Hfa Hae') Hf). rewrite seek_low in * by done. lia.
  - intros Hae. pose proof (apart_before _ _ Ha He Hae) as Hle. unfold before in Hle.
    assert (Hne : place a e <> 0) by lia. rewrite (place_apart _ _ Ha He Hne) in Hae.
    assert (Hla : seek (low a) f < 0).
    { destruct (Z.lt_ge_cases (seek (low a) f) 0) as [|Hx]; [done|]. apply (low_le_low _ _ Ha Hgf) in Hx.
      pose proof (seek_above _ _ _ Hkf Hka He Hx Hf). lia. }
    assert (Hlf : 0 < seek (low f) a) by (by eapply (seek_above (low e))).
    destruct (Z.eq_dec (place a f) 0) as [H0|H0]; [|by rewrite (place_apart _ _ Ha Hgf H0)].
    apply place_overlap in H0 as [H0|H0]; [lia | lia | done | done].
Qed.

Lemma tree_ok_insert a l r : tree_ok (l ++ r) -> good a -> above place a l -> below place a r -> tree_ok (l ++ a :: r).
Proof.
  intros [Hg Hs] Ha Hl Hr. apply Forall_app in Hg as [Hgl Hgr]. apply sorted_app in Hs as (Hsl & Hsr & Hlr).
  unfold above, below in *. rewrite Forall_forall in Hl, Hr, Hgl, Hgr.
  assert (Hla : forall e, e ∈ l -> before e a).
  { intros e He. specialize (Hl e He). rewrite (place_apart _ _ Ha (Hgl e He)) in Hl by lia. exact Hl. }
  assert (Har : forall e, e ∈ r -> before a e) by (intros e He; apply apart_before; [done | by apply Hgr | by apply Hr]).
  split.
  - apply Forall_app. split; [by apply Forall_forall|]. constructor; [done | by apply Forall_forall].
  - apply sorted_app. split; [done|]. split; [constructor; [done | by apply Forall_forall]|].
    intros x y Hx [->|Hy]%elem_of_cons; [by apply Hla | by apply Hlr].
Qed.

Lemma tree_insert a t :
  good a -> tree_ok (walk t) ->
  tree_ok (walk (splay_insert place a t)) /\
  (forall e, e ∈ walk (splay_insert place a t) -> e = a \/ e ∈ walk t) /\
  (forall e, e ∈ walk t -> e ∈ walk (splay_insert place a t)) /\
  (a ∈ walk (splay_insert place a t) \/ exists e, e ∈ walk t /\ overlap a e).
Proof.
  intros Ha Hok. destruct (splay_insert_ok place a t (place_cut _ _ Ha Hok)) as [(-> & e & He & H0)|(l & r & Et & -> & Hl & Hr)].
  - split; [done|]. split; [by right|]. split; [done|]. right. exists e. split; [done|].
    apply place_overlap in H0; [exact H0 | done|]. destruct Hok as [Hg _]. rewrite Forall_forall in Hg. by apply Hg.
  - rewrite Et in *. split; [by apply tree_ok_insert|]. set_solver.
Qed.

(** The tree of a list of entries, in the order in which they are inserted. *)
Definition build (t : splayNode E) (es : list E) : splayNode E := fold_left (fun t a => splay_insert place a t) es t.

Lemma build_ok es t :
  Forall good es -> tree_ok (walk t) ->
  tree_ok (walk (build t es)) /\
  (forall e, e ∈ walk (build t es) -> e ∈ es \/ e ∈ walk t) /\
  (forall e, e ∈ walk t -> e ∈ walk (build t es)) /\
  (forall a, a ∈ es -> a ∈ walk (build t es) \/ exists e, e ∈ walk (build t es) /\ overlap a e).
Proof.
  revert t. induction es as [|a es IH]; intros t Hg Hok; [split; [done|]; set_solver|].
  inversion_clear Hg as [|? ? Ha Hg']. destruct (tree_insert a t Ha Hok) as (H1 & H2 & H3 & H4).
  destruct (IH (splay_insert place a t) Hg' H1) as (I1 & I2 & I3 & I4). cbn [build fold_left]. fold (build (splay_insert place a t) es).
  split; [exact I1|]. split; [|split].
  - intros e He. apply I2 in He as [He|He]; [left; by right|]. apply H2 in He as [->|He]; [left; by left | by right].
  - intros e He. by apply I3, H3.
  - intros b [->|Hb]%elem_of_cons; [|by apply I4]. destruct H4 as [H4|(e & He & Hov)]; [left; by apply I3|].
    right. exists e. split; [by apply I3, H3 | done].
Qed.

(** A key is found in a tree exactly when an entry contains it, and a search leaves
    the entries as they are. *)
Lemma tree_search x t :
  key_ok x -> tree_ok (walk t) ->
  ((splay_splay seek x t).2 = 0 <-> exists e, e ∈ walk t /\ inside x e) /\ walk (splay_splay seek x t).1 = walk t.
Proof. intros Hk Hok. split; [apply splay_found | apply splay_walk_same]; by apply tree_cut. Qed.

(** When no two different entries overlap, none is lost. *)
Lemma tree_complete es x :
  key_ok x -> Forall good es -> (forall a b, a ∈ es -> b ∈ es -> overlap a b -> a = b) ->
  (splay_splay seek x (build Null es)).2 = 0 <-> exists e, e ∈ es /\ inside x e.
Proof.
  intros Hk Hg Hd. destruct (build_ok es Null Hg) as (H1 & H2 & _ & H4); [by repeat constructor|].
  rewrite (proj1 (tree_search x _ Hk H1)). split; intros (e & He & Hx); exists e; (split; [|done]).
  - apply H2 in He as [He|He]; [done | by apply not_elem_of_nil in He].
  - destruct (H4 e He) as [|(f & Hf & Hov)]; [done|]. rewrite (Hd e f); [done | done | | done].
    apply H2 in Hf as [Hf|Hf]; [done | by apply not_elem_of_nil in Hf].
Qed.

End Trees.
