(* ===== verification/Url.v ===== *)
(** * URLs

    v3.0/src/squid-mybox/src/url.c: the tables of methods and protocols, the parser of
    request URLs with its static buffer for the host, the canonical URL of a request,
    the host name of a URL and the requests that can be served.  ([matchDomainName] is
    in AclData.v.)

    The build is the default one of configure.in with the filter modules:
    [CHECK_HOSTNAMES] and [SQUID_FILTERS] are set, [ALLOW_HOSTNAME_UNDERSCORES],
    [HARDCODE_DENY_PORTS], [USE_HTCP] and [USE_SSL] are not. *)

From S2P Require Import Prelude CString Escape.
Import Escape.Rfc1738.

(** ** Scanning *)

(** [%[...]] of [sscanf]: at least one character. *)
Fixpoint span (p : Z -> bool) (s : list Z) : list Z * list Z :=
  match s with
  | c :: s' => if p c then let '(a, r) := span p s' in (c :: a, r) else ([], s)
  | [] => ([], [])
  end.

Definition scan_set (p : Z -> bool) (s : list Z) : option (list Z * list Z) :=
  match span p s with ([], _) => None | ar => Some ar end.

(** The characters of a format that are matched as they are. *)
Definition scan_lit (p s : list Z) : option (list Z) :=
  if prefixb p s then Some (drop (length p) s) else None.

(** The last [c] of a string: what is before and after it. *)
Fixpoint strrchr (s : list Z) (c : Z) : option (list Z * list Z) :=
  match s with
  | [] => None
  | a :: s' =>
      match strrchr s' c with
      | Some (b, r) => Some (a :: b, r)
      | None => if a =? c then Some ([], s') else None
      end
  end.

(** ** Methods and protocols *)

Definition METHOD_NONE : Z := 0.
Definition METHOD_GET : Z := 1.
Definition METHOD_PUT : Z := 3.
Definition METHOD_HEAD : Z := 4.
Definition METHOD_CONNECT : Z := 5.
Definition METHOD_TRACE : Z := 6.
Definition METHOD_PURGE : Z := 7.
Definition METHOD_ENUM_END : Z := 47.

(** The static table, without its last entry [ERROR]. *)
Definition RequestMethodStr : list (list Z) :=
  map bytes
    ["NONE"; "GET"; "POST"; "PUT"; "HEAD"; "CONNECT"; "TRACE"; "PURGE"; "OPTIONS"; "DELETE"; "PROPFIND"; "PROPPATCH";
     "MKCOL"; "COPY"; "MOVE"; "LOCK"; "UNLOCK"; "BMOVE"; "BDELETE"; "BPROPFIND"; "BPROPPATCH"; "BCOPY"; "SEARCH";
     "SUBSCRIBE"; "UNSUBSCRIBE"; "POLL"; "REPORT"; "%EXT00"; "%EXT01"; "%EXT02"; "%EXT03"; "%EXT04"; "%EXT05";
     "%EXT06"; "%EXT07"; "%EXT08"; "%EXT09"; "%EXT10"; "%EXT11"; "%EXT12"; "%EXT13"; "%EXT14"; "%EXT15"; "%EXT16";
     "%EXT17"; "%EXT18"; "%EXT19"]%string.

(** The loops over the methods after [METHOD_NONE]; [m] is the number of the first
    entry of [l]. *)
Fixpoint find_method (s : list Z) (l : list (list Z)) (m : Z) : Z :=
  match l with
  | [] => METHOD_NONE
  | n :: l => if strcasecmp_eq s n then m else find_method s l (m + 1)
  end.

Definition urlParseMethod (strs : list (list Z)) (s : list Z) : Z :=
  match s with
  | 37 :: _ => METHOD_NONE
  | _ => find_method s (tail strs) 1
  end.

Fixpoint ext_method_add (mstr : list Z) (l : list (list Z)) : list (list Z) :=
  match l with
  | [] => []
  | n :: rest =>
      if strcmp_eq mstr n then l
      else if negb (prefixb (bytes "%EXT") n) then n :: ext_method_add mstr rest
      else mstr :: rest
  end.

Definition urlExtMethodAdd (mstr : list Z) (strs : list (list Z)) : list (list Z) :=
  match strs with
  | [] => []
  | none :: l => none :: ext_method_add mstr l
  end.

Definition urlExtMethodConfigure (ext_methods : list (list Z)) (strs : list (list Z)) : list (list Z) :=
  foldl (fun strs w => urlExtMethodAdd (map toupper w) strs) strs ext_methods.

Inductive protocol_t :=
| PROTO_NONE | PROTO_HTTP | PROTO_FTP | PROTO_GOPHER | PROTO_WAIS | PROTO_CACHEOBJ | PROTO_ICP | PROTO_URN
| PROTO_WHOIS | PROTO_INTERNAL | PROTO_HTTPS.

#[export] Instance protocol_eq : EqDecision protocol_t.
Proof. solve_decision. Defined.

Definition proto_num (p : protocol_t) : Z :=
  match p with
  | PROTO_NONE => 0 | PROTO_HTTP => 1 | PROTO_FTP => 2 | PROTO_GOPHER => 3 | PROTO_WAIS => 4 | PROTO_CACHEOBJ => 5
  | PROTO_ICP => 6 | PROTO_URN => 7 | PROTO_WHOIS => 8 | PROTO_INTERNAL => 9 | PROTO_HTTPS => 10
  end.

Definition ProtocolStr (p : protocol_t) : list Z :=
  bytes match p with
  | PROTO_NONE => "NONE" | PROTO_HTTP => "http" | PROTO_FTP => "ftp" | PROTO_GOPHER => "gopher" | PROTO_WAIS => "wais"
  | PROTO_CACHEOBJ => "cache_object" | PROTO_ICP => "icp" | PROTO_URN => "urn" | PROTO_WHOIS => "whois"
  | PROTO_INTERNAL => "internal" | PROTO_HTTPS => "https"
  end.

Definition urlParseProtocol (s : list Z) : protocol_t :=
  if strcasecmp_eq s (bytes "http") then PROTO_HTTP
  else if strcasecmp_eq s (bytes "ftp") then PROTO_FTP
  else if strcasecmp_eq s (bytes "https") then PROTO_HTTPS
  else if strcasecmp_eq s (bytes "file") then PROTO_FTP
  else if strcasecmp_eq s (bytes "gopher") then PROTO_GOPHER
  else if strcasecmp_eq s (bytes "wais") then PROTO_WAIS
  else if strcasecmp_eq s (bytes "cache_object") then PROTO_CACHEOBJ
  else if strcasecmp_eq s (bytes "urn") then PROTO_URN
  else if strcasecmp_eq s (bytes "whois") then PROTO_WHOIS
  else if strcasecmp_eq s (bytes "internal") then PROTO_INTERNAL
  else PROTO_NONE.

Definition CACHE_HTTP_PORT : Z := 3128.

Definition urlDefaultPort (p : protocol_t) : Z :=
  match p with
  | PROTO_HTTP => 80
  | PROTO_HTTPS => 443
  | PROTO_FTP => 21
  | PROTO_GOPHER => 70
  | PROTO_WAIS => 210
  | PROTO_CACHEOBJ | PROTO_INTERNAL => CACHE_HTTP_PORT
  | PROTO_WHOIS => 43
  | _ => 0
  end.

(** ** Parsing *)

Definition MAX_URL : nat := 4096.
Definition MAX_LOGIN_SZ : nat := 128.
Definition SQUIDHOSTNAMELEN : nat := 256.
Definition CONNECT_PORT : Z := 443.

Inductive whitespace :=
| URI_WHITESPACE_STRIP | URI_WHITESPACE_ALLOW | URI_WHITESPACE_ENCODE | URI_WHITESPACE_CHOP | URI_WHITESPACE_DENY.

#[export] Instance whitespace_eq : EqDecision whitespace.
Proof. solve_decision. Defined.

Record config := Config {
  appendDomain : option (list Z); uri_whitespace : whitespace; strip_query_terms : bool; getMyHostname : list Z }.

Definition appendDomainLen (cfg : config) : nat := length (default [] (appendDomain cfg)).

(** What the parser sets of a [request_t]; [flags_filter] is [flags.filter]. *)
Record request_t := Request {
  method : Z; protocol : protocol_t; login : list Z; host : list Z; port : Z; urlpath : list Z; flags_filter : bool }.

Definition valid_hostname_chars : list Z :=
  bytes "ABCDEFGHIJKLMNOPQRSTUVWXYZabcdefghijklmnopqrstuvwxyz0123456789-.".

Definition w_space : list Z := [32; 9; 10; 13].

Definition stringHasWhitespace (s : list Z) : bool := existsb (in_set w_space) s.
Definition stringHasCntl (s : list Z) : bool := existsb (fun c => (c <=? 31) || ((127 <=? c) && (c <=? 159))) s.

(** A loop over the buffer up to the NUL that changes the bytes in place. *)
Definition in_place (f : Z -> Z) (buf : list Z) : list Z := map f (cstr buf) ++ drop (length (cstr buf)) buf.

Definition strip_space (s : list Z) : list Z := List.filter (fun c => negb (isspace c)) s.

(** The last eight characters of [.nofilter] at [host + l - 9], for [l] the length of
    the URL. *)
Definition nofilter_at (buf : list Z) (l : nat) : bool :=
  Nat.ltb 9 l && bool_decide (take 8 (drop (l - 8) buf) = bytes "nofilter").

(** The host without [.] [myhost] and the nine characters after it. *)
Definition cut_nofilter (myhost h : list Z) : option (list Z) :=
  let n := (length h - 9)%nat in
  let m := length myhost in
  if Nat.leb 10 (length h) && Nat.ltb m n && bool_decide (take m (drop (n - m) h) = map tolower myhost)
     && bool_decide (nth (n - m - 1) h 0 = 46)
  then Some (take (n - m - 1) h) else None.

Definition strncat_host (h dom : list Z) : list Z :=
  h ++ if Nat.leb SQUIDHOSTNAMELEN (length h) then dom else take (SQUIDHOSTNAMELEN - length h - 1) dom.

(** The host, login and port that are read from the URL, with the buffer [host]. *)
Definition split_host (hostbuf : list Z) (defport : Z) : list Z * list Z * Z :=
  let '(login, hostbuf) :=
    match strrchr (cstr hostbuf) 64 with
    | Some (l, h) => (l, poke h hostbuf)
    | None => ([], hostbuf)
    end in
  match strrchr (cstr hostbuf) 58 with
  | Some (h, p) => (login, poke h hostbuf, match p with [] => defport | _ => atoi p end)
  | None => (login, hostbuf, defport)
  end.

Definition fix_urlpath (cfg : config) (s : list Z) : option (list Z) :=
  if stringHasWhitespace s then
    match uri_whitespace cfg with
    | URI_WHITESPACE_DENY => None
    | URI_WHITESPACE_ALLOW => Some s
    | URI_WHITESPACE_ENCODE => Some (take (pred MAX_URL) (rfc1738_escape_unescaped s))
    | URI_WHITESPACE_CHOP => Some (break w_space s).1
    | URI_WHITESPACE_STRIP => Some (strip_space s)
    end
  else Some s.

(** From the test for [.nofilter] to the end. *)
Definition end_host (cfg : config) (m : Z) (p : protocol_t) (login buf : list Z) (port : Z) (urlpath : list Z) (l : nat)
    : option request_t * list Z :=
  let '(f, buf) :=
    if nofilter_at buf l then
      match cut_nofilter (getMyHostname cfg) (cstr buf) with
      | Some h => (false, poke h buf)
      | None => (true, buf)
      end
    else (true, buf) in
  let h := cstr buf in
  if bool_decide (strstr h (bytes "..") <> None) || bool_decide (head h = Some 46) then (None, buf)
  else if (port <? 1) || (65535 <? port) then (None, buf)
  else
    match fix_urlpath cfg urlpath with
    | None => (None, buf)
    | Some path =>
        (Some (Request m p (take (pred MAX_LOGIN_SZ) login) (take (pred SQUIDHOSTNAMELEN) h) port path f), buf)
    end.

(** From the first loop over the host. *)
Definition finish (cfg : config) (m : Z) (p : protocol_t) (login hostbuf : list Z) (port : Z) (urlpath : list Z) (l : nat)
    : option request_t * list Z :=
  let buf := in_place tolower hostbuf in
  let buf :=
    if stringHasWhitespace (cstr buf) && bool_decide (uri_whitespace cfg = URI_WHITESPACE_STRIP)
    then poke (strip_space (cstr buf)) buf else buf in
  if negb (Nat.eqb (strspn (cstr buf) valid_hostname_chars) (length (cstr buf))) then (None, buf)
  else
    let buf :=
      match appendDomain cfg, strchr (cstr buf) 46 with
      | Some dom, None => poke (strncat_host (cstr buf) dom) buf
      | _, _ => buf
      end in
    end_host cfg m p login buf port urlpath l.

Definition urnParse (m : Z) (urn : list Z) : request_t := Request m PROTO_URN [] [] 0 (drop 4 urn) false.

(** [mem] is the static buffer [host], with what earlier calls left in it. *)
Definition urlParse (cfg : config) (m : Z) (url : list Z) (mem : list Z) : option request_t * list Z :=
  let mem := poke [] mem in
  let l := length url in
  if Nat.ltb (pred MAX_URL) (l + appendDomainLen cfg) then (None, mem)
  else if m =? METHOD_CONNECT then
    match scan_set (fun c => negb (c =? 58)) url with
    | None => (None, mem)
    | Some (h, r) =>
        let port := match scan_lit [58] r with
                    | Some r => match scan_int r with Some (n, _) => n | None => CONNECT_PORT end
                    | None => CONNECT_PORT
                    end in
        finish cfg m PROTO_NONE [] (poke h mem) port [] l
    end
  else if prefixb (bytes "urn:") url then (Some (urnParse m url), mem)
  else
    match scan_set (fun c => negb (c =? 58)) url with
    | None => (None, mem)
    | Some (proto, r) =>
        match scan_lit (bytes "://") r with
        | None => (None, mem)
        | Some r =>
            match scan_set (fun c => negb (c =? 47)) r with
            | None => (None, mem)
            | Some (h, r) =>
                let urlpath := (span (fun c => negb ((c =? 13) || (c =? 10))) r).1 in
                let p := urlParseProtocol proto in
                let '(login, buf, port) := split_host (poke h mem) (urlDefaultPort p) in
                finish cfg m p login buf port urlpath l
            end
        end
    end.

(** ** Printing *)

Definition port_text (r : request_t) : list Z :=
  if port r =? urlDefaultPort (protocol r) then [] else 58 :: dec (port r).

Definition urlCanonical (r : request_t) : list Z :=
  snprintf MAX_URL
    (if decide (protocol r = PROTO_URN) then bytes "urn:" ++ urlpath r
     else if method r =? METHOD_CONNECT then host r ++ [58] ++ dec (port r)
     else ProtocolStr (protocol r) ++ bytes "://" ++ login r ++ (match login r with [] => [] | _ => [64] end)
          ++ host r ++ port_text r ++ urlpath r).

(** The user of [user:password], and the text up to the first question mark. *)
Definition urlCanonicalClean (cfg : config) (r : request_t) : list Z :=
  let buf :=
    if decide (protocol r = PROTO_URN) then snprintf MAX_URL (bytes "urn:" ++ urlpath r)
    else if method r =? METHOD_CONNECT then snprintf MAX_URL (host r ++ [58] ++ dec (port r))
    else
      let loginbuf := match login r with [] => [] | l => (break [58] l).1 ++ [64] end in
      let buf := snprintf MAX_URL (ProtocolStr (protocol r) ++ bytes "://" ++ loginbuf ++ host r ++ port_text r ++ urlpath r) in
      if strip_query_terms cfg then match strchr buf 63 with Some i => take (S i) buf | None => buf end else buf in
  if stringHasCntl buf then take (pred MAX_URL) (rfc1738_escape_unescaped buf) else buf.

(** ** Other uses of URLs *)

Definition urlCheckRequest (m : Z) (p : protocol_t) : bool :=
  if (m =? METHOD_CONNECT) || (m =? METHOD_TRACE) || (m =? METHOD_PURGE) then true
  else
    match p with
    | PROTO_URN | PROTO_HTTP | PROTO_CACHEOBJ => true
    | PROTO_FTP => (m =? METHOD_PUT) || (m =? METHOD_GET) || (m =? METHOD_HEAD)
    | PROTO_GOPHER | PROTO_WAIS | PROTO_WHOIS => (m =? METHOD_GET) || (m =? METHOD_HEAD)
    | _ => false
    end.

Fixpoint skip_slashes (s : list Z) : list Z :=
  match s with
  | 47 :: s => skip_slashes s
  | _ => s
  end.

Definition urlHostname (url : list Z) : option (list Z) :=
  i ← strchr url 58;
  let h := take (pred SQUIDHOSTNAMELEN) (skip_slashes (drop (S i) url)) in
  let h := (break [58] (break [47] h).1).1 in
  mret (match strrchr h 64 with Some (_, h) => h | None => h end).

(** ** Laws of scanning *)

Lemma span_spec p s : s = (span p s).1 ++ (span p s).2 /\ Forall (fun c => p c = true) (span p s).1.
Proof.
  induction s as [|c s [IH1 IH2]]; cbn; [by split|]. destruct (p c) eqn:E; [|by split].
  destruct (span p s) as [a r]. cbn in *. split; [by rewrite IH1 | by constructor].
Qed.

(** What follows a run: the end, or a character that is not in it. *)
Definition stops (p : Z -> bool) (r : list Z) : Prop := match r with c :: _ => p c = false | [] => True end.

Lemma span_app p a r : Forall (fun c => p c = true) a -> stops p r -> span p (a ++ r) = (a, r).
Proof.
  induction 1 as [|c a Hc _ IH]; cbn; intros Hr; [destruct r as [|c r]; [done | cbn in *; by rewrite Hr]|]. by rewrite Hc, IH.
Qed.

Lemma scan_set_some p s a r :
  scan_set p s = Some (a, r) -> s = a ++ r /\ a <> [] /\ Forall (fun c => p c = true) a.
Proof.
  unfold scan_set. destruct (span_spec p s) as [H1 H2]. destruct (span p s) as [[|c a'] r']; [done|].
  intros [= <- <-]. by split_and!.
Qed.

Lemma scan_set_app p a r : a <> [] -> Forall (fun c => p c = true) a -> stops p r -> scan_set p (a ++ r) = Some (a, r).
Proof. intros Ha Hp Hr. unfold scan_set. rewrite span_app by done. by destruct a. Qed.

Lemma scan_lit_app p s : scan_lit p (p ++ s) = Some s.
Proof. unfold scan_lit. by rewrite prefixb_app, drop_app_length. Qed.

Lemma scan_lit_some p s r : scan_lit p s = Some r -> s = p ++ r.
Proof.
  unfold scan_lit. destruct (prefixb p s) eqn:E; [|done]. intros [= <-]. apply prefixb_spec in E as [k ->]. by rewrite drop_app_length.
Qed.

Lemma strrchr_none s c : strrchr s c = None <-> c ∉ s.
Proof.
  induction s as [|a s IH]; cbn; [split; [intros; apply not_elem_of_nil | done]|]. destruct (strrchr s c) as [[b r]|].
  - split; [done|]. intros H. destruct IH as [_ IH]. discriminate IH. set_solver.
  - destruct (Z.eqb_spec a c) as [->|Hne]; [split; [done | set_solver]|]. split; [|done]. intros _. destruct IH as [IH _]. specialize (IH eq_refl). set_solver.
Qed.

Lemma strrchr_some s c b r : strrchr s c = Some (b, r) -> s = b ++ c :: r /\ c ∉ r.
Proof.
  revert b r. induction s as [|a s IH]; intros b r; cbn; [done|]. destruct (strrchr s c) as [[b' r']|] eqn:E.
  - intros [= <- <-]. destruct (IH b' r' eq_refl) as [-> H]. by split.
  - destruct (Z.eqb_spec a c) as [->|]; [|done]. intros [= <- <-]. split; [done | by apply strrchr_none].
Qed.

Lemma strrchr_app b c r : c ∉ r -> strrchr (b ++ c :: r) c = Some (b, r).
Proof.
  intros Hr. induction b as [|a b IH]; cbn; [|by rewrite IH]. apply strrchr_none in Hr. by rewrite Hr, Z.eqb_refl.
Qed.

(** ** The static buffer *)

Lemma cstr_poke s buf : is_cstr s -> cstr (poke s buf) = s.
Proof. intros H. unfold poke. rewrite cstr_app_nul. by apply cstr_id. Qed.

(** The buffer beyond position [n], where a NUL is, is as it was. *)
Definition kept_from (n : nat) (buf mem : list Z) : Prop :=
  length buf = length mem /\ buf !! n = Some 0 /\ drop (S n) buf = drop (S n) mem.

Lemma poke_length s buf : (length s < length buf)%nat -> length (poke s buf) = length buf.
Proof. intros H. unfold poke. rewrite length_app. cbn. rewrite length_drop. lia. Qed.

Lemma drop_poke s buf n : (length s <= n)%nat -> drop (S n) (poke s buf) = drop (S n) buf.
Proof.
  intros H. unfold poke. rewrite drop_app_ge by lia. replace (S n - length s)%nat with (S (n - length s)) by lia.
  cbn. rewrite drop_drop. f_equal. lia.
Qed.

Lemma kept_start s mem : (length s < length mem)%nat -> kept_from (length s) (poke s mem) mem.
Proof.
  intros H. split_and!; [by apply poke_length | | by apply drop_poke].
  unfold poke. rewrite lookup_app_r by lia. by rewrite Nat.sub_diag.
Qed.

Lemma kept_poke n s buf mem : kept_from n buf mem -> (length s <= n)%nat -> kept_from n (poke s buf) mem.
Proof.
  intros (H1 & H2 & H3) Hs. assert (n < length buf)%nat by (by eapply lookup_lt_Some).
  split_and!; [rewrite poke_length by lia; done | | by rewrite drop_poke].
  unfold poke. destruct (decide (length s = n)) as [<-|Hne].
  - rewrite lookup_app_r by lia. by rewrite Nat.sub_diag.
  - rewrite lookup_app_r by lia. replace (n - length s)%nat with (S (n - S (length s))) by lia.
    transitivity (drop (S (length s)) buf !! (n - S (length s))%nat); [done|]. rewrite lookup_drop. rewrite <- H2. f_equal. lia.
Qed.

Lemma cstr_split buf n : buf !! n = Some 0 -> exists t, buf = cstr buf ++ 0 :: t /\ (length (cstr buf) <= n)%nat.
Proof.
  revert n. induction buf as [|c buf IH]; intros n; [done|]. cbn. destruct (Z.eqb_spec c 0) as [->|Hne].
  - intros _. exists buf. split; [done | cbn; lia].
  - destruct n as [|n]; cbn; [by intros [= ->]|]. intros H. destruct (IH n H) as (t & E & Hl). exists t. split; [by rewrite E at 1 | lia].
Qed.

Lemma in_place_length f buf : length (in_place f buf) = length buf.
Proof.
  unfold in_place. rewrite length_app, length_map, length_drop. enough (length (cstr buf) <= length buf)%nat by lia.
  induction buf as [|c buf IH]; cbn; [lia|]. destruct (c =? 0); cbn; lia.
Qed.

Lemma kept_in_place n f buf mem : kept_from n buf mem -> kept_from n (in_place f buf) mem.
Proof.
  intros (H1 & H2 & H3). destruct (cstr_split buf n H2) as (t & E & Hl).
  split_and!; [by rewrite in_place_length | |]; unfold in_place.
  - rewrite lookup_app_r by (rewrite length_map; lia). rewrite lookup_drop, length_map. rewrite <- H2. f_equal. lia.
  - rewrite drop_app_ge by (rewrite length_map; lia). rewrite drop_drop, length_map, <- H3. f_equal. lia.
Qed.

Lemma cstr_in_place f n buf :
  buf !! n = Some 0 -> Forall (fun c => f c <> 0) (cstr buf) -> cstr (in_place f buf) = map f (cstr buf).
Proof.
  intros H Hf. destruct (cstr_split buf n H) as (t & E & _). unfold in_place.
  remember (cstr buf) as s eqn:Es. clear Es. subst buf. rewrite drop_app_length. clear H. induction Hf as [|c s Hc _ IH]; [done|]. cbn.
  rewrite (proj2 (Z.eqb_neq (f c) 0)) by done. by rewrite IH.
Qed.

(** ** The parts of the parser *)

Lemma is_cstr_app s t : is_cstr (s ++ t) <-> is_cstr s /\ is_cstr t.
Proof. apply Forall_app. Qed.

Lemma is_cstr_take n s : is_cstr s -> is_cstr (take n s).
Proof. intros H. by apply Forall_take. Qed.

Lemma tolower_range c : 0 < c < 256 -> 0 < tolower c < 256.
Proof. intros H. unfold tolower. destruct ((65 <=? c) && (c <=? 90)) eqn:E; [btoprop; lia | done]. Qed.

Lemma is_cstr_lower s : is_cstr s -> is_cstr (map tolower s).
Proof. intros H. apply Forall_map. eapply Forall_impl; [exact H | apply tolower_range]. Qed.

Lemma is_cstr_nonzero s : is_cstr s -> Forall (fun c => tolower c <> 0) s.
Proof. intros H. eapply Forall_impl; [exact H|]. intros c Hc%tolower_range. cbn. lia. Qed.

Lemma is_cstr_strip s : is_cstr s -> is_cstr (strip_space s).
Proof. intros H. unfold is_cstr, strip_space in *. rewrite Forall_forall in *. intros c Hc%list_elem_of_In. apply filter_In in Hc as [Hc _]. by apply H, list_elem_of_In. Qed.

Lemma strip_length s : (length (strip_space s) <= length s)%nat.
Proof. apply filter_length_le. Qed.

(** What [split_host] finds in the text between [://] and the path. *)
Definition split_text (hs : list Z) (defport : Z) : list Z * list Z * Z :=
  let '(login, h) := match strrchr hs 64 with Some lh => lh | None => ([], hs) end in
  match strrchr h 58 with
  | Some (h, p) => (login, h, match p with [] => defport | _ => atoi p end)
  | None => (login, h, defport)
  end.

Lemma split_host_spec n buf mem defport :
  kept_from n buf mem -> is_cstr (cstr buf) ->
  exists buf', split_host buf defport = ((split_text (cstr buf) defport).1.1, buf', (split_text (cstr buf) defport).2) /\
    kept_from n buf' mem /\ cstr buf' = (split_text (cstr buf) defport).1.2 /\ is_cstr (cstr buf') /\
    (length (split_text (cstr buf) defport).1.1 <= n)%nat.
Proof.
  intros Hk Hc. assert (Hl : (length (cstr buf) <= n)%nat) by (destruct Hk as (_ & H2 & _); by destruct (cstr_split buf n H2) as (? & _ & ?)).
  unfold split_host, split_text.
  assert (H : exists login buf1, match strrchr (cstr buf) 64 with Some (l, h) => (l, poke h buf) | None => ([], buf) end = (login, buf1) /\
            match strrchr (cstr buf) 64 with Some lh => lh | None => ([], cstr buf) end = (login, cstr buf1) /\
            kept_from n buf1 mem /\ is_cstr (cstr buf1) /\ (length login <= n)%nat).
  { destruct (strrchr (cstr buf) 64) as [[l h]|] eqn:E; [|exists [], buf; split_and!; [done | done | done | done | cbn; lia]].
    apply strrchr_some in E as [E _]. rewrite E in Hc, Hl. apply Forall_app in Hc as [_ Hc]. apply Forall_cons in Hc as [_ Hc].
    rewrite length_app in Hl. cbn in Hl. exists l, (poke h buf). rewrite cstr_poke by done.
    split_and!; [done | done | apply kept_poke; [done | lia] | done | lia]. }
  destruct H as (login & buf1 & -> & -> & Hk1 & Hc1 & Hl1). clear Hk Hc Hl buf.
  assert (Hl : (length (cstr buf1) <= n)%nat) by (destruct Hk1 as (_ & H2 & _); by destruct (cstr_split buf1 n H2) as (? & _ & ?)).
  destruct (strrchr (cstr buf1) 58) as [[h p]|] eqn:E; [|by exists buf1].
  apply strrchr_some in E as [E _]. rewrite E in Hc1, Hl. apply Forall_app in Hc1 as [Hc1 _]. rewrite length_app in Hl.
  exists (poke h buf1). cbn [fst snd]. rewrite cstr_poke by done. split_and!; [done | apply kept_poke; [done | lia] | done | done | done].
Qed.

(** The host without what ends it for [.nofilter]. *)
Definition fix_host (cfg : config) (h : list Z) : option (list Z) :=
  let h := map tolower h in
  let h := if stringHasWhitespace h && bool_decide (uri_whitespace cfg = URI_WHITESPACE_STRIP) then strip_space h else h in
  if negb (Nat.eqb (strspn h valid_hostname_chars) (length h)) then None
  else
    Some (match appendDomain cfg, strchr h 46 with
          | Some dom, None => strncat_host h dom
          | _, _ => h
          end).

(** The tests at the end of the parser. *)
Definition check_parts (cfg : config) (m : Z) (p : protocol_t) (login h : list Z) (port : Z) (urlpath : list Z) (f : bool) : option request_t :=
  if bool_decide (strstr h (bytes "..") <> None) || bool_decide (head h = Some 46) then None
  else if (port <? 1) || (65535 <? port) then None
  else
    path ← fix_urlpath cfg urlpath;
    mret (Request m p (take (pred MAX_LOGIN_SZ) login) (take (pred SQUIDHOSTNAMELEN) h) port path f).

Lemma strncat_length h dom : (length (strncat_host h dom) <= length h + length dom)%nat.
Proof. unfold strncat_host. rewrite length_app. destruct (Nat.leb _ _); [lia|]. rewrite length_take. lia. Qed.

Lemma is_cstr_strncat h dom : is_cstr h -> is_cstr dom -> is_cstr (strncat_host h dom).
Proof. intros Hh Hd. apply is_cstr_app. split; [done|]. destruct (Nat.leb _ _); [done | by apply is_cstr_take]. Qed.

Lemma cut_nofilter_prefix my h h' : cut_nofilter my h = Some h' -> exists k, h' = take k h.
Proof. unfold cut_nofilter. destruct (_ && _); [|done]. intros [= <-]. by eexists. Qed.

(** With a NUL between the host and the end of the URL, only what earlier calls left can
    look like [.nofilter]. *)
Lemma nofilter_kept n buf mem l :
  kept_from n buf mem -> (n < l)%nat -> take 8 (drop (l - 8) mem) <> bytes "nofilter" -> nofilter_at buf l = false.
Proof.
  intros (H1 & H2 & H3) Hn Hw. unfold nofilter_at. destruct (Nat.ltb_spec 9 l); [|done]. cbn [andb].
  apply bool_decide_eq_false_2. intros E. destruct (decide (n < l - 8)%nat) as [Hlt|Hge].
  - apply Hw. rewrite <- E. f_equal. replace (l - 8)%nat with (S n + (l - 8 - S n))%nat by lia. by rewrite <- !drop_drop, H3.
  - assert (Ei : take 8 (drop (l - 8) buf) !! (n - (l - 8))%nat = Some 0).
    { rewrite lookup_take_lt by lia. rewrite lookup_drop. rewrite <- H2. f_equal. lia. }
    rewrite E in Ei. assert (Hk : (n - (l - 8) < 8)%nat) by lia. revert Ei. generalize (n - (l - 8))%nat, Hk.
    intros k Hk'. do 8 (destruct k as [|k]; [done|]). lia.
Qed.

Lemma end_host_spec cfg m p login buf port urlpath l :
  is_cstr (cstr buf) -> (length (cstr buf) < length buf)%nat ->
  exists o buf' f h', end_host cfg m p login buf port urlpath l = (o, buf') /\ length buf' = length buf /\
    o = check_parts cfg m p login h' port urlpath f /\
    (f = true /\ h' = cstr buf \/ nofilter_at buf l = true /\ cut_nofilter (getMyHostname cfg) (cstr buf) = Some h').
Proof.
  intros Hc Hl. unfold end_host.
  assert (H : exists f buf' h',
    (if nofilter_at buf l then
       match cut_nofilter (getMyHostname cfg) (cstr buf) with Some h => (false, poke h buf) | None => (true, buf) end
     else (true, buf)) = (f, buf') /\ length buf' = length buf /\ cstr buf' = h' /\
    (f = true /\ h' = cstr buf \/ nofilter_at buf l = true /\ cut_nofilter (getMyHostname cfg) (cstr buf) = Some h')).
  { destruct (nofilter_at buf l); [|exists true, buf, (cstr buf); split_and!; auto].
    destruct (cut_nofilter _ _) as [h'|] eqn:E; [|exists true, buf, (cstr buf); split_and!; auto].
    destruct (cut_nofilter_prefix _ _ _ E) as [k Ek]. exists false, (poke h' buf), h'. subst h'. split_and!; [done | | | auto].
    - apply poke_length. rewrite length_take. lia.
    - apply cstr_poke. by apply is_cstr_take. }
  destruct H as (f & buf' & h' & -> & Hl' & <- & Hf).
  exists (check_parts cfg m p login (cstr buf') port urlpath f), buf', f, (cstr buf'). split_and!; [|done|done|done].
  unfold check_parts. destruct (_ || _); [done|]. destruct (_ || _); [done|]. by destruct (fix_urlpath cfg urlpath).
Qed.

Lemma finish_spec cfg m p login hostbuf port urlpath l n mem :
  kept_from n hostbuf mem -> is_cstr (cstr hostbuf) -> (forall d, appendDomain cfg = Some d -> is_cstr d) ->
  (n + appendDomainLen cfg < length mem)%nat ->
  exists o buf', finish cfg m p login hostbuf port urlpath l = (o, buf') /\ length buf' = length mem /\
    match fix_host cfg (cstr hostbuf) with
    | None => o = None
    | Some h =>
        exists f h', o = check_parts cfg m p login h' port urlpath f /\ (f = true /\ h' = h \/ cut_nofilter (getMyHostname cfg) h = Some h') /\
          ((length h <= n)%nat -> (n < l)%nat -> take 8 (drop (l - 8) mem) <> bytes "nofilter" -> f = true /\ h' = h)
    end.
Proof.
  intros Hk Hc Hdom Hn. unfold finish, fix_host.
  assert (H0 : hostbuf !! n = Some 0) by apply Hk.
  assert (E1 : cstr (in_place tolower hostbuf) = map tolower (cstr hostbuf)) by (eapply cstr_in_place; [exact H0 | by apply is_cstr_nonzero]).
  pose proof (kept_in_place n tolower _ _ Hk) as Hk1. pose proof (is_cstr_lower _ Hc) as Hc1. rewrite <- E1 in *.
  clear E1 H0 Hk Hc. set (b1 := in_place tolower hostbuf) in *. clearbody b1.
  assert (H2 : exists b2, (if stringHasWhitespace (cstr b1) && bool_decide (uri_whitespace cfg = URI_WHITESPACE_STRIP)
                           then poke (strip_space (cstr b1)) b1 else b1) = b2 /\
            (if stringHasWhitespace (cstr b1) && bool_decide (uri_whitespace cfg = URI_WHITESPACE_STRIP)
             then strip_space (cstr b1) else cstr b1) = cstr b2 /\ kept_from n b2 mem /\ is_cstr (cstr b2)).
  { destruct (_ && _); eexists; split_and!; try done.
    - symmetry. apply cstr_poke. by apply is_cstr_strip.
    - apply kept_poke; [done|]. etrans; [apply strip_length|]. destruct Hk1 as (_ & H2 & _). by destruct (cstr_split b1 n H2) as (? & _ & ?).
    - rewrite cstr_poke by (by apply is_cstr_strip). by apply is_cstr_strip. }
  destruct H2 as (b2 & -> & -> & Hk2 & Hc2). clear b1 Hk1 Hc1.
  destruct (negb _); [exists None, b2; by split_and!; [|apply Hk2|]|].
  assert (Hl2 : (length (cstr b2) <= n)%nat) by (destruct Hk2 as (_ & H2 & _); by destruct (cstr_split b2 n H2) as (? & _ & ?)).
  set (h := match appendDomain cfg, strchr (cstr b2) 46 with Some dom, None => strncat_host (cstr b2) dom | _, _ => cstr b2 end).
  assert (H3 : exists b3, match appendDomain cfg, strchr (cstr b2) 46 with
                          | Some dom, None => poke (strncat_host (cstr b2) dom) b2 | _, _ => b2 end = b3 /\
            cstr b3 = h /\ is_cstr h /\ length b3 = length mem /\ (length h < length mem)%nat /\ ((length h <= n)%nat -> kept_from n b3 mem)).
  { unfold h. assert (Hsame : exists b3, b2 = b3 /\ cstr b3 = cstr b2 /\ is_cstr (cstr b2) /\ length b3 = length mem /\
                        (length (cstr b2) < length mem)%nat /\ ((length (cstr b2) <= n)%nat -> kept_from n b3 mem)).
    { exists b2. split_and!; try done; [apply Hk2 | lia]. }
    destruct (appendDomain cfg) as [dom|] eqn:Ed; [|exact Hsame]. destruct (strchr (cstr b2) 46); [exact Hsame|]. clear Hsame.
    pose proof (strncat_length (cstr b2) dom) as Hl. unfold appendDomainLen in Hn. rewrite Ed in Hn. cbn in Hn.
    pose proof (is_cstr_strncat (cstr b2) dom Hc2 (Hdom dom eq_refl)) as Hc. destruct Hk2 as (L2 & K2).
    eexists. split_and!; [done | by apply cstr_poke | done | rewrite poke_length; lia | lia|]. intros Hh. apply kept_poke; [by split | done]. }
  clearbody h. destruct H3 as (b3 & -> & E3 & Hc3 & L3 & Lh & Hk3). clear b2 Hk2 Hc2 Hl2.
  destruct (end_host_spec cfg m p login b3 port urlpath l) as (o & b4 & f & h' & E4 & L4 & Eo & Hf); [by rewrite E3 | rewrite E3; lia|].
  rewrite E3 in Hf. exists o, b4. split_and!; [done | congruence|]. exists f, h'. split; [done|]. split; [naive_solver|].
  intros Hh Hl Hw. destruct Hf as [Hf|[Hf _]]; [done|]. by rewrite (nofilter_kept n b3 mem l) in Hf by (try apply Hk3; done).
Qed.

(** ** What a parsed request is *)

Definition host_chars : list Z := bytes "abcdefghijklmnopqrstuvwxyz0123456789-.".

Definition host_text (h : list Z) : Prop := Forall (fun c => c ∈ host_chars) h.

Lemma valid_lower c : c ∈ valid_hostname_chars -> tolower c = c -> c ∈ host_chars.
Proof.
  assert (H : forallb (fun c => negb (tolower c =? c) || in_set host_chars c) valid_hostname_chars = true) by (vm_compute; reflexivity).
  rewrite forallb_forall in H. intros Hc%list_elem_of_In E. specialize (H c Hc). rewrite E, Z.eqb_refl in H.
  by apply bool_decide_eq_true in H.
Qed.

Lemma strspn_all s set : strspn s set = length s -> Forall (fun c => c ∈ set) s.
Proof. intros E. pose proof (strspn_take s set) as H. rewrite E in H. by rewrite take_ge in H. Qed.

Lemma fix_host_text cfg h h' :
  (forall d, appendDomain cfg = Some d -> host_text d) -> fix_host cfg h = Some h' -> host_text h'.
Proof.
  intros Hd. unfold fix_host.
  set (s := if stringHasWhitespace (map tolower h) && _ then strip_space (map tolower h) else map tolower h).
  assert (Hlow : Forall (fun c => tolower c = c) s).
  { assert (H : Forall (fun c => tolower c = c) (map tolower h)) by (apply Forall_map, Forall_true; intros c; apply tolower_idem).
    unfold s. destruct (_ && _); [|done]. rewrite Forall_forall in H |- *. intros c Hc%list_elem_of_In.
    apply filter_In in Hc as [Hc _]. by apply H, list_elem_of_In. }
  destruct (negb _) eqn:E; [done|]. apply negb_false_iff, Nat.eqb_eq, strspn_all in E.
  assert (Hs : host_text s).
  { unfold host_text. rewrite Forall_forall in *. intros c Hc. apply valid_lower; [by apply E | by apply Hlow]. }
  intros [= <-]. destruct (appendDomain cfg) as [d|]; [|done]. destruct (strchr s 46); [done|]. apply Forall_app. split; [done|].
  destruct (Nat.leb _ _); [by apply Hd | by apply Forall_take, Hd].
Qed.

(** No two dots in sequence and none at the start, also of what is copied. *)
Lemma dots_take n h : strstr h (bytes "..") = None -> strstr (take n h) (bytes "..") = None.
Proof.
  intros H. apply strstr_None. intros j. rewrite strstr_None in H. specialize (H j).
  destruct (prefixb (bytes "..") (drop j (take n h))) eqn:E; [|done]. rewrite <- H. symmetry. apply prefixb_spec.
  apply prefixb_spec in E as [k E]. rewrite <- (take_drop n h) at 1. destruct (decide (j <= length (take n h))%nat) as [Hj|Hj].
  - rewrite drop_app_le by done. exists (k ++ drop n h). by rewrite E, app_assoc.
  - rewrite drop_ge in E by lia. done.
Qed.

Lemma head_take n (h : list Z) c : head (take n h) = Some c -> head h = Some c.
Proof. by destruct n, h. Qed.

(** A request that the parser made of something else than a URN. *)
Definition request_ok (r : request_t) : Prop :=
  host_text (host r) /\ strstr (host r) (bytes "..") = None /\ head (host r) <> Some 46 /\
  (length (host r) < SQUIDHOSTNAMELEN)%nat /\ (length (login r) < MAX_LOGIN_SZ)%nat /\
  1 <= port r <= 65535 /\ (length (urlpath r) < MAX_URL)%nat.

Lemma fix_urlpath_length cfg s s' : (length s < MAX_URL)%nat -> fix_urlpath cfg s = Some s' -> (length s' < MAX_URL)%nat.
Proof.
  intros Hs. unfold fix_urlpath. destruct (stringHasWhitespace s); [|by intros [= <-]].
  destruct (uri_whitespace cfg); intros [= <-]; try done.
  - eapply Nat.le_lt_trans; [apply strip_length | done].
  - eapply Nat.le_lt_trans; [rewrite length_take; apply Nat.le_min_l | unfold MAX_URL; lia].
  - pose proof (f_equal length (break_app w_space s)) as E. rewrite length_app in E. lia.
Qed.

Lemma check_parts_ok cfg m p login h port urlpath f r :
  check_parts cfg m p login h port urlpath f = Some r -> host_text h -> (length urlpath < MAX_URL)%nat ->
  method r = m /\ protocol r = p /\ flags_filter r = f /\ request_ok r.
Proof.
  intros H Hh Hu. unfold check_parts in H. destruct (_ || _) eqn:E1; [done|]. destruct (_ || _) eqn:E2 in H; [done|].
  apply orb_false_iff in E1 as [E1 E1']. apply bool_decide_eq_false in E1, E1'. btoprop.
  destruct (fix_urlpath cfg urlpath) as [path|] eqn:Ep; [|done]. cbn in H. injection H as <-. split_and!; [done..|].
  unfold request_ok. cbn [host Url.login Url.port Url.urlpath]. split_and!; try lia.
  - by apply Forall_take.
  - apply dots_take. by destruct (strstr h (bytes "..")); [destruct E1|].
  - intros Hd. by apply head_take in Hd.
  - rewrite length_take. unfold SQUIDHOSTNAMELEN. lia.
  - rewrite length_take. unfold MAX_LOGIN_SZ. lia.
  - by eapply fix_urlpath_length.
Qed.

(** ** The parser *)

Definition config_ok (cfg : config) : Prop := forall d, appendDomain cfg = Some d -> host_text d.

Lemma host_text_cstr h : host_text h -> is_cstr h.
Proof.
  intros H. eapply Forall_impl; [exact H|]. intros c Hc%list_elem_of_In. cbn.
  assert (Hb : forallb (fun c => (0 <? c) && (c <? 256)) host_chars = true) by (vm_compute; reflexivity).
  rewrite forallb_forall in Hb. specialize (Hb c Hc). lia.
Qed.

(** The texts that the parser scans: the host and the rest of a CONNECT, or the
    protocol, the text up to the path and the path of a URL. *)
Inductive scanned := Scanned (p : protocol_t) (hs : list Z) (login h : list Z) (port : Z) (path : list Z).

Definition scan_url (m : Z) (url : list Z) : option scanned :=
  if m =? METHOD_CONNECT then
    '(h, r) ← scan_set (fun c => negb (c =? 58)) url;
    mret (Scanned PROTO_NONE h [] h
            (match scan_lit [58] r with
             | Some r => match scan_int r with Some (n, _) => n | None => CONNECT_PORT end
             | None => CONNECT_PORT
             end) [])
  else
    '(proto, r) ← scan_set (fun c => negb (c =? 58)) url;
    r ← scan_lit (bytes "://") r;
    '(h, r) ← scan_set (fun c => negb (c =? 47)) r;
    let p := urlParseProtocol proto in
    let '(login, h', port) := split_text h (urlDefaultPort p) in
    mret (Scanned p h login h' port (span (fun c => negb ((c =? 13) || (c =? 10))) r).1).

(** What the parser makes of them; [urlParse] is this but for what its static buffer held. *)
Definition parsed_as (cfg : config) (m : Z) (l : nat) (mem : list Z) (x : scanned) (o : option request_t) : Prop :=
  let '(Scanned p hs login h port path) := x in
  match fix_host cfg h with
  | None => o = None
  | Some h =>
      exists f h', o = check_parts cfg m p login h' port path f /\ (f = true /\ h' = h \/ cut_nofilter (getMyHostname cfg) h = Some h') /\
        ((length h <= length hs)%nat -> (length hs < l)%nat -> take 8 (drop (l - 8) mem) <> bytes "nofilter" -> f = true /\ h' = h)
  end.

Lemma drop_poke_nil k (mem : list Z) : (0 < k)%nat -> drop k (poke [] mem) = drop k mem.
Proof. intros H. destruct k as [|k]; [lia|]. unfold poke. cbn. rewrite drop_drop. reflexivity. Qed.

Lemma connect_spec cfg m mem h port l :
  length mem = MAX_URL -> is_cstr h -> config_ok cfg -> (length h + appendDomainLen cfg < MAX_URL)%nat -> (length h <= l)%nat -> h <> [] ->
  exists o mem', finish cfg m PROTO_NONE [] (poke h (poke [] mem)) port [] l = (o, mem') /\ length mem' = MAX_URL /\
    parsed_as cfg m l mem (Scanned PROTO_NONE h [] h port []) o.
Proof.
  intros Hm Hh Hcfg Hl Hll Hne. assert (Lm : length (poke [] mem) = length mem) by (apply poke_length; cbn; rewrite Hm; unfold MAX_URL; lia).
  destruct (finish_spec cfg m PROTO_NONE [] (poke h (poke [] mem)) port [] l (length h) (poke [] mem)) as (o & b & E1 & E2 & E3).
  - apply kept_start. lia.
  - by rewrite cstr_poke.
  - intros d Hd. by apply host_text_cstr, Hcfg.
  - lia.
  - exists o, b. split_and!; [done | lia|]. rewrite cstr_poke in E3 by done. cbn. destruct (fix_host cfg h) as [h1|]; [|done].
    destruct E3 as (f & h' & H1 & H2 & H3). exists f, h'. split_and!; [done | done|]. intros A B C. apply H3; [done | done|].
    destruct (decide (l - 8 = 0)%nat) as [->|]; [by destruct mem | by rewrite drop_poke_nil by lia].
Qed.

Lemma split_spec cfg m p mem hs path l :
  length mem = MAX_URL -> is_cstr hs -> config_ok cfg -> (length hs + appendDomainLen cfg < MAX_URL)%nat ->
  let '(login, h, port) := split_text hs (urlDefaultPort p) in
  exists o mem',
    (let '(login, buf, port) := split_host (poke hs (poke [] mem)) (urlDefaultPort p) in finish cfg m p login buf port path l) = (o, mem') /\
    length mem' = MAX_URL /\ parsed_as cfg m l mem (Scanned p hs login h port path) o.
Proof.
  intros Hm Hh Hcfg Hl.
  assert (Lm : length (poke [] mem) = length mem) by (apply poke_length; cbn; rewrite Hm; unfold MAX_URL; lia).
  destruct (split_host_spec (length hs) (poke hs (poke [] mem)) (poke [] mem) (urlDefaultPort p)) as (buf & E & Hk & Hc & Hcs & _).
  { apply kept_start. lia. }
  { by rewrite cstr_poke. }
  rewrite E, cstr_poke in * by done. destruct (split_text hs (urlDefaultPort p)) as [[login h] port] eqn:Es. cbn [fst snd] in *.
  destruct (finish_spec cfg m p login buf port path l (length hs) (poke [] mem)) as (o & b & E1 & E2 & E3);
    [done | done | by intros d Hd; apply host_text_cstr, Hcfg | lia|].
  exists o, b. split_and!; [done | lia|]. rewrite Hc in E3. cbn. destruct (fix_host cfg h) as [h1|]; [|done].
  destruct E3 as (f & h' & H1 & H2 & H3). exists f, h'. split_and!; [done | done|]. intros A B C. apply H3; [done | done|].
  destruct (decide (l - 8 = 0)%nat) as [->|]; [by destruct mem | by rewrite drop_poke_nil by lia].
Qed.

Lemma urlParse_spec cfg m url mem :
  length mem = MAX_URL -> is_cstr url -> config_ok cfg ->
  exists o mem', urlParse cfg m url mem = (o, mem') /\ length mem' = MAX_URL /\
    if Nat.ltb (pred MAX_URL) (length url + appendDomainLen cfg) then o = None
    else if negb (m =? METHOD_CONNECT) && prefixb (bytes "urn:") url then o = Some (urnParse m url)
    else match scan_url m url with Some x => parsed_as cfg m (length url) mem x o | None => o = None end.
Proof.
  intros Hm Hu Hcfg. unfold urlParse, scan_url.
  assert (Lm : length (poke [] mem) = MAX_URL) by (rewrite poke_length; [done | cbn; rewrite Hm; unfold MAX_URL; lia]).
  destruct (Nat.ltb_spec (pred MAX_URL) (length url + appendDomainLen cfg)) as [|Hl]; [by eexists _, _|].
  destruct (m =? METHOD_CONNECT); cbn [negb andb].
  - destruct (scan_set _ url) as [[h r]|] eqn:Es; [|by eexists _, _]. apply scan_set_some in Es as (E & Hne & _).
    cbn [mbind option_bind mret option_ret]. subst url. apply is_cstr_app in Hu as [Hh _]. rewrite length_app in *.
    apply connect_spec; [done | done | done | unfold MAX_URL in *; lia | lia | done].
  - destruct (prefixb (bytes "urn:") url); [by eexists _, _|].
    destruct (scan_set _ url) as [[proto r]|] eqn:E1; [|by eexists _, _]. cbn [mbind option_bind].
    destruct (scan_lit _ r) as [r1|] eqn:E2; [|by eexists _, _]. cbn [mbind option_bind].
    destruct (scan_set _ r1) as [[h r2]|] eqn:E3; [|by eexists _, _]. cbn [mbind option_bind].
    apply scan_set_some in E1 as (-> & _ & _). apply scan_lit_some in E2 as ->. apply scan_set_some in E3 as (-> & Hne & _).
    apply is_cstr_app in Hu as [_ Hu]. apply is_cstr_app in Hu as [_ Hu]. apply is_cstr_app in Hu as [Hh _].
    pose proof (split_spec cfg m (urlParseProtocol proto) mem h (span (fun c => negb ((c =? 13) || (c =? 10))) r2).1
      (length (proto ++ bytes "://" ++ h ++ r2)) Hm Hh Hcfg) as H.
    rewrite !length_app in *. specialize (H ltac:(unfold MAX_URL in *; lia)).
    destruct (split_text h _) as [[login h'] port]. exact H.
Qed.

Lemma scan_path_length m url p hs login h port path :
  scan_url m url = Some (Scanned p hs login h port path) -> (length path <= length url)%nat.
Proof.
  unfold scan_url. destruct (m =? METHOD_CONNECT).
  - destruct (scan_set _ url) as [[h1 r]|]; [|done]. cbn. intros [= <- <- <- <- <- <-]. cbn. lia.
  - destruct (scan_set _ url) as [[proto r]|] eqn:E1; [|done]. cbn [mbind option_bind].
    destruct (scan_lit _ r) as [r1|] eqn:E2; [|done]. cbn [mbind option_bind].
    destruct (scan_set _ r1) as [[h1 r2]|] eqn:E3; [|done]. cbn [mbind option_bind].
    destruct (split_text h1 _) as [[login1 h2] port1]. intros [= <- <- <- <- <- <-].
    apply scan_set_some in E1 as (-> & _ & _). apply scan_lit_some in E2 as ->. apply scan_set_some in E3 as (-> & _ & _).
    pose proof (f_equal length (proj1 (span_spec (fun c => negb ((c =? 13) || (c =? 10))) r2))) as H.
    rewrite !length_app in *. lia.
Qed.

Lemma cut_nofilter_text my h h' : cut_nofilter my h = Some h' -> host_text h -> host_text h'.
Proof. intros [k ->]%cut_nofilter_prefix. apply Forall_take. Qed.

(** The parser of URLs writes only inside its static buffer of [MAX_URL] bytes, and a
    request that it accepts from anything but a [urn:] has a host of lower-case letters,
    digits, dots and hyphens without two dots in sequence or one at the start, shorter
    than its field like the login and the path, and a port between 1 and 65535 -
    whatever bytes the URL has and whatever earlier calls left in the buffer. *)
Lemma url_parse_ok cfg m url mem o mem' :
  length mem = MAX_URL -> is_cstr url -> config_ok cfg -> urlParse cfg m url mem = (o, mem') ->
  length mem' = MAX_URL /\
  forall r, o = Some r ->
    method r = m /\ (m <> METHOD_CONNECT /\ prefixb (bytes "urn:") url = true /\ r = urnParse m url \/ request_ok r).
Proof.
  intros Hm Hu Hcfg E. destruct (urlParse_spec cfg m url mem Hm Hu Hcfg) as (o' & b & E' & Hb & H).
  rewrite E' in E. injection E as -> ->. split; [done|]. intros r ->.
  destruct (Nat.ltb_spec (pred MAX_URL) (length url + appendDomainLen cfg)) as [|Hl]; [done|].
  destruct (negb _ && _) eqn:Eu.
  { apply andb_true_iff in Eu as [E1 E2]. btoprop. injection H as ->. split; [done | by left]. }
  destruct (scan_url m url) as [[p hs login h port path]|] eqn:Es; [|done]. cbn in H.
  apply scan_path_length in Es. destruct (fix_host cfg h) as [h1|] eqn:Eh; [|done].
  destruct H as (f & h' & H1 & H2 & _). symmetry in H1. apply fix_host_text in Eh; [|done].
  assert (Hh' : host_text h') by (destruct H2 as [[_ ->]|H2]; [done | by eapply cut_nofilter_text]).
  destruct (check_parts_ok _ _ _ _ _ _ _ _ _ H1 Hh') as (R1 & _ & _ & R2); [unfold MAX_URL in *; lia|]. split; [done | by right].
Qed.

(** ** Printing and parsing *)

(** The text between [://] and the path. *)
Definition authority (r : request_t) : list Z :=
  login r ++ (match login r with [] => [] | _ => [64] end) ++ host r ++ port_text r.

Definition url_text (r : request_t) : list Z :=
  if method r =? METHOD_CONNECT then host r ++ 58 :: dec (port r)
  else ProtocolStr (protocol r) ++ bytes "://" ++ authority r ++ urlpath r.

(** The requests that can be told from their URL: a protocol that has a name, a host, a
    login without a slash, a path that starts with one, nothing to append, change or
    cut; a CONNECT has a host and a port only. *)
Definition printable (cfg : config) (r : request_t) : Prop :=
  request_ok r /\ host r <> [] /\ is_cstr (login r) /\ (47 ∉ login r) /\ is_cstr (urlpath r) /\ flags_filter r = true /\
  (appendDomain cfg = None \/ 46 ∈ host r) /\ (length (url_text r) + appendDomainLen cfg < MAX_URL)%nat /\
  (urlpath r = [] \/ head (urlpath r) = Some 47) /\ Forall (fun c => c <> 13 /\ c <> 10) (urlpath r) /\
  fix_urlpath cfg (urlpath r) = Some (urlpath r) /\
  (if method r =? METHOD_CONNECT then protocol r = PROTO_NONE /\ login r = [] /\ urlpath r = []
   else protocol r <> PROTO_NONE /\ protocol r <> PROTO_ICP /\ protocol r <> PROTO_URN).

Lemma urlCanonical_text cfg r : printable cfg r -> urlCanonical r = url_text r.
Proof.
  intros (_ & _ & _ & _ & _ & _ & _ & Hl & _ & _ & _ & Hp). unfold urlCanonical, url_text, authority in *.
  destruct (decide (protocol r = PROTO_URN)) as [E|_]; [exfalso; rewrite E in Hp; destruct (method r =? METHOD_CONNECT); naive_solver|].
  destruct (method r =? METHOD_CONNECT); unfold snprintf; rewrite <- ?app_assoc in *; apply take_ge; lia.
Qed.

(** Characters that a host has not. *)
Lemma host_not c h : host_text h -> c ∉ host_chars -> c ∉ h.
Proof. intros H Hc Hin. apply Hc. unfold host_text in H. rewrite Forall_forall in H. by apply H. Qed.

Ltac not_host := apply (bool_decide_unpack _); vm_compute; exact I.

Lemma dec_not c n : 0 <= n -> c < 48 \/ 57 < c -> c ∉ dec n.
Proof.
  intros Hn Hc Hin. rewrite dec_digits in Hin by done. pose proof (digits_digit 20 n Hn) as H. rewrite Forall_forall in H.
  specialize (H c Hin). apply isdigit_range in H. lia.
Qed.

Lemma port_text_not c r : 0 <= port r -> c <> 58 -> c < 48 \/ 57 < c -> c ∉ port_text r.
Proof.
  intros Hp Hc Hd. unfold port_text. destruct (_ =? _); [apply not_elem_of_nil|]. rewrite not_elem_of_cons.
  split; [done | by apply dec_not].
Qed.

Lemma split_authority r :
  host_text (host r) -> 1 <= port r <= 65535 -> split_text (authority r) (urlDefaultPort (protocol r)) = (login r, host r, port r).
Proof.
  intros Hh Hp. unfold split_text.
  assert (Hat : 64 ∉ host r ++ port_text r).
  { rewrite elem_of_app. intros [H|H]; [revert H; apply host_not; [done | not_host] | revert H; apply port_text_not; lia]. }
  assert (E : match strrchr (authority r) 64 with Some lh => lh | None => ([], authority r) end = (login r, host r ++ port_text r)).
  { unfold authority. destruct (login r) as [|c l] eqn:El.
    - cbn [app]. apply strrchr_none in Hat. by rewrite Hat.
    - rewrite <- El. cbn [app]. by rewrite strrchr_app. }
  rewrite E. assert (Hc : 58 ∉ host r) by (apply host_not; [done | not_host]). unfold port_text.
  destruct (Z.eqb_spec (port r) (urlDefaultPort (protocol r))) as [Ep|Ep].
  - rewrite app_nil_r. apply strrchr_none in Hc. by rewrite Hc, <- Ep.
  - rewrite strrchr_app by (apply dec_not; lia). destruct (dec_head (port r) ltac:(lia)) as (x & t & Ed & _).
    rewrite <- (atoi_dec (port r)) at 2 by lia. by rewrite Ed.
Qed.

Lemma host_text_fixed cfg h : host_text h -> appendDomain cfg = None \/ 46 ∈ h -> fix_host cfg h = Some h.
Proof.
  intros Hh Ha. unfold fix_host.
  assert (Hall : forallb (fun c => (tolower c =? c) && in_set valid_hostname_chars c && negb (in_set w_space c)) h = true).
  { apply forallb_forall. intros c Hc%list_elem_of_In. unfold host_text in Hh. rewrite Forall_forall in Hh. specialize (Hh c Hc).
    assert (Hb : forallb (fun c => (tolower c =? c) && in_set valid_hostname_chars c && negb (in_set w_space c)) host_chars = true) by (vm_compute; reflexivity).
    rewrite forallb_forall in Hb. by apply Hb, list_elem_of_In. }
  assert (Hl : map tolower h = h /\ stringHasWhitespace h = false /\ strspn h valid_hostname_chars = length h).
  { clear Hh Ha. induction h as [|c h IH]; [done|]. cbn [forallb] in Hall. apply andb_true_iff in Hall as [Hc Hall].
    destruct (IH Hall) as (I1 & I2 & I3). apply andb_true_iff in Hc as [Hc H3]. apply andb_true_iff in Hc as [H1 H2]. btoprop.
    unfold stringHasWhitespace in *. cbn [map existsb strspn length]. rewrite H2, I1, H1, I3, H3, I2. done. }
  destruct Hl as (E1 & E2 & E3). rewrite E1, E2. cbn [andb]. rewrite E3, Nat.eqb_refl. cbn [negb]. f_equal.
  destruct (appendDomain cfg) as [d|]; [|done]. destruct (strchr h 46) eqn:Ec; [done|]. apply strchr_None in Ec. by destruct Ha.
Qed.

Lemma is_cstr_dec n : 0 <= n -> is_cstr (dec n).
Proof.
  intros Hn. rewrite dec_digits by lia. eapply Forall_impl; [by apply (digits_digit 20)|]. intros c Hc%isdigit_range. cbn. lia.
Qed.

Lemma connect_port n d : 1 <= n <= 65535 -> match scan_int (dec n) with Some (n, _) => n | None => d end = n.
Proof.
  intros Hn. pose proof (atoi_dec n ltac:(lia)) as H. unfold atoi in H. destruct (scan_int (dec n)) as [[m r]|]; [done | lia].
Qed.

Lemma not_in_forall (c : Z) s : c ∉ s -> Forall (fun x => negb (x =? c) = true) s.
Proof. intros H. apply Forall_forall. intros x Hx. apply negb_true_iff, Z.eqb_neq. by intros ->. Qed.

(** What the scanner finds in the text of a request. *)
Definition scan_found (r : request_t) : Prop :=
  exists hs, scan_url (method r) (url_text r) = Some (Scanned (protocol r) hs (login r) (host r) (port r) (urlpath r)) /\
    (length (host r) <= length hs)%nat /\ (length hs < length (url_text r))%nat /\
    negb (method r =? METHOD_CONNECT) && prefixb (bytes "urn:") (url_text r) = false /\ is_cstr (url_text r).

Lemma connect_scan r :
  host_text (host r) -> host r <> [] -> 1 <= port r <= 65535 -> method r = METHOD_CONNECT ->
  protocol r = PROTO_NONE -> login r = [] -> urlpath r = [] -> scan_found r.
Proof.
  intros Hh Hne Hp Em E1 E2 E3. exists (host r). unfold url_text, scan_url. rewrite Em, E1, E2, E3, Z.eqb_refl. cbn [negb andb].
  rewrite scan_set_app; [|done | apply not_in_forall, host_not; [done | not_host] | done]. cbn [mbind option_bind mret option_ret].
  change (58 :: dec (port r)) with ([58] ++ dec (port r)) at 1. rewrite scan_lit_app, connect_port by done. split_and!; [done | done | rewrite length_app; cbn; lia | done|].
  apply is_cstr_app. split; [by apply host_text_cstr|]. constructor; [lia | apply is_cstr_dec; lia].
Qed.

Lemma protocol_names p :
  p <> PROTO_NONE -> p <> PROTO_ICP -> p <> PROTO_URN ->
  urlParseProtocol (ProtocolStr p) = p /\ ProtocolStr p <> [] /\ (58 ∉ ProtocolStr p) /\ is_cstr (ProtocolStr p) /\
  forall s, prefixb (bytes "urn:") (ProtocolStr p ++ s) = false.
Proof.
  intros H1 H2 H3. assert (Hb : forallb (fun c => (0 <? c) && (c <? 256) && negb (c =? 58)) (ProtocolStr p) = true) by (by destruct p).
  rewrite forallb_forall in Hb.
  split_and!; [by destruct p | by destruct p | | | by destruct p].
  - intros Hin%list_elem_of_In. by specialize (Hb 58 Hin).
  - apply Forall_forall. intros c Hc%list_elem_of_In. specialize (Hb c Hc). lia.
Qed.

Lemma authority_text r :
  host_text (host r) -> host r <> [] -> 1 <= port r <= 65535 -> is_cstr (login r) -> 47 ∉ login r ->
  authority r <> [] /\ (47 ∉ authority r) /\ is_cstr (authority r) /\ (length (host r) <= length (authority r))%nat.
Proof.
  intros Hh Hne Hp Hl Hs. unfold authority. split_and!.
  - destruct (login r); [by destruct (host r) | done].
  - rewrite !elem_of_app. intros [H|[H|[H|H]]]; [done | destruct (login r); [by apply not_elem_of_nil in H | by apply list_elem_of_singleton in H] | |].
    + revert H. apply host_not; [done | not_host].
    + revert H. apply port_text_not; lia.
  - apply is_cstr_app. split; [done|]. apply is_cstr_app. split; [destruct (login r); repeat constructor|]. apply is_cstr_app.
    split; [by apply host_text_cstr|]. unfold port_text. destruct (_ =? _); [constructor|]. constructor; [lia | apply is_cstr_dec; lia].
  - rewrite !length_app. lia.
Qed.

Lemma url_scan r :
  host_text (host r) -> host r <> [] -> 1 <= port r <= 65535 -> is_cstr (login r) -> 47 ∉ login r ->
  is_cstr (urlpath r) -> urlpath r = [] \/ head (urlpath r) = Some 47 -> Forall (fun c => c <> 13 /\ c <> 10) (urlpath r) ->
  method r <> METHOD_CONNECT -> protocol r <> PROTO_NONE -> protocol r <> PROTO_ICP -> protocol r <> PROTO_URN -> scan_found r.
Proof.
  intros Hh Hne Hp Hl Hs Hu Hpath Hcr Em K1 K2 K3. destruct (protocol_names (protocol r) K1 K2 K3) as (P1 & P2 & P3 & P4 & P5).
  destruct (authority_text r Hh Hne Hp Hl Hs) as (A1 & A2 & A3 & A4).
  exists (authority r). unfold url_text, scan_url. apply Z.eqb_neq in Em. rewrite Em. cbn [negb andb].
  rewrite scan_set_app by (done || by apply not_in_forall). cbn [mbind option_bind mret option_ret].
  rewrite scan_lit_app. cbn [mbind option_bind].
  rewrite scan_set_app; [|done | by apply not_in_forall|]; [|destruct (urlpath r); [done|]; destruct Hpath as [|[= ->]]; done].
  cbn [mbind option_bind]. rewrite P1, split_authority by done.
  rewrite <- (app_nil_r (urlpath r)) at 1. rewrite span_app;
    [|eapply Forall_impl; [exact Hcr|]; intros c [C1 C2]; cbn; apply Z.eqb_neq in C1, C2; by rewrite C1, C2 | done].
  split_and!; [done | done | | apply P5|].
  - rewrite !length_app. cbn. lia.
  - rewrite !is_cstr_app. split_and!; [done | repeat constructor | done | done].
Qed.

(** C29: printing and parsing of URLs: the canonical URL of a request with a host, a named
    protocol and nothing to change in its path is parsed to the same request, login,
    port and path included, as long as the bytes that an earlier URL left in the static
    buffer do not end like [nofilter] where this URL does. *)
Theorem url_roundtrip cfg r mem :
  config_ok cfg -> length mem = MAX_URL -> printable cfg r ->
  take 8 (drop (length (urlCanonical r) - 8) mem) <> bytes "nofilter" ->
  exists mem', urlParse cfg (method r) (urlCanonical r) mem = (Some r, mem').
Proof.
  intros Hcfg Hm Hr. rewrite (urlCanonical_text cfg r Hr). intros Hw.
  destruct Hr as (Hok & Hne & Hl & Hs & Hu & Hf & Ha & Hlen & Hp & Hcr & Hfix & Hk).
  destruct Hok as (Hh & Hd1 & Hd2 & Hlh & Hll & Hport & Hlu).
  assert (Hscan : scan_found r).
  { destruct (Z.eqb_spec (method r) METHOD_CONNECT) as [Em|Em]; [apply connect_scan | apply url_scan]; try done; apply Hk. }
  destruct Hscan as (hs & Es & Hlhs & Hlhs' & Hurn & Hc).
  destruct (urlParse_spec cfg (method r) (url_text r) mem Hm Hc Hcfg) as (o & mem' & E & _ & H). exists mem'. rewrite E. f_equal.
  destruct (Nat.ltb_spec (pred MAX_URL) (length (url_text r) + appendDomainLen cfg)) as [|_]; [unfold MAX_URL in *; lia|].
  rewrite Hurn, Es in H. cbn in H. rewrite host_text_fixed in H by done. destruct H as (f & h' & -> & _ & Hlast).
  destruct (Hlast Hlhs Hlhs' Hw) as [-> ->]. unfold check_parts. rewrite Hd1, Hfix.
  rewrite bool_decide_eq_false_2 by (by intros []). rewrite bool_decide_eq_false_2 by done. cbn [orb].
  rewrite (proj2 (Z.ltb_ge (port r) 1)), (proj2 (Z.ltb_ge 65535 (port r))) by lia. cbn.
  rewrite !take_ge by (unfold MAX_LOGIN_SZ, SQUIDHOSTNAMELEN in *; lia). rewrite <- Hf. by destruct r.
Qed.

(** *** Examples *)

Definition plain_config : config := Config None URI_WHITESPACE_STRIP true (bytes "proxy.lan").

Definition no_memory : list Z := replicate MAX_URL 0.

Definition demo_request : request_t :=
  Request METHOD_GET PROTO_FTP (bytes "joe:p@ss") (bytes "ftp.example.com") 2121 (bytes "/pub/?a=b") true.

Lemma cstr_sound s : forallb (fun c => (0 <? c) && (c <? 256)) s = true -> is_cstr s.
Proof. intros H. rewrite forallb_forall in H. apply Forall_forall. intros c Hc%list_elem_of_In. specialize (H c Hc). lia. Qed.

Lemma host_text_sound s : forallb (in_set host_chars) s = true -> host_text s.
Proof. intros H. rewrite forallb_forall in H. apply Forall_forall. intros c Hc%list_elem_of_In. specialize (H c Hc). by apply bool_decide_eq_true in H. Qed.

Lemma plain_config_ok : config_ok plain_config.
Proof. intros d [=]. Qed.

Lemma demo_printable : printable plain_config demo_request.
Proof.
  unfold printable, request_ok. split_and!; try (by vm_compute); try (apply cstr_sound; vm_compute; reflexivity).
  all: first [ apply host_text_sound; vm_compute; reflexivity | apply Nat.ltb_lt; vm_compute; reflexivity
             | apply (bool_decide_unpack _); vm_compute; exact I | by left | by right | repeat constructor; discriminate | idtac ].
Qed.

Lemma url_roundtrip_witness :
  urlCanonical demo_request = bytes "ftp://joe:p@ss@ftp.example.com:2121/pub/?a=b" /\
  exists mem', urlParse plain_config METHOD_GET (urlCanonical demo_request) no_memory = (Some demo_request, mem').
Proof.
  split; [vm_compute; reflexivity|].
  apply (url_roundtrip plain_config demo_request no_memory plain_config_ok).
  - apply length_replicate.
  - exact demo_printable.
  - vm_compute. discriminate.
Defined.

Lemma url_parse_ok_witness :
  let url := bytes "HTTP://WWW.Example.COM:8080/a b" in
  exists mem' r, urlParse plain_config METHOD_GET url no_memory = (Some r, mem') /\ length mem' = MAX_URL /\ host r = bytes "www.example.com" /\
    (method r = METHOD_GET /\ (METHOD_GET <> METHOD_CONNECT /\ prefixb (bytes "urn:") url = true /\ r = urnParse METHOD_GET url \/ request_ok r)).
Proof.
  intros url.
  assert (E : exists mem' r, urlParse plain_config METHOD_GET url no_memory = (Some r, mem') /\ host r = bytes "www.example.com").
  { eexists _, _. split; [vm_compute; reflexivity | reflexivity]. }
  destruct E as (mem' & r & E & Eh).
  destruct (url_parse_ok plain_config METHOD_GET url no_memory (Some r) mem') as [H1 H2].
  - apply length_replicate.
  - apply cstr_sound. vm_compute. reflexivity.
  - exact plain_config_ok.
  - exact E.
  - exists mem', r. split; [exact E | split; [exact H1 | split; [exact Eh | exact (H2 r eq_refl)]]].
Defined.

(** *** What the code does not mean *)

Lemma split_text_length hs d : (length (split_text hs d).1.2 <= length hs)%nat.
Proof.
  unfold split_text.
  assert (H : let '(_, h) := match strrchr hs 64 with Some lh => lh | None => ([], hs) end in (length h <= length hs)%nat).
  { destruct (strrchr hs 64) as [[l h]|] eqn:E; [|done]. apply strrchr_some in E as [-> _]. rewrite length_app. cbn. lia. }
  destruct (match strrchr hs 64 with Some lh => lh | None => ([], hs) end) as [l h].
  destruct (strrchr h 58) as [[h' p]|] eqn:E; [|done]. apply strrchr_some in E as [-> _]. rewrite length_app in H. cbn in *. lia.
Qed.

Lemma fix_host_length cfg h h' : appendDomain cfg = None -> fix_host cfg h = Some h' -> (length h' <= length h)%nat.
Proof.
  intros Hd. unfold fix_host. destruct (negb _); [done|]. rewrite Hd. intros [= <-]. destruct (_ && _).
  - etrans; [apply strip_length | by rewrite length_map].
  - by rewrite length_map.
Qed.

(** The suffix [.nofilter] of a host is looked for at the length of the whole URL, where
    only bytes of an earlier URL can be: filtering is never switched off by the URL. *)
Lemma nofilter_ignored cfg m url mem r mem' :
  length mem = MAX_URL -> is_cstr url -> appendDomain cfg = None -> m <> METHOD_CONNECT ->
  take 8 (drop (length url - 8) mem) <> bytes "nofilter" ->
  urlParse cfg m url mem = (Some r, mem') -> protocol r <> PROTO_URN -> flags_filter r = true.
Proof.
  intros Hm Hu Hd Hc Hw E Hp. assert (Hcfg : config_ok cfg) by (intros d; by rewrite Hd).
  destruct (urlParse_spec cfg m url mem Hm Hu Hcfg) as (o & b & E' & _ & H). rewrite E' in E. injection E as -> ->.
  destruct (Nat.ltb _ _); [done|]. destruct (negb _ && _); [injection H as ->; by destruct Hp|].
  destruct (scan_url m url) as [[p hs login h port path]|] eqn:Es; [|done]. cbn in H.
  assert (Hl : (length h <= length hs /\ length hs < length url)%nat).
  { unfold scan_url in Es. rewrite (proj2 (Z.eqb_neq m METHOD_CONNECT)) in Es by done.
    destruct (scan_set _ url) as [[proto r0]|] eqn:E1; [|done]. cbn [mbind option_bind] in Es.
    destruct (scan_lit _ r0) as [r1|] eqn:E2; [|done]. cbn [mbind option_bind] in Es.
    destruct (scan_set _ r1) as [[h1 r2]|] eqn:E3; [|done]. cbn [mbind option_bind] in Es.
    pose proof (split_text_length h1 (urlDefaultPort (urlParseProtocol proto))) as Hs.
    destruct (split_text h1 _) as [[login1 h2] port1]. cbn in Hs. injection Es as _ <- _ <- _ _.
    apply scan_set_some in E1 as (-> & _ & _). apply scan_lit_some in E2 as ->. apply scan_set_some in E3 as (-> & _ & _).
    rewrite !length_app. cbn [length]. split; [exact Hs|]. change (length (bytes "://")) with 3%nat. lia. }
  destruct (fix_host cfg h) as [h1|] eqn:Eh; [|done]. apply fix_host_length in Eh; [|done].
  destruct H as (f & h' & H1 & _ & H3). destruct H3 as [-> ->]; [lia | lia | done|].
  unfold check_parts in H1. destruct (_ || _); [done|]. destruct (_ || _) in H1; [done|].
  destruct (fix_urlpath cfg path); [|done]. cbn in H1. by injection H1 as ->.
Qed.

(** A URL without a host is accepted, and [urlHostname] takes the user of a login with a
    password for the host. *)
Lemma empty_host_accepted : host <$> (urlParse plain_config METHOD_GET (bytes "http://:80/") no_memory).1 = Some [].
Proof. vm_compute. reflexivity. Qed.

Lemma hostname_of_login : urlHostname (bytes "http://joe:pw@example.com/") = Some (bytes "joe").
Proof. vm_compute. reflexivity. Qed.
