(* ===== verification/AclData.v ===== *)
(** * The data of access lists

    v3.0/src/squid-mybox/src/acl.c: what the elements of an access list hold, how it is
    read from the words of a configuration line and how a request is matched with
    it: addresses, domains and users in splay trees, numbers, ranges, times and
    patterns in lists whose last match moves to the front.  [matchDomainName] is
    in src/url.c.

    Addresses are in host byte order.  The words that [strtokFile] returns are an
    argument; [regcomp], [regexec] and [gethostbyname] are parameters. *)

From Stdlib Require Import Sorting.Sorted.
From S2P Require Import Prelude CString Dns Splay Url.

(** [self_destruct] ends the program. *)
Inductive parsed (A : Type) := Parsed (a : A) | SelfDestruct.
Arguments Parsed {A} a.
Arguments SelfDestruct {A}.

Definition parsed_bind {A B} (f : A -> parsed B) (p : parsed A) : parsed B :=
  match p with Parsed a => f a | SelfDestruct => SelfDestruct end.

(** ** Lists

    A match moves its element to the second place. *)

Fixpoint extract {A} (p : A -> bool) (l : list A) : option (A * list A) :=
  match l with
  | [] => None
  | x :: l => if p x then Some (x, l) else '(y, l) ← extract p l; mret (y, x :: l)
  end.

Definition match_list {A} (p : A -> bool) (data : list A) : bool * list A :=
  match data with
  | [] => (false, [])
  | first :: rest =>
      if p first then (true, data)
      else match extract p rest with
           | Some (x, rest) => (true, first :: x :: rest)
           | None => (false, data)
           end
  end.

Record intrange := IntRange { ir_i : Z; ir_j : Z }.

Definition aclMatchInteger (data : list Z) (i : Z) : bool * list Z := match_list (fun x => x =? i) data.

Definition aclMatchIntegerRange (data : list intrange) (i : Z) : bool * list intrange :=
  match_list (fun r => negb (i <? ir_i r) && negb (ir_j r <? i)) data.

Definition aclParseIntlist (words : list (list Z)) (data : list Z) : list Z := data ++ map atoi words.

Definition int_range (t : list Z) : intrange :=
  let i := atoi t in
  match strchr t 45 with
  | Some k => match drop (S k) t with [] => IntRange i i | t => IntRange i (atoi t) end
  | None => IntRange i i
  end.

Definition aclParseIntRange (words : list (list Z)) (data : list intrange) : list intrange :=
  data ++ map int_range words.

(** ** Times *)

Record acl_time_data := TimeData { weekbits : Z; start : Z; stop : Z }.

(** The fields of [struct tm] that are read. *)
Record tm := Tm { tm_hour : Z; tm_min : Z; tm_wday : Z }.

Definition time_match (t : tm) (d : acl_time_data) : bool :=
  let m := tm_hour t * 60 + tm_min t in
  (start d <=? m) && (m <=? stop d) && negb (Z.land (weekbits d) (Z.shiftl 1 (tm_wday t)) =? 0).

(** The static variables [last_when] and [tm]; [None] is the failed assertion of an
    element without data. *)
Definition aclMatchTime (localtime : Z -> tm) (data : list acl_time_data) (when : Z) (last : Z * tm)
    : option (bool * (Z * tm)) :=
  match data with
  | [] => None
  | _ =>
      let last := if when =? last.1 then last else (when, localtime when) in
      Some (existsb (time_match last.2) data, last)
  end.

Definition ACL_ALLWEEK : Z := 127.

Definition day_bits (c : Z) : Z :=
  if c =? 83 then 1 else if c =? 77 then 2 else if c =? 84 then 4 else if c =? 87 then 8
  else if c =? 72 then 16 else if c =? 70 then 32 else if c =? 65 then 64 else if c =? 68 then 62 else 0.

(** [sscanf (t, "%d:%d-%d:%d", ...)] with four values. *)
Definition scan_char (c : Z) (s : list Z) : option (list Z) :=
  match s with x :: s => if x =? c then Some s else None | [] => None end.

Definition scan_times (t : list Z) : option (Z * Z * Z * Z) :=
  '(h1, t) ← scan_int t; t ← scan_char 58 t;
  '(m1, t) ← scan_int t; t ← scan_char 45 t;
  '(h2, t) ← scan_int t; t ← scan_char 58 t;
  '(m2, t) ← scan_int t; mret (h1, m1, h2, m2).

Definition time_word (t : list Z) (st : list acl_time_data * Z) : parsed (list acl_time_data * Z) :=
  let '(data, bits) := st in
  match t with
  | c :: _ =>
      if isdigit c then
        match scan_times t with
        | None => SelfDestruct
        | Some (h1, m1, h2, m2) =>
            let q_start := i32 (i32 (h1 * 60) + m1) in
            let q_stop := i32 (i32 (h2 * 60) + m2) in
            if q_stop <? q_start then SelfDestruct
            else Parsed (data ++ [TimeData (if bits =? 0 then ACL_ALLWEEK else bits) q_start q_stop], 0)
        end
      else Parsed (data, fold_left (fun b c => Z.lor b (day_bits c)) t bits)
  | [] => Parsed (data, bits)
  end.

Definition aclParseTimeSpec (words : list (list Z)) (data : list acl_time_data) : parsed (list acl_time_data) :=
  parsed_bind
    (fun st => Parsed (if snd st =? 0 then fst st else fst st ++ [TimeData (snd st) 0 (24 * 60)]))
    (fold_left (fun st t => parsed_bind (time_word t) st) words (Parsed (data, 0))).

(** ** Patterns *)

Section Regex.

Context {regex : Type} (regcomp : bool -> list Z -> option regex) (regexec : regex -> list Z -> bool).

(** [regcomp icase pattern]; a pattern that does not compile is skipped. *)
Definition regex_word (st : list regex * bool) (t : list Z) : list regex * bool :=
  let '(data, icase) := st in
  if bool_decide (t = bytes "-i") then (data, true)
  else if bool_decide (t = bytes "+i") then (data, false)
  else match regcomp icase t with Some q => (data ++ [q], icase) | None => (data, icase) end.

Definition aclParseRegexList (words : list (list Z)) (data : list regex) : list regex :=
  (fold_left regex_word words (data, false)).1.

Definition aclMatchRegex (data : list regex) (word : option (list Z)) : bool * list regex :=
  match word with
  | None => (false, data)
  | Some word => match_list (fun q => regexec q word) data
  end.

End Regex.

(** ** Addresses *)

Record acl_ip_data := IpData { addr1 : Z; addr2 : Z; mask : Z }.

Definition no_addr : Z := 4294967295.

Definition aclIpNetworkCompare2 (p q : acl_ip_data) : Z :=
  let A := Z.land (addr1 p) (mask q) in
  let B := addr1 q in
  let C := addr2 q in
  if C =? 0 then if B <? A then 1 else if A <? B then -1 else 0
  else if C <? A then 1 else if A <? B then -1 else 0.

Definition aclIpNetworkCompare (a b : acl_ip_data) : Z :=
  let ret := aclIpNetworkCompare2 b a in
  if negb (ret =? 0) then aclIpNetworkCompare2 a b else ret.

Definition aclIpAddrNetworkCompare (a b : acl_ip_data) : Z := aclIpNetworkCompare2 a b.

Definition aclMatchIp (top : splayNode acl_ip_data) (c : Z) : bool * splayNode acl_ip_data :=
  let '(top, res) := splay_splay aclIpAddrNetworkCompare (IpData c 0 no_addr) top in
  (res =? 0, top).

(** [sscanf (asc, "%d.%d.%d.%d", ...)]: the number of values and the first one. *)
Definition scan_quad (asc : list Z) : nat * Z :=
  match scan_int asc with
  | None => (0%nat, 0)
  | Some (a1, r) =>
      (match r2 ← scan_char 46 r; scan_int r2 with
       | None => 1%nat
       | Some (_, r) =>
           match r2 ← scan_char 46 r; scan_int r2 with
           | None => 2%nat
           | Some (_, r) => match r2 ← scan_char 46 r; scan_int r2 with None => 3%nat | Some _ => 4%nat end
           end
       end, a1)
  end.

Definition guess_mask (a : Z) : Z :=
  if Z.land a 4294967295 =? 0 then 0
  else if Z.land a 16777215 =? 0 then 4278190080
  else if Z.land a 65535 =? 0 then 4294901760
  else if Z.land a 255 =? 0 then 4294967040
  else 4294967295.

(** The address; its mask is [guess_mask]. *)
Definition decode_addr (asc : list Z) : parsed (option Z) :=
  let bad := Parsed None in
  match scan_quad asc with
  | (4%nat, _) => match safe_inet_addr asc with Some a => Parsed (Some a) | None => SelfDestruct end
  | (1%nat, a1) =>
      if (0 <=? a1) && (a1 <? 33) then Parsed (Some (if a1 =? 0 then 0 else u32 (Z.shiftl 4294967295 (32 - a1))))
      else bad
  | _ => bad
  end.

Definition quad_char (c : Z) : bool := isdigit c || (c =? 46).

(** The four formats [SCAN_ACL1] to [SCAN_ACL4] and the one of a host with a mask: the
    first address, the second and the mask, empty when absent. *)
Definition scan_acl1 (t : list Z) : option (list Z * list Z * list Z) :=
  '(a1, r) ← scan_set quad_char t; r ← scan_char 45 r;
  '(a2, r) ← scan_set quad_char r; r ← scan_char 47 r;
  '(m, _) ← scan_set quad_char r; mret (a1, a2, m).

Definition scan_acl2 (t : list Z) : option (list Z * list Z * list Z) :=
  '(a1, r) ← scan_set quad_char t; r ← scan_char 45 r;
  '(a2, r) ← scan_set quad_char r; match r with [] => Some (a1, a2, []) | _ => None end.

Definition scan_acl3 (t : list Z) : option (list Z * list Z * list Z) :=
  '(a1, r) ← scan_set quad_char t; r ← scan_char 47 r;
  '(m, _) ← scan_set quad_char r; mret (a1, [], m).

Definition scan_acl4 (t : list Z) : option (list Z * list Z * list Z) :=
  '(a1, r) ← scan_set quad_char t; match r with [] => Some (a1, [], []) | _ => None end.

Definition scan_host_mask (t : list Z) : option (list Z * list Z * list Z) :=
  '(a1, r) ← scan_set (fun c => negb (c =? 47)) t; r ← scan_char 47 r;
  '(m, _) ← scan_word r; mret (a1, [], m).

Definition or_else {A} (o p : option A) : option A := match o with Some a => Some a | None => p end.

(** The entry of the addresses that were scanned. *)
Definition ip_entry (a1 a2 m : list Z) : parsed (list acl_ip_data) :=
  parsed_bind (fun r1 =>
    match r1 with
    | None => Parsed []
    | Some addr1 =>
        parsed_bind (fun r2 =>
          match r2 with
          | None => Parsed []
          | Some (addr2, mask) =>
              parsed_bind (fun r3 =>
                match r3 with
                | None => Parsed []
                | Some mask => Parsed [IpData (Z.land addr1 mask) (Z.land addr2 mask) mask]
                end) (match m with [] => Parsed (Some mask) | _ => decode_addr m end)
          end)
          (match a2 with
           | [] => Parsed (Some (0, guess_mask addr1))
           | _ => parsed_bind (fun r => Parsed ((fun a => (a, guess_mask a)) <$> r)) (decode_addr a2)
           end)
    end) (decode_addr a1).

(** The entries of a word: none when it is ignored, several for the addresses of a
    host name. *)
Definition aclParseIpData (gethostbyname : list Z -> option (list Z)) (t : list Z) : parsed (list acl_ip_data) :=
  if strcasecmp_eq t (bytes "all") then Parsed [IpData 0 0 0]
  else
    match or_else (scan_acl1 t) (or_else (scan_acl2 t) (or_else (scan_acl3 t) (or_else (scan_acl4 t) (scan_host_mask t)))) with
    | Some (a1, a2, m) => ip_entry a1 a2 m
    | None =>
        match scan_word t with
        | Some (name, _) =>
            match gethostbyname name with
            | None => Parsed []
            | Some [] => Parsed [IpData 0 0 0]
            | Some l => Parsed (map (fun a => IpData a 0 no_addr) l)
            end
        | None => Parsed []
        end
    end.

Definition aclParseIpList (gethostbyname : list Z -> option (list Z)) (words : list (list Z))
    (top : splayNode acl_ip_data) : parsed (splayNode acl_ip_data) :=
  fold_left (fun st t =>
    parsed_bind (fun top =>
      parsed_bind (fun es => Parsed (fold_left (fun top q => splay_insert aclIpNetworkCompare q top) es top))
        (aclParseIpData gethostbyname t)) st) words (Parsed top).

(** ** Domains *)

Fixpoint drop_dots (s : list Z) : list Z :=
  match s with 46 :: s' => drop_dots s' | _ => s end.

(** The loop from the ends of the strings, which are given reversed: [hl] and [dl] are
    the lengths of what is left.  An empty string is read before its start; then
    the result is not defined by the code and 0 is returned here. *)
Fixpoint match_from_end (h d : list Z) : Z :=
  match h, d with
  | a :: h', b :: d' =>
      if tolower a =? tolower b then
        match h', d' with
        | [], [] => 0
        | [], [c] => if c =? 46 then 0 else -1
        | [], _ => -1
        | _, [] => if b =? 46 then 0 else 1
        | _, _ => match_from_end h' d'
        end
      else if b =? 46 then 1
      else if a =? 46 then -1
      else tolower a - tolower b
  | _, _ => 0
  end.

Definition matchDomainName (h d : list Z) : Z := match_from_end (rev (drop_dots h)) (rev d).

Definition aclHostDomainCompare (a b : list Z) : Z := matchDomainName a b.

Definition aclDomainCompare (a b : list Z) : Z :=
  let ret := aclHostDomainCompare b a in
  if negb (ret =? 0) then aclHostDomainCompare a b else ret.

Definition aclParseDomainList (words : list (list Z)) (top : splayNode (list Z)) : splayNode (list Z) :=
  fold_left (fun top t => splay_insert aclDomainCompare (map tolower t) top) words top.

Definition aclMatchDomainList (top : splayNode (list Z)) (host : option (list Z)) : bool * splayNode (list Z) :=
  match host with
  | None => (false, top)
  | Some host =>
      let '(top, res) := splay_splay aclHostDomainCompare host top in
      (res =? 0, top)
  end.

(** ** Users *)

Record acl_user_data := UserData { names : splayNode (list Z); case_insensitive : bool; required : bool }.

(** The terminating NUL is compared as well. *)
Fixpoint strcmp (s t : list Z) : Z :=
  match s, t with
  | [], [] => 0
  | [], y :: _ => - y
  | x :: _, [] => x
  | x :: s, y :: t => if x =? y then strcmp s t else x - y
  end.

Definition strcasecmp (s t : list Z) : Z := strcmp (map tolower s) (map tolower t).

Definition insert_user (data : acl_user_data) (t : list Z) : acl_user_data :=
  let t := if case_insensitive data then map tolower t else t in
  UserData (splay_insert strcmp t (names data)) (case_insensitive data) (required data).

Definition aclParseUserList (words : list (list Z)) (current : option acl_user_data) : acl_user_data :=
  let data := default (UserData Null false false) current in
  match words with
  | [] => data
  | t :: words =>
      let data :=
        if bool_decide (bytes "-i" = t) then UserData (names data) true (required data)
        else if bool_decide (bytes "REQUIRED" = t) then UserData (names data) (case_insensitive data) true
        else insert_user data t in
      fold_left insert_user words data
  end.

Definition aclMatchUser (data : acl_user_data) (user : option (list Z)) : bool * acl_user_data :=
  match user with
  | None => (false, data)
  | Some user =>
      if bool_decide (user = bytes "-") then (false, data)
      else if required data then (true, data)
      else
        let '(top, res) := splay_splay (if case_insensitive data then strcasecmp else strcmp) user (names data) in
        (res =? 0, UserData top (case_insensitive data) (required data))
  end.

(** ** The tests that [urlInitialize] makes at the start *)

Lemma domain_tests :
  forallb (fun p => matchDomainName (bytes p.1) (bytes p.2) =? 0)
    [("foo.com", "foo.com"); (".foo.com", "foo.com"); ("foo.com", ".foo.com"); (".foo.com", ".foo.com");
     ("x.foo.com", ".foo.com"); ("FOO.com", "foo.COM")]%string = true /\
  forallb (fun p => negb (matchDomainName (bytes p.1) (bytes p.2) =? 0))
    [("x.foo.com", "foo.com"); ("foo.com", "x.foo.com"); ("bar.com", "foo.com"); (".bar.com", "foo.com");
     (".bar.com", ".foo.com"); ("bar.com", ".foo.com")]%string = true /\
  forallb (fun p => 0 <? matchDomainName (bytes p.1) (bytes p.2))
    [("zzz.com", "foo.com"); ("bfoo.com", "afoo.com"); ("x-foo.com", ".foo.com")]%string = true /\
  forallb (fun p => matchDomainName (bytes p.1) (bytes p.2) <? 0)
    [("aaa.com", "foo.com"); ("afoo.com", "bfoo.com")]%string = true.
Proof. vm_compute. done. Qed.

(** ** Addresses are intervals *)

(** The mask of a network with [k] bits for the hosts. *)
Definition net_mask (k : Z) : Z := 2 ^ 32 - 2 ^ k.

Definition ip_key (x : Z) : Prop := 0 <= x < 2 ^ 32.

(** A network, or a range of networks, with an aligned start. *)
Definition ip_good (e : acl_ip_data) : Prop :=
  exists k, 0 <= k <= 32 /\ mask e = net_mask k /\ ip_key (addr1 e) /\ addr1 e mod 2 ^ k = 0 /\
    (addr2 e = 0 \/ addr1 e <= addr2 e).

Lemma land_net_mask k x : 0 <= k <= 32 -> ip_key x -> Z.land x (net_mask k) = x - x mod 2 ^ k.
Proof.
  intros Hk Hx. unfold net_mask.
  assert (E : 2 ^ 32 - 2 ^ k = Z.shiftl (Z.ones (32 - k)) k).
  { rewrite Z.shiftl_mul_pow2, Z.ones_equiv by lia. replace 32 with ((32 - k) + k) at 1 by lia.
    rewrite Z.pow_add_r by lia. lia. }
  rewrite E. assert (Ex : x - x mod 2 ^ k = Z.shiftl (Z.shiftr x k) k).
  { rewrite Z.shiftl_mul_pow2, Z.shiftr_div_pow2 by lia. pose proof (Z.div_mod x (2 ^ k)). lia. }
  rewrite Ex. apply Z.bits_inj'. intros i Hi. rewrite Z.land_spec, !Z.shiftl_spec by lia.
  destruct (Z.lt_ge_cases i k) as [Hik|Hik]; [by rewrite !(Z.testbit_neg_r _ (i - k)), andb_false_r by lia|].
  rewrite Z.shiftr_spec by lia. replace (i - k + k) with i by lia.
  destruct (Z.lt_ge_cases i 32) as [Hi32|Hi32].
  - by rewrite Z.ones_spec_low, andb_true_r by lia.
  - rewrite Z.ones_spec_high by lia. rewrite andb_false_r. symmetry.
    rewrite <- (Z.mod_small x (2 ^ 32)) by done. apply Z.mod_pow2_bits_high. lia.
Qed.

Lemma masked_mono k x y : 0 <= k -> x <= y -> x - x mod 2 ^ k <= y - y mod 2 ^ k.
Proof.
  intros Hk Hxy. assert (Hp : 0 < 2 ^ k) by lia. pose proof (Z.div_mod x (2 ^ k)). pose proof (Z.div_mod y (2 ^ k)).
  pose proof (Z.div_le_mono x y (2 ^ k) Hp Hxy). nia.
Qed.

Definition ip_seek (x : Z) (e : acl_ip_data) : Z := aclIpAddrNetworkCompare (IpData x 0 no_addr) e.

(** The last network of an entry. *)
Definition last_net (e : acl_ip_data) : Z := if addr2 e =? 0 then addr1 e else addr2 e.

Lemma ip_seek_eq x e :
  ip_seek x e = if last_net e <? Z.land x (mask e) then 1 else if Z.land x (mask e) <? addr1 e then -1 else 0.
Proof.
  unfold ip_seek, aclIpAddrNetworkCompare, aclIpNetworkCompare2, last_net. cbn [addr1]. by destruct (addr2 e =? 0).
Qed.

Lemma ip_last_net e : ip_good e -> addr1 e <= last_net e.
Proof. intros (k & _ & _ & _ & _ & H). unfold last_net. destruct (Z.eqb_spec (addr2 e) 0); lia. Qed.

Lemma ip_seek_low e : ip_good e -> ip_seek (addr1 e) e = 0.
Proof.
  intros He. pose proof (ip_last_net e He). destruct He as (k & Hk & Hm & Hx & Ha & _).
  rewrite ip_seek_eq, Hm, land_net_mask, Ha by done. replace (addr1 e - 0) with (addr1 e) by lia.
  destruct (Z.ltb_spec (last_net e) (addr1 e)), (Z.ltb_spec (addr1 e) (addr1 e)); lia.
Qed.

Lemma ip_seek_below x e : ip_key x -> ip_good e -> 0 <= ip_seek x e <-> addr1 e <= x.
Proof.
  intros Hx He. pose proof (ip_last_net e He). destruct He as (k & Hk & Hm & Ha & Hal & _).
  rewrite ip_seek_eq, Hm, land_net_mask by done.
  assert (Hp : 0 < 2 ^ k) by lia. pose proof (Z.mod_pos_bound x (2 ^ k) Hp).
  assert (Hmono : addr1 e <= x -> addr1 e <= x - x mod 2 ^ k).
  { intros Hle. pose proof (masked_mono k _ _ ltac:(lia) Hle). lia. }
  destruct (Z.ltb_spec (last_net e) (x - x mod 2 ^ k)), (Z.ltb_spec (x - x mod 2 ^ k) (addr1 e)); lia.
Qed.

Lemma ip_seek_above x y e : ip_key x -> ip_key y -> ip_good e -> x <= y -> 0 < ip_seek x e -> 0 < ip_seek y e.
Proof.
  intros Hx Hy He Hxy. pose proof (ip_last_net e He). destruct He as (k & Hk & Hm & Ha & Hal & _).
  rewrite !ip_seek_eq, Hm, !land_net_mask by done. pose proof (masked_mono k _ _ ltac:(lia) Hxy).
  destruct (Z.ltb_spec (last_net e) (x - x mod 2 ^ k)), (Z.ltb_spec (x - x mod 2 ^ k) (addr1 e)),
    (Z.ltb_spec (last_net e) (y - y mod 2 ^ k)), (Z.ltb_spec (y - y mod 2 ^ k) (addr1 e)); lia.
Qed.

Lemma ip_place a e :
  aclIpNetworkCompare a e = if ip_seek (addr1 e) a =? 0 then 0 else ip_seek (addr1 a) e.
Proof.
  unfold aclIpNetworkCompare. change (aclIpNetworkCompare2 e a) with (ip_seek (addr1 e) a).
  change (aclIpNetworkCompare2 a e) with (ip_seek (addr1 a) e).
  destruct (Z.eqb_spec (ip_seek (addr1 e) a) 0) as [->|]; done.
Qed.

#[refine, export] Instance ip_intervals : Intervals Z acl_ip_data := {
  key_le := Z.le; key_ok := ip_key; good := ip_good; low := addr1; seek := ip_seek; place := aclIpNetworkCompare }.
Proof.
  - apply Z.le_refl.
  - apply Z.le_trans.
  - lia.
  - by intros e (k & _ & _ & H & _).
  - apply ip_seek_low.
  - apply ip_seek_below.
  - apply ip_seek_above.
  - intros a e _ _. rewrite ip_place. destruct (Z.eqb_spec (ip_seek (addr1 e) a) 0); tauto.
  - intros a e _ _. rewrite ip_place. by destruct (Z.eqb_spec (ip_seek (addr1 e) a) 0).
Defined.

(** An address is in a network or a range. *)
Definition ip_in (x : Z) (e : acl_ip_data) : Prop := addr1 e <= Z.land x (mask e) <= last_net e.

Lemma ip_inside x e : inside x e <-> ip_in x e.
Proof.
  unfold inside, ip_in. cbn. rewrite ip_seek_eq.
  destruct (Z.ltb_spec (last_net e) (Z.land x (mask e))), (Z.ltb_spec (Z.land x (mask e)) (addr1 e)); lia.
Qed.

(** ** Domains are intervals *)

(** The characters in the order of the comparison: the dot first. *)
Definition rank (c : Z) : Z := if c =? 46 then -1 else tolower c.

(** A host reversed, as its ranks. *)
Definition host_key (h : list Z) : list Z := map rank (rev (drop_dots h)).

Fixpoint lex_le (s t : list Z) : Prop :=
  match s, t with
  | [], _ => True
  | _ :: _, [] => False
  | x :: s, y :: t => x < y \/ (x = y /\ lex_le s t)
  end.

Lemma lex_le_refl s : lex_le s s.
Proof. induction s as [|x s IH]; cbn; [done | by right]. Qed.

Lemma lex_le_trans s t u : lex_le s t -> lex_le t u -> lex_le s u.
Proof.
  revert t u. induction s as [|x s IH]; intros [|y t] [|z u]; cbn; try done.
  intros [H1|[-> H1]] [H2|[-> H2]]; [left; lia | by left | by left | right; split; [done | by eapply IH]].
Qed.

Lemma lex_le_total s t : lex_le s t \/ lex_le t s.
Proof.
  revert t. induction s as [|x s IH]; intros [|y t]; cbn; auto.
  destruct (Z.lt_trichotomy x y) as [H|[->|H]]; [by left; left | | by right; left].
  destruct (IH t); [left | right]; by right.
Qed.

Lemma lex_le_prefix s t : lex_le s (s ++ t).
Proof. induction s as [|x s IH]; cbn; [done | by right]. Qed.

(** Characters of domains: bytes but NUL. *)
Definition is_name (s : list Z) : Prop := Forall (fun c => 0 < c < 256) s.

Lemma rank_eq a b : 0 < a < 256 -> 0 < b < 256 -> (tolower a =? tolower b) = (rank a =? rank b).
Proof.
  intros Ha Hb. apply eq_true_iff_eq. rewrite !Z.eqb_eq. unfold rank, tolower.
  destruct (Z.eqb_spec a 46), (Z.eqb_spec b 46);
    destruct ((65 <=? a) && (a <=? 90)) eqn:?, ((65 <=? b) && (b <=? 90)) eqn:?; lia.
Qed.

Lemma rank_lt a b :
  0 < a < 256 -> 0 < b < 256 -> rank a <> rank b ->
  (if b =? 46 then 1 else if a =? 46 then -1 else tolower a - tolower b) < 0 <-> rank a < rank b.
Proof.
  intros Ha Hb Hne. unfold rank, tolower in *.
  destruct (Z.eqb_spec a 46), (Z.eqb_spec b 46); try lia;
    destruct ((65 <=? a) && (a <=? 90)) eqn:?, ((65 <=? b) && (b <=? 90)) eqn:?; lia.
Qed.

Lemma rank_ge c : 0 < c < 256 -> -1 <= rank c.
Proof. intros Hc. unfold rank, tolower. destruct (c =? 46); [lia|]. destruct ((65 <=? c) && (c <=? 90)); lia. Qed.

(** The comparison on ranks. *)
Fixpoint rank_cmp (h d : list Z) : Z :=
  match h, d with
  | a :: h', b :: d' =>
      if a =? b then
        match h', d' with
        | [], [] => 0
        | [], [c] => if c =? -1 then 0 else -1
        | [], _ => -1
        | _, [] => if b =? -1 then 0 else 1
        | _, _ => rank_cmp h' d'
        end
      else if a <? b then -1 else 1
  | _, _ => 0
  end.

Lemma rank_dot c : 0 < c < 256 -> (rank c =? -1) = (c =? 46).
Proof.
  intros Hc. unfold rank, tolower. destruct (c =? 46); [done|]. apply Z.eqb_neq.
  destruct ((65 <=? c) && (c <=? 90)); lia.
Qed.

Lemma match_rank_cmp h d :
  is_name h -> is_name d -> Z.sgn (match_from_end h d) = rank_cmp (map rank h) (map rank d).
Proof.
  revert d. induction h as [|a h IH]; intros [|b d] Hh Hd; try done.
  inversion_clear Hh as [|? ? Ha Hh']. inversion_clear Hd as [|? ? Hb Hd']. cbn [match_from_end rank_cmp map].
  rewrite rank_eq by done. destruct (Z.eqb_spec (rank a) (rank b)) as [E|E].
  - destruct h as [|a' h], d as [|b' d]; cbn [map]; try done.
    + inversion_clear Hd' as [|? ? Hb' _]. rewrite rank_dot by done. destruct d; cbn [map]; [by destruct (b' =? 46) | done].
    + rewrite rank_dot by done. by destruct (b =? 46).
    + by apply IH.
  - pose proof (rank_lt a b Ha Hb E) as Hlt. destruct (Z.ltb_spec (rank a) (rank b)) as [H|H].
    + apply Z.sgn_neg. by apply Hlt.
    + apply Z.sgn_pos. enough ((if b =? 46 then 1 else if a =? 46 then -1 else tolower a - tolower b) <> 0) by lia.
      pose proof (rank_eq a b Ha Hb) as He. rewrite (proj2 (Z.eqb_neq (rank a) (rank b)) E) in He. apply Z.eqb_neq in He.
      destruct (b =? 46); [lia|]. destruct (a =? 46); lia.
Qed.

(** A domain without a dot at its start is a single host. *)
Lemma rank_cmp_exact h d :
  h <> [] -> d <> [] -> last d <> Some (-1) ->
  (rank_cmp h d < 0 <-> ~ lex_le d h) /\ (rank_cmp h d = 0 <-> h = d).
Proof.
  revert d. induction h as [|a h IH]; intros [|b d] Hh Hd Hl; try done. cbn [rank_cmp lex_le].
  destruct (Z.eqb_spec a b) as [->|Hne].
  - assert (Hlex : (b < b \/ b = b /\ lex_le d h) <-> lex_le d h) by (intuition lia). rewrite Hlex.
    assert (Heq : b :: h = b :: d <-> h = d) by (split; [by intros [=] | by intros ->]). rewrite Heq.
    destruct h as [|a' h], d as [|b' d].
    + cbn. intuition lia.
    + assert (E : (if b' =? -1 then 0 else -1) = -1 \/ d <> []).
      { destruct d; [|by right]. left. destruct (Z.eqb_spec b' (-1)) as [->|]; [by destruct Hl | done]. }
      cbn [lex_le]. destruct d; [destruct E as [->|]; [|done]|]; split; (split; [|done]); intros; try done; lia.
    + destruct (Z.eqb_spec b (-1)) as [->|]; [by destruct Hl|]. cbn. split; (split; [|done]); intros; first [lia | tauto].
    + by apply IH.
  - assert (Hne' : a :: h <> b :: d) by congruence. destruct (Z.ltb_spec a b); cbn; intuition lia.
Qed.

(** A domain with a dot at its start is the hosts below it. *)
Lemma rank_cmp_wild h p :
  h <> [] -> p <> [] -> Forall (fun c => -1 <= c) h ->
  (rank_cmp h (p ++ [-1]) < 0 <-> ~ lex_le p h) /\
  (rank_cmp h (p ++ [-1]) = 0 <-> h = p \/ exists q, h = p ++ -1 :: q).
Proof.
  revert p. induction h as [|a h IH]; intros [|b p] Hh Hp Hf; try done. cbn [app rank_cmp lex_le].
  inversion_clear Hf as [|? ? Ha Hf'].
  destruct (Z.eqb_spec a b) as [->|Hne].
  - assert (Hlex : (b < b \/ b = b /\ lex_le p h) <-> lex_le p h) by (intuition lia). rewrite Hlex.
    assert (Heq : (b :: h = b :: p \/ (exists q, b :: h = b :: p ++ -1 :: q)) <-> (h = p \/ exists q, h = p ++ -1 :: q)).
    { split; (intros [H|[q H]]; [left | right; exists q]); congruence. }
    rewrite Heq. clear Heq Hlex. destruct h as [|a' h].
    + destruct p as [|c p]; cbn [app lex_le]; [cbn; split; split; intros; first [lia | tauto | by left]|].
      destruct (p ++ [-1]) as [|x l] eqn:E; [by destruct p|]. split; split; intros H; first [done | lia | idtac].
      destruct H as [H|[q H]]; done.
    + destruct p as [|c p]; [|by apply IH]. cbn [app rank_cmp lex_le]. inversion_clear Hf' as [|? ? Ha' _].
      destruct (Z.eqb_spec a' (-1)) as [->|Hne'].
      * destruct h; cbn; split; split; intros; try lia; try tauto; right; by eexists.
      * rewrite (proj2 (Z.ltb_ge a' (-1))) by done. split; split; intros H; try lia; try tauto.
        destruct H as [H|[q [= H]]]; [done | lia].
  - assert (H0 : ~ (a :: h = b :: p \/ exists q, a :: h = b :: p ++ -1 :: q)) by (intros [H|[q H]]; congruence).
    destruct (Z.ltb_spec a b); cbn; intuition lia.
Qed.

Definition wild (d : list Z) : Prop := head d = Some 46.

(** A host with a name; a domain of which at most the first character is a dot that
    is followed by another one. *)
Definition host_ok (h : list Z) : Prop := is_name h /\ drop_dots h <> [].
Definition domain_good (d : list Z) : Prop := is_name d /\ drop_dots d <> [] /\ head (tail d) <> Some 46 \/
  is_name d /\ drop_dots d <> [] /\ head d <> Some 46.

Lemma drop_dots_names s : is_name s -> is_name (drop_dots s).
Proof.
  induction s as [|c s IH]; [done|]. intros H. inversion_clear H as [|? ? Hc Hs]. cbn [drop_dots].
  destruct (Z.eqb_spec c 46) as [->|Hne]; [by apply IH|].
  assert (E : drop_dots (c :: s) = c :: s) by (cbn; destruct c as [|p|]; try done; repeat (destruct p as [p|p|]; try done)).
  cbn [drop_dots] in E. rewrite E. by constructor.
Qed.

Lemma drop_dots_other s : head s <> Some 46 -> drop_dots s = s.
Proof.
  destruct s as [|c s]; [done|]. cbn. intros H. assert (Hc : c <> 46) by congruence.
  destruct c as [|p|]; try done; repeat (destruct p as [p|p|]; try done).
Qed.

Lemma host_key_ranks h : is_name h -> Forall (fun c => -1 <= c) (host_key h).
Proof.
  intros Hh. unfold host_key. apply Forall_map, Forall_rev. apply drop_dots_names in Hh.
  eapply Forall_impl; [exact Hh|]. intros c Hc. by apply rank_ge.
Qed.

Lemma host_key_ne h : drop_dots h <> [] -> host_key h <> [].
Proof.
  intros H E. apply H. unfold host_key in E. apply (f_equal length) in E. rewrite length_map, length_rev in E.
  by apply nil_length_inv.
Qed.

(** The ranks of a domain, to the end of the comparison. *)
Lemma domain_ranks d :
  domain_good d ->
  (wild d /\ map rank (rev d) = host_key d ++ [-1]) \/
  (~ wild d /\ map rank (rev d) = host_key d /\ last (host_key d) <> Some (-1)).
Proof.
  intros Hd. assert (Hn : is_name d) by (destruct Hd as [(H & _)|(H & _)]; exact H).
  destruct d as [|c d]; [destruct Hd as [(_ & H & _)|(_ & H & _)]; done|].
  destruct (decide (c = 46)) as [->|Hc]; [left | right].
  - split; [done|]. destruct Hd as [(_ & _ & H)|(_ & _ & H)]; [|done]. cbn in H.
    unfold host_key. cbn [drop_dots rev]. rewrite (drop_dots_other d H), map_app. done.
  - assert (Hne : head (c :: d) <> Some 46) by (cbn; congruence). split; [exact Hne|].
    unfold host_key. rewrite (drop_dots_other _ Hne). split; [done|].
    cbn [rev]. rewrite map_app. cbn [map]. rewrite last_snoc. intros [= H].
    inversion_clear Hn as [|? ? Hb _]. pose proof (rank_dot c Hb) as Hr. rewrite H in Hr. cbn in Hr. lia.
Qed.

Lemma domain_seek h d :
  host_ok h -> domain_good d ->
  (matchDomainName h d < 0 <-> ~ lex_le (host_key d) (host_key h)) /\
  (matchDomainName h d = 0 <-> host_key h = host_key d \/ (wild d /\ exists q, host_key h = host_key d ++ -1 :: q)).
Proof.
  intros [Hh Hne] Hd. assert (Hd' : is_name d /\ drop_dots d <> []) by (destruct Hd; tauto). destruct Hd' as [Hn Hdne].
  pose proof (match_rank_cmp (rev (drop_dots h)) (rev d)) as E. fold (matchDomainName h d) in E.
  specialize (E (Forall_rev (drop_dots_names h Hh)) (Forall_rev Hn)). fold (host_key h) in E.
  pose proof (host_key_ne _ Hne) as Hk. pose proof (host_key_ne _ Hdne) as Hkd.
  assert (Hs1 : matchDomainName h d < 0 <-> rank_cmp (host_key h) (map rank (rev d)) < 0) by (rewrite <- E; lia).
  assert (Hs2 : matchDomainName h d = 0 <-> rank_cmp (host_key h) (map rank (rev d)) = 0) by (rewrite <- E; lia).
  rewrite Hs1, Hs2. destruct (domain_ranks d Hd) as [[Hw ->]|(Hw & -> & Hl)].
  - destruct (rank_cmp_wild _ _ Hk Hkd (host_key_ranks _ Hh)) as [H1 H2]. rewrite H1, H2. tauto.
  - destruct (rank_cmp_exact _ _ Hk Hkd Hl) as [H1 H2]. rewrite H1, H2. tauto.
Qed.

Lemma lex_le_antisym s t : lex_le s t -> lex_le t s -> s = t.
Proof.
  revert t. induction s as [|x s IH]; intros [|y t]; cbn; try done.
  intros [H1|[E1 H1]] [H2|[E2 H2]]; try lia. subst. f_equal. by apply IH.
Qed.

Lemma lex_le_below p x s : lex_le p x -> lex_le x (p ++ s) -> exists t, x = p ++ t /\ lex_le t s.
Proof.
  revert x. induction p as [|c p IH]; intros x H1 H2; [by exists x|]. destruct x as [|y x]; [done|].
  cbn in H1, H2. destruct H1 as [H1|[E1 H1]], H2 as [H2|[E2 H2]]; try lia. subst. destruct (IH x H1 H2) as (t & -> & Ht). by exists t.
Qed.

Lemma domain_host d : domain_good d -> host_ok d.
Proof. intros [(H1 & H2 & _)|(H1 & H2 & _)]; by split. Qed.

Lemma domain_seek_above x y d :
  host_ok x -> host_ok y -> domain_good d -> lex_le (host_key x) (host_key y) ->
  0 < matchDomainName x d -> 0 < matchDomainName y d.
Proof.
  intros Hx Hy Hd Hxy Hpos. destruct (domain_seek x d Hx Hd) as [Lx Zx]. destruct (domain_seek y d Hy Hd) as [Ly Zy].
  assert (Hle : lex_le (host_key d) (host_key x)).
  { destruct (lex_le_total (host_key d) (host_key x)) as [|Hge]; [done|].
    destruct (decide (host_key d = host_key x)) as [->|Hne]; [apply lex_le_refl|].
    enough (matchDomainName x d < 0) by lia. apply Lx. intros Hle. by apply Hne, lex_le_antisym. }
  assert (Hly : lex_le (host_key d) (host_key y)) by (by eapply lex_le_trans).
  assert (Hn : matchDomainName y d <> 0).
  { intros H0. apply Zy in H0 as [E|[Hw [q E]]].
    - rewrite E in Hxy. assert (H0 : matchDomainName x d = 0) by (apply Zx; left; by apply lex_le_antisym). lia.
    - rewrite E in Hxy. destruct (lex_le_below _ _ _ Hle Hxy) as (t & Et & Ht).
      assert (H0 : matchDomainName x d = 0); [|lia]. apply Zx. destruct t as [|c t]; [left; by rewrite Et, app_nil_r|].
      right. split; [done|]. exists t. rewrite Et. do 2 f_equal. cbn in Ht. destruct Ht as [Ht|[-> _]]; [|done].
      pose proof (host_key_ranks x (proj1 Hx)) as Hf. rewrite Et in Hf. apply Forall_app in Hf as [_ Hf].
      inversion_clear Hf. lia. }
  destruct (Z.lt_ge_cases (matchDomainName y d) 0) as [H|H]; [|lia]. apply Ly in H. done.
Qed.

Lemma domain_place a e : aclDomainCompare a e = if matchDomainName e a =? 0 then 0 else matchDomainName a e.
Proof.
  unfold aclDomainCompare, aclHostDomainCompare. by destruct (Z.eqb_spec (matchDomainName e a) 0) as [->|].
Qed.

#[refine, export] Instance domain_intervals : Intervals (list Z) (list Z) := {
  key_le x y := lex_le (host_key x) (host_key y); key_ok := host_ok; good := domain_good; low d := d;
  seek := matchDomainName; place := aclDomainCompare }.
Proof.
  - intros x. apply lex_le_refl.
  - intros x y z. apply lex_le_trans.
  - intros x y. apply lex_le_total.
  - apply domain_host.
  - intros d Hd. apply domain_seek; [by apply domain_host | done | by left].
  - intros x d Hx Hd. destruct (domain_seek x d Hx Hd) as [H _].
    destruct (lex_le_total (host_key d) (host_key x)) as [Hl|Hl].
    + split; [done|]. intros _. destruct (Z.lt_ge_cases (matchDomainName x d) 0) as [Hn|]; [|done]. by apply H in Hn.
    + destruct (decide (host_key d = host_key x)) as [E|Hne].
      * rewrite E in *. split; [intros _; apply lex_le_refl|]. intros _.
        destruct (Z.lt_ge_cases (matchDomainName x d) 0) as [Hn|]; [|done]. apply H in Hn. by destruct Hn; apply lex_le_refl.
      * assert (Hnl : ~ lex_le (host_key d) (host_key x)) by (intros Hl'; by apply Hne, lex_le_antisym).
        split; [intros; apply H in Hnl; lia | done].
  - apply domain_seek_above.
  - intros a e _ _. rewrite domain_place. destruct (Z.eqb_spec (matchDomainName e a) 0); tauto.
  - intros a e _ _. rewrite domain_place. by destruct (Z.eqb_spec (matchDomainName e a) 0).
Defined.

(** ** What a list of addresses matches *)

Definition valid_mask (m : Z) : Prop := exists k, 0 <= k <= 32 /\ m = net_mask k.

Lemma land_key a m : ip_key a -> 0 <= m -> ip_key (Z.land a m).
Proof.
  intros Ha Hm. unfold ip_key. split; [apply Z.land_nonneg; left; apply Ha|].
  destruct (Z.eq_dec (Z.land a m) 0) as [->|Hne]; [lia|]. apply Z.log2_lt_pow2; [|].
  - pose proof (proj2 (Z.land_nonneg a m) (or_introl (proj1 Ha))). lia.
  - pose proof (Z.log2_land a m (proj1 Ha) Hm). enough (Z.log2 a < 32) by lia.
    destruct (Z.eq_dec a 0) as [->|]; [cbn; lia|]. apply Z.log2_lt_pow2; [destruct Ha; lia | apply Ha].
Qed.

Lemma safe_inet_addr_key s a : safe_inet_addr s = Some a -> ip_key a.
Proof.
  unfold safe_inet_addr. destruct (scan_int s) as [[a1 r1]|]; [|done]. cbn [mbind option_bind].
  destruct (scan_dot r1) as [r1'|]; [|done]. cbn [mbind option_bind].
  destruct (scan_int r1') as [[a2 r2]|]; [|done]. cbn [mbind option_bind].
  destruct (scan_dot r2) as [r2'|]; [|done]. cbn [mbind option_bind].
  destruct (scan_int r2') as [[a3 r3]|]; [|done]. cbn [mbind option_bind].
  destruct (scan_dot r3) as [r3'|]; [|done]. cbn [mbind option_bind].
  destruct (scan_int r3') as [[a4 r4]|]; [|done]. cbn [mbind option_bind].
  destruct r4; [|discriminate].
  destruct ((a1 <? 0) || (255 <? a1)) eqn:E1; [discriminate|]. destruct ((a2 <? 0) || (255 <? a2)) eqn:E2; [discriminate|].
  destruct ((a3 <? 0) || (255 <? a3)) eqn:E3; [discriminate|]. destruct ((a4 <? 0) || (255 <? a4)) eqn:E4; [discriminate|].
  intros H. apply (inj Some) in H. rewrite !Z.shiftl_mul_pow2 in H by lia.
  change (2 ^ 24) with 16777216 in H. change (2 ^ 16) with 65536 in H. change (2 ^ 8) with 256 in H.
  unfold ip_key. change (2 ^ 32) with 4294967296. lia.
Qed.

Lemma decode_addr_key s a : decode_addr s = Parsed (Some a) -> ip_key a.
Proof.
  unfold decode_addr. destruct (scan_quad s) as [n a1]. destruct n as [|[|[|[|[|n]]]]]; try done.
  - destruct ((0 <=? a1) && (a1 <? 33)); [|done]. intros [= <-]. destruct (a1 =? 0); [unfold ip_key; lia|].
    unfold ip_key. apply wrapu_range. lia.
  - destruct (safe_inet_addr s) as [b|] eqn:E; [|done]. intros [= <-]. by eapply safe_inet_addr_key.
Qed.

(** An entry that was read is an interval when its mask is one of a network and
    its range is not reversed. *)
Lemma masked_good a b m :
  ip_key a -> valid_mask m -> (Z.land b m = 0 \/ Z.land a m <= Z.land b m) ->
  ip_good (IpData (Z.land a m) (Z.land b m) m).
Proof.
  intros Ha (k & Hk & ->) Hab. exists k. cbn. split; [done|]. split; [done|].
  assert (Hm : 0 <= net_mask k) by (unfold net_mask; pose proof (Z.pow_le_mono_r 2 k 32); lia).
  split; [by apply land_key|]. split; [|done]. rewrite land_net_mask by done.
  assert (Hp : 0 < 2 ^ k) by lia. pose proof (Z.div_mod a (2 ^ k)). replace (a - a mod 2 ^ k) with (a / 2 ^ k * 2 ^ k) by lia.
  apply Z.mod_mul. lia.
Qed.

(** What the words of a line stand for. *)
Fixpoint ip_entries (gethostbyname : list Z -> option (list Z)) (words : list (list Z)) : parsed (list acl_ip_data) :=
  match words with
  | [] => Parsed []
  | t :: words =>
      parsed_bind (fun es => parsed_bind (fun rest => Parsed (es ++ rest)) (ip_entries gethostbyname words))
        (aclParseIpData gethostbyname t)
  end.

Lemma parse_ip_list_fatal g words :
  fold_left (fun st t => parsed_bind (fun top =>
      parsed_bind (fun es => Parsed (fold_left (fun top q => splay_insert aclIpNetworkCompare q top) es top))
        (aclParseIpData g t)) st) words SelfDestruct = SelfDestruct.
Proof. by induction words. Qed.

Lemma parse_ip_list g words top :
  aclParseIpList g words top = parsed_bind (fun es => Parsed (build top es)) (ip_entries g words).
Proof.
  unfold aclParseIpList. revert top. induction words as [|t words IH]; intros top; [done|]. cbn [fold_left ip_entries].
  cbn [parsed_bind]. destruct (aclParseIpData g t) as [es|]; cbn [parsed_bind]; [|apply parse_ip_list_fatal].
  rewrite IH. destruct (ip_entries g words) as [rest|]; [|done]. cbn [parsed_bind]. unfold build. by rewrite fold_left_app.
Qed.

(** The entries read from words are good when their masks are masks of networks, no range
    is reversed and host names have addresses. *)
Definition entry_ok (e : acl_ip_data) : Prop := valid_mask (mask e) /\ (addr2 e = 0 \/ addr1 e <= addr2 e).

Lemma all_good : ip_good (IpData 0 0 0).
Proof. exists 32. split; [lia|]. split; [done|]. split; [by split|]. split; [done | by left]. Qed.

Lemma ip_entry_good a1 a2 m es :
  ip_entry a1 a2 m = Parsed es -> Forall entry_ok es -> Forall ip_good es.
Proof.
  unfold ip_entry. destruct (decode_addr a1) as [[addr1|]|] eqn:E1; cbn [parsed_bind]; [|intros [= <-]; constructor | done].
  match goal with |- parsed_bind _ ?x = _ -> _ => destruct x as [[[addr2 mask]|]|] end; cbn [parsed_bind];
    [|intros [= <-]; constructor | done].
  match goal with |- parsed_bind _ ?x = _ -> _ => destruct x as [[m'|]|] end; cbn [parsed_bind];
    [|intros [= <-]; constructor | done].
  intros [= <-] H. inversion_clear H as [|? ? [Hm Hr] _]. constructor; [|constructor].
  apply masked_good; [by eapply decode_addr_key | exact Hm | exact Hr].
Qed.

Lemma parse_ip_good g t es :
  (forall name l, g name = Some l -> Forall ip_key l) ->
  aclParseIpData g t = Parsed es -> Forall entry_ok es -> Forall ip_good es.
Proof.
  intros Hg. unfold aclParseIpData. destruct (strcasecmp_eq t (bytes "all")); [intros [= <-] _; constructor; [apply all_good | constructor]|].
  destruct (or_else _ _) as [[[a1 a2] m]|]; [apply ip_entry_good|].
  destruct (scan_word t) as [[name r]|]; [|intros [= <-] _; constructor].
  destruct (g name) as [[|a l]|] eqn:E; [intros [= <-] _; constructor; [apply all_good | constructor] | | intros [= <-] _; constructor].
  intros [= <-] _. apply (Forall_map (fun a => IpData a 0 no_addr) ip_good (a :: l)).
  eapply Forall_impl; [exact (Hg _ _ E)|]. intros x Hx. exists 0. cbn. split; [lia|]. split; [done|]. split; [done|].
  split; [by rewrite Z.mod_1_r | by left].
Qed.

Lemma entries_good g words es :
  (forall name l, g name = Some l -> Forall ip_key l) ->
  ip_entries g words = Parsed es -> Forall entry_ok es -> Forall ip_good es.
Proof.
  intros Hg. revert es. induction words as [|t words IH]; intros es; cbn; [by intros [= <-]|].
  destruct (aclParseIpData g t) as [es1|] eqn:E; cbn; [|done]. destruct (ip_entries g words) as [es2|]; cbn; [|done].
  intros [= <-] [H1 H2]%Forall_app. apply Forall_app. split; [by eapply parse_ip_good | by apply IH].
Qed.

(** Earlier searches only turn the tree. *)
Definition after_ips (top : splayNode acl_ip_data) (seen : list Z) : splayNode acl_ip_data :=
  fold_left (fun top c => (aclMatchIp top c).2) seen top.

Lemma match_ip_spec top c :
  ip_key c -> tree_ok (walk top) ->
  ((aclMatchIp top c).1 = true <-> exists e, e ∈ walk top /\ ip_in c e) /\ walk (aclMatchIp top c).2 = walk top.
Proof.
  intros Hc Hok. unfold aclMatchIp. rewrite (splay_key aclIpAddrNetworkCompare (fun c => IpData c 0 no_addr)).
  destruct (tree_search (H:=ip_intervals) c top Hc Hok) as [H1 H2]. cbn [seek ip_intervals] in H1, H2. unfold ip_seek in H1, H2.
  destruct (splay_splay _ c top) as [top' res]. cbn [fst snd] in *. split; [|exact H2].
  rewrite Z.eqb_eq, H1. split; intros (e & He & Hin); exists e; (split; [exact He | by apply ip_inside]).
Qed.

Lemma after_ips_walk top seen :
  Forall ip_key seen -> tree_ok (walk top) -> walk (after_ips top seen) = walk top.
Proof.
  unfold after_ips. revert top. induction seen as [|c seen IH]; intros top Hs Hok; [done|].
  inversion_clear Hs as [|? ? Hc Hs']. destruct (match_ip_spec top c Hc Hok) as [_ E]. cbn [fold_left].
  rewrite IH; [exact E | exact Hs' | by rewrite E].
Qed.

(** An address list matches an address exactly when one of the entries that the
    splay tree kept contains it, whatever was looked up before; the tree keeps
    entries of the configuration only, and an entry that it does not keep
    overlaps one that it does: with entries apart from one another none is lost. *)
Lemma ip_acl_correct g words es top :
  (forall name l, g name = Some l -> Forall ip_key l) ->
  ip_entries g words = Parsed es -> Forall entry_ok es ->
  aclParseIpList g words Null = Parsed top ->
  (forall e, e ∈ walk top -> e ∈ es) /\
  (forall e, e ∈ es -> e ∈ walk top \/ exists f, f ∈ walk top /\ (ip_in (addr1 f) e \/ ip_in (addr1 e) f)) /\
  forall seen c, Forall ip_key seen -> ip_key c ->
    ((aclMatchIp (after_ips top seen) c).1 = true <-> exists e, e ∈ walk top /\ ip_in c e).
Proof.
  intros Hg Hes Hok Htop. rewrite parse_ip_list, Hes in Htop. injection Htop as <-.
  destruct (build_ok (H:=ip_intervals) es Null (entries_good _ _ _ Hg Hes Hok)) as (H1 & H2 & _ & H4); [by repeat constructor|].
  split; [|split].
  - intros e He. destruct (H2 e He) as [|Hn]; [done | by apply not_elem_of_nil in Hn].
  - intros e He. destruct (H4 e He) as [|(f & Hf & [Ho|Ho])]; [by left | |]; right; exists f; (split; [exact Hf|]);
      [left | right]; by apply ip_inside.
  - intros seen c Hs Hc. pose proof (after_ips_walk _ _ Hs H1) as E.
    rewrite (proj1 (match_ip_spec (after_ips (build Null es) seen) c Hc ltac:(by rewrite E))), E. done.
Qed.

(** [entry_ok] decided. *)
Definition entry_ok_b (e : acl_ip_data) : bool :=
  existsb (fun k => mask e =? net_mask k) (seqZ 0 33) && ((addr2 e =? 0) || (addr1 e <=? addr2 e)).

Lemma entries_ok_sound es : forallb entry_ok_b es = true -> Forall entry_ok es.
Proof.
  intros H. rewrite forallb_forall in H. apply Forall_forall. intros e He%list_elem_of_In. specialize (H e He).
  apply andb_true_iff in H as [H1 H2]. apply existsb_exists in H1 as (k & Hk & Em). apply list_elem_of_In, elem_of_seqZ in Hk.
  split; [exists k; lia | lia].
Qed.

Definition demo_words : list (list Z) :=
  [bytes "10.0.0.0/8"; bytes "192.168.1.10-192.168.1.20"; bytes "10.1.2.3"; bytes "172.16.0.0/255.240.0.0"].

Lemma ip_acl_correct_witness : exists top,
  aclParseIpList (fun _ => None) demo_words Null = Parsed top /\
  ((aclMatchIp (after_ips top [167837955; 3232235786]) 2886729729).1 = true <->
   exists e, e ∈ walk top /\ ip_in 2886729729 e).
Proof.
  destruct (ip_entries (fun _ => None) demo_words) as [es|] eqn:Ees; [|vm_compute in Ees; discriminate].
  destruct (aclParseIpList (fun _ => None) demo_words Null) as [top|] eqn:Et; [|vm_compute in Et; discriminate].
  exists top. split; [reflexivity|].
  assert (Hseen : Forall ip_key [167837955; 3232235786; 2886729729])
    by (repeat first [apply Forall_nil; exact I | apply Forall_cons; split; [unfold ip_key; lia|]]).
  inversion_clear Hseen as [|? ? H1 Hs]. inversion_clear Hs as [|? ? H2 Hs']. inversion_clear Hs' as [|? ? H3 _].
  apply (ip_acl_correct (fun _ => None) demo_words es top);
    [intros name l H; discriminate | exact Ees | | exact Et | exact (Forall_cons_2 _ _ _ H1 (Forall_cons_2 _ _ _ H2 (Forall_nil_2 _))) | exact H3].
  apply entries_ok_sound. vm_compute in Ees. injection Ees as <-. vm_compute. reflexivity.
Defined.

(** A range takes the mask that is guessed for its last address: this one covers two
    networks of 256 addresses. *)
Lemma range_mask_guessed :
  aclParseIpData (fun _ => None) (bytes "10.0.0.200-10.0.1.0")
  = Parsed [IpData (10 * 2 ^ 24) (10 * 2 ^ 24 + 256) 4294967040].
Proof. vm_compute. done. Qed.

(** ** What a list of domains matches *)

Definition lowered (s : list Z) : list Z := map tolower (drop_dots s).

(** A host is the domain, or the domain starts with a dot and the host is below it;
    case and dots at the start of the host do not matter. *)
Definition domain_in (h d : list Z) : Prop :=
  lowered h = lowered d \/ (wild d /\ exists q, lowered h = q ++ 46 :: lowered d).

Lemma rank_tolower c : 0 < c < 256 -> rank c = if tolower c =? 46 then -1 else tolower c.
Proof.
  intros Hc. unfold rank, tolower. destruct (Z.eqb_spec c 46) as [->|]; [done|].
  destruct ((65 <=? c) && (c <=? 90)) eqn:E; [rewrite (proj2 (Z.eqb_neq (c + 32) 46)) by lia | rewrite (proj2 (Z.eqb_neq c 46)) by lia]; done.
Qed.

(** The ranks determine the lowered name. *)
Definition unrank (r : Z) : Z := if r =? -1 then 46 else r.

Lemma unrank_rank c : 0 < c < 256 -> unrank (rank c) = tolower c.
Proof.
  intros Hc. rewrite rank_tolower by done. unfold unrank. destruct (Z.eqb_spec (tolower c) 46) as [->|Hne]; [done|].
  unfold tolower in *. destruct ((65 <=? c) && (c <=? 90)); rewrite (proj2 (Z.eqb_neq _ (-1))) by lia; done.
Qed.

Lemma unrank_names s : is_name s -> map unrank (map rank s) = map tolower s.
Proof. induction 1 as [|c s Hc _ IH]; cbn; [done|]. by rewrite unrank_rank, IH. Qed.

Lemma lowered_key h : is_name h -> lowered h = rev (map unrank (host_key h)).
Proof.
  intros Hh. unfold lowered, host_key. rewrite <- map_rev, <- map_rev, rev_involutive.
  by rewrite unrank_names by (by apply drop_dots_names).
Qed.

Lemma key_lowered h : is_name h -> host_key h = map (fun c => if c =? 46 then -1 else c) (rev (lowered h)).
Proof.
  intros Hh. unfold lowered, host_key. rewrite <- map_rev, map_map. apply map_ext_in. intros c Hc.
  apply rank_tolower. apply in_rev, list_elem_of_In in Hc. pose proof (drop_dots_names h Hh) as Hf.
  unfold is_name in Hf. rewrite Forall_forall in Hf. by apply Hf.
Qed.

Lemma domain_inside h d : host_ok h -> domain_good d -> matchDomainName h d = 0 <-> domain_in h d.
Proof.
  intros Hh Hd. destruct (domain_seek h d Hh Hd) as [_ ->]. unfold domain_in.
  assert (Hn : is_name d) by apply (domain_host d Hd). destruct Hh as [Hh _].
  split; (intros [E|[Hw [q E]]]; [left | right; split; [exact Hw|]]).
  - by rewrite !lowered_key, E by done.
  - exists (rev (map unrank q)). rewrite !lowered_key, E by done. rewrite map_app, rev_app_distr. cbn.
    by rewrite <- app_assoc.
  - by rewrite !key_lowered, E by done.
  - exists (map (fun c => if c =? 46 then -1 else c) (rev q)). rewrite !key_lowered, E by done.
    rewrite rev_app_distr. cbn. by rewrite <- app_assoc, map_app.
Qed.

Definition after_hosts (top : splayNode (list Z)) (seen : list (list Z)) : splayNode (list Z) :=
  fold_left (fun top h => (aclMatchDomainList top (Some h)).2) seen top.

Lemma match_domain_spec top h :
  host_ok h -> tree_ok (H:=domain_intervals) (walk top) ->
  ((aclMatchDomainList top (Some h)).1 = true <-> exists d, d ∈ walk top /\ domain_in h d) /\
  walk (aclMatchDomainList top (Some h)).2 = walk top.
Proof.
  intros Hh Hok. unfold aclMatchDomainList. change aclHostDomainCompare with matchDomainName.
  destruct (tree_search (H:=domain_intervals) h top Hh Hok) as [H1 H2]. cbn [seek domain_intervals] in H1, H2.
  destruct (splay_splay _ h top) as [top' res]. cbn [fst snd] in *. split; [|exact H2].
  rewrite Z.eqb_eq, H1. destruct Hok as [Hg _]. rewrite Forall_forall in Hg.
  split; intros (d & Hd & Hin); exists d; (split; [exact Hd|]); apply domain_inside; first [done | by apply Hg].
Qed.

Lemma after_hosts_walk top seen :
  Forall host_ok seen -> tree_ok (H:=domain_intervals) (walk top) -> walk (after_hosts top seen) = walk top.
Proof.
  unfold after_hosts. revert top. induction seen as [|h seen IH]; intros top Hs Hok; [done|].
  inversion_clear Hs as [|? ? Hh Hs']. destruct (match_domain_spec top h Hh Hok) as [_ E]. cbn [fold_left].
  rewrite IH; [exact E | exact Hs' | by rewrite E].
Qed.

Lemma parse_domains words top : aclParseDomainList words top = build (H:=domain_intervals) top (map (map tolower) words).
Proof. unfold aclParseDomainList, build. revert top. induction words as [|t words IH]; intros top; [done|]. cbn. by rewrite IH. Qed.

(** A domain list matches a host exactly when the host is one of the domains that
    the splay tree kept, or is below one of them that starts with a dot, whatever was
    looked up before; a domain of the configuration that the tree does not keep
    contains or is contained in one that it does. *)
Lemma domain_acl_correct words :
  Forall domain_good (map (map tolower) words) ->
  let top := aclParseDomainList words Null in
  (forall d, d ∈ walk top -> exists w, w ∈ words /\ d = map tolower w) /\
  (forall w, w ∈ words -> let d := map tolower w in
     d ∈ walk top \/ exists f, f ∈ walk top /\ (domain_in f d \/ domain_in d f)) /\
  forall seen h, Forall host_ok seen -> host_ok h ->
    ((aclMatchDomainList (after_hosts top seen) (Some h)).1 = true <-> exists d, d ∈ walk top /\ domain_in h d).
Proof.
  intros Hg top. unfold top. rewrite parse_domains.
  destruct (build_ok (H:=domain_intervals) _ Null Hg) as (H1 & H2 & _ & H4); [by repeat constructor|].
  assert (Hgood : forall d, d ∈ walk (build (H:=domain_intervals) Null (map (map tolower) words)) -> domain_good d).
  { destruct H1 as [Hf _]. rewrite Forall_forall in Hf. exact Hf. }
  split; [|split].
  - intros d Hd. destruct (H2 d Hd) as [Hin|Hn]; [|by apply not_elem_of_nil in Hn].
    apply list_elem_of_fmap in Hin as (w & -> & Hw). by exists w.
  - intros w Hw. set (d := map tolower w). assert (Hd : d ∈ map (map tolower) words) by (by apply list_elem_of_fmap_2).
    assert (Hdg : domain_good d) by (rewrite Forall_forall in Hg; by apply Hg).
    destruct (H4 d Hd) as [|(f & Hf & [Ho|Ho])]; [by left | |]; right; exists f; (split; [exact Hf|]);
      [left | right]; apply domain_inside; auto using domain_host.
  - intros seen h Hs Hh. pose proof (after_hosts_walk _ _ Hs H1) as E.
    rewrite (proj1 (match_domain_spec (after_hosts _ seen) h Hh ltac:(by rewrite E))), E. done.
Qed.

(** [domain_good] and [host_ok] decided. *)
Definition host_ok_b (h : list Z) : bool :=
  forallb (fun c => (0 <? c) && (c <? 256)) h && negb (bool_decide (drop_dots h = [])).
Definition domain_good_b (d : list Z) : bool :=
  host_ok_b d && (negb (bool_decide (head (tail d) = Some 46)) || negb (bool_decide (head d = Some 46))).

Lemma host_ok_sound h : host_ok_b h = true -> host_ok h.
Proof.
  intros [H1 H2]%andb_true_iff. split.
  - rewrite forallb_forall in H1. apply Forall_forall. intros c Hc%list_elem_of_In. specialize (H1 c Hc). lia.
  - by apply negb_true_iff, bool_decide_eq_false in H2.
Qed.

Lemma domain_good_sound d : domain_good_b d = true -> domain_good d.
Proof.
  intros [[H1 H2]%host_ok_sound H]%andb_true_iff. unfold domain_good.
  apply orb_true_iff in H as [H|H]; apply negb_true_iff, bool_decide_eq_false in H; [left | right]; by split.
Qed.

Lemma Forall_sound {A} (P : A -> Prop) (p : A -> bool) l : (forall x, p x = true -> P x) -> forallb p l = true -> Forall P l.
Proof. intros Hp Hl. rewrite forallb_forall in Hl. apply Forall_forall. intros x Hx%list_elem_of_In. by apply Hp, Hl. Qed.

Definition demo_domains : list (list Z) := [bytes ".example.com"; bytes "www.Foo.org"; bytes "mail.example.com"].

Lemma domain_acl_correct_witness :
  let top := aclParseDomainList demo_domains Null in
  (aclMatchDomainList (after_hosts top [bytes "foo.org"]) (Some (bytes "www.example.COM"))).1 = true <->
  exists d, d ∈ walk top /\ domain_in (bytes "www.example.COM") d.
Proof.
  apply domain_acl_correct.
  - apply (Forall_sound _ _ _ domain_good_sound). vm_compute. reflexivity.
  - apply (Forall_sound _ _ _ host_ok_sound). vm_compute. reflexivity.
  - apply host_ok_sound. vm_compute. reflexivity.
Defined.

(** ** Lists that move what matched to the second place *)

Lemma extract_spec {A} (p : A -> bool) l :
  match extract p l with
  | Some (x, rest) => p x = true /\ l ≡ₚ x :: rest
  | None => existsb p l = false
  end.
Proof.
  induction l as [|x l IH]; cbn; [done|]. destruct (p x) eqn:E; [done|]. cbn.
  destruct (extract p l) as [[y rest]|]; cbn; [|done]. destruct IH as [Hy Hl]. split; [done|]. rewrite Hl. constructor.
Qed.

Lemma match_list_spec {A} (p : A -> bool) l :
  (match_list p l).1 = existsb p l /\ l ≡ₚ (match_list p l).2.
Proof.
  destruct l as [|first rest]; [done|]. cbn. destruct (p first) eqn:E; [done|].
  pose proof (extract_spec p rest) as H. destruct (extract p rest) as [[x rest']|]; cbn; [|by rewrite H].
  destruct H as [Hx Hr]. split; [|by rewrite Hr]. symmetry. apply existsb_exists. exists x. split; [|done].
  apply list_elem_of_In. rewrite Hr. by left.
Qed.

Lemma existsb_perm {A} (p : A -> bool) l l' : l ≡ₚ l' -> existsb p l = existsb p l'.
Proof.
  induction 1 as [|x l l' _ IH|x y l|l l' l'' _ IH1 _ IH2]; cbn; [done | by rewrite IH | | by rewrite IH1].
  by rewrite !orb_assoc, (orb_comm (p y)).
Qed.

(** ** Users *)

Lemma strcmp_lex s t : is_name s -> is_name t -> (0 <= strcmp s t <-> lex_le t s) /\ (strcmp s t = 0 <-> s = t).
Proof.
  intros Hs. revert t. induction Hs as [|x s Hx Hs IH]; intros [|y t] Ht; cbn.
  - split; split; first [done | lia].
  - inversion_clear Ht. split; split; first [done | lia].
  - split; split; first [done | lia].
  - inversion_clear Ht as [|? ? Hy Ht']. destruct (IH t Ht') as [H1 H2]. destruct (Z.eqb_spec x y) as [->|Hne].
    + rewrite H1, H2. split; [intuition lia|]. split; [by intros -> | by intros [=]].
    + split; [split; [left; lia | intros [|[]]; lia]|]. split; [lia | intros [=]; lia].
Qed.

Lemma strcmp_sym s t : is_name s -> is_name t -> strcmp s t = - strcmp t s.
Proof.
  intros Hs. revert t. induction Hs as [|x s Hx Hs IH]; intros [|y t] Ht; cbn; try lia.
  inversion_clear Ht as [|? ? Hy Ht']. rewrite (Z.eqb_sym y x). destruct (x =? y); [by apply IH | lia].
Qed.

(** Names in the order of [strcmp]; each stands for itself. *)
Lemma strcmp_below x e : is_name x -> is_name e -> 0 <= strcmp x e <-> lex_le e x.
Proof. intros Hx He. by apply strcmp_lex. Qed.

Lemma strcmp_above x y e :
  is_name x -> is_name y -> is_name e -> lex_le x y -> 0 < strcmp x e -> 0 < strcmp y e.
Proof.
  intros Hx Hy He Hxy Hpos. rewrite strcmp_sym in * by done.
  destruct (Z.lt_ge_cases 0 (- strcmp e y)) as [|Hn]; [done|].
  assert (lex_le x e) by (eapply lex_le_trans; [exact Hxy | apply strcmp_lex; [done | done | lia]]).
  assert (0 <= strcmp e x) by (by apply strcmp_lex). lia.
Qed.

#[refine] Definition user_intervals : Intervals (list Z) (list Z) := {|
  key_le := lex_le; key_ok := is_name; good := is_name; low d := d; seek := strcmp; place := strcmp |}.
Proof.
  - apply lex_le_refl.
  - apply lex_le_trans.
  - apply lex_le_total.
  - done.
  - intros e He. by apply strcmp_lex.
  - apply strcmp_below.
  - apply strcmp_above.
  - intros a e Ha He. rewrite (strcmp_sym e a) by done. lia.
  - done.
Defined.

(** The names of an element: lowered ones when case does not matter. *)
Definition users_ok (data : acl_user_data) : Prop :=
  tree_ok (H:=user_intervals) (walk (names data)) /\
  (case_insensitive data = true -> Forall (fun n => map tolower n = n) (walk (names data))).

Lemma tolower_idem_name s : map tolower (map tolower s) = map tolower s.
Proof.
  rewrite map_map. apply map_ext. intros c. unfold tolower. destruct ((65 <=? c) && (c <=? 90)) eqn:E; [|by rewrite E].
  destruct ((65 <=? c + 32) && (c + 32 <=? 90)) eqn:E'; lia.
Qed.

Lemma is_name_lower s : is_name s -> is_name (map tolower s).
Proof.
  intros H. apply Forall_map. eapply Forall_impl; [exact H|]. intros c Hc. cbn in *. unfold tolower.
  destruct ((65 <=? c) && (c <=? 90)) eqn:E; lia.
Qed.

Definition as_user (data : acl_user_data) (u : list Z) : list Z := if case_insensitive data then map tolower u else u.

Lemma insert_user_ok data t :
  is_name t -> users_ok data ->
  users_ok (insert_user data t) /\
  forall n, n ∈ walk (names (insert_user data t)) <-> n = as_user data t \/ n ∈ walk (names data).
Proof.
  intros Ht [Hok Hc]. assert (Ht' : is_name (as_user data t)) by (unfold as_user; destruct (case_insensitive data); [by apply is_name_lower | done]).
  destruct (tree_insert (H:=user_intervals) (as_user data t) (names data) Ht' Hok) as (H1 & H2 & H3 & H4).
  assert (Hin : forall n, n ∈ walk (names (insert_user data t)) <-> n = as_user data t \/ n ∈ walk (names data)).
  { intros n. split; [apply H2|]. intros [->|Hn]; [|by apply H3]. destruct H4 as [H4|(e & He & Ho)]; [exact H4|].
    enough (e = as_user data t) as <- by (by apply H3).
    assert (Hne : is_name e) by (destruct Hok as [Hg _]; rewrite Forall_forall in Hg; by apply Hg).
    destruct Ho as [Ho|Ho]; apply strcmp_lex in Ho; done. }
  split; [|exact Hin]. split; [exact H1|]. cbn. intros E. apply Forall_forall. intros n Hn%Hin. specialize (Hc E).
  rewrite Forall_forall in Hc. destruct Hn as [->|Hn]; [|by apply Hc]. unfold as_user. rewrite E. apply tolower_idem_name.
Qed.

(** A user is found when the element takes every user, or when it has the name. *)
Lemma user_acl_correct data u :
  users_ok data -> is_name u ->
  let r := aclMatchUser data (Some u) in
  (r.1 = true <-> u <> bytes "-" /\ (required data = true \/ as_user data u ∈ walk (names data))) /\
  users_ok r.2 /\ walk (names r.2) = walk (names data) /\
  case_insensitive r.2 = case_insensitive data /\ required r.2 = required data.
Proof.
  intros [Hok Hc] Hu. cbv zeta. unfold aclMatchUser.
  destruct (bool_decide (u = bytes "-")) eqn:Hdash.
  { apply bool_decide_eq_true in Hdash. cbn [fst snd].
    split; [split; [done | by intros [? _]]|]. by split; [exact (conj Hok Hc)|]. }
  apply bool_decide_eq_false in Hdash. destruct (required data) eqn:Er.
  { cbn [fst snd]. rewrite Er. split; [split; [auto | done]|]. by split; [exact (conj Hok Hc)|]. }
  assert (Hs : splay_splay (if case_insensitive data then strcasecmp else strcmp) u (names data)
               = splay_splay strcmp (as_user data u) (names data)).
  { unfold as_user. destruct (case_insensitive data); [|done]. rewrite (splay_key strcmp (map tolower)).
    apply splay_ext. intros e He. specialize (Hc eq_refl). rewrite Forall_forall in Hc. unfold strcasecmp. by rewrite (Hc e He). }
  rewrite Hs. assert (Hu' : is_name (as_user data u)) by (unfold as_user; destruct (case_insensitive data); [by apply is_name_lower | done]).
  destruct (tree_search (H:=user_intervals) (as_user data u) (names data) Hu' Hok) as [H1 H2]. cbn [seek user_intervals] in H1, H2.
  destruct (splay_splay strcmp _ (names data)) as [top res]. cbn [fst snd names case_insensitive required] in *.
  split; [|split; [split; cbn; rewrite H2; done | done]]. rewrite Z.eqb_eq, H1. split.
  - intros (e & He & Hin). split; [done|]. right. destruct Hok as [Hg _]. rewrite Forall_forall in Hg.
    apply strcmp_lex in Hin; [by subst | done | by apply Hg].
  - intros [_ [|Hin]]; [done|]. exists (as_user data u). split; [done|]. by apply strcmp_lex.
Qed.

(** Names that were read before [-i], from an earlier line, are in the order of
    [strcmp] and may not be found any more. *)
Lemma users_case_lost :
  let data := aclParseUserList [bytes "-i"] (Some (aclParseUserList [bytes "Zed"; bytes "adam"] None)) in
  (aclMatchUser data (Some (bytes "Zed"))).1 = false.
Proof. vm_compute. reflexivity. Qed.
