(* ===== verification/Acl.v ===== *)
(** * Access lists

    v3.0/src/squid-mybox/src/acl.c: the elements that a configuration declares, the lines
    that allow or deny what their elements match, the check that answers at once
    ([aclCheckFast]) and the check that waits for lookups ([aclCheck]).

    An element is known by its place in [Config.aclList], to which elements are only
    added.  Matching turns the splay tree of an element or moves what matched in its
    list, and records in the checklist which lookup is needed; all of this is the
    state that a check returns.

    What other parts of the program answer at the time of a check is in a [world]:
    the caches of addresses and names, the clock, the connections of a client, the
    networks of an AS, the authentication schemes and the external helpers. *)

From S2P Require Import Prelude CString Dns Splay Escape Url AclData.
Import Escape.Rfc1738.

(** ** Elements *)

Inductive squid_acl :=
| ACL_SRC_IP | ACL_DST_IP | ACL_MY_IP | ACL_SRC_DOMAIN | ACL_DST_DOMAIN | ACL_SRC_DOM_REGEX
| ACL_DST_DOM_REGEX | ACL_TIME | ACL_URLPATH_REGEX | ACL_URL_REGEX | ACL_URL_PORT | ACL_MY_PORT
| ACL_IDENT | ACL_IDENT_REGEX | ACL_PROTO | ACL_METHOD | ACL_BROWSER | ACL_REFERER_REGEX
| ACL_PROXY_AUTH | ACL_PROXY_AUTH_REGEX | ACL_SRC_ASN | ACL_DST_ASN | ACL_SNMP_COMMUNITY | ACL_MAXCONN
| ACL_REQ_MIME_TYPE | ACL_REP_MIME_TYPE | ACL_REP_HEADER | ACL_REQ_HEADER | ACL_MAX_USER_IP
| ACL_EXTERNAL | ACL_URLLOGIN.

#[export] Instance squid_acl_eq : EqDecision squid_acl.
Proof. solve_decision. Defined.

Definition all_types : list squid_acl :=
  [ACL_SRC_IP; ACL_DST_IP; ACL_MY_IP; ACL_SRC_DOMAIN; ACL_DST_DOMAIN; ACL_SRC_DOM_REGEX;
   ACL_DST_DOM_REGEX; ACL_TIME; ACL_URLPATH_REGEX; ACL_URL_REGEX; ACL_URL_PORT; ACL_MY_PORT;
   ACL_IDENT; ACL_IDENT_REGEX; ACL_PROTO; ACL_METHOD; ACL_BROWSER; ACL_REFERER_REGEX;
   ACL_PROXY_AUTH; ACL_PROXY_AUTH_REGEX; ACL_SRC_ASN; ACL_DST_ASN; ACL_SNMP_COMMUNITY; ACL_MAXCONN;
   ACL_REQ_MIME_TYPE; ACL_REP_MIME_TYPE; ACL_REP_HEADER; ACL_REQ_HEADER; ACL_MAX_USER_IP;
   ACL_EXTERNAL; ACL_URLLOGIN].

Definition aclTypeToStr (type : squid_acl) : list Z :=
  bytes match type with
  | ACL_SRC_IP => "src" | ACL_DST_IP => "dst" | ACL_MY_IP => "myip"
  | ACL_DST_DOMAIN => "dstdomain" | ACL_SRC_DOMAIN => "srcdomain"
  | ACL_DST_DOM_REGEX => "dstdom_regex" | ACL_SRC_DOM_REGEX => "srcdom_regex" | ACL_TIME => "time"
  | ACL_URLPATH_REGEX => "urlpath_regex" | ACL_URL_REGEX => "url_regex" | ACL_URL_PORT => "port"
  | ACL_MY_PORT => "myport" | ACL_MAXCONN => "maxconn" | ACL_IDENT => "ident"
  | ACL_IDENT_REGEX => "ident_regex" | ACL_PROTO => "proto" | ACL_METHOD => "method"
  | ACL_BROWSER => "browser" | ACL_REFERER_REGEX => "referer_regex" | ACL_PROXY_AUTH => "proxy_auth"
  | ACL_PROXY_AUTH_REGEX => "proxy_auth_regex" | ACL_SRC_ASN => "src_as" | ACL_DST_ASN => "dst_as"
  | ACL_SNMP_COMMUNITY => "snmp_community" | ACL_REQ_MIME_TYPE => "req_mime_type"
  | ACL_REP_MIME_TYPE => "rep_mime_type" | ACL_REP_HEADER => "rep_header" | ACL_REQ_HEADER => "req_header"
  | ACL_MAX_USER_IP => "max_user_ip" | ACL_EXTERNAL => "external" | ACL_URLLOGIN => "urllogin"
  end.

(** The tests of [aclStrToType] in their order; [proto] is compared by its first five
    characters.  [None] is [ACL_NONE]. *)
Definition type_names : list (string * squid_acl) :=
  [("src", ACL_SRC_IP); ("dst", ACL_DST_IP); ("myip", ACL_MY_IP); ("domain", ACL_DST_DOMAIN);
   ("dstdomain", ACL_DST_DOMAIN); ("srcdomain", ACL_SRC_DOMAIN); ("dstdom_regex", ACL_DST_DOM_REGEX);
   ("srcdom_regex", ACL_SRC_DOM_REGEX); ("time", ACL_TIME); ("pattern", ACL_URLPATH_REGEX);
   ("urlpath_regex", ACL_URLPATH_REGEX); ("url_regex", ACL_URL_REGEX); ("port", ACL_URL_PORT);
   ("myport", ACL_MY_PORT); ("maxconn", ACL_MAXCONN); ("ident", ACL_IDENT); ("ident_regex", ACL_IDENT_REGEX)]%string.

Definition type_names' : list (string * squid_acl) :=
  [("method", ACL_METHOD); ("browser", ACL_BROWSER); ("referer_regex", ACL_REFERER_REGEX);
   ("proxy_auth", ACL_PROXY_AUTH); ("proxy_auth_regex", ACL_PROXY_AUTH_REGEX); ("src_as", ACL_SRC_ASN);
   ("dst_as", ACL_DST_ASN); ("snmp_community", ACL_SNMP_COMMUNITY); ("req_mime_type", ACL_REQ_MIME_TYPE);
   ("rep_mime_type", ACL_REP_MIME_TYPE); ("rep_header", ACL_REP_HEADER); ("req_header", ACL_REQ_HEADER);
   ("max_user_ip", ACL_MAX_USER_IP); ("external", ACL_EXTERNAL); ("urllogin", ACL_URLLOGIN)]%string.

Fixpoint lookup_name (s : list Z) (l : list (string * squid_acl)) : option squid_acl :=
  match l with
  | [] => None
  | (n, type) :: l => if bool_decide (s = bytes n) then Some type else lookup_name s l
  end.

Definition aclStrToType (s : list Z) : option squid_acl :=
  match lookup_name s type_names with
  | Some t => Some t
  | None => if prefixb (bytes "proto") s then Some ACL_PROTO else lookup_name s type_names'
  end.

Definition ACL_NAME_SZ : nat := 32.
Definition USER_IDENT_SZ : nat := 64.

Section Acl.

(** The pattern library, the resolver of the configuration and the local time of the
    clock; the table of method names; the external helpers of the configuration:
    how an element names one ([aclParseExternal]), whether it wants an
    authenticated user, and the key of a request ([makeExternalAclKey]). *)
Context {regex : Type}.
Context (regcomp : bool -> list Z -> option regex) (regexec : regex -> list Z -> bool).
Context (gethostbyname : list Z -> option (list Z)) (localtime : Z -> tm).
Context (methods : list (list Z)) (auth_configured : bool).

Record external := External { def : Z; require_auth : bool; arguments : list (list Z) }.
Context (find_external : list Z -> option (Z * bool)).

Record acl_hdr_data := HdrData { hdr_name : list Z; reglist : list regex }.

(** [void *data] with the type it is used at; [D_none] is a null pointer of an element
    whose data is a single record. *)
Inductive acl_data :=
| D_none
| D_ip (top : splayNode acl_ip_data)
| D_domain (top : splayNode (list Z))
| D_time (l : list acl_time_data)
| D_regex (l : list regex)
| D_header (l : list acl_hdr_data)
| D_int (l : list Z)
| D_range (l : list intrange)
| D_user (u : acl_user_data)
| D_words (l : list (list Z))
| D_max_ip (max : Z) (strict : bool)
| D_external (x : external).

Record acl := Acl { name : list Z; type : squid_acl; data : acl_data }.

Definition aclFindByName (aclList : list acl) (n : list Z) : option (nat * acl) :=
  list_find (fun a => strcasecmp_eq (name a) n = true) aclList.

(** ** Reading the configuration *)

(** The data of a new element. *)
Definition null_data (type : squid_acl) : acl_data :=
  match type with
  | ACL_SRC_IP | ACL_DST_IP | ACL_MY_IP => D_ip Null
  | ACL_SRC_DOMAIN | ACL_DST_DOMAIN => D_domain Null
  | ACL_TIME => D_time []
  | ACL_URL_REGEX | ACL_URLLOGIN | ACL_URLPATH_REGEX | ACL_BROWSER | ACL_REFERER_REGEX | ACL_SRC_DOM_REGEX
  | ACL_DST_DOM_REGEX | ACL_REQ_MIME_TYPE | ACL_REP_MIME_TYPE | ACL_IDENT_REGEX | ACL_PROXY_AUTH_REGEX => D_regex []
  | ACL_REP_HEADER | ACL_REQ_HEADER => D_header []
  | ACL_SRC_ASN | ACL_MAXCONN | ACL_DST_ASN | ACL_PROTO | ACL_METHOD => D_int []
  | ACL_URL_PORT | ACL_MY_PORT => D_range []
  | ACL_SNMP_COMMUNITY => D_words []
  | ACL_MAX_USER_IP | ACL_IDENT | ACL_PROXY_AUTH | ACL_EXTERNAL => D_none
  end.

Definition aclParseProtoList (words : list (list Z)) (l : list Z) : list Z :=
  l ++ map (fun t => proto_num (urlParseProtocol t)) words.
Definition aclParseMethodList (words : list (list Z)) (l : list Z) : list Z := l ++ map (urlParseMethod methods) words.

Definition aclParseHeader (words : list (list Z)) (l : list acl_hdr_data) : list acl_hdr_data :=
  match words with
  | [] => l
  | n :: words =>
      match aclParseRegexList regcomp words [] with
      | [] => l
      | r => l ++ [HdrData n r]
      end
  end.

(** Frees the headers of an element: the patterns that are freed, or [None] when a null
    pointer is read. *)
Fixpoint aclDestroyHeader (l : list acl_hdr_data) : option (list (list regex)) :=
  match l with
  | [] => Some []
  | q :: rest =>
      match reglist q, rest with
      | [], _ => aclDestroyHeader rest
      | _, [] => None
      | _, next :: _ => freed ← aclDestroyHeader rest; mret (reglist next :: freed)
      end
  end.

(** The helper, then its arguments. *)
Definition aclParseExternal (words : list (list Z)) : option external :=
  match words with
  | [] => None
  | n :: words => '(d, a) ← find_external n; mret (External d a words)
  end.

Definition aclParseUserMaxIP (words : list (list Z)) (d : acl_data) : parsed acl_data :=
  match d with
  | D_max_ip _ _ => Parsed d
  | _ =>
      match words with
      | [] => SelfDestruct
      | t :: words =>
          if bool_decide (bytes "-s" = t) then
            match words with [] => SelfDestruct | t :: _ => Parsed (D_max_ip (atoi t) true) end
          else Parsed (D_max_ip (atoi t) false)
      end
  end.

(** The data after a line, at the type of the element; data of another type is read
    as what it is not, which is left out of the model by [SelfDestruct]. *)
Definition parse_data (type : squid_acl) (words : list (list Z)) (d : acl_data) : parsed acl_data :=
  match type, d with
  | (ACL_SRC_IP | ACL_DST_IP | ACL_MY_IP), D_ip top =>
      parsed_bind (fun top => Parsed (D_ip top)) (aclParseIpList gethostbyname words top)
  | (ACL_SRC_DOMAIN | ACL_DST_DOMAIN), D_domain top => Parsed (D_domain (aclParseDomainList words top))
  | ACL_TIME, D_time l => parsed_bind (fun l => Parsed (D_time l)) (aclParseTimeSpec words l)
  | (ACL_URL_REGEX | ACL_URLLOGIN | ACL_URLPATH_REGEX | ACL_BROWSER | ACL_REFERER_REGEX | ACL_SRC_DOM_REGEX
    | ACL_DST_DOM_REGEX | ACL_REQ_MIME_TYPE | ACL_REP_MIME_TYPE | ACL_IDENT_REGEX), D_regex l =>
      Parsed (D_regex (aclParseRegexList regcomp words l))
  | (ACL_REP_HEADER | ACL_REQ_HEADER), D_header l => Parsed (D_header (aclParseHeader words l))
  | (ACL_SRC_ASN | ACL_MAXCONN | ACL_DST_ASN), D_int l => Parsed (D_int (aclParseIntlist words l))
  | ACL_MAX_USER_IP, (D_none | D_max_ip _ _) => aclParseUserMaxIP words d
  | (ACL_URL_PORT | ACL_MY_PORT), D_range l => Parsed (D_range (aclParseIntRange words l))
  | ACL_IDENT, D_none => Parsed (D_user (aclParseUserList words None))
  | ACL_IDENT, D_user u => Parsed (D_user (aclParseUserList words (Some u)))
  | ACL_PROTO, D_int l => Parsed (D_int (aclParseProtoList words l))
  | ACL_METHOD, D_int l => Parsed (D_int (aclParseMethodList words l))
  | ACL_PROXY_AUTH, D_none =>
      if auth_configured then Parsed (D_user (aclParseUserList words None)) else SelfDestruct
  | ACL_PROXY_AUTH, D_user u =>
      if auth_configured then Parsed (D_user (aclParseUserList words (Some u))) else SelfDestruct
  | ACL_PROXY_AUTH_REGEX, D_regex l =>
      if auth_configured then Parsed (D_regex (aclParseRegexList regcomp words l)) else SelfDestruct
  | ACL_SNMP_COMMUNITY, D_words l => Parsed (D_words (l ++ words))
  | ACL_EXTERNAL, D_none =>
      match aclParseExternal words with Some x => Parsed (D_external x) | None => SelfDestruct end
  | _, _ => SelfDestruct
  end.

(** The words of the line after [acl]. *)
Definition aclParseAclLine (words : list (list Z)) (head : list acl) : parsed (list acl) :=
  match words with
  | [] | [_] => SelfDestruct
  | n :: t :: words =>
      let aclname := take (pred ACL_NAME_SZ) n in
      match aclStrToType t with
      | None => SelfDestruct
      | Some acltype =>
          match aclFindByName head aclname with
          | None =>
              parsed_bind (fun d => Parsed (head ++ [Acl aclname acltype d]))
                (parse_data acltype words (null_data acltype))
          | Some (k, a) =>
              if bool_decide (acltype = type a) then
                parsed_bind (fun d => Parsed (<[k := Acl (name a) (type a) d]> head)) (parse_data acltype words (data a))
              else SelfDestruct
          end
      end
  end.

(** An element of a line: [op] is false for a negated one. *)
Record acl_list := AclList { op : bool; acl_ref : nat }.
Record acl_access := AclAccess { allow : bool; acls : list acl_list }.

Fixpoint aclParseAclList (aclList : list acl) (words : list (list Z)) : parsed (list acl_list) :=
  match words with
  | [] => Parsed []
  | t :: words =>
      let '(op, t) := match t with 33 :: t => (false, t) | _ => (true, t) end in
      match aclFindByName aclList t with
      | None => SelfDestruct
      | Some (k, _) => parsed_bind (fun l => Parsed (AclList op k :: l)) (aclParseAclList aclList words)
      end
  end.

Definition aclParseAccessLine (aclList : list acl) (words : list (list Z)) (head : list acl_access)
    : parsed (list acl_access) :=
  match words with
  | [] => Parsed head
  | t :: words =>
      let line allow :=
        parsed_bind (fun l => Parsed (match l with [] => head | _ => head ++ [AclAccess allow l] end))
          (aclParseAclList aclList words) in
      if bool_decide (t = bytes "allow") then line true
      else if bool_decide (t = bytes "deny") then line false
      else Parsed head
  end.

(** ** Matching *)

(** The headers of a request or reply by name. *)
Definition headers : Type := list Z -> option (list Z).

Record acl_request := AclRequest { r_url : request_t; r_accelerated : bool; r_header : headers }.

Inductive acl_lookup_state :=
| ACL_LOOKUP_NONE | ACL_LOOKUP_NEEDED | ACL_LOOKUP_PENDING | ACL_LOOKUP_DONE | ACL_PROXY_AUTH_NEEDED.

#[export] Instance acl_lookup_state_eq : EqDecision acl_lookup_state.
Proof. solve_decision. Defined.

(** What an external helper answered for a key, and the user it found. *)
Record external_acl_entry := ExtEntry { e_def : Z; e_key : list Z; e_result : Z; e_user : option (list Z) }.

(** [rfc931] is empty when the user is not known; [conn_rfc931] is [None] without a
    connection. *)
Record aclCheck_t := Checklist {
  request : option acl_request; reply : option headers; src_addr : Z; my_addr : Z; my_port : Z;
  snmp_community : list Z; rfc931 : list Z; conn_rfc931 : option (list Z); extacl_entry : option external_acl_entry;
  state : squid_acl -> acl_lookup_state }.

Context (makeExternalAclKey : aclCheck_t -> external -> option (list Z)).

Definition set_state (t : squid_acl) (v : acl_lookup_state) (c : aclCheck_t) : aclCheck_t :=
  Checklist (request c) (reply c) (src_addr c) (my_addr c) (my_port c) (snmp_community c) (rfc931 c)
    (conn_rfc931 c) (extacl_entry c) (fun u => if decide (u = t) then v else state c u).

Definition set_users (u : list Z) (conn : option (list Z)) (c : aclCheck_t) : aclCheck_t :=
  Checklist (request c) (reply c) (src_addr c) (my_addr c) (my_port c) (snmp_community c) u
    conn (extacl_entry c) (state c).

Definition set_extacl (e : option external_acl_entry) (c : aclCheck_t) : aclCheck_t :=
  Checklist (request c) (reply c) (src_addr c) (my_addr c) (my_port c) (snmp_community c) (rfc931 c)
    (conn_rfc931 c) e (state c).

Definition aclChecklistCreate (req : option acl_request) (rep : option headers) (src my port : Z) (snmp : list Z)
    (conn : option (list Z)) (ident : option (list Z)) : aclCheck_t :=
  Checklist req rep src my port snmp (take (pred USER_IDENT_SZ) (default [] ident)) conn None (fun _ => ACL_LOOKUP_NONE).

Inductive auth_acl_t := AUTH_ACL_CHALLENGE | AUTH_ACL_HELPER | AUTH_ACL_CANNOT_AUTHENTICATE | AUTH_AUTHENTICATED.

(** [authenticate] is given whether the header is [Proxy-Authorization];
    [external_cache] holds no expired entry. *)
Record world := World {
  ipcache_gethostbyname : list Z -> option (list Z);
  fqdncache_gethostbyaddr : Z -> option (list Z);
  squid_curtime : Z;
  clientdbEstablished : Z -> Z;
  as_numbers : Z -> list Z;
  authenticate : bool -> auth_acl_t;
  username : list Z;
  external_cache : Z -> list Z -> option external_acl_entry;
  external_overload : Z -> bool }.

(** What a check changes: the elements, the static time of [aclMatchTime], the results
    remembered for every user by the data of an element, the addresses a user was
    seen at, and the checklist. *)
Record st := St {
  elements : list acl; last_time : Z * tm; match_cache : gmap (list Z) (list (option nat * bool));
  user_ips : gmap (list Z) (list Z); chk : aclCheck_t }.

Definition set_data (k : nat) (d : acl_data) (s : st) : st :=
  St (alter (fun a => Acl (name a) (type a) d) k (elements s)) (last_time s) (match_cache s) (user_ips s) (chk s).
Definition set_chk (c : aclCheck_t) (s : st) : st := St (elements s) (last_time s) (match_cache s) (user_ips s) c.
Definition set_last (t : Z * tm) (s : st) : st := St (elements s) t (match_cache s) (user_ips s) (chk s).
Definition set_cache (u : list Z) (l : list (option nat * bool)) (s : st) : st :=
  St (elements s) (last_time s) (<[u := l]> (match_cache s)) (user_ips s) (chk s).
Definition set_ips (u : list Z) (l : list Z) (s : st) : st :=
  St (elements s) (last_time s) (match_cache s) (<[u := l]> (user_ips s)) (chk s).

Definition needs_request (t : squid_acl) : bool :=
  match t with
  | ACL_BROWSER | ACL_REFERER_REGEX | ACL_DST_ASN | ACL_DST_DOMAIN | ACL_DST_DOM_REGEX | ACL_DST_IP | ACL_MAX_USER_IP
  | ACL_METHOD | ACL_PROTO | ACL_PROXY_AUTH | ACL_PROXY_AUTH_REGEX | ACL_REP_MIME_TYPE | ACL_REQ_MIME_TYPE
  | ACL_REP_HEADER | ACL_REQ_HEADER | ACL_URLPATH_REGEX | ACL_URL_PORT | ACL_URL_REGEX | ACL_URLLOGIN => true
  | _ => false
  end.

Definition no_request : acl_request := AclRequest (Request 0 PROTO_NONE [] [] 0 [] false) false (fun _ => None).

(** What an element answers: whether it matches, its data, and the lookup that is
    needed before it can. *)
Record answer := Answer { matched : bool; new_data : acl_data; need : option squid_acl }.

Definition plain (wrap : acl_data) (b : bool) : answer := Answer b wrap None.

Definition match_ip_data (top : splayNode acl_ip_data) (c : Z) : answer :=
  let '(b, top) := aclMatchIp top c in plain (D_ip top) b.
Definition match_domain_data (top : splayNode (list Z)) (host : option (list Z)) : answer :=
  let '(b, top) := aclMatchDomainList top host in plain (D_domain top) b.
Definition match_regex_data (l : list regex) (word : option (list Z)) : answer :=
  let '(b, l) := aclMatchRegex regexec l word in plain (D_regex l) b.
Definition match_user_data (u : acl_user_data) (user : list Z) : answer :=
  let '(b, u) := aclMatchUser u (Some user) in plain (D_user u) b.

(** The loop over the addresses of a destination: up to the first that matches. *)
Fixpoint match_ips (top : splayNode acl_ip_data) (addrs : list Z) : answer :=
  match addrs with
  | [] => plain (D_ip top) false
  | a :: addrs =>
      let '(b, top) := aclMatchIp top a in
      if b then plain (D_ip top) true else match_ips top addrs
  end.

Definition asnMatchIp (as_numbers : Z -> list Z) (data : list Z) (addr : Z) : bool :=
  if addr =? no_addr then false
  else if addr =? 0 then false
  else existsb (fun a => existsb (fun b => a =? b) (as_numbers addr)) data.

(** The loop over the headers; the patterns of a header that matched are moved. *)
Fixpoint match_headers (l : list acl_hdr_data) (hdr : headers) : bool * list acl_hdr_data :=
  match l with
  | [] => (false, [])
  | h :: rest =>
      match hdr (hdr_name h) with
      | None => let '(b, rest) := match_headers rest hdr in (b, h :: rest)
      | Some v =>
          let '(b, r) := aclMatchRegex regexec (reglist h) (Some v) in
          if b then (true, HdrData (hdr_name h) r :: rest)
          else let '(b, rest) := match_headers rest hdr in (b, HdrData (hdr_name h) r :: rest)
      end
  end.

(** The name of an address, or what is compared instead: nothing yet when the lookup
    was not made, [none] when it has no name. *)
Inductive name_result := Name (n : list Z) | Look.

Definition fqdn_of (w : world) (s : acl_lookup_state) (a : Z) : name_result :=
  match fqdncache_gethostbyaddr w a with
  | Some n => Name n
  | None => if decide (s = ACL_LOOKUP_NONE) then Look else Name (bytes "none")
  end.

Definition unescaped (s : list Z) : list Z := cstr (rfc1738_unescape s).

(** The cases of [aclMatchAcl] that return 0 or 1; [None] is the failed assertion of an
    empty time, the null pointer of an empty [maxconn], or data of another type. *)
Definition match_data (w : world) (c : aclCheck_t) (t : squid_acl) (d : acl_data) : option answer :=
  let r := default no_request (request c) in
  let u := r_url r in
  let wait t := Some (Answer false d (Some t)) in
  match t, d with
  | ACL_SRC_IP, D_ip top => Some (match_ip_data top (src_addr c))
  | ACL_MY_IP, D_ip top => Some (match_ip_data top (my_addr c))
  | ACL_DST_IP, D_ip top =>
      match ipcache_gethostbyname w (host u) with
      | Some addrs => Some (match_ips top addrs)
      | None => if decide (state c ACL_DST_IP = ACL_LOOKUP_NONE) then wait ACL_DST_IP else Some (plain d false)
      end
  | ACL_DST_DOMAIN, D_domain top =>
      let a := match_domain_data top (Some (host u)) in
      if matched a then Some a
      else match safe_inet_addr (host u), new_data a with
           | Some addr, D_domain top =>
               match fqdn_of w (state c ACL_DST_DOMAIN) addr with
               | Name n => Some (match_domain_data top (Some n))
               | Look => Some (Answer false (new_data a) (Some ACL_DST_DOMAIN))
               end
           | _, _ => Some a
           end
  | ACL_SRC_DOMAIN, D_domain top =>
      match fqdn_of w (state c ACL_SRC_DOMAIN) (src_addr c) with
      | Name n => Some (match_domain_data top (Some n))
      | Look => wait ACL_SRC_DOMAIN
      end
  | ACL_DST_DOM_REGEX, D_regex l =>
      let a := match_regex_data l (Some (host u)) in
      if matched a then Some a
      else match safe_inet_addr (host u) with
           | Some addr =>
               match fqdn_of w (state c ACL_DST_DOMAIN) addr with
               | Name n => Some (match_regex_data l (Some n))
               | Look => wait ACL_DST_DOMAIN
               end
           | None => Some a
           end
  | ACL_SRC_DOM_REGEX, D_regex l =>
      match fqdn_of w (state c ACL_SRC_DOMAIN) (src_addr c) with
      | Name n => Some (match_regex_data l (Some n))
      | Look => wait ACL_SRC_DOMAIN
      end
  | ACL_URLPATH_REGEX, D_regex l => Some (match_regex_data l (Some (unescaped (urlpath u))))
  | ACL_URL_REGEX, D_regex l => Some (match_regex_data l (Some (unescaped (urlCanonical u))))
  | ACL_URLLOGIN, D_regex l => Some (match_regex_data l (Some (unescaped (login u))))
  | ACL_MAXCONN, D_int l => i ← head l; Some (plain d (i <? clientdbEstablished w (src_addr c)))
  | ACL_URL_PORT, D_range l => let '(b, l) := aclMatchIntegerRange l (port u) in Some (plain (D_range l) b)
  | ACL_MY_PORT, D_range l => let '(b, l) := aclMatchIntegerRange l (my_port c) in Some (plain (D_range l) b)
  | ACL_IDENT, D_user u =>
      match rfc931 c, conn_rfc931 c with
      | [], Some [] | [], None => wait ACL_IDENT
      | [], Some n => Some (match_user_data u n)
      | n, _ => Some (match_user_data u n)
      end
  | ACL_IDENT_REGEX, D_regex l =>
      match rfc931 c, conn_rfc931 c with
      | [], Some [] | [], None => wait ACL_IDENT
      | [], Some n => Some (match_regex_data l (Some n))
      | n, _ => Some (match_regex_data l (Some n))
      end
  | ACL_PROTO, D_int l => let '(b, l) := aclMatchInteger l (proto_num (protocol u)) in Some (plain (D_int l) b)
  | ACL_METHOD, D_int l => let '(b, l) := aclMatchInteger l (method u) in Some (plain (D_int l) b)
  | ACL_BROWSER, D_regex l => Some (match_regex_data l (r_header r (bytes "User-Agent")))
  | ACL_REFERER_REGEX, D_regex l => Some (match_regex_data l (r_header r (bytes "Referer")))
  | ACL_SNMP_COMMUNITY, D_words l => Some (plain d (existsb (fun k => strcmp_eq k (snmp_community c)) l))
  | ACL_SRC_ASN, D_int l => Some (plain d (asnMatchIp (as_numbers w) l (src_addr c)))
  | ACL_DST_ASN, D_int l =>
      match ipcache_gethostbyname w (host u) with
      | Some addrs => Some (plain d (existsb (asnMatchIp (as_numbers w) l) addrs))
      | None =>
          if decide (state c ACL_DST_ASN = ACL_LOOKUP_NONE) then wait ACL_DST_ASN
          else Some (plain d (asnMatchIp (as_numbers w) l no_addr))
      end
  | ACL_REQ_MIME_TYPE, D_regex l =>
      Some (match_regex_data l (Some (default [] (r_header r (bytes "Content-Type")))))
  | ACL_REP_MIME_TYPE, D_regex l =>
      match reply c with
      | None => Some (plain d false)
      | Some h => Some (match_regex_data l (Some (default [] (h (bytes "Content-Type")))))
      end
  | ACL_REP_HEADER, D_header l =>
      match reply c with
      | None => Some (plain d false)
      | Some h => let '(b, l) := match_headers l h in Some (plain (D_header l) b)
      end
  | ACL_REQ_HEADER, D_header l => let '(b, l) := match_headers l (r_header r) in Some (plain (D_header l) b)
  | _, _ => None
  end.

(** *** Users *)

(** What [aclAuthenticated] returns, and the state it sets. *)
Definition aclAuthenticated (w : world) (c : aclCheck_t) : Z * aclCheck_t :=
  match request c with
  | None => (-1, c)
  | Some r =>
      match authenticate w (negb (r_accelerated r)) with
      | AUTH_ACL_CANNOT_AUTHENTICATE => (0, c)
      | AUTH_AUTHENTICATED => (1, c)
      | AUTH_ACL_HELPER => (-1, set_state ACL_PROXY_AUTH ACL_LOOKUP_NEEDED c)
      | AUTH_ACL_CHALLENGE => (-1, set_state ACL_PROXY_AUTH ACL_PROXY_AUTH_NEEDED c)
      end
  end.

(** The results are found by the pointer to the data, which is null for a list without
    patterns. *)
Definition data_key (k : nat) (d : acl_data) : option nat :=
  match d with D_regex [] => None | _ => Some k end.

Definition aclCacheMatchAcl (cache : list (option nat * bool)) (k : nat) (d : acl_data) (user : list Z)
    : option (bool * acl_data * list (option nat * bool)) :=
  match list_find (fun e => e.1 = data_key k d) cache with
  | Some (_, e) => Some (e.2, d, cache)
  | None =>
      match d with
      | D_user u => let '(b, u) := aclMatchUser u (Some user) in Some (b, D_user u, cache ++ [(data_key k d, b)])
      | D_regex l => let '(b, l) := aclMatchRegex regexec l (Some user) in Some (b, D_regex l, cache ++ [(data_key k d, b)])
      | _ => None
      end
  end.

Definition aclMatchProxyAuth (w : world) (k : nat) (d : acl_data) (s : st) : option (Z * st) :=
  '(b, d', l) ← aclCacheMatchAcl (default [] (match_cache s !! username w)) k d (username w);
  mret (Z.b2z b, set_cache (username w) l (set_data k d' s)).

(** The addresses of a user: [authenticateAuthUserRequestRemoveIp], [...ClearIp]. *)
Fixpoint removeIp (addr : Z) (l : list Z) : list Z :=
  match l with
  | [] => []
  | a :: l => if a =? addr then l else a :: removeIp addr l
  end.

Definition aclMatchUserMaxIP (w : world) (max : Z) (strict : bool) (s : st) : Z * st :=
  let ips := default [] (user_ips s !! username w) in
  if Z.of_nat (length ips) <=? max then (0, s)
  else (1, set_ips (username w) (if strict then removeIp (src_addr (chk s)) ips else []) s).

(** *** External helpers *)

Definition aclMatchExternal (w : world) (acl : external) (ch : aclCheck_t) : Z * aclCheck_t :=
  let entry := extacl_entry ch in
  let ch := set_extacl None ch in
  let '(ti, ch) := if require_auth acl then aclAuthenticated w ch else (1, ch) in
  if negb (ti =? 1) then (ti, ch)
  else
    match makeExternalAclKey ch acl with
    | None => (-1, ch)
    | Some key =>
        let cached := external_cache w (def acl) key in
        let entry :=
          match entry with
          | Some e => if (e_def e =? def acl) && strcmp_eq (e_key e) key then Some e else cached
          | None => cached
          end in
        let needed := if external_overload w (def acl) then ch else set_state ACL_EXTERNAL ACL_LOOKUP_NEEDED ch in
        match entry with
        | None => (-1, needed)
        | Some e =>
            if e_result e =? -1 then (-1, needed)
            else
              (e_result e,
               match e_user e with
               | Some u => set_users (take (pred USER_IDENT_SZ) u) (fmap (fun _ => take (pred USER_IDENT_SZ) u) (conn_rfc931 ch)) ch
               | None => ch
               end)
        end
    end.

(** *** Elements and lines *)

Definition set_need (n : option squid_acl) (s : st) : st :=
  match n with
  | Some t => set_chk (set_state t ACL_LOOKUP_NEEDED (chk s)) s
  | None => s
  end.

(** [None]: the process dies. *)
Definition aclMatchAcl (w : world) (k : nat) (s : st) : option (Z * st) :=
  match elements s !! k with
  | None => Some (0, s)
  | Some ae =>
      if needs_request (type ae) && match request (chk s) with None => true | Some _ => false end then Some (0, s)
      else
        match type ae, data ae with
        | ACL_TIME, D_time l =>
            '(b, last) ← aclMatchTime localtime l (squid_curtime w) (last_time s); mret (Z.b2z b, set_last last s)
        | (ACL_PROXY_AUTH | ACL_PROXY_AUTH_REGEX), d =>
            let '(ti, c) := aclAuthenticated w (chk s) in
            if negb (ti =? 1) then Some (ti, set_chk c s) else aclMatchProxyAuth w k d (set_chk c s)
        | ACL_MAX_USER_IP, D_max_ip max strict =>
            let '(ti, c) := aclAuthenticated w (chk s) in
            if negb (ti =? 1) then Some (ti, set_chk c s) else Some (aclMatchUserMaxIP w max strict (set_chk c s))
        | ACL_EXTERNAL, D_external x => let '(r, c) := aclMatchExternal w x (chk s) in Some (r, set_chk c s)
        | t, d => a ← match_data w (chk s) t d; mret (Z.b2z (matched a), set_need (need a) (set_data k (new_data a) s))
        end
  end.

(** The answer, and the last element that was asked ([current_acl]). *)
Fixpoint aclMatchAclList (w : world) (l : list acl_list) (s : st) : option (Z * option nat * st) :=
  match l with
  | [] => Some (1, None, s)
  | e :: rest =>
      '(answer, s) ← aclMatchAcl w (acl_ref e) s;
      if answer =? Z.b2z (op e) then
        '(r, cur, s) ← aclMatchAclList w rest s;
        mret (r, match cur with None => Some (acl_ref e) | _ => cur end, s)
      else mret (0, Some (acl_ref e), s)
  end.

(** The part of [aclCheckCleanup] that concerns the model. *)
Definition aclCheckCleanup (s : st) : st := set_chk (set_extacl None (chk s)) s.

(** ** A check that answers at once *)

Fixpoint check_fast (w : world) (A : list acl_access) (last : bool) (s : st) : option (bool * st) :=
  match A with
  | [] => Some (negb last, aclCheckCleanup s)
  | a :: A =>
      '(answer, _, s) ← aclMatchAclList w (acls a) s;
      if answer =? 0 then check_fast w A (allow a) s
      else if answer <? 0 then mret (false, s)
      else mret (allow a, aclCheckCleanup s)
  end.

Definition aclCheckFast (w : world) (A : list acl_access) (s : st) : option (bool * st) := check_fast w A false s.

(** ** A check that waits *)

Inductive allow_t := ACCESS_DENIED | ACCESS_ALLOWED | ACCESS_REQ_PROXY_AUTH.

Inductive lookup :=
| Dst_IP (h : list Z) | Dst_ASN (h : list Z) | Src_FQDN (addr : Z) | Dst_FQDN (addr : Z) | Proxy_auth | Ident
| External_acl (x : external).

(** [Waits]: a lookup was started with a callback that calls [aclCheck] again;
    [Stuck]: the call returned without a callback or a lookup. *)
Inductive outcome := Answered (a : allow_t) | Waits (l : lookup) | Stuck.

(** The lookup that a state asks for, with the new state; [inl] when the answer is
    decided instead: for the authentication challenge, or an [ident] lookup without
    a connection. *)
Inductive pending := Nothing | Decided (a : allow_t) | Start (o : outcome) (c : aclCheck_t) | Dies.

Definition next_lookup (es : list acl) (cur : option nat) (c : aclCheck_t) : pending :=
  let h := host (r_url (default no_request (request c))) in
  if decide (state c ACL_DST_IP = ACL_LOOKUP_NEEDED) then Start (Waits (Dst_IP h)) (set_state ACL_DST_IP ACL_LOOKUP_PENDING c)
  else if decide (state c ACL_DST_ASN = ACL_LOOKUP_NEEDED) then
    Start (Waits (Dst_ASN h)) (set_state ACL_DST_ASN ACL_LOOKUP_PENDING c)
  else if decide (state c ACL_SRC_DOMAIN = ACL_LOOKUP_NEEDED) then
    Start (Waits (Src_FQDN (src_addr c))) (set_state ACL_SRC_DOMAIN ACL_LOOKUP_PENDING c)
  else if decide (state c ACL_DST_DOMAIN = ACL_LOOKUP_NEEDED) then
    match safe_inet_addr h with
    | None => Start Stuck (set_state ACL_DST_DOMAIN ACL_LOOKUP_DONE c)
    | Some a => Start (Waits (Dst_FQDN a)) (set_state ACL_DST_DOMAIN ACL_LOOKUP_PENDING c)
    end
  else if decide (state c ACL_PROXY_AUTH = ACL_LOOKUP_NEEDED) then
    Start (Waits Proxy_auth) (set_state ACL_PROXY_AUTH ACL_LOOKUP_PENDING c)
  else if decide (state c ACL_PROXY_AUTH = ACL_PROXY_AUTH_NEEDED) then Decided ACCESS_REQ_PROXY_AUTH
  else if decide (state c ACL_IDENT = ACL_LOOKUP_NEEDED) then
    match conn_rfc931 c with
    | Some _ => Start (Waits Ident) (set_state ACL_IDENT ACL_LOOKUP_PENDING c)
    | None => Decided ACCESS_DENIED
    end
  else if decide (state c ACL_EXTERNAL = ACL_LOOKUP_NEEDED) then
    match cur ≫= (es !!.) with
    | Some (Acl _ ACL_EXTERNAL (D_external x)) => Start (Waits (External_acl x)) c
    | _ => Dies
    end
  else Nothing.

(** The lines that are left, from the current one, and the action of the last line. *)
Fixpoint check_lines (w : world) (A : list acl_access) (last : allow_t) (s : st)
    : option (outcome * list acl_access * st) :=
  match A with
  | [] => Some (Answered (match last with ACCESS_DENIED => ACCESS_ALLOWED | _ => ACCESS_DENIED end), [], aclCheckCleanup s)
  | a :: rest =>
      '(answer, cur, s) ← aclMatchAclList w (acls a) s;
      let act := if answer =? -1 then ACCESS_DENIED else if allow a then ACCESS_ALLOWED else ACCESS_DENIED in
      match next_lookup (elements s) cur (chk s) with
      | Start o c => mret (o, A, set_chk c s)
      | Decided act => mret (Answered act, [], aclCheckCleanup s)
      | Dies => None
      | Nothing =>
          if answer =? 0 then check_lines w rest act s
          else mret (Answered act, [], aclCheckCleanup s)
      end
  end.

(** [valid]: the lines were not freed by a new configuration. *)
Definition aclCheck (w : world) (valid : bool) (A : list acl_access) (s : st) : option (outcome * list acl_access * st) :=
  check_lines w (if valid then A else []) ACCESS_DENIED s.

(** The callbacks, before they call [aclCheck]. *)
Definition aclLookupDone (t : squid_acl) (s : st) : st := set_chk (set_state t ACL_LOOKUP_DONE (chk s)) s.

Definition aclLookupIdentDone (ident : option (list Z)) (s : st) : st :=
  let c := chk s in
  let u := take (pred USER_IDENT_SZ) (default [45] ident) in
  set_chk (set_users u (match conn_rfc931 c with Some [] => Some u | o => o end) c) s.

Definition aclLookupExternalDone (e : option external_acl_entry) (s : st) : st :=
  set_chk (set_extacl e (set_state ACL_EXTERNAL ACL_LOOKUP_DONE (chk s))) s.

End Acl.
