(* ===== verification/AclCheck.v ===== *)
(** * What the checks of access lists answer

    The theorems on Acl.v.  [elem_matches] says what an element means without the state
    that matching turns and moves: entries of a tree or list of which one contains
    what is asked, names of addresses or [none], the user that [ident] gave.
    [policy] is the answer of a list of lines: the action of the first line of which
    every element matches as it is marked, or the opposite of the last line's.

    The checks implement it: [aclCheckFast] when what it asks for is known, [aclCheck]
    after at most five lookups, whatever earlier checks did to the elements. *)

From S2P Require Import Prelude CString Dns Splay Escape Url AclData Acl.

Section AclCheck.

Context {regex : Type}.
Context (regexec : regex -> list Z -> bool) (localtime : Z -> tm).
Context (makeExternalAclKey : aclCheck_t -> external -> option (list Z)).

Abbreviation acl := (@acl regex).
Abbreviation acl_data := (@acl_data regex).
Abbreviation st := (@st regex).
Abbreviation match_data := (match_data regexec).
Abbreviation aclMatchAcl := (aclMatchAcl regexec localtime makeExternalAclKey).
Abbreviation aclMatchAclList := (aclMatchAclList regexec localtime makeExternalAclKey).
Abbreviation check_fast := (check_fast regexec localtime makeExternalAclKey).
Abbreviation aclCheckFast := (aclCheckFast regexec localtime makeExternalAclKey).
Abbreviation check_lines := (check_lines regexec localtime makeExternalAclKey).
Abbreviation aclCheck := (aclCheck regexec localtime makeExternalAclKey).

(** ** What the data of an element means *)

Definition ip_match (top : splayNode acl_ip_data) (x : Z) : bool :=
  existsb (fun e => (addr1 e <=? Z.land x (mask e)) && (Z.land x (mask e) <=? last_net e)) (walk top).

Definition domain_match (top : splayNode (list Z)) (h : list Z) : bool :=
  existsb (fun d => bool_decide (lowered h = lowered d)
                    || bool_decide (wild d) && bool_decide ((46 :: lowered d) `suffix_of` lowered h)) (walk top).

Definition user_match (u : acl_user_data) (n : list Z) : bool :=
  negb (bool_decide (n = bytes "-")) && (required u || bool_decide (as_user u n ∈ walk (names u))).

Definition regex_match (l : list regex) (word : option (list Z)) : bool :=
  match word with Some w => existsb (fun q => regexec q w) l | None => false end.

Definition header_match (l : list (@acl_hdr_data regex)) (hdr : headers) : bool :=
  existsb (fun h => regex_match (reglist h) (hdr (hdr_name h))) l.

(** The same data, turned and moved: the first of a list of numbers stays. *)
Definition same_header (h h' : @acl_hdr_data regex) : Prop := hdr_name h = hdr_name h' /\ (reglist h : list regex) ≡ₚ reglist h'.

Definition same (d d' : acl_data) : Prop :=
  match d, d' with
  | D_ip t, D_ip t' => walk t = walk t'
  | D_domain t, D_domain t' => walk t = walk t'
  | D_user u, D_user u' =>
      walk (names u) = walk (names u') /\ case_insensitive u = case_insensitive u' /\ required u = required u'
  | D_regex l, D_regex l' => l ≡ₚ l'
  | D_header l, D_header l' => Forall2 same_header l l'
  | D_int l, D_int l' => l ≡ₚ l' /\ head l = head l'
  | D_range l, D_range l' => l ≡ₚ l'
  | D_time l, D_time l' => l = l'
  | D_words l, D_words l' => l = l'
  | D_max_ip m s, D_max_ip m' s' => m = m' /\ s = s'
  | D_external x, D_external x' => x = x'
  | D_none, D_none => True
  | _, _ => False
  end.

(** The trees are in order. *)
Definition data_ok (d : acl_data) : Prop :=
  match d with
  | D_ip t => tree_ok (walk t)
  | D_domain t => tree_ok (H:=domain_intervals) (walk t)
  | D_user u => users_ok u
  | _ => True
  end.

(** The data that an element of a type has after its first line. *)
Definition fits (t : squid_acl) (d : acl_data) : bool :=
  match t, d with
  | (ACL_SRC_IP | ACL_DST_IP | ACL_MY_IP), D_ip _ => true
  | (ACL_SRC_DOMAIN | ACL_DST_DOMAIN), D_domain _ => true
  | ACL_TIME, D_time _ => true
  | (ACL_URL_REGEX | ACL_URLLOGIN | ACL_URLPATH_REGEX | ACL_BROWSER | ACL_REFERER_REGEX | ACL_SRC_DOM_REGEX
    | ACL_DST_DOM_REGEX | ACL_REQ_MIME_TYPE | ACL_REP_MIME_TYPE | ACL_IDENT_REGEX | ACL_PROXY_AUTH_REGEX), D_regex _ => true
  | (ACL_REP_HEADER | ACL_REQ_HEADER), D_header _ => true
  | (ACL_SRC_ASN | ACL_MAXCONN | ACL_DST_ASN | ACL_PROTO | ACL_METHOD), D_int _ => true
  | (ACL_URL_PORT | ACL_MY_PORT), D_range _ => true
  | ACL_SNMP_COMMUNITY, D_words _ => true
  | (ACL_IDENT | ACL_PROXY_AUTH), D_user _ => true
  | ACL_MAX_USER_IP, D_max_ip _ _ => true
  | ACL_EXTERNAL, D_external _ => true
  | _, _ => false
  end.

(** An element that was declared with nothing to match. *)
Definition empty_decl (a : acl) : bool :=
  match type a, data a with
  | ACL_TIME, D_time [] => true
  | ACL_MAXCONN, D_int [] => true
  | _, _ => false
  end.

Lemma same_data_refl d : same d d.
Proof. destruct d; cbn; try done. by induction l; constructor. Qed.

Lemma same_data_trans d d' d'' : same d d' -> same d' d'' -> same d d''.
Proof.
  destruct d, d'; cbn; try done; destruct d''; cbn; try done; intros; destruct_and?; subst; try done.
  - by etrans.
  - by etrans.
  - by etrans.
  - revert l1 H0. induction H as [|x y l l' [H1 H2] _ IH]; intros l1 H; inversion_clear H; constructor; [|by apply IH].
    destruct H0. split; by etrans.
  - split; by etrans.
  - by etrans.
  - split_and!; congruence.
Qed.

Lemma same_fits t d d' : same d d' -> fits t d = fits t d'.
Proof. by destruct d, d'. Qed.

Lemma same_ok d d' : same d d' -> data_ok d -> data_ok d'.
Proof.
  destruct d, d'; cbn; try done; [by intros -> | by intros -> |]. intros (E1 & E2 & _) [H1 H2].
  split; rewrite <- ?E1, <- ?E2; done.
Qed.

(** An answer that is known: [b], without a lookup, of the same data. *)
Definition found (d0 : acl_data) (a : answer) (b : bool) : Prop :=
  matched a = b /\ need a = None /\ same d0 (new_data a).

Lemma existsb_iff {A} (p : A -> bool) (P : A -> Prop) l :
  (forall x, x ∈ l -> p x = true <-> P x) -> existsb p l = true <-> exists x, x ∈ l /\ P x.
Proof.
  intros H. rewrite existsb_exists. split; intros (x & Hx & Hp); exists x.
  - apply list_elem_of_In in Hx. split; [done | by apply H].
  - split; [by apply list_elem_of_In | by apply H].
Qed.

Lemma bool_iff (a b : bool) : (a = true <-> b = true) -> a = b.
Proof. destruct a, b; intuition congruence. Qed.

Lemma ip_match_iff top x : ip_match top x = true <-> exists e, e ∈ walk top /\ ip_in x e.
Proof. apply existsb_iff. intros e _. unfold ip_in. rewrite andb_true_iff, !Z.leb_le. done. Qed.

Lemma domain_match_iff top h : domain_match top h = true <-> exists d, d ∈ walk top /\ domain_in h d.
Proof.
  apply existsb_iff. intros d _. unfold domain_in. rewrite orb_true_iff, andb_true_iff, !bool_decide_eq_true. done.
Qed.

Lemma match_ip_found t0 t x :
  walk t0 = walk t -> tree_ok (walk t0) -> ip_key x -> found (D_ip t0) (match_ip_data t x) (ip_match t0 x).
Proof.
  intros E Hok Hx. rewrite E in Hok. destruct (match_ip_spec t x Hx Hok) as [H1 H2]. unfold match_ip_data.
  destruct (aclMatchIp t x) as [b t']. cbn in *. split; [|split; [done | cbn; congruence]].
  apply bool_iff. rewrite H1, ip_match_iff, E. done.
Qed.

Lemma match_ips_found t0 t addrs :
  walk t0 = walk t -> tree_ok (walk t0) -> Forall ip_key addrs ->
  found (D_ip t0) (match_ips t addrs) (existsb (ip_match t0) addrs).
Proof.
  intros E Hok Ha. revert t E. induction Ha as [|x addrs Hx _ IH]; intros t E; [done|]. cbn [match_ips existsb].
  destruct (match_ip_found t0 t x E Hok Hx) as (H1 & _ & H2). unfold match_ip_data in *.
  destruct (aclMatchIp t x) as [b t']. cbn in H1, H2. subst b. destruct (ip_match t0 x); [done | by apply IH].
Qed.

Lemma match_domain_found t0 t h :
  walk t0 = walk t -> tree_ok (H:=domain_intervals) (walk t0) -> host_ok h ->
  found (D_domain t0) (match_domain_data t (Some h)) (domain_match t0 h).
Proof.
  intros E Hok Hh. rewrite E in Hok. destruct (match_domain_spec t h Hh Hok) as [H1 H2]. unfold match_domain_data.
  destruct (aclMatchDomainList t (Some h)) as [b t']. cbn in *. split; [|split; [done | cbn; congruence]].
  apply bool_iff. rewrite H1, domain_match_iff, E. done.
Qed.

Lemma match_regex_found l0 l word :
  l0 ≡ₚ l -> found (D_regex l0) (match_regex_data regexec l word) (regex_match l0 word).
Proof.
  intros E. unfold match_regex_data, regex_match. destruct word as [w|]; cbn; [|done].
  destruct (match_list_spec (fun q => regexec q w) l) as [H1 H2]. destruct (match_list _ l) as [b l']. cbn in *.
  split; [|split; [done | cbn; by rewrite E]]. cbn. rewrite H1. symmetry. by apply existsb_perm.
Qed.

Lemma match_user_found u0 u n :
  same (D_user u0) (D_user u) -> users_ok u0 -> is_name n ->
  found (D_user u0) (match_user_data u n) (user_match u0 n).
Proof.
  intros E Hok Hn. pose proof (same_ok _ _ E Hok) as Hu. destruct E as (E1 & E2 & E3).
  destruct (user_acl_correct u n Hu Hn) as (H1 & _ & H2 & H3 & H4). unfold match_user_data.
  destruct (aclMatchUser u (Some n)) as [b u']. cbn in *. split; [|split; [done | cbn; split_and!; congruence]].
  apply bool_iff. rewrite H1. unfold user_match, as_user.
  rewrite andb_true_iff, negb_true_iff, bool_decide_eq_false, orb_true_iff, bool_decide_eq_true, E1, E2, E3. done.
Qed.

Lemma match_list_head {A} (p : A -> bool) l : head (match_list p l).2 = head l.
Proof.
  destruct l as [|a l]; [done|]. cbn. destruct (p a); [done|]. by destruct (extract p l) as [[x r]|].
Qed.

Lemma match_headers_found l0 l hdr :
  Forall2 same_header l0 l ->
  (match_headers regexec l hdr).1 = header_match l0 hdr /\ Forall2 same_header l0 (match_headers regexec l hdr).2.
Proof.
  induction 1 as [|h0 h l0 l [E1 E2] Hl [IH1 IH2]]; [by split; [|constructor]|]. unfold header_match in *. cbn.
  rewrite <- E1. destruct (hdr (hdr_name h0)) as [v|] eqn:Ev; cbn.
  - destruct (match_list_spec (fun q => regexec q v) (reglist h)) as [H1 H2].
    destruct (match_list _ (reglist h)) as [b r]. cbn in *. rewrite (existsb_perm _ _ _ E2). subst b.
    destruct (existsb (fun q : regex => regexec q v) (reglist h)); cbn.
    + split; [done|]. constructor; [|done]. split; [done | cbn; by rewrite E2].
    + destruct (match_headers regexec l hdr) as [b rest]. cbn in *. split; [done|]. constructor; [|done]. split; [done | cbn; by rewrite E2].
  - destruct (match_headers regexec l hdr) as [b rest]. cbn in *. split; [done|]. constructor; [|done]. by split.
Qed.

(** ** What an element means *)

Definition fqdn (w : world) (a : Z) : list Z := default (bytes "none") (fqdncache_gethostbyaddr w a).

(** The user that is known: by the checklist, or by the connection. *)
Definition user (c : aclCheck_t) : list Z := match rfc931 c with [] => default [] (conn_rfc931 c) | n => n end.

Definition authenticated (w : world) (r : acl_request) : bool :=
  match authenticate w (negb (r_accelerated r)) with AUTH_AUTHENTICATED => true | _ => false end.

Definition user_data_match (d : acl_data) (n : list Z) : bool :=
  match d with
  | D_user u => user_match u n
  | D_regex l => regex_match l (Some n)
  | _ => false
  end.

(** With every lookup done, for a request and the user [u] that [ident] gave. *)
Definition data_matches (w : world) (c : aclCheck_t) (u : list Z) (t : squid_acl) (d : acl_data) : bool :=
  let r := default no_request (request c) in
  let url := r_url r in
  let h := host url in
  let by_addr p := match safe_inet_addr h with Some a => p (fqdn w a) | None => false end in
  match t, d with
  | ACL_SRC_IP, D_ip top => ip_match top (src_addr c)
  | ACL_MY_IP, D_ip top => ip_match top (my_addr c)
  | ACL_DST_IP, D_ip top => existsb (ip_match top) (default [] (ipcache_gethostbyname w h))
  | ACL_DST_DOMAIN, D_domain top => domain_match top h || by_addr (domain_match top)
  | ACL_SRC_DOMAIN, D_domain top => domain_match top (fqdn w (src_addr c))
  | ACL_DST_DOM_REGEX, D_regex l => regex_match l (Some h) || by_addr (fun n => regex_match l (Some n))
  | ACL_SRC_DOM_REGEX, D_regex l => regex_match l (Some (fqdn w (src_addr c)))
  | ACL_TIME, D_time l => existsb (time_match (localtime (squid_curtime w))) l
  | ACL_URLPATH_REGEX, D_regex l => regex_match l (Some (unescaped (urlpath url)))
  | ACL_URL_REGEX, D_regex l => regex_match l (Some (unescaped (urlCanonical url)))
  | ACL_URLLOGIN, D_regex l => regex_match l (Some (unescaped (login url)))
  | ACL_MAXCONN, D_int l => match head l with Some i => i <? clientdbEstablished w (src_addr c) | None => false end
  | ACL_URL_PORT, D_range l => existsb (fun x => (ir_i x <=? port url) && (port url <=? ir_j x)) l
  | ACL_MY_PORT, D_range l => existsb (fun x => (ir_i x <=? my_port c) && (my_port c <=? ir_j x)) l
  | (ACL_IDENT | ACL_IDENT_REGEX), _ => user_data_match d u
  | ACL_PROTO, D_int l => existsb (fun x => x =? proto_num (protocol url)) l
  | ACL_METHOD, D_int l => existsb (fun x => x =? method url) l
  | ACL_BROWSER, D_regex l => regex_match l (r_header r (bytes "User-Agent"))
  | ACL_REFERER_REGEX, D_regex l => regex_match l (r_header r (bytes "Referer"))
  | (ACL_PROXY_AUTH | ACL_PROXY_AUTH_REGEX), _ => authenticated w r && user_data_match d (username w)
  | ACL_SNMP_COMMUNITY, D_words l => bool_decide (snmp_community c ∈ l)
  | ACL_SRC_ASN, D_int l => asnMatchIp (as_numbers w) l (src_addr c)
  | ACL_DST_ASN, D_int l => existsb (asnMatchIp (as_numbers w) l) (default [] (ipcache_gethostbyname w h))
  | ACL_REQ_MIME_TYPE, D_regex l => regex_match l (Some (default [] (r_header r (bytes "Content-Type"))))
  | ACL_REP_MIME_TYPE, D_regex l =>
      match reply c with Some hs => regex_match l (Some (default [] (hs (bytes "Content-Type")))) | None => false end
  | ACL_REP_HEADER, D_header l => match reply c with Some hs => header_match l hs | None => false end
  | ACL_REQ_HEADER, D_header l => header_match l (r_header r)
  | _, _ => false
  end.

Definition elem_matches (w : world) (c : aclCheck_t) (u : list Z) (a : acl) : bool :=
  match request c with
  | None => if needs_request (type a) then false else data_matches w c u (type a) (data a)
  | Some _ => data_matches w c u (type a) (data a)
  end.

(** What the rest of the program gives: addresses of 32 bits, host names that are not
    empty, a user whose authentication is settled. *)
Record env_ok (w : world) (c : aclCheck_t) (u : list Z) : Prop := {
  env_src : ip_key (src_addr c);
  env_my : ip_key (my_addr c);
  env_ips h l : ipcache_gethostbyname w h = Some l -> Forall ip_key l;
  env_names a n : fqdncache_gethostbyaddr w a = Some n -> host_ok n;
  env_host r : request c = Some r -> host_ok (host (r_url r));
  env_now : squid_curtime w <> 0;
  env_user : is_name u;
  env_known : user c <> [] -> user c = u;
  env_login : is_name (username w);
  env_auth h : authenticate w h = AUTH_AUTHENTICATED \/ authenticate w h = AUTH_ACL_CANNOT_AUTHENTICATE }.

Lemma fqdn_ok w c u a : env_ok w c u -> host_ok (fqdn w a).
Proof.
  intros H. unfold fqdn. destruct (fqdncache_gethostbyaddr w a) eqn:E; cbn [default]; [by eapply env_names|].
  apply host_ok_sound. vm_compute. reflexivity.
Qed.

(** The lookup that a checklist may be made to ask for: one that was not made, of what
    the caches do not know; the user, whenever he is not known. *)
Definition asks (w : world) (c : aclCheck_t) (n : squid_acl) : Prop :=
  let h := host (r_url (default no_request (request c))) in
  match n with
  | ACL_DST_IP | ACL_DST_ASN => state c n = ACL_LOOKUP_NONE /\ ipcache_gethostbyname w h = None
  | ACL_SRC_DOMAIN => state c n = ACL_LOOKUP_NONE /\ fqdncache_gethostbyaddr w (src_addr c) = None
  | ACL_DST_DOMAIN =>
      state c n = ACL_LOOKUP_NONE /\ exists a, safe_inet_addr h = Some a /\ fqdncache_gethostbyaddr w a = None
  | ACL_IDENT => user c = []
  | _ => False
  end.

Definition lookups : list squid_acl := [ACL_DST_IP; ACL_DST_ASN; ACL_SRC_DOMAIN; ACL_DST_DOMAIN; ACL_IDENT].

Definition wants (c : aclCheck_t) : Prop := exists n, n ∈ lookups /\ state c n = ACL_LOOKUP_NEEDED.

Lemma wants_dec c : wants c \/ ~ wants c.
Proof.
  destruct (decide (Exists (fun n => state c n = ACL_LOOKUP_NEEDED) lookups)) as [H|H]; rewrite Exists_exists in H; [by left | by right].
Qed.

(** The caches of [w] hold entries of those of [W], and the rest is the same. *)
Record below (w W : world) : Prop := {
  below_ips h l : ipcache_gethostbyname w h = Some l -> ipcache_gethostbyname W h = Some l;
  below_names a n : fqdncache_gethostbyaddr w a = Some n -> fqdncache_gethostbyaddr W a = Some n;
  below_now : squid_curtime w = squid_curtime W;
  below_clients : clientdbEstablished w = clientdbEstablished W;
  below_asn : as_numbers w = as_numbers W;
  below_auth : authenticate w = authenticate W;
  below_login : username w = username W }.

(** The caches agree with [W] on what the lookup [n] of a checklist asks. *)
Definition agrees (w W : world) (c : aclCheck_t) (n : squid_acl) : Prop :=
  let h := host (r_url (default no_request (request c))) in
  match n with
  | ACL_DST_IP | ACL_DST_ASN => ipcache_gethostbyname w h = ipcache_gethostbyname W h
  | ACL_SRC_DOMAIN => fqdncache_gethostbyaddr w (src_addr c) = fqdncache_gethostbyaddr W (src_addr c)
  | ACL_DST_DOMAIN => forall a, safe_inet_addr h = Some a -> fqdncache_gethostbyaddr w a = fqdncache_gethostbyaddr W a
  | _ => True
  end.

(** [w] is on the way to [W]: a lookup that was made found what [W] says. *)
Definition settled (w W : world) (c : aclCheck_t) : Prop :=
  below w W /\ forall n, state c n = ACL_LOOKUP_NONE \/ state c n = ACL_LOOKUP_NEEDED \/ agrees w W c n.

Lemma env_below w W c u : below w W -> env_ok W c u -> env_ok w c u.
Proof.
  intros [B1 B2 B3 B4 B5 B6 B7] [E1 E2 E3 E4 E5 E6 E7 E8 E9 E10].
  split; rewrite ?B3, ?B7; try done; [intros h l H; by eapply E3, B1 | intros a n H; by eapply E4, B2 | intros h; rewrite B6; apply E10].
Qed.

(** What is cached is what [W] says; what is not, the lookup of [n] would ask for. *)
Lemma settled_ips w W c n :
  settled w W c -> ~ wants c -> n = ACL_DST_IP \/ n = ACL_DST_ASN ->
  let h := host (r_url (default no_request (request c))) in
  ipcache_gethostbyname w h = ipcache_gethostbyname W h \/ ipcache_gethostbyname w h = None /\ state c n = ACL_LOOKUP_NONE.
Proof.
  intros [B Hs] Hw Hn h. destruct (ipcache_gethostbyname w h) as [l|] eqn:E; [left; symmetry; by apply B|].
  destruct (Hs n) as [H|[H|H]]; [by right | exfalso; apply Hw; exists n; split; [|done]; unfold lookups; set_solver | left].
  rewrite <- E. by destruct Hn as [-> | ->].
Qed.

Lemma settled_name w W c n a :
  settled w W c -> ~ wants c ->
  n = ACL_SRC_DOMAIN /\ a = src_addr c \/ n = ACL_DST_DOMAIN /\ safe_inet_addr (host (r_url (default no_request (request c)))) = Some a ->
  fqdn w a = fqdn W a \/ fqdn_of w (state c n) a = Look.
Proof.
  intros [B Hs] Hw Hn. unfold fqdn, fqdn_of. destruct (fqdncache_gethostbyaddr w a) as [m|] eqn:E; [left; by rewrite (below_names _ _ B _ _ E)|].
  destruct (Hs n) as [H|[H|H]].
  - right. by rewrite decide_True.
  - exfalso. apply Hw. exists n. split; [|done]. unfold lookups. set_solver.
  - left. rewrite <- E. by destruct Hn as [[-> ->]|[-> Ha]]; cbn in H; [rewrite H | rewrite (H a Ha)].
Qed.

(** The known answer, or a lookup that is asked for with the answer 0. *)
Definition answered (w : world) (c : aclCheck_t) (d0 : acl_data) (b : bool) (a : answer) : Prop :=
  same d0 (new_data a) /\
  match need a with None => matched a = b | Some n => asks w c n /\ matched a = false end.

Lemma found_answered w c d0 a b : found d0 a b -> answered w c d0 b a.
Proof. intros (H1 & H2 & H3). split; [done | by rewrite H2]. Qed.

(** The elements that [match_data] answers for. *)
Definition by_data (t : squid_acl) : bool :=
  match t with
  | ACL_TIME | ACL_PROXY_AUTH | ACL_PROXY_AUTH_REGEX | ACL_MAX_USER_IP | ACL_EXTERNAL => false
  | _ => true
  end.

Lemma match_int_found l0 l i :
  same (D_int l0) (D_int l) ->
  found (D_int l0) (let '(b, l) := aclMatchInteger l i in plain (D_int l) b) (existsb (fun x => x =? i) l0).
Proof.
  intros [H1 H2]. unfold aclMatchInteger. destruct (match_list_spec (fun x => x =? i) l) as [H3 H4].
  pose proof (match_list_head (fun x => x =? i) l) as H5. destruct (match_list _ l) as [b l']. cbn in *.
  split; [cbn; rewrite H3; symmetry; by apply existsb_perm|]. split; [done|]. cbn. split; [by rewrite H1 | congruence].
Qed.

Lemma match_range_found l0 l i :
  l0 ≡ₚ l ->
  found (D_range l0) (let '(b, l) := aclMatchIntegerRange l i in plain (D_range l) b)
    (existsb (fun x => (ir_i x <=? i) && (i <=? ir_j x)) l0).
Proof.
  intros H1. unfold aclMatchIntegerRange.
  match goal with |- context [match_list ?p l] => destruct (match_list_spec p l) as [H3 H4]; destruct (match_list p l) as [b l'] end.
  cbn in *. split; [|split; [done | cbn; by rewrite H1]]. cbn. rewrite H3, (existsb_perm _ _ _ H1).
  apply bool_iff. rewrite !existsb_exists. setoid_rewrite andb_true_iff. setoid_rewrite negb_true_iff.
  setoid_rewrite Z.ltb_ge. by setoid_rewrite Z.leb_le.
Qed.

Lemma asn_no_addr f l : asnMatchIp f l no_addr = false.
Proof. done. Qed.

Lemma asn_perm f l0 l x : l0 ≡ₚ l -> asnMatchIp f l x = asnMatchIp f l0 x.
Proof. intros H. unfold asnMatchIp. destruct (x =? no_addr), (x =? 0); try done. symmetry. by apply existsb_perm. Qed.

Lemma existsb_eq {A} (p q : A -> bool) l : (forall x, p x = q x) -> existsb p l = existsb q l.
Proof. intros H. induction l as [|x l IH]; cbn; [done | by rewrite H, IH]. Qed.

(** What compares a name of an address, or asks for it. *)
Lemma fqdn_answered w c t a d0 (d : acl_data) (p : list Z -> bool) (f : list Z -> answer) :
  (state c t = ACL_LOOKUP_NONE -> fqdncache_gethostbyaddr w a = None -> asks w c t) ->
  same d0 d ->
  found d0 (f (fqdn w a)) (p (fqdn w a)) ->
  exists x, match fqdn_of w (state c t) a with Name n => Some (f n) | Look => Some (Answer false d (Some t)) end = Some x /\
    answered w c d0 (p (fqdn w a)) x.
Proof.
  intros Ha Hs Hf. unfold fqdn_of, fqdn in *. destruct (fqdncache_gethostbyaddr w a) as [n|] eqn:En; cbn [default] in *.
  - eexists. split; [done | by apply found_answered].
  - destruct (decide (state c t = ACL_LOOKUP_NONE)) as [E|E]; (eexists; split; [done|]).
    + split; [done | cbn; split; [by apply Ha | done]].
    + by apply found_answered.
Qed.

(** The host and the addresses of a request that there is. *)
Lemma request_ok w c u :
  env_ok w c u -> is_Some (request c) -> let h := host (r_url (default no_request (request c))) in
  host_ok h /\ forall l, ipcache_gethostbyname w h = Some l -> Forall ip_key l.
Proof.
  intros He [r E]. cbv zeta. split; [rewrite E; by apply (env_host _ _ _ He)|]. intros l. apply (env_ips _ _ _ He).
Qed.

Lemma known_answer w c d0 a b : found d0 a b -> exists x, Some a = Some x /\ answered w c d0 b x.
Proof. intros H. eexists. split; [done | by apply found_answered]. Qed.

Lemma dst_ip_spec w c u top0 top :
  env_ok w c u -> is_Some (request c) -> walk top0 = walk top -> tree_ok (walk top0) ->
  exists a, match_data w c ACL_DST_IP (D_ip top) = Some a /\
    answered w c (D_ip top0) (data_matches w c u ACL_DST_IP (D_ip top0)) a.
Proof.
  intros He Hr Hs Hok. destruct (request_ok w c u He Hr) as [_ Ha]. cbn [Acl.match_data data_matches]. cbv zeta in *.
  destruct (ipcache_gethostbyname w _) as [l|] eqn:Ei; cbn [default].
  - apply known_answer, match_ips_found; [done | done | by apply Ha].
  - destruct (decide (state c ACL_DST_IP = ACL_LOOKUP_NONE)) as [E|E]; (eexists; split; [reflexivity|]); by split.
Qed.

Lemma dst_asn_spec w c u l0 l :
  env_ok w c u -> same (D_int l0) (D_int l) ->
  exists a, match_data w c ACL_DST_ASN (D_int l) = Some a /\
    answered w c (D_int l0) (data_matches w c u ACL_DST_ASN (D_int l0)) a.
Proof.
  intros He Hs. cbn [Acl.match_data data_matches]. cbv zeta.
  destruct (ipcache_gethostbyname w _) as [as'|] eqn:Ei; cbn [default].
  - apply known_answer. split; [|by split]. cbn. apply existsb_eq. intros x. apply asn_perm, Hs.
  - destruct (decide (state c ACL_DST_ASN = ACL_LOOKUP_NONE)) as [E|E]; (eexists; split; [reflexivity|]); by split.
Qed.

Lemma dst_domain_spec w c u top0 top :
  env_ok w c u -> is_Some (request c) -> walk top0 = walk top -> tree_ok (H:=domain_intervals) (walk top0) ->
  exists a, match_data w c ACL_DST_DOMAIN (D_domain top) = Some a /\
    answered w c (D_domain top0) (data_matches w c u ACL_DST_DOMAIN (D_domain top0)) a.
Proof.
  intros He Hr Hs Hok. destruct (request_ok w c u He Hr) as [Hh _]. cbn [Acl.match_data data_matches]. cbv zeta in *.
  set (h := host _) in *. destruct (match_domain_found top0 top h Hs Hok Hh) as (H1 & H2 & H3).
  rewrite H1. destruct (domain_match top0 h) eqn:E; [apply known_answer; by split|]. cbn [orb].
  destruct (safe_inet_addr h) as [a|] eqn:Ei; [|apply known_answer; by split].
  destruct (new_data (match_domain_data top (Some h))) as [| |top'| | | | | | | | |]; try contradiction H3.
  apply (fqdn_answered w c ACL_DST_DOMAIN a _ _ (domain_match top0) (fun n => match_domain_data top' (Some n))).
  - intros H Hn. split; [done | by exists a].
  - done.
  - apply match_domain_found; [done | done | by eapply fqdn_ok].
Qed.

Lemma dst_dom_regex_spec w c u l0 l :
  l0 ≡ₚ l ->
  exists a, match_data w c ACL_DST_DOM_REGEX (D_regex l) = Some a /\
    answered w c (D_regex l0) (data_matches w c u ACL_DST_DOM_REGEX (D_regex l0)) a.
Proof.
  intros Hs. cbn [Acl.match_data data_matches]. cbv zeta.
  set (h := host _) in *. destruct (match_regex_found l0 l (Some h) Hs) as (H1 & H2 & H3).
  rewrite H1. destruct (regex_match l0 (Some h)) eqn:E; [apply known_answer; by split|]. cbn [orb].
  destruct (safe_inet_addr h) as [a|] eqn:Ei; [|apply known_answer; by split].
  apply (fqdn_answered w c ACL_DST_DOMAIN a _ _ (fun n => regex_match l0 (Some n)) (fun n => match_regex_data regexec l (Some n))).
  - intros H Hn. split; [done | by exists a].
  - done.
  - by apply match_regex_found.
Qed.

(** The user of a checklist, or the lookup of one. *)
Lemma ident_answered w c u d0 d (f : list Z -> answer) (b : bool) :
  env_ok w c u -> same d0 d -> (user c <> [] -> found d0 (f u) b) ->
  exists a,
    match rfc931 c, conn_rfc931 c with
    | [], Some [] | [], None => Some (Answer false d (Some ACL_IDENT))
    | [], Some n => Some (f n)
    | n, _ => Some (f n)
    end = Some a /\ answered w c d0 b a.
Proof.
  intros He Hs Hf. pose proof (env_known _ _ _ He) as Hu. unfold user in *.
  destruct (rfc931 c) as [|x n] eqn:Er; [destruct (conn_rfc931 c) as [[|y n]|] eqn:Ec|]; cbn in *.
  - eexists. split; [done|]. split; [done|]. cbn. unfold user. by rewrite Er, Ec.
  - apply known_answer. rewrite Hu by done. by apply Hf.
  - eexists. split; [done|]. split; [done|]. cbn. unfold user. by rewrite Er, Ec.
  - apply known_answer. rewrite Hu by done. by apply Hf.
Qed.

(** An answer taken from a pair. *)
Lemma known_pair {A} w c d0 b (r : bool * A) (wrap : A -> acl_data) :
  found d0 (let '(b, l) := r in plain (wrap l) b) b ->
  exists x, (let '(b, l) := r in Some (plain (wrap l) b)) = Some x /\ answered w c d0 b x.
Proof. destruct r. apply known_answer. Qed.

Lemma match_data_spec w c u t d0 d :
  env_ok w c u -> same d0 d -> data_ok d0 -> fits t d0 = true -> by_data t = true ->
  empty_decl (Acl [] t d0) = false -> (needs_request t = true -> is_Some (request c)) ->
  exists a, match_data w c t d = Some a /\ answered w c d0 (data_matches w c u t d0) a.
Proof.
  intros He Hs Hok Hf Hb Hne Hr.
  destruct t; try discriminate Hb; destruct d0; try discriminate Hf; destruct d; try contradiction Hs; clear Hb Hf;
    try (specialize (Hr eq_refl)).
  - apply known_answer, match_ip_found; [done | done | apply He].
  - by apply dst_ip_spec.
  - apply known_answer, match_ip_found; [done | done | apply He].
  - apply (fqdn_answered w c ACL_SRC_DOMAIN (src_addr c) _ _ (domain_match top) (fun n => match_domain_data top0 (Some n)));
      [by split | done | by apply match_domain_found; [..|eapply fqdn_ok]].
  - by apply dst_domain_spec.
  - apply (fqdn_answered w c ACL_SRC_DOMAIN (src_addr c) _ _ (fun n => regex_match l (Some n)) (fun n => match_regex_data regexec l0 (Some n)));
      [by split | done | by apply match_regex_found].
  - by apply dst_dom_regex_spec.
  - by apply known_answer, match_regex_found.
  - by apply known_answer, match_regex_found.
  - apply (known_pair _ _ _ _ (aclMatchIntegerRange l0 _)), match_range_found, Hs.
  - apply (known_pair _ _ _ _ (aclMatchIntegerRange l0 _)), match_range_found, Hs.
  - apply (ident_answered w c u); [done..|]. intros _. apply match_user_found; [done | done | apply He].
  - apply (ident_answered w c u); [done..|]. intros _. by apply match_regex_found.
  - apply (known_pair _ _ _ _ (aclMatchInteger l0 _)), match_int_found, Hs.
  - apply (known_pair _ _ _ _ (aclMatchInteger l0 _)), match_int_found, Hs.
  - by apply known_answer, match_regex_found.
  - by apply known_answer, match_regex_found.
  - apply known_answer. split; [|by split]. apply asn_perm, Hs.
  - by apply (dst_asn_spec w c u).
  - cbn in Hs. subst l0. apply known_answer. split; [|by split]. cbn. apply bool_iff. rewrite existsb_exists, bool_decide_eq_true.
    unfold strcmp_eq. setoid_rewrite bool_decide_eq_true. rewrite list_elem_of_In. split; [by intros (x & Hx & <-) | by eauto].
  - destruct Hs as [Hs1 Hs2]. destruct l as [|i l]; [done|]. cbn. rewrite <- Hs2. apply known_answer. by split_and!.
  - by apply known_answer, match_regex_found.
  - cbn. destruct (reply c); apply known_answer; [by apply match_regex_found | by split].
  - cbn. destruct (reply c) as [h|]; [|apply known_answer; by split]. destruct (match_headers_found l l0 h Hs) as [H1 H2].
    apply (known_pair _ _ _ _ (match_headers regexec l0 h)). destruct (match_headers regexec l0 h). by split_and!.
  - destruct (match_headers_found l l0 (r_header (default no_request (request c))) Hs) as [H1 H2].
    apply (known_pair _ _ _ _ (match_headers regexec l0 _)). destruct (match_headers regexec l0 _). by split_and!.
  - by apply known_answer, match_regex_found.
Qed.

(** An answer without a lookup is the one that [W] gives. *)
Lemma data_matches_true w W c u t d0 d a :
  settled w W c -> ~ wants c -> env_ok w c u -> same d0 d -> data_ok d0 -> fits t d0 = true -> by_data t = true ->
  (needs_request t = true -> is_Some (request c)) ->
  match_data w c t d = Some a -> need a = None ->
  data_matches w c u t d0 = data_matches W c u t d0.
Proof.
  intros Hs Hw He Ed Hok Hf Hb Hr E Hn. pose proof (proj1 Hs) as B.
  pose proof (settled_name w W c ACL_SRC_DOMAIN (src_addr c) Hs Hw (or_introl (conj eq_refl eq_refl))) as Hsrc.
  pose proof (fun a Ha => settled_name w W c ACL_DST_DOMAIN a Hs Hw (or_intror (conj eq_refl Ha))) as Hdst.
  destruct t; try discriminate Hb; destruct d0; try discriminate Hf; destruct d; try contradiction Ed; try reflexivity;
    cbn [Acl.match_data data_matches] in *; cbv zeta in *.
  - destruct (settled_ips w W c ACL_DST_IP Hs Hw (or_introl eq_refl)) as [->|[Ei Es]]; [done|].
    rewrite Ei, decide_True in E by done. by injection E as <-.
  - destruct Hsrc as [->|H]; [done|]. rewrite H in E. by injection E as <-.
  - destruct (request_ok w c u He (Hr eq_refl)) as [Hh _]. destruct (match_domain_found top top0 _ Ed Hok Hh) as (H1 & _ & H3).
    rewrite H1 in E. destruct (domain_match top (host _)); [done|]. cbn [orb]. destruct (safe_inet_addr _) as [x|] eqn:Ex; [|done].
    destruct (Hdst x eq_refl) as [->|H]; [done|]. rewrite H in E.
    destruct (new_data _); try contradiction H3. by injection E as <-.
  - destruct Hsrc as [->|H]; [done|]. rewrite H in E. by injection E as <-.
  - destruct (match_regex_found l l0 (Some (host (r_url (default no_request (request c))))) Ed) as (H1 & _ & H3).
    rewrite H1 in E. destruct (regex_match l _); [done|]. cbn [orb]. destruct (safe_inet_addr _) as [x|] eqn:Ex; [|done].
    destruct (Hdst x eq_refl) as [->|H]; [done|]. rewrite H in E. by injection E as <-.
  - by rewrite (below_asn _ _ B).
  - rewrite (below_asn _ _ B). destruct (settled_ips w W c ACL_DST_ASN Hs Hw (or_intror eq_refl)) as [->|[Ei Es]]; [done|].
    rewrite Ei, decide_True in E by done. by injection E as <-.
  - by rewrite (below_clients _ _ B).
Qed.

Lemma data_matches_below w W c u t d :
  below w W -> by_data t = false -> data_matches w c u t d = data_matches W c u t d.
Proof.
  intros B Hb. destruct t, d; try done; cbn; unfold authenticated; by rewrite ?(below_now _ _ B), ?(below_auth _ _ B), ?(below_login _ _ B).
Qed.

(** ** The state between checks *)

Definition same_elem (a0 a : acl) : Prop := name a0 = name a /\ type a0 = type a /\ same (data a0) (data a).

Definition is_auth (t : squid_acl) : bool := match t with ACL_PROXY_AUTH | ACL_PROXY_AUTH_REGEX => true | _ => false end.

(** The elements of the configuration [es0], turned; the time and the remembered results
    are right. *)
Record good_store (es0 : list acl) (s : st) : Prop := {
  store_elems : Forall2 same_elem es0 (elements s);
  store_time : (last_time s).1 = 0 \/ (last_time s).2 = localtime (last_time s).1;
  store_cache u l k b : match_cache s !! u = Some l -> (k, b) ∈ l ->
    forall i a, es0 !! i = Some a -> is_auth (type a) = true -> data_key i (data a) = k -> b = user_data_match (data a) u }.

(** The elements that a check can ask: not the ones that change what others answer. *)
Definition usable (a : acl) : Prop :=
  fits (type a) (data a) = true /\ data_ok (data a) /\ empty_decl a = false /\ type a <> ACL_EXTERNAL /\ type a <> ACL_MAX_USER_IP.

Lemma good_store_init es c : good_store es (St es (0, Tm 0 0 0) ∅ ∅ c).
Proof.
  split; cbn; [|by left|].
  - induction es; constructor; [split_and!; try done; apply same_data_refl | done].
  - intros u l k b H. by rewrite lookup_empty in H.
Qed.

Lemma store_chk es0 s c : good_store es0 s -> good_store es0 (set_chk c s).
Proof. intros []. by split. Qed.

Lemma store_need es0 s n : good_store es0 s -> good_store es0 (set_need n s).
Proof. destruct n; [apply store_chk | done]. Qed.

Lemma store_data es0 s k a0 d :
  good_store es0 s -> es0 !! k = Some a0 -> same (data a0) d -> good_store es0 (set_data k d s).
Proof.
  intros [H1 H2 H3] Hk Hd. split; [|done|done]. cbn. apply Forall2_alter_r; [done|].
  intros x y Hx _ (E1 & E2 & _). rewrite Hk in Hx. injection Hx as <-. by split_and!.
Qed.

Lemma store_lookup es0 s k a0 :
  good_store es0 s -> es0 !! k = Some a0 -> exists a, elements s !! k = Some a /\ same_elem a0 a.
Proof. intros [H _ _] Hk. by destruct (Forall2_lookup_l _ _ _ _ _ H Hk) as (a & Ha & E); exists a. Qed.

(** What asking an element does. *)
Definition elem_result (es0 : list acl) (w : world) (u : list Z) (s : st) (b : bool) (r : Z) (s' : st) : Prop :=
  good_store es0 s' /\
  (chk s' = chk s /\ (wants (chk s) \/ r = Z.b2z b) \/ exists n, asks w (chk s) n /\ chk s' = set_state n ACL_LOOKUP_NEEDED (chk s) /\ r = 0).

Lemma elem_known es0 w u s b s' : good_store es0 s' -> chk s' = chk s -> elem_result es0 w u s b (Z.b2z b) s'.
Proof. intros H E. split; [done|]. left. split; [done | by right]. Qed.

Lemma time_result es0 w u s l :
  good_store es0 s -> squid_curtime w <> 0 -> l <> [] ->
  exists r s', ('(b, last) ← aclMatchTime localtime l (squid_curtime w) (last_time s); mret (Z.b2z b, set_last last s)) = Some (r, s') /\
    elem_result es0 w u s (data_matches w (chk s) u ACL_TIME (D_time l)) r s'.
Proof.
  intros [H1 H2 H3] Hnow Hl. unfold aclMatchTime. destruct l as [|x l]; [done|].
  assert (E : (if squid_curtime w =? (last_time s).1 then last_time s else (squid_curtime w, localtime (squid_curtime w)))
              = (squid_curtime w, localtime (squid_curtime w))).
  { destruct (Z.eqb_spec (squid_curtime w) (last_time s).1) as [Ew|]; [|done].
    destruct H2 as [H2|H2]; [congruence|]. destruct (last_time s); cbn in *. congruence. }
  rewrite E. eexists _, _. split; [reflexivity|]. apply elem_known; [|done]. split; [done | by right | done].
Qed.

Lemma data_key_same k d d' : same d d' -> data_key k d = data_key k d'.
Proof.
  destruct d, d'; cbn; try done. intros H. destruct l, l0; try done.
  - by apply Permutation_nil_cons in H.
  - symmetry in H. by apply Permutation_nil_cons in H.
Qed.

Lemma data_key_user i k a a0 n :
  data_key i (data a) = data_key k (data a0) -> i = k /\ data_key k (data a0) = Some k \/
  user_data_match (data a) n = false /\ user_data_match (data a0) n = false.
Proof.
  unfold data_key. destruct (data a0) as [| | | |[]| | | | | | |], (data a) as [| | | |[]| | | | | | |]; cbn;
    first [by right | intros [=]; by left | done].
Qed.

Lemma cache_lookup es0 s n k a0 i e :
  good_store es0 s -> es0 !! k = Some a0 -> is_auth (type a0) = true ->
  list_find (fun e => e.1 = data_key k (data a0)) (default [] (match_cache s !! n)) = Some (i, e) ->
  e.2 = user_data_match (data a0) n /\ match_cache s !! n = Some (default [] (match_cache s !! n)).
Proof.
  intros Hs Hk Ht (Hi & Hkey & _)%list_find_Some. destruct (match_cache s !! n) as [l|] eqn:E; [|done]. cbn in *.
  split; [|done]. destruct e as [key b]. cbn in *. subst key.
  eapply store_cache; [done | exact E | by eapply list_elem_of_lookup_2 | done..].
Qed.

Lemma cache_add es0 s n k a0 :
  good_store es0 s -> es0 !! k = Some a0 ->
  good_store es0 (set_cache n (default [] (match_cache s !! n) ++ [(data_key k (data a0), user_data_match (data a0) n)]) s).
Proof.
  intros [H1 H2 H3] Hk. split; [done | done|]. cbn. intros u l key b Hu Hin i a Hi Ht Hkey.
  destruct (decide (u = n)) as [->|Hne]; [|rewrite lookup_insert_ne in Hu by done; by eapply H3].
  rewrite lookup_insert_eq in Hu. injection Hu as <-. apply elem_of_app in Hin as [Hin|Hin%list_elem_of_singleton].
  - destruct (match_cache s !! n) as [l|] eqn:E; [by eapply H3 | by apply not_elem_of_nil in Hin].
  - injection Hin as -> ->. destruct (data_key_user i k a a0 n Hkey) as [[-> _]|[-> ->]]; [congruence | done].
Qed.

Lemma set_cache_same (s : st) n l : match_cache s !! n = Some l -> set_cache n l s = s.
Proof. intros H. destruct s. unfold set_cache. cbn in *. by rewrite insert_id. Qed.

Lemma auth_result es0 w u s k a0 a :
  good_store es0 s -> es0 !! k = Some a0 -> same_elem a0 a -> usable a0 -> is_auth (type a0) = true -> is_name (username w) ->
  exists r s', aclMatchProxyAuth regexec w k (data a) s = Some (r, s') /\
    elem_result es0 w u s (user_data_match (data a0) (username w)) r s'.
Proof.
  intros Hs Hk (_ & _ & Ea) (Hf & Hok & _) Ht Hn. unfold aclMatchProxyAuth, aclCacheMatchAcl.
  assert (Hset : forall d b l, same (data a0) d -> good_store es0 (set_cache (username w) l s) ->
            b = user_data_match (data a0) (username w) ->
            elem_result es0 w u s (user_data_match (data a0) (username w)) (Z.b2z b) (set_cache (username w) l (set_data k d s))).
  { intros d b l Hd Hl ->. apply elem_known; [|done]. change (good_store es0 (set_data k d (set_cache (username w) l s))).
    by eapply store_data. }
  rewrite <- (data_key_same k _ _ Ea).
  destruct (list_find _ _) as [[i e]|] eqn:El.
  - destruct (cache_lookup es0 s _ k a0 i e Hs Hk Ht El) as [H1 H2].
    eexists _, _. split; [reflexivity|]. apply Hset; [done | by rewrite set_cache_same | done].
  - clear El. pose proof (cache_add es0 s (username w) k a0 Hs Hk) as Hadd.
    destruct (type a0); try discriminate Ht; destruct (data a0) as [| | | |l0| | | |u0| | |]; try discriminate Hf;
      destruct (data a) as [| | | |l1| | | |u1| | |]; try contradiction Ea.
    + destruct (match_user_found u0 u1 (username w) Ea Hok Hn) as (H1 & _ & H3). unfold match_user_data in *.
      destruct (aclMatchUser u1 (Some (username w))) as [b u']. cbn in H1. subst b.
      eexists _, _. split; [reflexivity|]. by apply Hset.
    + destruct (match_regex_found l0 l1 (Some (username w)) Ea) as (H1 & _ & H3). unfold match_regex_data in *.
      destruct (aclMatchRegex regexec l1 (Some (username w))) as [b l']. cbn in H1. subst b.
      eexists _, _. split; [reflexivity|]. by apply Hset.
Qed.

Lemma request_cases (c : aclCheck_t) t :
  needs_request t && match request c with None => true | Some _ => false end = true /\ needs_request t = true /\ request c = None \/
  needs_request t && match request c with None => true | Some _ => false end = false /\ (needs_request t = true -> is_Some (request c)).
Proof.
  destruct (needs_request t), (request c); cbn; [right | left | right | right]; by split.
Qed.

Lemma data_result es0 w W u s k a0 d :
  good_store es0 s -> settled w W (chk s) -> env_ok W (chk s) u -> es0 !! k = Some a0 -> usable a0 -> same (data a0) d ->
  (needs_request (type a0) = true -> is_Some (request (chk s))) -> by_data (type a0) = true ->
  exists r s',
    (a ← match_data w (chk s) (type a0) d; mret (Z.b2z (matched a), set_need (need a) (set_data k (new_data a) s))) = Some (r, s') /\
    elem_result es0 w u s (data_matches W (chk s) u (type a0) (data a0)) r s'.
Proof.
  intros Hs Hw He Hk (Hf & Hok & Hne & _) Ed Hr Hb. pose proof (env_below _ _ _ _ (proj1 Hw) He) as He'.
  destruct (match_data_spec w (chk s) u (type a0) (data a0) d He' Ed Hok Hf Hb Hne Hr) as (a & E & H1 & H2).
  rewrite E. eexists _, _. split; [reflexivity|]. split; [apply store_need; by eapply store_data|].
  destruct (need a) as [n|] eqn:En; [right | left].
  - exists n. destruct H2 as [H2 ->]. by split_and!.
  - split; [done|]. destruct (wants_dec (chk s)) as [Hn|Hn]; [by left | right]. rewrite H2. f_equal.
    by apply (data_matches_true w W (chk s) u (type a0) (data a0) d a).
Qed.

Lemma set_chk_same (s : st) : set_chk (chk s) s = s.
Proof. by destruct s. Qed.

Lemma auth_elem es0 w u k s a0 a :
  good_store es0 s -> env_ok w (chk s) u -> es0 !! k = Some a0 -> same (data a0) (data a) -> usable a0 ->
  is_auth (type a0) = true -> (needs_request (type a0) = true -> is_Some (request (chk s))) ->
  exists r s',
    (let '(ti, c) := aclAuthenticated w (chk s) in
     if negb (ti =? 1) then Some (ti, set_chk c s) else aclMatchProxyAuth regexec w k (data a) (set_chk c s)) = Some (r, s') /\
    elem_result es0 w u s (data_matches w (chk s) u (type a0) (data a0)) r s'.
Proof.
  intros Hs He Hk Ed Hu Ht Hr.
  assert (Em : data_matches w (chk s) u (type a0) (data a0) =
               authenticated w (default no_request (request (chk s))) && user_data_match (data a0) (username w)).
  { by destruct (type a0). }
  rewrite Em. clear Em. destruct Hr as [r Er]; [by destruct (type a0)|]. unfold aclAuthenticated, authenticated. rewrite Er. change (default no_request (Some r)) with r.
  destruct (env_auth _ _ _ He (negb (r_accelerated r))) as [E|E]; rewrite !E.
  - cbn [andb negb Z.eqb Pos.eqb]. rewrite set_chk_same. eapply (auth_result es0 w u s k a0 (Acl (name a0) (type a0) (data a))); try done. apply He.
  - eexists _, _. split; [reflexivity|]. rewrite set_chk_same. by apply (elem_known _ _ _ _ false).
Qed.

(** The cases of an element that has what it needs. *)
Lemma match_elem_spec es0 w W u k s a0 a :
  good_store es0 s -> settled w W (chk s) -> env_ok W (chk s) u -> es0 !! k = Some a0 -> usable a0 -> same (data a0) (data a) ->
  (needs_request (type a0) = true -> is_Some (request (chk s))) ->
  exists r s',
    match type a0, data a with
    | ACL_TIME, D_time l =>
        '(b, last) ← aclMatchTime localtime l (squid_curtime w) (last_time s); mret (Z.b2z b, set_last last s)
    | (ACL_PROXY_AUTH | ACL_PROXY_AUTH_REGEX), d =>
        let '(ti, c) := aclAuthenticated w (chk s) in
        if negb (ti =? 1) then Some (ti, set_chk c s) else aclMatchProxyAuth regexec w k d (set_chk c s)
    | ACL_MAX_USER_IP, D_max_ip max strict =>
        let '(ti, c) := aclAuthenticated w (chk s) in
        if negb (ti =? 1) then Some (ti, set_chk c s) else Some (aclMatchUserMaxIP w max strict (set_chk c s))
    | ACL_EXTERNAL, D_external x => let '(r, c) := aclMatchExternal makeExternalAclKey w x (chk s) in Some (r, set_chk c s)
    | t, d => a ← match_data w (chk s) t d; mret (Z.b2z (matched a), set_need (need a) (set_data k (new_data a) s))
    end = Some (r, s') /\
    elem_result es0 w u s (data_matches W (chk s) u (type a0) (data a0)) r s'.
Proof.
  intros Hs Hw HeW Hk Hu Ed Hr. destruct (by_data (type a0)) eqn:Eb.
  - pose proof (data_result es0 w W u s k a0 (data a) Hs Hw HeW Hk Hu Ed Hr Eb) as H.
    destruct (type a0); try discriminate Eb; exact H.
  - pose proof (env_below _ _ _ _ (proj1 Hw) HeW) as He. rewrite <- (data_matches_below w W) by (done || apply Hw).
    pose proof (fun Ht => auth_elem es0 w u k s a0 a Hs He Hk Ed Hu Ht Hr) as Hauth.
    destruct Hu as (Hf & Hok & Hne & H1 & H2). unfold empty_decl in Hne.
    destruct (type a0) eqn:Et; try discriminate Eb; try done; try exact (Hauth eq_refl).
    destruct (data a0) eqn:Ed0; try discriminate Hf. destruct (data a) eqn:Eda; try contradiction Ed. cbn in Ed. subst l0.
    apply (time_result es0 w u s); [done | apply He | by destruct l].
Qed.

(** Asking an element: its meaning, or a lookup that is noted in the checklist. *)
Lemma match_acl_spec es0 w W u k s :
  good_store es0 s -> settled w W (chk s) -> env_ok W (chk s) u -> (forall a, es0 !! k = Some a -> usable a) ->
  exists r s', aclMatchAcl w k s = Some (r, s') /\
    elem_result es0 w u s (match es0 !! k with Some a => elem_matches W (chk s) u a | None => false end) r s'.
Proof.
  intros Hs Hw He Hu. destruct (es0 !! k) as [a0|] eqn:Ek.
  - destruct (store_lookup es0 s k a0 Hs Ek) as (a & Ha & En & Et & Ed). specialize (Hu a0 eq_refl).
    unfold Acl.aclMatchAcl. rewrite Ha, <- Et.
    destruct (request_cases (chk s) (type a0)) as [(Eg & E1 & E2)|(Eg & Hr)]; rewrite Eg.
    + eexists _, _. split; [reflexivity|]. unfold elem_matches. rewrite E1, E2. by apply (elem_known _ _ _ _ false).
    + assert (Em : elem_matches W (chk s) u a0 = data_matches W (chk s) u (type a0) (data a0)).
      { unfold elem_matches. destruct (request (chk s)); [done|]. destruct (needs_request (type a0)); [|done]. by destruct Hr. }
      rewrite Em. clear Em Eg. by apply match_elem_spec.
  - assert (Ha : elements s !! k = None).
    { apply lookup_ge_None. rewrite <- (Forall2_length _ _ _ (store_elems _ _ Hs)). by apply lookup_ge_None. }
    unfold Acl.aclMatchAcl. rewrite Ha. eexists _, _. split; [reflexivity|]. by apply (elem_known _ _ _ _ false).
Qed.

(** ** Lines *)

Definition elem_at (es0 : list acl) (w : world) (c : aclCheck_t) (u : list Z) (e : acl_list) : bool :=
  Bool.eqb (op e) (match es0 !! acl_ref e with Some a => elem_matches w c u a | None => false end).

Definition line_matches (es0 : list acl) (w : world) (c : aclCheck_t) (u : list Z) (a : acl_access) : bool :=
  forallb (elem_at es0 w c u) (acls a).

(** The first line that matches, or the opposite of the last. *)
Definition policy (es0 : list acl) (w : world) (c : aclCheck_t) (u : list Z) (A : list acl_access) : bool :=
  match List.find (line_matches es0 w c u) A with
  | Some a => allow a
  | None => match last A with Some a => negb (allow a) | None => true end
  end.

(** The request and the connection of a checklist. *)
Definition same_request (c c' : aclCheck_t) : Prop :=
  request c = request c' /\ reply c = reply c' /\ src_addr c = src_addr c' /\ my_addr c = my_addr c' /\
  my_port c = my_port c' /\ snmp_community c = snmp_community c'.

(** Lookups were asked for. *)
Record grown (w : world) (c c' : aclCheck_t) : Prop := {
  grown_request : same_request c c';
  grown_user : rfc931 c = rfc931 c' /\ conn_rfc931 c = conn_rfc931 c' /\ extacl_entry c = extacl_entry c';
  grown_state n : state c' n = state c n \/ (asks w c n /\ state c' n = ACL_LOOKUP_NEEDED) }.

Lemma asks_lookups w c n : asks w c n -> n ∈ lookups.
Proof. destruct n; cbn; try done; intros _; apply (bool_decide_unpack _); vm_compute; exact I. Qed.

Lemma same_request_refl c : same_request c c.
Proof. done. Qed.

Lemma same_request_sym c c' : same_request c c' -> same_request c' c.
Proof. unfold same_request. intuition congruence. Qed.

Lemma same_request_trans c c' c'' : same_request c c' -> same_request c' c'' -> same_request c c''.
Proof. unfold same_request. intuition congruence. Qed.

Lemma grown_refl w c : grown w c c.
Proof. split; [done | done | by left]. Qed.

Lemma asks_grown w c c' n : grown w c c' -> asks w c' n -> asks w c n.
Proof.
  intros [(E1 & E2 & E3 & E4 & E5 & E6) (U1 & U2 & _) Hs]. specialize (Hs n). unfold asks, user.
  rewrite <- E1, <- E3, <- U1, <- U2. destruct n; try done; intros [Hn H]; (split; [|exact H]); destruct Hs as [Hs|[_ Hs]]; congruence.
Qed.

Lemma grown_trans w c c' c'' : grown w c c' -> grown w c' c'' -> grown w c c''.
Proof.
  intros H1 H2. pose proof (fun n => asks_grown w c c' n H1) as Ha. destruct H1 as [R1 U1 S1], H2 as [R2 U2 S2].
  split; [by eapply same_request_trans | intuition congruence|]. intros n.
  destruct (S2 n) as [E|[E1 E2]]; [rewrite E; apply S1 | right; split; [by apply Ha | done]].
Qed.

Lemma grown_ask w c n : asks w c n -> grown w c (set_state n ACL_LOOKUP_NEEDED c).
Proof. intros H. split; [done | done|]. intros m. cbn. destruct (decide (m = n)) as [->|]; [by right | by left]. Qed.

Lemma wants_grown w c c' : grown w c c' -> wants c -> wants c'.
Proof. intros [_ _ Hs] (n & Hn & E). exists n. split; [done|]. destruct (Hs n) as [->|[_ ->]]; done. Qed.

Lemma env_grown w W c c' u : grown w c c' -> env_ok W c u -> env_ok W c' u.
Proof.
  intros [(E1 & E2 & E3 & E4 & E5 & E6) (U1 & U2 & _) Hs] []. unfold user in *.
  split; unfold user; rewrite <- ?E1, <- ?E3, <- ?E4, <- ?U1, <- ?U2; done.
Qed.

Lemma agrees_same w W c c' n : same_request c c' -> agrees w W c n -> agrees w W c' n.
Proof. intros (E1 & E2 & E3 & E4 & E5 & E6). unfold agrees. rewrite E1, E3. done. Qed.

Lemma settled_grown w W c c' : grown w c c' -> settled w W c -> settled w W c'.
Proof.
  intros [E _ Hg] [B Hs]. split; [done|]. intros n. destruct (Hg n) as [->|[_ ->]]; [|by right; left].
  destruct (Hs n) as [H|[H|H]]; [by left | by right; left | right; right; by eapply agrees_same].
Qed.

Lemma elem_matches_same w c c' u a : same_request c c' -> elem_matches w c u a = elem_matches w c' u a.
Proof.
  intros (E1 & E2 & E3 & E4 & E5 & E6). unfold elem_matches, data_matches. rewrite E1, E2, E3, E4, E5, E6. done.
Qed.

Lemma line_matches_same es0 w c c' u a : same_request c c' -> line_matches es0 w c u a = line_matches es0 w c' u a.
Proof.
  intros E. unfold line_matches. induction (acls a) as [|e l IH]; [done|]. cbn. rewrite IH. f_equal. unfold elem_at.
  destruct (es0 !! acl_ref e); [by rewrite (elem_matches_same w c c' u _ E) | done].
Qed.

(** The elements of some lines can be asked. *)
Definition usable_list (es0 : list acl) (l : list acl_list) : Prop :=
  Forall (fun e => forall a, es0 !! acl_ref e = Some a -> usable a) l.

(** The answer of the elements of a line, or a lookup that it asks for. *)
Lemma match_list_result es0 w W u l s :
  good_store es0 s -> settled w W (chk s) -> env_ok W (chk s) u -> usable_list es0 l ->
  exists b cur s', aclMatchAclList w l s = Some (Z.b2z b, cur, s') /\ good_store es0 s' /\ grown w (chk s) (chk s') /\
    (chk s' = chk s /\ b = forallb (elem_at es0 W (chk s) u) l \/ wants (chk s')).
Proof.
  intros Hs Hw He Hl. revert s Hs Hw He. induction Hl as [|e l Hu _ IH]; intros s Hs Hw He.
  - exists true, None, s. split_and!; [done | done | apply grown_refl | by left].
  - destruct (match_acl_spec es0 w W u (acl_ref e) s Hs Hw He Hu) as (r & s1 & E1 & Hs1 & Hr). cbn [Acl.aclMatchAclList]. rewrite E1. cbn.
    assert (Hg : grown w (chk s) (chk s1)).
    { destruct Hr as [[-> _]|(n & Ha & -> & _)]; [apply grown_refl | by apply grown_ask]. }
    destruct (r =? Z.b2z (op e)) eqn:Er.
    + destruct (IH s1 Hs1 (settled_grown _ _ _ _ Hg Hw) (env_grown _ _ _ _ _ Hg He)) as (b & cur & s2 & E2 & Hs2 & Hg2 & Hb). rewrite E2. cbn.
      eexists b, _, s2. split_and!; [reflexivity | done | by eapply grown_trans|].
      destruct Hb as [[Ec Eb]|Hb]; [|by right]. destruct Hr as [[Ec1 [Hn| ->]]|(n & Ha & Ec1 & _)].
      * right. by rewrite Ec, Ec1.
      * left. split; [congruence|]. rewrite Ec1 in Eb. apply Z.eqb_eq, Z.b2z_inj in Er. unfold elem_at at 1. rewrite Er, eqb_reflx. done.
      * right. exists n. split; [by eapply asks_lookups|]. rewrite Ec, Ec1. cbn. by rewrite decide_True.
    + exists false, (Some (acl_ref e)), s1. split_and!; [done | done | done|]. destruct Hr as [[Ec [Hn| ->]]|(n & Ha & Ec & _)].
      * right. by rewrite Ec.
      * left. split; [done|]. unfold elem_at at 1. destruct (match es0 !! acl_ref e with Some _ => _ | None => _ end), (op e); done.
      * right. exists n. split; [by eapply asks_lookups|]. rewrite Ec. cbn. by rewrite decide_True.
Qed.

(** ** Lists of lines *)

Definition usable_lines (es0 : list acl) (A : list acl_access) : Prop := Forall (fun a => usable_list es0 (acls a)) A.

(** The answer of the lines that are left after one with the action [l]. *)
Fixpoint policy_from (es0 : list acl) (w : world) (c : aclCheck_t) (u : list Z) (l : bool) (A : list acl_access) : bool :=
  match A with
  | [] => negb l
  | a :: A => if line_matches es0 w c u a then allow a else policy_from es0 w c u (allow a) A
  end.

Lemma policy_from_eq es0 w c u l A :
  policy_from es0 w c u l A =
  match List.find (line_matches es0 w c u) A with
  | Some a => allow a
  | None => match last A with Some a => negb (allow a) | None => negb l end
  end.
Proof.
  revert l. induction A as [|a A IH]; intros l; [done|]. cbn [policy_from List.find].
  destruct (line_matches es0 w c u a); [done|]. rewrite IH. destruct (List.find _ A); [done|].
  destruct A as [|a' A]; [done|]. rewrite last_cons_cons. destruct (last (a' :: A)) eqn:E; [done|]. by apply last_None in E.
Qed.

Lemma policy_from_other es0 w c u l l' a A : policy_from es0 w c u l (a :: A) = policy_from es0 w c u l' (a :: A).
Proof. done. Qed.

Lemma policy_from_skip es0 w c u l pre a A :
  forallb (fun a => negb (line_matches es0 w c u a)) pre = true ->
  policy_from es0 w c u l (pre ++ a :: A) = policy_from es0 w c u false (a :: A).
Proof.
  revert l. induction pre as [|b pre IH]; intros l; [done|]. intros [Hb Hp]%andb_true_iff. apply negb_true_iff in Hb.
  cbn [app policy_from]. rewrite Hb. by apply IH.
Qed.

Lemma policy_from_same es0 w c c' u l A : same_request c c' -> policy_from es0 w c u l A = policy_from es0 w c' u l A.
Proof.
  intros E. revert l. induction A as [|a A IH]; intros l; [done|]. cbn. by rewrite (line_matches_same es0 w c c' u a E), IH.
Qed.

Lemma store_cleanup es0 s : good_store es0 s -> good_store es0 (aclCheckCleanup s).
Proof. apply store_chk. Qed.

(** What is needed is known to the caches or was looked up. *)
Definition ready (w : world) (c : aclCheck_t) : Prop := forall n, ~ asks w c n.

Lemma ready_same w c c' : ready w c -> grown w c c' -> forall n, state c' n = state c n.
Proof. intros Hr [_ _ Hs] n. destruct (Hs n) as [|[H _]]; [done | by destruct (Hr n)]. Qed.

Lemma below_refl w : below w w.
Proof. by split. Qed.

Lemma settled_self w c : settled w w c.
Proof. split; [apply below_refl|]. intros n. right. right. by destruct n. Qed.

(** A checklist that no lookup was asked for. *)
Definition calm (c : aclCheck_t) : Prop := forall n, state c n <> ACL_LOOKUP_NEEDED.

Lemma match_list_ready es0 w u l s :
  good_store es0 s -> env_ok w (chk s) u -> usable_list es0 l -> ready w (chk s) -> calm (chk s) ->
  exists cur s', aclMatchAclList w l s = Some (Z.b2z (forallb (elem_at es0 w (chk s) u) l), cur, s') /\
    good_store es0 s' /\ chk s' = chk s.
Proof.
  intros Hs He Hl Hr Hc. destruct (match_list_result es0 w w u l s Hs (settled_self _ _) He Hl) as (b & cur & s' & E & Hs' & Hg & [[Ec ->]|(n & _ & Hw)]).
  - by exists cur, s'.
  - destruct (Hc n). by rewrite <- (ready_same w _ _ Hr Hg).
Qed.

Lemma check_fast_result es0 w u A l s :
  good_store es0 s -> env_ok w (chk s) u -> usable_lines es0 A -> ready w (chk s) -> calm (chk s) ->
  exists s', check_fast w A l s = Some (policy_from es0 w (chk s) u l A, s') /\ good_store es0 s'.
Proof.
  intros Hs He Hl Hr Hc. revert l s Hs He Hr Hc. induction Hl as [|a A Ha _ IH]; intros l s Hs He Hr Hc; cbn [Acl.check_fast policy_from].
  - eexists. split; [reflexivity | by apply store_cleanup].
  - destruct (match_list_ready es0 w u _ s Hs He Ha Hr Hc) as (cur & s1 & -> & Hs1 & Ec). cbn.
    change (forallb (elem_at es0 w (chk s) u) (acls a)) with (line_matches es0 w (chk s) u a).
    destruct (line_matches es0 w (chk s) u a); cbn.
    + eexists. split; [reflexivity | by apply store_cleanup].
    + rewrite <- Ec in *. by apply IH.
Qed.

(** A check that answers at once ([aclCheckFast]), of a request for which no lookup is
    needed, gives the policy of its lines: the action of the first line all of whose
    elements match as they are marked, or the opposite of the last line's.  What
    earlier checks did to the splay trees, lists, static time and remembered
    results of the elements does not change it, and this check leaves them so. *)
Lemma acl_check_fast_correct es0 w u A s :
  good_store es0 s -> env_ok w (chk s) u -> usable_lines es0 A -> ready w (chk s) -> calm (chk s) ->
  exists s', aclCheckFast w A s = Some (policy es0 w (chk s) u A, s') /\ good_store es0 s'.
Proof.
  intros Hs He Hl Hr Hc. destruct (check_fast_result es0 w u A false s Hs He Hl Hr Hc) as (s' & E & Hs').
  exists s'. split; [|done]. unfold Acl.aclCheckFast, policy. rewrite E, policy_from_eq. done.
Qed.

(** ** Waiting for lookups *)

Definition lookup_acl (l : lookup) : squid_acl :=
  match l with
  | Dst_IP _ => ACL_DST_IP
  | Dst_ASN _ => ACL_DST_ASN
  | Src_FQDN _ => ACL_SRC_DOMAIN
  | Dst_FQDN _ => ACL_DST_DOMAIN
  | Proxy_auth => ACL_PROXY_AUTH
  | Ident => ACL_IDENT
  | External_acl _ => ACL_EXTERNAL
  end.

(** What the rest of the program does while a check waits: the caches (and what else
    there is) when the lookup calls back, what the identification server answers, and
    the entry of an external helper. *)
Record answers := Answers {
  world_after : lookup -> world -> world; ident : option (list Z); entry : external -> option external_acl_entry }.

(** The callback of a lookup. *)
Definition resume (ans : answers) (l : lookup) (s : st) : st :=
  match l with
  | Ident => aclLookupIdentDone (ident ans) s
  | External_acl x => aclLookupExternalDone (entry ans x) s
  | l => aclLookupDone (lookup_acl l) s
  end.

(** A check with its callbacks, up to [fuel] lookups. *)
Fixpoint run (fuel : nat) (w : world) (ans : answers) (A : list acl_access) (s : st) : option (allow_t * st) :=
  '(o, A, s) ← aclCheck w true A s;
  match o, fuel with
  | Answered a, _ => mret (a, s)
  | Waits l, S fuel => run fuel (world_after ans l w) ans A (resume ans l s)
  | _, _ => None
  end.

(** A lookup brings into the caches what [W] says, and no entry is lost. *)
Definition finds (W : world) (ans : answers) : Prop :=
  forall l w, below w W ->
    below w (world_after ans l w) /\ below (world_after ans l w) W /\
    match l with
    | Dst_IP h | Dst_ASN h => ipcache_gethostbyname (world_after ans l w) h = ipcache_gethostbyname W h
    | Src_FQDN a | Dst_FQDN a => fqdncache_gethostbyaddr (world_after ans l w) a = fqdncache_gethostbyaddr W a
    | _ => True
    end.

(** The key of a lookup is that of the checklist. *)
Definition keyed (c : aclCheck_t) (l : lookup) : Prop :=
  let h := host (r_url (default no_request (request c))) in
  match l with
  | Dst_IP h' | Dst_ASN h' => h' = h
  | Src_FQDN a => a = src_addr c
  | Dst_FQDN a => safe_inet_addr h = Some a
  | _ => True
  end.

Lemma agrees_up w w' W c n : below w w' -> below w' W -> agrees w W c n -> agrees w' W c n.
Proof.
  assert (H : forall A (x y z : option A), (forall v, x = Some v -> y = Some v) -> (forall v, y = Some v -> z = Some v) -> x = z -> y = z).
  { intros A x y z Hx Hy ->. destruct z as [v|]; [by apply Hx|]. destruct y as [v|]; [by rewrite (Hy v) | done]. }
  intros B1 B2. unfold agrees. cbv zeta. pose proof (below_ips _ _ B1). pose proof (below_ips _ _ B2).
  pose proof (below_names _ _ B1). pose proof (below_names _ _ B2). destruct n; try done; eauto.
Qed.

(** After the answer of a lookup the caches are still on the way. *)
Lemma settled_answer w W ans k c c' :
  finds W ans -> settled w W c -> keyed c k -> same_request c c' ->
  (forall n, n = lookup_acl k \/ state c' n = state c n) ->
  settled (world_after ans k w) W c'.
Proof.
  intros Hf [B Hs] Hk E Hn. destruct (Hf k w B) as (B1 & B2 & Ha). split; [done|]. intros n.
  destruct (Hn n) as [->|Hi].
  - right; right. apply (agrees_same _ _ c c' _ E). destruct k; cbn in *; subst; try done.
    intros a' Ha'. rewrite Hk in Ha'. injection Ha' as <-. done.
  - rewrite Hi. destruct (Hs n) as [H|[H|H]]; [by left | by right; left | right; right].
    by apply (agrees_same _ _ c c' _ E), (agrees_up w).
Qed.

(** What holds of a checklist between calls of [aclCheck]: there is a connection, nobody
    asked for authentication or a helper, a name of the destination is only looked up
    for a numeric host, and [ident] only when the user is not known. *)
Record chk_ok (c : aclCheck_t) : Prop := {
  chk_conn : is_Some (conn_rfc931 c);
  chk_auth : state c ACL_PROXY_AUTH <> ACL_LOOKUP_NEEDED /\ state c ACL_PROXY_AUTH <> ACL_PROXY_AUTH_NEEDED;
  chk_ext : state c ACL_EXTERNAL <> ACL_LOOKUP_NEEDED;
  chk_dst : state c ACL_DST_DOMAIN = ACL_LOOKUP_NEEDED -> is_Some (safe_inet_addr (host (r_url (default no_request (request c)))));
  chk_ident : state c ACL_IDENT = ACL_LOOKUP_NEEDED -> user c = [] }.

Lemma chk_ok_grown w c c' : grown w c c' -> chk_ok c -> chk_ok c'.
Proof.
  intros [(E1 & _) (U1 & U2 & _) Hs] [H1 H2 H3 H4 H5]. unfold user in *.
  split; unfold user; rewrite <- ?E1, <- ?U1, <- ?U2; try done.
  - destruct (Hs ACL_PROXY_AUTH) as [->|[[] _]]; done.
  - destruct (Hs ACL_EXTERNAL) as [->|[[] _]]; done.
  - destruct (Hs ACL_DST_DOMAIN) as [->|[(_ & a & Ha & _) _]]; [done | intros _; by exists a].
  - destruct (Hs ACL_IDENT) as [->|[Ha _]]; [done | intros _; exact Ha].
Qed.

(** One of the lookups that are wanted is started. *)
Lemma next_lookup_spec es cur c :
  chk_ok c ->
  (exists l, next_lookup (regex:=regex) es cur c = Start (Waits l) (set_state (lookup_acl l) ACL_LOOKUP_PENDING c) /\
     lookup_acl l ∈ lookups /\ state c (lookup_acl l) = ACL_LOOKUP_NEEDED /\ keyed c l) \/
  next_lookup (regex:=regex) es cur c = Nothing /\ ~ wants c.
Proof.
  intros [H1 [H2 H2'] H3 H4 H5]. unfold next_lookup.
  assert (Hl : forall n, n ∈ lookups <-> n = ACL_DST_IP \/ n = ACL_DST_ASN \/ n = ACL_SRC_DOMAIN \/ n = ACL_DST_DOMAIN \/ n = ACL_IDENT).
  { intros n. unfold lookups. set_solver. }
  destruct (decide (state c ACL_DST_IP = _)) as [E1|E1]; [left; eexists (Dst_IP _); split; [reflexivity | split; [apply Hl; auto | by split]]|].
  destruct (decide (state c ACL_DST_ASN = _)) as [E2|E2]; [left; eexists (Dst_ASN _); split; [reflexivity | split; [apply Hl; auto | by split]]|].
  destruct (decide (state c ACL_SRC_DOMAIN = _)) as [E3|E3]; [left; eexists (Src_FQDN _); split; [reflexivity | split; [apply Hl; auto | by split]]|].
  destruct (decide (state c ACL_DST_DOMAIN = _)) as [E4|E4].
  { destruct (H4 E4) as [a Ea]. rewrite Ea. left. eexists (Dst_FQDN _). split; [reflexivity | split; [apply Hl; auto | by split]]. }
  rewrite (decide_False _ _ H2), (decide_False _ _ H2').
  destruct (decide (state c ACL_IDENT = _)) as [E5|E5].
  { destruct H1 as [n ->]. left. exists Ident. split; [reflexivity | split; [apply Hl; auto 10 | by split]]. }
  rewrite (decide_False _ _ H3). right. split; [done|]. intros (n & Hn & E). apply Hl in Hn. intuition congruence.
Qed.

Definition to_allow (b : bool) : allow_t := if b then ACCESS_ALLOWED else ACCESS_DENIED.

(** The lines before the one at which a check waits did not match. *)
Definition passed (es0 : list acl) (w : world) (c : aclCheck_t) (u : list Z) (A A' : list acl_access) : Prop :=
  exists pre a rest, A = pre ++ a :: rest /\ A' = a :: rest /\ forallb (fun a => negb (line_matches es0 w c u a)) pre = true.

Definition check_result (es0 : list acl) (w W : world) (u : list Z) (s : st) (A : list acl_access) (l : bool)
    (r : option (outcome * list acl_access * st)) : Prop :=
  exists s', good_store es0 s' /\ grown w (chk s) (chk s') /\
    ((exists k A', r = Some (Waits k, A', set_chk (set_state (lookup_acl k) ACL_LOOKUP_PENDING (chk s')) s') /\
        lookup_acl k ∈ lookups /\ state (chk s') (lookup_acl k) = ACL_LOOKUP_NEEDED /\ keyed (chk s') k /\ passed es0 W (chk s) u A A') \/
     r = Some (Answered (to_allow (policy_from es0 W (chk s) u l A)), [], aclCheckCleanup s')).

Lemma check_lines_result es0 w W u A l s :
  good_store es0 s -> settled w W (chk s) -> env_ok W (chk s) u -> chk_ok (chk s) -> usable_lines es0 A ->
  check_result es0 w W u s A l (check_lines w A (to_allow l) s).
Proof.
  intros Hs Hw0 He Hc Hl. revert l s Hs Hw0 He Hc. induction Hl as [|a A Ha _ IH]; intros l s Hs Hw0 He Hc; cbn [Acl.check_lines].
  - exists s. split; [done|]. split; [apply grown_refl|]. right. by destruct l.
  - destruct (match_list_result es0 w W u _ s Hs Hw0 He Ha) as (b & cur & s1 & -> & Hs1 & Hg & Hb). cbn [mbind option_bind mret option_ret].
    assert (Hact : (if Z.b2z b =? -1 then ACCESS_DENIED else if allow a then ACCESS_ALLOWED else ACCESS_DENIED) = to_allow (allow a)).
    { by destruct b. }
    rewrite Hact. destruct (next_lookup_spec (elements s1) cur (chk s1) (chk_ok_grown _ _ _ Hg Hc)) as [(k & -> & Hk & Hn & Hkey)|[-> Hw]].
    + exists s1. split; [done|]. split; [done|]. left. exists k, (a :: A). split_and!; [done | done | done | done|]. by exists [], a, A.
    + destruct Hb as [[Ec Eb]|Hb]; [|done]. change (b = line_matches es0 W (chk s) u a) in Eb. rewrite Eb. cbn [policy_from].
      destruct (line_matches es0 W (chk s) u a) eqn:Em; cbn [Z.b2z Z.eqb].
      * exists s1. split; [done|]. split; [done|]. right. cbn [policy_from]. by rewrite Em.
      * destruct (IH (allow a) s1 Hs1 (settled_grown _ _ _ _ Hg Hw0) (env_grown _ _ _ _ _ Hg He) (chk_ok_grown _ _ _ Hg Hc)) as (s2 & Hs2 & Hg2 & Hr).
        exists s2. split; [done|]. split; [by eapply grown_trans|]. rewrite Ec in Hr. cbn [policy_from]. rewrite Em.
        destruct Hr as [(k & A' & E & Hk & Hn & Hkey & pre & b' & rest & -> & -> & Hp)|Hr]; [left | by right].
        exists k, (b' :: rest). split_and!; [done | done | done | done|]. exists (a :: pre), b', rest. split_and!; [done | done|].
        cbn. by rewrite Em.
Qed.

(** The lookups that can still be started. *)
Definition is_open (c : aclCheck_t) (n : squid_acl) : nat :=
  match state c n with ACL_LOOKUP_NONE | ACL_LOOKUP_NEEDED => 1 | _ => 0 end.

Definition open_lookups (c : aclCheck_t) : nat :=
  is_open c ACL_DST_IP + is_open c ACL_DST_ASN + is_open c ACL_SRC_DOMAIN + is_open c ACL_DST_DOMAIN +
  match user c with [] => 1 | _ => 0 end.

Lemma open_lookups_max c : (open_lookups c <= 5)%nat.
Proof.
  unfold open_lookups. assert (H : forall n, (is_open c n <= 1)%nat) by (intros n; unfold is_open; destruct (state c n); lia).
  pose proof (H ACL_DST_IP). pose proof (H ACL_DST_ASN). pose proof (H ACL_SRC_DOMAIN). pose proof (H ACL_DST_DOMAIN).
  destruct (user c); lia.
Qed.

Lemma open_lookups_grown w c c' : grown w c c' -> open_lookups c' = open_lookups c.
Proof.
  intros [_ (U1 & U2 & _) Hs]. unfold open_lookups, user, is_open. rewrite U1, U2.
  destruct (Hs ACL_DST_IP) as [->|[[-> _] ->]], (Hs ACL_DST_ASN) as [->|[[-> _] ->]],
    (Hs ACL_SRC_DOMAIN) as [->|[[-> _] ->]], (Hs ACL_DST_DOMAIN) as [->|[[-> _] ->]]; done.
Qed.

Lemma done_result w u n c :
  env_ok w c u -> chk_ok c -> n ∈ lookups -> n <> ACL_IDENT -> state c n = ACL_LOOKUP_NEEDED ->
  let c' := set_state n ACL_LOOKUP_DONE (set_state n ACL_LOOKUP_PENDING c) in
  env_ok w c' u /\ chk_ok c' /\ (open_lookups c' < open_lookups c)%nat.
Proof.
  intros He [H1 H2 H3 H4 H5] Hn Hi Hs c'.
  assert (Eo : forall m, m <> n -> state c' m = state c m) by (intros m Hm; cbn; by rewrite !decide_False).
  assert (En : state c' n = ACL_LOOKUP_DONE) by (cbn; by rewrite decide_True).
  assert (Hne : n <> ACL_PROXY_AUTH /\ n <> ACL_EXTERNAL) by (split; intros ->; revert Hn; apply (bool_decide_unpack _); exact I).
  split; [by destruct He | split].
  - split; [done | rewrite !Eo by naive_solver; done | rewrite Eo by naive_solver; done | | rewrite Eo by done; done].
    destruct (decide (n = ACL_DST_DOMAIN)) as [->|]; [by rewrite En | rewrite Eo by done; done].
  - unfold open_lookups, is_open. change (user c') with (user c).
    destruct n; try (exfalso; revert Hn; apply (bool_decide_unpack _); exact I); try done;
      rewrite En, Hs, !Eo by done; destruct (user c); lia.
Qed.

Lemma ident_result w u ident c :
  env_ok w c u -> chk_ok c -> u <> [] -> (user c = [] -> u = take (pred USER_IDENT_SZ) (default [45] ident)) ->
  state c ACL_IDENT = ACL_LOOKUP_NEEDED ->
  let c' := set_users u (match conn_rfc931 c with Some [] => Some u | o => o end) (set_state ACL_IDENT ACL_LOOKUP_PENDING c) in
  env_ok w c' u /\ chk_ok c' /\ (open_lookups c' < open_lookups c)%nat /\ user c' = u.
Proof.
  intros He [H1 H2 H3 H4 H5] Hu Hid Hs c'. assert (Eu : user c' = u) by (unfold user; cbn; by destruct u).
  assert (Eo : forall m, m <> ACL_IDENT -> state c' m = state c m) by (intros m Hm; cbn; by rewrite decide_False).
  split; [destruct He; split; try done|]. split.
  - split; [|by rewrite !Eo | by rewrite Eo | by rewrite Eo | cbn; by rewrite decide_True].
    cbn. destruct H1 as [[|x n] ->]; by eexists.
  - split; [|done]. unfold open_lookups, is_open. rewrite Eu, (H5 Hs), !Eo by done. destruct u; [done | lia].
Qed.

(** What a lookup leaves: the same request, one lookup less to start. *)
Lemma resume_result w W u ans k s :
  let c := chk s in
  finds W ans -> settled w W c -> keyed c k ->
  env_ok W c u -> chk_ok c -> u <> [] -> (user c = [] -> u = take (pred USER_IDENT_SZ) (default [45] (ident ans))) ->
  lookup_acl k ∈ lookups -> state c (lookup_acl k) = ACL_LOOKUP_NEEDED ->
  let c' := chk (resume ans k (set_chk (set_state (lookup_acl k) ACL_LOOKUP_PENDING c) s)) in
  settled (world_after ans k w) W c' /\
  env_ok W c' u /\ chk_ok c' /\ same_request c c' /\ (open_lookups c' < open_lookups c)%nat /\
  (user c' = [] -> u = take (pred USER_IDENT_SZ) (default [45] (ident ans))).
Proof.
  intros c Hf Hw Hkey He Hc Hu Hid Hk Hn c'. destruct (decide (lookup_acl k = ACL_IDENT)) as [Ek|Ek].
  - destruct k; try discriminate Ek. destruct (ident_result W u (ident ans) c He Hc Hu Hid Hn) as (R1 & R2 & R3 & R4).
    assert (Ec : c' = set_users u (match conn_rfc931 c with Some [] => Some u | o => o end) (set_state ACL_IDENT ACL_LOOKUP_PENDING c)).
    { rewrite (Hid (chk_ident _ Hc Hn)). reflexivity. }
    rewrite Ec. split_and!; [|done..|by rewrite R4]. apply (settled_answer w W ans Ident c); [done..|].
    intros n. cbn. destruct (decide (n = ACL_IDENT)); [by left | by right].
  - destruct (done_result W u (lookup_acl k) c He Hc Hk Ek Hn) as (R1 & R2 & R3).
    assert (Ec : c' = set_state (lookup_acl k) ACL_LOOKUP_DONE (set_state (lookup_acl k) ACL_LOOKUP_PENDING c)).
    { destruct k; try done. exfalso; revert Hk; apply (bool_decide_unpack _); exact I. }
    rewrite Ec. split_and!; [|done..]. apply (settled_answer w W ans k c); [done..|].
    intros n. cbn. destruct (decide (n = lookup_acl k)); [by left | by right].
Qed.

Lemma store_resume es0 ans k s : good_store es0 s -> good_store es0 (resume ans k s).
Proof. destruct k; apply store_chk. Qed.

Lemma run_result es0 w W u ans fuel A s l :
  finds W ans -> good_store es0 s -> settled w W (chk s) -> env_ok W (chk s) u -> chk_ok (chk s) -> usable_lines es0 A -> u <> [] ->
  (user (chk s) = [] -> u = take (pred USER_IDENT_SZ) (default [45] (ident ans))) ->
  (open_lookups (chk s) <= fuel)%nat -> (A = [] -> l = false) ->
  exists s', run fuel w ans A s = Some (to_allow (policy_from es0 W (chk s) u l A), s') /\ good_store es0 s'.
Proof.
  intros Hf. revert w A s l. induction fuel as [|fuel IH]; intros w A s l Hs Hw He Hc Hl Hu Hid Ho HA;
    destruct (check_lines_result es0 w W u A false s Hs Hw He Hc Hl) as (s1 & Hs1 & Hg & Hr);
    assert (Ep : policy_from es0 W (chk s) u false A = policy_from es0 W (chk s) u l A) by (destruct A; [by rewrite HA | done]);
    pose proof (settled_grown _ _ _ _ Hg Hw) as Hw1; pose proof (env_grown _ _ _ _ _ Hg He) as He1; pose proof (chk_ok_grown _ _ _ Hg Hc) as Hc1;
    assert (Hid1 : user (chk s1) = [] -> u = take (pred USER_IDENT_SZ) (default [45] (ident ans)))
      by (destruct Hg as [_ (U1 & U2 & _) _]; unfold user in *; by rewrite <- U1, <- U2);
    rewrite Ep in Hr; cbn [run]; unfold Acl.aclCheck; change ACCESS_DENIED with (to_allow false);
    destruct Hr as [(k & A' & -> & Hk & Hn & Hkey & Hp)| ->]; cbn [mbind option_bind mret option_ret].
  - exfalso. rewrite <- (open_lookups_grown _ _ _ Hg) in Ho.
    destruct (resume_result w W u ans k s1 Hf Hw1 Hkey He1 Hc1 Hu Hid1 Hk Hn) as (_ & _ & _ & _ & H & _). lia.
  - eexists. split; [reflexivity | by apply store_cleanup].
  - destruct (resume_result w W u ans k s1 Hf Hw1 Hkey He1 Hc1 Hu Hid1 Hk Hn) as (R0 & R1 & R2 & R3 & R4 & R5).
    destruct Hp as (pre & a & rest & -> & -> & Hp). apply Forall_app in Hl as [_ Hl].
    destruct (IH (world_after ans k w) (a :: rest) _ false (store_resume es0 ans k _ (store_chk _ _ _ Hs1)) R0 R1 R2 Hl Hu R5) as (s2 & E2 & Hs2); [|done|].
    { rewrite <- (open_lookups_grown _ _ _ Hg) in Ho. lia. }
    exists s2. split; [|done]. rewrite E2, policy_from_skip by done. do 2 f_equal.
    f_equal. apply policy_from_same, same_request_sym. eapply same_request_trans; [apply Hg | exact R3].
  - eexists. split; [reflexivity | by apply store_cleanup].
Qed.


End AclCheck.
