(* ===== verification/AclConf.v ===== *)
(** * The configuration of access lists

    Elements keep the type of data that matching reads, from the lines of the
    configuration through any checks, and their trees are in order: what the
    theorems of AclCheck.v suppose of a configuration, the lines of a file give. *)

From S2P Require Import Prelude CString Dns Splay Escape Url AclData Acl AclCheck.

Section AclConf.

Context {regex : Type}.
Context (regcomp : bool -> list Z -> option regex) (regexec : regex -> list Z -> bool).
Context (gethostbyname : list Z -> option (list Z)) (localtime : Z -> tm).
Context (methods : list (list Z)) (auth_configured : bool).
Context (find_external : list Z -> option (Z * bool)).
Context (makeExternalAclKey : aclCheck_t -> external -> option (list Z)).

Abbreviation acl := (@acl regex).
Abbreviation acl_data := (@acl_data regex).
Abbreviation st := (@st regex).
Abbreviation match_data := (match_data regexec).
Abbreviation parse_data := (parse_data regcomp gethostbyname methods auth_configured find_external).
Abbreviation aclParseAclLine := (aclParseAclLine regcomp gethostbyname methods auth_configured find_external).
Abbreviation aclMatchAcl := (aclMatchAcl regexec localtime makeExternalAclKey).

(** ** Names of types *)

Lemma type_name_roundtrip t : aclStrToType (aclTypeToStr t) = Some t.
Proof. by destruct t. Qed.

(** ** Lines *)

(** The [acl] lines of a file, each by its words. *)
Fixpoint read_acls (lines : list (list (list Z))) (es : list acl) : parsed (list acl) :=
  match lines with
  | [] => Parsed es
  | l :: lines => parsed_bind (read_acls lines) (aclParseAclLine l es)
  end.

Lemma parsed_bind_inv {A B} (f : A -> parsed B) p b : parsed_bind f p = Parsed b -> exists a, p = Parsed a /\ f a = Parsed b.
Proof. destruct p as [a|]; cbn; [by exists a | done]. Qed.

Lemma parse_data_fits t words d d' :
  d = null_data t \/ fits t d = true -> parse_data t words d = Parsed d' -> fits t d' = true.
Proof.
  intros [->|Hd].
  - destruct t; cbn; try (intros (x & _ & [= <-])%parsed_bind_inv; done); try (by intros [= <-]);
      try (destruct auth_configured; [by intros [= <-] | done]).
    + destruct words as [|x [|y l]]; [done | by destruct (bool_decide _); intros [= <-] | by destruct (bool_decide _); intros [= <-]].
    + destruct (aclParseExternal find_external words); [by intros [= <-] | done].
  - destruct t, d; try discriminate Hd; cbn; try (intros (x & _ & [= <-])%parsed_bind_inv; done); try (by intros [= <-]);
      try done; destruct auth_configured; by intros [= <-].
Qed.

Definition typed (a : acl) : Prop := fits (type a) (data a) = true.

(** A name is declared once; its case does not count. *)
Definition names_apart (es : list acl) : Prop := NoDup (map (fun a => map tolower (name a)) es).

Lemma find_none es n : aclFindByName (regex:=regex) es n = None -> map tolower n ∉ map (fun a => map tolower (name a)) es.
Proof.
  unfold aclFindByName. intros H%list_find_None Hin. apply list_elem_of_In, in_map_iff in Hin as (a & E & Ha).
  rewrite Forall_forall in H. apply (H a); [by apply list_elem_of_In|]. unfold strcasecmp_eq. by apply bool_decide_eq_true.
Qed.

Lemma acl_line_ok words es es' :
  aclParseAclLine words es = Parsed es' -> Forall typed es -> names_apart es -> Forall typed es' /\ names_apart es'.
Proof.
  intros H Ht Hn. unfold Acl.aclParseAclLine in H. destruct words as [|n [|t words]]; [done | done|].
  destruct (aclStrToType t) as [acltype|]; [|done].
  destruct (aclFindByName es (take (pred ACL_NAME_SZ) n)) as [[k a]|] eqn:Ef.
  - destruct (bool_decide (acltype = type a)) eqn:Et; [|done]. apply bool_decide_eq_true in Et.
    apply parsed_bind_inv in H as (d & Hd & [= <-]). apply list_find_Some in Ef as (Hk & _ & _). split.
    + apply Forall_insert; [done|]. unfold typed. cbn. rewrite Et in Hd. eapply parse_data_fits; [right|exact Hd].
      rewrite Forall_forall in Ht. by apply (Ht a), (list_elem_of_lookup_2 _ k).
    + unfold names_apart. rewrite list_fmap_insert. cbn. rewrite list_insert_id; [done|]. by rewrite list_lookup_fmap, Hk.
  - apply parsed_bind_inv in H as (d & Hd & [= <-]). split.
    + apply Forall_app. split; [done|]. constructor; [|done]. unfold typed. cbn. eapply parse_data_fits; [by left | exact Hd].
    + unfold names_apart. rewrite map_app. apply NoDup_app. split; [done|]. split; [|apply NoDup_singleton].
      intros x Hx ->%list_elem_of_singleton. by apply find_none in Ef.
Qed.

Lemma read_acls_ok lines es es' :
  read_acls lines es = Parsed es' -> Forall typed es -> names_apart es -> Forall typed es' /\ names_apart es'.
Proof.
  revert es. induction lines as [|l lines IH]; intros es; cbn; [by intros [= ->]|].
  intros (e1 & H1 & H2)%parsed_bind_inv Ht Hn. destruct (acl_line_ok _ _ _ H1 Ht Hn). by eapply IH.
Qed.

(** ** Matching *)

(** [t] and whether it was declared empty do not change. *)
Definition keeps (t : squid_acl) (d d' : acl_data) : Prop :=
  fits t d' = true /\ empty_decl (Acl [] t d') = empty_decl (Acl [] t d).

Lemma match_ips_typed top addrs : exists top', new_data (match_ips (regex:=regex) top addrs) = D_ip top'.
Proof.
  revert top. induction addrs as [|x addrs IH]; intros top; cbn; [by eexists|].
  destruct (aclMatchIp top x) as [[|] top']; [by eexists | apply IH].
Qed.

Ltac typed_cases :=
  repeat (cbn [matched new_data need]; match goal with
  | |- exists a, Some ?b = Some a /\ _ => exists b
  | |- context [match ?x with _ => _ end] => lazymatch x with context [match _ with _ => _ end] => fail | _ => destruct x end
  end); (split; [reflexivity | by split]).

Lemma match_data_typed w c t d :
  fits t d = true -> by_data t = true -> empty_decl (Acl [] t d) = false ->
  exists a, match_data w c t d = Some a /\ keeps t d (new_data a).
Proof.
  intros Hf Hb Hne. destruct t; try discriminate Hb; destruct d; try discriminate Hf; clear Hb Hf;
    cbn [Acl.match_data]; cbv zeta;
    unfold match_ip_data, match_domain_data, match_regex_data, match_user_data, fqdn_of, plain; try (clear Hne; by typed_cases).
  - destruct (ipcache_gethostbyname w _) as [l|]; [|typed_cases]. eexists. split; [reflexivity|].
    destruct (match_ips_typed top l) as [top' ->]. by split.
  - destruct l as [|i l]; [done|]. cbn. eexists. by split.
Qed.

(** The elements after matching: the same names and types, with data of the type. *)
Definition kept (a a' : acl) : Prop := name a = name a' /\ type a = type a' /\ keeps (type a) (data a) (data a').

Definition sound (es : list acl) : Prop := Forall (fun a => typed a /\ empty_decl a = false) es.

Lemma kept_refl a : typed a -> kept a a.
Proof. intros H. split_and!; [done | done | by split]. Qed.

#[local] Instance kept_trans : Transitive kept.
Proof.
  intros a a' a''.
  unfold kept, keeps, empty_decl. destruct a, a', a''. cbn. intros (-> & -> & F1 & E1) (-> & -> & F2 & E2).
  split_and!; [done | done | done | by rewrite E2].
Qed.

Lemma kept_sound es es' : Forall2 kept es es' -> sound es -> sound es'.
Proof.
  unfold sound. induction 1 as [|a a' es es' (E1 & E2 & F & E) _ IH]; [done|]. intros [[_ Hn] Hs]%Forall_cons.
  constructor; [|by apply IH]. unfold typed. rewrite <- E2. split; [done|]. destruct a, a'. cbn in *. subst. etrans; [exact E | exact Hn].
Qed.

Lemma kept_all es : sound es -> Forall2 kept es es.
Proof. unfold sound. induction 1 as [|a es [Ht _] _ IH]; constructor; [by apply kept_refl | done]. Qed.

Lemma kept_set es k a d :
  sound es -> es !! k = Some a -> keeps (type a) (data a) d -> Forall2 kept es (alter (fun a => Acl (name a) (type a) d) k es).
Proof.
  intros Hs Hk Hd. apply Forall2_alter_r; [by apply kept_all|]. intros x y Hx Hy _. rewrite Hk in Hx, Hy.
  injection Hx as <-. injection Hy as <-. by split_and!.
Qed.

Lemma proxy_auth_typed w k a s :
  sound (elements s) -> elements s !! k = Some a -> is_auth (type a) = true ->
  exists r s', aclMatchProxyAuth regexec w k (data a) s = Some (r, s') /\ Forall2 kept (elements s) (elements s').
Proof.
  intros Hs Hk Ht. pose proof (kept_set _ _ _ (data a) Hs Hk) as Hset.
  assert (Hf : typed a) by (unfold sound in Hs; rewrite Forall_forall in Hs; by apply (Hs a), (list_elem_of_lookup_2 _ k)).
  unfold aclMatchProxyAuth, aclCacheMatchAcl. destruct (list_find _ _) as [[i e]|]; [eexists _, _; split; [reflexivity | apply Hset; by split]|].
  clear Hset. unfold typed in Hf.
  destruct (data a) as [| | | |l| | | |u| | |] eqn:Ed; try (by destruct (type a)).
  - destruct (aclMatchRegex regexec l _) as [b l']. eexists _, _. split; [reflexivity|]. apply (kept_set _ k a); [done | done|].
    rewrite Ed. by destruct (type a).
  - destruct (aclMatchUser u _) as [b u']. eexists _, _. split; [reflexivity|]. apply (kept_set _ k a); [done | done|].
    rewrite Ed. by destruct (type a).
Qed.

Lemma elements_need n (s : st) : elements (set_need n s) = elements s.
Proof. by destruct n. Qed.

Lemma elements_set_chk c (s : st) : elements (set_chk c s) = elements s.
Proof. done. Qed.

(** Asking an element never goes wrong, and keeps the elements. *)
Lemma match_acl_typed w k s :
  sound (elements s) -> exists r s', aclMatchAcl w k s = Some (r, s') /\ Forall2 kept (elements s) (elements s').
Proof.
  intros Hs. unfold Acl.aclMatchAcl. destruct (elements s !! k) as [a|] eqn:Hk; [|eexists _, _; split; [reflexivity | by apply kept_all]].
  destruct (needs_request (type a) && _); [eexists _, _; split; [reflexivity | by apply kept_all]|].
  assert (Ha : typed a /\ empty_decl a = false) by (unfold sound in Hs; rewrite Forall_forall in Hs; by apply Hs, (list_elem_of_lookup_2 _ k)).
  destruct Ha as [Hf Hne]. unfold typed in Hf. destruct (by_data (type a)) eqn:Eb.
  - assert (H : exists x, match_data w (chk s) (type a) (data a) = Some x /\ keeps (type a) (data a) (new_data x)).
    { apply match_data_typed; [done | done|]. by destruct a. }
    destruct H as (x & Ex & Hx).
    assert (E : exists r s', (a ← match_data w (chk s) (type a) (data a); mret (Z.b2z (matched a), set_need (need a) (set_data k (new_data a) s)))
                  = Some (r, s') /\ Forall2 kept (elements s) (elements s')).
    { rewrite Ex. eexists _, _. split; [reflexivity|]. rewrite elements_need. by apply (kept_set _ k a). }
    destruct (type a); try discriminate Eb; exact E.
  - pose proof (fun c => proxy_auth_typed w k a (set_chk c s) Hs Hk) as Hauth.
    destruct (type a) eqn:Et; try discriminate Eb; destruct (data a) eqn:Ed; try discriminate Hf.
    + unfold empty_decl in Hne. rewrite Et, Ed in Hne. destruct l; [done|]. eexists _, _. split; [reflexivity | by apply kept_all].
    + destruct (aclAuthenticated w (chk s)) as [ti c]. destruct (negb (ti =? 1)); [eexists _, _; split; [reflexivity | by apply kept_all]|].
      by apply Hauth.
    + destruct (aclAuthenticated w (chk s)) as [ti c]. destruct (negb (ti =? 1)); [eexists _, _; split; [reflexivity | by apply kept_all]|].
      by apply Hauth.
    + destruct (aclAuthenticated w (chk s)) as [ti c]. destruct (negb (ti =? 1)); [eexists _, _; split; [reflexivity | by apply kept_all]|].
      unfold aclMatchUserMaxIP. destruct (_ <=? max); (eexists _, _; split; [reflexivity | by apply kept_all]).
    + destruct (aclMatchExternal makeExternalAclKey w x (chk s)) as [r c]. eexists _, _. split; [reflexivity | by apply kept_all].
Qed.

(** Elements that are asked one after another. *)
Fixpoint ask_all (l : list (world * nat)) (s : st) : option st :=
  match l with
  | [] => Some s
  | (w, k) :: l => '(_, s) ← aclMatchAcl w k s; ask_all l s
  end.

(** C27: type safety: the [acl] lines of a file declare each name once and give every
    element data of its type; unless a [time] or [maxconn] element was declared
    empty, asking the elements in any order for any requests never reads data as
    what it is not nor a null pointer, and leaves data of the same types. *)
Theorem acl_type_safe lines es c l :
  read_acls lines [] = Parsed es -> Forall (fun a => empty_decl a = false) es ->
  names_apart es /\
  exists s, ask_all l (St es (0, Tm 0 0 0) ∅ ∅ c) = Some s /\ Forall2 kept es (elements s).
Proof.
  intros H Hne. destruct (read_acls_ok _ _ _ H) as [Ht Hn]; [constructor | apply NoDup_nil_2 | split; [exact Hn|]].
  assert (Hs : sound es) by (unfold sound; rewrite Forall_and; by split).
  set (s0 := St es (0, Tm 0 0 0) ∅ ∅ c). change es with (elements s0) in Hs |- * at 1. clearbody s0. clear H Hn Hne Ht.
  revert s0 Hs. induction l as [|[w k] l IH]; intros s0 Hs.
  - exists s0. split; [done | by apply kept_all].
  - destruct (match_acl_typed w k s0 Hs) as (r & s1 & E1 & Hk). destruct (IH s1 (kept_sound _ _ Hk Hs)) as (s2 & E2 & Hk2).
    exists s2. cbn. rewrite E1. split; [exact E2|]. by etrans.
Qed.

(** ** Trees in order *)

(** The words of a line, for an element with data [d]: networks with masks and ranges that
    are not reversed, domains, names; [-i] only on the first line of users. *)
Definition words_good (t : squid_acl) (d : acl_data) (words : list (list Z)) : Prop :=
  match t with
  | ACL_SRC_IP | ACL_DST_IP | ACL_MY_IP => forall es, ip_entries gethostbyname words = Parsed es -> Forall entry_ok es
  | ACL_SRC_DOMAIN | ACL_DST_DOMAIN => Forall domain_good (map (map tolower) words)
  | ACL_IDENT | ACL_PROXY_AUTH => Forall is_name words /\ (d = D_none \/ head words <> Some (bytes "-i"))
  | _ => True
  end.

Definition words_good_b (t : squid_acl) (d : acl_data) (words : list (list Z)) : bool :=
  match t with
  | ACL_SRC_IP | ACL_DST_IP | ACL_MY_IP =>
      match ip_entries gethostbyname words with Parsed es => forallb entry_ok_b es | SelfDestruct => true end
  | ACL_SRC_DOMAIN | ACL_DST_DOMAIN => forallb domain_good_b (map (map tolower) words)
  | ACL_IDENT | ACL_PROXY_AUTH =>
      forallb (forallb (fun c => (0 <? c) && (c <? 256))) words &&
      (match d with D_none => true | _ => false end || negb (bool_decide (head words = Some (bytes "-i"))))
  | _ => true
  end.

Lemma is_name_sound s : forallb (fun c => (0 <? c) && (c <? 256)) s = true -> is_name s.
Proof. apply Forall_sound. intros c Hc. lia. Qed.

Lemma words_good_sound t d words : words_good_b t d words = true -> words_good t d words.
Proof.
  assert (Hu : forall b, forallb (forallb (fun c => (0 <? c) && (c <? 256))) words && (b || negb (bool_decide (head words = Some (bytes "-i")))) = true ->
            Forall is_name words /\ (b = true \/ head words <> Some (bytes "-i"))).
  { intros b [H1 H2]%andb_true_iff. split; [by apply (Forall_sound _ _ _ is_name_sound)|]. apply orb_true_iff in H2 as [H2|H2]; [by left|].
    right. by apply negb_true_iff, bool_decide_eq_false in H2. }
  destruct t; cbn; try done; try (intros H es E; rewrite E in H; by apply entries_ok_sound);
    try (apply (Forall_sound _ _ _ domain_good_sound)); intros [H1 [H2|H2]]%Hu; (split; [done|]); [left | by right | left | by right]; by destruct d.
Qed.

Lemma insert_users_ok words u : Forall is_name words -> users_ok u -> users_ok (fold_left insert_user words u).
Proof.
  intros Hw. revert u. induction Hw as [|t words Ht _ IH]; intros u Hu; [done|]. cbn. apply IH, (insert_user_ok u t Ht Hu).
Qed.

Lemma no_users_ok ci req : users_ok (UserData Null ci req).
Proof. split; [by repeat constructor | constructor]. Qed.

Lemma parse_users_ok words cur :
  Forall is_name words -> (cur = None \/ head words <> Some (bytes "-i")) -> (forall u, cur = Some u -> users_ok u) ->
  users_ok (aclParseUserList words cur).
Proof.
  intros Hw Hi Hc. unfold aclParseUserList.
  assert (Hd : users_ok (default (UserData Null false false) cur)) by (destruct cur; [by apply Hc | apply no_users_ok]).
  destruct words as [|t words]; [done|]. inversion_clear Hw as [|? ? Ht Hw']. apply insert_users_ok; [done|].
  destruct (bool_decide (bytes "-i" = t)) eqn:E1.
  - apply bool_decide_eq_true in E1. subst t. destruct Hi as [->|Hi]; [apply no_users_ok | done].
  - destruct (bool_decide (bytes "REQUIRED" = t)); [|by apply insert_user_ok]. destruct Hd as [H1 H2]. by split.
Qed.

Context (gethostbyname_ok : forall name l, gethostbyname name = Some l -> Forall ip_key l).

Lemma parse_ips_ok words top top' :
  tree_ok (walk top) -> (forall es, ip_entries gethostbyname words = Parsed es -> Forall entry_ok es) ->
  aclParseIpList gethostbyname words top = Parsed top' -> tree_ok (walk top').
Proof.
  intros Hok Hw. rewrite parse_ip_list. intros (es & E & [= <-])%parsed_bind_inv.
  apply build_ok; [by eapply entries_good, Hw | done].
Qed.

Lemma parse_domains_ok words top :
  tree_ok (H:=domain_intervals) (walk top) -> Forall domain_good (map (map tolower) words) ->
  tree_ok (H:=domain_intervals) (walk (aclParseDomainList words top)).
Proof. intros Hok Hw. rewrite parse_domains. by apply (build_ok (H:=domain_intervals)). Qed.

Lemma parse_data_ok t words d d' :
  d = null_data t \/ data_ok d -> words_good t d words -> parse_data t words d = Parsed d' -> data_ok d'.
Proof.
  intros Hd Hw.
  assert (Hd' : data_ok d) by (destruct Hd as [->|]; [destruct t; cbn; try done; by repeat constructor | done]). clear Hd.
  destruct t, d; try discriminate; cbn in *; try (by intros [= <-]); try (by intros (x & _ & [= <-])%parsed_bind_inv).
  all: try (intros (top' & E & [= <-])%parsed_bind_inv; by eapply parse_ips_ok).
  all: try (intros [= <-]; by apply parse_domains_ok).
  - intros [= <-]. apply parse_users_ok; [apply Hw | by left | done].
  - intros [= <-]. destruct Hw as [Hw [|Hi]]; [done|]. apply parse_users_ok; [done | by right | by intros ? [= <-]].
  - destruct auth_configured; [|done]. intros [= <-]. apply parse_users_ok; [apply Hw | by left | done].
  - destruct auth_configured; [|done]. intros [= <-]. destruct Hw as [Hw [|Hi]]; [done|].
    apply parse_users_ok; [done | by right | by intros ? [= <-]].
  - by destruct auth_configured; [intros [= <-]|].
  - unfold aclParseUserMaxIP. destruct words as [|x [|y l]]; [done | by destruct (bool_decide _); intros [= <-] | by destruct (bool_decide _); intros [= <-]].
  - by destruct (aclParseExternal find_external words); [intros [= <-]|].
Qed.

(** The words of a line fit the element that they declare or continue. *)
Definition line_good (words : list (list Z)) (es : list acl) : Prop :=
  match words with
  | n :: t :: words =>
      match aclStrToType t with
      | None => True
      | Some acltype =>
          match aclFindByName es (take (pred ACL_NAME_SZ) n) with
          | None => words_good acltype (null_data acltype) words
          | Some (_, a) => words_good acltype (data a) words
          end
      end
  | _ => True
  end.

Fixpoint lines_good (lines : list (list (list Z))) (es : list acl) : Prop :=
  match lines with
  | [] => True
  | l :: lines =>
      line_good l es /\ match aclParseAclLine l es with Parsed es => lines_good lines es | SelfDestruct => True end
  end.

Definition line_good_b (words : list (list Z)) (es : list acl) : bool :=
  match words with
  | n :: t :: words =>
      match aclStrToType t with
      | None => true
      | Some acltype =>
          match aclFindByName es (take (pred ACL_NAME_SZ) n) with
          | None => words_good_b acltype (null_data acltype) words
          | Some (_, a) => words_good_b acltype (data a) words
          end
      end
  | _ => true
  end.

Fixpoint lines_good_b (lines : list (list (list Z))) (es : list acl) : bool :=
  match lines with
  | [] => true
  | l :: lines => line_good_b l es && match aclParseAclLine l es with Parsed es => lines_good_b lines es | SelfDestruct => true end
  end.

Lemma lines_good_sound lines es : lines_good_b lines es = true -> lines_good lines es.
Proof.
  revert es. induction lines as [|l lines IH]; intros es; [done|]. cbn [lines_good lines_good_b]. intros [H1 H2]%andb_true_iff. split.
  - unfold line_good, line_good_b in *. destruct l as [|n [|t words]]; [done | done|]. destruct (aclStrToType t); [|done].
    destruct (aclFindByName es _) as [[k a]|]; by apply words_good_sound.
  - destruct (aclParseAclLine l es); [by apply IH | done].
Qed.

Definition in_order (es : list acl) : Prop := Forall (fun a => data_ok (data a)) es.

Lemma acl_line_data words es es' :
  aclParseAclLine words es = Parsed es' -> line_good words es -> in_order es -> in_order es'.
Proof.
  unfold in_order. intros H Hg Hes. unfold Acl.aclParseAclLine in H. destruct words as [|n [|t words]]; [done | done|]. unfold line_good in Hg.
  destruct (aclStrToType t) as [acltype|]; [|done].
  destruct (aclFindByName es (take (pred ACL_NAME_SZ) n)) as [[k a]|] eqn:Ef.
  - destruct (bool_decide (acltype = type a)); [|done]. apply parsed_bind_inv in H as (d & Hd & [= <-]).
    apply list_find_Some in Ef as (Hk & _ & _). apply Forall_insert; [done|]. cbn. eapply parse_data_ok; [right|exact Hg|exact Hd].
    rewrite Forall_forall in Hes. by apply (Hes a), (list_elem_of_lookup_2 _ k).
  - apply parsed_bind_inv in H as (d & Hd & [= <-]). apply Forall_app. split; [done|]. constructor; [|done]. cbn.
    eapply parse_data_ok; [by left | exact Hg | exact Hd].
Qed.

Lemma read_acls_data lines es es' : read_acls lines es = Parsed es' -> lines_good lines es -> in_order es -> in_order es'.
Proof.
  revert es. induction lines as [|l lines IH]; intros es; cbn; [by intros [= ->]|].
  intros (e1 & H1 & H2)%parsed_bind_inv [Hg Hl] Hes. rewrite H1 in Hl. eapply IH; [exact H2 | exact Hl|]. by eapply acl_line_data.
Qed.

(** The lines that allow and deny refer to elements that exist. *)
Lemma access_list_refs (es : list acl) words l : aclParseAclList es words = Parsed l -> Forall (fun e => (acl_ref e < length es)%nat) l.
Proof.
  revert l. induction words as [|t words IH]; intros l; cbn [aclParseAclList]; [by intros [= <-]|].
  match goal with |- context [let '(_, _) := ?x in _] => destruct x as [o t'] end.
  destruct (aclFindByName es t') as [[k a]|] eqn:Ef; [|done]. intros (l' & H & [= <-])%parsed_bind_inv.
  constructor; [|by apply IH]. apply list_find_Some in Ef as (Hk & _). by eapply lookup_lt_Some.
Qed.

(** The elements of such a configuration can be asked, the ones that change others'
    answers apart. *)
Lemma config_usable lines es :
  read_acls lines [] = Parsed es -> lines_good lines [] ->
  Forall (fun a => empty_decl a = false /\ type a <> ACL_EXTERNAL /\ type a <> ACL_MAX_USER_IP) es ->
  forall A, usable_lines es A.
Proof.
  intros H Hg Hes A. assert (Ht : Forall typed es) by (by eapply read_acls_ok; [exact H | | apply NoDup_nil_2]).
  assert (Ho : in_order es) by (by eapply read_acls_data; [exact H | exact Hg | constructor]).
  unfold usable_lines, usable_list. apply Forall_true. intros a. apply Forall_true. intros e x Hx.
  unfold in_order in Ho. rewrite !Forall_forall in *. apply list_elem_of_lookup_2 in Hx.
  specialize (Ht x Hx). specialize (Ho x Hx). specialize (Hes x Hx). unfold typed in Ht.
  destruct Hes as (H1 & H2 & H3). by split_and!.
Qed.

End AclConf.

(** ** An example *)

(** Patterns that match at the start of a text; no resolver, helpers or caches. *)
Module Demo.

Definition words (s : list string) : list (list Z) := map bytes s.

Definition lines : list (list (list Z)) :=
  [words ["our"; "src"; "10.0.0.0/255.0.0.0"; "192.168.1.1-192.168.1.9"]; words ["bad"; "dstdomain"; ".Example.com"];
   words ["hours"; "time"; "MTWHF"; "08:00-18:00"]; words ["users"; "ident"; "alice"; "bob"];
   words ["BAD"; "dstdomain"; "www.foo.org"]; words ["names"; "srcdom_regex"; "pc"]; words ["all"; "src"; "0.0.0.0/0.0.0.0"];
   words ["few"; "maxconn"; "10"]]%string.

Definition read : parsed (list (@acl (list Z))) :=
  read_acls (fun _ p => Some p) (fun _ => None) RequestMethodStr false (fun _ => None) lines [].

Definition es : list acl := match read with Parsed es => es | SelfDestruct => [] end.

Definition access (line : list string) (head : list acl_access) : list acl_access :=
  match aclParseAccessLine es (words line) head with Parsed l => l | SelfDestruct => head end.

Definition A : list acl_access :=
  access ["deny"; "all"] (access ["allow"; "names"; "users"] (access ["allow"; "our"; "!bad"; "hours"] []))%string.

Definition world : world :=
  World (fun _ => None) (fun _ => None) 1000 (fun _ => 0) (fun _ => []) (fun _ => AUTH_AUTHENTICATED) [] (fun _ _ => None) (fun _ => false).

Definition url : request_t := Request METHOD_GET PROTO_HTTP [] (bytes "www.example.com") 80 (bytes "/") true.

Definition check (src : Z) (user : string) : aclCheck_t :=
  aclChecklistCreate (Some (AclRequest url false (fun _ => None))) None src 0 3128 [] (Some []) (Some (bytes user)).

Definition noon (_ : Z) : tm := Tm 12 0 3.

Definition start (c : aclCheck_t) : st := St es (0, Tm 0 0 0) ∅ ∅ c.

Lemma read_es : read = Parsed es.
Proof. vm_compute. reflexivity. Qed.

Lemma can_ask : usable_lines es A.
Proof.
  refine (config_usable _ _ _ _ _ _ _ _ read_es _ _ A); [done | apply lines_good_sound; vm_compute; reflexivity|].
  repeat constructor; discriminate.
Qed.

Lemma env src user : ip_key src -> is_name (bytes user) -> (length (bytes user) < 64)%nat ->
  forall u, is_name u -> (bytes user = [] \/ bytes user = u) -> env_ok world (check src user) u.
Proof.
  intros Hs Hn Hl u Hu Hk. split; try done.
  - intros r [= <-]. apply host_ok_sound. vm_compute. reflexivity.
  - unfold AclCheck.user, check, aclChecklistCreate. cbn [rfc931 conn_rfc931 default]. rewrite take_ge by (unfold USER_IDENT_SZ; cbn; lia).
    destruct Hk as [->| ->]; [done|]. by destruct u.
  - constructor.
  - by left.
Qed.

Lemma acl_type_safe_witness :
  names_apart es /\
  exists s, ask_all (fun p => prefixb p) noon (fun _ _ => None) [(world, 0%nat); (world, 7%nat)] (start (check 167838211 "alice")) = Some s /\
    Forall2 kept es (elements s).
Proof.
  apply (acl_type_safe (fun _ p => Some p) (fun p => prefixb p) (fun _ => None) noon RequestMethodStr false (fun _ => None) (fun _ _ => None) lines es).
  - exact read_es.
  - repeat constructor.
Defined.

(** The caches know what may be asked for. *)
Definition known : Acl.world :=
  World (fun _ => Some [134744072]) (fun _ => Some (bytes "pc7.local")) 1000 (fun _ => 0) (fun _ => []) (fun _ => AUTH_AUTHENTICATED) []
    (fun _ _ => None) (fun _ => false).

Lemma known_ready src : ready known (check src "alice").
Proof. intros n. destruct n; cbn; first [exact (fun H => H) | by intros [_ [=]] | by intros (_ & a & _ & [=]) | done]. Qed.

Lemma env_known_names : env_ok known (check 167838211 "alice") (bytes "alice").
Proof.
  destruct (env 167838211 "alice") with (u := bytes "alice"); [done | by apply is_name_sound | cbn; lia | by apply is_name_sound | by right|].
  split; try done.
  - intros h l [= <-]. by repeat constructor.
  - intros a n [= <-]. apply host_ok_sound. vm_compute. reflexivity.
Qed.

(** The first line does not match the host; the second matches the name and the user. *)
Lemma acl_check_fast_correct_witness :
  policy (fun p => prefixb p) noon es known (check 167838211 "alice") (bytes "alice") A = true /\
  exists s', aclCheckFast (fun p => prefixb p) noon (fun _ _ => None) known A (start (check 167838211 "alice")) = Some (true, s') /\
    good_store (fun p => prefixb p) noon es s'.
Proof.
  assert (E : policy (fun p => prefixb p) noon es known (check 167838211 "alice") (bytes "alice") A = true) by (vm_compute; reflexivity).
  split; [exact E|]. rewrite <- E.
  apply (acl_check_fast_correct (fun p => prefixb p) noon (fun _ _ => None) es known (bytes "alice") A (start (check 167838211 "alice"))).
  - apply good_store_init.
  - exact env_known_names.
  - exact can_ask.
  - apply known_ready.
  - intros n. discriminate.
Defined.

Lemma env_unknown : env_ok world (check 167838211 "") (bytes "eve").
Proof. apply env; [done | constructor | cbn; lia | by apply is_name_sound | by left]. Qed.

Lemma chk_unknown : chk_ok (check 167838211 "").
Proof. split; [by eexists | split; discriminate | discriminate | discriminate | discriminate]. Qed.

(** The caches are empty and each lookup fills them; the user may not pass. *)
Definition lookups_fill : answers := Answers (fun _ _ => known) (Some (bytes "eve")) (fun _ => None).

Lemma env_looked_up : env_ok known (check 167838211 "") (bytes "eve").
Proof.
  destruct env_unknown. split; try done.
  - intros h l [= <-]. by repeat constructor.
  - intros a n [= <-]. apply host_ok_sound. vm_compute. reflexivity.
Qed.

Lemma lookups_find : finds known lookups_fill.
Proof. intros l w H. split; [done|]. split; [by split | by destruct l]. Qed.


(** *** What the code does not mean *)

(** A negated element that waits for an address, before an external one: the state
    that asks for the helper is still set when the address, now known, decides the
    line, and the assertion that the current element is external fails. *)
Definition ext_es : list (@acl (list Z)) :=
  [Acl (bytes "dns") ACL_DST_IP (D_ip (Node Null (IpData 134744072 0 4294967295) Null));
   Acl (bytes "helper") ACL_EXTERNAL (D_external (External 0 false []))].

Definition ext_line : list acl_access := [AclAccess true [AclList false 0; AclList true 1]].

Definition ext_world (addrs : option (list Z)) : Acl.world :=
  World (fun _ => addrs) (fun _ => None) 1000 (fun _ => 0) (fun _ => []) (fun _ => AUTH_AUTHENTICATED) [] (fun _ _ => None) (fun _ => false).

Lemma external_dies :
  let keys := fun _ _ => Some [] in
  let check := aclCheck (fun p => prefixb p) noon keys in
  exists s, check (ext_world None) true ext_line (St ext_es (0, Tm 0 0 0) ∅ ∅ (Demo.check 167838211 "")) =
    Some (Waits (Dst_IP (bytes "www.example.com")), ext_line, s) /\
  check (ext_world (Some [134744072])) true ext_line (aclLookupDone ACL_DST_IP s) = None.
Proof. eexists. split; [reflexivity | vm_compute; reflexivity]. Qed.

End Demo.

(** A check whose lines were freed by a new configuration is allowed. *)
Lemma invalid_allowed {regex} (regexec : regex -> list Z -> bool) localtime keys w A s :
  exists s', aclCheck regexec localtime keys w false A s = Some (Answered ACCESS_ALLOWED, [], s').
Proof. by eexists. Qed.

(** Freeing the headers of an element reads a null pointer. *)
Lemma destroy_header_dies {regex} (l : list (@acl_hdr_data regex)) :
  l <> [] -> Forall (fun h => reglist h <> []) l -> aclDestroyHeader l = None.
Proof.
  intros Hne H. induction H as [|h l Hh Hl IH]; [done|]. cbn. destruct (reglist h); [done|].
  destruct l as [|h' l]; [done|]. by rewrite IH.
Qed.

(** An element with a name of 32 characters or more is stored by the first 31, and no
    line that uses its name finds it. *)
Lemma long_name_lost {regex} (es : list (@acl regex)) n words :
  (32 <= length n)%nat -> head n <> Some 33 -> Forall (fun a => (length (name a) < 32)%nat) es ->
  aclParseAclList es (n :: words) = SelfDestruct.
Proof.
  intros Hn Hb Hes. cbn [aclParseAclList].
  assert (E : match n with 33 :: t => (false, t) | _ => (true, n) end = (true, n)).
  { destruct n as [|c n]; [done|]. destruct (decide (c = 33)) as [->|]; [done|].
    destruct c as [|p|p]; try done. do 6 (destruct p as [p|p|]; try done). }
  rewrite E. destruct (aclFindByName es n) as [[k a]|] eqn:Ef; [exfalso | done].
  apply list_find_Some in Ef as (Hk & Ha & _). apply bool_decide_eq_true, (f_equal length) in Ha. rewrite !length_map in Ha.
  rewrite Forall_forall in Hes. specialize (Hes a (list_elem_of_lookup_2 _ _ _ Hk)). lia.
Qed.
