(* ===== verification/Monitor.v ===== *)
(** * Monitor: traffic accounts, the usage of the processor, the load

    v3.1/src/mybox/src/trafficd.c, cpu.c and loadavg.c.  The counters of the
    ipt_ACCOUNT kernel module, /proc/stat and sysinfo are inputs; files are the
    tree of Xmkdir.v with the contents of the files written. *)

From S2P Require Import Prelude CString LibMybox Xmkdir.

Module Trafficd.

(** ** Data *)

(** An entry of a table: the address in network order, as the machine (i386) reads it. *)
Record entry := Entry { ip : Z; src_packets : Z; src_bytes : Z; dst_packets : Z; dst_bytes : Z }.

(** What the kernel module answers in one turn: [entries] is [None] when the table cannot be read. *)
Record kernel := Kernel { init_fails : bool; tables : option (list (list Z)); entries : list Z -> option (list entry) }.

Record disk := Disk { tree : fs; data : gmap (list (list Z)) (list Z) }.

(** The process: paths that the system refuses, the mode mask, the time. *)
Record proc := Proc { deny : list Z -> bool; mask : Z; now : Z }.

(** [listq] has ten names of 16 bytes and a NUL. *)
Definition LISTQ : nat := 10.
Definition CMD : nat := 17.

(** ** Operations *)

(** The bytes of the address from the lowest in memory. *)
Definition addr_to_dotted (addr : Z) : list Z :=
  let byte k := addr / 256 ^ k mod 256 in
  snprintf 17 (dec (byte 0) ++ bytes "." ++ dec (byte 1) ++ bytes "." ++ dec (byte 2) ++ bytes "." ++ dec (byte 3)).

(** [save_to_file] with its text formatted. *)
Definition save_to_file (w : proc) (path text : list Z) (d : disk) : disk :=
  if deny w path then d
  else
    match node_at (tree d) (comps path) with
    | Some Dir => d
    | Some File => Disk (tree d) (<[comps path := text]> (data d))
    | None =>
        match node_at (tree d) (removelast (comps path)) with
        | Some Dir => Disk (<[comps path := File]> (tree d)) (<[comps path := text]> (data d))
        | _ => d
        end
    end.

Definition account_dir (table : list Z) : list Z := snprintf 255 (bytes "/var/spool/account/" ++ table).
Definition account_file (table addr : list Z) : list Z := snprintf 255 (account_dir table ++ bytes "/" ++ addr).

Definition account_line (time : Z) (addr : list Z) (e : entry) : list Z :=
  dec time ++ bytes "," ++ addr ++ bytes "," ++ dec (src_packets e) ++ bytes "," ++ dec (src_bytes e) ++ bytes ","
  ++ dec (dst_packets e) ++ bytes "," ++ dec (dst_bytes e) ++ [10].

(** [is_dir] also accepts files. *)
Definition save_data (w : proc) (table : list Z) (d : disk) (e : entry) : disk :=
  let addr := addr_to_dotted (ip e) in
  let dir := account_dir table in
  let f := if exists_at (tree d) dir then tree d else (xmkdir (deny w) (deny w) (tree d) (mask w) dir).1.2 in
  save_to_file w (account_file table addr) (account_line (now w) addr e) (Disk f (data d)).

Definition proc_idle (f : fs) : bool :=
  exists_at f (bytes "/var/sys/init_down") || exists_at f (bytes "/var/sys/trafficd_stop") || exists_at f (bytes "/var/sys/do_single")
  || negb (exists_at f (bytes "/var/sys/init_account")).

(** The names go to [listq]; an eleventh is written behind it. *)
Definition fill (names : list (list Z)) : option (list (list Z)) :=
  if (length names <=? LISTQ)%nat then Some (map (snprintf CMD) names) else None.

(** The tables in order; one that cannot be read ends the loop. *)
Fixpoint read_tables (k : kernel) (w : proc) (names : list (list Z)) (d : disk) : disk :=
  match names with
  | [] => d
  | n :: names => match entries k n with None => d | Some es => read_tables k w names (fold_left (save_data w n) es d) end
  end.

(** One turn of the loop of [main]: the files and the seconds it sleeps. *)
Definition turn (k : kernel) (w : proc) (d : disk) : option (disk * Z) :=
  if proc_idle (tree d) then Some (d, 60)
  else if init_fails k then Some (d, 60)
  else
    match tables k with
    | None => Some (d, 60)
    | Some names => l ← fill names; Some (read_tables k w l d, 10)
    end.

(** ** What is written *)

Definition account : list (list Z) := [bytes "var"; bytes "spool"; bytes "account"].

(** A name of a table that is a name of a directory too. *)
Definition table_name (n : list Z) : Prop := n <> [] /\ slash ∉ n /\ (length n <= 16)%nat.

Record spool_ok (names : list (list Z)) (f : fs) : Prop := {
  ok_var : f !! [bytes "var"] = Some Dir;
  ok_spool : f !! [bytes "var"; bytes "spool"] = Some Dir;
  ok_account : f !! account = Some Dir;
  ok_table : forall n, n ∈ names -> f !! (account ++ [n]) <> Some File;
  ok_file : forall n a, n ∈ names -> f !! (account ++ [n; a]) <> Some Dir
}.

Lemma dec_text (n : Z) : 0 <= n < 256 -> (1 <= length (dec n) <= 3)%nat /\ slash ∉ dec n.
Proof.
  intros Hn. assert (H : forallb (fun i => let s := dec (Z.of_nat i) in
      (1 <=? length s)%nat && (length s <=? 3)%nat && negb (bool_decide (slash ∈ s))) (seq 0 256) = true) by (vm_compute; reflexivity).
  rewrite forallb_forall in H. specialize (H (Z.to_nat n)). rewrite in_seq, Z2Nat.id in H by lia. specialize (H ltac:(lia)).
  apply andb_true_iff in H as [H H3%negb_true_iff%bool_decide_eq_false]. apply andb_true_iff in H as [H1%Nat.leb_le H2%Nat.leb_le]. done.
Qed.

Lemma dotted_text (addr : Z) : (0 < length (addr_to_dotted addr) <= 15)%nat /\ slash ∉ addr_to_dotted addr.
Proof.
  unfold addr_to_dotted, snprintf. cbn zeta. set (b := fun k => addr / 256 ^ k mod 256).
  assert (Hb : forall k, (1 <= length (dec (b k)) <= 3)%nat /\ slash ∉ dec (b k)) by (intros k; apply dec_text, Z.mod_pos_bound; lia).
  fold (b 0) (b 1) (b 2) (b 3). destruct (Hb 0) as [L0 N0], (Hb 1) as [L1 N1], (Hb 2) as [L2 N2], (Hb 3) as [L3 N3].
  change (bytes ".") with [46]. rewrite take_ge by (rewrite !length_app; cbn; lia). split; [rewrite !length_app; cbn; lia|].
  rewrite !not_elem_of_app. assert (slash ∉ [46]) by (by apply not_elem_of_cons; split; [|apply not_elem_of_nil]). tauto.
Qed.

Lemma dir_text (n : list Z) : table_name n -> account_dir n = bytes "/var/spool/account/" ++ n.
Proof.
  intros (_ & _ & Hl). unfold account_dir, snprintf.
  by rewrite take_ge by (rewrite !length_app; change (length (bytes "/var/spool/account/")) with 19%nat; lia).
Qed.

Lemma account_sep (s : list Z) : comps (bytes "/var/spool/account/" ++ s) = account ++ comps s.
Proof. rewrite comps_sep; [done|]. intros x. by intros [= <-]. Qed.

Lemma dir_comps (n : list Z) : table_name n -> comps (account_dir n) = account ++ [n].
Proof.
  intros Hn. rewrite dir_text, account_sep by done. destruct Hn as (Hne & Hs & _). rewrite <- (app_nil_r n) at 1. by rewrite (comps_run n []).
Qed.

Lemma file_comps (n a : list Z) : table_name n -> (0 < length a <= 15)%nat -> slash ∉ a -> comps (account_file n a) = account ++ [n; a].
Proof.
  intros Hn Ha Hs. unfold account_file, snprintf. rewrite dir_text by done. destruct Hn as (Hne & Hns & Hl).
  rewrite take_ge by (rewrite !length_app; change (length (bytes "/var/spool/account/")) with 19%nat; change (length (bytes "/")) with 1%nat; lia).
  rewrite <- app_assoc, account_sep. change (bytes "/") with [slash].
  rewrite app_assoc, comps_sep by (intros x; rewrite last_snoc; by intros [= <-]).
  rewrite (comps_run n [slash]) by (done || by repeat constructor). rewrite <- (app_nil_r a) at 1. rewrite (comps_run a []); [done | intros ->; cbn in Ha; lia | done | done].
Qed.

(** What [save_data] writes. *)
Definition record (w : proc) (n : list Z) (e : entry) : list (list Z) * list Z :=
  (account ++ [n; addr_to_dotted (ip e)], account_line (now w) (addr_to_dotted (ip e)) e).

Definition put (m : gmap (list (list Z)) (list Z)) (r : list (list Z) * list Z) : gmap (list (list Z)) (list Z) := <[r.1 := r.2]> m.

Lemma spool_insert (names : list (list Z)) (f : fs) (n : list Z) (cs : list (list Z)) (k : node) :
  spool_ok names f -> n ∈ names -> (cs = [n] /\ k = Dir) \/ (exists a, cs = [n; a] /\ k = File) -> spool_ok names (<[account ++ cs := k]> f).
Proof.
  intros [H1 H2 H3 H4 H5] Hn Hc. assert (Hl : (3 < length (account ++ cs))%nat) by (destruct Hc as [[-> _]|(a & -> & _)]; cbn; lia).
  split; [rewrite lookup_insert_ne; [done | intros E; rewrite E in Hl; cbn in Hl; lia].. | |].
  - intros m Hm. destruct (decide (account ++ cs = account ++ [m])) as [E|E]; [|rewrite lookup_insert_ne by done; by apply H4].
    rewrite E, lookup_insert_eq. intros [= ->]. destruct Hc as [[_ ?]|(a & -> & _)]; [done|]. apply app_inv_head in E. done.
  - intros m a Hm. destruct (decide (account ++ cs = account ++ [m; a])) as [E|E]; [|rewrite lookup_insert_ne by done; by apply H5].
    rewrite E, lookup_insert_eq. intros [= ->]. destruct Hc as [[-> _]|(a' & _ & ?)]; [|done]. apply app_inv_head in E. done.
Qed.

(** After [save_data] the file of the address holds its line. *)
Lemma save_data_ok (w : proc) (names : list (list Z)) (n : list Z) (d : disk) (e : entry) :
  (forall p, deny w p = false) -> Forall table_name names -> spool_ok names (tree d) -> n ∈ names ->
  spool_ok names (tree (save_data w n d e)) /\ data (save_data w n d e) = put (data d) (record w n e).
Proof.
  intros Hd Hns Hs Hn. pose proof (proj1 (Forall_forall _ _) Hns n Hn) as Ht. unfold save_data.
  destruct (dotted_text (ip e)) as [Ha Has]. set (a := addr_to_dotted (ip e)) in *.
  set (f := if exists_at (tree d) (account_dir n) then _ else _).
  assert (Hf : spool_ok names f /\ f !! (account ++ [n]) = Some Dir).
  { unfold f. unfold exists_at. rewrite dir_comps by done. change (node_at (tree d) (account ++ [n])) with (tree d !! (account ++ [n])).
    pose proof (ok_table _ _ Hs n Hn) as Hnf. case_bool_decide as E.
    - split; [done|]. by destruct (tree d !! (account ++ [n])) as [[]|].
    - assert (En : tree d !! (account ++ [n]) = None) by (destruct (tree d !! (account ++ [n])); [by destruct E | done]).
      unfold xmkdir. rewrite xmkdir_loop_correct by (lia || (by rewrite dir_text) || done).
      rewrite dir_comps by done. cbn [fst snd]. change (comps []) with (@nil (list Z)).
      assert (Em : mkdirs (tree d) [] (account ++ [n]) = (0, <[account ++ [n] := Dir]> (tree d))).
      { destruct Hs as [H1 H2 H3 _ _]. unfold account in *. cbn [mkdirs app]. rewrite H1. cbn [app]. rewrite H2. cbn [app]. rewrite H3. cbn [app]. cbn [app] in En. by rewrite En. }
      rewrite Em. cbn [snd]. split; [apply spool_insert with n; [done | done | by left] | by rewrite lookup_insert_eq]. }
  destruct Hf as [Hf Hdir]. unfold save_to_file. rewrite Hd, file_comps by done. cbn [tree data].
  change (node_at f (account ++ [n; a])) with (f !! (account ++ [n; a])). pose proof (ok_file _ _ Hf n a Hn) as Hnd.
  destruct (f !! (account ++ [n; a])) as [[]|] eqn:E; [done | done |].
  change (removelast (account ++ [n; a])) with (account ++ [n]).
  change (node_at f (account ++ [n])) with (f !! (account ++ [n])). rewrite Hdir. cbn [tree data].
  split; [apply spool_insert with n; [done | done | right; by exists a] | done].
Qed.

Lemma save_all_ok (w : proc) (names : list (list Z)) (n : list Z) (es : list entry) (d : disk) :
  (forall p, deny w p = false) -> Forall table_name names -> spool_ok names (tree d) -> n ∈ names ->
  spool_ok names (tree (fold_left (save_data w n) es d)) /\ data (fold_left (save_data w n) es d) = fold_left put (map (record w n) es) (data d).
Proof.
  intros Hd Hns Hs Hn. revert d Hs. induction es as [|e es IH]; intros d Hs; [done|]. cbn [fold_left map].
  destruct (save_data_ok w names n d e Hd Hns Hs Hn) as [Hs' <-]. by apply IH.
Qed.

(** The tables that are read: those before one that fails. *)
Fixpoint readable (k : kernel) (names : list (list Z)) : list (list Z * list entry) :=
  match names with
  | [] => []
  | n :: names => match entries k n with None => [] | Some es => (n, es) :: readable k names end
  end.

Lemma read_tables_ok (k : kernel) (w : proc) (all names : list (list Z)) (d : disk) :
  (forall p, deny w p = false) -> Forall table_name all -> spool_ok all (tree d) -> names ⊆ all ->
  data (read_tables k w names d) = fold_left put (concat (map (fun x => map (record w x.1) x.2) (readable k names))) (data d).
Proof.
  intros Hd Ha. revert d. induction names as [|n names IH]; intros d Hs Hin; [done|]. cbn [read_tables readable].
  destruct (entries k n) as [es|]; [|done]. cbn [map concat fst snd].
  destruct (save_all_ok w all n es d Hd Ha Hs) as [Hs' Hdata]; [apply Hin; by left|]. rewrite fold_left_app, <- Hdata. apply IH; [done|].
  intros x Hx. apply Hin. by right.
Qed.

(** A turn, when the daemon is not to be idle and the kernel module answers, with at most ten tables: every address of the
    tables in front of one that cannot be read has its counters in its file, the last ones if it comes twice, and no other
    file is written. *)
Lemma turn_accounts (k : kernel) (w : proc) (names : list (list Z)) (d : disk) :
  proc_idle (tree d) = false -> init_fails k = false -> tables k = Some names -> (length names <= LISTQ)%nat -> Forall table_name names ->
  (forall p, deny w p = false) -> spool_ok names (tree d) ->
  exists d', turn k w d = Some (d', 10)
    /\ data d' = fold_left put (concat (map (fun x => map (record w x.1) x.2) (readable k names))) (data d).
Proof.
  intros Hi Hf Hk Hl Hn Hd Hs. unfold turn, fill. rewrite Hi, Hf, Hk, (proj2 (Nat.leb_le _ _) Hl). cbn [mbind option_bind].
  assert (E : map (snprintf CMD) names = names).
  { clear -Hn. induction Hn as [|n names (_ & _ & Hl) _ IH]; [done|]. cbn [map]. rewrite IH. unfold snprintf. by rewrite take_ge by (cbn; lia). }
  rewrite E. eexists. split; [reflexivity|]. by apply (read_tables_ok k w names).
Qed.

(** With an eleventh table the daemon writes behind its array. *)
Lemma eleven_tables (k : kernel) (w : proc) (names : list (list Z)) (d : disk) :
  proc_idle (tree d) = false -> init_fails k = false -> tables k = Some names -> (LISTQ < length names)%nat -> turn k w d = None.
Proof. intros Hi Hf Hk Hl. unfold turn, fill. by rewrite Hi, Hf, Hk, (proj2 (Nat.leb_gt _ _) Hl). Qed.
End Trafficd.

Module Cpu.

(** ** get_cpu *)

(** The eight counters of the first line of /proc/stat, 64 bits wide, with the two sums. *)
Record jiffy_counts_t := Jif { usr : Z; nic : Z; sys : Z; idle : Z; iowait : Z; irq : Z; softirq : Z; steal : Z; total : Z; busy : Z }.

Record stats := Stats { cpu_usr : Z; cpu_nice : Z; cpu_sys : Z; cpu_idle : Z; cpu_iowait : Z; cpu_irq : Z; cpu_softirq : Z; cpu_steal : Z; cpu_total : Z; cpu_busy : Z }.

Definition u64 (n : Z) : Z := wrapu 64 n.

(** [fscanf] into the counters: those it does not reach keep their values; with less
    than four the program exits.  [None] inside: the file cannot be opened. *)
Definition read_stat (line : option (list Z)) (jif : jiffy_counts_t) : option jiffy_counts_t :=
  match line with
  | None => Some jif
  | Some l =>
      if (length l <? 4)%nat then None
      else
        let get k old := nth k l old in
        let '(u, n, s, i) := (get 0%nat 0, get 1%nat 0, get 2%nat 0, get 3%nat 0) in
        let '(io, ir, so, st) := (get 4%nat (iowait jif), get 5%nat (irq jif), get 6%nat (softirq jif), get 7%nat (steal jif)) in
        let t := u64 (u + n + s + i + io + ir + so + st) in
        Some (Jif u n s i io ir so st t (u64 (t - i - io)))
  end.

(** [CALC_STAT]: 32-bit unsigned arithmetic. *)
Definition CALC_STAT (total_diff now before : Z) : Z := u32 (100 * u32 (now - before)) / total_diff.

Definition calc (prev jif : jiffy_counts_t) (old : stats) : stats :=
  let d := u32 (total jif - total prev) in
  let total_diff := if d =? 0 then 1 else d in
  let c f := CALC_STAT total_diff (f jif) (f prev) in
  Stats (c usr) (c nic) (c sys) (c idle) (c iowait) (c irq) (c softirq) (cpu_steal old) (c busy) (c busy).

(** Two readings, a second apart; [jif] starts as what the stack holds. *)
Definition get_cpu (garbage : jiffy_counts_t) (line1 line2 : option (list Z)) (old : stats) : option stats :=
  prev ← read_stat line1 garbage;
  jif ← read_stat line2 prev;
  Some (calc prev jif old).

(** ** main *)

(** The 32-bit words of 64-bit arguments, as [printf] on i386 finds them. *)
Definition words64 (l : list Z) : list Z := concat (map (fun v => [v mod 2 ^ 32; v / 2 ^ 32]) l).

(** The numbers that [%u,%u,...] prints for the argument [all], and for [usage]. *)
Definition print_all (s : stats) : list Z :=
  take 8 (words64 [cpu_usr s; cpu_nice s; cpu_sys s; cpu_idle s; cpu_iowait s; cpu_irq s; cpu_softirq s; cpu_steal s]).
Definition print_usage (s : stats) : list Z := [u32 (100 - cpu_idle s); u32 (cpu_idle s)].

(** ** The percentages *)

Lemma calc_stat_ok (D now before : Z) : 0 < D -> 0 <= now - before <= D -> 100 * D < 2 ^ 32 -> CALC_STAT D now before = 100 * (now - before) / D.
Proof. intros H1 H2 H3. unfold CALC_STAT, wrapu. rewrite (Z.mod_small (now - before)) by lia. by rewrite Z.mod_small by lia. Qed.

(** Counters that do not decrease, two readings of eight each, less than 42,949,672 ticks between them. *)
Definition ticks (l : list Z) : Z := fold_right Z.add 0 l.

Record steady (l1 l2 : list Z) : Prop := {
  st_len : length l1 = 8%nat;
  st_grow : Forall2 (fun a b => 0 <= a <= b) l1 l2;
  st_some : 0 < ticks l2 - ticks l1;
  st_less : 100 * (ticks l2 - ticks l1) < 2 ^ 32;
  st_wide : ticks l2 < 2 ^ 64
}.

Lemma part_of (d D : Z) : 0 < D -> 0 <= d -> 0 <= 100 * d / D /\ D * (100 * d / D) <= 100 * d < D * (100 * d / D) + D.
Proof. intros HD Hd. pose proof (Z.div_pos (100 * d) D). pose proof (Z.mul_div_le (100 * d) D HD). pose proof (Z.mul_succ_div_gt (100 * d) D HD). lia. Qed.

(** Each percentage is the part of the ticks of its kind, rounded down; together they are not more than 100; what is not
    idle or waiting is busy. *)
Lemma percentages (garbage : jiffy_counts_t) (old : stats) (l1 l2 : list Z) :
  steady l1 l2 ->
  exists s, get_cpu garbage (Some l1) (Some l2) old = Some s
    /\ [cpu_usr s; cpu_nice s; cpu_sys s; cpu_idle s; cpu_iowait s; cpu_irq s; cpu_softirq s]
       = zip_with (fun a b => 100 * (b - a) / (ticks l2 - ticks l1)) (take 7 l1) (take 7 l2)
    /\ 0 <= ticks [cpu_usr s; cpu_nice s; cpu_sys s; cpu_idle s; cpu_iowait s; cpu_irq s; cpu_softirq s] <= 100
    /\ 98 <= cpu_busy s + cpu_idle s + cpu_iowait s <= 100 /\ cpu_steal s = cpu_steal old
    /\ print_usage s = [100 - cpu_idle s; cpu_idle s].
Proof.
  intros [Hl Hg Hp Hs Hw]. do 8 (destruct l1 as [|? l1]; [done|]). destruct l1; [|done].
  repeat (apply Forall2_cons_inv_l in Hg as (? & ? & ? & Hg & ->)). apply Forall2_nil_inv_l in Hg as ->.
  unfold ticks in *. cbn [fold_right] in *. unfold get_cpu, read_stat. cbn [length Nat.ltb Nat.leb mbind option_bind nth].
  unfold u64, wrapu. repeat (rewrite (Z.mod_small _ (2 ^ 64)); [|lia]). eexists. split; [reflexivity|].
  unfold calc. cbn [total]. unfold wrapu. rewrite (Z.mod_small (_ - _) (2 ^ 32)) by lia.
  match goal with |- context [if ?d =? 0 then 1 else ?d] => set (D := d); assert (HD : 0 < D /\ 100 * D < 2 ^ 32) by (unfold D; lia) end.
  rewrite (proj2 (Z.eqb_neq D 0)) by lia. cbn [usr nic sys idle iowait irq softirq busy cpu_usr cpu_nice cpu_sys cpu_idle cpu_iowait cpu_irq cpu_softirq cpu_busy cpu_steal].
  repeat (rewrite calc_stat_ok by (unfold D; lia)).
  match goal with |- context [zip_with (fun a b => 100 * (b - a) / ?E)] => replace E with D by (unfold D; lia) end.
  split; [reflexivity|]. cbn [fold_right].
  repeat match goal with H : 0 <= ?x <= ?y |- _ =>
    let q := fresh "q" in pose proof (part_of (y - x) D ltac:(lia) ltac:(lia)); set (q := 100 * (y - x) / D) in *; clearbody q; revert H end.
  match goal with |- context [100 * (?a - ?b) / D] =>
    pose proof (part_of (a - b) D ltac:(lia) ltac:(unfold D; lia)); set (qb := 100 * (a - b) / D) in *; clearbody qb end.
  pose proof (eq_refl : D = _) as ED. unfold D in ED at 2. clearbody D. intros.
  split; [|split; [|split; [done|]]].
  - split; [lia|]. apply (Zmult_le_reg_r _ _ D); lia.
  - split; [|apply (Zmult_le_reg_r _ _ D); lia]. apply Z.nlt_ge. intros Hlt. assert ((qb + q3 + q2) * D <= 97 * D) by (apply Z.mul_le_mono_nonneg_r; lia). lia.
  - unfold print_usage, wrapu. cbn [cpu_idle]. assert (q3 <= 100) by (apply (Zmult_le_reg_r _ _ D); lia). by rewrite !Z.mod_small by lia.
Qed.

(** On i386 the words of the 64-bit numbers come out as numbers of their own: of the eight only four kinds are printed, with
    zeros between them. *)
Lemma print_all_words (s : stats) :
  Forall (fun v => 0 <= v <= 100) [cpu_usr s; cpu_nice s; cpu_sys s; cpu_idle s] ->
  print_all s = [cpu_usr s; 0; cpu_nice s; 0; cpu_sys s; 0; cpu_idle s; 0].
Proof.
  intros H. repeat (apply Forall_cons in H as [? H]). unfold print_all, words64. cbn [map concat app take].
  repeat (rewrite (Z.mod_small _ (2 ^ 32)) by lia). by repeat (rewrite (Z.div_small _ (2 ^ 32)) by lia).
Qed.

Lemma percentages_witness :
  exists s, get_cpu (Jif 0 0 0 0 0 0 0 0 0 0) (Some [10; 0; 5; 100; 3; 0; 0; 0]) (Some [40; 1; 15; 150; 9; 1; 2; 0]) (Stats 0 0 0 0 0 0 0 0 0 0) = Some s
    /\ print_usage s = [50; 50] /\ 98 <= cpu_busy s + cpu_idle s + cpu_iowait s <= 100.
Proof.
  destruct (percentages (Jif 0 0 0 0 0 0 0 0 0 0) (Stats 0 0 0 0 0 0 0 0 0 0) [10; 0; 5; 100; 3; 0; 0; 0] [40; 1; 15; 150; 9; 1; 2; 0]) as (s & E & _ & _ & Hb & _).
  - split; [reflexivity | repeat constructor; lia | vm_compute; reflexivity..].
  - exists s. split; [exact E|]. split; [|exact Hb]. vm_compute in E. injection E as <-. reflexivity.
Defined.
End Cpu.

Module Load.

(** ** loadavg.c *)

Definition FSHIFT : Z := 16.
Definition FIXED_1 : Z := Z.shiftl 1 FSHIFT.
Definition LOAD_INT (x : Z) : Z := Z.shiftr x FSHIFT.
Definition LOAD_FRAC (x : Z) : Z := LOAD_INT (u32 (Z.land x (FIXED_1 - 1) * 100)).

(** [%ld.%02ld] *)
Definition load_text (x : Z) : list Z := dec (LOAD_INT x) ++ bytes "." ++ (if LOAD_FRAC x <? 10 then bytes "0" else []) ++ dec (LOAD_FRAC x).

Definition loadavg (loads : list Z) : list Z :=
  match map load_text loads with [a; b; c] => a ++ bytes "," ++ b ++ bytes "," ++ c ++ [10] | _ => [] end.

(** The number is the load with two decimals, rounded down. *)
Lemma load_ok (x : Z) : 0 <= x < 2 ^ 32 -> 0 <= LOAD_FRAC x < 100 /\ 100 * LOAD_INT x + LOAD_FRAC x = 100 * x / 2 ^ 16.
Proof.
  intros Hx. unfold LOAD_FRAC, LOAD_INT, FIXED_1, FSHIFT, wrapu. change (Z.shiftl 1 16 - 1) with (Z.ones 16).
  rewrite Z.land_ones, !Z.shiftr_div_pow2 by lia. pose proof (Z.mod_pos_bound x (2 ^ 16) ltac:(lia)). rewrite (Z.mod_small (_ * 100)) by lia. dlia.
Qed.

Lemma load_example : loadavg [65536 + 3277; 2 * 65536 + 32768; 0] = bytes "1.05,2.50,0.00" ++ [10].
Proof. vm_compute. reflexivity. Qed.
End Load.
