(* ===== verification/Lcd.v ===== *)
(** * Lcd: the front panel of the appliance

    v3.1/src/mybox/src/lcdd.c: what is written to the panel, and the screens that
    its keys open, one inside the loop of the other.  The figures that the program
    prints from floating-point numbers (processor, memory, traffic) are arguments;
    the terminal settings are left out.  [None] is the use of a buffer that was
    never filled. *)

From S2P Require Import Prelude CString LibMybox.

Module Lcd.

(** ** Bytes to the panel *)

Definition LCD_CMD : Z := 254.
Definition LCD_CLEAR : Z := 1.
Definition LCD_HIDE_CURSOR : Z := 12.
Definition LCD_ENABLE_BLOCK_CURSOR : Z := 13.
Definition LCD_ENABLE_UNDER_CURSOR : Z := 14.

Definition LCD_hide_cursor : list Z := [LCD_CMD; LCD_HIDE_CURSOR].
Definition LCD_show_cursor (type : Z) : list Z := [LCD_CMD; if type =? 1 then LCD_ENABLE_BLOCK_CURSOR else LCD_ENABLE_UNDER_CURSOR].
Definition LCD_clear : list Z := [LCD_CMD; LCD_CLEAR] ++ LCD_hide_cursor.

(** '\254' is octal. *)
Definition lcd_char (c : Z) : Z := if c =? 172 then 35 else c.
Definition LCD_string (x y : Z) (string : list Z) : list Z := [LCD_CMD; (128 + 64 * y + x) mod 256] ++ map lcd_char string.

(** ** Screens *)

(** The first line of a file in a buffer of 18 bytes; [None] without a file or a line. *)
Definition line18 (file : option (list Z)) : option (list Z) := text ← file; head (fgets_lines 18 text).

(** [buf] is not set before the first file is read. *)
Definition show_logo (version version_core : option (list Z)) : option (list Z) :=
  buf ← line18 version;
  let v := snprintf 18 (bytes "   " ++ trim buf) in
  let m := snprintf 18 (bytes " MYBOX VER " ++ trim (default [] (line18 version_core))) in
  Some (LCD_clear ++ LCD_string 0 0 m ++ LCD_string 0 1 v).

Definition blank : list Z := bytes "                ".

(** One round of the loop of a screen: its line is cleared and written. *)
Definition show_line (str : list Z) : list Z := LCD_string 0 1 blank ++ LCD_string 0 1 (snprintf 18 str).

Definition pad (width : nat) (n : Z) : list Z := let s := dec n in replicate (width - length s) 48 ++ s.

Definition uptime_text (uptime : Z) : list Z :=
  bytes " " ++ pad 3 (uptime / 86400) ++ bytes "d, " ++ pad 2 (uptime mod 86400 / 3600) ++ bytes ":" ++ pad 2 (uptime mod 3600 / 60) ++ bytes ":" ++ pad 2 (uptime mod 60).

Definition bandwidth_text (bandwidth_in bandwidth_out : list Z) : list Z := trim bandwidth_in ++ bytes "/" ++ trim bandwidth_out.

(** [%5.1f] of the two sizes in MB. *)
Definition mem_text (total free : list Z) : list Z := bytes " " ++ total ++ bytes " / " ++ free ++ bytes " ".

Definition show_msg (title str : list Z) : list Z := LCD_clear ++ LCD_string 0 0 title ++ LCD_show_cursor 2 ++ LCD_string 0 1 str.

(** [main] and [boot_lcd_msg] with two arguments, when the panel is there. *)
Definition boot_lcd_msg (version version_core : option (list Z)) (name val : list Z) : option (list Z) :=
  let cmd1 := snprintf 17 name in let cmd2 := snprintf 17 val in
  if strcmp_eq cmd1 (bytes "show") && strcmp_eq cmd2 (bytes "logo") then show_logo version version_core else Some (show_msg cmd1 cmd2).

(** ** Keys *)

Inductive screen := Bandwidth | CpuInfo | Memory | Uptime | Logo.

Definition title (s : screen) : list Z :=
  match s with
  | Bandwidth => bytes "  WAN TRAFFIC   " | CpuInfo => bytes "  CPU INFO (%)  " | Memory => bytes "  MEMORY (MB)   " | Uptime => bytes "     UPTIME     "
  | Logo => []
  end.

(** The keys of the second byte, in the order of the tests. *)
Definition pressed (b : Z) : list screen :=
  (if negb (Z.land b 1 =? 0) then [Bandwidth] else []) ++ (if negb (Z.land b 2 =? 0) then [CpuInfo] else [])
  ++ (if negb (Z.land b 4 =? 0) then [Memory] else []) ++ (if negb (Z.land b 8 =? 0) then [Uptime] else [])
  ++ (if negb (Z.land b 16 =? 0) then [Logo] else []).

(** The calls that have not returned, the last first: each a screen in its loop, with the
    keys that the [switch_tab] that opened it has still to look at. *)
Abbreviation stack := (list (screen * list screen)).

(** With [dostat] 0 the loops end from the inside; a key that is left opens its screen. *)
Fixpoint unwind (st : stack) : stack :=
  match st with
  | [] => []
  | (_, k :: keys) :: st => (k, keys) :: st
  | (_, []) :: st => unwind st
  end.

(** [switch_tab] from the innermost loop; [b1] and [b2] are what [b] holds after each
    [read], which gives nothing when no key was pressed. *)
Definition switch_tab (b1 b2 : Z) (st : stack) : stack :=
  if b1 =? 253 then match pressed b2 with k :: keys => (k, keys) :: st | [] => unwind st end else st.

Definition keys_in (l : list (Z * Z)) (st : stack) : stack := fold_left (fun st b => switch_tab b.1 b.2 st) l st.

(** ** What holds *)

(** A screen is opened inside of the one before it: the calls are as many as the keys that were pressed, and none returns
    until a message of the panel has no key. *)
Lemma stack_grows (l : list (Z * Z)) (st : stack) :
  Forall (fun b => b.1 = 253 /\ pressed b.2 <> []) l -> length (keys_in l st) = (length l + length st)%nat.
Proof.
  revert st. induction l as [|[b1 b2] l IH]; intros st Hl; [done|]. apply Forall_cons in Hl as [[H1 H2] Hl]. cbn [fst snd] in *. subst.
  unfold keys_in. cbn [fold_left fst snd]. fold (keys_in l (switch_tab 253 b2 st)). rewrite IH by done.
  unfold switch_tab. cbn. destruct (pressed b2); [done|]. cbn [length]. lia.
Qed.

(** The screen that is shown is that of the last key, if one at a time is pressed. *)
Lemma last_key (l : list (Z * Z)) (st : stack) (b : Z) (k : screen) :
  pressed b = [k] -> head (keys_in (l ++ [(253, b)]) st) = Some (k, []).
Proof. intros Hk. unfold keys_in. rewrite fold_left_app. cbn. unfold switch_tab. cbn. by rewrite Hk. Qed.

Lemma pressed_one : map pressed [1; 2; 4; 8; 16] = [[Bandwidth]; [CpuInfo]; [Memory]; [Uptime]; [Logo]].
Proof. vm_compute. reflexivity. Qed.

(** A message without a key ends all loops when each was opened by one key. *)
Lemma unwind_all (st : stack) : Forall (fun f => f.2 = []) st -> unwind st = [].
Proof. induction 1 as [|[s ks] st H _ IH]; [done|]. cbn in H. subst. exact IH. Qed.

(** The line of the uptime is right below 1000 days, and fits. *)
Lemma uptime_fits (uptime : Z) : 0 <= uptime < 1000 * 86400 -> length (uptime_text uptime) = 15%nat.
Proof.
  intros H. assert (Hp : forall w n, (1 <= w)%nat -> (Z.of_nat w <= 3) -> 0 <= n < 10 ^ Z.of_nat w -> length (pad w n) = w).
  { intros w n H1 H2 H3. assert (E : forallb (fun i => let s := dec (Z.of_nat i) in
        (length s <=? (if (i <? 10)%nat then 1 else if (i <? 100)%nat then 2 else 3))%nat) (seq 0 1000) = true) by (vm_compute; reflexivity).
    rewrite forallb_forall in E. assert (n < 10 ^ 3) by (apply Z.lt_le_trans with (10 ^ Z.of_nat w); [lia | apply Z.pow_le_mono_r; lia]).
    specialize (E (Z.to_nat n)). rewrite in_seq, Z2Nat.id in E by lia. specialize (E ltac:(lia)). apply Nat.leb_le in E.
    unfold pad. rewrite length_app, length_replicate. assert (length (dec n) <= w)%nat; [|lia].
    assert (w = 1 \/ w = 2 \/ w = 3)%nat as [-> | [-> | ->]] by lia.
    - change (10 ^ Z.of_nat 1) with 10 in H3. by destruct (Nat.ltb_spec (Z.to_nat n) 10); [|lia].
    - change (10 ^ Z.of_nat 2) with 100 in H3. destruct (Nat.ltb_spec (Z.to_nat n) 10); [lia|]. destruct (Nat.ltb_spec (Z.to_nat n) 100); lia.
    - destruct (Nat.ltb_spec (Z.to_nat n) 10); [lia|]. destruct (Nat.ltb_spec (Z.to_nat n) 100); lia. }
  unfold uptime_text. rewrite !length_app. rewrite !Hp by (try lia; cbn; dlia). reflexivity.
Qed.

(** Without /etc/version the logo prints a buffer that was never filled. *)
Lemma no_version (version_core : option (list Z)) : show_logo None version_core = None.
Proof. done. Qed.

Lemma logo_example :
  show_logo (Some (bytes "3.1" ++ [10])) (Some (bytes "7" ++ [10]))
  = Some ([254; 1; 254; 12; 254; 128] ++ bytes " MYBOX VER 7" ++ [254; 192] ++ bytes "   3.1").
Proof. vm_compute. reflexivity. Qed.
End Lcd.
