(* ===== verification/Tools.v ===== *)
(** * Tools: small programs of the appliance

    v3.1/src/mybox/src/getkey.c (wait for a key), sophos_scan.c (ask the scanner's
    daemon for a verdict) and syslog-filter.c (hand log lines on).  The terminal, the
    socket and the clock are inputs; [None] is undefined behaviour. *)

From S2P Require Import Prelude CString.

Module GetKey.

(** ** The arguments *)

Record options := Options { keys : option (list Z); waitmessage : option (list Z); waitseconds : Z }.

(** An option without its argument reads past the end of [argv]. *)
Fixpoint parse (argv : list (list Z)) (o : options) : option options :=
  match argv with
  | [] => Some o
  | a :: argv =>
      match a with
      | 45 :: c :: _ =>
          if c =? 99 then match argv with s :: argv => parse argv (Options (keys o) (waitmessage o) (atoi s)) | [] => None end
          else if c =? 109 then match argv with m :: argv => parse argv (Options (keys o) (Some m) (waitseconds o)) | [] => None end
          else if isdigit c then parse argv (Options (keys o) (waitmessage o) (atoi a))
          else parse argv o
      | [45] => parse argv o
      | _ => parse argv (Options (Some (map toupper a)) (waitmessage o) (waitseconds o))
      end
  end.

(** ** The loop *)

(** What [poll] ends with: a second without a key, a byte to read ([None] at the end of
    the input, where [read] leaves [foo]), or the alarm. *)
Inductive input := Timeout | Key (c : option Z) | Alarm.

Definition SIGALRM : Z := 14.

(** The string [foo] of at most one byte. *)
Definition set_foo (c : option Z) (foo : list Z) : list Z :=
  match c with None => map toupper foo | Some c => if c =? 0 then [] else [toupper c] end.

Definition wanted (o : options) (foo : list Z) : bool :=
  match keys o with None => true | Some l => bool_decide (is_Some (strstr l foo)) end.

(** The seconds that were shown and the exit status, [None] while the loop waits. *)
Fixpoint loop (o : options) (l : list input) (secs : Z) (foo : list Z) : option (list Z * option Z) :=
  shown ← (if secs =? 0 then Some [] else match waitmessage o with None => None | Some _ => Some [secs] end);
  match l with
  | [] => Some (shown, None)
  | i :: l =>
      match i with
      | Alarm => Some (shown, Some SIGALRM)
      | Timeout => '(s, r) ← loop o l (i32 (secs - 1)) foo; Some (shown ++ s, r)
      | Key c =>
          let foo := set_foo c foo in
          if bool_decide (foo = [3]) || bool_decide (foo = [4]) then Some (shown, Some 1)
          else if wanted o foo then Some (shown, Some 0)
          else '(s, r) ← loop o l secs foo; Some (shown ++ s, r)
      end
  end.

(** The message is there only if both it and the seconds were given. *)
Definition main (argv : list (list Z)) (l : list input) : option (list Z * option Z) :=
  o ← parse argv (Options None None 0);
  loop o l (waitseconds o) [].

(** ** What holds *)

(** What an input decides by itself. *)
Definition decides (o : options) (i : input) : option Z :=
  match i with
  | Alarm => Some SIGALRM
  | Key (Some c) =>
      if (c =? 3) || (c =? 4) then Some 1
      else match keys o with None => Some 0 | Some l => if (c =? 0) || bool_decide (toupper c ∈ l) then Some 0 else None end
  | _ => None
  end.

Lemma strstr_one (l : list Z) (c : Z) : bool_decide (is_Some (strstr l [c])) = bool_decide (c ∈ l).
Proof.
  apply bool_decide_ext. induction l as [|d l IH]; cbn [strstr prefixb].
  - split; [by intros [? ?] | by intros ?%not_elem_of_nil].
  - rewrite elem_of_cons. destruct (Z.eqb_spec c d) as [->|E]; cbn [andb].
    + split; [by left | done].
    + rewrite <- IH. destruct (strstr l [c]); cbn; split; intros H; try (by destruct H); naive_solver.
Qed.

Lemma loop_decides (o : options) (l rest : list input) (i : input) (r : Z) (secs : Z) (foo : list Z) :
  Forall (fun i => decides o i = None /\ i <> Key None) l -> decides o i = Some r ->
  (is_Some (waitmessage o) \/ secs = 0 /\ Timeout ∉ l) -> exists s, loop o (l ++ i :: rest) secs foo = Some (s, Some r).
Proof.
  intros Hl Hi. revert secs foo. induction Hl as [|j l [Hj Hn] Hl IH]; intros secs foo Hw; cbn [app loop];
    assert (Es : exists sh, (if secs =? 0 then Some [] else match waitmessage o with None => None | Some _ => Some [secs] end) = Some sh)
    by (destruct Hw as [[m ->]|[-> _]]; [destruct (secs =? 0); eauto | cbn; eauto]); destruct Es as [sh ->]; cbn [mbind option_bind].
  - destruct i as [|[c|]|]; cbn in Hi; [done | | done | injection Hi as <-; eauto].
    unfold set_foo, wanted. destruct (Z.eqb_spec c 3) as [->|E3]; [injection Hi as <-; eauto|]. destruct (Z.eqb_spec c 4) as [->|E4]; [injection Hi as <-; eauto|].
    cbn [orb] in Hi. assert (Hc : forall k, k = 3 \/ k = 4 -> (if c =? 0 then [] else [toupper c]) <> [k]).
    { intros k Hk. destruct (c =? 0); [done|]. intros [= E]. unfold toupper in E. destruct ((97 <=? c) && (c <=? 122)) eqn:Er; lia. }
    rewrite !bool_decide_eq_false_2 by (apply Hc; lia). cbn [orb]. destruct (keys o) as [ks|]; [|injection Hi as <-; eauto].
    destruct (Z.eqb_spec c 0) as [->|E0]; cbn [orb] in Hi.
    + injection Hi as <-. replace (bool_decide (is_Some (strstr ks []))) with true by (symmetry; apply bool_decide_eq_true_2; destruct ks; cbn; eauto). eauto.
    + rewrite strstr_one. destruct (bool_decide (toupper c ∈ ks)); [injection Hi as <-; eauto | done].
  - destruct j as [|[c|]|]; cbn in Hj; [| |done|done].
    + destruct (IH (i32 (secs - 1)) foo) as [s ->]; [|cbn; eauto]. destruct Hw as [?|[_ Hw]]; [by left|]. destruct Hw. by left.
    + unfold set_foo, wanted. destruct (Z.eqb_spec c 3) as [->|E3]; [done|]. destruct (Z.eqb_spec c 4) as [->|E4]; [done|].
      cbn [orb] in Hj. destruct (keys o) as [ks|]; [|done]. destruct (Z.eqb_spec c 0) as [->|E0]; [done|]. cbn [orb] in Hj.
      rewrite strstr_one. destruct (bool_decide (toupper c ∈ ks)); [done|].
      rewrite !bool_decide_eq_false_2 by (unfold toupper; destruct ((97 <=? c) && (c <=? 122)) eqn:Er; intros [= E]; lia). cbn [orb].
      destruct (IH secs [toupper c]) as [s ->]; [|cbn; eauto]. destruct Hw as [?|[? Hw]]; [by left|]. right. split; [done|]. intros Hin. apply Hw. by right.
Qed.

(** The program ends with the first input that decides: 1 for a control-c or control-d, 0 for a key of the list in either
    case, or for any key without a list, and the number of the signal when the time is over. *)
Lemma first_decides (argv : list (list Z)) (o : options) (l rest : list input) (i : input) (r : Z) :
  parse argv (Options None None 0) = Some o -> (is_Some (waitmessage o) \/ waitseconds o = 0 /\ Timeout ∉ l) ->
  Forall (fun i => decides o i = None /\ i <> Key None) l -> decides o i = Some r ->
  exists s, main argv (l ++ i :: rest) = Some (s, Some r).
Proof. intros Hp Hw Hl Hi. unfold main. rewrite Hp. cbn [mbind option_bind]. by apply loop_decides. Qed.

(** The end of the input counts as a key of the list. *)
Lemma eof_wanted : main [bytes "yn"] [Key None] = Some ([], Some 0).
Proof. vm_compute. reflexivity. Qed.

(** Seconds without a message print from a pointer that was never set. *)
Lemma no_message : main [bytes "-c"; bytes "5"] [] = None.
Proof. vm_compute. reflexivity. Qed.

(** "-5" is a negative number of seconds. *)
Lemma negative_seconds : waitseconds <$> parse [bytes "-5"; bytes "-m"; bytes "%d"] (Options None None 0) = Some (-5).
Proof. vm_compute. reflexivity. Qed.

Lemma counted : main [bytes "-c"; bytes "3"; bytes "-m"; bytes "wait %d"; bytes "y"] [Timeout; Key (Some 120); Timeout; Key (Some 121)] = Some ([3; 2; 2; 1], Some 0).
Proof. vm_compute. reflexivity. Qed.
End GetKey.

Module SophosScan.

(** The request: the path cut to 1023 bytes and a newline, for which a path of 1023 bytes
    leaves no room. *)
Definition request (path : list Z) : option (list Z) :=
  let filename := take 1023 path in if (length filename <? 1023)%nat then Some (filename ++ [10]) else None.

(** The buffer of 512 bytes after [read], cut at its first newline; a text that fills it has no end. *)
Definition reply (got : list Z) : option (list Z) :=
  let buf := take 512 got ++ replicate (512 - length got) 0 in
  match strchr (cstr buf) 10 with
  | Some p => Some (<[p := 0]> buf)
  | None => if bool_decide (0 ∈ buf) then Some buf else None
  end.

(** The exit status and the line that is printed; [None] inside [got]: [read] fails. *)
Definition verdict (path : list Z) (got : option (list Z)) : option (Z * list Z) :=
  req ← request path;
  match got with
  | None | Some [] => Some (-1, bytes "read() from the socket failed" ++ [10])
  | Some got =>
      buf ← reply got;
      if bool_decide (head buf = Some 49) then Some (1, cstr (drop 2 buf) ++ [10])
      else if prefixb (bytes "-1") buf then Some (-1, bytes "ERROR: " ++ cstr (drop 3 buf) ++ [10])
      else Some (0, bytes "OK: " ++ take (default 0%nat (strchr req 10)) req ++ [10])
  end.

(** The daemon's three kinds of answer. *)
Lemma verdicts :
  verdict (bytes "/m/1") (Some (bytes "1 EICAR" ++ [10])) = Some (1, bytes "EICAR" ++ [10])
  /\ verdict (bytes "/m/1") (Some (bytes "-1 no engine" ++ [10])) = Some (-1, bytes "ERROR: no engine" ++ [10])
  /\ verdict (bytes "/m/1") (Some (bytes "0" ++ [10])) = Some (0, bytes "OK: /m/1" ++ [10]).
Proof. split_and!; vm_compute; reflexivity. Qed.

(** Whatever else the daemon says counts as clean. *)
Lemma unknown_clean (path got buf : list Z) :
  (length path < 1023)%nat -> got <> [] -> reply got = Some buf -> head buf <> Some 49 -> prefixb (bytes "-1") buf = false ->
  fst <$> verdict path (Some got) = Some 0.
Proof.
  intros Hp Hg Hr H1 H2. unfold verdict, request. rewrite length_take, (proj2 (Nat.ltb_lt _ _)) by lia. cbn [mbind option_bind].
  destruct got; [done|]. rewrite Hr. cbn [mbind option_bind]. by rewrite bool_decide_eq_false_2, H2.
Qed.

(** A path of 1023 bytes writes behind the buffer. *)
Lemma long_path (path : list Z) (got : option (list Z)) : (1023 <= length path)%nat -> verdict path got = None.
Proof. intros H. unfold verdict, request. by rewrite length_take, (proj2 (Nat.ltb_ge _ _)) by lia. Qed.
End SophosScan.

Module SyslogFilter.

(** The lines that the program hands to /service/tools/syslog.exc, each in a call of its
    own; [exists_now] is what file_exists says for each line. *)
Fixpoint main (exists_now : list bool) (pieces : list (list Z)) : list (list Z) :=
  match pieces, exists_now with
  | p :: pieces, e :: exists_now => (if e then [p] else []) ++ main exists_now pieces
  | _, _ => []
  end.

Definition filter (exists_now : list bool) (stdin : list Z) : list (list Z) := main exists_now (fgets_lines 2048 stdin).

(** While the program is there every piece is handed on, in order. *)
Lemma all_lines (stdin : list Z) : filter (replicate (length (fgets_lines 2048 stdin)) true) stdin = fgets_lines 2048 stdin.
Proof. unfold filter. induction (fgets_lines 2048 stdin) as [|p l IH]; [done|]. cbn [length replicate main app]. by rewrite IH. Qed.
End SyslogFilter.
