(* ===== verification/Chkprog.v ===== *)
(** * chkprog, taskq-check and taskq: keeping the services running

    v3.1/src/mybox/src/chkprog.c looks every ten seconds for the services listed
    in /var/sys/check among the processes of /proc and leaves a task file in
    /var/sys/taskq for each that is missing; taskq-check.c runs the task
    program while such files exist.  v3.0/src/mybox/prog/taskq.c, the older
    form, runs the commands queued in a file.

    The file system is that of Xmkdir; what the directories /var/sys/check and
    /proc hold in a round is the record [world].  A write past the end of a
    buffer is [None]. *)

From S2P Require Import Prelude CString LibMybox Xmkdir.

Module Chkprog.

Record listq := Listq { prog : list Z; cmd : list Z; status : Z }.

Definition DIRCHECK : list Z := bytes "/var/sys/check".
Definition DIRQUE : list Z := bytes "/var/sys/taskq".

(** The static [listq] (up to [listcnt]) and [taskq]. *)
Record state := State { list_q : list listq; taskq : Z }.

(** An entry that [readdir] returns: whether [stat] succeeds, and the bytes of the
    file, [None] when it cannot be read. *)
Record dent := Dent { d_name : list Z; d_stat : bool; d_data : option (list Z) }.

(** A process: the contents of its [stat] and [cmdline]. *)
Record process := Process { p_stat : option (list Z); p_cmdline : option (list Z) }.

(** The broken-down local time. *)
Record tm := Tm { tm_mday : Z; tm_mon : Z; tm_year : Z; tm_hour : Z; tm_min : Z; tm_sec : Z }.

(** What a round finds: [None] when [opendir] fails; [proc_of pid] is [None] when
    [stat] fails.  [stack] is what happens to be in the 16 bytes of the local [cmd] of
    [check_prog], which are read without being set. *)
Record world := World {
  check_dir : option (list dent);
  proc_dir : option (list (list Z));
  proc_of : Z -> option process;
  stack : list Z;
  local : tm;
  deny : list Z -> bool;          (* mkdir or open refuse the path *)
  mask : Z                        (* the mode mask of the process *)
}.

Inductive event :=
| System (command : list Z)
| SaveFile (path text : list Z)
| Syslog (text : list Z)
| Sleep (seconds : Z).

(** [sprintf] to a buffer of [size] bytes. *)
Definition sprintf (size : nat) (s : list Z) : option (list Z) := if (length s <? size)%nat then Some s else None.

Definition set_config (p c : list Z) : listq := Listq (snprintf 150 p) (snprintf 150 c) 0.

Definition dots (name : list Z) : bool := strcmp_eq name (bytes ".") || strcmp_eq name (bytes "..").

(** One turn of the loop of [check_config]. *)
Definition check_entry (e : dent) (l : list listq) : option (list listq) :=
  if dots (d_name e) then Some l
  else
    _ ← sprintf 32 (DIRCHECK ++ bytes "/" ++ d_name e);
    if negb (d_stat e) then Some l
    else
      match read_oneline (d_data e) 1023 with
      | (_, None) => Some l
      | (_, Some (buf, past)) =>
          if past then None
          else if (200 <=? length l)%nat then None
          else Some (l ++ [set_config (trim (d_name e)) (trim (cstr buf))])
      end.

Fixpoint check_entries (es : list dent) (l : list listq) : option (list listq) :=
  match es with
  | [] => Some l
  | e :: es => l ← check_entry e l; check_entries es l
  end.

Definition check_config (w : world) : option (list listq) :=
  match check_dir w with
  | None => Some []
  | Some es => check_entries es []
  end.

Definition task_file (c : list Z) : list Z := snprintf 150 (DIRQUE ++ bytes "/" ++ c).

Definition set_check (f : fs) (str : list Z) (l : list listq) : list listq :=
  map (fun q =>
    if exists_at f (task_file (cmd q)) then q
    else if bool_decide (strstr str (prog q) <> None) then Listq (prog q) (cmd q) 1 else q) l.

Definition clear_set (s : state) : state := State [] 0.

Definition run_daemon (f : fs) (pname p : list Z) : list event :=
  if exists_at f (bytes "/bin/start-stop-daemon")
  then [System (bytes "/bin/start-stop-daemon -S -q -b -m -p /var/run/" ++ pname ++ bytes ".pid -x " ++ p)]
  else [].

(** Two digits, and the format [%d/%m/%Y %T]. *)
Definition pad2 (n : Z) : list Z := if n <? 10 then bytes "0" ++ dec n else dec n.

Definition strftime (t : tm) : list Z :=
  pad2 (tm_mday t) ++ bytes "/" ++ pad2 (tm_mon t + 1) ++ bytes "/" ++ dec (tm_year t + 1900) ++ bytes " "
  ++ pad2 (tm_hour t) ++ bytes ":" ++ pad2 (tm_min t) ++ bytes ":" ++ pad2 (tm_sec t).

(** [open] with [O_CREAT | O_TRUNC], on which [save_to_file] rests. *)
Definition creat (denied : list Z -> bool) (f : fs) (path : list Z) : fs :=
  if denied path then f
  else
    match node_at f (comps path) with
    | Some _ => f
    | None =>
        match node_at f (removelast (comps path)) with
        | Some Dir => <[comps path := File]> f
        | _ => f
        end
    end.

Definition down_text (p : list Z) : list Z := snprintf 256 (bytes "Service " ++ p ++ bytes " down").

Fixpoint run_entries (w : world) (l : list listq) (f : fs) : fs * list event :=
  match l with
  | [] => (f, [])
  | q :: l =>
      if status q =? 0 then
        let fname := task_file (cmd q) in
        if exists_at f fname then run_entries w l f
        else
          let '(f', t) := run_entries w l (creat (deny w) f fname) in
          (f', SaveFile fname (strftime (local w)) :: Syslog (down_text (prog q)) :: t)
      else run_entries w l f
  end.

Definition run_check (w : world) (s : state) (f : fs) : fs * list event :=
  let t := if (taskq s =? 0) && exists_at f (bytes "/bin/taskq-check")
           then run_daemon f (bytes "taskq-check") (bytes "/bin/taskq-check") else [] in
  let f := if exists_at f DIRQUE then f else (xmkdir (deny w) (deny w) f (mask w) DIRQUE).1.2 in
  let '(f, t') := run_entries w (list_q s) f in (f, t ++ t').

(** ** The processes *)

(** [sscanf(buf, "%*s (%15c)", cmd)]: up to 15 bytes go to the start of [cmd]. *)
Definition scan_comm (buf cmd : list Z) : list Z :=
  match scan_word buf with
  | None => cmd
  | Some (_, rest) =>
      match skip_space rest with
      | 40 :: rest => let got := take 15 rest in got ++ drop (length got) cmd
      | _ => cmd
      end
  end.

(** [splitc(scmd, cmd, ')')]: the string [scmd] and the buffer [cmd]; undefined
    when [cmd] holds no NUL. *)
Definition split_comm (cmd : list Z) : option (list Z * list Z) :=
  if bool_decide (0 ∈ cmd) then
    match strchr (cstr cmd) 41 with
    | None => Some ([], cmd)
    | Some p => Some (take p (cstr cmd), poke (drop (S p) (cstr cmd)) (<[p := 0]> cmd))
    end
  else None.

(** The command line with spaces for its NULs and control bytes. *)
Definition spaced (data : list Z) : list Z :=
  let n := length data in
  let data := if bool_decide (last data = Some 10) then take (pred n) data else data in
  map (fun c => if c <? 32 then 32 else c) data.

(** What a process is searched by. *)
Definition proc_text (p : process) (cmd : list Z) : option (option (list Z) * list Z) :=
  match read_oneline (p_stat p) 1023 with
  | (_, None) => Some (None, cmd)
  | (_, Some (_, true)) => None
  | (_, Some (buf, false)) =>
      '(scmd, cmd) ← split_comm (scan_comm (cstr buf) cmd);
      str ← sprintf 1024 (scmd ++ bytes " ");
      str ←
        match read_oneline (p_cmdline p) 1023 with
        | (_, None) => Some str
        | (_, Some (_, true)) => None
        | (_, Some (buf, false)) =>
            match spaced buf with
            | [] => Some str
            | b => sprintf 1024 (str ++ bytes " " ++ b ++ bytes " ")
            end
        end;
      Some (Some (trim str), cmd)
  end.

Definition is_pid (name : list Z) : bool := match name with c :: _ => isdigit c | [] => false end.

(** [cmd] is not cleared between processes. *)
Fixpoint check_procs (w : world) (f : fs) (names : list (list Z)) (cmd : list Z) (s : state) : option state :=
  match names with
  | [] => Some s
  | n :: names =>
      if negb (is_pid n) then check_procs w f names cmd s
      else
        match proc_of w (atoi n) with
        | None => check_procs w f names cmd s
        | Some p =>
            '(str, cmd) ← proc_text p cmd;
            check_procs w f names cmd
              (match str with
               | None => s
               | Some str =>
                   if bool_decide (strstr str (bytes "taskq-check") <> None) then State (list_q s) 1
                   else State (set_check f str (list_q s)) (taskq s)
               end)
        end
  end.

Definition check_prog (w : world) (f : fs) (s : state) : option state :=
  match proc_dir w with
  | None => Some s
  | Some names => check_procs w f names (stack w) s
  end.

Definition proc_idle (f : fs) : bool := exists_at f (bytes "/var/sys/init_down") || exists_at f (bytes "/var/sys/chkprog_stop").

(** One turn of the loop of [main]. *)
Definition turn (w : world) (f : fs) (s : state) : option (fs * state * list event) :=
  if proc_idle f then Some (f, s, [Sleep 100])
  else
    let s := clear_set s in
    l ← check_config w;
    s ← check_prog w f (State l (taskq s));
    let '(f, t) := run_check w s f in
    Some (f, s, t ++ [Sleep 10]).

(** ** taskq-check *)

Definition TASKQ_EXE : list Z := bytes "/service/tools/taskq_exec.exc".

(** [check_request]: [readdir] gives an entry of the directory if it has one. *)
Definition check_request (f : fs) : Z :=
  match node_at f (comps DIRQUE) with
  | Some Dir =>
      if decide (Exists (fun p => p <> [] /\ removelast p = comps DIRQUE) (map_to_list f).*1) then 1 else 0
  | _ => 0
  end.

Definition taskq_check_turn (f : fs) : list event :=
  (if (0 <? check_request f) && exists_at f TASKQ_EXE then [System TASKQ_EXE] else []) ++ [Sleep 1].

(** ** The specification *)

Definition occurs (p s : list Z) : Prop := exists a b, s = a ++ p ++ b.

(** What the kernel writes to the [stat] of a process. *)
Definition kernel_stat (pid : Z) (comm rest : list Z) : list Z := dec pid ++ bytes " (" ++ comm ++ bytes ") " ++ rest.

(** The name up to its first parenthesis, lost when that is not among its first 15 bytes. *)
Definition seen_comm (comm : list Z) : list Z :=
  match strchr (take 15 (comm ++ [41])) 41 with Some p => take p comm | None => [] end.

Definition text_of (comm : list Z) (cmdline : option (list Z)) : list Z :=
  trim (seen_comm comm ++ [32] ++
    match spaced (default [] cmdline) with [] => [] | b => [32] ++ b ++ [32] end).

Definition process_ok (p : process) : Prop :=
  match p_stat p with
  | None => True
  | Some st =>
      exists pid comm rest, st = kernel_stat pid comm rest /\ 0 <= pid /\ is_cstr comm /\ is_cstr rest
        /\ (13 <= length rest)%nat /\ (length st < 1023)%nat /\ (length (default [] (p_cmdline p)) <= 1000)%nat
  end.

Definition shows (w : world) (n str : list Z) : Prop :=
  is_pid n = true /\ exists p pid comm rest, proc_of w (atoi n) = Some p
    /\ p_stat p = Some (kernel_stat pid comm rest) /\ 0 <= pid /\ is_cstr comm /\ is_cstr rest
    /\ (13 <= length rest)%nat /\ str = text_of comm (p_cmdline p).

(** A process other than the task daemon whose name or arguments hold [p]. *)
Definition running (w : world) (p : list Z) : Prop :=
  exists names n str, proc_dir w = Some names /\ n ∈ names /\ shows w n str
    /\ occurs p str /\ ~ occurs (bytes "taskq-check") str.

Definition procs_ok (w : world) : Prop :=
  forall names n p, proc_dir w = Some names -> n ∈ names -> is_pid n = true -> proc_of w (atoi n) = Some p -> process_ok p.

Definition task_name (c : list Z) : Prop :=
  is_cstr c /\ c <> [] /\ (slash ∉ c) /\ (length c <= 134)%nat.

(** The services of /var/sys/check, in the order of the directory. *)
Definition service_of (e : dent) : option listq :=
  if dots (d_name e) || negb (d_stat e) then None
  else match d_data e with
       | None => None
       | Some data => Some (Listq (trim (d_name e)) (trim (cstr data)) 0)
       end.

Definition services (es : list dent) : list listq := omap service_of es.

Definition config_ok (es : list dent) : Prop :=
  (length es <= 200)%nat
  /\ Forall (fun e => (length (d_name e) <= 16)%nat /\ (length (default [] (d_data e)) < 1023)%nat) es
  /\ Forall (fun q => task_name (cmd q)) (services es).

Definition buf_ok (b : list Z) : Prop := length b = 16%nat /\ b !! 15%nat = Some 0.

(** ** Laws *)

Lemma occurs_strstr (p s : list Z) : strstr s p <> None <-> occurs p s.
Proof.
  split.
  - destruct (strstr s p) as [i|] eqn:E; [|done]. intros _. apply strstr_Some in E as [E _].
    by exists (take i s), (drop (i + length p) s).
  - intros (a & b & ->) E. rewrite strstr_None in E. specialize (E (length a)).
    by rewrite drop_app_length, prefixb_app in E.
Qed.

Lemma cstr_take_length (s : list Z) : (length (cstr s) <= length s)%nat.
Proof. induction s as [|c s IH]; simpl; [lia|]. destruct (c =? 0); simpl; lia. Qed.

Lemma trim_length (s : list Z) : (length (trim s) <= length s)%nat.
Proof. destruct (trim_splits s) as (l & r & E & _). rewrite E at 2. rewrite !length_app. lia. Qed.

Lemma read_short (data : list Z) :
  (length data < 1023)%nat -> read_oneline (Some data) 1023 = (Z.of_nat (length data), Some (data, false)).
Proof.
  intros H. unfold read_oneline. rewrite take_ge by lia. unfold oob. by rewrite (proj2 (Nat.leb_gt _ _)) by lia.
Qed.

Lemma sprintf_fits (size : nat) (s : list Z) : (length s < size)%nat -> sprintf size s = Some s.
Proof. intros H. unfold sprintf. by rewrite (proj2 (Nat.ltb_lt _ _)). Qed.

Lemma dircheck_length (name : list Z) : length (DIRCHECK ++ bytes "/" ++ name) = (15 + length name)%nat.
Proof. by rewrite !length_app. Qed.

Lemma check_entry_ok (e : dent) (l : list listq) :
  (length l < 200)%nat -> (length (d_name e) <= 16)%nat -> (length (default [] (d_data e)) < 1023)%nat ->
  Forall (fun q => task_name (cmd q)) (services [e]) ->
  check_entry e l = Some (l ++ services [e]).
Proof.
  intros Hl Hn Hd. unfold check_entry, services, service_of. cbn [omap list_omap].
  destruct (dots (d_name e)); [intros _; by rewrite app_nil_r|].
  rewrite sprintf_fits by (rewrite dircheck_length; lia). cbn [mbind option_bind].
  destruct (d_stat e); cbn [negb orb]; [|intros _; by rewrite app_nil_r].
  destruct (d_data e) as [data|]; [|intros _; by rewrite app_nil_r].
  cbn [default] in Hd. rewrite read_short by exact Hd. rewrite (proj2 (Nat.leb_gt _ _)) by exact Hl.
  intros [(_ & _ & _ & Hc) _]%Forall_cons. cbn [cmd] in Hc. unfold set_config, snprintf.
  pose proof (trim_length (d_name e)). rewrite !take_ge by (cbn [pred]; lia). done.
Qed.

Lemma check_entries_ok (es : list dent) (l : list listq) :
  (length l + length es <= 200)%nat ->
  Forall (fun e => (length (d_name e) <= 16)%nat /\ (length (default [] (d_data e)) < 1023)%nat) es ->
  Forall (fun q => task_name (cmd q)) (services es) ->
  check_entries es l = Some (l ++ services es).
Proof.
  revert l. induction es as [|e es IH]; intros l Hl Hes Hs; [by rewrite app_nil_r|].
  apply Forall_cons in Hes as [[Hn Hd] Hes]. rewrite length_cons in Hl. cbn [check_entries].
  assert (Es : services (e :: es) = services [e] ++ services es).
  { unfold services. cbn [omap list_omap]. by destruct (service_of e). }
  rewrite Es in Hs |- *. apply Forall_app in Hs as [Hs1 Hs2].
  rewrite check_entry_ok by (done || lia). cbn [mbind option_bind].
  assert (Hlen : (length (services [e]) <= 1)%nat).
  { unfold services. cbn [omap list_omap]. destruct (service_of e); cbn [length]; lia. }
  rewrite IH; [by rewrite app_assoc | rewrite length_app; lia | done | done].
Qed.

Lemma digit_words (n : Z) (s : list Z) :
  0 <= n -> scan_word (dec n ++ 32 :: s) = Some (dec n, 32 :: s).
Proof.
  intros Hn. unfold scan_word.
  assert (Hd : Forall (fun c => isdigit c = true) (dec n)) by (rewrite dec_digits by done; by apply digits_digit).
  destruct (dec_head n Hn) as (c & d & E & Hc). rewrite E in Hd |- *. clear E. apply Forall_cons in Hd as [_ Hd].
  assert (Hns : forall x, isdigit x = true -> isspace x = false).
  { intros x Hx%isdigit_range. unfold isspace. lia. }
  simpl. rewrite (Hns c Hc). simpl. rewrite (Hns c Hc).
  enough (E : span_word (d ++ 32 :: s) = (d, 32 :: s)) by by rewrite E.
  induction Hd as [|x d Hx Hd IH]; [done|]. simpl. by rewrite (Hns x Hx), IH.
Qed.

(** The bytes that [%15c] reads, and what [splitc] finds in them. *)
Lemma strchr_cut (c s : list Z) (x : Z) (n : nat) :
  strchr (take n (c ++ x :: s)) x = strchr (take n (c ++ [x])) x.
Proof.
  revert n. induction c as [|a c IH]; intros [|n]; [done | | done |]; simpl.
  - by rewrite Z.eqb_refl.
  - by rewrite IH.
Qed.

Lemma strchr_take_before (c : list Z) (x : Z) (n p : nat) :
  strchr (take n (c ++ [x])) x = Some p -> (p < n)%nat /\ (p <= length c)%nat.
Proof.
  intros H. apply strchr_Some in H as (H & _). apply lookup_lt_Some in H.
  rewrite length_take, length_app in H. simpl in H. lia.
Qed.

Lemma cstr_nul (s t : list Z) : is_cstr s -> cstr (s ++ 0 :: t) = s.
Proof. intros H. rewrite cstr_app_nul. by apply cstr_id. Qed.

Lemma poke_buf_ok (s b : list Z) : buf_ok b -> (length s <= 15)%nat -> buf_ok (poke s b).
Proof.
  intros [Hl Hb] Hs. unfold poke. split.
  - rewrite length_app, length_cons, length_drop. lia.
  - destruct (decide (length s = 15%nat)) as [E|Hne].
    + by rewrite lookup_app_r, E by lia.
    + rewrite lookup_app_r by lia. rewrite lookup_cons_ne_0 by lia. rewrite lookup_drop.
      by replace (S (length s) + pred (15 - length s))%nat with 15%nat by lia.
Qed.

Lemma split_comm_ok (comm rest b : list Z) :
  is_cstr comm -> is_cstr rest -> (13 <= length rest)%nat -> buf_ok b ->
  let got := take 15 (comm ++ bytes ") " ++ rest) in
  exists b', split_comm (got ++ drop (length got) b) = Some (seen_comm comm, b') /\ buf_ok b'.
Proof.
  intros Hc Hr Hl [Hb Hn] got.
  assert (Hgot : length got = 15%nat) by (unfold got; rewrite length_take, !length_app; cbn [bytes map length String.list_ascii_of_string]; lia).
  assert (Hg : is_cstr got).
  { apply Forall_take, Forall_app; split; [done|]. apply Forall_app; split; [|done].
    repeat (apply Forall_cons; split; [cbv; split; reflexivity|]). constructor. }
  assert (Ed : drop (length got) b = [0]).
  { rewrite Hgot. rewrite (drop_S _ 0) by exact Hn. rewrite drop_ge by lia. done. }
  rewrite Ed. unfold split_comm. rewrite bool_decide_eq_true_2 by set_solver. rewrite (cstr_nul got []) by done.
  assert (Es : strchr got 41 = strchr (take 15 (comm ++ [41])) 41) by apply (strchr_cut comm (32 :: rest) 41 15).
  rewrite Es. unfold seen_comm. destruct (strchr (take 15 (comm ++ [41])) 41) as [p|] eqn:Ep.
  - apply strchr_take_before in Ep as [Hp Hpc]. eexists. split.
    + f_equal. f_equal. unfold got. rewrite take_take. replace (p `min` 15)%nat with p by lia. by rewrite take_app_le by lia.
    + apply poke_buf_ok; [|rewrite length_drop; lia]. split.
      * rewrite length_insert, length_app, Hgot. done.
      * rewrite list_lookup_insert_ne by lia. by rewrite lookup_app_r, Hgot by lia.
  - eexists. split; [done|]. split; [by rewrite length_app, Hgot | by rewrite lookup_app_r, Hgot by lia].
Qed.

Lemma dec_cstr (n : Z) : 0 <= n -> is_cstr (dec n).
Proof.
  intros Hn. rewrite dec_digits by done. eapply Forall_impl; [by apply digits_digit|].
  intros c Hc%isdigit_range. cbv beta. lia.
Qed.

Lemma scan_comm_ok (pid : Z) (comm rest b : list Z) :
  0 <= pid -> is_cstr comm -> is_cstr rest ->
  let got := take 15 (comm ++ bytes ") " ++ rest) in
  scan_comm (cstr (kernel_stat pid comm rest)) b = got ++ drop (length got) b.
Proof.
  intros Hp Hc Hr got. rewrite cstr_id.
  - unfold scan_comm, kernel_stat. change (bytes " (") with [32; 40]. cbn [app]. by rewrite digit_words.
  - unfold kernel_stat. repeat (apply Forall_app; split); try done; [by apply dec_cstr | |];
      repeat (apply Forall_cons; split; [cbv; split; reflexivity|]); constructor.
Qed.

Lemma seen_comm_length (comm : list Z) : (length (seen_comm comm) <= 15)%nat.
Proof.
  unfold seen_comm. destruct (strchr _ _) as [p|] eqn:E; [|cbn; lia].
  apply strchr_take_before in E. rewrite length_take. lia.
Qed.

Lemma spaced_length (data : list Z) : (length (spaced data) <= length data)%nat.
Proof. unfold spaced. rewrite length_map. bcase; [rewrite length_take|]; lia. Qed.

Lemma proc_text_ok (p : process) (pid : Z) (comm rest b : list Z) :
  p_stat p = Some (kernel_stat pid comm rest) -> 0 <= pid -> is_cstr comm -> is_cstr rest ->
  (13 <= length rest)%nat -> (length (kernel_stat pid comm rest) < 1023)%nat ->
  (length (default [] (p_cmdline p)) <= 1000)%nat -> buf_ok b ->
  exists b', proc_text p b = Some (Some (text_of comm (p_cmdline p)), b') /\ buf_ok b'.
Proof.
  intros Es Hp Hc Hr Hl Hst Hcl Hb. unfold proc_text. rewrite Es, read_short by done.
  rewrite scan_comm_ok by done. destruct (split_comm_ok comm rest b) as (b' & E & Hb'); [done..|].
  rewrite E. cbn [mbind option_bind]. exists b'. split; [|done]. clear E.
  pose proof (seen_comm_length comm) as Hs.
  rewrite sprintf_fits by (rewrite length_app; change (length (bytes " ")) with 1%nat; lia).
  cbn [mbind option_bind]. unfold text_of.
  destruct (p_cmdline p) as [data|]; [change (default [] (Some data)) with data in * |].
  - rewrite read_short by lia. pose proof (spaced_length data) as Hsp.
    destruct (spaced data) as [|x d] eqn:Ed; [done|]. rewrite <- Ed in *. clear Ed.
    rewrite sprintf_fits; [by rewrite <- app_assoc|]. rewrite !length_app. change (length (bytes " ")) with 1%nat. lia.
  - done.
Qed.

(** What a process does to the entries. *)
Definition matched (strs : list (list Z)) (q : listq) : bool :=
  existsb (fun str => bool_decide (strstr str (prog q) <> None)) strs.

Definition marked (f : fs) (strs : list (list Z)) (q : listq) : listq :=
  if exists_at f (task_file (cmd q)) then q else if matched strs q then Listq (prog q) (cmd q) 1 else q.

Lemma set_check_marked (f : fs) (str : list Z) (strs : list (list Z)) (l : list listq) :
  map (marked f strs) (set_check f str l) = map (marked f (str :: strs)) l.
Proof.
  unfold set_check. rewrite map_map. apply map_ext. intros [p c st]. unfold marked. cbn [cmd prog].
  change (matched (str :: strs) (Listq p c st)) with (bool_decide (strstr str p <> None) || matched strs (Listq p c st)).
  destruct (exists_at f (task_file c)) eqn:E; cbn [cmd prog]; rewrite ?E; [done|].
  destruct (bool_decide (strstr str p <> None)); cbn [cmd prog orb]; rewrite E; [by destruct (matched strs _) | done].
Qed.

Lemma marked_none (f : fs) (l : list listq) : map (marked f []) l = l.
Proof. rewrite <- (map_id l) at 2. apply map_ext. intros q. unfold marked. by destruct (exists_at _ _). Qed.

(** The text that a process gives to the search, as its [stat] tells. *)
Lemma proc_shows (w : world) (n b : list Z) (p : process) :
  process_ok p -> is_pid n = true -> proc_of w (atoi n) = Some p -> buf_ok b ->
  exists str b', proc_text p b = Some (str, b') /\ buf_ok b' /\ forall x, str = Some x <-> shows w n x.
Proof.
  intros Hp Hn Hw Hb. unfold process_ok in Hp. destruct (p_stat p) as [st|] eqn:Es.
  - destruct Hp as (pid & comm & rest & -> & Hpid & Hc & Hr & Hl & Hst & Hcl).
    destruct (proc_text_ok p pid comm rest b Es Hpid Hc Hr Hl Hst Hcl Hb) as (b' & E & Hb').
    exists (Some (text_of comm (p_cmdline p))), b'. split_and!; [done..|]. intros x. split.
    + intros [= <-]. split; [done|]. by exists p, pid, comm, rest.
    + intros (_ & p' & pid' & comm' & rest' & Hw' & Es' & Hpid' & Hc' & Hr' & Hl' & ->).
      rewrite Hw in Hw'. injection Hw' as <-. rewrite Es in Es'. injection Es' as Ek.
      destruct (proc_text_ok p pid' comm' rest' b) as (b2 & E2 & _); [congruence | done.. | congruence | done | done |].
      rewrite E in E2. by injection E2 as -> _.
  - exists None, b. split; [unfold proc_text; by rewrite Es|]. split; [done|]. intros x. split; [done|].
    intros (_ & p' & pid' & comm' & rest' & Hw' & Es' & _). congruence.
Qed.

Definition process_state (f : fs) (str : option (list Z)) (s : state) : state :=
  match str with
  | None => s
  | Some str =>
      if bool_decide (strstr str (bytes "taskq-check") <> None) then State (list_q s) 1
      else State (set_check f str (list_q s)) (taskq s)
  end.

Definition live (str : option (list Z)) : list (list Z) :=
  match str with
  | Some x => if bool_decide (strstr x (bytes "taskq-check") <> None) then [] else [x]
  | None => []
  end.

Lemma process_state_marked (f : fs) (str : option (list Z)) (s : state) (strs : list (list Z)) :
  map (marked f strs) (list_q (process_state f str s)) = map (marked f (live str ++ strs)) (list_q s).
Proof. destruct str as [x|]; cbn [process_state live]; [|done]. case_bool_decide; [done|]. apply set_check_marked. Qed.

Lemma elem_of_live (str : option (list Z)) (x : list Z) :
  x ∈ live str <-> ~ occurs (bytes "taskq-check") x /\ str = Some x.
Proof.
  destruct str as [y|]; cbn [live]; [|set_solver].
  destruct (bool_decide_reflect (strstr y (bytes "taskq-check") <> None)) as [H|H]; rewrite occurs_strstr in H.
  - split; [set_solver|]. intros [H1 [= ->]]. done.
  - rewrite list_elem_of_singleton. split; [intros ->; done | by intros [_ [= ->]]].
Qed.

Lemma check_procs_ok (w : world) (f : fs) (names : list (list Z)) (b : list Z) (s : state) :
  (forall n p, n ∈ names -> is_pid n = true -> proc_of w (atoi n) = Some p -> process_ok p) -> buf_ok b ->
  exists s' strs, check_procs w f names b s = Some s'
    /\ list_q s' = map (marked f strs) (list_q s)
    /\ (forall str, str ∈ strs <-> ~ occurs (bytes "taskq-check") str /\ exists n, n ∈ names /\ shows w n str).
Proof.
  revert b s. induction names as [|n names IH]; intros b s Hok Hb.
  - exists s, []. rewrite marked_none. split_and!; [done..|]. set_solver.
  - enough (exists str b', buf_ok b' /\ (forall x, str = Some x <-> shows w n x)
      /\ check_procs w f (n :: names) b s = check_procs w f names b' (process_state f str s)) as (str & b' & Hb' & Hx & E).
    { destruct (IH b' (process_state f str s)) as (s' & strs & E' & El & Hs); [set_solver | done|].
      exists s', (live str ++ strs). rewrite E, E', El, (process_state_marked f str s strs).
      split_and!; [done..|]. intros x. rewrite elem_of_app, elem_of_live, Hs, Hx. set_solver. }
    cbn [check_procs].
    destruct (is_pid n) eqn:En; cbn [negb].
    2: { exists None, b. split_and!; [done| |done]. intros x. split; [done|]. intros [H _]. congruence. }
    destruct (proc_of w (atoi n)) as [p|] eqn:Ep.
    2: { exists None, b. split_and!; [done| |done]. intros x. split; [done|].
         intros (_ & p & pid & comm & rest & H & _). congruence. }
    destruct (proc_shows w n b p) as (str & b' & E & Hb' & Hx); [by apply (Hok n); [set_solver|..] | done..|].
    exists str, b'. rewrite E. done.
Qed.

(** ** The task files *)

Definition queue : list (list Z) := [bytes "var"; bytes "sys"; bytes "taskq"].

Lemma task_comps (c : list Z) : task_name c -> comps (task_file c) = queue ++ [c].
Proof.
  intros (_ & Hne & Hs & Hl). unfold task_file, snprintf.
  rewrite take_ge by (rewrite !length_app; change (length DIRQUE) with 14%nat; change (length (bytes "/")) with 1%nat; lia).
  rewrite app_assoc, comps_sep; [|intros x; by intros [= <-]].
  rewrite <- (app_nil_r c) at 1. by rewrite (comps_run c []) by (done || constructor).
Qed.

Lemma exists_at_spec (f : fs) (path : list Z) : exists_at f path = false <-> node_at f (comps path) = None.
Proof.
  unfold exists_at. rewrite bool_decide_eq_false. split; [|intros ->; tauto].
  destruct (node_at f (comps path)); [|done]. intros H. by destruct H.
Qed.

Lemma creat_queue (denied : list Z -> bool) (f : fs) (c : list Z) :
  (forall p, denied p = false) -> node_at f queue = Some Dir -> task_name c -> node_at f (queue ++ [c]) = None ->
  creat denied f (task_file c) = <[queue ++ [c] := File]> f.
Proof.
  intros Hd Hq Hc Hn. unfold creat. rewrite Hd, task_comps, Hn by done. by rewrite removelast_last, Hq.
Qed.

Lemma insert_other (f : fs) (c : list Z) (cs : list (list Z)) (n : node) :
  node_at (<[queue ++ [c] := n]> f) cs = if decide (cs = queue ++ [c]) then Some n else node_at f cs.
Proof.
  destruct (decide (cs = queue ++ [c])) as [->|H]; [by rewrite node_at_app, lookup_insert_eq|].
  unfold node_at. destruct cs; [done|]. by rewrite lookup_insert_ne.
Qed.

(** What [run_check] reports of a list of entries, and the files it leaves. *)
Record reported (f : fs) (l : list listq) (f' : fs) (t : list event) : Prop := {
  rep_queued : forall q, q ∈ l -> status q = 0 -> node_at f' (queue ++ [cmd q]) <> None;
  rep_logged : forall x, Syslog x ∈ t -> exists q, q ∈ l /\ status q = 0
    /\ node_at f (queue ++ [cmd q]) = None /\ x = down_text (prog q);
  rep_all : forall q, q ∈ l -> status q = 0 -> node_at f (queue ++ [cmd q]) = None ->
    exists q', q' ∈ l /\ status q' = 0 /\ cmd q' = cmd q /\ Syslog (down_text (prog q')) ∈ t;
  rep_files : forall c, node_at f' c = node_at f c \/ exists q, q ∈ l /\ status q = 0
    /\ c = queue ++ [cmd q] /\ node_at f c = None /\ node_at f' c = Some File
}.

Lemma reported_skip (f : fs) (q : listq) (l : list listq) (f' : fs) (t : list event) :
  (status q = 0 -> node_at f (queue ++ [cmd q]) <> None) -> reported f l f' t -> reported f (q :: l) f' t.
Proof.
  intros Hq [H1 H2 H3 H4]. split.
  - intros q' [->|Hin]%elem_of_cons Hst; [|by apply H1]. destruct (H4 (queue ++ [cmd q])) as [->|(q2 & _ & _ & _ & _ & ->)]; auto.
  - intros x Hx. destruct (H2 x Hx) as (q' & ? & ?). exists q'. set_solver.
  - intros q' [->|Hin]%elem_of_cons Hst Hn; [by destruct (Hq Hst)|].
    destruct (H3 q' Hin Hst Hn) as (q2 & ? & ?). exists q2. set_solver.
  - intros c. destruct (H4 c) as [?|(q2 & ? & ?)]; [by left|]. right. exists q2. set_solver.
Qed.

Lemma reported_new (f : fs) (q : listq) (l : list listq) (f' : fs) (path stamp : list Z) (t : list event) :
  status q = 0 -> node_at f (queue ++ [cmd q]) = None ->
  reported (<[queue ++ [cmd q] := File]> f) l f' t ->
  reported f (q :: l) f' (SaveFile path stamp :: Syslog (down_text (prog q)) :: t).
Proof.
  intros Hst Hn [H1 H2 H3 H4]. split.
  - intros q' [->|Hin]%elem_of_cons Hst'; [|by apply H1].
    destruct (H4 (queue ++ [cmd q])) as [->|(q2 & _ & _ & _ & _ & ->)]; [|done].
    rewrite insert_other, decide_True by done. done.
  - intros x [[=]|[[= ->]|Hx]%elem_of_cons]%elem_of_cons; [exists q; set_solver|].
    destruct (H2 x Hx) as (q' & Hin & Hst' & Hn' & ->). exists q'. split_and!; [set_solver|done| |done].
    rewrite insert_other in Hn'. by destruct (decide _).
  - intros q' Hin Hst' Hn'. destruct (decide (cmd q' = cmd q)) as [E|E]; [exists q; set_solver|].
    apply elem_of_cons in Hin as [->|Hin]; [done|].
    destruct (H3 q' Hin Hst') as (q2 & ? & ? & ? & ?); [|exists q2; set_solver].
    rewrite insert_other, decide_False; [done|]. by intros [= ?].
  - intros c. destruct (H4 c) as [E|(q2 & Hin & Hst2 & -> & Hn2 & Hf)].
    + rewrite insert_other in E. destruct (decide (c = queue ++ [cmd q])) as [->|]; [|by left].
      right. exists q. set_solver.
    + rewrite insert_other in Hn2. destruct (decide _); [done|]. right. exists q2. set_solver.
Qed.

Lemma run_entries_ok (w : world) (l : list listq) (f : fs) :
  (forall p, deny w p = false) -> node_at f queue = Some Dir -> Forall (fun q => task_name (cmd q)) l ->
  let '(f', t) := run_entries w l f in reported f l f' t.
Proof.
  intros Hd. revert f. induction l as [|q l IH]; intros f Hq Hl; cbn [run_entries].
  - split; [intros ? []%elem_of_nil.. | by left].
  - apply Forall_cons in Hl as [Hc Hl]. destruct (Z.eqb_spec (status q) 0) as [Hst|Hst].
    2: { specialize (IH f Hq Hl). destruct (run_entries w l f). by apply reported_skip. }
    pose proof (exists_at_spec f (task_file (cmd q))) as He. rewrite task_comps in He by done.
    destruct (exists_at f (task_file (cmd q))).
    + specialize (IH f Hq Hl). destruct (run_entries w l f). apply reported_skip; [|done]. intros _ Hn. by apply He in Hn.
    + pose proof (proj1 He eq_refl) as Hn. rewrite creat_queue by done.
      specialize (IH (<[queue ++ [cmd q] := File]> f)). destruct (run_entries w l _).
      apply reported_new; [done..|]. apply IH; [|done]. rewrite insert_other, decide_False; [done|]. done.
Qed.

(** The directories that the system has from its start. *)
Definition ready_fs (f : fs) : Prop :=
  f !! [bytes "var"] = Some Dir /\ f !! [bytes "var"; bytes "sys"] = Some Dir /\ f !! queue <> Some File.

Definition open_queue (w : world) (f : fs) : fs :=
  if exists_at f DIRQUE then f else (xmkdir (deny w) (deny w) f (mask w) DIRQUE).1.2.

Lemma open_queue_ok (w : world) (f : fs) :
  (forall p, deny w p = false) -> ready_fs f ->
  node_at (open_queue w f) queue = Some Dir /\ forall c, c <> queue -> node_at (open_queue w f) c = node_at f c.
Proof.
  intros Hd (H1 & H2 & H3). unfold open_queue.
  assert (Eq : comps DIRQUE = queue) by (vm_compute; reflexivity).
  pose proof (exists_at_spec f DIRQUE) as He. rewrite Eq in He. destruct (exists_at f DIRQUE).
  - split; [|done]. change (node_at f queue) with (f !! queue) in *.
    destruct (f !! queue) as [[]|]; [done | done |]. by destruct He as [_ He]; discriminate He.
  - pose proof (proj1 He eq_refl) as Hn. unfold xmkdir.
    rewrite xmkdir_loop_correct by (done || (vm_compute; lia)). rewrite Eq. cbn [fst snd].
    assert (Em : mkdirs f [] queue = (0, <[queue := Dir]> f)).
    { unfold queue. cbn [mkdirs app]. rewrite H1. cbn [app]. rewrite H2. cbn [app].
      change (f !! queue = None) in Hn. unfold queue in Hn. by rewrite Hn. }
    change (comps []) with (@nil (list Z)). rewrite Em. cbn [snd]. split.
    + change (<[queue := Dir]> f !! queue = Some Dir). by rewrite lookup_insert_eq.
    + intros c Hc. unfold node_at. destruct c; [done|]. by rewrite lookup_insert_ne.
Qed.

Lemma check_request_one (f : fs) (c : list Z) :
  node_at f queue = Some Dir -> node_at f (queue ++ [c]) <> None -> check_request f = 1.
Proof.
  intros Hq Hc. unfold check_request. change (comps DIRQUE) with queue. rewrite Hq.
  rewrite decide_True; [done|]. apply Exists_exists. exists (queue ++ [c]). split; [|split; [done | by rewrite removelast_last]].
  destruct (f !! (queue ++ [c])) as [n|] eqn:E; [|by rewrite node_at_app in Hc].
  apply list_elem_of_fmap. exists (queue ++ [c], n). split; [done|]. by apply elem_of_map_to_list.
Qed.

Lemma services_new (es : list dent) (q : listq) : q ∈ services es -> status q = 0.
Proof.
  intros (e & _ & He)%list_elem_of_omap. unfold service_of in He.
  destruct (_ || _); [done|]. destruct (d_data e); [|done]. by injection He as <-.
Qed.

Lemma matched_spec (strs : list (list Z)) (q : listq) :
  matched strs q = true <-> exists str, str ∈ strs /\ occurs (prog q) str.
Proof.
  unfold matched. rewrite existsb_exists. split.
  - intros (str & Hin & H%bool_decide_eq_true). exists str. split; [by apply list_elem_of_In | by apply occurs_strstr].
  - intros (str & Hin & H). exists str. split; [by apply list_elem_of_In|]. by apply bool_decide_eq_true, occurs_strstr.
Qed.

Lemma marked_fields (f : fs) (strs : list (list Z)) (q : listq) :
  prog (marked f strs q) = prog q /\ cmd (marked f strs q) = cmd q.
Proof. unfold marked. repeat bcase; done. Qed.

(** The search of the processes, in terms of the processes that run. *)
Lemma check_prog_ok (w : world) (f : fs) (s : state) :
  procs_ok w -> buf_ok (stack w) ->
  exists s' strs, check_prog w f s = Some s'
    /\ list_q s' = map (marked f strs) (list_q s)
    /\ (forall q, matched strs q = true <-> running w (prog q)).
Proof.
  intros Hp Hb. unfold check_prog, running. destruct (proc_dir w) as [names|] eqn:En.
  - destruct (check_procs_ok w f names (stack w) s) as (s' & strs & E & El & Hs); [intros n p; by apply Hp | done|].
    exists s', strs. split_and!; [done..|]. intros q. rewrite matched_spec. split.
    + intros (str & [Hl (n & Hn & Hsh)]%Hs & Ho). by exists names, n, str.
    + intros (names' & n & str & [= <-] & Hn & Hsh & Ho & Hl). exists str. split; [|done]. apply Hs. split; [done|]. by exists n.
  - exists s, []. rewrite marked_none. split_and!; [done..|]. intros q. split; [done|].
    by intros (names & n & str & [=] & _).
Qed.

Lemma status_marked (w : world) (f : fs) (strs : list (list Z)) (q : listq) :
  (forall p, matched strs p = true <-> running w (prog p)) -> status q = 0 -> task_name (cmd q) ->
  status (marked f strs q) = 0 <-> node_at f (queue ++ [cmd q]) <> None \/ ~ running w (prog q).
Proof.
  intros Hm Hst Hc. unfold marked. pose proof (exists_at_spec f (task_file (cmd q))) as He. rewrite task_comps in He by done.
  specialize (Hm q). destruct (exists_at _ _).
  - split; [|done]. intros _. left. intros Hn. by apply He in Hn.
  - pose proof (proj1 He eq_refl) as Hn. destruct (matched strs q); cbn [status].
    + split; [done|]. intros [?|Hr]; [done|]. by destruct Hr; apply Hm.
    + split; [|done]. intros _. right. intros Hr. by apply Hm in Hr.
Qed.

(** A service of [es] that no process shows. *)
Definition missing (w : world) (es : list dent) (q : listq) : Prop := q ∈ services es /\ ~ running w (prog q).

Section Marks.
Variables (w : world) (f : fs) (strs : list (list Z)) (es : list dent).
Hypothesis Hm : forall q, matched strs q = true <-> running w (prog q).
Hypothesis Htask : Forall (fun q => task_name (cmd q)) (services es).

Lemma unmarked_missing (q : listq) :
  q ∈ map (marked f strs) (services es) -> status q = 0 -> node_at f (queue ++ [cmd q]) = None ->
  exists q0, missing w es q0 /\ prog q = prog q0 /\ cmd q = cmd q0.
Proof.
  intros (q0 & -> & H0)%list_elem_of_fmap Hst Hn. destruct (marked_fields f strs q0) as [E1 E2].
  exists q0. split; [|done]. split; [done|]. rewrite E2 in Hn.
  apply (status_marked w f strs q0 Hm) in Hst; [tauto | by apply (services_new es)|].
  by apply (proj1 (Forall_forall _ _) Htask).
Qed.

Lemma missing_unmarked (q0 : listq) :
  missing w es q0 ->
  exists q, q ∈ map (marked f strs) (services es) /\ status q = 0 /\ prog q = prog q0 /\ cmd q = cmd q0.
Proof.
  intros [H0 Hr]. exists (marked f strs q0). split; [apply list_elem_of_fmap; by exists q0|].
  split; [|apply marked_fields]. apply (status_marked w f strs q0 Hm); [by apply (services_new es)| | tauto].
  by apply (proj1 (Forall_forall _ _) Htask).
Qed.

Lemma marked_tasks : Forall (fun q => task_name (cmd q)) (map (marked f strs) (services es)).
Proof.
  apply Forall_forall. intros q (q0 & -> & H0)%list_elem_of_fmap. rewrite (proj2 (marked_fields f strs q0)).
  by apply (proj1 (Forall_forall _ _) Htask).
Qed.
End Marks.

Lemma run_check_reported (w : world) (s : state) (f : fs) :
  (forall p, deny w p = false) -> ready_fs f -> Forall (fun q => task_name (cmd q)) (list_q s) ->
  exists f' t0 t, run_check w s f = (f', t0 ++ t) /\ (forall x, Syslog x ∉ t0)
    /\ reported (open_queue w f) (list_q s) f' t.
Proof.
  intros Hd Hf Hl. destruct (open_queue_ok w f Hd Hf) as [Hq _].
  pose proof (run_entries_ok w (list_q s) (open_queue w f) Hd Hq Hl) as Hr. unfold run_check.
  fold (open_queue w f). destruct (run_entries w (list_q s) (open_queue w f)) as [f' t].
  eexists f', _, t. split; [done|]. split; [|done]. intros x.
  destruct (_ && _); [unfold run_daemon; destruct (exists_at _ _)|]; try apply not_elem_of_nil.
  by intros ?%list_elem_of_singleton.
Qed.

(** C28: one turn of chkprog's loop, while it is not told to be idle: with at most
    200 services whose names have at most 16 bytes and whose commands are file names,
    processes as the kernel shows them with command lines of at most 1000 bytes, a
    stack on which the last byte of the buffer [cmd] happens to be NUL, and a file
    system that has /var/sys and refuses nothing there, it stays within its buffers;
    afterwards every configured service that no process shows has a file in the
    task queue, so that taskq-check runs the task program; a service is reported as
    down only when it is not running and had no task file, and then it or a
    service with the same task is; and no other file changes. *)
Theorem turn_correct (w : world) (f : fs) (s : state) (es : list dent) :
  proc_idle f = false -> check_dir w = Some es -> config_ok es -> procs_ok w -> buf_ok (stack w) ->
  (forall p, deny w p = false) -> ready_fs f ->
  let task q := queue ++ [cmd q] in
  exists f' s' t, turn w f s = Some (f', s', t ++ [Sleep 10])
    /\ (forall q, missing w es q -> node_at f' (task q) <> None /\ check_request f' = 1)
    /\ (forall x, Syslog x ∈ t -> exists q, missing w es q /\ node_at f (task q) = None /\ x = down_text (prog q))
    /\ (forall q, missing w es q -> node_at f (task q) = None ->
          exists q', missing w es q' /\ task q' = task q /\ Syslog (down_text (prog q')) ∈ t)
    /\ (forall c, c <> queue -> node_at f' c = node_at f c \/
          exists q, missing w es q /\ c = task q /\ node_at f c = None /\ node_at f' c = Some File).
Proof.
  intros Hi Hes (Hlen & Hfit & Htask) Hp Hb Hd Hf task. unfold turn, check_config. rewrite Hi, Hes.
  rewrite (check_entries_ok es []) by (done || (cbn [length]; lia)). cbn [mbind option_bind app].
  destruct (check_prog_ok w f (State (services es) 0) Hp Hb) as (s' & strs & E & El & Hm).
  cbn [clear_set taskq list_q] in *. rewrite E. cbn [mbind option_bind].
  pose proof (unmarked_missing w f strs es Hm Htask) as Hback. pose proof (missing_unmarked w f strs es Hm Htask) as Hfwd.
  destruct (run_check_reported w s' f Hd Hf) as (f' & t0 & t & Er & Ht0 & [R1 R2 R3 R4]);
    [rewrite El; by apply marked_tasks|]. rewrite <- El in Hback, Hfwd.
  destruct (open_queue_ok w f Hd Hf) as [Hq Ho].
  assert (Hto : forall c, node_at (open_queue w f) (queue ++ [c]) = node_at f (queue ++ [c])) by (intros c; by apply Ho).
  exists f', s', (t0 ++ t). rewrite Er. split; [done|]. split_and!.
  - intros q0 Hmi. destruct (Hfwd q0 Hmi) as (q & Hq1 & Hq2 & _ & Ec). unfold task. rewrite <- Ec.
    pose proof (R1 q Hq1 Hq2) as Hn. split; [done|]. apply (check_request_one f' (cmd q)); [|done].
    destruct (R4 queue) as [->|(q2 & _ & _ & Eq & _)]; [done|]. apply (f_equal length) in Eq. discriminate Eq.
  - intros x [Hx|Hx]%elem_of_app; [by destruct (Ht0 x)|]. destruct (R2 x Hx) as (q & Hq1 & Hq2 & Hn & ->).
    rewrite Hto in Hn. destruct (Hback q Hq1 Hq2 Hn) as (q0 & Hmi & -> & Ec). exists q0. unfold task. by rewrite <- Ec.
  - intros q0 Hmi Hn. destruct (Hfwd q0 Hmi) as (q & Hq1 & Hq2 & _ & Ec). unfold task in *. rewrite <- Ec in *.
    rewrite <- Hto in Hn. destruct (R3 q Hq1 Hq2 Hn) as (q' & Hq1' & Hq2' & Ec' & Hx).
    destruct (Hback q' Hq1' Hq2') as (q1 & Hmi1 & Ep1 & Ec1); [by rewrite Ec', <- Hto|].
    exists q1. rewrite <- Ep1, <- Ec1, Ec'. split_and!; [done..|]. apply elem_of_app. by right.
  - intros c Hc. destruct (R4 c) as [E4|(q & Hq1 & Hq2 & -> & Hn & Hfile)]; [left; by rewrite E4, Ho|].
    right. rewrite Hto in Hn. destruct (Hback q Hq1 Hq2 Hn) as (q0 & Hmi & _ & Ec). exists q0. unfold task. by rewrite <- Ec.
Qed.

(** ** An example: one service is missing *)

Module Demo.
Definition sshd : process :=
  Process (Some (kernel_stat 71 (bytes "sshd") (bytes "S 1 71 71 0 -1"))) (Some (bytes "/bin/sshd" ++ [0] ++ bytes "-4" ++ [0])).

Definition entries : list dent :=
  [Dent (bytes ".") true None; Dent (bytes "sshd") true (Some (bytes "sshd-up"));
   Dent (bytes "snort") true (Some (bytes "ips-restart" ++ [10]))].

Definition w : world :=
  World (Some entries) (Some [bytes "71"; bytes "self"]) (fun pid => if pid =? 71 then Some sshd else None)
    (replicate 16 0) (Tm 3 10 108 9 5 0) (fun _ => false) 18.

Definition f : fs := <[[bytes "var"] := Dir]> (<[[bytes "var"; bytes "sys"] := Dir]> ∅).
Definition s : state := State [] 0.

Lemma f_ready : ready_fs f.
Proof. split_and!; [reflexivity | reflexivity | vm_compute; discriminate]. Qed.

Lemma entries_ok : config_ok entries.
Proof.
  split; [vm_compute; lia|]. split; [repeat constructor; vm_compute; lia|]. change (services entries) with
    [Listq (bytes "sshd") (bytes "sshd-up") 0; Listq (bytes "snort") (bytes "ips-restart") 0].
  apply Forall_cons; split; [|apply Forall_cons; split; [|constructor]];
    (split; [apply (bool_decide_unpack _); vm_compute; exact I|]; split; [done|]; split;
      [apply (bool_decide_unpack _); vm_compute; exact I | vm_compute; lia]).
Qed.

Lemma w_procs : procs_ok w.
Proof.
  intros names n p [= <-] Hn Hp Hw. cbn in Hw. destruct (atoi n =? 71); [|done]. injection Hw as <-.
  exists 71, (bytes "sshd"), (bytes "S 1 71 71 0 -1"). split; [done|]. split; [lia|].
  split; [apply (bool_decide_unpack _); vm_compute; exact I|].
  split; [apply (bool_decide_unpack _); vm_compute; exact I|]. vm_compute. lia.
Qed.
End Demo.

Lemma turn_correct_witness :
  exists f' s' t, turn Demo.w Demo.f Demo.s = Some (f', s', t ++ [Sleep 10])
    /\ (forall x, Syslog x ∈ t -> x = bytes "Service snort down").
Proof.
  destruct (turn_correct Demo.w Demo.f Demo.s Demo.entries) as (f' & s' & t & E & _ & Hl & _);
    [reflexivity | reflexivity | exact Demo.entries_ok | exact Demo.w_procs | split; reflexivity | done | exact Demo.f_ready |].
  exists f', s', t. split; [exact E|]. intros x Hx. destruct (Hl x Hx) as (q & [Hq Hr] & _ & ->).
  change (services Demo.entries) with
    [Listq (bytes "sshd") (bytes "sshd-up") 0; Listq (bytes "snort") (bytes "ips-restart") 0] in Hq.
  apply elem_of_cons in Hq as [->|Hq%list_elem_of_singleton]; [|subst q; reflexivity].
  destruct Hr. exists [bytes "71"; bytes "self"], (bytes "71"), (bytes "sshd  /bin/sshd -4").
  split; [reflexivity|]. split; [by apply elem_of_cons; left|]. split.
  - split; [reflexivity|]. exists Demo.sshd, 71, (bytes "sshd"), (bytes "S 1 71 71 0 -1").
    split; [reflexivity|]. split; [reflexivity|]. split; [lia|].
    split; [apply (bool_decide_unpack _); vm_compute; exact I|].
    split; [apply (bool_decide_unpack _); vm_compute; exact I|]. split; [vm_compute; lia | vm_compute; reflexivity].
  - split; [by exists [], (bytes "  /bin/sshd -4")|]. rewrite <- occurs_strstr. vm_compute. tauto.
Defined.

(** A service file whose name has 17 bytes: the path does not fit [status]. *)
Lemma long_service_name : check_entry (Dent (bytes "http_proxy_filter") true (Some (bytes "x"))) [] = None.
Proof. reflexivity. Qed.

(** A process name of 15 bytes is not seen: the parenthesis that ends it is cut off. *)
Lemma long_comm_lost (comm : list Z) : (15 <= length comm)%nat -> (41 ∉ comm) -> seen_comm comm = [].
Proof.
  intros Hl Hc. unfold seen_comm. rewrite take_app_le by done.
  rewrite (proj2 (strchr_None _ _)); [done|]. intros H. apply Hc. eapply subseteq_take, H.
Qed.

End Chkprog.
