(* ===== verification/Taskq.v ===== *)
(** * taskq: running the queued commands (v3.0/src/mybox/prog/taskq.c)

    Other programs append the names of commands to /var/sys/mfsque.  Once a second
    the daemon takes the file away, reads its lines into the static [listq] and
    runs the command that the table gives for each name.  [None]: a write past
    [listq]. *)

From S2P Require Import Prelude CString LibMybox.

Module Taskq.

Definition qcommands : list (list Z * list Z) :=
  [(bytes "snmp-restart", bytes "snmp.init restart");
   (bytes "snmp-restart-quiet", bytes "snmp.init restart quiet");
   (bytes "syslog-restart", bytes "syslog.init restart");
   (bytes "syslog-restart-quiet", bytes "syslog.init restart quiet");
   (bytes "syslog-up", bytes "/bin/syslog-ng");
   (bytes "ulogd-up", bytes "/bin/ulogd -d");
   (bytes "pptp-restart", bytes "pptp.init restart");
   (bytes "pptp-start", bytes "pptp.init start");
   (bytes "pptp-restart-quiet", bytes "pptp.init restart quiet");
   (bytes "pptp-start-quiet", bytes "pptp.init start quiet");
   (bytes "network-restart", bytes "network.init restart");
   (bytes "network-restart-quiet", bytes "network.init restart quiet");
   (bytes "network-stop", bytes "network.init stop");
   (bytes "ips-restart", bytes "ips.init restart");
   (bytes "ips-restart-quiet", bytes "ips.init restart quiet");
   (bytes "policy-restart", bytes "policy.init restart");
   (bytes "policy-restart-quiet", bytes "policy.init restart quiet");
   (bytes "policy-restart-nomod", bytes "policy.init restart nomod");
   (bytes "policy-clear", bytes "policy.init clear");
   (bytes "policy-dos", bytes "policy.init dos");
   (bytes "policy-blacklist", bytes "policy.init blacklist");
   (bytes "policy-ips", bytes "policy.init ips");
   (bytes "policy-acl", bytes "policy.init acl");
   (bytes "policy-pscan", bytes "policy.init pscan");
   (bytes "policy-ips-all", bytes "policy.init ips-all");
   (bytes "policy-mod", bytes "policy.init mod");
   (bytes "policy-lb", bytes "policy.init lb");
   (bytes "policy-nat", bytes "policy.init nat");
   (bytes "cron-restart", bytes "cron.init restart");
   (bytes "cron-restart-quiet", bytes "cron.init restart quiet");
   (bytes "shaper-restart", bytes "shaper.init restart");
   (bytes "shaper-restart-quiet", bytes "shaper.init restart quiet");
   (bytes "route-flush-cache", bytes "ip route flush cache");
   (bytes "update-dnshost", bytes "initconf.init dnshost");
   (bytes "update-dnshost-quiet", bytes "initconf.init dnshost quiet");
   (bytes "update-clock", bytes "initconf.init clock");
   (bytes "update-clock-quiet", bytes "initconf.init clock quiet");
   (bytes "dhcp-restart", bytes "dhcp.init restart");
   (bytes "dhcp-restart-quiet", bytes "dhcp.init restart quiet");
   (bytes "dhcp_relay-restart", bytes "dhcp_relay.init restart");
   (bytes "dhcp_relay-restart-quiet", bytes "dhcp_relay.init restart quiet");
   (bytes "auth-ad-restart", bytes "auth.init ad_restart");
   (bytes "auth-ad-restart-quiet", bytes "auth.init ad_restart quiet");
   (bytes "ddns-restart", bytes "ddns.init restart");
   (bytes "ddns-restart-quiet", bytes "ddns.init restart quiet");
   (bytes "dns-restart", bytes "dns.init restart");
   (bytes "dns-restart-quiet", bytes "dns.init restart quiet");
   (bytes "arp-flush-cache", bytes "mfs-query.exc f");
   (bytes "captive-restart", bytes "captive.init restart");
   (bytes "captive-restart-quite", bytes "captive.init restart quite");
   (bytes "captive-up", bytes "/bin/captived /etc/captived.cnf");
   (bytes "ntp-restart", bytes "ntp.init restart");
   (bytes "ntp-restart-quiet", bytes "ntp.init restart quiet");
   (bytes "clam-restart", bytes "clam.init restart");
   (bytes "clam-restart-quiet", bytes "clam.init restart quiet");
   (bytes "http_proxy-restart", bytes "http_proxy.init restart");
   (bytes "http_proxy-restart-quiet", bytes "http_proxy.init restart quiet");
   (bytes "http_proxy-up", bytes "/bin/squid -DY");
   (bytes "ftp_proxy-restart", bytes "ftp_proxy.init restart");
   (bytes "ftp_proxy-restart-quiet", bytes "ftp_proxy.init restart quiet");
   (bytes "mail_proxy-restart", bytes "mail_proxy.init restart");
   (bytes "mail_proxy-restart-quiet", bytes "mail_proxy.init restart quiet");
   (bytes "mail-up", bytes "rm /var/run/p3scan.pid && /bin/p3scan");
   (bytes "xinet-restart", bytes "xinet.init restart");
   (bytes "xinet-restart-quiet", bytes "xinet.init restart quiet");
   (bytes "xinet-reload", bytes "xinet.init reload");
   (bytes "xinet-reload-quiet", bytes "xinet.init reload quiet");
   (bytes "xinet-up", bytes "rm /var/run/xinetd.pid && /bin/xinetd -stayalive -pidfile /var/run/xinetd.pid");
   (bytes "sophos-restart", bytes "sophos.init restart");
   (bytes "sophos-restart-quiet", bytes "sophos.init restart quiet");
   (bytes "sophos-reload", bytes "sophos.init reload");
   (bytes "sophos-reload-quiet", bytes "sophos.init reload quiet");
   (bytes "sophos-update", bytes "sophos_update");
   (bytes "sophos-up", bytes "/bin/sophosd -D");
   (bytes "spam-restart", bytes "spam.init restart");
   (bytes "spam-restart-quiet", bytes "spam.init restart quiet");
   (bytes "spam-reload", bytes "spam.init reload");
   (bytes "spam-reload-quiet", bytes "spam.init reload quiet");
   (bytes "spam-up", bytes "rm /var/run/spam.pid && /bin/spamd -d -r /var/run/spam.pid");
   (bytes "mfs-reboot", bytes "reboot -d 5");
   (bytes "mfs-shutdown", bytes "poweroff -d 5");
   (bytes "mfs-query", bytes "mfs-query.exc o");
   (bytes "mfs-lcdd", bytes "lcdd");
   (bytes "mfs-lcdp", bytes "/etc/lcreset");
   (bytes "mfs-nmbd", bytes "nmbd -D");
   (bytes "mfs-winbindd", bytes "winbindd");
   (bytes "mfs-uplinkd", bytes "uplinkd");
   (bytes "mfs-firmware-update", bytes "mfs-update.exc update-firmware");
   (bytes "mfs-firmware-download", bytes "mfs-update.exc download-firmware");
   (bytes "mfs-chk-update", bytes "mfs-update.exc check")].

Inductive event :=
| System (command : list Z)
| USleep (micros : Z)
| Sleep (seconds : Z).

(** The file /var/sys/mfsque, and whether [rename] and [fopen] succeed. *)
Record sys := Sys { mfsque : option (list Z); can_rename : bool; can_open : bool }.

(** The first entry of the table with the name. *)
Fixpoint find_cmd (t : list (list Z * list Z)) (p : list Z) : option (list Z) :=
  match t with
  | [] => None
  | (n, c) :: t => if strcmp_eq n p then Some c else find_cmd t p
  end.

Definition run_query (p : list Z) : list event :=
  match find_cmd qcommands p with
  | Some c => [System (snprintf 150 c)]
  | None => []
  end.

Fixpoint run_list (listq : list (list Z)) : list event :=
  match listq with
  | [] => []
  | c :: listq => run_query c ++ USleep 72500 :: run_list listq
  end.

(** The [while (fgets ...)] loop, [buff] having 150 bytes. *)
Fixpoint read_lines (lines listq : list (list Z)) : option (list (list Z)) :=
  match lines with
  | [] => Some listq
  | l :: lines =>
      match trim (cstr l) with
      | [] => read_lines lines listq
      | b => if (150 <=? length listq)%nat then None else read_lines lines (listq ++ [snprintf 150 b])
      end
  end.

Definition read_config (s : sys) : option (list (list Z) * sys) :=
  match mfsque s with
  | None => Some ([], s)
  | Some data =>
      if can_rename s then
        let s' := Sys None (can_rename s) (can_open s) in
        if can_open s then l ← read_lines (fgets_lines 150 data) []; Some (l, s') else Some ([], s')
      else Some ([], s)
  end.

(** One turn of the daemon's loop, [free_list] leaving the list empty. *)
Definition turn (s : sys) : option (list event * sys) :=
  '(l, s) ← read_config s;
  Some ((match l with [] => [] | _ => run_list l end) ++ [Sleep 1], s).

(** ** The specification *)

Definition queued (lines : list (list Z)) : list Z := concat (map (fun l => l ++ [10]) lines).

Definition commands (t : list event) : list (list Z) := omap (fun e => match e with System c => Some c | _ => None end) t.

Definition line_ok (l : list Z) : Prop := is_cstr l /\ (10 ∉ l) /\ (length l < 149)%nat.

Definition lookup_all (lines : list (list Z)) : list (list Z) :=
  omap (fun l => list_find (fun r => r.1 = trim l) qcommands ≫= fun r => Some r.2.2) lines.

(** ** Laws *)

Lemma find_cmd_list_find (t : list (list Z * list Z)) (p : list Z) :
  find_cmd t p = list_find (fun r => r.1 = p) t ≫= fun r => Some r.2.2.
Proof.
  induction t as [|[n c] t IH]; [done|]. cbn [find_cmd list_find fst]. unfold strcmp_eq.
  destruct (decide (n = p)) as [->|H]; [by rewrite bool_decide_eq_true_2|].
  rewrite bool_decide_eq_false_2, IH by done. by destruct (list_find _ t) as [[i x]|].
Qed.

Lemma qcommands_short : Forall (fun r => (length r.1 <> 0)%nat /\ (length r.2 < 150)%nat) qcommands.
Proof. apply (bool_decide_unpack _). vm_compute. exact I. Qed.

Lemma run_query_spec (p : list Z) :
  commands (run_query p) = match list_find (fun r => r.1 = p) qcommands with Some r => [r.2.2] | None => [] end.
Proof.
  unfold run_query. rewrite find_cmd_list_find.
  destruct (list_find (fun r => r.1 = p) qcommands) as [[i [n c]]|] eqn:E; [|done].
  apply list_find_Some in E as (E & _). apply (Forall_lookup_1 _ _ _ _ qcommands_short) in E as [_ E]. cbn [fst snd] in E.
  cbn [mbind option_bind snd commands omap list_omap]. unfold snprintf. by rewrite take_ge by (cbn [pred]; lia).
Qed.

Lemma commands_app (t t' : list event) : commands (t ++ t') = commands t ++ commands t'.
Proof. apply omap_app. Qed.

Lemma run_list_spec (l : list (list Z)) :
  commands (run_list l) = omap (fun p => list_find (fun r => r.1 = p) qcommands ≫= fun r => Some r.2.2) l.
Proof.
  induction l as [|p l IH]; [done|]. cbn [run_list omap list_omap]. rewrite commands_app, run_query_spec.
  destruct (list_find (fun r => r.1 = p) qcommands) as [[i [n c]]|]; cbn [mbind option_bind snd app];
    rewrite <- IH; done.
Qed.

Lemma fgets_queued (lines : list (list Z)) :
  Forall line_ok lines -> fgets_lines 150 (queued lines) = map (fun l => l ++ [10]) lines.
Proof.
  intros H. unfold fgets_lines. induction H as [|l lines (_ & Hn & Hl) H IH]; [done|].
  unfold queued in *. cbn [map concat]. rewrite <- app_assoc. cbn [app]. rewrite fgets_line by (done || (cbn [pred]; lia)).
  by rewrite IH.
Qed.

(** The newline is trimmed away. *)
Lemma trim_newline (l : list Z) : is_cstr l -> trim (cstr (l ++ [10])) = trim l.
Proof.
  intros Hl. rewrite cstr_id by (apply Forall_app; split; [done|]; repeat constructor; lia).
  apply trim_app_space. by repeat constructor.
Qed.

Lemma trim_short (l : list Z) : (length (trim l) <= length l)%nat.
Proof. destruct (trim_splits l) as (a & b & E & _). rewrite E at 2. rewrite !length_app. lia. Qed.

Definition nonblank (lines : list (list Z)) : list (list Z) := filter (fun l => l <> []) (map trim lines).

Lemma read_lines_spec (lines listq : list (list Z)) :
  Forall line_ok lines -> (length listq + length (nonblank lines) <= 150)%nat ->
  read_lines (map (fun l => l ++ [10]) lines) listq = Some (listq ++ nonblank lines).
Proof.
  intros H. revert listq. induction H as [|l lines (Hc & _ & Hl) H IH]; intros q Hq; [by rewrite app_nil_r|].
  cbn [map read_lines]. rewrite trim_newline by done. unfold nonblank in *. cbn [map] in *. rewrite filter_cons in Hq |- *.
  pose proof (trim_short l) as Ht. destruct (trim l) as [|c b]; [rewrite decide_False in Hq |- * by auto; by apply IH|].
  rewrite decide_True in Hq |- * by done. rewrite length_cons in Hq. rewrite (proj2 (Nat.leb_gt _ _)) by lia.
  rewrite IH by (rewrite length_app; cbn [length]; lia). unfold snprintf. rewrite take_ge by (cbn [pred]; lia).
  by rewrite <- app_assoc.
Qed.

Lemma omap_nonblank (lines : list (list Z)) :
  omap (fun p => list_find (fun r => r.1 = p) qcommands ≫= fun r => Some r.2.2) (nonblank lines) = lookup_all lines.
Proof.
  unfold nonblank, lookup_all. induction lines as [|l lines IH]; [done|]. cbn [map omap list_omap]. rewrite filter_cons.
  destruct (decide (trim l <> [])) as [E|E]; [cbn [omap list_omap]; by rewrite IH|].
  destruct (trim l); [|by destruct E]. rewrite IH.
  destruct (list_find (fun r => r.1 = []) qcommands) as [[i r]|] eqn:Ef; [|done].
  apply list_find_Some in Ef as (El & Er & _). apply (Forall_lookup_1 _ _ _ _ qcommands_short) in El as [El _].
  by rewrite Er in El.
Qed.

(** A turn of taskq over a queue of lines that fit the buffers: the file is
    taken away, and the commands that the table gives for the lines, trimmed,
    are run in the order of the lines; unknown names and blank lines run nothing. *)
Lemma taskq_correct (s : sys) (lines : list (list Z)) :
  can_rename s = true -> can_open s = true -> mfsque s = Some (queued lines) ->
  Forall line_ok lines -> (length lines <= 150)%nat ->
  exists t, turn s = Some (t, Sys None true true) /\ commands t = lookup_all lines.
Proof.
  intros Hr Ho Hq Hl Hn. unfold turn, read_config. rewrite Hq, Hr, Ho, fgets_queued by done.
  rewrite read_lines_spec; [|done|].
  - cbn [mbind option_bind app]. eexists. split; [done|]. rewrite commands_app. cbn [commands omap list_omap].
    rewrite app_nil_r, <- omap_nonblank. destruct (nonblank lines) as [|l q]; [done | by apply run_list_spec].
  - unfold nonblank. rewrite length_filter, length_map. cbn [length]. lia.
Qed.

Lemma taskq_correct_witness :
  exists t s, turn (Sys (Some (bytes "ntp-restart" ++ [10] ++ bytes " mfs-lcdd " ++ [10; 10])) true true) = Some (t, s)
    /\ commands t = [bytes "ntp.init restart"; bytes "lcdd"].
Proof.
  destruct (taskq_correct (Sys (Some (bytes "ntp-restart" ++ [10] ++ bytes " mfs-lcdd " ++ [10; 10])) true true)
    [bytes "ntp-restart"; bytes " mfs-lcdd "; []]) as (t & E & Ec);
    [done | done | reflexivity | | vm_compute; lia |].
  - repeat (apply Forall_cons; split; [split; [apply (bool_decide_unpack _); vm_compute; exact I|];
      split; [apply (bool_decide_unpack _); vm_compute; exact I | vm_compute; lia]|]). constructor.
  - exists t, (Sys None true true). split; [exact E|]. rewrite Ec. vm_compute. reflexivity.
Defined.

End Taskq.
