(* ===== verification/Console.v ===== *)
(** * The console: login and the command shell

    v3.1/src/mybox/lib/login.c asks for the console password and then starts
    the command shell of lib/iosh.c, whose commands are run by the clish
    library from its menu files.  The commands that leave the menu (a system
    shell, programs) ask for the password again when the session is remote.

    What the user types at a password prompt is a function of the events so
    far.  The library's [crypt] and the translations of [gettext] are
    parameters. *)

From S2P Require Import Prelude CString LibMybox Xmkdir.

Module Console.

Inductive event :=
| Puts (text : list Z)
| Prompt
| Syslog (text : list Z)
| System (command : list Z)
| Shell                          (* run_shell: /bin/sh as a child in /config *)
| Unlink (path : list Z)
| Sleep (seconds : Z)
| Startup                        (* the menus of clish *)
| Exit (status : Z).

(** The working directory by its components, the statics [do_confirm],
    [tty_login] and [cli_help], and the file system. *)
Record console := Con {
  cwd : list (list Z);
  do_confirm : bool;
  tty_login : list Z;
  cli_help : list Z;
  files : fs
}.

Definition set_cwd (d : list (list Z)) (c : console) : console :=
  Con d (do_confirm c) (tty_login c) (cli_help c) (files c).
Definition set_files (f : fs) (c : console) : console :=
  Con (cwd c) (do_confirm c) (tty_login c) (cli_help c) f.

(** ** Paths: what [stat] and [chdir] reach from the directory [d] *)

Fixpoint walk (f : fs) (d cs : list (list Z)) : option (list (list Z)) :=
  match cs with
  | [] => Some d
  | c :: cs =>
      if decide (node_at f d = Some Dir) then
        if strcmp_eq c (bytes ".") then walk f d cs
        else if strcmp_eq c (bytes "..") then walk f (removelast d) cs
        else if decide (node_at f (d ++ [c]) = None) then None
        else walk f (d ++ [c]) cs
      else None
  end.

Definition from (c : console) (path : list Z) : list (list Z) :=
  if bool_decide (head path = Some slash) then [] else cwd c.

Definition reach (c : console) (path : list Z) : option (list (list Z)) :=
  match path with [] => None | _ => walk (files c) (from c path) (comps path) end.

Definition file_exists (c : console) (path : list Z) : bool := bool_decide (reach c path <> None).

(** The directory that [chdir] enters, [None] when it fails. *)
Definition chdir (c : console) (path : list Z) : option (list (list Z)) :=
  d ← reach c path;
  if decide (node_at (files c) d = Some Dir) then Some d else None.

(** [get_current_dir_name]. *)
Definition path_text (d : list (list Z)) : list Z :=
  match d with [] => [slash] | _ => concat (map (fun c => slash :: c) d) end.

Section Console.
Variable gettext : list Z -> list Z.
(** [crypt(key, salt)]. *)
Variable crypt : list Z -> list Z -> list Z.
(** The password field of the account console, [None] without an account. *)
Variable pw_passwd : option (list Z).
(** The variables SSH_CLIENT, SSH_TTY and ANYTERM_SHELL. *)
Variables (ssh_client ssh_tty anyterm : option (list Z)).
(** What [getpass] returns at the prompt that ends a history. *)
Variable typed : list event -> list Z.

Abbreviation action := (prog console event).

(** ** login.c *)

Definition log_login (ecode stat : list Z) : action unit :=
  c ← get;
  emit (Syslog (snprintf 256
    (bytes "ECODE=" ++ ecode ++ bytes " TYPE=console USER=console IP=" ++ tty_login c ++ bytes " MSG="
     ++ (match anyterm with Some _ => bytes "(webshell) " | None => [] end) ++ stat))).

Definition no_password : bool :=
  match pw_passwd with
  | None | Some [] => true
  | Some (c :: _) => (c =? 33) || (c =? 42)
  end.

Definition password_prompt : action Z :=
  passwd ← ask typed Prompt;
  match passwd with
  | [] => mret 0
  | _ =>
      if no_password then
        emit (Puts (13 :: gettext (bytes "No password defined") ++ [10; 10]));;
        log_login (bytes "01") (gettext (bytes "No password defined"));;
        mret 0
      else
        let pw := default [] pw_passwd in
        if strcmp_eq pw (crypt passwd (substr pw 0 12)) then mret 1
        else
          emit (Puts (13 :: gettext (bytes "Password incorrect") ++ [10; 10]));;
          log_login (bytes "01") (gettext (bytes "Password incorrect"));;
          mret 0
  end.

(** The [while(1)] of [awie_login] and [login_main]: [accept] after a password that
    is right, [reject] after the one that brings [count] to 4. *)
Fixpoint ask_password (accept reject : action unit) (fuel : nat) (count : Z) : action Z :=
  match fuel with
  | O => mret 1
  | S fuel =>
      r ← password_prompt;
      if negb (r =? 0) then accept;; mret 0
      else if count =? 3 then reject;; emit (Sleep 1);; mret 1
      else ask_password accept reject fuel (count + 1)
  end.

(** ** iosh.c *)

Definition awie_login : action Z :=
  emit (Puts (gettext (bytes "Please enter console password..") ++ [10; 10]));;
  ask_password (emit (Puts (gettext (bytes "Password Accepted") ++ [10])))
    (emit (Puts (gettext (bytes "Invalid access password") ++ [10]))) 4 0.

(** The address of the client: the first word of SSH_CLIENT. *)
Definition log_sysexec (stat : list Z) : action unit :=
  c ← get;
  let ip :=
    match ssh_client with
    | Some v => match strtok v [32] with Some (w, _) => w | None => tty_login c end
    | None => tty_login c
    end in
  emit (Syslog (snprintf 256 (bytes "ECODE=00 TYPE=sysexec USER=console IP=" ++ ip ++ bytes " MSG=" ++ stat))).

(** Ask again in a remote session: [true] when the command may go on. *)
Definition confirmed : action bool :=
  c ← get;
  if do_confirm c then r ← awie_login; mret (r =? 0) else mret true.

Definition awie_shell : action bool :=
  ok ← confirmed;
  if (ok : bool) then
    emit (Puts (gettext (bytes "Entering system shell") ++ bytes "!" ++ [10; 10]));;
    log_sysexec (gettext (bytes "Entering system shell"));;
    c ← get;
    modify (set_cwd (default (cwd c) (chdir c (bytes "/config"))));;
    emit Shell;;
    mret true
  else mret false.

(** [execs command] is the value of [system]. *)
Variable execs : list Z -> Z.

Definition xsystem (command : list Z) : action Z := emit (System command);; mret (execs command).

Definition awie_exec_pass (cmd opt : list Z) : action Z :=
  c ← get;
  if negb (file_exists c cmd) then mret 0
  else
    ok ← confirmed;
    if (ok : bool) then r ← xsystem (cmd ++ bytes " " ++ opt); mret (if r =? 0 then 1 else 0) else mret 0.

Definition awie_confirm (arg : option (list Z)) : action bool :=
  ok ← confirmed;
  if (ok : bool) then
    (match arg with Some a => emit (Puts (10 :: a ++ [10; 10])) | None => mret tt end);; mret true
  else mret false.

Definition awie_close : action unit :=
  c ← get;
  (if bool_decide (tty_login c = []) then mret tt
   else if bool_decide (strstr (tty_login c) (bytes "pts") = None) && bool_decide (strstr (tty_login c) (bytes "ttyp") = None)
   then log_login (bytes "01") (gettext (bytes "Session logout")) else mret tt);;
  (if file_exists c (bytes "/etc/clish/sysexec.xml") then emit (Unlink (bytes "/etc/clish/sysexec.xml")) else mret tt);;
  emit (Exit 1).

Definition awie_more (filename : list Z) : action Z :=
  c ← get;
  result ← (if file_exists c filename then
      if bool_decide (strstr filename (bytes ".gz") <> None) then xsystem (bytes "/bin/zcat " ++ filename ++ bytes " |more -dl")
      else xsystem (bytes "/bin/more -dl " ++ filename)
    else mret 1);
  mret (if result =? 0 then 1 else 0).

Definition awie_vstorage_dochdir (dir : list Z) : action bool :=
  c ← get;
  match chdir c dir with
  | Some d => modify (set_cwd d);; mret (prefixb (bytes "/config") (path_text d))
  | None => mret false
  end.

(** The directory without its first [/config]; [None] when that is empty or there
    is none. *)
Definition shown (d : list (list Z)) : option (list Z) :=
  match str_replace (fun _ => true) (path_text d) (bytes "/config") [] with
  | Some b => match text b with [] => None | t => Some t end
  | None => None
  end.

Definition awie_vstorage_chdir (dirname : list Z) : action Z :=
  ok ← awie_vstorage_dochdir (bytes "/config/" ++ dirname);
  ok ← (if (ok : bool) then mret true else awie_vstorage_dochdir dirname);
  if (ok : bool) then
    c ← get;
    emit (Puts (gettext (bytes "Change to") ++ bytes " '" ++ default dirname (shown (cwd c)) ++ bytes "'" ++ [10]));;
    mret 1
  else
    emit (Puts (gettext (bytes "Invalid directory") ++ bytes " '" ++ dirname ++ bytes "'" ++ [10]));;
    mret 0.

Definition awie_vstorage_pwd : action unit :=
  c ← get;
  emit (Puts (default (bytes "/") (shown (cwd c)) ++ [10])).

Definition awie_help : action Z :=
  c ← get;
  let named := bytes "/etc/clish/cli.help." ++ cli_help c in
  if negb (bool_decide (cli_help c = [])) && file_exists c named then xsystem (bytes "/bin/more -dl " ++ named)
  else if file_exists c (bytes "/etc/clish/cli.help") then xsystem (bytes "/bin/more -dl /etc/clish/cli.help")
  else mret 1.

Definition awie_version : action Z :=
  c ← get;
  if file_exists c (bytes "/bin/exec_cli") then xsystem (bytes "/bin/exec_cli version 2>/dev/null") else mret 1.

(** [awie_cmd_list]: what the menus can call, but for the banner, which only prints. *)
Inductive builtin :=
| B_close | B_version | B_shell | B_more (filename : list Z) | B_chdir (dirname : list Z) | B_pwd | B_help
| B_exec_pass (cmd opt : list Z) | B_confirm (arg : option (list Z)).

Definition run_builtin (b : builtin) : action unit :=
  match b with
  | B_close => awie_close
  | B_version => awie_version;; mret tt
  | B_shell => awie_shell;; mret tt
  | B_more filename => awie_more filename;; mret tt
  | B_chdir dirname => awie_vstorage_chdir dirname;; mret tt
  | B_pwd => awie_vstorage_pwd
  | B_help => awie_help;; mret tt
  | B_exec_pass cmd opt => awie_exec_pass cmd opt;; mret tt
  | B_confirm arg => awie_confirm arg;; mret tt
  end.

(** The session flags and the start of the menus in [iosh_main]. *)
Definition iosh_main : action unit :=
  modify (fun c => Con (cwd c)
    (match ssh_tty, anyterm with Some _, None => true | _, Some _ => true | _, _ => do_confirm c end)
    (tty_login c) (cli_help c) (files c));;
  c ← get;
  (if negb (file_exists c (bytes "/etc/clish/sysexec.xml")) && file_exists c (bytes "/etc/clish/sysexec.cli")
   then r ← xsystem (bytes "/bin/cp -f /etc/clish/sysexec.cli /etc/clish/sysexec.xml"); mret tt else mret tt);;
  modify (set_cwd (default (cwd c) (chdir c (bytes "/config"))));;
  emit Startup.

(** The rest of [login_main], from the test of /etc/noconsole. *)
Definition login_main : action Z :=
  c ← get;
  r ← (if negb (file_exists c (bytes "/etc/noconsole")) && negb (file_exists c (bytes "/var/sys/do_single")) then
      ask_password (log_login (bytes "00") (gettext (bytes "Password Accepted")))
        (emit (Puts (gettext (bytes "Invalid access password") ++ [10; 10]));;
         log_login (bytes "01") (gettext (bytes "Invalid access password"))) 4 0
    else
      emit (Puts (gettext (bytes "Console password disabled") ++ [10]));;
      log_login (bytes "00") (gettext (bytes "Console password disabled"));;
      emit (Sleep 1);;
      emit (Unlink (bytes "/etc/noconsole"));;
      modify (set_files (delete [bytes "etc"; bytes "noconsole"] (files c)));;
      mret 0);
  if r =? 0 then iosh_main;; emit (Exit 0);; mret 0 else mret 1.

(** ** Laws *)

(** The account has a password and this is it. *)
Definition accepts (passwd : list Z) : bool :=
  let pw := default [] pw_passwd in
  bool_decide (passwd <> []) && negb no_password && strcmp_eq pw (crypt passwd (substr pw 0 12)).

(** What a password is needed for. *)
Definition privileged (e : event) : bool :=
  match e with Shell | System _ | Startup => true | _ => false end.

Definition is_prompt (e : event) : bool := match e with Prompt => true | _ => false end.

Definition quiet (e : event) : Prop := is_prompt e = false /\ privileged e = false.

Definition quiet_action {A} (m : action A) : Prop := forall c h, Forall quiet (trace (m c h)) /\ final (m c h) = c.

(** The last prompt of a trace got the right password. *)
Definition unlocked (h t : list event) : Prop :=
  exists a b, t = a ++ Prompt :: b /\ accepts (typed (h ++ a ++ [Prompt])) = true /\ Forall (fun e => is_prompt e = false) b.

Definition guarded (h t : list event) : Prop :=
  forall a e b, t = a ++ e :: b -> privileged e = true -> unlocked h a.

(** The programs that a builtin starts unasked: the pager on a file that there is, and
    the version. *)
Definition unasked (c : console) (b : builtin) (e : event) : Prop :=
  match b, e with
  | B_version, System cmd => cmd = bytes "/bin/exec_cli version 2>/dev/null"
  | B_more f, System cmd =>
      file_exists c f = true
      /\ cmd = (if bool_decide (strstr f (bytes ".gz") <> None) then bytes "/bin/zcat " ++ f ++ bytes " |more -dl"
                else bytes "/bin/more -dl " ++ f)
  | B_help, System cmd =>
      exists f, file_exists c f = true /\ bytes "/etc/clish/cli.help" `prefix_of` f /\ cmd = bytes "/bin/more -dl " ++ f
  | _, _ => False
  end.

(** [guarded], but for the events [P]. *)
Definition guarded_but (P : event -> Prop) (h t : list event) : Prop :=
  forall a e b, t = a ++ e :: b -> privileged e = true -> P e \/ unlocked h a.

Definition prompts (t : list event) : nat := length (filter (fun e => is_prompt e = true) t).

Lemma quiet_prompts (t : list event) : Forall quiet t -> prompts t = 0%nat.
Proof.
  intros H. unfold prompts. induction H as [|e t [He _] H IH]; [done|]. rewrite filter_cons, decide_False; [done|]. congruence.
Qed.

Lemma prompts_app (t u : list event) : prompts (t ++ u) = (prompts t + prompts u)%nat.
Proof. unfold prompts. by rewrite filter_app, length_app. Qed.

Lemma unprivileged_guarded (h t : list event) : Forall (fun e => privileged e = false) t -> guarded h t.
Proof. intros H a e b -> He. apply Forall_app in H as [_ [H _]%Forall_cons]. congruence. Qed.

(** After a trace that ends unlocked, quiet and privileged events may follow. *)
Lemma unlocked_guarded (h t u : list event) :
  Forall (fun e => privileged e = false) t -> unlocked h t -> Forall (fun e => is_prompt e = false) u -> guarded h (t ++ u).
Proof.
  intros Ht (x & y & -> & Ha & Hy) Hu a e b E He.
  destruct (app_eq_inv _ _ _ _ E) as [(k & Ek & E2)|(k & Ek & E2)].
  - destruct k as [|e' k].
    + rewrite app_nil_r in Ek. subst a. by exists x, y.
    + injection E2 as <- ->. rewrite Ek in Ht. apply Forall_app in Ht as [_ [Hf _]%Forall_cons]. congruence.
  - rewrite Ek. exists x, (y ++ k). rewrite <- app_assoc. split; [done|]. split; [done|].
    apply Forall_app. split; [done|]. rewrite E2 in Hu. by apply Forall_app in Hu as [? _].
Qed.

Lemma log_login_quiet (ecode stat : list Z) : quiet_action (log_login ecode stat).
Proof. intros c h. cbn. split; [|done]. by repeat constructor. Qed.

(** One prompt. *)
Lemma password_prompt_spec (c : console) (h : list event) :
  exists t, Forall quiet t
    /\ password_prompt c h = ((if accepts (typed (h ++ [Prompt])) then 1 else 0), c, Prompt :: t).
Proof.
  unfold password_prompt, accepts. prog_simpl. destruct (typed (h ++ [Prompt])) as [|p ps] eqn:E; [by exists []|].
  rewrite bool_decide_eq_true_2 by done. destruct no_password; cbn [andb negb].
  - eexists. split; [|reflexivity]. by repeat constructor.
  - destruct (strcmp_eq _ _); [by exists []|]. eexists. split; [|reflexivity]. by repeat constructor.
Qed.

(** The loop: at most [fuel] prompts and nothing privileged; 0 after the right password. *)
Lemma ask_password_spec (accept reject : action unit) (fuel : nat) (count : Z) (c : console) (h : list event) :
  quiet_action accept -> quiet_action reject -> count = 4 - Z.of_nat fuel ->
  let '(r, c', t) := ask_password accept reject fuel count c h in
  c' = c /\ Forall (fun e => privileged e = false) t /\ (prompts t <= fuel)%nat /\ (r = 0 -> unlocked h t).
Proof.
  intros Ha Hr. revert count h. induction fuel as [|fuel IH]; intros count h Hc; [by repeat split|].
  destruct (password_prompt_spec c h) as (t & Ht & E). cbn [ask_password]. unfold mbind at 1, prog_bind at 1. rewrite E.
  pose proof (Forall_impl _ _ _ Ht (fun e => @proj2 _ _)) as Ht2. pose proof (quiet_prompts t Ht) as Hp.
  assert (H1 : forall u, prompts ((Prompt :: t) ++ u) = S (prompts u)).
  { intros u. change ((Prompt :: t) ++ u) with ([Prompt] ++ t ++ u). rewrite !prompts_app, Hp. done. }
  destruct (accepts (typed (h ++ [Prompt]))) eqn:Ea; cbn [negb Z.eqb].
  - specialize (Ha c (h ++ Prompt :: t)). prog_simpl. destruct (accept c (h ++ Prompt :: t)) as [[x c'] u]. cbn [fst snd] in *.
    destruct Ha as [Hu ->]. rewrite ?app_nil_r, H1, (quiet_prompts u Hu). split; [done|]. split; [|split; [lia|]].
    + constructor; [done|]. apply Forall_app. split; [done|]. by apply (Forall_impl _ _ _ Hu); intros e [].
    + intros _. exists [], (t ++ u). split; [done|]. split; [done|]. apply Forall_app.
      split; [by apply (Forall_impl _ _ _ Ht); intros e [] | by apply (Forall_impl _ _ _ Hu); intros e []].
  - destruct (Z.eqb_spec count 3) as [->|H3].
    + specialize (Hr c (h ++ Prompt :: t)). prog_simpl. destruct (reject c (h ++ Prompt :: t)) as [[x c'] u]. cbn [fst snd] in *.
      destruct Hr as [Hu ->]. rewrite H1, prompts_app, (quiet_prompts u Hu). split; [done|]. split; [|split; [change (prompts [Sleep 1]) with 0%nat; lia | done]].
      constructor; [done|]. apply Forall_app. split; [done|]. apply Forall_app. split; [by apply (Forall_impl _ _ _ Hu); intros e []|].
      by repeat constructor.
    + specialize (IH (count + 1) (h ++ Prompt :: t) ltac:(lia)).
      destruct (ask_password accept reject fuel (count + 1) c (h ++ Prompt :: t)) as [[r c'] u].
      destruct IH as (-> & Hu & Hn & Hl). split; [done|]. rewrite H1. split; [|split; [lia|]].
      * constructor; [done|]. apply Forall_app. by split.
      * intros H0. destruct (Hl H0) as (x & y & -> & Hx & Hy). exists (Prompt :: t ++ x), y.
        split; [cbn [app]; by rewrite <- app_assoc|]. split; [|done]. rewrite <- !app_assoc in Hx. cbn [app] in Hx |- *.
        by rewrite <- app_assoc.
Qed.

Lemma awie_login_spec (c : console) (h : list event) :
  let '(r, c', t) := awie_login c h in
  c' = c /\ Forall (fun e => privileged e = false) t /\ (prompts t <= 4)%nat /\ (r = 0 -> unlocked h t).
Proof.
  unfold awie_login. set (e := Puts (gettext (bytes "Please enter console password..") ++ [10; 10])).
  set (a := emit (Puts (gettext (bytes "Password Accepted") ++ [10]))).
  set (b := emit (Puts (gettext (bytes "Invalid access password") ++ [10]))). prog_simpl.
  pose proof (ask_password_spec a b 4 0 c (h ++ [e])) as H.
  destruct (ask_password a b 4 0 c (h ++ [e])) as [[r c'] t].
  destruct H as (-> & Ht & Hn & Hr); [intros ? ?; split; by repeat constructor | intros ? ?; split; by repeat constructor | lia |].
  split; [done|]. split; [by constructor|]. split; [done|]. intros H0. destruct (Hr H0) as (x & y & -> & Hx & Hy).
  exists (e :: x), y. split; [done|]. split; [|done]. by rewrite <- app_assoc in Hx.
Qed.

Lemma no_prompts (t : list event) : Forall (fun e => is_prompt e = false) t -> prompts t = 0%nat.
Proof.
  intros H. unfold prompts. induction H as [|e t He H IH]; [done|]. rewrite filter_cons, decide_False; [done|]. congruence.
Qed.

(** What may follow a confirmation. *)
Lemma confirmed_guards {A} (rest : bool -> action A) (c : console) (h : list event) :
  do_confirm c = true ->
  (forall c' h', Forall (fun e => is_prompt e = false) (trace (rest true c' h'))) ->
  (forall c' h', trace (rest false c' h') = []) ->
  let t := trace ((ok ← confirmed; rest ok) c h) in guarded h t /\ (prompts t <= 4)%nat.
Proof.
  intros Hc Ht Hf. unfold confirmed. prog_simpl. rewrite Hc.
  pose proof (awie_login_spec c h) as H. destruct (awie_login c h) as [[r c'] t]. destruct H as (-> & Hp & Hn & Hr).
  rewrite ?app_nil_r. specialize (Ht c (h ++ t)). specialize (Hf c (h ++ t)).
  destruct (Z.eqb_spec r 0) as [->|H0].
  - destruct (rest true c (h ++ t)) as [[x c2] u]. cbn [fst snd] in *. rewrite ?app_nil_r. split.
    + by apply unlocked_guarded; [|apply Hr|].
    + rewrite prompts_app, (no_prompts u Ht). lia.
  - destruct (rest false c (h ++ t)) as [[x c2] u]. cbn [fst snd] in *. subst u. rewrite ?app_nil_r.
    split; [by apply unprivileged_guarded | done].
Qed.

Lemma iosh_unprompted (c : console) (h : list event) : Forall (fun e => is_prompt e = false) (trace (iosh_main c h)).
Proof. unfold iosh_main, xsystem. prog_simpl. destruct (negb _ && _); by repeat constructor. Qed.

Lemma login_guarded (c : console) (h : list event) :
  file_exists c (bytes "/etc/noconsole") = false -> file_exists c (bytes "/var/sys/do_single") = false ->
  let login := trace (login_main c h) in guarded h login /\ (prompts login <= 4)%nat.
Proof.
  intros E1 E2. unfold login_main. set (a := log_login (bytes "00") (gettext (bytes "Password Accepted"))).
  set (b := mbind _ (emit (Puts (gettext (bytes "Invalid access password") ++ [10; 10])))). prog_simpl. rewrite E1, E2.
  cbn [negb andb]. rewrite ?app_nil_r. pose proof (ask_password_spec a b 4 0 c h) as H.
  destruct (ask_password a b 4 0 c h) as [[r c'] t].
  destruct H as (-> & Ht & Hn & Hr); [apply log_login_quiet | intros ? ?; split; by repeat constructor | lia |].
  destruct (Z.eqb_spec r 0) as [H0|H0].
  - pose proof (iosh_unprompted c (h ++ t)) as Hi. prog_simpl. destruct (iosh_main c (h ++ t)) as [[x c2] u]. cbn [fst snd] in *.
    assert (Hu : Forall (fun e => is_prompt e = false) (u ++ [Exit 0])) by (apply Forall_app; split; [done | by repeat constructor]).
    split; [by apply unlocked_guarded; auto|]. rewrite prompts_app, (no_prompts _ Hu). lia.
  - cbn [fst snd]. rewrite ?app_nil_r. split; [by apply unprivileged_guarded | done].
Qed.

Lemma trace_get {A} (k : console -> action A) (c : console) (h : list event) :
  trace ((x ← get; k x) c h) = trace (k c c h).
Proof. prog_simpl. by destruct (k c c h) as [[x c'] t]. Qed.

Lemma exec_guarded (c : console) (h : list event) (cmd opt : list Z) :
  do_confirm c = true -> let t := trace (awie_exec_pass cmd opt c h) in guarded h t /\ (prompts t <= 4)%nat.
Proof.
  intros Hc. unfold awie_exec_pass. set (rest := fun ok : bool => if ok then _ else _).
  rewrite trace_get. destruct (file_exists c cmd); cbn [negb].
  - apply confirmed_guards; [done | intros c' h'; by repeat constructor | done].
  - split; [apply unprivileged_guarded; constructor | cbn; lia].
Qed.

Lemma trace_done {A} (m : action A) (c : console) (h : list event) : trace ((m;; mret tt) c h) = trace (m c h).
Proof. prog_simpl. destruct (m c h) as [[x c'] t]. cbn. by rewrite app_nil_r. Qed.

Lemma unprivileged_but (P : event -> Prop) (h t : list event) :
  Forall (fun e => P e \/ privileged e = false) t -> guarded_but P h t.
Proof. intros H a e b -> He. apply Forall_app in H as [_ [[H|H] _]%Forall_cons]; [by left | congruence]. Qed.

Lemma guarded_any (P : event -> Prop) (h t : list event) : guarded h t -> guarded_but P h t.
Proof. intros H a e b E He. right. by apply (H a e b). Qed.

(** The builtins that ask. *)
Lemma asking_builtin (b : builtin) (c : console) (h : list event) :
  do_confirm c = true -> match b with B_shell | B_exec_pass _ _ | B_confirm _ => True | _ => False end ->
  let t := trace (run_builtin b c h) in guarded h t /\ (prompts t <= 4)%nat.
Proof.
  intros Hc Hb. destruct b; try contradiction Hb; cbn [run_builtin]; rewrite trace_done.
  - apply (confirmed_guards (fun ok : bool => if ok then _ else _)); [done | | done].
    intros c' h'; prog_simpl; repeat (apply Forall_cons; split; [done|]); constructor.
  - by apply exec_guarded.
  - apply (confirmed_guards (fun ok : bool => if ok then _ else _)); [done | | done].
    intros c' h'. prog_simpl. destruct arg; by repeat constructor.
Qed.

(** The cases of a program that tests and changes directories, and what it emits. *)
#[local] Ltac run_cases :=
  repeat (first [bcase | match goal with |- context [match chdir ?c ?d with _ => _ end] => destruct (chdir c d) end]; prog_simpl);
  repeat (apply Forall_cons; split; [split; [done|]|]); try apply Forall_nil_2; try by right.

(** The others never prompt. *)
Lemma other_builtin (b : builtin) (c : console) (h : list event) :
  match b with B_shell | B_exec_pass _ _ | B_confirm _ => False | _ => True end ->
  Forall (fun e => is_prompt e = false /\ (unasked c b e \/ privileged e = false)) (trace (run_builtin b c h)).
Proof.
  intros Hb. destruct b; try contradiction Hb; cbn [run_builtin]; rewrite ?trace_done.
  - unfold awie_close, log_login. prog_simpl. run_cases.
  - unfold awie_version, xsystem. prog_simpl. run_cases. by left.
  - unfold awie_more, xsystem. prog_simpl. cbn [unasked].
    destruct (file_exists c filename), (bool_decide (strstr filename (bytes ".gz") <> None)); run_cases; by left.
  - unfold awie_vstorage_chdir, awie_vstorage_dochdir. prog_simpl. run_cases.
  - unfold awie_vstorage_pwd. prog_simpl. run_cases.
  - unfold awie_help, xsystem. prog_simpl. run_cases; left; cbn [unasked].
    + match goal with H : _ && _ = true |- _ => apply andb_true_iff in H as [_ H] end.
      eexists. split; [eassumption|]. split; [|reflexivity]. by exists (bytes "." ++ cli_help c).
    + eexists. split; [eassumption|]. by split.
Qed.


End Console.

(** ** Examples *)

Definition demo_files : fs :=
  list_to_map [([bytes "config"], Dir); ([bytes "config"; bytes "logs"], Dir); ([bytes "etc"], Dir); ([bytes "etc"; bytes "passwd"], File)].

Definition demo : console := Con [bytes "config"] true (bytes "pts0") [] demo_files.

(** A toy [crypt]: the salt and the key. *)
Definition demo_crypt (key salt : list Z) : list Z := salt ++ key.


(** A refused [cd]: it says that the directory is invalid, and has entered it. *)
Lemma chdir_escapes :
  let '(r, c, t) := awie_vstorage_chdir (fun m => m) (bytes "/etc") demo [] in
  r = 0 /\ t = [Puts (bytes "Invalid directory '/etc'" ++ [10])] /\ cwd c = [bytes "etc"].
Proof. vm_compute. done. Qed.

(** After which the files there can be shown. *)
Lemma more_escapes :
  let '(_, c, _) := awie_vstorage_chdir (fun m => m) (bytes "../etc") demo [] in
  trace (awie_more (fun _ => 0) (bytes "passwd") c []) = [System (bytes "/bin/more -dl passwd")].
Proof. vm_compute. done. Qed.

(** A directory beside /config whose name starts with it is accepted. *)
Lemma config_prefix_accepted :
  let c := Con [] true [] [] (list_to_map [([bytes "config"], Dir); ([bytes "config.old"], Dir)]) in
  (awie_vstorage_chdir (fun m => m) (bytes "config.old") c []).1.1 = 1.
Proof. vm_compute. done. Qed.

End Console.
