(* ===== verification/Hash.v ===== *)
(** * Hash: the hash table of squid

    v3.0/src/squid-mybox/lib/hash.c with its pointers: links in a memory, an array
    of buckets, chains of links, and the state of one traversal, which removals
    keep in order.  A failed assertion and a read through a bad pointer give
    [None].

    A table with items [order], the last joined first, has in bucket [i] the items
    of [order] that hash to [i], in their order ([rep]); what the operations do is
    stated on [order], by the interface [Table] for the clients of a table of
    strings.  hashPrime, which compares logarithms, and the freeing of memory are
    not modelled. *)

From S2P Require Import Prelude.

Module Hash.

(** ** Hash functions, modulo the size of the table *)

(** A char is signed. *)
Definition schar (c : Z) : Z := i8 c.

Fixpoint hash_string_loop (s : list Z) (n j : Z) : Z * Z :=
  match s with
  | [] => (n, j)
  | c :: s => hash_string_loop s (Z.lxor n (u32 (271 * u32 (schar c)))) (u32 (j + 1))
  end.

Definition hash_string (data : list Z) (size : Z) : Z :=
  let '(n, j) := hash_string_loop data 0 0 in Z.lxor n (u32 (j * 271)) mod size.

(** HASH4b *)
Definition HASH4 (h : Z) (c : Z) : Z := u32 (u32 (Z.shiftl h 5) + h + schar c).

Definition HASH4_8 (h : Z) (key : list Z) : option (Z * list Z) :=
  match key with
  | a :: b :: c :: d :: e :: f :: g :: i :: key => Some (fold_left HASH4 [a; b; c; d; e; f; g; i] h, key)
  | _ => None
  end.

Fixpoint hash4_loop (loop : nat) (h : Z) (key : list Z) : option Z :=
  match loop with
  | O => Some h
  | S loop => match HASH4_8 h key with Some (h, key) => hash4_loop loop h key | None => None end
  end.

(** The switch falls through: [len & 7] steps before the loop of eight. *)
Definition hash4 (data : list Z) (size : Z) : option Z :=
  let len := length data in
  let n := Z.to_nat (Z.land (Z.of_nat len) 7) in
  (fun h => h mod size) <$> hash4_loop (Z.to_nat (Z.shiftr (Z.of_nat len) 3)) (fold_left HASH4 (take n data) 0) (drop n data).

Section Hash.
Context {K : Type}.
Variable cmp : K -> K -> bool.
Variable hash : K -> Z -> Z.

(** ** Data *)

Record hash_link := Link { key : K; next : option positive }.

Record hash_table := Table_ {
  mem : gmap positive hash_link;
  buckets : list (option positive);
  tnext : option positive;
  current_slot : Z;
  count : Z
}.

Definition size (t : hash_table) : Z := Z.of_nat (length (buckets t)).
Definition set_mem (m : gmap positive hash_link) (t : hash_table) : hash_table := Table_ m (buckets t) (tnext t) (current_slot t) (count t).
Definition set_buckets (b : list (option positive)) (t : hash_table) : hash_table := Table_ (mem t) b (tnext t) (current_slot t) (count t).
Definition set_iter (n : option positive) (s : Z) (t : hash_table) : hash_table := Table_ (mem t) (buckets t) n s (count t).
Definition set_count (n : Z) (t : hash_table) : hash_table := Table_ (mem t) (buckets t) (tnext t) (current_slot t) n.

(** [hid->buckets[i]], inside of the array only. *)
Definition bucket (t : hash_table) (i : Z) : option (option positive) := if 0 <=? i then buckets t !! Z.to_nat i else None.

(** ** Operations *)

Definition DEFAULT_HASH_SIZE : Z := 7951.

(** [hash_sz] is not negative. *)
Definition hash_create (m : gmap positive hash_link) (hash_sz : Z) : hash_table :=
  Table_ m (replicate (Z.to_nat (if hash_sz =? 0 then DEFAULT_HASH_SIZE else hash_sz)) None) None 0 0.

Definition hash_join (lnk : positive) (t : hash_table) : option hash_table :=
  l ← mem t !! lnk;
  let i := hash (key l) (size t) in
  b ← bucket t i;
  Some (set_count (i32 (count t + 1)) (set_buckets (<[Z.to_nat i := Some lnk]> (buckets t)) (set_mem (<[lnk := Link (key l) b]> (mem t)) t))).

(** As many turns as links are enough for a chain without a cycle. *)
Fixpoint lookup_loop (fuel : nat) (m : gmap positive hash_link) (k : K) (walker : option positive) : option (option positive) :=
  match walker with
  | None => Some None
  | Some w =>
      match fuel with
      | O => None
      | S fuel =>
          l ← m !! w;
          if cmp k (key l) then Some (Some w)
          else if bool_decide (next l = Some w) then None else lookup_loop fuel m k (next l)
      end
  end.

Definition hash_lookup (k : K) (t : hash_table) : option (option positive) :=
  b ← bucket t (hash k (size t));
  lookup_loop (Datatypes.S (base.size (mem t))) (mem t) k b.

Fixpoint next_bucket_loop (fuel : nat) (t : hash_table) : option hash_table :=
  match tnext t with
  | Some _ => Some t
  | None =>
      match fuel with
      | O => None
      | S fuel =>
          let s := current_slot t + 1 in
          if s <? size t then b ← bucket t s; next_bucket_loop fuel (set_iter b s t) else Some (set_iter None s t)
      end
  end.
Definition hash_next_bucket (t : hash_table) : option hash_table := next_bucket_loop (Datatypes.S (length (buckets t))) t.

Definition hash_first (t : hash_table) : option hash_table :=
  match tnext t with
  | Some _ => None
  | None =>
      b ← bucket t 0;
      let t := set_iter b 0 t in
      match b with None => hash_next_bucket t | Some _ => Some t end
  end.

Definition hash_next (t : hash_table) : option (option positive * hash_table) :=
  match tnext t with
  | None => Some (None, t)
  | Some this =>
      l ← mem t !! this;
      let t := set_iter (next l) (current_slot t) t in
      t ← match next l with None => hash_next_bucket t | Some _ => Some t end;
      Some (Some this, t)
  end.

Definition hash_last (t : hash_table) : hash_table := set_iter None 0 t.

(** [*P], where [P] is a bucket or the [next] of a link, and the assignment to it. *)
Inductive place := InBucket (i : Z) | InLink (p : positive).

Definition at_place (P : place) (t : hash_table) : option (option positive) :=
  match P with InBucket i => bucket t i | InLink p => next <$> mem t !! p end.

Definition set_place (P : place) (v : option positive) (t : hash_table) : option hash_table :=
  match P with
  | InBucket i => Some (set_buckets (<[Z.to_nat i := v]> (buckets t)) t)
  | InLink p => l ← mem t !! p; Some (set_mem (<[p := Link (key l) v]> (mem t)) t)
  end.

Fixpoint remove_loop (fuel : nat) (P : place) (hl : positive) (t : hash_table) : option hash_table :=
  p ← at_place P t;
  match p with
  | None => None
  | Some p =>
      if bool_decide (p = hl) then
        l ← mem t !! hl;
        t ← set_place P (next l) t;
        t ← (if bool_decide (tnext t = Some hl) then
               let t := set_iter (next l) (current_slot t) t in
               match next l with None => hash_next_bucket t | Some _ => Some t end
             else Some t);
        Some (set_count (i32 (count t - 1)) t)
      else match fuel with O => None | S fuel => remove_loop fuel (InLink p) hl t end
  end.

Definition hash_remove_link (hl : positive) (t : hash_table) : option hash_table :=
  l ← mem t !! hl;
  remove_loop (base.size (mem t)) (InBucket (hash (key l) (size t))) hl t.

Definition hash_get_bucket (b : Z) (t : hash_table) : option (option positive) :=
  if size t <=? b then Some None else bucket t b.

(** The items that [hashFreeItems] collects, before it frees each. *)
Fixpoint collect (fuel : nat) (i : Z) (t : hash_table) : option (list positive * hash_table) :=
  match fuel with
  | O => None
  | S fuel =>
      '(l, t) ← hash_next t;
      match l with
      | Some l =>
          if i <? count t then '(ls, t) ← collect fuel (i + 1) t; Some (l :: ls, t) else Some ([], t)
      | None => Some ([], t)
      end
  end.

Definition hashFreeItems {S : Type} (free_func : positive -> S -> S) (s : S) (t : hash_table) : option (S * hash_table) :=
  t ← hash_first t;
  '(ls, t) ← collect (Datatypes.S (Datatypes.S (base.size (mem t)))) 0 t;
  Some (fold_left (fun s l => free_func l s) ls s, t).

(** ** Representation *)

Fixpoint chain (m : gmap positive hash_link) (o : option positive) (l : list positive) : Prop :=
  match l with
  | [] => o = None
  | p :: l => o = Some p /\ exists k, m !! p = Some k /\ chain m (next k) l
  end.

(** The bucket of a link, in a table of [n] buckets. *)
Definition slot (m : gmap positive hash_link) (n : Z) (p : positive) : Z :=
  match m !! p with Some l => hash (key l) n | None => -1 end.
Definition items_in (m : gmap positive hash_link) (n : Z) (i : Z) (order : list positive) : list positive :=
  filter (fun p => slot m n p = i) order.

Definition chains (t : hash_table) (order : list positive) : Prop :=
  forall i, 0 <= i < size t -> exists b, bucket t i = Some b /\ chain (mem t) b (items_in (mem t) (size t) i order).

Record rep (t : hash_table) (order : list positive) : Prop := {
  rep_nodup : NoDup order;
  rep_slots : Forall (fun p => 0 <= slot (mem t) (size t) p < size t) order;
  rep_count : count t = i32 (Z.of_nat (length order));
  rep_chains : chains t order
}.

Lemma bucket_some (t : hash_table) (i : Z) : 0 <= i < size t -> exists b, bucket t i = Some b.
Proof.
  intros H. unfold bucket. rewrite (proj2 (Z.leb_le 0 i)) by lia. apply lookup_lt_is_Some_2. unfold size in H. lia.
Qed.

(** A chain is left alone by changes of links that are not in it. *)
Lemma chain_frame (m1 m2 : gmap positive hash_link) (o : option positive) (l : list positive) :
  (forall p, p ∈ l -> m1 !! p = m2 !! p) -> chain m1 o l -> chain m2 o l.
Proof.
  revert o. induction l as [|p l IH]; intros o Hm; cbn [chain]; [done|]. intros (-> & k & Hk & Hc). split; [done|].
  exists k. rewrite <- Hm by left. split; [done|]. apply IH; [|done]. intros q Hq. apply Hm. by right.
Qed.

Lemma chain_dom (m : gmap positive hash_link) (o : option positive) (l : list positive) (p : positive) :
  chain m o l -> p ∈ l -> exists k, m !! p = Some k.
Proof.
  revert o. induction l as [|q l IH]; intros o; cbn [chain]; [by intros _ ?%not_elem_of_nil|]. intros (_ & k & Hk & Hc) [->|Hp]%elem_of_cons; [by exists k|].
  by apply (IH (next k)).
Qed.

Lemma chain_length (m : gmap positive hash_link) (o : option positive) (l : list positive) :
  chain m o l -> NoDup l -> (length l <= base.size m)%nat.
Proof.
  intros Hc Hn. rewrite <- size_dom, <- (size_list_to_set (C := gset positive) l) by done. apply subseteq_size. intros p Hp.
  apply elem_of_list_to_set in Hp. destruct (chain_dom _ _ _ _ Hc Hp) as [k Hk]. by apply elem_of_dom_2 in Hk.
Qed.

Lemma chain_app (m : gmap positive hash_link) (o : option positive) (l1 l2 : list positive) :
  chain m o (l1 ++ l2) -> exists o', chain m o' l2.
Proof.
  revert o. induction l1 as [|p l1 IH]; intros o; cbn [app chain]; [by exists o|]. intros (_ & k & _ & H). by apply (IH (next k)).
Qed.

(** ** Creation, joining and lookup *)

Lemma created_rep (m : gmap positive hash_link) (n : Z) : 0 <= n -> rep (hash_create m n) [].
Proof.
  intros Hn. split; [constructor | constructor | done |]. intros i Hi.
  destruct (bucket_some _ _ Hi) as [b Hb]. exists b. split; [done|]. unfold bucket in Hb. rewrite (proj2 (Z.leb_le 0 i)) in Hb by lia.
  unfold hash_create in Hb. cbn [buckets] in Hb. by apply lookup_replicate in Hb as [-> _].
Qed.

(** The key of a link and where it hashes to do not change. *)
Lemma slot_same (m : gmap positive hash_link) (n : Z) (p q : positive) (l : hash_link) (o : option positive) :
  m !! p = Some l -> slot (<[p := Link (key l) o]> m) n q = slot m n q.
Proof. intros H. unfold slot. destruct (decide (p = q)) as [<-|E]; [by rewrite lookup_insert_eq, H | by rewrite lookup_insert_ne]. Qed.

Lemma keys_same (m : gmap positive hash_link) (p q : positive) (l : hash_link) (o : option positive) :
  m !! p = Some l -> key <$> (<[p := Link (key l) o]> m) !! q = key <$> m !! q.
Proof. intros H. destruct (decide (p = q)) as [<-|E]; [by rewrite lookup_insert_eq, H | by rewrite lookup_insert_ne]. Qed.

Lemma slot_keys (m1 m2 : gmap positive hash_link) (n : Z) (q : positive) : key <$> m1 !! q = key <$> m2 !! q -> slot m1 n q = slot m2 n q.
Proof. unfold slot. destruct (m1 !! q), (m2 !! q); cbn; congruence. Qed.

Lemma items_in_ext (m1 m2 : gmap positive hash_link) (n i : Z) (order : list positive) :
  (forall q, slot m1 n q = slot m2 n q) -> items_in m1 n i order = items_in m2 n i order.
Proof. intros H. apply list_filter_iff. intros q. by rewrite H. Qed.

Lemma elem_of_items (m : gmap positive hash_link) (n i : Z) (p : positive) (order : list positive) :
  p ∈ items_in m n i order <-> slot m n p = i /\ p ∈ order.
Proof. exact (list_elem_of_filter (fun p => slot m n p = i) order p). Qed.

Lemma bucket_insert (t : hash_table) (b : option positive) (i j : Z) (m : gmap positive hash_link) (c : Z) :
  0 <= i < size t -> 0 <= j ->
  bucket (set_count c (set_buckets (<[Z.to_nat i := b]> (buckets t)) (set_mem m t))) j = if bool_decide (i = j) then Some b else bucket t j.
Proof.
  intros Hi Hj. unfold bucket, set_count, set_buckets. cbn [buckets]. rewrite (proj2 (Z.leb_le 0 j)) by lia. case_bool_decide as E.
  - subst. apply list_lookup_insert_eq. unfold size in Hi. lia.
  - apply list_lookup_insert_ne. lia.
Qed.

Lemma join_rep (t : hash_table) (order : list positive) (p : positive) (l : hash_link) :
  rep t order -> mem t !! p = Some l -> p ∉ order -> 0 <= hash (key l) (size t) < size t ->
  exists t', hash_join p t = Some t' /\ rep t' (p :: order) /\ size t' = size t /\ tnext t' = tnext t /\ current_slot t' = current_slot t
    /\ forall q, key <$> mem t' !! q = key <$> mem t !! q.
Proof.
  intros [R1 R2 R3 R4] Hp Hn Hh. unfold hash_join. rewrite Hp. cbn [mbind option_bind]. set (i := hash (key l) (size t)).
  destruct (R4 i Hh) as (b & Hb & Hc). rewrite Hb. cbn [mbind option_bind]. eexists. split; [reflexivity|].
  set (m' := <[p := Link (key l) b]> (mem t)). assert (Es : forall q, slot m' (size t) q = slot (mem t) (size t) q) by (intros q; by apply slot_same).
  assert (Ez : size (set_count (i32 (count t + 1)) (set_buckets (<[Z.to_nat i := Some p]> (buckets t)) (set_mem m' t))) = size t).
  { unfold size. cbn [set_count set_buckets buckets]. by rewrite length_insert. }
  assert (Ep : slot (mem t) (size t) p = i) by (unfold slot; by rewrite Hp).
  split; [|split; [done|split; [done|split; [done|]]]].
  - split; rewrite ?Ez; change (mem (set_count _ _)) with m'.
    + by constructor.
    + constructor; [by rewrite Es, Ep|]. eapply Forall_impl; [exact R2|]. intros q. by rewrite Es.
    + cbn [set_count count length]. rewrite R3. unfold wraps. rewrite Nat2Z.inj_succ. dlia.
    + unfold chains. rewrite Ez. change (mem (set_count _ _)) with m'. intros j Hj. rewrite bucket_insert by (done || lia). unfold items_in. rewrite filter_cons. fold (items_in m' (size t) j order).
      rewrite (items_in_ext m' (mem t)) by done. rewrite Es, Ep. case_bool_decide as E.
      * subst j. rewrite decide_True by done. exists (Some p). split; [done|]. split; [done|]. exists (Link (key l) b).
        split; [apply lookup_insert_eq|]. cbn [next]. eapply chain_frame; [|exact Hc]. intros q Hq. symmetry. apply lookup_insert_ne.
        intros ->. apply Hn. by apply list_elem_of_filter in Hq as [_ ?].
      * rewrite decide_False by done. destruct (R4 j Hj) as (b' & Hb' & Hc'). exists b'. split; [done|].
        eapply chain_frame; [|exact Hc']. intros q Hq. symmetry. apply lookup_insert_ne. intros ->. apply Hn.
        by apply list_elem_of_filter in Hq as [_ ?].
  - intros q. cbn. unfold m'. destruct (decide (p = q)) as [<-|E]; [by rewrite lookup_insert_eq, Hp | by rewrite lookup_insert_ne].
Qed.

(** The item that a lookup finds. *)
Definition found (m : gmap positive hash_link) (k : K) (l : list positive) : option positive :=
  List.find (fun p => match m !! p with Some lk => cmp k (key lk) | None => false end) l.

Lemma lookup_loop_found (fuel : nat) (m : gmap positive hash_link) (k : K) (o : option positive) (l : list positive) :
  (length l < fuel)%nat -> NoDup l -> chain m o l -> lookup_loop fuel m k o = Some (found m k l).
Proof.
  revert o l. induction fuel as [|fuel IH]; intros o l Hf Hn Hc; [lia|]. destruct l as [|p l]; cbn [chain] in Hc; [by rewrite Hc|].
  destruct Hc as (-> & lk & Hp & Hc). cbn [lookup_loop found List.find]. rewrite Hp. cbn [mbind option_bind]. destruct (cmp k (key lk)); [done|].
  apply NoDup_cons in Hn as [Hp' Hn]. rewrite bool_decide_eq_false_2.
  - apply IH; [cbn in Hf; lia | done | done].
  - intros E. destruct l as [|q l]; cbn [chain] in Hc; [congruence|]. destruct Hc as [Hc _]. rewrite Hc in E. injection E as ->. by apply Hp'; left.
Qed.

Lemma NoDup_items (m : gmap positive hash_link) (n i : Z) (order : list positive) : NoDup order -> NoDup (items_in m n i order).
Proof. apply NoDup_filter. Qed.

Lemma lookup_rep (t : hash_table) (order : list positive) (k : K) :
  (forall k' n, cmp k k' = true -> hash k n = hash k' n) -> 0 <= hash k (size t) < size t -> rep t order ->
  hash_lookup k t = Some (found (mem t) k order).
Proof.
  intros Hcmp Hh [R1 _ _ R4]. unfold hash_lookup. destruct (R4 _ Hh) as (b & Hb & Hc). rewrite Hb. cbn [mbind option_bind].
  rewrite (lookup_loop_found _ _ _ _ _ (proj2 (Nat.lt_succ_r _ _) (chain_length _ _ _ Hc (NoDup_items _ _ _ _ R1))) (NoDup_items _ _ _ _ R1) Hc).
  f_equal. unfold found, items_in. clear Hb Hc R1 R4 b. induction order as [|p order IH]; [done|]. rewrite filter_cons. case_decide as E; cbn [List.find].
  - by rewrite IH.
  - rewrite IH. unfold slot in E. destruct (mem t !! p) as [lk|]; [|done]. destruct (cmp k (key lk)) eqn:Ec; [|done]. by rewrite (Hcmp _ (size t) Ec) in E.
Qed.

(** ** Traversal *)

(** The items from a bucket on, in the order of a traversal. *)
Definition from_slot (m : gmap positive hash_link) (n : Z) (order : list positive) (c : Z) : list positive :=
  concat (map (fun i => items_in m n i order) (seqZ c (n - c))).

(** What a traversal still has to give. *)
Definition iter (t : hash_table) (order r : list positive) : Prop :=
  (tnext t = None /\ r = []) \/
  exists l1 l2, 0 <= current_slot t < size t /\ items_in (mem t) (size t) (current_slot t) order = l1 ++ l2
    /\ chain (mem t) (tnext t) l2 /\ l2 <> [] /\ r = l2 ++ from_slot (mem t) (size t) order (current_slot t + 1).

Lemma from_slot_cons (m : gmap positive hash_link) (n : Z) (order : list positive) (c : Z) :
  c < n -> from_slot m n order c = items_in m n c order ++ from_slot m n order (c + 1).
Proof. intros H. unfold from_slot. rewrite seqZ_cons by lia. cbn [map concat]. do 4 f_equal; lia. Qed.

Lemma from_slot_end (m : gmap positive hash_link) (n : Z) (order : list positive) (c : Z) : n <= c -> from_slot m n order c = [].
Proof. intros H. unfold from_slot. by rewrite seqZ_nil by lia. Qed.

Definition same_table (t t' : hash_table) : Prop := mem t' = mem t /\ buckets t' = buckets t /\ count t' = count t.

Lemma rep_same (t t' : hash_table) (order : list positive) : same_table t t' -> rep t order -> rep t' order.
Proof. intros (E1 & E2 & E3) [R1 R2 R3 R4]. split; unfold chains, size, bucket in *; by rewrite ?E1, ?E2, ?E3. Qed.

Lemma chains_same (t t' : hash_table) (order : list positive) : mem t' = mem t -> buckets t' = buckets t -> chains t order -> chains t' order.
Proof. intros E1 E2 H. unfold chains, size, bucket in *. by rewrite E1, E2. Qed.

Lemma next_bucket_iter (fuel : nat) (t : hash_table) (order : list positive) :
  chains t order -> tnext t = None -> -1 <= current_slot t -> (Z.to_nat (size t - current_slot t) < fuel)%nat ->
  exists t', next_bucket_loop fuel t = Some t' /\ same_table t t' /\ iter t' order (from_slot (mem t) (size t) order (current_slot t + 1)).
Proof.
  revert t. induction fuel as [|fuel IH]; intros t R Hn Hc Hf; [lia|]. cbn [next_bucket_loop]. rewrite Hn. cbn zeta.
  destruct (Z.ltb_spec (current_slot t + 1) (size t)) as [H|H].
  - destruct (R (current_slot t + 1) ltac:(lia)) as (b & Hb & Hch). rewrite Hb. cbn [mbind option_bind].
    set (t1 := set_iter b (current_slot t + 1) t). rewrite from_slot_cons by lia. destruct b as [p|].
    + exists t1. destruct fuel as [|fuel]; [lia|]. split; [done|]. split; [done|]. right. exists [], (items_in (mem t) (size t) (current_slot t + 1) order).
      change (current_slot t1) with (current_slot t + 1). change (size t1) with (size t). split; [lia|]. split; [done|]. split; [done|].
      split; [|done]. intros E. by rewrite E in Hch.
    + destruct (items_in _ _ _ _) as [|q l]; [|by destruct Hch].
      destruct (IH t1) as (t' & E & S & I); [by apply (chains_same t) | done | cbn; lia | change (size t1) with (size t); cbn; lia |].
      exists t'. split; [done|]. by split.
  - exists (set_iter None (current_slot t + 1) t). split; [done|]. split; [done|]. left. by rewrite from_slot_end by lia.
Qed.

Lemma hash_next_bucket_iter (t : hash_table) (order : list positive) :
  chains t order -> tnext t = None -> 0 <= current_slot t ->
  exists t', hash_next_bucket t = Some t' /\ same_table t t' /\ iter t' order (from_slot (mem t) (size t) order (current_slot t + 1)).
Proof. intros R Hn Hc. apply next_bucket_iter; [done | done | lia |]. unfold size. lia. Qed.

Lemma first_iter (t : hash_table) (order : list positive) :
  rep t order -> tnext t = None -> 0 < size t ->
  exists t', hash_first t = Some t' /\ same_table t t' /\ iter t' order (from_slot (mem t) (size t) order 0).
Proof.
  intros R Hn Hs. unfold hash_first. rewrite Hn. destruct (rep_chains _ _ R 0 ltac:(lia)) as (b & Hb & Hch). rewrite Hb. cbn [mbind option_bind].
  rewrite from_slot_cons by lia. destruct b as [p|].
  - eexists. split; [reflexivity|]. split; [done|]. right. exists [], (items_in (mem t) (size t) 0 order). cbn.
    split; [exact (conj (Z.le_refl 0) Hs)|]. split; [done|]. split; [done|]. split; [|done]. intros E. by rewrite E in Hch.
  - destruct (items_in _ _ _ _) as [|q l]; [|by destruct Hch].
    destruct (hash_next_bucket_iter (set_iter None 0 t) order) as (t' & E & S & I); [apply (chains_same t); try done; apply R | done | done |]. by exists t'.
Qed.

Lemma next_iter (t : hash_table) (order r : list positive) :
  rep t order -> iter t order r ->
  exists t', hash_next t = Some (head r, t') /\ same_table t t' /\ iter t' order (tail r).
Proof.
  intros R [[Hn ->]|(l1 & l2 & Hc & Hl & Hch & Hne & ->)]; unfold hash_next.
  - rewrite Hn. exists t. split; [done|]. split; [done|]. by left.
  - destruct l2 as [|p l2]; [done|]. destruct Hch as (Hp & lk & Hm & Hch). rewrite Hp, Hm. cbn [mbind option_bind app head tail].
    set (t1 := set_iter (next lk) (current_slot t) t). destruct (next lk) as [q|] eqn:En.
    + exists t1. split; [done|]. split; [done|]. right. exists (l1 ++ [p]), l2. split; [done|]. split; [by rewrite <- app_assoc|].
      split; [done|]. split; [by intros ->|done].
    + destruct l2 as [|q l2]; [|by destruct Hch]. cbn [app].
      destruct (hash_next_bucket_iter t1 order) as (t' & E & S & I); [apply (chains_same t); try done; apply R | done | apply Hc |].
      rewrite E. cbn [mbind option_bind]. by exists t'.
Qed.

(** Links that are not of the table do not matter. *)
Lemma rep_frame (t : hash_table) (order : list positive) (m : gmap positive hash_link) :
  (forall p, p ∈ order -> mem t !! p = m !! p) -> rep t order -> rep (set_mem m t) order.
Proof.
  intros Hm [R1 R2 R3 R4]. assert (Hs : forall p, p ∈ order -> slot (mem t) (size t) p = slot m (size t) p) by (intros p Hp; unfold slot; by rewrite Hm).
  split; try done; change (size (set_mem m t)) with (size t); cbn [mem set_mem].
  - rewrite Forall_forall in R2 |- *. intros p Hp. rewrite <- Hs by done. by apply R2.
  - intros i Hi. destruct (R4 i Hi) as (b & Hb & Hc). exists b. split; [done|].
    assert (E : items_in m (size t) i order = items_in (mem t) (size t) i order).
    { unfold items_in. clear -Hs. induction order as [|p l IH]; [done|]. rewrite !filter_cons, Hs by left. rewrite IH; [done|]. intros q Hq. apply Hs. by right. }
    cbn [mem set_mem]. change (size (set_mem m t)) with (size t). rewrite E. eapply chain_frame; [|exact Hc]. intros p [_ Hp]%elem_of_items. by apply Hm.
Qed.

(** ** Removal *)

Definition without (p : positive) (l : list positive) : list positive := filter (fun q => q <> p) l.

Lemma without_absent (p : positive) (l : list positive) : p ∉ l -> without p l = l.
Proof.
  unfold without. induction l as [|q l IH]; intros H; [done|]. apply not_elem_of_cons in H as [H1 H2]. rewrite filter_cons, decide_True by congruence.
  by rewrite IH.
Qed.

Lemma without_cons (p : positive) (l : list positive) : without p (p :: l) = without p l.
Proof. unfold without. by rewrite filter_cons, decide_False by (intros H; by apply H). Qed.

Lemma without_app (p : positive) (l1 l2 : list positive) : without p (l1 ++ l2) = without p l1 ++ without p l2.
Proof. apply filter_app. Qed.

Lemma elem_of_without (p q : positive) (l : list positive) : q ∈ without p l <-> q <> p /\ q ∈ l.
Proof. exact (list_elem_of_filter (fun q => q <> p) l q). Qed.

Lemma items_without (m : gmap positive hash_link) (n i : Z) (p : positive) (order : list positive) :
  items_in m n i (without p order) = without p (items_in m n i order).
Proof. unfold items_in, without. rewrite !list_filter_filter. apply list_filter_iff. intros q. tauto. Qed.

Lemma length_without (p : positive) (l : list positive) : NoDup l -> p ∈ l -> length l = Datatypes.S (length (without p l)).
Proof.
  induction 1 as [|q l Hq Hn IH]; intros H; [by apply not_elem_of_nil in H|]. apply elem_of_cons in H as [->|H].
  - by rewrite without_cons, without_absent.
  - unfold without. rewrite filter_cons, decide_True by (intros ->; done). fold (without p l). cbn [length]. by rewrite IH.
Qed.

(** In a chain only one link leads to a given one. *)
Lemma chain_lookup (m : gmap positive hash_link) (o : option positive) (l : list positive) (i : nat) (p : positive) :
  chain m o l -> l !! i = Some p -> exists k, m !! p = Some k /\ next k = l !! Datatypes.S i.
Proof.
  revert o i. induction l as [|q l IH]; intros o i; cbn [chain]; [done|]. intros (_ & k & Hk & Hc). destruct i as [|i]; cbn.
  - intros [= <-]. exists k. split; [done|]. destruct l as [|q' l]; cbn [chain] in Hc; [done | by destruct Hc].
  - intros Hi. by apply (IH (next k)).
Qed.

Lemma chain_pred (m : gmap positive hash_link) (o : option positive) (l : list positive) (p q r : positive) (kp kq : hash_link) :
  chain m o l -> NoDup l -> p ∈ l -> q ∈ l -> m !! p = Some kp -> m !! q = Some kq -> next kp = Some r -> next kq = Some r -> p = q.
Proof.
  intros Hc Hn [i Hi]%list_elem_of_lookup [j Hj]%list_elem_of_lookup Hp Hq Np Nq.
  destruct (chain_lookup _ _ _ _ _ Hc Hi) as (k1 & E1 & L1), (chain_lookup _ _ _ _ _ Hc Hj) as (k2 & E2 & L2).
  assert (Datatypes.S i = Datatypes.S j) by (apply (NoDup_lookup l _ _ r Hn); congruence). assert (i = j) by lia. congruence.
Qed.

(** The link before [hl] now leads to what came after it. *)
Lemma chain_cut (m : gmap positive hash_link) (o : option positive) (l : list positive) (q hl : positive) (k lk : hash_link) :
  chain m o l -> NoDup l -> m !! q = Some k -> next k = Some hl -> m !! hl = Some lk -> head l <> Some hl ->
  (forall p kp, p ∈ l -> m !! p = Some kp -> next kp = Some hl -> p = q) ->
  chain (<[q := Link (key k) (next lk)]> m) o (without hl l).
Proof.
  intros Hc Hn Hq Nq Hh. revert o Hc Hn. induction l as [|p l IH]; intros o Hc Hn Hhd Hu; [done|]. cbn [chain] in Hc.
  destruct Hc as (-> & kp & Hp & Hc). apply NoDup_cons in Hn as [Hpl Hn]. cbn [head] in Hhd.
  assert (Hne : p <> hl) by congruence. unfold without. rewrite filter_cons, decide_True by done. fold (without hl l). split; [done|].
  destruct (decide (p = q)) as [->|Epq].
  - exists (Link (key k) (next lk)). rewrite lookup_insert_eq. split; [done|]. cbn [next]. rewrite Hq in Hp. injection Hp as <-.
    rewrite Nq in Hc. destruct l as [|x l]; [done|]. destruct Hc as ([= <-] & k' & Hk' & Hc). rewrite Hh in Hk'. injection Hk' as <-.
    apply NoDup_cons in Hn as [Hx Hn]. rewrite without_cons, without_absent by done. eapply chain_frame; [|exact Hc].
    intros y Hy. symmetry. apply lookup_insert_ne. intros ->. by apply Hpl; right.
  - exists kp. rewrite lookup_insert_ne by done. split; [done|]. apply IH; [done | done | |].
    + destruct l as [|x l]; [done|]. destruct Hc as (E & _). intros [= ->]. apply Epq. apply (Hu p kp); [left | done | done].
    + intros y ky Hy. apply Hu. by right.
Qed.

(** The place that leads on from the first links of bucket [i]. *)
Definition place_after (i : Z) (pre : list positive) : place := match last pre with None => InBucket i | Some q => InLink q end.

Lemma at_place_after (t : hash_table) (i : Z) (b : option positive) (pre : list positive) (p : positive) (suf : list positive) :
  bucket t i = Some b -> chain (mem t) b (pre ++ p :: suf) -> at_place (place_after i pre) t = Some (Some p).
Proof.
  intros Hb Hc. unfold place_after. destruct pre as [|q0 pre _] using rev_ind.
  - cbn. rewrite Hb. by destruct Hc as [-> _].
  - rewrite last_snoc. cbn [at_place]. destruct (chain_lookup _ _ _ (length pre) q0 Hc) as (k & -> & En).
    { rewrite <- app_assoc. by apply list_lookup_middle. }
    cbn. rewrite En. f_equal. rewrite lookup_app_r by (rewrite length_app; cbn; lia).
    rewrite length_app. cbn [length]. by replace (Datatypes.S (length pre) - (length pre + 1))%nat with 0%nat by lia.
Qed.

(** The loop stops at the place that leads to the link. *)
Lemma remove_loop_stops (fuel : nat) (hl : positive) (lk : hash_link) (t : hash_table) (pre suf : list positive) (i : Z) (b : option positive) :
  bucket t i = Some b -> chain (mem t) b (pre ++ suf) -> hl ∈ suf -> (length suf <= Datatypes.S fuel)%nat -> mem t !! hl = Some lk ->
  exists pre' suf', pre ++ suf = pre' ++ hl :: suf'
    /\ remove_loop fuel (place_after i pre) hl t =
      (t ← set_place (place_after i pre') (next lk) t;
       t ← (if bool_decide (tnext t = Some hl) then
              let t := set_iter (next lk) (current_slot t) t in
              match next lk with None => hash_next_bucket t | Some _ => Some t end
            else Some t);
       Some (set_count (i32 (count t - 1)) t)).
Proof.
  intros Hb. revert pre suf. induction fuel as [|fuel IH]; intros pre suf Hc Hs Hf Hlk; (destruct suf as [|p suf]; [by apply not_elem_of_nil in Hs|]);
    cbn [remove_loop]; rewrite (at_place_after _ _ _ _ _ _ Hb Hc); cbn [mbind option_bind].
  - destruct suf as [|x suf]; [|cbn in Hf; lia]. apply list_elem_of_singleton in Hs as ->. exists pre, []. split; [done|].
    rewrite bool_decide_eq_true_2 by done. by rewrite Hlk.
  - destruct (decide (p = hl)) as [->|E].
    + exists pre, suf. split; [done|]. rewrite bool_decide_eq_true_2 by done. by rewrite Hlk.
    + rewrite bool_decide_eq_false_2 by done. destruct (IH (pre ++ [p]) suf) as (pre' & suf' & E1 & E2).
      * by rewrite <- app_assoc.
      * by apply elem_of_cons in Hs as [?|?]; [congruence|].
      * cbn in Hf. lia.
      * done.
      * exists pre', suf'. rewrite <- E1, <- app_assoc. split; [done|]. unfold place_after in E2 at 1. rewrite last_snoc in E2. exact E2.
Qed.


(** Unlinking leaves every chain that does not start with the link without it. *)
Lemma unlinked (t : hash_table) (order : list positive) (hl : positive) (lk : hash_link) (i : Z) (pre suf : list positive) :
  rep t order -> 0 <= i < size t -> items_in (mem t) (size t) i order = pre ++ hl :: suf -> mem t !! hl = Some lk ->
  exists t1, set_place (place_after i pre) (next lk) t = Some t1
    /\ tnext t1 = tnext t /\ current_slot t1 = current_slot t /\ count t1 = count t /\ size t1 = size t
    /\ (forall q, key <$> mem t1 !! q = key <$> mem t !! q)
    /\ (forall c l1 l2 o, 0 <= c < size t -> items_in (mem t) (size t) c order = l1 ++ l2 -> chain (mem t) o l2 -> head l2 <> Some hl ->
          chain (mem t1) o (without hl l2))
    /\ (forall c, 0 <= c < size t -> bucket t1 c = if decide (c = i /\ pre = []) then Some (next lk) else bucket t c).
Proof.
  intros R Hi Hl Hlk. assert (Sl : slot (mem t) (size t) hl = i) by (apply (elem_of_items _ _ _ hl order); rewrite Hl; apply elem_of_app; right; left).
  destruct pre as [|q pre _] using rev_ind.
  - eexists. split; [reflexivity|]. split; [done|]. split; [done|]. split; [done|]. split; [by unfold size; cbn; rewrite length_insert|]. split; [done|].
    split.
    + intros c l1 l2 o Hc Hc2 Hch Hhd. cbn. rewrite without_absent; [done|]. intros Hin.
      assert (c = i) as -> by (rewrite <- Sl; symmetry; apply (elem_of_items _ _ _ hl order); rewrite Hc2; apply elem_of_app; by right).
      pose proof (NoDup_items (mem t) (size t) i order (rep_nodup _ _ R)) as Hn. rewrite Hl in Hc2, Hn. destruct l1 as [|x l1].
      * cbn in Hc2. by rewrite <- Hc2 in Hhd.
      * injection Hc2 as <- Hc2. apply NoDup_cons in Hn as [Hn _]. apply Hn. cbn in Hc2. rewrite Hc2. apply elem_of_app. by right.
    + intros c Hc. unfold bucket, set_place, set_buckets. cbn [buckets place_after last]. rewrite (proj2 (Z.leb_le 0 c)) by lia.
      destruct (decide (c = i /\ _)) as [[-> _]|E].
      * apply list_lookup_insert_eq. unfold size in Hi. lia.
      * apply list_lookup_insert_ne. intros E'. apply E. split; [lia | done].
  - rewrite <- app_assoc in Hl. cbn [app] in Hl. destruct (rep_chains _ _ R i Hi) as (b & Hb & Hch). rewrite Hl in Hch.
    pose proof (NoDup_items (mem t) (size t) i order (rep_nodup _ _ R)) as Hn. rewrite Hl in Hn.
    destruct (chain_lookup _ _ _ (length pre) q Hch) as (k & Hk & Nk); [by apply list_lookup_middle|].
    assert (Nk' : next k = Some hl).
    { rewrite Nk, lookup_app_r by lia. by replace (Datatypes.S (length pre) - length pre)%nat with 1%nat by lia. }
    unfold place_after. rewrite last_snoc. cbn [set_place]. rewrite Hk. cbn [mbind option_bind]. eexists. split; [reflexivity|].
    split; [done|]. split; [done|]. split; [done|]. split; [done|]. split; [intros x; by apply keys_same|]. split.
    + intros c l1 l2 o Hc Hc2 Hch2 Hhd. cbn [mem set_mem]. destruct (rep_chains _ _ R c Hc) as (bc & _ & Hcc).
      pose proof (NoDup_items (mem t) (size t) c order (rep_nodup _ _ R)) as Hnc.
      apply (chain_cut (mem t) o l2 q hl k lk); try done; [by rewrite Hc2 in Hnc; apply NoDup_app in Hnc as (_ & _ & ?)|].
      intros p kp Hp Hkp Nkp. assert (Hpc : p ∈ items_in (mem t) (size t) c order) by (rewrite Hc2; apply elem_of_app; by right).
      assert (c = i) as ->.
      { pose proof Hpc as [j Hj]%list_elem_of_lookup. destruct (chain_lookup _ _ _ _ _ Hcc Hj) as (k2 & E1 & E2).
        assert (Hin : items_in (mem t) (size t) c order !! Datatypes.S j = Some hl) by congruence.
        apply list_elem_of_lookup_2, elem_of_items in Hin as [<- _]. exact Sl. }
      rewrite Hl in Hpc. apply (chain_pred _ _ _ p q hl kp k Hch Hn); try done. apply elem_of_app. right. left.
    + intros c Hc. rewrite decide_False; [done|]. intros [_ E]. by destruct pre.
Qed.

Lemma from_without (m m1 : gmap positive hash_link) (n : Z) (order : list positive) (hl : positive) (c : Z) :
  (forall q, slot m1 n q = slot m n q) -> from_slot m1 n (without hl order) c = without hl (from_slot m n order c).
Proof.
  intros H. unfold from_slot. induction (seqZ c (n - c)) as [|i l IH]; [done|]. cbn [map concat].
  by rewrite without_app, IH, (items_in_ext m1 m) by done; rewrite items_without.
Qed.

(** The traversal after a link was unlinked. *)
Lemma iter_unlinked (t t1 : hash_table) (order r : list positive) (hl : positive) (lk : hash_link) :
  NoDup order -> iter t order r -> mem t !! hl = Some lk -> chains t1 (without hl order) ->
  tnext t1 = tnext t -> current_slot t1 = current_slot t -> size t1 = size t ->
  (forall q, slot (mem t1) (size t) q = slot (mem t) (size t) q) ->
  (forall c l1 l2 o, 0 <= c < size t -> items_in (mem t) (size t) c order = l1 ++ l2 -> chain (mem t) o l2 -> head l2 <> Some hl ->
    chain (mem t1) o (without hl l2)) ->
  exists t2, (if bool_decide (tnext t1 = Some hl) then
                let t := set_iter (next lk) (current_slot t1) t1 in
                match next lk with None => hash_next_bucket t | Some _ => Some t end
              else Some t1) = Some t2
    /\ same_table t1 t2 /\ iter t2 (without hl order) (without hl r).
Proof.
  intros Hn I Hlk C1 T1 T2 T4 T5 T6. rewrite T1. destruct I as [[E ->]|(l1 & l2 & Hc & Hl & Hch & Hne & ->)].
  - rewrite E. exists t1. split; [done|]. split; [done|]. left. by rewrite T1.
  - pose proof (NoDup_items (mem t) (size t) (current_slot t) order Hn) as Hnc. rewrite Hl in Hnc. apply NoDup_app in Hnc as (_ & _ & Hnc).
    assert (Hit : items_in (mem t1) (size t) (current_slot t) (without hl order) = without hl l1 ++ without hl l2)
      by (by rewrite (items_in_ext _ (mem t)) by done; rewrite items_without, Hl, without_app).
    rewrite without_app. rewrite <- (from_without _ (mem t1)) by done. destruct l2 as [|p l2]; [done|]. destruct Hch as (Hp & k & Hk & Hch).
    rewrite Hp. destruct (decide (p = hl)) as [->|E].
    + rewrite bool_decide_eq_true_2 by done. rewrite Hlk in Hk. injection Hk as <-. apply NoDup_cons in Hnc as [Hni _].
      rewrite without_cons in Hit |- *. assert (Hc1 : chain (mem t1) (next lk) (without hl l2)).
      { apply (T6 (current_slot t) (l1 ++ [hl])); [done | by rewrite <- app_assoc | done |]. destruct l2 as [|x l2]; [done|]. intros [= ->]. by apply Hni; left. }
      rewrite (without_absent hl l2) in * by done. rewrite T2. set (t2 := set_iter (next lk) (current_slot t) t1). destruct (next lk) as [q|] eqn:En.
      * exists t2. split; [done|]. split; [done|]. right. exists (without hl l1), l2. unfold t2. change (size (set_iter _ _ t1)) with (size t1).
        rewrite T4. split; [done|]. split; [done|]. split; [done|]. split; [by intros -> | done].
      * destruct l2 as [|x l2]; [|by destruct Hch]. cbn [app].
        destruct (hash_next_bucket_iter t2 (without hl order)) as (t' & E & S & I); [by apply (chains_same t1) | done | apply Hc |].
        exists t'. split; [done|]. split; [done|]. change (size t2) with (size t1) in I. by rewrite T4 in I.
    + rewrite bool_decide_eq_false_2 by congruence. exists t1. split; [done|]. split; [done|]. right.
      exists (without hl l1), (without hl (p :: l2)). rewrite T1, T2, T4. split; [done|]. split; [done|]. split.
      * apply (T6 (current_slot t) l1); [done | done | | cbn; congruence]. split; [done|]. by exists k.
      * split; [|done]. unfold without. by rewrite filter_cons, decide_True.
Qed.

Lemma remove_rep (t : hash_table) (order r : list positive) (hl : positive) :
  rep t order -> iter t order r -> hl ∈ order ->
  exists t', hash_remove_link hl t = Some t' /\ rep t' (without hl order) /\ iter t' (without hl order) (without hl r)
    /\ size t' = size t /\ forall q, key <$> mem t' !! q = key <$> mem t !! q.
Proof.
  intros R I Ho. pose proof (rep_slots _ _ R) as Hs. rewrite Forall_forall in Hs. pose proof (Hs hl Ho) as Hi.
  destruct (mem t !! hl) as [lk|] eqn:Hlk; [|unfold slot in Hi; rewrite Hlk in Hi; lia].
  set (i := slot (mem t) (size t) hl) in *. assert (Ei : hash (key lk) (size t) = i) by (unfold i, slot; by rewrite Hlk).
  destruct (rep_chains _ _ R i Hi) as (b & Hb & Hch). pose proof (NoDup_items (mem t) (size t) i order (rep_nodup _ _ R)) as Hn.
  assert (Hin : hl ∈ items_in (mem t) (size t) i order) by (by apply elem_of_items).
  pose proof (chain_length _ _ _ Hch Hn) as Hlen.
  destruct (remove_loop_stops (base.size (mem t)) hl lk t [] _ i b Hb Hch Hin ltac:(lia) Hlk) as (pre & suf & Hl & El).
  unfold hash_remove_link. rewrite Hlk. cbn [mbind option_bind]. rewrite Ei. change (InBucket i) with (place_after i []). rewrite El. cbn [app] in Hl.
  destruct (unlinked t order hl lk i pre suf R Hi Hl Hlk) as (t1 & -> & T1 & T2 & T3 & T4 & T0 & T6 & T7). cbn [mbind option_bind].
  assert (T5 : forall q, slot (mem t1) (size t) q = slot (mem t) (size t) q) by (intros q; by apply slot_keys).
  assert (C1 : chains t1 (without hl order)).
  { intros c Hc. rewrite T4 in *. rewrite (T7 c Hc), (items_in_ext _ (mem t)), items_without by done. destruct (decide (c = i /\ pre = [])) as [[-> ->]|E].
    - exists (next lk). split; [done|]. rewrite Hl in Hch. destruct Hch as (_ & k & Hk & Hch). rewrite Hlk in Hk. injection Hk as <-.
      rewrite Hl in Hn |- *. cbn [app] in Hn |- *. rewrite without_cons. apply (T6 i [hl]); try done. apply NoDup_cons in Hn as [Hn _].
      destruct suf as [|x suf]; [done|]. intros [= ->]. by apply Hn; left.
    - destruct (rep_chains _ _ R c Hc) as (bc & Hbc & Hcc). exists bc. split; [done|]. apply (T6 c []); try done.
      intros Hhd. destruct (items_in _ _ c _) as [|x l] eqn:Ec; [done|]. injection Hhd as ->.
      assert (Hx : hl ∈ items_in (mem t) (size t) c order) by (rewrite Ec; left). apply elem_of_items in Hx as [<- _].
      fold i in Ec. rewrite Hl in Ec. destruct pre as [|y pre]; [by apply E|]. injection Ec as -> Ec. rewrite Hl in Hn. apply NoDup_cons in Hn as [Hn _].
      apply Hn. apply elem_of_app. right. left. }
  destruct (iter_unlinked t t1 order r hl lk (rep_nodup _ _ R) I Hlk C1 T1 T2 T4 T5 T6) as (t2 & E2 & (S1 & S2 & S3) & I2). cbn zeta in E2. rewrite E2. cbn [mbind option_bind].
  eexists. split; [reflexivity|]. assert (Z2 : size t2 = size t) by (rewrite <- T4; unfold size; by rewrite S2).
  split; [|split; [done|split; [done|]]].
  - split.
    + apply NoDup_filter, R.
    + change (size (set_count _ t2)) with (size t2). cbn [mem set_count]. rewrite Z2, S1. apply Forall_forall. intros q Hq. rewrite T5.
      apply elem_of_without in Hq as [_ Hq]. by apply Hs.
    + cbn [count set_count]. rewrite S3, T3, (rep_count _ _ R), (length_without hl order (rep_nodup _ _ R) Ho). unfold wraps. dlia.
    + change (chains t2 (without hl order)). by apply (chains_same t1).
  - intros q. cbn [mem set_count]. by rewrite S1.
Qed.

(** ** A whole traversal *)

Lemma elem_of_from (m : gmap positive hash_link) (n c : Z) (order : list positive) (p : positive) :
  p ∈ from_slot m n order c <-> c <= slot m n p < n /\ p ∈ order.
Proof.
  unfold from_slot. rewrite list_elem_of_In, in_concat. setoid_rewrite in_map_iff. split.
  - intros (l & (i & <- & Hi%list_elem_of_In%elem_of_seqZ) & Hp%list_elem_of_In%elem_of_items). destruct Hp as [<- Hp]. split; [lia | done].
  - intros [H Hp]. exists (items_in m n (slot m n p) order). rewrite <- list_elem_of_In, elem_of_items. split; [|done].
    exists (slot m n p). split; [done|]. apply list_elem_of_In, elem_of_seqZ. lia.
Qed.

(** A traversal meets every item once. *)
Lemma from_slot_perm (t : hash_table) (order : list positive) : rep t order -> from_slot (mem t) (size t) order 0 ≡ₚ order.
Proof.
  intros R. apply NoDup_Permutation; [|apply R|].
  - unfold from_slot. generalize (NoDup_seqZ 0 (size t - 0)). induction (seqZ 0 (size t - 0)) as [|i l IH]; [constructor|].
    cbn [map concat]. intros [Hi Hn]%NoDup_cons. apply NoDup_app. split; [apply NoDup_items, R|]. split; [|by apply IH].
    intros p [<- _]%elem_of_items. rewrite list_elem_of_In, in_concat. setoid_rewrite in_map_iff.
    intros (l' & (j & <- & Hj%list_elem_of_In) & [E _]%list_elem_of_In%elem_of_items). congruence.
  - intros p. rewrite elem_of_from. pose proof (rep_slots _ _ R) as Hs. rewrite Forall_forall in Hs. naive_solver.
Qed.

(** What a client does during a traversal. *)
Inductive op := Next | Remove (p : positive).

Fixpoint walk (ops : list op) (t : hash_table) : option (list (option positive) * hash_table) :=
  match ops with
  | [] => Some ([], t)
  | Next :: ops => '(p, t) ← hash_next t; '(out, t) ← walk ops t; Some (p :: out, t)
  | Remove p :: ops => t ← hash_remove_link p t; walk ops t
  end.

(** The same on the list of the items that are still to come. *)
Fixpoint walk_items (ops : list op) (r : list positive) : list (option positive) :=
  match ops with
  | [] => []
  | Next :: ops => head r :: walk_items ops (tail r)
  | Remove p :: ops => walk_items ops (without p r)
  end.

Definition removed (ops : list op) : list positive := omap (fun o => match o with Remove p => Some p | Next => None end) ops.
Definition nexts (ops : list op) : nat := length (List.filter (fun o => match o with Next => true | Remove _ => false end) ops).

Definition rest_of (order ps : list positive) : list positive := fold_left (fun l p => without p l) ps order.

Lemma walk_refines (ops : list op) (t : hash_table) (order r : list positive) :
  rep t order -> iter t order r -> NoDup (removed ops) -> (forall p, p ∈ removed ops -> p ∈ order) ->
  exists t', walk ops t = Some (walk_items ops r, t') /\ rep t' (rest_of order (removed ops)).
Proof.
  revert t order r. induction ops as [|[|p] ops IH]; intros t order r R I Hn Ho; cbn [walk walk_items].
  - by exists t.
  - destruct (next_iter t order r R I) as (t1 & -> & S & I1). cbn [mbind option_bind].
    destruct (IH t1 order (tail r)) as (t' & -> & R'); [by apply (rep_same t) | done | done | done |]. by exists t'.
  - change (removed (Remove p :: ops)) with (p :: removed ops) in *. apply NoDup_cons in Hn as [Hp Hn].
    destruct (remove_rep t order r p R I) as (t1 & -> & R1 & I1 & _); [apply Ho; left|]. cbn [mbind option_bind rest_of fold_left].
    apply IH; try done. intros q Hq. apply elem_of_without. split; [congruence | apply Ho; by right].
Qed.

Lemma elem_of_tail {A : Type} (x : A) (l : list A) : x ∈ tail l -> x ∈ l.
Proof. destruct l; [done|]. by right. Qed.

Lemma visited_from (ops : list op) (r : list positive) (p : positive) : Some p ∈ walk_items ops r -> p ∈ r.
Proof.
  revert r. induction ops as [|[|q] ops IH]; intros r; cbn [walk_items]; [by intros ?%not_elem_of_nil| |].
  - intros [E|H]%elem_of_cons; [by destruct r as [|x r]; [done|]; injection E as ->; left | by apply elem_of_tail, IH].
  - by intros [_ H]%IH%elem_of_without.
Qed.

Lemma visited_once (ops : list op) (r : list positive) : NoDup r -> NoDup (omap id (walk_items ops r)).
Proof.
  revert r. induction ops as [|[|q] ops IH]; intros r Hr; cbn [walk_items]; [constructor| |by apply IH, NoDup_filter].
  destruct r as [|x r]; cbn; [by apply IH|]. apply NoDup_cons in Hr as [Hx Hr]. apply NoDup_cons. split; [|by apply IH].
  intros (y & Hy & E)%list_elem_of_omap. cbn in E. subst y. by apply visited_from in Hy.
Qed.

Lemma visited_all (ops : list op) (r : list positive) (p : positive) :
  None ∈ walk_items ops r -> p ∈ r -> p ∉ removed ops -> Some p ∈ walk_items ops r.
Proof.
  revert r. induction ops as [|[|q] ops IH]; intros r; cbn [walk_items]; [by intros ?%not_elem_of_nil| |].
  - destruct r as [|x r]; [by intros _ ?%not_elem_of_nil|]. cbn [head tail].
    intros [?|Hn]%elem_of_cons [->|Hp]%elem_of_cons Hr; [done | done | by left | by right; apply IH].
  - change (removed (Remove q :: ops)) with (q :: removed ops). intros Hn Hp [Hq Hr]%not_elem_of_cons.
    apply IH; [done | by apply elem_of_without | done].
Qed.

(** An item does not come up once it is removed. *)
Lemma removed_not_visited (a b : list op) (r : list positive) (p : positive) :
  Some p ∉ drop (nexts a) (walk_items (a ++ Remove p :: b) r).
Proof.
  revert r. induction a as [|[|q] a IH]; intros r; cbn [app walk_items].
  - cbn. by intros [H _]%visited_from%elem_of_without.
  - change (nexts (Next :: a)) with (Datatypes.S (nexts a)). cbn [drop]. apply IH.
  - apply IH.
Qed.

(** C20: A traversal that removes items on the way, whatever the order of [hash_next] and [hash_remove_link], does not
    fail: it gives no item twice, only items of the table and none after its removal, and when it has come to NULL it has
    given every item that was not removed; the table is then the one without the removed items. *)
Theorem traversal (t : hash_table) (order : list positive) (ops : list op) :
  rep t order -> tnext t = None -> 0 < size t -> NoDup (removed ops) -> (forall p, p ∈ removed ops -> p ∈ order) ->
  exists t1 out t', hash_first t = Some t1 /\ walk ops t1 = Some (out, t') /\ rep t' (rest_of order (removed ops))
    /\ NoDup (omap id out) /\ (forall p, Some p ∈ out -> p ∈ order)
    /\ (forall a b p, ops = a ++ Remove p :: b -> Some p ∉ drop (nexts a) out)
    /\ (None ∈ out -> forall p, p ∈ order -> p ∉ removed ops -> Some p ∈ out).
Proof.
  intros R Hn Hs Hr Ho. destruct (first_iter t order R Hn Hs) as (t1 & -> & S & I). pose proof (from_slot_perm _ _ R) as P.
  destruct (walk_refines ops t1 order _ (rep_same _ _ _ S R) I Hr Ho) as (t' & Hw & R').
  exists t1, (walk_items ops (from_slot (mem t) (size t) order 0)), t'. split; [done|]. split; [done|]. split; [done|]. split; [|split; [|split]].
  - apply visited_once. rewrite P. apply R.
  - intros p Hp%visited_from. by rewrite P in Hp.
  - intros a b p ->. apply removed_not_visited.
  - intros H p Hp Hpr. apply visited_all; [done | by rewrite P | done].
Qed.

(** hashFreeItems frees every item once. *)
Lemma collect_all (r : list positive) (fuel : nat) (t : hash_table) (order : list positive) (i : Z) :
  rep t order -> iter t order r -> (length r < fuel)%nat -> i + Z.of_nat (length r) = count t ->
  exists t', collect fuel i t = Some (r, t') /\ same_table t t'.
Proof.
  revert fuel t i. induction r as [|p r IH]; intros fuel t i R I Hf Hi; (destruct fuel as [|fuel]; [cbn in Hf; lia|]); cbn [collect];
    destruct (next_iter t order _ R I) as (t1 & -> & S & I1); cbn [mbind option_bind head].
  - by exists t1.
  - pose proof S as (_ & _ & E). cbn [length] in Hi, Hf. rewrite (proj2 (Z.ltb_lt i (count t1))) by lia. cbn [tail] in I1.
    destruct (IH fuel t1 (i + 1)) as (t' & -> & S'); [by apply (rep_same t) | done | lia | lia |]. exists t'. split; [done|].
    destruct S as (? & ? & ?), S' as (? & ? & ?). unfold same_table. by repeat split; congruence.
Qed.

Lemma order_length (t : hash_table) (order : list positive) : rep t order -> (length order <= base.size (mem t))%nat.
Proof.
  intros [R1 R2 _ _]. rewrite <- size_dom, <- (size_list_to_set (C := gset positive) order) by done. apply subseteq_size. intros p Hp.
  apply elem_of_list_to_set in Hp. rewrite Forall_forall in R2. apply R2 in Hp. unfold slot in Hp.
  destruct (mem t !! p) eqn:E; [by apply elem_of_dom_2 in E | lia].
Qed.

Lemma free_items {S : Type} (free_func : positive -> S -> S) (s : S) (t : hash_table) (order : list positive) :
  rep t order -> tnext t = None -> 0 < size t -> Z.of_nat (length order) < 2 ^ 31 ->
  exists ls t', hashFreeItems free_func s t = Some (fold_left (fun s l => free_func l s) ls s, t') /\ ls ≡ₚ order.
Proof.
  intros R Hn Hs Hl. unfold hashFreeItems. destruct (first_iter t order R Hn Hs) as (t1 & -> & S1 & I). cbn [mbind option_bind].
  pose proof (from_slot_perm _ _ R) as P. pose proof (Permutation_length P) as Pl. pose proof S1 as (E1 & _ & E3).
  destruct (collect_all (from_slot (mem t) (size t) order 0) (Datatypes.S (Datatypes.S (base.size (mem t1)))) t1 order 0) as (t' & -> & _).
  - by apply (rep_same t).
  - done.
  - rewrite E1, Pl. pose proof (order_length _ _ R). lia.
  - rewrite E3, (rep_count _ _ R), Pl. unfold wraps. dlia.
  - cbn [mbind option_bind]. by eexists _, t'.
Qed.
End Hash.

(** ** The hash of a string *)

Lemma HASH4_8_ok (h : Z) (key : list Z) : (8 <= length key)%nat -> HASH4_8 h key = Some (fold_left HASH4 (take 8 key) h, drop 8 key).
Proof.
  intros Hl. do 8 (destruct key as [|? key]; [cbn [length] in Hl; lia|]). unfold HASH4_8. cbn [take drop]. by generalize HASH4.
Qed.

Lemma hash4_loop_ok (n : nat) (h : Z) (key : list Z) : length key = (8 * n)%nat -> hash4_loop n h key = Some (fold_left HASH4 key h).
Proof.
  revert h key. induction n as [|n IH]; intros h key Hl; [by destruct key|]. cbn [hash4_loop]. rewrite HASH4_8_ok, IH by (rewrite ?length_drop; lia).
  by rewrite <- fold_left_app, take_drop.
Qed.

(** hash4 reads its string to the end and not beyond, and its unrolled loop computes, modulo the size of the table, the
    plain fold of its step over all bytes from the first to the last. *)
Lemma hash4_folds (data : list Z) (size : Z) : hash4 data size = Some (fold_left HASH4 data 0 mod size).
Proof.
  unfold hash4. change 7 with (Z.ones 3). rewrite Z.land_ones, Z.shiftr_div_pow2 by lia. change (2 ^ 3) with 8.
  set (n := Z.to_nat (Z.of_nat (length data) mod 8)). rewrite hash4_loop_ok.
  - cbn [fmap option_fmap option_map]. by rewrite <- fold_left_app, take_drop.
  - rewrite length_drop. unfold n. dlia.
Qed.
End Hash.

(** ** Tables of strings *)

Module StrTable.

(** What a table of strings promises: lookups find the item that was put in last, and an item is in the table until
    it is taken out. *)
Class StringTable (T : Type) := {
  st_new : T;
  st_insert : list Z -> T -> option (positive * T);
  st_lookup : list Z -> T -> option (option positive);
  st_delete : positive -> T -> option T;
  st_rep : T -> list (positive * list Z) -> Prop;
  st_new_rep : st_rep st_new [];
  st_insert_rep t l k : st_rep t l -> exists p t', st_insert k t = Some (p, t') /\ p ∉ (l.*1) /\ st_rep t' ((p, k) :: l);
  st_lookup_rep t l k : st_rep t l -> st_lookup k t = Some (fst <$> List.find (fun e => bool_decide (k = e.2)) l);
  st_delete_rep t l p : st_rep t l -> p ∈ l.*1 -> exists t', st_delete p t = Some t' /\ st_rep t' (filter (fun e => e.1 <> p) l)
}.

(** The table of filters/lib.c. *)
Definition strcmp (a b : list Z) : bool := bool_decide (a = b).
Definition hash4 (s : list Z) (n : Z) : Z := default 0 (Hash.hash4 s n).
Definition table : Type := @Hash.hash_table (list Z).

(** init_hash *)
Definition init_hash : table := Hash.hash_create ∅ 229.

(** A link is allocated and joined. *)
Definition insert (k : list Z) (t : table) : option (positive * table) :=
  let p := fresh (dom (Hash.mem t)) in
  t ← Hash.hash_join hash4 p (Hash.set_mem (<[p := Hash.Link k None]> (Hash.mem t)) t);
  Some (p, t).

(** A link is removed and freed. *)
Definition remove (p : positive) (t : table) : option table :=
  t ← Hash.hash_remove_link hash4 p t;
  Some (Hash.set_mem (delete p (Hash.mem t)) t).

Record strings (t : table) (l : list (positive * list Z)) : Prop := {
  s_rep : Hash.rep hash4 t l.*1;
  s_keys : Forall (fun e => Hash.key <$> Hash.mem t !! e.1 = Some e.2) l;
  s_size : Hash.size t = 229;
  s_next : Hash.tnext t = None
}.

Lemma hash4_range (s : list Z) (n : Z) : 0 < n -> 0 <= hash4 s n < n.
Proof. intros H. unfold hash4. rewrite Hash.hash4_folds. cbn. by apply Z.mod_pos_bound. Qed.

Lemma init_strings : strings init_hash [].
Proof. split; [by apply Hash.created_rep | constructor | done | done]. Qed.

Lemma insert_strings (t : table) (l : list (positive * list Z)) (k : list Z) :
  strings t l -> exists p t', insert k t = Some (p, t') /\ p ∉ (l.*1) /\ strings t' ((p, k) :: l).
Proof.
  intros [R Hk Hs Hn]. unfold insert. set (p := fresh (dom (Hash.mem t))). assert (Hp : Hash.mem t !! p = None) by (apply not_elem_of_dom, is_fresh).
  assert (Hf : forall q, q ∈ l.*1 -> q <> p).
  { intros q ([q' k'] & -> & Hq)%list_elem_of_fmap E. cbn in E. subst q'. rewrite Forall_forall in Hk. apply Hk in Hq. cbn in Hq. by rewrite Hp in Hq. }
  set (t0 := Hash.set_mem (<[p := Hash.Link k None]> (Hash.mem t)) t).
  assert (R0 : Hash.rep hash4 t0 l.*1) by (apply Hash.rep_frame; [intros q Hq%Hf; by rewrite lookup_insert_ne | done]).
  destruct (Hash.join_rep hash4 t0 l.*1 p (Hash.Link k None)) as (t' & E & R' & Hs' & Hn' & _ & Hm).
  - done.
  - apply lookup_insert_eq.
  - intros Hin. by apply Hf in Hin.
  - apply hash4_range. change (Hash.size t0) with (Hash.size t). lia.
  - rewrite E. cbn [mbind option_bind]. exists p, t'. split; [done|]. split; [intros Hin; by apply Hf in Hin|]. split.
    + done.
    + constructor; [rewrite Hm; cbn; by rewrite lookup_insert_eq|]. rewrite Forall_forall in Hk |- *. intros e He. rewrite Hm. cbn.
      rewrite lookup_insert_ne; [by apply Hk|]. intros E'. apply (Hf e.1); [by apply list_elem_of_fmap_2 | done].
    + by rewrite Hs'.
    + by rewrite Hn'.
Qed.

Lemma find_strings (m : gmap positive (@Hash.hash_link (list Z))) (k : list Z) (l : list (positive * list Z)) :
  Forall (fun e => Hash.key <$> m !! e.1 = Some e.2) l -> Hash.found strcmp m k l.*1 = fst <$> List.find (fun e => strcmp k e.2) l.
Proof.
  unfold Hash.found. induction 1 as [|e l He _ IH]; [done|]. cbn [fmap list_fmap List.find]. destruct (m !! e.1); [|done].
  injection He as ->. destruct (strcmp k e.2); [done|exact IH].
Qed.

Lemma lookup_strings (t : table) (l : list (positive * list Z)) (k : list Z) :
  strings t l -> Hash.hash_lookup strcmp hash4 k t = Some (fst <$> List.find (fun e => strcmp k (e.2)) l).
Proof.
  intros [R Hk Hs Hn]. rewrite (Hash.lookup_rep _ _ _ l.*1); [by rewrite find_strings | | apply hash4_range; lia | done].
  intros k' n E. unfold strcmp in E. by apply bool_decide_eq_true_1 in E as ->.
Qed.

Lemma remove_strings (t : table) (l : list (positive * list Z)) (p : positive) :
  strings t l -> p ∈ l.*1 -> exists t', remove p t = Some t' /\ strings t' (filter (fun e => e.1 <> p) l).
Proof.
  intros [R Hk Hs Hn] Hp. unfold remove.
  destruct (Hash.remove_rep hash4 t l.*1 [] p R ltac:(by left) Hp) as (t' & -> & R' & I' & Hs' & Hm). cbn [mbind option_bind].
  eexists. split; [reflexivity|]. assert (El : (filter (fun e => e.1 <> p) l).*1 = Hash.without p l.*1).
  { unfold Hash.without. clear. induction l as [|e l IH]; [done|]. cbn [fmap list_fmap]. rewrite !filter_cons. case_decide; cbn [fmap list_fmap]; [by f_equal | done]. }
  split.
  - rewrite El. apply Hash.rep_frame; [|done]. intros q [Hq _]%Hash.elem_of_without. by rewrite lookup_delete_ne.
  - cbn [Hash.mem Hash.set_mem]. rewrite Forall_forall in Hk |- *. intros e [He Hin]%list_elem_of_filter.
    rewrite lookup_delete_ne by done. by rewrite Hm, Hk.
  - change (Hash.size t' = 229). by rewrite Hs'.
  - cbn [Hash.tnext Hash.set_mem]. destruct I' as [[E _]|(l1 & l2 & _ & _ & _ & Hne & E)]; [done|]. symmetry in E. by apply app_eq_nil in E as [? _].
Qed.

#[export] Instance hash_strings : StringTable table := {|
  st_new := init_hash;
  st_insert := insert;
  st_lookup := Hash.hash_lookup strcmp hash4;
  st_delete := remove;
  st_rep := strings;
  st_new_rep := init_strings;
  st_insert_rep := insert_strings;
  st_lookup_rep := lookup_strings;
  st_delete_rep := remove_strings
|}.
End StrTable.

(** ** An example *)

Module Demo.

Definition cmp (a b : Z) : bool := a =? b.
Definition hash (k n : Z) : Z := k mod n.

(** Two buckets; 1 was joined first, then 2 and 3. *)
Definition t : option Hash.hash_table :=
  t ← Hash.hash_join hash 1%positive (Hash.hash_create {[1%positive := Hash.Link 10 None; 2%positive := Hash.Link 12 None; 3%positive := Hash.Link 11 None]} 2);
  t ← Hash.hash_join hash 2%positive t;
  Hash.hash_join hash 3%positive t.

(** The item that comes next is removed, and so is the one that was just given. *)
Definition ops : list Hash.op := [Hash.Next; Hash.Remove 2; Hash.Remove 1; Hash.Next; Hash.Next].

Lemma walked :
  (t ← t; t ← Hash.hash_first t; fst <$> Hash.walk hash ops t) = Some [Some 2%positive; Some 3%positive; None].
Proof. vm_compute. reflexivity. Qed.

Lemma joined (u : Hash.hash_table) (order : list positive) (p : positive) (k : Z) :
  Hash.rep hash u order -> Hash.size u = 2 -> Hash.key <$> Hash.mem u !! p = Some k -> p ∉ order ->
  exists u', Hash.hash_join hash p u = Some u' /\ Hash.rep hash u' (p :: order) /\ Hash.size u' = 2 /\ Hash.tnext u' = Hash.tnext u
    /\ forall q, Hash.key <$> Hash.mem u' !! q = Hash.key <$> Hash.mem u !! q.
Proof.
  intros R Hs Hk Hp. destruct (Hash.mem u !! p) as [l|] eqn:El; [|done].
  destruct (Hash.join_rep hash u order p l R El Hp) as (u' & E & R' & Hs' & Hn & _ & Hm).
  - rewrite Hs. by apply Z.mod_pos_bound.
  - exists u'. by rewrite Hs'.
Qed.

Lemma represented : exists t1, t = Some t1 /\ Hash.rep hash t1 [3; 2; 1]%positive /\ Hash.size t1 = 2 /\ Hash.tnext t1 = None.
Proof.
  unfold t. set (t0 := Hash.hash_create _ 2). pose proof (Hash.created_rep hash _ 2 ltac:(lia) : Hash.rep hash t0 []) as R0.
  destruct (joined t0 [] 1 10 R0) as (t1 & -> & R1 & S1 & N1 & M1); [done | done | by apply not_elem_of_nil |]. cbn [mbind option_bind].
  destruct (joined t1 [1%positive] 2 12 R1 S1) as (t2 & -> & R2 & S2 & N2 & M2); [by rewrite M1 | by apply (bool_decide_unpack _) |]. cbn [mbind option_bind].
  destruct (joined t2 [2; 1]%positive 3 11 R2 S2) as (t3 & E3 & R3 & S3 & N3 & M3); [by rewrite M2, M1 | by apply (bool_decide_unpack _) |].
  exists t3. split; [exact E3|]. split; [exact R3|]. split; [exact S3|]. by rewrite N3, N2, N1.
Qed.

Lemma traversal_witness :
  exists t0 t1 out t', t = Some t0 /\ Hash.hash_first t0 = Some t1 /\ Hash.walk hash ops t1 = Some (out, t')
    /\ Hash.rep hash t' [3%positive] /\ NoDup (omap id out).
Proof.
  destruct represented as (t0 & E0 & R & Hs & Hn). exists t0.
  destruct (Hash.traversal hash t0 [3; 2; 1]%positive ops R Hn) as (t1 & out & t' & H1 & H2 & H3 & H4 & _).
  - rewrite Hs. reflexivity.
  - apply (bool_decide_unpack _). reflexivity.
  - intros p. cbn. rewrite !elem_of_cons. tauto.
  - exists t1, out, t'. split; [exact E0|]. split; [exact H1|]. split; [exact H2|]. split; [exact H3 | exact H4].
Defined.
End Demo.
