(* ===== verification/Clamav.v ===== *)
(** * Clamav: the content filter that scans for viruses

    v3.0/src/squid-mybox/filters/cfmod_clamav.c and the temporary files of
    filters/lib.c, with [moduleUrlClean] of src/module.c.  The table of temporary
    files is any [StringTable] (Hash.v has the one of squid).  libclamav's scan of a
    file is a parameter; what the system and the library answer in one call of
    the filter is a record.  [None] is undefined behaviour of the C program.

    Not modelled: the text of the log; __mkdir, whose loop is that of xmkdir
    (Xmkdir.v): whether the directory could be made shows in the answer of
    tempnam; the freeing of memory. *)

From S2P Require Import Prelude CString PatFile ContentFilter Modules Escape Hash.

Module Clamav.

Import StrTable.

(** ** src/module.c, src/tools.c *)

Definition MAX_URL : Z := 4096.

(** A byte of the string as an unsigned char. *)
Definition stringHasCntl (s : list Z) : bool := existsb (fun c => (c <=? 31) || ((127 <=? c) && (c <=? 159))) s.

Definition moduleUrlClean (strip_query_terms : bool) (uri : list Z) : list Z :=
  let buf := take (Z.to_nat (MAX_URL - 1)) uri in
  let buf := if strip_query_terms then match strchr buf 63 with Some p => take (S p) buf | None => buf end else buf in
  if stringHasCntl buf then Rfc1738.rfc1738_escape_unescaped buf else buf.

(** ** Data *)

(** What [cl_scandesc] returns: CL_CLEAN, CL_VIRUS with the name, or another code. *)
Inductive verdict := Clean | Virus (virname : list Z) | ScanError (code : Z).

Record limits := Limits { maxfiles : Z; maxfilesize : Z; maxreclevel : Z; maxratio : Z; archivememlim : Z }.

(** What the system and libclamav answer during one call of the filter. *)
Record answers := Answers {
  db_changed : bool;                 (** [cl_statchkdir] *)
  loaded : Z * option Z;             (** [cl_loaddbdir]: its result and the node it leaves *)
  built : Z * option Z;              (** [cl_build]: its result and the node it leaves *)
  tempname : option (list Z);        (** [tempnam] *)
  fopen_ok : bool;
  open_ok : bool;
  fstat_ok : bool;
  lseek_ok : bool;
  close_ok : bool;
  accepted : nat;                    (** the bytes that [fwrite] and [fclose] bring to the file *)
  unlink_ok : bool
}.

(** The arguments of [execute_action]. *)
Record action_call := ActionCall { command : list Z; a_url : list Z; a_virname : list Z; a_ctype : option (list Z); a_client : list Z; a_user : option (list Z) }.

(** A filter object: [limits] is a pointer. *)
Record filterObject := FilterObject { f_url : list Z; actionPath : option (list Z); f_limits : option limits; min_file_size : Z; max_file_size : Z }.

Record caller := Caller { content_type : option (list Z); client : list Z; user : option (list Z) }.

Section Clamav.
Context {T : Type} `{StringTable T}.
(** [cl_scandesc]: the node, the limits, the file and where the descriptor stands. *)
Variable cl_scandesc : option Z -> option limits -> list Z -> Z -> verdict.

(** The module, the temporary files, and what was done outside. *)
Record world := World {
  table : T;
  filename : gmap positive (list Z);
  files : gmap (list Z) (list Z);
  root : option Z;
  leaked : Z;
  acted : list action_call
}.

Definition set_table (t : T) (w : world) : world := World t (filename w) (files w) (root w) (leaked w) (acted w).
Definition set_filename (n : gmap positive (list Z)) (w : world) : world := World (table w) n (files w) (root w) (leaked w) (acted w).
Definition set_files (f : gmap (list Z) (list Z)) (w : world) : world := World (table w) (filename w) f (root w) (leaked w) (acted w).
Definition set_root (r : option Z) (w : world) : world := World (table w) (filename w) (files w) r (leaked w) (acted w).
Definition leak (w : world) : world := World (table w) (filename w) (files w) (root w) (leaked w + 1) (acted w).
Definition act (a : action_call) (w : world) : world := World (table w) (filename w) (files w) (root w) (leaked w) (acted w ++ [a]).

(** ** filters/lib.c *)

(** [key] has room for [keylen] bytes and the NUL; [strncpy] leaves it without a
    NUL when the url fills it, and [strncat] then reads and writes beyond it. *)
Definition make_key (url client_addr : list Z) : option (list Z) :=
  let keylen := (Nat.min (length url) 1024 + Nat.min (length client_addr) 1024)%nat in
  if (length url <? keylen)%nat && (length url + Nat.min (length client_addr) keylen <=? keylen)%nat
  then Some (url ++ take keylen client_addr) else None.

(** A key of a url and of the text of an address fits its buffer exactly if the url has
    1024 bytes at most; a longer one runs over it. *)
Definition address_text (client_addr : list Z) : Prop := (0 < length client_addr <= 1024)%nat.

Lemma make_key_ok (url client_addr : list Z) :
  (length url <= 1024)%nat -> address_text client_addr -> make_key url client_addr = Some (url ++ client_addr).
Proof.
  intros Hu Hc. unfold address_text in Hc. unfold make_key. rewrite !Nat.min_l by lia. rewrite (proj2 (Nat.ltb_lt _ _)) by lia. cbn [andb].
  rewrite (proj2 (Nat.leb_le _ _)) by lia. by rewrite take_ge by lia.
Qed.

Lemma long_url (url client_addr : list Z) : (1024 < length url)%nat -> client_addr <> [] -> make_key url client_addr = None.
Proof.
  intros Hu Hc. unfold make_key. rewrite (Nat.min_r (length url)) by lia.
  destruct (Nat.ltb_spec (length url) (1024 + Nat.min (length client_addr) 1024)); [|done]. cbn [andb].
  rewrite (proj2 (Nat.leb_gt _ _)); [done|]. destruct client_addr; [done|]. cbn [length] in *. lia.
Qed.

Definition query_hash (url client_addr : list Z) (w : world) : option (option positive) :=
  key ← make_key url client_addr; st_lookup key (table w).

(** [if (buf[0] != ' ') fwrite(buf, 1, len, f)] *)
Definition written (buf : list Z) : list Z := match buf with c :: _ => if c =? 32 then [] else buf | [] => [] end.

Definition append_file (a : answers) (buf : list Z) (lp : positive) (w : world) : option (option (list Z) * world) :=
  nm ← filename w !! lp;
  if fopen_ok a then
    let old := default [] (files w !! nm) in
    Some (Some nm, set_files (<[nm := old ++ take (accepted a) (written buf)]> (files w)) w)
  else Some (None, w).

Definition update_file (a : answers) (url client_addr buf : list Z) (w : world) : option (option (list Z) * world) :=
  key ← make_key url client_addr;
  lp ← st_lookup key (table w);
  match lp with
  | Some lp => append_file a buf lp w
  | None =>
      match tempname a with
      | None => Some (None, w)
      | Some tmpfile =>
          '(lp, t) ← st_insert key (table w);
          append_file a buf lp (set_filename (<[lp := tmpfile]> (filename w)) (set_table t w))
      end
  end.

Definition remove_file (a : answers) (url client_addr : list Z) (w : world) : option world :=
  lp ← query_hash url client_addr w;
  match lp with
  | None => Some w
  | Some lp =>
      t ← st_delete lp (table w);
      nm ← filename w !! lp;
      let fs := if unlink_ok a then delete nm (files w) else files w in
      Some (set_files fs (set_filename (delete lp (filename w)) (set_table t w)))
  end.

(** ** cfFilter *)

Definition MSG_BUFFER_LENGTH : nat := 1024.

(** [snprintf] into [msg]. *)
Definition message (virname : list Z) : list Z :=
  snprintf MSG_BUFFER_LENGTH (bytes "VIRUS '" ++ virname ++ bytes "' REMOVED BY MYBOX FIREWALL SYSTEM").

(** The message, cut or filled with blanks to [len] bytes. *)
Definition notice (virname : list Z) (len : nat) : list Z :=
  let msglen := Nat.min (length (message virname)) len in take msglen (message virname) ++ replicate (len - msglen) 32.

(** The database is loaded again if it changed; [false] if that fails. *)
Definition reload (a : answers) (w : world) : bool * world :=
  if db_changed a then
    let w := set_root None w in
    let w := set_root (loaded a).2 w in
    if negb ((loaded a).1 =? 0) then (false, w)
    else
      let w := set_root (built a).2 w in
      if negb ((built a).1 =? 0) then (false, w) else (true, w)
  else (true, w).

(** The temporary file with the new bytes is scanned; [None] inside is [return -1]. *)
Definition scan (f : filterObject) (a : answers) (c : caller) (buf : list Z) (w : world) : option (option verdict * world) :=
  '(tmpfile, w) ← update_file a (f_url f) (client c) buf w;
  match tmpfile with
  | None => Some (None, w)
  | Some tmpfile =>
      if negb (open_ok a) then Some (None, w)
      else if negb (fstat_ok a) then Some (None, leak w)
      else
        let content := default [] (files w !! tmpfile) in
        let st_size := strlen content in
        let offset := if (max_file_size f <? st_size) && lseek_ok a then st_size - max_file_size f else 0 in
        let ret := if st_size =? 0 then Clean else cl_scandesc (root w) (f_limits f) content offset in
        if negb (close_ok a) then Some (None, w) else Some (Some ret, w)
  end.

(** What is appended to [target] on a verdict. *)
Definition finish (f : filterObject) (a : answers) (c : caller) (buf : list Z) (ret : verdict) (w : world) : option (Z * list Z * world) :=
  match ret with
  | Clean => w ← remove_file a (f_url f) (client c) w; Some (strlen buf, buf, w)
  | Virus virname =>
      w ← remove_file a (f_url f) (client c) w;
      let w := match actionPath f with
               | Some cmd => act (ActionCall cmd (f_url f) virname (content_type c) (client c) (user c)) w
               | None => w end in
      Some (strlen buf, notice virname (length buf), w)
  | ScanError _ => Some (strlen buf, buf, w)
  end.

(** [buf] with its [len]; no buffer is [len] = -1, the end of the reply.  The
    result, what is appended to [target], and the world. *)
Definition cfFilter (f : filterObject) (a : answers) (c : caller) (buf : option (list Z)) (w : world) : option (Z * list Z * world) :=
  match buf with
  | None => w ← remove_file a (f_url f) (client c) w; Some (0, [], w)
  | Some [] => Some (0, [], w)
  | Some buf =>
      let '(ok, w) := reload a w in
      if negb ok then Some (-1, [], w)
      else if (min_file_size f <=? strlen buf) && (strlen buf <=? max_file_size f) then
        '(ret, w) ← scan f a c buf w;
        match ret with None => Some (-1, [], w) | Some ret => finish f a c buf ret w end
      else w ← remove_file a (f_url f) (client c) w; finish f a c buf Clean w
  end.

(** A reply in chunks, as moduleCFilter hands them over; it stops at a negative result. *)
Fixpoint cfFilter_all (f : filterObject) (c : caller) (l : list (answers * list Z)) (w : world) : option (Z * list Z * world) :=
  match l with
  | [] => Some (0, [], w)
  | (a, buf) :: l =>
      '(r, out, w) ← cfFilter f a c (Some buf) w;
      if r <? 0 then Some (-1, out, w) else '(r, out', w) ← cfFilter_all f c l w; Some (r, out ++ out', w)
  end.

(** ** The temporary files *)

(** Every entry has its file name, and no key is there twice. *)
Record wf (w : world) (l : list (positive * list Z)) : Prop := {
  wf_rep : st_rep (table w) l;
  wf_keys : NoDup (l.*2);
  wf_names : forall p, p ∈ l.*1 <-> is_Some (filename w !! p)
}.

Lemma wf_ext (w w' : world) (l : list (positive * list Z)) : table w' = table w -> filename w' = filename w -> wf w l -> wf w' l.
Proof. intros E1 E2 [W1 W2 W3]. split; [by rewrite E1 | done | by setoid_rewrite E2]. Qed.

Lemma found_key (k : list Z) (l : list (positive * list Z)) (p : positive) :
  fst <$> List.find (fun e => bool_decide (k = e.2)) l = Some p -> (p, k) ∈ l.
Proof.
  intros ([q k'] & Hf & E)%fmap_Some. apply List.find_some in Hf as [Hin Hk%bool_decide_eq_true_1]. cbn in *. subst. by apply list_elem_of_In.
Qed.

Lemma not_found (k : list Z) (l : list (positive * list Z)) : fst <$> List.find (fun e => bool_decide (k = e.2)) l = None -> k ∉ l.*2.
Proof.
  intros Hf%fmap_None (e & -> & He%list_elem_of_In)%list_elem_of_fmap. apply (List.find_none _ _ Hf) in He. by apply bool_decide_eq_false_1 in He.
Qed.

Lemma find_absent (k : list Z) (l : list (positive * list Z)) : k ∉ l.*2 -> List.find (fun e => bool_decide (k = e.2)) l = None.
Proof.
  intros Hk. destruct (List.find _ l) as [e|] eqn:E; [|done]. exfalso. apply Hk.
  apply List.find_some in E as [Hin Hb%bool_decide_eq_true_1]. subst. apply list_elem_of_fmap_2. by apply list_elem_of_In.
Qed.

(** What is left when an entry is taken out. *)
Lemma wf_delete (w : world) (l : list (positive * list Z)) (p : positive) (k : list Z) (t : T) (w' : world) :
  wf w l -> (p, k) ∈ l -> st_rep t (filter (fun e => e.1 <> p) l) -> table w' = t -> filename w' = delete p (filename w) ->
  exists l', wf w' l' /\ k ∉ l'.*2.
Proof.
  intros [W1 W2 W3] Hp Ht E1 E2. exists (filter (fun e => e.1 <> p) l). split; [split|].
  - by rewrite E1.
  - eapply sublist_NoDup; [exact W2|]. apply fmap_sublist, sublist_filter.
  - intros q. rewrite E2, list_elem_of_fmap. split.
    + intros (e & -> & [He Hin]%list_elem_of_filter). rewrite lookup_delete_ne by done. apply W3. by apply list_elem_of_fmap_2.
    + intros Hq. destruct (decide (p = q)) as [->|E]; [rewrite lookup_delete_eq in Hq; by destruct Hq|]. rewrite lookup_delete_ne in Hq by done.
      apply W3, list_elem_of_fmap in Hq as (e & -> & He). exists e. split; [done|]. apply list_elem_of_filter. by split.
  - intros (e & -> & [He Hin]%list_elem_of_filter)%list_elem_of_fmap. apply He.
    apply list_elem_of_lookup in Hin as [i Hi], Hp as [j Hj]. assert (i = j) as ->.
    { apply (NoDup_lookup _ i j e.2 W2); rewrite list_lookup_fmap; by rewrite ?Hi, ?Hj. }
    rewrite Hi in Hj. injection Hj as ->. done.
Qed.

Lemma remove_file_wf (a : answers) (url client_addr k : list Z) (w : world) (l : list (positive * list Z)) :
  make_key url client_addr = Some k -> wf w l ->
  exists w' l', remove_file a url client_addr w = Some w' /\ wf w' l' /\ k ∉ (l'.*2) /\ root w' = root w /\ acted w' = acted w.
Proof.
  intros Hk W. unfold remove_file, query_hash. rewrite Hk. cbn [mbind option_bind]. rewrite (st_lookup_rep _ _ k (wf_rep _ _ W)). cbn [mbind option_bind].
  destruct (fst <$> _) as [p|] eqn:Ef.
  - apply found_key in Ef. assert (Hp : p ∈ l.*1) by (by apply (list_elem_of_fmap_2 fst _ (p, k))).
    destruct (st_delete_rep _ _ p (wf_rep _ _ W) Hp) as (t & -> & Ht). cbn [mbind option_bind].
    destruct (proj1 (wf_names _ _ W p) Hp) as [nm ->]. cbn [mbind option_bind].
    eexists. destruct (wf_delete w l p k t (set_files (if unlink_ok a then delete nm (files w) else files w) (set_filename (delete p (filename w)) (set_table t w))) W Ef Ht eq_refl eq_refl)
      as (l' & W' & Hl'). exists l'. by split.
  - exists w, l. split; [done|]. split; [done|]. split; [by apply not_found | done].
Qed.

(** Without an entry nothing is removed. *)
Lemma remove_file_absent (a : answers) (url client_addr k : list Z) (w : world) (l : list (positive * list Z)) :
  make_key url client_addr = Some k -> wf w l -> k ∉ l.*2 -> remove_file a url client_addr w = Some w.
Proof.
  intros Hk W Hl. unfold remove_file, query_hash. rewrite Hk. cbn [mbind option_bind]. rewrite (st_lookup_rep _ _ k (wf_rep _ _ W)).
  by rewrite (find_absent _ _ Hl).
Qed.

Lemma append_file_wf (a : answers) (buf : list Z) (p : positive) (w : world) (l : list (positive * list Z)) :
  wf w l -> p ∈ l.*1 -> exists r w', append_file a buf p w = Some (r, w') /\ wf w' l /\ root w' = root w /\ acted w' = acted w.
Proof.
  intros W Hp. unfold append_file. destruct (proj1 (wf_names _ _ W p) Hp) as [nm ->]. cbn [mbind option_bind]. destruct (fopen_ok a).
  - eexists _, _. split; [reflexivity|]. split; [by apply (wf_ext w) | done].
  - by exists None, w.
Qed.

(** The world with a new entry. *)
Lemma wf_insert (w : world) (l : list (positive * list Z)) (p : positive) (k nm : list Z) (t : T) :
  wf w l -> k ∉ l.*2 -> p ∉ l.*1 -> st_rep t ((p, k) :: l) -> wf (set_filename (<[p := nm]> (filename w)) (set_table t w)) ((p, k) :: l).
Proof.
  intros [W1 W2 W3] Hk Hp Ht. split; [done | by constructor |]. intros q. cbn. rewrite elem_of_cons, W3.
  destruct (decide (p = q)) as [->|E]; [rewrite lookup_insert_eq; naive_solver | rewrite lookup_insert_ne by done; naive_solver].
Qed.

Lemma update_file_wf (a : answers) (url client_addr k buf : list Z) (w : world) (l : list (positive * list Z)) :
  make_key url client_addr = Some k -> wf w l ->
  exists r w' l', update_file a url client_addr buf w = Some (r, w') /\ wf w' l' /\ root w' = root w /\ acted w' = acted w.
Proof.
  intros Hk W. unfold update_file. rewrite Hk. cbn [mbind option_bind]. rewrite (st_lookup_rep _ _ k (wf_rep _ _ W)). cbn [mbind option_bind].
  destruct (fst <$> _) as [p|] eqn:Ef.
  - destruct (append_file_wf a buf p w l W) as (r & w' & E & W' & Hr); [by apply (list_elem_of_fmap_2 fst _ (p, k)), found_key|]. by exists r, w', l.
  - destruct (tempname a) as [nm|]; [|by exists None, w, l]. destruct (st_insert_rep _ _ k (wf_rep _ _ W)) as (p & t & -> & Hp & Ht). cbn [mbind option_bind].
    pose proof (wf_insert w l p k nm t W (not_found _ _ Ef) Hp Ht) as W1.
    destruct (append_file_wf a buf p _ _ W1) as (r & w' & E & W' & Hr); [left|]. by exists r, w', ((p, k) :: l).
Qed.

(** ** Every call, whatever the system answers *)

Lemma length_notice (nm : list Z) (len : nat) : length (notice nm len) = len.
Proof. unfold notice. rewrite length_app, length_take, length_replicate. lia. Qed.

Lemma scan_wf (f : filterObject) (a : answers) (c : caller) (k buf : list Z) (w : world) (l : list (positive * list Z)) :
  make_key (f_url f) (client c) = Some k -> wf w l ->
  exists ret w' l', scan f a c buf w = Some (ret, w') /\ wf w' l'
    /\ (forall v, ret = Some v -> v = Clean \/ exists content offset, v = cl_scandesc (root w) (f_limits f) content offset).
Proof.
  intros Hk W. unfold scan. destruct (update_file_wf a (f_url f) (client c) k buf w l Hk W) as (r & w' & l' & -> & W' & Hr & _). cbn [mbind option_bind].
  destruct r as [nm|]; [|by exists None, w', l'].
  destruct (open_ok a); cbn [negb]; [|by exists None, w', l'].
  destruct (fstat_ok a); cbn [negb]; [|exists None, (leak w'), l'; split; [done|]; split; [by apply (wf_ext w') | done]].
  destruct (close_ok a); cbn [negb]; [|by exists None, w', l'].
  eexists _, w', l'. split; [reflexivity|]. split; [done|]. intros v [= <-]. destruct (strlen _ =? 0); [by left|]. right. rewrite Hr. eauto.
Qed.

Lemma finish_wf (f : filterObject) (a : answers) (c : caller) (k buf : list Z) (ret : verdict) (w : world) (l : list (positive * list Z)) :
  make_key (f_url f) (client c) = Some k -> wf w l ->
  exists out w' l', finish f a c buf ret w = Some (strlen buf, out, w') /\ wf w' l'
    /\ out = match ret with Virus nm => notice nm (length buf) | _ => buf end.
Proof.
  intros Hk W. unfold finish. destruct ret as [|nm|code]; [| |by eexists _, w, l].
  - destruct (remove_file_wf a _ _ k w l Hk W) as (w' & l' & -> & W' & _). cbn [mbind option_bind]. by eexists _, w', l'.
  - destruct (remove_file_wf a _ _ k w l Hk W) as (w' & l' & -> & W' & _). cbn [mbind option_bind]. destruct (actionPath f) as [cmd|].
    + eexists _, _, l'. split; [reflexivity|]. split; [by apply (wf_ext w') | done].
    + by eexists _, w', l'.
Qed.

Lemma reload_wf (a : answers) (w : world) (l : list (positive * list Z)) : wf w l -> wf (reload a w).2 l.
Proof.
  intros W. unfold reload. destruct (db_changed a); [|done]. cbn zeta. destruct (negb _); [by apply (wf_ext w)|].
  destruct (negb _); by apply (wf_ext w).
Qed.

(** What a defined call gives: a result, the bytes that pass and a table in order. *)
Definition chunk_result (f : filterObject) (a : answers) (buf : list Z) (w : world) (x : Z * list Z * world) : Prop :=
  (exists l', wf x.2 l')
  /\ (x.1 = (-1, [])
      \/ x.1.1 = strlen buf /\ length x.1.2 = length buf
         /\ (x.1.2 = buf
             \/ exists nm content offset,
                  cl_scandesc (root (reload a w).2) (f_limits f) content offset = Virus nm /\ x.1.2 = notice nm (length buf))).

Lemma filter_defined (f : filterObject) (a : answers) (c : caller) (k buf : list Z) (w : world) (l : list (positive * list Z)) :
  make_key (f_url f) (client c) = Some k -> wf w l -> exists x, cfFilter f a c (Some buf) w = Some x /\ chunk_result f a buf w x.
Proof.
  intros Hk W. unfold cfFilter, chunk_result. destruct buf as [|b buf].
  { exists (0, [], w). split; [done|]. split; [by exists l|]. by right; split; [|split; [|left]]. }
  pose proof (reload_wf a w l W) as W0. destruct (reload a w) as [ok w0]. cbn [snd] in *. destruct ok; cbn [negb].
  - destruct (_ && _).
    + destruct (scan_wf f a c k (b :: buf) w0 l Hk W0) as (ret & w1 & l1 & -> & W1 & Hv). cbn [mbind option_bind].
      destruct ret as [v|]; [|by eexists; split; [reflexivity|]; split; [by exists l1|]; left].
      destruct (finish_wf f a c k (b :: buf) v w1 l1 Hk W1) as (out & w2 & l2 & -> & W2 & ->). eexists. split; [reflexivity|]. split; [by exists l2|]. right.
      split; [done|]. destruct v as [|nm|code]; [by split; [|left] | | by split; [|left]]. split; [apply length_notice|]. right.
      destruct (Hv _ eq_refl) as [?|(content & offset & E)]; [done|]. by exists nm, content, offset.
    + destruct (remove_file_wf a _ _ k w0 l Hk W0) as (w1 & l1 & -> & W1 & _). cbn [mbind option_bind].
      destruct (finish_wf f a c k (b :: buf) Clean w1 l1 Hk W1) as (out & w2 & l2 & -> & W2 & ->). eexists. split; [reflexivity|]. split; [by exists l2|].
      right. split; [done|]. split; [done|]. by left.
  - eexists. split; [reflexivity|]. split; [by exists l|]. by left.
Qed.

(** A key that does not fit its buffer. *)
Lemma filter_overflow (f : filterObject) (a : answers) (c : caller) (buf : list Z) (w : world) :
  make_key (f_url f) (client c) = None ->
  cfFilter f a c (Some buf) w
  = match buf with [] => Some (0, [], w) | _ => if (reload a w).1 then None else Some (-1, [], (reload a w).2) end.
Proof.
  intros Hk. unfold cfFilter. destruct buf as [|b buf]; [done|]. destruct (reload a w) as [ok w0]. cbn [fst snd].
  destruct ok; [|done]. cbn [negb]. unfold scan, update_file, remove_file, query_hash. rewrite Hk. by destruct (_ && _).
Qed.

(** C19: Whatever the system and libclamav answer (writes that fail or are short and files that stay included), a call of the
    filter with a chunk keeps the table of temporary files in order; either it is an error and nothing of the chunk passes,
    or as many bytes pass as came: the chunk itself, or, and only if a scan with the database of that moment found a virus,
    the notice.  It is undefined (the key of the temporary file runs over its buffer) exactly if the url has more than 1024
    bytes, the chunk is not empty and a database that changed could be loaded. *)
Theorem filter_safe (f : filterObject) (a : answers) (c : caller) (buf : list Z) (w : world) (l : list (positive * list Z)) :
  address_text (client c) -> wf w l ->
  match cfFilter f a c (Some buf) w with
  | Some x => chunk_result f a buf w x /\ ((length (f_url f) <= 1024)%nat \/ buf = [] \/ (reload a w).1 = false)
  | None => (1024 < length (f_url f))%nat /\ buf <> [] /\ (reload a w).1 = true
  end.
Proof.
  intros Hc W. destruct (Nat.le_gt_cases (length (f_url f)) 1024) as [Hu|Hu].
  - destruct (filter_defined f a c _ buf w l (make_key_ok _ _ Hu Hc) W) as (x & -> & Hx). split; [done|]. by left.
  - rewrite filter_overflow by (apply long_url; [done|]; unfold address_text in Hc; by destruct (client c); [cbn [length] in Hc; lia|]).
    destruct buf as [|b buf].
    + split; [|by right; left]. split; [by exists l|]. by right; split; [|split; [|left]].
    + pose proof (reload_wf a w l W) as W0. destruct (reload a w) as [[] w0]; cbn [fst snd] in *; [done|].
      split; [|by right; right]. split; [by exists l|]. by left.
Qed.

(** ** A reply, chunk by chunk *)

(** The chunk is written to its file and scanned. *)
Definition scanned (f : filterObject) (buf : list Z) : bool :=
  (min_file_size f <=? strlen buf) && (strlen buf <=? max_file_size f) && match buf with b :: _ => negb (b =? 32) | [] => false end.

(** The verdict on a chunk by itself. *)
Definition judge (f : filterObject) (root : option Z) (buf : list Z) : verdict :=
  if scanned f buf then cl_scandesc root (f_limits f) buf 0 else Clean.

Definition passed (f : filterObject) (root : option Z) (buf : list Z) : list Z :=
  match judge f root buf with Virus nm => notice nm (length buf) | _ => buf end.

Definition actions (f : filterObject) (c : caller) (root : option Z) (buf : list Z) : list action_call :=
  match judge f root buf, actionPath f with
  | Virus nm, Some cmd => [ActionCall cmd (f_url f) nm (content_type c) (client c) (user c)]
  | _, _ => []
  end.

(** No call fails, the database is the same, the name of a new temporary file is not in use. *)
Definition calm (a : answers) (buf : list Z) (fs : gmap (list Z) (list Z)) : Prop :=
  db_changed a = false /\ fopen_ok a = true /\ open_ok a = true /\ fstat_ok a = true /\ close_ok a = true
  /\ (length buf <= accepted a)%nat /\ unlink_ok a = true
  /\ exists nm, tempname a = Some nm /\ fs !! nm = None.

(** The same outside of the table. *)
Definition after (t : T) (acts : list action_call) (w : world) : world :=
  World t (filename w) (files w) (root w) (leaked w) (acted w ++ acts).

Lemma wf_after (t : T) (acts : list action_call) (w : world) (l : list (positive * list Z)) : st_rep t l -> wf w l -> wf (after t acts w) l.
Proof. intros Ht [W1 W2 W3]. by split. Qed.

Lemma filter_absent (p : positive) (k : list Z) (l : list (positive * list Z)) : p ∉ l.*1 -> filter (fun e => e.1 <> p) ((p, k) :: l) = l.
Proof.
  intros Hp. rewrite filter_cons, decide_False by (intros E; by apply E). induction l as [|e l IH]; [done|].
  cbn [fmap list_fmap] in Hp. apply not_elem_of_cons in Hp as [He Hp]. by rewrite filter_cons, decide_True, IH by done.
Qed.

Lemma written_short (buf : list Z) : strlen (written buf) <= strlen buf.
Proof. unfold written, strlen. destruct buf as [|c buf]; [done|]. destruct (c =? 32); cbn [length]; lia. Qed.

(** The temporary file of a chunk holds that chunk, and nothing is left of it. *)
Lemma file_cycle (a : answers) (url client_addr k buf : list Z) (w : world) (l : list (positive * list Z)) :
  make_key url client_addr = Some k -> wf w l -> k ∉ l.*2 -> calm a buf (files w) ->
  exists nm w1 t, update_file a url client_addr buf w = Some (Some nm, w1)
    /\ files w1 !! nm = Some (written buf) /\ root w1 = root w
    /\ st_rep t l /\ remove_file a url client_addr w1 = Some (after t [] w).
Proof.
  intros Hk W Hl (_ & Hf & _ & _ & _ & Hacc & Hul & nm & Hn & Hfree). unfold update_file. rewrite Hk. cbn [mbind option_bind].
  rewrite (st_lookup_rep _ _ k (wf_rep _ _ W)). cbn [mbind option_bind]. rewrite (find_absent _ _ Hl). cbn [fmap option_fmap option_map]. rewrite Hn.
  destruct (st_insert_rep _ _ k (wf_rep _ _ W)) as (p & t & -> & Hp & Ht). cbn [mbind option_bind].
  unfold append_file. cbn [filename set_filename]. rewrite lookup_insert_eq. cbn [mbind option_bind]. rewrite Hf. cbn [files set_filename set_table].
  rewrite Hfree. cbn [default app].
  rewrite (take_ge (written buf)) by (pose proof (written_short buf); unfold strlen in *; lia). destruct (st_delete_rep t _ p Ht) as (t' & Ed & Ht'); [left|]. rewrite filter_absent in Ht' by done.
  eexists nm, _, t'. split; [reflexivity|]. split; [by cbn; rewrite lookup_insert_eq|]. split; [done|]. split; [done|].
  unfold remove_file, query_hash. rewrite Hk. cbn [mbind option_bind]. cbn [table set_files set_filename set_table].
  rewrite (st_lookup_rep t _ k Ht). cbn [List.find snd mbind option_bind]. rewrite bool_decide_eq_true_2 by done.
  cbn [fmap option_fmap option_map fst]. rewrite Ed, Hul. cbn [mbind option_bind filename set_files set_filename]. rewrite lookup_insert_eq.
  cbn [mbind option_bind]. f_equal. unfold after, set_files, set_filename, set_table. cbn [table filename files root leaked acted].
  assert (Hpn : filename w !! p = None).
  { destruct (filename w !! p) eqn:E; [|done]. exfalso. apply Hp, (wf_names _ _ W). by rewrite E. }
  by rewrite !delete_insert_id, app_nil_r.
Qed.

Lemma scan_judged (f : filterObject) (a : answers) (c : caller) (k buf : list Z) (w : world) (l : list (positive * list Z)) :
  make_key (f_url f) (client c) = Some k -> wf w l -> k ∉ l.*2 -> calm a buf (files w) ->
  (min_file_size f <=? strlen buf) && (strlen buf <=? max_file_size f) = true ->
  exists w1 t, scan f a c buf w = Some (Some (judge f (root w) buf), w1)
    /\ st_rep t l /\ remove_file a (f_url f) (client c) w1 = Some (after t [] w).
Proof.
  intros Hk W Hl Hc Er. destruct (file_cycle a _ _ k buf w l Hk W Hl Hc) as (nm & w1 & t & Eu & Ef & Ero & Ht & Erm).
  exists w1, t. split; [|by split]. destruct Hc as (_ & _ & Ho & Hs & Hcl & _). unfold scan, judge, scanned. rewrite Eu, Er. cbn [mbind option_bind].
  rewrite Ho, Hs, Hcl, Ef, Ero. cbn [negb default id]. apply andb_true_iff in Er as [_ Er%Z.leb_le]. pose proof (written_short buf).
  rewrite (proj2 (Z.ltb_ge (max_file_size f) (strlen (written buf)))) by lia. unfold written. destruct buf as [|b buf]; [done|].
  destruct (b =? 32); [done|]. cbn [negb andb]. by rewrite (proj2 (Z.eqb_neq (strlen (b :: buf)) 0)) by (unfold strlen; cbn [length]; lia).
Qed.

Lemma chunk_judged (f : filterObject) (a : answers) (c : caller) (k buf : list Z) (w : world) (l : list (positive * list Z)) :
  make_key (f_url f) (client c) = Some k -> wf w l -> k ∉ l.*2 -> calm a buf (files w) -> (forall e, judge f (root w) buf <> ScanError e) ->
  exists t, st_rep t l /\ cfFilter f a c (Some buf) w = Some (strlen buf, passed f (root w) buf, after t (actions f c (root w) buf) w).
Proof.
  intros Hk W Hl Hc Hj. assert (E0 : after (table w) [] w = w) by (destruct w; unfold after; cbn; by rewrite app_nil_r).
  unfold cfFilter, passed, actions. destruct buf as [|b buf].
  { exists (table w). split; [apply W|]. unfold judge, scanned. by rewrite andb_false_r, E0. }
  set (chunk := b :: buf) in *. unfold reload. rewrite (proj1 Hc). cbn [negb]. destruct (_ && _) eqn:Er.
  - destruct (scan_judged f a c k chunk w l Hk W Hl Hc Er) as (w1 & t & -> & Ht & Erm). exists t. split; [done|]. cbn [mbind option_bind]. unfold finish.
    destruct (judge f (root w) chunk) as [|v|e]; [by rewrite Erm| |by destruct (Hj e)].
    rewrite Erm. cbn [mbind option_bind]. destruct (actionPath f) as [cmd|]; [|done].
    unfold act, after. cbn [table filename files root leaked acted]. by rewrite app_nil_r.
  - exists (table w). split; [apply W|]. unfold judge, scanned. rewrite Er. cbn [andb]. rewrite (remove_file_absent a _ _ k w l Hk W Hl). cbn [mbind option_bind]. unfold finish.
    rewrite (remove_file_absent a _ _ k w l Hk W Hl). cbn [mbind option_bind]. by rewrite E0.
Qed.

(** C18: As long as nothing fails, a reply (with a url of 1024 bytes at most, while no other transfer has the same key) is
    filtered chunk by chunk: a chunk of a size between the two bounds of the module that does not start with a blank passes or
    is replaced by what a scan of this chunk alone says, whatever the chunks before it held; every other chunk passes
    unscanned; the administrator's command runs once for every chunk with a virus, and the temporary files of all
    transfers are afterwards as they were. *)
Theorem stream_filtered (f : filterObject) (c : caller) (chunks : list (answers * list Z)) (w : world) (l : list (positive * list Z)) :
  (length (f_url f) <= 1024)%nat -> address_text (client c) ->
  wf w l -> f_url f ++ client c ∉ l.*2 -> Forall (fun ch => calm ch.1 ch.2 (files w)) chunks ->
  Forall (fun ch => forall e, judge f (root w) ch.2 <> ScanError e) chunks ->
  exists t, st_rep t l
    /\ cfFilter_all f c chunks w
       = Some (0, concat (map (fun ch => passed f (root w) ch.2) chunks), after t (concat (map (fun ch => actions f c (root w) ch.2) chunks)) w).
Proof.
  intros Hu Ha W Hl Hc Hj. pose proof (make_key_ok _ _ Hu Ha) as Hk. set (k := _ ++ _) in *.
  revert w W Hc Hj. induction chunks as [|[a buf] chunks IH]; intros w W Hc Hj.
  - exists (table w). split; [apply W|]. destruct w. unfold after. cbn. by rewrite app_nil_r.
  - apply Forall_cons in Hc as [Hc1 Hc], Hj as [Hj1 Hj]. cbn [fst snd] in *.
    destruct (chunk_judged f a c k buf w l Hk W Hl Hc1 Hj1) as (t1 & Ht1 & E1). cbn [cfFilter_all]. rewrite E1. cbn [mbind option_bind].
    rewrite (proj2 (Z.ltb_ge (strlen buf) 0)) by (unfold strlen; lia).
    destruct (IH (after t1 (actions f c (root w) buf) w) (wf_after _ _ _ _ Ht1 W) Hc Hj) as (t & Ht & ->). cbn [mbind option_bind map concat fst snd].
    exists t. split; [done|]. unfold after. cbn [table filename files root leaked acted]. by rewrite <- app_assoc.
Qed.
End Clamav.
(** ** The module *)

(** The kinds of file in [st_mode]. *)
Definition S_IFREG : Z := 32768.
Definition S_IFLNK : Z := 40960.
Definition S_IFDIR : Z := 16384.

(** [stat] gives [st_mode] unless it fails. *)
Definition __file_exists (st_mode : option Z) : bool :=
  match st_mode with
  | None => false
  | Some m => negb (Z.land m S_IFREG =? 0) || negb (Z.land m S_IFLNK =? 0) || negb (Z.land m S_IFDIR =? 0)
  end.

Definition __is_dir (st_mode : option Z) : bool :=
  match st_mode with None => false | Some m => negb (Z.land m S_IFREG =? 0) || negb (Z.land m S_IFDIR =? 0) end.

(** The processes that return from the call, each with its result: the child does if
    [execv] fails.  [status] is what [waitpid] tells of a child that exited. *)
Definition execute_action (fork_ok execv_ok wait : bool) (status : option Z) : list Z :=
  if negb fork_ok then [-1]
  else (if execv_ok then [] else [0]) ++ [if wait then match status with Some s => s | None => -1 end else 0].

Record clamavscanObject := ClamavscanObject {
  databasePath : list Z;
  m_actionPath : option (list Z);
  m_root : option Z;
  m_limits : limits;
  m_min : Z;
  m_max : Z
}.

Definition DBDIR : list Z := bytes "/strg/mybox/patterns/av".
Definition MIN_FILE_SIZE : Z := 67.
Definition MAX_FILE_SIZE : Z := 1024.

(** [sscanf(args->key, "%d", &size)] and the next argument. *)
Definition size_arg (args : list (list Z)) (dflt : Z) : Z * list (list Z) :=
  match args with
  | [] => (dflt, [])
  | key :: args => (match scan_int key with Some (n, _) => n | None => dflt end, args)
  end.

(** The module that is registered, if libclamav loads its database. *)
Definition moduleInit (args : list (list Z)) (dbdir : option Z) (cl_retdbdir : list Z) (loaded built : Z * option Z) : option clamavscanObject :=
  let path := if __is_dir dbdir then DBDIR else cl_retdbdir in
  let '(mn, args) := size_arg args MIN_FILE_SIZE in
  let '(mx, args) := size_arg args MAX_FILE_SIZE in
  let action := head args in
  if negb (loaded.1 =? 0) then None
  else if negb (built.1 =? 0) then None
  else Some (ClamavscanObject path action built.2 (Limits 1000 (1 * 1048576) 5 200 1) mn mx).

Section Filter.
Context {R : Type}.
Variable regcomp : list Z -> bool -> bool -> option R.
Variable regexec : R -> list Z -> option (list regmatch).
(** /etc/cf/av.allow as it is on disk during the call. *)
Variable file : option (Z * option (list Z)).

(** The tests of a request; NULL if one of them exempts it.  The new object starts with zeros. *)
Definition clamavscanFilter (strip_query_terms : bool) (this : clamavscanObject) (rq : request) (pf : option (patFile R)) : option filterObject * option (patFile R) :=
  let '(o, pf) := orelse (own_page rq)
    (orelse (listed regcomp regexec file (Some (uri rq)))
      (orelse (listed regcomp regexec file (client_addr rq)) (listed regcomp regexec file (auth_user rq)))) pf in
  match o with
  | Null => (Some (FilterObject (moduleUrlClean strip_query_terms (uri rq)) (m_actionPath this) None (m_min this) (m_max this)), pf)
  | _ => (None, pf)
  end.

(** The limits of the module do not reach the filter objects. *)
Lemma limits_lost (strip : bool) (this : clamavscanObject) (rq : request) (pf pf' : option (patFile R)) (f : filterObject) :
  clamavscanFilter strip this rq pf = (Some f, pf') -> f_limits f = None.
Proof. unfold clamavscanFilter. destruct (orelse _ _ pf) as [[]]; intros [=]; by subst. Qed.
End Filter.

End Clamav.

(** ** Examples, over the hash table *)

Module Demo.

Import StrTable Clamav.

(** libclamav knows one pattern. *)
Definition scan (root : option Z) (l : option limits) (content : list Z) (offset : Z) : verdict :=
  if contains content (bytes "EICAR") then Virus (bytes "Eicar-Test") else Clean.

Definition ok (name : string) : answers := Answers false (0, None) (0, None) (Some (bytes name)) true true true true true 5000 true.
Definition who : caller := Caller None (bytes "10.0.0.1") None.
Definition object (mn mx : Z) : filterObject := FilterObject (bytes "http://a/b") (Some (bytes "/bin/warn")) None mn mx.
Definition start : world := World (T := StrTable.table) init_hash ∅ ∅ (Some 1) 0 [].
Definition key : list Z := bytes "http://a/b10.0.0.1".

Lemma start_wf : wf start [].
Proof.
  split; [exact init_strings | constructor |]. intros p. cbn. rewrite lookup_empty. split; [by intros ?%not_elem_of_nil | by intros [? ?]].
Qed.

Definition shown (x : option (Z * list Z * world (T := StrTable.table))) : option (Z * list Z * nat) :=
  '(r, out, w) ← x; Some (r, out, base.size (files w)).

(** A chunk with the virus is replaced, and the rest passes. *)
Lemma replaced :
  shown (cfFilter_all scan (object 1 100) who [(ok "f1", bytes "some text"); (ok "f2", bytes "an EICAR virus in a chunk")] start)
  = Some (0, bytes "some textVIRUS 'Eicar-Test' REMOVE", 0%nat).
Proof. vm_compute. reflexivity. Qed.

(** A virus over two chunks passes. *)
Lemma split_virus :
  shown (cfFilter_all scan (object 1 100) who [(ok "f1", bytes "an EIC"); (ok "f2", bytes "AR virus")] start)
  = Some (0, bytes "an EICAR virus", 0%nat).
Proof. vm_compute. reflexivity. Qed.

(** So do, with the default sizes, a short chunk, a long one, and any that starts with a blank. *)
Lemma unscanned :
  shown (cfFilter_all scan (object MIN_FILE_SIZE MAX_FILE_SIZE) who [(ok "f1", bytes "short EICAR"); (ok "f2", bytes "EICAR" ++ replicate 1100 46)] start)
  = Some (0, bytes "short EICAREICAR" ++ replicate 1100 46, 0%nat).
Proof. vm_compute. reflexivity. Qed.

Lemma blank_first : shown (cfFilter scan (object 1 100) (ok "f1") who (Some (bytes " EICAR")) start) = Some (6, bytes " EICAR", 0%nat).
Proof. vm_compute. reflexivity. Qed.

(** After an error of the scan the temporary file stays, and the next chunk is scanned together with it. *)
Lemma error_kept :
  let failing := fun (_ : option Z) (_ : option limits) (_ : list Z) (_ : Z) => ScanError 5 in
  (shown (cfFilter failing (object 1 100) (ok "f1") who (Some (bytes "an EIC")) start),
   '(_, _, w) ← cfFilter failing (object 1 100) (ok "f1") who (Some (bytes "an EIC")) start;
   shown (cfFilter scan (object 1 100) (ok "f2") who (Some (bytes "AR")) w))
  = (Some (6, bytes "an EIC", 1%nat), Some (2, bytes "VI", 0%nat)).
Proof. vm_compute. reflexivity. Qed.

(** The descriptor is not closed when [fstat] fails. *)
Lemma fstat_leaks :
  let a := Answers false (0, None) (0, None) (Some (bytes "f1")) true true false true true 5000 true in
  ('(r, _, w) ← cfFilter scan (object 1 100) a who (Some (bytes "text")) start; Some (r, leaked w)) = Some (-1, 1).
Proof. vm_compute. reflexivity. Qed.

(** Two transfers with one key. *)
Lemma same_key : make_key (bytes "http://a/1") (bytes "0.0.0.1") = make_key (bytes "http://a/") (bytes "10.0.0.1").
Proof. vm_compute. reflexivity. Qed.

(** A regular file is a directory, and so is a socket. *)
Lemma not_dirs : __is_dir (Some 33188) = true /\ __is_dir (Some 49645) = true.
Proof. split; vm_compute; reflexivity. Qed.

(** A command that cannot be run leaves two processes that go on with the transfer. *)
Lemma two_processes : execute_action true false false None = [0; 0].
Proof. vm_compute. reflexivity. Qed.

Lemma filter_safe_witness :
  exists r out w', cfFilter scan (object 1 100) (ok "f1") who (Some (bytes "text")) start = Some (r, out, w')
    /\ chunk_result scan (object 1 100) (ok "f1") (bytes "text") start (r, out, w').
Proof.
  pose proof (filter_safe scan (object 1 100) (ok "f1") who (bytes "text") start []) as H.
  destruct (cfFilter _ _ _ _ _) as [[[r out] w']|].
  - exists r, out, w'. split; [reflexivity|]. apply H; [vm_compute; lia | exact start_wf].
  - destruct H as [H _]; [vm_compute; lia | exact start_wf|]. vm_compute in H. lia.
Defined.

Lemma stream_filtered_witness :
  let chunks := [(ok "f1", bytes "some text"); (ok "f1", bytes "an EICAR virus")] in
  exists t, st_rep t [] /\ cfFilter_all scan (object 1 100) who chunks start
    = Some (0, bytes "some textVIRUS 'Eicar-T", after t [ActionCall (bytes "/bin/warn") (bytes "http://a/b") (bytes "Eicar-Test") None (bytes "10.0.0.1") None] start).
Proof.
  intros chunks. apply (stream_filtered scan (object 1 100) who chunks start []).
  - vm_compute. lia.
  - vm_compute. lia.
  - exact start_wf.
  - apply not_elem_of_nil.
  - unfold chunks. repeat apply Forall_cons_2; [| |apply Forall_nil_2]; (do 5 (split; [reflexivity|]); split; [cbn; lia|]; split; [reflexivity|]; exists (bytes "f1"); by split).
  - unfold chunks. repeat apply Forall_cons_2; [| |apply Forall_nil_2]; intros e; vm_compute; congruence.
Defined.
End Demo.
