(* ===== verification/FileMap.v ===== *)
(** * FileMap: the numbers of the swap files (src/filemap.c)

    A directory of the disk cache names its files by numbers and keeps those in
    use as bits of an array of words that doubles when it is full; src/fs/ufs/
    store_dir_ufs.c asks for the next number from the last one given.  A word
    has 32 bits, the size of a long on the appliance.  [None]: a failed
    assertion, or an access outside the array. *)

From S2P Require Import Prelude Bits.

Module FileMap.

Definition LONG_BIT_SHIFT : Z := 5.
Definition BITS_IN_A_LONG : nat := 32.
Definition LONG_BIT_MASK : Z := 0x1F.
Definition ALL_ONES : Z := 0xFFFFFFFF.
Definition FM_INITIAL_NUMBER : Z := Z.shiftl 1 14.

Record fileMap := FM { max_n_files : Z; n_files_in_map : Z; nwords : Z; file_map : list Z }.

Definition file_map_create : fileMap :=
  let nw := Z.shiftr FM_INITIAL_NUMBER LONG_BIT_SHIFT in
  FM FM_INITIAL_NUMBER 0 nw (replicate (Z.to_nat nw) 0).

Definition file_map_grow (fm : fileMap) : option fileMap :=
  let max := i32 (Z.shiftl (max_n_files fm) 1) in
  if max <=? Z.shiftl 1 24 then
    let nw := Z.shiftr max LONG_BIT_SHIFT in
    Some (FM max (n_files_in_map fm) nw (file_map fm ++ replicate (Z.to_nat nw - length (file_map fm)) 0))
  else None.

Definition bitmask (n : Z) : Z := u32 (Z.shiftl 1 (Z.land n LONG_BIT_MASK)).

(** The word of a file number. *)
Definition word_of (fm : fileMap) (n : Z) : option Z :=
  let i := Z.shiftr n LONG_BIT_SHIFT in if i <? 0 then None else file_map fm !! Z.to_nat i.

Definition set_word (fm : fileMap) (n w d : Z) : fileMap :=
  FM (max_n_files fm) (i32 (n_files_in_map fm + d)) (nwords fm) (<[Z.to_nat (Z.shiftr n LONG_BIT_SHIFT) := w]> (file_map fm)).

Fixpoint grow_to (fuel : nat) (fm : fileMap) (n : Z) : option fileMap :=
  if max_n_files fm <=? n then
    match fuel with
    | O => None
    | S fuel => fm ← file_map_grow fm; grow_to fuel fm n
    end
  else Some fm.

(** The map doubles at most ten times before the assertion fails. *)
Definition file_map_bit_set (fm : fileMap) (n : Z) : option fileMap :=
  fm ← grow_to 11 fm n;
  w ← word_of fm n;
  Some (set_word fm n (Z.lor w (bitmask n)) 1).

Definition file_map_bit_reset (fm : fileMap) (n : Z) : option fileMap :=
  w ← word_of fm n;
  Some (set_word fm n (Z.land w (Z.lxor (bitmask n) ALL_ONES)) (-1)).

Definition file_map_bit_test (fm : fileMap) (n : Z) : option bool :=
  if max_n_files fm <=? n then Some false
  else w ← word_of fm n; Some (negb (Z.land w (bitmask n) =? 0)).

(** The loop over the words: the first that is not full, from [word] on; after
    [nwords] steps it is back where it started. *)
Fixpoint find_word (count : nat) (fm : fileMap) (word : Z) : option Z :=
  match count with
  | O => Some word
  | S count =>
      w ← file_map fm !! Z.to_nat word;
      if negb (w =? ALL_ONES) then Some word else find_word count fm ((word + 1) mod nwords fm)
  end.

(** The loop over the bits of a word, [count] of them left. *)
Fixpoint find_bit (count : nat) (fm : fileMap) (word : Z) : option (option Z) :=
  match count with
  | O => Some None
  | S count' =>
      let suggestion := Z.lor (Z.shiftl word LONG_BIT_SHIFT) (Z.of_nat (BITS_IN_A_LONG - count)) in
      t ← file_map_bit_test fm suggestion;
      if (t : bool) then find_bit count' fm word else Some (Some suggestion)
  end.

(** The number found and the map, which may have grown. *)
Fixpoint file_map_allocate (fuel : nat) (fm : fileMap) (suggestion : Z) : option (Z * fileMap) :=
  match fuel with
  | O => None
  | S fuel =>
      let suggestion := if max_n_files fm <=? suggestion then 0 else suggestion in
      t ← file_map_bit_test fm suggestion;
      if (t : bool) then
        word ← find_word (Z.to_nat (nwords fm)) fm (Z.shiftr suggestion LONG_BIT_SHIFT);
        r ← find_bit BITS_IN_A_LONG fm word;
        match r with
        | Some n => Some (n, fm)
        | None => fm ← file_map_grow fm; file_map_allocate fuel fm (Z.shiftr (max_n_files fm) 1)
        end
      else Some (suggestion, fm)
  end.

(** ** The directory (store_dir_ufs.c) *)

Record ufsinfo := Ufs { map : fileMap; suggest : Z }.

Definition storeUfsDirMapBitAllocate (u : ufsinfo) : option (Z * ufsinfo) :=
  '(fn, fm) ← file_map_allocate 2 (map u) (suggest u);
  fm ← file_map_bit_set fm fn;
  Some (fn, Ufs fm (i32 (fn + 1))).

Definition storeUfsDirMapBitSet (u : ufsinfo) (fn : Z) : option ufsinfo :=
  fm ← file_map_bit_set (map u) fn; Some (Ufs fm (suggest u)).

Definition storeUfsDirMapBitReset (u : ufsinfo) (fn : Z) : option ufsinfo :=
  t ← file_map_bit_test (map u) fn;
  if (t : bool) then fm ← file_map_bit_reset (map u) fn; Some (Ufs fm (suggest u)) else Some u.

(** ** The specification: a finite set of numbers *)

Definition limit : Z := 2 ^ 24.

Record wf (fm : fileMap) : Prop := {
  wf_max : exists k, 14 <= k <= 24 /\ max_n_files fm = 2 ^ k;
  wf_nwords : nwords fm = max_n_files fm / 32;
  wf_length : Z.of_nat (length (file_map fm)) = nwords fm;
  wf_words : words_ok 32 (file_map fm)
}.

Definition has (fm : fileMap) (n : Z) : bool := getbit 32 (file_map fm) n.

Definition rep (fm : fileMap) (s : gset Z) : Prop :=
  wf fm /\ (forall n, n ∈ s <-> 0 <= n < max_n_files fm /\ has fm n = true) /\ n_files_in_map fm = Z.of_nat (size s).

(** ** Laws *)

Lemma wf_range (fm : fileMap) : wf fm -> 2 ^ 14 <= max_n_files fm <= limit /\ 512 <= nwords fm /\ max_n_files fm = 32 * nwords fm.
Proof.
  intros [(k & Hk & E) Hn _ _]. unfold limit. rewrite E in *.
  pose proof (Z.pow_le_mono_r 2 14 k ltac:(lia) ltac:(lia)). pose proof (Z.pow_le_mono_r 2 k 24 ltac:(lia) ltac:(lia)).
  assert (E2 : 2 ^ k = 32 * 2 ^ (k - 5)).
  { replace k with (5 + (k - 5)) at 1 by lia. rewrite Z.pow_add_r by lia. done. }
  rewrite Hn, E2. rewrite (Z.mul_comm 32), Z.div_mul by lia. lia.
Qed.

Lemma bitmask_pow (n : Z) : bitmask n = 2 ^ (n mod 32).
Proof.
  unfold bitmask, LONG_BIT_MASK. change 0x1F with (2 ^ 5 - 1). rewrite land_ones by lia. change (2 ^ 5) with 32.
  rewrite Z.shiftl_1_l. apply wrapu_small. pose proof (Z.mod_pos_bound n 32 ltac:(lia)).
  split; [apply Z.pow_nonneg; lia | apply Z.pow_lt_mono_r; lia].
Qed.

Lemma shiftr_div (n : Z) : Z.shiftr n LONG_BIT_SHIFT = n / 32.
Proof. unfold LONG_BIT_SHIFT. by rewrite Z.shiftr_div_pow2 by lia. Qed.

Lemma wf_bits (fm : fileMap) : wf fm -> bits_of 32 (file_map fm) = max_n_files fm.
Proof. intros H. destruct (wf_range fm H) as (_ & _ & ->). unfold bits_of. by rewrite (wf_length fm H). Qed.

Lemma word_of_in (fm : fileMap) (n : Z) :
  wf fm -> 0 <= n < max_n_files fm -> word_of fm n = Some (word_at 32 (file_map fm) n).
Proof.
  intros H Hn. rewrite <- (wf_bits fm H) in Hn. destruct (div_word 32 ltac:(lia) _ _ Hn) as [H0 _].
  unfold word_of. rewrite shiftr_div, (proj2 (Z.ltb_ge _ _)) by lia. by apply word_at_lookup.
Qed.

Lemma bit_test_spec (fm : fileMap) (n : Z) :
  wf fm -> 0 <= n -> file_map_bit_test fm n = Some (bool_decide (n < max_n_files fm) && has fm n).
Proof.
  intros H Hn. unfold file_map_bit_test. destruct (Z.leb_spec (max_n_files fm) n) as [Hm|Hm].
  - by rewrite bool_decide_eq_false_2 by lia.
  - rewrite bool_decide_eq_true_2, word_of_in by (done || lia). cbn [mbind option_bind].
    by rewrite bitmask_pow, land_bit by (apply Z.mod_pos_bound; lia).
Qed.

Lemma set_word_put (fm : fileMap) (n w d : Z) :
  set_word fm n w d = FM (max_n_files fm) (i32 (n_files_in_map fm + d)) (nwords fm) (put_word 32 (file_map fm) n w).
Proof. unfold set_word, put_word. by rewrite shiftr_div. Qed.

Lemma set_word_wf (fm : fileMap) (n w d : Z) : wf fm -> 0 <= w < 2 ^ 32 -> wf (set_word fm n w d).
Proof.
  intros [H1 H2 H3 H4] Hw. rewrite set_word_put. split; cbn [max_n_files nwords file_map]; [done | done | |].
  - unfold put_word. by rewrite length_insert.
  - by apply put_words_ok.
Qed.

Lemma has_set (fm : fileMap) (n d m : Z) :
  wf fm -> 0 <= n < max_n_files fm -> 0 <= m ->
  has (set_word fm n (Z.lor (word_at 32 (file_map fm) n) (bitmask n)) d) m = bool_decide (m = n) || has fm m.
Proof.
  intros H Hn Hm. rewrite set_word_put, bitmask_pow. apply (getbit_set 32 ltac:(lia)); [|done]. by rewrite (wf_bits fm H).
Qed.

Lemma has_reset (fm : fileMap) (n d m : Z) :
  wf fm -> 0 <= n < max_n_files fm -> 0 <= m ->
  has (set_word fm n (Z.land (word_at 32 (file_map fm) n) (Z.lxor (bitmask n) ALL_ONES)) d) m = negb (bool_decide (m = n)) && has fm m.
Proof.
  intros H Hn Hm. rewrite set_word_put, bitmask_pow. apply (getbit_clear 32 ltac:(lia)); [|done]. by rewrite (wf_bits fm H).
Qed.

(** *** The operations on the set *)

Lemma rep_size (fm : fileMap) (s : gset Z) : rep fm s -> Z.of_nat (size s) <= max_n_files fm.
Proof.
  intros (H & Hs & _). destruct (wf_range fm H) as [H1 _].
  assert (Hsub : s ⊆ list_to_set (seqZ 0 (max_n_files fm))).
  { intros n Hn%Hs. apply elem_of_list_to_set, elem_of_seqZ. lia. }
  apply subseteq_size in Hsub. rewrite size_list_to_set, length_seqZ in Hsub by apply NoDup_seqZ. lia.
Qed.

Lemma small_count (fm : fileMap) (s : gset Z) (d : Z) :
  rep fm s -> -1 <= d <= 1 -> i32 (n_files_in_map fm + d) = n_files_in_map fm + d.
Proof.
  intros H Hd. pose proof (rep_size fm s H). destruct H as (H & _ & ->). destruct (wf_range fm H) as [H1 _]. unfold limit in *.
  apply wraps_small; lia.
Qed.

Lemma bit_set_rep (fm : fileMap) (s : gset Z) (n : Z) :
  rep fm s -> 0 <= n < max_n_files fm -> (n ∉ s) ->
  exists fm', file_map_bit_set fm n = Some fm' /\ rep fm' ({[n]} ∪ s) /\ max_n_files fm' = max_n_files fm.
Proof.
  intros Hr Hn Hs. pose proof (small_count fm s 1 Hr ltac:(lia)) as Hc. destruct Hr as (H & Hm & Hcount).
  unfold file_map_bit_set. cbn [grow_to]. rewrite (proj2 (Z.leb_gt _ _)) by lia. cbn [mbind option_bind].
  rewrite word_of_in by done. cbn [mbind option_bind]. eexists. split; [done|]. split; [|done].
  split; [|split].
  - apply set_word_wf; [done|]. rewrite bitmask_pow. apply lor_range; [lia | apply word_range; [lia | apply H] | apply mod_bit; lia].
  - intros m. rewrite elem_of_union, elem_of_singleton, Hm. cbn [set_word max_n_files].
    split.
    + intros [->|[Hm1 Hm2]]; (split; [lia|]); rewrite has_set by (done || lia); [by rewrite bool_decide_eq_true_2 | by rewrite Hm2, orb_true_r].
    + intros [Hm1 Hm2]. rewrite has_set in Hm2 by (done || lia). apply orb_true_iff in Hm2 as [Hb|Hb]; [left; by apply bool_decide_eq_true in Hb | by right].
  - cbn [set_word n_files_in_map]. rewrite Hc, Hcount, size_union by set_solver. rewrite size_singleton. lia.
Qed.

Lemma bit_reset_rep (fm : fileMap) (s : gset Z) (n : Z) :
  rep fm s -> n ∈ s -> exists fm', file_map_bit_reset fm n = Some fm' /\ rep fm' (s ∖ {[n]}) /\ max_n_files fm' = max_n_files fm.
Proof.
  intros Hr Hs. pose proof (small_count fm s (-1) Hr ltac:(lia)) as Hc. destruct Hr as (H & Hm & Hcount).
  pose proof (proj1 (Hm n) Hs) as [Hn _].
  unfold file_map_bit_reset. rewrite word_of_in by done. cbn [mbind option_bind].
  eexists. split; [done|]. split; [|done]. split; [|split].
  - apply set_word_wf; [done|]. apply land_range; [lia|]. apply word_range; [lia | apply H].
  - intros m. rewrite elem_of_difference, elem_of_singleton, Hm. cbn [set_word max_n_files].
    split.
    + intros [[Hm1 Hm2] Hne]. split; [lia|]. rewrite has_reset by (done || lia). by rewrite bool_decide_eq_false_2.
    + intros [Hm1 Hm2]. rewrite has_reset in Hm2 by (done || lia). apply andb_true_iff in Hm2 as [Hb1 Hb2].
      apply negb_true_iff, bool_decide_eq_false in Hb1. done.
  - cbn [set_word n_files_in_map]. rewrite Hc, Hcount, size_difference by set_solver. rewrite size_singleton.
    assert (size s <> 0%nat) by (intros E0%size_empty_inv; set_solver). lia.
Qed.

(** *** Growing *)

Lemma map_grow_spec (fm : fileMap) :
  wf fm ->
  match file_map_grow fm with
  | None => max_n_files fm = limit
  | Some fm' => wf fm' /\ max_n_files fm' = 2 * max_n_files fm /\ n_files_in_map fm' = n_files_in_map fm
      /\ (forall n, 0 <= n -> has fm' n = bool_decide (n < max_n_files fm) && has fm n)
  end.
Proof.
  intros H. destruct (wf_range fm H) as (Hr & Hw & Hm). unfold limit in *. unfold file_map_grow.
  rewrite Z.shiftl_mul_pow2, wraps_small by lia. change (2 ^ 1) with 2. change (Z.shiftl 1 24) with (2 ^ 24).
  destruct (Z.leb_spec (max_n_files fm * 2) (2 ^ 24)) as [Hle|Hgt].
  - pose proof H as [(k & Hk & E) Hn Hl Hf]. split; [|split; [cbn [max_n_files]; lia|split; [done|]]].
    + assert (Hk2 : k < 24).
      { apply (Z.pow_lt_mono_r_iff 2); lia. }
      split; cbn [max_n_files nwords file_map].
      * exists (k + 1). split; [lia|]. rewrite Z.pow_add_r, E by lia. done.
      * by rewrite shiftr_div.
      * rewrite length_app, length_replicate, shiftr_div.
        assert ((max_n_files fm * 2) / 32 = 2 * nwords fm) as -> by dlia. lia.
      * apply Forall_app. split; [done|]. apply Forall_replicate. lia.
    + intros n Hn0. unfold has. cbn [file_map]. rewrite getbit_grown by lia. rewrite wf_bits by done. done.
  - destruct H as [(k & Hk & E) _ _ _]. rewrite E in *. destruct (decide (k = 24)) as [->|Hk2]; [done|].
    assert (2 ^ (k + 1) <= 2 ^ 24) by (apply Z.pow_le_mono_r; lia). rewrite Z.pow_add_r in * by lia. lia.
Qed.

Lemma grow_rep (fm fm' : fileMap) (s : gset Z) : rep fm s -> file_map_grow fm = Some fm' -> rep fm' s /\ max_n_files fm' = 2 * max_n_files fm.
Proof.
  intros (H & Hm & Hc) E. pose proof (map_grow_spec fm H) as G. rewrite E in G. destruct G as (H' & Hx & Hn & Hh).
  destruct (wf_range fm H) as (Hr & _). split; [|done]. split; [done|]. split; [|by rewrite Hn].
  intros n. rewrite Hm, Hx. split.
  - intros [H1 H2]. split; [lia|]. rewrite Hh by lia. by rewrite bool_decide_eq_true_2 by lia.
  - intros [H1 H2]. rewrite Hh in H2 by lia. apply andb_true_iff in H2 as [H3%bool_decide_eq_true H4]. split; [lia|done].
Qed.

(** *** The search *)

Lemma find_word_spec (fm : fileMap) (count : nat) (word : Z) :
  wf fm -> 0 <= word < nwords fm ->
  exists w, find_word count fm word = Some w /\ 0 <= w < nwords fm
    /\ (forall k, (k < count)%nat -> nth (Z.to_nat ((word + Z.of_nat k) mod nwords fm)) (file_map fm) 0 = ALL_ONES
         \/ nth (Z.to_nat w) (file_map fm) 0 <> ALL_ONES).
Proof.
  intros H. destruct (wf_range fm H) as (_ & Hw & _). revert word. induction count as [|count IH]; intros word Hword; cbn [find_word].
  - exists word. split; [done|]. split; [done|]. lia.
  - destruct (lookup_lt_is_Some_2 (file_map fm) (Z.to_nat word)) as [x Hx]; [destruct H as [_ _ Hl _]; lia|].
    rewrite Hx. cbn [mbind option_bind]. destruct (Z.eqb_spec x ALL_ONES) as [->|Hne]; cbn [negb].
    + destruct (IH ((word + 1) mod nwords fm)) as (w & E & Hr & Hall); [apply Z.mod_pos_bound; lia|].
      exists w. split; [done|]. split; [done|]. intros [|k] Hk.
      * left. rewrite Z.add_0_r, Z.mod_small by done. by apply nth_lookup_Some.
      * destruct (Hall k ltac:(lia)) as [E2|]; [left|by right]. rewrite <- E2. do 2 f_equal.
        rewrite Zplus_mod_idemp_l. f_equal. lia.
    + exists word. split; [done|]. split; [done|]. intros k _. right. rewrite (nth_lookup_Some _ _ 0 _ Hx). done.
Qed.

Lemma find_bit_spec (fm : fileMap) (count : nat) (word : Z) :
  wf fm -> 0 <= word < nwords fm -> (count <= 32)%nat ->
  exists r, find_bit count fm word = Some r
    /\ match r with
       | Some n => 0 <= n < max_n_files fm /\ has fm n = false
       | None => forall i, 32 - Z.of_nat count <= i < 32 -> has fm (32 * word + i) = true
       end.
Proof.
  intros H Hword. destruct (wf_range fm H) as (_ & Hw & Hm). induction count as [|count IH]; intros Hc.
  - exists None. split; [done|]. lia.
  - cbn [find_bit]. set (b := Z.of_nat (BITS_IN_A_LONG - S count)).
    assert (Hb : b = 32 - Z.of_nat (S count)) by (unfold b, BITS_IN_A_LONG; lia).
    assert (E : Z.lor (Z.shiftl word LONG_BIT_SHIFT) b = 32 * word + b).
    { unfold LONG_BIT_SHIFT. rewrite Z.shiftl_mul_pow2 by lia. rewrite lor_add by lia. lia. }
    rewrite E. rewrite bit_test_spec by (done || lia). cbn [mbind option_bind].
    rewrite bool_decide_eq_true_2 by lia. cbn [andb]. destruct (has fm (32 * word + b)) eqn:Eh.
    + destruct IH as (r & Er & Hr); [lia|]. exists r. split; [done|]. destruct r as [n|]; [done|].
      intros i Hi. destruct (decide (i = b)) as [->|]; [done|]. apply Hr. lia.
    + eexists. split; [done|]. split; [lia|done].
Qed.

(** The search fails only when every number is in use. *)
Lemma full_word (fm : fileMap) (word w : Z) :
  wf fm -> 0 <= word < nwords fm ->
  find_word (Z.to_nat (nwords fm)) fm word = Some w -> find_bit BITS_IN_A_LONG fm w = Some None ->
  forall n, 0 <= n < max_n_files fm -> has fm n = true.
Proof.
  intros H Hword Ew Eb. destruct (wf_range fm H) as (_ & Hw & Hm).
  destruct (find_word_spec fm (Z.to_nat (nwords fm)) word H Hword) as (w' & Ew' & Hr & Hall). rewrite Ew in Ew'. injection Ew' as <-.
  destruct (find_bit_spec fm BITS_IN_A_LONG w H Hr ltac:(done)) as (r & Eb' & Hb). rewrite Eb in Eb'. injection Eb' as <-.
  change (32 - Z.of_nat BITS_IN_A_LONG) with 0 in Hb.
  assert (Hones : nth (Z.to_nat w) (file_map fm) 0 = ALL_ONES).
  { assert (E0 : w * 32 / 32 = w) by dlia. pose proof (word_range 32 ltac:(lia) _ (w * 32) (wf_words fm H)) as Hrange.
    unfold word_at in Hrange. rewrite E0 in Hrange. apply (all_ones 32); [lia | done|]. intros i Hi. specialize (Hb i Hi).
    unfold has, getbit, word_at in Hb. assert (E1 : (32 * w + i) / 32 = w) by dlia.
    assert (E2 : (32 * w + i) mod 32 = i) by dlia. by rewrite E1, E2 in Hb. }
  intros n Hn. apply (getbit_ones 32); [lia|]. unfold word_at.
  set (k := (n / 32 - word) mod nwords fm). pose proof (Z.mod_pos_bound (n / 32 - word) (nwords fm) ltac:(lia)) as Hk.
  fold k in Hk. destruct (Hall (Z.to_nat k) ltac:(lia)) as [E|]; [|done].
  rewrite Z2Nat.id in E by lia. unfold k in E. rewrite Zplus_mod_idemp_r in E.
  replace (word + (n / 32 - word)) with (n / 32) in E by lia. rewrite Z.mod_small in E by dlia. done.
Qed.

Lemma allocate_spec (fm : fileMap) (s : gset Z) (suggestion : Z) :
  rep fm s -> 0 <= suggestion ->
  match file_map_allocate 2 fm suggestion with
  | Some (n, fm') => rep fm' s /\ (n ∉ s) /\ 0 <= n < max_n_files fm'
  | None => forall n, 0 <= n < limit -> n ∈ s
  end.
Proof.
  intros Hrep Hsug. destruct Hrep as (H & Hm & Hc) eqn:Er. clear Er. destruct (wf_range fm H) as (Hr & Hw & Hx).
  cbn [file_map_allocate]. set (sug := if max_n_files fm <=? suggestion then 0 else suggestion).
  assert (Hs : 0 <= sug < max_n_files fm) by (unfold sug; destruct (Z.leb_spec (max_n_files fm) suggestion); lia).
  rewrite bit_test_spec by (done || lia). cbn [mbind option_bind]. rewrite bool_decide_eq_true_2 by lia. cbn [andb].
  destruct (has fm sug) eqn:Eh; [|split; [done|]; split; [|done]; intros [_ Hin]%Hm; congruence].
  assert (Hword : 0 <= Z.shiftr sug LONG_BIT_SHIFT < nwords fm) by (rewrite shiftr_div; dlia).
  destruct (find_word_spec fm (Z.to_nat (nwords fm)) _ H Hword) as (w & Ew & Hwr & _). rewrite Ew. cbn [mbind option_bind].
  destruct (find_bit_spec fm BITS_IN_A_LONG w H Hwr ltac:(done)) as (r & Eb & Hb). rewrite Eb. cbn [mbind option_bind].
  destruct r as [n|].
  - split; [done|]. destruct Hb as [Hn Hh]. split; [|done]. intros [_ Hin]%Hm. congruence.
  - pose proof (full_word fm _ w H Hword Ew Eb) as Hfull. pose proof (map_grow_spec fm H) as Hg.
    destruct (file_map_grow fm) as [fm2|] eqn:Eg; cbn [mbind option_bind].
    + destruct (grow_rep fm fm2 s (conj H (conj Hm Hc)) Eg) as [Hrep2 Hmax2].
      assert (Esh : Z.shiftr (max_n_files fm2) 1 = max_n_files fm) by (rewrite Z.shiftr_div_pow2, Hmax2 by lia; dlia).
      rewrite Esh. rewrite (proj2 (Z.leb_gt _ _)) by lia. destruct Hg as (H2 & _ & _ & Hh2).
      rewrite bit_test_spec by (done || lia). cbn [mbind option_bind]. rewrite bool_decide_eq_true_2 by lia. cbn [andb].
      rewrite Hh2, bool_decide_eq_false_2 by lia. cbn [andb]. split; [done|]. split; [|lia]. intros [Hin _]%Hm. lia.
    + intros n Hn. apply Hm. rewrite Hg. split; [done|]. apply Hfull. by rewrite Hg.
Qed.

Lemma grow_to_spec (fuel : nat) (fm : fileMap) (s : gset Z) (n : Z) :
  rep fm s -> 0 <= n < limit -> n < max_n_files fm * 2 ^ Z.of_nat fuel ->
  exists fm', grow_to fuel fm n = Some fm' /\ rep fm' s /\ n < max_n_files fm'.
Proof.
  revert fm. induction fuel as [|fuel IH]; intros fm Hr Hn Hf; cbn [grow_to].
  - rewrite Z.mul_1_r in Hf. rewrite (proj2 (Z.leb_gt _ _)) by lia. by exists fm.
  - destruct (Z.leb_spec (max_n_files fm) n) as [Hm|Hm]; [|by exists fm].
    pose proof (map_grow_spec fm (proj1 Hr)) as Hg. destruct (file_map_grow fm) as [fm2|] eqn:E; [|lia].
    destruct (grow_rep fm fm2 s Hr E) as [Hr2 Hm2]. apply IH; [done | done |].
    rewrite Hm2. rewrite Nat2Z.inj_succ, Z.pow_succ_r in Hf by lia. lia.
Qed.

Lemma bit_set_any (fm : fileMap) (s : gset Z) (n : Z) :
  rep fm s -> 0 <= n < limit -> (n ∉ s) -> exists fm', file_map_bit_set fm n = Some fm' /\ rep fm' ({[n]} ∪ s).
Proof.
  intros Hr Hn Hs. destruct (wf_range fm (proj1 Hr)) as [Hm _].
  destruct (grow_to_spec 11 fm s n Hr Hn) as (fm1 & E & Hr1 & Hn1).
  { change (2 ^ Z.of_nat 11) with 2048. unfold limit in *. lia. }
  destruct (bit_set_rep fm1 s n Hr1 ltac:(lia) Hs) as (fm2 & E2 & Hr2 & _). exists fm2. split; [|done].
  unfold file_map_bit_set in *. rewrite E. cbn [grow_to] in E2. rewrite (proj2 (Z.leb_gt _ _)) in E2 by lia. done.
Qed.

Lemma create_rep : rep file_map_create ∅.
Proof.
  split; [split|split].
  - by exists 14.
  - done.
  - cbn [file_map_create file_map nwords]. by rewrite length_replicate.
  - cbn [file_map_create file_map]. apply Forall_replicate. lia.
  - intros n. split; [set_solver|]. intros [_ Hh]. unfold has, file_map_create in Hh. cbn [file_map] in Hh.
    by rewrite getbit_zeros in Hh.
  - done.
Qed.

(** The map of file numbers refines a finite set of numbers below 2^24, with
    its size as the count of files: the number allocated is not in use, and an
    allocation fails only when all are; setting a free number, resetting any
    and testing are insertion, removal and membership, however the map has
    to grow. *)
Lemma filemap_refines (u : ufsinfo) (s : gset Z) :
  rep (map u) s -> 0 <= suggest u < limit + 1 ->
  match storeUfsDirMapBitAllocate u with
  | Some (n, u') => (n ∉ s) /\ 0 <= n < limit /\ rep (map u') ({[n]} ∪ s) /\ 0 <= suggest u' < limit + 1
  | None => forall n, 0 <= n < limit -> n ∈ s
  end
  /\ (forall n, 0 <= n < limit -> (n ∉ s) ->
       exists u', storeUfsDirMapBitSet u n = Some u' /\ rep (map u') ({[n]} ∪ s))
  /\ (forall n, 0 <= n -> exists u', storeUfsDirMapBitReset u n = Some u' /\ rep (map u') (s ∖ {[n]}))
  /\ (forall n, 0 <= n -> file_map_bit_test (map u) n = Some (bool_decide (n ∈ s))).
Proof.
  intros Hr Hsug. assert (Ht : forall n, 0 <= n -> file_map_bit_test (map u) n = Some (bool_decide (n ∈ s))).
  { intros n Hn. destruct Hr as (H & Hm & _). rewrite bit_test_spec by done. f_equal. apply eq_true_iff_eq.
    rewrite andb_true_iff, !bool_decide_eq_true, Hm. intuition. }
  split; [|split; [|split]].
  - unfold storeUfsDirMapBitAllocate. pose proof (allocate_spec (map u) s (suggest u) Hr ltac:(lia)) as Ha.
    destruct (file_map_allocate 2 (map u) (suggest u)) as [[n fm]|]; cbn [mbind option_bind]; [|done].
    destruct Ha as (Hr1 & Hs & Hn). destruct (wf_range fm (proj1 Hr1)) as [Hmx _].
    destruct (bit_set_any fm s n Hr1 ltac:(lia) Hs) as (fm2 & E & Hr2). rewrite E. cbn [mbind option_bind map suggest].
    split; [done|]. split; [lia|]. split; [done|]. unfold limit in *. rewrite wraps_small; lia.
  - intros n Hn Hs. destruct (bit_set_any (map u) s n Hr Hn Hs) as (fm & E & Hr1). unfold storeUfsDirMapBitSet.
    rewrite E. by eexists.
  - intros n Hn. unfold storeUfsDirMapBitReset. rewrite Ht by done. cbn [mbind option_bind].
    destruct (bool_decide_reflect (n ∈ s)) as [Hin|Hout].
    + destruct (bit_reset_rep (map u) s n Hr Hin) as (fm & E & Hr1 & _). rewrite E. by eexists.
    + exists u. split; [done|]. by replace (s ∖ {[n]}) with s by set_solver.
  - exact Ht.
Qed.

Lemma filemap_refines_witness :
  rep (map (Ufs file_map_create 16384)) ∅
  /\ file_map_bit_test (map (Ufs file_map_create 16384)) 7 = Some (bool_decide (7 ∈ (∅ : gset Z)))
  /\ exists u', storeUfsDirMapBitSet (Ufs file_map_create 16384) 20000 = Some u' /\ rep (map u') ({[20000]} ∪ ∅).
Proof.
  split; [exact create_rep|].
  destruct (filemap_refines (Ufs file_map_create 16384) ∅ create_rep) as (_ & Hs & _ & Ht); [split; reflexivity || done|].
  split; [apply Ht; done|]. apply Hs; [split; [done | reflexivity] | apply not_elem_of_empty].
Defined.

(** Setting a bit twice counts the file twice. *)
Lemma set_twice_counts :
  option_map n_files_in_map (fm ← file_map_bit_set file_map_create 5; file_map_bit_set fm 5) = Some 2.
Proof. vm_compute. reflexivity. Qed.

End FileMap.
