(* ===== verification/Digest.v ===== *)
(** * Digest: cache digests (src/CacheDigest.c)

    A digest tells other proxies what a cache holds: a Bloom filter of four bits
    for each key, taken from the four words of the key's MD5 sum.  The array is
    a list of bytes; [None] is a failed assertion. *)

From S2P Require Import Prelude Bits.

Module Digest.

Record CacheDigest := CD {
  mask : list Z; mask_size : Z; capacity : Z; bits_per_entry : Z; count : Z; del_count : Z
}.

(** The product is that of two ints; the quotient that of a size_t. *)
Definition cacheDigestCalcMaskSize (cap bpe : Z) : Z := wrapu 32 (i32 (i32 (cap * bpe) + 7)) / 8.

Definition cacheDigestInit (cap bpe cnt del : Z) : option CacheDigest :=
  let size := cacheDigestCalcMaskSize cap bpe in
  if (0 <? cap) && (0 <? bpe) && (0 <? size) then Some (CD (replicate (Z.to_nat size) 0) size cap bpe cnt del) else None.

(** [memAllocate] gives cleared memory. *)
Definition cacheDigestCreate (cap bpe : Z) : option CacheDigest := cacheDigestInit cap bpe 0 0.

Definition cacheDigestClone (cd : CacheDigest) : option CacheDigest :=
  clone ← cacheDigestCreate (capacity cd) (bits_per_entry cd);
  if mask_size cd =? mask_size clone then
    Some (CD (mask cd) (mask_size clone) (capacity clone) (bits_per_entry clone) (count cd) (del_count cd))
  else None.

Definition cacheDigestClear (cd : CacheDigest) : CacheDigest :=
  CD (replicate (Z.to_nat (mask_size cd)) 0) (mask_size cd) (capacity cd) (bits_per_entry cd) 0 0.

(** The counts of entries and deletions are left as they are. *)
Definition cacheDigestChangeCap (cd : CacheDigest) (new_cap : Z) : option CacheDigest :=
  cacheDigestInit new_cap (bits_per_entry cd) (count cd) (del_count cd).

(** A word of the key in network order, which [htonl] of the word as stored is. *)
Definition net_word (key : list Z) (i : nat) : Z :=
  match drop (4 * i) key with
  | a :: b :: c :: d :: _ => 2 ^ 24 * a + 2 ^ 16 * b + 2 ^ 8 * c + d
  | _ => 0
  end.

Definition cacheDigestHashKey (cd : CacheDigest) (key : list Z) : list Z :=
  let bit_count := u32 (mask_size cd * 8) in
  map (fun i => net_word key i mod bit_count) [0%nat; 1%nat; 2%nat; 3%nat].

(** [CBIT_BIT], [CBIT_TEST] and [CBIT_SET]. *)
Definition CBIT_BIT (bit : Z) : Z := Z.shiftl 1 (bit mod 8).
Definition CBIT_TEST (l : list Z) (bit : Z) : option bool :=
  w ← l !! Z.to_nat (Z.shiftr bit 3); Some (negb (Z.land w (CBIT_BIT bit) =? 0)).
Definition CBIT_SET (l : list Z) (bit : Z) : option (list Z) :=
  w ← l !! Z.to_nat (Z.shiftr bit 3); Some (<[Z.to_nat (Z.shiftr bit 3) := Z.lor w (CBIT_BIT bit)]> l).

Fixpoint test_bits (l bits : list Z) : option bool :=
  match bits with
  | [] => Some true
  | b :: bits => t ← CBIT_TEST l b; if (t : bool) then test_bits l bits else Some false
  end.

Definition cacheDigestTest (cd : CacheDigest) (key : list Z) : option bool :=
  test_bits (mask cd) (cacheDigestHashKey cd key).

(** The array and how many bits were turned on. *)
Fixpoint set_bits (l bits : list Z) (on_xition_cnt : Z) : option (list Z * Z) :=
  match bits with
  | [] => Some (l, on_xition_cnt)
  | b :: bits =>
      t ← CBIT_TEST l b;
      if (t : bool) then set_bits l bits on_xition_cnt
      else l ← CBIT_SET l b; set_bits l bits (on_xition_cnt + 1)
  end.

(** The digest and the count for the histogram of transitions. *)
Definition cacheDigestAdd (cd : CacheDigest) (key : list Z) : option (CacheDigest * Z) :=
  '(l, n) ← set_bits (mask cd) (cacheDigestHashKey cd key) 0;
  Some (CD l (mask_size cd) (capacity cd) (bits_per_entry cd) (i32 (count cd + 1)) (del_count cd), n).

Definition cacheDigestDel (cd : CacheDigest) : CacheDigest :=
  CD (mask cd) (mask_size cd) (capacity cd) (bits_per_entry cd) (count cd) (i32 (del_count cd + 1)).

(** [CacheDigestStats]. *)
Record stats := Stats { bit_count : Z; bit_on_count : Z; bseq_len_sum : Z; bseq_count : Z }.

(** The loop of [cacheDigestStats] at [pos] bits left, with the length and the kind
    of the current sequence. *)
Fixpoint stats_loop (l : list Z) (pos : nat) (on sum cnt len : Z) (type : bool) : option (Z * Z * Z) :=
  match pos with
  | O => Some (on, sum, cnt)
  | S pos =>
      is_on ← CBIT_TEST l (Z.of_nat pos);
      let on := if (is_on : bool) then on + 1 else on in
      if negb (Bool.eqb is_on type) || (pos =? 0)%nat then stats_loop l pos on (sum + len) (cnt + 1) 1 is_on
      else stats_loop l pos on sum cnt (len + 1) type
  end.

Definition cacheDigestStats (cd : CacheDigest) : option stats :=
  let bits := i32 (mask_size cd * 8) in
  '(on, sum, cnt) ← stats_loop (mask cd) (Z.to_nat bits) 0 0 0 0 true;
  Some (Stats bits on sum cnt).

(** The four counters of [cd_guess_stats]. *)
Definition cacheDigestGuessStatsUpdate (real guess : bool) (s : Z * Z * Z * Z) : Z * Z * Z * Z :=
  let '(true_hits, false_hits, true_misses, false_misses) := s in
  if real then if guess then (true_hits + 1, false_hits, true_misses, false_misses)
               else (true_hits, false_hits, true_misses, false_misses + 1)
  else if guess then (true_hits, false_hits + 1, true_misses, false_misses)
  else (true_hits, false_hits, true_misses + 1, false_misses).

(** ** The specification *)

(** The positions of a key in an array of [n] bits. *)
Definition positions (n : Z) (key : list Z) : list Z := map (fun i => net_word key i mod n) [0%nat; 1%nat; 2%nat; 3%nat].

(** A digest holds the keys [ks], the last first. *)
Record holds (cd : CacheDigest) (ks : list (list Z)) : Prop := {
  h_words : words_ok 8 (mask cd);
  h_size : Z.of_nat (length (mask cd)) = mask_size cd;
  h_range : 0 < mask_size cd < 2 ^ 28;
  h_bits : forall b, 0 <= b < 8 * mask_size cd ->
    getbit 8 (mask cd) b = existsb (fun k => bool_decide (b ∈ positions (8 * mask_size cd) k)) ks
}.

(** Additions ([true]) and deletions in turn. *)
Fixpoint run (ops : list (bool * list Z)) (cd : CacheDigest) : option CacheDigest :=
  match ops with
  | [] => Some cd
  | (true, k) :: ops => '(cd, _) ← cacheDigestAdd cd k; run ops cd
  | (false, k) :: ops => run ops (cacheDigestDel cd)
  end.

Definition added (ops : list (bool * list Z)) : list (list Z) := rev (map snd (filter (fun o => o.1 = true) ops)).

(** ** Laws *)

Lemma cbit_test (l : list Z) (b : Z) : 0 <= b < bits_of 8 l -> CBIT_TEST l b = Some (getbit 8 l b).
Proof.
  intros Hb. unfold CBIT_TEST, CBIT_BIT. rewrite Z.shiftr_div_pow2 by lia. change (2 ^ 3) with 8.
  rewrite (word_at_lookup 8) by (done || lia). cbn [mbind option_bind]. rewrite Z.shiftl_1_l.
  by rewrite land_bit by (apply mod_bit; lia).
Qed.

Lemma cbit_set (l : list Z) (b : Z) :
  0 <= b < bits_of 8 l -> CBIT_SET l b = Some (put_word 8 l b (Z.lor (word_at 8 l b) (2 ^ (b mod 8)))).
Proof.
  intros Hb. unfold CBIT_SET, CBIT_BIT. rewrite Z.shiftr_div_pow2 by lia. change (2 ^ 3) with 8.
  rewrite (word_at_lookup 8) by (done || lia). cbn [mbind option_bind]. by rewrite Z.shiftl_1_l.
Qed.

Lemma set_bits_spec (bits l : list Z) (n : Z) :
  words_ok 8 l -> Forall (fun b => 0 <= b < bits_of 8 l) bits ->
  exists l' m, set_bits l bits n = Some (l', m) /\ words_ok 8 l' /\ length l' = length l /\ n <= m <= n + Z.of_nat (length bits)
    /\ forall b, 0 <= b < bits_of 8 l -> getbit 8 l' b = bool_decide (b ∈ bits) || getbit 8 l b.
Proof.
  revert l n. induction bits as [|b bits IH]; intros l n Hl Hb; cbn [set_bits].
  - exists l, n. split; [done|]. split; [done|]. split; [done|]. split; [cbn; lia|]. intros b _. by rewrite bool_decide_eq_false_2 by set_solver.
  - apply Forall_cons in Hb as [Hb Hbs]. rewrite cbit_test by done. cbn [mbind option_bind]. destruct (getbit 8 l b) eqn:E.
    + destruct (IH l n Hl Hbs) as (l' & m & -> & H1 & H2 & H3 & H4). exists l', m.
      split; [done|]. split; [done|]. split; [done|]. split; [cbn [length]; lia|]. intros x Hx. rewrite H4 by done.
      destruct (decide (x = b)) as [->|Hne]; [rewrite E, !orb_true_r; done|]. f_equal.
      apply bool_decide_ext. set_solver.
    + rewrite cbit_set by done. cbn [mbind option_bind]. set (l1 := put_word 8 l b _).
      assert (El : bits_of 8 l1 = bits_of 8 l) by apply bits_of_put.
      destruct (IH l1 (n + 1)) as (l' & m & -> & H1 & H2 & H3 & H4).
      { apply put_words_ok; [done|]. apply lor_range; [lia | apply word_range; [lia | done] | apply mod_bit; lia]. }
      { by rewrite El. }
      exists l', m. split; [done|]. split; [done|]. split; [rewrite H2; unfold l1, put_word; by rewrite length_insert|].
      split; [cbn [length]; lia|]. intros x Hx. rewrite H4 by (by rewrite El). unfold l1. rewrite getbit_set by (done || lia).
      rewrite orb_assoc. f_equal. apply eq_true_iff_eq. rewrite orb_true_iff, !bool_decide_eq_true. set_solver.
Qed.

Lemma test_bits_spec (bits l : list Z) :
  Forall (fun b => 0 <= b < bits_of 8 l) bits -> test_bits l bits = Some (forallb (getbit 8 l) bits).
Proof.
  induction 1 as [|b bits Hb _ IH]; [done|]. cbn [test_bits forallb]. rewrite cbit_test by done. cbn [mbind option_bind].
  by destruct (getbit 8 l b).
Qed.

Lemma hash_key_positions (cd : CacheDigest) (ks : list (list Z)) (key : list Z) :
  holds cd ks -> cacheDigestHashKey cd key = positions (8 * mask_size cd) key.
Proof.
  intros [_ _ Hr _]. unfold cacheDigestHashKey, positions. rewrite wrapu_small by lia. by rewrite Z.mul_comm.
Qed.

Lemma positions_range (n : Z) (key : list Z) : 0 < n -> Forall (fun b => 0 <= b < n) (positions n key).
Proof. intros Hn. unfold positions. apply Forall_forall. intros b (i & -> & _)%list_elem_of_fmap. by apply Z.mod_pos_bound. Qed.

Lemma holds_bits (cd : CacheDigest) (ks : list (list Z)) : holds cd ks -> bits_of 8 (mask cd) = 8 * mask_size cd.
Proof. intros H. unfold bits_of. by rewrite (h_size _ _ H). Qed.

Lemma init_holds (cap bpe cnt del : Z) :
  0 < cap -> 0 < bpe -> cap * bpe + 7 < 2 ^ 31 ->
  exists cd, cacheDigestInit cap bpe cnt del = Some cd /\ holds cd [] /\ count cd = cnt /\ del_count cd = del
    /\ capacity cd = cap /\ bits_per_entry cd = bpe /\ mask_size cd = cacheDigestCalcMaskSize cap bpe
    /\ mask_size cd = (cap * bpe + 7) / 8.
Proof.
  intros Hc Hb Hl. unfold cacheDigestInit, cacheDigestCalcMaskSize.
  assert (Hp : 1 <= cap * bpe) by nia.
  rewrite (wraps_small 32 (cap * bpe)), (wraps_small 32 (cap * bpe + 7)), wrapu_small by lia.
  assert (Hs : 0 < (cap * bpe + 7) / 8 < 2 ^ 28) by dlia.
  rewrite !(proj2 (Z.ltb_lt _ _)) by lia. cbn [andb]. eexists. split; [done|]. split; [|done].
  split; cbn [mask mask_size count].
  - apply Forall_replicate. lia.
  - rewrite length_replicate. lia.
  - done.
  - intros b _. by rewrite getbit_zeros.
Qed.

Lemma create_holds (cap bpe : Z) :
  0 < cap -> 0 < bpe -> cap * bpe + 7 < 2 ^ 31 ->
  exists cd, cacheDigestCreate cap bpe = Some cd /\ holds cd [] /\ count cd = 0 /\ del_count cd = 0 /\ mask_size cd = (cap * bpe + 7) / 8.
Proof.
  intros Hc Hb Hl. destruct (init_holds cap bpe 0 0 Hc Hb Hl) as (cd & E & H & Hn & Hd & _ & _ & _ & Hm). by exists cd.
Qed.

Lemma clear_holds (cd : CacheDigest) (ks : list (list Z)) : holds cd ks -> holds (cacheDigestClear cd) [].
Proof.
  intros [H1 H2 H3 H4]. split; cbn [mask mask_size cacheDigestClear].
  - apply Forall_replicate. lia.
  - rewrite length_replicate. lia.
  - done.
  - intros b _. by rewrite getbit_zeros.
Qed.

Lemma add_holds (cd : CacheDigest) (ks : list (list Z)) (key : list Z) :
  holds cd ks ->
  exists cd' n, cacheDigestAdd cd key = Some (cd', n) /\ holds cd' (key :: ks) /\ mask_size cd' = mask_size cd
    /\ count cd' = i32 (count cd + 1) /\ del_count cd' = del_count cd /\ 0 <= n <= 4.
Proof.
  intros H. unfold cacheDigestAdd. rewrite (hash_key_positions cd ks key H). pose proof (holds_bits cd ks H) as Hb.
  destruct H as [H1 H2 H3 H4].
  destruct (set_bits_spec (positions (8 * mask_size cd) key) (mask cd) 0 H1) as (l & n & -> & G1 & G2 & G3 & G4).
  { rewrite Hb. apply positions_range. lia. }
  cbn [mbind option_bind]. eexists _, _. split; [done|]. split; [|split; [done|]; split; [done|]; split; [done | exact G3]].
  split; cbn [mask mask_size count length].
  - done.
  - lia.
  - done.
  - intros b Hbr. rewrite G4 by (by rewrite Hb). cbn [existsb]. by rewrite H4.
Qed.

Lemma test_holds (cd : CacheDigest) (ks : list (list Z)) (key : list Z) :
  holds cd ks ->
  cacheDigestTest cd key = Some (forallb (fun b => existsb (fun k => bool_decide (b ∈ positions (8 * mask_size cd) k)) ks)
    (positions (8 * mask_size cd) key)).
Proof.
  intros H. unfold cacheDigestTest. rewrite (hash_key_positions cd ks key H). destruct H as [H1 H2 H3 H4] eqn:E.
  pose proof (positions_range (8 * mask_size cd) key ltac:(lia)) as Hr. rewrite test_bits_spec by (by rewrite (holds_bits cd ks H)).
  f_equal. induction Hr as [|b bs Hb Hr IH]; [done|]. cbn [forallb]. by rewrite H4, IH.
Qed.

Lemma test_iff (cd : CacheDigest) (ks : list (list Z)) (key : list Z) :
  holds cd ks ->
  cacheDigestTest cd key = Some true <->
  forall b, b ∈ positions (8 * mask_size cd) key -> exists k, k ∈ ks /\ b ∈ positions (8 * mask_size cd) k.
Proof.
  intros H. rewrite (test_holds cd ks key H), (inj_iff Some), forallb_forall. setoid_rewrite <- list_elem_of_In.
  setoid_rewrite existsb_exists. setoid_rewrite bool_decide_eq_true. by setoid_rewrite <- list_elem_of_In.
Qed.

Lemma run_holds (ops : list (bool * list Z)) (cd : CacheDigest) (ks : list (list Z)) :
  holds cd ks -> count cd = Z.of_nat (length ks) -> 0 <= del_count cd ->
  Z.of_nat (length ks) + Z.of_nat (length ops) < 2 ^ 31 -> del_count cd + Z.of_nat (length ops) < 2 ^ 31 ->
  exists cd', run ops cd = Some cd' /\ holds cd' (added ops ++ ks) /\ mask_size cd' = mask_size cd
    /\ count cd' = Z.of_nat (length (added ops ++ ks))
    /\ del_count cd' = del_count cd + Z.of_nat (length (filter (fun o => o.1 = false) ops)).
Proof.
  revert cd ks. induction ops as [|[[] k] ops IH]; intros cd ks H Hc Hd Hl Hd2; cbn [run length] in *.
  - exists cd. split; [done|]. split; [done|]. split; [done|]. split; [done|]. cbn. lia.
  - destruct (add_holds cd ks k H) as (cd1 & n & -> & H1 & Hm1 & Hc1 & Hd1 & _). cbn [mbind option_bind].
    rewrite Hc, wraps_small in Hc1 by lia.
    destruct (IH cd1 (k :: ks) H1) as (cd2 & -> & H2 & Hm2 & Hc2 & Hd3); [cbn [length]; lia | lia | cbn [length]; lia | lia |].
    assert (Ea : added ((true, k) :: ops) ++ ks = added ops ++ k :: ks).
    { unfold added. rewrite filter_cons, decide_True by done. cbn [map rev snd]. by rewrite <- app_assoc. }
    exists cd2. rewrite Ea. split; [done|]. split; [done|]. split; [congruence|]. split; [done|].
    rewrite filter_cons, decide_False by done. lia.
  - assert (Ed : del_count (cacheDigestDel cd) = del_count cd + 1) by (unfold cacheDigestDel; cbn [del_count]; apply wraps_small; lia).
    destruct (IH (cacheDigestDel cd) ks) as (cd2 & -> & H2 & Hm2 & Hc2 & Hd3); [by destruct H; split | done | lia | lia | lia |].
    assert (Ea : added ((false, k) :: ops) = added ops) by (unfold added; by rewrite filter_cons, decide_False).
    exists cd2. rewrite Ea. split; [done|]. split; [done|]. split; [done|]. split; [done|].
    rewrite filter_cons, decide_True by done. cbn [length]. lia.
Qed.

(** A digest of [cap] entries of [bpe] bits after any additions and deletions:
    no assertion fails, every key added tests true (deletions are only counted),
    and a key that tests true has each of its four bits among those of the
    keys added. *)
Lemma digest_correct (cap bpe : Z) (ops : list (bool * list Z)) :
  0 < cap -> 0 < bpe -> cap * bpe + 7 < 2 ^ 31 -> Z.of_nat (length ops) < 2 ^ 31 ->
  exists cd, (cd ← cacheDigestCreate cap bpe; run ops cd) = Some cd
    /\ count cd = Z.of_nat (length (added ops))
    /\ del_count cd = Z.of_nat (length (filter (fun o => o.1 = false) ops))
    /\ (let n := 8 * mask_size cd in
       cap * bpe <= n < cap * bpe + 8
       /\ (forall key, key ∈ added ops -> cacheDigestTest cd key = Some true)
       /\ (forall key, cacheDigestTest cd key = Some true ->
             forall b, b ∈ positions n key -> exists k, k ∈ added ops /\ b ∈ positions n k)
       /\ (forall key, cacheDigestTest cd key <> None)).
Proof.
  intros Hc Hb Hl Hops. destruct (create_holds cap bpe Hc Hb Hl) as (cd0 & -> & H0 & Hc0 & Hd0 & Hm0). cbn [mbind option_bind].
  destruct (run_holds ops cd0 [] H0) as (cd & -> & H & Hm & Hcn & Hd); [done | lia | cbn [length]; lia | lia|].
  rewrite app_nil_r in H, Hcn. exists cd. split; [done|]. split; [done|]. split; [lia|].
  split; [rewrite Hm, Hm0; dlia|].
  assert (Ht : forall key, cacheDigestTest cd key = Some true <->
    forall b, b ∈ positions (8 * mask_size cd) key -> exists k, k ∈ added ops /\ b ∈ positions (8 * mask_size cd) k).
  { intros key. by apply test_iff. }
  split; [|split; [intros key; by apply Ht | intros key; by rewrite (test_holds cd _ key H)]].
  intros key Hin. apply Ht. intros b Hbin. by exists key.
Qed.

Lemma digest_correct_witness :
  let k := replicate 16 7 in
  exists cd, (cd ← cacheDigestCreate 100 5; run [(true, k); (false, k); (true, seqZ 0 16)] cd) = Some cd
    /\ cacheDigestTest cd k = Some true /\ cacheDigestTest cd (seqZ 100 16) = Some false.
Proof.
  intros k. destruct (digest_correct 100 5 [(true, k); (false, k); (true, seqZ 0 16)]) as (cd & E & _ & _ & _ & Hin & _);
    [lia | lia | lia | cbn; lia |].
  exists cd. split; [exact E|]. split; [apply Hin; apply (bool_decide_unpack _); vm_compute; exact I|].
  vm_compute in E. injection E as <-. vm_compute. reflexivity.
Defined.

(** A digest whose capacity was changed is empty, and still counts the entries of
    before. *)
Lemma change_cap_count :
  (cd ← cacheDigestCreate 100 5; '(cd, _) ← cacheDigestAdd cd (seqZ 0 16); cd ← cacheDigestChangeCap cd 50; Some (count cd)) = Some 1.
Proof. vm_compute. reflexivity. Qed.

End Digest.
