(* ===== verification/Refresh.v ===== *)
(** * Refresh: is a cached object fresh? (src/refresh.c)

    An object may be served from the cache without asking the origin server when
    it has not expired, or when the rules of refresh_pattern, the age limits
    of the request and the options that override them say so.

    The doubles of the code are binary64 numbers of Stdlib's [SpecFloat].
    Compiled patterns are a parameter.  [None] is a failed assertion or the
    conversion to an integer of a double that does not fit. *)

From Stdlib Require Import SpecFloat.
From S2P Require Import Prelude CString Url.

Module Refresh.

(** ** Doubles *)

Abbreviation double := spec_float.
Definition of_int (n : Z) : double := binary_normalize 53 1024 n 0 false.
Definition fmul : double -> double -> double := SFmul 53 1024.
Definition fdiv : double -> double -> double := SFdiv 53 1024.

(** The conversion to a 32-bit integer cuts towards zero. *)
Definition to_int (x : double) : option Z :=
  let fit n := if (- 2 ^ 31 <=? n) && (n <? 2 ^ 31) then Some n else None in
  match x with
  | S754_zero _ => Some 0
  | S754_finite s m e =>
      let a := if 0 <=? e then Zpos m * 2 ^ e else Z.quot (Zpos m) (2 ^ (- e)) in
      fit (if s then - a else a)
  | _ => None
  end.

Section Refresh.
Context {regex : Type}.
Variable regexec : regex -> list Z -> bool.

(** ** Data *)

Record refresh_t := Rule {
  pattern : list Z;
  compiled_pattern : regex;
  rmin : Z; pct : double; rmax : Z;
  override_expire : bool; override_lastmod : bool; reload_into_ims : bool; ignore_reload : bool
}.

Record StoreEntry := Entry {
  key : list Z;
  timestamp : Z; expires : Z; lastmod : Z;
  swap_file_sz : Z;
  flags : Z;
  store_ok : bool;                      (* store_status == STORE_OK *)
  mem_url : option (list Z);            (* the URL of [mem_obj] *)
  reply_length : option Z               (* content_length of its reply *)
}.

Definition RELEASE_REQUEST : Z := 3.
Definition ENTRY_REVALIDATE : Z := 1.
Definition ENTRY_CACHABLE : Z := 5.
Definition KEY_PRIVATE : Z := 7.
Definition ENTRY_NEGCACHED : Z := 9.
Definition ENTRY_BAD_LENGTH : Z := 11.

(** [EBIT_TEST] of a flag. *)
Definition EBIT_TEST (fl bit : Z) : bool := negb (Z.land fl (Z.shiftl 1 bit) =? 0).

Record HttpHdrCc := Cc { cc_max_age : Z; cc_max_stale : Z; cc_has_max_stale : bool }.

Record request := Request { r_url : request_t; cache_control : option HttpHdrCc; nocache_hack : bool }.

(** The reasons, with their numbers. *)
Inductive reason :=
| FRESH_REQUEST_MAX_STALE_ALL | FRESH_REQUEST_MAX_STALE_VALUE | FRESH_EXPIRES | FRESH_LMFACTOR_RULE | FRESH_MIN_RULE
| FRESH_OVERRIDE_EXPIRES | FRESH_OVERRIDE_LASTMOD
| STALE_MUST_REVALIDATE | STALE_RELOAD_INTO_IMS | STALE_FORCED_RELOAD | STALE_EXCEEDS_REQUEST_MAX_AGE_VALUE
| STALE_EXPIRES | STALE_MAX_RULE | STALE_LMFACTOR_RULE | STALE_DEFAULT.

Definition reason_code (r : reason) : Z :=
  match r with
  | FRESH_REQUEST_MAX_STALE_ALL => 100 | FRESH_REQUEST_MAX_STALE_VALUE => 101 | FRESH_EXPIRES => 102
  | FRESH_LMFACTOR_RULE => 103 | FRESH_MIN_RULE => 104 | FRESH_OVERRIDE_EXPIRES => 105 | FRESH_OVERRIDE_LASTMOD => 106
  | STALE_MUST_REVALIDATE => 200 | STALE_RELOAD_INTO_IMS => 201 | STALE_FORCED_RELOAD => 202
  | STALE_EXCEEDS_REQUEST_MAX_AGE_VALUE => 203 | STALE_EXPIRES => 204 | STALE_MAX_RULE => 205
  | STALE_LMFACTOR_RULE => 206 | STALE_DEFAULT => 299
  end.

Record config := Config { rules : list refresh_t; default_rule : refresh_t; conf_reload_into_ims : bool }.

(** ** The rules (parse_refreshpattern of src/cache_cf.c) *)

(** A line with its three numbers; the options are words. *)
Definition parse_refreshpattern (pat : list Z) (comp : option regex) (min pc max : Z) (options : list (list Z)) (head : list refresh_t)
    : list refresh_t :=
  let has w := existsb (fun o => strcmp_eq o (bytes w)) options in
  match comp with
  | None => head
  | Some comp =>
      let p := fdiv (of_int pc) (of_int 100) in
      let p := match SFcompare p (S754_zero false) with Some Lt => S754_zero false | _ => p end in
      let max := i32 (max * 60) in
      head ++ [Rule pat comp (i32 (min * 60)) p (if max <? 0 then 0 else max)
                 (has "override-expire") (has "override-lastmod") (has "reload-into-ims") (has "ignore-reload")]
  end.

(** ** Freshness *)

Definition refreshLimits (cfg : config) (url : list Z) : option refresh_t :=
  head (filter (fun R => regexec (compiled_pattern R) url = true) (rules cfg)).

Definition refreshUncompiledPattern (cfg : config) (pat : list Z) : option refresh_t :=
  head (filter (fun R => strcmp_eq (pattern R) pat = true) (rules cfg)).

(** [stale_flags]. *)
Record stale_flags := Sf { sf_expires : bool; sf_min : bool; sf_lmfactor : bool; sf_max : bool }.
Definition no_flags : stale_flags := Sf false false false false.

(** The product of the last-modified factor. *)
Definition lm_age (e : StoreEntry) (R : refresh_t) : option Z := to_int (fmul (of_int (timestamp e - lastmod e)) (pct R)).

Definition refreshStaleness (e : StoreEntry) (check_time age : Z) (R : refresh_t) : option (Z * stale_flags) :=
  if -1 <? expires e then
    Some (if check_time <? expires e then -1 else check_time - expires e, Sf true false false false)
  else if age <? 0 then None
  else if rmax R <? age then Some (age - rmax R, Sf false false false true)
  else if (-1 <? lastmod e) && (lastmod e <? timestamp e) then
    stale_age ← lm_age e R;
    Some (if stale_age <=? age then age - stale_age else -1, Sf false false true false)
  else if age <=? rmin R then Some (-1, Sf false true false false)
  else Some (age - rmin R, no_flags).

Definition refresh_rule (cfg : config) (e : StoreEntry) (r : option request) : refresh_t :=
  let uri := match mem_url e with Some u => Some u | None => option_map (fun q => urlCanonical (r_url q)) r end in
  default (default_rule cfg)
    (match uri with Some u => refreshLimits cfg u | None => refreshUncompiledPattern cfg (bytes ".") end).

Definition age_of (e : StoreEntry) (check_time : Z) : Z := if timestamp e <? check_time then check_time - timestamp e else 0.

(** The checks of the request: a reason that settles the matter, and whether
    [nocache] was set on the request. *)
Definition check_request (cfg : config) (R : refresh_t) (q : request) (age staleness : Z) : option reason * bool :=
  let after_reload :=
    match cache_control q with
    | None => None
    | Some cc =>
        if (-1 <? cc_max_age cc) && negb (ignore_reload R && (cc_max_age cc =? 0)) && (cc_max_age cc <? age)
        then Some STALE_EXCEEDS_REQUEST_MAX_AGE_VALUE
        else if cc_has_max_stale cc && (-1 <? staleness) then
          if cc_max_stale cc <? 0 then Some FRESH_REQUEST_MAX_STALE_ALL
          else if staleness <? cc_max_stale cc then Some FRESH_REQUEST_MAX_STALE_VALUE
          else None
        else None
    end in
  if negb (nocache_hack q) || ignore_reload R then (after_reload, false)
  else if reload_into_ims R || conf_reload_into_ims cfg then (Some STALE_RELOAD_INTO_IMS, false)
  else (Some STALE_FORCED_RELOAD, true).

(** The end of [refreshCheck]. *)
Definition conclude (R : refresh_t) (age staleness : Z) (sf : stale_flags) : option reason :=
  if staleness =? -1 then
    if sf_expires sf then Some FRESH_EXPIRES
    else if sf_max sf then None
    else if sf_lmfactor sf then Some FRESH_LMFACTOR_RULE
    else if sf_min sf then Some FRESH_MIN_RULE
    else None
  else if sf_expires sf then Some (if override_expire R && (age <? rmin R) then FRESH_OVERRIDE_EXPIRES else STALE_EXPIRES)
  else if sf_max sf then Some STALE_MAX_RULE
  else if sf_lmfactor sf then Some (if override_lastmod R && (age <? rmin R) then FRESH_OVERRIDE_LASTMOD else STALE_LMFACTOR_RULE)
  else Some STALE_DEFAULT.

(** The reason, and whether the request is marked [nocache]. *)
Definition refreshCheck (cfg : config) (now : Z) (e : StoreEntry) (r : option request) (delta : Z) : option (reason * bool) :=
  let check_time := now + delta in
  let age := age_of e check_time in
  let R := refresh_rule cfg e r in
  '(staleness, sf) ← refreshStaleness e check_time age R;
  if EBIT_TEST (flags e) ENTRY_REVALIDATE && (-1 <? staleness) then Some (STALE_MUST_REVALIDATE, false)
  else
    match (match r with None => (None, false) | Some q => check_request cfg R q age staleness end) with
    | (Some why, nocache) => Some (why, nocache)
    | (None, _) => why ← conclude R age staleness sf; Some (why, false)
    end.

(** [refreshCounts] of one protocol: the total and the count of each status. *)
Record RefreshCounts := Counts { total : Z; status : gmap Z Z }.

Definition count_reason (why : reason) (c : RefreshCounts) : RefreshCounts :=
  Counts (i32 (total c + 1)) (<[reason_code why := i32 (default 0 (status c !! reason_code why) + 1)]> (status c)).

(** The wrappers: must the object be refreshed? *)
Definition refresh_needed (cfg : config) (now : Z) (e : StoreEntry) (r : option request) (delta : Z) (c : RefreshCounts)
    : option (bool * RefreshCounts) :=
  '(why, _) ← refreshCheck cfg now e r delta;
  Some (negb (reason_code why <? 200), count_reason why c).

Definition refreshCheckHTTP cfg now e (r : request) := refresh_needed cfg now e (Some r) 0.
Definition refreshCheckICP cfg now e (r : request) := refresh_needed cfg now e (Some r) 30.
Definition refreshCheckHTCP cfg now e (r : request) := refresh_needed cfg now e (Some r) 10.
Definition refreshCheckDigest cfg now e (mem_request : option request) delta := refresh_needed cfg now e mem_request delta.

Definition refreshIsCachable (cfg : config) (now : Z) (e : StoreEntry) (c : RefreshCounts) : option (bool * RefreshCounts) :=
  '(why, _) ← refreshCheck cfg now e None 60;
  let c := count_reason why c in
  Some (if reason_code why <? 200 then true
        else if lastmod e <? 0 then false
        else match reply_length e with None => true | Some n => negb (n =? 0) end, c).

Definition REFRESH_DEFAULT_MAX : Z := 259200.

Definition getMaxAge (cfg : config) (url : list Z) : Z :=
  match refreshLimits cfg url with Some R => rmax R | None => REFRESH_DEFAULT_MAX end.

(** ** The specification *)

Definition usable_lm (e : StoreEntry) : bool := (-1 <? lastmod e) && (lastmod e <? timestamp e).

(** Not yet stale, [sa] being the age at which the last-modified rule makes it so. *)
Definition fresh (e : StoreEntry) (R : refresh_t) (check_time sa : Z) : bool :=
  let age := age_of e check_time in
  if -1 <? expires e then check_time <? expires e
  else (age <=? rmax R) && (if usable_lm e then age <? sa else age <=? rmin R).

(** For how long a stale object has been so. *)
Definition stale_for (e : StoreEntry) (R : refresh_t) (check_time sa : Z) : Z :=
  let age := age_of e check_time in
  if -1 <? expires e then check_time - expires e
  else if rmax R <? age then age - rmax R
  else if usable_lm e then age - sa else age - rmin R.

(** The options that let a rule's minimum age override what the server said. *)
Definition overridden (e : StoreEntry) (R : refresh_t) (check_time : Z) : bool :=
  let age := age_of e check_time in
  (age <? rmin R)
  && (if -1 <? expires e then override_expire R else (age <=? rmax R) && usable_lm e && override_lastmod R).

(** What the request allows: its no-cache, max-age and max-stale. *)
Definition reload_ok (R : refresh_t) (q : request) : bool := negb (nocache_hack q) || ignore_reload R.

Definition max_age_ok (R : refresh_t) (q : request) (age : Z) : bool :=
  match cache_control q with
  | Some cc => (cc_max_age cc <? 0) || (ignore_reload R && (cc_max_age cc =? 0)) || (age <=? cc_max_age cc)
  | None => true
  end.

Definition max_stale_ok (q : request) (st : Z) : bool :=
  match cache_control q with
  | Some cc => cc_has_max_stale cc && ((cc_max_stale cc <? 0) || (st <? cc_max_stale cc))
  | None => false
  end.

Definition served (cfg : config) (now : Z) (e : StoreEntry) (r : option request) (delta sa : Z) : bool :=
  let check_time := now + delta in
  let R := refresh_rule cfg e r in
  let f := fresh e R check_time sa in
  (f || negb (EBIT_TEST (flags e) ENTRY_REVALIDATE))
  && match r with
     | None => f || overridden e R check_time
     | Some q => reload_ok R q && max_age_ok R q (age_of e check_time)
         && (f || max_stale_ok q (stale_for e R check_time sa) || overridden e R check_time)
     end.

(** ** Laws *)

Lemma age_nonneg (e : StoreEntry) (t : Z) : 0 <= age_of e t.
Proof. unfold age_of. destruct (Z.ltb_spec (timestamp e) t); lia. Qed.

(** The staleness and its flags. *)
Definition flags_ok (e : StoreEntry) (R : refresh_t) (t : Z) (f : bool) (sf : stale_flags) : Prop :=
  sf_expires sf = (-1 <? expires e)
  /\ sf_max sf = negb (-1 <? expires e) && (rmax R <? age_of e t)
  /\ sf_lmfactor sf = negb (-1 <? expires e) && negb (rmax R <? age_of e t) && usable_lm e
  /\ sf_min sf = negb (-1 <? expires e) && negb (rmax R <? age_of e t) && negb (usable_lm e) && f.

Lemma staleness_spec (e : StoreEntry) (R : refresh_t) (t sa : Z) :
  (usable_lm e = true -> lm_age e R = Some sa) ->
  exists st sf, refreshStaleness e t (age_of e t) R = Some (st, sf)
    /\ st = (if fresh e R t sa then -1 else stale_for e R t sa) /\ (fresh e R t sa = false -> 0 <= st)
    /\ flags_ok e R t (fresh e R t sa) sf.
Proof.
  intros Hlm. pose proof (age_nonneg e t) as Ha. unfold refreshStaleness, fresh, stale_for, flags_ok.
  destruct (-1 <? expires e).
  - eexists _, _. split; [done|]. destruct (Z.ltb_spec t (expires e)); repeat split; lia.
  - rewrite (proj2 (Z.ltb_ge _ _)) by lia. destruct (Z.ltb_spec (rmax R) (age_of e t)) as [Hm|Hm].
    + rewrite (proj2 (Z.leb_gt (age_of e t) (rmax R))) by lia. cbn [andb]. eexists _, _. split; [done|]. repeat split; lia.
    + rewrite (proj2 (Z.leb_le (age_of e t) (rmax R))) by lia. cbn [andb negb]. fold (usable_lm e). destruct (usable_lm e).
      * rewrite (Hlm eq_refl). cbn [mbind option_bind]. eexists _, _. split; [done|].
        destruct (Z.leb_spec sa (age_of e t)), (Z.ltb_spec (age_of e t) sa); repeat split; lia.
      * destruct (Z.leb_spec (age_of e t) (rmin R)); eexists _, _; (split; [done|]); repeat split; lia.
Qed.

(** What a request settles, in the terms of the specification. *)
Lemma check_request_spec (cfg : config) (R : refresh_t) (q : request) (age st : Z) (f : bool) :
  0 <= age -> (if f then st = -1 else 0 <= st) ->
  match (check_request cfg R q age st).1 with
  | Some why => (reason_code why <? 200) = reload_ok R q && max_age_ok R q age && negb f && max_stale_ok q st
  | None => reload_ok R q && max_age_ok R q age = true /\ (f = false -> max_stale_ok q st = false)
  end
  /\ (forall why, (check_request cfg R q age st).1 = Some why -> (reason_code why <? 200) = false -> reload_ok R q && max_age_ok R q age = false).
Proof.
  intros Ha Hst. unfold check_request, reload_ok, max_age_ok, max_stale_ok.
  destruct (negb (nocache_hack q) || ignore_reload R) eqn:Er; cbn [andb fst].
  - destruct (cache_control q) as [cc|]; [|by split; [split|]].
    assert (E : (-1 <? cc_max_age cc) && negb (ignore_reload R && (cc_max_age cc =? 0)) && (cc_max_age cc <? age)
      = negb ((cc_max_age cc <? 0) || ignore_reload R && (cc_max_age cc =? 0) || (age <=? cc_max_age cc))).
    { destruct (Z.ltb_spec (-1) (cc_max_age cc)), (Z.ltb_spec (cc_max_age cc) 0), (Z.ltb_spec (cc_max_age cc) age),
        (Z.leb_spec age (cc_max_age cc)); try lia; by destruct (ignore_reload R && _). }
    rewrite E. destruct (_ || _ || _); cbn [negb]; [|split; [by destruct f | by intros why [= <-]]].
    destruct (cc_has_max_stale cc); cbn [andb].
    + destruct f; [subst st; cbn; by split; [split|]|]. rewrite (proj2 (Z.ltb_lt (-1) st)) by lia.
      destruct (cc_max_stale cc <? 0); cbn [orb]; [split; [done | by intros why [= <-]]|].
      destruct (st <? cc_max_stale cc); (split; [done || split; done | by intros why [= <-] || done]).
    + split; [split; done | done].
  - destruct (reload_into_ims R || conf_reload_into_ims cfg); (split; [done | by intros why [= <-]]).
Qed.

Lemma conclude_spec (e : StoreEntry) (R : refresh_t) (t sa st : Z) (sf : stale_flags) :
  let f := fresh e R t sa in
  (st =? -1) = f -> flags_ok e R t f sf ->
  exists why, conclude R (age_of e t) st sf = Some why /\ (reason_code why <? 200) = f || overridden e R t.
Proof.
  intros f Hst (F1 & F2 & F3 & F4). unfold conclude, overridden. rewrite Hst, F1, F2, F3, F4. subst f. unfold fresh.
  destruct (-1 <? expires e); cbn [negb andb].
  - destruct (t <? expires e); [by eexists|]. eexists. split; [done|]. rewrite (andb_comm (override_expire R)). cbn [orb].
    by destruct (_ && override_expire R).
  - destruct (Z.ltb_spec (rmax R) (age_of e t)), (Z.leb_spec (age_of e t) (rmax R)); try lia; cbn [negb andb].
    + eexists. split; [done|]. by rewrite andb_false_r.
    + destruct (usable_lm e); cbn [negb andb].
      * destruct (age_of e t <? sa); [by eexists|]. eexists. split; [done|]. rewrite (andb_comm (override_lastmod R)). cbn [orb].
        by destruct (_ && override_lastmod R).
      * rewrite andb_false_r, orb_false_r. destruct (age_of e t <=? rmin R); by eexists.
Qed.

Lemma refresh_result (cfg : config) (now : Z) (e : StoreEntry) (r : option request) (delta sa : Z) :
  (usable_lm e = true -> lm_age e (refresh_rule cfg e r) = Some sa) ->
  exists why nocache, refreshCheck cfg now e r delta = Some (why, nocache)
    /\ (reason_code why <? 200) = served cfg now e r delta sa.
Proof.
  intros Hlm. unfold refreshCheck, served. set (t := now + delta). set (R := refresh_rule cfg e r).
  destruct (staleness_spec e R t sa Hlm) as (st & sf & -> & Est & Hst & F1 & F2 & F3 & F4). cbn [mbind option_bind].
  set (f := fresh e R t sa) in *. set (x := stale_for e R t sa) in *.
  assert (Hneg : (-1 <? st) = negb f).
  { destruct f; [by rewrite Est|]. specialize (Hst eq_refl). cbn. lia. }
  assert (Heq : (st =? -1) = f).
  { destruct f; [by rewrite Est|]. specialize (Hst eq_refl). lia. }
  destruct (conclude_spec e R t sa st sf Heq (conj F1 (conj F2 (conj F3 F4)))) as (w & Ec & Hw). fold f in Hw.
  rewrite Hneg. destruct (EBIT_TEST (flags e) ENTRY_REVALIDATE && negb f) eqn:Erv.
  { apply andb_true_iff in Erv as [-> ->%negb_true_iff]. by eexists _, _. }
  assert (Erv2 : f || negb (EBIT_TEST (flags e) ENTRY_REVALIDATE) = true) by (destruct (EBIT_TEST _ _), f; done).
  rewrite Erv2. cbn [andb]. rewrite Ec. cbn [mbind option_bind]. destruct r as [q|]; [|by eexists _, _].
  destruct (check_request_spec cfg R q (age_of e t) st f) as [H1 H2]; [apply age_nonneg | destruct f; [by rewrite Est | by apply Hst]|].
  assert (Ex : f = false -> st = x) by (by destruct f).
  destruct (check_request cfg R q (age_of e t) st) as [[why|] nc]; cbn [fst] in *; eexists _, _; (split; [done|]).
  - rewrite H1. specialize (H2 why eq_refl). rewrite H1 in H2.
    destruct (reload_ok R q && max_age_ok R q (age_of e t)); cbn [andb] in *; [|done].
    destruct f; cbn [negb andb] in *; [by specialize (H2 eq_refl)|]. rewrite <- Ex by done.
    destruct (max_stale_ok q st); [done | by specialize (H2 eq_refl)].
  - destruct H1 as [-> Hms]. rewrite Hw. cbn [andb]. destruct f; [done|]. cbn [orb]. rewrite <- Ex, Hms by done. done.
Qed.

Lemma needed_result (cfg : config) (now : Z) (e : StoreEntry) (r : option request) (delta sa : Z) (c : RefreshCounts) :
  (usable_lm e = true -> lm_age e (refresh_rule cfg e r) = Some sa) ->
  exists why, refresh_needed cfg now e r delta c = Some (negb (served cfg now e r delta sa), count_reason why c)
    /\ (reason_code why <? 200) = served cfg now e r delta sa.
Proof.
  intros H. destruct (refresh_result cfg now e r delta sa H) as (why & nc & E & Hw). unfold refresh_needed. rewrite E.
  cbn [mbind option_bind]. exists why. by rewrite Hw.
Qed.

(** C39: whether an object is served from the cache without asking the server, for an
    object the product of whose last-modified factor fits an int: when it is fresh,
    or stale within what the request accepts, or its rule overrides the server;
    never when the request forces a reload or bounds the age below the object's
    (which a rule may tell to ignore: reloads, and a max-age of 0), nor when a stale
    object must be revalidated.  No assertion fails, and the reason is counted for
    its protocol. *)
Theorem refresh_correct (cfg : config) (now : Z) (e : StoreEntry) (r : option request) (delta sa : Z) (c : RefreshCounts) :
  (usable_lm e = true -> lm_age e (refresh_rule cfg e r) = Some sa) ->
  exists why, refresh_needed cfg now e r delta c = Some (negb (served cfg now e r delta sa), count_reason why c)
    /\ (reason_code why <? 200) = served cfg now e r delta sa.
Proof. apply needed_result. Qed.
End Refresh.

(** An object of an hour, last modified a day before it was stored, under the
    rule [. 0 20% 4320]. *)
Definition demo_cfg : config := Config (parse_refreshpattern (bytes ".") (Some tt) 0 20 4320 [] []) (Rule (bytes "<none>") tt 0 (S754_zero false) 259200 false false false false) false.
Definition demo_entry : StoreEntry := Entry (replicate 16 1) 1000000 (-1) (1000000 - 86400) 5000 (2 ^ ENTRY_CACHABLE) true (Some (bytes "http://a/")) (Some 5000).

Lemma refresh_correct_witness :
  lm_age demo_entry (refresh_rule (fun _ _ => true) demo_cfg demo_entry None) = Some 17280
  /\ exists why, refresh_needed (fun _ _ => true) demo_cfg 1003600 demo_entry None 0 (Counts 0 ∅) = Some (false, count_reason why (Counts 0 ∅)).
Proof.
  split; [vm_compute; reflexivity|].
  destruct (refresh_correct (fun _ _ => true) demo_cfg 1003600 demo_entry None 0 17280 (Counts 0 ∅)) as (why & E & _);
    [intros _; vm_compute; reflexivity|].
  exists why. rewrite E. do 2 f_equal. 
Defined.
End Refresh.
