(* ===== verification/StoreDigest.v ===== *)
(** * StoreDigest: publishing the digest of the cache

    src/store_digest.c rebuilds the digest of the local cache bucket by bucket
    and writes it, chunk by chunk, into an object that other proxies fetch;
    both run as events, in any interleaving, and wait for each other.
    src/peer_digest.c reads such an object.

    What a step finds - the time, the hash table of the store, its sizes - is the
    record [world].  The scheduled calls are the list [pending]; their times
    are left out, so any of them may come next.  An object is the bytes of its
    body.  [None] is a failed assertion. *)

From S2P Require Import Prelude CString Url Bits Digest Refresh.
Import Digest Refresh.

Module StoreDigest.
Section StoreDigest.
Context {regex : Type}.
Variable regexec : regex -> list Z -> bool.

Record config := Conf {
  refresh_conf : Refresh.config (regex := regex);
  maxObjectSize : Z; maxSize : Z; avgObjectSize : Z;
  rebuild_period : Z; rebuild_chunk_percentage : Z; swapout_chunk_size : Z; conf_bits_per_entry : Z;
  store_hash_buckets : Z
}.

Record world := World {
  now : Z;
  store_table : list (list StoreEntry);
  mem_request : StoreEntry -> option request;
  store_swap_size : Z;
  entries_in_use : Z
}.

Inductive callback := RebuildStart | RebuildStep | RewriteStart | SwapOutStep.

Record StoreDigestStats := Stats {
  s_del_count : Z; s_del_lost_count : Z; s_add_count : Z; s_add_coll_count : Z; s_rej_count : Z; s_rej_coll_count : Z
}.
Definition no_stats : StoreDigestStats := Stats 0 0 0 0 0 0.

(** [sd_state], the digest, [sd_stats], the counters of refresh.c, the scheduled
    calls and the objects completed so far.  The object that [rewrite_lock]
    points to is its content. *)
Record sd := SD {
  store_digest : CacheDigest;
  rebuild_lock : bool; rewrite_lock : option (list Z);
  rebuild_offset : Z; rewrite_offset : Z; rebuild_count : Z; rewrite_count : Z;
  sd_stats : StoreDigestStats; counts : RefreshCounts;
  pending : list callback; published : list (list Z)
}.

Definition set_digest (d : CacheDigest) (s : sd) : sd :=
  SD d (rebuild_lock s) (rewrite_lock s) (rebuild_offset s) (rewrite_offset s) (rebuild_count s) (rewrite_count s)
    (sd_stats s) (counts s) (pending s) (published s).
Definition set_rebuild (lock : bool) (off cnt : Z) (s : sd) : sd :=
  SD (store_digest s) lock (rewrite_lock s) off (rewrite_offset s) cnt (rewrite_count s) (sd_stats s) (counts s) (pending s) (published s).
Definition set_rewrite (lock : option (list Z)) (off cnt : Z) (s : sd) : sd :=
  SD (store_digest s) (rebuild_lock s) lock (rebuild_offset s) off (rebuild_count s) cnt (sd_stats s) (counts s) (pending s) (published s).
Definition set_stats (st : StoreDigestStats) (s : sd) : sd :=
  SD (store_digest s) (rebuild_lock s) (rewrite_lock s) (rebuild_offset s) (rewrite_offset s) (rebuild_count s) (rewrite_count s)
    st (counts s) (pending s) (published s).
Definition set_counts (c : RefreshCounts) (s : sd) : sd :=
  SD (store_digest s) (rebuild_lock s) (rewrite_lock s) (rebuild_offset s) (rewrite_offset s) (rebuild_count s) (rewrite_count s)
    (sd_stats s) c (pending s) (published s).
Definition set_pending (p : list callback) (s : sd) : sd :=
  SD (store_digest s) (rebuild_lock s) (rewrite_lock s) (rebuild_offset s) (rewrite_offset s) (rebuild_count s) (rewrite_count s)
    (sd_stats s) (counts s) p (published s).
Definition eventAdd (c : callback) (s : sd) : sd := set_pending (pending s ++ [c]) s.
Definition publish (o : list Z) (s : sd) : sd :=
  SD (store_digest s) (rebuild_lock s) (rewrite_lock s) (rebuild_offset s) (rewrite_offset s) (rebuild_count s) (rewrite_count s)
    (sd_stats s) (counts s) (pending s) (published s ++ [o]).

Variable cfg : config.

(** ** Size and content *)

Definition storeDigestCalcCap (w : world) : Z :=
  let hi_cap := Z.quot (maxSize cfg) (avgObjectSize cfg) in
  let lo_cap := 1 + Z.quot (store_swap_size w) (avgObjectSize cfg) in
  let cap := if entries_in_use w =? 0 then hi_cap else entries_in_use w in
  if cap <? lo_cap then lo_cap else cap.

(** [None] inside: a small change, no resize. *)
Definition storeDigestResize (w : world) (d : CacheDigest) : option (option CacheDigest) :=
  let cap := storeDigestCalcCap w in
  if Z.abs (cap - capacity d) <=? Z.quot (capacity d) 10 then Some None
  else d ← cacheDigestChangeCap d cap; Some (Some d).

Definition storeDigestAddable (w : world) (e : StoreEntry) (c : RefreshCounts) : option (bool * RefreshCounts) :=
  if negb (EBIT_TEST (flags e) ENTRY_CACHABLE) then Some (false, c)
  else if EBIT_TEST (flags e) KEY_PRIVATE then Some (false, c)
  else if EBIT_TEST (flags e) ENTRY_NEGCACHED then Some (false, c)
  else if EBIT_TEST (flags e) RELEASE_REQUEST then Some (false, c)
  else if store_ok e && EBIT_TEST (flags e) ENTRY_BAD_LENGTH then Some (false, c)
  else if maxObjectSize cfg <? swap_file_sz e then Some (false, c)
  else
    '(stale, c) ← refreshCheckDigest regexec (refresh_conf cfg) (now w) e (mem_request w e) (rebuild_period cfg) c;
    Some (negb stale, c).

Definition storeDigestAdd (w : world) (e : StoreEntry) (s : sd) : option sd :=
  '(addable, c) ← storeDigestAddable w e (counts s);
  let s := set_counts c s in
  t ← cacheDigestTest (store_digest s) (key e);
  let st := sd_stats s in
  if (addable : bool) then
    '(d, _) ← cacheDigestAdd (store_digest s) (key e);
    Some (set_digest d (set_stats
      (Stats (s_del_count st) (s_del_lost_count st) (s_add_count st + 1) (s_add_coll_count st + Z.b2z t) (s_rej_count st) (s_rej_coll_count st)) s))
  else
    Some (set_stats
      (Stats (s_del_count st) (s_del_lost_count st) (s_add_count st) (s_add_coll_count st) (s_rej_count st + 1) (s_rej_coll_count st + Z.b2z t)) s).

Definition storeDigestDel (e : StoreEntry) (s : sd) : option sd :=
  if EBIT_TEST (flags e) KEY_PRIVATE then Some s
  else
    t ← cacheDigestTest (store_digest s) (key e);
    let st := sd_stats s in
    if (t : bool) then
      Some (set_digest (cacheDigestDel (store_digest s)) (set_stats
        (Stats (s_del_count st + 1) (s_del_lost_count st) (s_add_count st) (s_add_coll_count st) (s_rej_count st) (s_rej_coll_count st)) s))
    else
      Some (set_stats
        (Stats (s_del_count st) (s_del_lost_count st + 1) (s_add_count st) (s_add_coll_count st) (s_rej_count st) (s_rej_coll_count st)) s).

(** ** The object: a control block of 128 bytes, then the mask *)

Definition CacheDigestVer : Z * Z := (5, 3).
Definition CacheDigestHashFuncCount : Z := 4.

(** [htons] and [htonl] of a number stored in a struct. *)
Definition be16 (x : Z) : list Z := [x / 2 ^ 8 mod 256; x mod 256].
Definition be32 (x : Z) : list Z := [x / 2 ^ 24 mod 256; x / 2 ^ 16 mod 256; x / 2 ^ 8 mod 256; x mod 256].

Definition cblock (d : CacheDigest) : list Z :=
  be16 CacheDigestVer.1 ++ be16 CacheDigestVer.2 ++ be32 (capacity d) ++ be32 (count d) ++ be32 (del_count d) ++ be32 (mask_size d)
  ++ [u8 (conf_bits_per_entry cfg); u8 CacheDigestHashFuncCount] ++ replicate 106 0.

(** ** The events *)

(** From the point where no rebuild runs: the object starts with the block. *)
Definition storeDigestRewriteResume (s : sd) : option sd :=
  match rewrite_lock s with
  | Some e =>
      if rebuild_lock s then None
      else Some (eventAdd SwapOutStep (set_rewrite (Some (e ++ cblock (store_digest s))) 0 (rewrite_count s) s))
  | None => None
  end.

Definition storeDigestRebuildResume (w : world) (s : sd) : option sd :=
  if rebuild_lock s && bool_decide (rewrite_lock s = None) then
    r ← storeDigestResize w (store_digest s);
    let d := match r with Some d => d | None => cacheDigestClear (store_digest s) end in
    Some (eventAdd RebuildStep (set_stats no_stats (set_digest d (set_rebuild (rebuild_lock s) 0 (rebuild_count s) s))))
  else None.

Definition storeDigestRebuildStart (w : world) (s : sd) : option sd :=
  if rebuild_lock s then Some s
  else
    let s := set_rebuild true (rebuild_offset s) (rebuild_count s) s in
    match rewrite_lock s with
    | Some _ => Some s
    | None => storeDigestRebuildResume w s
    end.

Definition storeDigestRewriteStart (s : sd) : option sd :=
  match rewrite_lock s with
  | Some _ => Some s
  | None =>
      let s := set_rewrite (Some []) (rewrite_offset s) (rewrite_count s) s in
      if rebuild_lock s then Some s else storeDigestRewriteResume s
  end.

Definition storeDigestRebuildFinish (s : sd) : option sd :=
  if rebuild_lock s then
    let s := eventAdd RebuildStart (set_rebuild false (rebuild_offset s) (i32 (rebuild_count s + 1)) s) in
    match rewrite_lock s with
    | Some _ => storeDigestRewriteResume s
    | None => Some s
    end
  else None.

Fixpoint add_entries (w : world) (l : list StoreEntry) (s : sd) : option sd :=
  match l with
  | [] => Some s
  | e :: l => s ← storeDigestAdd w e s; add_entries w l s
  end.

(** [bcount] buckets from [rebuild_offset] on; [hash_get_bucket] gives an empty one
    behind the table. *)
Fixpoint add_buckets (w : world) (bcount : nat) (s : sd) : option sd :=
  match bcount with
  | O => Some s
  | S bcount =>
      s ← add_entries w (default [] (store_table w !! Z.to_nat (rebuild_offset s))) s;
      add_buckets w bcount (set_rebuild (rebuild_lock s) (rebuild_offset s + 1) (rebuild_count s) s)
  end.

(** [ceil] of a percentage of the buckets. *)
Definition ceil_int (x : double) : Z :=
  match x with
  | SpecFloat.S754_finite s m e =>
      let v := if s then Zneg m else Zpos m in if 0 <=? e then v * 2 ^ e else - ((- v) / 2 ^ (- e))
  | _ => 0
  end.

Definition chunk_buckets : Z :=
  ceil_int (fdiv (fmul (of_int (store_hash_buckets cfg)) (of_int (rebuild_chunk_percentage cfg))) (of_int 100)).

Definition storeDigestRebuildStep (w : world) (s : sd) : option sd :=
  if rebuild_lock s then
    let bcount := if store_hash_buckets cfg <? rebuild_offset s + chunk_buckets
                  then store_hash_buckets cfg - rebuild_offset s else chunk_buckets in
    s ← add_buckets w (Z.to_nat bcount) s;
    if store_hash_buckets cfg <=? rebuild_offset s then storeDigestRebuildFinish s else Some (eventAdd RebuildStep s)
  else None.

Definition storeDigestRewriteFinish (w : world) (s : sd) : option sd :=
  match rewrite_lock s with
  | None => None
  | Some e =>
      let s := eventAdd RewriteStart (publish e (set_rewrite None (rewrite_offset s) (i32 (rewrite_count s + 1)) s)) in
      if rebuild_lock s then storeDigestRebuildResume w s else Some s
  end.

Definition storeDigestSwapOutStep (w : world) (s : sd) : option sd :=
  match rewrite_lock s with
  | None => None
  | Some e =>
      let size := mask_size (store_digest s) in
      let chunk_size := if size <? rewrite_offset s + swapout_chunk_size cfg then size - rewrite_offset s else swapout_chunk_size cfg in
      let e := e ++ take (Z.to_nat chunk_size) (drop (Z.to_nat (rewrite_offset s)) (mask (store_digest s))) in
      let s := set_rewrite (Some e) (rewrite_offset s + chunk_size) (rewrite_count s) s in
      if size <=? rewrite_offset s then storeDigestRewriteFinish w s else Some (eventAdd SwapOutStep s)
  end.

Definition run_callback (w : world) (c : callback) (s : sd) : option sd :=
  match c with
  | RebuildStart => storeDigestRebuildStart w s
  | RebuildStep => storeDigestRebuildStep w s
  | RewriteStart => storeDigestRewriteStart s
  | SwapOutStep => storeDigestSwapOutStep w s
  end.

Definition storeDigestInit (w : world) : option sd :=
  d ← cacheDigestCreate (storeDigestCalcCap w) (conf_bits_per_entry cfg);
  Some (SD d false None 0 0 0 0 no_stats (Counts 0 ∅) [] []).

Definition storeDigestNoteStoreReady (w : world) (s : sd) : option sd :=
  s ← storeDigestRebuildStart w s; storeDigestRewriteStart s.

(** An object of the store is deleted, or the [i]-th scheduled call is made. *)
Inductive op := Delete (e : StoreEntry) | Fire (i : nat) (w : world).

Definition exec (o : op) (s : sd) : option sd :=
  match o with
  | Delete e => storeDigestDel e s
  | Fire i w =>
      match pending s !! i with
      | None => Some s
      | Some c => run_callback w c (set_pending (delete i (pending s)) s)
      end
  end.

Fixpoint exec_all (l : list op) (s : sd) : option sd :=
  match l with
  | [] => Some s
  | o :: l => s ← exec o s; exec_all l s
  end.
(** ** The specification *)

(** How long an object stays fresh by its modification time, [0] where its rule
    does not ask for it. *)
Definition lm_limit (w : world) (e : StoreEntry) : option Z := lm_age e (refresh_rule regexec (refresh_conf cfg) e (mem_request w e)).

(** An object that the digest is to hold: public, cachable, complete, not too big and
    fresh until the next rebuild. *)
Definition digestible (w : world) (e : StoreEntry) : bool :=
  EBIT_TEST (flags e) ENTRY_CACHABLE && negb (EBIT_TEST (flags e) KEY_PRIVATE) && negb (EBIT_TEST (flags e) ENTRY_NEGCACHED)
  && negb (EBIT_TEST (flags e) RELEASE_REQUEST) && negb (store_ok e && EBIT_TEST (flags e) ENTRY_BAD_LENGTH)
  && (swap_file_sz e <=? maxObjectSize cfg)
  && served regexec (refresh_conf cfg) (now w) e (mem_request w e) (rebuild_period cfg) (default 0 (lm_limit w e)).

(** What a step may find: a table of objects whose freshness can be computed, and sizes
    whose digest fits an int. *)
Record sane (w : world) : Prop := {
  w_ages : Forall (Forall (fun e => usable_lm e = true -> lm_limit w e <> None)) (store_table w);
  w_cap : 0 < storeDigestCalcCap w /\ storeDigestCalcCap w * conf_bits_per_entry cfg + 7 < 2 ^ 31
}.

Record config_ok : Prop := {
  c_bpe : 0 < conf_bits_per_entry cfg;
  c_chunk : 0 < chunk_buckets;
  c_out : 0 < swapout_chunk_size cfg;
  c_buckets : 0 < store_hash_buckets cfg
}.

(** The worlds that the calls of a run find. *)
Fixpoint worlds_of (l : list op) : list world :=
  match l with
  | [] => []
  | Delete _ :: l => worlds_of l
  | Fire _ w :: l => w :: worlds_of l
  end.

(** An object that stays where it is, digestible, as long as [ws] lasts. *)
Definition stays (ws : list world) (x : nat * StoreEntry) : Prop :=
  Z.of_nat x.1 < store_hash_buckets cfg
  /\ Forall (fun w => (exists b, store_table w !! x.1 = Some b /\ x.2 ∈ b) /\ digestible w x.2 = true) ws.

(** A key that some step found with a digestible object. *)
Definition found (ws : list world) (k : list Z) : Prop :=
  exists w e, w ∈ ws /\ e ∈ concat (store_table w) /\ digestible w e = true /\ key e = k.

(** ** The digest during a rebuild *)

Section Invariant.
Variable ws : list world.
Variable kept : nat * StoreEntry -> Prop.
Hypothesis conf_ok : config_ok.
Hypothesis ws_sane : Forall sane ws.
Hypothesis kept_stay : forall x, kept x -> stays ws x.

Lemma addable_spec (w : world) (e : StoreEntry) (c : RefreshCounts) :
  (usable_lm e = true -> lm_limit w e <> None) -> exists c', storeDigestAddable w e c = Some (digestible w e, c').
Proof.
  intros H. unfold storeDigestAddable, digestible.
  destruct (EBIT_TEST (flags e) ENTRY_CACHABLE); cbn [negb andb]; [|by eexists].
  destruct (EBIT_TEST (flags e) KEY_PRIVATE); cbn [negb andb]; [by eexists|].
  destruct (EBIT_TEST (flags e) ENTRY_NEGCACHED); cbn [negb andb]; [by eexists|].
  destruct (EBIT_TEST (flags e) RELEASE_REQUEST); cbn [negb andb]; [by eexists|].
  destruct (store_ok e && EBIT_TEST (flags e) ENTRY_BAD_LENGTH); cbn [negb andb]; [by eexists|].
  rewrite Z.leb_antisym. destruct (maxObjectSize cfg <? swap_file_sz e); cbn [negb andb]; [by eexists|].
  destruct (needed_result regexec (refresh_conf cfg) (now w) e (mem_request w e) (rebuild_period cfg) (default 0 (lm_limit w e)) c)
    as (why & E & _).
  { intros U. specialize (H U). unfold lm_limit in *. by destruct (lm_age _ _). }
  unfold refreshCheckDigest. rewrite E. cbn [mbind option_bind]. rewrite negb_involutive. by eexists.
Qed.
Lemma in_tables (t : list (list StoreEntry)) (e : StoreEntry) : e ∈ concat t <-> exists b, b ∈ t /\ e ∈ b.
Proof. rewrite list_elem_of_In, in_concat. by setoid_rewrite list_elem_of_In. Qed.

Definition of_world (w : world) (e : StoreEntry) : Prop := w ∈ ws /\ e ∈ concat (store_table w).

Lemma entry_aged (w : world) (e : StoreEntry) : of_world w e -> usable_lm e = true -> lm_limit w e <> None.
Proof.
  intros [Hw (b & He & Hb)%in_tables]. rewrite Forall_forall in ws_sane. pose proof (w_ages w (ws_sane w Hw)) as H.
  rewrite Forall_forall in H. specialize (H b He). rewrite Forall_forall in H. by apply H.
Qed.

(** What the additions of a step leave alone. *)
Definition control (s : sd) : bool * option (list Z) * Z * list callback * list (list Z) :=
  (rebuild_lock s, rewrite_lock s, rewrite_offset s, pending s, published s).

(** The form and content of a digest of the store. *)
Record good (d : CacheDigest) (ks : list (list Z)) : Prop := {
  g_bpe : bits_per_entry d = conf_bits_per_entry cfg;
  g_cap : 0 < capacity d /\ capacity d * bits_per_entry d + 7 < 2 ^ 31;
  g_holds : holds d ks;
  g_found : Forall (found ws) ks;
  g_size : mask_size d = cacheDigestCalcMaskSize (capacity d) (bits_per_entry d)
}.

Lemma add_form (d d' : CacheDigest) (k : list Z) (n : Z) :
  cacheDigestAdd d k = Some (d', n) -> bits_per_entry d' = bits_per_entry d /\ capacity d' = capacity d.
Proof. unfold cacheDigestAdd. destruct (set_bits _ _ _) as [[l m]|]; cbn [mbind option_bind]; [|done]. by intros [= <- _]. Qed.

Lemma storeDigestAdd_good (w : world) (e : StoreEntry) (s : sd) (ks : list (list Z)) :
  good (store_digest s) ks -> of_world w e ->
  exists s', storeDigestAdd w e s = Some s' /\ control s' = control s /\ rebuild_offset s' = rebuild_offset s
    /\ good (store_digest s') (if digestible w e then key e :: ks else ks).
Proof.
  intros G He. unfold storeDigestAdd. destruct (addable_spec w e (counts s) (entry_aged w e He)) as (c & ->). cbn [mbind option_bind].
  cbn [set_counts store_digest]. rewrite (test_holds _ ks _ (g_holds _ _ G)). cbn [mbind option_bind].
  destruct (digestible w e) eqn:D; [|by eexists].
  destruct (add_holds (store_digest s) ks (key e) (g_holds _ _ G)) as (d & n & E & H & Hm & _). rewrite E.
  destruct (add_form _ _ _ _ E) as [Eb Ec]. cbn [mbind option_bind]. eexists. split; [done|]. split; [done|]. split; [done|].
  destruct G, He. cbn [store_digest set_digest]. split; [congruence | congruence | done | | congruence].
  apply Forall_cons. split; [|done]. by exists w, e.
Qed.

Definition keys_of (w : world) (l : list StoreEntry) : list (list Z) := rev (map key (filter (fun e => digestible w e = true) l)).

Lemma add_entries_good (w : world) (l : list StoreEntry) (s : sd) (ks : list (list Z)) :
  good (store_digest s) ks -> Forall (of_world w) l ->
  exists s', add_entries w l s = Some s' /\ control s' = control s /\ rebuild_offset s' = rebuild_offset s
    /\ good (store_digest s') (keys_of w l ++ ks).
Proof.
  revert s ks. induction l as [|e l IH]; intros s ks G Hl; cbn [add_entries]; [by exists s|].
  apply Forall_cons in Hl as [He Hl]. destruct (storeDigestAdd_good w e s ks G He) as (s1 & -> & C1 & O1 & G1). cbn [mbind option_bind].
  destruct (IH s1 _ G1 Hl) as (s2 & -> & C2 & O2 & G2). exists s2. split; [done|]. split; [congruence|]. split; [congruence|].
  unfold keys_of in *. rewrite filter_cons. destruct (digestible w e) eqn:D.
  - rewrite decide_True by done. cbn [map rev]. by rewrite <- app_assoc.
  - by rewrite decide_False.
Qed.

Lemma kept_key (w : world) (x : nat * StoreEntry) :
  kept x -> w ∈ ws -> key x.2 ∈ keys_of w (default [] (store_table w !! x.1)).
Proof.
  intros Hk Hw. destruct (kept_stay x Hk) as [_ H]. rewrite Forall_forall in H. destruct (H w Hw) as [(b & -> & Hb) D].
  cbn [default]. unfold keys_of. rewrite list_elem_of_In, <- in_rev, <- list_elem_of_In. apply list_elem_of_fmap. exists x.2. split; [done|]. by apply list_elem_of_filter.
Qed.

(** The digest covers the first [off] buckets. *)
Definition covers (d : CacheDigest) (off : Z) : Prop :=
  exists ks, good d ks /\ forall x, kept x -> Z.of_nat x.1 < off -> key x.2 ∈ ks.

Lemma add_buckets_covers (w : world) (n : nat) (s : sd) :
  w ∈ ws -> 0 <= rebuild_offset s -> covers (store_digest s) (rebuild_offset s) ->
  exists s', add_buckets w n s = Some s' /\ control s' = control s /\ rebuild_offset s' = rebuild_offset s + Z.of_nat n
    /\ covers (store_digest s') (rebuild_offset s').
Proof.
  intros Hw. revert s. induction n as [|n IH]; intros s Ho (ks & G & K); cbn [add_buckets].
  { exists s. rewrite Z.add_0_r. split; [done|]. split; [done|]. split; [done|]. by exists ks. }
  set (b := default [] _). destruct (add_entries_good w b s ks G) as (s1 & -> & C1 & O1 & G1).
  { apply Forall_forall. intros e He. split; [done|]. unfold b in He. destruct (store_table w !! _) as [l|] eqn:E; [|by apply not_elem_of_nil in He].
    apply in_tables. exists l. split; [by apply list_elem_of_lookup_2 in E | done]. }
  cbn [mbind option_bind]. destruct (IH (set_rebuild (rebuild_lock s1) (rebuild_offset s1 + 1) (rebuild_count s1) s1)) as (s2 & -> & C2 & O2 & V2).
  { cbn. lia. }
  { eexists. split; [exact G1|]. intros x Hx Hlt. cbn [rebuild_offset set_rebuild] in Hlt. apply elem_of_app.
    destruct (decide (Z.of_nat x.1 < rebuild_offset s)) as [Hl|Hl]; [right; by apply K|]. left.
    assert (Ei : Z.to_nat (rebuild_offset s) = x.1) by lia. unfold b. rewrite Ei. by apply kept_key. }
  exists s2. split; [done|]. split; [by rewrite C2|]. split; [|done]. rewrite O2. cbn [rebuild_offset set_rebuild]. lia.
Qed.
(** ** The states between the calls *)

(** The calls scheduled: a rebuild and a rewrite each have one, unless the one waits for
    the other. *)
Definition pending_of (lock : bool) (rw : option (list Z)) : list callback :=
  match lock, rw with
  | false, None => [RebuildStart; RewriteStart]
  | true, None => [RebuildStep; RewriteStart]
  | true, Some [] => [RebuildStep]
  | false, Some _ => [RebuildStart; SwapOutStep]
  | true, Some (_ :: _) => [SwapOutStep]
  end.

Definition rebuilding (lock : bool) (rw : option (list Z)) : bool :=
  lock && match rw with None | Some [] => true | Some (_ :: _) => false end.

(** The whole object of a digest. *)
Definition written (d : CacheDigest) : list Z := cblock d ++ mask d.

Definition object_ok (d : CacheDigest) (off : Z) (lock : bool) (rw : option (list Z)) : Prop :=
  match rw with
  | None => True
  | Some [] => lock = true
  | Some e => exists d0, covers d0 (store_hash_buckets cfg) /\ mask d0 = mask d /\ mask_size d0 = mask_size d
      /\ 0 <= off < mask_size d /\ e = cblock d0 ++ take (Z.to_nat off) (mask d)
  end.

Record core (s : sd) : Prop := {
  i_published : Forall (fun o => exists d, covers d (store_hash_buckets cfg) /\ o = written d) (published s);
  i_digest : if rebuilding (rebuild_lock s) (rewrite_lock s)
             then 0 <= rebuild_offset s < store_hash_buckets cfg /\ covers (store_digest s) (rebuild_offset s)
             else covers (store_digest s) (store_hash_buckets cfg);
  i_object : object_ok (store_digest s) (rewrite_offset s) (rebuild_lock s) (rewrite_lock s)
}.

Definition inv (s : sd) : Prop := core s /\ pending s ≡ₚ pending_of (rebuild_lock s) (rewrite_lock s).

Lemma rest1 (a c : callback) (p : list callback) : [a] ≡ₚ c :: p -> c = a /\ p = [].
Proof. intros H%Permutation_singleton_l. by injection H as -> ->. Qed.

Lemma rest2 (a b c : callback) (p : list callback) : [a; b] ≡ₚ c :: p -> c = a /\ p = [b] \/ c = b /\ p = [a].
Proof.
  intros H. assert (Hc : c ∈ [a; b]) by (rewrite H; left). apply elem_of_cons in Hc as [->|Hc].
  - apply Permutation_cons_inv in H. left. split; [done|]. by apply Permutation_singleton_l in H.
  - apply list_elem_of_singleton in Hc as ->. right. split; [done|]. rewrite (Permutation_swap b a []) in H.
    apply Permutation_cons_inv in H. by apply Permutation_singleton_l in H.
Qed.

Lemma covers_le (d : CacheDigest) (off off' : Z) : off' <= off -> covers d off -> covers d off'.
Proof. intros Hl (ks & G & K). exists ks. split; [done|]. intros x Hx H. apply K; [done | lia]. Qed.

Lemma covers_pos (d : CacheDigest) (off : Z) : covers d off -> 0 < mask_size d.
Proof. intros (ks & G & _). pose proof (h_range _ _ (g_holds _ _ G)). lia. Qed.

Lemma cblock_cons (d : CacheDigest) : exists b l, cblock d = b :: l.
Proof. by eexists _, _. Qed.

#[local] Arguments cblock _ : simpl never.

(** A rebuild that starts has an empty digest. *)
Lemma rebuild_resume (w : world) (s : sd) (off : Z) :
  w ∈ ws -> rebuild_lock s = true -> rewrite_lock s = None -> covers (store_digest s) off ->
  Forall (fun o => exists d, covers d (store_hash_buckets cfg) /\ o = written d) (published s) ->
  exists s', storeDigestRebuildResume w s = Some s' /\ core s' /\ rebuild_lock s' = true /\ rewrite_lock s' = None
    /\ pending s' = pending s ++ [RebuildStep].
Proof.
  intros Hw Hl Hr (ks & G & _) Hp. unfold storeDigestRebuildResume. rewrite Hl, Hr. rewrite bool_decide_eq_true_2 by done. cbn [andb].
  assert (exists r, storeDigestResize w (store_digest s) = Some r
    /\ good (match r with Some d => d | None => cacheDigestClear (store_digest s) end) []) as (r & -> & Hd).
  { unfold storeDigestResize. destruct (_ <=? _).
    - exists None. split; [done|]. destruct G. split; try done. by apply (clear_holds _ ks).
    - rewrite Forall_forall in ws_sane. destruct (w_cap w (ws_sane w Hw)) as [H1 H2]. unfold cacheDigestChangeCap.
      rewrite (g_bpe _ _ G).
      destruct (init_holds (storeDigestCalcCap w) (conf_bits_per_entry cfg) (count (store_digest s)) (del_count (store_digest s)))
        as (d & -> & H & _ & _ & Hc & Hb & Hm & _); [done | apply conf_ok | done |].
      exists (Some d). split; [done|]. split; [done | lia | done | done | by rewrite Hm, Hc, Hb]. }
  cbn [mbind option_bind]. eexists. split; [done|]. pose proof (c_buckets conf_ok).
  split; [|by cbn]. split; cbn; rewrite ?Hr, ?Hl; [done | | done]. split; [lia|].
  exists []. split; [done|]. intros x _ Hx. lia.
Qed.
(** A rewrite starts once the digest is complete. *)
Lemma rewrite_resume (s : sd) :
  rebuild_lock s = false -> rewrite_lock s = Some [] -> covers (store_digest s) (store_hash_buckets cfg) ->
  Forall (fun o => exists d, covers d (store_hash_buckets cfg) /\ o = written d) (published s) ->
  exists s', storeDigestRewriteResume s = Some s' /\ core s' /\ rebuild_lock s' = false
    /\ rewrite_lock s' = Some (cblock (store_digest s)) /\ pending s' = pending s ++ [SwapOutStep].
Proof.
  intros Hl Hr Hc Hp. unfold storeDigestRewriteResume. rewrite Hl, Hr. cbn [app]. eexists. split; [done|].
  pose proof (covers_pos _ _ Hc). destruct (cblock_cons (store_digest s)) as (b & l & E).
  split; [|done]. split; cbn [published set_rewrite eventAdd set_pending store_digest rebuild_lock rewrite_lock rewrite_offset].
  - done.
  - by rewrite Hl.
  - rewrite E. cbn [object_ok]. exists (store_digest s). rewrite <- E. cbn [take]. by rewrite app_nil_r.
Qed.

Definition runs (w : world) (c : callback) (s : sd) : Prop := exists s', run_callback w c s = Some s' /\ inv s'.

Lemma rebuild_start_inv (w : world) (s : sd) :
  w ∈ ws -> core s -> pending_of (rebuild_lock s) (rewrite_lock s) ≡ₚ RebuildStart :: pending s -> runs w RebuildStart s.
Proof.
  intros Hw [Ip Id Io] Hp. unfold runs, run_callback, storeDigestRebuildStart.
  destruct (rebuild_lock s) eqn:El, (rewrite_lock s) as [[|b e]|] eqn:Er; cbn [pending_of] in Hp.
  - by destruct (rest1 _ _ _ Hp).
  - by destruct (rest1 _ _ _ Hp).
  - by destruct (rest2 _ _ _ _ Hp) as [[? _]|[? _]].
  - by cbn in Io.
  - destruct (rest2 _ _ _ _ Hp) as [[_ Hp']|[? _]]; [|done]. cbn [set_rebuild rewrite_lock]. rewrite Er.
    eexists. split; [done|]. split; [split; cbn|]; cbn; rewrite ?Er, ?Hp'; done.
  - destruct (rest2 _ _ _ _ Hp) as [[_ Hp']|[? _]]; [|done]. cbn [set_rebuild rewrite_lock]. rewrite Er.
    destruct (rebuild_resume w (set_rebuild true (rebuild_offset s) (rebuild_count s) s) (store_hash_buckets cfg))
      as (s' & E & C & L & R & P); [done | done | done | done | done |].
    rewrite E. exists s'. split; [done|]. split; [done|]. rewrite L, R, P. cbn. rewrite Hp'. apply Permutation_swap.
Qed.

Lemma rewrite_start_inv (w : world) (s : sd) :
  core s -> pending_of (rebuild_lock s) (rewrite_lock s) ≡ₚ RewriteStart :: pending s -> runs w RewriteStart s.
Proof.
  intros [Ip Id Io] Hp. unfold runs, run_callback, storeDigestRewriteStart.
  destruct (rebuild_lock s) eqn:El, (rewrite_lock s) as [[|b e]|] eqn:Er; cbn [pending_of] in Hp.
  - by destruct (rest1 _ _ _ Hp).
  - by destruct (rest1 _ _ _ Hp).
  - destruct (rest2 _ _ _ _ Hp) as [[? _]|[_ Hp']]; [done|]. cbn [set_rewrite rebuild_lock]. rewrite El.
    eexists. split; [done|]. split; [split; cbn|]; cbn; rewrite ?El, ?Hp'; done.
  - by cbn in Io.
  - by destruct (rest2 _ _ _ _ Hp) as [[? _]|[? _]].
  - destruct (rest2 _ _ _ _ Hp) as [[? _]|[_ Hp']]; [done|]. cbn [set_rewrite rebuild_lock]. rewrite El.
    destruct (rewrite_resume (set_rewrite (Some []) (rewrite_offset s) (rewrite_count s) s))
      as (s' & E & C & L & R & P); [done | done | done | done |].
    rewrite E. exists s'. split; [done|]. split; [done|]. rewrite L, R, P. cbn. by rewrite Hp'.
Qed.

Lemma rebuild_step_inv (w : world) (s : sd) :
  w ∈ ws -> core s -> pending_of (rebuild_lock s) (rewrite_lock s) ≡ₚ RebuildStep :: pending s -> runs w RebuildStep s.
Proof.
  intros Hw [Ip Id Io] Hp. unfold runs, run_callback, storeDigestRebuildStep.
  assert (Hb : rebuilding (rebuild_lock s) (rewrite_lock s) = true
    /\ (rewrite_lock s = None /\ pending s = [RewriteStart] \/ rewrite_lock s = Some [] /\ pending s = [])).
  { destruct (rebuild_lock s) eqn:El, (rewrite_lock s) as [[|b e]|] eqn:Er; cbn [pending_of] in Hp;
      (destruct (rest1 _ _ _ Hp) || destruct (rest2 _ _ _ _ Hp) as [[? ?]|[? ?]]); (split; [done|]); auto; done. }
  destruct Hb as [Hb Hrw]. rewrite Hb in Id. destruct Id as [Ho Hc].
  assert (El : rebuild_lock s = true) by (by destruct (rebuild_lock s)). rewrite El.
  set (n := if _ <? _ then _ else _). pose proof (c_chunk conf_ok) as Hch. pose proof (c_buckets conf_ok).
  assert (Hn : 0 < n <= store_hash_buckets cfg - rebuild_offset s) by (unfold n; destruct (Z.ltb_spec (store_hash_buckets cfg) (rebuild_offset s + chunk_buckets)); lia).
  destruct (add_buckets_covers w (Z.to_nat n) s Hw ltac:(lia) Hc) as (s1 & -> & C1 & O1 & V1). cbn [mbind option_bind].
  rewrite Z2Nat.id in O1 by lia. injection C1 as L1 R1 W1 P1 B1. rewrite <- B1 in Ip.
  destruct (Z.leb_spec (store_hash_buckets cfg) (rebuild_offset s1)) as [Hd|Hd].
  - unfold storeDigestRebuildFinish. rewrite L1, El. cbn [eventAdd set_pending set_rebuild rewrite_lock].
    assert (V : covers (store_digest s1) (store_hash_buckets cfg)) by (by apply (covers_le _ (rebuild_offset s1))).
    destruct Hrw as [[Er Hp']|[Er Hp']].
    + rewrite R1, Er. eexists. split; [done|]. split; [split; cbn|]; cbn; rewrite ?R1, ?Er, ?P1, ?Hp'; try done. apply Permutation_swap.
    + rewrite R1, Er. destruct (rewrite_resume (eventAdd RebuildStart (set_rebuild false (rebuild_offset s1) (i32 (rebuild_count s1 + 1)) s1)))
        as (s' & E & C & L & R & P); [done | cbn; congruence | done | done |].
      cbn [eventAdd set_pending set_rebuild] in E. rewrite E. exists s'. split; [done|]. split; [done|].
      rewrite L, R, P. cbn. by rewrite P1, Hp'.
  - eexists. split; [done|]. cbn [eventAdd set_pending]. split; [split; cbn|]; cbn; rewrite ?L1, ?R1, ?El, ?P1.
    + done.
    + rewrite El in Hb. rewrite Hb. split; [lia | done].
    + destruct Hrw as [[-> _]|[-> _]]; done.
    + destruct Hrw as [[-> ->]|[-> ->]]; [apply Permutation_swap | done].
Qed.
(** One chunk of the mask is written. *)
Lemma mask_chunk (l : list Z) (off n : Z) :
  0 <= off -> 0 <= n ->
  take (Z.to_nat off) l ++ take (Z.to_nat n) (drop (Z.to_nat off) l) = take (Z.to_nat (off + n)) l.
Proof. intros H1 H2. by rewrite take_take_drop, Z2Nat.inj_add. Qed.

Lemma written_whole (d : CacheDigest) (off : Z) : covers d off -> take (Z.to_nat (mask_size d)) (mask d) = mask d.
Proof. intros (ks & G & _). rewrite <- (h_size _ _ (g_holds _ _ G)), Nat2Z.id. apply firstn_all. Qed.

Lemma swap_out_inv (w : world) (s : sd) :
  w ∈ ws -> core s -> pending_of (rebuild_lock s) (rewrite_lock s) ≡ₚ SwapOutStep :: pending s -> runs w SwapOutStep s.
Proof.
  intros Hw [Ip Id Io] Hp. unfold runs, run_callback, storeDigestSwapOutStep.
  assert (exists b e, rewrite_lock s = Some (b :: e) /\ covers (store_digest s) (store_hash_buckets cfg)
    /\ pending s = if rebuild_lock s then [] else [RebuildStart]) as (b & e & Er & Hc & Hp').
  { destruct (rebuild_lock s) eqn:El, (rewrite_lock s) as [[|b e]|] eqn:Er; cbn [pending_of] in Hp;
      (destruct (rest1 _ _ _ Hp) || destruct (rest2 _ _ _ _ Hp) as [[? ?]|[? ?]]); try done; by exists b, e. }
  rewrite Er in *. cbn [object_ok] in Io. destruct Io as (d0 & V0 & Em & Es & Ho & Ee).
  set (n := if _ <? _ then _ else _). pose proof (c_out conf_ok) as Hch.
  assert (Hn : 0 < n <= mask_size (store_digest s) - rewrite_offset s)
    by (unfold n; destruct (Z.ltb_spec (mask_size (store_digest s)) (rewrite_offset s + swapout_chunk_size cfg)); lia).
  change ((b :: e) ++ ?x) with (b :: e ++ x). rewrite app_comm_cons, Ee, <- app_assoc, mask_chunk by lia.
  cbn [set_rewrite rewrite_offset store_digest mask_size].
  destruct (Z.leb_spec (mask_size (store_digest s)) (rewrite_offset s + n)) as [Hd|Hd].
  - replace (rewrite_offset s + n) with (mask_size (store_digest s)) by lia.
    rewrite <- Em, <- Es, (written_whole _ _ V0). unfold storeDigestRewriteFinish. cbn [set_rewrite rewrite_lock eventAdd set_pending publish rebuild_lock].
    assert (Hpub : Forall (fun o => exists d, covers d (store_hash_buckets cfg) /\ o = written d) (published s ++ [cblock d0 ++ mask d0])).
    { apply Forall_app. split; [done|]. apply Forall_singleton. by exists d0. }
    destruct (rebuild_lock s) eqn:El.
    + match goal with |- context [storeDigestRebuildResume w ?x] => destruct (rebuild_resume w x (store_hash_buckets cfg))
        as (s' & E & C & L & R & P); [done | done | done | done | done |] end.
      rewrite E. exists s'. split; [done|]. split; [done|]. rewrite L, R, P. cbn. rewrite Hp'. apply Permutation_swap.
    + eexists. split; [done|]. cbn. split; [split; cbn|]; cbn; rewrite ?El, ?Hp'; done.
  - eexists. split; [done|]. cbn [eventAdd set_pending]. destruct (cblock_cons d0) as (b0 & l0 & E0).
    split; [split; cbn|]; cbn; rewrite ?E0; cbn.
    + done.
    + by destruct (rebuild_lock s).
    + exists d0. rewrite E0. repeat split; [done | done | done | lia | lia].
    + rewrite Hp'. by destruct (rebuild_lock s).
Qed.

Lemma fire_inv (w : world) (s : sd) (i : nat) : w ∈ ws -> inv s -> exists s', exec (Fire i w) s = Some s' /\ inv s'.
Proof.
  intros Hw [C P]. cbn [exec]. destruct (pending s !! i) as [c|] eqn:E; [|by exists s].
  pose proof (delete_Permutation _ _ _ E) as D. rewrite D in P. symmetry in P.
  assert (C' : core (set_pending (delete i (pending s)) s)) by (by destruct C; split).
  destruct c; [by apply rebuild_start_inv | by apply rebuild_step_inv | by apply rewrite_start_inv | by apply swap_out_inv].
Qed.

Lemma delete_inv (e : StoreEntry) (s : sd) : inv s -> exists s', exec (Delete e) s = Some s' /\ inv s'.
Proof.
  intros [[Ip Id Io] P]. cbn [exec]. unfold storeDigestDel. destruct (EBIT_TEST _ _); [by exists s|].
  assert (exists ks, holds (store_digest s) ks) as [ks Hk].
  { destruct (rebuilding _ _); [destruct Id as [_ (ks & G & _)] | destruct Id as (ks & G & _)]; exists ks; by apply g_holds. }
  rewrite (test_holds _ ks _ Hk). cbn [mbind option_bind].
  assert (V : forall off, covers (store_digest s) off -> covers (cacheDigestDel (store_digest s)) off).
  { intros off (ks' & G & K). exists ks'. split; [|done]. destruct G as [? ? [? ? ? ?] ? ?]. by split. }
  destruct (forallb _ _); eexists; (split; [done|]); (split; [|done]); split; cbn; try done.
  destruct (rebuilding _ _); [destruct Id|]; auto.
Qed.

Lemma exec_all_inv (l : list op) (s : sd) :
  (forall w, w ∈ worlds_of l -> w ∈ ws) -> inv s -> exists s', exec_all l s = Some s' /\ inv s'.
Proof.
  revert s. induction l as [|o l IH]; intros s Hl I; cbn [exec_all]; [by exists s|].
  assert (exists s1, exec o s = Some s1 /\ inv s1) as (s1 & -> & I1).
  { destruct o as [e|i w]; [by apply delete_inv|]. apply fire_inv; [|done]. apply Hl. left. }
  cbn [mbind option_bind]. apply IH; [|done]. intros w Hw. apply Hl. destruct o; [done | by right].
Qed.

Lemma ready_inv (w : world) :
  w ∈ ws -> exists s, (s ← storeDigestInit w; storeDigestNoteStoreReady w s) = Some s /\ inv s.
Proof.
  intros Hw. unfold storeDigestInit. pose proof ws_sane as Hs. rewrite Forall_forall in Hs. destruct (w_cap w (Hs w Hw)) as [H1 H2].
  unfold cacheDigestCreate.
  destruct (init_holds (storeDigestCalcCap w) (conf_bits_per_entry cfg) 0 0) as (d & -> & H & _ & _ & Hc & Hb & Hm & _);
    [done | apply conf_ok | done |].
  cbn [mbind option_bind]. unfold storeDigestNoteStoreReady, storeDigestRebuildStart. cbn [rebuild_lock set_rebuild rewrite_lock].
  match goal with |- context [storeDigestRebuildResume w ?x] => destruct (rebuild_resume w x 0)
    as (s1 & -> & C1 & L1 & R1 & P1); [done | done | done | | done |] end.
  { exists []. split; [|intros x _ Hx; lia]. split; [done | cbn; lia | done | done | cbn; by rewrite Hm, Hc, Hb]. }
  cbn [mbind option_bind pending set_rebuild app] in *. destruct C1 as [Ip Id Io]. rewrite L1, R1 in *.
  unfold storeDigestRewriteStart. rewrite R1. cbn [set_rewrite rebuild_lock]. rewrite L1. eexists. split; [done|].
  split; [split; cbn|]; cbn; rewrite ?L1, ?P1; done.
Qed.
End Invariant.

(** What a whole object promises to the one that reads it. *)
Definition promises (ws : list world) (d : CacheDigest) : Prop :=
  (exists ks, holds d ks /\ (forall x, stays ws x -> key x.2 ∈ ks) /\ Forall (found ws) ks)
  /\ bits_per_entry d = conf_bits_per_entry cfg /\ 0 < capacity d /\ capacity d * bits_per_entry d + 7 < 2 ^ 31
  /\ mask_size d = cacheDigestCalcMaskSize (capacity d) (bits_per_entry d).

Lemma covers_promises (ws : list world) (d : CacheDigest) :
  covers ws (stays ws) d (store_hash_buckets cfg) -> promises ws d.
Proof.
  intros (ks & [G1 [G2 G2'] G3 G4 G5] & K). split; [|done]. exists ks. split; [done|]. split; [|done]. intros x Hx. apply K; [done|]. by destruct Hx.
Qed.

Lemma run_inv (w : world) (l : list op) :
  config_ok -> Forall sane (w :: worlds_of l) ->
  exists s, (s ← storeDigestInit w; s ← storeDigestNoteStoreReady w s; exec_all l s) = Some s
    /\ inv (w :: worlds_of l) (stays (w :: worlds_of l)) s.
Proof.
  intros Hc Hs. set (ws := w :: worlds_of l) in *.
  destruct (ready_inv ws (stays ws) Hc Hs) with (w := w) as (s & E & I); [left|].
  destruct (storeDigestInit w) as [s0|]; cbn [mbind option_bind] in *; [|done]. rewrite E. cbn [mbind option_bind].
  apply (exec_all_inv ws (stays ws) Hc Hs); [done | | done]. intros w' Hw. by right.
Qed.

(** What a key that tests true says: each of its bits is one of an object found. *)
Definition explained (ws : list world) (d : CacheDigest) (k : list Z) : Prop :=
  forall b, b ∈ positions (8 * mask_size d) k -> exists k', found ws k' /\ b ∈ positions (8 * mask_size d) k'.

Lemma promises_tests (ws : list world) (d : CacheDigest) :
  promises ws d ->
  (forall x, stays ws x -> cacheDigestTest d (key x.2) = Some true)
  /\ (forall k, cacheDigestTest d k = Some true -> explained ws d k).
Proof.
  intros [(ks & H & K & F) _]. rewrite Forall_forall in F.
  assert (Ht : forall k, cacheDigestTest d k = Some true <->
    forall b, b ∈ positions (8 * mask_size d) k -> exists k', k' ∈ ks /\ b ∈ positions (8 * mask_size d) k') by (intros k; by apply test_iff).
  split.
  - intros x Hx. apply Ht. intros b Hb. exists (key x.2). split; [by apply K | done].
  - intros k Hk b Hb. destruct (proj1 (Ht k) Hk b Hb) as (k' & Hin & Hb'). exists k'. split; [by apply F | done].
Qed.

(** C36: once the store is ready, whatever calls are made in whatever order and
    whatever is deleted meanwhile, no assertion fails; a rebuild and a rewrite are
    each scheduled, running, or waiting for the other one that is scheduled; and
    each object published is the control block and the mask of one digest, in
    which every object of the store that stays and is fit tests true, and where a
    key tests true only by bits of objects that were found fit.  The configuration has
    positive sizes, at each call the digest's size in bits fits an int, and so does
    the product of each object's last-modified factor. *)
Theorem store_digest_correct (w : world) (l : list op) :
  config_ok -> Forall sane (w :: worlds_of l) ->
  exists s, (s ← storeDigestInit w; s ← storeDigestNoteStoreReady w s; exec_all l s) = Some s
    /\ pending s ≡ₚ pending_of (rebuild_lock s) (rewrite_lock s)
    /\ Forall (fun o => exists d, o = cblock d ++ mask d
         /\ (forall x, stays (w :: worlds_of l) x -> cacheDigestTest d (key x.2) = Some true)
         /\ (forall k, cacheDigestTest d k = Some true -> explained (w :: worlds_of l) d k)) (published s).
Proof.
  intros Hc Hs. destruct (run_inv w l Hc Hs) as (s & E & [C P]). exists s. split; [done|]. split; [done|].
  eapply Forall_impl; [apply (i_published _ _ _ C)|]. intros o (d & V & ->). exists d. split; [done|].
  apply promises_tests. by apply covers_promises.
Qed.
End StoreDigest.

(** ** A run *)

Definition demo_conf : config := Conf demo_cfg 4000000 1000000 13000 3600 50 4 5 2.
Definition demo_world (other : list StoreEntry) : world :=
  World 1000000 [[demo_entry]; other] (fun _ => None) 26000 3.
Definition demo_other : StoreEntry := Entry (seqZ 0 16) 1000000 (-1) (1000000 - 86400) 5000 (2 ^ ENTRY_CACHABLE) true (Some (bytes "http://b/")) (Some 5000).

(** The first object is there all the time, the second one only later. *)
Definition demo_ops : list op :=
  let a := demo_world [] in let b := demo_world [demo_other] in
  [Fire 0 a; Fire 0 a; Fire 1 a; Delete demo_entry; Fire 0 b; Fire 0 b; Fire 1 b; Fire 0 b; Fire 1 b; Fire 1 b].

Lemma store_digest_correct_witness :
  exists s, (s ← storeDigestInit demo_conf (demo_world []);
             s ← storeDigestNoteStoreReady demo_conf (demo_world []) s; exec_all (fun _ _ => true) demo_conf demo_ops s) = Some s
    /\ map length (published s) = [130%nat] /\ stays (fun _ _ => true) demo_conf (demo_world [] :: worlds_of demo_ops) (0%nat, demo_entry).
Proof.
  destruct (store_digest_correct (fun _ _ => true) demo_conf (demo_world []) demo_ops) as (s & E & _).
  - split; vm_compute; reflexivity.
  - repeat (apply Forall_cons; split); try apply Forall_nil_2;
      (split; [repeat (apply Forall_cons; split); try apply Forall_nil_2; vm_compute; discriminate | split; vm_compute; reflexivity]).
  - exists s. split; [exact E|]. split; [vm_compute in E; injection E as <-; vm_compute; reflexivity|].
    split; [vm_compute; reflexivity|]. repeat (apply Forall_cons; split); try apply Forall_nil_2;
      (split; [eexists; split; [reflexivity | apply list_elem_of_singleton; reflexivity] | vm_compute; reflexivity]).
Defined.
End StoreDigest.
