(* ===== verification/PeerDigest.v ===== *)
(** * PeerDigest: the digest of another proxy

    src/peer_digest.c fetches the digest that another proxy publishes, checks
    its control block, reads its mask chunk by chunk into place, and schedules
    the next fetch; src/neighbors.c looks keys up in it.

    The store answers a call of [storeClientCopy] later with an [answer]: bytes
    from the offset asked for, or a failure.  The status of a reply that
    [httpReplyParse] found and the expiry time of the object come with it.  What
    is counted of the traffic is left out.  [None] is a failed assertion or a
    write behind a buffer. *)

From S2P Require Import Prelude CString Bits Digest Refresh StoreDigest.
From Stdlib Require Import SpecFloat.
Import Digest Refresh StoreDigest.

Module PeerDigest.

(** ** Helpers of other files *)

(** [headersEnd] of src/mime.c, at [e] bytes read. *)
Fixpoint headers_end (mime : list Z) (e state : Z) : Z :=
  if state <? 3 then
    match mime with
    | [] => 0
    | c :: mime =>
        headers_end mime (e + 1)
          (if state =? 0 then if c =? 10 then 1 else 0
           else if state =? 1 then if c =? 13 then 2 else if c =? 10 then 3 else 0
           else if c =? 10 then 3 else 0)
    end
  else e.
Definition headersEnd (mime : list Z) : Z := headers_end mime 0 1.

(** [xpercentInt] of lib/util.c for two ints; [rint] rounds to the nearest, ties to even.
    A value that fits no int gives the least one, as the processor's conversion does. *)
Definition rint_int (x : double) : Z :=
  let fit n := if (- 2 ^ 31 <=? n) && (n <? 2 ^ 31) then n else - 2 ^ 31 in
  match x with
  | S754_zero _ => 0
  | S754_finite s m e =>
      let a := if 0 <=? e then Zpos m * 2 ^ e
               else let q := Zpos m / 2 ^ (- e) in
                    let r := 2 * (Zpos m mod 2 ^ (- e)) in
                    if r <? 2 ^ (- e) then q else if 2 ^ (- e) <? r then q + 1 else if Z.even q then q else q + 1 in
      fit (if s then - a else a)
  | _ => - 2 ^ 31
  end.
Definition xpercentInt (part whole : Z) : Z :=
  if whole =? 0 then -1 else rint_int (fdiv (fmul (of_int 100) (of_int part)) (of_int whole)).

(** [cacheDigestBitUtil] of src/CacheDigest.c. *)
Definition cacheDigestBitUtil (d : CacheDigest) : option Z :=
  st ← cacheDigestStats d; Some (xpercentInt (bit_on_count st) (bit_count st)).

(** ** Data *)

Definition PeerDigestReqMinGap : Z := 300.
Definition GlobDigestReqMinGap : Z := 60.
Definition SM_PAGE_SIZE : Z := 4096.
Definition StoreDigestCBlockSize : Z := 128.
Definition HTTP_OK : Z := 200.
Definition HTTP_NOT_MODIFIED : Z := 304.

(** The texts kept as [req_result]. *)
Inductive result :=
| Success | NotModified
| PeerDisappeared | SwapFailure | SwapAborted | NullDigest | PrematureEnd | UselessDigest
| ReplyHeaderTooBig | StoredHeaderTooBig | CBlockTooBig | InvalidCBlock | InternalStatus | Status (status : Z).

(** The object of a peer's digest; [peer_valid] is [cbdataValid] of its peer. *)
Record PeerDigest := PD {
  peer_valid : bool;
  cd : option CacheDigest;
  req_result : option result;
  needed : bool; usable : bool; requested : bool;
  t_needed : Z; t_next_check : Z; t_retry_delay : Z; t_requested : Z; t_req_delay : Z; t_received : Z
}.

Inductive fetch_step := FetchReply | SwapInHeaders | SwapInCBlock | SwapInMask.

(** A fetch with the call of [storeClientCopy] that is open: the function to be
    called, and what was asked for. *)
Record DigestFetchState := Fetch {
  old_entry : bool;
  offset : Z; mask_offset : Z; start_time : Z;
  step : fetch_step; seen_offset : Z; copy_offset : Z; copy_size : Z
}.

Record answer := Answer {
  a_now : Z;
  a_data : option (list Z);              (* [None]: a negative size *)
  a_aborted : bool;                      (* ENTRY_ABORTED *)
  a_status : Z;                          (* of the reply parsed *)
  a_expires : Z                          (* of the object *)
}.

(** The digest of a peer, its fetch, the times its checks are scheduled for, and the
    time of the last request to any peer. *)
Record state := St {
  digest : option PeerDigest; fetch : option DigestFetchState; checks : list Z; pd_last_req_time : Z
}.

Definition set_cd (c : option CacheDigest) (p : PeerDigest) : PeerDigest :=
  PD (peer_valid p) c (req_result p) (needed p) (usable p) (requested p)
    (t_needed p) (t_next_check p) (t_retry_delay p) (t_requested p) (t_req_delay p) (t_received p).
Definition set_check_time (t : Z) (p : PeerDigest) : PeerDigest :=
  PD (peer_valid p) (cd p) (req_result p) (needed p) (usable p) (requested p)
    (t_needed p) t (t_retry_delay p) (t_requested p) (t_req_delay p) (t_received p).

Definition init (now last_req : Z) : state :=
  St (Some (PD true None None false false false 0 0 0 0 0 0)) None [] last_req.

(** ** Scheduling *)

Definition peerDigestIncDelay (p : PeerDigest) : Z := if 0 <? t_retry_delay p then 2 * t_retry_delay p else PeerDigestReqMinGap.
Definition peerDigestNewDelay (now expires : Z) : Z := if 0 <? expires then expires + PeerDigestReqMinGap - now else PeerDigestReqMinGap.

Definition peerDigestSetCheck (now delay : Z) (p : PeerDigest) (s : state) : state :=
  St (Some (set_check_time (now + delay) p)) (fetch s) (checks s ++ [now + delay]) (pd_last_req_time s).

Definition peerDigestNeeded (now : Z) (p : PeerDigest) (s : state) : option state :=
  if needed p then None
  else match cd p with
       | Some _ => None
       | None =>
           let p := PD (peer_valid p) (cd p) (req_result p) true (usable p) (requested p)
                      now (t_next_check p) (t_retry_delay p) (t_requested p) (t_req_delay p) (t_received p) in
           Some (peerDigestSetCheck now 0 p s)
       end.

(** [old]: whether the store has the object already. *)
Definition peerDigestRequest (now : Z) (old : bool) (p : PeerDigest) (s : state) : state :=
  let p := PD (peer_valid p) (cd p) None (needed p) (usable p) true
             (t_needed p) (t_next_check p) (t_retry_delay p) now (t_req_delay p) (t_received p) in
  St (Some p) (Some (Fetch old 0 0 now FetchReply 0 0 4096)) (checks s) now.

Definition peerDigestNotePeerGone (p : PeerDigest) (s : state) : state :=
  if requested p then St (Some p) (fetch s) (checks s) (pd_last_req_time s)
  else St None (fetch s) (checks s) (pd_last_req_time s).

Definition peerDigestCheck (now : Z) (old : bool) (p : PeerDigest) (s : state) : option state :=
  if requested p then None
  else
    let p := set_check_time 0 p in
    if negb (peer_valid p) then Some (peerDigestNotePeerGone p s)
    else
      let req_time := now in
      let req_time := if req_time - t_received p <? PeerDigestReqMinGap then t_received p + PeerDigestReqMinGap else req_time in
      let req_time := if req_time - pd_last_req_time s <? GlobDigestReqMinGap then pd_last_req_time s + GlobDigestReqMinGap else req_time in
      if req_time <=? now then Some (peerDigestRequest now old p s)
      else Some (peerDigestSetCheck now (req_time - now) p s).

(** ** The end of a fetch *)

(** A digest whose mask is too full is not worth asking. *)
Definition peerDigestUseful (d : CacheDigest) : option bool := bit_util ← cacheDigestBitUtil d; Some (negb (65 <? bit_util)).

(** [peerDigestPDFinish] and [peerDigestFetchFinish]. *)
Definition peerDigestPDFinish (now : Z) (pcb_valid err : bool) (p : PeerDigest) (f : DigestFetchState) (s : state) : option state :=
  let p := PD (peer_valid p) (if err then None else cd p) (req_result p) (needed p) (negb err) (requested p)
             (t_needed p) (t_next_check p) (t_retry_delay p) (t_requested p) (now - start_time f) now in
  if err then
    if pcb_valid then Some (St (Some p) None (checks s) (pd_last_req_time s))
    else Some (peerDigestNotePeerGone p (St (Some p) None (checks s) (pd_last_req_time s)))
  else if pcb_valid then Some (St (Some p) None (checks s) (pd_last_req_time s)) else None.

Definition peerDigestReqFinish (a : answer) (pcb_valid : bool) (reason : result) (err : bool)
    (p : PeerDigest) (f : DigestFetchState) (s : state) : option state :=
  let retry := if pcb_valid then if err then peerDigestIncDelay p else 0 else t_retry_delay p in
  let p := PD (peer_valid p) (cd p) (Some reason) (needed p) (usable p) false
             (t_needed p) (t_next_check p) retry (t_requested p) (t_req_delay p) (t_received p) in
  if pcb_valid then
    let delay := if err then retry else peerDigestNewDelay (a_now a) (a_expires a) in
    peerDigestPDFinish (a_now a) pcb_valid err (set_check_time (a_now a + delay) p) f
      (peerDigestSetCheck (a_now a) delay p s)
  else peerDigestPDFinish (a_now a) pcb_valid err p f s.

Definition peerDigestFetchStop (a : answer) := peerDigestReqFinish a true NotModified false.
Definition peerDigestFetchAbort (a : answer) (reason : result) := peerDigestReqFinish a true reason true.

(** Why the fetch is over, if it is. *)
Definition enough_reason (a : answer) (size : Z) (p : PeerDigest) (f : DigestFetchState) : option (option result) :=
  if negb (peer_valid p) then Some (Some PeerDisappeared)
  else if size <? 0 then Some (Some SwapFailure)
  else if a_aborted a then Some (Some SwapAborted)
  else if size =? 0 then
    match cd p with
    | None => Some (Some NullDigest)
    | Some d =>
        if negb (mask_offset f =? mask_size d) then Some (Some PrematureEnd)
        else useful ← peerDigestUseful d; Some (Some (if (useful : bool) then Success else UselessDigest))
    end
  else Some None.

Definition no_bug (r : result) : bool := match r with Success => true | _ => false end.

(** [Some None]: go on. *)
Definition peerDigestFetchedEnough (a : answer) (size : Z) (p : PeerDigest) (f : DigestFetchState) (s : state) : option (option state) :=
  r ← enough_reason a size p f;
  match r with
  | None => Some None
  | Some reason => s ← peerDigestReqFinish a (peer_valid p) reason (negb (no_bug reason)) p f s; Some (Some s)
  end.

(** ** The control block *)

(** [n] bytes from the [i]-th, the most significant one first. *)
Fixpoint be_num (l : list Z) (acc : Z) : Z := match l with [] => acc | b :: l => be_num l (acc * 256 + b) end.
Definition be_at (l : list Z) (i n : nat) : Z := be_num (take n (drop i l)) 0.

(** [Some None]: refused.  A digest of the same size is kept with its mask. *)
Definition peerDigestSetCBlock (c : option CacheDigest) (buf : list Z) : option (option CacheDigest) :=
  let ver_current := wraps 16 (be_at buf 0 2) in
  let ver_required := wraps 16 (be_at buf 2 2) in
  let cap := i32 (be_at buf 4 4) in
  let cnt := i32 (be_at buf 8 4) in
  let del := i32 (be_at buf 12 4) in
  let size := i32 (be_at buf 16 4) in
  let bpe := be_at buf 20 1 in
  let hash_func_count := be_at buf 21 1 in
  if CacheDigestVer.1 <? ver_required then Some None
  else if ver_current <? CacheDigestVer.2 then Some None
  else if (ver_current <? ver_required) || (size <=? 0) || (cap <=? 0) || (bpe <=? 0) || (hash_func_count <=? 0) then Some None
  else if negb (size =? cacheDigestCalcMaskSize cap bpe) then Some None
  else if negb (hash_func_count =? CacheDigestHashFuncCount) then Some None
  else
    let c := match c with Some d => if size =? mask_size d then Some d else None | None => None end in
    d ← match c with Some d => Some d | None => cacheDigestCreate cap bpe end;
    Some (Some (CD (mask d) (mask_size d) (capacity d) (bits_per_entry d) cnt del)).

(** ** The steps of a fetch *)

Definition copy_next (st : fetch_step) (seen off size : Z) (f : DigestFetchState) : DigestFetchState :=
  Fetch (old_entry f) (offset f) (mask_offset f) (start_time f) st seen off size.
Definition set_offset (off : Z) (f : DigestFetchState) : DigestFetchState :=
  Fetch (old_entry f) off (mask_offset f) (start_time f) (step f) (seen_offset f) (copy_offset f) (copy_size f).
Definition no_old (f : DigestFetchState) : DigestFetchState :=
  Fetch false (offset f) (mask_offset f) (start_time f) (step f) (seen_offset f) (copy_offset f) (copy_size f).
Definition with_fetch (p : PeerDigest) (f : DigestFetchState) (s : state) : state := St (Some p) (Some f) (checks s) (pd_last_req_time s).

Definition fetch_reply (a : answer) (buf : list Z) (size : Z) (p : PeerDigest) (f : DigestFetchState) (s : state) : option state :=
  if negb (offset f =? 0) then None
  else
    r ← peerDigestFetchedEnough a size p f s;
    match r with
    | Some s => Some s
    | None =>
        if headersEnd buf =? 0 then
          if SM_PAGE_SIZE <=? size then peerDigestFetchAbort a ReplyHeaderTooBig p f s
          else Some (with_fetch p (copy_next FetchReply size 0 SM_PAGE_SIZE f) s)
        else if a_status a =? HTTP_NOT_MODIFIED then
          if old_entry f then
            match cd p with
            | Some _ => peerDigestFetchStop a p (no_old f) s
            | None => Some (with_fetch p (copy_next SwapInHeaders 0 0 SM_PAGE_SIZE (no_old f)) s)
            end
          else None
        else if a_status a =? HTTP_OK then Some (with_fetch p (copy_next SwapInHeaders 0 0 SM_PAGE_SIZE (no_old f)) s)
        else peerDigestFetchAbort a (Status (a_status a)) p f s
    end.

Definition swap_in_headers (a : answer) (buf : list Z) (size : Z) (p : PeerDigest) (f : DigestFetchState) (s : state) : option state :=
  r ← peerDigestFetchedEnough a size p f s;
  match r with
  | Some s => Some s
  | None =>
      if negb (offset f =? 0) then None
      else if headersEnd buf =? 0 then
        if SM_PAGE_SIZE <=? size then peerDigestFetchAbort a StoredHeaderTooBig p f s
        else Some (with_fetch p (copy_next SwapInHeaders size 0 SM_PAGE_SIZE f) s)
      else if negb (a_status a =? HTTP_OK) then peerDigestFetchAbort a InternalStatus p f s
      else
        let f := set_offset (offset f + headersEnd buf) f in
        Some (with_fetch p (copy_next SwapInCBlock size (offset f) SM_PAGE_SIZE f) s)
  end.

Definition swap_in_cblock (a : answer) (buf : list Z) (size : Z) (p : PeerDigest) (f : DigestFetchState) (s : state) : option state :=
  r ← peerDigestFetchedEnough a size p f s;
  match r with
  | Some s => Some s
  | None =>
      if StoreDigestCBlockSize <=? size then
        let seen := offset f + size in
        c ← peerDigestSetCBlock (cd p) buf;
        match c with
        | Some d =>
            let f := set_offset (offset f + StoreDigestCBlockSize) f in
            Some (with_fetch (set_cd (Some d) p) (copy_next SwapInMask seen (offset f) (mask_size d) f) s)
        | None => peerDigestFetchAbort a InvalidCBlock p f s
        end
      else if SM_PAGE_SIZE <=? size then peerDigestFetchAbort a CBlockTooBig p f s
      else Some (with_fetch p (copy_next SwapInCBlock size 0 SM_PAGE_SIZE f) s)
  end.

(** The store has written the bytes into the mask already. *)
Definition swap_in_mask (a : answer) (size : Z) (p : PeerDigest) (f : DigestFetchState) (s : state) : option state :=
  r ← peerDigestFetchedEnough a size p f s;
  match r with
  | Some s => Some s
  | None =>
      d ← cd p;
      let f := Fetch (old_entry f) (offset f + size) (mask_offset f + size) (start_time f) (step f) (seen_offset f) (copy_offset f) (copy_size f) in
      if mask_size d <=? mask_offset f then
        if negb (mask_offset f =? mask_size d) then None
        else r ← peerDigestFetchedEnough a 0 p f s; r
      else Some (with_fetch p (copy_next SwapInMask (offset f) (offset f) (mask_size d - mask_offset f) f) s)
  end.

(** The answer to the open call: its bytes go where the call said, then its function
    is called. *)
Definition write_mask (off : Z) (buf : list Z) (p : PeerDigest) : option PeerDigest :=
  d ← cd p;
  if off + Z.of_nat (length buf) <=? Z.of_nat (length (mask d)) then
    Some (set_cd (Some (CD (take (Z.to_nat off) (mask d) ++ buf ++ drop (Z.to_nat off + length buf) (mask d))
            (mask_size d) (capacity d) (bits_per_entry d) (count d) (del_count d))) p)
  else None.

Definition storeClientCallback (a : answer) (s : state) : option state :=
  match digest s, fetch s with
  | Some p, Some f =>
      let size := match a_data a with Some l => Z.of_nat (length l) | None => -1 end in
      let buf := default [] (a_data a) in
      match step f with
      | FetchReply => fetch_reply a buf size p f s
      | SwapInHeaders => swap_in_headers a buf size p f s
      | SwapInCBlock => swap_in_cblock a buf size p f s
      | SwapInMask => p ← write_mask (mask_offset f) buf p; swap_in_mask a size p f s
      end
  | None, Some _ => None
  | _, None => Some s
  end.

(** ** Its use by the peer *)

Inductive lookup_t := LOOKUP_NONE | LOOKUP_HIT | LOOKUP_MISS.

(** [http_ok]: what [peerHTTPOkay] says. *)
Definition peerDigestLookup (now : Z) (http_ok : bool) (k : list Z) (s : state) : option (lookup_t * state) :=
  match digest s with
  | None => Some (LOOKUP_NONE, s)
  | Some p =>
      if negb (peer_valid p) then Some (LOOKUP_NONE, s)
      else if negb http_ok then Some (LOOKUP_NONE, s)
      else if negb (needed p) then s ← peerDigestNeeded now p s; Some (LOOKUP_NONE, s)
      else if negb (usable p) then Some (LOOKUP_NONE, s)
      else
        d ← cd p;
        t ← cacheDigestTest d k;
        Some (if (t : bool) then LOOKUP_HIT else LOOKUP_MISS, s)
  end.

(** A lookup, the [i]-th scheduled check, an answer of the store, and the end of the
    peer ([free_peer] of src/cache_cf.c). *)
Inductive op :=
| Lookup (now : Z) (http_ok : bool) (k : list Z)
| Check (i : nat) (now : Z) (old : bool)
| Copied (a : answer)
| PeerGone.

Definition exec (o : op) (s : state) : option state :=
  match o with
  | Lookup now ok k => '(_, s) ← peerDigestLookup now ok k s; Some s
  | Check i now old =>
      match checks s !! i with
      | None => Some s
      | Some _ =>
          let s := St (digest s) (fetch s) (delete i (checks s)) (pd_last_req_time s) in
          match digest s with
          | None => Some s
          | Some p => peerDigestCheck now old p s
          end
      end
  | Copied a => storeClientCallback a s
  | PeerGone =>
      match digest s with
      | None => Some s
      | Some p =>
          if peer_valid p then
            Some (peerDigestNotePeerGone
              (PD false (cd p) (req_result p) (needed p) (usable p) (requested p)
                 (t_needed p) (t_next_check p) (t_retry_delay p) (t_requested p) (t_req_delay p) (t_received p)) s)
          else Some s
      end
  end.

Fixpoint exec_all (l : list op) (s : state) : option state :=
  match l with
  | [] => Some s
  | o :: l => s ← exec o s; exec_all l s
  end.

(** ** Its states *)

(** A mask in its full length; the bits of no mask overflow 32 bits. *)
Definition form (d : CacheDigest) : Prop := Z.of_nat (length (mask d)) = mask_size d /\ 0 < mask_size d < 2 ^ 29.

Definition cd_ok (p : PeerDigest) : Prop := (forall d, cd p = Some d -> form d) /\ (usable p = true -> cd p <> None).

Definition fetch_ok (p : PeerDigest) (f : DigestFetchState) : Prop :=
  match step f with
  | FetchReply | SwapInHeaders => offset f = 0 /\ mask_offset f = 0
  | SwapInCBlock => mask_offset f = 0
  | SwapInMask => exists d, cd p = Some d /\ 0 <= mask_offset f < mask_size d /\ copy_size f = mask_size d - mask_offset f
  end.

(** A digest that is needed has either one fetch or one check scheduled. *)
Definition inv (s : state) : Prop :=
  match digest s with
  | None => fetch s = None
  | Some p =>
      cd_ok p /\
      match fetch s with
      | None => requested p = false /\ peer_valid p = true /\ length (checks s) = (if needed p then 1 else 0)%nat
                /\ (needed p = false -> cd p = None /\ usable p = false)
      | Some f => requested p = true /\ needed p = true /\ checks s = [] /\ fetch_ok p f
      end
  end.

(** What the store answers: no more bytes than asked for. *)
Definition op_ok (o : op) (s : state) : Prop :=
  match o, fetch s with
  | Copied a, Some f => forall l, a_data a = Some l -> Z.of_nat (length l) <= copy_size f
  | _, _ => True
  end.

(** A peer that answers "not modified" about an object that is not in the store. *)
Definition unasked_304 (o : op) (s : state) : Prop :=
  exists a f, o = Copied a /\ fetch s = Some f /\ step f = FetchReply /\ a_status a = HTTP_NOT_MODIFIED /\ old_entry f = false.

Fixpoint ops_ok (l : list op) (s : state) : Prop :=
  match l with
  | [] => True
  | o :: l => op_ok o s /\ forall s', exec o s = Some s' -> ops_ok l s'
  end.

(** ** Laws *)

Lemma stats_loop_some (l : list Z) (pos : nat) (on sum cnt len : Z) (type : bool) :
  Z.of_nat pos <= bits_of 8 l -> exists r, stats_loop l pos on sum cnt len type = Some r.
Proof.
  revert on sum cnt len type. induction pos as [|pos IH]; intros on sum cnt len type Hp; cbn [stats_loop]; [by eexists|].
  rewrite cbit_test by lia. cbn [mbind option_bind]. destruct (_ || _); apply IH; lia.
Qed.

Lemma useful_some (d : CacheDigest) : form d -> exists b, peerDigestUseful d = Some b.
Proof.
  intros [Hl Hr]. unfold peerDigestUseful, cacheDigestBitUtil, cacheDigestStats.
  assert (Hi : i32 (mask_size d * 8) <= mask_size d * 8).
  { destruct (decide (mask_size d * 8 < 2 ^ 31)); [rewrite wraps_small; lia|].
    unfold wraps. pose proof (Z.mod_pos_bound (mask_size d * 8 + 2 ^ (32 - 1)) (2 ^ 32)). lia. }
  destruct (stats_loop_some (mask d) (Z.to_nat (i32 (mask_size d * 8))) 0 0 0 0 true) as [[[on sum] cnt] ->];
    [unfold bits_of; lia|]. cbn [mbind option_bind]. by eexists.
Qed.

Lemma lookup_some (d : CacheDigest) (k : list Z) : form d -> exists b, cacheDigestTest d k = Some b.
Proof.
  intros [Hl Hr]. unfold cacheDigestTest, cacheDigestHashKey. rewrite wrapu_small by lia.
  eexists. apply test_bits_spec. apply Forall_forall. intros b (i & -> & _)%list_elem_of_fmap. unfold bits_of.
  rewrite Hl. rewrite Z.mul_comm. apply Z.mod_pos_bound. lia.
Qed.

(** Every way a fetch ends leaves a check scheduled, or no digest. *)
Lemma req_finish_inv (a : answer) (reason : result) (err : bool) (p : PeerDigest) (f : DigestFetchState) (s : state) :
  cd_ok p -> needed p = true -> checks s = [] -> (err = false -> peer_valid p = true /\ cd p <> None) ->
  exists s', peerDigestReqFinish a (peer_valid p) reason err p f s = Some s' /\ inv s' /\ fetch s' = None
    /\ (err = false -> exists p', digest s' = Some p' /\ usable p' = true /\ cd p' = cd p /\ needed p' = true /\ peer_valid p' = true).
Proof.
  intros [H1 H2] Hn Hc He. unfold peerDigestReqFinish, peerDigestPDFinish. destruct err, (peer_valid p) eqn:Ev; cbn.
  - eexists. split; [done|]. split; [|done]. cbn. rewrite Hc, Hn. split; [by split|]. by repeat split.
  - eexists. split; [done|]. by split.
  - destruct (He eq_refl) as [_ Hcd]. eexists. split; [done|]. split; [|split; [done|]; intros _; eexists; by repeat split].
    cbn. rewrite Hc, Hn. split; [by split|]. by repeat split.
  - by destruct (He eq_refl).
Qed.

Lemma enough_inv (a : answer) (size : Z) (p : PeerDigest) (f : DigestFetchState) (s : state) :
  cd_ok p -> needed p = true -> checks s = [] ->
  exists r, peerDigestFetchedEnough a size p f s = Some r
    /\ match r with Some s' => inv s' | None => peer_valid p = true /\ 0 < size /\ a_aborted a = false end.
Proof.
  intros Hp Hn Hc. unfold peerDigestFetchedEnough.
  assert (exists r, enough_reason a size p f = Some r /\ match r with
    | Some r => no_bug r = true -> peer_valid p = true /\ cd p <> None
    | None => peer_valid p = true /\ 0 < size /\ a_aborted a = false end) as (r & -> & Hr).
  { unfold enough_reason. destruct (peer_valid p) eqn:Ev; cbn [negb]; [|by eexists].
    destruct (Z.ltb_spec size 0); [by eexists|]. destruct (a_aborted a); [by eexists|]. destruct (Z.eqb_spec size 0).
    - destruct (cd p) as [d|] eqn:Ed; [|by eexists]. destruct (negb _); [by eexists|].
      destruct (useful_some d) as [b ->]; [by apply Hp|]. cbn [mbind option_bind]. eexists. split; [done|]. by destruct b.
    - eexists. split; [done|]. repeat split. lia. }
  cbn [mbind option_bind]. destruct r as [reason|]; [|by exists None].
  destruct (req_finish_inv a reason (negb (no_bug reason)) p f s Hp Hn Hc) as (s' & -> & I & _ & _).
  { intros E. apply Hr. by destruct (no_bug reason). }
  cbn [mbind option_bind]. by exists (Some s').
Qed.

(** What a step may rely on. *)
Definition fetching (p : PeerDigest) (f : DigestFetchState) (s : state) : Prop :=
  cd_ok p /\ needed p = true /\ requested p = true /\ checks s = [] /\ fetch_ok p f.

Lemma with_fetch_inv (p : PeerDigest) (f f' : DigestFetchState) (s : state) :
  fetching p f s -> fetch_ok p f' -> inv (with_fetch p f' s).
Proof. intros (H1 & H2 & H3 & H4 & H5) Hf. split; [done|]. split; [done|]. by split. Qed.

Lemma abort_inv (a : answer) (reason : result) (p : PeerDigest) (f : DigestFetchState) (s : state) :
  fetching p f s -> peer_valid p = true -> exists s', peerDigestFetchAbort a reason p f s = Some s' /\ inv s'.
Proof.
  intros (H1 & H2 & H3 & H4 & H5) Hv. destruct (req_finish_inv a reason true p f s H1 H2 H4) as (s' & E & I & _ & _); [done|].
  rewrite Hv in E. by exists s'.
Qed.

Lemma fetch_reply_inv (a : answer) (buf : list Z) (size : Z) (p : PeerDigest) (f : DigestFetchState) (s : state) :
  fetching p f s -> step f = FetchReply ->
  (exists s', fetch_reply a buf size p f s = Some s' /\ inv s')
  \/ fetch_reply a buf size p f s = None /\ a_status a = HTTP_NOT_MODIFIED /\ old_entry f = false.
Proof.
  intros F Es. pose proof F as (H1 & H2 & H3 & H4 & H5). unfold fetch_ok in H5. rewrite Es in H5. destruct H5 as [Ho Hm].
  unfold fetch_reply. rewrite Ho. cbn [Z.eqb negb].
  destruct (enough_inv a size p f s H1 H2 H4) as ([s1|] & -> & Hr); cbn [mbind option_bind]; [by left; exists s1|]. destruct Hr as (Hv & Hs & Ha).
  destruct (headersEnd buf =? 0).
  { left. destruct (SM_PAGE_SIZE <=? size); [by apply abort_inv|]. eexists. split; [done|]. by apply (with_fetch_inv p f). }
  destruct (Z.eqb_spec (a_status a) HTTP_NOT_MODIFIED) as [E|_].
  - destruct (old_entry f); [left | by right]. destruct (cd p) as [d|] eqn:Ed.
    + destruct (req_finish_inv a NotModified false p (no_old f) s H1 H2 H4) as (s' & E' & I & _ & _); [by rewrite Ed|].
      rewrite Hv in E'. by exists s'.
    + eexists. split; [done|]. by apply (with_fetch_inv p f).
  - left. destruct (_ =? _); [|by apply abort_inv]. eexists. split; [done|]. by apply (with_fetch_inv p f).
Qed.

Lemma swap_in_headers_inv (a : answer) (buf : list Z) (size : Z) (p : PeerDigest) (f : DigestFetchState) (s : state) :
  fetching p f s -> step f = SwapInHeaders -> exists s', swap_in_headers a buf size p f s = Some s' /\ inv s'.
Proof.
  intros F Es. pose proof F as (H1 & H2 & H3 & H4 & H5). unfold fetch_ok in H5. rewrite Es in H5. destruct H5 as [Ho Hm].
  unfold swap_in_headers.
  destruct (enough_inv a size p f s H1 H2 H4) as ([s1|] & -> & Hr); cbn [mbind option_bind]; [by exists s1|]. destruct Hr as (Hv & Hs & Ha).
  rewrite Ho. cbn [Z.eqb negb]. destruct (headersEnd buf =? 0).
  { destruct (SM_PAGE_SIZE <=? size); [by apply abort_inv|]. eexists. split; [done|]. by apply (with_fetch_inv p f). }
  destruct (negb _); [by apply abort_inv|]. eexists. split; [done|]. by apply (with_fetch_inv p f).
Qed.

Lemma calc_range (cap bpe : Z) : 0 <= cacheDigestCalcMaskSize cap bpe < 2 ^ 29.
Proof. unfold cacheDigestCalcMaskSize, wrapu. pose proof (Z.mod_pos_bound (i32 (i32 (cap * bpe) + 7)) (2 ^ 32)). dlia. Qed.

Lemma create_form (cap bpe : Z) :
  0 < cap -> 0 < bpe -> 0 < cacheDigestCalcMaskSize cap bpe ->
  exists d, cacheDigestCreate cap bpe = Some d /\ form d /\ mask_size d = cacheDigestCalcMaskSize cap bpe.
Proof.
  intros H1 H2 H3. unfold cacheDigestCreate, cacheDigestInit. rewrite !(proj2 (Z.ltb_lt _ _)) by lia. cbn [andb].
  eexists. split; [done|]. split; [|done]. pose proof (calc_range cap bpe). split; cbn [mask mask_size]; [|lia]. rewrite length_replicate. lia.
Qed.

(** A control block is refused, or gives a digest of the size it says. *)
Lemma set_cblock_form (c : option CacheDigest) (buf : list Z) :
  (forall d, c = Some d -> form d) ->
  exists r, peerDigestSetCBlock c buf = Some r /\ (forall d, r = Some d -> form d).
Proof.
  intros Hc. unfold peerDigestSetCBlock. set (cap := i32 (be_at buf 4 4)). set (size := i32 (be_at buf 16 4)). set (bpe := be_at buf 20 1).
  destruct (_ <? _); [by exists None|]. destruct (_ <? _); [by exists None|].
  destruct (_ || (bpe <=? 0) || _) eqn:E; [by exists None|]. rewrite !orb_false_iff in E. destruct E as ((((_ & E1) & E2) & E3) & _).
  destruct (Z.eqb_spec size (cacheDigestCalcMaskSize cap bpe)) as [Es|]; cbn [negb]; [|by exists None].
  destruct (negb _); [by exists None|].
  assert (exists d, (match (match c with Some d => if size =? mask_size d then Some d else None | None => None end) with
    | Some d => Some d | None => cacheDigestCreate cap bpe end) = Some d /\ form d) as (d & -> & Hd).
  { destruct (create_form cap bpe) as (d0 & E0 & F0 & _); [lia | lia | lia |].
    destruct c as [d|]; [destruct (size =? mask_size d)|]; eexists; (split; [done|]); auto. }
  cbn [mbind option_bind]. eexists. split; [done|]. by intros d' [= <-].
Qed.

Lemma swap_in_cblock_inv (a : answer) (buf : list Z) (size : Z) (p : PeerDigest) (f : DigestFetchState) (s : state) :
  fetching p f s -> step f = SwapInCBlock -> exists s', swap_in_cblock a buf size p f s = Some s' /\ inv s'.
Proof.
  intros F Es. pose proof F as (H1 & H2 & H3 & H4 & H5). unfold fetch_ok in H5. rewrite Es in H5.
  unfold swap_in_cblock.
  destruct (enough_inv a size p f s H1 H2 H4) as ([s1|] & -> & Hr); cbn [mbind option_bind]; [by exists s1|]. destruct Hr as (Hv & Hs & Ha).
  destruct (StoreDigestCBlockSize <=? size).
  - destruct (set_cblock_form (cd p) buf (proj1 H1)) as (r & -> & Hd). cbn [mbind option_bind].
    destruct r as [d|]; [|by apply abort_inv]. specialize (Hd d eq_refl). eexists. split; [done|].
    split; [split; cbn; [by intros ? [= <-] | done]|]. cbn. split; [done|]. split; [done|]. split; [done|].
    unfold fetch_ok. cbn. exists d. destruct Hd. split; [done|]. rewrite H5. lia.
  - destruct (_ <=? _); [by apply abort_inv|]. eexists. split; [done|]. by apply (with_fetch_inv p f).
Qed.

(** Bytes written into the mask. *)
Definition filled (d : CacheDigest) (off : Z) (buf : list Z) : CacheDigest :=
  CD (take (Z.to_nat off) (mask d) ++ buf ++ drop (Z.to_nat off + length buf) (mask d))
    (mask_size d) (capacity d) (bits_per_entry d) (count d) (del_count d).

Lemma write_mask_some (off : Z) (buf : list Z) (p : PeerDigest) (d : CacheDigest) :
  cd p = Some d -> form d -> 0 <= off -> off + Z.of_nat (length buf) <= mask_size d ->
  write_mask off buf p = Some (set_cd (Some (filled d off buf)) p) /\ form (filled d off buf).
Proof.
  intros Hd [H1 H2] Ho Hl. unfold write_mask. rewrite Hd. cbn [mbind option_bind]. rewrite H1, (proj2 (Z.leb_le _ _)) by lia.
  split; [done|]. split; [|done]. cbn [filled mask mask_size]. rewrite !length_app, length_take, length_drop. lia.
Qed.

Lemma swap_in_mask_inv (a : answer) (n : Z) (p : PeerDigest) (f : DigestFetchState) (s : state) :
  fetching p f s -> step f = SwapInMask -> n <= copy_size f -> exists s', swap_in_mask a n p f s = Some s' /\ inv s'.
Proof.
  intros F Es Hn. pose proof F as (H1 & H2 & H3 & H4 & H5). unfold fetch_ok in H5. rewrite Es in H5. destruct H5 as (d & Hd & Hm & Hc).
  unfold swap_in_mask.
  destruct (enough_inv a n p f s H1 H2 H4) as ([s1|] & -> & Hr); cbn [mbind option_bind]; [by exists s1|]. destruct Hr as (Hv & Hs & Ha).
  rewrite Hd. cbn [mbind option_bind mask_offset]. destruct (Z.leb_spec (mask_size d) (mask_offset f + n)).
  - rewrite (proj2 (Z.eqb_eq _ _)) by lia. cbn [negb].
    set (f' := Fetch _ _ _ _ _ _ _ _). destruct (enough_inv a 0 p f' s H1 H2 H4) as ([s1|] & -> & Hr); [by exists s1|].
    destruct Hr as (_ & Hr & _). lia.
  - eexists. split; [done|]. apply (with_fetch_inv p f); [done|]. unfold fetch_ok. cbn. exists d. split; [done|]. lia.
Qed.

(** An operation goes well, or it is the one answer that fails an assertion. *)
Definition goes (o : op) (s : state) (r : option state) : Prop :=
  (exists s', r = Some s' /\ inv s') \/ r = None /\ unasked_304 o s.

Lemma callback_inv (a : answer) (s : state) : inv s -> op_ok (Copied a) s -> goes (Copied a) s (storeClientCallback a s).
Proof.
  unfold inv, op_ok, storeClientCallback. intros I O. destruct (digest s) as [p|] eqn:Ep.
  2: { rewrite I. left. exists s. unfold inv. by rewrite Ep. }
  destruct (fetch s) as [f|] eqn:Ef; [|left; exists s; unfold inv; by rewrite Ep, Ef]. destruct I as (H1 & H2 & H3 & H4 & H5). rename O into Hfit.
  set (size := match a_data a with Some l => Z.of_nat (length l) | None => -1 end). set (buf := default [] (a_data a)).
  assert (F : fetching p f s) by (by repeat split; try apply H1).
  destruct (step f) eqn:Es.
  - destruct (fetch_reply_inv a buf size p f s F Es) as [?|(E & ? & ?)]; [by left|]. right. split; [exact E|]. by exists a, f.
  - left. by apply swap_in_headers_inv.
  - left. by apply swap_in_cblock_inv.
  - left. pose proof H5 as H5'. unfold fetch_ok in H5'. rewrite Es in H5'. destruct H5' as (d & Hd & Hm & Hc).
    assert (Hb : Z.of_nat (length buf) <= copy_size f) by (unfold buf; destruct (a_data a); cbn [default length]; [by apply Hfit | lia]).
    destruct (write_mask_some (mask_offset f) buf p d Hd) as [-> Hform]; [by apply H1 | lia | lia |]. cbn [mbind option_bind].
    apply swap_in_mask_inv; [|done|].
    + split; [split; cbn; [by intros ? [= <-] | done]|]. split; [done|]. split; [done|]. split; [done|].
      unfold fetch_ok. rewrite Es. by exists (filled d (mask_offset f) buf).
    + unfold size. destruct (a_data a); [by apply Hfit | lia].
Qed.

Lemma needed_inv (now : Z) (p : PeerDigest) (s : state) :
  inv s -> digest s = Some p -> needed p = false -> exists s', peerDigestNeeded now p s = Some s' /\ inv s'.
Proof.
  intros I Ep En. unfold inv in I. rewrite Ep in I. destruct I as [H1 I].
  destruct (fetch s) as [f|] eqn:Ef; [by destruct I as (_ & ? & _); congruence|]. destruct I as (H2 & H3 & H4 & H5).
  destruct (H5 En) as [Hc Hu]. unfold peerDigestNeeded. rewrite En, Hc. eexists. split; [done|].
  unfold inv, peerDigestSetCheck. cbn. rewrite Ef. split; [split; cbn; [done | by rewrite Hu]|].
  rewrite length_app, H4, En. by repeat split.
Qed.

Lemma check_inv (now : Z) (old : bool) (p : PeerDigest) (s : state) (c : list Z) :
  inv (St (Some p) (fetch s) c (pd_last_req_time s)) -> length c = S (length (checks s)) ->
  exists s', peerDigestCheck now old p s = Some s' /\ inv s'.
Proof.
  unfold inv. cbn. intros [H1 I] Hl. destruct (fetch s) as [f|] eqn:Ef; [destruct I as (_ & _ & -> & _); done|].
  destruct I as (H2 & H3 & H4 & H5). rewrite Hl in H4. destruct (needed p) eqn:En; [|done]. injection H4 as H4. apply nil_length_inv in H4.
  unfold peerDigestCheck. rewrite H2. cbn [set_check_time peer_valid t_received]. rewrite H3. cbn [negb].
  set (t := if _ - pd_last_req_time s <? _ then _ else _). destruct (t <=? now); eexists; (split; [done|]).
  - cbn. split; [exact H1|]. rewrite En. by repeat split.
  - cbn. split; [exact H1|]. rewrite Ef, H2, H3, H4, En. by repeat split.
Qed.

Lemma init_inv (now last_req : Z) : inv (init now last_req).
Proof. split; [done|]. by repeat split. Qed.

Lemma exec_inv (o : op) (s : state) : inv s -> op_ok o s -> goes o s (exec o s).
Proof.
  intros I O. destruct o as [now ok k | i now old | a |]; cbn [exec].
  - left. unfold peerDigestLookup. destruct (digest s) as [p|] eqn:Ep; [|by exists s].
    destruct (negb (peer_valid p)); [by exists s|]. destruct (negb ok); [by exists s|]. destruct (needed p) eqn:En; cbn [negb].
    + destruct (usable p) eqn:Eu; cbn [negb]; [|by exists s]. pose proof I as I'. unfold inv in I'. rewrite Ep in I'. destruct I' as [[H1 H2] _].
      destruct (cd p) as [d|] eqn:Ed; [|by destruct (H2 Eu)]. cbn [mbind option_bind]. destruct (lookup_some d k) as [b ->]; [by apply H1|].
      by exists s.
    + destruct (needed_inv now p s I Ep En) as (s' & -> & I'). by exists s'.
  - left. destruct (checks s !! i) as [c|] eqn:Ec; [|by exists s]. apply delete_Permutation in Ec. apply Permutation_length in Ec. cbn [length] in Ec.
    cbn [digest]. destruct (digest s) as [p|] eqn:Ep.
    + apply (check_inv now old p _ (checks s)); [|done]. cbn [fetch pd_last_req_time]. destruct s as [d f cs l]. cbn in *. by subst d.
    + eexists. split; [done|]. unfold inv in *. cbn. rewrite Ep in I. by rewrite I.
  - by apply callback_inv.
  - left. pose proof I as I'. unfold inv in I'. destruct (digest s) as [p|] eqn:Ep; [|by exists s]. destruct (peer_valid p) eqn:Ev; [|by exists s].
    eexists. split; [done|]. unfold peerDigestNotePeerGone. destruct I' as [H1 I']. destruct (fetch s) as [f|] eqn:Ef.
    + destruct I' as (H2 & H3 & H4 & H5). cbn [requested]. rewrite H2. unfold inv. cbn. rewrite ?Ef. split; [exact H1|]. split; [done|]. split; [done|]. by split.
    + destruct I' as (H2 & _). cbn [requested]. rewrite H2. unfold inv. cbn. by rewrite ?Ef.
Qed.

Lemma calls_inv (l : list op) (s : state) : inv s -> ops_ok l s ->
  match exec_all l s with
  | Some s' => inv s'
  | None => exists l1 o l2 s1, l = l1 ++ o :: l2 /\ exec_all l1 s = Some s1 /\ unasked_304 o s1
  end.
Proof.
  revert s. induction l as [|o l IH]; intros s I O; cbn [exec_all]; [done|]. destruct O as [Ho Hl].
  destruct (exec_inv o s I Ho) as [(s1 & E & I1)|[E H]].
  - specialize (IH s1 I1 (Hl s1 E)). rewrite E. cbn [mbind option_bind]. destruct (exec_all l s1); [exact IH|].
    destruct IH as (l1 & o1 & l2 & s2 & -> & E2 & H). exists (o :: l1), o1, l2, s2. split; [done|]. split; [|exact H]. cbn [exec_all]. by rewrite E.
  - rewrite E. cbn [mbind option_bind]. by exists [], o, l, s.
Qed.

(** ** A whole fetch *)

(** The answers that bring the rest [m] of a mask in chunks of [ns] bytes. *)
Fixpoint chunks (now exp : Z) (m : list Z) (ns : list nat) : list answer :=
  match ns with
  | [] => []
  | n :: ns => Answer now (Some (take n m)) false HTTP_OK exp :: chunks now exp (drop n m) ns
  end.

(** An answer with the first [n] bytes of the text. *)
Definition part (now exp : Z) (text : list Z) (n : nat) : answer := Answer now (Some (take n text)) false HTTP_OK exp.

(** The answers to the fetch of an object [o] behind the reply header [hdr]: the header twice from the start, in
    parts of [p1] and [p2] bytes that do not hold it yet and then of [h1] and [h2] that do, [c] bytes from the
    control block on, and the mask. *)
Definition deliver (now exp : Z) (hdr o : list Z) (p1 : list nat) (h1 : nat) (p2 : list nat) (h2 c : nat) (ns : list nat) : list op :=
  map Copied
    (map (part now exp (hdr ++ o)) p1 ++ part now exp (hdr ++ o) h1
     :: map (part now exp (hdr ++ o)) p2 ++ part now exp (hdr ++ o) h2
     :: part now exp o c :: chunks now exp (drop 128 o) ns).

(** The digest after a fetch of the mask [m]. *)
Definition fetched (m : list Z) (s : state) : Prop :=
  fetch s = None /\
  exists p, digest s = Some p /\ peer_valid p = true /\ needed p = true /\
    (usable p = false /\ cd p = None /\ req_result p = Some UselessDigest
     \/ usable p = true /\ exists d, cd p = Some d /\ mask d = m /\ form d).

Lemma enough_more (a : answer) (size : Z) (p : PeerDigest) (f : DigestFetchState) (s : state) :
  peer_valid p = true -> 0 < size -> a_aborted a = false -> peerDigestFetchedEnough a size p f s = Some None.
Proof.
  intros Hv Hs Ha. unfold peerDigestFetchedEnough, enough_reason. rewrite Hv, Ha. cbn [negb].
  rewrite (proj2 (Z.ltb_ge _ _)), (proj2 (Z.eqb_neq _ _)) by lia. done.
Qed.

Lemma enough_end (a : answer) (p : PeerDigest) (f : DigestFetchState) (s : state) (d : CacheDigest) :
  peer_valid p = true -> needed p = true -> a_aborted a = false -> cd p = Some d -> form d -> mask_offset f = mask_size d ->
  exists s', peerDigestFetchedEnough a 0 p f s = Some (Some s') /\ fetched (mask d) s'.
Proof.
  intros Hv Hn Ha Hd Hf Ho. unfold peerDigestFetchedEnough, enough_reason. rewrite Hv, Ha, Hd, Ho. cbn [negb Z.ltb Z.compare Z.eqb].
  destruct (useful_some d Hf) as [b ->]. rewrite Z.eqb_refl. cbn [mbind option_bind negb]. destruct b; cbn; eexists; (split; [done|]); (split; [done|]).
  - eexists. split; [done|]. split; [done|]. split; [done|]. right. split; [done|]. by exists d.
  - eexists. split; [done|]. split; [done|]. split; [done|]. by left.
Qed.

Lemma filled_take (d : CacheDigest) (off n : nat) (m : list Z) :
  form d -> length m = length (mask d) -> (off + n <= length m)%nat -> take off (mask d) = take off m ->
  take (off + n) (mask (filled d (Z.of_nat off) (take n (drop off m)))) = take (off + n) m.
Proof.
  intros _ Hl Ho Ht. cbn [filled mask]. rewrite Nat2Z.id, length_take, length_drop, Ht.
  replace (off + n)%nat with (length (take off m ++ take n (drop off m))) at 1
    by (rewrite length_app, !length_take, length_drop; lia).
  rewrite (app_assoc (take off m)), take_app_length, take_take_drop. done.
Qed.

Lemma chunks_fetched (now exp : Z) (m : list Z) (ns : list nat) (off : nat) (p : PeerDigest) (f : DigestFetchState) (s : state) (d : CacheDigest) :
  peer_valid p = true -> needed p = true -> cd p = Some d -> form d -> length m = length (mask d) ->
  take off (mask d) = take off m -> step f = SwapInMask -> mask_offset f = Z.of_nat off ->
  ns <> [] -> Forall (fun n => 0 < n)%nat ns -> (off + sum_list ns = length m)%nat ->
  exists s', exec_all (map Copied (chunks now exp (drop off m) ns)) (with_fetch p f s) = Some s' /\ fetched m s'.
Proof.
  revert off p f d. induction ns as [|n ns IH]; intros off p f d Hv Hn Hd Hf Hl Ht Es Ho Hne Hpos Hsum; [done|].
  apply Forall_cons in Hpos as [Hn0 Hpos]. change (sum_list (n :: ns)) with (n + sum_list ns)%nat in Hsum. cbn [chunks map exec_all exec].
  set (buf := take n (drop off m)).
  assert (Hb : length buf = n) by (unfold buf; rewrite length_take, length_drop; lia).
  unfold storeClientCallback at 1. cbn [digest fetch with_fetch a_data default]. rewrite Es, Ho. change (id buf) with buf. pose proof (proj1 Hf) as Hsize.
  destruct (write_mask_some (Z.of_nat off) buf p d Hd Hf) as [-> Hf']; [lia | lia |]. cbn [mbind option_bind].
  unfold swap_in_mask. rewrite (enough_more _ (Z.of_nat (length buf))); [|exact Hv | rewrite Hb; lia | reflexivity]. cbn [mbind option_bind set_cd cd mask_offset].
  pose proof (filled_take d off n m Hf Hl ltac:(lia) Ht) as Ht'. fold buf in Ht'.
  set (d' := filled d (Z.of_nat off) buf) in *. change (mask_size d') with (mask_size d). rewrite Hb, Ho.
  assert (Hl' : length m = length (mask d')) by (destruct Hf' as [Hs' _]; change (mask_size d') with (mask_size d) in Hs'; lia).
  destruct (Z.leb_spec (mask_size d) (Z.of_nat off + Z.of_nat n)) as [Hge|Hlt].
  - assert (Hend : (off + n = length m)%nat) by lia.
    destruct ns as [|n' ns]; [|apply Forall_cons in Hpos as [? _]; change (sum_list (n' :: ns)) with (n' + sum_list ns)%nat in Hsum; lia].
    rewrite (proj2 (Z.eqb_eq _ _)) by lia. cbn [negb].
    match goal with |- context [peerDigestFetchedEnough ?a 0 ?p ?f ?s] => destruct (enough_end a p f s d') as (s' & -> & F) end;
      [done | done | done | done | done | cbn; lia |].
    cbn [mbind option_bind chunks map exec_all]. exists s'. split; [done|].
    assert (Em : mask d' = m) by (rewrite Hend in Ht'; rewrite Hl' in Ht' at 1; rewrite !firstn_all in Ht'; done). by rewrite <- Em.
  - rewrite drop_drop. apply (IH (off + n)%nat _ _ d'); try done.
    + cbn [mask_offset copy_next]. lia.
    + intros ->. cbn in Hsum. lia.
    + lia.
Qed.

(** The end of the headers does not depend on what follows them. *)
Lemma headers_end_app (l x : list Z) (e st : Z) : headers_end l e st <> 0 -> headers_end (l ++ x) e st = headers_end l e st.
Proof.
  revert e st. induction l as [|b l IH]; intros e st H.
  - cbn in *. destruct (Z.ltb_spec st 3); [done|]. destruct x; cbn; by rewrite (proj2 (Z.ltb_ge _ _)) by lia.
  - cbn [app headers_end] in *. destruct (st <? 3); [by apply IH | done].
Qed.

Lemma headers_end_take (hdr o : list Z) (h : nat) :
  headersEnd hdr = Z.of_nat (length hdr) -> (0 < length hdr <= h)%nat -> headersEnd (take h (hdr ++ o)) = Z.of_nat (length hdr).
Proof.
  intros E Hl. rewrite take_app, take_ge by lia. unfold headersEnd in *. rewrite headers_end_app; [done | lia].
Qed.

(** Less than the header has no end of headers. *)
Lemma headers_end_prefix (l : list Z) (e st : Z) (n : nat) : (n < length l)%nat -> headers_end l e st = e + Z.of_nat (length l) -> headers_end (take n l) e st = 0 \/ 3 <= st.
Proof.
  revert e st n. induction l as [|c l IH]; intros e st n Hn H; [cbn in Hn; lia|]. cbn [headers_end length] in H.
  destruct (Z.ltb_spec st 3) as [Hst|]; [left | by right]. destruct n as [|n]; [cbn; by rewrite (proj2 (Z.ltb_lt _ _))|].
  cbn [take headers_end]. rewrite (proj2 (Z.ltb_lt _ _)) by done. match goal with |- headers_end _ _ ?x = 0 => set (st' := x) in * end. cbn [length] in Hn.
  destruct (IH (e + 1) st' n) as [?|Hs]; [lia | lia | done|]. exfalso. destruct l as [|d l]; [cbn in Hn; lia|].
  cbn [headers_end length] in H. rewrite (proj2 (Z.ltb_ge _ _)) in H by done. lia.
Qed.

Lemma headersEnd_part (hdr o : list Z) (n : nat) : headersEnd hdr = Z.of_nat (length hdr) -> (n < length hdr)%nat -> headersEnd (take n (hdr ++ o)) = 0.
Proof.
  intros E Hn. rewrite take_app_le by lia. unfold headersEnd in *. destruct (headers_end_prefix hdr 0 1 n Hn) as [?|?]; [lia | done | lia].
Qed.

Lemma exec_copied (a : answer) (l : list answer) (s : state) :
  exec_all (map Copied (a :: l)) s = (s1 ← storeClientCallback a s; exec_all (map Copied l) s1).
Proof. done. Qed.

(** While the header is not complete the fetch asks again from the start. *)
Lemma parts_read (now exp : Z) (hdr o : list Z) (ns : list nat) (l : list answer) (p : PeerDigest) (f : DigestFetchState) (s : state) :
  peer_valid p = true -> offset f = 0 -> (step f = FetchReply \/ step f = SwapInHeaders) -> headersEnd hdr = Z.of_nat (length hdr) ->
  Z.of_nat (length hdr) <= SM_PAGE_SIZE -> Forall (fun n => 0 < n < length hdr)%nat ns ->
  exists f', exec_all (map Copied (map (part now exp (hdr ++ o)) ns ++ l)) (with_fetch p f s) = exec_all (map Copied l) (with_fetch p f' s)
    /\ step f' = step f /\ offset f' = 0 /\ mask_offset f' = mask_offset f.
Proof.
  intros Hv Ho Hst E Hmax Hns. revert f Ho Hst. induction Hns as [|n ns Hn _ IH]; intros f Ho Hst; [by exists f|].
  assert (Hlen : length (take n (hdr ++ o)) = n) by (rewrite length_take, length_app; lia).
  assert (Ecall : storeClientCallback (part now exp (hdr ++ o) n) (with_fetch p f s) = Some (with_fetch p (copy_next (step f) (Z.of_nat n) 0 SM_PAGE_SIZE f) s)).
  { unfold storeClientCallback, fetch_reply, swap_in_headers. cbn [digest fetch with_fetch part a_data default]. change (id (take n (hdr ++ o))) with (take n (hdr ++ o)).
    rewrite Ho, Hlen, !(enough_more _ (Z.of_nat n)) by (done || lia). cbn [Z.eqb negb mbind option_bind].
    rewrite (headersEnd_part hdr o n E) by lia. cbn [Z.eqb]. rewrite (proj2 (Z.leb_gt _ _)) by lia. by destruct Hst as [-> | ->]. }
  destruct (IH (copy_next (step f) (Z.of_nat n) 0 SM_PAGE_SIZE f) Ho Hst) as (f' & E1 & H1 & H2 & H3). exists f'.
  cbn [map app exec_all exec]. rewrite Ecall. cbn [mbind option_bind]. split; [exact E1|]. split; [exact H1|]. by split.
Qed.

Lemma be_num32 (x : Z) : be_num (be32 x) 0 = x mod 2 ^ 32.
Proof. cbn [be_num be32]. change (2 ^ 8) with 256. dlia. Qed.

Lemma i32_be (x : Z) : - 2 ^ 31 <= x < 2 ^ 31 -> i32 (be_num (be32 x) 0) = x.
Proof. intros Hx. rewrite be_num32. unfold wraps. dlia. Qed.

(** What the other side writes is accepted, whatever digest was there before. *)
Lemma set_cblock_accepts {regex : Type} (regexec : regex -> list Z -> bool) (cfg : config) (ws : list world)
    (d : CacheDigest) (c : option CacheDigest) (rest : list Z) :
  promises regexec cfg ws d -> 0 < conf_bits_per_entry cfg < 256 -> (forall d0, c = Some d0 -> form d0) ->
  exists d', peerDigestSetCBlock c (cblock cfg d ++ rest) = Some (Some d') /\ mask_size d' = mask_size d /\ form d'.
Proof.
  intros [(ks & H & _) (Eb & Hc & Hl & Es)] Hbpe Hform. pose proof (h_range _ _ H) as Hr.
  assert (Hcap : capacity d < 2 ^ 31) by (rewrite Eb in Hl; nia).
  assert (E1 : i32 (be_at (cblock cfg d ++ rest) 4 4) = capacity d) by (change (i32 (be_num (be32 (capacity d)) 0) = capacity d); apply i32_be; lia).
  assert (E2 : i32 (be_at (cblock cfg d ++ rest) 16 4) = mask_size d) by (change (i32 (be_num (be32 (mask_size d)) 0) = mask_size d); apply i32_be; lia).
  assert (E3 : be_at (cblock cfg d ++ rest) 20 1 = conf_bits_per_entry cfg).
  { change (0 * 256 + u8 (conf_bits_per_entry cfg) = conf_bits_per_entry cfg). rewrite wrapu_small; lia. }
  assert (E4 : be_at (cblock cfg d ++ rest) 21 1 = 4) by reflexivity.
  assert (E5 : wraps 16 (be_at (cblock cfg d ++ rest) 0 2) = 5) by reflexivity.
  assert (E6 : wraps 16 (be_at (cblock cfg d ++ rest) 2 2) = 3) by reflexivity.
  unfold peerDigestSetCBlock. rewrite E1, E2, E3, E4, E5, E6. cbn [CacheDigestVer fst snd Z.ltb Z.compare Pos.compare Pos.compare_cont orb].
  rewrite !(proj2 (Z.leb_gt _ _)) by lia. cbn [orb Z.leb Z.compare].
  rewrite <- Eb, <- Es, Z.eqb_refl. cbn [negb].
  assert (exists d0, (match (match c with Some d0 => if mask_size d =? mask_size d0 then Some d0 else None | None => None end) with
    | Some d0 => Some d0 | None => cacheDigestCreate (capacity d) (bits_per_entry d) end) = Some d0 /\ form d0 /\ mask_size d0 = mask_size d)
    as (d0 & E & F & S).
  { destruct (create_form (capacity d) (bits_per_entry d)) as (d0 & E0 & F0 & S0); [lia | lia | lia |].
    destruct c as [d1|]; [destruct (Z.eqb_spec (mask_size d) (mask_size d1)) as [S1|S1]|]; eexists;
      (split; [done|]); (split; [auto; fail|]); congruence. }
  change (CacheDigestHashFuncCount) with 4. cbn [Z.eqb Pos.eqb negb]. rewrite E. cbn [mbind option_bind]. by eexists.
Qed.

Section Fetch.
Context {regex : Type}.
Variable regexec : regex -> list Z -> bool.
Variable cfg : config (regex := regex).

Lemma cblock_length (d : CacheDigest) : length (cblock cfg d) = 128%nat.
Proof. reflexivity. Qed.

Lemma object_fetched (ws : list world) (d : CacheDigest) (hdr : list Z) (now exp : Z) (p1 : list nat) (h1 : nat) (p2 : list nat) (h2 c : nat) (ns : list nat)
    (s : state) (p : PeerDigest) (f : DigestFetchState) :
  promises regexec cfg ws d -> 0 < conf_bits_per_entry cfg < 256 ->
  digest s = Some p -> fetch s = Some f -> peer_valid p = true -> fetching p f s -> step f = FetchReply ->
  headersEnd hdr = Z.of_nat (length hdr) -> Z.of_nat (length hdr) <= SM_PAGE_SIZE -> Forall (fun n => 0 < n < length hdr)%nat (p1 ++ p2) ->
  (0 < length hdr <= h1)%nat -> (length hdr <= h2)%nat -> (128 <= c)%nat ->
  Forall (fun n => 0 < n)%nat ns -> sum_list ns = length (mask d) ->
  exists s', exec_all (deliver now exp hdr (written cfg d) p1 h1 p2 h2 c ns) s = Some s' /\ fetched (mask d) s'.
Proof.
  intros Hd Hbpe Ep Ef Hv (Hcd & Hn & Hq & Hch & Hf) Es Hhdr Hmax [Hp1 Hp2]%Forall_app Hh1 Hh2 Hc Hns Hsum.
  unfold fetch_ok in Hf. rewrite Es in Hf. destruct Hf as [Ho Hm]. set (o := written cfg d).
  assert (Hpos : forall h, (length hdr <= h)%nat -> 0 < Z.of_nat (length (take h (hdr ++ o)))).
  { intros h Hh. rewrite length_take, length_app. lia. }
  replace s with (with_fetch p f s) by (destruct s; cbn in *; by subst). clear Ep Ef. unfold deliver.
  match goal with |- context [map Copied (_ ++ ?l)] => destruct (parts_read now exp hdr o p1 l p f s Hv Ho (or_introl Es) Hhdr Hmax Hp1) as (f1 & -> & Es1 & Ho1 & Hm1) end.
  rewrite Es in Es1. rewrite Hm in Hm1. clear Es Ho Hm f. rename f1 into f, Es1 into Es, Ho1 into Ho, Hm1 into Hm.
  rewrite exec_copied. unfold storeClientCallback at 1. cbn [digest fetch with_fetch part a_data default]. rewrite Es. unfold fetch_reply at 1. rewrite Ho. cbn [Z.eqb negb].
  rewrite (enough_more _ (Z.of_nat (length (take h1 (hdr ++ o))))); [|exact Hv | apply Hpos; lia | reflexivity]. cbn [mbind option_bind id].
  rewrite (headers_end_take hdr o h1 Hhdr) by lia. rewrite (proj2 (Z.eqb_neq (Z.of_nat (length hdr)) 0)) by lia. cbn [part a_status].
  change (HTTP_OK =? HTTP_NOT_MODIFIED) with false. change (HTTP_OK =? HTTP_OK) with true. cbn iota. cbn [mbind option_bind].
  match goal with |- context [map Copied (_ ++ ?l)] =>
    destruct (parts_read now exp hdr o p2 l p (copy_next SwapInHeaders 0 0 SM_PAGE_SIZE (no_old f)) s Hv Ho (or_intror eq_refl) Hhdr Hmax Hp2) as (f2 & E2 & Es2 & Ho2 & Hm2) end.
  change (with_fetch p (copy_next SwapInHeaders 0 0 SM_PAGE_SIZE (no_old f)) (with_fetch p f s)) with (with_fetch p (copy_next SwapInHeaders 0 0 SM_PAGE_SIZE (no_old f)) s).
  rewrite E2. cbn [step copy_next mask_offset no_old] in Es2, Hm2. rewrite Hm in Hm2. clear E2.
  rewrite exec_copied. unfold storeClientCallback at 1. cbn [digest fetch with_fetch part a_data default]. rewrite Es2. unfold swap_in_headers at 1.
  rewrite (enough_more _ (Z.of_nat (length (take h2 (hdr ++ o))))); [|exact Hv | apply Hpos; lia | reflexivity]. cbn [mbind option_bind id].
  rewrite Ho2. cbn [Z.eqb negb]. rewrite (headers_end_take hdr o h2 Hhdr) by lia.
  rewrite (proj2 (Z.eqb_neq (Z.of_nat (length hdr)) 0)) by lia. cbn [part a_status].
  change (HTTP_OK =? HTTP_OK) with true. cbn [negb mbind option_bind].
  rewrite exec_copied. unfold storeClientCallback at 1. cbn [digest fetch with_fetch step copy_next part a_data default]. unfold swap_in_cblock at 1.
  assert (Ebuf : take c o = cblock cfg d ++ take (c - 128) (mask d)).
  { unfold o, written. rewrite take_app, cblock_length, take_ge by (rewrite cblock_length; lia). done. }
  assert (Hbuf : 128 <= Z.of_nat (length (take c o))) by (rewrite Ebuf, length_app, cblock_length; lia).
  rewrite (enough_more _ (Z.of_nat (length (take c o)))); [|exact Hv | lia | reflexivity]. cbn [mbind option_bind id].
  rewrite (proj2 (Z.leb_le StoreDigestCBlockSize (Z.of_nat (length (take c o))))) by exact Hbuf.
  destruct (set_cblock_accepts regexec cfg ws d (cd p) (take (c - 128) (mask d)) Hd Hbpe (proj1 Hcd)) as (d' & E & Esz & Hform).
  rewrite Ebuf, E. cbn [mbind option_bind].
  destruct Hd as [(ks & H & _) _]. pose proof (h_size _ _ H) as Hsz. pose proof (h_range _ _ H) as Hr.
  assert (Eo : drop 128 o = drop 0 (mask d)) by (unfold o, written; by rewrite drop_app_length' by by rewrite cblock_length). rewrite Eo.
  match goal with |- context [exec_all _ (with_fetch ?q ?g ?t)] => apply (chunks_fetched now exp (mask d) ns 0 q g t d') end;
    [exact Hv | exact Hn | reflexivity | exact Hform | destruct Hform; lia | done | done | done | | done | done].
  intros ->. cbn in Hsum. lia.
Qed.
End Fetch.

(** C38: lookups, checks, answers of the store (of no more bytes than were asked for) and the end of the peer, in
    any order: no mask is overrun, and the only answer that fails an assertion is "not modified" from a peer that was
    not asked about an object of the store; otherwise a digest once looked up has exactly one fetch running or one
    check scheduled, so that it is never forgotten and never fetched twice at a time; one that is usable has a
    mask; and without a digest no fetch runs. *)
Theorem peer_digest_safe (now last_req : Z) (l : list op) :
  ops_ok l (init now last_req) ->
  match exec_all l (init now last_req) with
  | None => exists l1 o l2 s, l = l1 ++ o :: l2 /\ exec_all l1 (init now last_req) = Some s /\ unasked_304 o s
  | Some s =>
       match digest s with
       | None => fetch s = None
       | Some p =>
           (length (checks s) + match fetch s with Some _ => 1 | None => 0 end = if needed p then 1 else 0)%nat
           /\ requested p = bool_decide (fetch s <> None)
           /\ (usable p = true -> exists d, cd p = Some d /\ Z.of_nat (length (mask d)) = mask_size d)
       end
  end.
Proof.
  intros O. pose proof (calls_inv l (init now last_req) (init_inv now last_req) O) as I. destruct (exec_all l (init now last_req)) as [s|]; [|exact I].
  unfold inv in I. destruct (digest s) as [p|]; [|done]. destruct I as [[H1 H2] I].
  assert (Hu : usable p = true -> exists d, cd p = Some d /\ Z.of_nat (length (mask d)) = mask_size d).
  { intros U. destruct (cd p) as [d|] eqn:Ed; [|by destruct (H2 U)]. exists d. split; [done|]. by apply H1. }
  destruct (fetch s) as [f|].
  - destruct I as (R & N & C & _). rewrite C, N, R. split; [done|]. by rewrite bool_decide_eq_true_2.
  - destruct I as (R & V & C & _). rewrite C, R. split; [destruct (needed p); done|]. by rewrite bool_decide_eq_false_2 by tauto.
Qed.

(** C37: an object that the other side published (with fewer than 256 bits per entry) is fetched by a peer that waits for
    the reply, the header of the reply (of at most a page) in any parts, the control block in one piece with or
    without the start of the mask, the mask in any parts: the fetch ends, and either the mask has too many bits on
    and the digest is dropped, or from then on the peer expects every object that stayed in the other cache to be
    there.  A control block in two parts is not read (lemma [split_cblock_refused]). *)
Theorem peer_expects {regex : Type} (regexec : regex -> list Z -> bool) (cfg : config) (w : world) (l : list StoreDigest.op)
    (sd0 : sd) (o hdr : list Z) (now exp : Z) (p1 : list nat) (h1 : nat) (p2 : list nat) (h2 c : nat) (ns : list nat) (s : state) (p : PeerDigest) (f : DigestFetchState) :
  config_ok cfg -> conf_bits_per_entry cfg < 256 -> Forall (sane regexec cfg) (w :: worlds_of l) ->
  (s ← storeDigestInit cfg w; s ← storeDigestNoteStoreReady cfg w s; StoreDigest.exec_all regexec cfg l s) = Some sd0 ->
  o ∈ published sd0 ->
  inv s -> digest s = Some p -> fetch s = Some f -> peer_valid p = true -> step f = FetchReply ->
  headersEnd hdr = Z.of_nat (length hdr) -> Z.of_nat (length hdr) <= SM_PAGE_SIZE -> Forall (fun n => 0 < n < length hdr)%nat (p1 ++ p2) ->
  (0 < length hdr <= h1)%nat -> (length hdr <= h2)%nat -> (128 <= c)%nat ->
  Forall (fun n => 0 < n)%nat ns -> (128 + sum_list ns = length o)%nat ->
  exists s' p', exec_all (deliver now exp hdr o p1 h1 p2 h2 c ns) s = Some s' /\ fetch s' = None /\ digest s' = Some p'
    /\ (usable p' = false /\ cd p' = None /\ req_result p' = Some UselessDigest
        \/ forall x t, stays regexec cfg (w :: worlds_of l) x -> peerDigestLookup t true (key x.2) s' = Some (LOOKUP_HIT, s')).
Proof.
  intros Hc Hb Hs E Ho I Ep Ef Hv Es Hhdr Hmax Hp Hh1 Hh2 Hc' Hns Hsum.
  destruct (run_inv regexec cfg w l Hc Hs) as (sd1 & E1 & [C _]). assert (sd1 = sd0) as -> by congruence.
  pose proof (i_published _ _ _ _ _ C) as P. rewrite Forall_forall in P. destruct (P o Ho) as (d & V & ->).
  apply covers_promises in V. pose proof (c_bpe _ Hc).
  assert (F : fetching p f s).
  { unfold inv in I. rewrite Ep, Ef in I. destruct I as (H1 & H2 & H3 & H4 & H5). repeat split; try done; by apply H1. }
  destruct (object_fetched regexec cfg (w :: worlds_of l) d hdr now exp p1 h1 p2 h2 c ns s p f) as (s' & E' & Hf & p' & Ep' & Hv' & Hn' & Hr);
    try done; [unfold written in Hsum; rewrite length_app, cblock_length in Hsum; lia|].
  exists s', p'. split; [done|]. split; [done|]. split; [done|].
  destruct Hr as [Hr|(Hu & d' & Ed & Em & Hform)]; [by left|]. right. intros x t Hx.
  destruct (promises_tests _ _ _ _ V) as [T _]. specialize (T x Hx). unfold peerDigestLookup. rewrite Ep', Hv', Hn', Hu, Ed. cbn [negb].
  cbn [mbind option_bind]. assert (Esz : mask_size d' = mask_size d).
  { destruct V as [(ks & H' & _) _]. pose proof (h_size _ _ H') as H1. destruct Hform as [H2 _]. rewrite Em in H2. lia. }
  unfold cacheDigestTest, cacheDigestHashKey in T |- *. rewrite Em, Esz, T. done.
Qed.

(** ** Runs *)

Definition reply_header : list Z := bytes "HTTP/1.0 200 Cache Digest OK" ++ [13; 10; 13; 10].

Definition demo_answer (l : list Z) : answer := Answer 2000 (Some l) false HTTP_OK 5600.

(** A lookup, the check, the reply and its loss; the peer goes away while the next
    request is open. *)
Definition demo_calls : list op :=
  [Lookup 2000 true (key demo_entry); Check 0 2000 false; Copied (demo_answer (bytes "HTTP/1.0")); Copied (Answer 2010 None false 0 0);
   Check 0 2310 false; PeerGone; Copied (demo_answer reply_header)].

Lemma peer_digest_safe_witness :
  ops_ok demo_calls (init 2000 0) /\ match exec_all demo_calls (init 2000 0) with Some s => digest s = None /\ fetch s = None | None => False end.
Proof.
  assert (O : ops_ok demo_calls (init 2000 0)).
  { repeat (split; [try exact I; intros l El; (discriminate || (injection El as <-; vm_compute; discriminate))|]; intros s' El; vm_compute in El; injection El as <-). exact I. }
  split; [exact O|]. pose proof (peer_digest_safe 2000 0 demo_calls O) as H. vm_compute in H |- *. by split.
Defined.

(** The object of the run in StoreDigest, and a peer that waits for it. *)
Definition demo_object : list Z := [0; 5; 0; 3; 0; 0; 0; 3; 0; 0; 0; 1; 0; 0; 0; 0; 0; 0; 0; 2; 5; 4] ++ replicate 106 0 ++ [2; 0].
Definition demo_peer : PeerDigest := PD true None None true false true 2000 0 0 2000 0 0.
Definition demo_fetch : DigestFetchState := Fetch false 0 0 2000 FetchReply 0 0 4096.
Definition demo_fetching : state := St (Some demo_peer) (Some demo_fetch) [] 2000.

Lemma fetching_reached : exec_all [Lookup 2000 true []; Check 0 2000 false] (init 2000 0) = Some demo_fetching.
Proof. reflexivity. Qed.

Lemma fetching_inv : inv demo_fetching.
Proof. split; [done|]. by repeat split. Qed.

Lemma demo_sane : Forall (sane (fun _ _ => true) demo_conf) (demo_world [] :: worlds_of demo_ops).
Proof.
  repeat (apply Forall_cons; split); try apply Forall_nil_2;
    (split; [repeat (apply Forall_cons; split); try apply Forall_nil_2; vm_compute; discriminate | split; vm_compute; reflexivity]).
Qed.

Lemma demo_published :
  exists sd0, (s ← storeDigestInit demo_conf (demo_world []); s ← storeDigestNoteStoreReady demo_conf (demo_world []) s;
    StoreDigest.exec_all (fun _ _ => true) demo_conf demo_ops s) = Some sd0 /\ demo_object ∈ published sd0.
Proof. eexists. split; [vm_compute; reflexivity|]. apply list_elem_of_singleton. vm_compute. reflexivity. Qed.

Lemma peer_expects_witness :
  exists s', exec_all (deliver 2000 5600 reply_header demo_object [9; 20]%nat 40 [] 64 128 [1; 1]%nat) demo_fetching = Some s'
    /\ peerDigestLookup 2000 true (key demo_entry) s' = Some (LOOKUP_HIT, s').
Proof.
  destruct demo_published as (sd0 & Er & Hin).
  destruct (peer_expects (fun _ _ => true) demo_conf (demo_world []) demo_ops sd0 demo_object reply_header 2000 5600 [9; 20]%nat 40 [] 64 128 [1; 1]%nat
    demo_fetching demo_peer demo_fetch) as (s' & p' & E & Hf & Hp & [(Hu & _ & _)|H]);
    [split; vm_compute; reflexivity | reflexivity | exact demo_sane | exact Er | exact Hin | exact fetching_inv
    | reflexivity | reflexivity | reflexivity | reflexivity | vm_compute; reflexivity | vm_compute; discriminate | apply (bool_decide_unpack _); vm_compute; exact I
    | split; apply (Nat.leb_le _ _); vm_compute; reflexivity | apply (Nat.leb_le _ _); vm_compute; reflexivity
    | apply (Nat.leb_le _ _); vm_compute; reflexivity | apply (bool_decide_unpack _); vm_compute; exact I
    | vm_compute; reflexivity | |].
  - exfalso. vm_compute in E. injection E as <-. vm_compute in Hp. injection Hp as <-. discriminate Hu.
  - exists s'. split; [exact E|]. apply (H (0%nat, demo_entry) 2000). split; [vm_compute; reflexivity|].
    repeat (apply Forall_cons; split); try apply Forall_nil_2;
      (split; [eexists; split; [reflexivity | apply list_elem_of_singleton; reflexivity] | vm_compute; reflexivity]).
Defined.

(** A control block of which less than 128 bytes are there is asked for again from
    the start of the object, so that the reply header is taken for it and the
    digest is refused. *)
Lemma split_cblock_refused :
  let got n := demo_answer (take n (reply_header ++ demo_object)) in
  (s ← exec_all [Copied (got 40%nat); Copied (got 64%nat); Copied (demo_answer (take 100 demo_object));
                 Copied (got 162%nat)] demo_fetching;
   p ← digest s; Some (cd p, req_result p, t_retry_delay p)) = Some (None, Some InvalidCBlock, 300).
Proof. vm_compute. reflexivity. Qed.

(** "Not modified" about an object that is not there fails an assertion. *)
Lemma not_modified_dies : exec (Copied (Answer 2000 (Some reply_header) false HTTP_NOT_MODIFIED 0)) demo_fetching = None.
Proof. vm_compute. reflexivity. Qed.
End PeerDigest.
